(* ===== verification/_CoqProject ===== *)
-Q . S2P
Prelude.v
GoLib.v
GoJson.v
CodecLayer.v
GoMarshal.v
RawJson.v
DomainValues.v
TaskEntity.v
LeaseEntity.v
AgentSessionEntity.v
VoterSetEntity.v
DeviceEntity.v
PlanMemoryEntity.v
PolicyEntity.v
ConflictEntity.v
PublicationEntity.v
CredentialEntity.v
EventModel.v
EventWire.v
CheckpointCodec.v
ChainCommitments.v
ReducerState.v
PolicyUse.v
Preflight.v
StateRefs.v
PlanMemoryState.v
PublicationState.v
ReducerLogic.v
TaskReducers.v
LeaseReducers.v
PlanReducers.v
PublicationReducers.v
MembershipReducers.v
CredentialReducers.v
MembershipState.v
RepositoryState.v
SessionReducers.v
StateChanges.v
StateApply.v
StateLoad.v
StateIndexes.v
Dispatch.v
Fixtures.v
TaskProofs.v
LeaseProofs.v
SessionProofs.v
EntityProofs.v
DispatchProofs.v
PublicationProofs.v
MembershipTheorems.v
ChainProofs.v
ChainTheorems.v
StateProofs.v
StateTheorems.v
LoadProofs.v
PeerAdmission.v
PeerProofs.v
ProjectionRows.v
ProjectionStore.v
ProjectionStream.v
ProjectionProofs.v
StoredDigest.v
ProjectionTheorems.v
StoreRecords.v
CommandPayload.v
StoreResults.v
StoreApply.v
StoreBoundary.v
StoreSound.v
StoreTheorems.v
CanonicalCoverage.v
StateMapping.v
ConsensusFSM.v
DurableRows.v
StoreReplicas.v
ConsensusProofs.v
ConsensusTheorems.v
VoterReconciliation.v
ReconciliationProofs.v
ReconciliationLiveness.v
