(* ===== verification/Prelude.v ===== *)
(** * CodeComm: a verification library for the coordination core

    CodeComm is a daemon through which several devices and their coding agents
    share one workspace. Every change is a signed event that a replicated log
    orders. On each device a state machine takes the committed entries: it
    authenticates the event, a pure reducer admits it against the committed
    state, decides the outcome and returns the rows to write, the store commits
    them with the evidence of the command, and the state in memory follows. The
    leader reconciles the voters of the log with the target that the committed
    state names. This library models that path from the Go source under
    src/internal/ and proves what it promises.

    ** Parts of the program and files of the library

    Ground.

    - Prelude: machine integers, the notations for Go's [if err != nil] chains
      ([refuse], [check], [throw], [ensure]), the loops of the validators and
      their lemmas.
    - GoLib: what the source uses of Go's standard library (UTF-8, strings,
      sort, slices, hex), and the interfaces [NormLib] (Unicode NFC) and
      [CryptoLib] (SHA-256 and Ed25519 verification).
    - GoJson, GoMarshal, RawJson: encoding/json's reader ([Module JSON]) and
      writer ([Module Marshal]); that the reader takes the writer's text back and
      looks no further than a value. [Module GoStruct] of CanonicalCoverage:
      decoding into a structure.
    - CodecLayer: internal/codec and the verification of internal/crypto. The
      RFC 8785 printer is outside the repository: the interface [JCSLib].

    Domain and events.

    - DomainValues, TaskEntity, LeaseEntity, AgentSessionEntity, VoterSetEntity,
      DeviceEntity, PlanMemoryEntity, PolicyEntity, ConflictEntity,
      PublicationEntity, CredentialEntity: one module per package of
      internal/domain, with its data, validators and transition tables under the
      source's names. A Go method [T.M] is [M], or [T_M] where a package has
      several types with a method [M].
    - EventModel, EventWire, CheckpointCodec: internal/event.
    - ChainCommitments: internal/chain.

    The reducer (internal/reducer).

    - ReducerState (state, change sets, outcomes, the [Reduction] monad),
      Preflight (admission of an event), StateRefs, PolicyUse, PlanMemoryState,
      PublicationState (the reads and checks that handlers share), TaskReducers,
      LeaseReducers, SessionReducers, PlanReducers, PublicationReducers,
      MembershipReducers, CredentialReducers (the handler of every kind),
      Dispatch ([Reduce]).
    - StateChanges, MembershipState, RepositoryState, StateApply: the checks and
      the writes of [State.Apply]. StateLoad: [NewState].

    Admission of peers, storage, consensus.

    - PeerAdmission: internal/peerauth's snapshot and verifiers, and the parsed
      certificates of internal/transport.
    - ProjectionRows, ProjectionStore, ProjectionStream: the seventeen covered
      tables of internal/store, their mutation sets, the scratch copy, the stream
      and the rewind (projections.go, projection_*.go).
    - StoreRecords, CommandPayload, StoreResults, StoreApply, StoreBoundary: the
      records of commands, [Store.Apply] and [Store.Initialize] (records.go,
      command_result_payload.go, command_lookup.go, apply.go, boundary.go).
    - CanonicalCoverage: [Module Signing] (internal/crypto), [Module Coverage]
      (internal/canonicalcoverage).
    - StateMapping: internal/consensus from an outcome to the write set
      (apply_request.go, [Module ApplyMapping]) and from the durable view to the
      state in memory (state_decode.go, [Module StateDecode]).
    - ConsensusFSM: [Module ChangeFeed] and [Module FSM] (change_feed.go, fsm.go,
      fsm_apply_state.go).
    - VoterReconciliation: [Module Topology] (raft_configuration.go),
      [Module Readiness] (configuration_readiness.go), [Module Reconciliation]
      (the planner, the evidence, the round, and the attempts to change the
      configuration or transfer the leadership).

    The other files hold lemmas, fixtures and theorems: ReducerLogic (inversion
    of reductions), Fixtures (concrete inputs), StateIndexes, TaskProofs,
    LeaseProofs, SessionProofs, EntityProofs, DispatchProofs, PublicationProofs,
    MembershipTheorems, ChainProofs, ChainTheorems, StateProofs, StateTheorems,
    LoadProofs, PeerProofs, ProjectionProofs, StoredDigest, ProjectionTheorems,
    StoreSound, StoreTheorems, DurableRows, StoreReplicas, ConsensusProofs,
    ConsensusTheorems, ReconciliationProofs, ReconciliationLiveness.

    ** How the code is represented

    A Go function that returns [error] is an [option] of the package's
    sentinels ([None] is nil); [(T, error)] is a sum. Sentinels wrapped with
    [%w] are identified with the sentinel. An enumeration is an inductive type
    with one constructor per constant and one for every other text. [uint64] is
    [N], its only increments are written with [u64_succ], which wraps; [int64]
    is [Z]; strings are byte strings; Go maps are [gmap]s, a missing key of a
    map of slices being the empty slice. A handler is a [Reduction]: [Val] goes
    on, [Done] is an early outcome, [Fail] is the error return; [let!]
    sequences them. Cloning a row is the identity on immutable values. Where the
    source writes an object that another holder still reads, the writes are
    modelled for both: [State.Apply] writes maps that every copy of the struct
    shares, and [FSM.Apply] applies a change set to a copy of the state in memory,
    so [ApplyInPlace] returns the receiver and what the copy reads afterwards, and
    a call of the machine that fails returns the machine with those writes. A SQL
    transaction is a function on the tables that either returns the tables
    after it or an error and none. A mutex is the order of the calls: a run is a
    sequence of them. What the network, the clock, the context or a provider
    answers is an argument.

    Code outside the repository is a class, and each has a concrete instance in
    the witnesses: [NormLib]; [CryptoLib]; [SigningLib] (a signature of a key
    verifies); [JCSLib], with [JCSTrimmed] and [JCSKeys] (canonical text has no
    outer white space and tells arrays of texts and integers apart); [SQLiteJSON]
    ([json_array]); [FlateLib] (inflate undoes deflate); [ProjectionStore.Schema]
    and [StoreSchema] (what the clauses of the SQL schema admit); [DeviceTables]
    (tables of one device that a command touches); [RaftLib] (the configuration
    after a change).

    ** What the theorems show

    - The replicated machine (ConsensusTheorems, LoadProofs): on every run from
      a start, the state in memory of a running machine is the one in the store;
      every row is valid under its key and the tables satisfy every invariant of
      [State.Apply] and [NewState]; an acknowledged entry is stored under its own
      bytes with its result; replicas that apply the same entries hold the same
      replicated tables and answers whatever their clocks; a halt is final, the
      store is as before the refused entry, and the rows that the entry may have
      left in memory are never read.
    - The committed state (StateTheorems): the canonical ref has one history, an
      origin's sequence is consumed once, a refusal of an authentic proposal can
      always be recorded, rows stay within the policy, an active owner remains,
      and the plan and the memory have one unforked past.
    - The store (StoreTheorems, ProjectionTheorems): each recorded result is found
      again and verifies along the hash chain, a command is applied once, frames
      round-trip, the scratch copy simulates the store, and the digest at an
      earlier cut is recovered by the rewind.
    - Commitments (ChainTheorems): the streamed digest is the reference digest,
      and digests, chains and accumulators bind their inputs.
    - The reducer (TaskProofs, LeaseProofs, SessionProofs, PublicationProofs,
      MembershipTheorems, DispatchProofs, EntityProofs): only an authentic,
      authorized and next proposal reaches a handler; one winner per version;
      exclusive reservations; acyclic dependencies, decided by a walk that
      ends; the cascade of a session end; legal publications, activations and
      credentials; the last owner.
    - Peers (PeerProofs): the advanced snapshot is the rebuilt one; who is
      admitted, and that a revoked peer is not.
    - Voters (CanonicalCoverage, ReconciliationProofs, ReconciliationLiveness): an
      accepted candidate proves that a majority of the target holds the current
      commit; a change of the configuration keeps a ready quorum that meets every
      quorum before it; and, when its actions take effect and the targets stay
      ready, the reconciler ends at its target, the handover to a new leader
      included, in a bounded number of rounds.

    ** Bounds and fuel

    [Task.walk] is fuelled by [walk_fuel], 4098 passes: each pass that does not
    stop reads a task not read before, and the source stops at 4096;
    [dependency_walk_decides] includes that the fuel is never exhausted and that
    more of it changes nothing. The JSON reader is fuelled by twice the input
    length plus two, since every nested call consumes a byte. The reconciler's
    loop is bounded by the measure [todo]: twice the missing and twice the
    unvoting target devices, the extra devices, and one each for a missing proof,
    the authority and the leader. Each executed plan lowers it, and it is at most
    three times the target plus eleven.

    ** Not modelled

    - The Raft library, its transport and its snapshots, and the life cycle of
      the node that drives them (consensus/node.go and the protocols of checkpoint
      proofs, activation, credential renewal and status): third-party code,
      futures, timers and goroutines. [FSM.StoreConfiguration] takes a type of
      that library; of the reconciler, the staging proof and the wait for a
      transferred leader go over the network.
    - Logical snapshots, replication, the migrations and the local tables of the
      store: SQL text and streams of files. [DeviceTables] stands for the local
      tables that a command touches.
    - X.509 issuing and parsing, TLS, discovery, pairing, content transfer, IPC,
      the command line, MCP, the agents, the status and the user interface:
      input and output, process control and rendering.
    - Key generation and keys on disk.

    ** Plan

    Next, in this order: the rows of a durable database decode to the state that
    wrote them (a restart loses nothing); a signed receipt parses back; the
    batches and the acknowledgements of internal/replication and their import
    into the store; the status of the reconciler. *)

From stdpp Require Import base gmap strings list sorting fin_maps.
From Stdlib Require Import ZArith NArith Lia.

(** ** Machine integers

    [uint64] and [uint8] values are [N]; the two places where the source
    increments a 64-bit counter use [u64_succ], which wraps as Go does. *)

Definition u64_modulus : N := 18446744073709551616.
Definition u64_succ (v : N) : N := ((v + 1) mod u64_modulus)%N.

(** The conversion [uint64(v)] of an [int64]. *)
Definition u64_of_int64 (v : Z) : N := Z.to_N (v mod Z.of_N u64_modulus)%Z.

(** ** Go strings

    A Go string is a byte sequence; [string] is the Stdlib byte string, its
    order ([String.leb], [String.ltb]) is the bytewise order of Go's [<]. *)

Definition strlen (s : string) : N := N.of_nat (String.length s).
Definition llen {A} (l : list A) : N := N.of_nat (length l).
Definition str_lt (a b : string) : Prop := String.ltb a b = true.

(** ** Notations of the development *)

Declare Scope go_scope.
Delimit Scope go_scope with go.

(** Go's [==] and [!=] on comparable values. *)
Notation "a == b" := (bool_decide (a = b)) (at level 70, no associativity) : go_scope.
Notation "a != b" := (negb (bool_decide (a = b))) (at level 70, no associativity) : go_scope.

(** A Go function that returns [error] is an [option]: [None] is [nil].
    [refuse e when c ;; k] is [if c { return e }; k] and
    [check a ;; k] is [if err := a; err != nil { return err }; k]. *)
Notation "'refuse' e 'when' c ';;' k" :=
  (if c%bool then Some e else k)
  (at level 10, e at level 9, c at level 99, k at level 200) : go_scope.
Notation "'check' a ';;' k" :=
  (match a with Some err => Some err | None => k end)
  (at level 10, a at level 99, k at level 200) : go_scope.

(** A Go function that returns a value and an [error] is a sum:
    [let* x := m in k] is [x, err := m; if err != nil { return err }; k]. *)
Definition and_then {E A B} (m : E + A) (k : A → E + B) : E + B :=
  match m with inl err => inl err | inr x => k x end.

Notation "'let*' x ':=' m 'in' k" := (and_then m (λ x, k))
  (at level 10, x pattern, m at level 99, k at level 200) : go_scope.
(** [throw e when c ;; k] is [if c { return e }; k] in such a function, and
    [ensure a ;; k] is [if err := a; err != nil { return err }; k]. *)
Notation "'throw' e 'when' c ';;' k" :=
  (if c%bool then inl e else k)
  (at level 10, e at level 9, c at level 99, k at level 200) : go_scope.
Notation "'ensure' a ';;' k" :=
  (match a with Some err => inl err | None => k end)
  (at level 10, a at level 99, k at level 200) : go_scope.

Open Scope go_scope.

(** ** Loops shared by the validators

    [scan_entries]: [for _, x := range l { if err := entry(x) ... }].
    [scan_sorted]: the same loop, which also refuses an entry whose key is
    not strictly above the previous one ([index > 0 && previous >= current]). *)

Fixpoint scan_entries {A E} (entry : A → option E) (l : list A) : option E :=
  match l with
  | [] => None
  | x :: r => check entry x ;; scan_entries entry r
  end.

Fixpoint scan_sorted {A E} (key : A → string) (entry : A → option E) (order : E)
    (previous : option string) (l : list A) : option E :=
  match l with
  | [] => None
  | x :: r =>
      check entry x ;;
      refuse order when (if previous is Some p then String.leb (key x) p else false) ;;
      scan_sorted key entry order (Some (key x)) r
  end.

(** Removal of adjacent duplicates: the [write]/[read] loop that follows a sort. *)
Fixpoint compact_from {A} `{EqDecision A} (kept : A) (l : list A) : list A :=
  match l with
  | [] => [kept]
  | x :: r => if x == kept then compact_from kept r else kept :: compact_from x r
  end.

Definition compact {A} `{EqDecision A} (l : list A) : list A :=
  match l with [] => [] | x :: r => compact_from x r end.

(** ** Inversion of check chains *)

Lemma refuse_None {E} (c : bool) (e : E) (k : option E) :
  (if c then Some e else k) = None ↔ c = false ∧ k = None.
Proof. destruct c; naive_solver. Qed.

Lemma check_None {E} (a k : option E) :
  (match a with Some err => Some err | None => k end) = None ↔ a = None ∧ k = None.
Proof. destruct a; naive_solver. Qed.

Lemma negb_decide_false (P : Prop) `{Decision P} : negb (bool_decide P) = false ↔ P.
Proof. case_bool_decide; naive_solver. Qed.

Lemma decide_false (P : Prop) `{Decision P} : bool_decide P = false ↔ ¬ P.
Proof. case_bool_decide; naive_solver. Qed.

Lemma decide_true (P : Prop) `{Decision P} : bool_decide P = true ↔ P.
Proof. case_bool_decide; naive_solver. Qed.

Create Rewrite HintDb go_bool.
#[export] Hint Rewrite @negb_decide_false @decide_false @decide_true
  orb_true_iff orb_false_iff andb_true_iff andb_false_iff negb_true_iff negb_false_iff
  N.ltb_lt N.ltb_ge N.leb_le N.leb_gt N.eqb_eq N.eqb_neq
  Z.ltb_lt Z.ltb_ge Z.leb_le Z.leb_gt Z.eqb_eq Z.eqb_neq : go_bool.

Lemma and_then_inr {E A B} (m : E + A) (k : A → E + B) b :
  and_then m k = inr b ↔ ∃ a, m = inr a ∧ k a = inr b.
Proof. destruct m; simpl; naive_solver. Qed.

Lemma and_then_inl {E A B} (m : E + A) (k : A → E + B) e :
  and_then m k = inl e ↔ m = inl e ∨ ∃ a, m = inr a ∧ k a = inl e.
Proof. destruct m; simpl; naive_solver. Qed.

Lemma throw_inr {E A} (c : bool) (e : E) (k : E + A) b :
  (if c then inl e else k) = inr b ↔ c = false ∧ k = inr b.
Proof. destruct c; naive_solver. Qed.

Lemma ensure_inr {E A} (a : option E) (k : E + A) b :
  (match a with Some err => inl err | None => k end) = inr b ↔ a = None ∧ k = inr b.
Proof. destruct a; naive_solver. Qed.

(** [sum_inv H] takes a function that returned a value back to its steps. *)
Ltac sum_inv H :=
  repeat match type of H with
  | and_then _ _ = inr _ =>
      let x := fresh "x" in let Hx := fresh "Hx" in
      apply and_then_inr in H as (x & Hx & H)
  | (if _ then inl _ else _) = inr _ =>
      let Hc := fresh "Hc" in apply throw_inr in H as [Hc H]
  | (match _ with Some err => inl err | None => _ end) = inr _ =>
      let Hc := fresh "Hc" in apply ensure_inr in H as [Hc H]
  end.

(** [chain_inv H] turns a passed check chain into the facts it establishes. *)
Ltac chain_inv H :=
  repeat match type of H with
  | (if _ then Some _ else _) = None =>
      let Hc := fresh "Hc" in apply refuse_None in H; destruct H as [Hc H]
  | (match _ with Some err => Some err | None => _ end) = None =>
      let Hc := fresh "Hc" in apply check_None in H as [Hc H]
  end.

Ltac bools := autorewrite with go_bool in *.

(** [branches] splits every match and conditional of the goal, then closes
    the branches that contradict each other. *)
Ltac branches := repeat case_match; simplify_eq/=; try done.

(** ** Integers *)

Lemma u64_succ_small (v : N) : (v < u64_modulus - 1)%N → u64_succ v = (v + 1)%N.
Proof. intros H. unfold u64_succ. apply N.mod_small. unfold u64_modulus in *. lia. Qed.

(** [len/2 + 1] of them are more than half. *)
Lemma majority_half (n k : nat) : n / 2 + 1 ≤ k → n < 2 * k.
Proof. pose proof (Nat.div_mod_eq n 2). pose proof (Nat.mod_upper_bound n 2). lia. Qed.

Lemma u64_of_int64_small (v : Z) :
  (0 ≤ v < Z.of_N u64_modulus)%Z → u64_of_int64 v = Z.to_N v.
Proof. intros H. unfold u64_of_int64. by rewrite Z.mod_small. Qed.

(** ** The string order *)

Lemma ltb_leb (a b : string) : String.ltb a b = negb (String.leb b a).
Proof.
  unfold String.ltb, String.leb. rewrite (String.compare_antisym b a).
  by destruct (String.compare a b).
Qed.

Lemma leb_ltb (a b : string) : String.leb a b = negb (String.ltb b a).
Proof. rewrite ltb_leb. by destruct (String.leb a b). Qed.

Lemma str_lt_le_ne (a b : string) : str_lt a b ↔ String.le a b ∧ a ≠ b.
Proof.
  unfold str_lt. rewrite ltb_leb. split.
  - intros Hn. destruct (String.leb b a) eqn:E; [done|]. split.
    + destruct (total String.le a b) as [?|Hba]; [done|].
      unfold String.le in Hba. by rewrite E in Hba.
    + intros ->. destruct (String.leb_total b b) as [?|?]; congruence.
  - intros [Hle Hne]. destruct (String.leb b a) eqn:E; [|done].
    exfalso. apply Hne. apply (anti_symm String.le); [done|].
    unfold String.le. by rewrite E.
Qed.

#[export] Instance str_lt_irreflexive : Irreflexive str_lt.
Proof. intros a Ha. apply str_lt_le_ne in Ha as [_ Ha]. done. Qed.

#[export] Instance str_lt_transitive : Transitive str_lt.
Proof.
  intros a b c [Hab Hne]%str_lt_le_ne [Hbc Hne']%str_lt_le_ne.
  apply str_lt_le_ne. split; [by etrans|].
  intros ->. apply Hne. by apply (anti_symm String.le).
Qed.

Lemma str_lt_trichotomy (a b : string) : str_lt a b ∨ a = b ∨ str_lt b a.
Proof.
  destruct (decide (a = b)) as [->|Hne]; [auto|].
  destruct (total String.le a b) as [H|H].
  - left. by apply str_lt_le_ne.
  - right; right. by apply str_lt_le_ne.
Qed.

Lemma leb_false_lt (a b : string) : String.leb a b = false ↔ str_lt b a.
Proof. unfold str_lt. rewrite leb_ltb. by destruct (String.ltb b a). Qed.

(** ** Loop lemmas *)

Lemma scan_entries_None {A E} (entry : A → option E) (l : list A) :
  scan_entries entry l = None ↔ Forall (λ x, entry x = None) l.
Proof.
  induction l as [|x r IH]; simpl; [split; auto|].
  rewrite check_None, IH, Forall_cons. done.
Qed.

Lemma scan_sorted_from {A E} (key : A → string) (entry : A → option E) order p l :
  scan_sorted key entry order (Some p) l = None ↔
  Forall (λ x, entry x = None) l ∧ StronglySorted str_lt (p :: (key <$> l)).
Proof.
  revert p. induction l as [|x r IH]; intros p; simpl.
  { split; [intros _; split; repeat constructor | done]. }
  rewrite check_None, refuse_None, IH, Forall_cons, leb_false_lt.
  split.
  - intros (Hx & Hp & Hr & Hs). split; [done|].
    constructor; [done|].
    apply StronglySorted_inv in Hs as [Hs Hall].
    constructor; [done|]. eapply Forall_impl; [exact Hall|].
    intros y Hy. by etrans.
  - intros [[Hx Hr] Hs]. apply StronglySorted_inv in Hs as [Hs Hall].
    apply Forall_cons in Hall as [Hp _]. done.
Qed.

(** The scan accepts exactly the lists whose entries pass and whose keys are
    strictly increasing. *)
Lemma scan_sorted_None {A E} (key : A → string) (entry : A → option E) order l :
  scan_sorted key entry order None l = None ↔
  Forall (λ x, entry x = None) l ∧ StronglySorted str_lt (key <$> l).
Proof.
  destruct l as [|x r]; simpl.
  { split; [split; constructor | done]. }
  rewrite check_None, scan_sorted_from, Forall_cons. naive_solver.
Qed.

Lemma sorted_lt_NoDup (l : list string) : StronglySorted str_lt l → NoDup l.
Proof.
  induction 1 as [|x r Hs IH Hall]; constructor; [|done].
  intros Hin. rewrite Forall_forall in Hall. exact (irreflexivity str_lt x (Hall _ Hin)).
Qed.

Lemma compact_from_elem {A} `{EqDecision A} (x k : A) l :
  x ∈ compact_from k l ↔ x = k ∨ x ∈ l.
Proof.
  revert k. induction l as [|y r IH]; intros k; simpl.
  - rewrite list_elem_of_singleton. set_solver.
  - case_bool_decide; subst; [rewrite IH; set_solver|].
    rewrite elem_of_cons, IH. set_solver.
Qed.

Lemma compact_elem {A} `{EqDecision A} (x : A) l : x ∈ compact l ↔ x ∈ l.
Proof. destruct l; simpl; [done|]. rewrite compact_from_elem. set_solver. Qed.

Lemma compact_from_length {A} `{EqDecision A} (k : A) l :
  1 ≤ length (compact_from k l) ≤ S (length l).
Proof.
  revert k. induction l as [|y r IH]; intros k; simpl; [lia|].
  case_bool_decide; [specialize (IH k) | specialize (IH y)]; simpl; lia.
Qed.

Lemma compact_from_sorted {A} `{EqDecision A} (key : A → string) k l :
  (∀ x y, x ∈ k :: l → y ∈ k :: l → key x = key y → x = y) →
  StronglySorted (λ x y, String.le (key x) (key y)) (k :: l) →
  StronglySorted str_lt (key <$> compact_from k l).
Proof.
  revert k. induction l as [|y r IH]; intros k Hinj Hs; simpl.
  { repeat constructor. }
  apply StronglySorted_inv in Hs as [Hs Hall].
  pose proof (StronglySorted_inv Hs) as [Hs' Hall'].
  apply Forall_cons in Hall as [Hky Hall].
  case_bool_decide as Hyk.
  - apply IH; [set_solver|]. by constructor.
  - simpl. constructor; [apply IH; [set_solver|done]|].
    apply Forall_fmap, Forall_forall. intros z Hz. simpl.
    apply compact_from_elem in Hz.
    assert (Hlt : str_lt (key k) (key y)).
    { apply str_lt_le_ne. split; [done|]. intros Heq. apply Hyk.
      symmetry. apply Hinj; set_solver. }
    destruct Hz as [->|Hz]; [done|].
    rewrite Forall_forall in Hall'. specialize (Hall' z Hz).
    destruct (decide (key y = key z)) as [<-|Hne]; [done|].
    etrans; [exact Hlt|]. by apply str_lt_le_ne.
Qed.

(** Compaction of a sorted list is strictly sorted, when equal keys mean
    equal values. *)
Lemma compact_sorted {A} `{EqDecision A} (key : A → string) l :
  (∀ x y, x ∈ l → y ∈ l → key x = key y → x = y) →
  StronglySorted (λ x y, String.le (key x) (key y)) l →
  StronglySorted str_lt (key <$> compact l).
Proof. destruct l as [|x r]; simpl; [constructor|]. apply compact_from_sorted. Qed.
