(* ===== verification/GoLib.v ===== *)
(** * What the source uses of Go's standard library

    UTF-8 decoding ([unicode/utf8], [range] over a string), the [strings]
    functions, [sort], the character classes of [unicode], and the interfaces
    of the code that is not under src/: [golang.org/x/text/unicode/norm] and
    the cryptographic primitives. *)

From stdpp Require Import base gmap strings list sorting.
From Stdlib Require Import NArith Lia Ascii.
From S2P Require Import Prelude.

#[global] Arguments String.append !_ _ / : simpl nomatch.

(** ** Bytes *)

Definition byte_of (c : ascii) : N := N_of_ascii c.

Fixpoint bytes_of (s : string) : list N :=
  match s with
  | EmptyString => []
  | String c r => byte_of c :: bytes_of r
  end.

Fixpoint of_bytes (l : list N) : string :=
  match l with
  | [] => EmptyString
  | b :: r => String (ascii_of_N b) (of_bytes r)
  end.

Definition in_range (lo hi b : N) : bool := ((lo <=? b) && (b <=? hi))%N.

(** [text[i]], zero when out of range (every use is guarded by a length test). *)
Fixpoint byte_at (i : nat) (s : string) : N :=
  match s, i with
  | EmptyString, _ => 0%N
  | String c _, O => byte_of c
  | String _ r, S j => byte_at j r
  end.

Fixpoint all_bytes (p : N → bool) (s : string) : bool :=
  match s with
  | EmptyString => true
  | String c r => p (byte_of c) && all_bytes p r
  end.

(** ** UTF-8

    One decoding step of [utf8.DecodeRune]: the acceptance ranges of the
    second byte depend on the first, as in the standard library's table. *)

Definition cont (b : N) : bool := in_range 128 191 b.

Definition two_bytes (b0 b1 : N) : bool := in_range 194 223 b0 && cont b1.

Definition three_bytes (b0 b1 b2 : N) : bool :=
  ((b0 =? 224)%N && in_range 160 191 b1 ||
   in_range 225 236 b0 && cont b1 ||
   (b0 =? 237)%N && in_range 128 159 b1 ||
   in_range 238 239 b0 && cont b1) && cont b2.

Definition four_bytes (b0 b1 b2 b3 : N) : bool :=
  ((b0 =? 240)%N && in_range 144 191 b1 ||
   in_range 241 243 b0 && cont b1 ||
   (b0 =? 244)%N && in_range 128 143 b1) && cont b2 && cont b3.

(** The runes of a byte list; [None] is an invalid byte ([utf8.RuneError]
    of width one). *)
Fixpoint decode_runes (l : list N) : list (option N) :=
  match l with
  | [] => []
  | b0 :: l1 =>
      if (b0 <? 128)%N then Some b0 :: decode_runes l1 else
      match l1 with
      | [] => [None]
      | b1 :: l2 =>
          if two_bytes b0 b1
          then Some ((b0 - 192) * 64 + (b1 - 128))%N :: decode_runes l2 else
          match l2 with
          | [] => None :: decode_runes l1
          | b2 :: l3 =>
              if three_bytes b0 b1 b2
              then Some ((b0 - 224) * 4096 + (b1 - 128) * 64 + (b2 - 128))%N :: decode_runes l3 else
              match l3 with
              | [] => None :: decode_runes l1
              | b3 :: l4 =>
                  if four_bytes b0 b1 b2 b3
                  then Some ((b0 - 240) * 262144 + (b1 - 128) * 4096 + (b2 - 128) * 64
                             + (b3 - 128))%N :: decode_runes l4
                  else None :: decode_runes l1
              end
          end
      end
  end.

Definition rune_error : N := 65533.

(** [for _, char := range text]. *)
Definition runes (s : string) : list N :=
  (λ o : option N, default rune_error o) <$> decode_runes (bytes_of s).

(** [utf8.ValidString]. *)
Definition utf8_ValidString (s : string) : bool :=
  forallb (λ o : option N, if o is Some _ then true else false) (decode_runes (bytes_of s)).

(** [utf8.AppendRune], which [strings.Builder.WriteRune] calls. *)
Definition encode_rune (r : N) : list N :=
  (if r <? 128 then [r]
   else if r <? 2048 then [192 + r / 64; 128 + r mod 64]
   else if r <? 65536 then [224 + r / 4096; 128 + (r / 64) mod 64; 128 + r mod 64]
   else [240 + r / 262144; 128 + (r / 4096) mod 64; 128 + (r / 64) mod 64; 128 + r mod 64])%N.

(** [unicode.IsControl]: category Cc. *)
Definition unicode_IsControl (r : N) : bool := in_range 0 31 r || in_range 127 159 r.

(** [unicode.In(char, unicode.Zl, unicode.Zp)]: U+2028 and U+2029. *)
Definition unicode_ZlZp (r : N) : bool := ((r =? 8232) || (r =? 8233))%N.

(** ** Package strings *)

Fixpoint HasPrefix (s p : string) {struct p} : bool :=
  match p, s with
  | EmptyString, _ => true
  | String _ _, EmptyString => false
  | String c p', String d s' => bool_decide (c = d) && HasPrefix s' p'
  end.

(** [s[n:]] for [n <= len(s)]. *)
Fixpoint str_drop (n : nat) (s : string) : string :=
  match n, s with
  | O, _ => s
  | S _, EmptyString => EmptyString
  | S m, String _ r => str_drop m r
  end.

(** [s[:n]] for [n <= len(s)]. *)
Fixpoint str_take (n : nat) (s : string) : string :=
  match n, s with
  | O, _ => EmptyString
  | S _, EmptyString => EmptyString
  | S m, String c r => String c (str_take m r)
  end.

Definition HasSuffix (s p : string) : bool :=
  (String.length p <=? String.length s)%nat &&
  bool_decide (str_drop (String.length s - String.length p) s = p).

Definition TrimSuffix (s p : string) : string :=
  if HasSuffix s p then str_take (String.length s - String.length p) s else s.

(** [strings.Cut(s, sep)] for a one-byte separator: [None] is [found = false]. *)
Fixpoint Cut (sep : ascii) (s : string) : option (string * string) :=
  match s with
  | EmptyString => None
  | String c r =>
      if bool_decide (c = sep) then Some (EmptyString, r)
      else match Cut sep r with
           | Some (before, after) => Some (String c before, after)
           | None => None
           end
  end.

(** [strings.Split(s, sep)] for a one-byte separator: never empty. *)
Fixpoint Split (sep : ascii) (s : string) : list string :=
  match s with
  | EmptyString => [EmptyString]
  | String c r =>
      if bool_decide (c = sep) then EmptyString :: Split sep r
      else match Split sep r with
           | [] => [String c EmptyString]
           | w :: ws => String c w :: ws
           end
  end.

(** [strings.LastIndexByte] followed by [text[separator+1:]]: the text after
    the last separator, or the whole text. *)
Definition after_last (sep : ascii) (s : string) : string := List.last (Split sep s) EmptyString.

Definition slash : ascii := "/"%char.
Definition dot : ascii := "."%char.

(** [strings.Join], the inverse of [Split]; the source does not call it. *)
Fixpoint Join (sep : ascii) (l : list string) : string :=
  match l with
  | [] => EmptyString
  | [w] => w
  | w :: ws => w +:+ String sep (Join sep ws)
  end.

(** ** Package sort *)

(** [sort.Strings]: the ascending permutation. *)
Definition sort_Strings (l : list string) : list string := merge_sort String.le l.

(** ** Package slices *)

(** [slices.BinarySearch] on a sorted slice: the first position whose entry is
    not below the target, and whether the target is there. *)
Fixpoint BinarySearch (l : list string) (target : string) : nat * bool :=
  match l with
  | [] => (0, false)
  | x :: r =>
      if String.ltb x target then let '(i, found) := BinarySearch r target in (S i, found)
      else (0, bool_decide (x = target))
  end.

(** ** Package encoding/hex *)

(** [hex.EncodeToString]. *)
Definition hex_digit (v : N) : ascii := ascii_of_N (if (v <? 10)%N then 48 + v else 87 + v).
Fixpoint hex_encode (bytes : list N) : string :=
  match bytes with
  | [] => EmptyString
  | b :: r => String (hex_digit (b / 16)) (String (hex_digit (b mod 16)) (hex_encode r))
  end.

(** ** Code outside src/

    [norm.NFC.IsNormalString] of golang.org/x/text. *)
Class NormLib := { NFC_IsNormalString : string → bool }.

(** [sha256.Sum256] of a byte string and [ed25519.Verify] on (key, message,
    signature); the only law used is the digest size. *)
Class CryptoLib := {
  Sum256 : list N → list N;
  Ed25519_Verify : list N → list N → list N → bool;
  Sum256_length : ∀ m, length (Sum256 m) = 32;
  Sum256_bytes : ∀ m, Forall (λ b, b < 256)%N (Sum256 m)
}.

(** ASCII text is its own normal form, so accepting exactly the ASCII texts
    is one instance of the interface; the witnesses use it. *)
Definition ascii_norm : NormLib := {| NFC_IsNormalString := all_bytes (λ b, b <? 128)%N |}.

(** ** Lemmas *)

Lemma byte_of_bound c : (byte_of c < 256)%N.
Proof. apply N_ascii_bounded. Qed.

Lemma bytes_of_length s : length (bytes_of s) = String.length s.
Proof. induction s; simpl; auto. Qed.

Lemma of_bytes_bytes_of s : of_bytes (bytes_of s) = s.
Proof. induction s as [|c r IH]; simpl; [done|]. unfold byte_of. by rewrite ascii_N_embedding, IH. Qed.

Lemma BinarySearch_found l x : StronglySorted str_lt l → (BinarySearch l x).2 = true ↔ x ∈ l.
Proof.
  induction 1 as [|y r Hs IH Hall]; simpl.
  - split; [done|]. intros Hin. by apply not_elem_of_nil in Hin.
  - destruct (String.ltb y x) eqn:Hyx.
    + destruct (BinarySearch r x) as [i found]; simpl in *. rewrite IH, elem_of_cons.
      split; [auto|]. intros [->|?]; [|done].
      by destruct (irreflexivity str_lt y).
    + simpl. rewrite bool_decide_eq_true, elem_of_cons. split; [auto|].
      intros [->|Hin]; [done|]. rewrite Forall_forall in Hall.
      specialize (Hall _ Hin). unfold str_lt in Hall. congruence.
Qed.

Lemma bytes_of_of_bytes l : Forall (λ b, b < 256)%N l → bytes_of (of_bytes l) = l.
Proof.
  induction 1 as [|b r Hb _ IH]; simpl; [done|].
  unfold byte_of. by rewrite N_ascii_embedding, IH.
Qed.

Lemma of_bytes_length l : String.length (of_bytes l) = length l.
Proof. induction l; simpl; auto. Qed.

Lemma str_app_nil_r s : s +:+ EmptyString = s.
Proof. induction s; simpl; congruence. Qed.

Lemma str_app_assoc s1 s2 s3 : (s1 +:+ s2) +:+ s3 = s1 +:+ s2 +:+ s3.
Proof. induction s1; simpl; congruence. Qed.

Lemma str_length_app s1 s2 : String.length (s1 +:+ s2) = String.length s1 + String.length s2.
Proof. induction s1; simpl; congruence. Qed.

Lemma HasPrefix_app s p : HasPrefix s p = true ↔ ∃ r, s = p +:+ r.
Proof.
  revert s. induction p as [|c p IH]; intros s; simpl.
  { split; [intros _; by exists s|intros _; reflexivity]. }
  destruct s as [|d s]; [split; [intros [=]|intros [r [=]]]|].
  rewrite andb_true_iff, decide_true, IH. split.
  - intros [-> [r ->]]. by exists r.
  - intros [r [= -> ->]]. eauto.
Qed.

Lemma str_drop_app p r : str_drop (String.length p) (p +:+ r) = r.
Proof. induction p; simpl; auto. Qed.

Lemma str_take_app p r : str_take (String.length p) (p +:+ r) = p.
Proof. induction p; simpl; congruence. Qed.

Lemma str_take_drop n s : str_take n s +:+ str_drop n s = s.
Proof. revert s. induction n as [|n IH]; intros [|c s]; simpl; auto. by rewrite IH. Qed.

Lemma HasSuffix_app s p : HasSuffix s p = true ↔ ∃ r, s = r +:+ p.
Proof.
  unfold HasSuffix. rewrite andb_true_iff, decide_true. split.
  - intros [Hle Hd]. exists (str_take (String.length s - String.length p) s).
    rewrite <-Hd at 2. by rewrite str_take_drop.
  - intros [r ->]. rewrite str_length_app. split; [apply Nat.leb_le; lia|].
    replace (String.length r + String.length p - String.length p) with (String.length r) by lia.
    apply str_drop_app.
Qed.

Lemma TrimSuffix_app r p : TrimSuffix (r +:+ p) p = r.
Proof.
  unfold TrimSuffix. rewrite (proj2 (HasSuffix_app _ _)) by eauto.
  rewrite str_length_app.
  replace (String.length r + String.length p - String.length p) with (String.length r) by lia.
  apply str_take_app.
Qed.

Lemma Split_nonempty sep s : Split sep s ≠ [].
Proof. destruct s; simpl; [done|]. case_bool_decide; [done|]. by destruct (Split sep s). Qed.

Lemma Split_app_sep sep a b :
  Split sep (a +:+ String sep b) = Split sep a ++ Split sep b.
Proof.
  induction a as [|c a IH]; simpl.
  { by rewrite bool_decide_true. }
  rewrite IH. case_bool_decide; [done|].
  pose proof (Split_nonempty sep a). by destruct (Split sep a).
Qed.

Lemma Join_cons sep w l : l ≠ [] → Join sep (w :: l) = w +:+ String sep (Join sep l).
Proof. by destruct l. Qed.

Lemma Join_app sep a b : a ≠ [] → b ≠ [] → Join sep (a ++ b) = Join sep a +:+ String sep (Join sep b).
Proof.
  intros Ha Hb. induction a as [|w a IH]; [done|]. destruct a as [|w' a].
  - simpl app. by rewrite Join_cons.
  - rewrite <-app_comm_cons, !Join_cons, IH by done. by rewrite str_app_assoc.
Qed.

Lemma Join_Split sep s : Join sep (Split sep s) = s.
Proof.
  induction s as [|c s IH]; [done|]. simpl.
  pose proof (Split_nonempty sep s) as Hne. case_bool_decide as Hc.
  - rewrite Join_cons by done. by rewrite IH, Hc.
  - destruct (Split sep s) as [|w [|w' ws]]; [done|simpl in *; by rewrite IH|].
    rewrite Join_cons in IH by done. rewrite Join_cons by done. exact (f_equal (String c) IH).
Qed.

Lemma Split_inj sep s t : Split sep s = Split sep t → s = t.
Proof. intros H. by rewrite <-(Join_Split sep s), H, Join_Split. Qed.

Lemma sort_Strings_sorted l : StronglySorted String.le (sort_Strings l).
Proof. apply Sorted_StronglySorted; [typeclasses eauto|]. apply Sorted_merge_sort. typeclasses eauto. Qed.

Lemma sort_Strings_perm l : sort_Strings l ≡ₚ l.
Proof. apply merge_sort_Permutation. Qed.
