(* ===== verification/GoJson.v ===== *)
(** * What the source uses of encoding/json

    [Module JSON]: the value tree of a JSON text with its number tokens, the
    strict reader behind [json.Decoder.Token] and [json.Unmarshal], and the
    conversions [json.Unmarshal] makes to Go's string, integer, boolean and
    slice types. *)

From stdpp Require Import base gmap strings list.
From Stdlib Require Import ZArith NArith Lia.
From S2P Require Import Prelude.
From S2P Require Import GoLib.

Module JSON.

(** A number is kept as its token ([Decoder.UseNumber]). *)
Inductive value :=
  | VNull | VBool (b : bool) | VNumber (token : list N) | VString (text : string)
  | VArray (items : list value) | VObject (members : list (string * value)).

Definition space (b : N) : bool := ((b =? 32) || (b =? 9) || (b =? 10) || (b =? 13))%N.

Fixpoint skip (l : list N) : list N :=
  match l with
  | b :: r => if space b then skip r else l
  | [] => []
  end.

Definition hex_digit (b : N) : option N :=
  (if in_range 48 57 b then Some (b - 48)
   else if in_range 97 102 b then Some (b - 87)
   else if in_range 65 70 b then Some (b - 55) else None)%N.

Definition code_unit (a b c d : N) : option N :=
  match hex_digit a, hex_digit b, hex_digit c, hex_digit d with
  | Some a, Some b, Some c, Some d => Some (a * 4096 + b * 256 + c * 16 + d)%N
  | _, _, _, _ => None
  end.

Definition high_surrogate (u : N) : bool := in_range 55296 56319 u.
Definition low_surrogate (u : N) : bool := in_range 56320 57343 u.

Definition simple_escape (e : N) : option N :=
  (if e =? 34 then Some 34 else if e =? 92 then Some 92 else if e =? 47 then Some 47
   else if e =? 98 then Some 8 else if e =? 102 then Some 12 else if e =? 110 then Some 10
   else if e =? 114 then Some 13 else if e =? 116 then Some 9 else None)%N.

(** The bytes after the opening quote up to the closing one, unquoted. The
    text is valid UTF-8 when this runs, so other bytes are copied. *)
Fixpoint unquote (l : list N) : option (list N * list N) :=
  match l with
  | [] => None
  | b :: r =>
      if (b =? 34)%N then Some ([], r)
      else if (b <? 32)%N then None
      else if (b =? 92)%N then
        match r with
        | [] => None
        | e :: r1 =>
            if (e =? 117)%N then
              match r1 with
              | h0 :: h1 :: h2 :: h3 :: r2 =>
                  match code_unit h0 h1 h2 h3 with
                  | None => None
                  | Some u =>
                      let lone := match unquote r2 with
                                  | Some (t, z) =>
                                      let u := if high_surrogate u || low_surrogate u
                                               then rune_error else u in
                                      Some (encode_rune u ++ t, z)
                                  | None => None
                                  end in
                      if high_surrogate u then
                        match r2 with
                        | b0 :: b1 :: g0 :: g1 :: g2 :: g3 :: r3 =>
                            if (b0 =? 92)%N && (b1 =? 117)%N then
                              match code_unit g0 g1 g2 g3 with
                              | Some v =>
                                  if low_surrogate v then
                                    match unquote r3 with
                                    | Some (t, z) =>
                                        Some (encode_rune (65536 + (u - 55296) * 1024 +
                                                (v - 56320))%N ++ t, z)
                                    | None => None
                                    end
                                  else lone
                              | None => lone
                              end
                            else lone
                        | _ => lone
                        end
                      else lone
                  end
              | _ => None
              end
            else
              match simple_escape e, unquote r1 with
              | Some c, Some (t, z) => Some (c :: t, z)
              | _, _ => None
              end
        end
      else
        match unquote r with
        | Some (t, z) => Some (b :: t, z)
        | None => None
        end
  end.

Definition digit (b : N) : bool := in_range 48 57 b.

Fixpoint digits (l : list N) : list N * list N :=
  match l with
  | b :: r => if digit b then let '(d, z) := digits r in (b :: d, z) else ([], l)
  | [] => ([], [])
  end.

(** An optional fraction and an optional exponent. *)
Definition fraction (l : list N) : option (list N * list N) :=
  match l with
  | b :: r =>
      if (b =? 46)%N then
        match digits r with ([], _) => None | (d, z) => Some (b :: d, z) end
      else Some ([], l)
  | [] => Some ([], [])
  end.

Definition exponent (l : list N) : option (list N * list N) :=
  match l with
  | b :: r =>
      if (b =? 101)%N || (b =? 69)%N then
        let '(s, r1) := match r with
                        | c :: r' => if (c =? 43)%N || (c =? 45)%N then ([c], r') else ([], r)
                        | [] => ([], [])
                        end in
        match digits r1 with ([], _) => None | (d, z) => Some (b :: s ++ d, z) end
      else Some ([], l)
  | [] => Some ([], [])
  end.

Definition number (l : list N) : option (list N * list N) :=
  let '(sign, l1) := match l with
                     | b :: r => if (b =? 45)%N then ([b], r) else ([], l)
                     | [] => ([], [])
                     end in
  match digits l1 with
  | ([], _) => None
  | (d :: d1, z) =>
      if (d =? 48)%N && negb (bool_decide (d1 = [])) then None
      else match fraction z with
           | None => None
           | Some (f, z1) =>
               match exponent z1 with
               | None => None
               | Some (e, z2) => Some (sign ++ d :: d1 ++ f ++ e, z2)
               end
           end
  end.

(** A keyword or number of one letter's lookahead. *)
Definition literal (word : list N) (v : value) (l : list N) : option (value * list N) :=
  if bool_decide (take (length word) l = word) then Some (v, drop (length word) l) else None.

Definition scalar (l : list N) : option (value * list N) :=
  match l with
  | b :: r =>
      if (b =? 34)%N then
        match unquote r with Some (t, z) => Some (VString (of_bytes t), z) | None => None end
      else if (b =? 110)%N then literal [110; 117; 108; 108]%N VNull l
      else if (b =? 116)%N then literal [116; 114; 117; 101]%N (VBool true) l
      else if (b =? 102)%N then literal [102; 97; 108; 115; 101]%N (VBool false) l
      else match number l with Some (t, z) => Some (VNumber t, z) | None => None end
  | [] => None
  end.

(** The reader: a value, the rest of an array after one of its items, the
    rest of an object after one of its members. *)
Fixpoint read (fuel : nat) (l : list N) {struct fuel} : option (value * list N) :=
  match fuel with
  | O => None
  | S f =>
      match skip l with
      | [] => None
      | b :: r =>
          if (b =? 91)%N then
            match skip r with
            | c :: z => if (c =? 93)%N then Some (VArray [], z)
                        else match read_items f r with
                             | Some (items, z) => Some (VArray items, z)
                             | None => None
                             end
            | [] => None
            end
          else if (b =? 123)%N then
            match skip r with
            | c :: z => if (c =? 125)%N then Some (VObject [], z)
                        else match read_members f r with
                             | Some (members, z) => Some (VObject members, z)
                             | None => None
                             end
            | [] => None
            end
          else scalar (b :: r)
      end
  end
with read_items (fuel : nat) (l : list N) {struct fuel} : option (list value * list N) :=
  match fuel with
  | O => None
  | S f =>
      match read f l with
      | None => None
      | Some (v, z) =>
          match skip z with
          | c :: r =>
              if (c =? 93)%N then Some ([v], r)
              else if (c =? 44)%N then
                match read_items f r with
                | Some (vs, z') => Some (v :: vs, z')
                | None => None
                end
              else None
          | [] => None
          end
      end
  end
with read_members (fuel : nat) (l : list N) {struct fuel}
    : option (list (string * value) * list N) :=
  match fuel with
  | O => None
  | S f =>
      match skip l with
      | q :: l1 =>
          if negb (q =? 34)%N then None else
          match unquote l1 with
          | None => None
          | Some (key, l2) =>
              match skip l2 with
              | colon :: l3 =>
                  if negb (colon =? 58)%N then None else
                  match read f l3 with
                  | None => None
                  | Some (v, z) =>
                      match skip z with
                      | c :: r =>
                          if (c =? 125)%N then Some ([(of_bytes key, v)], r)
                          else if (c =? 44)%N then
                            match read_members f r with
                            | Some (ms, z') => Some ((of_bytes key, v) :: ms, z')
                            | None => None
                            end
                          else None
                      | [] => None
                      end
                  end
              | [] => None
              end
          end
      | [] => None
      end
  end.

(** Two calls are made for every byte at most. *)
Definition read_fuel (l : list N) : nat := 2 * length l + 2.

(** One value and what follows it. *)
Definition read_value (l : list N) : option (value * list N) := read (read_fuel l) l.

(** ** Raw messages

    [json.Unmarshal] into [json.RawMessage]s keeps the text of each item or
    member, without the white space around it. *)

(** The text of a value, the value, and what follows it. *)
Definition read_raw (l : list N) : option (list N * value * list N) :=
  let l := skip l in
  match read_value l with
  | Some (v, z) => Some (take (length l - length z) l, v, z)
  | None => None
  end.

Fixpoint raw_items (fuel : nat) (l : list N) : option (list (list N) * list N) :=
  match fuel with
  | O => None
  | S f =>
      match read_raw l with
      | None => None
      | Some (item, _, z) =>
          match skip z with
          | c :: r =>
              if (c =? 93)%N then Some ([item], r)
              else if (c =? 44)%N then
                match raw_items f r with
                | Some (items, z) => Some (item :: items, z)
                | None => None
                end
              else None
          | [] => None
          end
      end
  end.

Fixpoint raw_members (fuel : nat) (l : list N) : option (list (string * list N) * list N) :=
  match fuel with
  | O => None
  | S f =>
      match skip l with
      | q :: l1 =>
          if negb (q =? 34)%N then None else
          match unquote l1 with
          | None => None
          | Some (key, l2) =>
              match skip l2 with
              | colon :: l3 =>
                  if negb (colon =? 58)%N then None else
                  match read_raw l3 with
                  | None => None
                  | Some (member, _, z) =>
                      match skip z with
                      | c :: r =>
                          if (c =? 125)%N then Some ([(of_bytes key, member)], r)
                          else if (c =? 44)%N then
                            match raw_members f r with
                            | Some (members, z) => Some ((of_bytes key, member) :: members, z)
                            | None => None
                            end
                          else None
                      | [] => None
                      end
                  end
              | [] => None
              end
          end
      | [] => None
      end
  end.

(** Nothing but white space follows. *)
Definition whole {A} (result : option (A * list N)) : option A :=
  match result with
  | Some (a, z) => match skip z with [] => Some a | _ => None end
  | None => None
  end.

(** A whole text that is an array, or an object. *)
Definition raw_array (l : list N) : option (list (list N)) :=
  match skip l with
  | b :: r =>
      if negb (b =? 91)%N then None
      else match skip r with
      | c :: z => if (c =? 93)%N then whole (Some ([], z)) else whole (raw_items (length r) r)
      | [] => None
      end
  | [] => None
  end.

Definition raw_object (l : list N) : option (list (string * list N)) :=
  match skip l with
  | b :: r =>
      if negb (b =? 123)%N then None
      else match skip r with
      | c :: z => if (c =? 125)%N then whole (Some ([], z)) else whole (raw_members (length r) r)
      | [] => None
      end
  | [] => None
  end.

(** [json.Unmarshal] into a [string], which leaves it empty for null. *)
Definition text_of (l : list N) : option string :=
  match whole (read_value l) with
  | Some (VString text) => Some text
  | Some VNull => Some EmptyString
  | _ => None
  end.

(** [strconv.ParseUint(token, 10, 64)]. *)
Definition ParseUint (token : list N) : option N :=
  match token with
  | [] => None
  | _ =>
      if forallb digit token then
        let n := fold_left (λ acc d, acc * 10 + (d - 48))%N token 0%N in
        if (n <? 2 ^ 64)%N then Some n else None
      else None
  end.

End JSON.
