(* ===== verification/CodecLayer.v ===== *)
(** * Packages internal/codec and internal/crypto

    [Module Codec]: the validation that precedes canonicalization
    (canonical.go), removal of an object member from canonical bytes
    (object.go), base64url (base64url.go), the signature labels and signed
    input (signing.go) and the device id (device_id.go).
    [Module Crypto]: the signature check of crypto.go.

    The RFC 8785 writer is the package github.com/ucarion/jcs: the class
    [JCSLib]. The wire values it receives are [json]: integers only. *)

From stdpp Require Import base gmap strings list.
From Stdlib Require Import ZArith NArith Lia Ascii ZifyNat ZifyN.
From S2P Require Import Prelude.
From S2P Require Import GoLib.
From S2P Require Import GoJson.

(** The values [consumeValue] builds; an object is a Go map. *)
Inductive json :=
  | JNull | JBool (b : bool) | JNumber (n : Z) | JString (text : string)
  | JArray (items : list json) | JObject (members : list (string * json)).

(** [jcs.Append(nil, value)]; its error return is for unsupported Go types. *)
Class JCSLib := { jcs_Append : json → list N }.

Module Codec.

Definition maxJSONDepth : nat := 32.
Definition maxCanonicalJSONBytes : N := 4194304.
Definition maxSignedObjectJSONBytes : N := 1048576.
Definition maxSafeInteger : Z := 9007199254740991.
Definition maxBatchSignedInputBytes : N := 67108864.

Inductive Error :=
  | ErrInvalidUTF8 | ErrInvalidSurrogate | ErrDuplicateKey | ErrTrailingData | ErrNestingTooDeep
  | ErrSignedObject | ErrNonInteger | ErrIntegerOutOfRange | ErrInputTooLarge | ErrSyntax
  | ErrNoncanonicalObject | ErrObjectMember | ErrObjectMemberAbsent
  | ErrInvalidBase64URL | ErrDecodedLength | ErrInvalidSignatureLabel | ErrSignedInputTooLarge
  | ErrInvalidEd25519PublicKey.

#[global] Instance Error_eq_dec : EqDecision Error.
Proof. solve_decision. Defined.

(** ** canonical.go *)

(** The scan of the raw bytes for unpaired [\u] escapes. [in_string] is the
    inner loop. *)
Fixpoint surrogates (in_string : bool) (l : list N) {struct l} : option Error :=
  match l with
  | [] => None
  | b :: r =>
      if negb in_string then surrogates (b =? 34)%N r
      else if (b =? 34)%N then surrogates false r
      else if negb (b =? 92)%N then surrogates true r
      else match r with
      | [] => None
      | e :: r1 =>
          if negb (e =? 117)%N then surrogates true r1
          else match r1 with
          | h0 :: h1 :: h2 :: h3 :: r2 =>
              match JSON.code_unit h0 h1 h2 h3 with
              | None => Some ErrInvalidSurrogate
              | Some first =>
                  if JSON.high_surrogate first then
                    match r2 with
                    | b0 :: b1 :: g0 :: g1 :: g2 :: g3 :: r3 =>
                        if negb ((b0 =? 92) && (b1 =? 117))%N then Some ErrInvalidSurrogate
                        else match JSON.code_unit g0 g1 g2 g3 with
                        | None => Some ErrInvalidSurrogate
                        | Some second =>
                            if negb (JSON.low_surrogate second) then Some ErrInvalidSurrogate
                            else surrogates true r3
                        end
                    | _ => Some ErrInvalidSurrogate
                    end
                  else if JSON.low_surrogate first then Some ErrInvalidSurrogate
                  else surrogates true r2
              end
          | _ => Some ErrInvalidSurrogate
          end
      end
  end.

Definition validateSurrogateEscapes (input : list N) : option Error := surrogates false input.

Definition decimal (l : list N) : Z :=
  fold_left (λ acc d, acc * 10 + (Z.of_N d - 48))%Z l 0%Z.

(** [strconv.ParseInt(token, 10, 64)] followed by the range test; a token
    outside int64 is also outside the range. *)
Definition parse_int (token : list N) : Z :=
  match token with
  | b :: r => if (b =? 45)%N then (- decimal r)%Z else decimal token
  | [] => 0%Z
  end.

Definition validateIntegerRange (token : list N) : option Error :=
  refuse ErrIntegerOutOfRange
    when ((parse_int token <? - maxSafeInteger)%Z || (maxSafeInteger <? parse_int token)%Z) ;;
  None.

Definition validateSignedNumber (token : list N) : option Error :=
  refuse ErrNonInteger
    when (existsb (λ b, (b =? 46) || (b =? 101) || (b =? 69))%N token) ;;
  validateIntegerRange token.

(** The checks [consumeValue] makes on the values the decoder yields; here the
    text has been read to a tree first, so a text with several faults may
    report another of them. *)
Fixpoint consumeValue (depth : nat) (v : JSON.value) {struct v} : Error + json :=
  match v with
  | JSON.VNull => inr JNull
  | JSON.VBool b => inr (JBool b)
  | JSON.VString text => inr (JString text)
  | JSON.VNumber token =>
      match validateSignedNumber token with
      | Some err => inl err
      | None => inr (JNumber (parse_int token))
      end
  | JSON.VArray items =>
      if (maxJSONDepth <? S depth)%nat then inl ErrNestingTooDeep
      else
        match (fix consume (l : list JSON.value) : Error + list json :=
                 match l with
                 | [] => inr []
                 | x :: r =>
                     match consumeValue (S depth) x with
                     | inl err => inl err
                     | inr x' => match consume r with
                                 | inl err => inl err
                                 | inr r' => inr (x' :: r')
                                 end
                     end
                 end) items with
        | inl err => inl err
        | inr items' => inr (JArray items')
        end
  | JSON.VObject members =>
      if (maxJSONDepth <? S depth)%nat then inl ErrNestingTooDeep
      else
        match (fix consume (keys : list string) (l : list (string * JSON.value))
                 : Error + list (string * json) :=
                 match l with
                 | [] => inr []
                 | (k, x) :: r =>
                     if bool_decide (k ∈ keys) then inl ErrDuplicateKey
                     else match consumeValue (S depth) x with
                     | inl err => inl err
                     | inr x' => match consume (k :: keys) r with
                                 | inl err => inl err
                                 | inr r' => inr ((k, x') :: r')
                                 end
                     end
                 end) [] members with
        | inl err => inl err
        | inr members' => inr (JObject members')
        end
  end.

Definition validateJSON (input : list N) (maxBytes : N) : Error + json :=
  if (maxBytes <? llen input)%N then inl ErrInputTooLarge
  else if negb (forallb (λ o : option N, if o is Some _ then true else false) (decode_runes input))
  then inl ErrInvalidUTF8
  else match validateSurrogateEscapes input with
  | Some err => inl err
  | None =>
      match JSON.read_value input with
      | None => inl ErrSyntax
      | Some (v, rest) =>
          match consumeValue 0 v with
          | inl err => inl err
          | inr value => if JSON.skip rest == [] then inr value else inl ErrTrailingData
          end
      end
  end.

(** [json.Unmarshal] of canonical bytes. *)
Definition unmarshal (input : list N) : option json :=
  match validateJSON input maxSignedObjectJSONBytes with inl _ => None | inr v => Some v end.

Section Canonical.
Context `{JCSLib}.

Definition Canonicalize (input : list N) : Error + list N :=
  match validateJSON input maxCanonicalJSONBytes with
  | inl err => inl err
  | inr value => inr (jcs_Append value)
  end.

Definition CanonicalizeSignedObject (input : list N) : Error + list N :=
  match validateJSON input maxSignedObjectJSONBytes with
  | inl err => inl err
  | inr (JObject members) => inr (jcs_Append (JObject members))
  | inr _ => inl ErrSignedObject
  end.
End Canonical.

(** ** object.go *)

(** [scanCanonicalJSONString]: the bytes of the string, quotes included, and
    what follows it. [escaped] is the loop's flag. *)
Fixpoint scanStringBody (escaped : bool) (l : list N) : option (list N * list N) :=
  match l with
  | [] => None
  | b :: r =>
      if negb escaped && (b =? 34)%N then Some ([b], r)
      else match scanStringBody (negb escaped && (b =? 92)%N) r with
           | Some (t, z) => Some (b :: t, z)
           | None => None
           end
  end.

Definition scanCanonicalJSONString (l : list N) : option (list N * list N) :=
  match l with
  | q :: r =>
      if negb (q =? 34)%N then None
      else match scanStringBody false r with
           | Some (t, z) => Some (q :: t, z)
           | None => None
           end
  | [] => None
  end.

Fixpoint scanContainer (depth : nat) (inString escaped : bool) (l : list N)
    : option (list N * list N) :=
  match l with
  | [] => None
  | b :: r =>
      let more depth inString escaped :=
        match scanContainer depth inString escaped r with
        | Some (t, z) => Some (b :: t, z)
        | None => None
        end in
      if inString then
        if escaped then more depth true false
        else if (b =? 92)%N then more depth true true
        else more depth (negb (b =? 34)%N) false
      else if (b =? 34)%N then more depth true false
      else if ((b =? 123) || (b =? 91))%N then more (S depth) false false
      else if ((b =? 125) || (b =? 93))%N then
        if (depth =? 1)%nat then Some ([b], r) else more (depth - 1)%nat false false
      else more depth false false
  end.

Fixpoint scanScalar (l : list N) : option (list N * list N) :=
  match l with
  | [] => None
  | b :: r =>
      if ((b =? 44) || (b =? 125) || (b =? 93))%N then Some ([], l)
      else match scanScalar r with Some (t, z) => Some (b :: t, z) | None => None end
  end.

Definition scanCanonicalJSONValue (l : list N) : option (list N * list N) :=
  match l with
  | [] => None
  | b :: _ =>
      if (b =? 34)%N then scanCanonicalJSONString l
      else if ((b =? 123) || (b =? 91))%N then scanContainer 0 false false l
      else match scanScalar l with Some ([], _) => None | scanned => scanned end
  end.

Record canonicalObjectMember := mkMember { key : string; member : list N; memberValue : list N }.

(** The loop of [scanCanonicalObjectMembers]; [l] starts at a key. *)
Fixpoint scanMembers (fuel : nat) (l : list N) : option (list canonicalObjectMember) :=
  match fuel with
  | O => None
  | S f =>
      match scanCanonicalJSONString l with
      | None => None
      | Some (keyText, l1) =>
          match unmarshal keyText, l1 with
          | Some (JString k), colon :: l2 =>
              if negb (colon =? 58)%N then None else
              match scanCanonicalJSONValue l2 with
              | Some (valueText, c :: l3) =>
                  let m := mkMember k (keyText ++ [58%N] ++ valueText) valueText in
                  if (c =? 44)%N then
                    match scanMembers f l3 with Some ms => Some (m :: ms) | None => None end
                  else if (c =? 125)%N && bool_decide (l3 = []) then Some [m]
                  else None
              | _ => None
              end
          | _, _ => None
          end
      end
  end.

Definition scanCanonicalObjectMembers (input : list N) : option (list canonicalObjectMember) :=
  match input with
  | b :: r =>
      if (llen input <? 2)%N || negb (b =? 123)%N || negb (List.last input 0%N =? 125)%N then None
      else if (llen input =? 2)%N then Some []
      else scanMembers (length r) r
  | [] => None
  end.

Fixpoint join_members (l : list (list N)) : list N :=
  match l with
  | [] => []
  | [m] => m
  | m :: r => m ++ 44%N :: join_members r
  end.

Section Object.
Context `{JCSLib}.

(** The bytes without the member, and the member's value. *)
Definition RemoveCanonicalObjectMember (input : list N) (target : string)
    : Error + (list N * list N) :=
  if (target == EmptyString) || negb (utf8_ValidString target) then inl ErrObjectMember
  else match CanonicalizeSignedObject input with
  | inl err => inl err
  | inr canonical =>
      if input != canonical then inl ErrNoncanonicalObject
      else match scanCanonicalObjectMembers input with
      | None => inl ErrObjectMember
      | Some members =>
          let unsigned := 123%N :: join_members (member <$> filter (λ m, key m ≠ target) members)
                          ++ [125%N] in
          match List.last (Some <$> filter (λ m, key m = target) members) None with
          | None => inl ErrObjectMemberAbsent
          | Some m => inr (unsigned, memberValue m)
          end
      end
  end.
End Object.

(** ** base64url.go *)

Definition base64_char (v : N) : N :=
  (if v <? 26 then 65 + v else if v <? 52 then 71 + v else if v <? 62 then v - 4
   else if v =? 62 then 45 else 95)%N.

Definition base64_value (c : N) : option N :=
  (if in_range 65 90 c then Some (c - 65)
   else if in_range 97 122 c then Some (c - 71)
   else if in_range 48 57 c then Some (c + 4)
   else if c =? 45 then Some 62 else if c =? 95 then Some 63 else None)%N.

(** [base64.RawURLEncoding.EncodeToString]. *)
Fixpoint encode_bytes (l : list N) : list N :=
  match l with
  | [] => []
  | [a] => [base64_char (a / 4); base64_char ((a mod 4) * 16)]%N
  | [a; b] =>
      [base64_char (a / 4); base64_char ((a mod 4) * 16 + b / 16);
       base64_char ((b mod 16) * 4)]%N
  | a :: b :: c :: r =>
      (base64_char (a / 4) :: base64_char ((a mod 4) * 16 + b / 16) ::
       base64_char ((b mod 16) * 4 + c / 64) :: base64_char (c mod 64) :: encode_bytes r)%N
  end.

(** [base64.RawURLEncoding.Strict().DecodeString]: trailing bits must be zero. *)
Fixpoint decode_bytes (l : list N) : option (list N) :=
  match l with
  | [] => Some []
  | [_] => None
  | [x; y] =>
      match base64_value x, base64_value y with
      | Some p, Some q =>
          if (q mod 16 =? 0)%N then Some [p * 4 + q / 16]%N else None
      | _, _ => None
      end
  | [x; y; z] =>
      match base64_value x, base64_value y, base64_value z with
      | Some p, Some q, Some s =>
          if (s mod 4 =? 0)%N then Some [p * 4 + q / 16; (q mod 16) * 16 + s / 4]%N else None
      | _, _, _ => None
      end
  | x :: y :: z :: w :: r =>
      match base64_value x, base64_value y, base64_value z, base64_value w, decode_bytes r with
      | Some p, Some q, Some s, Some t, Some rest =>
          Some (p * 4 + q / 16 :: (q mod 16) * 16 + s / 4 :: (s mod 4) * 64 + t :: rest)%N
      | _, _, _, _, _ => None
      end
  end.

Definition EncodeBase64URL (value : list N) : string := of_bytes (encode_bytes value).

Definition validBase64URLText (text : string) : bool :=
  negb (strlen text mod 4 =? 1)%N &&
  all_bytes (λ c, in_range 65 90 c || in_range 97 122 c || in_range 48 57 c
                  || (c =? 45)%N || (c =? 95)%N) text.

Definition DecodeBase64URL (text : string) : Error + list N :=
  if negb (validBase64URLText text) then inl ErrInvalidBase64URL
  else match decode_bytes (bytes_of text) with
  | None => inl ErrInvalidBase64URL
  | Some value => if EncodeBase64URL value != text then inl ErrInvalidBase64URL else inr value
  end.

(** [base64.RawURLEncoding.EncodedLen]. *)
Definition EncodedLen (n : N) : N := (n / 3 * 4 + (n mod 3 * 8 + 5) / 6)%N.

Definition DecodeBase64URLExact (text : string) (size : N) : Error + list N :=
  if negb (validBase64URLText text) then inl ErrInvalidBase64URL
  else if negb (strlen text =? EncodedLen size)%N then inl ErrDecodedLength
  else match DecodeBase64URL text with
  | inl err => inl err
  | inr value => if negb (llen value =? size)%N then inl ErrDecodedLength else inr value
  end.

(** ** signing.go *)

Inductive SignatureLabel :=
  | SignatureGenesis | SignatureDiscovery | SignatureEndpointHints | SignatureInvite
  | SignatureCredentialBinding | SignatureCredentialTimeEndorsement | SignatureVoterActivationProof
  | SignatureVoterAuthorityHandoff | SignatureEventOrigin | SignatureCheckpoint | SignatureBatch
  | SignatureSnapshot | SignatureGitRefAdvertisement | SignatureGitStageReceipt
  | SignatureGitCanonicalCoverage | SignatureOwnerRecovery | SignatureQuorumRecovery
  | SignatureUnknown (text : string).

#[global] Instance SignatureLabel_eq_dec : EqDecision SignatureLabel.
Proof. solve_decision. Defined.

Definition label_text (label : SignatureLabel) : string :=
  match label with
  | SignatureGenesis => "codecomm/v1/genesis"
  | SignatureDiscovery => "codecomm/v1/discovery"
  | SignatureEndpointHints => "codecomm/v1/endpoint-hints"
  | SignatureInvite => "codecomm/v1/invite"
  | SignatureCredentialBinding => "codecomm/v1/credential-binding"
  | SignatureCredentialTimeEndorsement => "codecomm/v1/credential-time-endorsement"
  | SignatureVoterActivationProof => "codecomm/v1/voter-activation-proof"
  | SignatureVoterAuthorityHandoff => "codecomm/v1/voter-authority-handoff"
  | SignatureEventOrigin => "codecomm/v1/event-origin"
  | SignatureCheckpoint => "codecomm/v1/checkpoint"
  | SignatureBatch => "codecomm/v1/batch"
  | SignatureSnapshot => "codecomm/v1/snapshot"
  | SignatureGitRefAdvertisement => "codecomm/v1/git-ref-advertisement"
  | SignatureGitStageReceipt => "codecomm/v1/git-stage-receipt"
  | SignatureGitCanonicalCoverage => "codecomm/v1/git-canonical-coverage"
  | SignatureOwnerRecovery => "codecomm/v1/owner-recovery"
  | SignatureQuorumRecovery => "codecomm/v1/quorum-recovery"
  | SignatureUnknown text => text
  end.

Definition SignatureLabels : list SignatureLabel :=
  [SignatureGenesis; SignatureDiscovery; SignatureEndpointHints; SignatureInvite;
   SignatureCredentialBinding; SignatureCredentialTimeEndorsement; SignatureVoterActivationProof;
   SignatureVoterAuthorityHandoff; SignatureEventOrigin; SignatureCheckpoint; SignatureBatch;
   SignatureSnapshot; SignatureGitRefAdvertisement; SignatureGitStageReceipt;
   SignatureGitCanonicalCoverage; SignatureOwnerRecovery; SignatureQuorumRecovery].

Definition SignatureLabel_Valid (label : SignatureLabel) : bool :=
  match label with SignatureUnknown _ => false | _ => true end.

Definition BuildSignedInput (label : SignatureLabel) (signedBytes : list N) : Error + list N :=
  if negb (SignatureLabel_Valid label) then inl ErrInvalidSignatureLabel
  else
    let limit := if label == SignatureBatch then maxBatchSignedInputBytes
                 else maxSignedObjectJSONBytes in
    if (limit <? llen signedBytes)%N then inl ErrSignedInputTooLarge
    else inr (bytes_of (label_text label) ++ 0%N :: signedBytes).

(** ** device_id.go *)

Section Device.
Context `{CryptoLib}.

Definition DeriveDeviceID (publicKey : list N) : Error + string :=
  if negb (llen publicKey =? 32)%N then inl ErrInvalidEd25519PublicKey
  else inr ("cc1" +:+ hex_encode (Sum256 publicKey)).
End Device.

(** ** Lemmas *)

Lemma base64_value_char v : (v < 64)%N → base64_value (base64_char v) = Some v.
Proof.
  intros Hv. assert (Hall : ∀ n, (n < 64)%nat →
    base64_value (base64_char (N.of_nat n)) = Some (N.of_nat n)).
  { intros n Hn. do 64 (destruct n as [|n]; [by vm_compute|]). lia. }
  specialize (Hall (N.to_nat v)). rewrite N2Nat.id in Hall. apply Hall. lia.
Qed.

Definition list3_ind {A} (P : list A → Prop)
    (H0 : P []) (H1 : ∀ a, P [a]) (H2 : ∀ a b, P [a; b])
    (H3 : ∀ a b c r, P r → P (a :: b :: c :: r)) : ∀ l, P l :=
  fix go l :=
    match l with
    | [] => H0
    | [a] => H1 a
    | [a; b] => H2 a b
    | a :: b :: c :: r => H3 a b c r (go r)
    end.

Ltac euclid := zify; Z.to_euclidean_division_equations; lia.

Lemma decode_encode_bytes v :
  Forall (λ b, b < 256)%N v → decode_bytes (encode_bytes v) = Some v.
Proof.
  induction v as [|a|a b|a b c r IH] using list3_ind; intros Hb; decompose_Forall; cbn [encode_bytes decode_bytes];
    rewrite ?base64_value_char by euclid; rewrite ?IH by done; [done|..].
  - rewrite (proj2 (N.eqb_eq _ _)) by euclid. do 2 f_equal. euclid.
  - rewrite (proj2 (N.eqb_eq _ _)) by euclid. do 2 f_equal; [euclid|]. f_equal. euclid.
  - do 2 f_equal; [euclid|]. f_equal; [euclid|]. f_equal. euclid.
Qed.

Lemma base64_char_text v : (v < 64)%N →
  (in_range 65 90 (base64_char v) || in_range 97 122 (base64_char v) ||
   in_range 48 57 (base64_char v) || (base64_char v =? 45)%N || (base64_char v =? 95)%N) = true
  ∧ (base64_char v < 256)%N.
Proof.
  intros Hv. assert (Hall : ∀ n, (n < 64)%nat → let c := base64_char (N.of_nat n) in
    (in_range 65 90 c || in_range 97 122 c || in_range 48 57 c || (c =? 45)%N || (c =? 95)%N) = true
    ∧ (c < 256)%N).
  { intros n Hn. do 64 (destruct n as [|n]; [split; by vm_compute|]). lia. }
  specialize (Hall (N.to_nat v)). rewrite N2Nat.id in Hall. apply Hall. lia.
Qed.

Lemma encode_bytes_text v :
  Forall (λ b, b < 256)%N v →
  Forall (λ c, (in_range 65 90 c || in_range 97 122 c || in_range 48 57 c
                || (c =? 45)%N || (c =? 95)%N) = true ∧ (c < 256)%N) (encode_bytes v) ∧
  (∀ k, length (encode_bytes v) ≠ 4 * k + 1)%nat.
Proof.
  induction v as [|a|a b|a b c r IH] using list3_ind; intros Hb; decompose_Forall; cbn [encode_bytes].
  - split; [done | intros k; simpl; lia].
  - split; [|intros k; simpl; lia]. repeat (constructor; [apply base64_char_text; euclid|]). done.
  - split; [|intros k; simpl; lia]. repeat (constructor; [apply base64_char_text; euclid|]). done.
  - destruct IH as [IH Hlen]; [done|]. split.
    + do 4 (constructor; [apply base64_char_text; euclid|]). done.
    + intros k Hk. cbn [length] in Hk. apply (Hlen (k - 1)). lia.
Qed.

Lemma all_bytes_of_bytes (p : N → bool) l :
  Forall (λ c, p c = true ∧ (c < 256)%N) l → all_bytes p (of_bytes l) = true.
Proof.
  induction 1 as [|c r [Hp Hc] _ IH]; simpl; [done|].
  unfold byte_of. rewrite N_ascii_embedding by done. by rewrite Hp, IH.
Qed.

Lemma EncodeBase64URL_valid v :
  Forall (λ b, b < 256)%N v → validBase64URLText (EncodeBase64URL v) = true.
Proof.
  intros Hb. destruct (encode_bytes_text v Hb) as [Htext Hlen].
  unfold validBase64URLText, EncodeBase64URL. rewrite all_bytes_of_bytes by done.
  unfold strlen. rewrite of_bytes_length. rewrite andb_true_r, negb_true_iff, N.eqb_neq.
  intros Hm. apply (Hlen (length (encode_bytes v) / 4)%nat).
  revert Hm. generalize (length (encode_bytes v)). intros n Hm. euclid.
Qed.

(** Base64url texts and byte strings correspond one to one. *)
Lemma DecodeBase64URL_iff text v :
  Forall (λ b, b < 256)%N v → DecodeBase64URL text = inr v ↔ text = EncodeBase64URL v.
Proof.
  intros Hb. split.
  - unfold DecodeBase64URL. repeat case_match; intros Hv; simplify_eq.
    by apply negb_decide_false in H1.
  - intros ->. unfold DecodeBase64URL. rewrite EncodeBase64URL_valid by done. simpl.
    unfold EncodeBase64URL at 1. rewrite bytes_of_of_bytes.
    + rewrite decode_encode_bytes by done. by rewrite bool_decide_true.
    + eapply Forall_impl; [apply encode_bytes_text; done|]. naive_solver.
Qed.

(** No V1 label contains a NUL byte, so the separator ends it. *)
Lemma label_no_nul label :
  SignatureLabel_Valid label = true → 0%N ∉ bytes_of (label_text label).
Proof.
  intros Hv. apply (bool_decide_eq_false_1 (0%N ∈ bytes_of (label_text label))).
  by destruct label; try done; vm_compute.
Qed.

Lemma label_text_inj l1 l2 :
  SignatureLabel_Valid l1 = true → SignatureLabel_Valid l2 = true →
  bytes_of (label_text l1) = bytes_of (label_text l2) → l1 = l2.
Proof. destruct l1, l2; try done; intros _ _ Heq; by vm_compute in Heq. Qed.

Lemma separated_inj (a b : list N) x y :
  0%N ∉ a → 0%N ∉ b → a ++ 0%N :: x = b ++ 0%N :: y → a = b ∧ x = y.
Proof.
  revert b. induction a as [|p a IH]; intros [|q b]; simpl; intros Ha Hb Heq; simplify_eq;
    [done | set_solver | set_solver |].
  destruct (IH b) as [-> ->]; [set_solver..|done|done].
Qed.

End Codec.

Module Crypto.

Definition Ed25519PublicKeySize : N := 32.
Definition Ed25519SignatureSize : N := 64.
Definition SHA256Size : N := 32.

Inductive Error :=
  | ErrInvalidEd25519PublicKey | ErrInvalidEd25519Signature | ErrSignatureVerification
  | ErrSignedInput (err : Codec.Error).

Section Verify.
Context `{CryptoLib}.

Definition VerifyEd25519 (publicKey : list N) (label : Codec.SignatureLabel)
    (signedBytes signature : list N) : option Error :=
  refuse ErrInvalidEd25519PublicKey when (negb (llen publicKey =? Ed25519PublicKeySize)%N) ;;
  refuse ErrInvalidEd25519Signature when (negb (llen signature =? Ed25519SignatureSize)%N) ;;
  match Codec.BuildSignedInput label signedBytes with
  | inl err => Some (ErrSignedInput err)
  | inr signedInput =>
      refuse ErrSignatureVerification
        when (negb (Ed25519_Verify publicKey signedInput signature)) ;;
      None
  end.
End Verify.

End Crypto.
