(* ===== verification/GoMarshal.v ===== *)
(** * What the source uses of json.Marshal

    [Module Marshal]: the texts [json.Marshal] writes for the wire structures
    of the source: structs of strings, unsigned integers, string slices,
    optional strings and raw messages. A structure is its value tree, members
    in the order of the struct's fields; a nil pointer is [JNull]. A raw message
    is the value it spells: the messages the source embeds are canonical, so
    writing the value again gives their bytes, with the encoder's escapes. *)

From stdpp Require Import base gmap strings list pretty sorting.
From Stdlib Require Import ZArith NArith Lia Ascii ZifyNat ZifyN.
From S2P Require Import Prelude.
From S2P Require Import GoLib.
From S2P Require Import GoJson.
From S2P Require Import CodecLayer.

Module Marshal.

(** ** Strings: [appendString] with HTML escaping *)

Definition hex_byte (v : N) : N := byte_of (GoLib.hex_digit v).

(** A byte below 128. *)
Definition escape_ascii (b : N) : list N :=
  (if (b =? 34) || (b =? 92) then [92; b]
   else if b =? 8 then [92; 98]
   else if b =? 12 then [92; 102]
   else if b =? 10 then [92; 110]
   else if b =? 13 then [92; 114]
   else if b =? 9 then [92; 116]
   else if (b <? 32) || (b =? 60) || (b =? 62) || (b =? 38)
   then [92; 117; 48; 48; hex_byte (b / 16); hex_byte (b mod 16)]
   else [b])%N.

(** [\ufffd]. *)
Definition replacement : list N := [92; 117; 102; 102; 102; 100]%N.

(** U+2028 and U+2029, whose last byte is 168 or 169. *)
Definition line_separator (b0 b1 b2 : N) : bool :=
  ((b0 =? 226) && (b1 =? 128) && ((b2 =? 168) || (b2 =? 169)))%N.

Fixpoint quote_bytes (l : list N) : list N :=
  match l with
  | [] => []
  | b0 :: l1 =>
      if (b0 <? 128)%N then escape_ascii b0 ++ quote_bytes l1 else
      match l1 with
      | [] => replacement
      | b1 :: l2 =>
          if two_bytes b0 b1 then b0 :: b1 :: quote_bytes l2 else
          match l2 with
          | [] => replacement ++ quote_bytes l1
          | b2 :: l3 =>
              if three_bytes b0 b1 b2 then
                (if line_separator b0 b1 b2
                 then [92; 117; 50; 48; 50; hex_byte (b2 - 160)]%N
                 else [b0; b1; b2]) ++ quote_bytes l3
              else
              match l3 with
              | [] => replacement ++ quote_bytes l1
              | b3 :: l4 =>
                  if four_bytes b0 b1 b2 b3 then b0 :: b1 :: b2 :: b3 :: quote_bytes l4
                  else replacement ++ quote_bytes l1
              end
          end
      end
  end.

Definition quote (s : string) : list N := 34%N :: quote_bytes (bytes_of s) ++ [34%N].

(** ** Values *)

Fixpoint separated (l : list (list N)) : list N :=
  match l with
  | [] => []
  | [x] => x
  | x :: r => x ++ 44%N :: separated r
  end.

Fixpoint marshal (v : json) : list N :=
  match v with
  | JNull => [110; 117; 108; 108]%N
  | JBool true => [116; 114; 117; 101]%N
  | JBool false => [102; 97; 108; 115; 101]%N
  | JNumber n => bytes_of (pretty n)
  | JString s => quote s
  | JArray items => 91%N :: separated (map marshal items) ++ [93%N]
  | JObject members =>
      123%N :: separated (map (λ '(name, x), quote name ++ 58%N :: marshal x) members) ++ [125%N]
  end.

(** ** Members of the wire structures *)

Definition uint (n : N) : json := JNumber (Z.of_N n).
Definition texts (l : list string) : json := JArray (JString <$> l).
(** A pointer that is nil for the empty text. *)
Definition optional_text (s : string) : json :=
  if s == EmptyString then JNull else JString s.

(** A Go map is written with its keys in ascending order. *)
Definition key_le (a b : string * json) : Prop := String.le a.1 b.1.
#[global] Instance key_le_dec a b : Decision (key_le a b).
Proof. unfold key_le. apply _. Defined.
Definition map_members (m : gmap string json) : list (string * json) :=
  merge_sort key_le (map_to_list m).

Section Canonical.
Context `{JCSLib}.

(** [json.Marshal] followed by [CanonicalizeSignedObject]. *)
Definition canonical_object (members : list (string * json)) : Codec.Error + list N :=
  Codec.CanonicalizeSignedObject (marshal (JObject members)).
End Canonical.

End Marshal.

(** ** The JSON reader reads back what the encoder writes

    The strict reader of canonical.go accepts every text [json.Marshal] writes
    for a value within the protocol's limits, and yields that value: quoting,
    number printing, the surrogate scan and the fuel of the reader. *)

Module MarshalProofs.

Import Marshal.

Lemma length_ind {A} (P : list A → Prop) :
  (∀ l, (∀ r, length r < length l → P r) → P l) → ∀ l, P l.
Proof. intros H. exact (well_founded_induction (Wf_nat.well_founded_ltof _ length) P H). Qed.

(** ** UTF-8 texts by their runes *)

Inductive utf8 : list N → Prop :=
  | utf8_nil : utf8 []
  | utf8_one b l : (b < 128)%N → utf8 l → utf8 (b :: l)
  | utf8_two b0 b1 l : two_bytes b0 b1 = true → utf8 l → utf8 (b0 :: b1 :: l)
  | utf8_three b0 b1 b2 l : three_bytes b0 b1 b2 = true → utf8 l → utf8 (b0 :: b1 :: b2 :: l)
  | utf8_four b0 b1 b2 b3 l :
      four_bytes b0 b1 b2 b3 = true → utf8 l → utf8 (b0 :: b1 :: b2 :: b3 :: l).

Definition valid_runes (l : list N) : bool :=
  forallb (λ o : option N, if o is Some _ then true else false) (decode_runes l).

Ltac byte_ranges := unfold four_bytes, three_bytes, two_bytes, cont, in_range in *; bools; lia.

Lemma two_bytes_high b0 b1 : two_bytes b0 b1 = true → (128 ≤ b0 ∧ 128 ≤ b1)%N.
Proof. intros. byte_ranges. Qed.
Lemma three_bytes_high b0 b1 b2 :
  three_bytes b0 b1 b2 = true → (224 ≤ b0 ∧ 128 ≤ b1 ∧ 128 ≤ b2)%N.
Proof. intros. byte_ranges. Qed.
Lemma four_bytes_high b0 b1 b2 b3 :
  four_bytes b0 b1 b2 b3 = true → (240 ≤ b0 ∧ 128 ≤ b1 ∧ 128 ≤ b2 ∧ 128 ≤ b3)%N.
Proof. intros. byte_ranges. Qed.

Lemma three_not_two b0 b1 b2 : three_bytes b0 b1 b2 = true → two_bytes b0 b1 = false.
Proof. intros H. apply not_true_is_false. intros H2. byte_ranges. Qed.
Lemma four_not_two b0 b1 b2 b3 : four_bytes b0 b1 b2 b3 = true → two_bytes b0 b1 = false.
Proof. intros H. apply not_true_is_false. intros H2. byte_ranges. Qed.
Lemma four_not_three b0 b1 b2 b3 : four_bytes b0 b1 b2 b3 = true → three_bytes b0 b1 b2 = false.
Proof. intros H. apply not_true_is_false. intros H2. byte_ranges. Qed.

Lemma high_not_ascii b : (128 ≤ b)%N → (b <? 128)%N = false.
Proof. intros. apply N.ltb_ge. lia. Qed.

(** [utf8_rec] splits off the first rune the way the decoders do. *)
Lemma valid_runes_utf8 l : valid_runes l = true ↔ utf8 l.
Proof.
  split.
  - induction l as [l IH] using length_ind.
    unfold valid_runes. destruct l as [|b0 l]; [constructor|]. simpl.
    destruct (b0 <? 128)%N eqn:H0.
    { intros H. simpl in H. constructor; [by apply N.ltb_lt|]. apply IH; [simpl; lia|done]. }
    destruct l as [|b1 l]; [done|]. destruct (two_bytes b0 b1) eqn:H1.
    { intros H. simpl in H. constructor; [done|]. apply IH; [simpl; lia|done]. }
    destruct l as [|b2 l]; [done|]. destruct (three_bytes b0 b1 b2) eqn:H2.
    { intros H. simpl in H. constructor; [done|]. apply IH; [simpl; lia|done]. }
    destruct l as [|b3 l]; [done|]. destruct (four_bytes b0 b1 b2 b3) eqn:H3; [|done].
    intros H. simpl in H. constructor; [done|]. apply IH; [simpl; lia|done].
  - unfold valid_runes. induction 1 as [|b l Hb _ IH|b0 b1 l Hb _ IH|b0 b1 b2 l Hb _ IH
      |b0 b1 b2 b3 l Hb _ IH]; [done|..]; cbn [decode_runes].
    + by rewrite (proj2 (N.ltb_lt _ _) Hb).
    + rewrite high_not_ascii by (apply two_bytes_high in Hb; lia). by rewrite Hb.
    + rewrite high_not_ascii by (apply three_bytes_high in Hb; lia).
      by rewrite (three_not_two _ _ _ Hb), Hb.
    + rewrite high_not_ascii by (apply four_bytes_high in Hb; lia).
      by rewrite (four_not_two _ _ _ _ Hb), (four_not_three _ _ _ _ Hb), Hb.
Qed.

Lemma utf8_app a b : utf8 a → utf8 b → utf8 (a ++ b).
Proof. intros Ha Hb. induction Ha; simpl; [done|by constructor..]. Qed.

Lemma utf8_ascii l : Forall (λ b, b < 128)%N l → utf8 l.
Proof. induction 1; by constructor. Qed.

(** ** Quoted strings *)

(** The escape of an ASCII byte, whatever follows it. *)
Definition ascii_codes : list N := Eval vm_compute in (N.of_nat <$> seq 0 128).
Definition below_128 (P : N → Prop) : Prop := Forall P ascii_codes.

Lemma below_128_all P : below_128 P → ∀ b, (b < 128)%N → P b.
Proof.
  unfold below_128. rewrite Forall_forall. intros H b Hb. apply H.
  change ascii_codes with (N.of_nat <$> seq 0 128).
  apply list_elem_of_fmap. exists (N.to_nat b). split; [lia|]. apply elem_of_seq. lia.
Qed.

Lemma unquote_escape b r t z :
  (b < 128)%N → JSON.unquote r = Some (t, z) → JSON.unquote (escape_ascii b ++ r) = Some (b :: t, z).
Proof.
  intros Hb Hr. revert b Hb.
  apply (below_128_all (λ b, JSON.unquote (escape_ascii b ++ r) = Some (b :: t, z))).
  unfold below_128, ascii_codes. repeat (constructor; [cbn; by rewrite Hr|]). constructor.
Qed.

Lemma surrogates_escape b r :
  (b < 128)%N → Codec.surrogates true (escape_ascii b ++ r) = Codec.surrogates true r.
Proof.
  revert b.
  apply (below_128_all
    (λ b, Codec.surrogates true (escape_ascii b ++ r) = Codec.surrogates true r)).
  unfold below_128, ascii_codes. repeat (constructor; [reflexivity|]). constructor.
Qed.

Lemma escape_ascii_ascii b : (b < 128)%N → Forall (λ c, c < 128)%N (escape_ascii b).
Proof.
  revert b. apply (below_128_all (λ b, Forall (λ c, c < 128)%N (escape_ascii b))).
  unfold below_128, ascii_codes.
  repeat (constructor; [repeat (constructor; [done|]); constructor|]). constructor.
Qed.

Lemma unquote_high b r t z :
  (128 ≤ b)%N → JSON.unquote r = Some (t, z) → JSON.unquote (b :: r) = Some (b :: t, z).
Proof.
  intros Hb Hr. cbn [JSON.unquote]. rewrite (proj2 (N.eqb_neq b 34)), (proj2 (N.ltb_ge b 32)),
    (proj2 (N.eqb_neq b 92)) by lia. by rewrite Hr.
Qed.

Lemma surrogates_high b r : (128 ≤ b)%N → Codec.surrogates true (b :: r) = Codec.surrogates true r.
Proof.
  intros Hb. cbn. rewrite (proj2 (N.eqb_neq b 34)), (proj2 (N.eqb_neq b 92)) by lia. done.
Qed.

(** The two separators the encoder escapes. *)
Lemma line_separator_cases b0 b1 b2 :
  line_separator b0 b1 b2 = true → b0 = 226%N ∧ b1 = 128%N ∧ (b2 = 168%N ∨ b2 = 169%N).
Proof. unfold line_separator. intros. bools. lia. Qed.

(** One equation of [quote_bytes] per kind of rune. *)
Lemma quote_utf8_step l : utf8 l →
  (l = [] ∨ (∃ b r, l = b :: r ∧ (b < 128)%N ∧ utf8 r ∧ quote_bytes l = escape_ascii b ++ quote_bytes r) ∨
   (∃ r, (l = 226%N :: 128%N :: 168%N :: r ∧ quote_bytes l = [92; 117; 50; 48; 50; 56]%N ++ quote_bytes r ∨
          l = 226%N :: 128%N :: 169%N :: r ∧ quote_bytes l = [92; 117; 50; 48; 50; 57]%N ++ quote_bytes r)
         ∧ utf8 r) ∨
   (∃ h r, h ≠ [] ∧ l = h ++ r ∧ Forall (λ b, 128 ≤ b)%N h ∧ (∀ x, utf8 x → utf8 (h ++ x)) ∧ utf8 r ∧
           quote_bytes l = h ++ quote_bytes r)).
Proof.
  destruct 1 as [|b l Hb Hl|b0 b1 l Hb Hl|b0 b1 b2 l Hb Hl|b0 b1 b2 b3 l Hb Hl]; [by left|..];
    right; cbn [quote_bytes].
  - left. exists b, l. by rewrite (proj2 (N.ltb_lt _ _) Hb).
  - right; right. exists [b0; b1], l. pose proof (two_bytes_high _ _ Hb).
    rewrite high_not_ascii, Hb by lia. split_and!; try done.
    + repeat constructor; lia.
    + intros x Hx. by constructor.
  - right. pose proof (three_bytes_high _ _ _ Hb).
    rewrite high_not_ascii, (three_not_two _ _ _ Hb), Hb by lia.
    destruct (line_separator b0 b1 b2) eqn:Hs.
    + left. exists l. apply line_separator_cases in Hs as (-> & -> & [-> | ->]); auto.
    + right. exists [b0; b1; b2], l. split_and!; try done.
      * repeat constructor; lia.
      * intros x Hx. by constructor.
  - right; right. exists [b0; b1; b2; b3], l. pose proof (four_bytes_high _ _ _ _ Hb).
    rewrite high_not_ascii, (four_not_two _ _ _ _ Hb), (four_not_three _ _ _ _ Hb), Hb by lia.
    split_and!; try done.
    + repeat constructor; lia.
    + intros x Hx. by constructor.
Qed.

(** Induction along the runes of a text. *)
Lemma quote_ind (P : list N → list N → Prop) :
  P [] [] →
  (∀ b r, (b < 128)%N → utf8 r → P r (quote_bytes r) → P (b :: r) (escape_ascii b ++ quote_bytes r)) →
  (∀ r, utf8 r → P r (quote_bytes r) →
     P (226%N :: 128%N :: 168%N :: r) ([92; 117; 50; 48; 50; 56]%N ++ quote_bytes r)) →
  (∀ r, utf8 r → P r (quote_bytes r) →
     P (226%N :: 128%N :: 169%N :: r) ([92; 117; 50; 48; 50; 57]%N ++ quote_bytes r)) →
  (∀ h r, Forall (λ b, 128 ≤ b)%N h → (∀ x, utf8 x → utf8 (h ++ x)) → utf8 r →
     P r (quote_bytes r) → P (h ++ r) (h ++ quote_bytes r)) →
  ∀ l, utf8 l → P l (quote_bytes l).
Proof.
  intros H0 H1 H2 H3 H4 l. induction l as [l IH] using length_ind. intros Hl.
  destruct (quote_utf8_step l Hl) as [->|[(b & r & -> & Hb & Hr & ->)|[(r & [[-> ->]|[-> ->]] & Hr)
    |(h & r & Hne & -> & Hh & Hx & Hr & ->)]]]; [done|..].
  - apply H1; auto.
  - apply H2; [done|]. apply IH; [simpl; lia|done].
  - apply H3; [done|]. apply IH; [simpl; lia|done].
  - apply H4; auto. apply IH; [|done]. rewrite length_app. destruct h; [done|]. simpl. lia.
Qed.

Lemma unquote_high_app h r t z :
  Forall (λ b, 128 ≤ b)%N h → JSON.unquote r = Some (t, z) →
  JSON.unquote (h ++ r) = Some (h ++ t, z).
Proof. induction 1; simpl app; [done|]. intros Hr. apply unquote_high; auto. Qed.

Lemma unquote_quote l z :
  utf8 l → JSON.unquote (quote_bytes l ++ 34%N :: z) = Some (l, z).
Proof.
  revert l. refine (quote_ind (λ l q, JSON.unquote (q ++ 34%N :: z) = Some (l, z)) _ _ _ _ _).
  - done.
  - intros b r Hb _ IH. rewrite <-app_assoc. by apply unquote_escape.
  - intros r _ IH. rewrite <-app_assoc. cbn. by rewrite IH.
  - intros r _ IH. rewrite <-app_assoc. cbn. by rewrite IH.
  - intros h r Hh _ _ IH. rewrite <-app_assoc. by apply unquote_high_app.
Qed.

Lemma surrogates_quote l z :
  utf8 l → Codec.surrogates true (quote_bytes l ++ 34%N :: z) = Codec.surrogates false z.
Proof.
  revert l. refine (quote_ind
    (λ l q, Codec.surrogates true (q ++ 34%N :: z) = Codec.surrogates false z) _ _ _ _ _).
  - done.
  - intros b r Hb _ IH. rewrite <-app_assoc. by rewrite surrogates_escape.
  - intros r _ IH. rewrite <-app_assoc. exact IH.
  - intros r _ IH. rewrite <-app_assoc. exact IH.
  - intros h r Hh _ _ IH. rewrite <-app_assoc.
    induction Hh as [|b h Hb _ IHh]; [done|]. simpl app. by rewrite surrogates_high.
Qed.

Lemma utf8_quote l : utf8 l → utf8 (quote_bytes l).
Proof.
  revert l. refine (quote_ind (λ _ q, utf8 q) _ _ _ _ _).
  - constructor.
  - intros b r Hb _ IH. apply utf8_app; [|done]. by apply utf8_ascii, escape_ascii_ascii.
  - intros r _ IH. by apply utf8_app; [apply utf8_ascii; repeat constructor|].
  - intros r _ IH. by apply utf8_app; [apply utf8_ascii; repeat constructor|].
  - intros h r _ Hx _ IH. by apply Hx.
Qed.

(** ** Numbers *)

Local Notation accumulate := (fold_left (λ acc d, acc * 10 + (Z.of_N d - 48))%Z).

Lemma byte_of_pretty_char x : (x < 10)%N → byte_of (pretty_N_char x) = (48 + x)%N.
Proof.
  intros Hx. assert (x = 0 ∨ x = 1 ∨ x = 2 ∨ x = 3 ∨ x = 4 ∨ x = 5 ∨ x = 6 ∨ x = 7 ∨ x = 8 ∨ x = 9)%N
    as Hc by lia.
  repeat destruct Hc as [->|Hc]; try done. by subst.
Qed.

(** Digits, value and leading digit of the decimal printing of [x] before [s]. *)
Lemma pretty_go_spec x s :
  Forall (λ b, JSON.digit b = true) (bytes_of s) →
  Forall (λ b, JSON.digit b = true) (bytes_of (pretty_N_go x s)) ∧
  accumulate (bytes_of (pretty_N_go x s)) 0%Z = accumulate (bytes_of s) (Z.of_N x) ∧
  ((0 < x)%N → ∃ d l, bytes_of (pretty_N_go x s) = d :: l ∧ d ≠ 48%N).
Proof.
  revert s. induction (N.lt_wf_0 x) as [x _ IH]. intros s Hs.
  destruct (N.eq_0_gt_0_cases x) as [->|Hx]; [by rewrite pretty_N_go_0|].
  rewrite pretty_N_go_step by done.
  assert (Hmod : (x mod 10 < 10)%N) by (by apply N.mod_lt).
  destruct (IH (x / 10)%N (N.div_lt x 10 Hx eq_refl) (String (pretty_N_char (x mod 10)) s))
    as (Hd & Hv & Hh).
  { simpl. constructor; [|done]. rewrite byte_of_pretty_char by done.
    unfold JSON.digit, in_range. bools. lia. }
  split; [done|]. split.
  - rewrite Hv. cbn [bytes_of fold_left]. rewrite byte_of_pretty_char by done. f_equal. lia.
  - intros _. destruct (N.eq_0_gt_0_cases (x / 10)) as [H0|Hpos]; [|by apply Hh].
    rewrite H0, pretty_N_go_0. cbn [bytes_of]. rewrite byte_of_pretty_char by done.
    eexists _, _. split; [done|]. lia.
Qed.

Lemma pretty_N_spec (x : N) :
  Forall (λ b, JSON.digit b = true) (bytes_of (pretty x)) ∧
  Codec.decimal (bytes_of (pretty x)) = Z.of_N x ∧
  ∃ d l, bytes_of (pretty x) = d :: l ∧ (d = 48%N → l = []).
Proof.
  unfold pretty, pretty_N, Codec.decimal. case_decide as Hx.
  { subst. split_and!; [repeat constructor|done|]. by exists 48%N, []. }
  destruct (pretty_go_spec x EmptyString) as (Hd & Hv & Hh); [constructor|].
  split_and!; [done|done|]. destruct Hh as (d & l & -> & Hne); [lia|]. by exists d, l.
Qed.

(** What may follow a number token. *)
Definition ends_number (r : list N) : Prop :=
  match r with
  | [] => True
  | b :: _ => JSON.digit b = false ∧ b ≠ 46%N ∧ b ≠ 101%N ∧ b ≠ 69%N
  end.

Lemma digits_app ds r :
  Forall (λ b, JSON.digit b = true) ds → ends_number r → JSON.digits (ds ++ r) = (ds, r).
Proof.
  intros Hds Hr. induction Hds as [|b ds Hb _ IH]; simpl.
  - destruct r as [|b r]; [done|]. destruct Hr as [Hb _]. simpl. by rewrite Hb.
  - by rewrite Hb, IH.
Qed.

Lemma no_fraction r : ends_number r → JSON.fraction r = Some ([], r).
Proof.
  destruct r as [|b r]; [done|]. intros (_ & H & _). simpl.
  by rewrite (proj2 (N.eqb_neq b 46) H).
Qed.

Lemma no_exponent r : ends_number r → JSON.exponent r = Some ([], r).
Proof.
  destruct r as [|b r]; [done|]. intros (_ & _ & H & H'). simpl.
  by rewrite (proj2 (N.eqb_neq b 101) H), (proj2 (N.eqb_neq b 69) H').
Qed.

Lemma digit_bounds b : JSON.digit b = true → (48 ≤ b ≤ 57)%N.
Proof. unfold JSON.digit, in_range. intros. by bools. Qed.

(** A signed digit text that starts as JSON requires is read back whole. *)
Lemma number_digits (sign : list N) d l r :
  sign = [] ∨ sign = [45%N] → Forall (λ b, JSON.digit b = true) (d :: l) → (d = 48%N → l = []) →
  ends_number r → JSON.number ((sign ++ d :: l) ++ r) = Some (sign ++ d :: l, r).
Proof.
  intros Hsign Hd H0 Hr. unfold JSON.number.
  assert (Hb : (48 ≤ d)%N) by (apply Forall_inv in Hd; by apply digit_bounds).
  assert (Hsplit : match (sign ++ d :: l) ++ r with
                   | b :: r' => if (b =? 45)%N then ([b], r') else ([], (sign ++ d :: l) ++ r)
                   | [] => ([], [])
                   end = (sign, (d :: l) ++ r)).
  { destruct Hsign as [-> | ->]; simpl; [|done]. by rewrite (proj2 (N.eqb_neq d 45)) by lia. }
  rewrite Hsplit, digits_app by done.
  replace ((d =? 48)%N && negb (bool_decide (l = []))) with false.
  2: { symmetry. apply andb_false_iff. destruct (N.eqb_spec d 48) as [E|E]; [right|by left].
       by rewrite bool_decide_true by auto. }
  rewrite no_fraction, no_exponent by done. by rewrite !app_nil_r.
Qed.

(** The text of an integer: a sign and digits. *)
Lemma pretty_Z_spec (n : Z) :
  ∃ sign d l, bytes_of (pretty n) = sign ++ d :: l ∧ (sign = [] ∨ sign = [45%N]) ∧
    Forall (λ b, JSON.digit b = true) (d :: l) ∧ (d = 48%N → l = []) ∧
    Codec.parse_int (bytes_of (pretty n)) = n.
Proof.
  destruct n as [|p|p].
  - exists [], 48%N, []. split_and!; [done|by left|repeat constructor|done|done].
  - destruct (pretty_N_spec (Npos p)) as (Hd & Hv & d & l & Heq & H0).
    change (pretty (Z.pos p)) with (pretty (N.pos p)).
    exists [], d, l. rewrite Heq in *. split_and!; [done|by left|done|done|].
    unfold Codec.parse_int. rewrite (proj2 (N.eqb_neq d 45)); [by rewrite Hv|].
    apply Forall_inv, digit_bounds in Hd. lia.
  - destruct (pretty_N_spec (Npos p)) as (Hd & Hv & d & l & Heq & H0).
    change (pretty (Z.neg p)) with ("-" +:+ pretty (N.pos p)).
    change (bytes_of ("-" +:+ pretty (N.pos p))) with (45%N :: bytes_of (pretty (N.pos p))).
    exists [45%N], d, l. rewrite Heq in *. split_and!; [done|by right|done|done|].
    unfold Codec.parse_int. simpl N.eqb. cbv iota. by rewrite Hv.
Qed.

Lemma number_pretty (n : Z) r :
  ends_number r → JSON.number (bytes_of (pretty n) ++ r) = Some (bytes_of (pretty n), r).
Proof.
  intros Hr. destruct (pretty_Z_spec n) as (sign & d & l & -> & Hs & Hd & H0 & _).
  by apply number_digits.
Qed.

Lemma validate_pretty (n : Z) :
  (- Codec.maxSafeInteger ≤ n ≤ Codec.maxSafeInteger)%Z →
  Codec.validateSignedNumber (bytes_of (pretty n)) = None.
Proof.
  intros Hn. unfold Codec.validateSignedNumber, Codec.validateIntegerRange.
  destruct (pretty_Z_spec n) as (sign & d & l & Heq & Hs & Hd & _ & ->).
  replace (existsb _ _) with false.
  { rewrite (proj2 (Z.ltb_ge _ _)), (proj2 (Z.ltb_ge _ _)) by lia. done. }
  symmetry. apply not_true_is_false. rewrite existsb_exists. intros (b & Hin & Hb).
  apply list_elem_of_In in Hin. rewrite Heq in Hin.
  assert (b = 45 ∨ 48 ≤ b ≤ 57)%N as Hrange.
  { apply elem_of_app in Hin as [Hin|Hin].
    - destruct Hs as [-> | ->]; set_solver.
    - right. rewrite Forall_forall in Hd. by apply digit_bounds, Hd. }
  bools. lia.
Qed.

(** ** Values *)

Lemma json_induction (P : json → Prop) :
  P JNull → (∀ b, P (JBool b)) → (∀ n, P (JNumber n)) → (∀ s, P (JString s)) →
  (∀ items, Forall P items → P (JArray items)) →
  (∀ members, Forall (λ m, P m.2) members → P (JObject members)) →
  ∀ v, P v.
Proof.
  intros H0 H1 H2 H3 H4 H5. fix IH 1.
  intros [|b|n|s|items|members]; [exact H0|exact (H1 b)|exact (H2 n)|exact (H3 s)|..].
  - apply H4. induction items as [|x items IHl]; constructor; [apply IH|exact IHl].
  - apply H5. induction members as [|[k x] members IHl]; constructor; [apply IH|exact IHl].
Qed.

(** The tree the reader builds. *)
Fixpoint value_of (v : json) : JSON.value :=
  match v with
  | JNull => JSON.VNull
  | JBool b => JSON.VBool b
  | JNumber n => JSON.VNumber (bytes_of (pretty n))
  | JString s => JSON.VString s
  | JArray items => JSON.VArray (map value_of items)
  | JObject members => JSON.VObject (map (λ '(k, x), (k, value_of x)) members)
  end.

(** Within the protocol's limits: UTF-8 texts, safe integers, distinct member
    names, and nesting below [maxJSONDepth]. *)
Fixpoint encodable (depth : nat) (v : json) : bool :=
  match v with
  | JNull | JBool _ => true
  | JNumber n => (- Codec.maxSafeInteger <=? n)%Z && (n <=? Codec.maxSafeInteger)%Z
  | JString s => utf8_ValidString s
  | JArray items => (S depth <=? Codec.maxJSONDepth)%nat && forallb (encodable (S depth)) items
  | JObject members =>
      (S depth <=? Codec.maxJSONDepth)%nat && bool_decide (NoDup members.*1) &&
      forallb (λ '(k, x), utf8_ValidString k && encodable (S depth) x) members
  end.

Lemma utf8_string s : utf8_ValidString s = true ↔ utf8 (bytes_of s).
Proof. apply valid_runes_utf8. Qed.

(** The text of a member of an object. *)
Definition marshal_member (m : string * json) : list N := quote m.1 ++ 58%N :: marshal m.2.

Lemma marshal_object members :
  marshal (JObject members) = 123%N :: separated (map marshal_member members) ++ [125%N].
Proof. simpl. do 3 f_equal. apply map_ext. by intros [k x]. Qed.

(** The first byte of a value is not white space nor a closing bracket. *)
Lemma marshal_head v :
  ∃ b t, marshal v = b :: t ∧ JSON.space b = false ∧ b ≠ 93%N ∧ b ≠ 125%N.
Proof.
  destruct v as [|[]|n|s|items|members]; try by eexists _, _.
  cbn [marshal]. destruct (pretty_Z_spec n) as (sign & d & l & -> & [-> | ->] & Hd & _).
  - exists d, l. apply Forall_inv, digit_bounds in Hd. split; [done|].
    unfold JSON.space. bools. lia.
  - by eexists _, _.
Qed.

Lemma skip_head b l : JSON.space b = false → JSON.skip (b :: l) = b :: l.
Proof. intros H. simpl. by rewrite H. Qed.

Lemma marshal_nonempty v : 1 ≤ length (marshal v).
Proof. destruct (marshal_head v) as (b & t & -> & _). simpl. lia. Qed.

(** ** The reader *)

Definition reads (fuel : nat) (v : json) : Prop :=
  ∀ f r, fuel ≤ f → ends_number r → JSON.read f (marshal v ++ r) = Some (value_of v, r).

Lemma read_items_marshal items r :
  items ≠ [] → Forall (λ v, reads (2 * length (marshal v)) v) items →
  ∀ f, 2 * length (separated (map marshal items)) + 1 ≤ f →
  JSON.read_items f (separated (map marshal items) ++ 93%N :: r) = Some (map value_of items, r).
Proof.
  intros Hne Hall. induction Hall as [|v items Hv Hall IH]; [done|].
  intros [|f] Hf; [lia|]. destruct items as [|w items]; simpl in *.
  - rewrite Hv by (simpl; done || lia). done.
  - rewrite length_app in Hf. simpl in Hf. rewrite <-app_assoc. cbn [app].
    rewrite Hv by (simpl; done || lia). simpl. by rewrite IH by (done || lia).
Qed.

Lemma quote_length s : 2 ≤ length (quote s).
Proof. unfold quote. simpl. rewrite length_app. simpl. lia. Qed.

Lemma separated_map {A} (f : A → list N) x y l :
  separated (map f (x :: y :: l)) = f x ++ 44%N :: separated (map f (y :: l)).
Proof. done. Qed.

(** One member, and the rest of the object after it. *)
Lemma read_member f k v r rest :
  utf8_ValidString k = true → reads (2 * length (marshal v)) v →
  2 * length (marshal_member (k, v)) ≤ S f → ends_number r →
  JSON.read_members (S f) (marshal_member (k, v) ++ r) = Some rest ↔
  match JSON.skip r with
  | c :: r' =>
      if (c =? 125)%N then Some ([(k, value_of v)], r')
      else if (c =? 44)%N then
        match JSON.read_members f r' with
        | Some (ms, z') => Some ((k, value_of v) :: ms, z')
        | None => None
        end
      else None
  | [] => None
  end = Some rest.
Proof.
  intros Hk%utf8_string Hv Hf Hr. unfold marshal_member, quote in *. simpl fst in *. simpl snd in *.
  rewrite !length_app in Hf. simpl in Hf. rewrite length_app in Hf. simpl in Hf.
  cbn [app JSON.read_members JSON.skip]. change (JSON.space 34) with false. cbv iota.
  change (34 =? 34)%N with true. cbn [negb].
  rewrite <-!app_assoc. cbn [app]. rewrite unquote_quote by done. cbn [JSON.skip].
  change (JSON.space 58) with false. cbv iota. change (58 =? 58)%N with true. cbn [negb].
  rewrite Hv by (done || lia). rewrite of_bytes_bytes_of. done.
Qed.

Lemma read_members_marshal members r :
  members ≠ [] →
  Forall (λ m, utf8_ValidString m.1 = true ∧ reads (2 * length (marshal m.2)) m.2) members →
  ∀ f, 2 * length (separated (map marshal_member members)) + 1 ≤ f →
  JSON.read_members f (separated (map marshal_member members) ++ 125%N :: r) =
  Some (map (λ '(k, x), (k, value_of x)) members, r).
Proof.
  intros Hne Hall. induction Hall as [|[k v] members [Hk Hv] Hall IH]; [done|].
  intros [|f] Hf; [lia|]. destruct members as [|m members].
  - apply read_member; [done|done|simpl in *; lia|done|]. done.
  - rewrite separated_map in Hf |- *. rewrite length_app, length_cons in Hf.
    rewrite <-app_assoc. cbn [app].
    apply read_member; [done|done|lia|done|]. cbn [JSON.skip].
    change (JSON.space 44) with false. cbv iota. change (44 =? 125)%N with false. change (44 =? 44)%N with true.
    cbv iota. rewrite IH by (done || lia). done.
Qed.

Lemma read_skip f b l :
  JSON.space b = false →
  JSON.read (S f) (b :: l) =
  (if (b =? 91)%N then
     match JSON.skip l with
     | c :: z => if (c =? 93)%N then Some (JSON.VArray [], z)
                 else match JSON.read_items f l with
                      | Some (items, z) => Some (JSON.VArray items, z)
                      | None => None
                      end
     | [] => None
     end
   else if (b =? 123)%N then
     match JSON.skip l with
     | c :: z => if (c =? 125)%N then Some (JSON.VObject [], z)
                 else match JSON.read_members f l with
                      | Some (members, z) => Some (JSON.VObject members, z)
                      | None => None
                      end
     | [] => None
     end
   else JSON.scalar (b :: l)).
Proof. intros Hb. cbn [JSON.read JSON.skip]. by rewrite Hb. Qed.

Lemma read_scalar f b l :
  JSON.space b = false → b ≠ 91%N → b ≠ 123%N → JSON.read (S f) (b :: l) = JSON.scalar (b :: l).
Proof.
  intros Hb H1 H2. rewrite read_skip by done.
  by rewrite (proj2 (N.eqb_neq b 91) H1), (proj2 (N.eqb_neq b 123) H2).
Qed.

Lemma scalar_number b l (n : Z) r :
  bytes_of (pretty n) = b :: l → ends_number r →
  JSON.scalar (bytes_of (pretty n) ++ r) = Some (JSON.VNumber (bytes_of (pretty n)), r).
Proof.
  intros Heq Hr. pose proof (number_pretty n r Hr) as Hn.
  destruct (pretty_Z_spec n) as (sign & d & t & Hb & Hs & Hd & _).
  assert (Hrange : (b = 45 ∨ 48 ≤ b ≤ 57)%N).
  { apply Forall_inv, digit_bounds in Hd. destruct Hs as [-> | ->]; simpl in Hb;
      rewrite Heq in Hb; injection Hb as -> _; auto. }
  rewrite Heq in *. cbn [app] in *. unfold JSON.scalar.
  rewrite !(proj2 (N.eqb_neq _ _)) by lia. by rewrite Hn.
Qed.

(** Reading a written value needs two steps for every byte. *)
Lemma read_marshal v depth : encodable depth v = true → reads (2 * length (marshal v)) v.
Proof.
  revert depth. induction v as [|b|n|s|items IH|members IH] using json_induction;
    intros depth He f r Hf Hr;
    match type of Hf with context [marshal ?v] => pose proof (marshal_nonempty v) end;
    (destruct f as [|f]; [lia|]).
  - done.
  - by destruct b.
  - destruct (marshal_head (JNumber n)) as (b & t & Heq & Hsp & _). cbn [marshal] in *.
    pose proof (scalar_number b t n r Heq Hr) as Hs. rewrite Heq in *. cbn [app] in *.
    destruct (pretty_Z_spec n) as (sign & d & l & Hb & Hsg & Hd & _).
    apply Forall_inv, digit_bounds in Hd. rewrite Heq in Hb.
    rewrite read_scalar; [by rewrite Hs, <-Heq|done|..];
      destruct Hsg as [-> | ->]; injection Hb as -> _; lia.
  - apply utf8_string in He. cbn [marshal]. unfold quote. cbn [app].
    rewrite read_scalar by done. unfold JSON.scalar. cbn. rewrite <-app_assoc. cbn [app].
    rewrite unquote_quote by done. by rewrite of_bytes_bytes_of.
  - simpl in He. apply andb_true_iff in He as [_ He]. rewrite forallb_forall in He.
    cbn [marshal] in *. rewrite length_cons, length_app in Hf. simpl length in Hf.
    cbn [app]. rewrite read_skip by done. change (91 =? 91)%N with true. cbv iota.
    destruct items as [|w items]; [done|].
    destruct (marshal_head w) as (b & t & Hw & Hsp & H93 & _).
    rewrite <-app_assoc. cbn [app].
    assert (Hskip : ∃ z, JSON.skip (separated (map marshal (w :: items)) ++ 93%N :: r) = b :: z).
    { simpl map. destruct items; simpl separated; rewrite Hw; cbn [app]; rewrite skip_head; eauto. }
    destruct Hskip as [z ->]. rewrite (proj2 (N.eqb_neq b 93)) by done.
    rewrite read_items_marshal; [done|done| |lia].
    rewrite Forall_forall in IH |- *. intros x Hx. eapply IH; [done|].
    apply He. by apply list_elem_of_In.
  - simpl in He. rewrite !andb_true_iff, forallb_forall in He. destruct He as [_ He].
    rewrite marshal_object in *. rewrite length_cons, length_app in Hf. simpl length in Hf.
    cbn [app]. rewrite read_skip by done. change (123 =? 91)%N with false.
    change (123 =? 123)%N with true. cbv iota.
    destruct members as [|m members]; [done|]. rewrite <-app_assoc. cbn [app].
    assert (Hskip : ∃ z, JSON.skip (separated (map marshal_member (m :: members)) ++ 125%N :: r)
                         = 34%N :: z).
    { simpl map. destruct members; simpl separated; unfold marshal_member, quote; cbn [app];
        rewrite skip_head; eauto. }
    destruct Hskip as [z ->]. change (34 =? 125)%N with false. cbv iota.
    rewrite read_members_marshal; [done|done| |lia].
    rewrite Forall_forall in IH |- *. intros [k x] Hx. specialize (IH _ Hx).
    apply list_elem_of_In, He in Hx. apply andb_true_iff in Hx as [Hk Hx].
    split; [done|]. by eapply IH.
Qed.

(** ** The checks on the tree *)

Lemma consume_value v depth : encodable depth v = true → Codec.consumeValue depth (value_of v) = inr v.
Proof.
  revert depth. induction v as [|b|n|s|items IH|members IH] using json_induction;
    intros depth He; try done.
  - cbn in *. apply andb_true_iff in He as [H1%Z.leb_le H2%Z.leb_le].
    rewrite validate_pretty by done. destruct (pretty_Z_spec n) as (? & ? & ? & _ & _ & _ & _ & Hp).
    by rewrite Hp.
  - cbn [encodable] in He. apply andb_true_iff in He as [Hd He]. cbn [value_of Codec.consumeValue].
    rewrite (proj2 (Nat.ltb_ge _ _)) by (by apply Nat.leb_le).
    match goal with |- context [?f (map value_of items)] =>
      assert (Hc : f (map value_of items) = inr items) end; [|by rewrite Hc].
    clear Hd. induction IH as [|x items Hx _ IHl]; [done|]. simpl in He.
    apply andb_true_iff in He as [Hex He]. cbn [map]. rewrite Hx by done. by rewrite IHl.
  - cbn [encodable] in He. rewrite !andb_true_iff in He. destruct He as [[Hd Hnd] He].
    cbn [value_of Codec.consumeValue].
    rewrite (proj2 (Nat.ltb_ge _ _)) by (by apply Nat.leb_le).
    match goal with |- context [?f [] ?l] =>
      assert (Hc : ∀ keys, (∀ k, k ∈ members.*1 → k ∉ keys) → f keys l = inr members) end;
      [|rewrite Hc; [done|intros k _; apply not_elem_of_nil]].
    clear Hd. apply bool_decide_eq_true in Hnd.
    induction IH as [|[k x] members Hx _ IHl]; [done|]. intros keys Hk. simpl in He.
    rewrite !andb_true_iff in He. destruct He as [[_ Hex] He].
    apply NoDup_cons in Hnd as [Hnk Hnd]. cbn [map].
    rewrite bool_decide_false by (apply Hk; by left). simpl in Hx. rewrite Hx by done.
    rewrite IHl; [done|done|done|]. intros k' Hk' [->|Hin]%elem_of_cons; [done|].
    apply (Hk k'); [by right|done].
Qed.

(** ** The scan of the raw text *)

(** A text of UTF-8 whose strings are closed and whose escapes are paired. *)
Definition plain (l : list N) : Prop :=
  utf8 l ∧ ∀ r, Codec.surrogates false (l ++ r) = Codec.surrogates false r.

Lemma plain_app a b : plain a → plain b → plain (a ++ b).
Proof.
  intros [Ha1 Ha2] [Hb1 Hb2]. split; [by apply utf8_app|]. intros r.
  by rewrite <-app_assoc, Ha2, Hb2.
Qed.

Lemma plain_byte b : (b < 128)%N → b ≠ 34%N → plain [b].
Proof.
  intros Hb H34. split; [by apply utf8_ascii; constructor|]. intros r. simpl.
  by rewrite (proj2 (N.eqb_neq b 34) H34).
Qed.

Lemma plain_bytes l : Forall (λ b, b < 128 ∧ b ≠ 34)%N l → plain l.
Proof.
  induction 1 as [|b l [H1 H2] _ IH]; [split; [constructor|done]|].
  apply (plain_app [b] l); [by apply plain_byte|done].
Qed.

Lemma plain_quote s : utf8_ValidString s = true → plain (quote s).
Proof.
  intros Hs%utf8_string. unfold quote. split.
  - constructor; [done|]. apply utf8_app; [by apply utf8_quote|]. by apply utf8_ascii; constructor.
  - intros r. cbn [app]. rewrite <-app_assoc. cbn [app]. cbn [Codec.surrogates negb].
    change (34 =? 34)%N with true. by rewrite surrogates_quote.
Qed.

Lemma plain_separated l : Forall plain l → plain (separated l).
Proof.
  induction 1 as [|x l Hx Hl IH]; [by apply plain_bytes|].
  destruct l as [|y l]; [done|]. cbn [separated].
  apply plain_app; [done|]. by apply (plain_app [44%N]); [apply plain_byte|].
Qed.

Lemma plain_marshal v depth : encodable depth v = true → plain (marshal v).
Proof.
  revert depth. induction v as [|b|n|s|items IH|members IH] using json_induction; intros depth He.
  - by apply plain_bytes; repeat constructor.
  - by destruct b; apply plain_bytes; repeat constructor.
  - apply plain_bytes. cbn [marshal]. destruct (pretty_Z_spec n) as (sign & d & l & -> & Hs & Hd & _).
    apply Forall_app. split; [destruct Hs as [-> | ->]; by repeat constructor|].
    eapply Forall_impl; [exact Hd|]. intros b Hb%digit_bounds. lia.
  - by apply plain_quote.
  - cbn [encodable] in He. apply andb_true_iff in He as [_ He]. rewrite forallb_forall in He.
    cbn [marshal]. apply (plain_app [91%N]); [by apply plain_byte|].
    apply plain_app; [|by apply plain_byte]. apply plain_separated, Forall_map.
    rewrite Forall_forall in IH |- *. intros x Hx. eapply IH; [done|]. by apply He, list_elem_of_In.
  - cbn [encodable] in He. rewrite !andb_true_iff, forallb_forall in He. destruct He as [_ He].
    rewrite marshal_object. apply (plain_app [123%N]); [by apply plain_byte|].
    apply plain_app; [|by apply plain_byte]. apply plain_separated, Forall_map.
    rewrite Forall_forall in IH |- *. intros [k x] Hx. specialize (IH _ Hx).
    apply list_elem_of_In, He, andb_true_iff in Hx as [Hk Hex]. unfold marshal_member.
    apply plain_app; [by apply plain_quote|]. apply (plain_app [58%N]); [by apply plain_byte|].
    by eapply IH.
Qed.

(** ** The round trip *)

Lemma validate_marshal v maxBytes :
  encodable 0 v = true → (llen (marshal v) ≤ maxBytes)%N →
  Codec.validateJSON (marshal v) maxBytes = inr v.
Proof.
  intros He Hlen. destruct (plain_marshal v 0 He) as [Hutf Hsur]. unfold Codec.validateJSON.
  rewrite (proj2 (N.ltb_ge _ _)) by done.
  change (forallb _ (decode_runes (marshal v))) with (valid_runes (marshal v)).
  rewrite (proj2 (valid_runes_utf8 _)) by done. cbn [negb].
  unfold Codec.validateSurrogateEscapes. pose proof (Hsur []) as Hs. rewrite app_nil_r in Hs.
  rewrite Hs. cbn [Codec.surrogates]. unfold JSON.read_value, JSON.read_fuel.
  pose proof (read_marshal v 0 He (2 * length (marshal v) + 2) []) as Hr.
  rewrite app_nil_r in Hr. rewrite Hr by (done || lia). by rewrite consume_value.
Qed.

Section Canonical.
Context `{JCSLib}.

(** Canonicalization of a written object is the canonical writer's text. *)
Lemma canonical_object_ok members :
  encodable 0 (JObject members) = true →
  (llen (marshal (JObject members)) ≤ Codec.maxSignedObjectJSONBytes)%N →
  canonical_object members = inr (jcs_Append (JObject members)).
Proof.
  intros He Hlen. unfold canonical_object, Codec.CanonicalizeSignedObject.
  by rewrite validate_marshal.
Qed.
End Canonical.

End MarshalProofs.
