(* ===== verification/RawJson.v ===== *)
(** * The JSON reader looks no further than a value

    [Module JsonLocality]: when the reader takes a value off a text, it takes
    the same value off every text that begins the same way, whatever comes
    after it: only a number looks at the byte that follows. The raw readers
    then cut a text written from parts back into those parts. *)

From stdpp Require Import base gmap strings list.
From Stdlib Require Import ZArith NArith Lia.
From S2P Require Import Prelude.
From S2P Require Import GoLib.
From S2P Require Import GoJson.
From S2P Require Import CodecLayer.
From S2P Require Import GoMarshal.

Module JsonLocality.

Import JSON MarshalProofs.

(** A reader takes the prefix [u] and yields [a], before any rest in [ok]. *)
Definition takes {A} (reader : list N → option (A * list N)) (ok : list N → Prop)
    (u : list N) (a : A) : Prop :=
  u ≠ [] ∧ ∀ r, ok r → reader (u ++ r) = Some (a, r).

Definition any (r : list N) : Prop := True.

(** What the reader took off [l], leaving [z]. *)
Definition local {A} (reader : list N → option (A * list N)) (ok : list N → Prop)
    (l : list N) (a : A) (z : list N) : Prop :=
  ∃ u, l = u ++ z ∧ takes reader ok u a.

(** ** White space *)

Lemma skip_inv l b r :
  skip l = b :: r →
  space b = false ∧ ∃ w, l = w ++ b :: r ∧ Forall (λ c, space c = true) w.
Proof.
  induction l as [|c l IH]; simpl; [done|]. destruct (space c) eqn:Hc.
  - intros Hs. destruct (IH Hs) as (Hb & w & -> & Hw). split; [done|].
    exists (c :: w). split; [done|by constructor].
  - intros [= -> ->]. split; [done|]. exists []. split; [done|constructor].
Qed.

Lemma skip_app w l : Forall (λ c, space c = true) w → skip (w ++ l) = skip l.
Proof. induction 1 as [|c w Hc _ IH]; [done|]. simpl. by rewrite Hc. Qed.

Lemma skip_to w b r :
  Forall (λ c, space c = true) w → space b = false → skip (w ++ b :: r) = b :: r.
Proof. intros Hw Hb. rewrite skip_app by done. simpl. by rewrite Hb. Qed.

(** The first byte that is not white space, under another rest. Reading at
    least that byte, a reader sees it again. *)
Lemma skip_prefix u z c r x :
  skip (u ++ z) = c :: r → skip u ≠ [] → ∃ y, skip (u ++ x) = c :: y.
Proof.
  induction u as [|b u IH]; simpl; [done|]. destruct (space b); [done|].
  intros [= -> _] _. by eexists.
Qed.

(** White space, a comma, a colon or a bracket ends a number. *)
Lemma space_ends w b r :
  Forall (λ c, space c = true) w → space b = false → digit b = false → b ≠ 46%N → b ≠ 101%N →
  b ≠ 69%N → ends_number (w ++ b :: r).
Proof.
  intros Hw Hb Hd H1 H2 H3. destruct Hw as [|c w Hc _]; simpl; [done|].
  assert (c ∈ [32; 9; 10; 13]%N) as Hin.
  { unfold space in Hc. bools. destruct Hc as [[[->| ->]| ->]| ->]; set_solver. }
  clear Hc. repeat (apply elem_of_cons in Hin as [->|Hin]; [repeat split; done|]).
  by apply not_elem_of_nil in Hin.
Qed.

(** ** Strings *)

(** The low half that follows the escape of a high one. *)
Definition low_half (l : list N) : option (N * list N) :=
  match l with
  | b0 :: b1 :: g0 :: g1 :: g2 :: g3 :: r =>
      if (b0 =? 92)%N && (b1 =? 117)%N then
        match code_unit g0 g1 g2 g3 with
        | Some v => if low_surrogate v then Some (v, r) else None
        | None => None
        end
      else None
  | _ => None
  end.

Definition then_bytes (h : list N) (o : option (list N * list N)) : option (list N * list N) :=
  match o with Some (t, z) => Some (h ++ t, z) | None => None end.

Lemma unquote_unicode h0 h1 h2 h3 r :
  unquote (92%N :: 117%N :: h0 :: h1 :: h2 :: h3 :: r) =
  match code_unit h0 h1 h2 h3 with
  | None => None
  | Some u =>
      match (if high_surrogate u then low_half r else None) with
      | Some (v, r3) =>
          then_bytes (encode_rune (65536 + (u - 55296) * 1024 + (v - 56320))%N) (unquote r3)
      | None =>
          then_bytes (encode_rune (if high_surrogate u || low_surrogate u then rune_error else u))
            (unquote r)
      end
  end.
Proof.
  cbn [unquote]. change (92 =? 34)%N with false. change (92 <? 32)%N with false.
  change (92 =? 92)%N with true. change (117 =? 117)%N with true. cbv iota.
  destruct (code_unit h0 h1 h2 h3) as [u|]; [|done]. destruct (high_surrogate u); [|done].
  destruct r as [|b0 [|b1 [|g0 [|g1 [|g2 [|g3 r]]]]]]; try done. unfold low_half.
  destruct ((b0 =? 92)%N && (b1 =? 117)%N); [|done].
  destruct (code_unit g0 g1 g2 g3) as [v|]; [|done]. by destruct (low_surrogate v).
Qed.

(** A string that goes on decides whether a low half comes next. *)
Lemma low_half_local u t x :
  takes unquote any u t → low_half (u ++ x) = None → ∀ y, low_half (u ++ y) = None.
Proof.
  intros [Hne Hu] Hx y. pose proof (Hu [] I) as H0. rewrite app_nil_r in H0.
  destruct u as [|b0 u]; [done|].
  destruct (decide (b0 = 92%N)) as [->|H92].
  2: { destruct u as [|b1 [|g0 [|g1 [|g2 [|g3 u]]]]], y as [|y0 [|y1 [|y2 [|y3 [|y4 y]]]]]; try done;
       simpl; rewrite ?(proj2 (N.eqb_neq b0 92) H92); done. }
  destruct u as [|b1 u]; [done|].
  destruct (decide (b1 = 117%N)) as [->|H117].
  2: { destruct u as [|g0 [|g1 [|g2 [|g3 u]]]], y as [|y0 [|y1 [|y2 [|y3 y]]]]; try done;
       simpl; rewrite ?(proj2 (N.eqb_neq b1 117) H117); done. }
  destruct u as [|g0 [|g1 [|g2 [|g3 u]]]]; try done.
  simpl in Hx |- *. destruct (code_unit g0 g1 g2 g3) as [v|]; [|done].
  by destruct (low_surrogate v).
Qed.

Lemma low_half_Some l v r :
  low_half l = Some (v, r) → ∃ p, l = p ++ r ∧ ∀ y, low_half (p ++ y) = Some (v, y).
Proof.
  destruct l as [|b0 [|b1 [|g0 [|g1 [|g2 [|g3 l]]]]]]; try done. intros Hl.
  exists [b0; b1; g0; g1; g2; g3]. unfold low_half in *. cbn [app].
  destruct ((b0 =? 92)%N && (b1 =? 117)%N); [|done]. destruct (code_unit g0 g1 g2 g3); [|done].
  destruct (low_surrogate _); [|done]. by injection Hl as -> ->.
Qed.

Lemma unquote_local l t z : unquote l = Some (t, z) → local unquote any l t z.
Proof.
  revert t z. induction l as [l IH] using length_ind. intros t z Hl.
  destruct l as [|b l]; [done|].
  (* a step that writes [h] for the bytes [p] and goes on with [r] *)
  assert (Hstep : ∀ p h r, b :: l = p ++ r → p ≠ [] →
    (∀ u x, takes unquote any u x → ∀ y, r = u ++ z → unquote (p ++ u ++ y) = then_bytes h (unquote (u ++ y))) →
    then_bytes h (unquote r) = Some (t, z) → local unquote any (b :: l) t z).
  { intros p h r Hp Hne Hstep Hr. destruct (unquote r) as [[t' z']|] eqn:Hu; [|done].
    injection Hr as Ht ->. destruct (IH r) with (t := t') (z := z) as (u & -> & Hu'); [|done|].
    { rewrite Hp, length_app. destruct p; [done|]. simpl. lia. }
    exists (p ++ u). rewrite <-app_assoc. split; [done|]. split; [by destruct p|].
    intros y _. rewrite <-app_assoc, (Hstep u t') by done. destruct Hu' as [_ Hu'].
    rewrite Hu' by done. simpl. by rewrite Ht. }
  destruct (decide (b = 34%N)) as [->|H34].
  { injection Hl as <- <-. exists [34%N]. done. }
  pose proof Hl as Hl0. cbn [unquote] in Hl. rewrite (proj2 (N.eqb_neq b 34) H34) in Hl.
  destruct (b <? 32)%N eqn:H32; [done|]. destruct (decide (b = 92%N)) as [->|H92].
  2: { rewrite (proj2 (N.eqb_neq b 92) H92) in Hl. apply (Hstep [b] [b] l); [done|done| |exact Hl].
       intros u x _ y _. cbn [app unquote].
       by rewrite (proj2 (N.eqb_neq b 34) H34), H32, (proj2 (N.eqb_neq b 92) H92). }
  change (92 =? 92)%N with true in Hl. cbv iota in Hl. destruct l as [|e l]; [done|].
  destruct (decide (e = 117%N)) as [->|H117].
  2: { rewrite (proj2 (N.eqb_neq e 117) H117) in Hl.
       destruct (simple_escape e) as [c|] eqn:Hc; [|done].
       apply (Hstep [92; e]%N [c] l); [done|done| |exact Hl].
       intros u x _ y _. cbn [app unquote].
       change (92 =? 34)%N with false. change (92 <? 32)%N with false.
       change (92 =? 92)%N with true. cbv iota.
       by rewrite (proj2 (N.eqb_neq e 117) H117), Hc. }
  destruct l as [|h0 [|h1 [|h2 [|h3 l]]]]; try done. clear Hl.
  rewrite unquote_unicode in Hl0. destruct (code_unit h0 h1 h2 h3) as [w|] eqn:Hw; [|done].
  destruct (if high_surrogate w then low_half l else None) as [[v r3]|] eqn:Hlow.
  - destruct (high_surrogate w) eqn:Hhigh; [|done].
    apply low_half_Some in Hlow as (p & -> & Hp).
    apply (Hstep ([92; 117; h0; h1; h2; h3]%N ++ p)
      (encode_rune (65536 + (w - 55296) * 1024 + (v - 56320))%N) r3); [done|done| |exact Hl0].
    intros u x _ y _. rewrite <-app_assoc. cbn [app]. rewrite unquote_unicode, Hw, Hhigh.
    by rewrite Hp.
  - apply (Hstep [92; 117; h0; h1; h2; h3]%N
      (encode_rune (if high_surrogate w || low_surrogate w then rune_error else w)) l);
      [done|done| |exact Hl0].
    intros u x Hu y ->. cbn [app]. rewrite unquote_unicode, Hw.
    destruct (high_surrogate w); [|done]. by rewrite (low_half_local u x z Hu Hlow).
Qed.

(** ** Numbers *)

Definition no_digit (l : list N) : Prop := match l with b :: _ => digit b = false | [] => True end.

Lemma digits_inv l d z :
  digits l = (d, z) → l = d ++ z ∧ Forall (λ b, digit b = true) d ∧ no_digit z.
Proof.
  revert d z. induction l as [|b l IH]; intros d z; simpl.
  { intros [= <- <-]. split; [done|]. by split; [constructor|]. }
  destruct (digit b) eqn:Hb.
  - destruct (digits l) as [d' z']. intros [= <- <-]. destruct (IH d' z' eq_refl) as (-> & Hd & Hz).
    split; [done|]. by split; [constructor|].
  - intros [= <- <-]. split; [done|]. by split; [constructor|].
Qed.

Lemma digits_take d r :
  Forall (λ b, digit b = true) d → no_digit r → digits (d ++ r) = (d, r).
Proof.
  intros Hd Hr. induction Hd as [|b d Hb _ IH]; simpl; [|by rewrite Hb, IH].
  destruct r as [|b r]; [done|]. simpl in *. by rewrite Hr.
Qed.

Lemma exponent_inv l e z :
  exponent l = Some (e, z) →
  l = e ++ z ∧ (∀ r, ends_number r → exponent (e ++ r) = Some (e, r)) ∧
  (e = [] ∨ ∃ b e', e = b :: e' ∧ digit b = false ∧ b ≠ 46%N).
Proof.
  destruct l as [|b l]; simpl.
  { intros [= <- <-]. split; [done|]. split; [apply no_exponent|by left]. }
  destruct ((b =? 101)%N || (b =? 69)%N) eqn:Hb.
  2: { intros [= <- <-]. split; [done|]. split; [apply no_exponent|by left]. }
  assert (Hb' : digit b = false ∧ b ≠ 46%N).
  { apply orb_true_iff in Hb. rewrite !N.eqb_eq in Hb. by destruct Hb as [-> | ->]. }
  intros He. assert (∃ s l1 d z', l = s ++ l1 ∧ digits l1 = (d, z') ∧ d ≠ [] ∧
    e = b :: s ++ d ∧ z = z' ∧ (s = [] ∨ ∃ c, s = [c] ∧ (c =? 43)%N || (c =? 45)%N = true))
    as (s & l1 & d & z' & -> & Hd & Hne & -> & -> & Hs).
  { destruct l as [|c l]; [done|].
    destruct ((c =? 43)%N || (c =? 45)%N) eqn:Hc;
      [destruct (digits l) as [[|d0 d] z'] eqn:Hd|destruct (digits (c :: l)) as [[|d0 d] z'] eqn:Hd];
      try done; injection He as <- <-.
    - exists [c], l, (d0 :: d), z'. repeat split; try done. right. by exists c.
    - exists [], (c :: l), (d0 :: d), z'. repeat split; try done. by left. }
  apply digits_inv in Hd as (-> & Hd & _). split; [by simpl; rewrite app_assoc|].
  split; [|right; by exists b, (s ++ d)]. intros r Hr.
  assert (Hr' : no_digit r) by (destruct r; [done|]; by destruct Hr).
  simpl. rewrite Hb, <-app_assoc. destruct Hs as [->|(c & -> & Hc)].
  - destruct d as [|d0 d]; [done|]. cbn [app].
    assert (Hd0 : (d0 =? 43)%N || (d0 =? 45)%N = false).
    { apply Forall_inv, digit_bounds in Hd. by rewrite !(proj2 (N.eqb_neq _ _)) by lia. }
    rewrite Hd0. change (d0 :: d ++ r) with ((d0 :: d) ++ r). by rewrite digits_take.
  - cbn [app]. rewrite Hc, digits_take by done. by destruct d.
Qed.

Lemma fraction_inv l f z :
  fraction l = Some (f, z) →
  l = f ++ z ∧ (∀ r, no_digit r → (f = [] → match r with b :: _ => b ≠ 46%N | [] => True end) →
    fraction (f ++ r) = Some (f, r)) ∧
  (f = [] ∨ ∃ d, f = 46%N :: d).
Proof.
  assert (Hnone : ∀ r, no_digit r → ([] = [] :> list N → match r with b :: _ => b ≠ 46%N | [] => True end) →
    fraction r = Some ([], r)).
  { intros [|b r] _ Hb; [done|]. simpl. by rewrite (proj2 (N.eqb_neq b 46) (Hb eq_refl)). }
  destruct l as [|b l]; simpl.
  { intros [= <- <-]. split; [done|]. split; [done|by left]. }
  destruct (b =? 46)%N eqn:Hb.
  2: { intros [= <- <-]. split; [done|]. split; [done|by left]. }
  apply N.eqb_eq in Hb as ->. destruct (digits l) as [[|d0 d] z'] eqn:Hd; [done|].
  intros [= <- <-]. apply digits_inv in Hd as (-> & Hd & _). split; [done|].
  split; [|right; by eexists]. intros r Hr _. cbn [app fraction]. change (46 =? 46)%N with true. cbv iota.
  change (d0 :: d ++ r) with ((d0 :: d) ++ r). by rewrite digits_take.
Qed.

Lemma number_local l t z : number l = Some (t, z) → local number ends_number l t z.
Proof.
  unfold number.
  assert (Hsign : ∃ sign l1, l = sign ++ l1 ∧
    (match l with b :: r => if (b =? 45)%N then ([b], r) else ([], l) | [] => ([], []) end)
    = (sign, l1) ∧ (sign = [45%N] ∨ sign = [])).
  { destruct l as [|b r]; [by exists [], []; auto|]. destruct (b =? 45)%N eqn:Hb.
    - apply N.eqb_eq in Hb as ->. exists [45%N], r. auto.
    - exists [], (b :: r). auto. }
  destruct Hsign as (sign & l1 & Hl & -> & Hs).
  destruct (digits l1) as [[|d d1] z1] eqn:Hd; [done|].
  destruct (_ && _) eqn:Hzero; [done|]. destruct (fraction z1) as [[f z2]|] eqn:Hf; [|done].
  destruct (exponent z2) as [[e z3]|] eqn:He; [|done]. intros [= <- <-].
  apply digits_inv in Hd as (-> & Hd & _). apply fraction_inv in Hf as (-> & Hf & Hfh).
  apply exponent_inv in He as (-> & He & Heh). exists (sign ++ d :: d1 ++ f ++ e). split.
  { rewrite Hl. rewrite <-app_assoc. cbn [app]. by rewrite <-!app_assoc. }
  split; [by destruct sign|]. intros r Hr.
  assert (Her : no_digit (e ++ r) ∧ match e ++ r with b :: _ => b ≠ 46%N | [] => True end).
  { destruct Heh as [->|(b & e' & -> & Hb & Hb')]; [|done]. destruct r; [done|].
    by destruct Hr as (? & ? & _). }
  assert (Hfr : no_digit (f ++ e ++ r)).
  { destruct Hfh as [->|[d' ->]]; [apply Her|done]. }
  replace ((sign ++ d :: d1 ++ f ++ e) ++ r) with (sign ++ (d :: d1) ++ f ++ e ++ r)
    by (rewrite <-app_assoc; cbn [app]; by rewrite <-!app_assoc).
  assert (Hsplit : (match sign ++ (d :: d1) ++ f ++ e ++ r with
    | b :: r' => if (b =? 45)%N then ([b], r') else ([], sign ++ (d :: d1) ++ f ++ e ++ r)
    | [] => ([], []) end) = (sign, (d :: d1) ++ f ++ e ++ r)).
  { destruct Hs as [-> | ->]; [done|]. cbn [app].
    apply Forall_inv, digit_bounds in Hd. by rewrite (proj2 (N.eqb_neq d 45)) by lia. }
  rewrite Hsplit, digits_take by done. rewrite Hzero, Hf by (apply Her || intros _; apply Her).
  by rewrite He.
Qed.

(** ** Values *)

Lemma scalar_local l v z : scalar l = Some (v, z) → local scalar ends_number l v z.
Proof.
  assert (Hlit : ∀ word w, word ≠ [] → literal word w l = Some (v, z) →
    ∃ u, l = u ++ z ∧ u = word ∧ w = v).
  { intros word w Hne. unfold literal. case_bool_decide as Ht; [|done]. intros [= <- <-].
    exists word. split; [|done]. rewrite <-Ht at 1. by rewrite take_drop. }
  assert (Hword : ∀ word w r, literal word w (word ++ r) = Some (w, r)).
  { intros word w r. unfold literal. by rewrite take_app_length, drop_app_length, bool_decide_true. }
  destruct l as [|b l]; [done|]. simpl. destruct (b =? 34)%N eqn:H34.
  { apply N.eqb_eq in H34 as ->. destruct (unquote l) as [[t z']|] eqn:Hu; [|done].
    intros [= <- <-]. apply unquote_local in Hu as (u & -> & _ & Hu). exists (34%N :: u).
    split; [done|]. split; [done|]. intros r _. simpl. by rewrite Hu. }
  destruct (b =? 110)%N eqn:H110.
  { intros (u & Hu & -> & <-)%Hlit; [|done]. eexists. split; [exact Hu|]. by split. }
  destruct (b =? 116)%N eqn:H116.
  { intros (u & Hu & -> & <-)%Hlit; [|done]. eexists. split; [exact Hu|]. by split. }
  destruct (b =? 102)%N eqn:H102.
  { intros (u & Hu & -> & <-)%Hlit; [|done]. eexists. split; [exact Hu|]. by split. }
  destruct (number (b :: l)) as [[t z']|] eqn:Hn; [|done]. intros [= <- <-].
  apply number_local in Hn as (u & Hl & Hne & Hu). exists u. split; [done|]. split; [done|].
  intros r Hr. destruct u as [|b' u]; [done|]. injection Hl as <- ->. specialize (Hu r Hr).
  cbn [app scalar] in *. by rewrite H34, H110, H116, H102, Hu.
Qed.

(** More fuel, and another rest, change nothing. *)
Definition local_fuel {A} (reader : nat → list N → option (A * list N)) (ok : list N → Prop)
    (f : nat) (l : list N) (a : A) (z : list N) : Prop :=
  ∃ u, l = u ++ z ∧ u ≠ [] ∧ ∀ f' r, f ≤ f' → ok r → reader f' (u ++ r) = Some (a, r).

(** A value and the delimiter after it. *)
Lemma value_then f l v z c r :
  local_fuel read ends_number f l v z → skip z = c :: r → digit c = false → c ≠ 46%N →
  c ≠ 101%N → c ≠ 69%N →
  ∃ u, l = u ++ r ∧ u ≠ [] ∧ ∀ f' x, f ≤ f' →
    ∃ z', read f' (u ++ x) = Some (v, z') ∧ skip z' = c :: x.
Proof.
  intros (u & -> & Hne & Hu) (Hc & w & -> & Hw)%skip_inv H1 H2 H3 H4.
  exists (u ++ w ++ [c]). rewrite <-!app_assoc. split; [done|]. split; [by destruct u|].
  intros f' x Hf. exists (w ++ c :: x). rewrite <-!app_assoc. cbn [app].
  split; [|by apply skip_to]. apply Hu; [done|]. by apply space_ends.
Qed.

Section Step.
Context (f : nat).
Context (IHv : ∀ l v z, read f l = Some (v, z) → local_fuel read ends_number f l v z).
Context (IHi : ∀ l v z, read_items f l = Some (v, z) → local_fuel read_items any f l v z).
Context (IHm : ∀ l v z, read_members f l = Some (v, z) → local_fuel read_members any f l v z).

Lemma read_step l v z :
  read (S f) l = Some (v, z) → local_fuel read ends_number (S f) l v z.
Proof.
  intros Hl.
  cbn [read] in Hl. destruct (skip l) as [|b r] eqn:Hs; [done|].
  apply skip_inv in Hs as (Hb & w & -> & Hw).
  assert (Hlift : ∀ u, u ≠ [] → (∀ f' x, f ≤ f' → ends_number x →
      read (S f') (b :: u ++ x) = Some (v, x)) → r = u ++ z →
      local_fuel read ends_number (S f) (w ++ b :: r) v z).
  { intros u Hne Hu ->. exists (w ++ b :: u). rewrite <-app_assoc. split; [done|].
    split; [by destruct w|]. intros [|f'] x Hf Hx; [lia|]. rewrite <-app_assoc. cbn [app].
    rewrite <-(Hu f' x) by (lia || done). cbn [read].
    by rewrite skip_to, (skip_head b (u ++ x)) by done. }
  destruct (b =? 91)%N eqn:H91.
  { destruct (skip r) as [|c r'] eqn:Hs; [done|].
    pose proof (skip_inv _ _ _ Hs) as (Hc & w' & Hr & Hw').
    destruct (c =? 93)%N eqn:H93.
    - apply N.eqb_eq in H93 as ->. injection Hl as <- <-. apply (Hlift (w' ++ [93%N])).
      + by destruct w'.
      + intros f' x _ _. rewrite read_skip by done. rewrite H91, <-app_assoc. cbn [app].
        by rewrite skip_to.
      + by rewrite <-app_assoc.
    - destruct (read_items f r) as [[items z']|] eqn:Hi; [|done]. injection Hl as <- <-.
      apply IHi in Hi as (u & -> & Hne & Hu). apply (Hlift u); [done| |done].
      intros f' x Hf _. rewrite read_skip by done. rewrite H91.
      rewrite (Hu f' x) by done.
      assert (∃ y, skip (u ++ x) = c :: y) as [y ->]; [|by rewrite H93].
      eapply skip_prefix; [exact Hs|]. intros Hblank.
      specialize (Hu f [] (le_n f) I). rewrite app_nil_r in Hu. destruct f as [|[|f0]]; cbn in Hu; by rewrite ?Hblank in Hu. }
  destruct (b =? 123)%N eqn:H123.
  { destruct (skip r) as [|c r'] eqn:Hs; [done|].
    pose proof (skip_inv _ _ _ Hs) as (Hc & w' & Hr & Hw').
    destruct (c =? 125)%N eqn:H125.
    - apply N.eqb_eq in H125 as ->. injection Hl as <- <-. apply (Hlift (w' ++ [125%N])).
      + by destruct w'.
      + intros f' x _ _. rewrite read_skip by done. rewrite H91, H123, <-app_assoc. cbn [app].
        by rewrite skip_to.
      + by rewrite <-app_assoc.
    - destruct (read_members f r) as [[members z']|] eqn:Hi; [|done]. injection Hl as <- <-.
      apply IHm in Hi as (u & -> & Hne & Hu). apply (Hlift u); [done| |done].
      intros f' x Hf _. rewrite read_skip by done. rewrite H91, H123.
      rewrite (Hu f' x) by done.
      assert (∃ y, skip (u ++ x) = c :: y) as [y ->]; [|by rewrite H125].
      eapply skip_prefix; [exact Hs|]. intros Hblank.
      specialize (Hu f [] (le_n f) I). rewrite app_nil_r in Hu. destruct f as [|[|f0]]; cbn in Hu; by rewrite ?Hblank in Hu. }
  apply scalar_local in Hl as (u & Hl & Hne & Hu). destruct u as [|b' u]; [done|].
  injection Hl as <- Hr. exists (w ++ b :: u). rewrite <-app_assoc. cbn [app].
  split; [by rewrite Hr|]. split; [by destruct w|]. intros [|f'] x Hf Hx; [lia|].
  rewrite <-app_assoc. cbn [app read]. rewrite skip_to, H91, H123 by done. by apply (Hu x).
Qed.

Lemma items_step l v z :
  read_items (S f) l = Some (v, z) → local_fuel read_items any (S f) l v z.
Proof.
  intros Hl.
  cbn [read_items] in Hl. destruct (read f l) as [[v0 z0]|] eqn:Hv; [|done].
  destruct (skip z0) as [|c r] eqn:Hs; [done|]. apply IHv in Hv.
  destruct (c =? 93)%N eqn:H93.
  { apply N.eqb_eq in H93 as ->. injection Hl as <- <-.
    destruct (value_then _ _ _ _ _ _ Hv Hs) as (u & -> & Hne & Hu); [done..|].
    exists u. split; [done|]. split; [done|]. intros [|f'] x Hf _; [lia|].
    destruct (Hu f' x) as (z' & Hr & Hz); [lia|]. cbn [read_items]. by rewrite Hr, Hz. }
  destruct (c =? 44)%N eqn:H44; [|done]. apply N.eqb_eq in H44 as ->.
  destruct (read_items f r) as [[vs z']|] eqn:Hi; [|done]. injection Hl as <- <-.
  destruct (value_then _ _ _ _ _ _ Hv Hs) as (u & -> & Hne & Hu); [done..|].
  apply IHi in Hi as (u' & -> & Hne' & Hu'). exists (u ++ u'). rewrite <-app_assoc.
  split; [done|]. split; [by destruct u|]. intros [|f'] x Hf _; [lia|].
  rewrite <-app_assoc. destruct (Hu f' (u' ++ x)) as (z0' & Hr & Hz); [lia|].
  cbn [read_items]. rewrite Hr, Hz. change (44 =? 93)%N with false. change (44 =? 44)%N with true.
  cbv iota. by rewrite (Hu' f' x) by (lia || done).
Qed.

Lemma members_step l v z :
  read_members (S f) l = Some (v, z) → local_fuel read_members any (S f) l v z.
Proof.
  intros Hl.
  cbn [read_members] in Hl. destruct (skip l) as [|q l1] eqn:Hsq; [done|].
  destruct (q =? 34)%N eqn:Hq; [|done]. apply N.eqb_eq in Hq as ->.
  apply skip_inv in Hsq as (_ & w & -> & Hw). cbn [negb] in Hl.
  destruct (unquote l1) as [[key l2]|] eqn:Hk; [|done].
  apply unquote_local in Hk as (k & -> & Hkne & Hk).
  destruct (skip l2) as [|colon l3] eqn:Hsc; [done|].
  destruct (colon =? 58)%N eqn:Hcol; [|done]. apply N.eqb_eq in Hcol as ->.
  apply skip_inv in Hsc as (_ & w' & -> & Hw'). cbn [negb] in Hl.
  destruct (read f l3) as [[v0 z0]|] eqn:Hv; [|done].
  destruct (skip z0) as [|c r] eqn:Hs; [done|]. apply IHv in Hv.
  assert (Hhead : ∀ f' y, read_members (S f') (w ++ 34%N :: k ++ w' ++ 58%N :: y) =
    match read f' y with
    | None => None
    | Some (v, z) =>
        match skip z with
        | c :: r =>
            if (c =? 125)%N then Some ([(of_bytes key, v)], r)
            else if (c =? 44)%N then
              match read_members f' r with
              | Some (ms, z') => Some ((of_bytes key, v) :: ms, z')
              | None => None
              end
            else None
        | [] => None
        end
    end).
  { intros f' y. cbn [read_members]. rewrite skip_to by done.
    change (34 =? 34)%N with true. cbn [negb]. rewrite (Hk _ I). by rewrite skip_to. }
  assert (Hshape : ∀ u y, (w ++ 34%N :: k ++ w' ++ 58%N :: u) ++ y =
                          w ++ 34%N :: k ++ w' ++ 58%N :: u ++ y).
  { intros u y. rewrite <-app_assoc. cbn [app]. by rewrite <-!app_assoc. }
  destruct (c =? 125)%N eqn:H125.
  { apply N.eqb_eq in H125 as ->. injection Hl as <- <-.
    destruct (value_then _ _ _ _ _ _ Hv Hs) as (u & -> & Hne & Hu); [done..|].
    exists (w ++ 34%N :: k ++ w' ++ 58%N :: u). split; [by rewrite Hshape|].
    split; [by destruct w|]. intros [|f'] x Hf _; [lia|].
    destruct (Hu f' x) as (z' & Hr & Hz); [lia|]. by rewrite Hshape, Hhead, Hr, Hz. }
  destruct (c =? 44)%N eqn:H44; [|done]. apply N.eqb_eq in H44 as ->.
  destruct (read_members f r) as [[vs z']|] eqn:Hi; [|done]. injection Hl as <- <-.
  destruct (value_then _ _ _ _ _ _ Hv Hs) as (u & -> & Hne & Hu); [done..|].
  apply IHm in Hi as (u' & -> & Hne' & Hu').
  exists (w ++ 34%N :: k ++ w' ++ 58%N :: u ++ u').
  split; [by rewrite Hshape, <-app_assoc|]. split; [by destruct w|].
  intros [|f'] x Hf _; [lia|]. rewrite Hshape, <-app_assoc, Hhead.
  destruct (Hu f' (u' ++ x)) as (z0' & Hr & Hz); [lia|]. rewrite Hr, Hz.
  change (44 =? 125)%N with false. change (44 =? 44)%N with true.
  cbv iota. by rewrite (Hu' f' x) by (lia || done).
Qed.

End Step.

Lemma read_local_all f :
  (∀ l v z, read f l = Some (v, z) → local_fuel read ends_number f l v z) ∧
  (∀ l v z, read_items f l = Some (v, z) → local_fuel read_items any f l v z) ∧
  (∀ l v z, read_members f l = Some (v, z) → local_fuel read_members any f l v z).
Proof.
  induction f as [|f (IHv & IHi & IHm)]; [done|].
  split_and!; intros l v z; [by apply read_step|by apply items_step|by apply members_step].
Qed.

End JsonLocality.

(** ** Raw messages are the texts they were written from

    [Module RawJson]: a text put together from whole values, with commas and
    brackets, is cut by the raw readers into those values, and is itself a
    whole value. The projection's mutation sets and the command results are
    written and read this way. *)

Module RawJson.

Import JSON MarshalProofs JsonLocality.

(** ** Whole values *)

(** [X] is the text of [v], with nothing around it. *)
Record exact (X : list N) (v : value) : Prop := {
  exact_read : read_value X = Some (v, []);
  exact_skip : skip X = X }.

Lemma skip_length l : length (skip l) ≤ length l.
Proof. induction l as [|c l IH]; [done|]. simpl. destruct (space c); simpl; lia. Qed.

(** A text that [skip] leaves alone has no space first. *)
Lemma skip_same_head b l : skip (b :: l) = b :: l → space b = false.
Proof.
  simpl. destruct (space b); [|done]. intros Hs. apply (f_equal length) in Hs. simpl in Hs.
  pose proof (skip_length l). lia.
Qed.

Lemma exact_nonempty X v : exact X v → X ≠ [].
Proof. intros [Hr _] ->. done. Qed.

Lemma exact_then X v f r :
  exact X v → 2 * length X + 2 ≤ f → ends_number r → read f (X ++ r) = Some (v, r).
Proof.
  intros [Hr _] Hf He. apply (proj1 (read_local_all _)) in Hr as (u & Hx & _ & Hu).
  rewrite app_nil_r in Hx. subst u. by apply Hu.
Qed.

Lemma exact_raw X v r : exact X v → ends_number r → read_raw (X ++ r) = Some (X, v, r).
Proof.
  intros Hx Hr. pose proof (exact_nonempty _ _ Hx) as Hne. pose proof (exact_skip _ _ Hx) as Hs.
  assert (Hskip : skip (X ++ r) = X ++ r).
  { destruct X as [|b X]; [done|]. simpl. by rewrite (skip_same_head _ _ Hs). }
  unfold read_raw, read_value, read_fuel. rewrite Hskip.
  rewrite (exact_then X v _ r Hx) by (done || rewrite length_app; lia).
  rewrite length_app. replace (length X + length r - length r) with (length X) by lia.
  by rewrite take_app_length.
Qed.

Lemma exact_whole X v : exact X v → whole (read_value X) = Some v.
Proof. intros [Hr _]. by rewrite Hr. Qed.

Lemma exact_quote s : utf8_ValidString s = true → exact (Marshal.quote s) (VString s).
Proof.
  intros Hs%utf8_string. split; [|done]. unfold Marshal.quote, read_value, read_fuel.
  replace (2 * length (34%N :: Marshal.quote_bytes (bytes_of s) ++ [34%N]) + 2)
    with (S (2 * length (34%N :: Marshal.quote_bytes (bytes_of s) ++ [34%N]) + 1)) by lia.
  rewrite read_scalar by done. unfold scalar. change (34 =? 34)%N with true. cbv iota.
  by rewrite unquote_quote, of_bytes_bytes_of.
Qed.

Lemma exact_null : exact (bytes_of "null") VNull.
Proof. split; vm_compute; done. Qed.

(** A text that reads as a value and has no white space at either end. *)
Lemma exact_trimmed X v rest :
  read_value X = Some (v, rest) → skip rest = [] → skip X = X → skip (rev X) = rev X →
  exact X v.
Proof.
  intros Hr Hrest Hx Hrev. split; [|done]. rewrite Hr.
  apply (proj1 (read_local_all _)) in Hr as (u & -> & Hne & _).
  destruct rest as [|b rest _] using rev_ind; [done|].
  assert (Hb : space b = true).
  { clear -Hrest. induction rest as [|c rest IH]; simpl in Hrest.
    - by destruct (space b).
    - destruct (space c); [by apply IH|done]. }
  rewrite app_assoc, rev_app_distr in Hrev. apply skip_same_head in Hrev. congruence.
Qed.

(** ** Arrays and objects *)

Definition array_text (items : list (list N)) : list N :=
  91%N :: Marshal.separated items ++ [93%N].

Definition member_text (m : string * list N) : list N := Marshal.quote m.1 ++ 58%N :: m.2.

Definition object_text (members : list (string * list N)) : list N :=
  123%N :: Marshal.separated (member_text <$> members) ++ [125%N].

Definition named (m : string * list N) : Prop := utf8_ValidString m.1 = true.

Lemma separated_two x y (l : list (list N)) :
  Marshal.separated (x :: y :: l) = x ++ 44%N :: Marshal.separated (y :: l).
Proof. done. Qed.

Lemma raw_items_of items r f :
  items ≠ [] → Forall (λ X, ∃ v, exact X v) items → length items ≤ f →
  raw_items f (Marshal.separated items ++ 93%N :: r) = Some (items, r).
Proof.
  intros Hne Hall. revert f. induction Hall as [|X items [v Hx] _ IH]; [done|].
  intros [|f] Hf; [simpl in Hf; lia|]. destruct items as [|Y items].
  - simpl. by rewrite (exact_raw _ _ _ Hx) by done.
  - rewrite separated_two, <-app_assoc. cbn [app raw_items].
    rewrite (exact_raw _ _ _ Hx) by done. cbn [skip]. change (space 44) with false. cbv iota.
    change (44 =? 93)%N with false. change (44 =? 44)%N with true. cbv iota.
    by rewrite IH by (done || simpl in *; lia).
Qed.

Lemma quoted_key k l : utf8_ValidString k = true →
  unquote (Marshal.quote_bytes (bytes_of k) ++ 34%N :: l) = Some (bytes_of k, l).
Proof. intros Hk%utf8_string. by apply unquote_quote. Qed.

(** The member at the head of what is left of an object. *)
Lemma member_head k X l :
  member_text (k, X) ++ l = 34%N :: Marshal.quote_bytes (bytes_of k) ++ 34%N :: 58%N :: X ++ l.
Proof.
  unfold member_text, Marshal.quote. simpl. by rewrite <-!app_assoc.
Qed.

Lemma raw_members_of members r f :
  members ≠ [] → Forall (λ m, named m ∧ ∃ v, exact m.2 v) members → length members ≤ f →
  raw_members f (Marshal.separated (member_text <$> members) ++ 125%N :: r) = Some (members, r).
Proof.
  intros Hne Hall. revert f. induction Hall as [|[k X] members [Hk [v Hx]] _ IH]; [done|].
  intros [|f] Hf; [simpl in Hf; lia|]. simpl in Hx.
  assert (Hhead : ∀ l, ends_number l →
    raw_members (S f) (member_text (k, X) ++ l) =
    match skip l with
    | c :: r =>
        if (c =? 125)%N then Some ([(k, X)], r)
        else if (c =? 44)%N then
          match raw_members f r with
          | Some (members, z) => Some ((k, X) :: members, z)
          | None => None
          end
        else None
    | [] => None
    end).
  { intros l Hl. rewrite member_head. cbn [raw_members skip]. change (space 34) with false.
    cbv iota. change (34 =? 34)%N with true. cbn [negb]. rewrite quoted_key by done.
    cbn [skip]. change (space 58) with false. cbv iota. change (58 =? 58)%N with true. cbn [negb].
    by rewrite (exact_raw _ _ _ Hx Hl), of_bytes_bytes_of. }
  destruct members as [|m members].
  - rewrite fmap_cons. cbn [fmap list_fmap Marshal.separated]. by rewrite Hhead.
  - rewrite !fmap_cons, separated_two, <-app_assoc. cbn [app]. rewrite Hhead by done.
    cbn [skip]. change (space 44) with false. cbv iota.
    change (44 =? 125)%N with false. change (44 =? 44)%N with true. cbv iota.
    rewrite <-fmap_cons. by rewrite IH by (done || simpl in *; lia).
Qed.

Lemma skip_first b l : space b = false → skip (b :: l) = b :: l.
Proof. intros Hb. simpl. by rewrite Hb. Qed.

Lemma separated_length {A} (g : A → list N) (l : list A) :
  (∀ a, g a ≠ []) → length l ≤ length (Marshal.separated (g <$> l)).
Proof.
  intros Hg. induction l as [|a [|b l] IH]; [done|..].
  - simpl. pose proof (Hg a). destruct (g a); [done|]. simpl. lia.
  - rewrite !fmap_cons, separated_two, length_app, <-fmap_cons. simpl in *. lia.
Qed.

Lemma separated_length' (l : list (list N)) :
  Forall (λ x, x ≠ []) l → length l ≤ length (Marshal.separated l).
Proof.
  induction 1 as [|a [|b l] Ha _ IH]; [done|..].
  - simpl. destruct a; [done|]. simpl. lia.
  - rewrite separated_two, length_app. simpl in *. lia.
Qed.

Lemma separated_first x (l : list (list N)) (r : list N) b t :
  x = b :: t → ∃ y, Marshal.separated (x :: l) ++ r = b :: y.
Proof. intros ->. destruct l as [|z l]; [by eexists|]. rewrite separated_two. by eexists. Qed.

Lemma raw_array_of items :
  Forall (λ X, ∃ b r v, X = b :: r ∧ b ≠ 93%N ∧ exact X v) items →
  raw_array (array_text items) = Some items.
Proof.
  intros Hall. unfold raw_array, array_text. cbn [skip]. change (space 91) with false. cbv iota.
  change (91 =? 91)%N with true. cbn [negb]. destruct items as [|X items]; [done|].
  assert (Hexact : Forall (λ X, ∃ v, exact X v) (X :: items)).
  { eapply Forall_impl; [exact Hall|]. intros Y (b & r & v & _ & _ & Hx). by exists v. }
  pose proof (Forall_inv Hall) as (b & r & v & Hb & H93 & Hx).
  destruct (separated_first X items [93%N] b r Hb) as [y Hy].
  assert (Hspace : space b = false).
  { pose proof (exact_skip _ _ Hx) as Hs. rewrite Hb in Hs. by apply skip_same_head in Hs. }
  assert (Hs : skip (Marshal.separated (X :: items) ++ [93%N]) = b :: y).
  { rewrite Hy. simpl. by rewrite Hspace. }
  rewrite Hs. rewrite (proj2 (N.eqb_neq b 93)) by done.
  rewrite raw_items_of; [done|done|done|].
  rewrite length_app. assert (length (X :: items) ≤ length (Marshal.separated (X :: items))); [|lia].
  apply separated_length'. eapply Forall_impl; [exact Hexact|]. intros Y [w Hw].
  by eapply exact_nonempty.
Qed.

Lemma member_nonempty m : member_text m ≠ [].
Proof. by destruct m. Qed.

Lemma object_first_byte m members r :
  ∃ y, Marshal.separated (member_text <$> m :: members) ++ r = 34%N :: y.
Proof. rewrite fmap_cons. destruct m as [k X]. by eapply separated_first. Qed.

Lemma raw_object_of members :
  Forall (λ m, named m ∧ ∃ v, exact m.2 v) members →
  raw_object (object_text members) = Some members.
Proof.
  intros Hall. unfold raw_object, object_text. cbn [skip]. change (space 123) with false. cbv iota.
  change (123 =? 123)%N with true. cbn [negb]. destruct members as [|m members]; [done|].
  destruct (object_first_byte m members [125%N]) as [y Hy].
  assert (Hs : skip (Marshal.separated (member_text <$> m :: members) ++ [125%N]) = 34%N :: y)
    by (rewrite Hy; done).
  rewrite Hs. change (34 =? 125)%N with false. cbv iota.
  rewrite raw_members_of; [done|done|done|].
  rewrite length_app. pose proof (separated_length member_text (m :: members) member_nonempty). lia.
Qed.

(** An object of whole values is a whole value. *)
Lemma read_members_of members vs r f :
  members ≠ [] → Forall named members → Forall2 (λ m v, exact m.2 v) members vs →
  2 * length (Marshal.separated (member_text <$> members)) ≤ f →
  read_members f (Marshal.separated (member_text <$> members) ++ 125%N :: r) =
  Some (zip members.*1 vs, r).
Proof.
  intros Hne Hn Hall. revert f. induction Hall as [|[k X] v members vs Hx Hall IH]; [done|].
  apply Forall_cons in Hn as [Hk Hn]. unfold named in Hk. simpl in Hk, Hx. intros f Hf.
  assert (Hlen : length (member_text (k, X)) = length (Marshal.quote_bytes (bytes_of k)) + length X + 3).
  { pose proof (member_head k X []) as Hm. rewrite app_nil_r in Hm. rewrite Hm. simpl.
    rewrite length_app. simpl. rewrite app_nil_r. lia. }
  assert (Hhead : ∀ f l, 2 * length X + 2 ≤ f → ends_number l →
    read_members (S f) (member_text (k, X) ++ l) =
    match skip l with
    | c :: r =>
        if (c =? 125)%N then Some ([(k, v)], r)
        else if (c =? 44)%N then
          match read_members f r with
          | Some (ms, z) => Some ((k, v) :: ms, z)
          | None => None
          end
        else None
    | [] => None
    end).
  { intros f' l Hf' Hl. rewrite member_head. cbn [read_members skip]. change (space 34) with false.
    cbv iota. change (34 =? 34)%N with true. cbn [negb]. rewrite quoted_key by done.
    cbn [skip]. change (space 58) with false. cbv iota. change (58 =? 58)%N with true. cbn [negb].
    by rewrite (exact_then _ _ _ _ Hx Hf' Hl), of_bytes_bytes_of. }
  destruct members as [|m members].
  - apply Forall2_nil_inv_l in Hall as ->. rewrite fmap_cons in *. cbn [fmap list_fmap Marshal.separated] in *.
    destruct f as [|f]; [lia|]. by rewrite Hhead by (done || lia).
  - rewrite !fmap_cons, separated_two, <-fmap_cons in *. rewrite length_app, length_cons, Hlen in Hf.
    destruct f as [|f]; [lia|]. rewrite <-app_assoc. cbn [app]. rewrite Hhead by (done || lia).
    cbn [skip]. change (space 44) with false. cbv iota.
    change (44 =? 125)%N with false. change (44 =? 44)%N with true. cbv iota.
    by rewrite IH by (done || lia).
Qed.

Lemma exact_object members vs :
  Forall named members → Forall2 (λ m v, exact m.2 v) members vs →
  exact (object_text members) (VObject (zip members.*1 vs)).
Proof.
  intros Hn Hall. split; [|done]. unfold read_value, read_fuel, object_text.
  rewrite length_cons, length_app. simpl length.
  set (len := length (Marshal.separated (member_text <$> members))).
  replace (2 * S (len + 1) + 2) with (S (2 * len + 5)) by lia.
  rewrite read_skip by done. change (123 =? 91)%N with false. change (123 =? 123)%N with true.
  cbv iota. destruct members as [|m members]; [done|].
  destruct (object_first_byte m members [125%N]) as [y Hy].
  assert (Hs : skip (Marshal.separated (member_text <$> m :: members) ++ [125%N]) = 34%N :: y)
    by (rewrite Hy; done).
  rewrite Hs. change (34 =? 125)%N with false. cbv iota.
  rewrite (read_members_of _ vs); [done|done|done|done|]. unfold len. lia.
Qed.

End RawJson.
