(* ===== verification/DomainValues.v ===== *)
(** * Package internal/domain: immutable protocol values

    [Module Domain]: bounded integers (number.go), identifiers
    (identifier.go), canonical timestamps (timestamp.go), repository paths
    (path.go), Git object and conflict identifiers (git.go) and the checkpoint
    tuple (checkpoint.go). [Module ControlPath]: the control-file classifier
    (controlpath/policy.go). *)

From stdpp Require Import base gmap strings list.
From Stdlib Require Import NArith Lia Ascii.
From S2P Require Import Prelude.
From S2P Require Import GoLib.

Module Domain.

(** ** number.go *)

Definition MaxSafeInteger : N := 9007199254740991.
Definition MaxApplyLevel : N := 2147483647.
Definition ValidUnsignedInteger (value : N) : bool := (value <=? MaxSafeInteger)%N.

(** ** identifier.go *)

Definition uuidTextLength : N := 36.
Definition deviceIDLength : N := 67.

Definition isLowerHex (char : N) : bool := in_range 48 57 char || in_range 97 102 char.

Definition isRFC9562Variant (char : N) : bool :=
  ((char =? 56) || (char =? 57) || (char =? 97) || (char =? 98))%N.

Definition allLowerHex (text : string) : bool := all_bytes isLowerHex text.

(** The index loop of [validCanonicalUUID]. *)
Fixpoint uuid_layout (i : nat) (text : string) : bool :=
  match text with
  | EmptyString => true
  | String c r =>
      (match i with
       | 8 | 13 | 18 | 23 => (byte_of c =? 45)%N
       | _ => isLowerHex (byte_of c)
       end) && uuid_layout (S i) r
  end.

Definition validCanonicalUUID (text : string) (version : N) : bool :=
  (strlen text =? uuidTextLength)%N &&
  uuid_layout 0 text &&
  (byte_at 14 text =? version)%N && isRFC9562Variant (byte_at 19 text).

Definition UUIDv7_Valid (id : string) : bool := validCanonicalUUID id 55.
Definition UUIDv4_Valid (id : string) : bool := validCanonicalUUID id 52.

Definition DeviceID_Valid (id : string) : bool :=
  (strlen id =? deviceIDLength)%N && (str_take 3 id == "cc1") && allLowerHex (str_drop 3 id).

Definition ParseUUIDv7 (text : string) : option string := if UUIDv7_Valid text then Some text else None.
Definition ParseUUIDv4 (text : string) : option string := if UUIDv4_Valid text then Some text else None.
Definition ParseDeviceID (text : string) : option string := if DeviceID_Valid text then Some text else None.

(** ** timestamp.go

    [civil] is the broken-down UTC instant. [time_Parse] accepts the spelling
    with a [Z] zone and a dotted fraction; every other spelling Go's parser
    admits fails the [Format] comparison of [parseCanonicalTimestamp]. *)

Record civil := mkCivil {
  year : N; month : N; day : N; hour : N; minute : N; second : N; nanosecond : N }.

Definition is_digit (b : N) : bool := in_range 48 57 b.

Fixpoint parse_digits (n : nat) (acc : N) (s : string) : option (N * string) :=
  match n, s with
  | O, _ => Some (acc, s)
  | S m, String c r =>
      if is_digit (byte_of c) then parse_digits m (acc * 10 + (byte_of c - 48))%N r else None
  | S _, EmptyString => None
  end.

Definition expect_byte (b : N) (s : string) : option string :=
  match s with
  | String c r => if (byte_of c =? b)%N then Some r else None
  | EmptyString => None
  end.

(** Fraction digits: nine are kept, the rest are dropped. *)
Fixpoint parse_fraction (weight acc : N) (s : string) : N * string :=
  match s with
  | String c r =>
      if is_digit (byte_of c)
      then parse_fraction (weight / 10) (acc + (byte_of c - 48) * weight)%N r
      else (acc, s)
  | EmptyString => (acc, s)
  end.

Definition leap_year (y : N) : bool :=
  ((y mod 4 =? 0) && (negb (y mod 100 =? 0) || (y mod 400 =? 0)))%N.

Definition days_in (m y : N) : N :=
  match m with
  | 2 => if leap_year y then 29 else 28
  | 4 | 6 | 9 | 11 => 30
  | _ => 31
  end%N.

Definition valid_civil (t : civil) : bool :=
  (in_range 1 12 (month t) && in_range 1 (days_in (month t) (year t)) (day t) &&
   (hour t <=? 23) && (minute t <=? 59) && (second t <=? 59))%N.

Definition time_Parse (text : string) : option civil :=
  '(y, r) ← parse_digits 4 0 text; r ← expect_byte 45 r;
  '(mo, r) ← parse_digits 2 0 r; r ← expect_byte 45 r;
  '(d, r) ← parse_digits 2 0 r; r ← expect_byte 84 r;
  '(h, r) ← parse_digits 2 0 r; r ← expect_byte 58 r;
  '(mi, r) ← parse_digits 2 0 r; r ← expect_byte 58 r;
  '(s, r) ← parse_digits 2 0 r;
  let '(ns, r) := match expect_byte 46 r with
                  | Some f => parse_fraction 100000000 0 f
                  | None => (0%N, r)
                  end in
  let t := mkCivil y mo d h mi s ns in
  if (r == "Z") && valid_civil t then Some t else None.

Fixpoint print_digits (n : nat) (v : N) : string :=
  match n with
  | O => EmptyString
  | S m => print_digits m (v / 10)%N +:+ String (ascii_of_N (48 + v mod 10)) EmptyString
  end.

(** The fraction of [RFC3339Nano]: trailing zeros are not printed. *)
Fixpoint print_fraction (n : nat) (v : N) : string :=
  match n with
  | O => EmptyString
  | S m => if (v mod 10 =? 0)%N then print_fraction m (v / 10) else print_digits n v
  end.

Definition time_Format (t : civil) : string :=
  print_digits 4 (year t) +:+ "-" +:+ print_digits 2 (month t) +:+ "-" +:+
  print_digits 2 (day t) +:+ "T" +:+ print_digits 2 (hour t) +:+ ":" +:+
  print_digits 2 (minute t) +:+ ":" +:+ print_digits 2 (second t) +:+
  (if (nanosecond t =? 0)%N then EmptyString else "." +:+ print_fraction 9 (nanosecond t)) +:+ "Z".

Definition parseCanonicalTimestamp (text : string) (wholeSeconds : bool) : option civil :=
  if wholeSeconds && negb (strlen text =? 20)%N then None else
  value ← time_Parse text;
  if time_Format value != text then None else Some value.

Definition Timestamp_Valid (timestamp : string) : bool :=
  if parseCanonicalTimestamp timestamp false is Some _ then true else false.
Definition Timestamp_Time (timestamp : string) : option civil :=
  parseCanonicalTimestamp timestamp false.
Definition WholeSecondTimestamp_Valid (timestamp : string) : bool :=
  if parseCanonicalTimestamp timestamp true is Some _ then true else false.
Definition WholeSecondTimestamp_Time (timestamp : string) : option civil :=
  parseCanonicalTimestamp timestamp true.
Definition ParseTimestamp (text : string) : option string :=
  if Timestamp_Valid text then Some text else None.

(** [time.Time] as nanoseconds since the Unix epoch (proleptic Gregorian). *)
Definition days_from_civil (y m d : Z) : Z :=
  let y := (if m <=? 2 then y - 1 else y)%Z in
  let era := (y / 400)%Z in
  let yoe := (y - era * 400)%Z in
  let mp := (if m <=? 2 then m + 9 else m - 3)%Z in
  let doy := ((153 * mp + 2) / 5 + d - 1)%Z in
  (era * 146097 + (yoe * 365 + yoe / 4 - yoe / 100 + doy) - 719468)%Z.

Definition unix_nano (t : civil) : Z :=
  (((days_from_civil (Z.of_N (year t)) (Z.of_N (month t)) (Z.of_N (day t)) * 24
     + Z.of_N (hour t)) * 60 + Z.of_N (minute t)) * 60 + Z.of_N (second t)) * 1000000000
  + Z.of_N (nanosecond t).

(** ** path.go *)

Definition MaxRepositoryPathBytes : N := 512.

(** [foldASCII]: rune by rune, through [strings.Builder.WriteRune]. *)
Definition fold_rune (char : N) : N := if in_range 65 90 char then (char + 32)%N else char.
Definition foldASCII (text : string) : string :=
  of_bytes (concat ((λ r, encode_rune (fold_rune r)) <$> runes text)).

Definition reserved_bases : list string :=
  ["con"; "prn"; "aux"; "nul"; "clock$"; "conin$"; "conout$";
   "com1"; "com2"; "com3"; "com4"; "com5"; "com6"; "com7"; "com8"; "com9";
   "lpt1"; "lpt2"; "lpt3"; "lpt4"; "lpt5"; "lpt6"; "lpt7"; "lpt8"; "lpt9";
   "com¹"; "com²"; "com³"; "lpt¹"; "lpt²"; "lpt³"].

Definition windowsReservedComponent (component : string) : bool :=
  let base := match Cut dot component with Some (before, _) => before | None => component end in
  bool_decide (foldASCII base ∈ reserved_bases).

(** The characters [\ < > : double-quote | ? *]. *)
Definition forbidden_runes : list N := [92; 60; 62; 58; 34; 124; 63; 42]%N.

Definition validPathComponent (component : string) : bool :=
  if (component == EmptyString) || (component == ".") || (component == "..") ||
     (byte_at (String.length component - 1) component =? 46)%N ||
     (byte_at (String.length component - 1) component =? 32)%N ||
     windowsReservedComponent component
  then false
  else forallb (λ char, negb (unicode_IsControl char || bool_decide (char ∈ forbidden_runes)))
               (runes component).

Definition RepositoryPath_Valid `{NormLib} (path : string) : bool :=
  if (strlen path <? 1)%N || (MaxRepositoryPathBytes <? strlen path)%N ||
     negb (utf8_ValidString path) || negb (NFC_IsNormalString path) ||
     (byte_at 0 path =? 47)%N
  then false
  else forallb validPathComponent (Split slash path).

Definition ParseRepositoryPath `{NormLib} (text : string) : option string :=
  if RepositoryPath_Valid text then Some text else None.

Definition RepositoryPath_Components `{NormLib} (path : string) : list string :=
  if RepositoryPath_Valid path then Split slash path else [].

Definition RepositoryPath_Contains `{NormLib} (path candidate : string) : bool :=
  if negb (RepositoryPath_Valid path) || negb (RepositoryPath_Valid candidate) then false
  else (candidate == path) || HasPrefix candidate (path +:+ "/").

(** ** git.go *)

Inductive GitObjectFormat := GitObjectNone | GitObjectSHA1 | GitObjectSHA256.

#[global] Instance GitObjectFormat_eq_dec : EqDecision GitObjectFormat.
Proof. solve_decision. Defined.

Definition tagged_hex (tag : string) (digits : N) (text : string) : bool :=
  (strlen text =? strlen tag + digits)%N && (str_take (String.length tag) text == tag).

Definition GitOID_Valid (oid : string) : bool :=
  if tagged_hex "sha1:" 40 oid then allLowerHex (str_drop 5 oid)
  else if tagged_hex "sha256:" 64 oid then allLowerHex (str_drop 7 oid)
  else false.

Definition GitOID_ObjectFormat (oid : string) : GitObjectFormat :=
  if negb (GitOID_Valid oid) then GitObjectNone
  else if (strlen oid =? 45)%N then GitObjectSHA1 else GitObjectSHA256.

Definition GitOID_Hex (oid : string) : string :=
  if negb (GitOID_Valid oid) then EmptyString
  else if GitOID_ObjectFormat oid == GitObjectSHA1 then str_drop 5 oid else str_drop 7 oid.

Definition ConflictID_Valid (id : string) : bool :=
  (strlen id =? 68)%N && (str_take 4 id == "ccf1") && allLowerHex (str_drop 4 id).

(** ** checkpoint.go *)

Inductive CheckpointError :=
  | ErrInvalidCheckpointIdentity
  | ErrInvalidCheckpointNumber.

(** The 32-byte digests are byte lists. *)
Record Checkpoint := mkCheckpoint {
  SessionID : string;
  WorkspaceID : string;
  RecoveryGeneration : N;
  AuthorityVoterSetVersion : N;
  SignerDeviceID : string;
  Term : N;
  CoveredAppliedLogIndex : N;
  CoveredChainIndex : N;
  CoveredChainHash : list N;
  CoveredResultIndex : N;
  CoveredResultHash : list N;
  ProjectionAccumulator : list N;
  DigestVersion : N;
  ProjectionSchemaVersion : N }.

Definition Checkpoint_Validate (checkpoint : Checkpoint) : option CheckpointError :=
  refuse ErrInvalidCheckpointIdentity
    when (negb (UUIDv7_Valid (SessionID checkpoint)) ||
          negb (UUIDv4_Valid (WorkspaceID checkpoint)) ||
          negb (DeviceID_Valid (SignerDeviceID checkpoint))) ;;
  check scan_entries
    (λ '(value, positive),
       refuse ErrInvalidCheckpointNumber
         when (negb (ValidUnsignedInteger value) || positive && (value =? 0)%N) ;; None)
    [(RecoveryGeneration checkpoint, false);
     (AuthorityVoterSetVersion checkpoint, true);
     (Term checkpoint, true);
     (CoveredAppliedLogIndex checkpoint, true);
     (CoveredChainIndex checkpoint, false);
     (CoveredResultIndex checkpoint, false);
     (DigestVersion checkpoint, true);
     (ProjectionSchemaVersion checkpoint, true)] ;;
  refuse ErrInvalidCheckpointNumber
    when (CoveredResultIndex checkpoint <? CoveredChainIndex checkpoint)%N ;;
  None.

(** ** Identifiers *)

Lemma UUIDv7_Valid_nonempty id : UUIDv7_Valid id = true → id ≠ EmptyString.
Proof. intros H ->. vm_compute in H. done. Qed.

Lemma DeviceID_Valid_nonempty id : DeviceID_Valid id = true → id ≠ EmptyString.
Proof. intros H ->. vm_compute in H. done. Qed.

(** ** Paths *)

Section Paths.
Context `{NormLib}.

Lemma RepositoryPath_Valid_components p :
  RepositoryPath_Valid p = true → Forall (λ c, validPathComponent c = true) (Split slash p).
Proof.
  unfold RepositoryPath_Valid. intros Hv. case_match; [done|].
  rewrite forallb_forall in Hv. apply Forall_forall. intros c Hc. by apply Hv, list_elem_of_In.
Qed.

(** Containment is the prefix order on component lists. *)
Lemma Contains_prefix p q :
  RepositoryPath_Contains p q = true ↔
  RepositoryPath_Valid p = true ∧ RepositoryPath_Valid q = true ∧
  Split slash p `prefix_of` Split slash q.
Proof.
  unfold RepositoryPath_Contains.
  destruct (RepositoryPath_Valid p) eqn:Hp, (RepositoryPath_Valid q) eqn:Hq; simpl;
    try (split; [intros [=]|intros (?&?&?); congruence]).
  rewrite orb_true_iff, decide_true, HasPrefix_app. split.
  - intros Hc. do 2 (split; [done|]). destruct Hc as [->|[r ->]]; [done|].
    exists (Split slash r). rewrite str_app_assoc. apply Split_app_sep.
  - intros (_ & _ & rest & Hr). destruct rest as [|w ws].
    + left. apply (Split_inj slash). by rewrite Hr, app_nil_r.
    + right. exists (Join slash (w :: ws)).
      rewrite <-(Join_Split slash q), Hr, Join_app by (done || apply Split_nonempty).
      by rewrite Join_Split, str_app_assoc.
Qed.

Lemma Contains_refl p : RepositoryPath_Valid p = true → RepositoryPath_Contains p p = true.
Proof. intros Hp. by apply Contains_prefix. Qed.

Lemma Contains_trans p q r :
  RepositoryPath_Contains p q = true → RepositoryPath_Contains q r = true →
  RepositoryPath_Contains p r = true.
Proof. rewrite !Contains_prefix. intros (?&?&?) (?&?&?). split_and!; [done..|]. by etrans. Qed.

Lemma Contains_antisym p q :
  RepositoryPath_Contains p q = true → RepositoryPath_Contains q p = true → p = q.
Proof.
  rewrite !Contains_prefix. intros (?&?&Hpq) (?&?&Hqp). apply (Split_inj slash).
  by apply (anti_symm prefix).
Qed.

(** Two paths that contain a common path are comparable. *)
Lemma Contains_comparable p q x :
  RepositoryPath_Contains p x = true → RepositoryPath_Contains q x = true →
  RepositoryPath_Contains p q = true ∨ RepositoryPath_Contains q p = true.
Proof.
  rewrite !Contains_prefix. intros (?&?&Hp) (?&?&Hq).
  destruct (prefix_weak_total _ _ _ Hp Hq); [left|right]; done.
Qed.
End Paths.

End Domain.

Module ControlPath.

Definition PolicyVersion : N := 1.

Definition controlled_bases : list string :=
  ["agents.md"; "agents.override.md"; "claude.md"; ".gitignore"].
Definition controlled_roots : list string :=
  [".codex"; ".claude"; ".mcp.json"; ".codecommignore"].

Definition IsControlledV1 `{NormLib} (path : string) : bool :=
  if negb (Domain.RepositoryPath_Valid path) then false else
  let folded := Domain.foldASCII path in
  let base := after_last slash folded in
  bool_decide (base ∈ controlled_bases) ||
  existsb (λ root, (folded == root) || HasPrefix folded (root +:+ "/")) controlled_roots.

End ControlPath.
