(* ===== verification/TaskEntity.v ===== *)
(** * Package internal/domain/task: the task entity

    [Module Task]: states and transition table (state.go), the entity and its
    validator (task.go), the bounded dependency walk (dependency.go).

    An enumeration is a Go string; its constructors are the source's constants
    and one constructor for every other text, [*_of] being the conversion. *)

From stdpp Require Import base gmap strings list sorting relations.
From Stdlib Require Import NArith Lia.
From S2P Require Import Prelude.
From S2P Require Import GoLib.
From S2P Require Import DomainValues.

Module Task.

(** ** state.go *)

Inductive State :=
  | StateAbsent | StateBacklog | StateReady | StateClaimed | StateInProgress
  | StateBlocked | StateDone | StateCancelled
  | StateUnknown (text : string).

#[global] Instance State_eq_dec : EqDecision State.
Proof. solve_decision. Defined.

Definition State_of (text : string) : State :=
  if text == EmptyString then StateAbsent
  else if text == "backlog" then StateBacklog
  else if text == "ready" then StateReady
  else if text == "claimed" then StateClaimed
  else if text == "in_progress" then StateInProgress
  else if text == "blocked" then StateBlocked
  else if text == "done" then StateDone
  else if text == "cancelled" then StateCancelled
  else StateUnknown text.

Definition states : list State :=
  [StateBacklog; StateReady; StateClaimed; StateInProgress; StateBlocked; StateDone; StateCancelled].

Definition State_Valid (state : State) : bool :=
  match state with
  | StateBacklog | StateReady | StateClaimed | StateInProgress | StateBlocked
  | StateDone | StateCancelled => true
  | _ => false
  end.

Definition State_Terminal (state : State) : bool := (state == StateDone) || (state == StateCancelled).

Inductive Operation :=
  | OperationCreate | OperationStateChange | OperationClaim | OperationReleaseVoluntary
  | OperationReleaseForced | OperationReassign | OperationCancel | OperationSessionEnded
  | OperationRecoveryRelease
  | OperationUnknown (text : string).

#[global] Instance Operation_eq_dec : EqDecision Operation.
Proof. solve_decision. Defined.

Definition operations : list Operation :=
  [OperationCreate; OperationStateChange; OperationClaim; OperationReleaseVoluntary;
   OperationReleaseForced; OperationReassign; OperationCancel; OperationSessionEnded;
   OperationRecoveryRelease].

Definition Operation_Valid (operation : Operation) : bool :=
  match operation with OperationUnknown _ => false | _ => true end.

(** The sentinels of task.go, state.go and dependency.go; a wrapped error is
    identified with its sentinel, as [errors.Is] does. *)
Inductive Error :=
  | ErrInvalidID | ErrInvalidTitle | ErrInvalidBody | ErrInvalidStateReason | ErrInvalidPriority
  | ErrInvalidBlockedBy | ErrInvalidLabels | ErrInvalidOwnership | ErrInvalidReleaseReason
  | ErrInvalidEntityVersion | ErrInvalidTimestamp
  | ErrInvalidState | ErrInvalidOperation | ErrInvalidTransition
  | ErrDependencyCycle | ErrDependencyNotFound | ErrDependencyGraphTooComplex.

#[global] Instance Error_eq_dec : EqDecision Error.
Proof. solve_decision. Defined.

Definition releaseEdges (includeReadySelfEdge : bool) : list (State * State) :=
  [(StateClaimed, StateReady); (StateInProgress, StateReady); (StateBlocked, StateReady)] ++
  (if includeReadySelfEdge then [(StateReady, StateReady)] else []).

Definition legalTransitions (operation : Operation) : list (State * State) :=
  match operation with
  | OperationCreate => [(StateAbsent, StateBacklog)]
  | OperationStateChange =>
      [(StateBacklog, StateReady); (StateReady, StateBacklog); (StateClaimed, StateInProgress);
       (StateInProgress, StateBlocked); (StateInProgress, StateDone); (StateBlocked, StateInProgress)]
  | OperationClaim => [(StateReady, StateClaimed)]
  | OperationReleaseVoluntary => releaseEdges false
  | OperationReleaseForced => releaseEdges true
  | OperationReassign => releaseEdges true
  | OperationCancel =>
      [(StateBacklog, StateCancelled); (StateReady, StateCancelled); (StateClaimed, StateCancelled);
       (StateInProgress, StateCancelled); (StateBlocked, StateCancelled)]
  | OperationSessionEnded => releaseEdges false
  | OperationRecoveryRelease => releaseEdges false
  | OperationUnknown _ => []
  end.

Definition ValidateTransition (operation : Operation) (from to : State) : option Error :=
  refuse ErrInvalidOperation when (negb (Operation_Valid operation)) ;;
  refuse ErrInvalidState when ((from != StateAbsent) && negb (State_Valid from)) ;;
  refuse ErrInvalidState when (negb (State_Valid to)) ;;
  refuse ErrInvalidTransition when (negb (bool_decide ((from, to) ∈ legalTransitions operation))) ;;
  None.

(** ** task.go *)

Definition MaxTitleBytes : N := 200.
Definition MaxBodyBytes : N := 8192.
Definition MaxStateReasonBytes : N := 1024.
Definition MaxBlockedBy : N := 16.
Definition MaxLabels : N := 16.
Definition MaxLabelBytes : N := 32.
Definition PriorityLowest : N := 3.
Definition MaxPriority : N := PriorityLowest.

Inductive ReleaseReason :=
  | ReleaseReasonAbsent
  | ReleaseVoluntary | ReleaseForced | ReleaseSessionEnd | ReleaseRecovery
  | ReleaseReasonUnknown (text : string).

#[global] Instance ReleaseReason_eq_dec : EqDecision ReleaseReason.
Proof. solve_decision. Defined.

Definition ReleaseReason_of (text : string) : ReleaseReason :=
  if text == EmptyString then ReleaseReasonAbsent
  else if text == "voluntary" then ReleaseVoluntary
  else if text == "forced" then ReleaseForced
  else if text == "session_ended" then ReleaseSessionEnd
  else if text == "recovery" then ReleaseRecovery
  else ReleaseReasonUnknown text.

Definition ReleaseReason_Valid (reason : ReleaseReason) : bool :=
  match reason with
  | ReleaseVoluntary | ReleaseForced | ReleaseSessionEnd | ReleaseRecovery => true
  | _ => false
  end.

(** Optional identifiers are empty when null, as in the source; [*string] is
    an [option]. *)
Record Task := mkTask {
  ID : string;
  Title : string;
  Body : string;
  TaskState : State;
  StateReason : option string;
  Priority : N;
  BlockedBy : list string;
  Labels : list string;
  OwnerDeviceID : string;
  OwnerAgentSessionID : string;
  IntendedDeviceID : string;
  LastReleaseReason : ReleaseReason;
  EntityVersion : N;
  CreatedAt : string;
  UpdatedAt : string }.

#[global] Instance Task_eq_dec : EqDecision Task.
Proof. solve_decision. Defined.

Definition validUTF8Bytes (value : string) (minimum maximum : N) : bool :=
  (utf8_ValidString value && (minimum <=? strlen value) && (strlen value <=? maximum))%N.

Definition validateTitle (title : string) : option Error :=
  refuse ErrInvalidTitle when (negb (validUTF8Bytes title 1 MaxTitleBytes)) ;;
  refuse ErrInvalidTitle
    when (existsb (λ char, unicode_IsControl char || unicode_ZlZp char) (runes title)) ;;
  None.

Definition validateStateReason (task : Task) : option Error :=
  if TaskState task == StateBlocked then
    match StateReason task with
    | Some reason =>
        refuse ErrInvalidStateReason when (negb (validUTF8Bytes reason 1 MaxStateReasonBytes)) ;; None
    | None => Some ErrInvalidStateReason
    end
  else refuse ErrInvalidStateReason when (if StateReason task is Some _ then true else false) ;; None.

Definition validateBlockedBy (task : Task) : option Error :=
  refuse ErrInvalidBlockedBy when (MaxBlockedBy <? llen (BlockedBy task))%N ;;
  scan_sorted id
    (λ dependency,
       refuse ErrInvalidBlockedBy when (negb (Domain.UUIDv7_Valid dependency)) ;;
       refuse ErrDependencyCycle when (dependency == ID task) ;; None)
    ErrInvalidBlockedBy None (BlockedBy task).

Definition validateLabels (task : Task) : option Error :=
  refuse ErrInvalidLabels when (MaxLabels <? llen (Labels task))%N ;;
  scan_sorted id
    (λ label, refuse ErrInvalidLabels when (negb (validUTF8Bytes label 0 MaxLabelBytes)) ;; None)
    ErrInvalidLabels None (Labels task).

Definition validateOwnership (task : Task) : option Error :=
  let hasDeviceOwner := OwnerDeviceID task != EmptyString in
  let hasSessionOwner := OwnerAgentSessionID task != EmptyString in
  refuse ErrInvalidOwnership when (hasDeviceOwner != hasSessionOwner) ;;
  refuse ErrInvalidOwnership
    when (hasDeviceOwner && (negb (Domain.DeviceID_Valid (OwnerDeviceID task)) ||
                             negb (Domain.UUIDv7_Valid (OwnerAgentSessionID task)))) ;;
  let requiresOwner :=
    (TaskState task == StateClaimed) || (TaskState task == StateInProgress) ||
    (TaskState task == StateBlocked) in
  refuse ErrInvalidOwnership when (requiresOwner != hasDeviceOwner) ;;
  refuse ErrInvalidOwnership when (hasDeviceOwner && (LastReleaseReason task != ReleaseReasonAbsent)) ;;
  refuse ErrInvalidOwnership
    when ((IntendedDeviceID task != EmptyString) &&
          negb (Domain.DeviceID_Valid (IntendedDeviceID task))) ;;
  refuse ErrInvalidOwnership when (hasDeviceOwner && (IntendedDeviceID task != EmptyString)) ;;
  refuse ErrInvalidOwnership
    when (State_Terminal (TaskState task) && (IntendedDeviceID task != EmptyString)) ;;
  None.

Definition Validate (task : Task) : option Error :=
  refuse ErrInvalidID when (negb (Domain.UUIDv7_Valid (ID task))) ;;
  check validateTitle (Title task) ;;
  refuse ErrInvalidBody when (negb (validUTF8Bytes (Body task) 0 MaxBodyBytes)) ;;
  refuse ErrInvalidState when (negb (State_Valid (TaskState task))) ;;
  check validateStateReason task ;;
  refuse ErrInvalidPriority when (MaxPriority <? Priority task)%N ;;
  check validateBlockedBy task ;;
  check validateLabels task ;;
  check validateOwnership task ;;
  refuse ErrInvalidReleaseReason
    when ((LastReleaseReason task != ReleaseReasonAbsent) &&
          negb (ReleaseReason_Valid (LastReleaseReason task))) ;;
  refuse ErrInvalidEntityVersion
    when ((EntityVersion task <? 1)%N || negb (Domain.ValidUnsignedInteger (EntityVersion task))) ;;
  refuse ErrInvalidTimestamp when (negb (Domain.Timestamp_Valid (CreatedAt task))) ;;
  refuse ErrInvalidTimestamp when (negb (Domain.Timestamp_Valid (UpdatedAt task))) ;;
  None.

(** [inl] is the error return. *)
Definition NormalizeLabels (labels : list string) : Error + list string :=
  if (MaxLabels <? llen labels)%N then inl ErrInvalidLabels else
  if existsb (λ label, negb (validUTF8Bytes label 0 MaxLabelBytes)) labels
  then inl ErrInvalidLabels
  else inr (compact (sort_Strings labels)).

Definition Actionable (task : Task) (allDependenciesDone hasUnresolvedConflict : bool) : bool :=
  (TaskState task == StateReady) && allDependenciesDone && negb hasUnresolvedConflict.

Definition ClaimableBy (task : Task) (deviceID : string)
    (allDependenciesDone hasUnresolvedConflict : bool) : bool :=
  if negb (Domain.DeviceID_Valid deviceID) ||
     negb (Actionable task allDependenciesDone hasUnresolvedConflict)
  then false
  else (IntendedDeviceID task == EmptyString) || (IntendedDeviceID task == deviceID).

(** ** dependency.go *)

Definition DependencyWalkMax : N := 4096.

Definition validateDependencyList (subject : string) (dependencies : list string) : option Error :=
  refuse ErrInvalidBlockedBy when (MaxBlockedBy <? llen dependencies)%N ;;
  scan_sorted id
    (λ dependency,
       refuse ErrDependencyCycle when (dependency == subject) ;;
       refuse ErrInvalidBlockedBy when (negb (Domain.UUIDv7_Valid dependency)) ;; None)
    ErrInvalidBlockedBy None dependencies.

Section Walk.
Context {S : Type}.
(** The callback; [S] is what it captures and may overwrite. *)
Variable lookup : S → string → S * option (list string).
Variable subject : string.

(** The loop over one task's dependencies: [None] is the cycle return. *)
Fixpoint collect_next (seen : gset string) (dependencies : list string) (next : gset string)
    : option (gset string) :=
  match dependencies with
  | [] => Some next
  | dependency :: r =>
      if dependency == subject then None
      else if bool_decide (dependency ∈ seen) then collect_next seen r next
      else collect_next seen r ({[dependency]} ∪ next)
  end.

(** One pass over the frontier: the error return, or the grown [seen] and [next]. *)
Fixpoint walk_level (frontier : list string) (st : S) (seen next : gset string)
    : (S * Error) + (S * gset string * gset string) :=
  match frontier with
  | [] => inr (st, seen, next)
  | id :: r =>
      if id == subject then inl (st, ErrDependencyCycle) else
      if bool_decide (id ∈ seen) then walk_level r st seen next else
      if (N.of_nat (size seen) =? DependencyWalkMax)%N then inl (st, ErrDependencyGraphTooComplex) else
      let seen := {[id]} ∪ seen in
      match lookup st id with
      | (st, None) => inl (st, ErrDependencyNotFound)
      | (st, Some dependencies) =>
          match validateDependencyList subject dependencies with
          | Some err => inl (st, err)
          | None =>
              match collect_next seen dependencies next with
              | None => inl (st, ErrDependencyCycle)
              | Some next => walk_level r st seen next
              end
          end
      end
  end.

(** The outer loop; [None] is exhausted fuel, which [walk_fuel] is enough to
    avoid. *)
Fixpoint walk (fuel : nat) (frontier : list string) (st : S) (seen : gset string)
    : option (S * option Error) :=
  match frontier with
  | [] => Some (st, None)
  | _ =>
      match fuel with
      | O => None
      | Datatypes.S fuel =>
          match walk_level frontier st seen ∅ with
          | inl (st, err) => Some (st, Some err)
          | inr (st, seen, next) => walk fuel (sort_Strings (elements next)) st seen
          end
      end
  end.
End Walk.

Definition walk_fuel : nat := 4098.

(** A nil callback is [None]. *)
Definition ValidateDependencyGraph {S} (subject : string) (candidate : list string)
    (lookup : option (S → string → S * option (list string))) (st : S) : S * option Error :=
  if negb (Domain.UUIDv7_Valid subject) then (st, Some ErrInvalidID) else
  match validateDependencyList subject candidate with
  | Some err => (st, Some err)
  | None =>
      match candidate with
      | [] => (st, None)
      | _ =>
          match lookup with
          | None => (st, Some ErrDependencyNotFound)
          | Some lookup =>
              match walk lookup subject walk_fuel candidate st ∅ with
              | Some result => result
              | None => (st, Some ErrDependencyGraphTooComplex)
              end
          end
      end
  end.

(** ** Transition table *)

Lemma task_transition_iff op from to :
  ValidateTransition op from to = None ↔ (from, to) ∈ legalTransitions op.
Proof.
  split.
  - intros H. unfold ValidateTransition in H. chain_inv H. bools. done.
  - intros H. unfold ValidateTransition.
    destruct op; simpl in H; unfold releaseEdges in H; simpl in H;
      repeat (apply elem_of_cons in H as [H|H]; [by simplify_eq|]);
      by apply elem_of_nil in H.
Qed.

Lemma legal_target_valid op from to : (from, to) ∈ legalTransitions op → State_Valid to = true.
Proof.
  intros H. apply task_transition_iff in H. unfold ValidateTransition in H.
  chain_inv H. by bools.
Qed.

Lemma terminal_final op from to : State_Terminal from = true → ValidateTransition op from to ≠ None.
Proof.
  unfold State_Terminal. bools. intros Hf H%task_transition_iff.
  destruct op, Hf as [->| ->]; simpl in H; set_solver.
Qed.

(** ** Facts of the validator *)

Definition owned_state (state : State) : bool :=
  match state with StateClaimed | StateInProgress | StateBlocked => true | _ => false end.

Lemma validateOwnership_owned task :
  validateOwnership task = None →
  (OwnerDeviceID task ≠ EmptyString ↔ owned_state (TaskState task) = true) ∧
  (OwnerDeviceID task ≠ EmptyString ↔ OwnerAgentSessionID task ≠ EmptyString).
Proof.
  unfold validateOwnership. intros H. chain_inv H. bools.
  split.
  - destruct (TaskState task); simpl in *;
      repeat case_bool_decide; simplify_eq/=; naive_solver.
  - repeat case_bool_decide; simplify_eq/=; naive_solver.
Qed.

Lemma task_valid_inv task :
  Validate task = None →
  Domain.UUIDv7_Valid (ID task) = true ∧ State_Valid (TaskState task) = true ∧
  validateBlockedBy task = None ∧ validateLabels task = None ∧ validateOwnership task = None ∧
  (1 ≤ EntityVersion task ≤ Domain.MaxSafeInteger)%N.
Proof.
  unfold Validate. intros H. chain_inv H. unfold Domain.ValidUnsignedInteger in *. bools.
  destruct Hc9. repeat split; try done; lia.
Qed.

Lemma validUTF8Bytes_bounds value lo hi :
  validUTF8Bytes value lo hi = true → (lo ≤ strlen value ≤ hi)%N.
Proof. unfold validUTF8Bytes. bools. lia. Qed.

(** ** Labels *)

Lemma NormalizeLabels_spec labels result :
  NormalizeLabels labels = inr result →
  StronglySorted str_lt result ∧ (∀ x, x ∈ result ↔ x ∈ labels) ∧
  (llen result ≤ MaxLabels)%N ∧ Forall (λ x, validUTF8Bytes x 0 MaxLabelBytes = true) result.
Proof.
  unfold NormalizeLabels. intros H. repeat case_match; simplify_eq.
  assert (Helem : ∀ x, x ∈ compact (sort_Strings labels) ↔ x ∈ labels).
  { intros x. rewrite compact_elem. by rewrite sort_Strings_perm. }
  split; [|split; [done|split]].
  - rewrite <-(list_fmap_id (compact _)). apply compact_sorted; [done|]. apply sort_Strings_sorted.
  - bools. unfold llen in *.
    assert (length (compact (sort_Strings labels)) ≤ length labels); [|lia].
    rewrite <-(Permutation_length (sort_Strings_perm labels)).
    destruct (sort_Strings labels) as [|y r]; simpl; [lia|].
    pose proof (compact_from_length y r). lia.
  - apply Forall_forall. intros x Hx%Helem.
    destruct (validUTF8Bytes x 0 MaxLabelBytes) eqn:E; [done|].
    enough (existsb (λ l, negb (validUTF8Bytes l 0 MaxLabelBytes)) labels = true) by congruence.
    apply existsb_exists. exists x. rewrite E. split; [|done]. by apply list_elem_of_In.
Qed.

End Task.

(** ** Correctness of the bounded dependency walk (task/dependency.go)

    [ValidateDependencyGraph] accepts a candidate [blocked_by] list exactly
    when a set of at most [DependencyWalkMax] tasks contains the candidates, is
    closed under the retained dependencies, and avoids the subject; so an
    accepted update never closes a cycle, and the loop always terminates within
    its fuel. *)

Module TaskDependency.
Import Task.

#[local] Opaque walk_fuel.

(** [a] names [b] in its retained [blocked_by]. *)
Definition edge (graph : string → option (list string)) (a b : string) : Prop :=
  ∃ l, graph a = Some l ∧ b ∈ l.

Definition acyclic (graph : string → option (list string)) : Prop := ∀ x, ¬ tc (edge graph) x x.

(** [closure] is closed: its tasks exist, their lists are well formed for
    [subject], and their dependencies are in it. *)
Definition closed_for (graph : string → option (list string)) (subject : string)
    (closure : gset string) : Prop :=
  ∀ x, x ∈ closure → ∃ l, graph x = Some l ∧ validateDependencyList subject l = None ∧
    ∀ y, y ∈ l → y ∈ closure.

(** The graph after the subject's list is replaced. *)
Definition set_dependencies (graph : string → option (list string)) (subject : string)
    (candidate : list string) : string → option (list string) :=
  λ x, if decide (x = subject) then Some candidate else graph x.

Lemma validateDependencyList_ok subject l :
  validateDependencyList subject l = None → subject ∉ l.
Proof.
  unfold validateDependencyList. intros H. chain_inv H.
  apply scan_sorted_None in H as [Hall _].
  intros Hin. rewrite Forall_forall in Hall. specialize (Hall _ Hin). chain_inv Hall.
  by bools.
Qed.

Lemma collect_next_spec subject seen deps next :
  subject ∉ deps →
  ∃ next', collect_next subject seen deps next = Some next' ∧
    ∀ x, x ∈ next' ↔ x ∈ next ∨ (x ∈ deps ∧ x ∉ seen).
Proof.
  revert next. induction deps as [|d r IH]; intros next Hs; simpl.
  { exists next. set_solver. }
  rewrite bool_decide_false by set_solver.
  case_bool_decide as Hd.
  - destruct (IH next) as (n' & Hn & Hx); [set_solver|]. exists n'. split; [done|].
    intros x. rewrite Hx. set_solver.
  - destruct (IH ({[d]} ∪ next)) as (n' & Hn & Hx); [set_solver|]. exists n'. split; [done|].
    intros x. rewrite Hx. set_solver.
Qed.

Section Walk.
Context (graph : string → option (list string)) (subject : string).

(** What a passed part of the walk has established: the read tasks avoid the
    subject, exist, are well formed, and lead only to [known] tasks. *)
Definition visited (seen : gset string) (known : string → Prop) : Prop :=
  subject ∉ seen ∧ size seen ≤ 4096 ∧
  ∀ x, x ∈ seen → ∃ l, graph x = Some l ∧ validateDependencyList subject l = None ∧
    ∀ y, y ∈ l → known y.

Lemma visited_mono seen (known known' : string → Prop) :
  (∀ x, known x → known' x) → visited seen known → visited seen known'.
Proof. intros Hk (Hs & Hz & Hv). split; [done|]. split; [done|]. naive_solver. Qed.

Lemma visited_add seen known x l :
  visited seen known → x ≠ subject → x ∉ seen →
  (N.of_nat (size seen) =? DependencyWalkMax)%N = false →
  graph x = Some l → validateDependencyList subject l = None → (∀ y, y ∈ l → known y) →
  visited ({[x]} ∪ seen) known.
Proof.
  unfold DependencyWalkMax. bools.
  intros (Hs & Hz & Hv) Hx Hn Hmax Hg Hok Hk. split; [set_solver|]. split.
  - rewrite size_union by set_solver. rewrite size_singleton. lia.
  - intros z [->%elem_of_singleton|Hz']%elem_of_union; [by eauto|]. by apply Hv.
Qed.

Context {S : Type} (lookup : S → string → S * option (list string)).
(** The callback's answer does not depend on what it captured. *)
Context (lookup_view : ∀ st x, (lookup st x).2 = graph x).

(** A pass that returns normally keeps the invariant, with the remaining
    frontier replaced by what it queued. *)
Lemma walk_level_ok frontier st seen next st' seen' next' :
  walk_level lookup subject frontier st seen next = inr (st', seen', next') →
  visited seen (λ y, y ∈ seen ∨ y ∈ frontier ∨ y ∈ next) →
  visited seen' (λ y, y ∈ seen' ∨ y ∈ next') ∧ seen ⊆ seen' ∧ next ⊆ next' ∧
  (∀ x, x ∈ frontier → x ∈ seen') ∧
  (size seen < size seen' ∨ (seen' = seen ∧ next' = next)).
Proof.
  revert st seen next. induction frontier as [|x r IH]; intros st seen next H Hv; simpl in H.
  { simplify_eq. split; [|set_solver]. eapply visited_mono; [|exact Hv]. set_solver. }
  case_bool_decide as Hx; [done|]. case_bool_decide as Hin.
  - apply IH in H as (Hv' & Hs & Hn & Hf & Hp); clear IH lookup_view.
    + split; [done|]. split; [done|]. split; [done|]. split; [set_solver|done].
    + eapply visited_mono; [|exact Hv]. set_solver.
  - destruct (N.of_nat (size seen) =? DependencyWalkMax)%N eqn:Hmax; [done|].
    pose proof (lookup_view st x) as Hview.
    destruct (lookup st x) as [st1 [l|]]; simpl in Hview; [|done].
    destruct (validateDependencyList subject l) eqn:Hok; [done|].
    destruct (collect_next_spec subject ({[x]} ∪ seen) l next) as (n1 & Hc & Hn1).
    { by apply validateDependencyList_ok. }
    rewrite Hc in H. apply IH in H as (Hv' & Hs & Hn & Hf & Hp); clear IH lookup_view.
    + split; [done|]. split; [set_solver|]. split; [set_solver|]. split; [set_solver|].
      left. assert (size ({[x]} ∪ seen) = Datatypes.S (size seen)) as Hsz.
      { rewrite size_union by set_solver. by rewrite size_singleton. }
      apply subseteq_size in Hs. lia.
    + eapply visited_add; [|try done..|].
      * eapply visited_mono; [|exact Hv]. set_solver.
      * intros y Hy. destruct (decide (y ∈ ({[x]} ∪ seen : gset string))); [by left|].
        right; right. apply Hn1. by right.
Qed.

(** A pass over tasks of a closed set that avoids the subject cannot fail. *)
Lemma walk_level_closed closure frontier st seen next :
  closed_for graph subject closure → subject ∉ closure → size closure ≤ 4096 →
  (∀ x, x ∈ frontier → x ∈ closure) → seen ⊆ closure → next ⊆ closure →
  ∃ st' seen' next', walk_level lookup subject frontier st seen next = inr (st', seen', next') ∧
    seen' ⊆ closure ∧ next' ⊆ closure.
Proof.
  intros Hcl Hsub Hsz.
  revert st seen next. induction frontier as [|x r IH]; intros st seen next Hf Hs Hn; simpl.
  { eauto 10. }
  rewrite bool_decide_false by set_solver. case_bool_decide as Hin; [apply IH; set_solver|].
  assert (Hx : x ∈ closure) by set_solver.
  assert ((N.of_nat (size seen) =? DependencyWalkMax)%N = false) as ->.
  { apply N.eqb_neq. unfold DependencyWalkMax.
    assert (size ({[x]} ∪ seen) ≤ size closure) by (apply subseteq_size; set_solver).
    rewrite size_union, size_singleton in H by set_solver. lia. }
  destruct (Hcl x Hx) as (l & Hg & Hok & Hl).
  pose proof (lookup_view st x) as Hview. rewrite Hg in Hview.
  destruct (lookup st x) as [st1 o]; simpl in Hview; subst o. rewrite Hok.
  destruct (collect_next_spec subject ({[x]} ∪ seen) l next) as (n1 & -> & Hn1).
  { by apply validateDependencyList_ok. }
  apply IH; set_solver.
Qed.

Lemma sort_elements_elem (s : gset string) x : x ∈ sort_Strings (elements s) ↔ x ∈ s.
Proof. rewrite sort_Strings_perm. apply elem_of_elements. Qed.

Lemma walk_None fuel frontier st seen :
  4096 - size seen + 2 ≤ fuel →
  visited seen (λ y, y ∈ seen ∨ y ∈ frontier) →
  walk lookup subject fuel frontier st seen ≠ None.
Proof.
  revert frontier st seen. induction fuel as [|fuel IH]; intros frontier st seen Hfuel Hv; [lia|].
  destruct frontier as [|x r]; [done|]. cbn [walk].
  destruct (walk_level lookup subject (x :: r) st seen ∅) as [[? ?]|[[st' seen'] next']] eqn:E; [done|].
  apply walk_level_ok in E as (Hv' & Hs & _ & _ & Hp).
  2: { eapply visited_mono; [|exact Hv]. set_solver. }
  destruct Hp as [Hlt|[-> ->]].
  - apply IH.
    + destruct Hv' as (_ & Hz & _). lia.
    + eapply visited_mono; [|exact Hv']. simpl. intros y [?|?]; [by left|].
      right. by apply sort_elements_elem.
  - rewrite elements_empty. by destruct fuel.
Qed.

(** Fuel beyond what a walk used changes nothing. *)
Lemma walk_more fuel fuel' frontier st seen result :
  walk lookup subject fuel frontier st seen = Some result → fuel ≤ fuel' →
  walk lookup subject fuel' frontier st seen = Some result.
Proof.
  revert fuel' frontier st seen. induction fuel as [|fuel IH]; intros fuel' [|x r] st seen H Hle;
    [by destruct fuel'|done|by destruct fuel'|].
  destruct fuel' as [|fuel']; [lia|]. cbn [walk] in H |- *.
  destruct (walk_level _ _ _ _ _ _) as [[? ?]|[[st' seen'] next']]; [done|]. apply IH; [done|lia].
Qed.

Lemma visited_closed seen :
  visited seen (λ y, y ∈ seen ∨ y ∈ ([] : list string)) → closed_for graph subject seen.
Proof.
  intros (_ & _ & Hv) x Hx. destruct (Hv x Hx) as (l & Hg & Hok & Hl).
  exists l. split; [done|]. split; [done|]. intros y Hy.
  by destruct (Hl y Hy) as [?|?%elem_of_nil].
Qed.

Lemma walk_sound fuel frontier st seen st' :
  walk lookup subject fuel frontier st seen = Some (st', None) →
  visited seen (λ y, y ∈ seen ∨ y ∈ frontier) →
  ∃ closure, closed_for graph subject closure ∧ subject ∉ closure ∧ size closure ≤ 4096 ∧
    seen ⊆ closure ∧ ∀ x, x ∈ frontier → x ∈ closure.
Proof.
  revert frontier st seen. induction fuel as [|fuel IH]; intros frontier st seen H Hv;
    (destruct frontier as [|x r]; [exists seen; pose proof Hv as (?&?&_)|]).
  1, 3: split; [by apply visited_closed|];
    repeat (split; [done|]); by intros y Hy%elem_of_nil.
  { done. }
  cbn [walk] in H.
  destruct (walk_level lookup subject (x :: r) st seen ∅) as [[? ?]|[[st1 seen'] next']] eqn:E; [done|].
  apply walk_level_ok in E as (Hv' & Hs & _ & Hf & _).
  2: { eapply visited_mono; [|exact Hv]. set_solver. }
  apply IH in H as (cl & Hcl & Hsub & Hsz & Hs' & Hn'); clear IH lookup_view.
  - exists cl. repeat (split; [done|]). split; [by etrans|]. intros y Hy. by apply Hs', Hf.
  - eapply visited_mono; [|exact Hv']. simpl. intros y [?|?]; [by left|].
    right. by apply sort_elements_elem.
Qed.

Lemma walk_complete closure fuel frontier st seen :
  closed_for graph subject closure → subject ∉ closure → size closure ≤ 4096 →
  (∀ x, x ∈ frontier → x ∈ closure) → seen ⊆ closure →
  match walk lookup subject fuel frontier st seen with
  | Some (_, Some _) => False
  | _ => True
  end.
Proof.
  intros Hcl Hsub Hsz. revert frontier st seen.
  induction fuel as [|fuel IH]; intros [|x r] st seen Hf Hs; try done.
  cbn [walk].
  destruct (walk_level_closed closure (x :: r) st seen ∅) as (st' & seen' & next' & -> & Hs' & Hn');
    [done..|set_solver|].
  apply IH; [|done]. intros y Hy%sort_elements_elem. set_solver.
Qed.

Lemma visited_empty frontier : visited ∅ (λ y, y ∈ (∅ : gset string) ∨ y ∈ (frontier : list string)).
Proof. split; [set_solver|]. split; [rewrite size_empty; lia|set_solver]. Qed.

Lemma walk_terminates frontier st : walk lookup subject walk_fuel frontier st ∅ ≠ None.
Proof.
  apply walk_None; [|apply visited_empty]. rewrite size_empty. vm_compute. lia.
Qed.

Lemma graph_spec candidate st :
  (ValidateDependencyGraph subject candidate (Some lookup) st).2 = None ↔
  Domain.UUIDv7_Valid subject = true ∧ validateDependencyList subject candidate = None ∧
  ∃ closure, closed_for graph subject closure ∧ subject ∉ closure ∧ size closure ≤ 4096 ∧
    ∀ x, x ∈ candidate → x ∈ closure.
Proof.
  unfold ValidateDependencyGraph.
  destruct (Domain.UUIDv7_Valid subject) eqn:Hid; cbn [negb]; [|by split; [intros [=]|intros (? & _)]].
  destruct (validateDependencyList subject candidate) eqn:Hok; [by split; [intros [=]|intros (_ & ? & _)]|].
  destruct candidate as [|c r].
  { split; [intros _|done]. do 2 (split; [done|]). exists ∅.
    split; [intros x; set_solver|]. split; [set_solver|]. split; [rewrite size_empty; lia|set_solver]. }
  pose proof (walk_terminates (c :: r) st) as Hterm.
  destruct (walk lookup subject walk_fuel (c :: r) st ∅) as [[st' [err|]]|] eqn:E; [| |done].
  - split; [intros [=]|]. intros (_ & _ & cl & Hcl & Hs & Hz & Hc).
    pose proof (walk_complete cl walk_fuel (c :: r) st ∅ Hcl Hs Hz Hc ltac:(set_solver)) as Hw.
    by rewrite E in Hw.
  - split; [intros _|done]. do 2 (split; [done|]).
    apply walk_sound in E as (cl & ? & ? & ? & _ & ?); [|apply visited_empty]. by exists cl.
Qed.
End Walk.

(** A closed set that avoids the subject stays closed when the subject's list
    changes, so a path that starts in it never reaches the subject. *)
Lemma closed_path graph subject candidate closure x y :
  closed_for graph subject closure → subject ∉ closure → x ∈ closure →
  rtc (edge (set_dependencies graph subject candidate)) x y → y ∈ closure.
Proof.
  intros Hcl Hs Hx Hp. induction Hp as [x|x z y (l & Hg & Hz) Hp IH]; [done|].
  apply IH. destruct (Hcl x Hx) as (l' & Hg' & _ & Hl').
  unfold set_dependencies in Hg. case_decide; [by subst|]. simplify_eq. by apply Hl'.
Qed.

(** A path of the updated graph either avoids the subject's edges or visits it. *)
Lemma path_split graph subject candidate x y :
  tc (edge (set_dependencies graph subject candidate)) x y →
  tc (edge graph) x y ∨
  (rtc (edge (set_dependencies graph subject candidate)) x subject ∧
   tc (edge (set_dependencies graph subject candidate)) subject y).
Proof.
  induction 1 as [x y Hxy|x z y Hxz Hzy IH].
  - destruct Hxy as (l & Hg & Hl). destruct (decide (x = subject)) as [->|Hne].
    + right. split; [reflexivity|]. apply tc_once. by exists l.
    + left. apply tc_once. exists l. split; [|done].
      unfold set_dependencies in Hg. by rewrite decide_False in Hg.
  - destruct (decide (x = subject)) as [->|Hne].
    + right. split; [reflexivity|]. by eapply tc_l.
    + destruct IH as [IH|[IH1 IH2]].
      * left. destruct Hxz as (l & Hg & Hl). eapply tc_l; [|exact IH].
        exists l. split; [|done]. unfold set_dependencies in Hg. by rewrite decide_False in Hg.
      * right. split; [|done]. by eapply rtc_l.
Qed.

Lemma tc_first {A} (R : relation A) x y : tc R x y → ∃ z, R x z ∧ rtc R z y.
Proof. destruct 1 as [x y H|x z y H Ht]; [exists y; split; [done|reflexivity]|eauto using tc_rtc]. Qed.

Lemma update_acyclic graph subject candidate closure :
  acyclic graph → closed_for graph subject closure → subject ∉ closure →
  (∀ x, x ∈ candidate → x ∈ closure) → acyclic (set_dependencies graph subject candidate).
Proof.
  intros Hac Hcl Hs Hc.
  assert (Hsub : ¬ tc (edge (set_dependencies graph subject candidate)) subject subject).
  { intros H. apply tc_first in H as (z & (l & Hg & Hz) & Hp).
    unfold set_dependencies in Hg. rewrite decide_True in Hg by done. simplify_eq.
    apply Hs. eapply closed_path; eauto. }
  intros x Hx. apply path_split in Hx as [Hx|[H1 H2]]; [by apply (Hac x)|].
  apply Hsub. eapply tc_rtc_r; [exact H2|]. done.
Qed.

End TaskDependency.
