(* ===== verification/LeaseEntity.v ===== *)
(** * Package internal/domain/lease: advisory leases

    [Module Lease]: lifecycle table (lifecycle.go), path patterns (pattern.go),
    the entity, its constructor and validator (lease.go), and the overlap test
    (intersection.go). The fixed-capacity pattern array is the list of its
    first [pathPatternCount] entries. *)

From stdpp Require Import base gmap strings list sorting.
From Stdlib Require Import ZArith NArith Lia.
From S2P Require Import Prelude.
From S2P Require Import GoLib.
From S2P Require Import DomainValues.

Module Lease.

(** ** lifecycle.go *)

Inductive Status :=
  | StatusAbsent | StatusActive | StatusReleased
  | StatusUnknown (text : string).

#[global] Instance Status_eq_dec : EqDecision Status.
Proof. solve_decision. Defined.

Definition Status_Valid (status : Status) : bool :=
  match status with StatusActive | StatusReleased => true | _ => false end.

Definition Status_Terminal (status : Status) : bool := status == StatusReleased.

Inductive ReleaseReason :=
  | ReleaseReasonAbsent
  | ReleaseVoluntary | ReleaseForced | ReleaseExpired | ReleaseSessionEnded | ReleaseRecovery
  | ReleaseReasonUnknown (text : string).

#[global] Instance ReleaseReason_eq_dec : EqDecision ReleaseReason.
Proof. solve_decision. Defined.

Definition ReleaseReason_of (text : string) : ReleaseReason :=
  if text == EmptyString then ReleaseReasonAbsent
  else if text == "voluntary" then ReleaseVoluntary
  else if text == "forced" then ReleaseForced
  else if text == "expired" then ReleaseExpired
  else if text == "session_ended" then ReleaseSessionEnded
  else if text == "recovery" then ReleaseRecovery
  else ReleaseReasonUnknown text.

Definition ReleaseReason_Valid (reason : ReleaseReason) : bool :=
  match reason with
  | ReleaseVoluntary | ReleaseForced | ReleaseExpired | ReleaseSessionEnded | ReleaseRecovery => true
  | _ => false
  end.

Inductive Operation :=
  | OperationCreate | OperationRenew | OperationReleaseVoluntary | OperationReleaseForced
  | OperationReleaseExpired | OperationSessionEnded | OperationRecoveryRelease
  | OperationUnknown (text : string).

#[global] Instance Operation_eq_dec : EqDecision Operation.
Proof. solve_decision. Defined.

Definition Operation_Valid (operation : Operation) : bool :=
  match operation with OperationUnknown _ => false | _ => true end.

Record Lifecycle := mkLifecycle { LStatus : Status; LReleaseReason : ReleaseReason }.

#[global] Instance Lifecycle_eq_dec : EqDecision Lifecycle.
Proof. solve_decision. Defined.

Inductive Error :=
  | ErrInvalidStatus | ErrInvalidReleaseReason | ErrInvalidOperation | ErrInvalidTransition
  | ErrInvalidPathPatternCount | ErrInvalidPathPattern | ErrPathPatternsNotSortedUnique
  | ErrInvalidID | ErrInvalidHolderDeviceID | ErrInvalidHolderAgentSessionID | ErrInvalidScope
  | ErrInvalidTaskID | ErrInvalidTTL | ErrInvalidTTLPolicy | ErrInvalidEntityVersion.

#[global] Instance Error_eq_dec : EqDecision Error.
Proof. solve_decision. Defined.

Definition Lifecycle_Validate (lifecycle : Lifecycle) : option Error :=
  refuse ErrInvalidStatus when (negb (Status_Valid (LStatus lifecycle))) ;;
  match LStatus lifecycle with
  | StatusActive =>
      refuse ErrInvalidReleaseReason when (LReleaseReason lifecycle != ReleaseReasonAbsent) ;; None
  | StatusReleased =>
      refuse ErrInvalidReleaseReason when (negb (ReleaseReason_Valid (LReleaseReason lifecycle))) ;; None
  | _ => None
  end.

Definition absent : Lifecycle := mkLifecycle StatusAbsent ReleaseReasonAbsent.
Definition active : Lifecycle := mkLifecycle StatusActive ReleaseReasonAbsent.
Definition released (reason : ReleaseReason) : Lifecycle := mkLifecycle StatusReleased reason.

(** The map lookup of an unlisted operation gives the zero transition. *)
Definition legalLifecycleTransitions (operation : Operation) : Lifecycle * Lifecycle :=
  match operation with
  | OperationCreate => (absent, active)
  | OperationRenew => (active, active)
  | OperationReleaseVoluntary => (active, released ReleaseVoluntary)
  | OperationReleaseForced => (active, released ReleaseForced)
  | OperationReleaseExpired => (active, released ReleaseExpired)
  | OperationSessionEnded => (active, released ReleaseSessionEnded)
  | OperationRecoveryRelease => (active, released ReleaseRecovery)
  | OperationUnknown _ => (absent, absent)
  end.

Definition validateTransitionSource (from : Lifecycle) : option Error :=
  if LStatus from == StatusAbsent then
    refuse ErrInvalidReleaseReason when (LReleaseReason from != ReleaseReasonAbsent) ;; None
  else Lifecycle_Validate from.

Definition ValidateTransition (operation : Operation) (from to : Lifecycle) : option Error :=
  refuse ErrInvalidOperation when (negb (Operation_Valid operation)) ;;
  check validateTransitionSource from ;;
  check Lifecycle_Validate to ;;
  let want := legalLifecycleTransitions operation in
  refuse ErrInvalidTransition when ((from != want.1) || (to != want.2)) ;;
  None.

(** ** pattern.go *)

Definition MaxPathPatternBytes : N := Domain.MaxRepositoryPathBytes.
Definition MaxPathPatterns : N := 32.

Record PathPattern := mkPathPattern { path : string; prefix : bool }.

#[global] Instance PathPattern_eq_dec : EqDecision PathPattern.
Proof. solve_decision. Defined.

Definition PathPattern_String (pattern : PathPattern) : string :=
  if path pattern == EmptyString then EmptyString
  else if prefix pattern then path pattern +:+ "/**" else path pattern.

Section Patterns.
Context `{NormLib}.

Definition ParsePathPattern (text : string) : Error + PathPattern :=
  if (strlen text <? 1)%N || (MaxPathPatternBytes <? strlen text)%N then inl ErrInvalidPathPattern else
  let prefix := HasSuffix text "/**" in
  let pathText := if prefix then TrimSuffix text "/**" else text in
  match Domain.ParseRepositoryPath pathText with
  | None => inl ErrInvalidPathPattern
  | Some p => inr (mkPathPattern p prefix)
  end.

Definition PathPattern_Valid (pattern : PathPattern) : bool :=
  if negb (Domain.RepositoryPath_Valid (path pattern)) then false
  else (strlen (PathPattern_String pattern) <=? MaxPathPatternBytes)%N.

Definition Intersects (pattern other : PathPattern) : bool :=
  if negb (PathPattern_Valid pattern) || negb (PathPattern_Valid other) then false
  else if negb (prefix pattern) && negb (prefix other) then path pattern == path other
  else if prefix pattern && Domain.RepositoryPath_Contains (path pattern) (path other) then true
  else prefix other && Domain.RepositoryPath_Contains (path other) (path pattern).

Fixpoint parse_patterns (raw : list string) : Error + list PathPattern :=
  match raw with
  | [] => inr []
  | text :: r =>
      match ParsePathPattern text with
      | inl err => inl err
      | inr pattern =>
          match parse_patterns r with
          | inl err => inl err
          | inr patterns => inr (pattern :: patterns)
          end
      end
  end.

Definition pattern_le (a b : PathPattern) : Prop :=
  String.le (PathPattern_String a) (PathPattern_String b).

#[global] Instance pattern_le_dec : RelDecision pattern_le.
Proof. intros a b. unfold pattern_le. apply _. Defined.

Definition NormalizePathPatterns (raw : list string) : Error + list PathPattern :=
  if (llen raw <? 1)%N || (MaxPathPatterns <? llen raw)%N then inl ErrInvalidPathPatternCount else
  match parse_patterns raw with
  | inl err => inl err
  | inr result => inr (compact (merge_sort pattern_le result))
  end.

(** ** lease.go *)

Definition MinTTLSeconds : Z := 30.
Definition MaxTTLSeconds : Z := 86400.

Inductive Scope := ScopeTask | ScopePath | ScopeUnknown (text : string).

#[global] Instance Scope_eq_dec : EqDecision Scope.
Proof. solve_decision. Defined.

Definition Scope_of (text : string) : Scope :=
  if text == "task" then ScopeTask else if text == "path" then ScopePath else ScopeUnknown text.

Definition Scope_Valid (scope : Scope) : bool :=
  match scope with ScopeTask | ScopePath => true | _ => false end.

Record Fields := mkFields {
  fID : string;
  fHolderDeviceID : string;
  fHolderAgentSessionID : string;
  fScope : Scope;
  fTaskID : string;
  fTTLSeconds : Z;
  fStatus : Status;
  fReleaseReason : ReleaseReason;
  fEntityVersion : N }.

Record Lease := mkLease {
  ID : string;
  HolderDeviceID : string;
  HolderAgentSessionID : string;
  LeaseScope : Scope;
  TaskID : string;
  TTLSeconds : Z;
  LeaseStatus : Status;
  LeaseReleaseReason : ReleaseReason;
  EntityVersion : N;
  pathPatterns : list PathPattern }.

#[global] Instance Lease_eq_dec : EqDecision Lease.
Proof. solve_decision. Defined.

Definition PathPatterns (lease : Lease) : list PathPattern := pathPatterns lease.

Definition Lease_Lifecycle (lease : Lease) : Lifecycle :=
  mkLifecycle (LeaseStatus lease) (LeaseReleaseReason lease).

Definition ValidateRequestedTTL (ttl minimum maximum : Z) : option Error :=
  refuse ErrInvalidTTLPolicy
    when ((minimum <? MinTTLSeconds)%Z || (MaxTTLSeconds <? minimum)%Z ||
          (maximum <? MinTTLSeconds)%Z || (MaxTTLSeconds <? maximum)%Z || (maximum <? minimum)%Z) ;;
  refuse ErrInvalidTTL when ((ttl <? minimum)%Z || (maximum <? ttl)%Z) ;;
  None.

Definition validateScopedValues (lease : Lease) : option Error :=
  let count := llen (pathPatterns lease) in
  check match LeaseScope lease with
        | ScopeTask =>
            refuse ErrInvalidTaskID when (negb (Domain.UUIDv7_Valid (TaskID lease))) ;;
            refuse ErrInvalidPathPatternCount when (negb (count =? 0)%N) ;; None
        | ScopePath =>
            refuse ErrInvalidTaskID
              when ((TaskID lease != EmptyString) && negb (Domain.UUIDv7_Valid (TaskID lease))) ;;
            refuse ErrInvalidPathPatternCount
              when ((count <? 1)%N || (MaxPathPatterns <? count)%N) ;; None
        | ScopeUnknown _ => Some ErrInvalidScope
        end ;;
  scan_sorted PathPattern_String
    (λ pattern, refuse ErrInvalidPathPattern when (negb (PathPattern_Valid pattern)) ;; None)
    ErrPathPatternsNotSortedUnique None (pathPatterns lease).

Definition Validate (lease : Lease) : option Error :=
  refuse ErrInvalidID when (negb (Domain.UUIDv7_Valid (ID lease))) ;;
  refuse ErrInvalidHolderDeviceID when (negb (Domain.DeviceID_Valid (HolderDeviceID lease))) ;;
  refuse ErrInvalidHolderAgentSessionID
    when (negb (Domain.UUIDv7_Valid (HolderAgentSessionID lease))) ;;
  refuse ErrInvalidScope when (negb (Scope_Valid (LeaseScope lease))) ;;
  check validateScopedValues lease ;;
  check ValidateRequestedTTL (TTLSeconds lease) MinTTLSeconds MaxTTLSeconds ;;
  check Lifecycle_Validate (Lease_Lifecycle lease) ;;
  refuse ErrInvalidEntityVersion
    when ((EntityVersion lease <? 1)%N || negb (Domain.ValidUnsignedInteger (EntityVersion lease))) ;;
  None.

(** [New]: the switch on the scope, then [Validate]. *)
Definition with_patterns (fields : Fields) (patterns : list PathPattern) : Lease :=
  mkLease (fID fields) (fHolderDeviceID fields) (fHolderAgentSessionID fields) (fScope fields)
    (fTaskID fields) (fTTLSeconds fields) (fStatus fields) (fReleaseReason fields)
    (fEntityVersion fields) patterns.

Definition New (fields : Fields) (rawPathPatterns : list string) : Error + Lease :=
  let validated lease := match Validate lease with Some err => inl err | None => inr lease end in
  match fScope fields with
  | ScopeTask =>
      if negb (llen rawPathPatterns =? 0)%N then inl ErrInvalidPathPatternCount
      else validated (with_patterns fields [])
  | ScopePath =>
      match NormalizePathPatterns rawPathPatterns with
      | inl err => inl err
      | inr patterns => validated (with_patterns fields patterns)
      end
  | ScopeUnknown _ => inl ErrInvalidScope
  end.

(** ** intersection.go *)

Definition ActiveLeasesIntersect (left right : Lease) : Error + bool :=
  match Validate left with
  | Some err => inl err
  | None =>
      match Validate right with
      | Some err => inl err
      | None =>
          inr (
            if (LeaseStatus left != StatusActive) || (LeaseStatus right != StatusActive) then false
            else if (LeaseScope left == ScopeTask) && (LeaseScope right == ScopeTask)
            then TaskID left == TaskID right
            else if (LeaseScope left != ScopePath) || (LeaseScope right != ScopePath) then false
            else existsb (λ l, existsb (λ r, Intersects l r) (pathPatterns right)) (pathPatterns left))
      end
  end.

(** [covers pattern x]: the resource the pattern text denotes. *)
Definition covers (pattern : PathPattern) (x : string) : Prop :=
  Domain.RepositoryPath_Valid x = true ∧
  if prefix pattern then Domain.RepositoryPath_Contains (path pattern) x = true
  else x = path pattern.

(** ** Lifecycle *)

Lemma lease_transition_iff op from to :
  ValidateTransition op from to = None ↔
  Operation_Valid op = true ∧ (from, to) = legalLifecycleTransitions op.
Proof.
  split.
  - unfold ValidateTransition. intros Hv. chain_inv Hv. bools. destruct Hc2 as [-> ->].
    split; [done|]. by destruct (legalLifecycleTransitions op).
  - intros [Hop Heq]. destruct op; simpl in *; simplify_eq; vm_compute; done.
Qed.

Lemma released_final op from to :
  LStatus from = StatusReleased → ValidateTransition op from to ≠ None.
Proof. intros Hf [Hop Heq]%lease_transition_iff. destruct op; simpl in *; simplify_eq; done. Qed.

(** ** Patterns *)

Lemma Valid_path pattern :
  PathPattern_Valid pattern = true → Domain.RepositoryPath_Valid (path pattern) = true.
Proof. unfold PathPattern_Valid. by destruct (Domain.RepositoryPath_Valid (path pattern)). Qed.

Lemma Valid_nonempty p : Domain.RepositoryPath_Valid p = true → p ≠ EmptyString.
Proof. intros Hp ->. unfold Domain.RepositoryPath_Valid in Hp. vm_compute in Hp. done. Qed.

(** Two valid patterns intersect exactly when some path is reserved by both. *)
Lemma Intersects_covers l r :
  PathPattern_Valid l = true → PathPattern_Valid r = true →
  Intersects l r = true ↔ ∃ x, covers l x ∧ covers r x.
Proof.
  intros Hl Hr. pose proof (Valid_path _ Hl) as Hlp. pose proof (Valid_path _ Hr) as Hrp.
  unfold Intersects, covers. rewrite Hl, Hr. destruct l as [lp lx], r as [rp rx]; simpl in *.
  destruct lx, rx; simpl.
  - split.
    + destruct (Domain.RepositoryPath_Contains lp rp) eqn:E; intros Hc.
      * exists rp. eauto using Domain.Contains_refl.
      * exists lp. eauto using Domain.Contains_refl.
    + intros (x & (_ & H1) & _ & H2).
      destruct (Domain.Contains_comparable _ _ _ H1 H2) as [-> | ->]; [done|by case_match].
  - destruct (Domain.RepositoryPath_Contains lp rp) eqn:E; simpl.
    + split; [intros _; exists rp; eauto|done].
    + split; [intros [=]|]. intros (x & (_ & H1) & _ & ->). congruence.
  - split; [intros Hc; exists lp; eauto|]. intros (x & (_ & ->) & _ & H2). done.
  - rewrite decide_true. split; [intros ->; exists rp; eauto|]. intros (x & (_ & ->) & _ & ->). done.
Qed.

Lemma Intersects_sym l r : Intersects l r = Intersects r l.
Proof.
  destruct (PathPattern_Valid l) eqn:Hl, (PathPattern_Valid r) eqn:Hr;
    try (unfold Intersects; by rewrite Hl, Hr).
  apply eq_true_iff_eq. rewrite !Intersects_covers by done. naive_solver.
Qed.

(** A valid path does not end in the wildcard suffix: its last component
    would be [**]. *)
Lemma Valid_no_wildcard p : Domain.RepositoryPath_Valid p = true → HasSuffix p "/**" = false.
Proof.
  intros Hp. apply not_true_is_false. intros [r ->]%HasSuffix_app.
  apply Domain.RepositoryPath_Valid_components in Hp.
  change "/**" with (String slash "**") in Hp. rewrite Split_app_sep in Hp.
  apply Forall_app in Hp as [_ Hp].
  assert (Split slash "**" = ["**"]) as Heq by (vm_compute; reflexivity).
  assert (Domain.validPathComponent "**" = false) as Hf by (vm_compute; reflexivity).
  rewrite Heq in Hp. inversion_clear Hp as [|? ? Hc]. congruence.
Qed.

Lemma Parse_print text pattern :
  ParsePathPattern text = inr pattern →
  PathPattern_String pattern = text ∧ PathPattern_Valid pattern = true.
Proof.
  unfold ParsePathPattern, Domain.ParseRepositoryPath, PathPattern_Valid. intros Hp.
  destruct ((strlen text <? 1)%N || (MaxPathPatternBytes <? strlen text)%N) eqn:Hlen; [done|].
  apply orb_false_iff in Hlen as [_ Hlen]. apply N.ltb_ge, N.leb_le in Hlen.
  set (pathText := if HasSuffix text "/**" then TrimSuffix text "/**" else text) in *.
  destruct (Domain.RepositoryPath_Valid pathText) eqn:Hv; [|done].
  injection Hp as <-. cbn [path]. rewrite Hv. cbn [negb].
  enough (PathPattern_String (mkPathPattern pathText (HasSuffix text "/**")) = text) as -> by done.
  unfold PathPattern_String. cbn [path prefix].
  rewrite bool_decide_false by (by apply Valid_nonempty). subst pathText.
  destruct (HasSuffix text "/**") eqn:Hs; [|done].
  apply HasSuffix_app in Hs as [r ->]. by rewrite TrimSuffix_app.
Qed.

Lemma Print_parse pattern :
  PathPattern_Valid pattern = true → ParsePathPattern (PathPattern_String pattern) = inr pattern.
Proof.
  intros Hv. pose proof (Valid_path _ Hv) as Hp. pose proof (Valid_nonempty _ Hp) as Hne.
  unfold PathPattern_Valid in Hv. rewrite Hp in Hv. simpl in Hv. apply N.leb_le in Hv.
  unfold ParsePathPattern. destruct pattern as [p b]; simpl in *.
  assert (Hs : PathPattern_String (mkPathPattern p b) ≠ EmptyString).
  { unfold PathPattern_String; simpl. rewrite bool_decide_false by done. by destruct b, p. }
  assert ((strlen (PathPattern_String (mkPathPattern p b)) <? 1)%N = false) as ->.
  { unfold strlen. destruct (PathPattern_String _); [done|]. apply N.ltb_ge. simpl String.length. lia. }
  assert ((MaxPathPatternBytes <? strlen (PathPattern_String (mkPathPattern p b)))%N = false) as ->.
  { by apply N.ltb_ge. }
  simpl orb. cbv iota. unfold PathPattern_String; simpl. rewrite bool_decide_false by done.
  unfold Domain.ParseRepositoryPath. destruct b.
  - rewrite (proj2 (HasSuffix_app _ _)) by eauto. by rewrite TrimSuffix_app, Hp.
  - by rewrite Valid_no_wildcard, Hp.
Qed.

Lemma parse_patterns_Forall2 raw result :
  parse_patterns raw = inr result → Forall2 (λ t p, ParsePathPattern t = inr p) raw result.
Proof.
  revert result. induction raw as [|t r IH]; intros result Hp; simpl in Hp; [simplify_eq; constructor|].
  repeat case_match; simplify_eq. constructor; [done|]. by apply IH.
Qed.

(** Normalisation sorts strictly, keeps exactly the given texts, and returns
    only valid patterns. *)
Lemma NormalizePathPatterns_spec raw result :
  NormalizePathPatterns raw = inr result →
  StronglySorted str_lt (PathPattern_String <$> result) ∧
  (∀ text, text ∈ PathPattern_String <$> result ↔ text ∈ raw) ∧
  Forall (λ p, PathPattern_Valid p = true) result ∧
  1 ≤ length result ≤ length raw ∧ (llen raw ≤ MaxPathPatterns)%N.
Proof.
  unfold NormalizePathPatterns. intros Hn.
  destruct ((llen raw <? 1)%N || (MaxPathPatterns <? llen raw)%N) eqn:Hlen; [done|].
  destruct (parse_patterns raw) as [|parsed] eqn:Hp; simplify_eq. bools. unfold llen in *.
  apply parse_patterns_Forall2 in Hp. pose proof (Forall2_length _ _ _ Hp) as Hl.
  assert (Hm : ∀ p, p ∈ merge_sort pattern_le parsed ↔ p ∈ parsed).
  { intros p. by rewrite merge_sort_Permutation. }
  assert (Hin : ∀ p, p ∈ parsed → ParsePathPattern (PathPattern_String p) = inr p).
  { intros p [i Hi]%list_elem_of_lookup.
    destruct (Forall2_lookup_r _ _ _ _ _ Hp Hi) as (t & _ & Ht).
    by destruct (Parse_print _ _ Ht) as [-> _]. }
  assert (Hlen' : 1 ≤ length (compact (merge_sort pattern_le parsed)) ≤ length raw).
  { rewrite Hl. rewrite Hl in Hlen.
    pose proof (Permutation_length (merge_sort_Permutation pattern_le parsed)) as Hlen'.
    destruct (merge_sort pattern_le parsed) as [|y ys]; simpl in *; [lia|].
    pose proof (compact_from_length y ys). lia. }
  split; [|split; [|split; [|split; [done|lia]]]].
  - apply compact_sorted.
    + intros x y Hx%Hm%Hin Hy%Hm%Hin Heq. rewrite Heq in Hx. congruence.
    + apply Sorted_StronglySorted.
      { intros x y z; unfold pattern_le. by intros ? ?; etrans. }
      apply Sorted_merge_sort. intros x y. unfold pattern_le. apply (total String.le).
  - intros text. rewrite list_elem_of_fmap. split.
    + intros (p & -> & Hp'%compact_elem%Hm). apply list_elem_of_lookup in Hp' as [i Hi].
      destruct (Forall2_lookup_r _ _ _ _ _ Hp Hi) as (t & Hti & Ht).
      destruct (Parse_print _ _ Ht) as [-> _]. by eapply list_elem_of_lookup_2.
    + intros [i Hi]%list_elem_of_lookup.
      destruct (Forall2_lookup_l _ _ _ _ _ Hp Hi) as (p & Hpi & Ht).
      exists p. destruct (Parse_print _ _ Ht) as [-> _]. split; [done|].
      apply compact_elem, Hm. by eapply list_elem_of_lookup_2.
  - apply Forall_forall. intros p Hp'%compact_elem%Hm%Hin. by apply Parse_print in Hp' as [_ ?].
Qed.

(** ** The entity *)

Lemma New_valid fields raw lease : New fields raw = inr lease → Validate lease = None.
Proof. unfold New. intros Hn. repeat case_match; by simplify_eq. Qed.

Lemma lease_valid_inv lease :
  Validate lease = None →
  Domain.UUIDv7_Valid (ID lease) = true ∧ Domain.DeviceID_Valid (HolderDeviceID lease) = true ∧
  validateScopedValues lease = None ∧ Lifecycle_Validate (Lease_Lifecycle lease) = None ∧
  (1 ≤ EntityVersion lease ≤ Domain.MaxSafeInteger)%N.
Proof.
  unfold Validate. intros Hv. chain_inv Hv. unfold Domain.ValidUnsignedInteger in *. bools.
  destruct Hc6. split_and!; try done; lia.
Qed.

Lemma ActiveLeasesIntersect_sym left right b :
  ActiveLeasesIntersect left right = inr b → ActiveLeasesIntersect right left = inr b.
Proof.
  unfold ActiveLeasesIntersect. intros Hi.
  destruct (Validate left), (Validate right); simplify_eq. f_equal.
  rewrite (orb_comm (LeaseStatus right != StatusActive)).
  rewrite (andb_comm (LeaseScope right == ScopeTask)).
  rewrite (orb_comm (LeaseScope right != ScopePath)).
  repeat case_match; try done.
  - by apply bool_decide_ext.
  - apply eq_true_iff_eq. rewrite !existsb_exists.
    split; intros (x & Hx & (y & Hy & Hxy)%existsb_exists); exists y; (split; [done|]);
      apply existsb_exists; exists x; rewrite Intersects_sym; done.
Qed.

End Patterns.

End Lease.
