(* ===== verification/AgentSessionEntity.v ===== *)
(** * Package internal/domain/agentsession: agent sessions

    [Module AgentSession]: the lifecycle state machine (state.go) and the
    entity with its validator (session.go). *)

From stdpp Require Import base gmap strings list relations.
From Stdlib Require Import NArith Lia.
From S2P Require Import Prelude.
From S2P Require Import GoLib.
From S2P Require Import DomainValues.

Module AgentSession.

(** ** state.go *)

Inductive State :=
  | StateAbsent | StateStarting | StateIdle | StateClaimed | StateWorking | StateBlocked
  | StateDisconnected | StateEnded
  | StateUnknown (text : string).

#[global] Instance State_eq_dec : EqDecision State.
Proof. solve_decision. Defined.

Definition State_of (text : string) : State :=
  if text == EmptyString then StateAbsent
  else if text == "starting" then StateStarting
  else if text == "idle" then StateIdle
  else if text == "claimed" then StateClaimed
  else if text == "working" then StateWorking
  else if text == "blocked" then StateBlocked
  else if text == "disconnected" then StateDisconnected
  else if text == "ended" then StateEnded
  else StateUnknown text.

Definition State_Valid (state : State) : bool :=
  match state with
  | StateStarting | StateIdle | StateClaimed | StateWorking | StateBlocked
  | StateDisconnected | StateEnded => true
  | _ => false
  end.

Definition Connected (state : State) : bool :=
  match state with
  | StateStarting | StateIdle | StateClaimed | StateWorking | StateBlocked => true
  | _ => false
  end.

Definition State_Terminal (state : State) : bool := state == StateEnded.

Inductive EndReason :=
  | EndReasonAbsent
  | EndReasonClean | EndReasonDisconnectTimeout | EndReasonOperator | EndReasonCrashReap
  | EndReasonRecovery
  | EndReasonUnknown (text : string).

#[global] Instance EndReason_eq_dec : EqDecision EndReason.
Proof. solve_decision. Defined.

Definition EndReason_of (text : string) : EndReason :=
  if text == EmptyString then EndReasonAbsent
  else if text == "clean" then EndReasonClean
  else if text == "disconnect_timeout" then EndReasonDisconnectTimeout
  else if text == "operator" then EndReasonOperator
  else if text == "crash_reap" then EndReasonCrashReap
  else if text == "recovery" then EndReasonRecovery
  else EndReasonUnknown text.

Definition EndReason_Valid (reason : EndReason) : bool :=
  match reason with
  | EndReasonClean | EndReasonDisconnectTimeout | EndReasonOperator | EndReasonCrashReap
  | EndReasonRecovery => true
  | _ => false
  end.

Inductive Operation :=
  | OperationCreate | OperationAgentStatusChange | OperationDaemonDisconnect
  | OperationDaemonResume | OperationCleanEnd | OperationDaemonEnd | OperationRecoveryEnd
  | OperationUnknown (text : string).

#[global] Instance Operation_eq_dec : EqDecision Operation.
Proof. solve_decision. Defined.

Definition Operation_Valid (operation : Operation) : bool :=
  match operation with OperationUnknown _ => false | _ => true end.

Record Lifecycle := mkLifecycle {
  LState : State; LResumeState : State; LEndReason : EndReason }.

#[global] Instance Lifecycle_eq_dec : EqDecision Lifecycle.
Proof. solve_decision. Defined.

Inductive Error :=
  | ErrInvalidState | ErrInvalidResumeState | ErrInvalidEndReason | ErrInvalidOperation
  | ErrInvalidTransition
  | ErrInvalidID | ErrInvalidDeviceID | ErrInvalidClientKind | ErrInvalidAgentProfileID
  | ErrInvalidWorkingRootID | ErrInvalidEntityVersion.

#[global] Instance Error_eq_dec : EqDecision Error.
Proof. solve_decision. Defined.

Definition agentStatusTransitions : list (State * State) :=
  [(StateStarting, StateIdle);
   (StateIdle, StateClaimed); (StateIdle, StateWorking); (StateIdle, StateBlocked);
   (StateClaimed, StateIdle); (StateClaimed, StateWorking); (StateClaimed, StateBlocked);
   (StateWorking, StateIdle); (StateWorking, StateClaimed); (StateWorking, StateBlocked);
   (StateBlocked, StateIdle); (StateBlocked, StateClaimed); (StateBlocked, StateWorking)].

Definition Lifecycle_Validate (lifecycle : Lifecycle) : option Error :=
  refuse ErrInvalidState when (negb (State_Valid (LState lifecycle))) ;;
  check (if LState lifecycle == StateDisconnected then
           refuse ErrInvalidResumeState when (negb (Connected (LResumeState lifecycle))) ;; None
         else
           refuse ErrInvalidResumeState when (LResumeState lifecycle != StateAbsent) ;; None) ;;
  if LState lifecycle == StateEnded then
    refuse ErrInvalidEndReason when (negb (EndReason_Valid (LEndReason lifecycle))) ;; None
  else
    refuse ErrInvalidEndReason when (LEndReason lifecycle != EndReasonAbsent) ;; None.

Definition zero_lifecycle : Lifecycle := mkLifecycle StateAbsent StateAbsent EndReasonAbsent.
Definition ended (reason : EndReason) : Lifecycle := mkLifecycle StateEnded StateAbsent reason.

Definition legalTransition (operation : Operation) (from to : Lifecycle) : bool :=
  match operation with
  | OperationCreate =>
      (from == zero_lifecycle) && (to == mkLifecycle StateStarting StateAbsent EndReasonAbsent)
  | OperationAgentStatusChange =>
      bool_decide ((LState from, LState to) ∈ agentStatusTransitions) &&
      (LResumeState from == StateAbsent) && (LEndReason from == EndReasonAbsent) &&
      (LResumeState to == StateAbsent) && (LEndReason to == EndReasonAbsent)
  | OperationDaemonDisconnect =>
      Connected (LState from) && (LState to == StateDisconnected) &&
      (LResumeState to == LState from) && (LEndReason to == EndReasonAbsent)
  | OperationDaemonResume =>
      (LState from == StateDisconnected) && (LState to == LResumeState from) &&
      (LResumeState to == StateAbsent) && (LEndReason to == EndReasonAbsent)
  | OperationCleanEnd => Connected (LState from) && (to == ended EndReasonClean)
  | OperationDaemonEnd =>
      if LState from == StateEnded then false
      else match LEndReason to with
           | EndReasonDisconnectTimeout =>
               (LState from == StateDisconnected) && (to == ended EndReasonDisconnectTimeout)
           | EndReasonOperator | EndReasonCrashReap => to == ended (LEndReason to)
           | _ => false
           end
  | OperationRecoveryEnd => (LState from != StateEnded) && (to == ended EndReasonRecovery)
  | OperationUnknown _ => false
  end.

Definition ValidateTransition (operation : Operation) (from to : Lifecycle) : option Error :=
  refuse ErrInvalidOperation when (negb (Operation_Valid operation)) ;;
  check (if LState from == StateAbsent then
           refuse ErrInvalidResumeState when (LResumeState from != StateAbsent) ;;
           refuse ErrInvalidEndReason when (LEndReason from != EndReasonAbsent) ;;
           refuse ErrInvalidTransition when (operation != OperationCreate) ;; None
         else Lifecycle_Validate from) ;;
  check Lifecycle_Validate to ;;
  refuse ErrInvalidTransition when (negb (legalTransition operation from to)) ;;
  None.

(** ** session.go *)

Definition MaxAgentProfileIDBytes : N := 128.

Inductive ClientKind :=
  | ClientKindCodex | ClientKindClaude | ClientKindOther
  | ClientKindUnknown (text : string).

#[global] Instance ClientKind_eq_dec : EqDecision ClientKind.
Proof. solve_decision. Defined.

Definition ClientKind_of (text : string) : ClientKind :=
  if text == "codex" then ClientKindCodex
  else if text == "claude" then ClientKindClaude
  else if text == "other" then ClientKindOther
  else ClientKindUnknown text.

Definition ClientKind_Valid (kind : ClientKind) : bool :=
  match kind with ClientKindUnknown _ => false | _ => true end.

Record Session := mkSession {
  ID : string;
  DeviceID : string;
  SessionClientKind : ClientKind;
  AgentProfileID : option string;
  SessionState : State;
  ResumeState : State;
  WorkingRootID : string;
  SessionEndReason : EndReason;
  EntityVersion : N }.

#[global] Instance Session_eq_dec : EqDecision Session.
Proof. solve_decision. Defined.

Definition Session_Lifecycle (session : Session) : Lifecycle :=
  mkLifecycle (SessionState session) (ResumeState session) (SessionEndReason session).

Definition Validate (session : Session) : option Error :=
  refuse ErrInvalidID when (negb (Domain.UUIDv7_Valid (ID session))) ;;
  refuse ErrInvalidDeviceID when (negb (Domain.DeviceID_Valid (DeviceID session))) ;;
  refuse ErrInvalidClientKind when (negb (ClientKind_Valid (SessionClientKind session))) ;;
  refuse ErrInvalidAgentProfileID
    when (match AgentProfileID session with
          | Some profile =>
              negb (utf8_ValidString profile) || (strlen profile <? 1)%N ||
              (MaxAgentProfileIDBytes <? strlen profile)%N
          | None => false
          end) ;;
  check Lifecycle_Validate (Session_Lifecycle session) ;;
  refuse ErrInvalidWorkingRootID when (negb (Domain.UUIDv7_Valid (WorkingRootID session))) ;;
  refuse ErrInvalidEntityVersion
    when ((EntityVersion session <? 1)%N ||
          negb (Domain.ValidUnsignedInteger (EntityVersion session))) ;;
  None.

(** ** The lifecycle as a step relation *)

(** [step from to]: some operation of the source takes [from] to [to]. *)
Definition step (from to : Lifecycle) : Prop :=
  ∃ operation, ValidateTransition operation from to = None.

Lemma session_transition_inv op from to :
  ValidateTransition op from to = None →
  Lifecycle_Validate to = None ∧ legalTransition op from to = true ∧
  (LState from = StateAbsent ∨ Lifecycle_Validate from = None).
Proof.
  unfold ValidateTransition. intros H. chain_inv H. bools.
  split; [done|]. split; [done|].
  case_bool_decide as Hf; [by left|by right].
Qed.

Lemma ended_final op from to : LState from = StateEnded → ValidateTransition op from to ≠ None.
Proof.
  intros Hf H. pose proof H as (_ & Hl & _)%session_transition_inv.
  destruct from as [s r e]; simpl in *; subst. destruct op; simpl in Hl; bools; try naive_solver.
Qed.

(** Every lifecycle reached by steps is well formed. *)
Lemma step_valid from to : step from to → Lifecycle_Validate to = None.
Proof. by intros [op (? & _)%session_transition_inv]. Qed.

Lemma reachable_valid l : rtc step zero_lifecycle l → l = zero_lifecycle ∨ Lifecycle_Validate l = None.
Proof.
  intros [->|(x & _ & Hs)]%rtc_inv_r; [by left|]. right. by apply step_valid in Hs.
Qed.

Lemma session_valid_inv session :
  Validate session = None →
  Domain.UUIDv7_Valid (ID session) = true ∧ Domain.DeviceID_Valid (DeviceID session) = true ∧
  Lifecycle_Validate (Session_Lifecycle session) = None ∧
  (1 ≤ EntityVersion session ≤ Domain.MaxSafeInteger)%N.
Proof.
  unfold Validate. intros H. chain_inv H. unfold Domain.ValidUnsignedInteger in *. bools.
  destruct Hc5. split_and!; try done; lia.
Qed.

End AgentSession.
