(* ===== verification/VoterSetEntity.v ===== *)
(** * Package internal/domain/voterset: the committed consensus target

    [Module VoterSet] models voterset.go. The fixed-capacity voter array is the
    list of its first [voterCount] entries. *)

From stdpp Require Import base gmap strings list sorting.
From Stdlib Require Import NArith Lia.
From S2P Require Import Prelude.
From S2P Require Import GoLib.
From S2P Require Import DomainValues.

Module VoterSet.

Definition MaxVoters : N := 5.

Inductive Error :=
  | ErrInvalidSessionID | ErrInvalidVoterCount | ErrInvalidVoterDeviceID | ErrVotersNotSortedUnique
  | ErrInvalidVoterSetVersion | ErrInvalidOperation | ErrInvalidTransition | ErrSessionChanged
  | ErrTargetUnchanged | ErrTargetChanged | ErrInvalidVersionChange | ErrInvalidRevocationTarget
  | ErrInvalidRecoveryTarget.

#[global] Instance Error_eq_dec : EqDecision Error.
Proof. solve_decision. Defined.

Record Set_ := mkSet {
  SessionID : string;
  VoterSetVersion : N;
  voterDeviceIDs : list string }.

#[global] Instance Set_eq_dec : EqDecision Set_.
Proof. solve_decision. Defined.

Inductive Operation :=
  | OperationChange | OperationTargetVoterRevocation | OperationNonvoterRevocation
  | OperationRecoveryReset
  | OperationUnknown (text : string).

Definition Operation_Valid (operation : Operation) : bool :=
  match operation with OperationUnknown _ => false | _ => true end.

Definition validVoterCount (count : N) : bool := ((count =? 1) || (count =? 3) || (count =? 5))%N.

Definition voterCount (set : Set_) : N := llen (voterDeviceIDs set).

Definition Validate (set : Set_) : option Error :=
  refuse ErrInvalidSessionID when (negb (Domain.UUIDv7_Valid (SessionID set))) ;;
  refuse ErrInvalidVoterSetVersion
    when ((VoterSetVersion set <? 1)%N || negb (Domain.ValidUnsignedInteger (VoterSetVersion set))) ;;
  refuse ErrInvalidVoterCount when (negb (validVoterCount (voterCount set))) ;;
  scan_sorted id
    (λ voter, refuse ErrInvalidVoterDeviceID when (negb (Domain.DeviceID_Valid voter)) ;; None)
    ErrVotersNotSortedUnique None (voterDeviceIDs set).

Definition New (sessionID : string) (voters : list string) (version : N) : Error + Set_ :=
  if negb (validVoterCount (llen voters)) then inl ErrInvalidVoterCount else
  let set := mkSet sessionID version voters in
  match Validate set with Some err => inl err | None => inr set end.

Definition is_valid (set : Set_) : bool := if Validate set is None then true else false.

Definition Contains (set : Set_) (deviceID : string) : bool :=
  if negb (Domain.DeviceID_Valid deviceID) || negb (is_valid set) then false
  else bool_decide (deviceID ∈ voterDeviceIDs set).

Definition SameTarget (set other : Set_) : bool :=
  if negb (is_valid set) || negb (is_valid other) || negb (voterCount set =? voterCount other)%N
  then false
  else voterDeviceIDs set == voterDeviceIDs other.

Definition nextLowerVoterCount (count : N) : N :=
  match count with 5 => 3 | 3 => 1 | _ => 0 end%N.

Definition targetContains (superset subset : Set_) : bool :=
  forallb (Contains superset) (voterDeviceIDs subset).

Definition validateSameSession (before after : Set_) : option Error :=
  refuse ErrSessionChanged when (SessionID after != SessionID before) ;; None.

Definition versionAdvances (before after : Set_) : option Error :=
  refuse ErrInvalidVersionChange
    when ((Domain.MaxSafeInteger <=? VoterSetVersion before)%N ||
          negb (VoterSetVersion after =? u64_succ (VoterSetVersion before))%N) ;; None.

(** An invalid operand is reported with the transition sentinel, which the
    source wraps together with the operand's own. *)
Definition ValidateTransition (operation : Operation) (before after : Set_) : option Error :=
  refuse ErrInvalidOperation when (negb (Operation_Valid operation)) ;;
  refuse ErrInvalidTransition when (negb (is_valid before)) ;;
  refuse ErrInvalidTransition when (negb (is_valid after)) ;;
  match operation with
  | OperationChange =>
      check validateSameSession before after ;;
      check versionAdvances before after ;;
      refuse ErrTargetUnchanged when (SameTarget before after) ;; None
  | OperationTargetVoterRevocation =>
      check validateSameSession before after ;;
      check versionAdvances before after ;;
      refuse ErrInvalidRevocationTarget
        when (negb (voterCount after =? nextLowerVoterCount (voterCount before))%N ||
              negb (targetContains before after)) ;; None
  | OperationNonvoterRevocation =>
      check validateSameSession before after ;;
      refuse ErrInvalidVersionChange
        when (negb (VoterSetVersion after =? VoterSetVersion before)%N) ;;
      refuse ErrTargetChanged when (negb (SameTarget before after)) ;; None
  | OperationRecoveryReset =>
      refuse ErrInvalidTransition
        when ((SessionID after == SessionID before) || negb (VoterSetVersion after =? 1)%N) ;;
      refuse ErrInvalidRecoveryTarget when (negb (voterCount after =? 1)%N) ;; None
  | OperationUnknown _ => Some ErrInvalidOperation
  end.

(** ** Lemmas *)

Lemma is_valid_None set : is_valid set = true ↔ Validate set = None.
Proof. unfold is_valid. destruct (Validate set); naive_solver. Qed.

Lemma voters_valid_inv set :
  Validate set = None →
  Domain.UUIDv7_Valid (SessionID set) = true ∧
  (1 ≤ VoterSetVersion set ≤ Domain.MaxSafeInteger)%N ∧
  (voterCount set = 1 ∨ voterCount set = 3 ∨ voterCount set = 5)%N ∧
  Forall (λ v, Domain.DeviceID_Valid v = true) (voterDeviceIDs set) ∧
  StronglySorted str_lt (voterDeviceIDs set) ∧ NoDup (voterDeviceIDs set).
Proof.
  unfold Validate. intros H. chain_inv H. unfold Domain.ValidUnsignedInteger, validVoterCount in *.
  bools. apply scan_sorted_None in H as [Hall Hs]. rewrite list_fmap_id in Hs.
  split; [done|]. split; [lia|]. split; [tauto|]. split; [|split; [done|by apply sorted_lt_NoDup]].
  eapply Forall_impl; [exact Hall|]. intros v Hv. simpl in Hv. chain_inv Hv. by bools.
Qed.

Lemma Contains_elem set device :
  Validate set = None → Contains set device = true ↔ device ∈ voterDeviceIDs set.
Proof.
  intros Hv. unfold Contains. rewrite (proj2 (is_valid_None set) Hv).
  destruct (Domain.DeviceID_Valid device) eqn:Hd; simpl; [apply decide_true|].
  split; [done|]. intros Hin.
  apply voters_valid_inv in Hv as (_ & _ & _ & Hall & _).
  rewrite Forall_forall in Hall. specialize (Hall _ Hin). congruence.
Qed.

Lemma SameTarget_eq set other :
  Validate set = None → Validate other = None →
  SameTarget set other = true ↔ voterDeviceIDs set = voterDeviceIDs other.
Proof.
  intros H1 H2. unfold SameTarget. rewrite !(proj2 (is_valid_None _)) by done.
  unfold voterCount. destruct (llen (voterDeviceIDs set) =? llen (voterDeviceIDs other))%N eqn:E; simpl.
  - apply decide_true.
  - split; [done|]. intros Heq. rewrite Heq in E. bools. done.
Qed.

Lemma voters_transition_valid op before after :
  ValidateTransition op before after = None → Validate before = None ∧ Validate after = None.
Proof.
  unfold ValidateTransition. intros H. chain_inv H. bools. by rewrite <-!is_valid_None.
Qed.

Lemma versionAdvances_succ before after :
  versionAdvances before after = None →
  (VoterSetVersion before < Domain.MaxSafeInteger)%N ∧
  (VoterSetVersion after = VoterSetVersion before + 1)%N.
Proof.
  unfold versionAdvances. intros H. chain_inv H. bools. destruct Hc as [Hlt ->].
  split; [done|]. apply u64_succ_small. unfold Domain.MaxSafeInteger, u64_modulus in *. lia.
Qed.

End VoterSet.
