(* ===== verification/DeviceEntity.v ===== *)
(** * Package internal/domain/device: device membership

    [Module Device]: the entity, its validator and the SemVer grammar
    (device.go), and the lifecycle table with its field rules (lifecycle.go).
    Public keys are byte lists; SHA-256 is [CryptoLib]. *)

From stdpp Require Import base gmap strings list sorting.
From Stdlib Require Import NArith Lia Ascii.
From S2P Require Import Prelude.
From S2P Require Import GoLib.
From S2P Require Import DomainValues.

Module Device.

(** ** device.go *)

Definition MaxDaemonVersionBytes : N := 64.
Definition PublicKeySize : N := 32.

Inductive Role := RoleOwner | RoleEditor | RoleUnknown (text : string).

#[global] Instance Role_eq_dec : EqDecision Role.
Proof. solve_decision. Defined.

Definition Role_of (text : string) : Role :=
  if text == "owner" then RoleOwner else if text == "editor" then RoleEditor else RoleUnknown text.

Definition Role_Valid (role : Role) : bool := (role == RoleOwner) || (role == RoleEditor).

Inductive Status :=
  | StatusAbsent | StatusActive | StatusRequiresReadmission | StatusRevoked
  | StatusUnknown (text : string).

#[global] Instance Status_eq_dec : EqDecision Status.
Proof. solve_decision. Defined.

Definition Status_Valid (status : Status) : bool :=
  match status with
  | StatusActive | StatusRequiresReadmission | StatusRevoked => true
  | _ => false
  end.

Definition Status_Terminal (status : Status) : bool := status == StatusRevoked.

Record Device := mkDevice {
  ID : string;
  DeviceRole : Role;
  IdentityPublicKey : list N;
  DaemonVersion : string;
  MaxApplyLevel : N;
  DeviceStatus : Status;
  EntityVersion : N }.

#[global] Instance Device_eq_dec : EqDecision Device.
Proof. solve_decision. Defined.

Inductive Error :=
  | ErrInvalidID | ErrInvalidRole | ErrInvalidIdentityPublicKey | ErrDeviceIDMismatch
  | ErrInvalidDaemonVersion | ErrInvalidMaxApplyLevel | ErrInvalidEntityVersion
  | ErrInvalidStatus | ErrInvalidOperation | ErrInvalidTransition | ErrIdentityChanged
  | ErrInvalidVersionTransition | ErrUnexpectedMutation | ErrRequiredMutation.

#[global] Instance Error_eq_dec : EqDecision Error.
Proof. solve_decision. Defined.

Definition isSemVerIdentifierByte (char : N) : bool :=
  in_range 48 57 char || in_range 65 90 char || in_range 97 122 char || (char =? 45)%N.

Definition validIdentifier (rejectNumericLeadingZero : bool) (identifier : string) : bool :=
  (identifier != EmptyString) &&
  all_bytes isSemVerIdentifierByte identifier &&
  negb (rejectNumericLeadingZero && all_bytes Domain.is_digit identifier &&
        (1 <? strlen identifier)%N && (byte_at 0 identifier =? 48)%N).

Definition validIdentifierList (list_ : string) (rejectNumericLeadingZero : bool) : bool :=
  if list_ == EmptyString then false
  else forallb (validIdentifier rejectNumericLeadingZero) (Split dot list_).

Definition validNumericIdentifier (identifier : string) : bool :=
  if (identifier == EmptyString) || (1 <? strlen identifier)%N && (byte_at 0 identifier =? 48)%N
  then false
  else all_bytes Domain.is_digit identifier.

Definition ValidDaemonVersion (version : string) : bool :=
  if (strlen version =? 0)%N || (MaxDaemonVersionBytes <? strlen version)%N then false else
  let after_build :=
    match Cut "+"%char version with
    | Some (before, build) => if validIdentifierList build false then Some before else None
    | None => Some version
    end in
  match after_build with
  | None => false
  | Some coreAndPrerelease =>
      let after_prerelease :=
        match Cut "-"%char coreAndPrerelease with
        | Some (before, prerelease) => if validIdentifierList prerelease true then Some before else None
        | None => Some coreAndPrerelease
        end in
      match after_prerelease with
      | None => false
      | Some core =>
          let parts := Split dot core in
          (llen parts =? 3)%N && forallb validNumericIdentifier parts
      end
  end.

Section Crypto.
Context `{CryptoLib}.

(** [inl] is the error return. *)
Definition DeriveID (publicKey : list N) : Error + string :=
  if negb (llen publicKey =? PublicKeySize)%N then inl ErrInvalidIdentityPublicKey
  else inr ("cc1" +:+ hex_encode (Sum256 publicKey)).

Definition Validate (device : Device) : option Error :=
  refuse ErrInvalidID when (negb (Domain.DeviceID_Valid (ID device))) ;;
  match DeriveID (IdentityPublicKey device) with
  | inl err => Some err
  | inr derivedID =>
      refuse ErrDeviceIDMismatch when (ID device != derivedID) ;;
      refuse ErrInvalidRole when (negb (Role_Valid (DeviceRole device))) ;;
      refuse ErrInvalidDaemonVersion when (negb (ValidDaemonVersion (DaemonVersion device))) ;;
      refuse ErrInvalidMaxApplyLevel
        when ((MaxApplyLevel device <? 1)%N || (Domain.MaxApplyLevel <? MaxApplyLevel device)%N) ;;
      refuse ErrInvalidStatus when (negb (Status_Valid (DeviceStatus device))) ;;
      refuse ErrInvalidEntityVersion
        when ((EntityVersion device <? 1)%N ||
              negb (Domain.ValidUnsignedInteger (EntityVersion device))) ;;
      None
  end.

(** ** lifecycle.go *)

Inductive Operation :=
  | OperationAdmission | OperationReadmission | OperationVersionReport | OperationRoleChange
  | OperationOwnerRecovery | OperationRevocation | OperationRecoveryRetain
  | OperationRecoveryDemotion | OperationRecoveryPreserve
  | OperationUnknown (text : string).

#[global] Instance Operation_eq_dec : EqDecision Operation.
Proof. solve_decision. Defined.

Definition Operation_Valid (operation : Operation) : bool :=
  match operation with OperationUnknown _ => false | _ => true end.

Definition legalTransitions (operation : Operation) : list (Status * Status) :=
  match operation with
  | OperationAdmission => [(StatusAbsent, StatusActive)]
  | OperationReadmission => [(StatusRequiresReadmission, StatusActive)]
  | OperationVersionReport => [(StatusActive, StatusActive)]
  | OperationRoleChange => [(StatusActive, StatusActive)]
  | OperationOwnerRecovery => [(StatusActive, StatusActive)]
  | OperationRevocation =>
      [(StatusActive, StatusRevoked); (StatusRequiresReadmission, StatusRevoked)]
  | OperationRecoveryRetain => [(StatusActive, StatusActive)]
  | OperationRecoveryDemotion =>
      [(StatusActive, StatusRequiresReadmission);
       (StatusRequiresReadmission, StatusRequiresReadmission)]
  | OperationRecoveryPreserve => [(StatusRevoked, StatusRevoked)]
  | OperationUnknown _ => []
  end.

Definition recoveryBoundary (operation : Operation) : bool :=
  match operation with
  | OperationRecoveryRetain | OperationRecoveryDemotion | OperationRecoveryPreserve => true
  | _ => false
  end.

Definition sameVersionReport (left right : Device) : bool :=
  (DaemonVersion left == DaemonVersion right) && (MaxApplyLevel left =? MaxApplyLevel right)%N.

(** The version rule and the field rules for an existing row. *)
Definition validateVersion (operation : Operation) (before after : Device) : option Error :=
  if recoveryBoundary operation then
    refuse ErrInvalidVersionTransition when (negb (EntityVersion after =? 1)%N) ;; None
  else
    refuse ErrInvalidVersionTransition
      when ((Domain.MaxSafeInteger <=? EntityVersion before)%N ||
            negb (EntityVersion after =? u64_succ (EntityVersion before))%N) ;; None.

Definition validateMutation (operation : Operation) (before after : Device) : option Error :=
  match operation with
  | OperationReadmission => None
  | OperationVersionReport =>
      refuse ErrUnexpectedMutation when (DeviceRole before != DeviceRole after) ;;
      refuse ErrRequiredMutation when (sameVersionReport before after) ;; None
  | OperationRoleChange =>
      refuse ErrUnexpectedMutation when (negb (sameVersionReport before after)) ;;
      refuse ErrRequiredMutation when (DeviceRole before == DeviceRole after) ;; None
  | OperationOwnerRecovery =>
      refuse ErrUnexpectedMutation when (negb (sameVersionReport before after)) ;;
      refuse ErrRequiredMutation
        when ((DeviceRole before != RoleEditor) || (DeviceRole after != RoleOwner)) ;; None
  | OperationRecoveryRetain =>
      refuse ErrUnexpectedMutation when (negb (sameVersionReport before after)) ;;
      refuse ErrRequiredMutation when (DeviceRole after != RoleOwner) ;; None
  | OperationRevocation | OperationRecoveryDemotion | OperationRecoveryPreserve =>
      refuse ErrUnexpectedMutation
        when ((DeviceRole before != DeviceRole after) || negb (sameVersionReport before after)) ;; None
  | _ => Some ErrInvalidOperation
  end.

Definition ValidateTransition (operation : Operation) (before : option Device) (after : Device)
    : option Error :=
  refuse ErrInvalidOperation when (negb (Operation_Valid operation)) ;;
  let from := match before with Some b => DeviceStatus b | None => StatusAbsent end in
  refuse ErrInvalidStatus when (match before with Some _ => negb (Status_Valid from) | None => false end) ;;
  refuse ErrInvalidStatus when (negb (Status_Valid (DeviceStatus after))) ;;
  refuse ErrInvalidTransition
    when (negb (bool_decide ((from, DeviceStatus after) ∈ legalTransitions operation))) ;;
  check match before with
        | Some b =>
            check Validate b ;;
            refuse ErrIdentityChanged
              when ((ID b != ID after) || (IdentityPublicKey b != IdentityPublicKey after)) ;; None
        | None => None
        end ;;
  check Validate after ;;
  match before with
  | None => refuse ErrInvalidVersionTransition when (negb (EntityVersion after =? 1)%N) ;; None
  | Some b =>
      check validateVersion operation b after ;;
      validateMutation operation b after
  end.

End Crypto.

(** ** Lemmas *)

Section Lemmas.
Context `{CryptoLib}.

Lemma device_valid_inv device :
  Validate device = None →
  Domain.DeviceID_Valid (ID device) = true ∧
  DeriveID (IdentityPublicKey device) = inr (ID device) ∧
  Role_Valid (DeviceRole device) = true ∧ Status_Valid (DeviceStatus device) = true ∧
  (1 ≤ EntityVersion device ≤ Domain.MaxSafeInteger)%N.
Proof.
  unfold Validate. intros Hv. chain_inv Hv. destruct (DeriveID _) as [|d] eqn:Hd; [done|].
  chain_inv Hv. unfold Domain.ValidUnsignedInteger in *. bools. subst.
  destruct Hc5. split_and!; try done; lia.
Qed.

(** The identity, the key and revocation are permanent. *)
Lemma device_transition_identity op before after :
  ValidateTransition op (Some before) after = None →
  ID after = ID before ∧ IdentityPublicKey after = IdentityPublicKey before ∧
  (DeviceStatus before = StatusRevoked → DeviceStatus after = StatusRevoked) ∧
  Validate before = None ∧ Validate after = None.
Proof.
  unfold ValidateTransition. cbv beta iota zeta. intros Hv. chain_inv Hv. chain_inv Hc3. bools.
  destruct Hc7 as [Hid Hkey].
  split; [congruence|]. split; [congruence|]. split; [|done].
  intros Hr. rewrite Hr in Hc2. destruct op; simpl in Hc2; set_solver.
Qed.

Lemma validateVersion_succ op before after :
  validateVersion op before after = None →
  if recoveryBoundary op then EntityVersion after = 1%N
  else (EntityVersion before < Domain.MaxSafeInteger)%N ∧
       EntityVersion after = (EntityVersion before + 1)%N.
Proof.
  unfold validateVersion. destruct (recoveryBoundary op); intros Hv; chain_inv Hv; bools; [done|].
  destruct Hc as [Hlt ->]. split; [done|].
  apply u64_succ_small. unfold Domain.MaxSafeInteger, u64_modulus in *. lia.
Qed.
End Lemmas.

End Device.
