(* ===== verification/PlanMemoryEntity.v ===== *)
(** * Packages internal/domain/plan and internal/domain/memory

    [Module Plan]: immutable plan revisions and the current-plan pointer
    (plan/plan.go). [Module Memory]: immutable shared-context records and
    supersession compatibility (memory/memory.go). *)

From stdpp Require Import base gmap strings list sorting.
From Stdlib Require Import NArith Lia.
From S2P Require Import Prelude.
From S2P Require Import GoLib.
From S2P Require Import DomainValues.

Module Plan.

Definition MaxTitleBytes : N := 200.
Definition MaxBodyBytes : N := 65536.
Definition MaxTaskIDs : N := 512.

Inductive Error :=
  | ErrInvalidRevisionID | ErrInvalidSupersedes | ErrSelfSupersession | ErrInvalidTitle
  | ErrInvalidBody | ErrTooManyTaskIDs | ErrInvalidTaskID | ErrTaskIDsNotSortedUnique
  | ErrInvalidProposerDeviceID | ErrInvalidCreatedAt | ErrInvalidSessionID
  | ErrInvalidCurrentRevisionID | ErrInvalidEntityVersion | ErrInvalidUnselectedVersion
  | ErrInvalidOperation | ErrInvalidTransition | ErrCurrentSessionChanged
  | ErrCurrentRevisionRequired | ErrInvalidVersionTransition.

#[global] Instance Error_eq_dec : EqDecision Error.
Proof. solve_decision. Defined.

Definition validUTF8Bytes (value : string) (minimum maximum : N) : bool :=
  (utf8_ValidString value && (minimum <=? strlen value) && (strlen value <=? maximum))%N.

Record Revision := mkRevision {
  id_ : string;
  supersedes : string;
  title : string;
  body : string;
  taskIDs : list string;
  proposedByDeviceID : string;
  createdAt : string }.

#[global] Instance Revision_eq_dec : EqDecision Revision.
Proof. solve_decision. Defined.

Definition Revision_Validate (revision : Revision) : option Error :=
  refuse ErrInvalidRevisionID when (negb (Domain.UUIDv7_Valid (id_ revision))) ;;
  check (if supersedes revision != EmptyString then
           refuse ErrInvalidSupersedes when (negb (Domain.UUIDv7_Valid (supersedes revision))) ;;
           refuse ErrSelfSupersession when (supersedes revision == id_ revision) ;; None
         else None) ;;
  refuse ErrInvalidTitle when (negb (validUTF8Bytes (title revision) 1 MaxTitleBytes)) ;;
  refuse ErrInvalidBody when (negb (validUTF8Bytes (body revision) 0 MaxBodyBytes)) ;;
  refuse ErrTooManyTaskIDs when (MaxTaskIDs <? llen (taskIDs revision))%N ;;
  check scan_sorted id
    (λ taskID, refuse ErrInvalidTaskID when (negb (Domain.UUIDv7_Valid taskID)) ;; None)
    ErrTaskIDsNotSortedUnique None (taskIDs revision) ;;
  refuse ErrInvalidProposerDeviceID
    when (negb (Domain.DeviceID_Valid (proposedByDeviceID revision))) ;;
  refuse ErrInvalidCreatedAt when (negb (Domain.Timestamp_Valid (createdAt revision))) ;;
  None.

Definition NewRevision (id supersedes title body : string) (taskIDs : list string)
    (proposedByDeviceID createdAt : string) : Error + Revision :=
  let revision := mkRevision id supersedes title body taskIDs proposedByDeviceID createdAt in
  match Revision_Validate revision with Some err => inl err | None => inr revision end.

Record Current := mkCurrent {
  SessionID : string;
  RevisionID : string;
  EntityVersion : N }.

#[global] Instance Current_eq_dec : EqDecision Current.
Proof. solve_decision. Defined.

Inductive Operation := OperationSelect | OperationRecoveryReset | OperationUnknown (text : string).

Definition Operation_Valid (operation : Operation) : bool :=
  match operation with OperationUnknown _ => false | _ => true end.

Definition Current_Validate (current : Current) : option Error :=
  refuse ErrInvalidSessionID when (negb (Domain.UUIDv7_Valid (SessionID current))) ;;
  refuse ErrInvalidCurrentRevisionID
    when ((RevisionID current != EmptyString) && negb (Domain.UUIDv7_Valid (RevisionID current))) ;;
  refuse ErrInvalidEntityVersion
    when ((EntityVersion current <? 1)%N ||
          negb (Domain.ValidUnsignedInteger (EntityVersion current))) ;;
  refuse ErrInvalidUnselectedVersion
    when ((RevisionID current == EmptyString) && negb (EntityVersion current =? 1)%N) ;;
  None.

(** A refused operand is reported with the transition sentinel. *)
Definition ValidateTransition (operation : Operation) (before after : Current) : option Error :=
  refuse ErrInvalidOperation when (negb (Operation_Valid operation)) ;;
  refuse ErrInvalidTransition when (if Current_Validate before is Some _ then true else false) ;;
  refuse ErrInvalidTransition when (if Current_Validate after is Some _ then true else false) ;;
  match operation with
  | OperationSelect =>
      refuse ErrCurrentSessionChanged when (SessionID after != SessionID before) ;;
      refuse ErrCurrentRevisionRequired when (RevisionID after == EmptyString) ;;
      refuse ErrInvalidVersionTransition
        when ((Domain.MaxSafeInteger <=? EntityVersion before)%N ||
              negb (EntityVersion after =? u64_succ (EntityVersion before))%N) ;;
      None
  | OperationRecoveryReset =>
      refuse ErrInvalidTransition
        when ((SessionID after == SessionID before) || (RevisionID after != RevisionID before) ||
              negb (EntityVersion after =? 1)%N) ;;
      None
  | OperationUnknown _ => Some ErrInvalidOperation
  end.

End Plan.

Module Memory.

Definition MaxKeyBytes : N := 128.
Definition MaxBodyBytes : N := 16384.

Inductive Scope := ScopeSession | ScopeTask | ScopeUnknown (text : string).

#[global] Instance Scope_eq_dec : EqDecision Scope.
Proof. solve_decision. Defined.

Definition Scope_of (text : string) : Scope :=
  if text == "session" then ScopeSession
  else if text == "task" then ScopeTask else ScopeUnknown text.

Definition Scope_Valid (scope : Scope) : bool := (scope == ScopeSession) || (scope == ScopeTask).

Inductive Error :=
  | ErrInvalidID | ErrInvalidScope | ErrInvalidTaskID | ErrInvalidKey | ErrInvalidBody
  | ErrInvalidSupersedes | ErrSelfSupersession | ErrInvalidCreatedAt | ErrPredecessorMismatch
  | ErrIncompatiblePredecessor.

#[global] Instance Error_eq_dec : EqDecision Error.
Proof. solve_decision. Defined.

Record Record_ := mkRecord {
  id_ : string;
  scope : Scope;
  taskID : string;
  key : string;
  body : string;
  supersedes : string;
  createdAt : string }.

#[global] Instance Record_eq_dec : EqDecision Record_.
Proof. solve_decision. Defined.

Definition Validate (record : Record_) : option Error :=
  refuse ErrInvalidID when (negb (Domain.UUIDv7_Valid (id_ record))) ;;
  refuse ErrInvalidScope when (negb (Scope_Valid (scope record))) ;;
  check match scope record with
        | ScopeSession => refuse ErrInvalidTaskID when (taskID record != EmptyString) ;; None
        | ScopeTask => refuse ErrInvalidTaskID when (negb (Domain.UUIDv7_Valid (taskID record))) ;; None
        | ScopeUnknown _ => None
        end ;;
  refuse ErrInvalidKey when (negb (Plan.validUTF8Bytes (key record) 1 MaxKeyBytes)) ;;
  refuse ErrInvalidBody when (negb (Plan.validUTF8Bytes (body record) 0 MaxBodyBytes)) ;;
  check (if supersedes record != EmptyString then
           refuse ErrInvalidSupersedes when (negb (Domain.UUIDv7_Valid (supersedes record))) ;;
           refuse ErrSelfSupersession when (supersedes record == id_ record) ;; None
         else None) ;;
  refuse ErrInvalidCreatedAt when (negb (Domain.Timestamp_Valid (createdAt record))) ;;
  None.

Definition NewRecord (id : string) (scope : Scope) (taskID key body supersedes createdAt : string)
    : Error + Record_ :=
  let record := mkRecord id scope taskID key body supersedes createdAt in
  match Validate record with Some err => inl err | None => inr record end.

Definition ValidatePredecessor (successor predecessor : Record_) : option Error :=
  refuse ErrSelfSupersession when (id_ successor == id_ predecessor) ;;
  check Validate successor ;;
  check Validate predecessor ;;
  refuse ErrPredecessorMismatch
    when ((supersedes successor == EmptyString) || (supersedes successor != id_ predecessor)) ;;
  refuse ErrIncompatiblePredecessor
    when ((scope successor != scope predecessor) || (taskID successor != taskID predecessor) ||
          (key successor != key predecessor)) ;;
  None.

End Memory.
