(* ===== verification/PolicyEntity.v ===== *)
(** * Packages internal/domain/policy and internal/domain/auditcounter

    [Module Policy]: the mutable session policy (policy/policy.go).
    [Module AuditCounter]: the per-device audit counter (auditcounter/counter.go).
    [int64] values are [Z]. *)

From stdpp Require Import base gmap strings list sorting.
From Stdlib Require Import ZArith NArith Lia.
From S2P Require Import Prelude.
From S2P Require Import GoLib.
From S2P Require Import DomainValues.

Module Policy.
Local Open Scope Z_scope.

Definition MinCheckpointEvents := 100.
Definition DefaultCheckpointEvents := 500.
Definition MaxCheckpointEvents := 10000.
Definition MinCheckpointIntervalSeconds := 60.
Definition DefaultCheckpointIntervalSeconds := 300.
Definition MaxCheckpointIntervalSeconds := 3600.
Definition MinLeaseTTLSeconds := 30.
Definition DefaultLeaseMinTTLSeconds := 30.
Definition DefaultLeaseTTLSeconds := 900.
Definition DefaultLeaseMaxTTLSeconds := 3600.
Definition MaxLeaseTTLSeconds := 86400.
Definition MinAgentClaimLimit := 1.
Definition DefaultAgentClaimLimit := 8.
Definition MaxAgentClaimLimit := 64.
Definition MinAgentLeaseLimit := 1.
Definition DefaultAgentLeaseLimit := 32.
Definition MaxAgentLeaseLimit := 256.
Definition MinDeviceClaimLimit := 1.
Definition DefaultDeviceClaimLimit := 64.
Definition MaxDeviceClaimLimit := 256.
Definition MinDeviceLeaseLimit := 1.
Definition DefaultDeviceLeaseLimit := 256.
Definition MaxDeviceLeaseLimit := 1024.
Definition MinAdvertisementIntervalSeconds := 5.
Definition DefaultAdvertisementIntervalSeconds := 20.
Definition MaxAdvertisementIntervalSeconds := 300.
Definition MinAuditDepthPerDevicePerEpoch := 16.
Definition DefaultAuditDepthPerDevicePerEpoch := 256.
Definition MaxAuditDepthPerDevicePerEpoch := 1024.
Definition MinMemberDevices := 1.
Definition DefaultMemberDevices := 8.
Definition MaxMemberDevices := 8.
Definition MinActiveAgentSessions := 1.
Definition DefaultActiveAgentSessions := 32.
Definition MaxActiveAgentSessions := 32.
Definition MinClusterMinApplyLevel := 1.
Definition DefaultClusterMinApplyLevel := 1.
Definition MaxClusterMinApplyLevel : Z := Z.of_N Domain.MaxApplyLevel.

Inductive Error :=
  | ErrInvalidSessionID | ErrInvalidEntityVersion | ErrInvalidCheckpointEvents
  | ErrInvalidCheckpointIntervalSeconds | ErrInvalidLeaseMinTTLSeconds
  | ErrInvalidLeaseDefaultTTLSeconds | ErrInvalidLeaseMaxTTLSeconds | ErrInvalidLeaseTTLOrder
  | ErrInvalidAgentClaimLimit | ErrInvalidAgentLeaseLimit | ErrInvalidDeviceClaimLimit
  | ErrInvalidDeviceLeaseLimit | ErrInvalidClaimLimitRelation | ErrInvalidLeaseLimitRelation
  | ErrInvalidAdvertisementIntervalSeconds | ErrInvalidAuditDepthPerDevicePerEpoch
  | ErrInvalidMaxMemberDevices | ErrInvalidMaxActiveAgentSessions | ErrInvalidClusterMinApplyLevel
  | ErrClusterMinApplyLevelDecrease | ErrInvalidOperation | ErrInvalidTransition
  | ErrSessionChanged | ErrInvalidVersionTransition | ErrRecoveryValuesChanged.

#[global] Instance Error_eq_dec : EqDecision Error.
Proof. solve_decision. Defined.

Record Values := mkValues {
  CheckpointEvents : Z;
  CheckpointIntervalSeconds : Z;
  LeaseMinTTLSeconds : Z;
  LeaseDefaultTTLSeconds : Z;
  LeaseMaxTTLSeconds : Z;
  AgentClaimLimit : Z;
  AgentLeaseLimit : Z;
  DeviceClaimLimit : Z;
  DeviceLeaseLimit : Z;
  AdvertisementIntervalSeconds : Z;
  AuditDepthPerDevicePerEpoch : Z;
  MaxMemberDevices_ : Z;
  MaxActiveAgentSessions_ : Z;
  ClusterMinApplyLevel : Z }.

#[global] Instance Values_eq_dec : EqDecision Values.
Proof. solve_decision. Defined.

Definition DefaultValues : Values :=
  mkValues DefaultCheckpointEvents DefaultCheckpointIntervalSeconds DefaultLeaseMinTTLSeconds
    DefaultLeaseTTLSeconds DefaultLeaseMaxTTLSeconds DefaultAgentClaimLimit DefaultAgentLeaseLimit
    DefaultDeviceClaimLimit DefaultDeviceLeaseLimit DefaultAdvertisementIntervalSeconds
    DefaultAuditDepthPerDevicePerEpoch DefaultMemberDevices DefaultActiveAgentSessions
    DefaultClusterMinApplyLevel.

(** The table of [Values.Validate], in the source's order. *)
Definition bounds (values : Values) : list (Z * Z * Z * Error) :=
  [(CheckpointEvents values, MinCheckpointEvents, MaxCheckpointEvents, ErrInvalidCheckpointEvents);
   (CheckpointIntervalSeconds values, MinCheckpointIntervalSeconds, MaxCheckpointIntervalSeconds,
    ErrInvalidCheckpointIntervalSeconds);
   (LeaseMinTTLSeconds values, MinLeaseTTLSeconds, MaxLeaseTTLSeconds, ErrInvalidLeaseMinTTLSeconds);
   (LeaseDefaultTTLSeconds values, MinLeaseTTLSeconds, MaxLeaseTTLSeconds,
    ErrInvalidLeaseDefaultTTLSeconds);
   (LeaseMaxTTLSeconds values, MinLeaseTTLSeconds, MaxLeaseTTLSeconds, ErrInvalidLeaseMaxTTLSeconds);
   (AgentClaimLimit values, MinAgentClaimLimit, MaxAgentClaimLimit, ErrInvalidAgentClaimLimit);
   (AgentLeaseLimit values, MinAgentLeaseLimit, MaxAgentLeaseLimit, ErrInvalidAgentLeaseLimit);
   (DeviceClaimLimit values, MinDeviceClaimLimit, MaxDeviceClaimLimit, ErrInvalidDeviceClaimLimit);
   (DeviceLeaseLimit values, MinDeviceLeaseLimit, MaxDeviceLeaseLimit, ErrInvalidDeviceLeaseLimit);
   (AdvertisementIntervalSeconds values, MinAdvertisementIntervalSeconds,
    MaxAdvertisementIntervalSeconds, ErrInvalidAdvertisementIntervalSeconds);
   (AuditDepthPerDevicePerEpoch values, MinAuditDepthPerDevicePerEpoch,
    MaxAuditDepthPerDevicePerEpoch, ErrInvalidAuditDepthPerDevicePerEpoch);
   (MaxMemberDevices_ values, MinMemberDevices, MaxMemberDevices, ErrInvalidMaxMemberDevices);
   (MaxActiveAgentSessions_ values, MinActiveAgentSessions, MaxActiveAgentSessions,
    ErrInvalidMaxActiveAgentSessions);
   (ClusterMinApplyLevel values, MinClusterMinApplyLevel, MaxClusterMinApplyLevel,
    ErrInvalidClusterMinApplyLevel)].

Definition Values_Validate (values : Values) : option Error :=
  check scan_entries
    (λ '(value, min, max, err), refuse err when ((value <? min) || (max <? value)) ;; None)
    (bounds values) ;;
  refuse ErrInvalidLeaseTTLOrder
    when ((LeaseDefaultTTLSeconds values <? LeaseMinTTLSeconds values) ||
          (LeaseMaxTTLSeconds values <? LeaseDefaultTTLSeconds values)) ;;
  refuse ErrInvalidClaimLimitRelation when (DeviceClaimLimit values <? AgentClaimLimit values) ;;
  refuse ErrInvalidLeaseLimitRelation when (DeviceLeaseLimit values <? AgentLeaseLimit values) ;;
  None.

Record Policy := mkPolicy {
  SessionID : string;
  PolicyValues : Values;
  EntityVersion : N }.

#[global] Instance Policy_eq_dec : EqDecision Policy.
Proof. solve_decision. Defined.

Inductive Operation := OperationChange | OperationRecoveryReset | OperationUnknown (text : string).

Definition Operation_Valid (operation : Operation) : bool :=
  match operation with OperationUnknown _ => false | _ => true end.

Definition Validate (policy : Policy) : option Error :=
  refuse ErrInvalidSessionID when (negb (Domain.UUIDv7_Valid (SessionID policy))) ;;
  refuse ErrInvalidEntityVersion
    when ((EntityVersion policy <? 1)%N ||
          negb (Domain.ValidUnsignedInteger (EntityVersion policy))) ;;
  Values_Validate (PolicyValues policy).

Definition ValidateClusterMinApplyLevelChange (current next : Z) : option Error :=
  refuse ErrInvalidClusterMinApplyLevel
    when ((current <? MinClusterMinApplyLevel) || (MaxClusterMinApplyLevel <? current)) ;;
  refuse ErrInvalidClusterMinApplyLevel
    when ((next <? MinClusterMinApplyLevel) || (MaxClusterMinApplyLevel <? next)) ;;
  refuse ErrClusterMinApplyLevelDecrease when (next <? current) ;;
  None.

(** A refused operand is reported with the transition sentinel. *)
Definition ValidateTransition (operation : Operation) (before after : Policy) : option Error :=
  refuse ErrInvalidOperation when (negb (Operation_Valid operation)) ;;
  refuse ErrInvalidTransition when (if Validate before is Some _ then true else false) ;;
  refuse ErrInvalidTransition when (if Validate after is Some _ then true else false) ;;
  match operation with
  | OperationChange =>
      refuse ErrSessionChanged when (SessionID after != SessionID before) ;;
      refuse ErrInvalidVersionTransition
        when ((Domain.MaxSafeInteger <=? EntityVersion before)%N ||
              negb (EntityVersion after =? u64_succ (EntityVersion before))%N) ;;
      ValidateClusterMinApplyLevelChange
        (ClusterMinApplyLevel (PolicyValues before)) (ClusterMinApplyLevel (PolicyValues after))
  | OperationRecoveryReset =>
      refuse ErrInvalidTransition
        when ((SessionID after == SessionID before) || negb (EntityVersion after =? 1)%N) ;;
      refuse ErrRecoveryValuesChanged when (PolicyValues after != PolicyValues before) ;;
      None
  | OperationUnknown _ => Some ErrInvalidOperation
  end.

(** ** Lemmas *)

Lemma DefaultValues_valid : Values_Validate DefaultValues = None.
Proof. reflexivity. Qed.

Lemma Values_Validate_limits values :
  Values_Validate values = None →
  1 ≤ AgentClaimLimit values ≤ DeviceClaimLimit values ∧ DeviceClaimLimit values ≤ 256 ∧
  1 ≤ AgentLeaseLimit values ≤ DeviceLeaseLimit values ∧ DeviceLeaseLimit values ≤ 1024 ∧
  30 ≤ LeaseMinTTLSeconds values ≤ LeaseDefaultTTLSeconds values ∧
  LeaseDefaultTTLSeconds values ≤ LeaseMaxTTLSeconds values ≤ 86400 ∧
  1 ≤ ClusterMinApplyLevel values.
Proof.
  unfold Values_Validate. intros H. chain_inv H. apply scan_entries_None in Hc.
  unfold bounds in Hc. rewrite !Forall_cons in Hc.
  repeat match goal with Hx : _ ∧ _ |- _ => destruct Hx end.
  repeat match goal with Hx : (if _ then Some _ else _) = None |- _ => chain_inv Hx end.
  unfold MinAgentClaimLimit, MaxDeviceClaimLimit, MinAgentLeaseLimit, MaxDeviceLeaseLimit,
    MinLeaseTTLSeconds, MaxLeaseTTLSeconds, MinClusterMinApplyLevel in *.
  bools. lia.
Qed.

Lemma policy_valid_inv policy :
  Validate policy = None →
  Values_Validate (PolicyValues policy) = None ∧ (1 ≤ EntityVersion policy ≤ Domain.MaxSafeInteger)%N.
Proof.
  unfold Validate. intros H. chain_inv H. unfold Domain.ValidUnsignedInteger in *. bools.
  split; [done|]. lia.
Qed.

End Policy.

Module AuditCounter.

Definition MaxAcceptedCount : N := 1024.

Inductive Error := ErrInvalidDeviceID | ErrInvalidCredentialEpoch | ErrInvalidAcceptedCount.

Record Counter := mkCounter {
  DeviceID : string;
  CredentialEpoch : N;
  AcceptedCount : N }.

#[global] Instance Counter_eq_dec : EqDecision Counter.
Proof. solve_decision. Defined.

Definition Validate (counter : Counter) : option Error :=
  refuse ErrInvalidDeviceID when (negb (Domain.DeviceID_Valid (DeviceID counter))) ;;
  refuse ErrInvalidCredentialEpoch
    when (negb (Domain.ValidUnsignedInteger (CredentialEpoch counter))) ;;
  refuse ErrInvalidAcceptedCount when (MaxAcceptedCount <? AcceptedCount counter)%N ;;
  None.

End AuditCounter.
