(* ===== verification/ConflictEntity.v ===== *)
(** * Package internal/domain/conflict: merge conflicts

    [Module Conflict]: the entity and its validators (conflict.go), the
    lifecycle and redetection comparison (state.go), and the identity preimage
    (identity.go). *)

From stdpp Require Import base gmap strings list sorting.
From Stdlib Require Import NArith Lia.
From S2P Require Import Prelude.
From S2P Require Import GoLib.
From S2P Require Import DomainValues.

Module Conflict.

Definition MaxMergeBaseOIDs : N := 16.
Definition MaxPaths : N := 2048.
Definition MaxForceReasonBytes : N := 1024.

Inductive MergeKind := MergeKindMerge | MergeKindRebase | MergeKindUnknown (text : string).

#[global] Instance MergeKind_eq_dec : EqDecision MergeKind.
Proof. solve_decision. Defined.

Definition MergeKind_of (text : string) : MergeKind :=
  if text == "merge" then MergeKindMerge
  else if text == "rebase" then MergeKindRebase else MergeKindUnknown text.

Definition MergeKind_Valid (kind : MergeKind) : bool :=
  (kind == MergeKindMerge) || (kind == MergeKindRebase).

Inductive Status := StatusUnresolved | StatusResolved | StatusUnknown (text : string).

#[global] Instance Status_eq_dec : EqDecision Status.
Proof. solve_decision. Defined.

Definition Status_Valid (status : Status) : bool :=
  (status == StatusUnresolved) || (status == StatusResolved).

Definition Status_Terminal (status : Status) : bool := status == StatusResolved.

Inductive ResolutionKind :=
  | ResolutionKindAbsent | ResolutionKindPublication | ResolutionKindForced
  | ResolutionKindUnknown (text : string).

#[global] Instance ResolutionKind_eq_dec : EqDecision ResolutionKind.
Proof. solve_decision. Defined.

Definition ResolutionKind_Valid (kind : ResolutionKind) : bool :=
  (kind == ResolutionKindPublication) || (kind == ResolutionKindForced).

Inductive Operation :=
  | OperationDetect | OperationPublicationResolve | OperationForceResolve
  | OperationUnknown (text : string).

#[global] Instance Operation_eq_dec : EqDecision Operation.
Proof. solve_decision. Defined.

Definition Operation_Valid (operation : Operation) : bool :=
  match operation with OperationUnknown _ => false | _ => true end.

Inductive RedetectionComparison :=
  | RedetectionIdentical | RedetectionImmutableTupleMismatch | RedetectionPathMismatch.

#[global] Instance RedetectionComparison_eq_dec : EqDecision RedetectionComparison.
Proof. solve_decision. Defined.

Inductive Error :=
  | ErrInvalidID | ErrInvalidPublicationID | ErrInvalidMergeKind | ErrInvalidReplayCommitOID
  | ErrInvalidMergeBaseOIDs | ErrMergeBaseOIDsNotSortedUnique | ErrInvalidCanonicalCommit
  | ErrInvalidCandidateCommit | ErrGitObjectFormatMismatch | ErrInvalidPaths
  | ErrPathsNotSortedUnique | ErrInvalidResolutionPublicationID | ErrInvalidForceReason
  | ErrInvalidResolverDeviceID | ErrInvalidEntityVersion
  | ErrInvalidStatus | ErrInvalidResolutionKind | ErrInvalidOperation | ErrInvalidTransition
  | ErrInvalidVersionTransition | ErrImmutableTupleChanged | ErrDetectorPathsChanged
  | ErrInvalidWorkspaceID | ErrInvalidMergeInputsVersion.

#[global] Instance Error_eq_dec : EqDecision Error.
Proof. solve_decision. Defined.

Record Detection := mkDetection {
  ID : string;
  PublicationID : string;
  DMergeKind : MergeKind;
  ReplayCommitOID : string;
  MergeBaseOIDs : list string;
  CanonicalCommit : string;
  CandidateCommit : string;
  Paths : list string }.

#[global] Instance Detection_eq_dec : EqDecision Detection.
Proof. solve_decision. Defined.

(** The immutable fields of the row are grouped as its detection view. *)
Record Conflict := mkConflict {
  detectionView : Detection;
  CStatus : Status;
  CResolutionKind : ResolutionKind;
  ResolutionPublicationID : string;
  ForceReason : string;
  ResolvedByDeviceID : string;
  EntityVersion : N }.

#[global] Instance Conflict_eq_dec : EqDecision Conflict.
Proof. solve_decision. Defined.

Definition validUTF8ByteLength (value : string) (minimum maximum : N) : bool :=
  (utf8_ValidString value && (minimum <=? strlen value) && (strlen value <=? maximum))%N.

Definition validateGraph (publicationID : string) (mergeKind : MergeKind) (replayCommitOID : string)
    (mergeBaseOIDs : list string) (canonicalCommit candidateCommit : string) : option Error :=
  refuse ErrInvalidPublicationID when (negb (Domain.UUIDv7_Valid publicationID)) ;;
  refuse ErrInvalidMergeKind when (negb (MergeKind_Valid mergeKind)) ;;
  check match mergeKind with
        | MergeKindMerge => refuse ErrInvalidReplayCommitOID when (replayCommitOID != EmptyString) ;; None
        | MergeKindRebase =>
            refuse ErrInvalidReplayCommitOID when (negb (Domain.GitOID_Valid replayCommitOID)) ;; None
        | MergeKindUnknown _ => None
        end ;;
  refuse ErrInvalidCanonicalCommit when (negb (Domain.GitOID_Valid canonicalCommit)) ;;
  refuse ErrInvalidCandidateCommit when (negb (Domain.GitOID_Valid candidateCommit)) ;;
  refuse ErrInvalidMergeBaseOIDs when (MaxMergeBaseOIDs <? llen mergeBaseOIDs)%N ;;
  check scan_sorted id
    (λ oid, refuse ErrInvalidMergeBaseOIDs when (negb (Domain.GitOID_Valid oid)) ;; None)
    ErrMergeBaseOIDsNotSortedUnique None mergeBaseOIDs ;;
  let objectFormat := Domain.GitOID_ObjectFormat canonicalCommit in
  refuse ErrGitObjectFormatMismatch
    when (Domain.GitOID_ObjectFormat candidateCommit != objectFormat) ;;
  refuse ErrGitObjectFormatMismatch
    when ((replayCommitOID != EmptyString) &&
          (Domain.GitOID_ObjectFormat replayCommitOID != objectFormat)) ;;
  scan_entries
    (λ oid, refuse ErrGitObjectFormatMismatch
              when (Domain.GitOID_ObjectFormat oid != objectFormat) ;; None)
    mergeBaseOIDs.

Section Paths.
Context `{NormLib}.

Definition validatePaths (paths : list string) : option Error :=
  refuse ErrInvalidPaths when (MaxPaths <? llen paths)%N ;;
  scan_sorted id
    (λ path, refuse ErrInvalidPaths when (negb (Domain.RepositoryPath_Valid path)) ;; None)
    ErrPathsNotSortedUnique None paths.

Definition Detection_Validate (detection : Detection) : option Error :=
  refuse ErrInvalidID when (negb (Domain.ConflictID_Valid (ID detection))) ;;
  check validateGraph (PublicationID detection) (DMergeKind detection) (ReplayCommitOID detection)
    (MergeBaseOIDs detection) (CanonicalCommit detection) (CandidateCommit detection) ;;
  validatePaths (Paths detection).

Definition validateResolution (value : Conflict) : option Error :=
  if CStatus value == StatusUnresolved then
    refuse ErrInvalidResolutionKind when (CResolutionKind value != ResolutionKindAbsent) ;;
    refuse ErrInvalidResolutionPublicationID
      when (ResolutionPublicationID value != EmptyString) ;;
    refuse ErrInvalidForceReason when (ForceReason value != EmptyString) ;;
    refuse ErrInvalidResolverDeviceID when (ResolvedByDeviceID value != EmptyString) ;;
    None
  else
    refuse ErrInvalidResolutionKind when (negb (ResolutionKind_Valid (CResolutionKind value))) ;;
    check match CResolutionKind value with
          | ResolutionKindPublication =>
              refuse ErrInvalidResolutionPublicationID
                when (negb (Domain.UUIDv7_Valid (ResolutionPublicationID value))) ;;
              refuse ErrInvalidForceReason when (ForceReason value != EmptyString) ;; None
          | ResolutionKindForced =>
              refuse ErrInvalidResolutionPublicationID
                when (ResolutionPublicationID value != EmptyString) ;;
              refuse ErrInvalidForceReason
                when (negb (validUTF8ByteLength (ForceReason value) 1 MaxForceReasonBytes)) ;; None
          | _ => None
          end ;;
    refuse ErrInvalidResolverDeviceID
      when (negb (Domain.DeviceID_Valid (ResolvedByDeviceID value))) ;;
    None.

Definition Validate (value : Conflict) : option Error :=
  check Detection_Validate (detectionView value) ;;
  refuse ErrInvalidStatus when (negb (Status_Valid (CStatus value))) ;;
  check validateResolution value ;;
  refuse ErrInvalidEntityVersion
    when ((EntityVersion value <? 1)%N || negb (Domain.ValidUnsignedInteger (EntityVersion value))) ;;
  None.

(** ** state.go *)

Definition compareDetection (left right : Detection) : RedetectionComparison :=
  if (ID left != ID right) || (PublicationID left != PublicationID right) ||
     (DMergeKind left != DMergeKind right) || (ReplayCommitOID left != ReplayCommitOID right) ||
     (MergeBaseOIDs left != MergeBaseOIDs right) ||
     (CanonicalCommit left != CanonicalCommit right) ||
     (CandidateCommit left != CandidateCommit right)
  then RedetectionImmutableTupleMismatch
  else if Paths left != Paths right then RedetectionPathMismatch
  else RedetectionIdentical.

(** [inl] is the error return. *)
Definition CompareRedetection (existing : Conflict) (incoming : Detection)
    : Error + RedetectionComparison :=
  match Validate existing with
  | Some err => inl err
  | None =>
      match Detection_Validate incoming with
      | Some err => inl err
      | None => inr (compareDetection (detectionView existing) incoming)
      end
  end.

Definition sameMutableFields (left right : Conflict) : bool :=
  (CStatus left == CStatus right) && (CResolutionKind left == CResolutionKind right) &&
  (ResolutionPublicationID left == ResolutionPublicationID right) &&
  (ForceReason left == ForceReason right) &&
  (ResolvedByDeviceID left == ResolvedByDeviceID right) &&
  (EntityVersion left =? EntityVersion right)%N.

Definition validateDetectTransition (before : option Conflict) (after : Conflict) : option Error :=
  match before with
  | None =>
      refuse ErrInvalidTransition when (CStatus after != StatusUnresolved) ;;
      refuse ErrInvalidVersionTransition when (negb (EntityVersion after =? 1)%N) ;; None
  | Some before =>
      match compareDetection (detectionView before) (detectionView after) with
      | RedetectionImmutableTupleMismatch => Some ErrImmutableTupleChanged
      | RedetectionPathMismatch => Some ErrDetectorPathsChanged
      | RedetectionIdentical =>
          refuse ErrInvalidTransition when (negb (sameMutableFields before after)) ;; None
      end
  end.

Definition validateResolve (operation : Operation) (before after : Conflict) : option Error :=
  refuse ErrInvalidTransition
    when ((CStatus before != StatusUnresolved) || (CStatus after != StatusResolved)) ;;
  check match operation with
        | OperationPublicationResolve =>
            refuse ErrInvalidTransition when (CResolutionKind after != ResolutionKindPublication) ;; None
        | OperationForceResolve =>
            refuse ErrInvalidTransition when (CResolutionKind after != ResolutionKindForced) ;; None
        | _ => None
        end ;;
  refuse ErrInvalidVersionTransition
    when ((Domain.MaxSafeInteger <=? EntityVersion before)%N ||
          negb (EntityVersion after =? u64_succ (EntityVersion before))%N) ;;
  None.

Definition ValidateTransition (operation : Operation) (before : option Conflict) (after : Conflict)
    : option Error :=
  refuse ErrInvalidOperation when (negb (Operation_Valid operation)) ;;
  check match before with Some b => Validate b | None => None end ;;
  check Validate after ;;
  match operation with
  | OperationDetect => validateDetectTransition before after
  | _ =>
      match before with
      | None => Some ErrInvalidTransition
      | Some b =>
          match compareDetection (detectionView b) (detectionView after) with
          | RedetectionImmutableTupleMismatch => Some ErrImmutableTupleChanged
          | RedetectionPathMismatch => Some ErrDetectorPathsChanged
          | RedetectionIdentical => validateResolve operation b after
          end
      end
  end.

End Paths.

(** ** identity.go *)

Record IdentityInput := mkIdentityInput {
  workspaceID : string;
  mergeInputsVersion : N;
  iMergeKind : MergeKind;
  iPublicationID : string;
  iReplayCommitOID : string;
  iMergeBaseOIDs : list string;
  iCanonicalCommit : string;
  iCandidateCommit : string }.

Definition IdentityInput_Validate (input : IdentityInput) : option Error :=
  refuse ErrInvalidWorkspaceID when (negb (Domain.UUIDv4_Valid (workspaceID input))) ;;
  refuse ErrInvalidMergeInputsVersion
    when ((mergeInputsVersion input <? 1)%N ||
          negb (Domain.ValidUnsignedInteger (mergeInputsVersion input))) ;;
  validateGraph (iPublicationID input) (iMergeKind input) (iReplayCommitOID input)
    (iMergeBaseOIDs input) (iCanonicalCommit input) (iCandidateCommit input).

Definition NewIdentityInput (workspaceID : string) (mergeInputsVersion : N) (mergeKind : MergeKind)
    (publicationID replayCommitOID : string) (mergeBaseOIDs : list string)
    (canonicalCommit candidateCommit : string) : Error + IdentityInput :=
  let input := mkIdentityInput workspaceID mergeInputsVersion mergeKind publicationID
                 replayCommitOID mergeBaseOIDs canonicalCommit candidateCommit in
  if negb (Domain.UUIDv4_Valid workspaceID) then inl ErrInvalidWorkspaceID
  else if (mergeInputsVersion <? 1)%N || negb (Domain.ValidUnsignedInteger mergeInputsVersion)
  then inl ErrInvalidMergeInputsVersion
  else match validateGraph publicationID mergeKind replayCommitOID mergeBaseOIDs
               canonicalCommit candidateCommit with
       | Some err => inl err
       | None => inr input
       end.

Definition Detection_IdentityInput (detection : Detection) (workspaceID : string)
    (mergeInputsVersion : N) : Error + IdentityInput :=
  NewIdentityInput workspaceID mergeInputsVersion (DMergeKind detection) (PublicationID detection)
    (ReplayCommitOID detection) (MergeBaseOIDs detection) (CanonicalCommit detection)
    (CandidateCommit detection).

(** ** Lemmas *)

Lemma compareDetection_identical l r : compareDetection l r = RedetectionIdentical ↔ l = r.
Proof.
  unfold compareDetection. destruct l, r; simpl.
  repeat case_bool_decide; simplify_eq/=; split; first [done | intros [=]; done].
Qed.

Section Lemmas.
Context `{NormLib}.

Lemma conflict_transition_valid op before after :
  ValidateTransition op before after = None → Validate after = None.
Proof. unfold ValidateTransition. intros Hv. by chain_inv Hv. Qed.

Lemma sameMutableFields_eq l r :
  detectionView l = detectionView r → sameMutableFields l r = true → l = r.
Proof.
  destruct l, r; simpl; unfold sameMutableFields; simpl. intros ->.
  rewrite !andb_true_iff, N.eqb_eq, !bool_decide_eq_true. intros [[[[[-> ->] ->] ->] ->] ->]. done.
Qed.

(** A row that exists keeps its detection; only a resolution changes it. *)
Lemma conflict_transition_existing op before after :
  ValidateTransition op (Some before) after = None →
  detectionView after = detectionView before ∧
  (after = before ∨
   (CStatus before = StatusUnresolved ∧ CStatus after = StatusResolved ∧
    EntityVersion after = (EntityVersion before + 1)%N)).
Proof.
  unfold ValidateTransition. cbv beta iota zeta. intros Hv. chain_inv Hv.
  assert (Hcmp : compareDetection (detectionView before) (detectionView after) = RedetectionIdentical).
  { destruct (compareDetection _ _) eqn:Hcmp; [done|..]; exfalso;
      destruct op; simpl in *; rewrite ?Hcmp in Hv; congruence. }
  destruct op; simpl in Hv; rewrite Hcmp in Hv; apply compareDetection_identical in Hcmp; try done.
  - chain_inv Hv. bools. split; [done|]. left. symmetry. by apply sameMutableFields_eq.
  - unfold validateResolve in Hv. chain_inv Hv. bools. split; [done|]. right.
    destruct Hc2 as [-> ->], Hc4 as [Hlt ->]. split_and!; [done..|].
    apply u64_succ_small. unfold Domain.MaxSafeInteger, u64_modulus in *. lia.
  - unfold validateResolve in Hv. chain_inv Hv. bools. split; [done|]. right.
    destruct Hc2 as [-> ->], Hc4 as [Hlt ->]. split_and!; [done..|].
    apply u64_succ_small. unfold Domain.MaxSafeInteger, u64_modulus in *. lia.
Qed.
End Lemmas.

End Conflict.
