(* ===== verification/PublicationEntity.v ===== *)
(** * Package internal/domain/publication: reviewed canonical-ref proposals

    [Module Publication]: the metadata and entity validators (publication.go),
    staging receipts (receipt.go), the canonical pointer (canonical_ref.go) and
    the lifecycle (state.go). *)

From stdpp Require Import base gmap strings list sorting.
From Stdlib Require Import NArith Lia.
From S2P Require Import Prelude.
From S2P Require Import GoLib.
From S2P Require Import DomainValues.

Module Publication.

Definition MaxParentOIDs : N := 16.
Definition MaxPaths : N := 2048.
Definition MaxResolvedConflictIDs : N := 64.
Definition MaxDecisionReasonBytes : N := 1024.
Definition MaxStagingReceipts : N := 5.
Definition CanonicalRefName : string := "refs/codecomm/canonical".

Inductive Error :=
  | ErrInvalidPublicationID | ErrInvalidProposalEventID | ErrInvalidSupersedesPublicationID
  | ErrInvalidTaskID | ErrInvalidAuthorDeviceID | ErrInvalidAuthorAgentSessionID
  | ErrInvalidBaseCommit | ErrInvalidCommitOID | ErrInvalidTreeOID | ErrObjectFormatMismatch
  | ErrInvalidParentOIDs | ErrInvalidPaths | ErrInvalidConflictIDs | ErrInvalidWorkingRootID
  | ErrInvalidReview | ErrInvalidDecisionReason | ErrInvalidCanonicalLineage
  | ErrInvalidEntityVersion
  | ErrInvalidStagingReceipts | ErrInvalidReceiptSessionID | ErrInvalidReceiptWorkspaceID
  | ErrInvalidReceiptVoterDeviceID | ErrInvalidReceiptVoterSetVersion
  | ErrInvalidReceiptResultIndex | ErrInconsistentReceiptContext
  | ErrInvalidCanonicalRefName | ErrInvalidCanonicalCommit | ErrInvalidCanonicalRefVersion
  | ErrInvalidState | ErrInvalidTerminalSource | ErrInvalidOperation | ErrInvalidTransition
  | ErrImmutableMetadataChanged | ErrStagingReceiptsChanged.

#[global] Instance Error_eq_dec : EqDecision Error.
Proof. solve_decision. Defined.

(** ** state.go: the closed value sets *)

Inductive State :=
  | StateProposed | StateApproved | StateApplied | StateRejected | StateWithdrawn
  | StateUnknown (text : string).

#[global] Instance State_eq_dec : EqDecision State.
Proof. solve_decision. Defined.

Definition State_Valid (state : State) : bool :=
  match state with StateUnknown _ => false | _ => true end.

Definition State_Terminal (state : State) : bool :=
  (state == StateApplied) || (state == StateRejected) || (state == StateWithdrawn).

Definition States : list State :=
  [StateProposed; StateApproved; StateApplied; StateRejected; StateWithdrawn].

Inductive TerminalSource :=
  | TerminalSourceAbsent | TerminalSourceReview | TerminalSourceApply
  | TerminalSourceWithdraw | TerminalSourceRecovery | TerminalSourceUnknown (text : string).

#[global] Instance TerminalSource_eq_dec : EqDecision TerminalSource.
Proof. solve_decision. Defined.

Definition TerminalSource_Valid (source : TerminalSource) : bool :=
  match source with TerminalSourceAbsent | TerminalSourceUnknown _ => false | _ => true end.

Inductive ReviewVerdict :=
  | ReviewVerdictAbsent | ReviewVerdictApprove | ReviewVerdictReject
  | ReviewVerdictUnknown (text : string).

#[global] Instance ReviewVerdict_eq_dec : EqDecision ReviewVerdict.
Proof. solve_decision. Defined.

Definition ReviewVerdict_of (text : string) : ReviewVerdict :=
  if text == EmptyString then ReviewVerdictAbsent
  else if text == "approve" then ReviewVerdictApprove
  else if text == "reject" then ReviewVerdictReject else ReviewVerdictUnknown text.

Definition ReviewVerdict_Valid (verdict : ReviewVerdict) : bool :=
  (verdict == ReviewVerdictApprove) || (verdict == ReviewVerdictReject).

Inductive ReviewActorType :=
  | ReviewActorAbsent | ReviewActorAgent | ReviewActorHuman | ReviewActorUnknown (text : string).

#[global] Instance ReviewActorType_eq_dec : EqDecision ReviewActorType.
Proof. solve_decision. Defined.

Definition ReviewActorType_Valid (actorType : ReviewActorType) : bool :=
  (actorType == ReviewActorAgent) || (actorType == ReviewActorHuman).

Definition RecoveryDecisionReason : string :=
  "session recovery invalidated author binding and staging receipts".

Inductive Operation :=
  | OperationReviewApprove | OperationReviewReject | OperationWithdraw | OperationApply
  | OperationRecoveryWithdraw | OperationUnknown (text : string).

#[global] Instance Operation_eq_dec : EqDecision Operation.
Proof. solve_decision. Defined.

Definition Operation_Valid (operation : Operation) : bool :=
  match operation with OperationUnknown _ => false | _ => true end.

Definition legalEdges (operation : Operation) : list (State * State) :=
  match operation with
  | OperationReviewApprove => [(StateProposed, StateApproved)]
  | OperationReviewReject => [(StateProposed, StateRejected); (StateApproved, StateRejected)]
  | OperationWithdraw => [(StateProposed, StateWithdrawn); (StateApproved, StateWithdrawn)]
  | OperationApply => [(StateApproved, StateApplied)]
  | OperationRecoveryWithdraw =>
      [(StateProposed, StateWithdrawn); (StateApproved, StateWithdrawn)]
  | OperationUnknown _ => []
  end.

(** ** publication.go and receipt.go: records *)

(** Digests and signatures are byte strings of their fixed length. *)
Record Metadata := mkMetadata {
  PublicationID : string;
  ProposalEventID : string;
  SupersedesPublicationID : string;
  TaskID : string;
  AuthorDeviceID : string;
  AuthorAgentSessionID : string;
  BaseCommit : string;
  CommitOID : string;
  TreeOID : string;
  ParentOIDs : list string;
  Paths : list string;
  ArtifactDigest : string;
  ResolvesConflictIDs : list string;
  WorkingRootID : string }.

#[global] Instance Metadata_eq_dec : EqDecision Metadata.
Proof. solve_decision. Defined.

Record StagingReceipt := mkStagingReceipt {
  rSessionID : string;
  rWorkspaceID : string;
  rVoterSetVersion : N;
  PublicationMetadataDigest : string;
  VoterDeviceID : string;
  StagedResultIndex : N;
  rSignature : string }.

#[global] Instance StagingReceipt_eq_dec : EqDecision StagingReceipt.
Proof. solve_decision. Defined.

Record Publication := mkPublication {
  Meta : Metadata;
  StagingReceipts : list StagingReceipt;
  PState : State;
  PTerminalSource : TerminalSource;
  CanonicalLineageMember : bool;
  Verdict : ReviewVerdict;
  ReviewerDeviceID : string;
  ReviewerAgentSessionID : string;
  ActorType : ReviewActorType;
  DecisionReason : option string;
  EntityVersion : N }.

#[global] Instance Publication_eq_dec : EqDecision Publication.
Proof. solve_decision. Defined.

Record CanonicalRef := mkCanonicalRef {
  RefName : string;
  RefCommitOID : string;
  RefEntityVersion : N }.

#[global] Instance CanonicalRef_eq_dec : EqDecision CanonicalRef.
Proof. solve_decision. Defined.

(** ** publication.go: metadata *)

Definition Metadata_validateParents (metadata : Metadata)
    (objectFormat : Domain.GitObjectFormat) : option Error :=
  refuse ErrInvalidParentOIDs
    when ((llen (ParentOIDs metadata) <? 1) || (MaxParentOIDs <? llen (ParentOIDs metadata)))%N ;;
  refuse ErrInvalidParentOIDs
    when (head (ParentOIDs metadata) != Some (BaseCommit metadata)) ;;
  scan_entries
    (λ oid, refuse ErrInvalidParentOIDs when (negb (Domain.GitOID_Valid oid)) ;;
            refuse ErrObjectFormatMismatch
              when (Domain.GitOID_ObjectFormat oid != objectFormat) ;; None)
    (ParentOIDs metadata).

Definition Metadata_validateConflictIDs (metadata : Metadata) : option Error :=
  refuse ErrInvalidConflictIDs
    when (MaxResolvedConflictIDs <? llen (ResolvesConflictIDs metadata))%N ;;
  scan_sorted id
    (λ conflictID, refuse ErrInvalidConflictIDs
                     when (negb (Domain.ConflictID_Valid conflictID)) ;; None)
    ErrInvalidConflictIDs None (ResolvesConflictIDs metadata).

(** [Metadata.Equal] compares every field. *)
Definition Metadata_Equal (metadata other : Metadata) : bool := metadata == other.

Section Validators.
Context `{NormLib}.

Definition Metadata_validatePaths (metadata : Metadata) : option Error :=
  refuse ErrInvalidPaths
    when ((llen (Paths metadata) <? 1) || (MaxPaths <? llen (Paths metadata)))%N ;;
  scan_sorted id
    (λ path, refuse ErrInvalidPaths when (negb (Domain.RepositoryPath_Valid path)) ;; None)
    ErrInvalidPaths None (Paths metadata).

Definition Metadata_Validate (metadata : Metadata) : option Error :=
  refuse ErrInvalidPublicationID when (negb (Domain.UUIDv7_Valid (PublicationID metadata))) ;;
  refuse ErrInvalidProposalEventID
    when (negb (Domain.UUIDv7_Valid (ProposalEventID metadata))) ;;
  refuse ErrInvalidSupersedesPublicationID
    when ((SupersedesPublicationID metadata != EmptyString) &&
          (negb (Domain.UUIDv7_Valid (SupersedesPublicationID metadata)) ||
           (SupersedesPublicationID metadata == PublicationID metadata))) ;;
  refuse ErrInvalidTaskID
    when ((TaskID metadata != EmptyString) && negb (Domain.UUIDv7_Valid (TaskID metadata))) ;;
  refuse ErrInvalidAuthorDeviceID when (negb (Domain.DeviceID_Valid (AuthorDeviceID metadata))) ;;
  refuse ErrInvalidAuthorAgentSessionID
    when (negb (Domain.UUIDv7_Valid (AuthorAgentSessionID metadata))) ;;
  refuse ErrInvalidBaseCommit when (negb (Domain.GitOID_Valid (BaseCommit metadata))) ;;
  refuse ErrInvalidCommitOID when (negb (Domain.GitOID_Valid (CommitOID metadata))) ;;
  refuse ErrInvalidTreeOID when (negb (Domain.GitOID_Valid (TreeOID metadata))) ;;
  let objectFormat := Domain.GitOID_ObjectFormat (BaseCommit metadata) in
  refuse ErrObjectFormatMismatch
    when ((Domain.GitOID_ObjectFormat (CommitOID metadata) != objectFormat) ||
          (Domain.GitOID_ObjectFormat (TreeOID metadata) != objectFormat)) ;;
  check Metadata_validateParents metadata objectFormat ;;
  check Metadata_validatePaths metadata ;;
  check Metadata_validateConflictIDs metadata ;;
  refuse ErrInvalidWorkingRootID when (negb (Domain.UUIDv7_Valid (WorkingRootID metadata))) ;;
  None.

(** ** receipt.go *)

Definition StagingReceipt_Validate (receipt : StagingReceipt) : option Error :=
  refuse ErrInvalidReceiptSessionID when (negb (Domain.UUIDv7_Valid (rSessionID receipt))) ;;
  refuse ErrInvalidReceiptWorkspaceID
    when (negb (Domain.UUIDv4_Valid (rWorkspaceID receipt))) ;;
  refuse ErrInvalidReceiptVoterDeviceID
    when (negb (Domain.DeviceID_Valid (VoterDeviceID receipt))) ;;
  refuse ErrInvalidReceiptVoterSetVersion
    when ((rVoterSetVersion receipt <? 1)%N ||
          negb (Domain.ValidUnsignedInteger (rVoterSetVersion receipt))) ;;
  refuse ErrInvalidReceiptResultIndex
    when (negb (Domain.ValidUnsignedInteger (StagedResultIndex receipt))) ;;
  None.

(** [receipts[0]] is fixed by the first iteration, [previous] moves. *)
Fixpoint validateReceiptsFrom (first previous : StagingReceipt) (receipts : list StagingReceipt)
    : option Error :=
  match receipts with
  | [] => None
  | receipt :: rest =>
      check StagingReceipt_Validate receipt ;;
      refuse ErrInvalidStagingReceipts
        when (String.leb (VoterDeviceID receipt) (VoterDeviceID previous)) ;;
      refuse ErrInconsistentReceiptContext
        when ((rSessionID receipt != rSessionID first) ||
              (rWorkspaceID receipt != rWorkspaceID first) ||
              (PublicationMetadataDigest receipt != PublicationMetadataDigest first) ||
              negb (rVoterSetVersion receipt =? rVoterSetVersion first)%N) ;;
      validateReceiptsFrom first receipt rest
  end.

Definition ValidateStagingReceipts (receipts : list StagingReceipt) : option Error :=
  refuse ErrInvalidStagingReceipts when (MaxStagingReceipts <? llen receipts)%N ;;
  match receipts with
  | [] => None
  | first :: rest =>
      check StagingReceipt_Validate first ;;
      validateReceiptsFrom first first rest
  end.

(** ** canonical_ref.go *)

Definition CanonicalRef_Validate (ref : CanonicalRef) : option Error :=
  refuse ErrInvalidCanonicalRefName when (RefName ref != CanonicalRefName) ;;
  refuse ErrInvalidCanonicalCommit when (negb (Domain.GitOID_Valid (RefCommitOID ref))) ;;
  refuse ErrInvalidCanonicalRefVersion
    when ((RefEntityVersion ref <? 1)%N ||
          negb (Domain.ValidUnsignedInteger (RefEntityVersion ref))) ;;
  None.

(** ** publication.go: the entity *)

Definition hasReview (publication : Publication) : bool :=
  (Verdict publication != ReviewVerdictAbsent) &&
  (ReviewerDeviceID publication != EmptyString) &&
  (ActorType publication != ReviewActorAbsent).

Definition validateReview (publication : Publication) : option Error :=
  if (Verdict publication == ReviewVerdictAbsent) &&
     (ReviewerDeviceID publication == EmptyString) &&
     (ReviewerAgentSessionID publication == EmptyString) &&
     (ActorType publication == ReviewActorAbsent)
  then None
  else
    refuse ErrInvalidReview
      when (negb (ReviewVerdict_Valid (Verdict publication)) ||
            negb (Domain.DeviceID_Valid (ReviewerDeviceID publication)) ||
            negb (ReviewActorType_Valid (ActorType publication))) ;;
    match ActorType publication with
    | ReviewActorAgent =>
        refuse ErrInvalidReview
          when (negb (Domain.UUIDv7_Valid (ReviewerAgentSessionID publication))) ;; None
    | ReviewActorHuman =>
        refuse ErrInvalidReview when (ReviewerAgentSessionID publication != EmptyString) ;; None
    | _ => Some ErrInvalidReview
    end.

Definition isSome {A} (value : option A) : bool :=
  match value with Some _ => true | None => false end.

Definition invalidReason (reason : option string) : bool :=
  match reason with
  | None => false
  | Some text =>
      negb (utf8_ValidString text) || (strlen text <? 1)%N ||
      (MaxDecisionReasonBytes <? strlen text)%N
  end.

Definition validateLifecycle (publication : Publication) : option Error :=
  refuse ErrInvalidTerminalSource
    when ((PTerminalSource publication != TerminalSourceAbsent) &&
          negb (TerminalSource_Valid (PTerminalSource publication))) ;;
  refuse ErrInvalidDecisionReason when (invalidReason (DecisionReason publication)) ;;
  match PState publication with
  | StateProposed =>
      refuse ErrInvalidTerminalSource when (PTerminalSource publication != TerminalSourceAbsent) ;;
      refuse ErrInvalidCanonicalLineage when (CanonicalLineageMember publication) ;;
      refuse ErrInvalidReview when (hasReview publication) ;;
      refuse ErrInvalidDecisionReason when (isSome (DecisionReason publication)) ;; None
  | StateApproved =>
      refuse ErrInvalidTerminalSource when (PTerminalSource publication != TerminalSourceAbsent) ;;
      refuse ErrInvalidCanonicalLineage when (CanonicalLineageMember publication) ;;
      refuse ErrInvalidReview
        when ((Verdict publication != ReviewVerdictApprove) || negb (hasReview publication)) ;;
      refuse ErrInvalidDecisionReason when (isSome (DecisionReason publication)) ;; None
  | StateApplied =>
      refuse ErrInvalidTerminalSource when (PTerminalSource publication != TerminalSourceApply) ;;
      refuse ErrInvalidReview
        when ((Verdict publication != ReviewVerdictApprove) || negb (hasReview publication)) ;;
      refuse ErrInvalidDecisionReason when (isSome (DecisionReason publication)) ;; None
  | StateRejected =>
      refuse ErrInvalidTerminalSource when (PTerminalSource publication != TerminalSourceReview) ;;
      refuse ErrInvalidCanonicalLineage when (CanonicalLineageMember publication) ;;
      refuse ErrInvalidReview
        when ((Verdict publication != ReviewVerdictReject) || negb (hasReview publication)) ;;
      refuse ErrInvalidDecisionReason when (isSome (DecisionReason publication)) ;; None
  | StateWithdrawn =>
      refuse ErrInvalidTerminalSource
        when ((PTerminalSource publication != TerminalSourceWithdraw) &&
              (PTerminalSource publication != TerminalSourceRecovery)) ;;
      refuse ErrInvalidCanonicalLineage when (CanonicalLineageMember publication) ;;
      refuse ErrInvalidReview
        when (hasReview publication && (Verdict publication != ReviewVerdictApprove)) ;;
      refuse ErrInvalidDecisionReason
        when ((PTerminalSource publication == TerminalSourceRecovery) &&
              (DecisionReason publication != Some RecoveryDecisionReason)) ;; None
  | StateUnknown _ => Some ErrInvalidState
  end.

Definition Validate (publication : Publication) : option Error :=
  check Metadata_Validate (Meta publication) ;;
  check ValidateStagingReceipts (StagingReceipts publication) ;;
  refuse ErrInvalidState when (negb (State_Valid (PState publication))) ;;
  refuse ErrInvalidEntityVersion
    when ((EntityVersion publication <? 1)%N ||
          negb (Domain.ValidUnsignedInteger (EntityVersion publication))) ;;
  check validateReview publication ;;
  check validateLifecycle publication ;;
  None.

(** ** state.go: transitions *)

Definition sameReview (left right : Publication) : bool :=
  (Verdict left == Verdict right) &&
  (ReviewerDeviceID left == ReviewerDeviceID right) &&
  (ReviewerAgentSessionID left == ReviewerAgentSessionID right) &&
  (ActorType left == ActorType right).

Definition ValidateTransition (operation : Operation) (from to : Publication) : option Error :=
  refuse ErrInvalidOperation when (negb (Operation_Valid operation)) ;;
  check Validate from ;;
  refuse ErrInvalidTransition when (isSome (Validate to)) ;;
  refuse ErrImmutableMetadataChanged when (negb (Metadata_Equal (Meta from) (Meta to))) ;;
  refuse ErrInvalidTransition
    when (negb (bool_decide ((PState from, PState to) ∈ legalEdges operation))) ;;
  refuse ErrInvalidTransition
    when (if operation == OperationRecoveryWithdraw then negb (EntityVersion to =? 1)%N
          else (Domain.MaxSafeInteger <=? EntityVersion from)%N ||
               negb (EntityVersion to =? u64_succ (EntityVersion from))%N) ;;
  refuse ErrStagingReceiptsChanged
    when ((operation != OperationApply) && (StagingReceipts from != StagingReceipts to)) ;;
  match operation with
  | OperationReviewApprove | OperationReviewReject => None
  | OperationWithdraw => refuse ErrInvalidTransition when (negb (sameReview from to)) ;; None
  | OperationApply =>
      refuse ErrInvalidTransition
        when (negb (sameReview from to) || negb (CanonicalLineageMember to)) ;; None
  | OperationRecoveryWithdraw =>
      refuse ErrInvalidTransition
        when (negb (sameReview from to) ||
              (DecisionReason to != Some RecoveryDecisionReason)) ;; None
  | OperationUnknown _ => Some ErrInvalidOperation
  end.

(** ** Lemmas *)

Lemma isSome_false {A} (o : option A) : isSome o = false ↔ o = None.
Proof. destruct o; naive_solver. Qed.

Lemma publication_transition_inv operation from to :
  ValidateTransition operation from to = None →
  Validate from = None ∧ Validate to = None ∧ Meta from = Meta to ∧
  (PState from, PState to) ∈ legalEdges operation ∧
  (operation ≠ OperationRecoveryWithdraw → EntityVersion to = (EntityVersion from + 1)%N) ∧
  (operation ≠ OperationApply → StagingReceipts from = StagingReceipts to) ∧
  (operation = OperationApply → sameReview from to = true ∧ CanonicalLineageMember to = true).
Proof.
  unfold ValidateTransition, Metadata_Equal. cbv beta iota zeta. intros Hv. chain_inv Hv.
  apply isSome_false in Hc1. apply negb_decide_false in Hc2. apply negb_decide_false in Hc3.
  split_and!; try done.
  - intros Hop. rewrite bool_decide_false in Hc4 by done. bools. destruct Hc4 as [Hlt ->].
    apply u64_succ_small. unfold Domain.MaxSafeInteger, u64_modulus in *. lia.
  - intros Hop. rewrite bool_decide_false in Hc5 by done. simpl in Hc5. by bools.
  - intros ->. chain_inv Hv. by bools.
Qed.

(** No operation leaves a terminal state. *)
Lemma legalEdges_nonterminal operation from to :
  (from, to) ∈ legalEdges operation → State_Terminal from = false ∧ State_Valid to = true.
Proof.
  intros He. destruct operation; simpl in He; set_unfold in He; naive_solver.
Qed.

(** An applied row carries a complete approval. *)
Lemma Validate_applied publication :
  Validate publication = None → PState publication = StateApplied →
  Verdict publication = ReviewVerdictApprove ∧
  Domain.DeviceID_Valid (ReviewerDeviceID publication) = true ∧
  PTerminalSource publication = TerminalSourceApply.
Proof.
  unfold Validate. intros Hv Hs. chain_inv Hv.
  unfold validateLifecycle in Hc4. rewrite Hs in Hc4. chain_inv Hc4.
  unfold validateReview in Hc3. bools.
  destruct Hc8 as [Hverdict Hreview]. rewrite Hverdict in *.
  rewrite bool_decide_false in Hc3 by done. simpl in Hc3. chain_inv Hc3.
  bools. naive_solver.
Qed.

End Validators.
End Publication.
