(* ===== verification/CredentialEntity.v ===== *)
(** * Packages credentialauthority, credentialauthorization and controlfile

    [Module CredentialAuthority]: the activated voter authority and its two
    transitions. [Module CredentialAuthorization]: the immutable content
    credential epochs, their time clamps and the endorsement preimage.
    [Module ControlFile]: append-only control-file review proposals. *)

From stdpp Require Import base gmap strings list sorting pretty.
From Stdlib Require Import ZArith NArith Lia.
From S2P Require Import Prelude.
From S2P Require Import GoLib.
From S2P Require Import GoJson.
From S2P Require Import CodecLayer.
From S2P Require Import DomainValues.

Module CredentialAuthority.

Definition MaxVoters : N := 5.

Inductive Error :=
  | ErrInvalidSessionID | ErrInvalidVoterCount | ErrInvalidVoterDeviceID | ErrVotersNotSortedUnique
  | ErrInvalidVoterSetVersion | ErrInvalidActivationSource | ErrInvalidActivationVersion
  | ErrInvalidProofVoter | ErrProofOrder | ErrInvalidProofObject | ErrGenesisHandoffFields
  | ErrHandoffCheckpoint | ErrHandoffProofCount | ErrHandoffPriorAuthority | ErrInvalidOperation
  | ErrInvalidTransition | ErrSessionChanged | ErrAuthorityVersionNotAdvanced
  | ErrActivationSourceNotHandoff | ErrPriorSignerNotAuthority | ErrInvalidRecoveryAuthority.

#[global] Instance Error_eq_dec : EqDecision Error.
Proof. solve_decision. Defined.

Inductive ActivationSource :=
  | ActivationGenesis | ActivationHandoff | ActivationUnknown (text : string).

#[global] Instance ActivationSource_eq_dec : EqDecision ActivationSource.
Proof. solve_decision. Defined.

Definition ActivationSource_Valid (source : ActivationSource) : bool :=
  (source == ActivationGenesis) || (source == ActivationHandoff).

Record ActivationProof := mkActivationProof { VoterDeviceID : string; CanonicalJSON : list N }.

#[global] Instance ActivationProof_eq_dec : EqDecision ActivationProof.
Proof. solve_decision. Defined.

Record Authority := mkAuthority {
  SessionID : string;
  VoterDeviceIDs : list string;
  VoterSetVersion : N;
  Source : ActivationSource;
  ActivationCheckpointEventID : string;
  ActivationProofs : list ActivationProof;
  PriorAuthoritySigner : string;
  PriorAuthorityHandoff : option (list N) }.

#[global] Instance Authority_eq_dec : EqDecision Authority.
Proof. solve_decision. Defined.

Definition validateVoters (ids : list string) : option Error :=
  refuse ErrInvalidVoterCount
    when (negb (llen ids =? 1)%N && negb (llen ids =? 3)%N && negb (llen ids =? MaxVoters)%N) ;;
  scan_sorted id
    (λ voter, refuse ErrInvalidVoterDeviceID when (negb (Domain.DeviceID_Valid voter)) ;; None)
    ErrVotersNotSortedUnique None ids.

(** [json.Unmarshal] into a member map, after the delimiter test. *)
Definition validJSONObject (input : list N) : bool :=
  (2 <=? llen input)%N && (head input == Some 123%N) && (List.last input 0%N =? 125)%N &&
  match JSON.read_value input with
  | Some (JSON.VObject _, rest) => JSON.skip rest == []
  | _ => false
  end.

(** The proof loop: [voters] is what is left of the voter list at the index. *)
Fixpoint validateProofs (proofs : list ActivationProof) (voters : list string) : option Error :=
  match proofs with
  | [] => None
  | proof :: rest =>
      refuse ErrInvalidProofVoter when (negb (Domain.DeviceID_Valid (VoterDeviceID proof))) ;;
      refuse ErrProofOrder when (head voters != Some (VoterDeviceID proof)) ;;
      refuse ErrInvalidProofObject when (negb (validJSONObject (CanonicalJSON proof))) ;;
      validateProofs rest (tail voters)
  end.

Definition is_set {A} (o : option A) : bool := match o with Some _ => true | None => false end.

Definition Validate (authority : Authority) : option Error :=
  refuse ErrInvalidSessionID when (negb (Domain.UUIDv7_Valid (SessionID authority))) ;;
  check validateVoters (VoterDeviceIDs authority) ;;
  refuse ErrInvalidVoterSetVersion
    when ((VoterSetVersion authority <? 1)%N ||
          negb (Domain.ValidUnsignedInteger (VoterSetVersion authority))) ;;
  refuse ErrInvalidActivationSource when (negb (ActivationSource_Valid (Source authority))) ;;
  check validateProofs (ActivationProofs authority) (VoterDeviceIDs authority) ;;
  match Source authority with
  | ActivationGenesis =>
      refuse ErrInvalidActivationVersion when (negb (VoterSetVersion authority =? 1)%N) ;;
      refuse ErrGenesisHandoffFields
        when ((ActivationCheckpointEventID authority != EmptyString) ||
              (ActivationProofs authority != []) ||
              (PriorAuthoritySigner authority != EmptyString) ||
              is_set (PriorAuthorityHandoff authority)) ;;
      None
  | ActivationHandoff =>
      refuse ErrInvalidActivationVersion when (VoterSetVersion authority =? 1)%N ;;
      refuse ErrHandoffCheckpoint
        when (negb (Domain.UUIDv7_Valid (ActivationCheckpointEventID authority))) ;;
      refuse ErrHandoffProofCount
        when (negb (llen (ActivationProofs authority) =? llen (VoterDeviceIDs authority))%N) ;;
      refuse ErrHandoffPriorAuthority
        when (negb (Domain.DeviceID_Valid (PriorAuthoritySigner authority)) ||
              negb (is_set (PriorAuthorityHandoff authority))) ;;
      None
  | ActivationUnknown _ => Some ErrInvalidActivationSource
  end.

Definition is_valid (authority : Authority) : bool := negb (is_set (Validate authority)).

Definition Contains (authority : Authority) (deviceID : string) : bool :=
  if negb (Domain.DeviceID_Valid deviceID) || negb (is_valid authority) then false
  else bool_decide (deviceID ∈ VoterDeviceIDs authority).

Inductive Operation :=
  | OperationActivate | OperationRecoveryReset | OperationUnknown (text : string).

Definition Operation_Valid (operation : Operation) : bool :=
  match operation with OperationUnknown _ => false | _ => true end.

Definition ValidateTransition (operation : Operation) (before after : Authority) : option Error :=
  refuse ErrInvalidOperation when (negb (Operation_Valid operation)) ;;
  refuse ErrInvalidTransition when (negb (is_valid before)) ;;
  refuse ErrInvalidTransition when (negb (is_valid after)) ;;
  match operation with
  | OperationActivate =>
      refuse ErrSessionChanged when (SessionID after != SessionID before) ;;
      refuse ErrActivationSourceNotHandoff when (Source after != ActivationHandoff) ;;
      refuse ErrAuthorityVersionNotAdvanced
        when (VoterSetVersion after <=? VoterSetVersion before)%N ;;
      refuse ErrPriorSignerNotAuthority
        when (negb (Contains before (PriorAuthoritySigner after))) ;;
      None
  | OperationRecoveryReset =>
      refuse ErrInvalidRecoveryAuthority
        when ((SessionID after == SessionID before) || negb (VoterSetVersion after =? 1)%N ||
              (Source after != ActivationGenesis) || negb (llen (VoterDeviceIDs after) =? 1)%N) ;;
      None
  | OperationUnknown _ => Some ErrInvalidOperation
  end.

End CredentialAuthority.

Module CredentialAuthorization.

Definition ValiditySeconds : N := 1800.
Definition OverlapSeconds : N := 120.
Definition RenewalLeadSeconds : N := 300.
Definition MaxEndorsements : N := 5.

Inductive Error :=
  | ErrInvalidSessionID | ErrInvalidDeviceID | ErrInvalidEpoch | ErrKeyDigestMismatch
  | ErrInvalidRole | ErrInvalidTimestamp | ErrNotBeforePrecedesIssuedAt | ErrInvalidValidity
  | ErrInvalidAuthorityVersion | ErrInvalidEndorsementCount | ErrInvalidEndorser
  | ErrEndorsementsNotSorted | ErrInvalidChainIndex | ErrInvalidTransition | ErrIdentityChanged
  | ErrEpochNotAdvanced | ErrIssuedAtBelowRenewalFloor | ErrNotBeforeClampMismatch
  | ErrOperand (err : Error). (* wraps [ErrInvalidTransition] and the operand's sentinel *)

#[global] Instance Error_eq_dec : EqDecision Error.
Proof. unfold EqDecision, Decision. decide equality. Defined.

(** [errors.Is(err, target)] for a sentinel. *)
Fixpoint Error_Is (err target : Error) : bool :=
  match err with
  | ErrOperand inner => (target == ErrInvalidTransition) || Error_Is inner target
  | _ => err == target
  end.

Inductive Role := RoleOwner | RoleEditor | RoleUnknown (text : string).

#[global] Instance Role_eq_dec : EqDecision Role.
Proof. solve_decision. Defined.

Definition Role_of (text : string) : Role :=
  if text == "owner" then RoleOwner else if text == "editor" then RoleEditor
  else RoleUnknown text.

Definition Role_Valid (role : Role) : bool := (role == RoleOwner) || (role == RoleEditor).

(** [Key] is the triple (session, device, epoch). *)
Definition Key : Type := string * string * N.

Record ClockEndorsement := mkClockEndorsement { EDeviceID : string; ESignature : list N }.

#[global] Instance ClockEndorsement_eq_dec : EqDecision ClockEndorsement.
Proof. solve_decision. Defined.

Record Authorization := mkAuthorization {
  SessionID : string;
  DeviceID : string;
  Epoch : N;
  EpochPublicKey : list N;
  KeyDigest : list N;
  ARole : Role;
  IssuedAt : string;
  NotBefore : string;
  AValiditySeconds : N;
  AuthorityVoterSetVersion : N;
  ClockEndorsements : list ClockEndorsement;
  BindingSignature : list N;
  AuthorizationChainIndex : N }.

#[global] Instance Authorization_eq_dec : EqDecision Authorization.
Proof. solve_decision. Defined.

Definition PrimaryKey (authorization : Authorization) : Key :=
  (SessionID authorization, DeviceID authorization, Epoch authorization).

(** [Time()] of a whole-second timestamp, the zero time when it is malformed. *)
Definition time_of (timestamp : string) : Z :=
  match Domain.WholeSecondTimestamp_Time timestamp with
  | Some t => Domain.unix_nano t
  | None => Domain.unix_nano (Domain.mkCivil 1 1 1 0 0 0 0)
  end.

Definition seconds (n : N) : Z := (Z.of_N n * 1000000000)%Z.

Section Crypto.
Context `{CryptoLib}.

Definition Validate (authorization : Authorization) : option Error :=
  refuse ErrInvalidSessionID when (negb (Domain.UUIDv7_Valid (SessionID authorization))) ;;
  refuse ErrInvalidDeviceID when (negb (Domain.DeviceID_Valid (DeviceID authorization))) ;;
  refuse ErrInvalidEpoch
    when ((Epoch authorization <? 1)%N ||
          negb (Domain.ValidUnsignedInteger (Epoch authorization))) ;;
  refuse ErrKeyDigestMismatch
    when (Sum256 (EpochPublicKey authorization) != KeyDigest authorization) ;;
  refuse ErrInvalidRole when (negb (Role_Valid (ARole authorization))) ;;
  refuse ErrInvalidTimestamp
    when (negb (Domain.WholeSecondTimestamp_Valid (IssuedAt authorization)) ||
          negb (Domain.WholeSecondTimestamp_Valid (NotBefore authorization))) ;;
  refuse ErrNotBeforePrecedesIssuedAt
    when (time_of (NotBefore authorization) <? time_of (IssuedAt authorization))%Z ;;
  refuse ErrInvalidValidity
    when (negb (AValiditySeconds authorization =? ValiditySeconds)%N) ;;
  refuse ErrInvalidAuthorityVersion
    when ((AuthorityVoterSetVersion authorization <? 1)%N ||
          negb (Domain.ValidUnsignedInteger (AuthorityVoterSetVersion authorization))) ;;
  refuse ErrInvalidEndorsementCount
    when ((llen (ClockEndorsements authorization) <? 1) ||
          (MaxEndorsements <? llen (ClockEndorsements authorization)))%N ;;
  check scan_sorted EDeviceID
    (λ endorsement, refuse ErrInvalidEndorser
                      when (negb (Domain.DeviceID_Valid (EDeviceID endorsement))) ;; None)
    ErrEndorsementsNotSorted None (ClockEndorsements authorization) ;;
  refuse ErrInvalidChainIndex
    when ((AuthorizationChainIndex authorization <? 1)%N ||
          negb (Domain.ValidUnsignedInteger (AuthorizationChainIndex authorization))) ;;
  None.

(** [at] is the instant; [IsZero] is Go's zero time. *)
Definition ActiveAt (authorization : Authorization) (at_ : Z) : bool :=
  if (at_ =? Domain.unix_nano (Domain.mkCivil 1 1 1 0 0 0 0))%Z ||
     CredentialAuthority.is_set (Validate authorization) then false
  else
    let notBefore := time_of (NotBefore authorization) in
    let expiresAt := (notBefore + seconds (AValiditySeconds authorization))%Z in
    negb (at_ <? notBefore)%Z && (at_ <? expiresAt)%Z.

Definition ValidateTransition (previous : option Authorization) (next : Authorization)
    : option Error :=
  check match Validate next with Some err => Some (ErrOperand err) | None => None end ;;
  match previous with
  | None =>
      refuse ErrEpochNotAdvanced when (negb (Epoch next =? 1)%N) ;;
      refuse ErrNotBeforeClampMismatch when (NotBefore next != IssuedAt next) ;;
      None
  | Some previous =>
      check match Validate previous with Some err => Some (ErrOperand err) | None => None end ;;
      refuse ErrIdentityChanged
        when ((SessionID next != SessionID previous) || (DeviceID next != DeviceID previous)) ;;
      refuse ErrEpochNotAdvanced
        when ((Epoch previous =? Domain.MaxSafeInteger)%N ||
              negb (Epoch next =? u64_succ (Epoch previous))%N) ;;
      let previousNotBefore := time_of (NotBefore previous) in
      let issuedAt := time_of (IssuedAt next) in
      let renewalFloor :=
        (previousNotBefore + seconds (ValiditySeconds - RenewalLeadSeconds))%Z in
      refuse ErrIssuedAtBelowRenewalFloor when (issuedAt <? renewalFloor)%Z ;;
      let overlapFloor := (previousNotBefore + seconds (ValiditySeconds - OverlapSeconds))%Z in
      let expectedNotBefore := if (issuedAt <? overlapFloor)%Z then overlapFloor else issuedAt in
      refuse ErrNotBeforeClampMismatch
        when (negb (time_of (NotBefore next) =? expectedNotBefore)%Z) ;;
      None
  end.

(** ** preimage.go: [json.Marshal] of the wire struct *)

Definition quoted (text : string) : string :=
  String (Ascii.ascii_of_N 34) (text +:+ String (Ascii.ascii_of_N 34) EmptyString).
Definition member (name value : string) : string := quoted name +:+ ":" +:+ value.

Definition CanonicalEndorsementPreimage (authorization : Authorization) : Error + list N :=
  if negb (Domain.UUIDv7_Valid (SessionID authorization)) then inl ErrInvalidSessionID
  else if negb (Domain.DeviceID_Valid (DeviceID authorization)) then inl ErrInvalidDeviceID
  else if (Epoch authorization <? 1)%N ||
          negb (Domain.ValidUnsignedInteger (Epoch authorization)) then inl ErrInvalidEpoch
  else if Sum256 (EpochPublicKey authorization) != KeyDigest authorization
  then inl ErrKeyDigestMismatch
  else if negb (Domain.WholeSecondTimestamp_Valid (IssuedAt authorization))
  then inl ErrInvalidTimestamp
  else if (AuthorityVoterSetVersion authorization <? 1)%N ||
          negb (Domain.ValidUnsignedInteger (AuthorityVoterSetVersion authorization))
  then inl ErrInvalidAuthorityVersion
  else inr (bytes_of
    ("{" +:+ member "authority_voter_set_version" (pretty (AuthorityVoterSetVersion authorization))
     +:+ "," +:+ member "epoch" (pretty (Epoch authorization))
     +:+ "," +:+ member "issued_at" (quoted (IssuedAt authorization))
     +:+ "," +:+ member "key_digest" (quoted (Codec.EncodeBase64URL (KeyDigest authorization)))
     +:+ "," +:+ member "session_id" (quoted (SessionID authorization))
     +:+ "," +:+ member "subject_device_id" (quoted (DeviceID authorization)) +:+ "}")).

(** ** Lemmas *)

Lemma Validate_validity authorization :
  Validate authorization = None → AValiditySeconds authorization = ValiditySeconds.
Proof. unfold Validate. intros Hv. chain_inv Hv. by bools. Qed.

Lemma ActiveAt_interval authorization t :
  ActiveAt authorization t = true →
  Validate authorization = None ∧
  (time_of (NotBefore authorization) ≤ t < time_of (NotBefore authorization) + seconds ValiditySeconds)%Z.
Proof.
  unfold ActiveAt. destruct (Validate authorization) eqn:Hv; simpl; [by rewrite orb_true_r|].
  rewrite orb_false_r. destruct (_ =? _)%Z; [done|]. intros Ha. bools.
  rewrite (Validate_validity _ Hv) in Ha. split; [done|]. lia.
Qed.

(** Consecutive epochs overlap by at most [OverlapSeconds], and the successor
    is issued in the last [RenewalLeadSeconds] of its predecessor or later. *)
Lemma ValidateTransition_clamp previous next :
  ValidateTransition (Some previous) next = None →
  Epoch next = (Epoch previous + 1)%N ∧
  (time_of (NotBefore previous) + seconds ValiditySeconds - seconds OverlapSeconds
     ≤ time_of (NotBefore next))%Z ∧
  (time_of (NotBefore previous) + seconds ValiditySeconds - seconds RenewalLeadSeconds
     ≤ time_of (IssuedAt next))%Z ∧
  (time_of (IssuedAt next) ≤ time_of (NotBefore next))%Z.
Proof.
  unfold ValidateTransition. cbv beta iota zeta. intros Hv. chain_inv Hv. clear Hv Hc.
  assert (Hsmall : (Epoch previous < u64_modulus - 1)%N).
  { destruct (Validate previous) eqn:Hp; [done|]. clear -Hp. unfold Validate in Hp. chain_inv Hp.
    apply orb_false_iff in Hc1 as [_ Hc1]. apply negb_false_iff, N.leb_le in Hc1.
    unfold Domain.MaxSafeInteger, u64_modulus in *. lia. }
  apply orb_false_iff in Hc2 as [_ Hepoch]. apply negb_false_iff, N.eqb_eq in Hepoch.
  apply Z.ltb_ge in Hc3. apply negb_false_iff, Z.eqb_eq in Hc4.
  rewrite Hepoch, u64_succ_small by done. clear Hepoch Hsmall Hc0 Hc1. revert Hc3 Hc4.
  generalize (time_of (NotBefore previous)) (time_of (NotBefore next)) (time_of (IssuedAt next)).
  intros p n i Hfloor ->. split; [done|].
  change (seconds (ValiditySeconds - OverlapSeconds)) with 1680000000000%Z.
  change (seconds (ValiditySeconds - RenewalLeadSeconds)) with 1500000000000%Z in Hfloor.
  change (seconds ValiditySeconds) with 1800000000000%Z.
  change (seconds OverlapSeconds) with 120000000000%Z.
  change (seconds RenewalLeadSeconds) with 300000000000%Z.
  destruct (Z.ltb_spec i (p + 1680000000000)); lia.
Qed.

End Crypto.
End CredentialAuthorization.

Module ControlFile.

Definition MaxContentBytes : N := 1048576.
Definition MaxDiffBytes : N := 65536.

Inductive Error :=
  | ErrInvalidIdentity | ErrInvalidPath | ErrInvalidOperation | ErrInvalidContent | ErrInvalidDiff.

Inductive Operation := OperationUpsert | OperationDelete | OperationUnknown (text : string).

#[global] Instance Operation_eq_dec : EqDecision Operation.
Proof. solve_decision. Defined.

Definition Operation_of (text : string) : Operation :=
  if text == "upsert" then OperationUpsert
  else if text == "delete" then OperationDelete else OperationUnknown text.

Definition Operation_Valid (operation : Operation) : bool :=
  (operation == OperationUpsert) || (operation == OperationDelete).

Record Proposal := mkProposal {
  ProposalEventID : string;
  SessionID : string;
  Path : string;
  POperation : Operation;
  ContentDigest : option (list N);
  ContentSize : N;
  Diff : string;
  ProposedByDeviceID : string;
  ChainIndex : N }.

#[global] Instance Proposal_eq_dec : EqDecision Proposal.
Proof. solve_decision. Defined.

Definition Validate `{NormLib} (proposal : Proposal) : option Error :=
  refuse ErrInvalidIdentity
    when (negb (Domain.UUIDv7_Valid (ProposalEventID proposal)) ||
          negb (Domain.UUIDv7_Valid (SessionID proposal)) ||
          negb (Domain.DeviceID_Valid (ProposedByDeviceID proposal))) ;;
  refuse ErrInvalidIdentity
    when ((ChainIndex proposal <? 1)%N ||
          negb (Domain.ValidUnsignedInteger (ChainIndex proposal))) ;;
  refuse ErrInvalidPath when (negb (Domain.RepositoryPath_Valid (Path proposal))) ;;
  refuse ErrInvalidOperation when (negb (Operation_Valid (POperation proposal))) ;;
  refuse ErrInvalidContent
    when (negb (Domain.ValidUnsignedInteger (ContentSize proposal)) ||
          (MaxContentBytes <? ContentSize proposal)%N) ;;
  check match POperation proposal with
        | OperationUpsert =>
            refuse ErrInvalidContent
              when (negb (CredentialAuthority.is_set (ContentDigest proposal))) ;; None
        | OperationDelete =>
            refuse ErrInvalidContent
              when (CredentialAuthority.is_set (ContentDigest proposal) ||
                    negb (ContentSize proposal =? 0)%N) ;; None
        | OperationUnknown _ => None
        end ;;
  refuse ErrInvalidDiff
    when (negb (utf8_ValidString (Diff proposal)) || (MaxDiffBytes <? strlen (Diff proposal))%N) ;;
  None.

End ControlFile.
