(* ===== verification/EventModel.v ===== *)
(** * Package internal/event: the signed envelope and the kind registry

    [Module Event]: the registry of kinds and their contracts (kind.go), the
    origin block and the bindings that produce it (origin.go), entity ids
    (entity.go), activity reports (activity.go), and the proposal with its
    structural and contract validation (envelope.go). The wire form is in
    EventWire. *)

From stdpp Require Import base gmap strings list sorting.
From Stdlib Require Import ZArith NArith Lia Ascii.
From S2P Require Import Prelude.
From S2P Require Import GoLib.
From S2P Require Import GoJson.
From S2P Require Import CodecLayer.
From S2P Require Import DomainValues.

Module Event.

(** ** kind.go *)

Definition MaxSupportedApplyLevel : N := 1.

Inductive ActorType := ActorAgent | ActorHuman | ActorDaemon | ActorUnknown (text : string).

#[global] Instance ActorType_eq_dec : EqDecision ActorType.
Proof. solve_decision. Defined.

Definition ActorType_of (text : string) : ActorType :=
  if text == "agent" then ActorAgent else if text == "human" then ActorHuman
  else if text == "daemon" then ActorDaemon else ActorUnknown text.

Definition ActorType_text (actor : ActorType) : string :=
  match actor with
  | ActorAgent => "agent" | ActorHuman => "human" | ActorDaemon => "daemon"
  | ActorUnknown text => text
  end.

Definition ActorType_Valid (actor : ActorType) : bool :=
  (actor == ActorAgent) || (actor == ActorHuman) || (actor == ActorDaemon).

Definition ActorTypes : list ActorType := [ActorAgent; ActorHuman; ActorDaemon].

Inductive Kind :=
  | KindTaskCreated | KindTaskUpdated | KindTaskStateChanged | KindTaskClaimed
  | KindTaskReleased | KindTaskReassigned | KindTaskCancelled | KindWorkspaceConflictDetected
  | KindWorkspaceConflictForceResolved | KindWorkspaceConflictResolved | KindPublicationProposed
  | KindPublicationReviewed | KindPublicationApplied | KindPublicationWithdrawn
  | KindPlanRevisionProposed | KindPlanCurrentSelected | KindMemoryAppended
  | KindActivityRecorded | KindLeaseAcquired | KindLeaseRenewed | KindLeaseReleased
  | KindAgentSessionStarted | KindAgentSessionStateChanged | KindAgentSessionEnded
  | KindMembershipDeviceAdmitted | KindMembershipVersionReported | KindMembershipRoleChanged
  | KindMembershipOwnerRecovered | KindMembershipDeviceRevoked | KindMembershipVoterSetChanged
  | KindMembershipVoterSetActivated | KindPolicyChanged | KindCredentialAuthorized
  | KindControlFileChangeProposed | KindConsensusCheckpoint | KindAuditRecorded
  | KindUnknown (text : string).

#[global] Instance Kind_eq_dec : EqDecision Kind.
Proof. solve_decision. Defined.

Definition Kind_text (kind : Kind) : string :=
  match kind with
  | KindTaskCreated => "task.created"
  | KindTaskUpdated => "task.updated"
  | KindTaskStateChanged => "task.state_changed"
  | KindTaskClaimed => "task.claimed"
  | KindTaskReleased => "task.released"
  | KindTaskReassigned => "task.reassigned"
  | KindTaskCancelled => "task.cancelled"
  | KindWorkspaceConflictDetected => "workspace.conflict.detected"
  | KindWorkspaceConflictForceResolved => "workspace.conflict.force_resolved"
  | KindWorkspaceConflictResolved => "workspace.conflict.resolved"
  | KindPublicationProposed => "publication.proposed"
  | KindPublicationReviewed => "publication.reviewed"
  | KindPublicationApplied => "publication.applied"
  | KindPublicationWithdrawn => "publication.withdrawn"
  | KindPlanRevisionProposed => "plan.revision_proposed"
  | KindPlanCurrentSelected => "plan.current_selected"
  | KindMemoryAppended => "memory.appended"
  | KindActivityRecorded => "activity.recorded"
  | KindLeaseAcquired => "lease.acquired"
  | KindLeaseRenewed => "lease.renewed"
  | KindLeaseReleased => "lease.released"
  | KindAgentSessionStarted => "agent.session.started"
  | KindAgentSessionStateChanged => "agent.session.state_changed"
  | KindAgentSessionEnded => "agent.session.ended"
  | KindMembershipDeviceAdmitted => "membership.device_admitted"
  | KindMembershipVersionReported => "membership.version_reported"
  | KindMembershipRoleChanged => "membership.role_changed"
  | KindMembershipOwnerRecovered => "membership.owner_recovered"
  | KindMembershipDeviceRevoked => "membership.device_revoked"
  | KindMembershipVoterSetChanged => "membership.voter_set_changed"
  | KindMembershipVoterSetActivated => "membership.voter_set_activated"
  | KindPolicyChanged => "policy.changed"
  | KindCredentialAuthorized => "credential.authorized"
  | KindControlFileChangeProposed => "control_file.change_proposed"
  | KindConsensusCheckpoint => "consensus.checkpoint"
  | KindAuditRecorded => "audit.recorded"
  | KindUnknown text => text
  end.

Definition registered_kinds : list Kind :=
  [KindTaskCreated; KindTaskUpdated; KindTaskStateChanged; KindTaskClaimed; KindTaskReleased;
   KindTaskReassigned; KindTaskCancelled; KindWorkspaceConflictDetected;
   KindWorkspaceConflictForceResolved; KindWorkspaceConflictResolved; KindPublicationProposed;
   KindPublicationReviewed; KindPublicationApplied; KindPublicationWithdrawn;
   KindPlanRevisionProposed; KindPlanCurrentSelected; KindMemoryAppended; KindActivityRecorded;
   KindLeaseAcquired; KindLeaseRenewed; KindLeaseReleased; KindAgentSessionStarted;
   KindAgentSessionStateChanged; KindAgentSessionEnded; KindMembershipDeviceAdmitted;
   KindMembershipVersionReported; KindMembershipRoleChanged; KindMembershipOwnerRecovered;
   KindMembershipDeviceRevoked; KindMembershipVoterSetChanged; KindMembershipVoterSetActivated;
   KindPolicyChanged; KindCredentialAuthorized; KindControlFileChangeProposed;
   KindConsensusCheckpoint; KindAuditRecorded].

(** A kind read from text: the constant spelled that way. *)
Definition Kind_of (text : string) : Kind :=
  match filter (λ k, Kind_text k = text) registered_kinds with
  | k :: _ => k
  | [] => KindUnknown text
  end.

Inductive RoleRequirement := RoleNone | RoleMember | RoleEditor | RoleOwner.
Inductive CASPolicy := CASForbidden | CASRequired | CASConditional | CASPayload.
Inductive EntityIDType :=
  | EntityUUIDv7 | EntityDeviceID | EntitySessionID | EntityConflictID | EntityRepositoryPath
  | EntityNull.

#[global] Instance RoleRequirement_eq_dec : EqDecision RoleRequirement.
Proof. solve_decision. Defined.

(** [actorMask]: one bit per actor. *)
Definition actorAgentMask : N := 1.
Definition actorHumanMask : N := 2.
Definition actorDaemonMask : N := 4.
Definition actorsAgent : N := actorAgentMask.
Definition actorsHuman : N := actorHumanMask.
Definition actorsDaemon : N := actorDaemonMask.
Definition actorsAgentHuman : N := N.lor actorAgentMask actorHumanMask.
Definition actorsAgentDaemon : N := N.lor actorAgentMask actorDaemonMask.
Definition actorsAgentHumanDaemon : N :=
  N.lor (N.lor actorAgentMask actorHumanMask) actorDaemonMask.

Definition maskForActor (actor : ActorType) : N :=
  match actor with
  | ActorAgent => actorAgentMask
  | ActorHuman => actorHumanMask
  | ActorDaemon => actorDaemonMask
  | ActorUnknown _ => 0
  end.

Record Specification := mkSpecification {
  kind : Kind;
  minimumRole : RoleRequirement;
  actors : N;
  cas : CASPolicy;
  entity : EntityIDType;
  minApplyLevel : N;
  leaderScheduled : bool }.

Definition newSpecification (kind : Kind) (role : RoleRequirement) (actors : N) (cas : CASPolicy)
    (entity : EntityIDType) (leaderScheduled : bool) : Specification :=
  mkSpecification kind role actors cas entity 1 leaderScheduled.

Definition AllowsActor (spec : Specification) (actor : ActorType) : bool :=
  negb (N.land (actors spec) (maskForActor actor) =? 0)%N.

Definition specifications : list Specification :=
  [newSpecification KindTaskCreated RoleEditor actorsAgentHuman CASForbidden EntityUUIDv7 false;
   newSpecification KindTaskUpdated RoleEditor actorsAgentHuman CASRequired EntityUUIDv7 false;
   newSpecification KindTaskStateChanged RoleEditor actorsAgentHuman CASRequired EntityUUIDv7 false;
   newSpecification KindTaskClaimed RoleEditor actorsAgent CASRequired EntityUUIDv7 false;
   newSpecification KindTaskReleased RoleEditor actorsAgentHuman CASRequired EntityUUIDv7 false;
   newSpecification KindTaskReassigned RoleOwner actorsHuman CASRequired EntityUUIDv7 false;
   newSpecification KindTaskCancelled RoleOwner actorsHuman CASRequired EntityUUIDv7 false;
   newSpecification KindWorkspaceConflictDetected RoleEditor actorsDaemon CASForbidden EntityConflictID false;
   newSpecification KindWorkspaceConflictForceResolved RoleOwner actorsHuman CASRequired EntityConflictID false;
   newSpecification KindWorkspaceConflictResolved RoleEditor actorsAgentHuman CASRequired EntityConflictID false;
   newSpecification KindPublicationProposed RoleEditor actorsAgent CASForbidden EntityUUIDv7 false;
   newSpecification KindPublicationReviewed RoleEditor actorsAgentHuman CASRequired EntityUUIDv7 false;
   newSpecification KindPublicationApplied RoleEditor actorsAgentHuman CASRequired EntityUUIDv7 false;
   newSpecification KindPublicationWithdrawn RoleEditor actorsAgentHuman CASRequired EntityUUIDv7 false;
   newSpecification KindPlanRevisionProposed RoleEditor actorsAgentHuman CASForbidden EntityUUIDv7 false;
   newSpecification KindPlanCurrentSelected RoleOwner actorsHuman CASRequired EntitySessionID false;
   newSpecification KindMemoryAppended RoleEditor actorsAgentHuman CASForbidden EntityUUIDv7 false;
   newSpecification KindActivityRecorded RoleEditor actorsAgentHumanDaemon CASForbidden EntityNull false;
   newSpecification KindLeaseAcquired RoleEditor actorsAgent CASForbidden EntityUUIDv7 false;
   newSpecification KindLeaseRenewed RoleEditor actorsAgent CASRequired EntityUUIDv7 false;
   newSpecification KindLeaseReleased RoleEditor actorsAgentHumanDaemon CASRequired EntityUUIDv7 true;
   newSpecification KindAgentSessionStarted RoleEditor actorsAgent CASForbidden EntityUUIDv7 false;
   newSpecification KindAgentSessionStateChanged RoleEditor actorsAgentDaemon CASRequired EntityUUIDv7 false;
   newSpecification KindAgentSessionEnded RoleEditor actorsAgentDaemon CASRequired EntityUUIDv7 false;
   newSpecification KindMembershipDeviceAdmitted RoleOwner actorsHuman CASConditional EntityDeviceID false;
   newSpecification KindMembershipVersionReported RoleMember actorsDaemon CASRequired EntityDeviceID false;
   newSpecification KindMembershipRoleChanged RoleOwner actorsHuman CASRequired EntityDeviceID false;
   newSpecification KindMembershipOwnerRecovered RoleNone actorsHuman CASRequired EntityDeviceID false;
   newSpecification KindMembershipDeviceRevoked RoleOwner actorsHuman CASRequired EntityDeviceID false;
   newSpecification KindMembershipVoterSetChanged RoleOwner actorsHuman CASRequired EntitySessionID false;
   newSpecification KindMembershipVoterSetActivated RoleNone actorsDaemon CASPayload EntitySessionID true;
   newSpecification KindPolicyChanged RoleOwner actorsHuman CASRequired EntitySessionID false;
   newSpecification KindCredentialAuthorized RoleMember actorsDaemon CASForbidden EntityDeviceID true;
   newSpecification KindControlFileChangeProposed RoleEditor actorsAgentHuman CASForbidden EntityRepositoryPath false;
   newSpecification KindConsensusCheckpoint RoleNone actorsDaemon CASForbidden EntityNull true;
   newSpecification KindAuditRecorded RoleNone actorsDaemon CASForbidden EntityNull false].

(** The index is keyed by kind; its construction panics on a duplicate, which
    [specifications_unique] excludes. *)
Definition LookupKind (k : Kind) : option Specification :=
  head (filter (λ spec, kind spec = k) specifications).

Definition Kinds : list Kind := kind <$> specifications.

(** ** activity.go *)

Definition MaxRationaleSummaryBytes : N := 2048.
Definition MaxActions : N := 64.
Definition MaxActionTargetBytes : N := 256.
Definition MaxActionSummaryBytes : N := 1024.
Definition MaxActivityDurationMS : N := 604800000.

Inductive Error :=
  | ErrInvalidEnvelope | ErrInvalidKind | ErrActorNotAllowed | ErrExpectedEntityVersion
  | ErrAgentStartBinding | ErrInvalidPayload | ErrEventTooLarge | ErrOriginKeyMismatch
  | ErrSessionBinding | ErrNoncanonicalEvent | ErrUnknownField | ErrMissingField
  | ErrClientSuppliedOrigin | ErrInvalidEntityID | ErrInvalidOrigin | ErrInvalidOriginSequence
  | ErrInvalidAction | ErrInvalidRedaction | ErrCodec | ErrSignature.

#[global] Instance Error_eq_dec : EqDecision Error.
Proof. solve_decision. Defined.

Inductive CaptureLevel :=
  | CaptureAgentReported | CaptureHumanReported | CaptureDaemonObserved
  | CaptureUnknown (text : string).

#[global] Instance CaptureLevel_eq_dec : EqDecision CaptureLevel.
Proof. solve_decision. Defined.

Definition CaptureLevel_of (text : string) : CaptureLevel :=
  if text == "agent_reported" then CaptureAgentReported
  else if text == "human_reported" then CaptureHumanReported
  else if text == "daemon_observed" then CaptureDaemonObserved else CaptureUnknown text.

Definition CaptureLevel_Valid (level : CaptureLevel) : bool :=
  match level with CaptureUnknown _ => false | _ => true end.

Definition captureLevelForActor (actor : ActorType) : CaptureLevel :=
  match actor with
  | ActorAgent => CaptureAgentReported
  | ActorHuman => CaptureHumanReported
  | ActorDaemon => CaptureDaemonObserved
  | ActorUnknown _ => CaptureUnknown EmptyString
  end.

Inductive ActionType :=
  | ActionFileRead | ActionFileEdit | ActionCommandRun | ActionToolCall | ActionTestRun
  | ActionDecisionRecorded | ActionArtifactCreated | ActionTypeUnknown (text : string).

Definition ActionType_of (text : string) : ActionType :=
  if text == "file.read" then ActionFileRead else if text == "file.edit" then ActionFileEdit
  else if text == "command.run" then ActionCommandRun
  else if text == "tool.call" then ActionToolCall else if text == "test.run" then ActionTestRun
  else if text == "decision.recorded" then ActionDecisionRecorded
  else if text == "artifact.created" then ActionArtifactCreated else ActionTypeUnknown text.

Definition ActionType_Valid (actionType : ActionType) : bool :=
  match actionType with ActionTypeUnknown _ => false | _ => true end.

Inductive ActionStatus :=
  | ActionAttempted | ActionSucceeded | ActionFailed | ActionSkipped
  | ActionStatusUnknown (text : string).

Definition ActionStatus_of (text : string) : ActionStatus :=
  if text == "attempted" then ActionAttempted else if text == "succeeded" then ActionSucceeded
  else if text == "failed" then ActionFailed else if text == "skipped" then ActionSkipped
  else ActionStatusUnknown text.

Definition ActionStatus_Valid (status : ActionStatus) : bool :=
  match status with ActionStatusUnknown _ => false | _ => true end.

Record Action := mkAction {
  AType : ActionType;
  Target : string;
  Summary : string;
  AStatus : ActionStatus;
  ATaskID : option string;
  ArtifactDigest : option (list N);
  StartedAt : option string;
  DurationMS : option N }.

Definition isASCIIAlphaNumeric (char : N) : bool :=
  in_range 65 90 char || in_range 97 122 char || in_range 48 57 char.

Definition validASCIIIdentifier (value : string) (maxBytes : N) (punctuation : string) : bool :=
  match value with
  | EmptyString => false
  | String first rest =>
      (strlen value <=? maxBytes)%N && isASCIIAlphaNumeric (byte_of first) &&
      all_bytes (λ c, isASCIIAlphaNumeric c || bool_decide (c ∈ bytes_of punctuation)) rest
  end.

Definition validArtifactClass (value : string) : bool :=
  HasPrefix value "class:" && validASCIIIdentifier (str_drop 6 value) 64 "._-".

Definition validText (value : string) (minBytes maxBytes : N) (rejectControls : bool) : bool :=
  (minBytes <=? strlen value)%N && (strlen value <=? maxBytes)%N && utf8_ValidString value &&
  (negb rejectControls || forallb (λ char, negb (unicode_IsControl char)) (runes value)).

Inductive RedactionField :=
  | RedactionArguments | RedactionEnvironment | RedactionOutput | RedactionPrivateReasoning
  | RedactionSecret | RedactionSensitiveValue | RedactionFieldUnknown (text : string).

Definition RedactionField_text (field : RedactionField) : string :=
  match field with
  | RedactionArguments => "arguments" | RedactionEnvironment => "environment"
  | RedactionOutput => "output" | RedactionPrivateReasoning => "private_reasoning"
  | RedactionSecret => "secret" | RedactionSensitiveValue => "sensitive_value"
  | RedactionFieldUnknown text => text
  end.

Definition RedactionField_of (text : string) : RedactionField :=
  if text == "arguments" then RedactionArguments
  else if text == "environment" then RedactionEnvironment
  else if text == "output" then RedactionOutput
  else if text == "private_reasoning" then RedactionPrivateReasoning
  else if text == "secret" then RedactionSecret
  else if text == "sensitive_value" then RedactionSensitiveValue else RedactionFieldUnknown text.

Definition RedactionField_Valid (field : RedactionField) : bool :=
  match field with RedactionFieldUnknown _ => false | _ => true end.

(** [FieldsRemoved] is [None] for a nil slice. *)
Record Redaction := mkRedaction { Policy : string; FieldsRemoved : option (list RedactionField) }.

Definition Redaction_Validate (redaction : Redaction) : option Error :=
  match FieldsRemoved redaction with
  | None => Some ErrInvalidRedaction
  | Some fields =>
      refuse ErrInvalidRedaction when (Policy redaction != "default") ;;
      scan_sorted RedactionField_text
        (λ field, refuse ErrInvalidRedaction when (negb (RedactionField_Valid field)) ;; None)
        ErrInvalidRedaction None fields
  end.

(** ** origin.go *)

Definition MaxAgentProfileIDBytes : N := 128.

Record Binding := mkBinding {
  bDeviceID : string;
  bActorType : ActorType;
  bAgentProfileID : string;
  bProfilePresent : bool;
  bAgentSessionID : string;
  bOriginBootID : string }.

Record LocalAuthority := mkLocalAuthority { aDeviceID : string; aOriginBootID : string }.

Record Origin := mkOrigin {
  deviceID : string;
  actorType : ActorType;
  agentProfileID : string;
  profilePresent : bool;
  agentSessionID : string;
  originBootID : string;
  sequence : N }.

Definition validAgentProfileID (profile : string) : bool :=
  (1 <=? strlen profile)%N && (strlen profile <=? MaxAgentProfileIDBytes)%N &&
  utf8_ValidString profile.

(** The switch on the actor type shared by [Binding.validate] and
    [Origin.validate]. *)
Definition validActorBlock (actorType : ActorType) (profile : string) (present : bool)
    (agentSession bootID : string) : option Error :=
  match actorType with
  | ActorAgent =>
      refuse ErrInvalidOrigin
        when (negb (Domain.UUIDv7_Valid agentSession) || (bootID != EmptyString) ||
              present && negb (validAgentProfileID profile) ||
              negb present && (profile != EmptyString)) ;; None
  | ActorHuman | ActorDaemon =>
      refuse ErrInvalidOrigin
        when ((agentSession != EmptyString) || negb (Domain.UUIDv7_Valid bootID) || present ||
              (profile != EmptyString)) ;; None
  | ActorUnknown _ => Some ErrInvalidOrigin
  end.

Definition Binding_validate (binding : Binding) : option Error :=
  refuse ErrInvalidOrigin
    when (negb (Domain.DeviceID_Valid (bDeviceID binding)) ||
          negb (ActorType_Valid (bActorType binding))) ;;
  validActorBlock (bActorType binding) (bAgentProfileID binding) (bProfilePresent binding)
    (bAgentSessionID binding) (bOriginBootID binding).

Definition NewMCPBinding (deviceID agentSessionID : string) (agentProfileID : option string)
    : Error + Binding :=
  let binding := mkBinding deviceID ActorAgent (default EmptyString agentProfileID)
                   (match agentProfileID with Some _ => true | None => false end)
                   agentSessionID EmptyString in
  match Binding_validate binding with Some err => inl err | None => inr binding end.

Definition LocalAuthority_binding (authority : LocalAuthority) (actor : ActorType)
    : Error + Binding :=
  let binding := mkBinding (aDeviceID authority) actor EmptyString false EmptyString
                   (aOriginBootID authority) in
  match Binding_validate binding with Some err => inl err | None => inr binding end.

Definition NewLocalAuthority (deviceID originBootID : string) : Error + LocalAuthority :=
  let authority := mkLocalAuthority deviceID originBootID in
  match LocalAuthority_binding authority ActorHuman with
  | inl err => inl err
  | inr _ => inr authority
  end.

Definition OperatorBinding (authority : LocalAuthority) : Error + Binding :=
  LocalAuthority_binding authority ActorHuman.

Definition DaemonBinding (authority : LocalAuthority) : Error + Binding :=
  LocalAuthority_binding authority ActorDaemon.

Definition Binding_Origin (binding : Binding) (sequence : N) : Error + Origin :=
  match Binding_validate binding with
  | Some err => inl err
  | None =>
      if (sequence <? 1)%N || negb (Domain.ValidUnsignedInteger sequence)
      then inl ErrInvalidOriginSequence
      else inr (mkOrigin (bDeviceID binding) (bActorType binding) (bAgentProfileID binding)
                  (bProfilePresent binding) (bAgentSessionID binding) (bOriginBootID binding)
                  sequence)
  end.

Definition Origin_validate (origin : Origin) : option Error :=
  refuse ErrInvalidOrigin
    when (negb (Domain.DeviceID_Valid (deviceID origin)) ||
          negb (ActorType_Valid (actorType origin)) ||
          (sequence origin <? 1)%N || negb (Domain.ValidUnsignedInteger (sequence origin))) ;;
  validActorBlock (actorType origin) (agentProfileID origin) (profilePresent origin)
    (agentSessionID origin) (originBootID origin).

(** ** entity.go *)

Record EntityID := mkEntityID { value : string; present : bool }.

Definition StringEntityID (value : string) : EntityID := mkEntityID value true.
Definition NullEntityID : EntityID := mkEntityID EmptyString false.

Definition validGeneralForm (id : EntityID) : bool :=
  if present id
  then (value id != EmptyString) && (strlen (value id) <=? Domain.MaxRepositoryPathBytes)%N
  else value id == EmptyString.

Section Validators.
Context `{NormLib, JCSLib}.

Definition validFor (id : EntityID) (entityType : EntityIDType) : bool :=
  match entityType with
  | EntityUUIDv7 | EntitySessionID => present id && Domain.UUIDv7_Valid (value id)
  | EntityDeviceID => present id && Domain.DeviceID_Valid (value id)
  | EntityConflictID => present id && Domain.ConflictID_Valid (value id)
  | EntityRepositoryPath => present id && Domain.RepositoryPath_Valid (value id)
  | EntityNull => negb (present id) && (value id == EmptyString)
  end.

Definition validActionTarget (actionType : ActionType) (target : string) : bool :=
  match actionType with
  | ActionFileRead | ActionFileEdit => Domain.RepositoryPath_Valid target
  | ActionCommandRun => validASCIIIdentifier target 128 "._+-"
  | ActionToolCall => validASCIIIdentifier target 128 "._:-"
  | ActionTestRun => validText target 1 MaxActionTargetBytes true
  | ActionDecisionRecorded => validText target 1 128 true
  | ActionArtifactCreated => Domain.RepositoryPath_Valid target || validArtifactClass target
  | ActionTypeUnknown _ => false
  end.

Definition optional_invalid {A} (valid : A → bool) (o : option A) : bool :=
  match o with Some v => negb (valid v) | None => false end.

Definition Action_Validate (action : Action) : option Error :=
  refuse ErrInvalidAction when (negb (ActionType_Valid (AType action))) ;;
  refuse ErrInvalidAction when (negb (validActionTarget (AType action) (Target action))) ;;
  refuse ErrInvalidAction
    when (negb (validText (Summary action) 1 MaxActionSummaryBytes true)) ;;
  refuse ErrInvalidAction when (negb (ActionStatus_Valid (AStatus action))) ;;
  refuse ErrInvalidAction when (optional_invalid Domain.UUIDv7_Valid (ATaskID action)) ;;
  refuse ErrInvalidAction when (optional_invalid Domain.Timestamp_Valid (StartedAt action)) ;;
  refuse ErrInvalidAction
    when (optional_invalid (λ d, d <=? MaxActivityDurationMS)%N (DurationMS action)) ;;
  None.

(** ** envelope.go *)

Definition SchemaVersion : N := 1.
Definition MaxApplyLevel : N := Domain.MaxApplyLevel.
Definition MaxEventBytes : N := 262144.
Definition MaxLocalCommandBytes : N := 1048576.

(** [Actions] is [None] for a nil slice; a payload is its bytes. A nil payload
    is the empty byte list: both are refused with [ErrInvalidPayload]. *)
Record Proposal := mkProposal {
  PSchemaVersion : N;
  MinApplyLevel : N;
  EventID : string;
  SessionID : string;
  WorkspaceID : string;
  POrigin : Origin;
  CreatedAt : string;
  PKind : Kind;
  PEntityID : EntityID;
  ExpectedEntityVersion : option N;
  RationaleSummary : string;
  PCaptureLevel : CaptureLevel;
  Actions : option (list Action);
  Payload : list N;
  PRedaction : Redaction }.

Record SignedEvent := mkSignedEvent {
  proposal : Proposal;
  signature : list N;
  signedBytes : list N;
  canonical : list N }.

Record VerificationContext := mkVerificationContext {
  vSessionID : string;
  vWorkspaceID : string;
  IdentityPublicKey : list N }.

Definition canonicalPayload (payload : list N) : Error + list N :=
  if (MaxEventBytes <? llen payload)%N then inl ErrEventTooLarge
  else match Codec.CanonicalizeSignedObject payload with
  | inl _ => inl ErrInvalidPayload
  | inr canonical =>
      if (llen canonical <? 2)%N || (head canonical != Some 123%N) then inl ErrInvalidPayload
      else inr canonical
  end.

Definition validatePayload (payload : list N) : option Error :=
  match canonicalPayload payload with inl err => Some err | inr _ => None end.

Fixpoint kind_bytes (first : bool) (l : list N) : bool :=
  match l with
  | [] => true
  | char :: r =>
      (in_range 97 122 char || in_range 48 57 char && negb first ||
       ((char =? 46) || (char =? 95))%N && negb first) && kind_bytes false r
  end.

Definition validKindText (kind : Kind) : bool :=
  let text := Kind_text kind in
  let last := List.last (bytes_of text) 0%N in
  (1 <=? strlen text)%N && (strlen text <=? 128)%N && utf8_ValidString text &&
  kind_bytes true (bytes_of text) && negb (last =? 46)%N && negb (last =? 95)%N.

Definition ValidateEnvelope (proposal : Proposal) : option Error :=
  refuse ErrInvalidEnvelope when (negb (PSchemaVersion proposal =? SchemaVersion)%N) ;;
  refuse ErrInvalidEnvelope
    when ((MinApplyLevel proposal <? 1) || (MaxApplyLevel <? MinApplyLevel proposal))%N ;;
  refuse ErrInvalidEnvelope
    when (negb (Domain.UUIDv7_Valid (EventID proposal)) ||
          negb (Domain.UUIDv7_Valid (SessionID proposal)) ||
          negb (Domain.UUIDv4_Valid (WorkspaceID proposal)) ||
          negb (Domain.Timestamp_Valid (CreatedAt proposal)) ||
          negb (validKindText (PKind proposal)) ||
          negb (validGeneralForm (PEntityID proposal))) ;;
  refuse ErrInvalidEnvelope
    when (match LookupKind (PKind proposal) with
          | Some spec => negb (MinApplyLevel proposal =? minApplyLevel spec)%N
          | None => false
          end) ;;
  check Origin_validate (POrigin proposal) ;;
  refuse ErrExpectedEntityVersion
    when (optional_invalid (λ v, (1 <=? v)%N && Domain.ValidUnsignedInteger v)
            (ExpectedEntityVersion proposal)) ;;
  refuse ErrInvalidEnvelope
    when (negb (validText (RationaleSummary proposal) 0 MaxRationaleSummaryBytes true)) ;;
  refuse ErrInvalidEnvelope
    when (PCaptureLevel proposal != captureLevelForActor (actorType (POrigin proposal))) ;;
  check match Actions proposal with
        | None => Some ErrInvalidEnvelope
        | Some actions =>
            refuse ErrInvalidEnvelope when (MaxActions <? llen actions)%N ;;
            scan_entries Action_Validate actions
        end ;;
  check validatePayload (Payload proposal) ;;
  check Redaction_Validate (PRedaction proposal) ;;
  None.

Definition no_actions (actions : option (list Action)) : bool :=
  match actions with Some (_ :: _) => false | _ => true end.

Definition ValidateKindContract (proposal : Proposal) : option Error :=
  match LookupKind (PKind proposal) with
  | None => Some ErrInvalidKind
  | Some spec =>
      refuse ErrActorNotAllowed
        when (negb (AllowsActor spec (actorType (POrigin proposal)))) ;;
      check match cas spec, ExpectedEntityVersion proposal with
            | CASRequired, None => Some ErrExpectedEntityVersion
            | (CASForbidden | CASPayload), Some _ => Some ErrExpectedEntityVersion
            | _, _ => None
            end ;;
      refuse ErrInvalidEntityID when (negb (validFor (PEntityID proposal) (entity spec))) ;;
      refuse ErrAgentStartBinding
        when ((PKind proposal == KindAgentSessionStarted) &&
              ((actorType (POrigin proposal) != ActorAgent) ||
               (value (PEntityID proposal) != agentSessionID (POrigin proposal)) ||
               negb (sequence (POrigin proposal) =? 1)%N)) ;;
      refuse ErrInvalidEnvelope
        when ((PKind proposal == KindActivityRecorded) &&
              (RationaleSummary proposal == EmptyString) && no_actions (Actions proposal)) ;;
      None
  end.

Definition ValidateForEmission (proposal : Proposal) : option Error :=
  check ValidateEnvelope proposal ;;
  ValidateKindContract proposal.

End Validators.

(** ** Lemmas *)

Lemma specifications_unique : NoDup (kind <$> specifications).
Proof. refine (bool_decide_eq_true_1 _ _). by vm_compute. Qed.

Lemma Kind_of_text k : k ∈ registered_kinds → Kind_of (Kind_text k) = k.
Proof.
  intros Hk. assert (Hall : Forall (λ k, Kind_of (Kind_text k) = k) registered_kinds).
  { repeat constructor; by vm_compute. }
  rewrite Forall_forall in Hall. by apply Hall.
Qed.

Lemma LookupKind_Some k spec : LookupKind k = Some spec → kind spec = k ∧ spec ∈ specifications.
Proof.
  unfold LookupKind. intros Hl. apply head_Some_elem_of in Hl.
  by apply list_elem_of_filter in Hl.
Qed.

Lemma LookupKind_registered k : k ∈ registered_kinds ↔ is_Some (LookupKind k).
Proof.
  split.
  - intros Hk. assert (Hall : Forall (λ k, is_Some (LookupKind k)) registered_kinds).
    { repeat constructor; by eexists. }
    rewrite Forall_forall in Hall. by apply Hall.
  - intros [spec Hl]. apply LookupKind_Some in Hl as [<- Hs].
    assert (Hall : Forall (λ s, kind s ∈ registered_kinds) specifications).
    { refine (bool_decide_eq_true_1 _ _). by vm_compute. }
    rewrite Forall_forall in Hall. by apply Hall.
Qed.

End Event.
