(* ===== verification/EventWire.v ===== *)
(** * Package internal/event: the wire form (wire.go)

    [Module EventWire]: decoding of a canonical signed proposal, the member
    checks that make the schema closed, the verification of the origin
    signature, and the decoding of a local command. *)

From stdpp Require Import base gmap strings list.
From Stdlib Require Import ZArith NArith Lia.
From S2P Require Import Prelude.
From S2P Require Import GoLib.
From S2P Require Import GoJson.
From S2P Require Import CodecLayer.
From S2P Require Import DomainValues.
From S2P Require Import EventModel.

Module EventWire.

Import Event.

(** ** Member maps: [map[string]json.RawMessage] *)

Definition members_of (members : list (string * json)) : gmap string json :=
  list_to_map (reverse members).

Definition objectMembers (input : json) : option (gmap string json) :=
  match input with JObject members => Some (members_of members) | _ => None end.

Definition proposalRequiredFields : list string :=
  ["schema_version"; "min_apply_level"; "event_id"; "session_id"; "workspace_id"; "origin";
   "created_at"; "kind"; "entity_id"; "rationale_summary"; "capture_level"; "actions"; "payload";
   "redaction"; "origin_signature"].
Definition proposalOptionalFields : list string := ["expected_entity_version"].
Definition commandRequiredFields : list string :=
  ["kind"; "entity_id"; "rationale_summary"; "actions"; "payload"; "redaction"].
Definition commandOptionalFields : list string := ["expected_entity_version"].
Definition originRequiredFields : list string :=
  ["device_id"; "actor_type"; "agent_profile_id"; "agent_session_id"; "origin_boot_id";
   "origin_sequence"].
Definition actionRequiredFields : list string := ["type"; "target"; "summary"; "status"].
Definition actionOptionalFields : list string :=
  ["task_id"; "artifact_digest"; "started_at"; "duration_ms"].
Definition redactionRequiredFields : list string := ["policy"; "fields_removed"].

(** The order of a map iteration selects only the member named in the text of
    the error. *)
Definition validateRequiredMembers (members : gmap string json) (required : list string)
    : option Error :=
  refuse ErrMissingField
    when (existsb (λ field, bool_decide (members !! field = None)) required) ;; None.

Definition is_null (v : json) : bool := match v with JNull => true | _ => false end.

Definition rejectNullMembers (members : gmap string json) (nullable : list string)
    : option Error :=
  refuse ErrInvalidEnvelope
    when (existsb (λ '(field, v), is_null v && negb (bool_decide (field ∈ nullable)))
            (map_to_list members)) ;; None.

Definition validateMemberSet (members : gmap string json) (required optional : list string)
    : option Error :=
  refuse ErrUnknownField
    when (existsb (λ '(field, _), negb (bool_decide (field ∈ required)) &&
                                  negb (bool_decide (field ∈ optional)))
            (map_to_list members)) ;;
  validateRequiredMembers members required.

Definition validateMemberObject (input : json) (required optional : list string)
    : option Error :=
  match objectMembers input with
  | None => Some ErrInvalidEnvelope
  | Some members => validateMemberSet members required optional
  end.

Definition validateRequiredMemberObject (input : json) (required : list string) : option Error :=
  match objectMembers input with
  | None => Some ErrInvalidEnvelope
  | Some members => validateRequiredMembers members required
  end.

Definition has_null (members : gmap string json) (fields : list string) : bool :=
  existsb (λ field, match members !! field with Some v => is_null v | None => false end) fields.

(** [members["actions"]] of an absent member is a nil message, which does not
    unmarshal. *)
Definition validateActivityWireShape (actionsRaw redactionRaw : option json) : option Error :=
  match actionsRaw with
  | Some (JArray actionValues) =>
      refuse ErrInvalidEnvelope when (MaxActions <? llen actionValues)%N ;;
      check scan_entries
        (λ raw,
          check validateRequiredMemberObject raw actionRequiredFields ;;
          let members := default ∅ (objectMembers raw) in
          check rejectNullMembers members [] ;;
          refuse ErrInvalidEnvelope when (has_null members actionOptionalFields) ;; None)
        actionValues ;;
      match redactionRaw with
      | None => Some ErrInvalidEnvelope
      | Some redaction =>
          check validateRequiredMemberObject redaction redactionRequiredFields ;;
          rejectNullMembers (default ∅ (objectMembers redaction)) []
      end
  | _ => Some ErrInvalidEnvelope
  end.

Definition array_items (v : option json) : list json :=
  match v with Some (JArray items) => items | _ => [] end.

Definition validateActivityWireMembers (actionsRaw redactionRaw : option json) : option Error :=
  check validateActivityWireShape actionsRaw redactionRaw ;;
  check scan_entries
    (λ raw,
      check validateMemberObject raw actionRequiredFields actionOptionalFields ;;
      refuse ErrInvalidEnvelope
        when (has_null (default ∅ (objectMembers raw)) actionOptionalFields) ;; None)
    (array_items actionsRaw) ;;
  validateMemberObject (default JNull redactionRaw) redactionRequiredFields [].

Definition validateOriginWireMembers (input : option json) (strict : bool) : option Error :=
  match objectMembers (default JNull input) with
  | None => Some ErrInvalidEnvelope
  | Some members =>
      check (if strict then validateMemberSet members originRequiredFields []
             else validateRequiredMembers members originRequiredFields) ;;
      rejectNullMembers members ["agent_profile_id"; "agent_session_id"; "origin_boot_id"]
  end.

(** ** Typed members, as [json.Unmarshal] fills them

    An absent member or a null leaves the zero value. Go also matches member
    names that differ in case; the strict decoding refuses every name that is
    not spelled exactly, so such a proposal is refused in any case. *)

Definition decode_string (v : json) : option string :=
  match v with JString text => Some text | JNull => Some EmptyString | _ => None end.

Definition decode_uint64 (v : json) : option N :=
  match v with
  | JNumber n => if (n <? 0)%Z then None else Some (Z.to_N n)
  | JNull => Some 0%N
  | _ => None
  end.

Definition decode_int64 (v : json) : option Z :=
  match v with JNumber n => Some n | JNull => Some 0%Z | _ => None end.

Definition decode_bool (v : json) : option bool :=
  match v with JBool b => Some b | JNull => Some false | _ => None end.

Definition decode_strings (v : json) : option (list string) :=
  match v with
  | JArray items => mapM decode_string items
  | JNull => Some []
  | _ => None
  end.

Definition member_or {A} (decode : json → option A) (zero : A) (members : gmap string json)
    (field : string) : option A :=
  match members !! field with None => Some zero | Some v => decode v end.

Definition pointer {A} (decode : json → option A) (members : gmap string json) (field : string)
    : option (option A) :=
  match members !! field with
  | None | Some JNull => Some None
  | Some v => Some <$> decode v
  end.

Definition string_member := member_or decode_string EmptyString.
Definition uint64_member := member_or decode_uint64 0%N.

(** [EntityID.UnmarshalJSON]; it is not called for an absent member. *)
Definition entity_id (members : gmap string json) : option EntityID :=
  match members !! "entity_id" with
  | None | Some JNull => Some NullEntityID
  | Some (JString text) => Some (StringEntityID text)
  | Some _ => None
  end.

Record originWire := mkOriginWire {
  wDeviceID : string; wActorType : string; wAgentProfileID : option string;
  wAgentSessionID : option string; wOriginBootID : option string; wOriginSequence : N }.

Definition decode_origin (members : gmap string json) : option originWire :=
  device ← string_member members "device_id";
  actor ← string_member members "actor_type";
  profile ← pointer decode_string members "agent_profile_id";
  session ← pointer decode_string members "agent_session_id";
  boot ← pointer decode_string members "origin_boot_id";
  seq ← uint64_member members "origin_sequence";
  Some (mkOriginWire device actor profile session boot seq).

Definition originFromWire (wire : originWire) : Error + Origin :=
  let origin := mkOrigin (wDeviceID wire) (ActorType_of (wActorType wire))
                  (default EmptyString (wAgentProfileID wire))
                  (match wAgentProfileID wire with Some _ => true | None => false end)
                  (default EmptyString (wAgentSessionID wire))
                  (default EmptyString (wOriginBootID wire)) (wOriginSequence wire) in
  match Origin_validate origin with Some err => inl err | None => inr origin end.

Record actionWire := mkActionWire {
  wType : string; wTarget : string; wSummary : string; wStatus : string;
  wTaskID : option string; wArtifactDigest : option string; wStartedAt : option string;
  wDurationMS : option N }.

Definition decode_action (v : json) : option actionWire :=
  members ← (match v with JNull => Some ∅ | _ => objectMembers v end);
  type ← string_member members "type";
  target ← string_member members "target";
  summary ← string_member members "summary";
  status ← string_member members "status";
  task ← pointer decode_string members "task_id";
  digest ← pointer decode_string members "artifact_digest";
  started ← pointer decode_string members "started_at";
  duration ← pointer decode_uint64 members "duration_ms";
  Some (mkActionWire type target summary status task digest started duration).

Definition decode_redaction (members : gmap string json) : option Redaction :=
  policy ← string_member members "policy";
  fields ← member_or decode_strings [] members "fields_removed";
  Some (mkRedaction policy (Some (RedactionField_of <$> fields))).

Definition object_member (members : gmap string json) (field : string) : option (gmap string json) :=
  match members !! field with
  | None | Some JNull => Some ∅
  | Some v => objectMembers v
  end.

Section Wire.
Context `{NormLib, JCSLib, CryptoLib}.

Fixpoint actionsFromWire (wires : list actionWire) : Error + list Action :=
  match wires with
  | [] => inr []
  | wire :: rest =>
      let digest := match wArtifactDigest wire with
                    | None => inr None
                    | Some text =>
                        match Codec.DecodeBase64URLExact text Crypto.SHA256Size with
                        | inl _ => inl ErrCodec
                        | inr value => inr (Some value)
                        end
                    end in
      match digest with
      | inl err => inl err
      | inr digest =>
          let action := mkAction (ActionType_of (wType wire)) (wTarget wire) (wSummary wire)
                          (ActionStatus_of (wStatus wire)) (wTaskID wire) digest
                          (wStartedAt wire) (wDurationMS wire) in
          match Action_Validate action with
          | Some err => inl err
          | None =>
              match actionsFromWire rest with
              | inl err => inl err
              | inr actions => inr (action :: actions)
              end
          end
      end
  end.

(** The bytes of the member [payload] inside the canonical text. *)
Definition raw_member (canonical : list N) (field : string) : list N :=
  match Codec.scanCanonicalObjectMembers canonical with
  | None => []
  | Some members =>
      match List.last (Some <$> filter (λ m, Codec.key m = field) members) None with
      | Some m => Codec.memberValue m
      | None => []
      end
  end.

(** [json.Unmarshal] into [proposalWire], then [proposalFromWire]. *)
Definition proposal_of (canonical : list N) (members : gmap string json) : Error + Proposal :=
  let wire :=
    schema ← uint64_member members "schema_version";
    level ← uint64_member members "min_apply_level";
    event ← string_member members "event_id";
    session ← string_member members "session_id";
    workspace ← string_member members "workspace_id";
    originMembers ← object_member members "origin";
    origin ← decode_origin originMembers;
    created ← string_member members "created_at";
    kind ← string_member members "kind";
    entity ← entity_id members;
    expected ← pointer decode_uint64 members "expected_entity_version";
    rationale ← string_member members "rationale_summary";
    capture ← string_member members "capture_level";
    actions ← pointer (λ v, match v with JArray items => mapM decode_action items | _ => None end)
                members "actions";
    redactionMembers ← object_member members "redaction";
    redaction ← decode_redaction redactionMembers;
    _ ← pointer decode_string members "origin_signature";
    Some (schema, level, event, session, workspace, origin, created, kind, entity, expected,
          rationale, capture, actions, redaction) in
  match wire with
  | None => inl ErrInvalidEnvelope
  | Some (schema, level, event, session, workspace, origin, created, kind, entity, expected,
          rationale, capture, actions, redaction) =>
      match originFromWire origin with
      | inl err => inl err
      | inr origin =>
          match (match actions with
                 | None => inr None
                 | Some wires => match actionsFromWire wires with
                                 | inl err => inl err
                                 | inr actions => inr (Some actions)
                                 end
                 end) with
          | inl err => inl err
          | inr actions =>
              inr (mkProposal schema level event session workspace origin created (Kind_of kind)
                     entity expected rationale (CaptureLevel_of capture) actions
                     (raw_member canonical "payload") redaction)
          end
      end
  end.

(** [decodeProposal] and [decodeProposalLenient]: they differ in the member
    checks, which [strict] selects. *)
Definition decodeProposal_with (strict : bool) (canonical : list N) : Error + Proposal :=
  match Codec.unmarshal canonical with
  | Some (JObject members) =>
      let members := members_of members in
      match
        (check (if strict then validateMemberSet members proposalRequiredFields proposalOptionalFields
                else validateRequiredMembers members proposalRequiredFields) ;;
         refuse ErrExpectedEntityVersion
           when (has_null members ["expected_entity_version"]) ;;
         check rejectNullMembers members ["entity_id"] ;;
         check validateOriginWireMembers (members !! "origin") strict ;;
         if strict then validateActivityWireMembers (members !! "actions") (members !! "redaction")
         else validateActivityWireShape (members !! "actions") (members !! "redaction"))
      with
      | Some err => inl err
      | None => proposal_of canonical members
      end
  | _ => inl ErrInvalidEnvelope
  end.

Definition decodeProposal : list N → Error + Proposal := decodeProposal_with true.
Definition decodeProposalLenient : list N → Error + Proposal := decodeProposal_with false.

(** The signature text of a canonical proposal, decoded. *)
Definition signatureOf (encodedSignature : list N) : Error + list N :=
  match Codec.unmarshal encodedSignature with
  | Some v =>
      match decode_string v with
      | None => inl ErrInvalidEnvelope
      | Some text =>
          match Codec.DecodeBase64URLExact text Crypto.Ed25519SignatureSize with
          | inl _ => inl ErrCodec
          | inr signature => inr signature
          end
      end
  | None => inl ErrInvalidEnvelope
  end.

(** The common start of [InspectUnverifiedProposal] and [ParseAndVerify]: the
    canonical bytes, the signature preimage and the signature. *)
Definition openProposal (input : list N) : Error + (list N * list N) :=
  match Codec.CanonicalizeSignedObject input with
  | inl _ => inl ErrInvalidEnvelope
  | inr canonical =>
      if input != canonical then inl ErrNoncanonicalEvent
      else match Codec.RemoveCanonicalObjectMember canonical "origin_signature" with
      | inl Codec.ErrObjectMemberAbsent => inl ErrMissingField
      | inl _ => inl ErrInvalidEnvelope
      | inr (signedBytes, encodedSignature) =>
          match signatureOf encodedSignature with
          | inl err => inl err
          | inr signature => inr (signedBytes, signature)
          end
      end
  end.

Definition InspectUnverifiedProposal (input : list N) : Error + Proposal :=
  if (MaxEventBytes <? llen input)%N then inl ErrEventTooLarge
  else match openProposal input with
  | inl err => inl err
  | inr _ =>
      match decodeProposal input with
      | inl err => inl err
      | inr proposal =>
          match ValidateEnvelope proposal with Some err => inl err | None => inr proposal end
      end
  end.

Definition ParseAndVerify (input : list N) (context : VerificationContext) : Error + SignedEvent :=
  if (MaxEventBytes <? llen input)%N then inl ErrEventTooLarge
  else if negb (Domain.UUIDv7_Valid (vSessionID context)) ||
          negb (Domain.UUIDv4_Valid (vWorkspaceID context)) then inl ErrSessionBinding
  else match openProposal input with
  | inl err => inl err
  | inr (signedBytes, signature) =>
      match decodeProposalLenient input with
      | inl err => inl err
      | inr prevalidated =>
          match ValidateEnvelope prevalidated with
          | Some err => inl err
          | None =>
              match Codec.DeriveDeviceID (IdentityPublicKey context) with
              | inl _ => inl ErrCodec
              | inr derivedDeviceID =>
                  if derivedDeviceID != deviceID (POrigin prevalidated)
                  then inl ErrOriginKeyMismatch
                  else match Crypto.VerifyEd25519 (IdentityPublicKey context)
                               Codec.SignatureEventOrigin signedBytes signature with
                  | Some _ => inl ErrSignature
                  | None =>
                      match decodeProposal input with
                      | inl err => inl err
                      | inr proposal =>
                          match ValidateEnvelope proposal with
                          | Some err => inl err
                          | None =>
                              if (SessionID proposal != vSessionID context) ||
                                 (WorkspaceID proposal != vWorkspaceID context)
                              then inl ErrSessionBinding
                              else inr (mkSignedEvent proposal signature signedBytes input)
                          end
                      end
                  end
              end
          end
      end
  end.

(** ** Local commands *)

Record Command := mkCommand {
  CKind : Kind;
  CEntityID : EntityID;
  CExpectedEntityVersion : option N;
  CRationaleSummary : string;
  CActions : option (list Action);
  CPayload : list N;
  CRedaction : Redaction }.

Definition validateCommandEnvelope (command : Command) : option Error :=
  refuse ErrInvalidKind
    when (match LookupKind (CKind command) with Some _ => false | None => true end) ;;
  refuse ErrInvalidEntityID when (negb (validGeneralForm (CEntityID command))) ;;
  refuse ErrExpectedEntityVersion
    when (optional_invalid (λ v, (1 <=? v)%N && Domain.ValidUnsignedInteger v)
            (CExpectedEntityVersion command)) ;;
  refuse ErrInvalidEnvelope
    when (negb (validText (CRationaleSummary command) 0 MaxRationaleSummaryBytes true)) ;;
  check match CActions command with
        | None => Some ErrInvalidEnvelope
        | Some actions =>
            refuse ErrInvalidEnvelope when (MaxActions <? llen actions)%N ;;
            scan_entries Action_Validate actions
        end ;;
  check validatePayload (CPayload command) ;;
  Redaction_Validate (CRedaction command).

Definition command_of (canonical : list N) (members : gmap string json) : Error + Command :=
  let wire :=
    kind ← string_member members "kind";
    entity ← entity_id members;
    expected ← pointer decode_uint64 members "expected_entity_version";
    rationale ← string_member members "rationale_summary";
    actions ← pointer (λ v, match v with JArray items => mapM decode_action items | _ => None end)
                members "actions";
    redactionMembers ← object_member members "redaction";
    redaction ← decode_redaction redactionMembers;
    Some (kind, entity, expected, rationale, actions, redaction) in
  match wire with
  | None => inl ErrInvalidEnvelope
  | Some (kind, entity, expected, rationale, actions, redaction) =>
      match (match actions with
             | None => inr None
             | Some wires => match actionsFromWire wires with
                             | inl err => inl err
                             | inr actions => inr (Some actions)
                             end
             end) with
      | inl err => inl err
      | inr actions =>
          inr (mkCommand (Kind_of kind) entity expected rationale actions
                 (raw_member canonical "payload") redaction)
      end
  end.

Definition DecodeLocalCommand (input : list N) : Error + Command :=
  if (MaxLocalCommandBytes <? llen input)%N then inl ErrEventTooLarge
  else match Codec.CanonicalizeSignedObject input with
  | inl _ => inl ErrInvalidEnvelope
  | inr canonical =>
      match Codec.unmarshal canonical with
      | Some (JObject members) =>
          let members := members_of members in
          if bool_decide (is_Some (members !! "origin")) then inl ErrClientSuppliedOrigin
          else match
            (check validateMemberSet members commandRequiredFields commandOptionalFields ;;
             refuse ErrExpectedEntityVersion
               when (has_null members ["expected_entity_version"]) ;;
             check rejectNullMembers members ["entity_id"] ;;
             validateActivityWireMembers (members !! "actions") (members !! "redaction"))
          with
          | Some err => inl err
          | None =>
              match command_of canonical members with
              | inl err => inl err
              | inr command =>
                  match validateCommandEnvelope command with
                  | Some err => inl err
                  | None => inr command
                  end
              end
          end
      | _ => inl ErrInvalidEnvelope
      end
  end.

(** ** Lemmas *)

(** The lenient decoding reads the same proposal. *)
Lemma decodeProposal_lenient input p p' :
  decodeProposal input = inr p → decodeProposalLenient input = inr p' → p' = p.
Proof.
  unfold decodeProposal, decodeProposalLenient, decodeProposal_with.
  intros Hs Hl. destruct (Codec.unmarshal input) as [[]|]; try done.
  repeat case_match; congruence.
Qed.

Lemma ParseAndVerify_inv input context e :
  ParseAndVerify input context = inr e →
  canonical e = input ∧
  openProposal input = inr (signedBytes e, signature e) ∧
  decodeProposal input = inr (proposal e) ∧
  ValidateEnvelope (proposal e) = None ∧
  SessionID (proposal e) = vSessionID context ∧
  WorkspaceID (proposal e) = vWorkspaceID context ∧
  Crypto.VerifyEd25519 (IdentityPublicKey context) Codec.SignatureEventOrigin
    (signedBytes e) (signature e) = None ∧
  Codec.DeriveDeviceID (IdentityPublicKey context) = inr (deviceID (POrigin (proposal e))).
Proof.
  unfold ParseAndVerify. intros Hp.
  repeat case_match; simplify_eq/=; bools.
  repeat match goal with
  | Hs : decodeProposal input = inr ?p, Hl : decodeProposalLenient input = inr ?p' |- _ =>
      pose proof (decodeProposal_lenient _ _ _ Hs Hl); clear Hl; subst p'
  end; naive_solver.
Qed.

End Wire.
End EventWire.
