(* ===== verification/CheckpointCodec.v ===== *)
(** * Package internal/event: the checkpoint codec (checkpoint.go)

    [Module EventCheckpoint]: the canonical unsigned checkpoint object, the
    signed payload around it, and their exact decoders. Signing is not
    modelled. *)

From stdpp Require Import base gmap strings list sorting.
From Stdlib Require Import ZArith NArith Lia.
From S2P Require Import Prelude.
From S2P Require Import GoLib.
From S2P Require Import GoJson.
From S2P Require Import CodecLayer.
From S2P Require Import GoMarshal.
From S2P Require Import DomainValues.
From S2P Require Import EventModel.
From S2P Require Import EventWire.

Module EventCheckpoint.

Import Marshal EventWire.

Definition checkpointRequiredFields : list string :=
  ["session_id"; "workspace_id"; "recovery_generation"; "authority_voter_set_version";
   "signer_device_id"; "term"; "covered_applied_log_index"; "covered_chain_index";
   "covered_chain_hash"; "covered_result_index"; "covered_result_hash";
   "projection_accumulator"; "digest_version"; "projection_schema_version"].

Definition checkpointPayloadRequiredFields : list string :=
  checkpointRequiredFields ++ ["authority_signature"].

(** Every error wraps [ErrInvalidCheckpoint]. *)
Inductive Error := ErrInvalidCheckpoint.

Definition encode64 (bytes : list N) : json := JString (Codec.EncodeBase64URL bytes).

(** The members of [checkpointWire]. *)
Definition checkpoint_wire (checkpoint : Domain.Checkpoint) : list (string * json) :=
  [("session_id", JString (Domain.SessionID checkpoint));
   ("workspace_id", JString (Domain.WorkspaceID checkpoint));
   ("recovery_generation", uint (Domain.RecoveryGeneration checkpoint));
   ("authority_voter_set_version", uint (Domain.AuthorityVoterSetVersion checkpoint));
   ("signer_device_id", JString (Domain.SignerDeviceID checkpoint));
   ("term", uint (Domain.Term checkpoint));
   ("covered_applied_log_index", uint (Domain.CoveredAppliedLogIndex checkpoint));
   ("covered_chain_index", uint (Domain.CoveredChainIndex checkpoint));
   ("covered_chain_hash", encode64 (Domain.CoveredChainHash checkpoint));
   ("covered_result_index", uint (Domain.CoveredResultIndex checkpoint));
   ("covered_result_hash", encode64 (Domain.CoveredResultHash checkpoint));
   ("projection_accumulator", encode64 (Domain.ProjectionAccumulator checkpoint));
   ("digest_version", uint (Domain.DigestVersion checkpoint));
   ("projection_schema_version", uint (Domain.ProjectionSchemaVersion checkpoint))].

Section Lib.
Context `{JCSLib}.

Definition EncodeCheckpoint (checkpoint : Domain.Checkpoint) : Error + list N :=
  match Domain.Checkpoint_Validate checkpoint with
  | Some _ => inl ErrInvalidCheckpoint
  | None =>
      match canonical_object (checkpoint_wire checkpoint) with
      | inl _ => inl ErrInvalidCheckpoint
      | inr canonical => inr canonical
      end
  end.

Definition EncodeCheckpointPayload (checkpoint : Domain.Checkpoint) (signature : list N)
    : Error + list N :=
  match EncodeCheckpoint checkpoint with
  | inl err => inl err
  | inr unsigned =>
      match Codec.unmarshal unsigned with
      | Some (JObject members) =>
          let object := <["authority_signature" := encode64 signature]> (members_of members) in
          match canonical_object (map_members object) with
          | inl _ => inl ErrInvalidCheckpoint
          | inr canonical => inr canonical
          end
      | _ => inl ErrInvalidCheckpoint
      end
  end.

(** The typed members and their digests; the member set has been checked. *)
Definition checkpoint_of (members : gmap string json) : option Domain.Checkpoint :=
  session ← string_member members "session_id";
  workspace ← string_member members "workspace_id";
  generation ← uint64_member members "recovery_generation";
  authority ← uint64_member members "authority_voter_set_version";
  signer ← string_member members "signer_device_id";
  term ← uint64_member members "term";
  log ← uint64_member members "covered_applied_log_index";
  chain ← uint64_member members "covered_chain_index";
  chainText ← string_member members "covered_chain_hash";
  result ← uint64_member members "covered_result_index";
  resultText ← string_member members "covered_result_hash";
  accumulatorText ← string_member members "projection_accumulator";
  digestVersion ← uint64_member members "digest_version";
  schemaVersion ← uint64_member members "projection_schema_version";
  match Codec.DecodeBase64URLExact chainText 32, Codec.DecodeBase64URLExact resultText 32,
        Codec.DecodeBase64URLExact accumulatorText 32 with
  | inr chainHash, inr resultHash, inr accumulator =>
      Some (Domain.mkCheckpoint session workspace generation authority signer term log chain
              chainHash result resultHash accumulator digestVersion schemaVersion)
  | _, _, _ => None
  end.

(** The members of an exact canonical object with the required fields. *)
Definition exact_members (encoded : list N) (required : list string) : option (gmap string json) :=
  match Codec.CanonicalizeSignedObject encoded with
  | inl _ => None
  | inr canonical =>
      if canonical != encoded then None
      else match Codec.unmarshal encoded with
      | Some (JObject members) =>
          let members := members_of members in
          match validateMemberSet members required [], rejectNullMembers members [] with
          | None, None => Some members
          | _, _ => None
          end
      | _ => None
      end
  end.

Definition DecodeCheckpoint (encoded : list N) : Error + Domain.Checkpoint :=
  match exact_members encoded checkpointRequiredFields with
  | None => inl ErrInvalidCheckpoint
  | Some members =>
      match checkpoint_of members with
      | None => inl ErrInvalidCheckpoint
      | Some checkpoint =>
          match Domain.Checkpoint_Validate checkpoint, EncodeCheckpoint checkpoint with
          | None, inr reencoded =>
              if reencoded != encoded then inl ErrInvalidCheckpoint else inr checkpoint
          | _, _ => inl ErrInvalidCheckpoint
          end
      end
  end.

Definition DecodeCheckpointPayload (encoded : list N)
    : Error + (Domain.Checkpoint * list N) :=
  match exact_members encoded checkpointPayloadRequiredFields with
  | None => inl ErrInvalidCheckpoint
  | Some members =>
      match string_member members "authority_signature" with
      | None => inl ErrInvalidCheckpoint
      | Some signatureText =>
          match Codec.DecodeBase64URLExact signatureText Crypto.Ed25519SignatureSize with
          | inl _ => inl ErrInvalidCheckpoint
          | inr signature =>
              match canonical_object (map_members (delete "authority_signature" members)) with
              | inl _ => inl ErrInvalidCheckpoint
              | inr unsigned =>
                  match DecodeCheckpoint unsigned with
                  | inl err => inl err
                  | inr checkpoint =>
                      match EncodeCheckpointPayload checkpoint signature with
                      | inr reencoded =>
                          if reencoded != encoded then inl ErrInvalidCheckpoint
                          else inr (checkpoint, signature)
                      | inl _ => inl ErrInvalidCheckpoint
                      end
                  end
              end
          end
      end
  end.

End Lib.
End EventCheckpoint.
