(* ===== verification/ChainCommitments.v ===== *)
(** * Package internal/chain: lineage and projection commitments

    [Module Chain]: the registry of covered tables (types.go), the checks of
    logical rows and primary keys (json.go), the domain-separated digests and
    generation seeds (hash.go), the command-result encoding and its chain
    (result.go), and the mutation encoding, the accumulator and the streamed
    projection-state digest (projection.go). A [hash.Hash] is the bytes written
    to it so far. *)

From stdpp Require Import base gmap strings list sorting.
From Stdlib Require Import ZArith NArith Lia.
From S2P Require Import Prelude.
From S2P Require Import GoLib.
From S2P Require Import GoJson.
From S2P Require Import CodecLayer.
From S2P Require Import GoMarshal.

Module Chain.

Definition maxSafeInteger : N := 9007199254740991.

(** ** types.go *)

(** 32 bytes. *)
Definition Digest : Type := list N.
Definition zero_digest : Digest := repeat 0%N 32.

Record Versions := mkVersions { VDigest : N; ProjectionSchema : N }.

Record Boundary := mkBoundary {
  Genesis : Digest;
  Generation : N;
  ChainIndex : N;
  ResultIndex : N;
  ChainHash : Digest;
  ResultHash : Digest }.

Record Result := mkResult {
  RResultIndex : N;
  Proposal : list N;
  Outcome : list N;
  ProposalDigest : Digest;
  RChainIndex : option N;
  RChainHash : option Digest }.

Record Mutation := mkMutation {
  MTable : string;
  MPrimaryKey : list N;
  Before : option (list N);
  After : option (list N) }.

Record LogicalRow := mkLogicalRow { Table : string; PrimaryKey : list N; Row : list N }.

Record TableRowCount := mkTableRowCount { CTable : string; Count : N }.

Inductive Error :=
  | ErrInvalidBoundary | ErrInvalidIndex | ErrInvalidVersions | ErrInvalidObject
  | ErrInvalidResult | ErrProposalDigest | ErrUnknownTable | ErrInvalidPrimaryKey
  | ErrInvalidMutation | ErrDuplicateMutation | ErrMutationSetTooLarge | ErrInvalidLogicalRow
  | ErrDuplicateLogicalRow | ErrLogicalRowOrder
  | ErrCodec (err : Codec.Error).

#[global] Instance Error_eq_dec : EqDecision Error.
Proof. solve_decision. Defined.

Inductive primaryKeyKind := primaryKeyString | primaryKeyPositiveInteger.
Record primaryKeyField := mkPrimaryKeyField { pkName : string; pkKind : primaryKeyKind }.

Inductive logicalValueKind :=
  | logicalString | logicalInteger | logicalArray | logicalObject | logicalBase64URL
  | logicalBoolean.

Record logicalField := mkLogicalField {
  name : string;
  kind : logicalValueKind;
  nullable : bool;
  decodedSize : N }.

Record tableSpec := mkTableSpec {
  tableName : string;
  primaryKey : list primaryKeyField;
  fields : list logicalField }.

Definition requiredField (name : string) (kind : logicalValueKind) : logicalField :=
  mkLogicalField name kind false 0.
Definition optionalField (name : string) (kind : logicalValueKind) : logicalField :=
  mkLogicalField name kind true 0.
Definition requiredBlob (name : string) (decodedSize : N) : logicalField :=
  mkLogicalField name logicalBase64URL false decodedSize.
Definition optionalBlob (name : string) (decodedSize : N) : logicalField :=
  mkLogicalField name logicalBase64URL true decodedSize.

(** A key of one string field. *)
Definition string_key (field : string) : list primaryKeyField :=
  [mkPrimaryKeyField field primaryKeyString].

Definition coveredTableRegistry : list tableSpec :=
  [mkTableSpec "origin_scopes" 
     [mkPrimaryKeyField "device_id" primaryKeyString;
      mkPrimaryKeyField "scope_kind" primaryKeyString;
      mkPrimaryKeyField "scope_id" primaryKeyString]
     [requiredField "device_id" logicalString;
      requiredField "scope_kind" logicalString;
      requiredField "scope_id" logicalString;
      requiredField "last_sequence" logicalInteger];
   mkTableSpec "audit_counters" (string_key "device_id")
     [requiredField "device_id" logicalString;
      requiredField "credential_epoch" logicalInteger;
      requiredField "accepted_count" logicalInteger];
   mkTableSpec "tasks" (string_key "task_id")
     [requiredField "task_id" logicalString;
      requiredField "title" logicalString;
      requiredField "body" logicalString;
      requiredField "state" logicalString;
      optionalField "state_reason" logicalString;
      requiredField "priority" logicalInteger;
      requiredField "blocked_by" logicalArray;
      requiredField "labels" logicalArray;
      optionalField "owner_device_id" logicalString;
      optionalField "owner_agent_session_id" logicalString;
      optionalField "intended_device_id" logicalString;
      optionalField "last_release_reason" logicalString;
      requiredField "entity_version" logicalInteger;
      requiredField "created_at" logicalString;
      requiredField "updated_at" logicalString];
   mkTableSpec "plan_revisions" (string_key "plan_revision_id")
     [requiredField "plan_revision_id" logicalString;
      optionalField "supersedes" logicalString;
      requiredField "title" logicalString;
      requiredField "body" logicalString;
      requiredField "task_ids" logicalArray;
      requiredField "proposed_by_device_id" logicalString;
      requiredField "created_at" logicalString];
   mkTableSpec "plan_current" (string_key "session_id")
     [requiredField "session_id" logicalString;
      optionalField "plan_revision_id" logicalString;
      requiredField "entity_version" logicalInteger];
   mkTableSpec "memory_records" (string_key "memory_id")
     [requiredField "memory_id" logicalString;
      requiredField "scope" logicalString;
      optionalField "task_id" logicalString;
      requiredField "key" logicalString;
      requiredField "body" logicalString;
      optionalField "supersedes" logicalString;
      requiredField "created_at" logicalString];
   mkTableSpec "leases" (string_key "lease_id")
     [requiredField "lease_id" logicalString;
      requiredField "holder_device_id" logicalString;
      requiredField "holder_agent_session_id" logicalString;
      requiredField "scope" logicalString;
      optionalField "task_id" logicalString;
      optionalField "path_globs" logicalArray;
      requiredField "ttl_seconds" logicalInteger;
      requiredField "status" logicalString;
      optionalField "release_reason" logicalString;
      requiredField "entity_version" logicalInteger];
   mkTableSpec "devices" (string_key "device_id")
     [requiredField "device_id" logicalString;
      requiredField "role" logicalString;
      requiredBlob "identity_public_key" 32;
      requiredField "daemon_version" logicalString;
      requiredField "max_apply_level" logicalInteger;
      requiredField "status" logicalString;
      requiredField "entity_version" logicalInteger];
   mkTableSpec "voter_set" (string_key "session_id")
     [requiredField "session_id" logicalString;
      requiredField "voter_device_ids" logicalArray;
      requiredField "voter_set_version" logicalInteger];
   mkTableSpec "credential_authority" (string_key "session_id")
     [requiredField "session_id" logicalString;
      requiredField "voter_device_ids" logicalArray;
      requiredField "voter_set_version" logicalInteger;
      requiredField "activation_source" logicalString;
      optionalField "activation_checkpoint_event_id" logicalString;
      requiredField "activation_proofs" logicalArray;
      optionalField "prior_authority_signer" logicalString;
      optionalBlob "prior_authority_handoff" 64];
   mkTableSpec "agent_sessions" (string_key "agent_session_id")
     [requiredField "agent_session_id" logicalString;
      requiredField "device_id" logicalString;
      requiredField "client_kind" logicalString;
      optionalField "agent_profile_id" logicalString;
      requiredField "state" logicalString;
      optionalField "resume_state" logicalString;
      requiredField "working_root_id" logicalString;
      optionalField "end_reason" logicalString;
      requiredField "entity_version" logicalInteger];
   mkTableSpec "canonical_refs" (string_key "ref_name")
     [requiredField "ref_name" logicalString;
      requiredField "commit_oid" logicalString;
      requiredField "entity_version" logicalInteger];
   mkTableSpec "credential_authorizations" 
     [mkPrimaryKeyField "session_id" primaryKeyString;
      mkPrimaryKeyField "device_id" primaryKeyString;
      mkPrimaryKeyField "epoch" primaryKeyPositiveInteger]
     [requiredField "session_id" logicalString;
      requiredField "device_id" logicalString;
      requiredField "epoch" logicalInteger;
      requiredBlob "epoch_public_key" 32;
      requiredBlob "key_digest" 32;
      requiredField "role" logicalString;
      requiredField "issued_at" logicalString;
      requiredField "not_before" logicalString;
      requiredField "validity_seconds" logicalInteger;
      requiredField "authority_voter_set_version" logicalInteger;
      requiredField "clock_endorsements" logicalArray;
      requiredBlob "binding_signature" 64;
      requiredField "authorization_chain_index" logicalInteger];
   mkTableSpec "publications" (string_key "publication_id")
     [requiredField "publication_id" logicalString;
      requiredField "proposal_event_id" logicalString;
      optionalField "supersedes_publication_id" logicalString;
      optionalField "task_id" logicalString;
      requiredField "author_device_id" logicalString;
      requiredField "author_agent_session_id" logicalString;
      requiredField "base_commit" logicalString;
      requiredField "commit_oid" logicalString;
      requiredField "tree_oid" logicalString;
      requiredField "parent_oids" logicalArray;
      requiredField "paths" logicalArray;
      requiredBlob "artifact_digest" 32;
      requiredField "resolves_conflict_ids" logicalArray;
      requiredField "working_root_id" logicalString;
      requiredField "staging_receipts" logicalArray;
      requiredField "state" logicalString;
      optionalField "terminal_source" logicalString;
      requiredField "canonical_lineage_member" logicalBoolean;
      optionalField "review_verdict" logicalString;
      optionalField "reviewer_device_id" logicalString;
      optionalField "reviewer_agent_session_id" logicalString;
      optionalField "review_actor_type" logicalString;
      optionalField "decision_reason" logicalString;
      requiredField "entity_version" logicalInteger];
   mkTableSpec "control_file_proposals" (string_key "proposal_event_id")
     [requiredField "proposal_event_id" logicalString;
      requiredField "session_id" logicalString;
      requiredField "path" logicalString;
      requiredField "operation" logicalString;
      optionalBlob "content_digest" 32;
      requiredField "content_size" logicalInteger;
      requiredField "diff" logicalString;
      requiredField "proposed_by_device_id" logicalString;
      requiredField "chain_index" logicalInteger];
   mkTableSpec "merge_conflicts" (string_key "conflict_id")
     [requiredField "conflict_id" logicalString;
      requiredField "publication_id" logicalString;
      requiredField "merge_kind" logicalString;
      optionalField "replay_commit_oid" logicalString;
      requiredField "merge_base_oids" logicalArray;
      requiredField "canonical_commit" logicalString;
      requiredField "candidate_commit" logicalString;
      requiredField "paths" logicalArray;
      requiredField "status" logicalString;
      optionalField "resolution_kind" logicalString;
      optionalField "resolution_publication_id" logicalString;
      optionalField "force_reason" logicalString;
      optionalField "resolved_by_device_id" logicalString;
      requiredField "entity_version" logicalInteger];
   mkTableSpec "session_policy" (string_key "session_id")
     [requiredField "session_id" logicalString;
      requiredField "values" logicalObject;
      requiredField "entity_version" logicalInteger]].

Definition CoveredTables : list string := tableName <$> coveredTableRegistry.

(** The specification of a table and its position. *)
Fixpoint lookupFrom (specs : list tableSpec) (position : nat) (table : string)
    : option (tableSpec * nat) :=
  match specs with
  | [] => None
  | spec :: rest =>
      if tableName spec == table then Some (spec, position) else lookupFrom rest (S position) table
  end.

Definition lookupTable (table : string) : option (tableSpec * nat) :=
  lookupFrom coveredTableRegistry 0 table.

(** ** hash.go *)

Definition genesisDigestLabel : string := "codecomm/v1/genesis-digest".
Definition eventChainLabel : string := "codecomm/v1/chain".
Definition resultChainLabel : string := "codecomm/v1/result-chain".
Definition projectionAccumulatorLabel : string := "codecomm/v1/projection-accumulator".
Definition projectionRowLabel : string := "codecomm/v1/projection-row".
Definition projectionTableLabel : string := "codecomm/v1/projection-table".
Definition projectionStateLabel : string := "codecomm/v1/projection-state".

(** [binary.BigEndian.PutUint64]. *)
Definition uint64Bytes (value : N) : list N :=
  (λ k, N.land (N.shiftr value (8 * k)) 255) <$> [7; 6; 5; 4; 3; 2; 1; 0]%N.

(** A domain label and what follows it. *)
Definition domain (label : string) (preimage : list N) : list N :=
  bytes_of label ++ 0%N :: preimage.

Definition validateBoundary (boundary : Boundary) : option Error :=
  refuse ErrInvalidBoundary
    when ((maxSafeInteger <? Generation boundary) || (maxSafeInteger <? ChainIndex boundary) ||
          (maxSafeInteger <? ResultIndex boundary))%N ;;
  refuse ErrInvalidBoundary when (ResultIndex boundary <? ChainIndex boundary)%N ;;
  refuse ErrInvalidBoundary
    when ((Generation boundary =? 0)%N &&
          (negb (ChainIndex boundary =? 0)%N || negb (ResultIndex boundary =? 0)%N ||
           (ChainHash boundary != zero_digest) || (ResultHash boundary != zero_digest))) ;;
  refuse ErrInvalidBoundary
    when ((0 <? Generation boundary)%N &&
          ((ChainHash boundary == zero_digest) || (ResultHash boundary == zero_digest))) ;;
  None.

Section Lib.
Context `{JCSLib, CryptoLib}.

Definition digestDomain (label : string) (parts : list (list N)) : Digest :=
  Sum256 (domain label (concat parts)).

(** ** json.go *)

Definition validateCanonicalObject (value : list N) : option Error :=
  match Codec.CanonicalizeSignedObject value with
  | inl _ => Some ErrInvalidObject
  | inr canonical => refuse ErrInvalidObject when (canonical != value) ;; None
  end.

Definition null_text : list N := bytes_of "null".

Definition validatePrimaryKeyComponent (field : primaryKeyField) (value : list N) : bool :=
  match pkKind field with
  | primaryKeyString =>
      match JSON.text_of value with Some text => text != EmptyString | None => false end
  | primaryKeyPositiveInteger =>
      match JSON.ParseUint value with
      | Some integer => negb (integer =? 0)%N && (integer <=? maxSafeInteger)%N
      | None => false
      end
  end.

(** The raw components of the key. *)
Definition validatePrimaryKey (spec : tableSpec) (value : list N) : Error + list (list N) :=
  match Codec.Canonicalize value, JSON.raw_array value with
  | inr canonical, Some components =>
      if (canonical != value) ||
         negb (length components =? length (primaryKey spec))%nat ||
         negb (forallb (λ '(field, component), validatePrimaryKeyComponent field component)
                 (zip (primaryKey spec) components))
      then inl ErrInvalidPrimaryKey
      else inr components
  | _, _ => inl ErrInvalidPrimaryKey
  end.

Definition validateLogicalValue (field : logicalField) (value : list N) : bool :=
  if value == null_text then nullable field
  else match kind field with
  | logicalString => bool_decide (is_Some (JSON.text_of value))
  | logicalInteger =>
      match JSON.ParseUint value with
      | Some integer => (integer <=? maxSafeInteger)%N
      | None => false
      end
  | logicalArray => bool_decide (is_Some (JSON.raw_array value))
  | logicalObject => bool_decide (is_Some (JSON.raw_object value))
  | logicalBase64URL =>
      match JSON.text_of value with
      | Some text =>
          match Codec.DecodeBase64URLExact text (decodedSize field) with
          | inl _ => false
          | inr _ => true
          end
      | None => false
      end
  | logicalBoolean => (value == bytes_of "true") || (value == bytes_of "false")
  end.

(** [true] when the row passes every check; canonical text names no member
    twice. *)
Definition validateLogicalRow (spec : tableSpec) (components : list (list N)) (value : list N)
    : bool :=
  match validateCanonicalObject value, JSON.raw_object value with
  | None, Some members =>
      let object : gmap string (list N) := list_to_map members in
      forallb (λ '(field, component),
        match object !! pkName field with
        | None => false
        | Some member => member == component
        end) (zip (primaryKey spec) components) &&
      (size object =? length (fields spec))%nat &&
      forallb (λ field,
        match object !! name field with
        | None => false
        | Some member => validateLogicalValue field member
        end) (fields spec)
  | _, _ => false
  end.

(** ** hash.go: the chains and their seeds *)

Definition GenesisDigest (canonicalCompleteGenesis : list N) : Error + Digest :=
  match validateCanonicalObject canonicalCompleteGenesis with
  | Some err => inl err
  | None => inr (digestDomain genesisDigestLabel [canonicalCompleteGenesis])
  end.

Definition boundarySeed (label : string) (boundary : Boundary) : Digest :=
  if (Generation boundary =? 0)%N then digestDomain label [Genesis boundary]
  else digestDomain label
         [Genesis boundary; uint64Bytes (Generation boundary); uint64Bytes (ChainIndex boundary);
          ChainHash boundary; uint64Bytes (ResultIndex boundary); ResultHash boundary].

Definition EventSeed (boundary : Boundary) : Error + Digest :=
  match validateBoundary boundary with
  | Some err => inl err
  | None => inr (boundarySeed eventChainLabel boundary)
  end.

Definition ResultSeed (boundary : Boundary) : Error + Digest :=
  match validateBoundary boundary with
  | Some err => inl err
  | None => inr (boundarySeed resultChainLabel boundary)
  end.

Definition AppendEvent (previous : Digest) (canonical : list N) : Error + Digest :=
  match validateCanonicalObject canonical with
  | Some err => inl err
  | None => inr (digestDomain eventChainLabel [previous; canonical])
  end.

Definition AccumulatorSeedInitial (genesis state : Digest) : Digest :=
  digestDomain projectionAccumulatorLabel [genesis; state].

Definition AccumulatorSeedSuccessor (previous genesis state : Digest) : Digest :=
  digestDomain projectionAccumulatorLabel [previous; genesis; state].

(** ** result.go *)

Definition maxEncodedResultBytes : N := 4194304.

Definition decodeOutcomeStatus (outcome : list N) : option string :=
  members ← JSON.raw_object outcome;
  let object : gmap string (list N) := list_to_map members in
  status ← object !! "status" ≫= JSON.text_of;
  if (status != "accepted") && (status != "rejected") then None
  else
    code ← object !! "code" ≫= JSON.text_of;
    if code == EmptyString then None else Some status.

Definition optional_json {A} (f : A → json) (value : option A) : json :=
  match value with Some a => f a | None => JNull end.

(** [commandResultWire]; the proposal and the outcome are raw values. *)
Definition result_wire (result : Result) (outcome proposal : json) : json :=
  JObject
    [("chain_hash", optional_json (λ d, JString (Codec.EncodeBase64URL d)) (RChainHash result));
     ("chain_index", optional_json Marshal.uint (RChainIndex result));
     ("outcome", outcome);
     ("proposal", proposal);
     ("proposal_digest", JString (Codec.EncodeBase64URL (ProposalDigest result)));
     ("result_index", Marshal.uint (RResultIndex result))].

(** The tuple of an accepted result: both members, and an index in range. *)
Definition chainTupleOk (result : Result) : option Error :=
  refuse ErrInvalidResult
    when (bool_decide (is_Some (RChainIndex result)) !=
          bool_decide (is_Some (RChainHash result))) ;;
  refuse ErrInvalidIndex
    when (match RChainIndex result with
          | Some index =>
              (index =? 0)%N || (maxSafeInteger <? index)%N || (RResultIndex result <? index)%N
          | None => false
          end) ;;
  None.

Definition EncodeResult (result : Result) : Error + list N :=
  if (RResultIndex result =? 0)%N || (maxSafeInteger <? RResultIndex result)%N
  then inl ErrInvalidIndex
  else match validateCanonicalObject (Proposal result) with
  | Some err => inl err
  | None =>
      match validateCanonicalObject (Outcome result) with
      | Some err => inl err
      | None =>
          match decodeOutcomeStatus (Outcome result) with
          | None => inl ErrInvalidResult
          | Some status =>
              if Sum256 (Proposal result) != ProposalDigest result then inl ErrProposalDigest
              else match chainTupleOk result with
              | Some err => inl err
              | None =>
                  if bool_decide (is_Some (RChainIndex result)) != (status == "accepted")
                  then inl ErrInvalidResult
                  else match Codec.unmarshal (Outcome result), Codec.unmarshal (Proposal result) with
                  | Some outcome, Some proposal =>
                      match Codec.Canonicalize
                              (Marshal.marshal (result_wire result outcome proposal)) with
                      | inl err => inl (ErrCodec err)
                      | inr canonical => inr canonical
                      end
                  | _, _ => inl ErrInvalidObject
                  end
              end
          end
      end
  end.

Definition AppendResult (previous : Digest) (result : Result) : Error + (Digest * list N) :=
  match EncodeResult result with
  | inl err => inl err
  | inr encoded => inr (digestDomain resultChainLabel [previous; encoded], encoded)
  end.

(** [json.Unmarshal] into a pointer, which null makes nil. *)
Definition nullable_of {A} (decode : list N → option A) (value : list N) : option (option A) :=
  if value == null_text then Some None else Some <$> decode value.

Definition decodeNullableResultIndex : list N → option (option N) := nullable_of JSON.ParseUint.

Definition decodeDigest (value : list N) : option Digest :=
  text ← JSON.text_of value;
  match Codec.DecodeBase64URLExact text 32 with inl _ => None | inr digest => Some digest end.

Definition decodeNullableResultDigest : list N → option (option Digest) := nullable_of decodeDigest.

Definition decodeRequiredResultDigest (value : list N) : option Digest :=
  digest ← decodeNullableResultDigest value; digest.

Definition resultFields : list string :=
  ["chain_hash"; "chain_index"; "outcome"; "proposal"; "proposal_digest"; "result_index"].

(** [decoder.Decode] into a structure of raw members, refusing unknown ones.
    Go also takes a name in another case and the last of several members of a
    name; such a text is not canonical, and the comparison with the encoding of
    what it holds refuses it with the same error. *)
Definition wireMembers (names : list string) (encoded : list N) : option (gmap string (list N)) :=
  members ← JSON.raw_object encoded;
  if forallb (λ '(field, _), bool_decide (field ∈ names)) members
  then Some (list_to_map members) else None.

Definition decodeResultWire (encoded : list N) : option Result :=
  object ← wireMembers resultFields encoded;
  chainHash ← object !! "chain_hash"; chainIndex ← object !! "chain_index";
  outcome ← object !! "outcome"; proposal ← object !! "proposal";
  proposalDigest ← object !! "proposal_digest"; resultIndex ← object !! "result_index";
  chainIndex ← decodeNullableResultIndex chainIndex;
  chainHash ← decodeNullableResultDigest chainHash;
  proposalDigest ← decodeRequiredResultDigest proposalDigest;
  resultIndex ← decodeNullableResultIndex resultIndex;
  Some (mkResult (default 0%N resultIndex) proposal outcome proposalDigest chainIndex chainHash).

Definition DecodeResult (encoded : list N) : Error + Result :=
  if (llen encoded =? 0)%N || (maxEncodedResultBytes <? llen encoded)%N then inl ErrInvalidResult
  else match decodeResultWire encoded with
  | None => inl ErrInvalidResult
  | Some result =>
      match EncodeResult result with
      | inl _ => inl ErrInvalidResult
      | inr canonical => if canonical != encoded then inl ErrInvalidResult else inr result
      end
  end.

(** ** projection.go: mutations *)

Definition MaxEncodedMutationBytes : N := 33554432.

(** [bytes.Compare] as an order. *)
Fixpoint bytes_le (x y : list N) : bool :=
  match x, y with
  | [], _ => true
  | _, [] => false
  | a :: x, b :: y => (a <? b)%N || ((a =? b)%N && bytes_le x y)
  end.

(** Rows and mutations are ordered by table, then by key. *)
Definition position_le (left right : nat * list N) : Prop :=
  (left.1 < right.1)%nat ∨ left.1 = right.1 ∧ bytes_le left.2 right.2 = true.

#[global] Instance position_le_dec left right : Decision (position_le left right).
Proof. unfold position_le. apply _. Defined.

Record preparedMutation := mkPreparedMutation {
  pmTableIndex : nat;
  pmMutation : Mutation }.

Definition mutation_position (prepared : preparedMutation) : nat * list N :=
  (pmTableIndex prepared, MPrimaryKey (pmMutation prepared)).

Definition mutation_le (left right : preparedMutation) : Prop :=
  position_le (mutation_position left) (mutation_position right).

#[global] Instance mutation_le_dec left right : Decision (mutation_le left right).
Proof. unfold mutation_le. apply _. Defined.

Definition optionalRowOk (spec : tableSpec) (components : list (list N)) (row : option (list N))
    : bool :=
  match row with Some value => validateLogicalRow spec components value | None => true end.

(** One mutation of the first loop. *)
Definition prepareMutation (mutation : Mutation) : Error + preparedMutation :=
  match lookupTable (MTable mutation) with
  | None => inl ErrUnknownTable
  | Some (spec, tableIndex) =>
      match validatePrimaryKey spec (MPrimaryKey mutation) with
      | inl _ => inl ErrInvalidMutation
      | inr components =>
          if bool_decide (Before mutation = None) && bool_decide (After mutation = None)
          then inl ErrInvalidMutation
          else if negb (optionalRowOk spec components (Before mutation)) ||
                  negb (optionalRowOk spec components (After mutation))
          then inl ErrInvalidMutation
          else if bool_decide (Before mutation = After mutation) then inl ErrInvalidMutation
          else inr (mkPreparedMutation tableIndex mutation)
      end
  end.

Fixpoint prepareAll {A B} (prepare : A → Error + B) (values : list A) : Error + list B :=
  match values with
  | [] => inr []
  | value :: rest =>
      match prepare value with
      | inl err => inl err
      | inr prepared =>
          match prepareAll prepare rest with
          | inl err => inl err
          | inr all => inr (prepared :: all)
          end
      end
  end.

(** Two neighbours at the same position. *)
Fixpoint adjacentDuplicate {A} (position : A → nat * list N) (values : list A) : bool :=
  match values with
  | first :: ((second :: _) as rest) =>
      (position first == position second) || adjacentDuplicate position rest
  | _ => false
  end.

Definition nullableJSON (value : option (list N)) : list N :=
  match value with Some row => row | None => null_text end.

Definition encodeMutation (mutation : Mutation) : list N :=
  bytes_of "{" ++ Marshal.quote "after" ++ bytes_of ":" ++ nullableJSON (After mutation) ++
  bytes_of "," ++ Marshal.quote "before" ++ bytes_of ":" ++ nullableJSON (Before mutation) ++
  bytes_of "," ++ Marshal.quote "primary_key" ++ bytes_of ":" ++ MPrimaryKey mutation ++
  bytes_of "," ++ Marshal.quote "table" ++ bytes_of ":" ++ Marshal.quote (MTable mutation) ++
  bytes_of "}".

(** The parts are appended while they fit, so the limit is on the whole. *)
Definition encodePreparedMutations (prepared : list preparedMutation) : Error + list N :=
  let encoded := bytes_of "[" ++
                 Marshal.separated ((λ p, encodeMutation (pmMutation p)) <$> prepared) ++
                 bytes_of "]" in
  if (MaxEncodedMutationBytes <? llen encoded)%N then inl ErrMutationSetTooLarge else inr encoded.

Definition EncodeMutations (mutations : list Mutation) : Error + list N :=
  match prepareAll prepareMutation mutations with
  | inl err => inl err
  | inr prepared =>
      let sorted := merge_sort mutation_le prepared in
      if adjacentDuplicate mutation_position sorted then inl ErrDuplicateMutation
      else encodePreparedMutations sorted
  end.

Definition cloneNullableJSON (value : list N) : option (list N) :=
  if value == null_text then None else Some value.

Definition mutationFields : list string := ["after"; "before"; "primary_key"; "table"].

Definition decodeMutation (value : list N) : option Mutation :=
  object ← wireMembers mutationFields value;
  table ← object !! "table"; primaryKey ← object !! "primary_key";
  before ← object !! "before"; after ← object !! "after";
  text ← nullable_of JSON.text_of table ≫= λ text, text;
  Some (mkMutation text primaryKey (cloneNullableJSON before) (cloneNullableJSON after)).

Definition DecodeMutations (encoded : list N) : Error + list Mutation :=
  if (llen encoded =? 0)%N || (MaxEncodedMutationBytes <? llen encoded)%N
  then inl ErrInvalidMutation
  else match JSON.raw_array encoded ≫= mapM decodeMutation with
  | None => inl ErrInvalidMutation
  | Some mutations =>
      match EncodeMutations mutations with
      | inl _ => inl ErrInvalidMutation
      | inr canonical => if canonical != encoded then inl ErrInvalidMutation else inr mutations
      end
  end.

Definition AppendAccumulator (previous : Digest) (resultIndex : N) (resultHash : Digest)
    (mutations : list Mutation) : Error + (Digest * list N) :=
  if (resultIndex =? 0)%N || (maxSafeInteger <? resultIndex)%N then inl ErrInvalidIndex
  else match EncodeMutations mutations with
  | inl err => inl err
  | inr encoded =>
      inr (digestDomain projectionAccumulatorLabel
             [previous; uint64Bytes resultIndex; resultHash; uint64Bytes (llen encoded); encoded],
           encoded)
  end.

(** ** projection.go: the state digest *)

Definition rowDigest (table : string) (primaryKey row : list N) : Digest :=
  digestDomain projectionRowLabel
    [uint64Bytes (strlen table); bytes_of table; uint64Bytes (llen primaryKey); primaryKey;
     uint64Bytes (llen row); row].

(** A digester between two calls. [dTable] is the running table hash. *)
Record StateDigester := mkStateDigester {
  dState : list N;
  dTable : list N;
  dCounts : list N;
  dTableIndex : nat;
  dRowsInTable : N;
  dPreviousPrimaryKey : list N;
  dDigest : option Digest }.

Definition validateStateDigestVersions (versions : Versions) : option Error :=
  refuse ErrInvalidVersions
    when ((VDigest versions =? 0) || (maxSafeInteger <? VDigest versions) ||
          (ProjectionSchema versions =? 0) || (maxSafeInteger <? ProjectionSchema versions))%N ;;
  None.

Definition startTable (digester : StateDigester) : StateDigester :=
  match CoveredTables !! dTableIndex digester with
  | None => digester
  | Some table =>
      mkStateDigester (dState digester)
        (domain projectionTableLabel
           (uint64Bytes (strlen table) ++ bytes_of table ++
            uint64Bytes (default 0%N (dCounts digester !! dTableIndex digester))))
        (dCounts digester) (dTableIndex digester) 0 [] (dDigest digester)
  end.

Definition finishTable (digester : StateDigester) : option StateDigester :=
  match dCounts digester !! dTableIndex digester with
  | Some count =>
      if (dRowsInTable digester =? count)%N
      then Some (mkStateDigester (dState digester ++ Sum256 (dTable digester)) (dTable digester)
                   (dCounts digester) (dTableIndex digester) (dRowsInTable digester)
                   (dPreviousPrimaryKey digester) (dDigest digester))
      else None
  | None => None
  end.

Definition advanceTable (digester : StateDigester) : StateDigester :=
  mkStateDigester (dState digester) (dTable digester) (dCounts digester)
    (S (dTableIndex digester)) (dRowsInTable digester) (dPreviousPrimaryKey digester)
    (dDigest digester).

Definition NewStateDigester (versions : Versions) (counts : list TableRowCount)
    : Error + StateDigester :=
  match validateStateDigestVersions versions with
  | Some err => inl err
  | None =>
      if negb (length counts =? length coveredTableRegistry)%nat ||
         negb (forallb (λ '(count, table), (CTable count == table) &&
                                           (Count count <=? maxSafeInteger)%N)
                 (zip counts CoveredTables))
      then inl ErrLogicalRowOrder
      else inr (startTable
             (mkStateDigester
                (domain projectionStateLabel
                   (uint64Bytes (VDigest versions) ++ uint64Bytes (ProjectionSchema versions)))
                [] (Count <$> counts) 0 0 [] None))
  end.

(** The loop that closes the tables before the row's. *)
Fixpoint skipTables (tables : nat) (digester : StateDigester) : option StateDigester :=
  match tables with
  | O => Some digester
  | S tables =>
      digester ← finishTable digester;
      skipTables tables (startTable (advanceTable digester))
  end.

Definition Append (digester : StateDigester) (row : LogicalRow) : Error + StateDigester :=
  if bool_decide (is_Some (dDigest digester)) ||
     (length coveredTableRegistry <=? dTableIndex digester)%nat then inl ErrLogicalRowOrder
  else match lookupTable (Table row) with
  | None => inl ErrUnknownTable
  | Some (spec, tableIndex) =>
      match skipTables (tableIndex - dTableIndex digester) digester with
      | None => inl ErrLogicalRowOrder
      | Some digester =>
          if negb (tableIndex =? dTableIndex digester)%nat ||
             (default 0 (dCounts digester !! tableIndex) <=? dRowsInTable digester)%N
          then inl ErrLogicalRowOrder
          else match validatePrimaryKey spec (PrimaryKey row) with
          | inl _ => inl ErrInvalidLogicalRow
          | inr components =>
              if negb (validateLogicalRow spec components (Row row)) then inl ErrInvalidLogicalRow
              else if negb (dRowsInTable digester =? 0)%N &&
                      bytes_le (PrimaryKey row) (dPreviousPrimaryKey digester)
              then inl ErrLogicalRowOrder
              else inr (mkStateDigester (dState digester)
                     (dTable digester ++ rowDigest (Table row) (PrimaryKey row) (Row row))
                     (dCounts digester) (dTableIndex digester) (dRowsInTable digester + 1)
                     (PrimaryKey row) (dDigest digester))
          end
      end
  end.

(** The loop of [Sum] over the tables that are left. *)
Fixpoint finishTables (tables : nat) (digester : StateDigester) : option StateDigester :=
  match tables with
  | O => Some digester
  | S tables =>
      finished ← finishTable digester;
      let next := advanceTable finished in
      finishTables tables
        (if (dTableIndex next <? length coveredTableRegistry)%nat then startTable next else next)
  end.

Definition Sum (digester : StateDigester) : Error + Digest :=
  match dDigest digester with
  | Some digest => inr digest
  | None =>
      match finishTables (length coveredTableRegistry - dTableIndex digester) digester with
      | None => inl ErrLogicalRowOrder
      | Some digester => inr (Sum256 (dState digester))
      end
  end.

Record preparedRow := mkPreparedRow { prTableIndex : nat; prPrimaryKey : list N; prRow : list N }.

Definition row_position (row : preparedRow) : nat * list N := (prTableIndex row, prPrimaryKey row).

Definition row_le (left right : preparedRow) : Prop :=
  position_le (row_position left) (row_position right).

#[global] Instance row_le_dec left right : Decision (row_le left right).
Proof. unfold row_le. apply _. Defined.

Definition prepareRow (row : LogicalRow) : Error + preparedRow :=
  match lookupTable (Table row) with
  | None => inl ErrUnknownTable
  | Some (spec, tableIndex) =>
      match validatePrimaryKey spec (PrimaryKey row) with
      | inl _ => inl ErrInvalidLogicalRow
      | inr components =>
          if negb (validateLogicalRow spec components (Row row)) then inl ErrInvalidLogicalRow
          else inr (mkPreparedRow tableIndex (PrimaryKey row) (Row row))
      end
  end.

Definition countRows (rows : list preparedRow) (tableIndex : nat) : N :=
  llen (filter (λ row, prTableIndex row = tableIndex) rows).

(** The row with its table's name again. *)
Definition logicalRow (row : preparedRow) : LogicalRow :=
  mkLogicalRow (default EmptyString (CoveredTables !! prTableIndex row)) (prPrimaryKey row)
    (prRow row).

Fixpoint appendAll (digester : StateDigester) (rows : list LogicalRow) : Error + StateDigester :=
  match rows with
  | [] => inr digester
  | row :: rest =>
      match Append digester row with
      | inl err => inl err
      | inr digester => appendAll digester rest
      end
  end.

Definition StateDigest (versions : Versions) (rows : list LogicalRow) : Error + Digest :=
  match validateStateDigestVersions versions with
  | Some err => inl err
  | None =>
      match prepareAll prepareRow rows with
      | inl err => inl err
      | inr prepared =>
          let sorted := merge_sort row_le prepared in
          if adjacentDuplicate row_position sorted then inl ErrDuplicateLogicalRow
          else
            match NewStateDigester versions
                    (zip_with mkTableRowCount CoveredTables
                       (countRows sorted <$> seq 0 (length coveredTableRegistry))) with
            | inl err => inl err
            | inr digester =>
                match appendAll digester (logicalRow <$> sorted) with
                | inl err => inl err
                | inr digester => Sum digester
                end
            end
      end
  end.

End Lib.
End Chain.
