(* ===== verification/ReducerState.v ===== *)
(** * Package internal/reducer: committed state and outcomes

    [Module Reducer]: the committed state and the change set (state.go), the
    outcome of a reduction (reducer.go), the closed payload decoder
    (payload.go) and the admission of a signed event: envelope, origin device,
    signature, origin scope and sequence, kind contract and role
    (preflight.go). The handlers are in the files that follow. *)

From stdpp Require Import base gmap strings list sorting.
From Stdlib Require Import ZArith NArith Lia.
From S2P Require Import Prelude.
From S2P Require Import GoLib.
From S2P Require Import GoJson.
From S2P Require Import CodecLayer.
From S2P Require Import DomainValues.
From S2P Require Import TaskEntity.
From S2P Require Import LeaseEntity.
From S2P Require Import AgentSessionEntity.
From S2P Require Import VoterSetEntity.
From S2P Require Import DeviceEntity.
From S2P Require Import PlanMemoryEntity.
From S2P Require Import PolicyEntity.
From S2P Require Import ConflictEntity.
From S2P Require Import PublicationEntity.
From S2P Require Import CredentialEntity.
From S2P Require Import EventModel.
From S2P Require Import EventWire.

Module Reducer.

(** ** reducer.go: outcomes *)

Inductive Status := StatusAccepted | StatusRejected.

#[global] Instance Status_eq_dec : EqDecision Status.
Proof. solve_decision. Defined.

Inductive Code :=
  | CodeAccepted | CodeInvalidEnvelope | CodeInvalidOriginSignature | CodeSessionBindingMismatch
  | CodeOriginDeviceNotActive | CodeOriginScopeNotFound | CodeOriginSequenceGap
  | CodeOriginSequenceReused | CodeAgentSessionNotFound | CodeAgentSessionBindingMismatch
  | CodeAgentSessionNotConnected | CodeAgentSessionLimitReached
  | CodeInvalidAgentSessionTransition | CodeInvalidEndReason | CodeEndActorMismatch
  | CodeActorNotAllowed | CodeInvalidKindContract | CodeExpectedEntityVersion
  | CodeInsufficientRole | CodeInvalidPayload | CodeUnknownPayloadField | CodeMissingPayloadField
  | CodeEntityAlreadyExists | CodeEntityNotFound | CodeEntityVersionMismatch
  | CodeEntityVersionExhausted | CodeInvalidTaskTransition | CodeTaskHolderRequired
  | CodeTaskMustBeUnowned | CodeTaskNotActionable | CodeTaskHasUnresolvedConflict
  | CodeIntendedDeviceMismatch | CodeAgentClaimLimitReached | CodeDeviceClaimLimitReached
  | CodeDependencyNotFound | CodeDependencyCycle | CodeDependencyGraphTooComplex
  | CodeInvalidReleaseReason | CodeReleaseActorMismatch | CodeReleaseNotAuthorized
  | CodeReassignmentTargetNotActive | CodeInvalidLeaseTransition | CodeLeaseHolderRequired
  | CodeLeaseScopeConflict | CodeLeaseTaskNotFound | CodeAgentLeaseLimitReached
  | CodeDeviceLeaseLimitReached | CodePlanRevisionNotFound | CodePlanTaskNotFound
  | CodeMemoryTaskNotFound | CodeMemoryPredecessorNotFound | CodeMemoryPredecessorMismatch
  | CodeMemoryPredecessorAlreadySuperseded | CodePolicyLimitBelowCurrentUse
  | CodeClusterApplyLevelDecrease | CodeClusterApplyLevelUnsupported
  | CodeMembershipSubjectMismatch | CodeMembershipSubjectNotFound
  | CodeMembershipSubjectNotActive | CodeMembershipReportUnchanged
  | CodeInvalidMembershipTransition | CodeLastActiveOwner | CodeMemberLimitReached
  | CodeVoterSetVersionMismatch | CodeVoterSetVersionExhausted | CodeInvalidVoterSet
  | CodeVoterTargetUnchanged | CodeVoterTargetAlreadyActivated | CodeVoterTargetNotActive
  | CodeSoleVoterRevocation | CodeCredentialAuthorityQuorumLost
  | CodeInvalidRecoveryAuthorization | CodeCredentialAuthorityVersionMismatch
  | CodeInvalidVoterActivationProof | CodeInvalidCredentialAuthorityHandoff
  | CodeInvalidPublicationTransition | CodePublicationAuthorMismatch
  | CodePublicationAuthorBindingMismatch | CodePublicationTaskNotFound
  | CodePublicationTaskHolderRequired | CodePublicationWorkingRootMismatch
  | CodePublicationPathLeaseRequired | CodePublicationControlPath
  | CodePublicationSupersedesNotFound | CodePublicationSupersedesNotTerminal
  | CodePublicationSupersedesLineageMismatch | CodePublicationConflictNotFound
  | CodePublicationConflictNotUnresolved | CodeInvalidPublicationReceipts
  | CodePublicationReceiptFromFuture | CodePublicationReceiptStale
  | CodePublicationReceiptQuorumNotMet | CodePublicationReviewNotIndependent
  | CodePublicationWithdrawalNotAuthorized | CodeCanonicalRefVersionMismatch
  | CodeCanonicalRefVersionExhausted | CodePublicationBaseCommitMismatch | CodeConflictIDMismatch
  | CodeConflictPublicationNotFound | CodeConflictPublicationTerminal
  | CodeConflictCanonicalCommitMismatch | CodeConflictImmutableTupleMismatch
  | CodeConflictDetectorPathsMismatch | CodeInvalidConflictTransition
  | CodeConflictResolutionNotFound | CodeConflictResolutionNotApplied
  | CodeConflictResolutionNotDeclared | CodeConflictResolutionAuthorMismatch
  | CodeCredentialSubjectMismatch | CodeCredentialSubjectNotFound
  | CodeCredentialSubjectNotActive | CodeCredentialEpochMismatch | CodeCredentialEpochExhausted
  | CodeCredentialKeyDigestMismatch | CodeCredentialKeyReused | CodeInvalidCredentialBinding
  | CodeCredentialRoleMismatch | CodeInvalidCredentialEndorsements
  | CodeCredentialEndorsementQuorumNotMet | CodeCredentialValidityMismatch
  | CodeCredentialRenewalTooEarly | CodeCredentialNotBeforeMismatch | CodeActivityTaskNotFound
  | CodeAuditSubjectNotFound | CodeAuditSubjectNotActive | CodeAuditCredentialEpochMismatch
  | CodeAuditDepthExceeded | CodeStaleCheckpoint | CodeControlFilePathMismatch
  | CodeControlFilePathRequired.

Definition Code_text (code : Code) : string :=
  match code with
  | CodeAccepted => "accepted"
  | CodeInvalidEnvelope => "invalid_envelope"
  | CodeInvalidOriginSignature => "invalid_origin_signature"
  | CodeSessionBindingMismatch => "session_binding_mismatch"
  | CodeOriginDeviceNotActive => "origin_device_not_active"
  | CodeOriginScopeNotFound => "origin_scope_not_found"
  | CodeOriginSequenceGap => "origin_sequence_gap"
  | CodeOriginSequenceReused => "origin_sequence_reused"
  | CodeAgentSessionNotFound => "agent_session_not_found"
  | CodeAgentSessionBindingMismatch => "agent_session_binding_mismatch"
  | CodeAgentSessionNotConnected => "agent_session_not_connected"
  | CodeAgentSessionLimitReached => "agent_session_limit_reached"
  | CodeInvalidAgentSessionTransition => "invalid_agent_session_transition"
  | CodeInvalidEndReason => "invalid_end_reason"
  | CodeEndActorMismatch => "end_actor_mismatch"
  | CodeActorNotAllowed => "actor_not_allowed"
  | CodeInvalidKindContract => "invalid_kind_contract"
  | CodeExpectedEntityVersion => "invalid_expected_entity_version"
  | CodeInsufficientRole => "insufficient_role"
  | CodeInvalidPayload => "invalid_payload"
  | CodeUnknownPayloadField => "unknown_payload_field"
  | CodeMissingPayloadField => "missing_payload_field"
  | CodeEntityAlreadyExists => "entity_already_exists"
  | CodeEntityNotFound => "entity_not_found"
  | CodeEntityVersionMismatch => "entity_version_mismatch"
  | CodeEntityVersionExhausted => "entity_version_exhausted"
  | CodeInvalidTaskTransition => "invalid_task_transition"
  | CodeTaskHolderRequired => "task_holder_required"
  | CodeTaskMustBeUnowned => "task_must_be_unowned"
  | CodeTaskNotActionable => "task_not_actionable"
  | CodeTaskHasUnresolvedConflict => "task_has_unresolved_conflict"
  | CodeIntendedDeviceMismatch => "intended_device_mismatch"
  | CodeAgentClaimLimitReached => "agent_claim_limit_reached"
  | CodeDeviceClaimLimitReached => "device_claim_limit_reached"
  | CodeDependencyNotFound => "dependency_not_found"
  | CodeDependencyCycle => "dependency_cycle"
  | CodeDependencyGraphTooComplex => "dependency_graph_too_complex"
  | CodeInvalidReleaseReason => "invalid_release_reason"
  | CodeReleaseActorMismatch => "release_actor_mismatch"
  | CodeReleaseNotAuthorized => "release_not_authorized"
  | CodeReassignmentTargetNotActive => "reassignment_target_not_active"
  | CodeInvalidLeaseTransition => "invalid_lease_transition"
  | CodeLeaseHolderRequired => "lease_holder_required"
  | CodeLeaseScopeConflict => "lease_scope_conflict"
  | CodeLeaseTaskNotFound => "lease_task_not_found"
  | CodeAgentLeaseLimitReached => "agent_lease_limit_reached"
  | CodeDeviceLeaseLimitReached => "device_lease_limit_reached"
  | CodePlanRevisionNotFound => "plan_revision_not_found"
  | CodePlanTaskNotFound => "plan_task_not_found"
  | CodeMemoryTaskNotFound => "memory_task_not_found"
  | CodeMemoryPredecessorNotFound => "memory_predecessor_not_found"
  | CodeMemoryPredecessorMismatch => "memory_predecessor_mismatch"
  | CodeMemoryPredecessorAlreadySuperseded => "memory_predecessor_already_superseded"
  | CodePolicyLimitBelowCurrentUse => "policy_limit_below_current_use"
  | CodeClusterApplyLevelDecrease => "cluster_apply_level_decrease"
  | CodeClusterApplyLevelUnsupported => "cluster_apply_level_unsupported"
  | CodeMembershipSubjectMismatch => "membership_subject_mismatch"
  | CodeMembershipSubjectNotFound => "membership_subject_not_found"
  | CodeMembershipSubjectNotActive => "membership_subject_not_active"
  | CodeMembershipReportUnchanged => "membership_report_unchanged"
  | CodeInvalidMembershipTransition => "invalid_membership_transition"
  | CodeLastActiveOwner => "last_active_owner"
  | CodeMemberLimitReached => "member_limit_reached"
  | CodeVoterSetVersionMismatch => "voter_set_version_mismatch"
  | CodeVoterSetVersionExhausted => "voter_set_version_exhausted"
  | CodeInvalidVoterSet => "invalid_voter_set"
  | CodeVoterTargetUnchanged => "voter_target_unchanged"
  | CodeVoterTargetAlreadyActivated => "voter_target_already_activated"
  | CodeVoterTargetNotActive => "voter_target_not_active"
  | CodeSoleVoterRevocation => "sole_voter_revocation"
  | CodeCredentialAuthorityQuorumLost => "credential_authority_quorum_lost"
  | CodeInvalidRecoveryAuthorization => "invalid_recovery_authorization"
  | CodeCredentialAuthorityVersionMismatch => "credential_authority_version_mismatch"
  | CodeInvalidVoterActivationProof => "invalid_voter_activation_proof"
  | CodeInvalidCredentialAuthorityHandoff => "invalid_credential_authority_handoff"
  | CodeInvalidPublicationTransition => "invalid_publication_transition"
  | CodePublicationAuthorMismatch => "publication_author_mismatch"
  | CodePublicationAuthorBindingMismatch => "publication_author_binding_mismatch"
  | CodePublicationTaskNotFound => "publication_task_not_found"
  | CodePublicationTaskHolderRequired => "publication_task_holder_required"
  | CodePublicationWorkingRootMismatch => "publication_working_root_mismatch"
  | CodePublicationPathLeaseRequired => "publication_path_lease_required"
  | CodePublicationControlPath => "publication_control_path"
  | CodePublicationSupersedesNotFound => "publication_supersedes_not_found"
  | CodePublicationSupersedesNotTerminal => "publication_supersedes_not_terminal"
  | CodePublicationSupersedesLineageMismatch => "publication_supersedes_lineage_mismatch"
  | CodePublicationConflictNotFound => "publication_conflict_not_found"
  | CodePublicationConflictNotUnresolved => "publication_conflict_not_unresolved"
  | CodeInvalidPublicationReceipts => "invalid_publication_receipts"
  | CodePublicationReceiptFromFuture => "publication_receipt_from_future"
  | CodePublicationReceiptStale => "publication_receipt_stale"
  | CodePublicationReceiptQuorumNotMet => "publication_receipt_quorum_not_met"
  | CodePublicationReviewNotIndependent => "publication_review_not_independent"
  | CodePublicationWithdrawalNotAuthorized => "publication_withdrawal_not_authorized"
  | CodeCanonicalRefVersionMismatch => "canonical_ref_version_mismatch"
  | CodeCanonicalRefVersionExhausted => "canonical_ref_version_exhausted"
  | CodePublicationBaseCommitMismatch => "publication_base_commit_mismatch"
  | CodeConflictIDMismatch => "conflict_id_mismatch"
  | CodeConflictPublicationNotFound => "conflict_publication_not_found"
  | CodeConflictPublicationTerminal => "conflict_publication_terminal"
  | CodeConflictCanonicalCommitMismatch => "conflict_canonical_commit_mismatch"
  | CodeConflictImmutableTupleMismatch => "conflict_immutable_tuple_mismatch"
  | CodeConflictDetectorPathsMismatch => "conflict_detector_paths_mismatch"
  | CodeInvalidConflictTransition => "invalid_conflict_transition"
  | CodeConflictResolutionNotFound => "conflict_resolution_not_found"
  | CodeConflictResolutionNotApplied => "conflict_resolution_not_applied"
  | CodeConflictResolutionNotDeclared => "conflict_resolution_not_declared"
  | CodeConflictResolutionAuthorMismatch => "conflict_resolution_author_mismatch"
  | CodeCredentialSubjectMismatch => "credential_subject_mismatch"
  | CodeCredentialSubjectNotFound => "credential_subject_not_found"
  | CodeCredentialSubjectNotActive => "credential_subject_not_active"
  | CodeCredentialEpochMismatch => "credential_epoch_mismatch"
  | CodeCredentialEpochExhausted => "credential_epoch_exhausted"
  | CodeCredentialKeyDigestMismatch => "credential_key_digest_mismatch"
  | CodeCredentialKeyReused => "credential_key_reused"
  | CodeInvalidCredentialBinding => "invalid_credential_binding"
  | CodeCredentialRoleMismatch => "credential_role_mismatch"
  | CodeInvalidCredentialEndorsements => "invalid_credential_endorsements"
  | CodeCredentialEndorsementQuorumNotMet => "credential_endorsement_quorum_not_met"
  | CodeCredentialValidityMismatch => "credential_validity_mismatch"
  | CodeCredentialRenewalTooEarly => "credential_renewal_too_early"
  | CodeCredentialNotBeforeMismatch => "credential_not_before_mismatch"
  | CodeActivityTaskNotFound => "activity_task_not_found"
  | CodeAuditSubjectNotFound => "audit_subject_not_found"
  | CodeAuditSubjectNotActive => "audit_subject_not_active"
  | CodeAuditCredentialEpochMismatch => "audit_credential_epoch_mismatch"
  | CodeAuditDepthExceeded => "audit_depth_exceeded"
  | CodeStaleCheckpoint => "stale_checkpoint"
  | CodeControlFilePathMismatch => "control_file_path_mismatch"
  | CodeControlFilePathRequired => "control_file_path_required"
  end.

Definition all_codes : list Code :=
  [CodeAccepted; CodeInvalidEnvelope; CodeInvalidOriginSignature; CodeSessionBindingMismatch;
   CodeOriginDeviceNotActive; CodeOriginScopeNotFound; CodeOriginSequenceGap;
   CodeOriginSequenceReused; CodeAgentSessionNotFound; CodeAgentSessionBindingMismatch;
   CodeAgentSessionNotConnected; CodeAgentSessionLimitReached; CodeInvalidAgentSessionTransition;
   CodeInvalidEndReason; CodeEndActorMismatch; CodeActorNotAllowed; CodeInvalidKindContract;
   CodeExpectedEntityVersion; CodeInsufficientRole; CodeInvalidPayload; CodeUnknownPayloadField;
   CodeMissingPayloadField; CodeEntityAlreadyExists; CodeEntityNotFound;
   CodeEntityVersionMismatch; CodeEntityVersionExhausted; CodeInvalidTaskTransition;
   CodeTaskHolderRequired; CodeTaskMustBeUnowned; CodeTaskNotActionable;
   CodeTaskHasUnresolvedConflict; CodeIntendedDeviceMismatch; CodeAgentClaimLimitReached;
   CodeDeviceClaimLimitReached; CodeDependencyNotFound; CodeDependencyCycle;
   CodeDependencyGraphTooComplex; CodeInvalidReleaseReason; CodeReleaseActorMismatch;
   CodeReleaseNotAuthorized; CodeReassignmentTargetNotActive; CodeInvalidLeaseTransition;
   CodeLeaseHolderRequired; CodeLeaseScopeConflict; CodeLeaseTaskNotFound;
   CodeAgentLeaseLimitReached; CodeDeviceLeaseLimitReached; CodePlanRevisionNotFound;
   CodePlanTaskNotFound; CodeMemoryTaskNotFound; CodeMemoryPredecessorNotFound;
   CodeMemoryPredecessorMismatch; CodeMemoryPredecessorAlreadySuperseded;
   CodePolicyLimitBelowCurrentUse; CodeClusterApplyLevelDecrease;
   CodeClusterApplyLevelUnsupported; CodeMembershipSubjectMismatch;
   CodeMembershipSubjectNotFound; CodeMembershipSubjectNotActive; CodeMembershipReportUnchanged;
   CodeInvalidMembershipTransition; CodeLastActiveOwner; CodeMemberLimitReached;
   CodeVoterSetVersionMismatch; CodeVoterSetVersionExhausted; CodeInvalidVoterSet;
   CodeVoterTargetUnchanged; CodeVoterTargetAlreadyActivated; CodeVoterTargetNotActive;
   CodeSoleVoterRevocation; CodeCredentialAuthorityQuorumLost; CodeInvalidRecoveryAuthorization;
   CodeCredentialAuthorityVersionMismatch; CodeInvalidVoterActivationProof;
   CodeInvalidCredentialAuthorityHandoff; CodeInvalidPublicationTransition;
   CodePublicationAuthorMismatch; CodePublicationAuthorBindingMismatch;
   CodePublicationTaskNotFound; CodePublicationTaskHolderRequired;
   CodePublicationWorkingRootMismatch; CodePublicationPathLeaseRequired;
   CodePublicationControlPath; CodePublicationSupersedesNotFound;
   CodePublicationSupersedesNotTerminal; CodePublicationSupersedesLineageMismatch;
   CodePublicationConflictNotFound; CodePublicationConflictNotUnresolved;
   CodeInvalidPublicationReceipts; CodePublicationReceiptFromFuture; CodePublicationReceiptStale;
   CodePublicationReceiptQuorumNotMet; CodePublicationReviewNotIndependent;
   CodePublicationWithdrawalNotAuthorized; CodeCanonicalRefVersionMismatch;
   CodeCanonicalRefVersionExhausted; CodePublicationBaseCommitMismatch; CodeConflictIDMismatch;
   CodeConflictPublicationNotFound; CodeConflictPublicationTerminal;
   CodeConflictCanonicalCommitMismatch; CodeConflictImmutableTupleMismatch;
   CodeConflictDetectorPathsMismatch; CodeInvalidConflictTransition;
   CodeConflictResolutionNotFound; CodeConflictResolutionNotApplied;
   CodeConflictResolutionNotDeclared; CodeConflictResolutionAuthorMismatch;
   CodeCredentialSubjectMismatch; CodeCredentialSubjectNotFound; CodeCredentialSubjectNotActive;
   CodeCredentialEpochMismatch; CodeCredentialEpochExhausted; CodeCredentialKeyDigestMismatch;
   CodeCredentialKeyReused; CodeInvalidCredentialBinding; CodeCredentialRoleMismatch;
   CodeInvalidCredentialEndorsements; CodeCredentialEndorsementQuorumNotMet;
   CodeCredentialValidityMismatch; CodeCredentialRenewalTooEarly;
   CodeCredentialNotBeforeMismatch; CodeActivityTaskNotFound; CodeAuditSubjectNotFound;
   CodeAuditSubjectNotActive; CodeAuditCredentialEpochMismatch; CodeAuditDepthExceeded;
   CodeStaleCheckpoint; CodeControlFilePathMismatch; CodeControlFilePathRequired].

Definition Code_of (text : string) : option Code :=
  find (λ c, bool_decide (Code_text c = text)) all_codes.

Lemma Code_of_text c : Code_of (Code_text c) = Some c.
Proof. by destruct c; vm_compute. Qed.

#[global] Instance Code_text_inj : Inj (=) (=) Code_text.
Proof. intros x y Heq. apply (f_equal Code_of) in Heq. rewrite !Code_of_text in Heq. by simplify_eq. Qed.

(** Codes are told apart by their texts. *)
#[global] Instance Code_eq_dec : EqDecision Code :=
  λ x y, match decide (Code_text x = Code_text y) with
         | left H => left (inj Code_text x y H)
         | right H => right (λ E, H (f_equal Code_text E))
         end.

Inductive ScopeKind := ScopeAgent | ScopeBoot | ScopeKindUnknown (text : string).

#[global] Instance ScopeKind_eq_dec : EqDecision ScopeKind.
Proof. solve_decision. Defined.

#[global] Instance ScopeKind_countable : Countable ScopeKind.
Proof.
  refine (inj_countable'
    (λ k, match k with ScopeAgent => inl true | ScopeBoot => inl false | ScopeKindUnknown t => inr t end)
    (λ x, match x with inl true => ScopeAgent | inl false => ScopeBoot | inr t => ScopeKindUnknown t end) _).
  by intros [].
Defined.

Record OriginScopeKey := mkOriginScopeKey {
  KDeviceID : string;
  KKind : ScopeKind;
  KScopeID : string }.

#[global] Instance OriginScopeKey_eq_dec : EqDecision OriginScopeKey.
Proof. solve_decision. Defined.

#[global] Instance OriginScopeKey_countable : Countable OriginScopeKey.
Proof.
  refine (inj_countable' (λ k, (KDeviceID k, KKind k, KScopeID k))
    (λ '(d, k, s), mkOriginScopeKey d k s) _).
  by intros [].
Defined.

Record OriginScope := mkOriginScope { ScopeKey : OriginScopeKey; LastSequence : N }.

#[global] Instance OriginScope_eq_dec : EqDecision OriginScope.
Proof. solve_decision. Defined.

Record Changes := mkChanges {
  AdvancesEventChain : bool;
  OriginScopes : list OriginScope;
  AuditCounters : list AuditCounter.Counter;
  Tasks : list Task.Task;
  PlanRevisions : list Plan.Revision;
  PlanCurrent : list Plan.Current;
  MemoryRecords : list Memory.Record_;
  Leases : list Lease.Lease;
  Devices : list Device.Device;
  VoterSets : list VoterSet.Set_;
  CredentialAuthorities : list CredentialAuthority.Authority;
  AgentSessions : list AgentSession.Session;
  CanonicalRefs : list Publication.CanonicalRef;
  CredentialAuthorizations : list CredentialAuthorization.Authorization;
  Publications : list Publication.Publication;
  ControlFileProposals : list ControlFile.Proposal;
  MergeConflicts : list Conflict.Conflict;
  SessionPolicy : list Policy.Policy }.

(** The zero value, and the literals the handlers build from it. *)
Definition no_changes : Changes :=
  mkChanges false [] [] [] [] [] [] [] [] [] [] [] [] [] [] [] [] [].

Inductive AuditClass := AuditOperatorOverride.
Record AuditDirective := mkAuditDirective { Class : AuditClass; Subject : string }.

Inductive AlarmClass := AlarmConflictIntegrity | AlarmConflictDetectorCompatibility.
Record AlarmDirective := mkAlarmDirective { AClass : AlarmClass; ASubject : string }.

Record AuditRecordedDirective := mkAuditRecordedDirective {
  ReporterDeviceID : string;
  SubjectDeviceID : string;
  SubjectCredentialEpoch : N;
  ActionCode : string;
  OutcomeCode : string;
  RSubject : string }.

Record CheckpointDirective := mkCheckpointDirective {
  DCheckpoint : Domain.Checkpoint;
  CanonicalUnsignedJSON : list N;
  AuthoritySignature : list N }.

Record Outcome := mkOutcome {
  OStatus : Status;
  OCode : Code;
  OChanges : Changes;
  RecordActivity : bool;
  ActivityTaskID : string;
  Audit : option AuditDirective;
  RecordedAudit : option AuditRecordedDirective;
  Alarm : option AlarmDirective;
  OCheckpoint : option CheckpointDirective }.

Definition Accepted (outcome : Outcome) : bool := OStatus outcome == StatusAccepted.

Inductive StateError :=
  | ErrKindNotImplemented | ErrApplyLevelUnsupported | ErrInvalidCommittedState
  | ErrCheckpointApplyContextRequired | ErrCheckpointEventRequired | ErrReducerCapacityExhausted
  | ErrCheckpointIntegrityMismatch
  | NilDereference. (* a Go panic *)

#[global] Instance StateError_eq_dec : EqDecision StateError.
Proof. solve_decision. Defined.

(** ** state.go: the committed state *)

Record State := mkState {
  sessionID : string;
  workspaceID : string;
  recoveryGeneration : N;
  recoveryPublicKey : list N;
  currentChainIndex : N;
  currentResultIndex : N;
  originScopes : gmap OriginScopeKey OriginScope;
  agentScopeDevices : gmap string string;
  auditCounters : gmap string AuditCounter.Counter;
  devices : gmap string Device.Device;
  voterSet : VoterSet.Set_;
  credentialAuthority : CredentialAuthority.Authority;
  credentialAuthorizations :
    gmap CredentialAuthorization.Key CredentialAuthorization.Authorization;
  credentialKeys : gmap (list N) CredentialAuthorization.Key;
  agentSessions : gmap string AgentSession.Session;
  tasks : gmap string Task.Task;
  planRevisions : gmap string Plan.Revision;
  planCurrent : Plan.Current;
  memoryRecords : gmap string Memory.Record_;
  memorySuccessors : gmap string string;
  leases : gmap string Lease.Lease;
  sessionPolicy : Policy.Policy;
  canonicalRef : Publication.CanonicalRef;
  publications : gmap string Publication.Publication;
  controlFileProposals : gmap string ControlFile.Proposal;
  mergeConflicts : gmap string Conflict.Conflict;
  claimsByAgent : gmap string (list string);
  claimsByDevice : gmap string (list string);
  activeLeasesByAgent : gmap string (list string);
  activeLeasesByDevice : gmap string (list string);
  activeLeaseIDs : list string;
  activeAgentSessionCount : Z;
  unresolvedConflictsByTask : gmap string N }.

(** A missing key of a Go map of slices is the nil slice, of a counter zero. *)
Definition ids_at (index : gmap string (list string)) (key : string) : list string :=
  default [] (index !! key).

(** ** Reductions

    A handler returns an outcome and an error. A check that fails returns an
    outcome early ([Done]) or the error [invalidState] ([Fail]). *)
Inductive Reduction (A : Type) :=
  | Val (a : A) | Done (o : Outcome) | Fail (e : StateError).
Arguments Val {A} a.
Arguments Done {A} o.
Arguments Fail {A} e.

Definition bind {A B} (m : Reduction A) (k : A → Reduction B) : Reduction B :=
  match m with Val a => k a | Done o => Done o | Fail e => Fail e end.

Definition invalidState {A} : Reduction A := Fail ErrInvalidCommittedState.

(** What a caller of the handler sees. *)
Definition run (m : Reduction Outcome) : StateError + Outcome :=
  match m with Val o | Done o => inr o | Fail e => inl e end.

Definition fails {E} (result : option E) : bool :=
  match result with Some _ => true | None => false end.

Definition present {A} (value : option A) : bool :=
  match value with Some _ => true | None => false end.

End Reducer.

Declare Scope reducer_scope.
Delimit Scope reducer_scope with reducer.

Notation "'let!' x ':=' m 'in' k" := (Reducer.bind m (λ x, k))
  (at level 10, x pattern, m at level 99, k at level 200) : reducer_scope.
Notation "'stop' o 'when' c ';;' k" :=
  (if c%bool then Reducer.Done o else k)
  (at level 10, o at level 9, c at level 99, k at level 200) : reducer_scope.
Notation "'invalid' 'when' c ';;' k" :=
  (if c%bool then Reducer.invalidState else k)
  (at level 10, c at level 99, k at level 200) : reducer_scope.
