(* ===== verification/PolicyUse.v ===== *)
(** * Package internal/reducer: use of the policy limits

    [Module PolicyUse]: [policyUseViolation] and [validateDerivedBounds] of
    state.go: whether the replicated rows, with the rows a change set would
    write, stay within the limits of a session policy. *)

From stdpp Require Import base gmap strings list sorting.
From Stdlib Require Import ZArith NArith Lia.
From S2P Require Import Prelude.
From S2P Require Import GoLib.
From S2P Require Import DomainValues.
From S2P Require Import TaskEntity.
From S2P Require Import LeaseEntity.
From S2P Require Import AgentSessionEntity.
From S2P Require Import DeviceEntity.
From S2P Require Import PolicyEntity.
From S2P Require Import ReducerState.

Module PolicyUse.

Import Reducer.

(** The rows a change set writes, by id. *)
Record Pending := mkPending {
  pendingDevices : gmap string Device.Device;
  pendingAuditCounters : gmap string AuditCounter.Counter;
  pendingSessions : gmap string AgentSession.Session;
  pendingTasks : gmap string Task.Task;
  pendingLeases : gmap string Lease.Lease }.

Definition nothing_pending : Pending := mkPending ∅ ∅ ∅ ∅ ∅.

Inductive policyUseResult :=
  | policyUseWithinLimits | policyUseExceedsLimit | policyUseUnsupportedApplyLevel.

#[global] Instance policyUseResult_eq_dec : EqDecision policyUseResult.
Proof. solve_decision. Defined.

(** The rows after the change: a pending row replaces the state's row of its
    id, or is added. The order of iteration does not matter to the counts. *)
Definition rows {V} (pending current : gmap string V) : list V :=
  (map_to_list (pending ∪ current)).*2.

Definition count {V} (counted : V → bool) (l : list V) : Z :=
  Z.of_nat (length (filter (λ v, counted v = true) l)).

(** [counts[key(v)]++] for every counted row. *)
Definition counts_by {V} (counted : V → bool) (key : V → string) (l : list V) : gmap string Z :=
  foldr (λ v counts, if counted v then <[key v := default 0%Z (counts !! key v) + 1]>%Z counts
                     else counts) ∅ l.

Definition anyCountAbove (counts : gmap string Z) (limit : Z) : bool :=
  existsb (λ '(_, n), (limit <? n)%Z) (map_to_list counts).

Definition activeMember (member : Device.Device) : bool :=
  Device.DeviceStatus member == Device.StatusActive.
Definition unsupported (values : Policy.Values) (member : Device.Device) : bool :=
  activeMember member &&
  (Device.MaxApplyLevel member <? u64_of_int64 (Policy.ClusterMinApplyLevel values))%N.
Definition openSession (session : AgentSession.Session) : bool :=
  AgentSession.SessionState session != AgentSession.StateEnded.
Definition claimed (value : Task.Task) : bool := Task.OwnerDeviceID value != EmptyString.
Definition leased (value : Lease.Lease) : bool := Lease.LeaseStatus value == Lease.StatusActive.

Definition policyUseViolation (state : State) (values : Policy.Values) (pending : Pending)
    : policyUseResult :=
  let members := rows (pendingDevices pending) (devices state) in
  let counters := rows (pendingAuditCounters pending) (auditCounters state) in
  let sessions := rows (pendingSessions pending) (agentSessions state) in
  let taskRows := rows (pendingTasks pending) (tasks state) in
  let leaseRows := rows (pendingLeases pending) (leases state) in
  let depth := u64_of_int64 (Policy.AuditDepthPerDevicePerEpoch values) in
  if (Policy.MaxMemberDevices_ values <? count activeMember members)%Z ||
     (Policy.MaxActiveAgentSessions_ values <? count openSession sessions)%Z ||
     existsb (λ counter, depth <? AuditCounter.AcceptedCount counter)%N counters ||
     anyCountAbove (counts_by claimed Task.OwnerAgentSessionID taskRows)
       (Policy.AgentClaimLimit values) ||
     anyCountAbove (counts_by claimed Task.OwnerDeviceID taskRows)
       (Policy.DeviceClaimLimit values) ||
     anyCountAbove (counts_by leased Lease.HolderAgentSessionID leaseRows)
       (Policy.AgentLeaseLimit values) ||
     anyCountAbove (counts_by leased Lease.HolderDeviceID leaseRows)
       (Policy.DeviceLeaseLimit values)
  then policyUseExceedsLimit
  else if existsb (unsupported values) members then policyUseUnsupportedApplyLevel
  else policyUseWithinLimits.

(** The lengths of the id lists of an index. *)
Definition index_lengths (index : gmap string (list string)) : list Z :=
  (λ '(_, ids), Z.of_nat (length ids)) <$> map_to_list index.

Definition sum_lengths (index : gmap string (list string)) : Z :=
  foldr Z.add 0%Z (index_lengths index).

Definition above (limit : Z) (index : gmap string (list string)) : bool :=
  existsb (λ n, limit <? n)%Z (index_lengths index).

(** [None] when every derived index is within the committed policy. Every
    error is the invalid-state one. *)
Definition validateDerivedBounds (state : State) : option StateError :=
  let values := Policy.PolicyValues (sessionPolicy state) in
  let activeSessions := count openSession (map_to_list (agentSessions state)).*2 in
  let ids := Z.of_nat (length (activeLeaseIDs state)) in
  refuse ErrInvalidCommittedState
    when (negb (activeSessions =? activeAgentSessionCount state)%Z) ;;
  refuse ErrInvalidCommittedState
    when (Policy.MaxActiveAgentSessions_ values <? activeSessions)%Z ;;
  refuse ErrInvalidCommittedState
    when (above (Policy.AgentClaimLimit values) (claimsByAgent state)) ;;
  refuse ErrInvalidCommittedState
    when (above (Policy.DeviceClaimLimit values) (claimsByDevice state)) ;;
  refuse ErrInvalidCommittedState
    when (above (Policy.AgentLeaseLimit values) (activeLeasesByAgent state)) ;;
  refuse ErrInvalidCommittedState
    when (above (Policy.DeviceLeaseLimit values) (activeLeasesByDevice state)) ;;
  refuse ErrInvalidCommittedState
    when (negb (sum_lengths (activeLeasesByAgent state) =? ids)%Z ||
          negb (sum_lengths (activeLeasesByDevice state) =? ids)%Z) ;;
  match policyUseViolation state values nothing_pending with
  | policyUseWithinLimits => None
  | _ => Some ErrInvalidCommittedState
  end.

(** ** Lemmas *)

Lemma elem_of_rows {V} (pending current : gmap string V) v :
  v ∈ rows pending current ↔ ∃ id, (pending ∪ current) !! id = Some v.
Proof.
  unfold rows. rewrite list_elem_of_fmap. split.
  - intros ([id w] & -> & Hin%elem_of_map_to_list). eauto.
  - intros [id Hid]. exists (id, v). split; [done|]. by apply elem_of_map_to_list.
Qed.

Lemma counts_by_count {V} (counted : V → bool) key (l : list V) k :
  default 0%Z (counts_by counted key l !! k) = count (λ v, counted v && (key v == k)) l.
Proof.
  unfold count. induction l as [|v l IH]; [done|]. rewrite filter_cons. simpl.
  case_decide as Hd; rewrite andb_true_iff, bool_decide_eq_true in Hd.
  - destruct Hd as [-> <-]. rewrite lookup_insert_eq. simpl. rewrite IH. lia.
  - destruct (counted v); [|done]. rewrite lookup_insert_ne; [done|]. naive_solver.
Qed.

(** No key is counted above a limit that is not negative exactly when the
    count of every key is within it. *)
Lemma anyCountAbove_false {V} (counted : V → bool) key (l : list V) limit :
  (0 ≤ limit)%Z →
  anyCountAbove (counts_by counted key l) limit = false ↔
  ∀ k, (count (λ v, counted v && (key v == k)) l ≤ limit)%Z.
Proof.
  intros H0. unfold anyCountAbove. rewrite <-not_true_iff_false, existsb_exists. split.
  - intros Hn k. rewrite <-counts_by_count.
    destruct (counts_by counted key l !! k) as [n|] eqn:Hk; simpl; [|done].
    destruct (Z.ltb_spec limit n); [|lia]. exfalso. apply Hn.
    exists (k, n). split; [apply list_elem_of_In, elem_of_map_to_list, Hk|]. by apply Z.ltb_lt.
  - intros Hall ([k n] & Hin%list_elem_of_In%elem_of_map_to_list & Hlt%Z.ltb_lt).
    specialize (Hall k). rewrite <-counts_by_count, Hin in Hall. simpl in Hall. lia.
Qed.

End PolicyUse.
