(* ===== verification/Preflight.v ===== *)
(** * Package internal/reducer: payloads and admission

    [Module Preflight]: the closed payload decoder (payload.go), the admission
    of a signed event and the constructors of outcomes (preflight.go), and the
    compatibility checks of reducer.go. *)

From stdpp Require Import base gmap strings list.
From Stdlib Require Import ZArith NArith Lia.
From S2P Require Import Prelude.
From S2P Require Import GoLib.
From S2P Require Import GoJson.
From S2P Require Import CodecLayer.
From S2P Require Import DomainValues.
From S2P Require Import TaskEntity.
From S2P Require Import LeaseEntity.
From S2P Require Import AgentSessionEntity.
From S2P Require Import DeviceEntity.
From S2P Require Import PlanMemoryEntity.
From S2P Require Import PolicyEntity.
From S2P Require Import EventModel.
From S2P Require Import EventWire.
From S2P Require Import ReducerState.

Open Scope reducer_scope.

Module Preflight.

Import Reducer.

(** ** payload.go *)

(** A member map; a raw member is the value its canonical bytes spell. *)
Definition payloadObject : Type := gmap string json.

Definition decodeString (payload : payloadObject) (field : string) : option string :=
  v ← payload !! field; EventWire.decode_string v.
Definition decodeUint64 (payload : payloadObject) (field : string) : option N :=
  v ← payload !! field; EventWire.decode_uint64 v.
Definition decodeInt64 (payload : payloadObject) (field : string) : option Z :=
  v ← payload !! field; EventWire.decode_int64 v.
Definition decodeStrings (payload : payloadObject) (field : string) : option (list string) :=
  v ← payload !! field; EventWire.decode_strings v.

Definition supplied (payload : payloadObject) (field : string) : bool :=
  match payload !! field with Some _ => true | None => false end.

Definition decodePriority (payload : payloadObject) (field : string) : option N :=
  value ← decodeUint64 payload field;
  if (Task.MaxPriority <? value)%N then None else Some value.

Definition decodeTaskIDs : payloadObject → string → option (list string) := decodeStrings.

Definition decodeLabels (payload : payloadObject) (field : string) : option (list string) :=
  values ← decodeStrings payload field;
  match Task.NormalizeLabels values with inl _ => None | inr labels => Some labels end.

(** The early exits of [beginReduction]: a rejection that consumes no sequence. *)
Definition rejectWithoutSequence (code : Code) : Outcome :=
  mkOutcome StatusRejected code no_changes false EmptyString None None None None.

Definition validateOriginScope (key : OriginScopeKey) (scope : OriginScope) : bool :=
  (ScopeKey scope == key) && Domain.DeviceID_Valid (KDeviceID key) &&
  ((KKind key == ScopeAgent) || (KKind key == ScopeBoot)) &&
  Domain.UUIDv7_Valid (KScopeID key) &&
  (1 <=? LastSequence scope)%N && Domain.ValidUnsignedInteger (LastSequence scope).

Definition roleSatisfies (role : Device.Role) (requirement : Event.RoleRequirement) : bool :=
  match requirement with
  | Event.RoleNone => true
  | Event.RoleMember | Event.RoleEditor =>
      (role == Device.RoleEditor) || (role == Device.RoleOwner)
  | Event.RoleOwner => role == Device.RoleOwner
  end.

Definition kindContractCode (err : Event.Error) : Code :=
  match err with
  | Event.ErrActorNotAllowed => CodeActorNotAllowed
  | Event.ErrExpectedEntityVersion => CodeExpectedEntityVersion
  | _ => CodeInvalidKindContract
  end.

Record reductionContext := mkContext {
  state : State;
  proposal : Event.Proposal;
  device : Device.Device;
  agentSession : option AgentSession.Session;
  scope : OriginScope }.

Definition scope_changes (context : reductionContext) : Changes :=
  mkChanges false [scope context] [] [] [] [] [] [] [] [] [] [] [] [] [] [] [] [].

Definition reject (context : reductionContext) (code : Code) : Outcome :=
  mkOutcome StatusRejected code (scope_changes context) false EmptyString None None None None.

Definition rejectWithAlarm (context : reductionContext) (code : Code)
    (alarm : option AlarmDirective) : Outcome :=
  mkOutcome StatusRejected code (scope_changes context) false EmptyString None None alarm None.

Definition accept (changes : Changes) (task : string) (audit : option AuditDirective) : Outcome :=
  mkOutcome StatusAccepted CodeAccepted changes false task audit None None None.

Definition acceptTask (context : reductionContext) (value : Task.Task)
    (audit : option AuditDirective) : Reduction Outcome :=
  invalid when (fails (Task.Validate value)) ;;
  Val (accept (mkChanges false [scope context] [] [value] [] [] [] [] [] [] [] [] [] [] [] [] [] [])
         (Task.ID value) audit).

Definition acceptPlanRevision (context : reductionContext) (value : Plan.Revision)
    : Reduction Outcome :=
  invalid when (fails (Plan.Revision_Validate value)) ;;
  Val (accept (mkChanges false [scope context] [] [] [value] [] [] [] [] [] [] [] [] [] [] [] [] [])
         EmptyString None).

Definition acceptPlanCurrent (context : reductionContext) (value : Plan.Current)
    (audit : option AuditDirective) : Reduction Outcome :=
  invalid when (fails (Plan.Current_Validate value)) ;;
  Val (accept (mkChanges false [scope context] [] [] [] [value] [] [] [] [] [] [] [] [] [] [] [] [])
         EmptyString audit).

Definition acceptMemory (context : reductionContext) (value : Memory.Record_)
    : Reduction Outcome :=
  invalid when (fails (Memory.Validate value)) ;;
  Val (accept (mkChanges false [scope context] [] [] [] [] [value] [] [] [] [] [] [] [] [] [] [] [])
         (Memory.taskID value) None).

Definition acceptPolicy (context : reductionContext) (value : Policy.Policy)
    (audit : option AuditDirective) : Reduction Outcome :=
  invalid when (fails (Policy.Validate value)) ;;
  Val (accept (mkChanges false [scope context] [] [] [] [] [] [] [] [] [] [] [] [] [] [] [] [value])
         EmptyString audit).

Section Lib.
Context `{NormLib, JCSLib, CryptoLib}.

Definition acceptLease (context : reductionContext) (value : Lease.Lease)
    (audit : option AuditDirective) : Reduction Outcome :=
  invalid when (fails (Lease.Validate value)) ;;
  Val (accept (mkChanges false [scope context] [] [] [] [] [] [value] [] [] [] [] [] [] [] [] [] [])
         (Lease.TaskID value) audit).

Definition acceptAgentSession (context : reductionContext) (value : AgentSession.Session)
    (tasks : list Task.Task) (leases : list Lease.Lease) : Reduction Outcome :=
  invalid when (fails (AgentSession.Validate value)) ;;
  invalid when (existsb (λ t, fails (Task.Validate t)) tasks) ;;
  invalid when (existsb (λ l, fails (Lease.Validate l)) leases) ;;
  Val (accept (mkChanges false [scope context] [] tasks [] [] [] leases [] [] [] [value] [] [] [] [] [] [])
         EmptyString None).

(** The bytes of a raw member: in canonical text, those the canonical writer
    gives for its value; an absent member is the nil message. *)
Definition rawMember (payload : payloadObject) (field : string) : list N :=
  match payload !! field with Some v => jcs_Append v | None => [] end.

(** [decodeValue[[]json.RawMessage]]. *)
Definition decodeRaws (payload : payloadObject) (field : string) : option (list (list N)) :=
  match payload !! field with
  | Some (JArray items) => Some (jcs_Append <$> items)
  | Some JNull => Some []
  | _ => None
  end.

(** [decodePayload]: the classes of refusal are tried in this order whatever
    the order of the members. [inl] is the refusal code. *)
Definition decodePayload (input : list N) (required optional : list string)
    : Code + payloadObject :=
  match Codec.CanonicalizeSignedObject input with
  | inl _ => inl CodeInvalidPayload
  | inr canonical =>
      if canonical != input then inl CodeInvalidPayload
      else match Codec.unmarshal canonical with
      | Some (JObject members) =>
          let object := EventWire.members_of members in
          if existsb (λ '(field, _), negb (bool_decide (field ∈ required ++ optional)))
               (map_to_list object) then inl CodeUnknownPayloadField
          else if existsb (λ '(_, value), EventWire.is_null value) (map_to_list object)
          then inl CodeInvalidPayload
          else if existsb (λ field, negb (supplied object field)) required
          then inl CodeMissingPayloadField
          else inr object
      | _ => inl CodeInvalidPayload
      end
  end.

(** ** preflight.go *)

Definition sessionConnected (session : AgentSession.Session) : bool :=
  AgentSession.Connected (AgentSession.SessionState session).

Definition validateOriginBinding (state : State) (proposal : Event.Proposal)
    : Reduction OriginScopeKey :=
  let origin := Event.POrigin proposal in
  if Event.actorType origin != Event.ActorAgent
  then Val (mkOriginScopeKey (Event.deviceID origin) ScopeBoot (Event.originBootID origin))
  else
    let sessionID := Event.agentSessionID origin in
    let key := mkOriginScopeKey (Event.deviceID origin) ScopeAgent sessionID in
    if Event.PKind proposal == Event.KindAgentSessionStarted then
      stop (rejectWithoutSequence CodeEntityAlreadyExists)
        when (bool_decide (is_Some (agentSessions state !! sessionID))) ;;
      stop (rejectWithoutSequence CodeEntityAlreadyExists)
        when (bool_decide (is_Some (agentScopeDevices state !! sessionID))) ;;
      Val key
    else
      match agentSessions state !! sessionID with
      | None => Done (rejectWithoutSequence CodeAgentSessionNotFound)
      | Some session =>
          invalid when (AgentSession.ID session != sessionID) ;;
          invalid when (fails (AgentSession.Validate session)) ;;
          let sessionProfilePresent :=
            match AgentSession.AgentProfileID session with Some _ => true | None => false end in
          stop (rejectWithoutSequence CodeAgentSessionBindingMismatch)
            when ((AgentSession.DeviceID session != Event.deviceID origin) ||
                  negb (Bool.eqb (Event.profilePresent origin) sessionProfilePresent) ||
                  Event.profilePresent origin &&
                  (Some (Event.agentProfileID origin) != AgentSession.AgentProfileID session)) ;;
          stop (rejectWithoutSequence CodeAgentSessionNotConnected)
            when (negb (sessionConnected session)) ;;
          Val key
      end.

(** The session of an agent origin, when it has a row. *)
Definition originSession (state : State) (origin : Event.Origin) : option AgentSession.Session :=
  if Event.actorType origin == Event.ActorAgent
  then agentSessions state !! Event.agentSessionID origin else None.

(** The sequence the scope expects next, in the context it is consumed in. *)
Definition consumeSequence (state : State) (proposal : Event.Proposal) (member : Device.Device)
    (scopeKey : OriginScopeKey) : Reduction reductionContext :=
  let origin := Event.POrigin proposal in
  let sequence := Event.sequence origin in
  let consumed := mkContext state proposal member (originSession state origin)
                    (mkOriginScope scopeKey sequence) in
  match originScopes state !! scopeKey with
  | None =>
      stop (rejectWithoutSequence CodeOriginScopeNotFound)
        when ((KKind scopeKey == ScopeAgent) &&
              (Event.PKind proposal != Event.KindAgentSessionStarted)) ;;
      stop (rejectWithoutSequence CodeOriginSequenceReused) when (sequence <? 1)%N ;;
      stop (rejectWithoutSequence CodeOriginSequenceGap) when (1 <? sequence)%N ;;
      Val consumed
  | Some scope =>
      invalid when (negb (validateOriginScope scopeKey scope)) ;;
      stop (rejectWithoutSequence CodeOriginSequenceReused)
        when (sequence <=? LastSequence scope)%N ;;
      stop (rejectWithoutSequence CodeOriginSequenceReused)
        when (LastSequence scope =? Domain.MaxSafeInteger)%N ;;
      let expected := u64_succ (LastSequence scope) in
      stop (rejectWithoutSequence CodeOriginSequenceReused) when (sequence <? expected)%N ;;
      stop (rejectWithoutSequence CodeOriginSequenceGap) when (expected <? sequence)%N ;;
      Val consumed
  end.

Definition beginReduction (state : State) (signed : Event.SignedEvent)
    : Reduction reductionContext :=
  let claimed := Event.proposal signed in
  invalid when (negb (Domain.UUIDv7_Valid (sessionID state)) ||
                negb (Domain.UUIDv4_Valid (workspaceID state))) ;;
  stop (rejectWithoutSequence CodeInvalidEnvelope)
    when (fails (Event.ValidateEnvelope claimed)) ;;
  stop (rejectWithoutSequence CodeSessionBindingMismatch)
    when ((Event.SessionID claimed != sessionID state) ||
          (Event.WorkspaceID claimed != workspaceID state)) ;;
  let claimedDevice := Event.deviceID (Event.POrigin claimed) in
  match devices state !! claimedDevice with
  | None => Done (rejectWithoutSequence CodeOriginDeviceNotActive)
  | Some member =>
      invalid when (Device.ID member != claimedDevice) ;;
      invalid when (fails (Device.Validate member)) ;;
      stop (rejectWithoutSequence CodeOriginDeviceNotActive)
        when (Device.DeviceStatus member != Device.StatusActive) ;;
      match EventWire.ParseAndVerify (Event.canonical signed)
              (Event.mkVerificationContext (sessionID state) (workspaceID state)
                 (Device.IdentityPublicKey member)) with
      | inl _ => Done (rejectWithoutSequence CodeInvalidOriginSignature)
      | inr verified =>
          let proposal := Event.proposal verified in
          let contract := Event.ValidateKindContract proposal in
          stop (rejectWithoutSequence (kindContractCode (default Event.ErrInvalidEnvelope contract)))
            when ((Event.PKind proposal == Event.KindAgentSessionStarted) && fails contract) ;;
          let! scopeKey := validateOriginBinding state proposal in
          let! context := consumeSequence state proposal member scopeKey in
          match contract with
          | Some err => Done (reject context (kindContractCode err))
          | None =>
              match Event.LookupKind (Event.PKind proposal) with
              | None => Fail ErrKindNotImplemented
              | Some spec =>
                  stop (reject context CodeInsufficientRole)
                    when (negb (roleSatisfies (Device.DeviceRole member) (Event.minimumRole spec))) ;;
                  Val context
              end
          end
      end
  end.

(** ** reducer.go: compatibility *)

Definition ValidateBinaryApplyLevel (state : State) : option StateError :=
  let clusterApplyLevel := Policy.ClusterMinApplyLevel (Policy.PolicyValues (sessionPolicy state)) in
  refuse ErrInvalidCommittedState when (clusterApplyLevel <? 1)%Z ;;
  refuse ErrApplyLevelUnsupported
    when (Z.of_N Event.MaxSupportedApplyLevel <? clusterApplyLevel)%Z ;;
  None.

Definition taskKind (kind : Event.Kind) : bool :=
  match kind with
  | Event.KindTaskCreated | Event.KindTaskUpdated | Event.KindTaskStateChanged
  | Event.KindTaskClaimed | Event.KindTaskReleased | Event.KindTaskReassigned
  | Event.KindTaskCancelled => true
  | _ => false
  end.

Definition activityKind (kind : Event.Kind) : bool := kind == Event.KindActivityRecorded.

Definition leaseKind (kind : Event.Kind) : bool :=
  match kind with
  | Event.KindLeaseAcquired | Event.KindLeaseRenewed | Event.KindLeaseReleased => true
  | _ => false
  end.

Definition agentSessionKind (kind : Event.Kind) : bool :=
  match kind with
  | Event.KindAgentSessionStarted | Event.KindAgentSessionStateChanged | Event.KindAgentSessionEnded => true
  | _ => false
  end.

Definition planKind (kind : Event.Kind) : bool :=
  (kind == Event.KindPlanRevisionProposed) || (kind == Event.KindPlanCurrentSelected).

Definition memoryKind (kind : Event.Kind) : bool := kind == Event.KindMemoryAppended.

Definition membershipKind (kind : Event.Kind) : bool :=
  match kind with
  | Event.KindMembershipDeviceAdmitted | Event.KindMembershipVersionReported | Event.KindMembershipRoleChanged
  | Event.KindMembershipOwnerRecovered | Event.KindMembershipDeviceRevoked | Event.KindMembershipVoterSetChanged
  | Event.KindMembershipVoterSetActivated => true
  | _ => false
  end.

Definition policyKind (kind : Event.Kind) : bool := kind == Event.KindPolicyChanged.

Definition credentialKind (kind : Event.Kind) : bool := kind == Event.KindCredentialAuthorized.

Definition controlFileKind (kind : Event.Kind) : bool :=
  kind == Event.KindControlFileChangeProposed.

Definition publicationKind (kind : Event.Kind) : bool :=
  match kind with
  | Event.KindPublicationProposed | Event.KindPublicationReviewed | Event.KindPublicationApplied
  | Event.KindPublicationWithdrawn => true
  | _ => false
  end.

Definition conflictKind (kind : Event.Kind) : bool :=
  match kind with
  | Event.KindWorkspaceConflictDetected | Event.KindWorkspaceConflictResolved | Event.KindWorkspaceConflictForceResolved => true
  | _ => false
  end.

Definition checkpointKind (kind : Event.Kind) : bool := kind == Event.KindConsensusCheckpoint.

Definition auditKind (kind : Event.Kind) : bool := kind == Event.KindAuditRecorded.

Definition implementedKind (kind : Event.Kind) : bool :=
  taskKind kind || activityKind kind || leaseKind kind || agentSessionKind kind ||
  planKind kind || memoryKind kind || membershipKind kind || policyKind kind ||
  credentialKind kind || controlFileKind kind || publicationKind kind || conflictKind kind ||
  checkpointKind kind || auditKind kind.

Definition PreflightCompatibility (state : State) (proposal : Event.Proposal)
    : option StateError :=
  check ValidateBinaryApplyLevel state ;;
  let clusterApplyLevel := Policy.ClusterMinApplyLevel (Policy.PolicyValues (sessionPolicy state)) in
  refuse ErrApplyLevelUnsupported
    when ((Event.MaxSupportedApplyLevel <? Event.MinApplyLevel proposal)%N ||
          (clusterApplyLevel <? Z.of_N (Event.MinApplyLevel proposal))%Z) ;;
  refuse ErrKindNotImplemented
    when (match Event.LookupKind (Event.PKind proposal) with Some _ => false | None => true end) ;;
  refuse ErrKindNotImplemented when (negb (implementedKind (Event.PKind proposal))) ;;
  None.

Definition prepareReduction (state : State) (signed : Event.SignedEvent)
    : Reduction reductionContext :=
  invalid when (negb (Domain.ValidUnsignedInteger (currentChainIndex state)) ||
                negb (Domain.ValidUnsignedInteger (currentResultIndex state)) ||
                (currentResultIndex state <? currentChainIndex state)%N) ;;
  if (currentResultIndex state =? Domain.MaxSafeInteger)%N then Fail ErrReducerCapacityExhausted
  else match PreflightCompatibility state (Event.proposal signed) with
  | Some err => Fail err
  | None => beginReduction state signed
  end.

(** ** Shared steps of the handlers *)

Section Steps.
Context (context : reductionContext).

Definition payload_of (required optional : list string) : Reduction payloadObject :=
  match decodePayload (Event.Payload (proposal context)) required optional with
  | inl code => Done (reject context code)
  | inr payload => Val payload
  end.

(** [if !ok { return context.reject(code), nil }]. *)
Definition require {A} (code : Code) (o : option A) : Reduction A :=
  match o with Some v => Val v | None => Done (reject context code) end.

(** A member that may be absent: its value, or [zero]. *)
Definition optional {A} (payload : payloadObject) (field : string) (decoded : option A) (zero : A)
    : Reduction A :=
  if supplied payload field then require CodeInvalidPayload decoded else Val zero.

Definition proposalID : string := Event.value (Event.PEntityID (proposal context)).
Definition proposalTime : string := Event.CreatedAt (proposal context).
Definition proposalActor : Event.ActorType := Event.actorType (Event.POrigin (proposal context)).

(** [loadMutableX]: the version test that every mutation passes. *)
Definition expectVersion (version : N) : Reduction () :=
  stop (reject context CodeEntityVersionMismatch)
    when (Event.ExpectedEntityVersion (proposal context) != Some version) ;;
  stop (reject context CodeEntityVersionExhausted) when (version =? Domain.MaxSafeInteger)%N ;;
  Val ().

End Steps.

End Lib.
End Preflight.
