(* ===== verification/StateRefs.v ===== *)
(** * Package internal/reducer: reference checks and ordered indexes

    [Module StateRefs]: the parts of state.go that both the handlers and the
    application of a change set use: the checks that a row's references
    resolve, and the sorted id indexes. *)

From stdpp Require Import base gmap strings list sorting.
From Stdlib Require Import ZArith NArith Lia.
From S2P Require Import Prelude.
From S2P Require Import GoLib.
From S2P Require Import GoJson.
From S2P Require Import CodecLayer.
From S2P Require Import DomainValues.
From S2P Require Import TaskEntity.
From S2P Require Import LeaseEntity.
From S2P Require Import AgentSessionEntity.
From S2P Require Import DeviceEntity.
From S2P Require Import ReducerState.
From S2P Require Import Preflight.

Module StateRefs.

Import Reducer Preflight.

(** ** References: [false] is the error return *)

Definition validateTaskReferences (state : State) (value : Task.Task) (pendingTasks : gset string)
    : bool :=
  forallb (λ dependencyID,
             bool_decide (is_Some (tasks state !! dependencyID)) ||
             bool_decide (dependencyID ∈ pendingTasks)) (Task.BlockedBy value) &&
  ((Task.OwnerDeviceID value == EmptyString) ||
   (bool_decide (is_Some (devices state !! Task.OwnerDeviceID value)) &&
    match agentSessions state !! Task.OwnerAgentSessionID value with
    | None => false
    | Some session =>
        (AgentSession.DeviceID session == Task.OwnerDeviceID value) &&
        (AgentSession.SessionState session != AgentSession.StateEnded)
    end)) &&
  ((Task.IntendedDeviceID value == EmptyString) ||
   bool_decide (is_Some (devices state !! Task.IntendedDeviceID value))).

Section Lib.
Context `{NormLib, CryptoLib}.

(** A device row under its own id that validates. *)
Definition validMember (state : State) (deviceID : string) : bool :=
  match devices state !! deviceID with
  | None => false
  | Some member => (Device.ID member == deviceID) && negb (fails (Device.Validate member))
  end.

Definition validateAgentSessionReferences (state : State) (value : AgentSession.Session) : bool :=
  let scopeKey := mkOriginScopeKey (AgentSession.DeviceID value) ScopeAgent (AgentSession.ID value) in
  let boundDeviceID := agentScopeDevices state !! AgentSession.ID value in
  let recoveryHistorical :=
    (AgentSession.SessionState value == AgentSession.StateEnded) &&
    (AgentSession.SessionEndReason value == AgentSession.EndReasonRecovery) in
  validMember state (AgentSession.DeviceID value) &&
  (if recoveryHistorical then negb (present boundDeviceID)
   else
     match boundDeviceID, originScopes state !! scopeKey with
     | Some bound, Some scope =>
         (bound == AgentSession.DeviceID value) && validateOriginScope scopeKey scope
     | _, _ => false
     end).

Definition validateLeaseReferences (state : State) (value : Lease.Lease) : bool :=
  validMember state (Lease.HolderDeviceID value) &&
  match agentSessions state !! Lease.HolderAgentSessionID value with
  | None => false
  | Some session =>
      (AgentSession.ID session == Lease.HolderAgentSessionID value) &&
      (AgentSession.DeviceID session == Lease.HolderDeviceID value) &&
      negb (fails (AgentSession.Validate session)) &&
      negb ((Lease.LeaseStatus value == Lease.StatusActive) &&
            (AgentSession.SessionState session == AgentSession.StateEnded))
  end &&
  ((Lease.TaskID value == EmptyString) ||
   match tasks state !! Lease.TaskID value with
   | None => false
   | Some associated =>
       (Task.ID associated == Lease.TaskID value) && negb (fails (Task.Validate associated))
   end).

End Lib.

(** [verifyLabeledSignature] of membership_voter_set_activated.go. *)
Definition verifyLabeledSignature `{CryptoLib} (publicKey : list N) (label : Codec.SignatureLabel)
    (preimage signature : list N) : bool :=
  match Codec.BuildSignedInput label preimage with
  | inl _ => false
  | inr signedInput =>
      (llen publicKey =? Crypto.Ed25519PublicKeySize)%N &&
      (llen signature =? Crypto.Ed25519SignatureSize)%N &&
      Ed25519_Verify publicKey signedInput signature
  end.

(** ** Sorted indexes *)

Definition removeSortedUUIDv7 (ids : list string) (id : string) : list string :=
  let '(index, exists_) := BinarySearch ids id in
  if exists_ then take index ids ++ drop (S index) ids else ids.

Definition insertSortedUUIDv7 (ids : list string) (id : string) : list string :=
  let '(index, exists_) := BinarySearch ids id in
  if exists_ then ids else take index ids ++ id :: drop index ids.

Definition update_ids (update : list string → list string) (index : gmap string (list string))
    (key : string) : gmap string (list string) :=
  <[key := update (ids_at index key)]> index.

(** [removeClaim], [addClaim]: the two indexes after the call. *)
Definition claim_update (update : list string → string → list string) (value : Task.Task)
    (indexes : gmap string (list string) * gmap string (list string))
    : gmap string (list string) * gmap string (list string) :=
  if Task.OwnerDeviceID value == EmptyString then indexes
  else (update_ids (λ ids, update ids (Task.ID value)) indexes.1 (Task.OwnerAgentSessionID value),
        update_ids (λ ids, update ids (Task.ID value)) indexes.2 (Task.OwnerDeviceID value)).

Definition removeClaim := claim_update removeSortedUUIDv7.
Definition addClaim := claim_update insertSortedUUIDv7.

(** ** Lemmas *)

Lemma BinarySearch_split ids id :
  StronglySorted str_lt ids →
  ∃ l r, ids = l ++ r ∧ length l = (BinarySearch ids id).1 ∧
    Forall (λ x, str_lt x id) l ∧
    (if (BinarySearch ids id).2 then ∃ r', r = id :: r' ∧ Forall (str_lt id) r'
     else Forall (str_lt id) r).
Proof.
  induction 1 as [|y ids Hs IH Hall]; simpl.
  { exists [], []. repeat split; constructor. }
  destruct (String.ltb y id) eqn:Hyx.
  - destruct IH as (l & r & Heq & Hlen & Hl & Hr). destruct (BinarySearch ids id) as [i found]; simpl in *.
    exists (y :: l), r. subst. split; [done|]. split; [simpl; congruence|]. split; [by constructor|done].
  - simpl. exists [], (y :: ids). split; [done|]. split; [done|]. split; [constructor|].
    case_bool_decide as Heq; [subst; eauto|].
    assert (Hlt : str_lt id y).
    { destruct (str_lt_trichotomy id y) as [?|[?|Hbad]]; [done|congruence|].
      unfold str_lt in Hbad. congruence. }
    constructor; [done|]. eapply Forall_impl; [exact Hall|]. intros z Hz. by etrans.
Qed.

Lemma StronglySorted_app_str (l r : list string) :
  StronglySorted str_lt (l ++ r) ↔
  StronglySorted str_lt l ∧ StronglySorted str_lt r ∧
  ∀ x y, x ∈ l → y ∈ r → str_lt x y.
Proof.
  induction l as [|a l IH]; simpl.
  - split; [intros; split_and!; [constructor|done|intros ?? Hx; by apply not_elem_of_nil in Hx]
           |by intros (_ & ? & _)].
  - split.
    + intros Hs. apply StronglySorted_inv in Hs as [Hs Hall].
      apply IH in Hs as (Hl & Hr & Hlr). apply Forall_app in Hall as [Hal Har].
      split_and!; [by constructor|done|].
      intros x y [->|Hx]%elem_of_cons Hy; [|by apply Hlr].
      rewrite Forall_forall in Har. by apply Har.
    + intros (Hl & Hr & Hlr). apply StronglySorted_inv in Hl as [Hl Hal].
      constructor.
      * apply IH. split_and!; [done..|]. intros x y Hx Hy. apply Hlr; [by right|done].
      * apply Forall_app. split; [done|]. apply Forall_forall. intros y Hy. apply Hlr; [by left|done].
Qed.

Lemma insertSorted_spec ids id :
  StronglySorted str_lt ids →
  StronglySorted str_lt (insertSortedUUIDv7 ids id) ∧
  ∀ x, x ∈ insertSortedUUIDv7 ids id ↔ x = id ∨ x ∈ ids.
Proof.
  intros Hs. destruct (BinarySearch_split ids id Hs) as (l & r & -> & Hlen & Hl & Hr).
  unfold insertSortedUUIDv7. destruct (BinarySearch (l ++ r) id) as [i found]; simpl in *. subst i.
  destruct found.
  - destruct Hr as (r' & -> & Hr). split; [done|]. set_solver.
  - rewrite take_app_length, drop_app_length. split; [|set_solver].
    apply StronglySorted_app_str in Hs as (Hsl & Hsr & Hlr).
    rewrite !Forall_forall in *.
    apply StronglySorted_app_str. split_and!; [done| |].
    + constructor; [done|]. by apply Forall_forall.
    + intros x y Hx [->|Hy]%elem_of_cons; [by apply Hl|by apply Hlr].
Qed.

Lemma removeSorted_spec ids id :
  StronglySorted str_lt ids →
  StronglySorted str_lt (removeSortedUUIDv7 ids id) ∧
  ∀ x, x ∈ removeSortedUUIDv7 ids id ↔ x ≠ id ∧ x ∈ ids.
Proof.
  intros Hs. destruct (BinarySearch_split ids id Hs) as (l & r & -> & Hlen & Hl & Hr).
  unfold removeSortedUUIDv7. destruct (BinarySearch (l ++ r) id) as [i found]; simpl in *. subst i.
  assert (Hirr : ∀ x, str_lt x x → False) by (intros x Hx; by destruct (irreflexivity str_lt x)).
  destruct found.
  - destruct Hr as (r' & -> & Hr). rewrite !Forall_forall in *.
    rewrite take_app_length, (drop_app_ge _ _ (S (length l))) by lia.
    replace (S (length l) - length l)%nat with 1%nat by lia. simpl. rewrite drop_0.
    apply StronglySorted_app_str in Hs as (Hsl & Hsr & Hlr). apply StronglySorted_inv in Hsr as [Hsr _].
    split.
    + apply StronglySorted_app_str. split_and!; [done..|]. intros x y Hx Hy. apply Hlr; [done|by right].
    + intros x. rewrite !elem_of_app, elem_of_cons. split.
      * intros [Hx|Hx]; (split; [intros ->|tauto]); eapply Hirr; eauto.
      * tauto.
  - rewrite !Forall_forall in *. split; [done|]. intros x. split; [|tauto]. intros Hx. split; [|done].
    intros ->. apply elem_of_app in Hx as [Hx|Hx]; eapply Hirr; eauto.
Qed.

End StateRefs.
