(* ===== verification/PlanMemoryState.v ===== *)
(** * Package internal/reducer: plan and memory rows

    [Module PlanMemoryState]: plan_memory_state.go. The checks that a plan
    revision, the current plan and a memory record refer to rows that exist,
    the search for supersession cycles, and the validation of the plan and
    memory part of a change set. [false] and [None] are the error returns. *)

From stdpp Require Import base gmap strings list sorting relations.
From Stdlib Require Import ZArith NArith Lia.
From S2P Require Import Prelude.
From S2P Require Import GoLib.
From S2P Require Import DomainValues.
From S2P Require Import TaskEntity.
From S2P Require Import DeviceEntity.
From S2P Require Import PlanMemoryEntity.
From S2P Require Import ReducerState.
From S2P Require Import StateRefs.

Module PlanMemoryState.

Import Reducer StateRefs.

(** ** Supersession cycles

    [validatePlanRevisionCycles] and [validateMemoryCycles] are the same
    colouring over two row types. [finished] holds the ids of colour 2, [path]
    those of colour 1. *)

Section Cycles.
Context {A : Type} (supersedes : A → string) (rows : gmap string A).

(** The inner loop: the ids it coloured, or [None] for a cycle. *)
Fixpoint follow (fuel : nat) (finished path : gset string) (current : string)
    : option (gset string) :=
  if (current == EmptyString) || bool_decide (current ∈ finished) then Some path
  else match rows !! current with
  | None => Some path
  | Some row =>
      if bool_decide (current ∈ path) then None
      else match fuel with
      | O => None
      | S fuel =>
          if supersedes row == EmptyString then Some ({[current]} ∪ path)
          else follow fuel finished ({[current]} ∪ path) (supersedes row)
      end
  end.

Fixpoint validateCyclesFrom (ids : list string) (finished : gset string) : bool :=
  match ids with
  | [] => true
  | id :: rest =>
      if bool_decide (id ∈ finished) then validateCyclesFrom rest finished
      else match follow (size rows) finished ∅ id with
      | None => false
      | Some path => validateCyclesFrom rest (path ∪ finished)
      end
  end.

Definition validateCycles : bool := validateCyclesFrom (map_to_list rows).*1 ∅.

(** [supersession a b]: the row of [a] supersedes the row of [b]. *)
Definition supersession (a b : string) : Prop :=
  a ≠ EmptyString ∧ b ≠ EmptyString ∧ ∃ row, rows !! a = Some row ∧ supersedes row = b.

End Cycles.

Definition validatePlanRevisionCycles (revisions : gmap string Plan.Revision) : bool :=
  validateCycles Plan.supersedes revisions.

Definition validateMemoryCycles (records : gmap string Memory.Record_) : bool :=
  validateCycles Memory.supersedes records.

(** ** Rows *)

Section Rows.
Context `{CryptoLib}.
Context (state : State).

Definition validatePlanMemoryTaskReference (id : string) (pendingTaskIDs : gset string) : bool :=
  match tasks state !! id with
  | Some value => (Task.ID value == id) && negb (fails (Task.Validate value))
  | None => bool_decide (id ∈ pendingTaskIDs)
  end.

Definition validatePlanRevisionRow (revision : Plan.Revision) (pendingTaskIDs : gset string)
    : bool :=
  negb (fails (Plan.Revision_Validate revision)) &&
  validMember state (Plan.proposedByDeviceID revision) &&
  forallb (λ taskID, validatePlanMemoryTaskReference taskID pendingTaskIDs)
    (Plan.taskIDs revision).

Definition validateMemoryRow (record : Memory.Record_) (pendingTaskIDs : gset string) : bool :=
  negb (fails (Memory.Validate record)) &&
  ((Memory.taskID record == EmptyString) ||
   validatePlanMemoryTaskReference (Memory.taskID record) pendingTaskIDs).

Definition validateRetainedPlanRevision (id : string) : option Plan.Revision :=
  match planRevisions state !! id with
  | None => None
  | Some revision =>
      if (Plan.id_ revision == id) && validatePlanRevisionRow revision ∅ &&
         ((Plan.supersedes revision == EmptyString) ||
          present (planRevisions state !! Plan.supersedes revision))
      then Some revision else None
  end.

Definition validateCurrentPlanRow (current : Plan.Current) : bool :=
  (Plan.SessionID current == sessionID state) &&
  negb (fails (Plan.Current_Validate current)) &&
  ((Plan.RevisionID current == EmptyString) ||
   present (validateRetainedPlanRevision (Plan.RevisionID current))).

Definition validateRetainedMemoryRecord (id : string) : option Memory.Record_ :=
  match memoryRecords state !! id with
  | None => None
  | Some record =>
      if (Memory.id_ record == id) && validateMemoryRow record ∅ &&
         ((Memory.supersedes record == EmptyString) ||
          present (memoryRecords state !! Memory.supersedes record))
      then Some record else None
  end.

(** ** Changes *)

Record pendingPlanMemoryChanges := mkPendingPlanMemory {
  pendingRevisions : gmap string Plan.Revision;
  pendingCurrent : option Plan.Current;
  pendingRecords : gmap string Memory.Record_ }.

(** Rows that may only be added: by id, or [None]. *)
Fixpoint collectImmutable {A} (id : A → string) (existing : gmap string A) (ok : A → bool)
    (pending : gmap string A) (changes : list A) : option (gmap string A) :=
  match changes with
  | [] => Some pending
  | value :: rest =>
      if present (existing !! id value) || present (pending !! id value) || negb (ok value)
      then None
      else collectImmutable id existing ok (<[id value := value]> pending) rest
  end.

Definition revisionPredecessorOk (pending : gmap string Plan.Revision) (revision : Plan.Revision)
    : bool :=
  let predecessorID := Plan.supersedes revision in
  (predecessorID == EmptyString) ||
  (if present (planRevisions state !! predecessorID)
   then present (validateRetainedPlanRevision predecessorID)
   else present (pending !! predecessorID)).

Definition currentChangeOk (pending : gmap string Plan.Revision) (next : Plan.Current) : bool :=
  (Plan.SessionID next == sessionID state) &&
  validateCurrentPlanRow (planCurrent state) &&
  negb (fails (Plan.Current_Validate next)) &&
  (if present (planRevisions state !! Plan.RevisionID next)
   then present (validateRetainedPlanRevision (Plan.RevisionID next))
   else present (pending !! Plan.RevisionID next)) &&
  negb (fails (Plan.ValidateTransition Plan.OperationSelect (planCurrent state) next)).

Definition recordPredecessor (pending : gmap string Memory.Record_) (predecessorID : string)
    : option Memory.Record_ :=
  if present (memoryRecords state !! predecessorID)
  then validateRetainedMemoryRecord predecessorID
  else pending !! predecessorID.

(** Every way an occupied successor entry is handled is an error. *)
Fixpoint successorsOk (pending : gmap string Memory.Record_) (successors : gmap string string)
    (records : list (string * Memory.Record_)) : bool :=
  match records with
  | [] => true
  | (id, record) :: rest =>
      let predecessorID := Memory.supersedes record in
      if predecessorID == EmptyString then successorsOk pending successors rest
      else match recordPredecessor pending predecessorID with
      | None => false
      | Some predecessor =>
          negb (fails (Memory.ValidatePredecessor record predecessor)) &&
          negb (present (memorySuccessors state !! predecessorID)) &&
          negb (present (successors !! predecessorID)) &&
          successorsOk pending (<[predecessorID := id]> successors) rest
      end
  end.

Definition validatePlanMemoryChanges (changes : Changes) (pendingTaskIDs : gset string)
    : option pendingPlanMemoryChanges :=
  revisions ← collectImmutable Plan.id_ (planRevisions state)
    (λ revision, validatePlanRevisionRow revision pendingTaskIDs) ∅ (PlanRevisions changes);
  if negb (forallb (λ '(_, revision), revisionPredecessorOk revisions revision)
             (map_to_list revisions)) ||
     negb (validatePlanRevisionCycles revisions)
  then None
  else
    current ← (match PlanCurrent changes with
               | [] => Some None
               | [next] => if currentChangeOk revisions next then Some (Some next) else None
               | _ => None
               end);
    records ← collectImmutable Memory.id_ (memoryRecords state)
      (λ record, validateMemoryRow record pendingTaskIDs) ∅ (MemoryRecords changes);
    if negb (successorsOk records ∅ (map_to_list records)) || negb (validateMemoryCycles records)
    then None
    else Some (mkPendingPlanMemory revisions current records).

End Rows.

(** ** The cycle search decides acyclicity *)

Section CycleProofs.
Context {A : Type} (supersedes : A → string) (rows : gmap string A).

Local Notation R := (supersession supersedes rows).
(** [ends x]: the chain of predecessors of [x] is finite. *)
Local Notation ends := (Acc (flip R)).

Lemma ends_back a b : R a b → ends b → ends a.
Proof.
  intros (Ha & Hb & row & Hrow & Hs) Hacc. constructor.
  intros c (_ & _ & row' & Hrow' & Hs'). by simplify_eq.
Qed.

Lemma ends_tc a b : tc R a b → ends b → ends a.
Proof. induction 1; eauto using ends_back. Qed.

Lemma ends_acyclic a : ends a → ¬ tc R a a.
Proof.
  induction 1 as [a _ IH]. intros Hcycle.
  assert (∃ b, R a b ∧ tc R b b) as (b & Hab & Hb).
  { inversion Hcycle as [? ? Haa|? b ? Hab Hba]; subst; [by exists a; split; [|constructor]|].
    exists b. split; [done|]. by eapply tc_r. }
  exact (IH b Hab Hb).
Qed.

Lemma stuck_ends a : (∀ b, ¬ R a b) → ends a.
Proof. intros H. constructor. intros b Hb. by destruct (H b). Qed.

(** What [follow] establishes: its starting chain is finite, or there is a cycle.
    The fuel never runs out. *)
Lemma follow_spec fuel finished path current :
  (∀ x, x ∈ finished → ends x) → (∀ p, p ∈ path → tc R p current) →
  path ⊆ dom rows → size rows ≤ fuel + size path →
  match follow supersedes rows fuel finished path current with
  | Some path' => ends current ∧ ∀ p, p ∈ path' → ends p
  | None => ∃ x, tc R x x
  end.
Proof.
  revert path current. induction fuel as [|fuel IH]; intros path current Hfin Hpath Hsub Hfuel;
    cbn [follow].
  all: assert (Hstop : ends current → ends current ∧ ∀ p, p ∈ path → ends p)
    by (split; eauto using ends_tc).
  all: destruct (bool_decide_reflect (current = EmptyString)) as [->|Hne]; simpl;
    [apply Hstop, stuck_ends; by intros b (? & _)|].
  all: case_bool_decide as Hdone; [auto|].
  all: destruct (rows !! current) as [row|] eqn:Hrow;
    [|apply Hstop, stuck_ends; intros b (_ & _ & r & Hr & _); congruence].
  all: case_bool_decide as Hin; [eauto|].
  all: assert (Hsub' : {[current]} ∪ path ⊆ dom rows)
    by (apply union_subseteq; split; [apply singleton_subseteq_l, elem_of_dom; eauto|done]).
  all: assert (Hsize : size ({[current]} ∪ path) = S (size path))
    by (rewrite size_union by set_solver; by rewrite size_singleton).
  { apply subseteq_size in Hsub'. rewrite size_dom in Hsub'. lia. }
  case_bool_decide as Hs.
  - assert (Hend : ends current)
      by (apply stuck_ends; intros b (_ & ? & r & Hr & Hsr); congruence).
    split; [done|]. intros p [->%elem_of_singleton|Hp]%elem_of_union; [done|]. by apply Hstop.
  - assert (HR : R current (supersedes row)) by (split_and!; eauto).
    assert (Hpath' : ∀ p, p ∈ {[current]} ∪ path → tc R p (supersedes row)).
    { intros p [->%elem_of_singleton|Hp]%elem_of_union; [by constructor|]. eapply tc_r; eauto. }
    specialize (IH ({[current]} ∪ path) (supersedes row) Hfin Hpath' Hsub' ltac:(lia)).
    destruct (follow _ _ _ _ _ _); [|done]. destruct IH as [Hend Hall].
    split; [|done]. eauto using ends_back.
Qed.

Lemma validateCyclesFrom_spec ids finished :
  (∀ x, x ∈ finished → ends x) →
  if validateCyclesFrom supersedes rows ids finished then ∀ id, id ∈ ids → ends id
  else ∃ x, tc R x x.
Proof.
  revert finished. induction ids as [|id ids IH]; intros finished Hfin; simpl.
  { intros id Hid. by apply not_elem_of_nil in Hid. }
  case_bool_decide as Hid.
  - specialize (IH finished Hfin). destruct (validateCyclesFrom _ _ _ _); [|done].
    intros x [->|Hx]%elem_of_cons; auto.
  - pose proof (follow_spec (size rows) finished ∅ id Hfin) as Hf.
    destruct (follow _ _ _ _ _ _) as [path|]; [|apply Hf; [set_solver..|lia]].
    destruct Hf as [Hend Hpath]; [set_solver..|lia|].
    specialize (IH (path ∪ finished)). destruct (validateCyclesFrom _ _ _ _).
    + intros x [->|Hx]%elem_of_cons; [done|]. apply IH; [set_solver|done].
    + apply IH. set_solver.
Qed.

Lemma validateCycles_ends x : validateCycles supersedes rows = true → ends x.
Proof.
  unfold validateCycles. intros Hv.
  pose proof (validateCyclesFrom_spec (map_to_list rows).*1 ∅) as Hspec. rewrite Hv in Hspec.
  destruct (rows !! x) as [row|] eqn:Hrow.
  - apply Hspec; [set_solver|]. apply list_elem_of_fmap. exists (x, row). split; [done|].
    by apply elem_of_map_to_list.
  - apply stuck_ends. intros b (_ & _ & r & Hr & _). congruence.
Qed.

(** The search accepts exactly the acyclic rows. *)
Lemma validateCycles_iff : validateCycles supersedes rows = true ↔ ∀ x, ¬ tc R x x.
Proof.
  split; [intros Hv x; by apply ends_acyclic, validateCycles_ends|].
  unfold validateCycles.
  pose proof (validateCyclesFrom_spec (map_to_list rows).*1 ∅) as Hspec.
  destruct (validateCyclesFrom _ _ _ _); [done|].
  intros Hno. destruct Hspec as [x Hx]; [set_solver|]. by destruct (Hno x).
Qed.

(** Adding rows under fresh ids, whose chains among themselves are finite, to
    rows whose chains are finite and stay within them. *)
Definition closed : Prop :=
  map_Forall (λ _ row, supersedes row ≠ EmptyString → is_Some (rows !! supersedes row)) rows.

Lemma union_ends pending x :
  (∀ id, is_Some (pending !! id) → rows !! id = None) →
  closed → (∀ y, ends y) → (∀ y, Acc (flip (supersession supersedes pending)) y) →
  Acc (flip (supersession supersedes (pending ∪ rows))) x.
Proof.
  intros Hfresh Hclosed Hold Hnew.
  assert (Hrows : ∀ y, is_Some (rows !! y) →
            Acc (flip (supersession supersedes (pending ∪ rows))) y).
  { intros y. induction (Hold y) as [y _ IH]. intros [row Hrow]. constructor.
    intros z (Hy & Hz & row' & Hrow' & Hs).
    assert (row' = row) as ->.
    { apply lookup_union_Some_raw in Hrow' as [Hp|[_ Hr]]; [|congruence].
      rewrite (Hfresh y) in Hrow by eauto. done. }
    apply IH; [by split; [|eauto]|]. rewrite <-Hs. apply (Hclosed y); [done|congruence]. }
  induction (Hnew x) as [x _ IH]. constructor. intros z (Hx & Hz & row & Hrow & Hs).
  destruct (rows !! z) as [rz|] eqn:Hrz; [by apply Hrows; eauto|].
  apply lookup_union_Some_raw in Hrow as [Hp|[_ Hr]].
  - apply IH. split; eauto.
  - destruct (Hclosed x row Hr) as [? ?]; congruence.
Qed.

End CycleProofs.
End PlanMemoryState.
