(* ===== verification/PublicationState.v ===== *)
(** * Package internal/reducer: publication and conflict rows

    [Module PublicationState]: the metadata digest and the staging receipts
    (publication_proof.go), the conflict identity (conflict_identity.go), and
    the reference checks and change validation of the repository part of the
    state (publication_state.go). *)

From stdpp Require Import base gmap strings list sorting.
From Stdlib Require Import ZArith NArith Lia.
From S2P Require Import Prelude.
From S2P Require Import GoLib.
From S2P Require Import GoJson.
From S2P Require Import CodecLayer.
From S2P Require Import GoMarshal.
From S2P Require Import DomainValues.
From S2P Require Import TaskEntity.
From S2P Require Import AgentSessionEntity.
From S2P Require Import VoterSetEntity.
From S2P Require Import DeviceEntity.
From S2P Require Import ConflictEntity.
From S2P Require Import PublicationEntity.
From S2P Require Import ReducerState.
From S2P Require Import Preflight.
From S2P Require Import StateRefs.

Module PublicationState.

Import Reducer Preflight StateRefs Marshal.

Definition samePublicationLineage (left right : Publication.Metadata) : bool :=
  (Publication.TaskID left == Publication.TaskID right) &&
  (Publication.AuthorDeviceID left == Publication.AuthorDeviceID right) &&
  (Publication.AuthorAgentSessionID left == Publication.AuthorAgentSessionID right) &&
  (Publication.WorkingRootID left == Publication.WorkingRootID right).

Section Lib.
Context `{NormLib, JCSLib, CryptoLib}.

(** ** publication_proof.go *)

Definition publicationMetadataLabel : string := "codecomm/v1/publication-metadata".
Definition publicationReceiptWindow : N := 100000.

Definition stagingReceiptFields : list string :=
  ["session_id"; "workspace_id"; "voter_set_version"; "publication_metadata_digest";
   "voter_device_id"; "staged_result_index"; "signature"].

Definition encoded64 (bytes : string) : json := JString (Codec.EncodeBase64URL (bytes_of bytes)).

(** The members of [publicationMetadataWire]. *)
Definition metadata_wire (metadata : Publication.Metadata) : list (string * json) :=
  [("proposal_event_id", JString (Publication.ProposalEventID metadata));
   ("publication_id", JString (Publication.PublicationID metadata));
   ("supersedes_publication_id", optional_text (Publication.SupersedesPublicationID metadata));
   ("task_id", optional_text (Publication.TaskID metadata));
   ("author_device_id", JString (Publication.AuthorDeviceID metadata));
   ("author_agent_session_id", JString (Publication.AuthorAgentSessionID metadata));
   ("base_commit", JString (Publication.BaseCommit metadata));
   ("commit_oid", JString (Publication.CommitOID metadata));
   ("tree_oid", JString (Publication.TreeOID metadata));
   ("parent_oids", texts (Publication.ParentOIDs metadata));
   ("paths", texts (Publication.Paths metadata));
   ("artifact_digest", encoded64 (Publication.ArtifactDigest metadata));
   ("resolves_conflict_ids", texts (Publication.ResolvesConflictIDs metadata));
   ("working_root_id", JString (Publication.WorkingRootID metadata))].

(** A labelled digest: the label, a zero byte, the canonical text. *)
Definition labelled_digest (label : string) (canonical : list N) : list N :=
  Sum256 (bytes_of label ++ 0%N :: canonical).

Definition publicationMetadataDigest (metadata : Publication.Metadata) : Codec.Error + string :=
  match canonical_object (metadata_wire metadata) with
  | inl err => inl err
  | inr canonical => inr (of_bytes (labelled_digest publicationMetadataLabel canonical))
  end.

(** One receipt; every malformed member refuses alike. *)
Definition decodeStagingReceipt (raw : list N) : option Publication.StagingReceipt :=
  match decodePayload raw stagingReceiptFields [] with
  | inl _ => None
  | inr object =>
      sessionText ← decodeString object "session_id";
      workspaceText ← decodeString object "workspace_id";
      version ← decodeUint64 object "voter_set_version";
      digestText ← decodeString object "publication_metadata_digest";
      voterText ← decodeString object "voter_device_id";
      resultIndex ← decodeUint64 object "staged_result_index";
      signatureText ← decodeString object "signature";
      match Codec.DecodeBase64URLExact digestText Crypto.SHA256Size,
            Codec.DecodeBase64URLExact signatureText Crypto.Ed25519SignatureSize with
      | inr digest, inr signature =>
          let receipt := Publication.mkStagingReceipt sessionText workspaceText version
                           (of_bytes digest) voterText resultIndex (of_bytes signature) in
          if fails (Publication.StagingReceipt_Validate receipt) then None else Some receipt
      | _, _ => None
      end
  end.

Definition decodeStagingReceipts (rawValues : list (list N))
    : option (list Publication.StagingReceipt) :=
  receipts ← mapM decodeStagingReceipt rawValues;
  if fails (Publication.ValidateStagingReceipts receipts) then None else Some receipts.

Definition receipt_wire (receipt : Publication.StagingReceipt) : list (string * json) :=
  [("session_id", JString (Publication.rSessionID receipt));
   ("workspace_id", JString (Publication.rWorkspaceID receipt));
   ("voter_set_version", uint (Publication.rVoterSetVersion receipt));
   ("publication_metadata_digest", encoded64 (Publication.PublicationMetadataDigest receipt));
   ("voter_device_id", JString (Publication.VoterDeviceID receipt));
   ("staged_result_index", uint (Publication.StagedResultIndex receipt))].

Definition verifyStagingReceiptSignature (receipt : Publication.StagingReceipt)
    (publicKey : list N) : bool :=
  match canonical_object (receipt_wire receipt) with
  | inl _ => false
  | inr canonical =>
      verifyLabeledSignature publicKey Codec.SignatureGitStageReceipt canonical
        (bytes_of (Publication.rSignature receipt))
  end.

(** The loop over the receipts: [None] goes on to the next. *)
Definition receiptCode (state : State) (digest : string) (receipt : Publication.StagingReceipt)
    : option Code :=
  refuse CodeInvalidPublicationReceipts
    when ((Publication.rSessionID receipt != sessionID state) ||
          (Publication.rWorkspaceID receipt != workspaceID state) ||
          negb (Publication.rVoterSetVersion receipt =?
                VoterSet.VoterSetVersion (voterSet state))%N ||
          (Publication.PublicationMetadataDigest receipt != digest)) ;;
  refuse CodePublicationReceiptFromFuture
    when (currentResultIndex state <? Publication.StagedResultIndex receipt)%N ;;
  refuse CodePublicationReceiptStale
    when (publicationReceiptWindow <?
          currentResultIndex state - Publication.StagedResultIndex receipt)%N ;;
  match devices state !! Publication.VoterDeviceID receipt with
  | None => Some CodeInvalidPublicationReceipts
  | Some member =>
      refuse CodeInvalidPublicationReceipts
        when ((Device.DeviceStatus member != Device.StatusActive) ||
              negb (VoterSet.Contains (voterSet state) (Publication.VoterDeviceID receipt))) ;;
      refuse CodeInvalidPublicationReceipts
        when (negb (verifyStagingReceiptSignature receipt (Device.IdentityPublicKey member))) ;;
      None
  end.

Definition validatePublicationReceipts (state : State) (metadata : Publication.Metadata)
    (receipts : list Publication.StagingReceipt) : option Code :=
  refuse CodeInvalidPublicationReceipts
    when (fails (Publication.ValidateStagingReceipts receipts)) ;;
  match publicationMetadataDigest metadata with
  | inl _ => Some CodeInvalidPublicationReceipts
  | inr digest =>
      check scan_entries (receiptCode state digest) receipts ;;
      refuse CodePublicationReceiptQuorumNotMet
        when (length receipts <?
              length (VoterSet.voterDeviceIDs (voterSet state)) / 2 + 1)%nat ;;
      None
  end.

(** ** conflict_identity.go *)

Definition conflictIDLabel : string := "codecomm/v1/conflict-id".
Definition mergeInputsVersionV1 : N := 1.

Definition MergeKind_text (kind : Conflict.MergeKind) : string :=
  match kind with
  | Conflict.MergeKindMerge => "merge"
  | Conflict.MergeKindRebase => "rebase"
  | Conflict.MergeKindUnknown text => text
  end.

Definition identity_wire (input : Conflict.IdentityInput) : list (string * json) :=
  [("workspace_id", JString (Conflict.workspaceID input));
   ("merge_inputs_version", uint (Conflict.mergeInputsVersion input));
   ("merge_kind", JString (MergeKind_text (Conflict.iMergeKind input)));
   ("publication_id", JString (Conflict.iPublicationID input));
   ("replay_commit_oid", optional_text (Conflict.iReplayCommitOID input));
   ("merge_base_oids", texts (Conflict.iMergeBaseOIDs input));
   ("canonical_commit", JString (Conflict.iCanonicalCommit input));
   ("candidate_commit", JString (Conflict.iCandidateCommit input))].

(** [None] is the error return. *)
Definition deriveConflictID (workspaceID : string) (detection : Conflict.Detection)
    : option string :=
  match Conflict.Detection_IdentityInput detection workspaceID mergeInputsVersionV1 with
  | inl _ => None
  | inr input =>
      match canonical_object (identity_wire input) with
      | inl _ => None
      | inr canonical => Some ("ccf1" +:+ hex_encode (labelled_digest conflictIDLabel canonical))
      end
  end.

(** ** publication_state.go: references ([false] is the error return) *)

Section References.
Context (state : State).

Definition receiptReferenceOk (digest : string) (receipt : Publication.StagingReceipt) : bool :=
  (Publication.rSessionID receipt == sessionID state) &&
  (Publication.rWorkspaceID receipt == workspaceID state) &&
  (Publication.PublicationMetadataDigest receipt == digest) &&
  negb (currentResultIndex state <? Publication.StagedResultIndex receipt)%N &&
  match devices state !! Publication.VoterDeviceID receipt with
  | None => false
  | Some signer => verifyStagingReceiptSignature receipt (Device.IdentityPublicKey signer)
  end.

Definition supersedesReferenceOk (metadata : Publication.Metadata) : bool :=
  (Publication.SupersedesPublicationID metadata == EmptyString) ||
  match publications state !! Publication.SupersedesPublicationID metadata with
  | None => false
  | Some previous =>
      ((Publication.PState previous == Publication.StateRejected) ||
       (Publication.PState previous == Publication.StateWithdrawn)) &&
      samePublicationLineage (Publication.Meta previous) metadata
  end.

Definition validatePublicationReferences (value : Publication.Publication) : bool :=
  let metadata := Publication.Meta value in
  (Domain.GitOID_ObjectFormat (Publication.BaseCommit metadata) ==
   Domain.GitOID_ObjectFormat (Publication.RefCommitOID (canonicalRef state))) &&
  match devices state !! Publication.AuthorDeviceID metadata with
  | None => false
  | Some member => Device.ID member == Publication.AuthorDeviceID metadata
  end &&
  match agentSessions state !! Publication.AuthorAgentSessionID metadata with
  | None => false
  | Some author =>
      (AgentSession.DeviceID author == Publication.AuthorDeviceID metadata) &&
      (AgentSession.WorkingRootID author == Publication.WorkingRootID metadata)
  end &&
  ((Publication.TaskID metadata == EmptyString) ||
   present (tasks state !! Publication.TaskID metadata)) &&
  supersedesReferenceOk metadata &&
  forallb (λ path, negb (ControlPath.IsControlledV1 path)) (Publication.Paths metadata) &&
  match publicationMetadataDigest metadata with
  | inl _ => false
  | inr digest => forallb (receiptReferenceOk digest) (Publication.StagingReceipts value)
  end &&
  ((Publication.ReviewerDeviceID value == EmptyString) ||
   present (devices state !! Publication.ReviewerDeviceID value)) &&
  (negb (Publication.ActorType value == Publication.ReviewActorAgent) ||
   match agentSessions state !! Publication.ReviewerAgentSessionID value with
   | None => false
   | Some reviewer => AgentSession.DeviceID reviewer == Publication.ReviewerDeviceID value
   end) &&
  forallb (λ conflictID, present (mergeConflicts state !! conflictID))
    (Publication.ResolvesConflictIDs metadata).

Definition resolutionReferenceOk (value : Conflict.Conflict) : bool :=
  negb (Conflict.CResolutionKind value == Conflict.ResolutionKindPublication) ||
  match publications state !! Conflict.ResolutionPublicationID value with
  | None => false
  | Some resolution =>
      (Publication.PState resolution == Publication.StateApplied) &&
      bool_decide (Conflict.ID (Conflict.detectionView value) ∈
                   Publication.ResolvesConflictIDs (Publication.Meta resolution))
  end.

Definition validateConflictReferences (value : Conflict.Conflict) : bool :=
  let detection := Conflict.detectionView value in
  (deriveConflictID (workspaceID state) detection == Some (Conflict.ID detection)) &&
  match publications state !! Conflict.PublicationID detection with
  | None => false
  | Some candidate =>
      Publication.CommitOID (Publication.Meta candidate) == Conflict.CandidateCommit detection
  end &&
  (Domain.GitOID_ObjectFormat (Conflict.CanonicalCommit detection) ==
   Domain.GitOID_ObjectFormat (Publication.RefCommitOID (canonicalRef state))) &&
  (negb (Conflict.CStatus value == Conflict.StatusResolved) ||
   present (devices state !! Conflict.ResolvedByDeviceID value) && resolutionReferenceOk value).

End References.
End Lib.
End PublicationState.
