(* ===== verification/ReducerLogic.v ===== *)
(** * Reasoning about reductions

    Inversion of a reduction that reached its end ([val_inv]), and the
    judgement [rejects]: whenever the steps stop early, they stop with a
    rejection that writes the consumed origin scope and nothing else. *)

From stdpp Require Import base gmap strings list sorting.
From Stdlib Require Import ZArith NArith Lia.
From S2P Require Import Prelude.
From S2P Require Import GoLib.
From S2P Require Import GoJson.
From S2P Require Import CodecLayer.
From S2P Require Import DomainValues.
From S2P Require Import PolicyEntity.
From S2P Require Import AgentSessionEntity.
From S2P Require Import DeviceEntity.
From S2P Require Import EventModel.
From S2P Require Import EventWire.
From S2P Require Import ReducerState.
From S2P Require Import Preflight.

Open Scope reducer_scope.

Module Logic.

Import Reducer Preflight.

Lemma bind_Val {A B} (m : Reduction A) (k : A → Reduction B) b :
  bind m k = Val b ↔ ∃ a, m = Val a ∧ k a = Val b.
Proof. destruct m; simpl; naive_solver. Qed.

Lemma stop_Val {A} (c : bool) o (k : Reduction A) a :
  (if c then Done o else k) = Val a ↔ c = false ∧ k = Val a.
Proof. destruct c; naive_solver. Qed.

Lemma invalid_Val {A} (c : bool) (k : Reduction A) a :
  (if c then invalidState else k) = Val a ↔ c = false ∧ k = Val a.
Proof. destruct c; naive_solver. Qed.

Lemma fails_None {E} (r : option E) : fails r = false ↔ r = None.
Proof. destruct r; naive_solver. Qed.

Lemma present_None {A} (r : option A) : present r = false ↔ r = None.
Proof. destruct r; naive_solver. Qed.

Lemma present_Some {A} (r : option A) : present r = true ↔ is_Some r.
Proof. destruct r; naive_solver. Qed.

Lemma require_Val {A} context code (o : option A) a :
  require context code o = Val a ↔ o = Some a.
Proof. destruct o; simpl; naive_solver. Qed.

Lemma invalidState_Val {A} (a : A) : invalidState ≠ Val a.
Proof. done. Qed.

(** ** Early outcomes *)

Definition rejects {A} (context : reductionContext) (m : Reduction A) : Prop :=
  ∀ o, m = Done o → ∃ code alarm, o = rejectWithAlarm context code alarm.

Section Rejects.
Context (context : reductionContext).

Lemma rejects_Val {A} (a : A) : rejects context (Val a).
Proof. by intros o. Qed.
Lemma rejects_Fail {A} e : rejects context (Fail e : Reduction A).
Proof. by intros o. Qed.
Lemma rejects_invalid {A} : rejects context (invalidState : Reduction A).
Proof. by intros o. Qed.
Lemma rejects_reject {A} code : rejects context (Done (reject context code) : Reduction A).
Proof. intros o [= <-]. by exists code, None. Qed.
Lemma rejects_alarm {A} code alarm :
  rejects context (Done (rejectWithAlarm context code alarm) : Reduction A).
Proof. intros o [= <-]. eauto. Qed.
Lemma rejects_bind {A B} (m : Reduction A) (k : A → Reduction B) :
  rejects context m → (∀ a, rejects context (k a)) → rejects context (bind m k).
Proof.
  intros Hm Hk o. destruct m as [a|o'|e]; simpl; [exact (Hk a o)| |done].
  intros [= ->]. by apply (Hm o).
Qed.
Lemma rejects_if {A} (c : bool) (m n : Reduction A) :
  rejects context m → rejects context n → rejects context (if c then m else n).
Proof. intros Hm Hn. by destruct c. Qed.
Lemma rejects_require {A} code (o : option A) : rejects context (require context code o).
Proof. destruct o; [apply rejects_Val|apply rejects_reject]. Qed.
End Rejects.

(** Only the end of a handler accepts. *)
Lemma accepted_Val context (m : Reduction Outcome) o :
  rejects context m → run m = inr o → Accepted o = true → m = Val o.
Proof.
  intros Hm Hr Ha. destruct m as [o'|o'|e]; simplify_eq/=; [done|].
  destruct (Hm o) as (code & alarm & ->); [done|]. done.
Qed.

Create HintDb rejects.
#[export] Hint Resolve rejects_Val rejects_Fail rejects_invalid rejects_reject rejects_alarm
  rejects_bind rejects_if rejects_require : rejects.

Section Shared.
Context `{NormLib, JCSLib, CryptoLib}.
Context (context : reductionContext).

Lemma rejects_payload required optional : rejects context (payload_of context required optional).
Proof. unfold payload_of. destruct (decodePayload _ _ _); auto with rejects. Qed.

Lemma rejects_optional {A} payload field (decoded : option A) zero :
  rejects context (optional context payload field decoded zero).
Proof. unfold optional. auto with rejects. Qed.

Lemma rejects_expectVersion version : rejects context (expectVersion context version).
Proof. unfold expectVersion. auto with rejects. Qed.

Lemma expectVersion_Val version u :
  expectVersion context version = Val u →
  Event.ExpectedEntityVersion (proposal context) = Some version ∧ version ≠ Domain.MaxSafeInteger.
Proof.
  unfold expectVersion. intros Hv. apply stop_Val in Hv as [Hver Hv]. apply stop_Val in Hv as [Hmax _].
  bools. done.
Qed.
End Shared.

#[export] Hint Resolve rejects_payload rejects_optional rejects_expectVersion : rejects.

(** [solve_rejects]: structural; matches of the goal are split. *)
Ltac solve_rejects :=
  repeat first
    [ apply rejects_Val | apply rejects_Fail | apply rejects_invalid | apply rejects_reject
    | apply rejects_alarm
    | apply rejects_require | apply rejects_payload | apply rejects_optional
    | apply rejects_expectVersion | solve [eauto with rejects]
    | apply rejects_bind; [|intros ?] | apply rejects_if
    | case_match ].

(** [val_inv H]: the facts a reduction that reached its end has established. *)
Ltac val_inv H :=
  repeat (cbv beta iota zeta in H; lazymatch type of H with
  | bind _ _ = Val _ =>
      let a := fresh "v" in let Ha := fresh "Hv" in
      apply bind_Val in H; destruct H as (a & Ha & H)
  | require _ _ _ = Val _ => apply require_Val in H
  | (if _ then Done _ else _) = Val _ =>
      let Hc := fresh "Hc" in apply stop_Val in H; destruct H as [Hc H]
  | (if _ then invalidState else _) = Val _ =>
      let Hc := fresh "Hc" in apply invalid_Val in H; destruct H as [Hc H]
  | Val _ = Val _ => injection H as H
  | Done _ = Val _ => discriminate H
  | Fail _ = Val _ => discriminate H
  | invalidState = Val _ => discriminate H
  | match ?x with (_, _) => _ end = Val _ => destruct x
  | match ?x with Some _ => _ | None => _ end = Val _ =>
      let Hx := fresh "Hx" in destruct x eqn:Hx
  | match ?x with inl _ => _ | inr _ => _ end = Val _ =>
      let Hx := fresh "Hx" in destruct x eqn:Hx
  end).

End Logic.
