(* ===== verification/TaskReducers.v ===== *)
(** * Package internal/reducer: the task handlers

    [Module TaskReducers]: task_common.go and the handlers of the seven task
    kinds, and of activity.recorded. *)

From stdpp Require Import base gmap strings list sorting.
From Stdlib Require Import ZArith NArith Lia.
From S2P Require Import Prelude.
From S2P Require Import GoLib.
From S2P Require Import GoJson.
From S2P Require Import CodecLayer.
From S2P Require Import DomainValues.
From S2P Require Import TaskEntity.
From S2P Require Import AgentSessionEntity.
From S2P Require Import DeviceEntity.
From S2P Require Import PolicyEntity.
From S2P Require Import EventModel.
From S2P Require Import EventWire.
From S2P Require Import ReducerState.
From S2P Require Import Preflight.

Open Scope reducer_scope.

Module TaskReducers.

Import Reducer Preflight.

(** ** Row updates

    [cloneTask] copies the row so that the handler may overwrite fields; on
    immutable values it is the identity. *)

(** The fields every mutation overwrites: state, reason, owner, intended
    device, release reason, version and time. *)
Definition rewritten (value : Task.Task) (state : Task.State) (reason : option string)
    (ownerDevice ownerAgent intended : string) (release : Task.ReleaseReason)
    (updatedAt : string) : Task.Task :=
  Task.mkTask (Task.ID value) (Task.Title value) (Task.Body value) state reason
    (Task.Priority value) (Task.BlockedBy value) (Task.Labels value) ownerDevice ownerAgent
    intended release (u64_succ (Task.EntityVersion value)) (Task.CreatedAt value) updatedAt.

(** A release returns the task to the pool. *)
Definition released (value : Task.Task) (intended : string) (reason : Task.ReleaseReason)
    (updatedAt : string) : Task.Task :=
  rewritten value Task.StateReady None EmptyString EmptyString intended reason updatedAt.

Section Handlers.
Context `{NormLib, JCSLib, CryptoLib}.
Context (context : reductionContext).

Local Notation "'reject' code 'when' c ';;' k" :=
  (if c%bool then Done (Preflight.reject context code) else k)
  (at level 10, code at level 9, c at level 99, k at level 200).

Local Notation taskID := (proposalID context).
Local Notation createdAt := (proposalTime context).
Local Notation actor := (proposalActor context).
Local Notation require := (require context).
Local Notation optional := (optional context).
Local Notation payload_of := (payload_of context).
Local Notation expectVersion := (expectVersion context).

Definition loadMutableTask : Reduction Task.Task :=
  match tasks (state context) !! taskID with
  | None => Done (Preflight.reject context CodeEntityNotFound)
  | Some current =>
      invalid when (Task.ID current != taskID) ;;
      invalid when (fails (Task.Validate current)) ;;
      let! _ := expectVersion (Task.EntityVersion current) in
      Val current
  end.

Definition validateTaskCandidate (value : Task.Task) : option Code :=
  match Task.Validate value with
  | None => None
  | Some Task.ErrDependencyCycle => Some CodeDependencyCycle
  | Some _ => Some CodeInvalidPayload
  end.

Definition candidate (value : Task.Task) : Reduction () :=
  match validateTaskCandidate value with
  | Some code => Done (Preflight.reject context code)
  | None => Val ()
  end.

(** The lookup callback of the dependency walk; its state is [stateErr]. *)
Definition dependencyLookup (direct : list string) (stateErr : bool) (id : string)
    : bool * option (list string) :=
  match tasks (state context) !! id with
  | None => (stateErr || negb (bool_decide (id ∈ direct)), None)
  | Some value =>
      if (Task.ID value != id) || fails (Task.Validate value) then (true, None)
      else (stateErr, Some (Task.BlockedBy value))
  end.

Definition validateTaskDependencies (subject : string) (dependencies : list string)
    : Reduction () :=
  let '(stateErr, err) :=
    Task.ValidateDependencyGraph subject dependencies
      (Some (dependencyLookup dependencies)) false in
  invalid when stateErr ;;
  match err with
  | None => Val ()
  | Some Task.ErrDependencyCycle => Done (Preflight.reject context CodeDependencyCycle)
  | Some Task.ErrDependencyNotFound => Done (Preflight.reject context CodeDependencyNotFound)
  | Some Task.ErrDependencyGraphTooComplex =>
      Done (Preflight.reject context CodeDependencyGraphTooComplex)
  | Some _ => Done (Preflight.reject context CodeInvalidPayload)
  end.

Definition heldByOrigin (value : Task.Task) : bool :=
  match agentSession context with
  | Some session =>
      (Task.OwnerDeviceID value == Event.deviceID (Event.POrigin (proposal context))) &&
      (Task.OwnerAgentSessionID value == AgentSession.ID session)
  | None => false
  end.

Definition whollyUnowned (value : Task.Task) : bool :=
  (Task.OwnerDeviceID value == EmptyString) && (Task.OwnerAgentSessionID value == EmptyString).

Definition taskHasUnresolvedConflict (id : string) : bool :=
  negb (default 0%N (unresolvedConflictsByTask (state context) !! id) =? 0)%N.

Fixpoint dependenciesDone (dependencies : list string) : Reduction bool :=
  match dependencies with
  | [] => Val true
  | dependencyID :: rest =>
      match tasks (state context) !! dependencyID with
      | None => invalidState
      | Some dependency =>
          invalid when (Task.ID dependency != dependencyID) ;;
          invalid when (fails (Task.Validate dependency)) ;;
          if Task.TaskState dependency != Task.StateDone then Val false
          else dependenciesDone rest
      end
  end.

Definition allDependenciesDone (value : Task.Task) : Reduction bool :=
  dependenciesDone (Task.BlockedBy value).

(** The entry test of [validateClaimList]. *)
Definition claimEntry (deviceID agentSessionID id : string) : bool :=
  match tasks (state context) !! id with
  | None => false
  | Some value =>
      (Task.ID value == id) && negb (fails (Task.Validate value)) &&
      (Task.OwnerDeviceID value == deviceID) &&
      ((agentSessionID == EmptyString) || (Task.OwnerAgentSessionID value == agentSessionID))
  end.

(** [None] when every entry is a row of the owner and the index is sorted. *)
Definition validateClaimList (ids : list string) (maximum : Z) (deviceID agentSessionID : string)
    : option StateError :=
  refuse ErrInvalidCommittedState when (maximum <? Z.of_nat (length ids))%Z ;;
  scan_sorted id
    (λ claim, refuse ErrInvalidCommittedState
                when (negb (Domain.UUIDv7_Valid claim) ||
                      negb (claimEntry deviceID agentSessionID claim)) ;; None)
    ErrInvalidCommittedState None ids.

Definition subset_of_index (ids index : list string) : bool :=
  forallb (λ id, (BinarySearch index id).2) ids.

Definition validateClaimIndexes : Reduction (nat * nat) :=
  match agentSession context with
  | None => invalidState
  | Some session =>
      let deviceID := Device.ID (device context) in
      let agentClaims := ids_at (claimsByAgent (state context)) (AgentSession.ID session) in
      let deviceClaims := ids_at (claimsByDevice (state context)) deviceID in
      invalid when (fails (validateClaimList agentClaims Policy.MaxAgentClaimLimit deviceID
                             (AgentSession.ID session))) ;;
      invalid when (fails (validateClaimList deviceClaims Policy.MaxDeviceClaimLimit deviceID
                             EmptyString)) ;;
      invalid when (negb (subset_of_index agentClaims deviceClaims)) ;;
      Val (length agentClaims, length deviceClaims)
  end.

Definition validatePolicy : Reduction Policy.Values :=
  let current := sessionPolicy (state context) in
  let values := Policy.PolicyValues current in
  let origin := Event.POrigin (proposal context) in
  invalid when (Policy.SessionID current != sessionID (state context)) ;;
  invalid when (fails (Policy.Validate current)) ;;
  let agentClaims := length (ids_at (claimsByAgent (state context)) (Event.agentSessionID origin)) in
  let deviceClaims := length (ids_at (claimsByDevice (state context)) (Event.deviceID origin)) in
  invalid when ((Policy.AgentClaimLimit values <? Z.of_nat agentClaims)%Z ||
                (Policy.DeviceClaimLimit values <? Z.of_nat deviceClaims)%Z) ;;
  Val values.

Definition operatorOverride (id : string) : option AuditDirective :=
  Some (mkAuditDirective AuditOperatorOverride ("task:" +:+ id)).

Definition taskTransition (operation : Task.Operation) (from to : Task.State) : Reduction () :=
  reject CodeInvalidTaskTransition when (fails (Task.ValidateTransition operation from to)) ;;
  Val ().

(** ** task_created.go *)

Definition reduceTaskCreated : Reduction Outcome :=
  let! payload := payload_of ["title"; "priority"] ["body"; "labels"; "blocked_by"] in
  let! title := require CodeInvalidPayload (decodeString payload "title") in
  let! priority := require CodeInvalidPayload (decodePriority payload "priority") in
  let! body := optional payload "body" (decodeString payload "body") EmptyString in
  let! labels := optional payload "labels" (decodeLabels payload "labels") [] in
  let! blockedBy := optional payload "blocked_by" (decodeTaskIDs payload "blocked_by") [] in
  match tasks (state context) !! taskID with
  | Some existing =>
      invalid when (Task.ID existing != taskID) ;;
      invalid when (fails (Task.Validate existing)) ;;
      Done (Preflight.reject context CodeEntityAlreadyExists)
  | None =>
      let next := Task.mkTask taskID title body Task.StateBacklog None priority blockedBy labels
                    EmptyString EmptyString EmptyString Task.ReleaseReasonAbsent 1
                    createdAt createdAt in
      let! _ := candidate next in
      let! _ := validateTaskDependencies taskID (Task.BlockedBy next) in
      let! _ := taskTransition Task.OperationCreate Task.StateAbsent (Task.TaskState next) in
      acceptTask context next None
  end.

(** ** task_updated.go *)

Definition reduceTaskUpdated : Reduction Outcome :=
  let! payload := payload_of [] ["title"; "body"; "priority"; "labels"; "blocked_by"] in
  reject CodeInvalidPayload when (bool_decide (payload = ∅)) ;;
  let! current := loadMutableTask in
  reject CodeTaskHolderRequired
    when ((actor == Event.ActorAgent) && negb (heldByOrigin current) &&
          negb (whollyUnowned current)) ;;
  let! title := optional payload "title" (decodeString payload "title") (Task.Title current) in
  let! body := optional payload "body" (decodeString payload "body") (Task.Body current) in
  let! priority :=
    optional payload "priority" (decodePriority payload "priority") (Task.Priority current) in
  let! labels := optional payload "labels" (decodeLabels payload "labels") (Task.Labels current) in
  let! blockedBy :=
    optional payload "blocked_by" (decodeTaskIDs payload "blocked_by") (Task.BlockedBy current) in
  let next := Task.mkTask (Task.ID current) title body (Task.TaskState current)
                (Task.StateReason current) priority blockedBy labels
                (Task.OwnerDeviceID current) (Task.OwnerAgentSessionID current)
                (Task.IntendedDeviceID current) (Task.LastReleaseReason current)
                (u64_succ (Task.EntityVersion current)) (Task.CreatedAt current) createdAt in
  let! _ := candidate next in
  let! _ := (if supplied payload "blocked_by"
             then validateTaskDependencies (Task.ID next) (Task.BlockedBy next)
             else Val ()) in
  acceptTask context next None.

(** ** task_state_changed.go *)

Definition reduceTaskStateChanged : Reduction Outcome :=
  let! payload := payload_of ["to_state"] ["reason"] in
  let! stateText := require CodeInvalidPayload (decodeString payload "to_state") in
  let toState := Task.State_of stateText in
  let reason := decodeString payload "reason" in
  reject CodeInvalidPayload when (supplied payload "reason" && negb (present reason)) ;;
  reject CodeMissingPayloadField when ((toState == Task.StateBlocked) && negb (present reason)) ;;
  reject CodeInvalidPayload when ((toState != Task.StateBlocked) && present reason) ;;
  let! current := loadMutableTask in
  let! _ :=
    (match actor with
     | Event.ActorAgent =>
         reject CodeTaskHolderRequired when (negb (heldByOrigin current)) ;; Val ()
     | Event.ActorHuman =>
         reject CodeTaskMustBeUnowned when (negb (whollyUnowned current)) ;; Val ()
     | _ => Done (Preflight.reject context CodeActorNotAllowed)
     end) in
  let! _ := taskTransition Task.OperationStateChange (Task.TaskState current) toState in
  reject CodeTaskHasUnresolvedConflict
    when ((toState == Task.StateDone) && taskHasUnresolvedConflict (Task.ID current)) ;;
  let terminal := Task.State_Terminal toState in
  let keep (text : string) := if terminal then EmptyString else text in
  let next := rewritten current toState (if toState == Task.StateBlocked then reason else None)
                (keep (Task.OwnerDeviceID current)) (keep (Task.OwnerAgentSessionID current))
                (keep (Task.IntendedDeviceID current)) (Task.LastReleaseReason current)
                createdAt in
  let! _ := candidate next in
  acceptTask context next None.

(** ** task_claimed.go *)

Definition emptyPayload : Reduction () :=
  let! payload := payload_of [] [] in
  reject CodeUnknownPayloadField when (negb (bool_decide (payload = ∅))) ;;
  Val ().

Definition reduceTaskClaimed : Reduction Outcome :=
  let! _ := emptyPayload in
  let! current := loadMutableTask in
  let! dependenciesDone := allDependenciesDone current in
  reject CodeTaskNotActionable
    when ((Task.TaskState current != Task.StateReady) || negb dependenciesDone) ;;
  reject CodeTaskHasUnresolvedConflict when (taskHasUnresolvedConflict (Task.ID current)) ;;
  reject CodeIntendedDeviceMismatch
    when ((Task.IntendedDeviceID current != EmptyString) &&
          (Task.IntendedDeviceID current != Device.ID (device context))) ;;
  let! values := validatePolicy in
  let! (agentClaims, deviceClaims) := validateClaimIndexes in
  reject CodeAgentClaimLimitReached
    when (Policy.AgentClaimLimit values <=? Z.of_nat agentClaims)%Z ;;
  reject CodeDeviceClaimLimitReached
    when (Policy.DeviceClaimLimit values <=? Z.of_nat deviceClaims)%Z ;;
  let! _ := taskTransition Task.OperationClaim (Task.TaskState current) Task.StateClaimed in
  match agentSession context with
  | None => Fail NilDereference
  | Some session =>
      let next := rewritten current Task.StateClaimed None (Device.ID (device context))
                    (AgentSession.ID session) EmptyString Task.ReleaseReasonAbsent createdAt in
      let! _ := candidate next in
      acceptTask context next None
  end.

(** ** task_released.go *)

Definition reduceTaskReleased : Reduction Outcome :=
  let! payload := payload_of ["release_reason"] [] in
  let! reasonText := require CodeInvalidPayload (decodeString payload "release_reason") in
  let reason := Task.ReleaseReason_of reasonText in
  reject CodeInvalidReleaseReason
    when ((reason != Task.ReleaseVoluntary) && (reason != Task.ReleaseForced)) ;;
  let! current := loadMutableTask in
  let! (operation, audit) :=
    (if reason == Task.ReleaseVoluntary then
       reject CodeReleaseActorMismatch when (actor != Event.ActorAgent) ;;
       reject CodeTaskHolderRequired when (negb (heldByOrigin current)) ;;
       Val (Task.OperationReleaseVoluntary, None)
     else
       reject CodeReleaseActorMismatch when (actor != Event.ActorHuman) ;;
       reject CodeReleaseNotAuthorized
         when ((Device.DeviceRole (device context) != Device.RoleOwner) &&
               (Task.OwnerDeviceID current != Device.ID (device context)) &&
               (Task.IntendedDeviceID current != Device.ID (device context))) ;;
       Val (Task.OperationReleaseForced, operatorOverride (Task.ID current))) in
  let! _ := taskTransition operation (Task.TaskState current) Task.StateReady in
  let next := released current EmptyString reason createdAt in
  let! _ := candidate next in
  acceptTask context next audit.

(** ** task_reassigned.go *)

Definition reduceTaskReassigned : Reduction Outcome :=
  let! payload := payload_of ["to_device_id"] [] in
  let! targetID := require CodeInvalidPayload (decodeString payload "to_device_id") in
  reject CodeInvalidPayload when (negb (Domain.DeviceID_Valid targetID)) ;;
  let! current := loadMutableTask in
  match devices (state context) !! targetID with
  | None => Done (Preflight.reject context CodeReassignmentTargetNotActive)
  | Some target =>
      invalid when (Device.ID target != targetID) ;;
      invalid when (fails (Device.Validate target)) ;;
      reject CodeReassignmentTargetNotActive
        when (Device.DeviceStatus target != Device.StatusActive) ;;
      let! _ := taskTransition Task.OperationReassign (Task.TaskState current) Task.StateReady in
      let next := released current targetID Task.ReleaseForced createdAt in
      let! _ := candidate next in
      acceptTask context next (operatorOverride (Task.ID next))
  end.

(** ** task_cancelled.go *)

Definition reduceTaskCancelled : Reduction Outcome :=
  let! _ := emptyPayload in
  let! current := loadMutableTask in
  let! _ := taskTransition Task.OperationCancel (Task.TaskState current) Task.StateCancelled in
  let next := rewritten current Task.StateCancelled None EmptyString EmptyString EmptyString
                (Task.LastReleaseReason current) createdAt in
  let! _ := candidate next in
  acceptTask context next (operatorOverride (Task.ID next)).

(** ** activity_recorded.go *)

Definition reduceActivityRecorded : Reduction Outcome :=
  let! payload := payload_of [] ["task_id"] in
  let! taskID := optional payload "task_id" (decodeString payload "task_id") EmptyString in
  reject CodeInvalidPayload
    when (supplied payload "task_id" && negb (Domain.UUIDv7_Valid taskID)) ;;
  reject CodeActivityTaskNotFound
    when (supplied payload "task_id" && negb (bool_decide (is_Some (tasks (state context) !! taskID)))) ;;
  Val (accept (scope_changes context) taskID None).

End Handlers.
End TaskReducers.
