(* ===== verification/LeaseReducers.v ===== *)
(** * Package internal/reducer: the lease handlers

    [Module LeaseReducers]: lease_common.go and the handlers of the three
    lease kinds. *)

From stdpp Require Import base gmap strings list sorting.
From Stdlib Require Import ZArith NArith Lia.
From S2P Require Import Prelude.
From S2P Require Import GoLib.
From S2P Require Import GoJson.
From S2P Require Import CodecLayer.
From S2P Require Import DomainValues.
From S2P Require Import TaskEntity.
From S2P Require Import LeaseEntity.
From S2P Require Import AgentSessionEntity.
From S2P Require Import DeviceEntity.
From S2P Require Import PolicyEntity.
From S2P Require Import EventModel.
From S2P Require Import EventWire.
From S2P Require Import ReducerState.
From S2P Require Import Preflight.
From S2P Require Import StateRefs.
From S2P Require Import TaskReducers.

Open Scope reducer_scope.

Module LeaseReducers.

Import Reducer Preflight StateRefs.

(** A renewal and a release overwrite these fields of the row. *)
Definition rewritten (value : Lease.Lease) (ttl : Z) (status : Lease.Status)
    (reason : Lease.ReleaseReason) : Lease.Lease :=
  Lease.mkLease (Lease.ID value) (Lease.HolderDeviceID value) (Lease.HolderAgentSessionID value)
    (Lease.LeaseScope value) (Lease.TaskID value) ttl status reason
    (u64_succ (Lease.EntityVersion value)) (Lease.pathPatterns value).

Definition isActive (value : Lease.Lease) : bool := Lease.LeaseStatus value == Lease.StatusActive.

(** [validateGlobalActiveLeaseIndex]: the index lists exactly the active rows. *)
Definition globalIndexValid (state : State) : bool :=
  let ids := activeLeaseIDs state in
  let rows := filter (λ kv, isActive kv.2 = true) (map_to_list (leases state)) in
  (Z.of_nat (length ids) <=? Policy.MaxMemberDevices * Policy.MaxDeviceLeaseLimit)%Z &&
  forallb (λ kv, (BinarySearch ids kv.1).2) rows &&
  (length rows =? length ids)%nat &&
  negb (fails (scan_sorted id
    (λ lease, refuse ErrInvalidCommittedState
                when (negb (Domain.UUIDv7_Valid lease) ||
                      match leases state !! lease with
                      | None => true
                      | Some value => (Lease.ID value != lease) || negb (isActive value)
                      end) ;; None)
    ErrInvalidCommittedState None ids)).

Section Handlers.
Context `{NormLib, JCSLib, CryptoLib}.
Context (context : reductionContext).

Local Notation "'reject' code 'when' c ';;' k" :=
  (if c%bool then Done (Preflight.reject context code) else k)
  (at level 10, code at level 9, c at level 99, k at level 200).
Local Notation leaseID := (proposalID context).
Local Notation actor := (proposalActor context).
Local Notation require := (require context).
Local Notation optional := (optional context).
Local Notation payload_of := (payload_of context).
Local Notation expectVersion := (expectVersion context).

Definition loadMutableLease : Reduction Lease.Lease :=
  match leases (state context) !! leaseID with
  | None => Done (Preflight.reject context CodeEntityNotFound)
  | Some current =>
      invalid when (Lease.ID current != leaseID) ;;
      invalid when (fails (Lease.Validate current)) ;;
      invalid when (negb (validateLeaseReferences (state context) current)) ;;
      let! _ := expectVersion (Lease.EntityVersion current) in
      Val current
  end.

Definition leaseHeldByOrigin (value : Lease.Lease) : bool :=
  match agentSession context with
  | Some session =>
      (Lease.HolderDeviceID value == Event.deviceID (Event.POrigin (proposal context))) &&
      (Lease.HolderAgentSessionID value == AgentSession.ID session)
  | None => false
  end.

Definition validateLeaseTTL (ttl : Z) : Reduction Policy.Values :=
  let! values := TaskReducers.validatePolicy context in
  reject CodeInvalidPayload
    when (fails (Lease.ValidateRequestedTTL ttl (Policy.LeaseMinTTLSeconds values)
                   (Policy.LeaseMaxTTLSeconds values))) ;;
  Val values.

(** The entry test of [validateActiveLeaseList]. *)
Definition leaseEntry (deviceID agentSessionID id : string) : bool :=
  match leases (state context) !! id with
  | None => false
  | Some value =>
      (Lease.ID value == id) && isActive value && negb (fails (Lease.Validate value)) &&
      (Lease.HolderDeviceID value == deviceID) &&
      ((agentSessionID == EmptyString) || (Lease.HolderAgentSessionID value == agentSessionID))
  end.

Definition validateActiveLeaseList (ids : list string) (maximum : Z)
    (deviceID agentSessionID : string) : option StateError :=
  refuse ErrInvalidCommittedState when (maximum <? Z.of_nat (length ids))%Z ;;
  scan_sorted id
    (λ lease, refuse ErrInvalidCommittedState
                when (negb (Domain.UUIDv7_Valid lease) ||
                      negb (leaseEntry deviceID agentSessionID lease)) ;; None)
    ErrInvalidCommittedState None ids.

Definition validateActiveLeaseIndexes : Reduction (nat * nat) :=
  match agentSession context with
  | None => invalidState
  | Some session =>
      let deviceID := Device.ID (device context) in
      let agentIDs := ids_at (activeLeasesByAgent (state context)) (AgentSession.ID session) in
      let deviceIDs := ids_at (activeLeasesByDevice (state context)) deviceID in
      invalid when (fails (validateActiveLeaseList agentIDs Policy.MaxAgentLeaseLimit deviceID
                             (AgentSession.ID session))) ;;
      invalid when (fails (validateActiveLeaseList deviceIDs Policy.MaxDeviceLeaseLimit deviceID
                             EmptyString)) ;;
      invalid when (negb (TaskReducers.subset_of_index agentIDs deviceIDs)) ;;
      invalid when (negb (globalIndexValid (state context))) ;;
      Val (length agentIDs, length deviceIDs)
  end.

Fixpoint findConflict (candidate : Lease.Lease) (ids : list string) : Reduction bool :=
  match ids with
  | [] => Val false
  | id :: rest =>
      match leases (state context) !! id with
      | None => invalidState
      | Some current =>
          invalid when ((Lease.ID current != id) || negb (isActive current)) ;;
          invalid when (negb (validateLeaseReferences (state context) current)) ;;
          match Lease.ActiveLeasesIntersect candidate current with
          | inl _ => invalidState
          | inr true => Val true
          | inr false => findConflict candidate rest
          end
      end
  end.

Definition findActiveLeaseConflict (candidate : Lease.Lease) : Reduction bool :=
  findConflict candidate (activeLeaseIDs (state context)).

Definition leaseOperatorOverride (id : string) : option AuditDirective :=
  Some (mkAuditDirective AuditOperatorOverride ("lease:" +:+ id)).

Definition leaseTransition (operation : Lease.Operation) (from to : Lease.Lifecycle)
    : Reduction () :=
  reject CodeInvalidLeaseTransition when (fails (Lease.ValidateTransition operation from to)) ;;
  Val ().

(** ** lease_acquired.go *)

(** The task association of a lease. *)
Definition associatedTask (scope : Lease.Scope) (taskID : string) : Reduction () :=
  if taskID == EmptyString then Val ()
  else match tasks (state context) !! taskID with
  | None => Done (Preflight.reject context CodeLeaseTaskNotFound)
  | Some associated =>
      invalid when (Task.ID associated != taskID) ;;
      invalid when (fails (Task.Validate associated)) ;;
      reject CodeTaskHolderRequired
        when ((scope == Lease.ScopeTask) && negb (TaskReducers.heldByOrigin context associated)) ;;
      Val ()
  end.

(** The members a scope requires and prohibits. *)
Definition scopeMembers (scope : Lease.Scope) (payload : payloadObject) : Reduction () :=
  match scope with
  | Lease.ScopeTask =>
      reject CodeMissingPayloadField when (negb (supplied payload "task_id")) ;;
      reject CodeInvalidPayload when (supplied payload "path_globs") ;;
      Val ()
  | Lease.ScopePath =>
      reject CodeMissingPayloadField when (negb (supplied payload "path_globs")) ;;
      Val ()
  | Lease.ScopeUnknown _ => Done (Preflight.reject context CodeInvalidPayload)
  end.

Definition reduceLeaseAcquired : Reduction Outcome :=
  let! payload := payload_of ["scope"; "ttl_seconds"] ["task_id"; "path_globs"] in
  let! scopeText := require CodeInvalidPayload (decodeString payload "scope") in
  let! ttl := require CodeInvalidPayload (decodeInt64 payload "ttl_seconds") in
  let scope := Lease.Scope_of scopeText in
  let! taskID := optional payload "task_id" (decodeString payload "task_id") EmptyString in
  reject CodeInvalidPayload
    when (supplied payload "task_id" && negb (Domain.UUIDv7_Valid taskID)) ;;
  let! pathGlobs := optional payload "path_globs" (decodeStrings payload "path_globs") [] in
  let! _ := scopeMembers scope payload in
  match leases (state context) !! leaseID with
  | Some existing =>
      invalid when (Lease.ID existing != leaseID) ;;
      invalid when (fails (Lease.Validate existing)) ;;
      Done (Preflight.reject context CodeEntityAlreadyExists)
  | None =>
      let! values := validateLeaseTTL ttl in
      let! _ := associatedTask scope taskID in
      match agentSession context with
      | None => Fail NilDereference
      | Some session =>
          match Lease.New (Lease.mkFields leaseID (Device.ID (device context))
                             (AgentSession.ID session) scope taskID ttl Lease.StatusActive
                             Lease.ReleaseReasonAbsent 1) pathGlobs with
          | inl _ => Done (Preflight.reject context CodeInvalidPayload)
          | inr next =>
              let! (agentCount, deviceCount) := validateActiveLeaseIndexes in
              reject CodeAgentLeaseLimitReached
                when (Policy.AgentLeaseLimit values <=? Z.of_nat agentCount)%Z ;;
              reject CodeDeviceLeaseLimitReached
                when (Policy.DeviceLeaseLimit values <=? Z.of_nat deviceCount)%Z ;;
              let! conflicts := findActiveLeaseConflict next in
              reject CodeLeaseScopeConflict when conflicts ;;
              let! _ := leaseTransition Lease.OperationCreate Lease.absent
                          (Lease.Lease_Lifecycle next) in
              acceptLease context next None
          end
      end
  end.

(** ** lease_renewed.go *)

Definition reduceLeaseRenewed : Reduction Outcome :=
  let! payload := payload_of ["ttl_seconds"] [] in
  let! ttl := require CodeInvalidPayload (decodeInt64 payload "ttl_seconds") in
  let! current := loadMutableLease in
  reject CodeLeaseHolderRequired when (negb (leaseHeldByOrigin current)) ;;
  let! _ := validateLeaseTTL ttl in
  let! _ := leaseTransition Lease.OperationRenew (Lease.Lease_Lifecycle current) Lease.active in
  acceptLease context
    (rewritten current ttl (Lease.LeaseStatus current) (Lease.LeaseReleaseReason current)) None.

(** ** lease_released.go *)

Definition reduceLeaseReleased : Reduction Outcome :=
  let! payload := payload_of ["release_reason"] [] in
  let! reasonText := require CodeInvalidPayload (decodeString payload "release_reason") in
  let reason := Lease.ReleaseReason_of reasonText in
  reject CodeInvalidReleaseReason
    when ((reason != Lease.ReleaseVoluntary) && (reason != Lease.ReleaseForced) &&
          (reason != Lease.ReleaseExpired)) ;;
  let! current := loadMutableLease in
  let! (operation, audit) :=
    (if reason == Lease.ReleaseVoluntary then
       reject CodeReleaseActorMismatch when (actor != Event.ActorAgent) ;;
       reject CodeLeaseHolderRequired when (negb (leaseHeldByOrigin current)) ;;
       Val (Lease.OperationReleaseVoluntary, None)
     else if reason == Lease.ReleaseForced then
       reject CodeReleaseActorMismatch when (actor != Event.ActorHuman) ;;
       reject CodeReleaseNotAuthorized
         when ((Device.DeviceRole (device context) != Device.RoleOwner) &&
               (Lease.HolderDeviceID current != Device.ID (device context))) ;;
       Val (Lease.OperationReleaseForced, leaseOperatorOverride (Lease.ID current))
     else
       reject CodeReleaseActorMismatch when (actor != Event.ActorDaemon) ;;
       Val (Lease.OperationReleaseExpired, None)) in
  let! _ := leaseTransition operation (Lease.Lease_Lifecycle current) (Lease.released reason) in
  acceptLease context (rewritten current (Lease.TTLSeconds current) Lease.StatusReleased reason)
    audit.

End Handlers.
End LeaseReducers.
