(* ===== verification/PlanReducers.v ===== *)
(** * Package internal/reducer: plan, memory, policy and audit handlers

    [Module PlanReducers]: plan_revision_proposed.go, plan_current_selected.go
    and memory_appended.go. [Module PolicyReducers]: policy_changed.go.
    [Module AuditReducers]: audit_recorded.go. *)

From stdpp Require Import base gmap strings list sorting.
From Stdlib Require Import ZArith NArith Lia.
From S2P Require Import Prelude.
From S2P Require Import GoLib.
From S2P Require Import GoJson.
From S2P Require Import CodecLayer.
From S2P Require Import DomainValues.
From S2P Require Import TaskEntity.
From S2P Require Import DeviceEntity.
From S2P Require Import PlanMemoryEntity.
From S2P Require Import PolicyEntity.
From S2P Require Import EventModel.
From S2P Require Import EventWire.
From S2P Require Import ReducerState.
From S2P Require Import Preflight.
From S2P Require Import StateRefs.
From S2P Require Import PolicyUse.
From S2P Require Import PlanMemoryState.

Open Scope reducer_scope.

Module PlanReducers.

Import Reducer Preflight PlanMemoryState.

Section Handlers.
Context `{NormLib, JCSLib, CryptoLib}.
Context (context : reductionContext).

Local Notation "'reject' code 'when' c ';;' k" :=
  (if c%bool then Done (Preflight.reject context code) else k)
  (at level 10, code at level 9, c at level 99, k at level 200).
Local Notation entityID := (proposalID context).
Local Notation require := (require context).
Local Notation optional := (optional context).
Local Notation payload_of := (payload_of context).

(** ** plan_revision_proposed.go *)

Fixpoint planTasks (ids : list string) : Reduction () :=
  match ids with
  | [] => Val ()
  | taskID :: rest =>
      reject CodePlanTaskNotFound when (negb (present (tasks (state context) !! taskID))) ;;
      invalid when (negb (validatePlanMemoryTaskReference (state context) taskID ∅)) ;;
      planTasks rest
  end.

Definition reducePlanRevisionProposed : Reduction Outcome :=
  let! payload := payload_of ["title"; "body"] ["task_ids"; "supersedes"] in
  let! title := require CodeInvalidPayload (decodeString payload "title") in
  let! body := require CodeInvalidPayload (decodeString payload "body") in
  let! taskIDs := optional payload "task_ids" (decodeTaskIDs payload "task_ids") [] in
  let! supersedes := optional payload "supersedes" (decodeString payload "supersedes") EmptyString in
  if present (planRevisions (state context) !! entityID) then
    invalid when (negb (present (validateRetainedPlanRevision (state context) entityID))) ;;
    Done (Preflight.reject context CodeEntityAlreadyExists)
  else
  match Plan.NewRevision entityID supersedes title body taskIDs (Device.ID (device context))
          (proposalTime context) with
  | inl _ => Done (Preflight.reject context CodeInvalidPayload)
  | inr next =>
      let! _ :=
        (if supersedes == EmptyString then Val () else
         reject CodePlanRevisionNotFound
           when (negb (present (planRevisions (state context) !! supersedes))) ;;
         invalid when (negb (present (validateRetainedPlanRevision (state context) supersedes))) ;;
         Val ()) in
      let! _ := planTasks (Plan.taskIDs next) in
      acceptPlanRevision context next
  end.

(** ** plan_current_selected.go *)

Definition planOperatorOverride (sessionID : string) : option AuditDirective :=
  Some (mkAuditDirective AuditOperatorOverride ("plan_current:" +:+ sessionID)).

Definition reducePlanCurrentSelected : Reduction Outcome :=
  let! payload := payload_of ["plan_revision_id"] [] in
  let! revisionID := require CodeInvalidPayload (decodeString payload "plan_revision_id") in
  reject CodeInvalidPayload when (negb (Domain.UUIDv7_Valid revisionID)) ;;
  reject CodeSessionBindingMismatch when (entityID != sessionID (state context)) ;;
  let current := planCurrent (state context) in
  invalid when (negb (validateCurrentPlanRow (state context) current)) ;;
  let! _ := expectVersion context (Plan.EntityVersion current) in
  reject CodePlanRevisionNotFound
    when (negb (present (planRevisions (state context) !! revisionID))) ;;
  invalid when (negb (present (validateRetainedPlanRevision (state context) revisionID))) ;;
  let next := Plan.mkCurrent (Plan.SessionID current) revisionID
                (u64_succ (Plan.EntityVersion current)) in
  invalid when (fails (Plan.ValidateTransition Plan.OperationSelect current next)) ;;
  acceptPlanCurrent context next (planOperatorOverride (Plan.SessionID current)).

(** ** memory_appended.go *)

(** An occupied successor entry: a rejection when the index is right. *)
Definition alreadySuperseded (successorID supersedes : string) : Reduction () :=
  match validateRetainedMemoryRecord (state context) successorID with
  | None => invalidState
  | Some successor =>
      invalid when ((Memory.supersedes successor == EmptyString) ||
                    (Memory.supersedes successor != supersedes)) ;;
      Done (Preflight.reject context CodeMemoryPredecessorAlreadySuperseded)
  end.

Definition checkPredecessor (next : Memory.Record_) (supersedes : string) : Reduction () :=
  match memoryRecords (state context) !! supersedes with
  | None => Done (Preflight.reject context CodeMemoryPredecessorNotFound)
  | Some predecessor =>
      match validateRetainedMemoryRecord (state context) supersedes with
      | None => invalidState
      | Some validated =>
          invalid when (Memory.id_ validated != Memory.id_ predecessor) ;;
          reject CodeMemoryPredecessorMismatch
            when (fails (Memory.ValidatePredecessor next predecessor)) ;;
          match memorySuccessors (state context) !! supersedes with
          | Some successorID => alreadySuperseded successorID supersedes
          | None => Val ()
          end
      end
  end.

Definition reduceMemoryAppended : Reduction Outcome :=
  let! payload := payload_of ["scope"; "key"; "body"] ["task_id"; "supersedes"] in
  let! scopeText := require CodeInvalidPayload (decodeString payload "scope") in
  let! key := require CodeInvalidPayload (decodeString payload "key") in
  let! body := require CodeInvalidPayload (decodeString payload "body") in
  let! taskID := optional payload "task_id" (decodeString payload "task_id") EmptyString in
  let! supersedes := optional payload "supersedes" (decodeString payload "supersedes") EmptyString in
  if present (memoryRecords (state context) !! entityID) then
    invalid when (negb (present (validateRetainedMemoryRecord (state context) entityID))) ;;
    Done (Preflight.reject context CodeEntityAlreadyExists)
  else
  match Memory.NewRecord entityID (Memory.Scope_of scopeText) taskID key body supersedes
          (proposalTime context) with
  | inl _ => Done (Preflight.reject context CodeInvalidPayload)
  | inr next =>
      let! _ :=
        (if taskID == EmptyString then Val () else
         reject CodeMemoryTaskNotFound when (negb (present (tasks (state context) !! taskID))) ;;
         invalid when (negb (validatePlanMemoryTaskReference (state context) taskID ∅)) ;;
         Val ()) in
      let! _ := (if supersedes == EmptyString then Val () else checkPredecessor next supersedes) in
      acceptMemory context next
  end.

End Handlers.
End PlanReducers.

Module PolicyReducers.

Import Reducer Preflight PolicyUse.

Section Handlers.
Context `{NormLib, JCSLib, CryptoLib}.
Context (context : reductionContext).

Local Notation "'reject' code 'when' c ';;' k" :=
  (if c%bool then Done (Preflight.reject context code) else k)
  (at level 10, code at level 9, c at level 99, k at level 200).

Definition policyValueFields : list string :=
  ["checkpoint_events"; "checkpoint_interval_seconds"; "lease_min_ttl_seconds";
   "lease_default_ttl_seconds"; "lease_max_ttl_seconds"; "agent_claim_limit";
   "agent_lease_limit"; "device_claim_limit"; "device_lease_limit";
   "advertisement_interval_seconds"; "audit_depth_per_device_per_epoch"; "max_member_devices";
   "max_active_agent_sessions"; "cluster_min_apply_level"].

(** The destinations are the fields of [Values] in declaration order. *)
Definition decodePolicyValues (object : payloadObject) : option Policy.Values :=
  values ← mapM (decodeInt64 object) policyValueFields;
  match values with
  | [a; b; c; d; e; f; g; h; i; j; k; l; m; n] =>
      Some (Policy.mkValues a b c d e f g h i j k l m n)
  | _ => None
  end.

Definition policyOperatorOverride (sessionID : string) : option AuditDirective :=
  Some (mkAuditDirective AuditOperatorOverride ("session_policy:" +:+ sessionID)).

Definition reducePolicyChanged : Reduction Outcome :=
  let! payload := payload_of context policyValueFields [] in
  let! values := require context CodeInvalidPayload (decodePolicyValues payload) in
  reject CodeInvalidPayload when (fails (Policy.Values_Validate values)) ;;
  reject CodeSessionBindingMismatch when (proposalID context != sessionID (state context)) ;;
  let current := sessionPolicy (state context) in
  invalid when (Policy.SessionID current != sessionID (state context)) ;;
  invalid when (fails (Policy.Validate current)) ;;
  invalid when (fails (validateDerivedBounds (state context))) ;;
  let! _ := expectVersion context (Policy.EntityVersion current) in
  reject CodeClusterApplyLevelDecrease
    when (Policy.ClusterMinApplyLevel values <?
          Policy.ClusterMinApplyLevel (Policy.PolicyValues current))%Z ;;
  match policyUseViolation (state context) values nothing_pending with
  | policyUseExceedsLimit => Done (Preflight.reject context CodePolicyLimitBelowCurrentUse)
  | policyUseUnsupportedApplyLevel =>
      Done (Preflight.reject context CodeClusterApplyLevelUnsupported)
  | policyUseWithinLimits =>
      let next := Policy.mkPolicy (Policy.SessionID current) values
                    (u64_succ (Policy.EntityVersion current)) in
      invalid when (fails (Policy.ValidateTransition Policy.OperationChange current next)) ;;
      acceptPolicy context next (policyOperatorOverride (Policy.SessionID next))
  end.

End Handlers.
End PolicyReducers.

Module AuditReducers.

Import Reducer Preflight.

Section Handlers.
Context `{NormLib, JCSLib, CryptoLib}.
Context (context : reductionContext).

Local Notation "'reject' code 'when' c ';;' k" :=
  (if c%bool then Done (Preflight.reject context code) else k)
  (at level 10, code at level 9, c at level 99, k at level 200).

Definition auditCodeByte (b : N) : bool :=
  in_range 65 90 b || in_range 97 122 b || in_range 48 57 b ||
  (b =? 46)%N || (b =? 95)%N || (b =? 58)%N || (b =? 45)%N.

Definition validAuditCode (value : string) : bool :=
  (1 <=? strlen value)%N && (strlen value <=? 64)%N && all_bytes auditCodeByte value.

(** A decoding failure of any member and a malformed member refuse alike. *)
Definition prepareAuditRecorded : Reduction (AuditCounter.Counter * AuditRecordedDirective) :=
  let! payload := payload_of context ["action"; "outcome"; "subject"; "subject_device_id";
                                      "subject_credential_epoch"] [] in
  let! action := require context CodeInvalidPayload (decodeString payload "action") in
  let! outcome := require context CodeInvalidPayload (decodeString payload "outcome") in
  let! subject := require context CodeInvalidPayload (decodeString payload "subject") in
  let! subjectDeviceID :=
    require context CodeInvalidPayload (decodeString payload "subject_device_id") in
  let! subjectEpoch :=
    require context CodeInvalidPayload (decodeUint64 payload "subject_credential_epoch") in
  reject CodeInvalidPayload
    when (negb (validAuditCode action) || negb (validAuditCode outcome) ||
          (256 <? strlen subject)%N || negb (utf8_ValidString subject) ||
          negb (Domain.DeviceID_Valid subjectDeviceID) ||
          negb (Domain.ValidUnsignedInteger subjectEpoch)) ;;
  match devices (state context) !! subjectDeviceID with
  | None => Done (Preflight.reject context CodeAuditSubjectNotFound)
  | Some member =>
      reject CodeAuditSubjectNotActive
        when (Device.DeviceStatus member != Device.StatusActive) ;;
      match auditCounters (state context) !! subjectDeviceID with
      | None => invalidState
      | Some counter =>
          invalid when (AuditCounter.DeviceID counter != subjectDeviceID) ;;
          reject CodeAuditCredentialEpochMismatch
            when (negb (AuditCounter.CredentialEpoch counter =? subjectEpoch)%N) ;;
          let depth := Policy.AuditDepthPerDevicePerEpoch
                         (Policy.PolicyValues (sessionPolicy (state context))) in
          invalid when ((depth <? 1)%Z ||
                        (AuditCounter.MaxAcceptedCount <? u64_of_int64 depth)%N) ;;
          reject CodeAuditDepthExceeded
            when (u64_of_int64 depth <=? AuditCounter.AcceptedCount counter)%N ;;
          Val (AuditCounter.mkCounter (AuditCounter.DeviceID counter)
                 (AuditCounter.CredentialEpoch counter)
                 (u64_succ (AuditCounter.AcceptedCount counter)),
               mkAuditRecordedDirective (Device.ID (device context)) subjectDeviceID subjectEpoch
                 action outcome subject)
      end
  end.

Definition reduceAuditRecorded : Reduction Outcome :=
  let! (counter, directive) := prepareAuditRecorded in
  invalid when (fails (AuditCounter.Validate counter)) ;;
  Val (mkOutcome StatusAccepted CodeAccepted
         (mkChanges false [scope context] [counter] [] [] [] [] [] [] [] [] [] [] [] [] [] [] [])
         false EmptyString None (Some directive) None None).

End Handlers.
End AuditReducers.
