(* ===== verification/PublicationReducers.v ===== *)
(** * Package internal/reducer: publication and conflict handlers

    [Module PublicationReducers]: publication_common.go and the handlers of the
    four publication kinds. [Module ConflictReducers]: conflict_common.go and
    the handlers of the three conflict kinds. *)

From stdpp Require Import base gmap strings list sorting.
From Stdlib Require Import ZArith NArith Lia.
From S2P Require Import Prelude.
From S2P Require Import GoLib.
From S2P Require Import GoJson.
From S2P Require Import CodecLayer.
From S2P Require Import DomainValues.
From S2P Require Import TaskEntity.
From S2P Require Import LeaseEntity.
From S2P Require Import AgentSessionEntity.
From S2P Require Import DeviceEntity.
From S2P Require Import ConflictEntity.
From S2P Require Import PublicationEntity.
From S2P Require Import EventModel.
From S2P Require Import EventWire.
From S2P Require Import ReducerState.
From S2P Require Import Preflight.
From S2P Require Import StateRefs.
From S2P Require Import LeaseReducers.
From S2P Require Import PublicationState.

Open Scope reducer_scope.

Module PublicationReducers.

Import Reducer Preflight PublicationState.

(** The fields a decision overwrites; the version advances. *)
Definition decided (value : Publication.Publication) (receipts : list Publication.StagingReceipt)
    (next : Publication.State) (source : Publication.TerminalSource) (lineage : bool)
    (verdict : Publication.ReviewVerdict) (reviewerDevice reviewerSession : string)
    (actorType : Publication.ReviewActorType) (reason : option string) : Publication.Publication :=
  Publication.mkPublication (Publication.Meta value) receipts next source lineage verdict
    reviewerDevice reviewerSession actorType reason (u64_succ (Publication.EntityVersion value)).

Definition eventPathArrayMaxBytes : N := 196608.

Section Handlers.
Context `{NormLib, JCSLib, CryptoLib}.
Context (context : reductionContext).

Local Notation "'reject' code 'when' c ';;' k" :=
  (if c%bool then Done (Preflight.reject context code) else k)
  (at level 10, code at level 9, c at level 99, k at level 200).
Local Notation publicationID := (proposalID context).
Local Notation actor := (proposalActor context).
Local Notation require := (require context CodeInvalidPayload).
Local Notation optional := (optional context).
Local Notation payload_of := (payload_of context).

(** ** publication_common.go *)

Definition loadMutablePublication : Reduction Publication.Publication :=
  match publications (state context) !! publicationID with
  | None => Done (Preflight.reject context CodeEntityNotFound)
  | Some current =>
      invalid when (Publication.PublicationID (Publication.Meta current) != publicationID) ;;
      invalid when (fails (Publication.Validate current)) ;;
      invalid when (negb (validatePublicationReferences (state context) current)) ;;
      let! _ := expectVersion context (Publication.EntityVersion current) in
      Val current
  end.

Definition acceptPublication (value : Publication.Publication)
    (canonicalRef : option Publication.CanonicalRef) : Reduction Outcome :=
  invalid when (fails (Publication.Validate value)) ;;
  invalid when (match canonicalRef with
                | Some ref => fails (Publication.CanonicalRef_Validate ref)
                | None => false
                end) ;;
  let refs := match canonicalRef with Some ref => [ref] | None => [] end in
  Val (accept (mkChanges false [scope context] [] [] [] [] [] [] [] [] [] [] refs [] [value]
                 [] [] [])
         (Publication.TaskID (Publication.Meta value)) None).

Definition patternCovers (path : string) (pattern : Lease.PathPattern) : bool :=
  negb (Lease.prefix pattern) && (Lease.path pattern == path) ||
  Lease.prefix pattern && Domain.RepositoryPath_Contains (Lease.path pattern) path.

(** A missing row is the zero lease, which is not active. *)
Definition leaseCovers (path leaseID : string) : bool :=
  match leases (state context) !! leaseID with
  | None => false
  | Some value =>
      (Lease.LeaseStatus value == Lease.StatusActive) &&
      (Lease.LeaseScope value == Lease.ScopePath) &&
      existsb (patternCovers path) (Lease.pathPatterns value)
  end.

Definition publicationPathsCovered (paths : list string) : Reduction bool :=
  match agentSession context with
  | None => invalidState
  | Some session =>
      let! _ := LeaseReducers.validateActiveLeaseIndexes context in
      Val (forallb (λ path,
             existsb (leaseCovers path)
               (ids_at (activeLeasesByAgent (state context)) (AgentSession.ID session))) paths)
  end.

Definition publicationReviewer : Reduction (string * string * Publication.ReviewActorType) :=
  match actor with
  | Event.ActorAgent =>
      match agentSession context with
      | None => invalidState
      | Some session =>
          Val (Device.ID (device context), AgentSession.ID session, Publication.ReviewActorAgent)
      end
  | Event.ActorHuman =>
      Val (Device.ID (device context), EmptyString, Publication.ReviewActorHuman)
  | _ => invalidState
  end.

Definition publicationWithdrawalAuthorized (value : Publication.Publication) : bool :=
  let metadata := Publication.Meta value in
  match actor with
  | Event.ActorAgent =>
      match agentSession context with
      | None => false
      | Some session =>
          (Publication.AuthorDeviceID metadata == Device.ID (device context)) &&
          (Publication.AuthorAgentSessionID metadata == AgentSession.ID session)
      end
  | Event.ActorHuman =>
      (Device.DeviceRole (device context) == Device.RoleOwner) ||
      (Publication.AuthorDeviceID metadata == Device.ID (device context))
  | _ => false
  end.

(** ** publication_proposed.go *)

Definition decodeMetadata (payload : payloadObject) : Reduction Publication.Metadata :=
  let! proposalEvent := require (decodeString payload "proposal_event_id") in
  let! authorDevice := require (decodeString payload "author_device_id") in
  let! authorSession := require (decodeString payload "author_agent_session_id") in
  let! base := require (decodeString payload "base_commit") in
  let! commit := require (decodeString payload "commit_oid") in
  let! tree := require (decodeString payload "tree_oid") in
  let! parents := require (decodeStrings payload "parent_oids") in
  let! paths := require (decodeStrings payload "paths") in
  let! artifactText := require (decodeString payload "artifact_digest") in
  let! root := require (decodeString payload "working_root_id") in
  match Codec.DecodeBase64URLExact artifactText Crypto.SHA256Size with
  | inl _ => Done (Preflight.reject context CodeInvalidPayload)
  | inr artifact =>
      let! taskID := optional payload "task_id" (decodeString payload "task_id") EmptyString in
      let! supersedes := optional payload "supersedes_publication_id"
                           (decodeString payload "supersedes_publication_id") EmptyString in
      let! resolves := optional payload "resolves_conflict_ids"
                         (decodeStrings payload "resolves_conflict_ids") [] in
      Val (Publication.mkMetadata publicationID proposalEvent supersedes taskID authorDevice
             authorSession base commit tree parents paths (of_bytes artifact) resolves root)
  end.

Definition checkAuthor (metadata : Publication.Metadata) : Reduction () :=
  match agentSession context with
  | None => Done (Preflight.reject context CodePublicationAuthorMismatch)
  | Some session =>
      reject CodePublicationAuthorMismatch
        when ((Publication.ProposalEventID metadata != Event.EventID (proposal context)) ||
              (Publication.AuthorDeviceID metadata != Device.ID (device context)) ||
              (Publication.AuthorAgentSessionID metadata != AgentSession.ID session)) ;;
      reject CodePublicationAuthorBindingMismatch
        when (AgentSession.DeviceID session != Publication.AuthorDeviceID metadata) ;;
      reject CodePublicationWorkingRootMismatch
        when (Publication.WorkingRootID metadata != AgentSession.WorkingRootID session) ;;
      Val ()
  end.

Definition checkTask (metadata : Publication.Metadata) : Reduction () :=
  if Publication.TaskID metadata == EmptyString then Val () else
  match tasks (state context) !! Publication.TaskID metadata with
  | None => Done (Preflight.reject context CodePublicationTaskNotFound)
  | Some taskValue =>
      reject CodePublicationTaskHolderRequired
        when ((Task.OwnerDeviceID taskValue != Publication.AuthorDeviceID metadata) ||
              (Task.OwnerAgentSessionID taskValue != Publication.AuthorAgentSessionID metadata)) ;;
      Val ()
  end.

Definition checkSupersedes (metadata : Publication.Metadata) : Reduction () :=
  if Publication.SupersedesPublicationID metadata == EmptyString then Val () else
  match publications (state context) !! Publication.SupersedesPublicationID metadata with
  | None => Done (Preflight.reject context CodePublicationSupersedesNotFound)
  | Some previous =>
      reject CodePublicationSupersedesNotTerminal
        when ((Publication.PState previous != Publication.StateRejected) &&
              (Publication.PState previous != Publication.StateWithdrawn)) ;;
      reject CodePublicationSupersedesLineageMismatch
        when (negb (samePublicationLineage (Publication.Meta previous) metadata)) ;;
      Val ()
  end.

Fixpoint checkConflicts (ids : list string) : Reduction () :=
  match ids with
  | [] => Val ()
  | conflictID :: rest =>
      match mergeConflicts (state context) !! conflictID with
      | None => Done (Preflight.reject context CodePublicationConflictNotFound)
      | Some current =>
          reject CodePublicationConflictNotUnresolved
            when (Conflict.CStatus current != Conflict.StatusUnresolved) ;;
          checkConflicts rest
      end
  end.

Definition checkReceipts (metadata : Publication.Metadata)
    (receipts : list Publication.StagingReceipt) : Reduction () :=
  match validatePublicationReceipts (state context) metadata receipts with
  | Some code => Done (Preflight.reject context code)
  | None => Val ()
  end.

Definition reducePublicationProposed : Reduction Outcome :=
  let! payload :=
    payload_of ["proposal_event_id"; "author_device_id"; "author_agent_session_id"; "base_commit";
                "commit_oid"; "tree_oid"; "parent_oids"; "paths"; "artifact_digest";
                "working_root_id"; "staging_receipts"]
               ["task_id"; "supersedes_publication_id"; "resolves_conflict_ids"] in
  reject CodeInvalidPayload when (eventPathArrayMaxBytes <? llen (rawMember payload "paths"))%N ;;
  let! receiptObjects := require (decodeRaws payload "staging_receipts") in
  let! metadata := decodeMetadata payload in
  let! receipts := require (decodeStagingReceipts receiptObjects) in
  reject CodeInvalidPayload when (fails (Publication.Metadata_Validate metadata)) ;;
  match publications (state context) !! Publication.PublicationID metadata with
  | Some current =>
      invalid when ((Publication.PublicationID (Publication.Meta current) !=
                     Publication.PublicationID metadata) ||
                    fails (Publication.Validate current)) ;;
      Done (Preflight.reject context CodeEntityAlreadyExists)
  | None =>
      let! _ := checkAuthor metadata in
      let! _ := checkTask metadata in
      let! _ := checkSupersedes metadata in
      let! _ := checkConflicts (Publication.ResolvesConflictIDs metadata) in
      reject CodePublicationControlPath
        when (existsb ControlPath.IsControlledV1 (Publication.Paths metadata)) ;;
      let! covered := publicationPathsCovered (Publication.Paths metadata) in
      reject CodePublicationPathLeaseRequired when (negb covered) ;;
      let! _ := checkReceipts metadata receipts in
      acceptPublication
        (Publication.mkPublication metadata receipts Publication.StateProposed
           Publication.TerminalSourceAbsent false Publication.ReviewVerdictAbsent EmptyString
           EmptyString Publication.ReviewActorAbsent None 1) None
  end.

(** ** publication_reviewed.go *)

Definition reducePublicationReviewed : Reduction Outcome :=
  let! payload := payload_of ["verdict"] [] in
  let! verdictText := require (decodeString payload "verdict") in
  let verdict := Publication.ReviewVerdict_of verdictText in
  reject CodeInvalidPayload when (negb (Publication.ReviewVerdict_Valid verdict)) ;;
  let! current := loadMutablePublication in
  let! (reviewerDeviceID, reviewerSessionID, actorType) := publicationReviewer in
  reject CodePublicationReviewNotIndependent
    when ((actorType == Publication.ReviewActorAgent) &&
          (reviewerDeviceID == Publication.AuthorDeviceID (Publication.Meta current))) ;;
  let '(operation, to, source) :=
    (match verdict with
     | Publication.ReviewVerdictApprove =>
         (Publication.OperationReviewApprove, Publication.StateApproved,
          Publication.PTerminalSource current)
     | _ => (Publication.OperationReviewReject, Publication.StateRejected,
             Publication.TerminalSourceReview)
     end) in
  let next := decided current (Publication.StagingReceipts current) to source
                (Publication.CanonicalLineageMember current) verdict reviewerDeviceID
                reviewerSessionID actorType (Publication.DecisionReason current) in
  reject CodeInvalidPublicationTransition
    when (fails (Publication.ValidateTransition operation current next)) ;;
  acceptPublication next None.

(** ** publication_applied.go *)

Definition reducePublicationApplied : Reduction Outcome :=
  let! payload := payload_of ["expected_canonical_ref_version"; "staging_receipts"] [] in
  let! expectedRefVersion := require (decodeUint64 payload "expected_canonical_ref_version") in
  let! receiptObjects := require (decodeRaws payload "staging_receipts") in
  let! receipts := require (decodeStagingReceipts receiptObjects) in
  reject CodeInvalidPayload
    when ((expectedRefVersion <? 1)%N || negb (Domain.ValidUnsignedInteger expectedRefVersion)) ;;
  let! current := loadMutablePublication in
  let currentRef := canonicalRef (state context) in
  reject CodeCanonicalRefVersionMismatch
    when (negb (expectedRefVersion =? Publication.RefEntityVersion currentRef)%N) ;;
  reject CodeCanonicalRefVersionExhausted
    when (Publication.RefEntityVersion currentRef =? Domain.MaxSafeInteger)%N ;;
  reject CodePublicationBaseCommitMismatch
    when (Publication.BaseCommit (Publication.Meta current) !=
          Publication.RefCommitOID currentRef) ;;
  let! _ := checkReceipts (Publication.Meta current) receipts in
  let next := decided current receipts Publication.StateApplied Publication.TerminalSourceApply true
                (Publication.Verdict current) (Publication.ReviewerDeviceID current)
                (Publication.ReviewerAgentSessionID current) (Publication.ActorType current)
                (Publication.DecisionReason current) in
  reject CodeInvalidPublicationTransition
    when (fails (Publication.ValidateTransition Publication.OperationApply current next)) ;;
  acceptPublication next
    (Some (Publication.mkCanonicalRef Publication.CanonicalRefName
             (Publication.CommitOID (Publication.Meta current))
             (u64_succ (Publication.RefEntityVersion currentRef)))).

(** ** publication_withdrawn.go *)

Definition reducePublicationWithdrawn : Reduction Outcome :=
  let! payload := payload_of [] ["reason"] in
  let reason := decodeString payload "reason" in
  reject CodeInvalidPayload when (supplied payload "reason" && negb (present reason)) ;;
  let! current := loadMutablePublication in
  reject CodePublicationWithdrawalNotAuthorized
    when (negb (publicationWithdrawalAuthorized current)) ;;
  let next := decided current (Publication.StagingReceipts current) Publication.StateWithdrawn
                Publication.TerminalSourceWithdraw (Publication.CanonicalLineageMember current)
                (Publication.Verdict current) (Publication.ReviewerDeviceID current)
                (Publication.ReviewerAgentSessionID current) (Publication.ActorType current)
                reason in
  if fails (Publication.ValidateTransition Publication.OperationWithdraw current next)
  then
    reject CodeInvalidPayload when (fails (Publication.Validate next)) ;;
    Done (Preflight.reject context CodeInvalidPublicationTransition)
  else acceptPublication next None.

End Handlers.
End PublicationReducers.

Module ConflictReducers.

Import Reducer Preflight PublicationState PublicationReducers.

Definition conflictOperatorOverride (id : string) : option AuditDirective :=
  Some (mkAuditDirective AuditOperatorOverride ("conflict:" +:+ id)).

Definition conflictAlarm (id : string) (class : AlarmClass) : option AlarmDirective :=
  Some (mkAlarmDirective class ("conflict:" +:+ id)).

Definition resolutionPublicationDeclares (value : Publication.Publication) (conflictID : string)
    : bool :=
  bool_decide (conflictID ∈ Publication.ResolvesConflictIDs (Publication.Meta value)).

(** The fields a resolution overwrites. *)
Definition resolved (value : Conflict.Conflict) (kind : Conflict.ResolutionKind)
    (publicationID forceReason resolver : string) : Conflict.Conflict :=
  Conflict.mkConflict (Conflict.detectionView value) Conflict.StatusResolved kind publicationID
    forceReason resolver (u64_succ (Conflict.EntityVersion value)).

Section Handlers.
Context `{NormLib, JCSLib, CryptoLib}.
Context (context : reductionContext).

Local Notation "'reject' code 'when' c ';;' k" :=
  (if c%bool then Done (Preflight.reject context code) else k)
  (at level 10, code at level 9, c at level 99, k at level 200).
Local Notation conflictID := (proposalID context).
Local Notation actor := (proposalActor context).
Local Notation require := (require context CodeInvalidPayload).
Local Notation optional := (optional context).
Local Notation payload_of := (payload_of context).

(** ** conflict_common.go *)

Definition loadMutableConflict : Reduction Conflict.Conflict :=
  match mergeConflicts (state context) !! conflictID with
  | None => Done (Preflight.reject context CodeEntityNotFound)
  | Some current =>
      invalid when (Conflict.ID (Conflict.detectionView current) != conflictID) ;;
      invalid when (fails (Conflict.Validate current)) ;;
      invalid when (negb (validateConflictReferences (state context) current)) ;;
      let! _ := expectVersion context (Conflict.EntityVersion current) in
      Val current
  end.

(** The task of the candidate publication, empty when there is none. *)
Definition candidateTask (publicationID : string) : string :=
  match publications (state context) !! publicationID with
  | Some candidate => Publication.TaskID (Publication.Meta candidate)
  | None => EmptyString
  end.

Definition acceptConflict (value : option Conflict.Conflict) (audit : option AuditDirective)
    : Reduction Outcome :=
  match value with
  | Some value =>
      invalid when (fails (Conflict.Validate value)) ;;
      Val (accept (mkChanges false [scope context] [] [] [] [] [] [] [] [] [] [] [] [] [] []
                     [value] [])
             (candidateTask (Conflict.PublicationID (Conflict.detectionView value))) audit)
  | None =>
      match mergeConflicts (state context) !! conflictID with
      | None => invalidState
      | Some current =>
          Val (accept (scope_changes context)
                 (candidateTask (Conflict.PublicationID (Conflict.detectionView current))) audit)
      end
  end.

(** ** conflict_detected.go *)

Definition decodeDetection (payload : payloadObject) : Reduction Conflict.Detection :=
  let! publicationID := require (decodeString payload "publication_id") in
  let! mergeKind := require (decodeString payload "merge_kind") in
  let! bases := require (decodeStrings payload "merge_base_oids") in
  let! canonical := require (decodeString payload "canonical_commit") in
  let! candidate := require (decodeString payload "candidate_commit") in
  let! paths := require (decodeStrings payload "paths") in
  let! replay :=
    optional payload "replay_commit_oid" (decodeString payload "replay_commit_oid") EmptyString in
  Val (Conflict.mkDetection conflictID publicationID (Conflict.MergeKind_of mergeKind) replay bases
         canonical candidate paths).

(** A detection of a conflict that has a row. *)
Definition redetection (current : Conflict.Conflict) (detection : Conflict.Detection)
    : Reduction Outcome :=
  invalid when (fails (Conflict.Validate current)) ;;
  invalid when (negb (validateConflictReferences (state context) current)) ;;
  match Conflict.CompareRedetection current detection with
  | inl _ => invalidState
  | inr Conflict.RedetectionIdentical => acceptConflict None None
  | inr Conflict.RedetectionImmutableTupleMismatch =>
      Done (rejectWithAlarm context CodeConflictImmutableTupleMismatch
              (conflictAlarm (Conflict.ID detection) AlarmConflictIntegrity))
  | inr Conflict.RedetectionPathMismatch =>
      Done (rejectWithAlarm context CodeConflictDetectorPathsMismatch
              (conflictAlarm (Conflict.ID detection) AlarmConflictDetectorCompatibility))
  end.

Definition firstDetection (detection : Conflict.Detection) : Reduction Outcome :=
  match deriveConflictID (workspaceID (state context)) detection with
  | None => Done (Preflight.reject context CodeInvalidPayload)
  | Some derivedID =>
      if derivedID != Conflict.ID detection
      then Done (rejectWithAlarm context CodeConflictIDMismatch
                   (conflictAlarm (Conflict.ID detection) AlarmConflictIntegrity))
      else match publications (state context) !! Conflict.PublicationID detection with
      | None => Done (Preflight.reject context CodeConflictPublicationNotFound)
      | Some candidate =>
          reject CodeConflictPublicationTerminal
            when (Publication.State_Terminal (Publication.PState candidate)) ;;
          reject CodeInvalidPayload
            when (Publication.CommitOID (Publication.Meta candidate) !=
                  Conflict.CandidateCommit detection) ;;
          reject CodeConflictCanonicalCommitMismatch
            when (Conflict.CanonicalCommit detection !=
                  Publication.RefCommitOID (canonicalRef (state context))) ;;
          let next := Conflict.mkConflict detection Conflict.StatusUnresolved
                        Conflict.ResolutionKindAbsent EmptyString EmptyString EmptyString 1 in
          reject CodeInvalidConflictTransition
            when (fails (Conflict.ValidateTransition Conflict.OperationDetect None next)) ;;
          acceptConflict (Some next) None
      end
  end.

Definition reduceWorkspaceConflictDetected : Reduction Outcome :=
  let! payload := payload_of ["publication_id"; "merge_kind"; "merge_base_oids";
                              "canonical_commit"; "candidate_commit"; "paths"]
                             ["replay_commit_oid"] in
  reject CodeInvalidPayload when (eventPathArrayMaxBytes <? llen (rawMember payload "paths"))%N ;;
  let! detection := decodeDetection payload in
  reject CodeInvalidPayload when (fails (Conflict.Detection_Validate detection)) ;;
  match mergeConflicts (state context) !! Conflict.ID detection with
  | Some current => redetection current detection
  | None => firstDetection detection
  end.

(** ** conflict_resolved.go *)

Definition reduceWorkspaceConflictResolved : Reduction Outcome :=
  let! payload := payload_of ["resolution_publication_id"] [] in
  let! resolutionID := require (decodeString payload "resolution_publication_id") in
  reject CodeInvalidPayload when (negb (Domain.UUIDv7_Valid resolutionID)) ;;
  let! current := loadMutableConflict in
  match publications (state context) !! resolutionID with
  | None => Done (Preflight.reject context CodeConflictResolutionNotFound)
  | Some resolution =>
      reject CodeConflictResolutionNotApplied
        when (Publication.PState resolution != Publication.StateApplied) ;;
      reject CodeConflictResolutionNotDeclared
        when (negb (resolutionPublicationDeclares resolution
                      (Conflict.ID (Conflict.detectionView current)))) ;;
      reject CodeConflictResolutionAuthorMismatch
        when ((actor == Event.ActorAgent) &&
              match agentSession context with
              | None => true
              | Some session =>
                  (Publication.AuthorDeviceID (Publication.Meta resolution) !=
                   Device.ID (device context)) ||
                  (Publication.AuthorAgentSessionID (Publication.Meta resolution) !=
                   AgentSession.ID session)
              end) ;;
      let next := resolved current Conflict.ResolutionKindPublication resolutionID
                    (Conflict.ForceReason current) (Device.ID (device context)) in
      reject CodeInvalidConflictTransition
        when (fails (Conflict.ValidateTransition Conflict.OperationPublicationResolve
                       (Some current) next)) ;;
      acceptConflict (Some next) None
  end.

(** ** conflict_force_resolved.go *)

Definition reduceWorkspaceConflictForceResolved : Reduction Outcome :=
  let! payload := payload_of ["reason"] [] in
  let! reason := require (decodeString payload "reason") in
  let! current := loadMutableConflict in
  let next := resolved current Conflict.ResolutionKindForced
                (Conflict.ResolutionPublicationID current) reason (Device.ID (device context)) in
  if fails (Conflict.ValidateTransition Conflict.OperationForceResolve (Some current) next)
  then
    reject CodeInvalidPayload when (fails (Conflict.Validate next)) ;;
    Done (Preflight.reject context CodeInvalidConflictTransition)
  else acceptConflict (Some next)
         (conflictOperatorOverride (Conflict.ID (Conflict.detectionView current))).

End Handlers.
End ConflictReducers.
