(* ===== verification/MembershipReducers.v ===== *)
(** * Package internal/reducer: membership handlers

    [Module MembershipProofs]: the signed objects the handlers check: the
    initial epoch binding (membership_proof.go), the owner recovery
    authorization, and the voter activation proofs.
    [Module MembershipReducers]: membership_common.go and the handlers of the
    seven membership kinds. *)

From stdpp Require Import base gmap strings list sorting.
From Stdlib Require Import ZArith NArith Lia.
From S2P Require Import Prelude.
From S2P Require Import GoLib.
From S2P Require Import GoJson.
From S2P Require Import CodecLayer.
From S2P Require Import GoMarshal.
From S2P Require Import DomainValues.
From S2P Require Import VoterSetEntity.
From S2P Require Import DeviceEntity.
From S2P Require Import PolicyEntity.
From S2P Require Import CredentialEntity.
From S2P Require Import EventModel.
From S2P Require Import EventWire.
From S2P Require Import CheckpointCodec.
From S2P Require Import ReducerState.
From S2P Require Import Preflight.
From S2P Require Import StateRefs.

Open Scope reducer_scope.

Module MembershipProofs.

Import Reducer Preflight StateRefs Marshal.

Definition signature_of (text : string) : option (list N) :=
  match Codec.DecodeBase64URLExact text Crypto.Ed25519SignatureSize with
  | inl _ => None
  | inr signature => Some signature
  end.

Section Lib.
Context `{NormLib, JCSLib, CryptoLib}.

(** ** membership_proof.go *)

Definition initialCredentialEpoch : N := 1.

Record initialEpochBinding := mkInitialEpochBinding {
  EpochPublicKey : list N;
  KeyDigest : list N;
  BindingSignature : list N }.

(** The members of [credentialBindingPreimage]. *)
Definition binding_wire (deviceID : string) (epoch : N) (publicKeyText sessionID : string)
    : list (string * json) :=
  [("device_id", JString deviceID); ("epoch", uint epoch);
   ("epoch_public_key", JString publicKeyText); ("session_id", JString sessionID)].

Definition bindingSigned (preimage : Codec.Error + list N) (identityPublicKey signature : list N)
    : bool :=
  match preimage with
  | inl _ => false
  | inr preimage =>
      match Codec.BuildSignedInput Codec.SignatureCredentialBinding preimage with
      | inl _ => false
      | inr signedInput =>
          (llen identityPublicKey =? Crypto.Ed25519PublicKeySize)%N &&
          Ed25519_Verify identityPublicKey signedInput signature
      end
  end.

Definition decodeInitialEpochBinding (raw : list N) (sessionID deviceID : string)
    (identityPublicKey : list N) : option initialEpochBinding :=
  match decodePayload raw ["binding_signature"; "epoch"; "epoch_public_key"; "key_digest"] [] with
  | inl _ => None
  | inr object =>
      epoch ← decodeUint64 object "epoch";
      publicKeyText ← decodeString object "epoch_public_key";
      digestText ← decodeString object "key_digest";
      signatureText ← decodeString object "binding_signature";
      if negb (epoch =? initialCredentialEpoch)%N then None else
      match Codec.DecodeBase64URLExact publicKeyText Crypto.Ed25519PublicKeySize,
            Codec.DecodeBase64URLExact digestText Crypto.SHA256Size,
            signature_of signatureText with
      | inr publicKey, inr digest, Some signature =>
          if (Sum256 publicKey != digest) ||
             negb (bindingSigned
                     (canonical_object (binding_wire deviceID epoch publicKeyText sessionID))
                     identityPublicKey signature)
          then None
          else Some (mkInitialEpochBinding publicKey digest signature)
      | _, _, _ => None
      end
  end.

(** ** membership_voter_set_activated.go: activation proofs *)

Definition checkpointFields : list string := EventCheckpoint.checkpointRequiredFields.

Definition voterActivationProofFields : list string :=
  ["session_id"; "workspace_id"; "recovery_generation"; "target_voter_set_version";
   "current_authority_voter_set_version"; "voter_set"; "voter_device_id";
   "live_configuration_index"; "checkpoint_event_id"; "checkpoint"; "checkpoint_signature";
   "voter_signature"].

Record decodedVoterActivationProof := mkActivation {
  raw : list N;
  unsigned : list N;
  aSessionID : string;
  aWorkspaceID : string;
  aRecoveryGeneration : N;
  targetVersion : N;
  currentAuthorityVersion : N;
  voterIDs : list string;
  voterDeviceID : string;
  liveConfigurationIndex : N;
  checkpointEventID : string;
  checkpoint : Domain.Checkpoint;
  checkpointBytes : list N;
  checkpointSignature : list N;
  voterSignature : list N }.

Definition positive (n : N) : bool := (1 <=? n)%N && Domain.ValidUnsignedInteger n.

(** The members of [voterActivationProofUnsignedWire]; the checkpoint is the
    value of its raw member. *)
Definition activation_wire (object : payloadObject) (sessionText workspaceText : string)
    (generation target authority : N) (voters : list string) (voterText : string)
    (configuration : N) (eventText signatureText : string) : list (string * json) :=
  [("session_id", JString sessionText); ("workspace_id", JString workspaceText);
   ("recovery_generation", uint generation); ("target_voter_set_version", uint target);
   ("current_authority_voter_set_version", uint authority); ("voter_set", texts voters);
   ("voter_device_id", JString voterText); ("live_configuration_index", uint configuration);
   ("checkpoint_event_id", JString eventText);
   ("checkpoint", default JNull (object !! "checkpoint"));
   ("checkpoint_signature", JString signatureText)].

Definition decodeDeviceIDs : payloadObject → string → option (list string) := decodeStrings.

Definition decodeVoterActivationProof (raw : list N) : option decodedVoterActivationProof :=
  match decodePayload raw voterActivationProofFields [] with
  | inl _ => None
  | inr object =>
      session ← decodeString object "session_id";
      workspace ← decodeString object "workspace_id";
      generation ← decodeUint64 object "recovery_generation";
      target ← decodeUint64 object "target_voter_set_version";
      authority ← decodeUint64 object "current_authority_voter_set_version";
      voters ← decodeDeviceIDs object "voter_set";
      voter ← decodeString object "voter_device_id";
      configuration ← decodeUint64 object "live_configuration_index";
      event ← decodeString object "checkpoint_event_id";
      checkpointSignatureText ← decodeString object "checkpoint_signature";
      voterSignatureText ← decodeString object "voter_signature";
      match EventCheckpoint.DecodeCheckpoint (rawMember object "checkpoint"),
            signature_of checkpointSignatureText, signature_of voterSignatureText with
      | inr checkpoint, Some checkpointSignature, Some voterSignature =>
          if negb (Domain.UUIDv7_Valid session) || negb (Domain.UUIDv4_Valid workspace) ||
             negb (Domain.ValidUnsignedInteger generation) || negb (positive target) ||
             negb (positive authority) || negb (Domain.DeviceID_Valid voter) ||
             negb (positive configuration) || negb (Domain.UUIDv7_Valid event)
          then None
          else match canonical_object (activation_wire object session workspace generation target
                       authority voters voter configuration event checkpointSignatureText) with
          | inl _ => None
          | inr unsigned =>
              Some (mkActivation raw unsigned session workspace generation target authority voters
                      voter configuration event checkpoint (rawMember object "checkpoint")
                      checkpointSignature voterSignature)
          end
      | _, _, _ => None
      end
  end.

Definition validActivationProofContext (state : State) (proof : decodedVoterActivationProof)
    (expectedVoter : string) (target : list string) (target_version authorityVersion : N)
    (eventID : string) : bool :=
  match devices state !! expectedVoter with
  | None => false
  | Some member =>
      (Device.DeviceStatus member == Device.StatusActive) &&
      (aSessionID proof == sessionID state) &&
      (aWorkspaceID proof == workspaceID state) &&
      (aRecoveryGeneration proof =? recoveryGeneration state)%N &&
      (targetVersion proof =? target_version)%N &&
      (currentAuthorityVersion proof =? authorityVersion)%N &&
      (voterIDs proof == target) &&
      (voterDeviceID proof == expectedVoter) &&
      (checkpointEventID proof == eventID) &&
      (liveConfigurationIndex proof <=? Domain.CoveredAppliedLogIndex (checkpoint proof))%N &&
      (Domain.SessionID (checkpoint proof) == sessionID state) &&
      (Domain.WorkspaceID (checkpoint proof) == workspaceID state) &&
      (Domain.RecoveryGeneration (checkpoint proof) =? recoveryGeneration state)%N &&
      (Domain.AuthorityVoterSetVersion (checkpoint proof) =? authorityVersion)%N
  end.

Definition verifyCheckpoint (state : State) (proof : decodedVoterActivationProof) : bool :=
  match devices state !! Domain.SignerDeviceID (checkpoint proof) with
  | None => false
  | Some signer =>
      (Device.DeviceStatus signer == Device.StatusActive) &&
      CredentialAuthority.Contains (credentialAuthority state) (Device.ID signer) &&
      verifyLabeledSignature (Device.IdentityPublicKey signer) Codec.SignatureCheckpoint
        (checkpointBytes proof) (checkpointSignature proof)
  end.

(** The loop that compares every proof with the first one. *)
Definition sameCheckpoint (first proof : decodedVoterActivationProof) : bool :=
  (liveConfigurationIndex proof =? liveConfigurationIndex first)%N &&
  (checkpointBytes proof == checkpointBytes first) &&
  (checkpointSignature proof == checkpointSignature first).

Definition verifyVoterSignature (state : State) (proof : decodedVoterActivationProof) : bool :=
  let publicKey := match devices state !! voterDeviceID proof with
                   | Some member => Device.IdentityPublicKey member
                   | None => []
                   end in
  verifyLabeledSignature publicKey Codec.SignatureVoterActivationProof (unsigned proof)
    (voterSignature proof).

(** The members of [authorityHandoffWire]. *)
Definition handoff_wire (state : State) (target expectedAuthority : N) (voters : list string)
    (eventID : string) (proofs : list json) (priorSigner : string) : list (string * json) :=
  [("session_id", JString (sessionID state)); ("workspace_id", JString (workspaceID state));
   ("recovery_generation", uint (recoveryGeneration state));
   ("target_voter_set_version", uint target);
   ("expected_authority_voter_set_version", uint expectedAuthority);
   ("voter_set", texts voters); ("activation_checkpoint_event_id", JString eventID);
   ("activation_proofs", JArray proofs); ("prior_authority_signer", JString priorSigner)].

End Lib.
End MembershipProofs.

Module MembershipReducers.

Import Reducer Preflight StateRefs Marshal MembershipProofs.

(** [next := current] with the fields an operation overwrites. *)
Definition changed (current : Device.Device) (role : Device.Role) (daemonVersion : string)
    (maxApplyLevel : N) (status : Device.Status) : Device.Device :=
  Device.mkDevice (Device.ID current) role (Device.IdentityPublicKey current) daemonVersion
    maxApplyLevel status (u64_succ (Device.EntityVersion current)).

Definition deviceMembershipOverride (deviceID : string) : option AuditDirective :=
  Some (mkAuditDirective AuditOperatorOverride ("device_membership:" +:+ deviceID)).
Definition voterSetMembershipOverride (sessionID : string) : option AuditDirective :=
  Some (mkAuditDirective AuditOperatorOverride ("voter_set:" +:+ sessionID)).

Definition activeOwner (member : Device.Device) : bool :=
  (Device.DeviceStatus member == Device.StatusActive) &&
  (Device.DeviceRole member == Device.RoleOwner).

(** The row of its id is counted in place of the replaced one. *)
Definition activeOwnerCount (devices : gmap string Device.Device) (replacement : Device.Device)
    : nat :=
  length (filter (λ '(id, member),
    activeOwner (if id == Device.ID replacement then replacement else member) = true)
    (map_to_list devices)).

Definition activeMembers (devices : gmap string Device.Device) : Z :=
  Z.of_nat (length (filter (λ '(_, member),
    (Device.DeviceStatus member == Device.StatusActive) = true) (map_to_list devices))).

Definition activeAuthorityCountAfter (state : State) (replacement : Device.Device) : nat :=
  length (filter (λ id,
    match devices state !! id with
    | None => false
    | Some member =>
        Device.DeviceStatus (if id == Device.ID replacement then replacement else member) ==
        Device.StatusActive
    end = true) (CredentialAuthority.VoterDeviceIDs (credentialAuthority state))).

Definition authorityQuorum (state : State) : nat :=
  length (CredentialAuthority.VoterDeviceIDs (credentialAuthority state)) / 2 + 1.

Definition clusterApplyLevel (state : State) : N :=
  u64_of_int64 (Policy.ClusterMinApplyLevel (Policy.PolicyValues (sessionPolicy state))).

Definition activeDevice (state : State) (id : string) : bool :=
  match devices state !! id with
  | None => false
  | Some member => Device.DeviceStatus member == Device.StatusActive
  end.

Section Handlers.
Context `{NormLib, JCSLib, CryptoLib}.
Context (context : reductionContext).

Local Notation "'reject' code 'when' c ';;' k" :=
  (if c%bool then Done (Preflight.reject context code) else k)
  (at level 10, code at level 9, c at level 99, k at level 200).
Local Notation subjectDeviceID := (proposalID context).
Local Notation require := (require context CodeInvalidPayload).
Local Notation payload_of := (payload_of context).
Local Notation expected := (Event.ExpectedEntityVersion (proposal context)).

(** ** membership_common.go *)

Definition acceptMembership (deviceRows : list Device.Device)
    (counters : list AuditCounter.Counter) (targets : list VoterSet.Set_)
    (authorities : list CredentialAuthority.Authority) (audit : option AuditDirective)
    : Reduction Outcome :=
  invalid when (existsb (λ member, fails (Device.Validate member)) deviceRows) ;;
  invalid when (existsb (λ counter, fails (AuditCounter.Validate counter)) counters) ;;
  invalid when (existsb (λ target, fails (VoterSet.Validate target)) targets) ;;
  invalid when (existsb (λ authority, fails (CredentialAuthority.Validate authority)) authorities) ;;
  Val (accept (mkChanges false [scope context] counters [] [] [] [] [] deviceRows targets
                 authorities [] [] [] [] [] [] []) EmptyString audit).

(** ** membership_device_admitted.go *)

Definition admission (role : Device.Role) (publicKey : list N) (daemonVersion : string)
    (maxApplyLevel : N)
    : Reduction (Device.Operation * option Device.Device * Device.Device *
                 list AuditCounter.Counter) :=
  match devices (state context) !! subjectDeviceID with
  | None =>
      reject CodeExpectedEntityVersion when (present expected) ;;
      Val (Device.OperationAdmission, None,
           Device.mkDevice subjectDeviceID role publicKey daemonVersion maxApplyLevel
             Device.StatusActive 1,
           [AuditCounter.mkCounter subjectDeviceID 0 0])
  | Some current =>
      reject CodeEntityAlreadyExists
        when (Device.DeviceStatus current != Device.StatusRequiresReadmission) ;;
      let! _ := expectVersion context (Device.EntityVersion current) in
      reject CodeInvalidMembershipTransition
        when (Device.IdentityPublicKey current != publicKey) ;;
      Val (Device.OperationReadmission, Some current,
           changed current role daemonVersion maxApplyLevel Device.StatusActive, [])
  end.

Definition reduceMembershipDeviceAdmitted : Reduction Outcome :=
  let! payload := payload_of ["identity_public_key"; "role"; "daemon_version"; "max_apply_level";
                              "initial_epoch_binding"] [] in
  let! publicKeyText := require (decodeString payload "identity_public_key") in
  let! roleText := require (decodeString payload "role") in
  let! daemonVersion := require (decodeString payload "daemon_version") in
  let! maxApplyLevel := require (decodeUint64 payload "max_apply_level") in
  let role := Device.Role_of roleText in
  match Codec.DecodeBase64URLExact publicKeyText Crypto.Ed25519PublicKeySize with
  | inl _ => Done (Preflight.reject context CodeInvalidPayload)
  | inr publicKey =>
      reject CodeInvalidPayload when (negb (Device.Role_Valid role)) ;;
      match Device.DeriveID publicKey with
      | inl _ => Done (Preflight.reject context CodeMembershipSubjectMismatch)
      | inr derivedID =>
          reject CodeMembershipSubjectMismatch when (derivedID != subjectDeviceID) ;;
          reject CodeInvalidPayload
            when (negb (present (decodeInitialEpochBinding
                    (rawMember payload "initial_epoch_binding") (sessionID (state context))
                    subjectDeviceID publicKey))) ;;
          reject CodeClusterApplyLevelUnsupported
            when (maxApplyLevel <? clusterApplyLevel (state context))%N ;;
          let! (operation, current, next, counters) :=
            admission role publicKey daemonVersion maxApplyLevel in
          reject CodeMemberLimitReached
            when (Policy.MaxMemberDevices_ (Policy.PolicyValues (sessionPolicy (state context))) <?
                  activeMembers (devices (state context)) + 1)%Z ;;
          reject CodeInvalidPayload
            when (fails (Device.ValidateTransition operation current next)) ;;
          acceptMembership [next] counters [] [] (deviceMembershipOverride subjectDeviceID)
      end
  end.

(** ** membership_version_reported.go *)

Definition reduceMembershipVersionReported : Reduction Outcome :=
  let! payload := payload_of ["daemon_version"; "max_apply_level"] [] in
  let! daemonVersion := require (decodeString payload "daemon_version") in
  let! maxApplyLevel := require (decodeUint64 payload "max_apply_level") in
  reject CodeMembershipSubjectMismatch
    when (subjectDeviceID != Event.deviceID (Event.POrigin (proposal context))) ;;
  let current := device context in
  invalid when ((Device.ID current != subjectDeviceID) ||
                (Device.DeviceStatus current != Device.StatusActive)) ;;
  let! _ := expectVersion context (Device.EntityVersion current) in
  reject CodeClusterApplyLevelUnsupported
    when (maxApplyLevel <? clusterApplyLevel (state context))%N ;;
  let next := changed current (Device.DeviceRole current) daemonVersion maxApplyLevel
                (Device.DeviceStatus current) in
  if fails (Device.ValidateTransition Device.OperationVersionReport (Some current) next)
  then
    reject CodeMembershipReportUnchanged
      when ((daemonVersion == Device.DaemonVersion current) &&
            (maxApplyLevel =? Device.MaxApplyLevel current)%N) ;;
    Done (Preflight.reject context CodeInvalidPayload)
  else acceptMembership [next] [] [] [] None.

(** ** membership_role_changed.go *)

Definition reduceMembershipRoleChanged : Reduction Outcome :=
  let! payload := payload_of ["device_id"; "role"] [] in
  let! payloadDeviceID := require (decodeString payload "device_id") in
  let! roleText := require (decodeString payload "role") in
  let role := Device.Role_of roleText in
  reject CodeInvalidPayload
    when (negb (Domain.DeviceID_Valid payloadDeviceID) || negb (Device.Role_Valid role)) ;;
  reject CodeMembershipSubjectMismatch when (payloadDeviceID != subjectDeviceID) ;;
  match devices (state context) !! subjectDeviceID with
  | None => Done (Preflight.reject context CodeMembershipSubjectNotFound)
  | Some current =>
      reject CodeMembershipSubjectNotActive
        when (Device.DeviceStatus current != Device.StatusActive) ;;
      let! _ := expectVersion context (Device.EntityVersion current) in
      let next := changed current role (Device.DaemonVersion current)
                    (Device.MaxApplyLevel current) (Device.DeviceStatus current) in
      reject CodeInvalidMembershipTransition
        when (fails (Device.ValidateTransition Device.OperationRoleChange (Some current) next)) ;;
      reject CodeLastActiveOwner
        when (activeOwnerCount (devices (state context)) next =? 0)%nat ;;
      acceptMembership [next] [] [] [] (deviceMembershipOverride subjectDeviceID)
  end.

(** ** membership_owner_recovered.go *)

(** The members of [ownerRecoveryPreimage]. *)
Definition recovery_wire (eventID : string) (version generation : N) (sessionID subject : string)
    : list (string * json) :=
  [("event_id", JString eventID); ("expected_entity_version", uint version);
   ("recovery_generation", uint generation); ("session_id", JString sessionID);
   ("subject_device_id", JString subject)].

Record recoveryAuthorization := mkRecoveryAuthorization {
  recSessionID : string; recGeneration : N; recEventID : string; recSubject : string;
  recVersion : N; recSignature : string }.

Definition decodeRecoveryAuthorization (raw : list N) : option recoveryAuthorization :=
  match decodePayload raw ["session_id"; "recovery_generation"; "event_id"; "subject_device_id";
                           "expected_entity_version"; "signature"] [] with
  | inl _ => None
  | inr authorization =>
      session ← decodeString authorization "session_id";
      generation ← decodeUint64 authorization "recovery_generation";
      event ← decodeString authorization "event_id";
      subject ← decodeString authorization "subject_device_id";
      version ← decodeUint64 authorization "expected_entity_version";
      signature ← decodeString authorization "signature";
      Some (mkRecoveryAuthorization session generation event subject version signature)
  end.

(** The signature of the session's recovery key over the authorization. *)
Definition verifyRecovery (authorization : recoveryAuthorization) (signature : list N)
    : Reduction bool :=
  match canonical_object (recovery_wire (recEventID authorization) (recVersion authorization)
          (recGeneration authorization) (recSessionID authorization)
          (recSubject authorization)) with
  | inl _ => invalidState
  | inr unsigned =>
      match Codec.BuildSignedInput Codec.SignatureOwnerRecovery unsigned with
      | inl _ => invalidState
      | inr signedInput =>
          Val (Ed25519_Verify (recoveryPublicKey (state context)) signedInput signature)
      end
  end.

Definition reduceMembershipOwnerRecovered : Reduction Outcome :=
  let! payload := payload_of ["recovery_authorization"] [] in
  let! authorization :=
    Preflight.require context CodeInvalidRecoveryAuthorization
      (decodeRecoveryAuthorization (rawMember payload "recovery_authorization")) in
  reject CodeMembershipSubjectMismatch
    when ((subjectDeviceID != Event.deviceID (Event.POrigin (proposal context))) ||
          (recSubject authorization != subjectDeviceID)) ;;
  let current := device context in
  reject CodeInvalidMembershipTransition
    when ((Device.ID current != subjectDeviceID) ||
          (Device.DeviceStatus current != Device.StatusActive) ||
          (Device.DeviceRole current != Device.RoleEditor)) ;;
  reject CodeEntityVersionMismatch when (expected != Some (Device.EntityVersion current)) ;;
  reject CodeInvalidRecoveryAuthorization
    when ((recSessionID authorization != sessionID (state context)) ||
          negb (recGeneration authorization =? recoveryGeneration (state context))%N ||
          (recEventID authorization != Event.EventID (proposal context)) ||
          (Some (recVersion authorization) != expected)) ;;
  match signature_of (recSignature authorization) with
  | None => Done (Preflight.reject context CodeInvalidRecoveryAuthorization)
  | Some signature =>
      let! verified := verifyRecovery authorization signature in
      reject CodeInvalidRecoveryAuthorization when (negb verified) ;;
      reject CodeEntityVersionExhausted
        when (Device.EntityVersion current =? Domain.MaxSafeInteger)%N ;;
      let next := changed current Device.RoleOwner (Device.DaemonVersion current)
                    (Device.MaxApplyLevel current) (Device.DeviceStatus current) in
      invalid when (fails (Device.ValidateTransition Device.OperationOwnerRecovery
                             (Some current) next)) ;;
      acceptMembership [next] [] [] [] (deviceMembershipOverride subjectDeviceID)
  end.

(** ** membership_device_revoked.go *)

Definition maxMembershipReasonBytes : N := 1024.

(** The voter target after the revocation: one change for a voter, none else. *)
Definition revokedTarget (voters : list string) : Reduction (list VoterSet.Set_) :=
  let currentTarget := voterSet (state context) in
  if VoterSet.Contains currentTarget subjectDeviceID then
    reject CodeSoleVoterRevocation
      when (length (VoterSet.voterDeviceIDs currentTarget) =? 1)%nat ;;
    reject CodeVoterSetVersionExhausted
      when (VoterSet.VoterSetVersion currentTarget =? Domain.MaxSafeInteger)%N ;;
    match VoterSet.New (sessionID (state context)) voters
            (u64_succ (VoterSet.VoterSetVersion currentTarget)) with
    | inl _ => Done (Preflight.reject context CodeInvalidVoterSet)
    | inr nextTarget =>
        reject CodeInvalidVoterSet
          when (VoterSet.Contains nextTarget subjectDeviceID ||
                fails (VoterSet.ValidateTransition VoterSet.OperationTargetVoterRevocation
                         currentTarget nextTarget)) ;;
        reject CodeVoterTargetNotActive
          when (existsb (λ id, negb (activeDevice (state context) id)) voters) ;;
        Val [nextTarget]
    end
  else
    match VoterSet.New (sessionID (state context)) voters
            (VoterSet.VoterSetVersion currentTarget) with
    | inl _ => Done (Preflight.reject context CodeInvalidVoterSet)
    | inr sameTarget =>
        reject CodeInvalidVoterSet
          when (fails (VoterSet.ValidateTransition VoterSet.OperationNonvoterRevocation
                         currentTarget sameTarget)) ;;
        Val []
    end.

Definition reduceMembershipDeviceRevoked : Reduction Outcome :=
  let! payload := payload_of ["device_id"; "reason"; "voter_set"; "expected_voter_set_version"] [] in
  let! payloadDeviceID := require (decodeString payload "device_id") in
  let! reason := require (decodeString payload "reason") in
  let! voters := require (decodeDeviceIDs payload "voter_set") in
  let! expectedVoterVersion := require (decodeUint64 payload "expected_voter_set_version") in
  reject CodeInvalidPayload
    when (negb (Domain.DeviceID_Valid payloadDeviceID) || (strlen reason <? 1)%N ||
          (maxMembershipReasonBytes <? strlen reason)%N || negb (utf8_ValidString reason)) ;;
  reject CodeMembershipSubjectMismatch when (payloadDeviceID != subjectDeviceID) ;;
  match devices (state context) !! subjectDeviceID with
  | None => Done (Preflight.reject context CodeMembershipSubjectNotFound)
  | Some current =>
      reject CodeMembershipSubjectNotActive
        when ((Device.DeviceStatus current != Device.StatusActive) &&
              (Device.DeviceStatus current != Device.StatusRequiresReadmission)) ;;
      reject CodeEntityVersionMismatch when (expected != Some (Device.EntityVersion current)) ;;
      reject CodeVoterSetVersionMismatch
        when (negb (expectedVoterVersion =? VoterSet.VoterSetVersion (voterSet (state context)))%N) ;;
      reject CodeEntityVersionExhausted
        when (Device.EntityVersion current =? Domain.MaxSafeInteger)%N ;;
      let nextDevice := changed current (Device.DeviceRole current) (Device.DaemonVersion current)
                          (Device.MaxApplyLevel current) Device.StatusRevoked in
      reject CodeInvalidMembershipTransition
        when (fails (Device.ValidateTransition Device.OperationRevocation (Some current)
                       nextDevice)) ;;
      reject CodeLastActiveOwner
        when (activeOwnerCount (devices (state context)) nextDevice =? 0)%nat ;;
      let! targetChanges := revokedTarget voters in
      reject CodeCredentialAuthorityQuorumLost
        when (activeAuthorityCountAfter (state context) nextDevice <?
              authorityQuorum (state context))%nat ;;
      acceptMembership [nextDevice] [] targetChanges [] (deviceMembershipOverride subjectDeviceID)
  end.

(** ** membership_voter_set_changed.go *)

Definition reduceMembershipVoterSetChanged : Reduction Outcome :=
  let! payload := payload_of ["voter_set"] [] in
  let! voters := require (decodeDeviceIDs payload "voter_set") in
  reject CodeSessionBindingMismatch when (proposalID context != sessionID (state context)) ;;
  let current := voterSet (state context) in
  reject CodeEntityVersionMismatch when (expected != Some (VoterSet.VoterSetVersion current)) ;;
  reject CodeVoterSetVersionExhausted
    when (VoterSet.VoterSetVersion current =? Domain.MaxSafeInteger)%N ;;
  match VoterSet.New (sessionID (state context)) voters
          (u64_succ (VoterSet.VoterSetVersion current)) with
  | inl _ => Done (Preflight.reject context CodeInvalidVoterSet)
  | inr next =>
      reject CodeVoterTargetUnchanged when (VoterSet.SameTarget current next) ;;
      reject CodeVoterTargetNotActive
        when (existsb (λ id, negb (activeDevice (state context) id)) voters) ;;
      reject CodeInvalidVoterSet
        when (fails (VoterSet.ValidateTransition VoterSet.OperationChange current next)) ;;
      acceptMembership [] [] [next] [] (voterSetMembershipOverride (sessionID (state context)))
  end.

(** ** membership_voter_set_activated.go *)

(** [decodeValue[[]json.RawMessage]] as values; their bytes are [jcs_Append]. *)
Definition rawValues (payload : payloadObject) (field : string) : option (list json) :=
  match payload !! field with
  | Some (JArray items) => Some items
  | Some JNull => Some []
  | _ => None
  end.

(** The proofs against the target, in its order; a shorter list was refused. *)
Fixpoint proofContexts (proofs : list decodedVoterActivationProof) (voters target : list string)
    (targetVersion authorityVersion : N) (eventID : string) : bool :=
  match proofs, voters with
  | proof :: rest, voter :: voters =>
      validActivationProofContext (state context) proof voter target targetVersion
        authorityVersion eventID &&
      proofContexts rest voters target targetVersion authorityVersion eventID
  | _, _ => true
  end.

(** The proofs agree with each other, with the target and with the signers. *)
Definition proofsValid (proofs : list decodedVoterActivationProof) (voters : list string)
    (targetVersion authorityVersion : N) (eventID : string) : bool :=
  match proofs with
  | [] => false
  | commonProof :: rest =>
      proofContexts proofs voters voters targetVersion authorityVersion eventID &&
      forallb (sameCheckpoint commonProof) rest &&
      verifyCheckpoint (state context) commonProof &&
      forallb (verifyVoterSignature (state context)) proofs
  end.

Definition activationProof (proof : decodedVoterActivationProof)
    : CredentialAuthority.ActivationProof :=
  CredentialAuthority.mkActivationProof (voterDeviceID proof) (raw proof).

(** The prior signer's signature over the handoff. *)
Definition verifyHandoff (priorSignerDevice : Device.Device) (target expectedAuthority : N)
    (voters : list string) (eventID : string) (proofs : list json) (priorSigner : string)
    (signature : list N) : Reduction bool :=
  match canonical_object (handoff_wire (state context) target expectedAuthority voters eventID
          proofs priorSigner) with
  | inl _ => invalidState
  | inr preimage =>
      Val (verifyLabeledSignature (Device.IdentityPublicKey priorSignerDevice)
             Codec.SignatureVoterAuthorityHandoff preimage signature)
  end.

(** The decoded payload of an activation. *)
Record activationPayload := mkActivationPayload {
  apTargetVersion : N; apAuthorityVersion : N; apVoters : list string; apEventID : string;
  apProofValues : list json; apPriorSigner : string; apHandoff : list N }.

Definition decodeActivation (payload : payloadObject) : option activationPayload :=
  target ← decodeUint64 payload "target_voter_set_version";
  authority ← decodeUint64 payload "expected_authority_voter_set_version";
  voters ← decodeDeviceIDs payload "voter_set";
  event ← decodeString payload "activation_checkpoint_event_id";
  proofs ← rawValues payload "activation_proofs";
  signer ← decodeString payload "prior_authority_signer";
  handoffText ← decodeString payload "prior_authority_handoff";
  handoff ← signature_of handoffText;
  if positive target && positive authority && Domain.UUIDv7_Valid event &&
     Domain.DeviceID_Valid signer
  then Some (mkActivationPayload target authority voters event proofs signer handoff) else None.

Definition reduceMembershipVoterSetActivated : Reduction Outcome :=
  let! payload :=
    payload_of ["target_voter_set_version"; "expected_authority_voter_set_version"; "voter_set";
                "activation_checkpoint_event_id"; "activation_proofs"; "prior_authority_signer";
                "prior_authority_handoff"] [] in
  let! activation := require (decodeActivation payload) in
  let! proofs :=
    Preflight.require context CodeInvalidVoterActivationProof
      (mapM decodeVoterActivationProof (jcs_Append <$> apProofValues activation)) in
  reject CodeSessionBindingMismatch when (proposalID context != sessionID (state context)) ;;
  let target := voterSet (state context) in
  let authority := credentialAuthority (state context) in
  let targetVersion := apTargetVersion activation in
  let authorityVersion := apAuthorityVersion activation in
  let voters := apVoters activation in
  let eventID := apEventID activation in
  let priorSigner := apPriorSigner activation in
  reject CodeVoterSetVersionMismatch
    when (negb (targetVersion =? VoterSet.VoterSetVersion target)%N) ;;
  reject CodeCredentialAuthorityVersionMismatch
    when (negb (authorityVersion =? CredentialAuthority.VoterSetVersion authority)%N) ;;
  reject CodeVoterTargetAlreadyActivated
    when (targetVersion =? CredentialAuthority.VoterSetVersion authority)%N ;;
  reject CodeInvalidVoterSet when (voters != VoterSet.voterDeviceIDs target) ;;
  reject CodeInvalidVoterActivationProof
    when (negb (length proofs =? length voters)%nat) ;;
  match devices (state context) !! priorSigner with
  | None => Done (Preflight.reject context CodeInvalidCredentialAuthorityHandoff)
  | Some priorSignerDevice =>
      reject CodeInvalidCredentialAuthorityHandoff
        when ((Device.DeviceStatus priorSignerDevice != Device.StatusActive) ||
              negb (CredentialAuthority.Contains authority priorSigner)) ;;
      reject CodeInvalidVoterActivationProof
        when (negb (proofsValid proofs voters targetVersion authorityVersion eventID)) ;;
      let! verified := verifyHandoff priorSignerDevice targetVersion authorityVersion voters eventID
                         (apProofValues activation) priorSigner (apHandoff activation) in
      reject CodeInvalidCredentialAuthorityHandoff when (negb verified) ;;
      let next := CredentialAuthority.mkAuthority (sessionID (state context)) voters targetVersion
                    CredentialAuthority.ActivationHandoff eventID (activationProof <$> proofs)
                    priorSigner (Some (apHandoff activation)) in
      invalid when (fails (CredentialAuthority.ValidateTransition
                             CredentialAuthority.OperationActivate authority next)) ;;
      acceptMembership [] [] [] [next] None
  end.

End Handlers.
End MembershipReducers.
