(* ===== verification/CredentialReducers.v ===== *)
(** * Package internal/reducer: credential, control-file and checkpoint handlers

    [Module CredentialBinding]: the epoch binding of internal/credential
    (binding.go). [Module CredentialReducers]: credential_proof.go and
    credential_authorized.go. [Module ControlFileReducers]:
    control_file_payload.go and control_file_change_proposed.go.
    [Module CheckpointReducers]: checkpoint_proof.go, checkpoint_apply.go and
    checkpoint_reducer.go. *)

From stdpp Require Import base gmap strings list sorting.
From Stdlib Require Import ZArith NArith Lia.
From S2P Require Import Prelude.
From S2P Require Import GoLib.
From S2P Require Import GoJson.
From S2P Require Import CodecLayer.
From S2P Require Import GoMarshal.
From S2P Require Import DomainValues.
From S2P Require Import DeviceEntity.
From S2P Require Import PolicyEntity.
From S2P Require Import CredentialEntity.
From S2P Require Import EventModel.
From S2P Require Import EventWire.
From S2P Require Import CheckpointCodec.
From S2P Require Import ReducerState.
From S2P Require Import Preflight.
From S2P Require Import StateRefs.
From S2P Require Import MembershipReducers.

Open Scope reducer_scope.

Module CredentialBinding.

Import Marshal.

Inductive Error := ErrInvalidBinding | ErrBindingIdentity | ErrBindingKeyDigest | ErrBindingSignature.

Record Binding := mkBinding {
  SessionID : string;
  DeviceID : string;
  Epoch : N;
  EpochPublicKey : list N;
  KeyDigest : list N;
  Signature : list N }.

Section Lib.
Context `{JCSLib, CryptoLib}.

Definition identified (binding : Binding) : bool :=
  Domain.UUIDv7_Valid (SessionID binding) && Domain.DeviceID_Valid (DeviceID binding) &&
  (1 <=? Epoch binding)%N && Domain.ValidUnsignedInteger (Epoch binding).

Definition CanonicalPreimage (binding : Binding) : Error + list N :=
  if negb (identified binding) then inl ErrInvalidBinding
  else match canonical_object
               [("device_id", JString (DeviceID binding)); ("epoch", uint (Epoch binding));
                ("epoch_public_key", JString (Codec.EncodeBase64URL (EpochPublicKey binding)));
                ("session_id", JString (SessionID binding))] with
  | inl _ => inl ErrInvalidBinding
  | inr canonical => inr canonical
  end.

Definition Validate (binding : Binding) (identityPublicKey : list N) : option Error :=
  refuse ErrInvalidBinding
    when (negb (identified binding) ||
          negb (llen identityPublicKey =? Crypto.Ed25519PublicKeySize)%N) ;;
  match Device.DeriveID identityPublicKey with
  | inl _ => Some ErrBindingIdentity
  | inr derivedID =>
      refuse ErrBindingIdentity when (derivedID != DeviceID binding) ;;
      refuse ErrBindingKeyDigest when (Sum256 (EpochPublicKey binding) != KeyDigest binding) ;;
      match CanonicalPreimage binding with
      | inl err => Some err
      | inr preimage =>
          match Crypto.VerifyEd25519 identityPublicKey Codec.SignatureCredentialBinding preimage
                  (Signature binding) with
          | Some _ => Some ErrBindingSignature
          | None => None
          end
      end
  end.

End Lib.
End CredentialBinding.

Module CredentialReducers.

Import Reducer Preflight StateRefs MembershipProofs.
Import (notations) Prelude.

Definition credentialAuthorizationFields : list string :=
  ["subject_device_id"; "epoch_public_key"; "key_digest"; "epoch"; "role"; "issued_at";
   "not_before"; "validity_seconds"; "authority_voter_set_version"; "clock_endorsements";
   "binding_signature"].

Definition clockEndorsementFields : list string := ["device_id"; "signature"].

Section Handlers.
Context `{NormLib, JCSLib, CryptoLib}.
Context (context : reductionContext).

Local Notation "'reject' code 'when' c ';;' k" :=
  (if c%bool then Done (Preflight.reject context code) else k)
  (at level 10, code at level 9, c at level 99, k at level 200).

(** ** credential_proof.go *)

Definition decodeEndorsement (raw : list N) : option CredentialAuthorization.ClockEndorsement :=
  match decodePayload raw clockEndorsementFields [] with
  | inl _ => None
  | inr object =>
      deviceText ← decodeString object "device_id";
      signatureText ← decodeString object "signature";
      signature ← signature_of signatureText;
      if Domain.DeviceID_Valid deviceText
      then Some (CredentialAuthorization.mkClockEndorsement deviceText signature) else None
  end.

Definition decodeCredentialAuthorization (raw : list N) (sessionID : string)
    (authorizationChainIndex : N) : option CredentialAuthorization.Authorization :=
  match decodePayload raw credentialAuthorizationFields [] with
  | inl _ => None
  | inr object =>
      subject ← decodeString object "subject_device_id";
      publicKeyText ← decodeString object "epoch_public_key";
      digestText ← decodeString object "key_digest";
      epoch ← decodeUint64 object "epoch";
      roleText ← decodeString object "role";
      issuedAt ← decodeString object "issued_at";
      notBefore ← decodeString object "not_before";
      validity ← decodeUint64 object "validity_seconds";
      authority ← decodeUint64 object "authority_voter_set_version";
      endorsementObjects ← decodeRaws object "clock_endorsements";
      bindingText ← decodeString object "binding_signature";
      binding ← signature_of bindingText;
      let role := CredentialAuthorization.Role_of roleText in
      match Codec.DecodeBase64URLExact publicKeyText Crypto.Ed25519PublicKeySize,
            Codec.DecodeBase64URLExact digestText Crypto.SHA256Size with
      | inr publicKey, inr digest =>
          if negb (Domain.DeviceID_Valid subject) || negb (positive epoch) ||
             negb (CredentialAuthorization.Role_Valid role) ||
             negb (Domain.WholeSecondTimestamp_Valid issuedAt) ||
             negb (Domain.WholeSecondTimestamp_Valid notBefore) ||
             negb (Domain.ValidUnsignedInteger validity) || negb (positive authority)
          then None
          else
            endorsements ← mapM decodeEndorsement endorsementObjects;
            Some (CredentialAuthorization.mkAuthorization sessionID subject epoch publicKey digest
                    role issuedAt notBefore validity authority endorsements binding
                    authorizationChainIndex)
      | _, _ => None
      end
  end.

Definition verifyCredentialBinding (authorization : CredentialAuthorization.Authorization)
    (identityPublicKey : list N) : bool :=
  negb (fails (CredentialBinding.Validate
    (CredentialBinding.mkBinding (CredentialAuthorization.SessionID authorization)
       (CredentialAuthorization.DeviceID authorization)
       (CredentialAuthorization.Epoch authorization)
       (CredentialAuthorization.EpochPublicKey authorization)
       (CredentialAuthorization.KeyDigest authorization)
       (CredentialAuthorization.BindingSignature authorization)) identityPublicKey)).

(** ** credential_authorized.go *)

(** The loop over the endorsements: sorted, by active members of the
    authority, each over the preimage. *)
Fixpoint endorsementsOk (state : State) (preimage : list N) (previous : option string)
    (endorsements : list CredentialAuthorization.ClockEndorsement) : bool :=
  match endorsements with
  | [] => true
  | endorsement :: rest =>
      let id := CredentialAuthorization.EDeviceID endorsement in
      Domain.DeviceID_Valid id &&
      negb (match previous with Some p => String.leb id p | None => false end) &&
      match devices state !! id with
      | None => false
      | Some member =>
          (Device.DeviceStatus member == Device.StatusActive) &&
          CredentialAuthority.Contains (credentialAuthority state) id &&
          verifyLabeledSignature (Device.IdentityPublicKey member)
            Codec.SignatureCredentialTimeEndorsement preimage
            (CredentialAuthorization.ESignature endorsement)
      end &&
      endorsementsOk state preimage (Some id) rest
  end.

(** [None] is success. *)
Definition validateCredentialEndorsements (state : State)
    (authorization : CredentialAuthorization.Authorization) : option Code :=
  let endorsements := CredentialAuthorization.ClockEndorsements authorization in
  refuse CodeInvalidCredentialEndorsements
    when ((llen endorsements <? 1)%N ||
          (CredentialAuthorization.MaxEndorsements <? llen endorsements)%N) ;;
  match CredentialAuthorization.CanonicalEndorsementPreimage authorization with
  | inl _ => Some CodeInvalidCredentialEndorsements
  | inr preimage =>
      refuse CodeInvalidCredentialEndorsements
        when (negb (endorsementsOk state preimage None endorsements)) ;;
      refuse CodeCredentialEndorsementQuorumNotMet
        when (length endorsements <?
              length (CredentialAuthority.VoterDeviceIDs (credentialAuthority state)) / 2 + 1)%nat ;;
      None
  end.

(** The code of a refused transition. *)
Definition transitionCode (err : CredentialAuthorization.Error) : Code :=
  if CredentialAuthorization.Error_Is err CredentialAuthorization.ErrIssuedAtBelowRenewalFloor
  then CodeCredentialRenewalTooEarly
  else if CredentialAuthorization.Error_Is err CredentialAuthorization.ErrNotBeforeClampMismatch ||
          CredentialAuthorization.Error_Is err CredentialAuthorization.ErrNotBeforePrecedesIssuedAt
  then CodeCredentialNotBeforeMismatch
  else CodeInvalidPayload.

Definition acceptCredential (authorization : CredentialAuthorization.Authorization)
    (counter : AuditCounter.Counter) : Reduction Outcome :=
  invalid when (fails (CredentialAuthorization.Validate authorization)) ;;
  invalid when (fails (AuditCounter.Validate counter)) ;;
  Val (accept (mkChanges false [scope context] [counter] [] [] [] [] [] [] [] [] [] []
                 [authorization] [] [] [] []) EmptyString None).

(** The epoch the counter names, or none before the first. *)
Definition priorEpoch (deviceID : string) (counter : AuditCounter.Counter)
    : Reduction (option CredentialAuthorization.Authorization) :=
  if (AuditCounter.CredentialEpoch counter =? 0)%N then Val None
  else match credentialAuthorizations (state context) !!
               (sessionID (state context), deviceID, AuditCounter.CredentialEpoch counter) with
  | None => invalidState
  | Some value => Val (Some value)
  end.

Definition authorizationIndex : N :=
  if (currentChainIndex (state context) <? Domain.MaxSafeInteger)%N
  then u64_succ (currentChainIndex (state context)) else currentChainIndex (state context).

(** The credential member checks, in the source's order. *)
Definition checkCredential (authorization : CredentialAuthorization.Authorization)
    (member : Device.Device) (counter : AuditCounter.Counter) : Reduction () :=
  reject CodeCredentialEpochExhausted
    when (AuditCounter.CredentialEpoch counter =? Domain.MaxSafeInteger)%N ;;
  reject CodeCredentialEpochMismatch
    when (negb (CredentialAuthorization.Epoch authorization =?
                u64_succ (AuditCounter.CredentialEpoch counter))%N) ;;
  reject CodeCredentialKeyDigestMismatch
    when (Sum256 (CredentialAuthorization.EpochPublicKey authorization) !=
          CredentialAuthorization.KeyDigest authorization) ;;
  reject CodeInvalidCredentialBinding
    when (negb (verifyCredentialBinding authorization (Device.IdentityPublicKey member))) ;;
  reject CodeCredentialKeyReused
    when (present (credentialKeys (state context) !!
                   CredentialAuthorization.KeyDigest authorization)) ;;
  reject CodeCredentialRoleMismatch
    when (match CredentialAuthorization.ARole authorization with
          | CredentialAuthorization.RoleOwner => Device.DeviceRole member != Device.RoleOwner
          | CredentialAuthorization.RoleEditor => Device.DeviceRole member != Device.RoleEditor
          | CredentialAuthorization.RoleUnknown text =>
              Device.DeviceRole member != Device.Role_of text
          end) ;;
  reject CodeCredentialAuthorityVersionMismatch
    when (negb (CredentialAuthorization.AuthorityVoterSetVersion authorization =?
                CredentialAuthority.VoterSetVersion (credentialAuthority (state context)))%N) ;;
  match validateCredentialEndorsements (state context) authorization with
  | Some code => Done (Preflight.reject context code)
  | None =>
      reject CodeCredentialValidityMismatch
        when (negb (CredentialAuthorization.AValiditySeconds authorization =?
                    CredentialAuthorization.ValiditySeconds)%N) ;;
      Val ()
  end.

Definition reduceCredentialAuthorized : Reduction Outcome :=
  match decodeCredentialAuthorization (Event.Payload (proposal context))
          (sessionID (state context)) authorizationIndex with
  | None =>
      let! _ := payload_of context credentialAuthorizationFields [] in
      Done (Preflight.reject context CodeInvalidPayload)
  | Some authorization =>
      let deviceID := CredentialAuthorization.DeviceID authorization in
      reject CodeCredentialSubjectMismatch when (deviceID != proposalID context) ;;
      match devices (state context) !! deviceID with
      | None => Done (Preflight.reject context CodeCredentialSubjectNotFound)
      | Some member =>
          reject CodeCredentialSubjectNotActive
            when (Device.DeviceStatus member != Device.StatusActive) ;;
          match auditCounters (state context) !! deviceID with
          | None => invalidState
          | Some counter =>
              invalid when (AuditCounter.DeviceID counter != deviceID) ;;
              let! _ := checkCredential authorization member counter in
              let! previous := priorEpoch deviceID counter in
              match CredentialAuthorization.ValidateTransition previous authorization with
              | Some err => Done (Preflight.reject context (transitionCode err))
              | None =>
                  acceptCredential authorization
                    (AuditCounter.mkCounter deviceID (CredentialAuthorization.Epoch authorization) 0)
              end
          end
      end
  end.

End Handlers.
End CredentialReducers.

Module ControlFileReducers.

Import Reducer Preflight.

Definition controlFilePayloadFields : list string :=
  ["path"; "operation"; "content_digest"; "content_size"; "diff"].

Section Handlers.
Context `{NormLib, JCSLib, CryptoLib}.
Context (context : reductionContext).

Local Notation "'reject' code 'when' c ';;' k" :=
  (if c%bool then Done (Preflight.reject context code) else k)
  (at level 10, code at level 9, c at level 99, k at level 200).
Local Notation require := (require context CodeInvalidPayload).

(** One pass: the first field that is absent, or null where it must not be. *)
Fixpoint scanFields (payload : payloadObject) (fields : list string) : Reduction () :=
  match fields with
  | [] => Val ()
  | field :: rest =>
      match payload !! field with
      | None => Done (Preflight.reject context CodeMissingPayloadField)
      | Some v =>
          reject CodeInvalidPayload when ((field != "content_digest") && EventWire.is_null v) ;;
          scanFields payload rest
      end
  end.

(** This kind does not use [decodePayload]: a null digest is allowed. *)
Definition controlFileObject : Reduction payloadObject :=
  let input := Event.Payload (proposal context) in
  match Codec.CanonicalizeSignedObject input with
  | inl _ => Done (Preflight.reject context CodeInvalidPayload)
  | inr canonical =>
      reject CodeInvalidPayload when (canonical != input) ;;
      match Codec.unmarshal canonical with
      | Some (JObject members) =>
          let payload := EventWire.members_of members in
          reject CodeUnknownPayloadField
            when (existsb (λ '(field, _), negb (bool_decide (field ∈ controlFilePayloadFields)))
                    (map_to_list payload)) ;;
          let! _ := scanFields payload controlFilePayloadFields in
          Val payload
      | _ => Done (Preflight.reject context CodeInvalidPayload)
      end
  end.

Definition decodeContentDigest (payload : payloadObject) : Reduction (option (list N)) :=
  match payload !! "content_digest" with
  | Some JNull => Val None
  | _ =>
      let! digestText := require (decodeString payload "content_digest") in
      match Codec.DecodeBase64URLExact digestText Crypto.SHA256Size with
      | inl _ => Done (Preflight.reject context CodeInvalidPayload)
      | inr digest => Val (Some digest)
      end
  end.

Definition decodeControlFileProposal : Reduction ControlFile.Proposal :=
  let! payload := controlFileObject in
  let! path := require (decodeString payload "path") in
  let! operationText := require (decodeString payload "operation") in
  let! contentSize := require (decodeUint64 payload "content_size") in
  let! diff := require (decodeString payload "diff") in
  reject CodeControlFilePathMismatch when (path != proposalID context) ;;
  reject CodeControlFilePathRequired when (negb (ControlPath.IsControlledV1 path)) ;;
  let! digest := decodeContentDigest payload in
  let next := ControlFile.mkProposal (Event.EventID (proposal context))
                (sessionID (state context)) path (ControlFile.Operation_of operationText) digest
                contentSize diff (Device.ID (device context))
                (u64_succ (currentChainIndex (state context))) in
  reject CodeInvalidPayload when (fails (ControlFile.Validate next)) ;;
  Val next.

Definition reduceControlFileChangeProposed : Reduction Outcome :=
  let! next := decodeControlFileProposal in
  Val (accept (mkChanges false [scope context] [] [] [] [] [] [] [] [] [] [] [] [] [] [next] [] [])
         EmptyString None).

End Handlers.
End ControlFileReducers.

Module CheckpointReducers.

Import Reducer Preflight StateRefs Marshal MembershipProofs.

Definition checkpointDigestVersion : N := 1.
Definition checkpointProjectionSchemaVersion : N := 1.

Definition checkpointProofFields : list string := checkpointFields ++ ["authority_signature"].

Record CheckpointApplyContext := mkCheckpointApplyContext {
  Term : N;
  LogIndex : N;
  ChainIndex : N;
  ChainHash : list N;
  ResultIndex : N;
  ResultHash : list N;
  ProjectionAccumulator : list N;
  DigestVersion : N;
  ProjectionSchemaVersion : N }.

(** [false] is the invalid-state error. *)
Definition validApplyContext (applied : CheckpointApplyContext) : bool :=
  (1 <=? Term applied)%N && (2 <=? LogIndex applied)%N &&
  (DigestVersion applied =? checkpointDigestVersion)%N &&
  (ProjectionSchemaVersion applied =? checkpointProjectionSchemaVersion)%N &&
  Domain.ValidUnsignedInteger (Term applied) && Domain.ValidUnsignedInteger (LogIndex applied) &&
  Domain.ValidUnsignedInteger (ChainIndex applied) &&
  Domain.ValidUnsignedInteger (ResultIndex applied) &&
  (ChainIndex applied <=? ResultIndex applied)%N.

Section Handlers.
Context `{NormLib, JCSLib, CryptoLib}.

Definition decodeCheckpointProof (state : State) (payload : list N) : option CheckpointDirective :=
  match decodePayload payload checkpointProofFields [] with
  | inl _ => None
  | inr object =>
      signatureText ← decodeString object "authority_signature";
      signature ← signature_of signatureText;
      let unsignedObject : payloadObject :=
        list_to_map ((λ field, (field, default JNull (object !! field))) <$> checkpointFields) in
      match canonical_object (map_members unsignedObject) with
      | inl _ => None
      | inr unsigned =>
          match EventCheckpoint.DecodeCheckpoint unsigned with
          | inl _ => None
          | inr checkpoint =>
              if (Domain.SessionID checkpoint != sessionID state) ||
                 (Domain.WorkspaceID checkpoint != workspaceID state) ||
                 negb (Domain.RecoveryGeneration checkpoint =? recoveryGeneration state)%N ||
                 negb (Domain.DigestVersion checkpoint =? checkpointDigestVersion)%N ||
                 negb (Domain.ProjectionSchemaVersion checkpoint =?
                       checkpointProjectionSchemaVersion)%N ||
                 negb (Domain.AuthorityVoterSetVersion checkpoint =?
                       CredentialAuthority.VoterSetVersion (credentialAuthority state))%N
              then None
              else match devices state !! Domain.SignerDeviceID checkpoint with
              | None => None
              | Some signer =>
                  if (Device.DeviceStatus signer == Device.StatusActive) &&
                     CredentialAuthority.Contains (credentialAuthority state)
                       (Domain.SignerDeviceID checkpoint) &&
                     verifyLabeledSignature (Device.IdentityPublicKey signer)
                       Codec.SignatureCheckpoint unsigned signature
                  then Some (mkCheckpointDirective checkpoint unsigned signature) else None
              end
          end
      end
  end.

(** [inl] is the error return; [inr None] is the empty code. *)
Definition validateCheckpointAtApply (directive : CheckpointDirective)
    (applied : CheckpointApplyContext) : StateError + option Code :=
  if negb (validApplyContext applied) then inl ErrInvalidCommittedState
  else if fails (Domain.Checkpoint_Validate (DCheckpoint directive))
  then inl ErrInvalidCommittedState
  else
    let checkpoint := DCheckpoint directive in
    if negb (Domain.Term checkpoint =? Term applied)%N ||
       negb (Domain.CoveredAppliedLogIndex checkpoint =? LogIndex applied - 1)%N
    then inr (Some CodeStaleCheckpoint)
    else if negb (Domain.CoveredChainIndex checkpoint =? ChainIndex applied)%N ||
            (Domain.CoveredChainHash checkpoint != ChainHash applied) ||
            negb (Domain.CoveredResultIndex checkpoint =? ResultIndex applied)%N ||
            (Domain.CoveredResultHash checkpoint != ResultHash applied) ||
            (Domain.ProjectionAccumulator checkpoint != ProjectionAccumulator applied) ||
            negb (Domain.DigestVersion checkpoint =? DigestVersion applied)%N ||
            negb (Domain.ProjectionSchemaVersion checkpoint =? ProjectionSchemaVersion applied)%N
    then inl ErrCheckpointIntegrityMismatch
    else inr None.

Definition reduceConsensusCheckpoint (context : reductionContext)
    (applied : CheckpointApplyContext) : Reduction Outcome :=
  invalid when (negb (validApplyContext applied)) ;;
  invalid when (negb (ChainIndex applied =? currentChainIndex (state context))%N ||
                negb (ResultIndex applied =? currentResultIndex (state context))%N) ;;
  match decodeCheckpointProof (state context) (Event.Payload (proposal context)) with
  | None => Done (reject context CodeInvalidPayload)
  | Some directive =>
      match validateCheckpointAtApply directive applied with
      | inl err => Fail err
      | inr (Some code) => Done (reject context code)
      | inr None =>
          Val (mkOutcome StatusAccepted CodeAccepted (scope_changes context) false EmptyString
                 None None None (Some directive))
      end
  end.

End Handlers.
End CheckpointReducers.
