(* ===== verification/MembershipState.v ===== *)
(** * Package internal/reducer: changes of the membership part of the state

    [Module MembershipState]: what [State.Apply] checks of a change set's
    devices, audit counters, voter sets, authorities (membership_state.go),
    credential authorizations (credential_state.go) and control-file proposals
    (control_file_state.go), before any row is written. Every error of these
    checks is the invalid-state error: [None] and [false] stand for it. *)

From stdpp Require Import base gmap strings list sorting.
From Stdlib Require Import ZArith NArith Lia.
From S2P Require Import Prelude.
From S2P Require Import GoLib.
From S2P Require Import GoJson.
From S2P Require Import CodecLayer.
From S2P Require Import DomainValues.
From S2P Require Import VoterSetEntity.
From S2P Require Import DeviceEntity.
From S2P Require Import PolicyEntity.
From S2P Require Import CredentialEntity.
From S2P Require Import ReducerState.
From S2P Require Import Preflight.
From S2P Require Import StateRefs.
From S2P Require Import MembershipReducers.
From S2P Require Import CredentialReducers.

Module MembershipState.

Import Reducer Preflight StateRefs.

Definition empty {A} (rows : list A) : bool := match rows with [] => true | _ :: _ => false end.
Definition single {A} (rows : list A) : bool := match rows with [_] => true | _ => false end.

(** ** membership_state.go *)

Record pendingMembershipChanges := mkPendingMembership {
  pmDevices : gmap string Device.Device;
  pmAuditCounters : gmap string AuditCounter.Counter;
  pmVoterSet : option VoterSet.Set_;
  pmCredentialAuthority : option CredentialAuthority.Authority;
  pmDeviceOperation : option Device.Operation }.

Definition hasNonAuditCounterDomainChanges (changes : Changes) : bool :=
  negb (empty (Tasks changes)) || negb (empty (PlanRevisions changes)) ||
  negb (empty (PlanCurrent changes)) || negb (empty (MemoryRecords changes)) ||
  negb (empty (Leases changes)) || negb (empty (Devices changes)) ||
  negb (empty (VoterSets changes)) || negb (empty (CredentialAuthorities changes)) ||
  negb (empty (AgentSessions changes)) || negb (empty (CanonicalRefs changes)) ||
  negb (empty (CredentialAuthorizations changes)) || negb (empty (Publications changes)) ||
  negb (empty (ControlFileProposals changes)) || negb (empty (MergeConflicts changes)) ||
  negb (empty (SessionPolicy changes)).

Section Lib.
Context `{NormLib, JCSLib, CryptoLib}.

Definition deviceMutationOperation (current next : Device.Device) : option Device.Operation :=
  find (λ operation, negb (fails (Device.ValidateTransition operation (Some current) next)))
    [Device.OperationReadmission; Device.OperationVersionReport; Device.OperationRoleChange;
     Device.OperationOwnerRecovery; Device.OperationRevocation].

Definition validAuditCounterMutation (current next : AuditCounter.Counter) : bool :=
  (AuditCounter.DeviceID current == AuditCounter.DeviceID next) &&
  if (AuditCounter.CredentialEpoch next =? AuditCounter.CredentialEpoch current)%N
  then (AuditCounter.AcceptedCount current <? AuditCounter.MaxAcceptedCount)%N &&
       (AuditCounter.AcceptedCount next =? u64_succ (AuditCounter.AcceptedCount current))%N
  else (AuditCounter.CredentialEpoch current <? Domain.MaxSafeInteger)%N &&
       (AuditCounter.CredentialEpoch next =? u64_succ (AuditCounter.CredentialEpoch current))%N &&
       (AuditCounter.AcceptedCount next =? 0)%N.

Definition validateCanonicalAuthorityProofs (authority : CredentialAuthority.Authority) : bool :=
  forallb (λ proof,
    match Codec.CanonicalizeSignedObject (CredentialAuthority.CanonicalJSON proof) with
    | inl _ => false
    | inr canonical => canonical == CredentialAuthority.CanonicalJSON proof
    end) (CredentialAuthority.ActivationProofs authority).

Section State.
Context (state : State).

(** The rows of the two device tables against each other. *)
Definition memberRowOk (counters : gmap string AuditCounter.Counter)
    (row : string * Device.Device) : bool :=
  let '(id, member) := row in
  (id == Device.ID member) && negb (fails (Device.Validate member)) &&
  match counters !! id with
  | None => false
  | Some counter => AuditCounter.DeviceID counter == id
  end.

Definition counterRowOk (devices : gmap string Device.Device)
    (row : string * AuditCounter.Counter) : bool :=
  let '(id, counter) := row in
  (id == AuditCounter.DeviceID counter) && negb (fails (AuditCounter.Validate counter)) &&
  present (devices !! id).

Definition activeIn (devices : gmap string Device.Device) (id : string) : bool :=
  match devices !! id with
  | None => false
  | Some member => Device.DeviceStatus member == Device.StatusActive
  end.

Definition validateMembershipTopology (devices : gmap string Device.Device)
    (counters : gmap string AuditCounter.Counter) (target : VoterSet.Set_)
    (authority : CredentialAuthority.Authority) : bool :=
  negb (fails (VoterSet.Validate target)) &&
  (VoterSet.SessionID target == sessionID state) &&
  negb (fails (CredentialAuthority.Validate authority)) &&
  (CredentialAuthority.SessionID authority == sessionID state) &&
  validateCanonicalAuthorityProofs authority &&
  negb ((CredentialAuthority.Source authority == CredentialAuthority.ActivationGenesis) &&
        negb (CredentialAuthority.VoterSetVersion authority =? 1)%N) &&
  negb (VoterSet.VoterSetVersion target <? CredentialAuthority.VoterSetVersion authority)%N &&
  negb ((CredentialAuthority.VoterSetVersion authority =? VoterSet.VoterSetVersion target)%N &&
        (CredentialAuthority.VoterDeviceIDs authority != VoterSet.voterDeviceIDs target)) &&
  forallb (memberRowOk counters) (map_to_list devices) &&
  (size counters =? size devices)%nat &&
  forallb (counterRowOk devices) (map_to_list counters) &&
  existsb (λ '(_, member), MembershipReducers.activeOwner member) (map_to_list devices) &&
  forallb (activeIn devices) (VoterSet.voterDeviceIDs target) &&
  forallb (λ id, present (devices !! id)) (CredentialAuthority.VoterDeviceIDs authority) &&
  (length (CredentialAuthority.VoterDeviceIDs authority) / 2 + 1 <=?
   length (filter (λ id, activeIn devices id = true)
             (CredentialAuthority.VoterDeviceIDs authority)))%nat.

(** The loop over the device rows. *)
Fixpoint collectDevices (values : list Device.Device) (pending : gmap string Device.Device)
    (operation : option Device.Operation)
    : option (gmap string Device.Device * option Device.Operation) :=
  match values with
  | [] => Some (pending, operation)
  | next :: rest =>
      if fails (Device.Validate next) || present (pending !! Device.ID next) then None
      else match devices state !! Device.ID next with
      | None =>
          if fails (Device.ValidateTransition Device.OperationAdmission None next) then None
          else collectDevices rest (<[Device.ID next := next]> pending) operation
      | Some current =>
          mutation ← deviceMutationOperation current next;
          collectDevices rest (<[Device.ID next := next]> pending) (Some mutation)
      end
  end.

(** The loop over the counter rows; the count of same-epoch increments. *)
Fixpoint collectCounters (values : list AuditCounter.Counter)
    (pendingDevices : gmap string Device.Device) (pending : gmap string AuditCounter.Counter)
    (increments : nat) : option (gmap string AuditCounter.Counter * nat) :=
  match values with
  | [] => Some (pending, increments)
  | next :: rest =>
      let id := AuditCounter.DeviceID next in
      if fails (AuditCounter.Validate next) || present (pending !! id) then None
      else match auditCounters state !! id with
      | None =>
          if negb (present (pendingDevices !! id)) ||
             negb (AuditCounter.CredentialEpoch next =? 0)%N ||
             negb (AuditCounter.AcceptedCount next =? 0)%N
          then None
          else collectCounters rest pendingDevices (<[id := next]> pending) increments
      | Some current =>
          if negb (validAuditCounterMutation current next) then None
          else collectCounters rest pendingDevices (<[id := next]> pending)
                 (if (AuditCounter.CredentialEpoch next =? AuditCounter.CredentialEpoch current)%N
                  then S increments else increments)
      end
  end.

(** A revocation changes the voter target exactly when its subject is in it. *)
Definition revocationTargetOk (pending : gmap string Device.Device)
    (operation : option Device.Operation) (targets : list VoterSet.Set_) : bool :=
  negb (operation == Some Device.OperationRevocation) ||
  forallb (λ '(revokedID, _),
    Bool.eqb (VoterSet.Contains (voterSet state) revokedID) (single targets))
    (map_to_list pending).

Definition voterSetChange (pending : gmap string Device.Device)
    (operation : option Device.Operation) (targets : list VoterSet.Set_)
    : option (option VoterSet.Set_) :=
  match targets with
  | [] => Some None
  | next :: _ =>
      if negb (size pending =? 0)%nat && (operation != Some Device.OperationRevocation) then None
      else
        let transition := if (size pending =? 0)%nat then VoterSet.OperationChange
                          else VoterSet.OperationTargetVoterRevocation in
        if fails (VoterSet.ValidateTransition transition (voterSet state) next) then None
        else Some (Some next)
  end.

Definition authorityChange (target : VoterSet.Set_)
    (authorities : list CredentialAuthority.Authority)
    : option (option CredentialAuthority.Authority) :=
  match authorities with
  | [] => Some None
  | next :: _ =>
      if fails (CredentialAuthority.ValidateTransition CredentialAuthority.OperationActivate
                  (credentialAuthority state) next) ||
         negb (CredentialAuthority.VoterSetVersion next =? VoterSet.VoterSetVersion target)%N ||
         (CredentialAuthority.VoterDeviceIDs next != VoterSet.voterDeviceIDs target)
      then None else Some (Some next)
  end.

Definition validateMembershipChanges (changes : Changes) : option pendingMembershipChanges :=
  if (1 <? length (Devices changes))%nat || (1 <? length (VoterSets changes))%nat ||
     (1 <? length (CredentialAuthorities changes))%nat ||
     negb (empty (VoterSets changes)) && negb (empty (CredentialAuthorities changes))
  then None
  else
    '(pendingDevices, operation) ← collectDevices (Devices changes) ∅ None;
    '(pendingCounters, increments) ← collectCounters (AuditCounters changes) pendingDevices ∅ 0;
    if negb (increments =? 0)%nat &&
       (negb (increments =? 1)%nat || hasNonAuditCounterDomainChanges changes)
    then None
    else if negb (forallb (λ '(id, _), present (devices state !! id) ||
                                       present (pendingCounters !! id))
                    (map_to_list pendingDevices))
    then None
    else if negb (revocationTargetOk pendingDevices operation (VoterSets changes)) then None
    else
      target ← voterSetChange pendingDevices operation (VoterSets changes);
      let effectiveVoterSet := default (voterSet state) target in
      authority ← authorityChange effectiveVoterSet (CredentialAuthorities changes);
      let effectiveAuthority := default (credentialAuthority state) authority in
      if validateMembershipTopology (pendingDevices ∪ devices state)
           (pendingCounters ∪ auditCounters state) effectiveVoterSet effectiveAuthority
      then Some (mkPendingMembership pendingDevices pendingCounters target authority operation)
      else None.

(** ** credential_state.go *)

Definition hasNonCredentialDomainChanges (changes : Changes) : bool :=
  negb (empty (Tasks changes)) || negb (empty (PlanRevisions changes)) ||
  negb (empty (PlanCurrent changes)) || negb (empty (MemoryRecords changes)) ||
  negb (empty (Leases changes)) || negb (empty (AgentSessions changes)) ||
  negb (empty (CanonicalRefs changes)) || negb (empty (Publications changes)) ||
  negb (empty (ControlFileProposals changes)) || negb (empty (MergeConflicts changes)) ||
  negb (empty (SessionPolicy changes)).

(** [device.Role(value.Role)]. *)
Definition credentialRole (role : CredentialAuthorization.Role) : Device.Role :=
  match role with
  | CredentialAuthorization.RoleOwner => Device.RoleOwner
  | CredentialAuthorization.RoleEditor => Device.RoleEditor
  | CredentialAuthorization.RoleUnknown text => Device.Role_of text
  end.

(** The checks of the one authorization of a change set. *)
Definition credentialChangeOk (value : CredentialAuthorization.Authorization)
    (pendingCounters : gmap string AuditCounter.Counter) : bool :=
  let deviceID := CredentialAuthorization.DeviceID value in
  negb (fails (CredentialAuthorization.Validate value)) &&
  (CredentialAuthorization.SessionID value == sessionID state) &&
  (CredentialAuthorization.AuthorizationChainIndex value =? u64_succ (currentChainIndex state))%N &&
  match devices state !! deviceID with
  | None => false
  | Some member =>
      (Device.DeviceStatus member == Device.StatusActive) &&
      (credentialRole (CredentialAuthorization.ARole value) == Device.DeviceRole member) &&
      CredentialReducers.verifyCredentialBinding value (Device.IdentityPublicKey member)
  end &&
  negb (present (credentialKeys state !! CredentialAuthorization.KeyDigest value)) &&
  (CredentialAuthorization.AuthorityVoterSetVersion value =?
   CredentialAuthority.VoterSetVersion (credentialAuthority state))%N &&
  negb (fails (CredentialReducers.validateCredentialEndorsements state value)) &&
  match auditCounters state !! deviceID, pendingCounters !! deviceID with
  | Some current, Some next =>
      (AuditCounter.CredentialEpoch next =? CredentialAuthorization.Epoch value)%N &&
      (AuditCounter.AcceptedCount next =? 0)%N &&
      negb (AuditCounter.CredentialEpoch current =? Domain.MaxSafeInteger)%N &&
      (CredentialAuthorization.Epoch value =? u64_succ (AuditCounter.CredentialEpoch current))%N &&
      (if (AuditCounter.CredentialEpoch current =? 0)%N
       then negb (fails (CredentialAuthorization.ValidateTransition None value))
       else match credentialAuthorizations state !!
                  (sessionID state, deviceID, AuditCounter.CredentialEpoch current) with
       | None => false
       | Some prior => negb (fails (CredentialAuthorization.ValidateTransition (Some prior) value))
       end)
  | _, _ => false
  end.

Definition validateCredentialChanges (changes : Changes)
    (pendingMembership : pendingMembershipChanges)
    : option (gmap CredentialAuthorization.Key CredentialAuthorization.Authorization) :=
  match CredentialAuthorizations changes with
  | [] =>
      if forallb (λ '(deviceID, next),
           match auditCounters state !! deviceID with
           | None => true
           | Some current =>
               (AuditCounter.CredentialEpoch next =? AuditCounter.CredentialEpoch current)%N
           end) (map_to_list (pmAuditCounters pendingMembership))
      then Some ∅ else None
  | [value] =>
      if negb (single (AuditCounters changes)) || negb (empty (Devices changes)) ||
         negb (empty (VoterSets changes)) || negb (empty (CredentialAuthorities changes)) ||
         hasNonCredentialDomainChanges changes
      then None
      else if credentialChangeOk value (pmAuditCounters pendingMembership)
      then Some {[CredentialAuthorization.PrimaryKey value := value]} else None
  | _ => None
  end.

(** ** control_file_state.go *)

Definition validateControlFileProposal (proposal : ControlFile.Proposal)
    (requireCurrentSession : bool) : bool :=
  negb (fails (ControlFile.Validate proposal)) &&
  negb (requireCurrentSession && (ControlFile.SessionID proposal != sessionID state)) &&
  ControlPath.IsControlledV1 (ControlFile.Path proposal) &&
  validMember state (ControlFile.ProposedByDeviceID proposal).

Definition validateControlFileChanges (values : list ControlFile.Proposal)
    : option (gmap string ControlFile.Proposal) :=
  match values with
  | [] => Some ∅
  | [value] =>
      if validateControlFileProposal value true &&
         negb (present (controlFileProposals state !! ControlFile.ProposalEventID value)) &&
         (ControlFile.ChainIndex value =? u64_succ (currentChainIndex state))%N
      then Some {[ControlFile.ProposalEventID value := value]} else None
  | _ => None
  end.

End State.
End Lib.
End MembershipState.
