(* ===== verification/RepositoryState.v ===== *)
(** * Package internal/reducer: changes of the repository part of the state

    [Module RepositoryState]: what [State.Apply] checks of a change set's
    canonical ref, publications and merge conflicts (publication_state.go)
    before any row is written, and the check of the publications' supersession
    graph. Every error of these checks is the invalid-state error: [None] and
    [false] stand for it. *)

From stdpp Require Import base gmap strings list sorting.
From Stdlib Require Import ZArith NArith Lia.
From S2P Require Import Prelude.
From S2P Require Import GoLib.
From S2P Require Import CodecLayer.
From S2P Require Import DomainValues.
From S2P Require Import ConflictEntity.
From S2P Require Import PublicationEntity.
From S2P Require Import ReducerState.
From S2P Require Import PlanMemoryState.
From S2P Require Import PublicationState.
From S2P Require Import MembershipState.

Module RepositoryState.

Import Reducer PublicationState MembershipState.

Record pendingRepositoryChanges := mkPendingRepository {
  prCanonicalRef : option Publication.CanonicalRef;
  prPublications : gmap string Publication.Publication;
  prMergeConflicts : gmap string Conflict.Conflict;
  prConflictTaskID : string;
  prUnresolvedConflictCount : N }.

(** [publication.Operations], without the recovery transform the loop skips. *)
Definition eventPublicationOperations : list Publication.Operation :=
  filter (λ operation, operation ≠ Publication.OperationRecoveryWithdraw)
    [Publication.OperationReviewApprove; Publication.OperationReviewReject;
     Publication.OperationWithdraw; Publication.OperationApply;
     Publication.OperationRecoveryWithdraw].

Definition validateCanonicalRefTransition (current next : Publication.CanonicalRef) : bool :=
  negb (fails (Publication.CanonicalRef_Validate current)) &&
  negb (fails (Publication.CanonicalRef_Validate next)) &&
  (Publication.RefName next == Publication.RefName current) &&
  (Domain.GitOID_ObjectFormat (Publication.RefCommitOID next) ==
   Domain.GitOID_ObjectFormat (Publication.RefCommitOID current)) &&
  negb (Publication.RefEntityVersion current =? Domain.MaxSafeInteger)%N &&
  (Publication.RefEntityVersion next =? u64_succ (Publication.RefEntityVersion current))%N &&
  (Publication.RefCommitOID next != Publication.RefCommitOID current).

Section Lib.
Context `{NormLib, JCSLib, CryptoLib}.

Definition classifyPublicationTransition (current next : Publication.Publication)
    : option Publication.Operation :=
  find (λ operation, negb (fails (Publication.ValidateTransition operation current next)))
    eventPublicationOperations.

Definition classifyConflictTransition (current next : Conflict.Conflict)
    : option Conflict.Operation :=
  find (λ operation, negb (fails (Conflict.ValidateTransition operation (Some current) next)))
    [Conflict.OperationDetect; Conflict.OperationPublicationResolve;
     Conflict.OperationForceResolve].

Section State.
Context (state : State).

Definition publicationID (value : Publication.Publication) : string :=
  Publication.PublicationID (Publication.Meta value).
Definition conflictID (value : Conflict.Conflict) : string :=
  Conflict.ID (Conflict.detectionView value).

(** A row that is not there yet is a first proposal. *)
Definition publicationBaseline (next : Publication.Publication) : bool :=
  (Publication.PState next == Publication.StateProposed) &&
  (Publication.EntityVersion next =? 1)%N &&
  forallb (λ '(_, existing),
    Publication.ProposalEventID (Publication.Meta existing) !=
    Publication.ProposalEventID (Publication.Meta next)) (map_to_list (publications state)).

(** The loop over the publication rows. *)
Fixpoint collectPublications (values : list Publication.Publication)
    (pending : gmap string Publication.Publication) (operation : option Publication.Operation)
    : option (gmap string Publication.Publication * option Publication.Operation) :=
  match values with
  | [] => Some (pending, operation)
  | next :: rest =>
      if fails (Publication.Validate next) then None
      else match publications state !! publicationID next with
      | None =>
          if publicationBaseline next
          then collectPublications rest (<[publicationID next := next]> pending) operation
          else None
      | Some current =>
          transition ← classifyPublicationTransition current next;
          collectPublications rest (<[publicationID next := next]> pending) (Some transition)
      end
  end.

(** The canonical ref moves exactly with a publication apply. *)
Definition canonicalRefChange (changes : Changes) (operation : option Publication.Operation)
    : option (option Publication.CanonicalRef) :=
  match CanonicalRefs changes with
  | [next] =>
      match Publications changes with
      | [applied] =>
          if (operation == Some Publication.OperationApply) &&
             validateCanonicalRefTransition (canonicalRef state) next &&
             (Publication.BaseCommit (Publication.Meta applied) ==
              Publication.RefCommitOID (canonicalRef state)) &&
             (Publication.CommitOID (Publication.Meta applied) == Publication.RefCommitOID next)
          then Some (Some next) else None
      | _ => None
      end
  | _ => if operation == Some Publication.OperationApply then None else Some None
  end.

Definition conflictChangeOk (next : Conflict.Conflict) : bool :=
  negb (fails (Conflict.Validate next)) &&
  match mergeConflicts state !! conflictID next with
  | None =>
      negb (fails (Conflict.ValidateTransition Conflict.OperationDetect None next)) &&
      match publications state !! Conflict.PublicationID (Conflict.detectionView next) with
      | None => false
      | Some candidate => negb (Publication.State_Terminal (Publication.PState candidate))
      end
  | Some current =>
      match classifyConflictTransition current next with
      | None => false
      | Some operation => operation != Conflict.OperationDetect
      end
  end.

(** The unresolved count of a conflict's task: the task and its new count. *)
Definition unresolvedCount (value : Conflict.Conflict) : option (string * N) :=
  let taskID :=
    match publications state !! Conflict.PublicationID (Conflict.detectionView value) with
    | None => EmptyString
    | Some candidate => Publication.TaskID (Publication.Meta candidate)
    end in
  if taskID == EmptyString then Some (EmptyString, 0%N)
  else
    let count := default 0%N (unresolvedConflictsByTask state !! taskID) in
    match mergeConflicts state !! conflictID value with
    | None =>
        if Conflict.CStatus value == Conflict.StatusUnresolved
        then if (count =? Domain.MaxSafeInteger)%N then None else Some (taskID, u64_succ count)
        else Some (taskID, count)
    | Some current =>
        if (Conflict.CStatus current == Conflict.StatusUnresolved) &&
           (Conflict.CStatus value == Conflict.StatusResolved)
        then if (count =? 0)%N then None else Some (taskID, (count - 1)%N)
        else Some (taskID, count)
    end.

Definition validateRepositoryChanges (changes : Changes) : option pendingRepositoryChanges :=
  if (1 <? length (CanonicalRefs changes))%nat || (1 <? length (Publications changes))%nat ||
     (1 <? length (MergeConflicts changes))%nat ||
     negb (empty (Publications changes)) && negb (empty (MergeConflicts changes))
  then None
  else
    '(pendingPublications, operation) ← collectPublications (Publications changes) ∅ None;
    reference ← canonicalRefChange changes operation;
    if negb (forallb conflictChangeOk (MergeConflicts changes)) ||
       negb (forallb (validatePublicationReferences state) (map_to_list pendingPublications).*2) ||
       negb (forallb (validateConflictReferences state) (MergeConflicts changes))
    then None
    else
      let pendingConflicts := list_to_map ((λ value, (conflictID value, value)) <$>
                                           MergeConflicts changes) in
      match MergeConflicts changes with
      | value :: _ =>
          '(taskID, count) ← unresolvedCount value;
          Some (mkPendingRepository reference pendingPublications pendingConflicts taskID count)
      | [] =>
          Some (mkPendingRepository reference pendingPublications pendingConflicts EmptyString 0)
      end.

Definition validatePublicationSupersessionGraph : bool :=
  PlanMemoryState.validateCycles
    (λ value, Publication.SupersedesPublicationID (Publication.Meta value)) (publications state).

End State.
End Lib.
End RepositoryState.
