(* ===== verification/SessionReducers.v ===== *)
(** * Package internal/reducer: the agent-session handlers

    [Module SessionReducers]: agent_session_common.go and the handlers of the
    three agent-session kinds. Ending a session releases its claims and its
    active leases in the same outcome. *)

From stdpp Require Import base gmap strings list sorting.
From Stdlib Require Import ZArith NArith Lia.
From S2P Require Import Prelude.
From S2P Require Import GoLib.
From S2P Require Import GoJson.
From S2P Require Import CodecLayer.
From S2P Require Import DomainValues.
From S2P Require Import TaskEntity.
From S2P Require Import LeaseEntity.
From S2P Require Import AgentSessionEntity.
From S2P Require Import DeviceEntity.
From S2P Require Import PolicyEntity.
From S2P Require Import EventModel.
From S2P Require Import EventWire.
From S2P Require Import ReducerState.
From S2P Require Import Preflight.
From S2P Require Import StateRefs.
From S2P Require Import TaskReducers.
From S2P Require Import LeaseReducers.

Open Scope reducer_scope.

Module SessionReducers.

Import Reducer Preflight StateRefs.

Definition with_lifecycle (value : AgentSession.Session) (lifecycle : AgentSession.Lifecycle)
    (version : N) : AgentSession.Session :=
  AgentSession.mkSession (AgentSession.ID value) (AgentSession.DeviceID value)
    (AgentSession.SessionClientKind value) (AgentSession.AgentProfileID value)
    (AgentSession.LState lifecycle) (AgentSession.LResumeState lifecycle)
    (AgentSession.WorkingRootID value) (AgentSession.LEndReason lifecycle) version.

Definition sameAgentSessionIdentity (left right : AgentSession.Session) : bool :=
  (AgentSession.ID left == AgentSession.ID right) &&
  (AgentSession.DeviceID left == AgentSession.DeviceID right) &&
  (AgentSession.SessionClientKind left == AgentSession.SessionClientKind right) &&
  (AgentSession.WorkingRootID left == AgentSession.WorkingRootID right) &&
  (AgentSession.AgentProfileID left == AgentSession.AgentProfileID right).

Definition notEnded (session : AgentSession.Session) : bool :=
  AgentSession.SessionState session != AgentSession.StateEnded.

Section Handlers.
Context `{NormLib, JCSLib, CryptoLib}.
Context (context : reductionContext).

Local Notation "'reject' code 'when' c ';;' k" :=
  (if c%bool then Done (Preflight.reject context code) else k)
  (at level 10, code at level 9, c at level 99, k at level 200).
Local Notation sessionID := (proposalID context).
Local Notation actor := (proposalActor context).
Local Notation require := (require context).
Local Notation payload_of := (payload_of context).

Definition loadMutableAgentSession : Reduction AgentSession.Session :=
  match agentSessions (state context) !! sessionID with
  | None => Done (Preflight.reject context CodeEntityNotFound)
  | Some current =>
      invalid when (AgentSession.ID current != sessionID) ;;
      invalid when (fails (AgentSession.Validate current)) ;;
      invalid when (negb (validateAgentSessionReferences (state context) current)) ;;
      let! _ := expectVersion context (AgentSession.EntityVersion current) in
      Val current
  end.

(** Every row is checked, in no particular order: the only error is the
    invalid-state one. *)
Definition validateActiveAgentSessionCount : Reduction nat :=
  let rows := map_to_list (agentSessions (state context)) in
  invalid when (existsb (λ '(id, value),
    (id != AgentSession.ID value) || fails (AgentSession.Validate value) ||
    negb (validateAgentSessionReferences (state context) value)) rows) ;;
  let count := length (filter (λ '(_, value), notEnded value = true) rows) in
  invalid when (Policy.MaxActiveAgentSessions <? Z.of_nat count)%Z ;;
  invalid when (negb (Z.of_nat count =? activeAgentSessionCount (state context))%Z) ;;
  Val count.

(** ** The cascade of a session end *)

Fixpoint releaseClaims (ids : list string) : Reduction (list Task.Task) :=
  match ids with
  | [] => Val []
  | id :: rest =>
      match tasks (state context) !! id with
      | None => invalidState
      | Some value =>
          reject CodeEntityVersionExhausted
            when (Task.EntityVersion value =? Domain.MaxSafeInteger)%N ;;
          invalid when (fails (Task.ValidateTransition Task.OperationSessionEnded
                                 (Task.TaskState value) Task.StateReady)) ;;
          let next := TaskReducers.released value EmptyString Task.ReleaseSessionEnd
                        (proposalTime context) in
          invalid when (present (TaskReducers.validateTaskCandidate next)) ;;
          let! tasks := releaseClaims rest in
          Val (next :: tasks)
      end
  end.

Fixpoint releaseLeases (ids : list string) : Reduction (list Lease.Lease) :=
  match ids with
  | [] => Val []
  | id :: rest =>
      match leases (state context) !! id with
      | None => invalidState
      | Some value =>
          reject CodeEntityVersionExhausted
            when (Lease.EntityVersion value =? Domain.MaxSafeInteger)%N ;;
          let next := LeaseReducers.rewritten value (Lease.TTLSeconds value) Lease.StatusReleased
                        Lease.ReleaseSessionEnded in
          invalid when (fails (Lease.ValidateTransition Lease.OperationSessionEnded
                                 (Lease.Lease_Lifecycle value) (Lease.Lease_Lifecycle next))) ;;
          let! leases := releaseLeases rest in
          Val (next :: leases)
      end
  end.

Definition buildSessionEndCascade (current : AgentSession.Session)
    : Reduction (list Task.Task * list Lease.Lease) :=
  let id := AgentSession.ID current in
  let deviceID := AgentSession.DeviceID current in
  let claimIDs := ids_at (claimsByAgent (state context)) id in
  let deviceClaimIDs := ids_at (claimsByDevice (state context)) deviceID in
  invalid when (fails (TaskReducers.validateClaimList context claimIDs Policy.MaxAgentClaimLimit
                         deviceID id)) ;;
  invalid when (fails (TaskReducers.validateClaimList context deviceClaimIDs
                         Policy.MaxDeviceClaimLimit deviceID EmptyString)) ;;
  invalid when (negb (TaskReducers.subset_of_index claimIDs deviceClaimIDs)) ;;
  let leaseIDs := ids_at (activeLeasesByAgent (state context)) id in
  let deviceLeaseIDs := ids_at (activeLeasesByDevice (state context)) deviceID in
  invalid when (fails (LeaseReducers.validateActiveLeaseList context leaseIDs
                         Policy.MaxAgentLeaseLimit deviceID id)) ;;
  invalid when (fails (LeaseReducers.validateActiveLeaseList context deviceLeaseIDs
                         Policy.MaxDeviceLeaseLimit deviceID EmptyString)) ;;
  invalid when (negb (TaskReducers.subset_of_index leaseIDs deviceLeaseIDs)) ;;
  invalid when (negb (LeaseReducers.globalIndexValid (state context))) ;;
  let! tasks := releaseClaims claimIDs in
  let! leases := releaseLeases leaseIDs in
  Val (tasks, leases).

Definition sessionTransition (operation : AgentSession.Operation) (from to : AgentSession.Lifecycle)
    : Reduction () :=
  reject CodeInvalidAgentSessionTransition
    when (fails (AgentSession.ValidateTransition operation from to)) ;;
  Val ().

Definition boundToOrigin (current : AgentSession.Session) : bool :=
  match agentSession context with
  | Some session => AgentSession.ID session == AgentSession.ID current
  | None => false
  end.

(** ** agent_session_started.go *)

Definition reduceAgentSessionStarted : Reduction Outcome :=
  let! payload := payload_of ["client_kind"; "working_root_id"] [] in
  let! clientText := require CodeInvalidPayload (decodeString payload "client_kind") in
  let! workingRootID := require CodeInvalidPayload (decodeString payload "working_root_id") in
  let clientKind := AgentSession.ClientKind_of clientText in
  reject CodeInvalidPayload
    when (negb (AgentSession.ClientKind_Valid clientKind) ||
          negb (Domain.UUIDv7_Valid workingRootID)) ;;
  match agentSessions (state context) !! sessionID with
  | Some existing =>
      invalid when (AgentSession.ID existing != sessionID) ;;
      invalid when (fails (AgentSession.Validate existing)) ;;
      Done (Preflight.reject context CodeEntityAlreadyExists)
  | None =>
      let! values := TaskReducers.validatePolicy context in
      let! active := validateActiveAgentSessionCount in
      reject CodeAgentSessionLimitReached
        when (Policy.MaxActiveAgentSessions_ values <=? Z.of_nat active)%Z ;;
      let origin := Event.POrigin (proposal context) in
      let profile := if Event.profilePresent origin then Some (Event.agentProfileID origin)
                     else None in
      let next := AgentSession.mkSession sessionID (Device.ID (device context)) clientKind profile
                    AgentSession.StateStarting AgentSession.StateAbsent workingRootID
                    AgentSession.EndReasonAbsent 1 in
      let! _ := sessionTransition AgentSession.OperationCreate AgentSession.zero_lifecycle
                  (AgentSession.Session_Lifecycle next) in
      acceptAgentSession context next [] []
  end.

(** ** agent_session_state_changed.go *)

Definition reduceAgentSessionStateChanged : Reduction Outcome :=
  let! payload := payload_of ["to_state"] [] in
  let! stateText := require CodeInvalidPayload (decodeString payload "to_state") in
  let toState := AgentSession.State_of stateText in
  reject CodeInvalidPayload when (negb (AgentSession.State_Valid toState)) ;;
  let! current := loadMutableAgentSession in
  let! (operation, resume) :=
    (match actor with
     | Event.ActorAgent =>
         reject CodeAgentSessionBindingMismatch when (negb (boundToOrigin current)) ;;
         Val (AgentSession.OperationAgentStatusChange, AgentSession.StateAbsent)
     | Event.ActorDaemon =>
         reject CodeAgentSessionBindingMismatch
           when (Device.ID (device context) != AgentSession.DeviceID current) ;;
         Val (if toState == AgentSession.StateDisconnected
              then (AgentSession.OperationDaemonDisconnect, AgentSession.SessionState current)
              else (AgentSession.OperationDaemonResume, AgentSession.StateAbsent))
     | _ => Done (Preflight.reject context CodeActorNotAllowed)
     end) in
  let lifecycle := AgentSession.mkLifecycle toState resume AgentSession.EndReasonAbsent in
  let! _ := sessionTransition operation (AgentSession.Session_Lifecycle current) lifecycle in
  acceptAgentSession context
    (with_lifecycle current lifecycle (u64_succ (AgentSession.EntityVersion current))) [] [].

(** ** agent_session_ended.go *)

Definition reduceAgentSessionEnded : Reduction Outcome :=
  let! payload := payload_of ["end_reason"] [] in
  let! reasonText := require CodeInvalidPayload (decodeString payload "end_reason") in
  let reason := AgentSession.EndReason_of reasonText in
  reject CodeInvalidEndReason
    when (negb (AgentSession.EndReason_Valid reason) ||
          (reason == AgentSession.EndReasonRecovery)) ;;
  let! current := loadMutableAgentSession in
  let! operation :=
    (match actor with
     | Event.ActorAgent =>
         reject CodeEndActorMismatch when (reason != AgentSession.EndReasonClean) ;;
         reject CodeAgentSessionBindingMismatch when (negb (boundToOrigin current)) ;;
         Val AgentSession.OperationCleanEnd
     | Event.ActorDaemon =>
         reject CodeEndActorMismatch when (reason == AgentSession.EndReasonClean) ;;
         reject CodeAgentSessionBindingMismatch
           when (Device.ID (device context) != AgentSession.DeviceID current) ;;
         Val AgentSession.OperationDaemonEnd
     | _ => Done (Preflight.reject context CodeActorNotAllowed)
     end) in
  let lifecycle := AgentSession.ended reason in
  let! _ := sessionTransition operation (AgentSession.Session_Lifecycle current) lifecycle in
  let! (tasks, leases) := buildSessionEndCascade current in
  acceptAgentSession context
    (with_lifecycle current lifecycle (u64_succ (AgentSession.EntityVersion current))) tasks leases.

End Handlers.
End SessionReducers.
