(* ===== verification/StateChanges.v ===== *)
(** * Package internal/reducer: validation of coordination changes

    [Module StateChanges]: the checks [State.Apply] (state.go) makes of a change
    set's origin scopes, agent sessions, tasks, leases and session policy
    before it writes any row. Every error of these checks is the invalid-state
    error: [None] and [false] stand for it. *)

From stdpp Require Import base gmap strings list sorting.
From Stdlib Require Import ZArith NArith Lia.
From S2P Require Import Prelude.
From S2P Require Import GoLib.
From S2P Require Import CodecLayer.
From S2P Require Import DomainValues.
From S2P Require Import TaskEntity.
From S2P Require Import LeaseEntity.
From S2P Require Import AgentSessionEntity.
From S2P Require Import PolicyEntity.
From S2P Require Import ReducerState.
From S2P Require Import PolicyUse.
From S2P Require Import Preflight.
From S2P Require Import StateRefs.
From S2P Require Import LeaseReducers.
From S2P Require Import SessionReducers.
From S2P Require Import MembershipState.

Module StateChanges.

Import Reducer PolicyUse Preflight StateRefs.

Definition changesHaveDomainMutations (changes : Changes) : bool :=
  negb (MembershipState.empty (AuditCounters changes)) ||
  MembershipState.hasNonAuditCounterDomainChanges changes.

Definition agentSessionTransitionOperation (current next : AgentSession.Session)
    : AgentSession.Operation :=
  if AgentSession.SessionState next == AgentSession.StateEnded
  then match AgentSession.SessionEndReason next with
       | AgentSession.EndReasonClean => AgentSession.OperationCleanEnd
       | AgentSession.EndReasonRecovery => AgentSession.OperationRecoveryEnd
       | _ => AgentSession.OperationDaemonEnd
       end
  else if AgentSession.SessionState next == AgentSession.StateDisconnected
  then AgentSession.OperationDaemonDisconnect
  else if AgentSession.SessionState current == AgentSession.StateDisconnected
  then AgentSession.OperationDaemonResume
  else AgentSession.OperationAgentStatusChange.

Definition sameLeaseReservation (left right : Lease.Lease) : bool :=
  (Lease.ID left == Lease.ID right) &&
  (Lease.HolderDeviceID left == Lease.HolderDeviceID right) &&
  (Lease.HolderAgentSessionID left == Lease.HolderAgentSessionID right) &&
  (Lease.LeaseScope left == Lease.LeaseScope right) &&
  (Lease.TaskID left == Lease.TaskID right) &&
  (Lease.PathPatterns left == Lease.PathPatterns right).

(** [current + 1], which must not leave the safe range. *)
Definition nextVersion (current next : N) : bool :=
  negb (current =? Domain.MaxSafeInteger)%N && (next =? u64_succ current)%N.

Definition validateSessionEndTaskChange (current next : Task.Task) (reason : Task.ReleaseReason)
    : bool :=
  (Task.ID current == Task.ID next) && (Task.Title current == Task.Title next) &&
  (Task.Body current == Task.Body next) && (Task.Priority current =? Task.Priority next)%N &&
  (Task.BlockedBy current == Task.BlockedBy next) && (Task.Labels current == Task.Labels next) &&
  (Task.CreatedAt current == Task.CreatedAt next) &&
  (Task.TaskState next == Task.StateReady) && negb (present (Task.StateReason next)) &&
  (Task.OwnerDeviceID next == EmptyString) && (Task.OwnerAgentSessionID next == EmptyString) &&
  (Task.IntendedDeviceID next == EmptyString) && (Task.LastReleaseReason next == reason) &&
  nextVersion (Task.EntityVersion current) (Task.EntityVersion next) &&
  negb (fails (Task.ValidateTransition
    (if reason == Task.ReleaseRecovery then Task.OperationRecoveryRelease
     else Task.OperationSessionEnded) (Task.TaskState current) (Task.TaskState next))).

(** [counts[key] += delta] over counts that start at the lengths of an index. *)
Definition lengths (index : gmap string (list string)) : gmap string Z :=
  (λ ids, Z.of_nat (length ids)) <$> index.
Definition add_count (delta : Z) (key : string) (counts : gmap string Z) : gmap string Z :=
  <[key := (default 0 (counts !! key) + delta)%Z]> counts.

(** One change: the previous row gives its count back, the next takes one. *)
Definition recount {V} (counted : V → bool) (key : V → string) (previous : option V) (next : V)
    (counts : gmap string Z) : gmap string Z :=
  let counts := match previous with
                | Some row => if counted row then add_count (-1) (key row) counts else counts
                | None => counts
                end in
  if counted next then add_count 1 (key next) counts else counts.

Section Lib.
Context `{NormLib, JCSLib, CryptoLib}.
Context (state : State).

(** ** Origin scopes *)

Definition scopeAdvance (scope : OriginScope) : bool :=
  match originScopes state !! ScopeKey scope with
  | Some current => nextVersion (LastSequence current) (LastSequence scope)
  | None => (LastSequence scope =? 1)%N
  end.

(** An agent scope's session id is bound to one device and not reused. *)
Definition agentScopeOk (pendingAgents : gmap string string) (scope : OriginScope) : bool :=
  let key := ScopeKey scope in
  let bound (devices : gmap string string) :=
    match devices !! KScopeID key with None => true | Some prior => prior == KDeviceID key end in
  (present (originScopes state !! key) || negb (present (agentSessions state !! KScopeID key))) &&
  bound (agentScopeDevices state) && bound pendingAgents.

Fixpoint collectScopes (values : list OriginScope) (pending : gmap OriginScopeKey OriginScope)
    (pendingAgents : gmap string string) : option (gmap OriginScopeKey OriginScope) :=
  match values with
  | [] => Some pending
  | scope :: rest =>
      let key := ScopeKey scope in
      if negb (validateOriginScope key scope) || negb (validMember state (KDeviceID key)) ||
         present (pending !! key) || negb (scopeAdvance scope)
      then None
      else if KKind key == ScopeAgent
      then if agentScopeOk pendingAgents scope
           then collectScopes rest (<[key := scope]> pending)
                  (<[KScopeID key := KDeviceID key]> pendingAgents)
           else None
      else collectScopes rest (<[key := scope]> pending) pendingAgents
  end.

(** An agent scope without a session only counts its rejected start. *)
Definition orphanScopeOk (pendingSessions : gmap string AgentSession.Session)
    (scope : OriginScope) : bool :=
  (KKind (ScopeKey scope) != ScopeAgent) ||
  present (agentSessions state !! KScopeID (ScopeKey scope)) ||
  present (pendingSessions !! KScopeID (ScopeKey scope)) || (LastSequence scope =? 1)%N.

(** ** Agent sessions *)

Definition newSessionOk (pendingScopes : gmap OriginScopeKey OriginScope)
    (value : AgentSession.Session) : bool :=
  let scopeKey := mkOriginScopeKey (AgentSession.DeviceID value) ScopeAgent
                    (AgentSession.ID value) in
  (AgentSession.EntityVersion value =? 1)%N &&
  match pendingScopes !! scopeKey with
  | None => false
  | Some scope => (LastSequence scope =? 1)%N
  end &&
  negb (present (agentScopeDevices state !! AgentSession.ID value)) &&
  negb (fails (AgentSession.ValidateTransition AgentSession.OperationCreate
                 AgentSession.zero_lifecycle (AgentSession.Session_Lifecycle value))).

Definition sessionMutationOk (current value : AgentSession.Session) : bool :=
  validateAgentSessionReferences state current &&
  SessionReducers.sameAgentSessionIdentity current value &&
  nextVersion (AgentSession.EntityVersion current) (AgentSession.EntityVersion value) &&
  negb (fails (AgentSession.ValidateTransition (agentSessionTransitionOperation current value)
                 (AgentSession.Session_Lifecycle current) (AgentSession.Session_Lifecycle value))).

Definition open_count (session : AgentSession.Session) : Z :=
  if openSession session then 1%Z else 0%Z.

Fixpoint collectSessions (pendingScopes : gmap OriginScopeKey OriginScope)
    (values : list AgentSession.Session) (pending : gmap string AgentSession.Session)
    (activeCount : Z) : option (gmap string AgentSession.Session * Z) :=
  match values with
  | [] => Some (pending, activeCount)
  | value :: rest =>
      let id := AgentSession.ID value in
      if fails (AgentSession.Validate value) || present (pending !! id) ||
         negb (validMember state (AgentSession.DeviceID value))
      then None
      else match agentSessions state !! id with
      | None =>
          if newSessionOk pendingScopes value
          then collectSessions pendingScopes rest (<[id := value]> pending)
                 (activeCount + open_count value)
          else None
      | Some current =>
          if sessionMutationOk current value
          then collectSessions pendingScopes rest (<[id := value]> pending)
                 (activeCount - open_count current + open_count value)
          else None
      end
  end.

Definition validateAgentSessionChanges (values : list AgentSession.Session)
    (pendingScopes : gmap OriginScopeKey OriginScope) (policyValues : Policy.Values)
    : option (gmap string AgentSession.Session) :=
  '(pending, activeCount) ← collectSessions pendingScopes values ∅ (activeAgentSessionCount state);
  if (Policy.MaxActiveAgentSessions_ policyValues <? activeCount)%Z then None else Some pending.

(** ** Tasks *)

Fixpoint collectTasks (values : list Task.Task) (pending : gmap string Task.Task)
    : option (gmap string Task.Task) :=
  match values with
  | [] => Some pending
  | value :: rest =>
      if fails (Task.Validate value) || present (pending !! Task.ID value) then None
      else collectTasks rest (<[Task.ID value := value]> pending)
  end.

Definition validateTaskChanges (values : list Task.Task) : option (gmap string Task.Task) :=
  pending ← collectTasks values ∅;
  if forallb (λ value, validateTaskReferences state value (dom pending)) values
  then Some pending else None.

Definition claimCounts (key : Task.Task → string) (index : gmap string (list string))
    (values : list Task.Task) : gmap string Z :=
  foldl (λ counts value, recount claimed key (tasks state !! Task.ID value) value counts)
    (lengths index) values.

Definition claimsWithinPolicy (values : list Task.Task) (policyValues : Policy.Values) : bool :=
  negb (anyCountAbove (claimCounts Task.OwnerAgentSessionID (claimsByAgent state) values)
          (Policy.AgentClaimLimit policyValues)) &&
  negb (anyCountAbove (claimCounts Task.OwnerDeviceID (claimsByDevice state) values)
          (Policy.DeviceClaimLimit policyValues)).

(** ** Leases *)

Definition leaseReleaseOperation (reason : Lease.ReleaseReason) : option Lease.Operation :=
  match reason with
  | Lease.ReleaseVoluntary => Some Lease.OperationReleaseVoluntary
  | Lease.ReleaseForced => Some Lease.OperationReleaseForced
  | Lease.ReleaseExpired => Some Lease.OperationReleaseExpired
  | Lease.ReleaseSessionEnded => Some Lease.OperationSessionEnded
  | Lease.ReleaseRecovery => Some Lease.OperationRecoveryRelease
  | _ => None
  end.

Definition validateLeaseMutation (next : Lease.Lease) (policyValues : Policy.Values) : bool :=
  let requested := negb (fails (Lease.ValidateRequestedTTL (Lease.TTLSeconds next)
    (Policy.LeaseMinTTLSeconds policyValues) (Policy.LeaseMaxTTLSeconds policyValues))) in
  match leases state !! Lease.ID next with
  | None =>
      (Lease.EntityVersion next =? 1)%N &&
      negb (fails (Lease.ValidateTransition Lease.OperationCreate Lease.absent
                     (Lease.Lease_Lifecycle next))) &&
      requested
  | Some current =>
      sameLeaseReservation current next &&
      nextVersion (Lease.EntityVersion current) (Lease.EntityVersion next) &&
      match Lease.LeaseStatus next with
      | Lease.StatusActive =>
          requested &&
          negb (fails (Lease.ValidateTransition Lease.OperationRenew
                         (Lease.Lease_Lifecycle current) (Lease.Lease_Lifecycle next)))
      | Lease.StatusReleased =>
          (Lease.TTLSeconds next =? Lease.TTLSeconds current)%Z &&
          match leaseReleaseOperation (Lease.LeaseReleaseReason next) with
          | None => false
          | Some operation =>
              negb (fails (Lease.ValidateTransition operation
                             (Lease.Lease_Lifecycle current) (Lease.Lease_Lifecycle next)))
          end
      | _ => false
      end
  end.

Fixpoint collectLeases (policyValues : Policy.Values) (values : list Lease.Lease)
    (pending : gmap string Lease.Lease) : option (gmap string Lease.Lease) :=
  match values with
  | [] => Some pending
  | value :: rest =>
      if fails (Lease.Validate value) || present (pending !! Lease.ID value) ||
         negb (validateLeaseReferences state value) ||
         negb (validateLeaseMutation value policyValues)
      then None
      else collectLeases policyValues rest (<[Lease.ID value := value]> pending)
  end.

Definition leaseCounts (key : Lease.Lease → string) (index : gmap string (list string))
    (values : list Lease.Lease) : gmap string Z :=
  foldl (λ counts value, recount leased key (leases state !! Lease.ID value) value counts)
    (lengths index) values.

(** Two leases that [ActiveLeasesIntersect] finds apart. *)
Definition apart (left right : Lease.Lease) : bool :=
  match Lease.ActiveLeasesIntersect left right with inr false => true | _ => false end.

Definition apartFromActive (pending : gmap string Lease.Lease) (candidate : Lease.Lease) : bool :=
  forallb (λ existingID,
    present (pending !! existingID) ||
    match leases state !! existingID with
    | None => false
    | Some existing => leased existing && apart candidate existing
    end) (activeLeaseIDs state).

(** The double loop; [prior] holds the values before, the last one first. *)
Fixpoint leasesApart (pending : gmap string Lease.Lease) (values prior : list Lease.Lease) : bool :=
  match values with
  | [] => true
  | candidate :: rest =>
      (negb (leased candidate) ||
       apartFromActive pending candidate &&
       forallb (λ other, negb (leased other) || apart candidate other) prior) &&
      leasesApart pending rest (candidate :: prior)
  end.

Definition validateLeaseChanges (values : list Lease.Lease) (policyValues : Policy.Values) : bool :=
  match values with
  | [] => true
  | _ =>
      match collectLeases policyValues values ∅ with
      | None => false
      | Some pending =>
          negb (anyCountAbove
                  (leaseCounts Lease.HolderAgentSessionID (activeLeasesByAgent state) values)
                  (Policy.AgentLeaseLimit policyValues)) &&
          negb (anyCountAbove
                  (leaseCounts Lease.HolderDeviceID (activeLeasesByDevice state) values)
                  (Policy.DeviceLeaseLimit policyValues)) &&
          leasesApart pending values []
      end
  end.

Definition leasesByID (values : list Lease.Lease) : gmap string Lease.Lease :=
  foldl (λ pending value, <[Lease.ID value := value]> pending) ∅ values.

(** ** Ownership *)

Section Pending.
Context (pendingSessions : gmap string AgentSession.Session).
Context (pendingTasks : gmap string Task.Task) (pendingLeases : gmap string Lease.Lease).

(** The session as it will be, if it is there and not ended. *)
Definition openAfter (id : string) : bool :=
  match (pendingSessions ∪ agentSessions state) !! id with
  | None => false
  | Some session => openSession session
  end.

Definition validateProspectiveOwnership : bool :=
  forallb (λ '(_, value),
    (Task.OwnerAgentSessionID value == EmptyString) || openAfter (Task.OwnerAgentSessionID value))
    (map_to_list pendingTasks) &&
  forallb (λ '(_, value), negb (leased value) || openAfter (Lease.HolderAgentSessionID value))
    (map_to_list pendingLeases).

Definition cascadeTaskOk (reason : Task.ReleaseReason) (taskID : string) : bool :=
  match tasks state !! taskID, pendingTasks !! taskID with
  | Some current, Some next =>
      (Task.ID current == taskID) && validateSessionEndTaskChange current next reason
  | _, _ => false
  end.

Definition cascadeLeaseOk (reason : Lease.ReleaseReason) (leaseID : string) : bool :=
  match leases state !! leaseID, pendingLeases !! leaseID with
  | Some current, Some next =>
      (Lease.ID current == leaseID) && sameLeaseReservation current next &&
      (Lease.TTLSeconds next =? Lease.TTLSeconds current)%Z &&
      (Lease.LeaseStatus next == Lease.StatusReleased) &&
      (Lease.LeaseReleaseReason next == reason) &&
      nextVersion (Lease.EntityVersion current) (Lease.EntityVersion next)
  | _, _ => false
  end.

Definition sessionEndOk (id : string) (nextSession : AgentSession.Session) : bool :=
  match agentSessions state !! id with
  | None => true
  | Some currentSession =>
      if negb (openSession currentSession) || openSession nextSession then true
      else
        let recovery :=
          AgentSession.SessionEndReason nextSession == AgentSession.EndReasonRecovery in
        forallb (cascadeTaskOk (if recovery then Task.ReleaseRecovery else Task.ReleaseSessionEnd))
          (ids_at (claimsByAgent state) id) &&
        forallb (cascadeLeaseOk (if recovery then Lease.ReleaseRecovery
                                 else Lease.ReleaseSessionEnded))
          (ids_at (activeLeasesByAgent state) id)
  end.

Definition validateSessionEndCascades : bool :=
  forallb (λ '(id, nextSession), sessionEndOk id nextSession) (map_to_list pendingSessions).

End Pending.

(** ** Session policy *)

Definition validatePolicyChanges (changes : list Policy.Policy) : option (option Policy.Policy) :=
  match changes with
  | [] => Some None
  | [next] =>
      if fails (validateDerivedBounds state) ||
         fails (Policy.ValidateTransition Policy.OperationChange (sessionPolicy state) next)
      then None else Some (Some next)
  | _ => None
  end.

End Lib.
End StateChanges.
