(* ===== verification/StateApply.v ===== *)
(** * Package internal/reducer: applying a change set

    [Module StateApply]: [State.Apply] of state.go. [validateChanges] is every
    check it makes before the first write, in the order of the source;
    [written] is the receiver as its writes leave it. A call that fails writes
    nothing, so the error case returns no state. The maps of a State and the
    array behind its slice of lease identifiers are shared by every copy of the
    struct: [shared_after] is what a copy taken before the call reads after it,
    and [ApplyInPlace] the call with both. *)

From stdpp Require Import base gmap strings list sorting.
From Stdlib Require Import ZArith NArith Lia.
From S2P Require Import Prelude.
From S2P Require Import GoLib.
From S2P Require Import CodecLayer.
From S2P Require Import DomainValues.
From S2P Require Import TaskEntity.
From S2P Require Import LeaseEntity.
From S2P Require Import AgentSessionEntity.
From S2P Require Import PlanMemoryEntity.
From S2P Require Import PolicyEntity.
From S2P Require Import CredentialEntity.
From S2P Require Import ReducerState.
From S2P Require Import PolicyUse.
From S2P Require Import Preflight.
From S2P Require Import StateRefs.
From S2P Require Import PlanMemoryState.
From S2P Require Import MembershipState.
From S2P Require Import RepositoryState.
From S2P Require Import StateChanges.

Module StateApply.

Import Reducer StateRefs PlanMemoryState MembershipState RepositoryState StateChanges.

(** What the checks compute for the writes. *)
Record pendingChanges := mkPendingChanges {
  pcMembership : pendingMembershipChanges;
  pcCredentials : gmap CredentialAuthorization.Key CredentialAuthorization.Authorization;
  pcPolicy : option Policy.Policy;
  pcRepository : pendingRepositoryChanges;
  pcControlFiles : gmap string ControlFile.Proposal;
  pcCoordination : pendingPlanMemoryChanges }.

(** The checks before the first row is looked at. *)
Definition indexesOk (state : State) (changes : Changes) : bool :=
  negb (currentResultIndex state =? Domain.MaxSafeInteger)%N &&
  (if AdvancesEventChain changes
   then negb (currentChainIndex state =? Domain.MaxSafeInteger)%N && single (OriginScopes changes)
   else negb (changesHaveDomainMutations changes)).

(** ** The writes *)

Section Writes.
Context (state : State).

Definition writeScopes (values : list OriginScope) : gmap OriginScopeKey OriginScope :=
  foldl (λ scopes scope, <[ScopeKey scope := scope]> scopes) (originScopes state) values.

Definition writeAgentScopes (values : list OriginScope) : gmap string string :=
  foldl (λ bound scope,
    if KKind (ScopeKey scope) == ScopeAgent
    then <[KScopeID (ScopeKey scope) := KDeviceID (ScopeKey scope)]> bound
    else bound) (agentScopeDevices state) values.

(** The session rows and their active count. *)
Definition writeSession (before : gmap string AgentSession.Session * Z)
    (value : AgentSession.Session) : gmap string AgentSession.Session * Z :=
  let '(sessions, count) := before in
  (<[AgentSession.ID value := value]> sessions,
   (match sessions !! AgentSession.ID value with
    | Some previous => count - open_count previous
    | None => count
    end + open_count value)%Z).

Definition writeSessions (values : list AgentSession.Session)
    : gmap string AgentSession.Session * Z :=
  foldl writeSession (agentSessions state, activeAgentSessionCount state) values.

(** The task rows and the two claim indexes. *)
Definition claimIndexes : Type := gmap string (list string) * gmap string (list string).

Definition writeTask (before : gmap string Task.Task * claimIndexes) (value : Task.Task)
    : gmap string Task.Task * claimIndexes :=
  let '(rows, indexes) := before in
  (<[Task.ID value := value]> rows,
   addClaim value (match rows !! Task.ID value with
                   | Some previous => removeClaim previous indexes
                   | None => indexes
                   end)).

Definition writeTasks (values : list Task.Task) : gmap string Task.Task * claimIndexes :=
  foldl writeTask (tasks state, (claimsByAgent state, claimsByDevice state)) values.

(** The lease rows, the two indexes by holder and the global index. *)
Definition leaseIndexes : Type :=
  gmap string (list string) * gmap string (list string) * list string.

Definition lease_update (update : list string → string → list string) (value : Lease.Lease)
    (indexes : leaseIndexes) : leaseIndexes :=
  let '(byAgent, byDevice, ids) := indexes in
  if Lease.LeaseStatus value != Lease.StatusActive then indexes
  else (update_ids (λ ids, update ids (Lease.ID value)) byAgent (Lease.HolderAgentSessionID value),
        update_ids (λ ids, update ids (Lease.ID value)) byDevice (Lease.HolderDeviceID value),
        update ids (Lease.ID value)).

Definition removeActiveLease := lease_update removeSortedUUIDv7.
Definition addActiveLease := lease_update insertSortedUUIDv7.

Definition writeLease (before : gmap string Lease.Lease * leaseIndexes) (value : Lease.Lease)
    : gmap string Lease.Lease * leaseIndexes :=
  let '(rows, indexes) := before in
  (<[Lease.ID value := value]> rows,
   addActiveLease value (match rows !! Lease.ID value with
                         | Some previous => removeActiveLease previous indexes
                         | None => indexes
                         end)).

Definition writeLeases (values : list Lease.Lease) : gmap string Lease.Lease * leaseIndexes :=
  foldl writeLease
    (leases state, (activeLeasesByAgent state, activeLeasesByDevice state, activeLeaseIDs state))
    values.

Definition writeCredentialKeys
    (pending : gmap CredentialAuthorization.Key CredentialAuthorization.Authorization)
    : gmap (list N) CredentialAuthorization.Key :=
  map_fold (λ key value keys, <[CredentialAuthorization.KeyDigest value := key]> keys)
    (credentialKeys state) pending.

Definition writeMemorySuccessors (pending : gmap string Memory.Record_) : gmap string string :=
  map_fold (λ id value successors,
    if Memory.supersedes value == EmptyString then successors
    else <[Memory.supersedes value := id]> successors) (memorySuccessors state) pending.

Definition writeUnresolved (pending : pendingRepositoryChanges) : gmap string N :=
  if prConflictTaskID pending == EmptyString then unresolvedConflictsByTask state
  else if (prUnresolvedConflictCount pending =? 0)%N
  then delete (prConflictTaskID pending) (unresolvedConflictsByTask state)
  else <[prConflictTaskID pending := prUnresolvedConflictCount pending]>
         (unresolvedConflictsByTask state).

Definition written (changes : Changes) (pending : pendingChanges) : State :=
  let sessions := writeSessions (AgentSessions changes) in
  let taskRows := writeTasks (Tasks changes) in
  let leaseRows := writeLeases (Leases changes) in
  let membership := pcMembership pending in
  let coordination := pcCoordination pending in
  let repository := pcRepository pending in
  mkState (sessionID state) (workspaceID state) (recoveryGeneration state)
    (recoveryPublicKey state)
    (if AdvancesEventChain changes then u64_succ (currentChainIndex state)
     else currentChainIndex state)
    (u64_succ (currentResultIndex state))
    (writeScopes (OriginScopes changes))
    (writeAgentScopes (OriginScopes changes))
    (pmAuditCounters membership ∪ auditCounters state)
    (pmDevices membership ∪ devices state)
    (default (voterSet state) (pmVoterSet membership))
    (default (credentialAuthority state) (pmCredentialAuthority membership))
    (pcCredentials pending ∪ credentialAuthorizations state)
    (writeCredentialKeys (pcCredentials pending))
    sessions.1
    taskRows.1
    (pendingRevisions coordination ∪ planRevisions state)
    (default (planCurrent state) (pendingCurrent coordination))
    (pendingRecords coordination ∪ memoryRecords state)
    (writeMemorySuccessors (pendingRecords coordination))
    leaseRows.1
    (default (sessionPolicy state) (pcPolicy pending))
    (default (canonicalRef state) (prCanonicalRef repository))
    (prPublications repository ∪ publications state)
    (pcControlFiles pending ∪ controlFileProposals state)
    (prMergeConflicts repository ∪ mergeConflicts state)
    taskRows.2.1 taskRows.2.2 leaseRows.2.1.1 leaseRows.2.1.2 leaseRows.2.2 sessions.2
    (writeUnresolved repository).

(** ** What a copy of the struct sees of the writes

    Go copies a struct field by field, and a map field by reference: a copy keeps
    its own scalars, rows of the single-row tables, slice header and counter, and
    shares every map. The slice [activeLeaseIDs] is rewritten in the array it
    shares until an [append] finds the array full and moves to a new one. *)

(** A rewritten slice: the array that was shared, the slice's values, and whether
    they still lie in that array. *)
Definition cells : Type := list string * list string * bool.

Definition write_cells (update : list string → string → list string) (id : string)
    (before : cells) : cells :=
  let '(array, values, shared) := before in
  let values' := update values id in
  if shared && (length values' <=? length array)%nat
  then (values' ++ drop (length values') array, values', true)
  else (array, values', false).

Definition cells_update (update : list string → string → list string) (value : Lease.Lease)
    (before : cells) : cells :=
  if Lease.LeaseStatus value != Lease.StatusActive then before
  else write_cells update (Lease.ID value) before.

Definition writeLeaseCells (before : gmap string Lease.Lease * cells) (value : Lease.Lease)
    : gmap string Lease.Lease * cells :=
  let '(rows, slice) := before in
  (<[Lease.ID value := value]> rows,
   cells_update insertSortedUUIDv7 value
     (match rows !! Lease.ID value with
      | Some previous => cells_update removeSortedUUIDv7 previous slice
      | None => slice
      end)).

(** The array of [activeLeaseIDs] with [spare] cells past the slice's end. *)
Definition leaseArray (spare : nat) : list string :=
  activeLeaseIDs state ++ repeat EmptyString spare.

Definition writeLeasesInPlace (spare : nat) (values : list Lease.Lease)
    : gmap string Lease.Lease * cells :=
  foldl writeLeaseCells
    (leases state, (leaseArray spare, activeLeaseIDs state, true)) values.

(** The identifiers that the slice header from before the call reads. *)
Definition sharedLeaseIDs (spare : nat) (values : list Lease.Lease) : list string :=
  take (length (activeLeaseIDs state)) (writeLeasesInPlace spare values).2.1.1.

(** A copy of the struct from before the call: its own fields, the written maps. *)
Definition shared_after (spare : nat) (changes : Changes) (receiver : State) : State :=
  mkState (sessionID state) (workspaceID state) (recoveryGeneration state)
    (recoveryPublicKey state) (currentChainIndex state) (currentResultIndex state)
    (originScopes receiver) (agentScopeDevices receiver) (auditCounters receiver)
    (devices receiver) (voterSet state) (credentialAuthority state)
    (credentialAuthorizations receiver) (credentialKeys receiver) (agentSessions receiver)
    (tasks receiver) (planRevisions receiver) (planCurrent state) (memoryRecords receiver)
    (memorySuccessors receiver) (leases receiver) (sessionPolicy state) (canonicalRef state)
    (publications receiver) (controlFileProposals receiver) (mergeConflicts receiver)
    (claimsByAgent receiver) (claimsByDevice receiver) (activeLeasesByAgent receiver)
    (activeLeasesByDevice receiver) (sharedLeaseIDs spare (Leases changes))
    (activeAgentSessionCount state) (unresolvedConflictsByTask receiver).

End Writes.

(** ** The checks *)

Section Lib.
Context `{NormLib, JCSLib, CryptoLib}.
Context (state : State).

Definition validateChanges (changes : Changes) : option pendingChanges :=
  if negb (indexesOk state changes) then None
  else
    pendingScopes ← collectScopes state (OriginScopes changes) ∅ ∅;
    membership ← validateMembershipChanges state changes;
    credentials ← validateCredentialChanges state changes membership;
    policy ← validatePolicyChanges state (SessionPolicy changes);
    repository ← validateRepositoryChanges state changes;
    controlFiles ← validateControlFileChanges state (ControlFileProposals changes);
    let effectivePolicy := Policy.PolicyValues (default (sessionPolicy state) policy) in
    pendingSessions ← validateAgentSessionChanges state (AgentSessions changes) pendingScopes
                        effectivePolicy;
    if negb (forallb (orphanScopeOk state pendingSessions) (OriginScopes changes)) then None
    else
      pendingTasks ← validateTaskChanges state (Tasks changes);
      coordination ← validatePlanMemoryChanges state changes (dom pendingTasks);
      let pendingLeases := leasesByID (Leases changes) in
      if validateLeaseChanges state (Leases changes) effectivePolicy &&
         validateProspectiveOwnership state pendingSessions pendingTasks pendingLeases &&
         validateSessionEndCascades state pendingSessions pendingTasks pendingLeases &&
         claimsWithinPolicy state (Tasks changes) effectivePolicy &&
         (PolicyUse.policyUseViolation state effectivePolicy
            (PolicyUse.mkPending (pmDevices membership) (pmAuditCounters membership)
               pendingSessions pendingTasks pendingLeases) == PolicyUse.policyUseWithinLimits)
      then Some (mkPendingChanges membership credentials policy repository controlFiles
                   coordination)
      else None.

(** The receiver after the call. *)
Definition Apply (changes : Changes) : StateError + State :=
  match validateChanges changes with
  | None => inl ErrInvalidCommittedState
  | Some pending => inr (written state changes pending)
  end.

(** The receiver after the call, and every copy of it from before. *)
Definition ApplyInPlace (spare : nat) (changes : Changes) : StateError + (State * State) :=
  let* receiver := Apply changes in
  inr (receiver, shared_after state spare changes receiver).

End Lib.
End StateApply.
