(* ===== verification/StateLoad.v ===== *)
(** * Package internal/reducer: loading a committed snapshot

    [Module StateLoad]: [Snapshot] and [NewState] of state.go, with the loaders
    of the membership, credential, plan and memory, and control-file tables and
    the check of the active leases. [loaded] is the state the rows and the
    derived indexes make; the checks of each table follow, in the order of the
    source. Go visits the rows of a map in any order; every check here is on
    all rows, and every failure is the one invalid-state error. *)

From stdpp Require Import base gmap strings list sorting.
From Stdlib Require Import ZArith NArith Lia.
From S2P Require Import Prelude.
From S2P Require Import GoLib.
From S2P Require Import CodecLayer.
From S2P Require Import DomainValues.
From S2P Require Import TaskEntity.
From S2P Require Import LeaseEntity.
From S2P Require Import AgentSessionEntity.
From S2P Require Import VoterSetEntity.
From S2P Require Import DeviceEntity.
From S2P Require Import PlanMemoryEntity.
From S2P Require Import PolicyEntity.
From S2P Require Import ConflictEntity.
From S2P Require Import PublicationEntity.
From S2P Require Import CredentialEntity.
From S2P Require Import ReducerState.
From S2P Require Import PolicyUse.
From S2P Require Import Preflight.
From S2P Require Import StateRefs.
From S2P Require Import PlanMemoryState.
From S2P Require Import PublicationState.
From S2P Require Import CredentialReducers.
From S2P Require Import MembershipState.
From S2P Require Import RepositoryState.
From S2P Require Import StateChanges.
From S2P Require Import StateApply.

Module StateLoad.

Import Reducer PolicyUse Preflight StateRefs PlanMemoryState PublicationState.
Import MembershipState RepositoryState StateApply.

Record Snapshot := mkSnapshot {
  SSessionID : string;
  SWorkspaceID : string;
  SRecoveryGeneration : N;
  SRecoveryPublicKey : list N;
  SCurrentChainIndex : N;
  SCurrentResultIndex : N;
  SOriginScopes : gmap OriginScopeKey OriginScope;
  SAuditCounters : gmap string AuditCounter.Counter;
  SDevices : gmap string Device.Device;
  SVoterSet : VoterSet.Set_;
  SCredentialAuthority : CredentialAuthority.Authority;
  SCredentialAuthorizations :
    gmap CredentialAuthorization.Key CredentialAuthorization.Authorization;
  SAgentSessions : gmap string AgentSession.Session;
  STasks : gmap string Task.Task;
  SPlanRevisions : gmap string Plan.Revision;
  SPlanCurrent : Plan.Current;
  SMemoryRecords : gmap string Memory.Record_;
  SLeases : gmap string Lease.Lease;
  SSessionPolicy : Policy.Policy;
  SCanonicalRef : Publication.CanonicalRef;
  SPublications : gmap string Publication.Publication;
  SControlFileProposals : gmap string ControlFile.Proposal;
  SMergeConflicts : gmap string Conflict.Conflict }.

(** ** Indexes *)

(** Entries into an index; an entry that clashes with a prior one is refused. *)
Fixpoint index_once `{Countable K} {V} (clash : V → V → bool) (entries : list (K * V))
    (index : gmap K V) : option (gmap K V) :=
  match entries with
  | [] => Some index
  | (k, v) :: rest =>
      match index !! k with
      | Some prior => if clash prior v then None else index_once clash rest (<[k := v]> index)
      | None => index_once clash rest (<[k := v]> index)
      end
  end.

(** No two rows of a table have the same value of [key]. *)
Definition unique_by `{Countable K, Countable L} {V} (key : V → L) (rows : gmap K V)
    : option (gmap L K) :=
  index_once (λ _ _, true) ((λ '(k, v), (key v, k)) <$> map_to_list rows) ∅.

Definition agentScopeEntries (scopes : gmap OriginScopeKey OriginScope) : list (string * string) :=
  omap (λ '(key, _), if KKind key == ScopeAgent then Some (KScopeID key, KDeviceID key) else None)
    (map_to_list scopes).

Definition successorEntries (records : gmap string Memory.Record_) : list (string * string) :=
  omap (λ '(id, record), if Memory.supersedes record == EmptyString then None
                         else Some (Memory.supersedes record, id)) (map_to_list records).

(** The ids of the claimed tasks by a key, sorted. *)
Definition claimIndex (key : Task.Task → string) (rows : gmap string Task.Task)
    : gmap string (list string) :=
  sort_Strings <$>
    map_fold (λ id value index,
      if Task.OwnerDeviceID value == EmptyString then index
      else update_ids (λ ids, ids ++ [id]) index (key value)) ∅ rows.

Definition leaseIndex (rows : gmap string Lease.Lease) : leaseIndexes :=
  map_fold (λ _ value indexes, addActiveLease value indexes) (∅, ∅, []) rows.

Definition activeSessions (rows : gmap string AgentSession.Session) : Z :=
  map_fold (λ _ session n, (n + if AgentSession.SessionState session != AgentSession.StateEnded
                                then 1 else 0)%Z) 0%Z rows.

Definition conflictTask (rows : gmap string Publication.Publication) (value : Conflict.Conflict)
    : string :=
  match rows !! Conflict.PublicationID (Conflict.detectionView value) with
  | None => EmptyString
  | Some candidate => Publication.TaskID (Publication.Meta candidate)
  end.

(** The unresolved conflicts of each task; a full counter is an error. *)
Fixpoint countUnresolved (rows : gmap string Publication.Publication)
    (conflicts : list (string * Conflict.Conflict)) (counts : gmap string N)
    : option (gmap string N) :=
  match conflicts with
  | [] => Some counts
  | (_, value) :: rest =>
      let taskID := conflictTask rows value in
      if (Conflict.CStatus value == Conflict.StatusUnresolved) && (taskID != EmptyString) then
        let count := default 0%N (counts !! taskID) in
        if (count =? Domain.MaxSafeInteger)%N then None
        else countUnresolved rows rest (<[taskID := u64_succ count]> counts)
      else countUnresolved rows rest counts
  end.

Definition loaded (snapshot : Snapshot) (agentScopes : gmap string string)
    (keys : gmap (list N) CredentialAuthorization.Key) (successors : gmap string string)
    (unresolved : gmap string N) : State :=
  let leaseRows := leaseIndex (SLeases snapshot) in
  mkState (SSessionID snapshot) (SWorkspaceID snapshot) (SRecoveryGeneration snapshot)
    (SRecoveryPublicKey snapshot) (SCurrentChainIndex snapshot) (SCurrentResultIndex snapshot)
    (SOriginScopes snapshot) agentScopes (SAuditCounters snapshot) (SDevices snapshot)
    (SVoterSet snapshot) (SCredentialAuthority snapshot) (SCredentialAuthorizations snapshot) keys
    (SAgentSessions snapshot) (STasks snapshot) (SPlanRevisions snapshot) (SPlanCurrent snapshot)
    (SMemoryRecords snapshot) successors (SLeases snapshot) (SSessionPolicy snapshot)
    (SCanonicalRef snapshot) (SPublications snapshot) (SControlFileProposals snapshot)
    (SMergeConflicts snapshot)
    (claimIndex Task.OwnerAgentSessionID (STasks snapshot))
    (claimIndex Task.OwnerDeviceID (STasks snapshot))
    leaseRows.1.1 leaseRows.1.2 leaseRows.2 (activeSessions (SAgentSessions snapshot)) unresolved.

(** ** [validateActiveLeaseSet]

    The owners of task ids, of paths and of prefixes so far, and the paths. *)
Record leaseOwners := mkOwners {
  taskOwners : gmap string string;
  pathOwners : gmap string string;
  prefixOwners : gmap string string;
  ownedPaths : list string }.

Definition no_owners : leaseOwners := mkOwners ∅ ∅ ∅ [].

(** The owner map with [id] as owner of [key], unless another lease owns it. *)
Definition take_ownership (owners : gmap string string) (key id : string)
    : option (gmap string string) :=
  match owners !! key with
  | Some owner => if owner != id then None else Some (<[key := id]> owners)
  | None => Some (<[key := id]> owners)
  end.

Fixpoint ownPatterns (id : string) (patterns : list Lease.PathPattern) (owners : leaseOwners)
    : option leaseOwners :=
  match patterns with
  | [] => Some owners
  | pattern :: rest =>
      let path := Lease.path pattern in
      paths ← take_ownership (pathOwners owners) path id;
      let seen := if present (pathOwners owners !! path) then ownedPaths owners
                  else ownedPaths owners ++ [path] in
      prefixes ← (if Lease.prefix pattern
                  then take_ownership (prefixOwners owners) path id
                  else Some (prefixOwners owners));
      ownPatterns id rest (mkOwners (taskOwners owners) paths prefixes seen)
  end.

Fixpoint ownLeases (rows : gmap string Lease.Lease) (ids : list string) (owners : leaseOwners)
    : option leaseOwners :=
  match ids with
  | [] => Some owners
  | id :: rest =>
      match rows !! id with
      | None => None
      | Some value =>
          if (Lease.ID value != id) || (Lease.LeaseStatus value != Lease.StatusActive) then None
          else match Lease.LeaseScope value with
          | Lease.ScopeTask =>
              tasks ← take_ownership (taskOwners owners) (Lease.TaskID value) id;
              ownLeases rows rest (mkOwners tasks (pathOwners owners) (prefixOwners owners)
                                     (ownedPaths owners))
          | Lease.ScopePath =>
              owners ← ownPatterns id (Lease.PathPatterns value) owners;
              ownLeases rows rest owners
          | Lease.ScopeUnknown _ => None
          end
      end
  end.

(** [ancestor[:strings.LastIndexByte(ancestor, '/')]], when there is a slash. *)
Fixpoint parentPath (path : string) : option string :=
  match path with
  | EmptyString => None
  | String c rest =>
      match parentPath rest with
      | Some parent => Some (String c parent)
      | None => if decide (c = slash) then Some EmptyString else None
      end
  end.

(** The walk over the ancestors; each is shorter than the path. *)
Fixpoint ancestorsFree (prefixes : gmap string string) (owner : string) (fuel : nat)
    (ancestor : string) : bool :=
  match fuel with
  | O => true
  | S fuel =>
      match parentPath ancestor with
      | None => true
      | Some ancestor =>
          match prefixes !! ancestor with
          | Some prefixOwner => (prefixOwner == owner) && ancestorsFree prefixes owner fuel ancestor
          | None => ancestorsFree prefixes owner fuel ancestor
          end
      end
  end.

Definition validateActiveLeaseSet (state : State) : bool :=
  match ownLeases (leases state) (activeLeaseIDs state) no_owners with
  | None => false
  | Some owners =>
      forallb (λ path, ancestorsFree (prefixOwners owners)
                         (default EmptyString (pathOwners owners !! path))
                         (String.length path) path)
        (sort_Strings (ownedPaths owners))
  end.

(** ** The checks of each table *)

Section Lib.
Context `{NormLib, JCSLib, CryptoLib}.

Definition headerOk (snapshot : Snapshot) : bool :=
  Domain.UUIDv7_Valid (SSessionID snapshot) && Domain.UUIDv4_Valid (SWorkspaceID snapshot) &&
  Domain.ValidUnsignedInteger (SRecoveryGeneration snapshot) &&
  Domain.ValidUnsignedInteger (SCurrentResultIndex snapshot) &&
  Domain.ValidUnsignedInteger (SCurrentChainIndex snapshot) &&
  (SCurrentChainIndex snapshot <=? SCurrentResultIndex snapshot)%N &&
  (llen (SRecoveryPublicKey snapshot) =? Crypto.Ed25519PublicKeySize)%N &&
  (Policy.SessionID (SSessionPolicy snapshot) == SSessionID snapshot) &&
  negb (fails (Policy.Validate (SSessionPolicy snapshot))) &&
  negb (fails (Publication.CanonicalRef_Validate (SCanonicalRef snapshot))).

(** Rows under their own id, each of which passes a check. *)
Definition rowsOk `{Countable K} {V} (id : V → K) (ok : V → bool) (rows : gmap K V) : bool :=
  forallb (λ '(key, value), (key == id value) && ok value) (map_to_list rows).

Section State.
Context (state : State).

Definition scopesOk : bool :=
  forallb (λ '(key, scope), validateOriginScope key scope && present (devices state !! KDeviceID key))
    (map_to_list (originScopes state)).

(** [loadMembershipSnapshot]. *)
Definition membershipOk : bool :=
  rowsOk AuditCounter.DeviceID
    (λ counter, negb (fails (AuditCounter.Validate counter)) &&
                present (devices state !! AuditCounter.DeviceID counter)) (auditCounters state) &&
  forallb (λ '(id, _), present (auditCounters state !! id)) (map_to_list (devices state)) &&
  (size (auditCounters state) =? size (devices state))%nat &&
  validateMembershipTopology state (devices state) (auditCounters state) (voterSet state)
    (credentialAuthority state).

(** [loadCredentialSnapshot]: one authorization. *)
Definition endorsementsVerify (value : CredentialAuthorization.Authorization) : bool :=
  match CredentialAuthorization.CanonicalEndorsementPreimage value with
  | inl _ => false
  | inr preimage =>
      forallb (λ endorsement,
        match devices state !! CredentialAuthorization.EDeviceID endorsement with
        | None => false
        | Some endorser =>
            verifyLabeledSignature (Device.IdentityPublicKey endorser)
              Codec.SignatureCredentialTimeEndorsement preimage
              (CredentialAuthorization.ESignature endorsement)
        end) (CredentialAuthorization.ClockEndorsements value)
  end.

Definition authorizationOk (value : CredentialAuthorization.Authorization) : bool :=
  negb (fails (CredentialAuthorization.Validate value)) &&
  match devices state !! CredentialAuthorization.DeviceID value with
  | None => false
  | Some member =>
      negb ((CredentialAuthorization.SessionID value == sessionID state) &&
            (CredentialAuthority.VoterSetVersion (credentialAuthority state) <?
             CredentialAuthorization.AuthorityVoterSetVersion value)%N) &&
      (CredentialAuthorization.AuthorizationChainIndex value <=? currentChainIndex state)%N &&
      CredentialReducers.verifyCredentialBinding value (Device.IdentityPublicKey member) &&
      endorsementsVerify value
  end.

(** The authorizations of one session and device, by epoch. *)
Definition streamRows (stream : string * string)
    : gmap CredentialAuthorization.Key CredentialAuthorization.Authorization :=
  filter (λ '(key, _), key.1 = stream) (credentialAuthorizations state).

Fixpoint historyOk (stream : string * string) (count : nat) (epoch : N)
    (previous : option CredentialAuthorization.Authorization) (previousChainIndex : N) : bool :=
  match count with
  | O => true
  | S count =>
      match credentialAuthorizations state !! (stream, epoch) with
      | None => false
      | Some value =>
          (previousChainIndex <? CredentialAuthorization.AuthorizationChainIndex value)%N &&
          negb (fails (CredentialAuthorization.ValidateTransition previous value)) &&
          historyOk stream count (epoch + 1) (Some value)
            (CredentialAuthorization.AuthorizationChainIndex value)
      end
  end.

Definition streams : list (string * string) :=
  remove_dups ((λ '(key, _), key.1) <$> map_to_list (credentialAuthorizations state)).

Definition credentialsOk : bool :=
  rowsOk CredentialAuthorization.PrimaryKey authorizationOk (credentialAuthorizations state) &&
  present (unique_by CredentialAuthorization.AuthorizationChainIndex
             (credentialAuthorizations state)) &&
  forallb (λ stream, historyOk stream (size (streamRows stream)) 1 None 0) streams &&
  forallb (λ '(deviceID, counter),
    (N.of_nat (size (streamRows (sessionID state, deviceID))) =?
     AuditCounter.CredentialEpoch counter)%N) (map_to_list (auditCounters state)).

(** [loadControlFileSnapshot]. *)
Definition controlFilesOk : bool :=
  rowsOk ControlFile.ProposalEventID
    (λ proposal, validateControlFileProposal state proposal false &&
                 (ControlFile.ChainIndex proposal <=? currentChainIndex state)%N)
    (controlFileProposals state) &&
  present (unique_by ControlFile.ChainIndex (controlFileProposals state)).

Definition sessionOk (session : AgentSession.Session) : bool :=
  let id := AgentSession.ID session in
  let scopeKey := mkOriginScopeKey (AgentSession.DeviceID session) ScopeAgent id in
  let recoveryHistorical :=
    (AgentSession.SessionState session == AgentSession.StateEnded) &&
    (AgentSession.SessionEndReason session == AgentSession.EndReasonRecovery) in
  negb (fails (AgentSession.Validate session)) &&
  present (devices state !! AgentSession.DeviceID session) &&
  match agentScopeDevices state !! id with
  | Some boundDeviceID =>
      negb recoveryHistorical && (boundDeviceID == AgentSession.DeviceID session)
  | None => true
  end &&
  (recoveryHistorical || present (originScopes state !! scopeKey)).

(** An agent scope without a session only counts its rejected start. *)
Definition orphansOk : bool :=
  forallb (λ '(id, deviceID),
    present (agentSessions state !! id) ||
    match originScopes state !! mkOriginScopeKey deviceID ScopeAgent id with
    | Some scope => (LastSequence scope =? 1)%N
    | None => false
    end) (map_to_list (agentScopeDevices state)).

Definition sessionsOk : bool :=
  rowsOk AgentSession.ID sessionOk (agentSessions state) && orphansOk &&
  (activeAgentSessionCount state <=?
   Policy.MaxActiveAgentSessions_ (Policy.PolicyValues (sessionPolicy state)))%Z.

Definition tasksOk : bool :=
  rowsOk Task.ID (λ value, negb (fails (Task.Validate value)) &&
                           validateTaskReferences state value ∅) (tasks state).

(** [loadPlanMemorySnapshot]. *)
Definition recordPredecessorOk (record : Memory.Record_) : bool :=
  (Memory.supersedes record == EmptyString) ||
  match memoryRecords state !! Memory.supersedes record with
  | None => false
  | Some predecessor => negb (fails (Memory.ValidatePredecessor record predecessor))
  end.

Definition planMemoryOk : bool :=
  rowsOk Plan.id_ (λ revision, validatePlanRevisionRow state revision ∅) (planRevisions state) &&
  forallb (λ '(_, revision),
    (Plan.supersedes revision == EmptyString) ||
    present (planRevisions state !! Plan.supersedes revision))
    (map_to_list (planRevisions state)) &&
  validatePlanRevisionCycles (planRevisions state) &&
  validateCurrentPlanRow state (planCurrent state) &&
  rowsOk Memory.id_ (λ record, validateMemoryRow state record ∅) (memoryRecords state) &&
  forallb (λ '(_, record), recordPredecessorOk record) (map_to_list (memoryRecords state)) &&
  validateMemoryCycles (memoryRecords state).

Definition leasesOk : bool :=
  rowsOk Lease.ID (λ value, negb (fails (Lease.Validate value)) &&
                            validateLeaseReferences state value) (leases state) &&
  validateActiveLeaseSet state.

Definition publicationOk (value : Publication.Publication) : bool :=
  negb (fails (Publication.Validate value)) &&
  ((Publication.TaskID (Publication.Meta value) == EmptyString) ||
   present (tasks state !! Publication.TaskID (Publication.Meta value))).

Definition conflictOk (value : Conflict.Conflict) : bool :=
  negb (fails (Conflict.Validate value)) &&
  present (publications state !! Conflict.PublicationID (Conflict.detectionView value)).

Definition repositoryOk : bool :=
  rowsOk publicationID publicationOk (publications state) &&
  present (unique_by (λ value, Publication.ProposalEventID (Publication.Meta value))
             (publications state)) &&
  rowsOk conflictID conflictOk (mergeConflicts state) &&
  forallb (λ '(_, value), validatePublicationReferences state value)
    (map_to_list (publications state)) &&
  validatePublicationSupersessionGraph state &&
  forallb (λ '(_, value), validateConflictReferences state value)
    (map_to_list (mergeConflicts state)) &&
  forallb (λ '(_, value),
    forallb (λ id, present (mergeConflicts state !! id))
      (Publication.ResolvesConflictIDs (Publication.Meta value)))
    (map_to_list (publications state)).

Definition tablesOk : bool :=
  scopesOk && rowsOk Device.ID (λ member, negb (fails (Device.Validate member))) (devices state) &&
  membershipOk && credentialsOk && controlFilesOk && sessionsOk && tasksOk && planMemoryOk &&
  leasesOk && repositoryOk && negb (fails (validateDerivedBounds state)).

End State.

(** ** [NewState] *)

Definition load (snapshot : Snapshot) : option State :=
  if negb (headerOk snapshot) then None
  else
    agentScopes ← index_once (λ prior deviceID, prior != deviceID)
                    (agentScopeEntries (SOriginScopes snapshot)) ∅;
    keys ← unique_by CredentialAuthorization.KeyDigest (SCredentialAuthorizations snapshot);
    successors ← index_once (λ _ _, true) (successorEntries (SMemoryRecords snapshot)) ∅;
    unresolved ← countUnresolved (SPublications snapshot)
                   (map_to_list (SMergeConflicts snapshot)) ∅;
    let state := loaded snapshot agentScopes keys successors unresolved in
    if tablesOk state then Some state else None.

Definition NewState (snapshot : Snapshot) : StateError + State :=
  match load snapshot with
  | None => inl ErrInvalidCommittedState
  | Some state => inr state
  end.

End Lib.
End StateLoad.
