(* ===== verification/StateIndexes.v ===== *)
(** * Derived indexes

    [Module StateIndexes]: what it means for one of the committed state's
    indexes (claims, active leases, the active session count) to describe its
    table exactly, and that the index updates of state.go keep it so when a
    row is written. *)

From stdpp Require Import base gmap strings list sorting.
From Stdlib Require Import ZArith NArith Lia.
From S2P Require Import Prelude.
From S2P Require Import GoLib.
From S2P Require Import ReducerState.
From S2P Require Import PolicyUse.
From S2P Require Import StateRefs.
From S2P Require Import StateChanges.

Module StateIndexes.

Import Reducer PolicyUse StateRefs StateChanges.

(** ** Rows under their own id *)

Definition keyed_by `{Countable K} {V} (id : V → K) (rows : gmap K V) : Prop :=
  map_Forall (λ k v, id v = k) rows.

(** The rows of a change list; the last one of an id counts. *)
Definition by_id `{Countable K} {V} (id : V → K) (values : list V) (rows : gmap K V) : gmap K V :=
  foldl (λ m v, <[id v := v]> m) rows values.

Section Rows.
Context `{Countable K} {V : Type} (id : V → K).

Lemma by_id_union values rows : by_id id values rows = by_id id values ∅ ∪ rows.
Proof.
  unfold by_id. revert rows. induction values as [|v values IH]; intros rows; simpl.
  { by rewrite map_empty_union. }
  rewrite IH, (IH (<[id v:=v]> ∅)), <-(assoc_L (∪)). f_equal.
  by rewrite <-insert_union_l, map_empty_union.
Qed.

Lemma keyed_insert rows v : keyed_by id rows → keyed_by id (<[id v := v]> rows).
Proof. intros Hk. by apply map_Forall_insert_2. Qed.

Lemma keyed_by_id values rows : keyed_by id rows → keyed_by id (by_id id values rows).
Proof.
  unfold by_id. revert rows. induction values as [|v values IH]; intros rows Hk; simpl; [done|].
  by apply IH, keyed_insert.
Qed.

Lemma by_id_Forall (P : V → Prop) values rows :
  Forall P values → map_Forall (λ _, P) rows → map_Forall (λ _, P) (by_id id values rows).
Proof.
  unfold by_id. intros Hv. revert rows. induction Hv as [|v values Hv _ IH]; intros rows Hr; simpl; [done|].
  apply IH. by apply map_Forall_insert_2.
Qed.

(** A key holds a value of the list of that id, or what it held. *)
Lemma by_id_lookup values rows k :
  (∃ v, v ∈ values ∧ id v = k ∧ by_id id values rows !! k = Some v) ∨
  (∀ v, v ∈ values → id v ≠ k) ∧ by_id id values rows !! k = rows !! k.
Proof.
  unfold by_id. revert rows. induction values as [|w values IH]; intros rows; simpl.
  { right. split; [intros v Hv; by apply not_elem_of_nil in Hv|done]. }
  destruct (IH (<[id w := w]> rows)) as [(v & Hin & Hk & Hl)|[Hno Hl]].
  - left. exists v. split; [by right|done].
  - destruct (decide (id w = k)) as [<-|Hne].
    + left. exists w. rewrite Hl, lookup_insert_eq. split; [by left|done].
    + right. rewrite Hl, lookup_insert_ne by done. split; [|done].
      intros v [->|Hv]%elem_of_cons; [done|by apply Hno].
Qed.
End Rows.

(** ** Sorted id lists *)

(** [lists counted rows ids]: [ids] are the ids of the counted rows, in order. *)
Definition lists {V} (counted : V → bool) (rows : gmap string V) (ids : list string) : Prop :=
  StronglySorted str_lt ids ∧
  ∀ i, i ∈ ids ↔ ∃ v, rows !! i = Some v ∧ counted v = true.

Section Lists.
Context {V : Type} (counted : V → bool).

Lemma lists_delete rows ids i :
  lists counted rows ids → lists counted (delete i rows) (removeSortedUUIDv7 ids i).
Proof.
  intros [Hs Hi]. destruct (removeSorted_spec ids i Hs) as [Hs' He]. split; [done|].
  intros j. rewrite He, Hi. split.
  - intros (Hne & v & Hv & Hc). exists v. by rewrite lookup_delete_ne.
  - intros (v & [Hne Hv]%lookup_delete_Some & Hc). split; [congruence|eauto].
Qed.

Lemma lists_delete_uncounted rows ids i :
  (∀ v, rows !! i = Some v → counted v = false) →
  lists counted rows ids → lists counted (delete i rows) ids.
Proof.
  intros Hno [Hs Hi]. split; [done|]. intros j. rewrite Hi. split.
  - intros (v & Hv & Hc). exists v. rewrite lookup_delete_ne; [done|].
    intros ->. apply Hno in Hv. congruence.
  - intros (v & [Hne Hv]%lookup_delete_Some & Hc). eauto.
Qed.

Lemma lists_insert rows ids i v :
  rows !! i = None → counted v = true →
  lists counted rows ids → lists counted (<[i := v]> rows) (insertSortedUUIDv7 ids i).
Proof.
  intros Hnone Hc [Hs Hi]. destruct (insertSorted_spec ids i Hs) as [Hs' He]. split; [done|].
  intros j. rewrite He, Hi. split.
  - intros [->|(w & Hw & Hcw)]; [exists v; by rewrite lookup_insert_eq|].
    exists w. rewrite lookup_insert_ne by congruence. done.
  - intros (w & [[<- <-]|[Hne Hw]]%lookup_insert_Some & Hcw); eauto.
Qed.

Lemma lists_insert_uncounted rows ids i v :
  rows !! i = None → counted v = false →
  lists counted rows ids → lists counted (<[i := v]> rows) ids.
Proof.
  intros Hnone Hc [Hs Hi]. split; [done|]. intros j. rewrite Hi. split.
  - intros (w & Hw & Hcw). exists w. rewrite lookup_insert_ne by congruence. done.
  - intros (w & [[<- <-]|[Hne Hw]]%lookup_insert_Some & Hcw); [congruence|eauto].
Qed.

(** The length of such a list is the count of the rows. *)
Lemma lists_length rows ids :
  lists counted rows ids → Z.of_nat (length ids) = count counted (map_to_list rows).*2.
Proof.
  intros [Hs Hi]. unfold count. f_equal.
  set (kept := filter (λ kv, counted kv.2 = true) (map_to_list rows)).
  assert (Hperm : ids ≡ₚ kept.*1).
  { apply NoDup_Permutation; [by apply sorted_lt_NoDup| |].
    - apply (sublist_NoDup _ (map_to_list rows).*1); [apply NoDup_fst_map_to_list|].
      apply fmap_sublist, sublist_filter.
    - intros i. rewrite Hi, list_elem_of_fmap. split.
      + intros (v & Hv & Hc). exists (i, v). split; [done|].
        apply list_elem_of_filter. split; [done|]. by apply elem_of_map_to_list.
      + intros ([j v] & -> & [Hc Hv]%list_elem_of_filter). exists v. split; [|done].
        by apply elem_of_map_to_list in Hv. }
  rewrite Hperm, length_fmap. subst kept. clear.
  induction (map_to_list rows) as [|[k v] l IH]; [done|]. simpl. rewrite !filter_cons. simpl.
  by destruct (counted v); simpl; rewrite IH.
Qed.
End Lists.

(** ** Indexes by a key *)

(** [indexes counted key rows index]: the list at [k] are the ids of the
    counted rows of key [k]. *)
Definition indexes {V} (counted : V → bool) (key : V → string) (rows : gmap string V)
    (index : gmap string (list string)) : Prop :=
  ∀ k, lists (λ v, counted v && (key v == k)) rows (ids_at index k).

Lemma ids_at_update update index k k' :
  ids_at (update_ids update index k) k' =
  if decide (k = k') then update (ids_at index k') else ids_at index k'.
Proof.
  unfold ids_at, update_ids. destruct (decide (k = k')) as [<-|Hne].
  - by rewrite lookup_insert_eq.
  - by rewrite lookup_insert_ne.
Qed.

(** One write: the previous row leaves the list, the next enters it. *)
Definition relist {V} (counted : V → bool) (id : V → string) (previous : option V) (next : V)
    (ids : list string) : list string :=
  let ids := match previous with
             | Some row => if counted row then removeSortedUUIDv7 ids (id row) else ids
             | None => ids
             end in
  if counted next then insertSortedUUIDv7 ids (id next) else ids.

Definition reindex {V} (counted : V → bool) (key id : V → string) (previous : option V) (next : V)
    (index : gmap string (list string)) : gmap string (list string) :=
  let index := match previous with
               | Some row => if counted row
                             then update_ids (λ ids, removeSortedUUIDv7 ids (id row)) index (key row)
                             else index
               | None => index
               end in
  if counted next then update_ids (λ ids, insertSortedUUIDv7 ids (id next)) index (key next)
  else index.

Lemma lists_write {V} (counted : V → bool) (id : V → string) rows ids v :
  keyed_by id rows → lists counted rows ids →
  lists counted (<[id v := v]> rows) (relist counted id (rows !! id v) v ids).
Proof.
  intros Hk Hi. rewrite <-insert_delete_eq. unfold relist.
  set (ids' := match rows !! id v with Some row => _ | None => _ end).
  assert (Hi' : lists counted (delete (id v) rows) ids').
  { subst ids'. destruct (rows !! id v) as [row|] eqn:Hrow.
    - destruct (counted row) eqn:Hc.
      + rewrite (Hk _ _ Hrow). by apply lists_delete.
      + apply lists_delete_uncounted; [|done]. intros w Hw. by simplify_eq.
    - apply lists_delete_uncounted; [|done]. intros w Hw. by simplify_eq. }
  destruct (counted v) eqn:Hc.
  - apply lists_insert; [apply lookup_delete_eq|done..].
  - apply lists_insert_uncounted; [apply lookup_delete_eq|done..].
Qed.

Section Writes.
Context {V : Type} (counted : V → bool) (key id : V → string).

Lemma ids_at_reindex previous next index k :
  ids_at (reindex counted key id previous next index) k =
  relist (λ v, counted v && (key v == k)) id previous next (ids_at index k).
Proof.
  unfold reindex, relist.
  destruct (counted next); simpl; rewrite ?ids_at_update; destruct previous as [row|]; simpl;
    repeat match goal with
    | |- context [counted row] => destruct (counted row); simpl; rewrite ?ids_at_update
    | |- context [decide (?a = ?b)] => destruct (decide (a = b))
    | |- context [bool_decide (?a = ?b)] => destruct (decide (a = b));
        [rewrite (bool_decide_true (a = b)) by done|rewrite (bool_decide_false (a = b)) by done]
    end; done.
Qed.

Lemma indexes_write rows index v :
  keyed_by id rows → indexes counted key rows index →
  indexes counted key (<[id v := v]> rows) (reindex counted key id (rows !! id v) v index).
Proof. intros Hk Hi k. rewrite ids_at_reindex. apply lists_write; [done|apply Hi]. Qed.

(** A limit on the counts of the rows is a limit on the lengths of the index. *)
Lemma indexes_above rows index limit :
  (0 ≤ limit)%Z → indexes counted key rows index →
  anyCountAbove (counts_by counted key (map_to_list rows).*2) limit = false ↔
  anyCountAbove (lengths index) limit = false.
Proof.
  intros H0 Hi. rewrite anyCountAbove_false by done.
  assert (Hlen : ∀ k, count (λ v, counted v && (key v == k)) (map_to_list rows).*2 =
                      Z.of_nat (length (ids_at index k))).
  { intros k. symmetry. by apply lists_length. }
  setoid_rewrite Hlen. unfold anyCountAbove.
  rewrite <-not_true_iff_false, existsb_exists. split.
  - intros Hall ([k n] & Hin%list_elem_of_In%elem_of_map_to_list & Hlt%Z.ltb_lt).
    unfold lengths in Hin. rewrite lookup_fmap in Hin.
    specialize (Hall k). unfold ids_at in Hall.
    destruct (index !! k) as [ids|]; simplify_eq/=. lia.
  - intros Hn k. unfold ids_at. destruct (index !! k) as [ids|] eqn:Hk; simpl; [|lia].
    destruct (Z.ltb_spec limit (Z.of_nat (length ids))); [|lia]. exfalso. apply Hn.
    exists (k, Z.of_nat (length ids)). split; [|by apply Z.ltb_lt].
    apply list_elem_of_In, elem_of_map_to_list. unfold lengths. by rewrite lookup_fmap, Hk.
Qed.
End Writes.

(** ** Counts *)

Lemma count_insert {V} (counted : V → bool) (rows : gmap string V) i v :
  count counted (map_to_list (<[i := v]> rows)).*2 =
  (count counted (map_to_list rows).*2 -
   match rows !! i with Some w => if counted w then 1 else 0 | None => 0 end +
   (if counted v then 1 else 0))%Z.
Proof.
  assert (Hfresh : ∀ (m : gmap string V) w, m !! i = None →
    count counted (map_to_list (<[i := w]> m)).*2 =
    ((if counted w then 1 else 0) + count counted (map_to_list m).*2)%Z).
  { intros m w Hm. unfold count. rewrite map_to_list_insert by done.
    rewrite fmap_cons, filter_cons. cbn [snd].
    case_decide as Hc; [rewrite Hc | apply not_true_is_false in Hc; rewrite Hc]; cbn [length]; lia. }
  destruct (rows !! i) as [w|] eqn:Hw.
  - pose proof (Hfresh (delete i rows) w (lookup_delete_eq _ _)) as Hold.
    rewrite insert_delete_id in Hold by done.
    rewrite <-insert_delete_eq, Hfresh by apply lookup_delete_eq. lia.
  - rewrite Hfresh by done. lia.
Qed.

End StateIndexes.
