(* ===== verification/Dispatch.v ===== *)
(** * Package internal/reducer: dispatch

    [Module Dispatch]: the handler of each kind and the entry points
    [Reduce], [ReduceCheckpoint] and [ReduceAttestedRejectedCheckpoint]
    (reducer.go). *)

From stdpp Require Import base gmap strings list sorting.
From Stdlib Require Import ZArith NArith Lia.
From S2P Require Import Prelude.
From S2P Require Import GoLib.
From S2P Require Import GoJson.
From S2P Require Import CodecLayer.
From S2P Require Import DomainValues.
From S2P Require Import EventModel.
From S2P Require Import EventWire.
From S2P Require Import ReducerState.
From S2P Require Import Preflight.
From S2P Require Import TaskReducers.
From S2P Require Import LeaseReducers.
From S2P Require Import PlanReducers.
From S2P Require Import PublicationReducers.
From S2P Require Import MembershipReducers.
From S2P Require Import CredentialReducers.
From S2P Require Import SessionReducers.

Open Scope reducer_scope.

Module Dispatch.

Import Reducer Preflight.
Import TaskReducers.TaskReducers LeaseReducers.LeaseReducers SessionReducers.SessionReducers.
Import PlanReducers.PlanReducers PlanReducers.PolicyReducers PlanReducers.AuditReducers.
Import PublicationReducers.PublicationReducers PublicationReducers.ConflictReducers.
Import MembershipReducers.MembershipReducers.
Import CredentialReducers.CredentialReducers CredentialReducers.ControlFileReducers
  CredentialReducers.CheckpointReducers.

Section Lib.
Context `{NormLib, JCSLib, CryptoLib}.

Definition reduceImplemented (context : reductionContext)
    (checkpointContext : option CheckpointApplyContext) : Reduction Outcome :=
  match Event.PKind (proposal context) with
  | Event.KindTaskCreated => reduceTaskCreated context
  | Event.KindTaskUpdated => reduceTaskUpdated context
  | Event.KindTaskStateChanged => reduceTaskStateChanged context
  | Event.KindTaskClaimed => reduceTaskClaimed context
  | Event.KindTaskReleased => reduceTaskReleased context
  | Event.KindTaskReassigned => reduceTaskReassigned context
  | Event.KindTaskCancelled => reduceTaskCancelled context
  | Event.KindActivityRecorded => reduceActivityRecorded context
  | Event.KindLeaseAcquired => reduceLeaseAcquired context
  | Event.KindLeaseRenewed => reduceLeaseRenewed context
  | Event.KindLeaseReleased => reduceLeaseReleased context
  | Event.KindAgentSessionStarted => reduceAgentSessionStarted context
  | Event.KindAgentSessionStateChanged => reduceAgentSessionStateChanged context
  | Event.KindAgentSessionEnded => reduceAgentSessionEnded context
  | Event.KindPlanRevisionProposed => reducePlanRevisionProposed context
  | Event.KindPlanCurrentSelected => reducePlanCurrentSelected context
  | Event.KindMemoryAppended => reduceMemoryAppended context
  | Event.KindMembershipDeviceAdmitted => reduceMembershipDeviceAdmitted context
  | Event.KindMembershipVersionReported => reduceMembershipVersionReported context
  | Event.KindMembershipRoleChanged => reduceMembershipRoleChanged context
  | Event.KindMembershipOwnerRecovered => reduceMembershipOwnerRecovered context
  | Event.KindMembershipDeviceRevoked => reduceMembershipDeviceRevoked context
  | Event.KindMembershipVoterSetChanged => reduceMembershipVoterSetChanged context
  | Event.KindMembershipVoterSetActivated => reduceMembershipVoterSetActivated context
  | Event.KindPolicyChanged => reducePolicyChanged context
  | Event.KindCredentialAuthorized => reduceCredentialAuthorized context
  | Event.KindControlFileChangeProposed => reduceControlFileChangeProposed context
  | Event.KindPublicationProposed => reducePublicationProposed context
  | Event.KindPublicationReviewed => reducePublicationReviewed context
  | Event.KindPublicationApplied => reducePublicationApplied context
  | Event.KindPublicationWithdrawn => reducePublicationWithdrawn context
  | Event.KindWorkspaceConflictDetected => reduceWorkspaceConflictDetected context
  | Event.KindWorkspaceConflictResolved => reduceWorkspaceConflictResolved context
  | Event.KindWorkspaceConflictForceResolved => reduceWorkspaceConflictForceResolved context
  | Event.KindConsensusCheckpoint =>
      match checkpointContext with
      | None => Fail ErrCheckpointApplyContextRequired
      | Some applied => reduceConsensusCheckpoint context applied
      end
  | Event.KindAuditRecorded => reduceAuditRecorded context
  | Event.KindUnknown _ => Fail ErrKindNotImplemented
  end.

(** [proposal.RationaleSummary != "" || len(proposal.Actions) != 0]. *)
Definition recordsActivity (proposal : Event.Proposal) : bool :=
  (Event.RationaleSummary proposal != EmptyString) || negb (Event.no_actions (Event.Actions proposal)).

(** The two fields [reduce] sets on an accepted outcome. *)
Definition advanced (outcome : Outcome) (records : bool) : Outcome :=
  match outcome with
  | mkOutcome status code changes _ task audit recorded alarm checkpoint =>
      match changes with
      | mkChanges _ scopes counters tasks revisions current memory leases devices targets
          authorities sessions refs authorizations publications files conflicts policy =>
          mkOutcome status code
            (mkChanges true scopes counters tasks revisions current memory leases devices targets
               authorities sessions refs authorizations publications files conflicts policy)
            records task audit recorded alarm checkpoint
      end
  end.

Definition reduce (state : State) (signed : Event.SignedEvent)
    (checkpointContext : option CheckpointApplyContext) : StateError + Outcome :=
  match prepareReduction state signed with
  | Fail err => inl err
  | Done outcome => inr outcome
  | Val context =>
      match run (reduceImplemented context checkpointContext) with
      | inl err => inl err
      | inr outcome =>
          if Accepted outcome
          then inr (advanced outcome (recordsActivity (Event.proposal signed)))
          else inr outcome
      end
  end.

Definition Reduce (state : State) (signed : Event.SignedEvent) : StateError + Outcome :=
  reduce state signed None.

Definition isCheckpoint (signed : Event.SignedEvent) : bool :=
  Event.PKind (Event.proposal signed) == Event.KindConsensusCheckpoint.

Definition ReduceCheckpoint (state : State) (signed : Event.SignedEvent)
    (applyContext : CheckpointApplyContext) : StateError + Outcome :=
  if negb (isCheckpoint signed) then inl ErrCheckpointEventRequired
  else reduce state signed (Some applyContext).

Definition ReduceAttestedRejectedCheckpoint (state : State) (signed : Event.SignedEvent)
    : StateError + Outcome :=
  if negb (isCheckpoint signed) then inl ErrCheckpointEventRequired
  else match prepareReduction state signed with
  | Fail err => inl err
  | Done outcome => inr outcome
  | Val context =>
      inr (reject context
             (match decodeCheckpointProof (Preflight.state context)
                      (Event.Payload (proposal context)) with
              | None => CodeInvalidPayload
              | Some _ => CodeStaleCheckpoint
              end))
  end.

End Lib.
End Dispatch.
