(* ===== verification/Fixtures.v ===== *)
(** * Concrete inputs

    One instance of each interface to code outside src/, and a small committed
    state with one member, one agent session and a few tasks. The witnesses of
    the theorems evaluate the definitions on them. *)

From stdpp Require Import base gmap strings list sorting pretty.
From Stdlib Require Import ZArith NArith Lia.
From S2P Require Import Prelude.
From S2P Require Import GoLib.
From S2P Require Import GoJson.
From S2P Require Import CodecLayer.
From S2P Require Import DomainValues.
From S2P Require Import TaskEntity.
From S2P Require Import LeaseEntity.
From S2P Require Import AgentSessionEntity.
From S2P Require Import VoterSetEntity.
From S2P Require Import DeviceEntity.
From S2P Require Import PlanMemoryEntity.
From S2P Require Import PolicyEntity.
From S2P Require Import ConflictEntity.
From S2P Require Import PublicationEntity.
From S2P Require Import CredentialEntity.
From S2P Require Import EventModel.
From S2P Require Import EventWire.
From S2P Require Import ReducerState.
From S2P Require Import Preflight.

Module Fixtures.

(** ** Instances *)

#[local] Instance norm : NormLib := ascii_norm.

(** A digest and a signature check that depend on their inputs. *)
Definition digest (m : list N) : list N := take 32 ((λ b, (b mod 256)%N) <$> (m ++ repeat 0%N 32)).

#[local] Instance crypto : CryptoLib.
Proof.
  refine {| Sum256 := digest; Ed25519_Verify := λ key _ signature, bool_decide (take 32 signature = key) |}.
  - intros m. unfold digest. rewrite length_take, length_fmap, length_app, repeat_length. lia.
  - intros m. unfold digest. apply Forall_take, Forall_fmap, Forall_true.
    intros b. simpl. apply N.mod_lt. lia.
Defined.

(** A printer for texts without escapes. *)
Definition quoted (text : string) : list N := 34%N :: bytes_of text ++ [34%N].

Definition join_items (items : list (list N)) : list N :=
  match items with
  | [] => []
  | x :: r => x ++ concat ((λ i, 44%N :: i) <$> r)
  end.

Fixpoint print (v : json) : list N :=
  match v with
  | JNull => bytes_of "null"
  | JBool b => bytes_of (if b then "true" else "false")
  | JNumber n => bytes_of (pretty n)
  | JString text => quoted text
  | JArray items => 91%N :: join_items (print <$> items) ++ [93%N]
  | JObject members =>
      123%N :: join_items ((λ kv : string * json, quoted kv.1 ++ 58%N :: print kv.2) <$> members)
        ++ [125%N]
  end.

#[local] Instance jcs : JCSLib := {| jcs_Append := print |}.

(** JSON text, with apostrophes for the double quotes. *)
Definition text (s : string) : list N := (λ b, if (b =? 39)%N then 34%N else b) <$> bytes_of s.

(** ** Identities *)

Definition session_id : string := "0190a0a0-0000-7000-8000-000000000001".
Definition agent_id : string := "0190a0a0-0000-7000-8000-000000000002".
Definition task_id : string := "0190a0a0-0000-7000-8000-000000000003".
Definition other_task : string := "0190a0a0-0000-7000-8000-000000000004".
Definition lease_id : string := "0190a0a0-0000-7000-8000-000000000005".
Definition other_lease : string := "0190a0a0-0000-7000-8000-000000000006".
Definition event_id : string := "0190a0a0-0000-7000-8000-000000000007".
Definition boot_id : string := "0190a0a0-0000-7000-8000-000000000008".
Definition root_id : string := "0190a0a0-0000-7000-8000-000000000009".
Definition workspace_id : string := "0190a0a0-0000-4000-8000-00000000000a".
Definition now : string := "2026-01-02T03:04:05Z".

Definition key : list N := repeat 17%N 32.
Definition device_id : string := "cc1" +:+ hex_encode (digest key).

(** ** Rows *)

Definition member : Device.Device :=
  Device.mkDevice device_id Device.RoleOwner key "1.2.3" 1 Device.StatusActive 1.

Definition agent : AgentSession.Session :=
  AgentSession.mkSession agent_id device_id (AgentSession.ClientKindClaude) None
    AgentSession.StateWorking AgentSession.StateAbsent root_id AgentSession.EndReasonAbsent 2.

Definition free_task (id : string) (blockedBy : list string) (state : Task.State) : Task.Task :=
  Task.mkTask id "title" EmptyString state None 1 blockedBy [] EmptyString EmptyString EmptyString
    Task.ReleaseReasonAbsent 3 now now.

Definition owned_task (id : string) (state : Task.State) : Task.Task :=
  Task.mkTask id "title" EmptyString state None 1 [] [] device_id agent_id EmptyString
    Task.ReleaseReasonAbsent 3 now now.

Definition path_lease (id path : string) (prefix : bool) (status : Lease.Status)
    (reason : Lease.ReleaseReason) : Lease.Lease :=
  Lease.mkLease id device_id agent_id Lease.ScopePath EmptyString 900 status reason 1
    [Lease.mkPathPattern path prefix].

Definition policy : Policy.Policy := Policy.mkPolicy session_id Policy.DefaultValues 1.

(** ** A committed state *)

Definition agent_scope : Reducer.OriginScopeKey :=
  Reducer.mkOriginScopeKey device_id Reducer.ScopeAgent agent_id.
Definition boot_scope : Reducer.OriginScopeKey :=
  Reducer.mkOriginScopeKey device_id Reducer.ScopeBoot boot_id.

Definition state_with (taskRows : list Task.Task) (leaseRows : list Lease.Lease)
    (claims leaseIDs : list string) : Reducer.State :=
  Reducer.mkState session_id workspace_id 0 (repeat 9%N 32) 4 5
    {[agent_scope := Reducer.mkOriginScope agent_scope 7;
      boot_scope := Reducer.mkOriginScope boot_scope 3]}
    {[agent_id := device_id]} ∅ {[device_id := member]}
    (VoterSet.mkSet session_id 1 [device_id])
    (CredentialAuthority.mkAuthority session_id [device_id] 1 CredentialAuthority.ActivationGenesis
       EmptyString [] EmptyString None)
    ∅ ∅ {[agent_id := agent]}
    (list_to_map ((λ t, (Task.ID t, t)) <$> taskRows)) ∅
    (Plan.mkCurrent session_id EmptyString 1) ∅ ∅
    (list_to_map ((λ l, (Lease.ID l, l)) <$> leaseRows)) policy
    (Publication.mkCanonicalRef "refs/codecomm/canonical" EmptyString 1)
    ∅ ∅ ∅ {[agent_id := claims]} {[device_id := claims]}
    {[agent_id := leaseIDs]} {[device_id := leaseIDs]} leaseIDs 1 ∅.

(** The same state with other rows of the repository part. *)
Definition with_repository (ref : Publication.CanonicalRef)
    (rows : list Publication.Publication) (conflicts : list Conflict.Conflict)
    (state : Reducer.State) : Reducer.State :=
  match state with
  | Reducer.mkState a b c d e f g h i j k l m n o p q r s t u v _ _ w _ x1 x2 x3 x4 x5 x6 x7 =>
      Reducer.mkState a b c d e f g h i j k l m n o p q r s t u v ref
        (list_to_map ((λ p, (Publication.PublicationID (Publication.Meta p), p)) <$> rows)) w
        (list_to_map ((λ c, (Conflict.ID (Conflict.detectionView c), c)) <$> conflicts))
        x1 x2 x3 x4 x5 x6 x7
  end.

(** The same state with other members and another credential authority. *)
Definition with_members (rows : list Device.Device) (target : VoterSet.Set_)
    (authority : CredentialAuthority.Authority) (counters : list AuditCounter.Counter)
    (state : Reducer.State) : Reducer.State :=
  match state with
  | Reducer.mkState a b c d e f g h _ _ _ _ k l m n o p q r s t u v w x x1 x2 x3 x4 x5 x6 x7 =>
      Reducer.mkState a b c d e f g h
        (list_to_map ((λ c, (AuditCounter.DeviceID c, c)) <$> counters))
        (list_to_map ((λ m, (Device.ID m, m)) <$> rows)) target authority
        k l m n o p q r s t u v w x x1 x2 x3 x4 x5 x6 x7
  end.

(** A second member. *)
Definition other_key : list N := repeat 18%N 32.
Definition other_device : string := "cc1" +:+ hex_encode (digest other_key).
Definition other_member (role : Device.Role) : Device.Device :=
  Device.mkDevice other_device role other_key "1.2.3" 1 Device.StatusActive 1.

Definition sole_target : VoterSet.Set_ := VoterSet.mkSet session_id 1 [device_id].
Definition sole_authority : CredentialAuthority.Authority :=
  CredentialAuthority.mkAuthority session_id [device_id] 1 CredentialAuthority.ActivationGenesis
    EmptyString [] EmptyString None.

(** ** Proposals and contexts *)

Definition agent_origin (sequence : N) : Event.Origin :=
  Event.mkOrigin device_id Event.ActorAgent EmptyString false agent_id EmptyString sequence.
Definition human_origin (sequence : N) : Event.Origin :=
  Event.mkOrigin device_id Event.ActorHuman EmptyString false EmptyString boot_id sequence.
Definition daemon_origin (sequence : N) : Event.Origin :=
  Event.mkOrigin device_id Event.ActorDaemon EmptyString false EmptyString boot_id sequence.

Definition proposal (origin : Event.Origin) (kind : Event.Kind) (entity : string)
    (expected : option N) (payload : string) : Event.Proposal :=
  Event.mkProposal 1 1 event_id session_id workspace_id origin now kind
    (Event.StringEntityID entity) expected EmptyString
    (Event.captureLevelForActor (Event.actorType origin)) (Some []) (text payload)
    (Event.mkRedaction "default" (Some [])).

Definition context (state : Reducer.State) (p : Event.Proposal) : Preflight.reductionContext :=
  let origin := Event.POrigin p in
  let key := if bool_decide (Event.actorType origin = Event.ActorAgent) then agent_scope
             else boot_scope in
  Preflight.mkContext state p member (Preflight.originSession state origin)
    (Reducer.mkOriginScope key (Event.sequence origin)).

(** What a handler returned, when it did not fail. *)
Definition outcome_of (m : Reducer.Reduction Reducer.Outcome) : Reducer.Outcome :=
  match Reducer.run m with
  | inr o => o
  | inl _ => Preflight.rejectWithoutSequence Reducer.CodeAccepted
  end.

Lemma outcome_of_run m :
  match Reducer.run m with inr _ => true | inl _ => false end = true →
  Reducer.run m = inr (outcome_of m).
Proof. unfold outcome_of. by destruct (Reducer.run m). Qed.

(** The value of a reduction that reached its end. *)
Definition value_of {A} (d : A) (m : Reducer.Reduction A) : A :=
  match m with Reducer.Val a => a | _ => d end.

Lemma value_of_Val {A} (d : A) m :
  match m with Reducer.Val _ => true | _ => false end = true → m = Reducer.Val (value_of d m).
Proof. by destruct m. Qed.

(** ** A signed event

    The canonical bytes of a proposal without actions, with a signature the
    instance accepts. *)
Definition signature : list N := key ++ repeat 0%N 32.

Definition nullable (text : string) : json :=
  if bool_decide (text = EmptyString) then JNull else JString text.

Definition wire (p : Event.Proposal) (actor level : string) (payload : json) : list N :=
  let origin := Event.POrigin p in
  print (JObject (
    [("actions", JArray []); ("capture_level", JString level);
     ("created_at", JString (Event.CreatedAt p));
     ("entity_id", JString (Event.value (Event.PEntityID p)));
     ("event_id", JString (Event.EventID p))] ++
    match Event.ExpectedEntityVersion p with
    | Some v => [("expected_entity_version", JNumber (Z.of_N v))]
    | None => []
    end ++
    [("kind", JString (Event.Kind_text (Event.PKind p)));
     ("min_apply_level", JNumber 1);
     ("origin", JObject
        [("actor_type", JString actor); ("agent_profile_id", JNull);
         ("agent_session_id", nullable (Event.agentSessionID origin));
         ("device_id", JString (Event.deviceID origin));
         ("origin_boot_id", nullable (Event.originBootID origin));
         ("origin_sequence", JNumber (Z.of_N (Event.sequence origin)))]);
     ("origin_signature", JString (Codec.EncodeBase64URL signature));
     ("payload", payload); ("rationale_summary", JString EmptyString);
     ("redaction", JObject [("fields_removed", JArray []); ("policy", JString "default")]);
     ("schema_version", JNumber 1); ("session_id", JString (Event.SessionID p));
     ("workspace_id", JString (Event.WorkspaceID p))])).

Definition signed (p : Event.Proposal) (actor level : string) (payload : json) : Event.SignedEvent :=
  Event.mkSignedEvent p signature [] (wire p actor level payload).

Lemma member_valid : Device.Validate member = None.
Proof. by vm_compute. Qed.
Lemma agent_valid : AgentSession.Validate agent = None.
Proof. by vm_compute. Qed.
Lemma policy_valid : Policy.Validate policy = None.
Proof. by vm_compute. Qed.

End Fixtures.
