(* ===== verification/TaskProofs.v ===== *)
(** * Admission of a signed event

    What a context handed to a handler guarantees, that an event is admitted
    at most once, and that everything refused on the way is a rejection. *)

From stdpp Require Import base gmap strings list sorting.
From Stdlib Require Import ZArith NArith Lia.
From S2P Require Import Prelude.
From S2P Require Import GoLib.
From S2P Require Import GoJson.
From S2P Require Import CodecLayer.
From S2P Require Import DomainValues.
From S2P Require Import TaskEntity.
From S2P Require Import AgentSessionEntity.
From S2P Require Import DeviceEntity.
From S2P Require Import PolicyEntity.
From S2P Require Import EventModel.
From S2P Require Import EventWire.
From S2P Require Import ReducerState.
From S2P Require Import Preflight.
From S2P Require Import ReducerLogic.
From S2P Require Import TaskReducers.
From S2P Require Import Fixtures.

Open Scope reducer_scope.

Module AdmissionProofs.

Import Reducer Preflight Logic.

Section Admission.
Context `{NormLib, JCSLib, CryptoLib}.

(** The scope an origin consumes from. *)
Definition scope_key (origin : Event.Origin) : OriginScopeKey :=
  if bool_decide (Event.actorType origin = Event.ActorAgent)
  then mkOriginScopeKey (Event.deviceID origin) ScopeAgent (Event.agentSessionID origin)
  else mkOriginScopeKey (Event.deviceID origin) ScopeBoot (Event.originBootID origin).

(** The sequence the scope expects next. *)
Definition next_sequence (st : State) (key : OriginScopeKey) : N :=
  match originScopes st !! key with None => 1 | Some s => LastSequence s + 1 end.

Lemma validateOriginBinding_Val st p key :
  validateOriginBinding st p = Val key → key = scope_key (Event.POrigin p).
Proof.
  unfold validateOriginBinding, scope_key. intros Hv.
  case_bool_decide as Ha; [|simpl in Hv; by val_inv Hv].
  simpl in Hv. case_bool_decide; [by val_inv Hv|].
  val_inv Hv. congruence.
Qed.

(** An agent acts through a connected session row bound to its device and
    profile, except to start that session. *)
Lemma validateOriginBinding_agent st p key :
  validateOriginBinding st p = Val key →
  Event.actorType (Event.POrigin p) = Event.ActorAgent →
  Event.PKind p ≠ Event.KindAgentSessionStarted →
  ∃ session, agentSessions st !! Event.agentSessionID (Event.POrigin p) = Some session ∧
    AgentSession.ID session = Event.agentSessionID (Event.POrigin p) ∧
    AgentSession.DeviceID session = Event.deviceID (Event.POrigin p) ∧
    AgentSession.Validate session = None ∧ sessionConnected session = true.
Proof.
  unfold validateOriginBinding. intros Hv Ha Hk.
  rewrite bool_decide_true in Hv by done. rewrite bool_decide_false in Hv by done. simpl in Hv.
  val_inv Hv. apply orb_false_iff in Hc1 as [Hc1 _]. apply orb_false_iff in Hc1 as [Hc1 _].
  apply negb_decide_false in Hc, Hc1. apply fails_None in Hc0. apply negb_false_iff in Hc2. eauto 10.
Qed.

Lemma consumeSequence_Val st p member key context :
  consumeSequence st p member key = Val context →
  context = mkContext st p member (originSession st (Event.POrigin p))
              (mkOriginScope key (Event.sequence (Event.POrigin p))) ∧
  Event.sequence (Event.POrigin p) = next_sequence st key ∧
  (∀ s, originScopes st !! key = Some s → (LastSequence s < Domain.MaxSafeInteger)%N).
Proof.
  unfold consumeSequence, next_sequence. intros Hv.
  destruct (originScopes st !! key) as [s|]; val_inv Hv; bools.
  - apply negb_false_iff in Hc.
    assert (Hmax : (LastSequence s < Domain.MaxSafeInteger)%N).
    { unfold validateOriginScope, Domain.ValidUnsignedInteger in Hc. bools.
      destruct Hc as [_ Hc]. lia. }
    rewrite u64_succ_small in Hc2, Hc3
      by (unfold Domain.MaxSafeInteger, u64_modulus in *; lia).
    split; [done|]. split; [lia|]. intros s' [= <-]. done.
  - split; [done|]. split; [lia|done].
Qed.

(** The sequence of a verified proposal of an active member is consumed in the
    context. *)
Record consumes (st : State) (context : reductionContext) : Prop := {
  con_member : devices st !! Device.ID (device context) = Some (device context);
  con_valid : Device.Validate (device context) = None;
  con_origin : Event.deviceID (Event.POrigin (proposal context)) = Device.ID (device context);
  con_envelope : Event.ValidateEnvelope (proposal context) = None;
  con_binding : validateOriginBinding st (proposal context) =
    Val (scope_key (Event.POrigin (proposal context)));
  con_sequence : consumeSequence st (proposal context) (device context)
    (scope_key (Event.POrigin (proposal context))) = Val context }.

(** The identity key of a valid member derives its id. *)
Lemma member_derives member id :
  Device.Validate member = None →
  Codec.DeriveDeviceID (Device.IdentityPublicKey member) = inr id → id = Device.ID member.
Proof.
  intros Hv Hd. apply Device.device_valid_inv in Hv as (_ & Hid & _).
  unfold Device.DeriveID, Codec.DeriveDeviceID in *. repeat case_match; simplify_eq. done.
Qed.

Lemma consumes_intro st input member verified context :
  devices st !! Device.ID member = Some member → Device.Validate member = None →
  EventWire.ParseAndVerify input (Event.mkVerificationContext (sessionID st) (workspaceID st)
    (Device.IdentityPublicKey member)) = inr verified →
  validateOriginBinding st (Event.proposal verified) =
    Val (scope_key (Event.POrigin (Event.proposal verified))) →
  consumeSequence st (Event.proposal verified) member
    (scope_key (Event.POrigin (Event.proposal verified))) = Val context →
  consumes st context.
Proof.
  intros Hm Hv Hp Hb Hc. apply EventWire.ParseAndVerify_inv in Hp as (_ & _ & _ & Henv & _ & _ & _ & Hd).
  apply (member_derives _ _ Hv) in Hd. pose proof Hc as (-> & _)%consumeSequence_Val. by split.
Qed.

(** What [beginReduction] established when it hands over a context. *)
Lemma beginReduction_Val st signed context :
  beginReduction st signed = Val context →
  ∃ member verified spec,
    devices st !! Device.ID member = Some member ∧ Device.Validate member = None ∧
    Device.DeviceStatus member = Device.StatusActive ∧
    Device.ID member = Event.deviceID (Event.POrigin (Event.proposal signed)) ∧
    EventWire.ParseAndVerify (Event.canonical signed)
      (Event.mkVerificationContext (sessionID st) (workspaceID st)
         (Device.IdentityPublicKey member)) = inr verified ∧
    validateOriginBinding st (Event.proposal verified) =
      Val (scope_key (Event.POrigin (Event.proposal verified))) ∧
    context = mkContext st (Event.proposal verified) member
      (originSession st (Event.POrigin (Event.proposal verified))) (scope context) ∧
    scope context = mkOriginScope (scope_key (Event.POrigin (Event.proposal verified)))
      (Event.sequence (Event.POrigin (Event.proposal verified))) ∧
    Event.sequence (Event.POrigin (Event.proposal verified)) =
      next_sequence st (scope_key (Event.POrigin (Event.proposal verified))) ∧
    consumes st context ∧
    Event.ValidateKindContract (Event.proposal verified) = None ∧
    Event.LookupKind (Event.PKind (Event.proposal verified)) = Some spec ∧
    roleSatisfies (Device.DeviceRole member) (Event.minimumRole spec) = true.
Proof.
  unfold beginReduction. intros Hb. val_inv Hb.
  destruct (Event.ValidateKindContract (Event.proposal s)) eqn:Hcontract; [done|].
  val_inv Hb. subst v0.
  pose proof (validateOriginBinding_Val _ _ _ Hv) as ->.
  apply negb_decide_false in Hc2, Hc4. apply fails_None in Hc3. apply negb_false_iff in Hc6.
  rewrite <-Hc2 in *.
  assert (Hcon : consumes st context) by (by eapply consumes_intro).
  apply consumeSequence_Val in Hv0 as (-> & Hseq & _).
  exists d, s, s0. split_and!; done.
Qed.

Lemma prepareReduction_begin st signed context :
  prepareReduction st signed = Val context →
  PreflightCompatibility st (Event.proposal signed) = None ∧ beginReduction st signed = Val context.
Proof. unfold prepareReduction. intros Hp. val_inv Hp. repeat case_match; try done. Qed.

(** C25: A proposal reaches a handler only when it is authentic and authorized:
    it is the proposal its canonical bytes spell, its signature verifies under
    the identity key of the member row of its origin device, that
    member is valid and active, session and workspace are the state's own, the
    kind's contract holds and the member's role satisfies the kind. *)
Theorem admission_authentic st signed context :
  prepareReduction st signed = Val context →
  let member := device context in
  let p := proposal context in
  state context = st ∧
  (∃ verified, Event.canonical verified = Event.canonical signed ∧ Event.proposal verified = p ∧
     EventWire.decodeProposal (Event.canonical signed) = inr p ∧
     Crypto.VerifyEd25519 (Device.IdentityPublicKey member) Codec.SignatureEventOrigin
       (Event.signedBytes verified) (Event.signature verified) = None ∧
     EventWire.openProposal (Event.canonical signed) =
       inr (Event.signedBytes verified, Event.signature verified)) ∧
  devices st !! Device.ID member = Some member ∧ Device.Validate member = None ∧
  Device.DeviceStatus member = Device.StatusActive ∧
  Event.deviceID (Event.POrigin p) = Device.ID member ∧
  Event.SessionID p = sessionID st ∧ Event.WorkspaceID p = workspaceID st ∧
  Event.ValidateEnvelope p = None ∧ Event.ValidateKindContract p = None ∧
  ∃ spec, Event.LookupKind (Event.PKind p) = Some spec ∧
    roleSatisfies (Device.DeviceRole member) (Event.minimumRole spec) = true.
Proof.
  intros [_ Hb]%prepareReduction_begin.
  apply beginReduction_Val in Hb
    as (m & v & spec & Hm & Hmv & Hms & _ & Hp & _ & Hctx & _ & _ & Hcon & Hk & Hspec & Hrole).
  apply EventWire.ParseAndVerify_inv in Hp as (Hcan & Hopen & Hdec & Henv & Hsess & Hws & Hsig & _).
  pose proof (con_origin _ _ Hcon) as Horigin.
  rewrite Hctx in Horigin |- *. simpl in *. split_and!; try done; eauto 10.
Qed.

(** Origin sequences are consumed one by one: an admitted proposal's
    sequence is the successor of the last one its scope consumed (one for a
    new scope), the context carries exactly that scope and sequence, an agent's
    scope is its connected session bound to the same device, and an agent scope
    is opened only by the start of its session. *)
Theorem admission_sequence st signed context :
  prepareReduction st signed = Val context →
  let origin := Event.POrigin (proposal context) in
  ScopeKey (scope context) = scope_key origin ∧
  LastSequence (scope context) = Event.sequence origin ∧
  Event.sequence origin = next_sequence st (scope_key origin) ∧
  (Event.actorType origin = Event.ActorAgent →
   Event.PKind (proposal context) ≠ Event.KindAgentSessionStarted →
   ∃ session, agentSessions st !! Event.agentSessionID origin = Some session ∧
     agentSession context = Some session ∧ sessionConnected session = true ∧
     AgentSession.DeviceID session = Event.deviceID origin).
Proof.
  intros [_ Hb]%prepareReduction_begin.
  apply beginReduction_Val in Hb
    as (m & v & spec & _ & _ & _ & _ & _ & Hbind & Hctx & Hscope & Hseq & _).
  rewrite Hctx. simpl. rewrite Hscope. simpl. split_and!; try done. intros Ha Hk.
  destruct (validateOriginBinding_agent _ _ _ Hbind Ha Hk) as (session & Hs & _ & Hd & _ & Hcon).
  exists session. split_and!; try done. unfold originSession. by rewrite bool_decide_true.
Qed.

(** Once the scope an event consumed is recorded at its sequence or a later one,
    the same signed event is never handed to a handler again. *)
Lemma sequence_not_admitted st signed context st' last :
  prepareReduction st signed = Val context →
  originScopes st' !! ScopeKey (scope context) = Some last →
  (LastSequence (scope context) ≤ LastSequence last)%N →
  ∀ context', prepareReduction st' signed ≠ Val context'.
Proof.
  intros [_ Hb]%prepareReduction_begin Hlast Hle context' [_ Hb']%prepareReduction_begin.
  apply beginReduction_Val in Hb as (m & v & sp & _ & _ & _ & _ & Hp & _ & Hctx & Hsc & Hseq & _).
  apply beginReduction_Val in Hb' as (m' & v' & sp' & _ & _ & _ & _ & Hp' & _ & Hctx' & Hsc' & Hseq' & _).
  apply EventWire.ParseAndVerify_inv in Hp as (_ & _ & Hdec & _).
  apply EventWire.ParseAndVerify_inv in Hp' as (_ & _ & Hdec' & _).
  rewrite Hdec' in Hdec. injection Hdec as Hdec. rewrite Hdec in Hseq'.
  unfold next_sequence in Hseq'. rewrite Hsc in Hlast, Hle. simpl in *. rewrite Hlast in Hseq'. lia.
Qed.

(** ** Refusals *)

(** A refusal before the sequence is consumed changes nothing; a later one
    consumes exactly the next sequence of the origin's scope. *)
Definition refusal (st : State) (o : Outcome) : Prop :=
  ∃ code, o = rejectWithoutSequence code ∨ ∃ context, o = reject context code ∧ consumes st context.

Lemma consumes_scope st context :
  consumes st context →
  state context = st ∧ scope context = mkOriginScope (scope_key (Event.POrigin (proposal context)))
                                         (Event.sequence (Event.POrigin (proposal context))) ∧
  LastSequence (scope context) = next_sequence st (ScopeKey (scope context)).
Proof.
  intros [_ _ _ _ _ Hs]. apply consumeSequence_Val in Hs as (Hc & Hseq & _).
  rewrite Hc. simpl. by rewrite Hc in Hseq.
Qed.

Lemma validateOriginBinding_Done st p o :
  validateOriginBinding st p = Done o → ∃ code, o = rejectWithoutSequence code.
Proof.
  unfold validateOriginBinding, invalidState. intros Hd. repeat case_match; simplify_eq; eauto.
Qed.

Lemma consumeSequence_Done st p member key o :
  consumeSequence st p member key = Done o → ∃ code, o = rejectWithoutSequence code.
Proof. unfold consumeSequence, invalidState. intros Hd. repeat case_match; simplify_eq; eauto. Qed.

Definition refuses {A} (st : State) (m : Reduction A) : Prop := ∀ o, m = Done o → refusal st o.

Lemma refuses_Done {A} st code : refuses st (Done (rejectWithoutSequence code) : Reduction A).
Proof. intros o [= <-]. exists code. by left. Qed.
Lemma refuses_quiet {A} st (m : Reduction A) : (∀ o, m ≠ Done o) → refuses st m.
Proof. intros Hm o Ho. by destruct (Hm o). Qed.
Lemma refuses_if {A} st (c : bool) (m n : Reduction A) :
  refuses st m → refuses st n → refuses st (if c then m else n).
Proof. by destruct c. Qed.
Lemma refuses_bind {A B} st (m : Reduction A) (k : A → Reduction B) :
  refuses st m → (∀ a, m = Val a → refuses st (k a)) → refuses st (bind m k).
Proof.
  intros Hm Hk o. destruct m as [a|o'|e]; simpl; [by apply Hk| |done]. intros [= ->]. by apply Hm.
Qed.

Lemma beginReduction_refuses st signed : refuses st (beginReduction st signed).
Proof.
  unfold beginReduction. apply refuses_if; [by apply refuses_quiet|].
  do 2 (apply refuses_if; [apply refuses_Done|]).
  destruct (devices st !! _) as [member|] eqn:Hm; [|apply refuses_Done].
  destruct (_ != _) eqn:Hid; [by apply refuses_quiet|]. apply negb_decide_false in Hid.
  rewrite <-Hid in Hm. destruct (fails (Device.Validate member)) eqn:Hval; [by apply refuses_quiet|].
  apply fails_None in Hval. apply refuses_if; [apply refuses_Done|].
  destruct (EventWire.ParseAndVerify _ _) as [|verified] eqn:Hp; [apply refuses_Done|].
  apply refuses_if; [apply refuses_Done|].
  apply refuses_bind; [intros o Ho; destruct (validateOriginBinding_Done _ _ _ Ho) as [c ->];
    exists c; by left|]. intros key Hb. pose proof (validateOriginBinding_Val _ _ _ Hb) as ->.
  apply refuses_bind; [intros o Ho; destruct (consumeSequence_Done _ _ _ _ _ Ho) as [c ->];
    exists c; by left|]. intros context Hc.
  assert (Hrej : ∀ code, refusal st (reject context code)).
  { intros code. exists code. right. exists context. split; [done|]. by eapply consumes_intro. }
  destruct (Event.ValidateKindContract _); [by intros o [= <-]|].
  destruct (Event.LookupKind _); [|by apply refuses_quiet].
  apply refuses_if; [by intros o [= <-]|by apply refuses_quiet].
Qed.

(** Refusing an event is all or nothing: every early outcome of admission
    is a rejection, and it either changes nothing at all or consumes exactly
    the next sequence of the origin's scope, and writes nothing else. *)
Theorem admission_refusals st signed o :
  prepareReduction st signed = Done o →
  Accepted o = false ∧
  (OChanges o = no_changes ∨
   ∃ next, OChanges o =
       mkChanges false [next] [] [] [] [] [] [] [] [] [] [] [] [] [] [] [] [] ∧
     LastSequence next = next_sequence st (ScopeKey next)).
Proof.
  unfold prepareReduction, invalidState. intros Hp.
  destruct (_ || _); [done|]. destruct (_ =? _)%N; [done|].
  destruct (PreflightCompatibility _ _); [done|].
  apply beginReduction_refuses in Hp as (code & [->|(context & -> & Hcon)]); [auto|].
  split; [done|]. right. exists (scope context). split; [done|]. by apply consumes_scope.
Qed.

End Admission.

(** ** Witnesses *)

Section Witnesses.
Import Fixtures.
#[local] Existing Instances norm crypto jcs.

Definition st := state_with [free_task task_id [] Task.StateReady] [] [] [].
Definition claim_event := signed
  (Fixtures.proposal (agent_origin 8) Event.KindTaskClaimed task_id (Some 3%N) "{}")
  "agent" "agent_reported" (JObject []).
Definition early_event := signed
  (Fixtures.proposal (agent_origin 9) Event.KindTaskClaimed task_id (Some 3%N) "{}")
  "agent" "agent_reported" (JObject []).

(** The proposal its bytes spell, in the context admission builds. *)
Definition admitted :=
  value_of (Fixtures.context st (Event.proposal claim_event)) (prepareReduction st claim_event).
Definition refused := match prepareReduction st early_event with
  | Done o => o
  | _ => rejectWithoutSequence CodeAccepted
  end.

Lemma admitted_ok : prepareReduction st claim_event = Val admitted.
Proof. apply value_of_Val. vm_compute. reflexivity. Qed.

Lemma admission_authentic_witness : Event.ValidateEnvelope (Preflight.proposal admitted) = None.
Proof.
  destruct (admission_authentic st claim_event admitted admitted_ok)
    as (_ & _ & _ & _ & _ & _ & _ & _ & He & _).
  exact He.
Defined.

Lemma admission_sequence_witness :
  LastSequence (scope admitted) = Event.sequence (Event.POrigin (Preflight.proposal admitted)).
Proof.
  destruct (admission_sequence st claim_event admitted admitted_ok) as (_ & Hs & _). exact Hs.
Defined.

Lemma admission_refusals_witness : Accepted refused = false.
Proof.
  destruct (admission_refusals st early_event refused) as [Ha _]; [vm_compute; reflexivity|exact Ha].
Defined.

End Witnesses.
End AdmissionProofs.

(** ** The task handlers: what an accepted proposal did

    Per handler the facts established on the way to acceptance ([X_accepts]),
    and the theorems over all of them: legality of the mutation, the version
    discipline, the uniqueness of a claim's winner, claim limits, finality of
    terminal tasks, and preservation of an acyclic dependency graph. *)

Open Scope reducer_scope.

Module TaskProofs.

Import Reducer Preflight TaskReducers Logic.

(** The outcome that writes the origin scope and one task row. *)
Definition wrote (context : reductionContext) (next : Task.Task) (o : Outcome) : Prop :=
  OStatus o = StatusAccepted ∧ OCode o = CodeAccepted ∧
  OChanges o =
    mkChanges false [scope context] [] [next] [] [] [] [] [] [] [] [] [] [] [] [] [] [].

(** The row a mutation starts from: it exists under the proposal's entity id,
    is valid, and carries the version the proposal expects. *)
Definition loaded (context : reductionContext) (current : Task.Task) : Prop :=
  tasks (state context) !! proposalID context = Some current ∧
  Task.ID current = proposalID context ∧ Task.Validate current = None ∧
  Event.ExpectedEntityVersion (proposal context) = Some (Task.EntityVersion current) ∧
  (Task.EntityVersion current < Domain.MaxSafeInteger)%N.

Lemma bump version :
  (version < Domain.MaxSafeInteger)%N → u64_succ version = (version + 1)%N.
Proof. intros H. apply u64_succ_small. unfold Domain.MaxSafeInteger, u64_modulus in *. lia. Qed.

Section Handlers.
Context `{NormLib, JCSLib, CryptoLib}.
Context (context : reductionContext).

Lemma loadMutableTask_Val current : loadMutableTask context = Val current → loaded context current.
Proof.
  unfold loadMutableTask. intros Hl.
  destruct (tasks (state context) !! proposalID context) as [row|] eqn:Hrow; [|done].
  val_inv Hl. subst row. apply expectVersion_Val in Hv as [Hv Hmax]. bools.
  apply fails_None in Hc0. split_and!; try done.
  apply Task.task_valid_inv in Hc0 as (_ & _ & _ & _ & _ & Hver). lia.
Qed.

Lemma acceptTask_Val next audit o :
  acceptTask context next audit = Val o →
  wrote context next o ∧ Task.Validate next = None ∧ ActivityTaskID o = Task.ID next ∧ Audit o = audit.
Proof.
  unfold acceptTask. intros Ha. val_inv Ha. subst o. by apply fails_None in Hc.
Qed.

Lemma taskTransition_Val op from to u :
  taskTransition context op from to = Val u → Task.ValidateTransition op from to = None.
Proof. unfold taskTransition. intros Ht. val_inv Ht. by apply fails_None. Qed.

(** What each lifecycle handler does to the row: the mutation it makes and
    the operation that makes its state edge legal. *)
Definition mutated (o : Outcome) (op : Task.Operation) (current next : Task.Task) : Prop :=
  loaded context current ∧ wrote context next o ∧ Task.Validate next = None ∧
  Task.ValidateTransition op (Task.TaskState current) (Task.TaskState next) = None.

Lemma claimed_accepts o :
  reduceTaskClaimed context = Val o →
  ∃ current session values agentClaims deviceClaims next,
    mutated o Task.OperationClaim current next ∧
    next = rewritten current Task.StateClaimed None (Device.ID (device context))
             (AgentSession.ID session) EmptyString Task.ReleaseReasonAbsent (proposalTime context) ∧
    agentSession context = Some session ∧
    allDependenciesDone context current = Val true ∧
    taskHasUnresolvedConflict context (Task.ID current) = false ∧
    (Task.IntendedDeviceID current = EmptyString ∨
     Task.IntendedDeviceID current = Device.ID (device context)) ∧
    validatePolicy context = Val values ∧
    validateClaimIndexes context = Val (agentClaims, deviceClaims) ∧
    (Z.of_nat agentClaims < Policy.AgentClaimLimit values)%Z ∧
    (Z.of_nat deviceClaims < Policy.DeviceClaimLimit values)%Z.
Proof.
  unfold reduceTaskClaimed. intros Hr. val_inv Hr.
  apply loadMutableTask_Val in Hv0. apply taskTransition_Val in Hv4.
  apply acceptTask_Val in Hr as (Hw & Hval & _ & _).
  apply orb_false_iff in Hc as [_ Hdone]. apply negb_false_iff in Hdone. subst v1.
  apply Z.leb_gt in Hc2, Hc3.
  eexists _, _, _, _, _, _. split_and!; try done.
  apply andb_false_iff in Hc1. bools. tauto.
Qed.

Lemma task_state_changed_accepts o :
  reduceTaskStateChanged context = Val o →
  ∃ current next toState, mutated o Task.OperationStateChange current next ∧
    Task.TaskState next = toState ∧
    (toState = Task.StateDone → taskHasUnresolvedConflict context (Task.ID current) = false) ∧
    match proposalActor context with
    | Event.ActorAgent => heldByOrigin context current = true
    | Event.ActorHuman => whollyUnowned current = true
    | _ => False
    end ∧
    ∃ owner agent intended reason,
      next = rewritten current toState reason owner agent intended
               (Task.LastReleaseReason current) (proposalTime context).
Proof.
  unfold reduceTaskStateChanged. intros Hr. val_inv Hr.
  apply loadMutableTask_Val in Hv1. apply taskTransition_Val in Hv3.
  apply acceptTask_Val in Hr as (Hw & Hval & _ & _).
  eexists _, _, _. split_and!; [split_and!; done|done| | |by eexists _, _, _, _].
  - intros Hdone. apply andb_false_iff in Hc2 as [Hc2|Hc2]; [by bools|done].
  - destruct (proposalActor context); try done; val_inv Hv2; by apply negb_false_iff.
Qed.

Lemma task_released_accepts o :
  reduceTaskReleased context = Val o →
  ∃ current reason op, mutated o op current
      (released current EmptyString reason (proposalTime context)) ∧
    (reason = Task.ReleaseVoluntary ∧ op = Task.OperationReleaseVoluntary ∧
       proposalActor context = Event.ActorAgent ∧ heldByOrigin context current = true ∨
     reason = Task.ReleaseForced ∧ op = Task.OperationReleaseForced ∧
       proposalActor context = Event.ActorHuman ∧
       (Device.DeviceRole (device context) = Device.RoleOwner ∨
        Task.OwnerDeviceID current = Device.ID (device context) ∨
        Task.IntendedDeviceID current = Device.ID (device context))).
Proof.
  unfold reduceTaskReleased. intros Hr. val_inv Hr.
  apply loadMutableTask_Val in Hv1. apply taskTransition_Val in Hv3.
  apply acceptTask_Val in Hr as (Hw & Hval & _ & _).
  eexists _, _, _. split; [split_and!; done|].
  case_bool_decide as Hvol; val_inv Hv2; simplify_eq.
  - left. apply negb_decide_false in Hc0. apply negb_false_iff in Hc1. done.
  - right. apply andb_false_iff in Hc as [Hc|Hc]; [by bools|].
    apply negb_decide_false in Hc, Hc0. split_and!; try done.
    rewrite !andb_false_iff in Hc1. bools. tauto.
Qed.

Lemma reassigned_accepts o :
  reduceTaskReassigned context = Val o →
  ∃ current target, mutated o Task.OperationReassign current
      (released current (Device.ID target) Task.ReleaseForced (proposalTime context)) ∧
    devices (state context) !! Device.ID target = Some target ∧
    Device.Validate target = None ∧ Device.DeviceStatus target = Device.StatusActive.
Proof.
  unfold reduceTaskReassigned. intros Hr. val_inv Hr.
  apply loadMutableTask_Val in Hv1. apply taskTransition_Val in Hv2.
  apply acceptTask_Val in Hr as (Hw & Hval & _ & _).
  apply negb_decide_false in Hc0, Hc2. apply fails_None in Hc1. subst.
  eexists _, _. split_and!; [split_and!; done|done..].
Qed.

Lemma cancelled_accepts o :
  reduceTaskCancelled context = Val o →
  ∃ current, mutated o Task.OperationCancel current
    (rewritten current Task.StateCancelled None EmptyString EmptyString EmptyString
       (Task.LastReleaseReason current) (proposalTime context)).
Proof.
  unfold reduceTaskCancelled. intros Hr. val_inv Hr.
  apply loadMutableTask_Val in Hv0. apply taskTransition_Val in Hv1.
  apply acceptTask_Val in Hr as (Hw & Hval & _ & _).
  eexists. split_and!; done.
Qed.

(** The fields task.updated leaves alone. *)
Definition same_lifecycle (current next : Task.Task) : Prop :=
  Task.TaskState next = Task.TaskState current ∧ Task.StateReason next = Task.StateReason current ∧
  Task.OwnerDeviceID next = Task.OwnerDeviceID current ∧
  Task.OwnerAgentSessionID next = Task.OwnerAgentSessionID current ∧
  Task.IntendedDeviceID next = Task.IntendedDeviceID current ∧
  Task.LastReleaseReason next = Task.LastReleaseReason current.

Lemma updated_accepts o :
  reduceTaskUpdated context = Val o →
  ∃ current next, loaded context current ∧ wrote context next o ∧ Task.Validate next = None ∧
    same_lifecycle current next ∧ Task.ID next = Task.ID current ∧
    Task.CreatedAt next = Task.CreatedAt current ∧
    Task.EntityVersion next = u64_succ (Task.EntityVersion current) ∧
    Task.UpdatedAt next = proposalTime context ∧
    (proposalActor context = Event.ActorAgent →
       heldByOrigin context current = true ∨ whollyUnowned current = true) ∧
    (Task.BlockedBy next = Task.BlockedBy current ∨
     validateTaskDependencies context (Task.ID next) (Task.BlockedBy next) = Val ()).
Proof.
  unfold reduceTaskUpdated. intros Hr. val_inv Hr.
  apply loadMutableTask_Val in Hv0.
  apply acceptTask_Val in Hr as (Hw & Hval & _ & _).
  eexists _, _. split_and!; try done.
  - intros Hagent. rewrite Hagent in Hc0. rewrite bool_decide_true in Hc0 by done.
    simpl in Hc0. apply andb_false_iff in Hc0. rewrite !negb_false_iff in Hc0. tauto.
  - simpl. unfold optional in Hv5. destruct (supplied v "blocked_by") eqn:Hs.
    + right. by destruct v7.
    + left. by injection Hv5 as <-.
Qed.

Lemma created_accepts o :
  reduceTaskCreated context = Val o →
  ∃ next, tasks (state context) !! proposalID context = None ∧
    wrote context next o ∧ Task.Validate next = None ∧
    Task.ID next = proposalID context ∧ Task.TaskState next = Task.StateBacklog ∧
    Task.EntityVersion next = 1%N ∧ whollyUnowned next = true ∧
    Task.CreatedAt next = proposalTime context ∧ Task.UpdatedAt next = proposalTime context ∧
    validateTaskDependencies context (Task.ID next) (Task.BlockedBy next) = Val ().
Proof.
  unfold reduceTaskCreated. intros Hr. val_inv Hr.
  apply acceptTask_Val in Hr as (Hw & Hval & _ & _).
  eexists. split_and!; try done. by destruct v6.
Qed.

(** ** Early exits are rejections *)

Lemma rejects_loadMutableTask : rejects context (loadMutableTask context).
Proof. unfold loadMutableTask. solve_rejects. Qed.
Lemma rejects_acceptTask next audit : rejects context (acceptTask context next audit).
Proof. unfold acceptTask. solve_rejects. Qed.
Lemma rejects_candidate next : rejects context (candidate context next).
Proof. unfold candidate. solve_rejects. Qed.
Lemma rejects_taskTransition op from to : rejects context (taskTransition context op from to).
Proof. unfold taskTransition. solve_rejects. Qed.
Lemma rejects_validateTaskDependencies subject l :
  rejects context (validateTaskDependencies context subject l).
Proof. unfold validateTaskDependencies. solve_rejects. Qed.
Lemma rejects_dependenciesDone l : rejects context (dependenciesDone context l).
Proof. induction l; simpl; solve_rejects. Qed.
Lemma rejects_validatePolicy : rejects context (validatePolicy context).
Proof. unfold validatePolicy. solve_rejects. Qed.
Lemma rejects_validateClaimIndexes : rejects context (validateClaimIndexes context).
Proof. unfold validateClaimIndexes. solve_rejects. Qed.
Lemma rejects_emptyPayload : rejects context (emptyPayload context).
Proof. unfold emptyPayload. solve_rejects. Qed.

End Handlers.

#[export] Hint Resolve rejects_loadMutableTask rejects_acceptTask rejects_candidate
  rejects_taskTransition rejects_validateTaskDependencies rejects_dependenciesDone
  rejects_validatePolicy rejects_validateClaimIndexes rejects_emptyPayload : rejects.

(** The handlers of the task kinds, by kind. *)
Definition task_handler `{NormLib, JCSLib, CryptoLib} (kind : Event.Kind)
    (context : reductionContext) : Reduction Outcome :=
  match kind with
  | Event.KindTaskCreated => reduceTaskCreated context
  | Event.KindTaskUpdated => reduceTaskUpdated context
  | Event.KindTaskStateChanged => reduceTaskStateChanged context
  | Event.KindTaskClaimed => reduceTaskClaimed context
  | Event.KindTaskReleased => reduceTaskReleased context
  | Event.KindTaskReassigned => reduceTaskReassigned context
  | Event.KindTaskCancelled => reduceTaskCancelled context
  | _ => Fail ErrKindNotImplemented
  end.

Lemma rejects_task_handler `{NormLib, JCSLib, CryptoLib} kind context :
  rejects context (task_handler kind context).
Proof.
  destruct kind; simpl; try apply rejects_Fail;
    [unfold reduceTaskCreated | unfold reduceTaskUpdated | unfold reduceTaskStateChanged
    | unfold reduceTaskClaimed | unfold reduceTaskReleased | unfold reduceTaskReassigned
    | unfold reduceTaskCancelled].
  all: solve_rejects.
Qed.

(** ** The mutation discipline *)

(** The operations a lifecycle kind stands for. *)
Inductive lifecycle_operation : Event.Kind → Task.Operation → Prop :=
  | Changed_op : lifecycle_operation Event.KindTaskStateChanged Task.OperationStateChange
  | Claimed_op : lifecycle_operation Event.KindTaskClaimed Task.OperationClaim
  | Voluntary_op : lifecycle_operation Event.KindTaskReleased Task.OperationReleaseVoluntary
  | Forced_op : lifecycle_operation Event.KindTaskReleased Task.OperationReleaseForced
  | Reassigned_op : lifecycle_operation Event.KindTaskReassigned Task.OperationReassign
  | Cancelled_op : lifecycle_operation Event.KindTaskCancelled Task.OperationCancel.

(** [next] is [current] one version later, at the proposal's time. *)
Definition advanced (context : reductionContext) (current next : Task.Task) : Prop :=
  Task.ID next = Task.ID current ∧ Task.CreatedAt next = Task.CreatedAt current ∧
  Task.UpdatedAt next = proposalTime context ∧
  Task.EntityVersion next = (Task.EntityVersion current + 1)%N.

(** The fields a lifecycle mutation leaves alone. *)
Definition same_content (current next : Task.Task) : Prop :=
  Task.Title next = Task.Title current ∧ Task.Body next = Task.Body current ∧
  Task.Priority next = Task.Priority current ∧ Task.Labels next = Task.Labels current ∧
  Task.BlockedBy next = Task.BlockedBy current.

(** The tasks' part of an accepted task mutation. *)
Definition task_mutation (context : reductionContext) (kind : Event.Kind)
    (current next : Task.Task) (o : Outcome) : Prop :=
  loaded context current ∧ wrote context next o ∧ Task.Validate next = None ∧
  advanced context current next ∧
  (kind = Event.KindTaskUpdated ∧ same_lifecycle current next ∨
   same_content current next ∧ ∃ op, lifecycle_operation kind op ∧
     Task.ValidateTransition op (Task.TaskState current) (Task.TaskState next) = None).

Section Mutation.
Context `{NormLib, JCSLib, CryptoLib}.

Lemma mutated_mutation context o kind op current state reason owner agent intended release :
  lifecycle_operation kind op →
  mutated context o op current
    (rewritten current state reason owner agent intended release (proposalTime context)) →
  task_mutation context kind current
    (rewritten current state reason owner agent intended release (proposalTime context)) o.
Proof.
  intros Hop (Hl & Hw & Hv & Ht).
  refine (conj Hl (conj Hw (conj Hv (conj (conj eq_refl (conj eq_refl (conj eq_refl _))) _))));
    [|right; unfold same_content; eauto 10].
  apply bump. by destruct Hl as (_ & _ & _ & _ & ?).
Qed.

Lemma task_handler_mutates kind context o :
  task_handler kind context = Val o → kind ≠ Event.KindTaskCreated →
  ∃ current next, task_mutation context kind current next o.
Proof.
  destruct kind; simpl; try done; intros Hr _.
  - apply updated_accepts in Hr as (current & next & Hl & Hw & Hv & Hs & Hid & Hc & Hver & Hu & _).
    exists current, next.
    refine (conj Hl (conj Hw (conj Hv (conj (conj Hid (conj Hc (conj Hu _))) (or_introl (conj eq_refl Hs)))))).
    rewrite Hver. apply bump. by destruct Hl as (_ & _ & _ & _ & ?).
  - apply task_state_changed_accepts in Hr as (? & ? & ? & Hm & _ & _ & _ & ? & ? & ? & ? & ->).
    eexists _, _. eapply mutated_mutation; [constructor|exact Hm].
  - apply claimed_accepts in Hr as (? & ? & ? & ? & ? & ? & Hm & -> & _).
    eexists _, _. eapply mutated_mutation; [constructor|exact Hm].
  - apply task_released_accepts in Hr as (? & ? & ? & Hm & [(_ & -> & _)|(_ & -> & _)]);
      eexists _, _; (eapply mutated_mutation; [|exact Hm]); constructor.
  - apply reassigned_accepts in Hr as (? & ? & Hm & _).
    eexists _, _. eapply mutated_mutation; [constructor|exact Hm].
  - apply cancelled_accepts in Hr as (? & Hm).
    eexists _, _. eapply mutated_mutation; [constructor|exact Hm].
Qed.

Lemma task_handler_accepted kind context o :
  run (task_handler kind context) = inr o → Accepted o = true → task_handler kind context = Val o.
Proof. by apply (accepted_Val context), rejects_task_handler. Qed.

(** An accepted task mutation (every task kind but task.created) writes
    the consumed origin scope and one task row and nothing else; the row it
    replaces existed, was valid and carried exactly the version the proposal
    expected; the new row is valid, keeps id and creation time, has the next
    version, and its state edge is one the kind's operation allows
    (task.updated leaves state and ownership alone). *)
Theorem task_mutation_legal kind context o :
  run (task_handler kind context) = inr o → Accepted o = true → kind ≠ Event.KindTaskCreated →
  ∃ current next, task_mutation context kind current next o.
Proof. intros Hr Ha Hk. eapply task_handler_mutates; [by apply task_handler_accepted|done]. Qed.

(** C38: Compare-and-swap has one winner: once a task mutation that expects
    version [v] of a task has been accepted, no task mutation that expects the
    same version of the same task is accepted in any state that holds the
    winner's row. *)
Theorem one_winner kind context o kind' context' o' row :
  run (task_handler kind context) = inr o → Accepted o = true → kind ≠ Event.KindTaskCreated →
  Tasks (OChanges o) = [row] →
  tasks (state context') !! proposalID context' = Some row →
  proposalID context' = proposalID context →
  Event.ExpectedEntityVersion (proposal context') = Event.ExpectedEntityVersion (proposal context) →
  kind' ≠ Event.KindTaskCreated →
  run (task_handler kind' context') = inr o' → Accepted o' = false.
Proof.
  intros Hr Ha Hk Hrow Hst _ Hver Hk' Hr'. destruct (Accepted o') eqn:Ha'; [|done]. exfalso.
  apply task_handler_accepted in Hr; [|done]. apply task_handler_accepted in Hr'; [|done].
  apply task_handler_mutates in Hr as (cur & next & Hl & Hw & _ & Hadv & _); [|done].
  apply task_handler_mutates in Hr' as (cur' & next' & Hl' & _); [|done].
  destruct Hw as (_ & _ & Hw). rewrite Hw in Hrow. simpl in Hrow. simplify_eq.
  destruct Hl as (_ & _ & _ & Hv & _), Hl' as (Hc' & _ & _ & Hv' & _), Hadv as (_ & _ & _ & Hn).
  simplify_eq. rewrite Hv', Hn in Hver. rewrite Hv in Hver. injection Hver as Hver. lia.
Qed.

(** A task that is done or cancelled stays as it is: no lifecycle
    proposal on it is accepted, and an accepted task.updated keeps its state,
    ownership and release reason. *)
Theorem terminal_task_final kind context o current :
  run (task_handler kind context) = inr o → Accepted o = true → kind ≠ Event.KindTaskCreated →
  tasks (state context) !! proposalID context = Some current →
  Task.State_Terminal (Task.TaskState current) = true →
  kind = Event.KindTaskUpdated ∧
  ∃ next, Tasks (OChanges o) = [next] ∧ same_lifecycle current next.
Proof.
  intros Hr Ha Hk Hrow Hterm. apply task_handler_accepted in Hr; [|done].
  apply task_handler_mutates in Hr as (cur & next & Hl & Hw & _ & _ & Hs); [|done].
  destruct Hl as (Hc & _), Hw as (_ & _ & ->). simplify_eq.
  destruct Hs as [[Hu Hs]|(_ & op & _ & Ht)]; [eauto|].
  by destruct (Task.terminal_final op _ _ Hterm Ht).
Qed.

Lemma dependenciesDone_true context l :
  dependenciesDone context l = Val true →
  ∀ id, id ∈ l → ∃ row, tasks (state context) !! id = Some row ∧ Task.ID row = id ∧
    Task.Validate row = None ∧ Task.TaskState row = Task.StateDone.
Proof.
  induction l as [|d r IH]; simpl; intros Hd id Hin; [by apply not_elem_of_nil in Hin|].
  destruct (tasks (state context) !! d) as [row|] eqn:Hrow; [|done]. val_inv Hd.
  destruct (Task.TaskState row != Task.StateDone) eqn:Hdone; [done|].
  apply elem_of_cons in Hin as [->|Hin]; [|by apply IH]. exists row.
  apply negb_decide_false in Hc, Hdone. by apply fails_None in Hc0.
Qed.

Lemma validateClaimIndexes_Val context session agentClaims deviceClaims :
  agentSession context = Some session →
  validateClaimIndexes context = Val (agentClaims, deviceClaims) →
  agentClaims = length (ids_at (claimsByAgent (state context)) (AgentSession.ID session)) ∧
  deviceClaims = length (ids_at (claimsByDevice (state context)) (Device.ID (device context))).
Proof. unfold validateClaimIndexes. intros -> Hv. val_inv Hv. by simplify_eq. Qed.

Lemma validatePolicy_Val context values :
  validatePolicy context = Val values →
  values = Policy.PolicyValues (sessionPolicy (state context)) ∧
  Policy.Validate (sessionPolicy (state context)) = None.
Proof. unfold validatePolicy. intros Hv. val_inv Hv. by apply fails_None in Hc0. Qed.

(** A claim is accepted only for a ready task whose dependencies all exist
    and are done, that has no unresolved conflict and is not reserved for
    another device, by a session of the origin's device whose claims and whose
    device's claims are both below the policy limits; the claimed row is owned
    by exactly that device and session. *)
Theorem claim_preconditions context o :
  run (task_handler Event.KindTaskClaimed context) = inr o → Accepted o = true →
  let st := state context in
  let values := Policy.PolicyValues (sessionPolicy st) in
  ∃ current session next,
    tasks st !! proposalID context = Some current ∧ agentSession context = Some session ∧
    Tasks (OChanges o) = [next] ∧
    Task.TaskState current = Task.StateReady ∧
    (∀ id, id ∈ Task.BlockedBy current → ∃ row, tasks st !! id = Some row ∧ Task.ID row = id ∧
       Task.Validate row = None ∧ Task.TaskState row = Task.StateDone) ∧
    default 0%N (unresolvedConflictsByTask st !! Task.ID current) = 0%N ∧
    (Task.IntendedDeviceID current = EmptyString ∨
     Task.IntendedDeviceID current = Device.ID (device context)) ∧
    (Z.of_nat (length (ids_at (claimsByAgent st) (AgentSession.ID session)))
       < Policy.AgentClaimLimit values)%Z ∧
    (Z.of_nat (length (ids_at (claimsByDevice st) (Device.ID (device context))))
       < Policy.DeviceClaimLimit values)%Z ∧
    Task.TaskState next = Task.StateClaimed ∧
    Task.OwnerDeviceID next = Device.ID (device context) ∧
    Task.OwnerAgentSessionID next = AgentSession.ID session.
Proof.
  intros Hr Ha. apply task_handler_accepted in Hr; [|done]. simpl in Hr.
  apply claimed_accepts in Hr
    as (cur & session & values & a & d & next & Hm & Hn & Hs & Hd & Hu & Hi & Hp & Hx & Hla & Hld).
  destruct Hm as ((Hrow & _) & (_ & _ & Hw) & _ & Ht).
  apply (validateClaimIndexes_Val _ _ _ _ Hs) in Hx as [-> ->].
  apply validatePolicy_Val in Hp as [-> _].
  unfold taskHasUnresolvedConflict in Hu. apply negb_false_iff, N.eqb_eq in Hu.
  exists cur, session, next. rewrite Hw. subst next. split_and!; try done.
  - apply Task.task_transition_iff in Ht. simpl in Ht. set_solver.
  - by apply dependenciesDone_true.
Qed.

(** ** The dependency graph *)

Definition dependency_graph (rows : gmap string Task.Task) (id : string) : option (list string) :=
  Task.BlockedBy <$> rows !! id.

(** Every row is stored under its id and is valid. *)
Definition rows_valid (rows : gmap string Task.Task) : Prop :=
  ∀ id row, rows !! id = Some row → Task.ID row = id ∧ Task.Validate row = None.

Lemma acyclic_ext g h : (∀ x, g x = h x) → TaskDependency.acyclic g → TaskDependency.acyclic h.
Proof.
  intros Hext Hg x Hx. apply (Hg x).
  eapply (tc_congruence id); [|exact Hx]. intros a b (l & Hh & Hl). exists l. by rewrite Hext.
Qed.

Lemma dependency_graph_insert rows next x :
  TaskDependency.set_dependencies (dependency_graph rows) (Task.ID next) (Task.BlockedBy next) x =
  dependency_graph (<[Task.ID next := next]> rows) x.
Proof.
  unfold TaskDependency.set_dependencies, dependency_graph. case_decide as Hx.
  - subst. by rewrite lookup_insert_eq.
  - by rewrite lookup_insert_ne.
Qed.

Lemma dependencies_acyclic context next :
  rows_valid (tasks (state context)) →
  TaskDependency.acyclic (dependency_graph (tasks (state context))) →
  validateTaskDependencies context (Task.ID next) (Task.BlockedBy next) = Val () →
  TaskDependency.acyclic (dependency_graph (<[Task.ID next := next]> (tasks (state context)))).
Proof.
  intros Hrows Hac Hv. unfold validateTaskDependencies in Hv.
  destruct (Task.ValidateDependencyGraph _ _ _ _) as [stateErr err] eqn:Hg.
  apply invalid_Val in Hv as [_ Hv]. destruct err as [[]|]; try done.
  apply (f_equal snd) in Hg. simpl in Hg.
  apply (TaskDependency.graph_spec (dependency_graph (tasks (state context)))) in Hg
    as (_ & _ & closure & Hcl & Hsub & _ & Hc).
  - eapply acyclic_ext; [apply dependency_graph_insert|]. by eapply TaskDependency.update_acyclic.
  - intros st x. unfold dependencyLookup, dependency_graph.
    destruct (tasks (state context) !! x) as [row|] eqn:Hrow; [|done].
    destruct (Hrows _ _ Hrow) as [-> ->]. by rewrite bool_decide_true.
Qed.

Lemma same_dependencies_acyclic rows current next :
  rows !! Task.ID next = Some current → Task.BlockedBy next = Task.BlockedBy current →
  TaskDependency.acyclic (dependency_graph rows) →
  TaskDependency.acyclic (dependency_graph (<[Task.ID next := next]> rows)).
Proof.
  intros Hrow Hb. apply acyclic_ext. intros x. unfold dependency_graph.
  destruct (decide (x = Task.ID next)) as [->|Hne].
  - rewrite lookup_insert_eq, Hrow. simpl. congruence.
  - by rewrite lookup_insert_ne.
Qed.

(** C37: No accepted task proposal closes a dependency cycle: installing the
    row it wrote keeps an acyclic dependency graph acyclic. *)
Theorem dependencies_stay_acyclic kind context o next :
  run (task_handler kind context) = inr o → Accepted o = true → Tasks (OChanges o) = [next] →
  rows_valid (tasks (state context)) →
  TaskDependency.acyclic (dependency_graph (tasks (state context))) →
  TaskDependency.acyclic (dependency_graph (<[Task.ID next := next]> (tasks (state context)))).
Proof.
  intros Hr Ha Hn Hrows Hac. apply task_handler_accepted in Hr; [|done].
  destruct (decide (kind = Event.KindTaskCreated)) as [->|Hk].
  { simpl in Hr. apply created_accepts in Hr
      as (row & _ & (_ & _ & Hw) & _ & _ & _ & _ & _ & _ & _ & Hd).
    rewrite Hw in Hn. simpl in Hn. simplify_eq. by apply dependencies_acyclic. }
  destruct (decide (kind = Event.KindTaskUpdated)) as [->|Hu].
  { simpl in Hr. apply updated_accepts in Hr
      as (cur & row & Hl & (_ & _ & Hw) & _ & _ & Hid & _ & _ & _ & _ & Hd).
    rewrite Hw in Hn. simpl in Hn. simplify_eq.
    destruct Hd as [Hd|Hd]; [|by apply dependencies_acyclic].
    eapply same_dependencies_acyclic; [|exact Hd|done].
    destruct Hl as (Hl & Hlid & _). congruence. }
  apply task_handler_mutates in Hr as (cur & row & Hl & (_ & _ & Hw) & _ & Hadv & Hs); [|done].
  rewrite Hw in Hn. simpl in Hn. simplify_eq.
  destruct Hs as [[? _]|[(_ & _ & _ & _ & Hb) _]]; [done|].
  eapply same_dependencies_acyclic; [|exact Hb|done].
  destruct Hl as (Hl & Hlid & _), Hadv as (Hid & _). congruence.
Qed.

End Mutation.

(** ** Witnesses *)

Section Witnesses.
Import Fixtures.
#[local] Existing Instances norm crypto jcs.

Definition ready := free_task task_id [other_task] Task.StateReady.
Definition finished := free_task other_task [] Task.StateDone.
Definition claim_context := context (state_with [ready; finished] [] [] [])
  (Fixtures.proposal (agent_origin 8) Event.KindTaskClaimed task_id (Some 3%N) "{}").
Definition claim := task_handler Event.KindTaskClaimed claim_context.
Definition claimed_row := rewritten ready Task.StateClaimed None device_id agent_id EmptyString
  Task.ReleaseReasonAbsent now.
Definition late_context := context (state_with [claimed_row; finished] [] [task_id] [])
  (Fixtures.proposal (human_origin 4) Event.KindTaskCancelled task_id (Some 3%N) "{}").
Definition late := task_handler Event.KindTaskCancelled late_context.
Definition edit_context := context (state_with [ready; finished] [] [] [])
  (Fixtures.proposal (human_origin 4) Event.KindTaskUpdated other_task (Some 3%N)
     "{'title':'new title'}").
Definition edit := task_handler Event.KindTaskUpdated edit_context.
Definition create_context := context (state_with [finished] [] [] [])
  (Fixtures.proposal (human_origin 4) Event.KindTaskCreated task_id None
     "{'blocked_by':['0190a0a0-0000-7000-8000-000000000004'],'priority':1,'title':'a task'}").
Definition create := task_handler Event.KindTaskCreated create_context.

Lemma task_mutation_legal_witness :
  ∃ current next, task_mutation claim_context Event.KindTaskClaimed current next (outcome_of claim).
Proof. apply task_mutation_legal; [by vm_compute|by vm_compute|done]. Defined.

Lemma one_winner_witness : Accepted (outcome_of late) = false.
Proof.
  apply (one_winner Event.KindTaskClaimed claim_context (outcome_of claim)
           Event.KindTaskCancelled late_context (outcome_of late) claimed_row);
    by vm_compute.
Defined.

Lemma terminal_task_final_witness :
  Event.KindTaskUpdated = Event.KindTaskUpdated ∧
  ∃ next, Tasks (OChanges (outcome_of edit)) = [next] ∧ same_lifecycle finished next.
Proof.
  apply (terminal_task_final Event.KindTaskUpdated edit_context); [by vm_compute|by vm_compute|done| |done].
  by vm_compute.
Defined.

Lemma claim_preconditions_witness :
  ∃ next, Tasks (OChanges (outcome_of claim)) = [next] ∧ Task.OwnerDeviceID next = device_id.
Proof.
  destruct (claim_preconditions claim_context (outcome_of claim))
    as (_ & _ & next & _ & _ & Hn & _ & _ & _ & _ & _ & _ & _ & Ho & _); [by vm_compute..|].
  by exists next.
Defined.

Definition created_row := free_task task_id [other_task] Task.StateBacklog.

Lemma rows_valid_check (l : list Task.Task) :
  forallb (λ t, negb (fails (Task.Validate t))) l = true →
  rows_valid (list_to_map ((λ t, (Task.ID t, t)) <$> l)).
Proof.
  intros Hl id row Hrow. apply elem_of_list_to_map_2 in Hrow.
  apply list_elem_of_fmap in Hrow as (t & [= -> ->] & Hin). split; [done|].
  rewrite forallb_forall in Hl. apply list_elem_of_In, Hl in Hin.
  by destruct (Task.Validate t).
Qed.

Lemma no_edges_acyclic rows :
  (∀ id row, rows !! id = Some row → Task.BlockedBy row = []) →
  TaskDependency.acyclic (dependency_graph rows).
Proof.
  intros Hrows x Hx. apply TaskDependency.tc_first in Hx as (z & (l & Hg & Hz) & _).
  unfold dependency_graph in Hg. destruct (rows !! x) as [row|] eqn:Hrow; [|done].
  simpl in Hg. injection Hg as <-. rewrite (Hrows _ _ Hrow) in Hz. by apply not_elem_of_nil in Hz.
Qed.

Lemma dependencies_stay_acyclic_witness :
  ∃ next, Task.BlockedBy next = [other_task] ∧
  TaskDependency.acyclic (dependency_graph (<[Task.ID next := next]> (tasks (state create_context)))).
Proof.
  eexists. split.
  2: { apply (dependencies_stay_acyclic Event.KindTaskCreated create_context (outcome_of create));
         [by vm_compute|by vm_compute|by vm_compute|by apply (rows_valid_check [finished])|].
       apply no_edges_acyclic. intros id row Hrow.
       apply elem_of_list_to_map_2, list_elem_of_singleton in Hrow. by injection Hrow as -> ->. }
  done.
Defined.

End Witnesses.
End TaskProofs.
