(* ===== verification/LeaseProofs.v ===== *)
(** * The lease handlers: exclusive reservations

    What two active leases that do not intersect reserve ([reserves]), what an
    accepted lease proposal did, and the theorems: an acquired lease shares no
    task and no path with any active lease, renewals and releases follow the
    lifecycle, limits and TTL policy. *)

From stdpp Require Import base gmap strings list sorting.
From Stdlib Require Import ZArith NArith Lia.
From S2P Require Import Prelude.
From S2P Require Import GoLib.
From S2P Require Import GoJson.
From S2P Require Import CodecLayer.
From S2P Require Import DomainValues.
From S2P Require Import TaskEntity.
From S2P Require Import AgentSessionEntity.
From S2P Require Import DeviceEntity.
From S2P Require Import PolicyEntity.
From S2P Require Import EventModel.
From S2P Require Import EventWire.
From S2P Require Import ReducerState.
From S2P Require Import Preflight.
From S2P Require Import ReducerLogic.
From S2P Require Import TaskReducers.
From S2P Require Import Fixtures.
From S2P Require Import LeaseEntity.
From S2P Require Import StateRefs.
From S2P Require Import LeaseReducers.
From S2P Require Import TaskProofs.

Open Scope reducer_scope.

Module LeaseProofs.

Import Reducer Preflight StateRefs LeaseReducers Logic.

(** ** Resources *)

Section Resources.
Context `{NormLib}.

(** A task lease reserves its task, a path lease the paths its patterns cover. *)
Inductive resource := TaskResource (id : string) | PathResource (path : string).

Definition reserves (lease : Lease.Lease) (r : resource) : Prop :=
  match r with
  | TaskResource id => Lease.LeaseScope lease = Lease.ScopeTask ∧ Lease.TaskID lease = id
  | PathResource p =>
      Lease.LeaseScope lease = Lease.ScopePath ∧
      ∃ pattern, pattern ∈ Lease.pathPatterns lease ∧ Lease.covers pattern p
  end.

Lemma valid_patterns lease pattern :
  Lease.Validate lease = None → pattern ∈ Lease.pathPatterns lease →
  Lease.PathPattern_Valid pattern = true.
Proof.
  intros (_ & _ & Hs & _)%Lease.lease_valid_inv Hin. unfold Lease.validateScopedValues in Hs.
  apply check_None in Hs as [_ Hs]. apply scan_sorted_None in Hs as [Hall _].
  rewrite Forall_forall in Hall. specialize (Hall _ Hin). chain_inv Hall.
  by apply negb_false_iff.
Qed.

(** Two active leases intersect exactly when they reserve a common resource. *)
Lemma intersect_reserves left right b :
  Lease.ActiveLeasesIntersect left right = inr b → isActive left = true → isActive right = true →
  b = true ↔ ∃ r, reserves left r ∧ reserves right r.
Proof.
  unfold Lease.ActiveLeasesIntersect, isActive. intros Hi Hl Hr.
  destruct (Lease.Validate left) eqn:Hvl, (Lease.Validate right) eqn:Hvr; simplify_eq.
  bools. rewrite !bool_decide_true by done. simpl.
  destruct (Lease.LeaseScope left) eqn:Hsl, (Lease.LeaseScope right) eqn:Hsr; simpl.
  1: { rewrite bool_decide_eq_true. split.
       - intros Heq. exists (TaskResource (Lease.TaskID left)). by simpl.
       - intros ([id|p] & [? ?] & [? ?]); congruence. }
  4: { rewrite existsb_exists. split.
       - intros (l & Hl' & (r & Hr' & Hlr)%existsb_exists).
         apply list_elem_of_In in Hl', Hr'.
         destruct (proj1 (Lease.Intersects_covers l r (valid_patterns _ _ Hvl Hl')
           (valid_patterns _ _ Hvr Hr')) Hlr) as (x & Hx & Hy).
         exists (PathResource x). simpl. eauto 10.
       - intros ([id|p] & Hp1 & Hp2); simpl in *; [destruct Hp1; congruence|].
         destruct Hp1 as (_ & l & Hl' & Hx), Hp2 as (_ & r & Hr' & Hy).
         exists l. split; [by apply list_elem_of_In|]. apply existsb_exists.
         exists r. split; [by apply list_elem_of_In|].
         apply Lease.Intersects_covers; eauto using valid_patterns. }
  all: split; [done|]; intros ([id|p] & [? ?] & [? ?]); congruence.
Qed.
End Resources.

(** ** The active index *)

Lemma scan_index_elem {E} (bad : string → bool) (e : E) ids :
  scan_sorted id (λ x, refuse e when (bad x) ;; None) e None ids = None →
  StronglySorted str_lt ids ∧ ∀ x, x ∈ ids → bad x = false.
Proof.
  intros Hs. apply scan_sorted_None in Hs as [Hall Hs]. rewrite list_fmap_id in Hs.
  split; [done|]. intros x Hx. rewrite Forall_forall in Hall. specialize (Hall _ Hx).
  by apply refuse_None in Hall as [? _].
Qed.

(** A valid index lists every active row. *)
Lemma globalIndexValid_active st key row :
  globalIndexValid st = true → leases st !! key = Some row → isActive row = true →
  key ∈ activeLeaseIDs st.
Proof.
  unfold globalIndexValid. intros Hg Hrow Hact.
  apply andb_true_iff in Hg as [Hg Hscan]. apply andb_true_iff in Hg as [Hg _].
  apply andb_true_iff in Hg as [_ Hall]. apply negb_true_iff, fails_None in Hscan.
  apply scan_index_elem in Hscan as [Hsorted _].
  apply BinarySearch_found; [done|]. rewrite forallb_forall in Hall.
  apply (Hall (key, row)). apply list_elem_of_In, list_elem_of_filter.
  split; [done|]. by apply elem_of_map_to_list.
Qed.

Section Handlers.
Context `{NormLib, JCSLib, CryptoLib}.
Context (context : reductionContext).

Lemma findConflict_false candidate ids :
  findConflict context candidate ids = Val false →
  ∀ key, key ∈ ids → ∃ row, leases (state context) !! key = Some row ∧
    Lease.ActiveLeasesIntersect candidate row = inr false.
Proof.
  induction ids as [|d r IH]; simpl; intros Hf key Hin; [by apply not_elem_of_nil in Hin|].
  destruct (leases (state context) !! d) as [row|] eqn:Hrow; [|done]. val_inv Hf.
  destruct b; [done|].
  apply elem_of_cons in Hin as [->|Hin]; [by exists row|by apply IH].
Qed.

(** ** What accepted proposals did *)

Definition wrote (next : Lease.Lease) (o : Outcome) : Prop :=
  OStatus o = StatusAccepted ∧ OCode o = CodeAccepted ∧
  OChanges o =
    mkChanges false [scope context] [] [] [] [] [] [next] [] [] [] [] [] [] [] [] [] [].

Definition loaded (current : Lease.Lease) : Prop :=
  leases (state context) !! proposalID context = Some current ∧
  Lease.ID current = proposalID context ∧ Lease.Validate current = None ∧
  Event.ExpectedEntityVersion (proposal context) = Some (Lease.EntityVersion current) ∧
  (Lease.EntityVersion current < Domain.MaxSafeInteger)%N.

Lemma loadMutableLease_Val current : loadMutableLease context = Val current → loaded current.
Proof.
  unfold loadMutableLease. intros Hl.
  destruct (leases (state context) !! proposalID context) as [row|] eqn:Hrow; [|done].
  val_inv Hl. subst row. apply expectVersion_Val in Hv as [Hv Hmax]. bools.
  apply fails_None in Hc0. unfold loaded. split_and!; try done.
  apply Lease.lease_valid_inv in Hc0 as (_ & _ & _ & _ & Hver). lia.
Qed.

Lemma acceptLease_Val next audit o :
  acceptLease context next audit = Val o → wrote next o ∧ Lease.Validate next = None.
Proof. unfold acceptLease. intros Ha. val_inv Ha. subst o. by apply fails_None in Hc. Qed.

Lemma leaseTransition_Val op from to u :
  leaseTransition context op from to = Val u → Lease.ValidateTransition op from to = None.
Proof. unfold leaseTransition. intros Ht. val_inv Ht. by apply fails_None. Qed.

Lemma validateLeaseTTL_Val ttl values :
  validateLeaseTTL context ttl = Val values →
  values = Policy.PolicyValues (sessionPolicy (state context)) ∧
  (Policy.LeaseMinTTLSeconds values ≤ ttl ≤ Policy.LeaseMaxTTLSeconds values)%Z.
Proof.
  unfold validateLeaseTTL. intros Hv. val_inv Hv. subst v.
  apply TaskProofs.validatePolicy_Val in Hv0 as [-> _]. split; [done|].
  apply fails_None in Hc. unfold Lease.ValidateRequestedTTL in Hc. chain_inv Hc. bools. lia.
Qed.

Lemma validateActiveLeaseIndexes_Val session agentCount deviceCount :
  agentSession context = Some session →
  validateActiveLeaseIndexes context = Val (agentCount, deviceCount) →
  globalIndexValid (state context) = true ∧
  agentCount = length (ids_at (activeLeasesByAgent (state context)) (AgentSession.ID session)) ∧
  deviceCount = length (ids_at (activeLeasesByDevice (state context)) (Device.ID (device context))).
Proof.
  unfold validateActiveLeaseIndexes. intros -> Hv. val_inv Hv. simplify_eq.
  by apply negb_false_iff in Hc2.
Qed.

Lemma acquired_accepts o :
  reduceLeaseAcquired context = Val o →
  ∃ session next, wrote next o ∧ Lease.Validate next = None ∧
    agentSession context = Some session ∧
    leases (state context) !! proposalID context = None ∧
    Lease.ID next = proposalID context ∧
    Lease.HolderDeviceID next = Device.ID (device context) ∧
    Lease.HolderAgentSessionID next = AgentSession.ID session ∧
    Lease.EntityVersion next = 1%N ∧ isActive next = true ∧
    (∀ key row, leases (state context) !! key = Some row → isActive row = true →
       Lease.ActiveLeasesIntersect next row = inr false) ∧
    (let values := Policy.PolicyValues (sessionPolicy (state context)) in
     (Policy.LeaseMinTTLSeconds values ≤ Lease.TTLSeconds next
        ≤ Policy.LeaseMaxTTLSeconds values)%Z ∧
     (Z.of_nat (length (ids_at (activeLeasesByAgent (state context)) (AgentSession.ID session)))
        < Policy.AgentLeaseLimit values)%Z ∧
     (Z.of_nat (length (ids_at (activeLeasesByDevice (state context)) (Device.ID (device context))))
        < Policy.DeviceLeaseLimit values)%Z).
Proof.
  unfold reduceLeaseAcquired. intros Hr. val_inv Hr.
  apply acceptLease_Val in Hr as [Hw Hval].
  apply validateLeaseTTL_Val in Hv5 as [-> Httl].
  destruct (validateActiveLeaseIndexes_Val _ _ _ Hx0 Hv7) as (Hg & -> & ->).
  apply Z.leb_gt in Hc0, Hc1.
  subst v7. assert (Hf : ∃ patterns, l = Lease.with_patterns
    (Lease.mkFields (proposalID context) (Device.ID (device context)) (AgentSession.ID s)
       (Lease.Scope_of v0) v2 v1 Lease.StatusActive Lease.ReleaseReasonAbsent 1) patterns).
  { unfold Lease.New in Hx1. repeat case_match; simplify_eq; eauto. }
  destruct Hf as [patterns ->].
  eexists _, _. split_and!; try done; [|apply Httl..].
  intros key row Hrow Hact.
  destruct (findConflict_false _ _ Hv8 key) as (row' & Hrow' & Hi); [|congruence].
  by eapply globalIndexValid_active.
Qed.

Lemma renewed_accepts o :
  reduceLeaseRenewed context = Val o →
  ∃ current ttl, loaded current ∧ isActive current = true ∧
    leaseHeldByOrigin context current = true ∧
    wrote (rewritten current ttl (Lease.LeaseStatus current) (Lease.LeaseReleaseReason current)) o ∧
    Lease.Validate (rewritten current ttl (Lease.LeaseStatus current)
      (Lease.LeaseReleaseReason current)) = None ∧
    (let values := Policy.PolicyValues (sessionPolicy (state context)) in
     Policy.LeaseMinTTLSeconds values ≤ ttl ≤ Policy.LeaseMaxTTLSeconds values)%Z.
Proof.
  unfold reduceLeaseRenewed. intros Hr. val_inv Hr.
  apply loadMutableLease_Val in Hv1. apply validateLeaseTTL_Val in Hv2 as [-> Httl].
  apply acceptLease_Val in Hr as [Hw Hval].
  apply leaseTransition_Val, Lease.lease_transition_iff in Hv3 as [_ [= Hst]].
  eexists _, _. split_and!; try done; [| |apply Httl..].
  - unfold isActive. by rewrite Hst.
  - by apply negb_false_iff.
Qed.

Lemma lease_released_accepts o :
  reduceLeaseReleased context = Val o →
  ∃ current reason, loaded current ∧ isActive current = true ∧
    wrote (rewritten current (Lease.TTLSeconds current) Lease.StatusReleased reason) o ∧
    Lease.Validate (rewritten current (Lease.TTLSeconds current) Lease.StatusReleased reason) = None ∧
    match reason with
    | Lease.ReleaseVoluntary =>
        proposalActor context = Event.ActorAgent ∧ leaseHeldByOrigin context current = true
    | Lease.ReleaseForced =>
        proposalActor context = Event.ActorHuman ∧
        (Device.DeviceRole (device context) = Device.RoleOwner ∨
         Lease.HolderDeviceID current = Device.ID (device context))
    | Lease.ReleaseExpired => proposalActor context = Event.ActorDaemon
    | _ => False
    end.
Proof.
  unfold reduceLeaseReleased. intros Hr. val_inv Hr.
  apply loadMutableLease_Val in Hv1. apply acceptLease_Val in Hr as [Hw Hval].
  apply leaseTransition_Val, Lease.lease_transition_iff in Hv3 as [_ Hv3].
  set (reason := Lease.ReleaseReason_of v0) in *.
  rewrite !andb_false_iff in Hc. rewrite !negb_false_iff, !bool_decide_eq_true in Hc.
  exists v1, reason. split_and!; try done.
  - unfold Lease.Lease_Lifecycle in Hv3. unfold isActive.
    destruct o0; injection Hv3 as Hst; try discriminate; by rewrite Hst.
  - destruct Hc as [[-> | ->]| ->]; simpl in Hv2; val_inv Hv2.
    + by apply negb_decide_false in Hc; apply negb_false_iff in Hc0.
    + apply negb_decide_false in Hc. split; [done|].
      rewrite andb_false_iff, !negb_decide_false in Hc0. done.
    + by apply negb_decide_false in Hc.
Qed.

(** ** Early exits are rejections *)

Lemma rejects_loadMutableLease : rejects context (loadMutableLease context).
Proof. unfold loadMutableLease. solve_rejects. Qed.
Lemma rejects_acceptLease next audit : rejects context (acceptLease context next audit).
Proof. unfold acceptLease. solve_rejects. Qed.
Lemma rejects_leaseTransition op from to : rejects context (leaseTransition context op from to).
Proof. unfold leaseTransition. solve_rejects. Qed.
Lemma rejects_validateLeaseTTL ttl : rejects context (validateLeaseTTL context ttl).
Proof. unfold validateLeaseTTL. solve_rejects. Qed.
Lemma rejects_validateActiveLeaseIndexes : rejects context (validateActiveLeaseIndexes context).
Proof. unfold validateActiveLeaseIndexes. solve_rejects. Qed.
Lemma rejects_findConflict candidate ids : rejects context (findConflict context candidate ids).
Proof. induction ids; simpl; solve_rejects. Qed.
Lemma rejects_associatedTask scope id : rejects context (associatedTask context scope id).
Proof. unfold associatedTask. solve_rejects. Qed.
Lemma rejects_scopeMembers scope payload : rejects context (scopeMembers context scope payload).
Proof. unfold scopeMembers. solve_rejects. Qed.

End Handlers.

#[export] Hint Resolve rejects_loadMutableLease rejects_acceptLease rejects_leaseTransition
  rejects_validateLeaseTTL rejects_validateActiveLeaseIndexes rejects_findConflict
  rejects_associatedTask rejects_scopeMembers : rejects.

Section Theorems.
Context `{NormLib, JCSLib, CryptoLib}.

Definition lease_handler (kind : Event.Kind) (context : reductionContext) : Reduction Outcome :=
  match kind with
  | Event.KindLeaseAcquired => reduceLeaseAcquired context
  | Event.KindLeaseRenewed => reduceLeaseRenewed context
  | Event.KindLeaseReleased => reduceLeaseReleased context
  | _ => Fail ErrKindNotImplemented
  end.

Lemma rejects_lease_handler kind context : rejects context (lease_handler kind context).
Proof.
  destruct kind; simpl; try apply rejects_Fail;
    [unfold reduceLeaseAcquired, findActiveLeaseConflict | unfold reduceLeaseRenewed
    | unfold reduceLeaseReleased].
  all: solve_rejects.
Qed.

Lemma lease_handler_accepted kind context o :
  run (lease_handler kind context) = inr o → Accepted o = true → lease_handler kind context = Val o.
Proof. by apply (accepted_Val context), rejects_lease_handler. Qed.

(** C36: An accepted lease.acquired grants an exclusive reservation: its lease
    is new, valid, active and held by the origin's device and session, and no
    task and no repository path is reserved both by it and by any active lease
    of the committed state. *)
Theorem lease_exclusive context o :
  run (lease_handler Event.KindLeaseAcquired context) = inr o → Accepted o = true →
  ∃ next session, Leases (OChanges o) = [next] ∧ agentSession context = Some session ∧
    Lease.Validate next = None ∧ isActive next = true ∧ Lease.ID next = proposalID context ∧
    leases (state context) !! Lease.ID next = None ∧
    Lease.HolderDeviceID next = Device.ID (device context) ∧
    Lease.HolderAgentSessionID next = AgentSession.ID session ∧
    ∀ key row, leases (state context) !! key = Some row → isActive row = true →
      ¬ ∃ r, reserves next r ∧ reserves row r.
Proof.
  intros Hr Ha. apply lease_handler_accepted in Hr; [|done].
  apply acquired_accepts in Hr as (session & next & Hw & Hv & Hs & Hnew & Hid & Hd & Hh & _ & Hact & Hx & _).
  destruct Hw as (_ & _ & ->). exists next, session. rewrite Hid. split_and!; try done.
  intros key row Hrow Hra Hex. specialize (Hx _ _ Hrow Hra).
  by apply (intersect_reserves _ _ _ Hx Hact Hra) in Hex.
Qed.

(** Lease limits and TTL: an accepted lease.acquired had, before it, fewer
    active leases of the session and of the device than the policy allows; an
    acquired or renewed lease's TTL lies within the policy's bounds. *)
Theorem lease_limits kind context o :
  run (lease_handler kind context) = inr o → Accepted o = true → kind ≠ Event.KindLeaseReleased →
  let st := state context in
  let values := Policy.PolicyValues (sessionPolicy st) in
  ∃ next, Leases (OChanges o) = [next] ∧
    (Policy.LeaseMinTTLSeconds values ≤ Lease.TTLSeconds next ≤ Policy.LeaseMaxTTLSeconds values)%Z ∧
    (kind = Event.KindLeaseAcquired → ∃ session, agentSession context = Some session ∧
       (Z.of_nat (length (ids_at (activeLeasesByAgent st) (AgentSession.ID session)))
          < Policy.AgentLeaseLimit values)%Z ∧
       (Z.of_nat (length (ids_at (activeLeasesByDevice st) (Device.ID (device context))))
          < Policy.DeviceLeaseLimit values)%Z).
Proof.
  intros Hr Ha Hk. apply lease_handler_accepted in Hr; [|done]. destruct kind; simpl in Hr; try done.
  - apply acquired_accepts in Hr as (session & next & (_ & _ & ->) & _ & Hs & _ & _ & _ & _ & _ & _ & _ & Ht & Hla & Hld).
    exists next. eauto 10.
  - apply renewed_accepts in Hr as (current & ttl & _ & _ & _ & (_ & _ & ->) & _ & Ht). by eexists.
Qed.

(** An accepted renewal or release replaces exactly one active lease, the
    one under the proposal's id at the version it expects, by its next version
    with the same holder, scope, task and patterns; a renewal comes from the
    holder and keeps it active, a release ends it with a reason its actor may
    give: voluntary from the holder, forced from a human on an owner's device
    or the holder's device, expired from the daemon. *)
Theorem lease_mutation_legal kind context o :
  run (lease_handler kind context) = inr o → Accepted o = true → kind ≠ Event.KindLeaseAcquired →
  ∃ current next, loaded context current ∧ wrote context next o ∧ Lease.Validate next = None ∧
    isActive current = true ∧
    Lease.EntityVersion next = (Lease.EntityVersion current + 1)%N ∧
    (Lease.ID next, Lease.HolderDeviceID next, Lease.HolderAgentSessionID next,
     Lease.LeaseScope next, Lease.TaskID next, Lease.pathPatterns next) =
    (Lease.ID current, Lease.HolderDeviceID current, Lease.HolderAgentSessionID current,
     Lease.LeaseScope current, Lease.TaskID current, Lease.pathPatterns current) ∧
    if bool_decide (kind = Event.KindLeaseRenewed)
    then isActive next = true ∧ leaseHeldByOrigin context current = true
    else Lease.LeaseStatus next = Lease.StatusReleased ∧
      match Lease.LeaseReleaseReason next with
      | Lease.ReleaseVoluntary =>
          proposalActor context = Event.ActorAgent ∧ leaseHeldByOrigin context current = true
      | Lease.ReleaseForced =>
          proposalActor context = Event.ActorHuman ∧
          (Device.DeviceRole (device context) = Device.RoleOwner ∨
           Lease.HolderDeviceID current = Device.ID (device context))
      | Lease.ReleaseExpired => proposalActor context = Event.ActorDaemon
      | _ => False
      end.
Proof.
  intros Hr Ha Hk. apply lease_handler_accepted in Hr; [|done]. destruct kind; simpl in Hr; try done.
  - apply renewed_accepts in Hr as (current & ttl & Hl & Hact & Hh & Hw & Hv & _).
    eexists current, _. split_and!; try done. apply TaskProofs.bump. by destruct Hl as (_ & _ & _ & _ & ?).
  - apply lease_released_accepts in Hr as (current & reason & Hl & Hact & Hw & Hv & Hm).
    eexists current, _. split_and!; try done. apply TaskProofs.bump. by destruct Hl as (_ & _ & _ & _ & ?).
Qed.

End Theorems.

(** ** Witnesses *)

Section Witnesses.
Import Fixtures.
#[local] Existing Instances norm crypto jcs.

Definition held := path_lease other_lease "src/a" true Lease.StatusActive Lease.ReleaseReasonAbsent.
Definition acquire_context := context (state_with [] [held] [] [other_lease])
  (Fixtures.proposal (agent_origin 8) Event.KindLeaseAcquired lease_id None
     "{'path_globs':['src/b/**'],'scope':'path','ttl_seconds':900}").
Definition acquire := lease_handler Event.KindLeaseAcquired acquire_context.
Definition release_context := context (state_with [] [held] [] [other_lease])
  (Fixtures.proposal (human_origin 4) Event.KindLeaseReleased other_lease (Some 1%N)
     "{'release_reason':'forced'}").
Definition release := lease_handler Event.KindLeaseReleased release_context.

Lemma lease_exclusive_witness :
  ∃ next, Leases (OChanges (outcome_of acquire)) = [next] ∧ ¬ ∃ r, reserves next r ∧ reserves held r.
Proof.
  destruct (lease_exclusive acquire_context (outcome_of acquire))
    as (next & _ & Hn & _ & _ & _ & _ & _ & _ & _ & Hx); [by vm_compute..|].
  exists next. split; [done|]. by apply (Hx other_lease).
Defined.

Lemma lease_limits_witness :
  ∃ next, Leases (OChanges (outcome_of acquire)) = [next] ∧ (30 ≤ Lease.TTLSeconds next ≤ 3600)%Z.
Proof.
  destruct (lease_limits Event.KindLeaseAcquired acquire_context (outcome_of acquire))
    as (next & Hn & Ht & _); [by vm_compute|by vm_compute|done|].
  exists next. split; [done|exact Ht].
Defined.

Lemma lease_mutation_legal_witness :
  ∃ current next, loaded release_context current ∧ wrote release_context next (outcome_of release) ∧
    Lease.LeaseStatus next = Lease.StatusReleased.
Proof.
  destruct (lease_mutation_legal Event.KindLeaseReleased release_context (outcome_of release))
    as (current & next & Hl & Hw & _ & _ & _ & _ & Hs & _); [by vm_compute|by vm_compute|done|].
  by exists current, next.
Defined.

End Witnesses.
End LeaseProofs.
