(* ===== verification/SessionProofs.v ===== *)
(** * The agent-session handlers: lifecycle and the cascade of an end

    An accepted agent.session.ended releases, in the same outcome, every claim
    and every active lease indexed under the session; the other two kinds
    change one session row along the lifecycle and nothing else. *)

From stdpp Require Import base gmap strings list sorting.
From Stdlib Require Import ZArith NArith Lia.
From S2P Require Import Prelude.
From S2P Require Import GoLib.
From S2P Require Import GoJson.
From S2P Require Import CodecLayer.
From S2P Require Import DomainValues.
From S2P Require Import TaskEntity.
From S2P Require Import AgentSessionEntity.
From S2P Require Import DeviceEntity.
From S2P Require Import PolicyEntity.
From S2P Require Import EventModel.
From S2P Require Import EventWire.
From S2P Require Import ReducerState.
From S2P Require Import Preflight.
From S2P Require Import ReducerLogic.
From S2P Require Import TaskReducers.
From S2P Require Import Fixtures.
From S2P Require Import LeaseEntity.
From S2P Require Import StateRefs.
From S2P Require Import LeaseReducers.
From S2P Require Import SessionReducers.
From S2P Require Import TaskProofs.
From S2P Require Import LeaseProofs.

Open Scope reducer_scope.

Module SessionProofs.

Import Reducer Preflight StateRefs SessionReducers Logic.

Section Handlers.
Context `{NormLib, JCSLib, CryptoLib}.
Context (context : reductionContext).

(** ** The cascade *)

(** A claim the cascade releases: the task goes back to the pool. *)
Definition claim_released (id : string) (next : Task.Task) : Prop :=
  ∃ row, tasks (state context) !! id = Some row ∧
    next = TaskReducers.released row EmptyString Task.ReleaseSessionEnd (proposalTime context) ∧
    Task.ValidateTransition Task.OperationSessionEnded (Task.TaskState row) Task.StateReady = None ∧
    Task.EntityVersion row ≠ Domain.MaxSafeInteger.

Definition lease_released (id : string) (next : Lease.Lease) : Prop :=
  ∃ row, leases (state context) !! id = Some row ∧
    next = LeaseReducers.rewritten row (Lease.TTLSeconds row) Lease.StatusReleased
             Lease.ReleaseSessionEnded ∧
    Lease.ValidateTransition Lease.OperationSessionEnded (Lease.Lease_Lifecycle row)
      (Lease.Lease_Lifecycle next) = None ∧
    Lease.EntityVersion row ≠ Domain.MaxSafeInteger.

Lemma releaseClaims_Val ids rows : releaseClaims context ids = Val rows → Forall2 claim_released ids rows.
Proof.
  revert rows. induction ids as [|i r IH]; simpl; intros rows Hr; [injection Hr as <-; constructor|].
  destruct (tasks (state context) !! i) as [row|] eqn:Hrow; [|done]. val_inv Hr. subst rows.
  constructor; [|by apply IH]. exists row. apply fails_None in Hc0. bools. done.
Qed.

Lemma releaseLeases_Val ids rows : releaseLeases context ids = Val rows → Forall2 lease_released ids rows.
Proof.
  revert rows. induction ids as [|i r IH]; simpl; intros rows Hr; [injection Hr as <-; constructor|].
  destruct (leases (state context) !! i) as [row|] eqn:Hrow; [|done]. val_inv Hr. subst rows.
  constructor; [|by apply IH]. exists row. apply fails_None in Hc0. bools. done.
Qed.

(** ** What accepted proposals did *)

Definition wrote (next : AgentSession.Session) (tasks : list Task.Task) (leases : list Lease.Lease)
    (o : Outcome) : Prop :=
  OStatus o = StatusAccepted ∧ OCode o = CodeAccepted ∧
  OChanges o =
    mkChanges false [scope context] [] tasks [] [] [] leases [] [] [] [next] [] [] [] [] [] [].

Definition loaded (current : AgentSession.Session) : Prop :=
  agentSessions (state context) !! proposalID context = Some current ∧
  AgentSession.ID current = proposalID context ∧ AgentSession.Validate current = None ∧
  Event.ExpectedEntityVersion (proposal context) = Some (AgentSession.EntityVersion current) ∧
  (AgentSession.EntityVersion current < Domain.MaxSafeInteger)%N.

Lemma loadMutableAgentSession_Val current :
  loadMutableAgentSession context = Val current → loaded current.
Proof.
  unfold loadMutableAgentSession. intros Hl.
  destruct (agentSessions (state context) !! proposalID context) as [row|] eqn:Hrow; [|done].
  val_inv Hl. subst row. apply expectVersion_Val in Hv as [Hv Hmax]. bools.
  apply fails_None in Hc0. unfold loaded. split_and!; try done.
  apply AgentSession.session_valid_inv in Hc0 as (_ & _ & _ & Hver). lia.
Qed.

Lemma acceptAgentSession_Val next tasks leases o :
  acceptAgentSession context next tasks leases = Val o →
  wrote next tasks leases o ∧ AgentSession.Validate next = None ∧
  Forall (λ t, Task.Validate t = None) tasks ∧ Forall (λ l, Lease.Validate l = None) leases.
Proof.
  unfold acceptAgentSession. intros Ha. val_inv Ha. subst o. apply fails_None in Hc.
  assert (Hall : ∀ {A} (validate : A → bool) l, existsb validate l = false →
                   Forall (λ x, validate x = false) l).
  { intros A validate l. induction l as [|x r IH]; simpl; [constructor|].
    intros [Hx Hr]%orb_false_iff. constructor; auto. }
  split_and!; try done; [apply Hall in Hc0|apply Hall in Hc1];
    (eapply Forall_impl; [eassumption|]; intros x Hx; by apply fails_None in Hx).
Qed.

Lemma sessionTransition_Val op from to u :
  sessionTransition context op from to = Val u → AgentSession.ValidateTransition op from to = None.
Proof. unfold sessionTransition. intros Ht. val_inv Ht. by apply fails_None. Qed.

Lemma ended_accepts o :
  reduceAgentSessionEnded context = Val o →
  ∃ current reason op claims leases, loaded current ∧
    wrote (with_lifecycle current (AgentSession.ended reason)
             (u64_succ (AgentSession.EntityVersion current))) claims leases o ∧
    AgentSession.ValidateTransition op (AgentSession.Session_Lifecycle current)
      (AgentSession.ended reason) = None ∧
    Forall (λ t, Task.Validate t = None) claims ∧ Forall (λ l, Lease.Validate l = None) leases ∧
    Forall2 claim_released (ids_at (claimsByAgent (state context)) (AgentSession.ID current)) claims ∧
    Forall2 lease_released (ids_at (activeLeasesByAgent (state context)) (AgentSession.ID current))
      leases ∧
    LeaseReducers.globalIndexValid (state context) = true ∧
    match proposalActor context with
    | Event.ActorAgent => reason = AgentSession.EndReasonClean ∧ boundToOrigin context current = true
    | Event.ActorDaemon =>
        reason ≠ AgentSession.EndReasonClean ∧
        Device.ID (device context) = AgentSession.DeviceID current
    | _ => False
    end.
Proof.
  unfold reduceAgentSessionEnded. intros Hr. val_inv Hr.
  apply loadMutableAgentSession_Val in Hv1. apply sessionTransition_Val in Hv3.
  apply acceptAgentSession_Val in Hr as (Hw & _ & Ht & Hl).
  unfold buildSessionEndCascade in Hv4. val_inv Hv4. simplify_eq.
  apply releaseClaims_Val in Hv5. apply releaseLeases_Val in Hv6. apply negb_false_iff in Hc6.
  eexists _, _, _, _, _. split_and!; try done.
  destruct (proposalActor context); try done; val_inv Hv2.
  - apply negb_decide_false in Hc7. by apply negb_false_iff in Hc8.
  - apply decide_false in Hc7. by apply negb_decide_false in Hc8.
Qed.

Lemma session_state_changed_accepts o :
  reduceAgentSessionStateChanged context = Val o →
  ∃ current lifecycle op, loaded current ∧
    wrote (with_lifecycle current lifecycle (u64_succ (AgentSession.EntityVersion current))) [] [] o ∧
    AgentSession.ValidateTransition op (AgentSession.Session_Lifecycle current) lifecycle = None ∧
    match proposalActor context with
    | Event.ActorAgent => op = AgentSession.OperationAgentStatusChange ∧ boundToOrigin context current = true
    | Event.ActorDaemon =>
        (op = AgentSession.OperationDaemonDisconnect ∨ op = AgentSession.OperationDaemonResume) ∧
        Device.ID (device context) = AgentSession.DeviceID current
    | _ => False
    end.
Proof.
  unfold reduceAgentSessionStateChanged. intros Hr. val_inv Hr.
  apply loadMutableAgentSession_Val in Hv1. apply sessionTransition_Val in Hv3.
  apply acceptAgentSession_Val in Hr as (Hw & _ & _ & _).
  eexists _, _, _. split_and!; try done.
  destruct (proposalActor context); try done; val_inv Hv2; simplify_eq.
  - by apply negb_false_iff in Hc0.
  - apply negb_decide_false in Hc0. split; [|done]. case_bool_decide; simplify_eq; auto.
Qed.

Lemma started_accepts o :
  reduceAgentSessionStarted context = Val o →
  ∃ next active, agentSessions (state context) !! proposalID context = None ∧
    wrote next [] [] o ∧ AgentSession.Validate next = None ∧
    AgentSession.ID next = proposalID context ∧
    AgentSession.DeviceID next = Device.ID (device context) ∧
    AgentSession.SessionState next = AgentSession.StateStarting ∧
    AgentSession.EntityVersion next = 1%N ∧
    validateActiveAgentSessionCount context = Val active ∧
    (Z.of_nat active <
       Policy.MaxActiveAgentSessions_ (Policy.PolicyValues (sessionPolicy (state context))))%Z.
Proof.
  unfold reduceAgentSessionStarted. intros Hr. val_inv Hr.
  apply acceptAgentSession_Val in Hr as (Hw & Hval & _ & _).
  apply TaskProofs.validatePolicy_Val in Hv2 as [-> _]. apply Z.leb_gt in Hc0.
  eexists _, _. split_and!; done.
Qed.

(** ** Early exits are rejections *)

Lemma rejects_loadMutableAgentSession : rejects context (loadMutableAgentSession context).
Proof. unfold loadMutableAgentSession. solve_rejects. Qed.
Lemma rejects_validateActiveAgentSessionCount :
  rejects context (validateActiveAgentSessionCount context).
Proof. unfold validateActiveAgentSessionCount. solve_rejects. Qed.
Lemma rejects_acceptAgentSession next tasks leases :
  rejects context (acceptAgentSession context next tasks leases).
Proof. unfold acceptAgentSession. solve_rejects. Qed.
Lemma rejects_sessionTransition op from to : rejects context (sessionTransition context op from to).
Proof. unfold sessionTransition. solve_rejects. Qed.
Lemma rejects_releaseClaims ids : rejects context (releaseClaims context ids).
Proof. induction ids; simpl; solve_rejects. Qed.
Lemma rejects_releaseLeases ids : rejects context (releaseLeases context ids).
Proof. induction ids; simpl; solve_rejects. Qed.
Lemma rejects_buildSessionEndCascade current :
  rejects context (buildSessionEndCascade context current).
Proof.
  pose proof rejects_releaseClaims. pose proof rejects_releaseLeases.
  unfold buildSessionEndCascade. solve_rejects.
Qed.

End Handlers.

#[export] Hint Resolve rejects_loadMutableAgentSession rejects_validateActiveAgentSessionCount
  rejects_acceptAgentSession rejects_sessionTransition rejects_buildSessionEndCascade : rejects.

Section Theorems.
Context `{NormLib, JCSLib, CryptoLib}.

Definition session_handler (kind : Event.Kind) (context : reductionContext) : Reduction Outcome :=
  match kind with
  | Event.KindAgentSessionStarted => reduceAgentSessionStarted context
  | Event.KindAgentSessionStateChanged => reduceAgentSessionStateChanged context
  | Event.KindAgentSessionEnded => reduceAgentSessionEnded context
  | _ => Fail ErrKindNotImplemented
  end.

Lemma rejects_session_handler kind context : rejects context (session_handler kind context).
Proof.
  destruct kind; simpl; try apply rejects_Fail;
    [unfold reduceAgentSessionStarted | unfold reduceAgentSessionStateChanged
    | unfold reduceAgentSessionEnded].
  all: solve_rejects.
Qed.

Lemma session_handler_accepted kind context o :
  run (session_handler kind context) = inr o → Accepted o = true →
  session_handler kind context = Val o.
Proof. by apply (accepted_Val context), rejects_session_handler. Qed.

(** C39: Ending a session releases everything it holds in the same outcome: the
    tasks written are exactly the claims indexed under the session, in order,
    each returned to the pool (ready, unowned, next version, reason
    session_ended), and the leases written are exactly the active leases
    indexed under it, each released with reason session_ended at its next
    version; all the rows are valid. *)
Theorem session_end_releases_all context o :
  run (session_handler Event.KindAgentSessionEnded context) = inr o → Accepted o = true →
  let st := state context in
  ∃ current next, AgentSessions (OChanges o) = [next] ∧ loaded context current ∧
    AgentSession.SessionState next = AgentSession.StateEnded ∧
    AgentSession.ID next = AgentSession.ID current ∧
    AgentSession.EntityVersion next = (AgentSession.EntityVersion current + 1)%N ∧
    Forall2 (λ id t, ∃ row, tasks st !! id = Some row ∧ Task.Validate t = None ∧
        Task.ID t = Task.ID row ∧ Task.TaskState t = Task.StateReady ∧
        Task.OwnerDeviceID t = EmptyString ∧ Task.OwnerAgentSessionID t = EmptyString ∧
        Task.LastReleaseReason t = Task.ReleaseSessionEnd ∧
        Task.EntityVersion t = u64_succ (Task.EntityVersion row))
      (ids_at (claimsByAgent st) (AgentSession.ID current)) (Tasks (OChanges o)) ∧
    Forall2 (λ id l, ∃ row, leases st !! id = Some row ∧ Lease.Validate l = None ∧
        Lease.ID l = Lease.ID row ∧ Lease.LeaseStatus l = Lease.StatusReleased ∧
        Lease.LeaseReleaseReason l = Lease.ReleaseSessionEnded ∧
        Lease.EntityVersion l = u64_succ (Lease.EntityVersion row))
      (ids_at (activeLeasesByAgent st) (AgentSession.ID current)) (Leases (OChanges o)).
Proof.
  intros Hr Ha. apply session_handler_accepted in Hr; [|done].
  apply ended_accepts in Hr as (current & reason & op & claims & ls & Hl & Hw & Ht & Hvt & Hvl & Hct & Hcl & _ & _).
  destruct Hw as (_ & _ & ->). eexists current, _. split_and!; try done.
  - apply TaskProofs.bump. by destruct Hl as (_ & _ & _ & _ & ?).
  - simpl. clear -Hvt Hct. induction Hct as [|i t ids ts (row & Hrow & -> & _) _ IH]; constructor.
    + exists row. apply Forall_cons in Hvt as [Hvt _]. done.
    + apply IH. by apply Forall_cons in Hvt as [_ ?].
  - simpl. clear -Hvl Hcl. induction Hcl as [|i t ids ts (row & Hrow & -> & _) _ IH]; constructor.
    + exists row. apply Forall_cons in Hvl as [Hvl _]. done.
    + apply IH. by apply Forall_cons in Hvl as [_ ?].
Qed.

(** Session rows follow the lifecycle: an accepted start creates a fresh,
    valid row in state starting at version one while fewer sessions are active
    than the policy allows; an accepted state change or end replaces the row
    the proposal expects by its next version along a legal transition, keeps
    every other field, and comes from the session itself or from the daemon
    of its device. *)
Theorem session_lifecycle kind context o :
  run (session_handler kind context) = inr o → Accepted o = true →
  ∃ next, AgentSessions (OChanges o) = [next] ∧
    if bool_decide (kind = Event.KindAgentSessionStarted) then
      agentSessions (state context) !! proposalID context = None ∧
      AgentSession.Validate next = None ∧ AgentSession.ID next = proposalID context ∧
      AgentSession.DeviceID next = Device.ID (device context) ∧
      AgentSession.SessionState next = AgentSession.StateStarting ∧
      AgentSession.EntityVersion next = 1%N ∧
      (activeAgentSessionCount (state context) <
         Policy.MaxActiveAgentSessions_ (Policy.PolicyValues (sessionPolicy (state context))))%Z
    else ∃ current op lifecycle, loaded context current ∧
      next = with_lifecycle current lifecycle (AgentSession.EntityVersion current + 1)%N ∧
      AgentSession.ValidateTransition op (AgentSession.Session_Lifecycle current) lifecycle = None ∧
      (proposalActor context = Event.ActorAgent ∧ boundToOrigin context current = true ∨
       proposalActor context = Event.ActorDaemon ∧
       Device.ID (device context) = AgentSession.DeviceID current).
Proof.
  intros Hr Ha. apply session_handler_accepted in Hr; [|done]. destruct kind; simpl in Hr; try done.
  - apply started_accepts in Hr as (next & active & Hn & (_ & _ & ->) & Hv & Hid & Hd & Hs & Hver & Hact & Hlim).
    exists next. split; [done|]. simpl. split_and!; try done.
    unfold validateActiveAgentSessionCount in Hact. val_inv Hact. subst active.
    apply negb_false_iff, Z.eqb_eq in Hc1. lia.
  - apply session_state_changed_accepts in Hr as (current & lifecycle & op & Hl & (_ & _ & ->) & Ht & Hm).
    eexists. split; [done|]. exists current, op, lifecycle. split_and!; try done.
    + f_equal. apply TaskProofs.bump. by destruct Hl as (_ & _ & _ & _ & ?).
    + destruct (proposalActor context); naive_solver.
  - apply ended_accepts in Hr as (current & reason & op & claims & ls & Hl & (_ & _ & ->) & Ht & _ & _ & _ & _ & _ & Hm).
    eexists. split; [done|]. exists current, op, (AgentSession.ended reason). split_and!; try done.
    + f_equal. apply TaskProofs.bump. by destruct Hl as (_ & _ & _ & _ & ?).
    + destruct (proposalActor context); naive_solver.
Qed.

End Theorems.

(** ** Witnesses *)

Section Witnesses.
Import Fixtures.
#[local] Existing Instances norm crypto jcs.

Definition working := owned_task task_id Task.StateInProgress.
Definition end_context := context
  (state_with [working] [LeaseProofs.held] [task_id] [other_lease])
  (Fixtures.proposal (agent_origin 8) Event.KindAgentSessionEnded agent_id (Some 2%N)
     "{'end_reason':'clean'}").
Definition session_end := session_handler Event.KindAgentSessionEnded end_context.

Lemma session_end_releases_all_witness :
  length (Tasks (OChanges (outcome_of session_end))) = 1 ∧
  length (Leases (OChanges (outcome_of session_end))) = 1.
Proof.
  destruct (session_end_releases_all end_context (outcome_of session_end))
    as (current & next & _ & (Hl & _) & _ & _ & _ & Ht & Hx); [by vm_compute..|].
  vm_compute in Hl. injection Hl as <-.
  apply Forall2_length in Ht, Hx. rewrite <-Ht, <-Hx. clear. split; vm_compute; reflexivity.
Defined.

Lemma session_lifecycle_witness :
  ∃ next, AgentSessions (OChanges (outcome_of session_end)) = [next].
Proof.
  destruct (session_lifecycle Event.KindAgentSessionEnded end_context (outcome_of session_end))
    as (next & Hn & _); [by vm_compute..|].
  by exists next.
Defined.

End Witnesses.
End SessionProofs.
