(* ===== verification/EntityProofs.v ===== *)
(** * Histories of the domain entities

    The transition validators of the domain packages as step relations, and
    what holds along every sequence of steps; the semantics of path patterns
    and of the bounded dependency walk; the encodings that signatures rest on. *)

From stdpp Require Import base gmap strings list sorting relations.
From Stdlib Require Import ZArith NArith Lia.
From S2P Require Import Prelude.
From S2P Require Import GoLib.
From S2P Require Import GoJson.
From S2P Require Import CodecLayer.
From S2P Require Import DomainValues.
From S2P Require Import TaskEntity.
From S2P Require Import LeaseEntity.
From S2P Require Import AgentSessionEntity.
From S2P Require Import VoterSetEntity.
From S2P Require Import DeviceEntity.
From S2P Require Import PolicyEntity.
From S2P Require Import ConflictEntity.
From S2P Require Import PublicationEntity.
From S2P Require Import CredentialEntity.
From S2P Require Import EventModel.
From S2P Require Import Fixtures.

Module EntityProofs.

(** A relation that keeps [P] keeps it along every sequence of steps. *)
Lemma rtc_keeps {A} (R : relation A) (P : A → A → Prop) :
  (∀ x, P x x) → (∀ x y z, R x y → P y z → P x z) → ∀ x y, rtc R x y → P x y.
Proof. intros Hrefl Hstep x y. induction 1; eauto. Qed.

Section Histories.
Context `{NormLib, CryptoLib}.

(** ** Publications *)

Definition publication_step (a b : Publication.Publication) : Prop :=
  ∃ op, op ≠ Publication.OperationRecoveryWithdraw ∧ Publication.ValidateTransition op a b = None.

(** How many steps are left at most. *)
Definition publication_rank (state : Publication.State) : nat :=
  match state with Publication.StateProposed => 2 | Publication.StateApproved => 1 | _ => 0 end.

Lemma legalEdges_rank op from to :
  (from, to) ∈ Publication.legalEdges op → publication_rank to < publication_rank from.
Proof. intros He. destruct op; simpl in He; set_unfold in He; naive_solver lia. Qed.

(** Along every sequence of [n] review, withdraw and apply transitions a
    publication keeps its metadata, its version grows by exactly [n], at most
    two steps are possible from a proposal and none from a terminal state; a
    row that ends applied carries an approving review. *)
Theorem publication_history n a b :
  nsteps publication_step n a b →
  Publication.Meta b = Publication.Meta a ∧
  Publication.EntityVersion b = (Publication.EntityVersion a + N.of_nat n)%N ∧
  n + publication_rank (Publication.PState b) ≤ publication_rank (Publication.PState a) ∧
  (0 < n → Publication.PState b = Publication.StateApplied →
   Publication.Verdict b = Publication.ReviewVerdictApprove ∧
   Domain.DeviceID_Valid (Publication.ReviewerDeviceID b) = true).
Proof.
  intros Hn. induction Hn as [x|n x y z (op & Hop & Ht) Hn IH].
  { split_and!; try done; lia. }
  destruct IH as (Hm & Hv & Hr & Ha).
  pose proof (Publication.publication_transition_inv _ _ _ Ht) as (_ & Hvalid & Hmeta & He & Hver & _).
  apply legalEdges_rank in He. specialize (Hver Hop).
  split_and!; [congruence|lia|lia|]. intros _ Hz.
  destruct n as [|n]; [|by apply Ha; [lia|]].
  inversion Hn; subst. apply Publication.Validate_applied in Hz; [|done]. naive_solver.
Qed.

(** ** Conflicts *)

Definition conflict_step (a b : Conflict.Conflict) : Prop :=
  ∃ op, Conflict.ValidateTransition op (Some a) b = None.

(** A recorded conflict keeps its detection for ever and is resolved at
    most once: whatever transitions follow, the row is unchanged or has gone
    from unresolved to resolved with the next version, and a resolved row never
    changes again. *)
Theorem conflict_history a b :
  rtc conflict_step a b →
  Conflict.detectionView b = Conflict.detectionView a ∧
  (b = a ∨
   Conflict.CStatus a = Conflict.StatusUnresolved ∧ Conflict.CStatus b = Conflict.StatusResolved ∧
   Conflict.EntityVersion b = (Conflict.EntityVersion a + 1)%N).
Proof.
  revert a b. apply rtc_keeps; [by auto|].
  intros x y z (op & Ht) (Hd & Hz). apply Conflict.conflict_transition_existing in Ht as [Hdx Hy].
  split; [congruence|]. destruct Hy as [->|(Hu & Hres & Hver)]; [done|].
  destruct Hz as [->|(Hu' & _)]; [by auto|]. congruence.
Qed.

(** ** Devices *)

Definition device_step (a b : Device.Device) : Prop :=
  ∃ op, Device.ValidateTransition op (Some a) b = None.

(** A member row is bound to its key for ever: along every sequence of
    membership transitions the id and the identity key stay the same, the id is
    the one derived from the key, and a revoked member is never active again. *)
Theorem device_history a b :
  rtc device_step a b → Device.Validate a = None →
  Device.ID b = Device.ID a ∧ Device.IdentityPublicKey b = Device.IdentityPublicKey a ∧
  Device.DeriveID (Device.IdentityPublicKey b) = inr (Device.ID b) ∧
  (Device.DeviceStatus a = Device.StatusRevoked → Device.DeviceStatus b = Device.StatusRevoked).
Proof.
  intros Hs Ha. apply Device.device_valid_inv in Ha as (_ & Hid & _).
  assert (Hk : Device.ID b = Device.ID a ∧
    Device.IdentityPublicKey b = Device.IdentityPublicKey a ∧
    (Device.DeviceStatus a = Device.StatusRevoked → Device.DeviceStatus b = Device.StatusRevoked)).
  { clear Hid. revert a b Hs. apply rtc_keeps; [by auto|].
    intros x y z (op & Ht) (Hi & Hk & Hr).
    apply Device.device_transition_identity in Ht as (Hi' & Hk' & Hr' & _).
    split_and!; [congruence..|auto]. }
  destruct Hk as (-> & -> & Hr). done.
Qed.

(** ** Agent sessions *)

(** The agent-session lifecycle is well formed and final: every lifecycle
    reached from the absent one by steps validates, an ended one has no
    successor, and a session the daemon disconnects resumes exactly the
    connected state it left. *)
Theorem session_history l :
  rtc AgentSession.step AgentSession.zero_lifecycle l → l ≠ AgentSession.zero_lifecycle →
  AgentSession.Lifecycle_Validate l = None ∧
  (AgentSession.LState l = AgentSession.StateEnded → ∀ l', ¬ AgentSession.step l l') ∧
  (∀ gone back,
     AgentSession.ValidateTransition AgentSession.OperationDaemonDisconnect l gone = None →
     AgentSession.ValidateTransition AgentSession.OperationDaemonResume gone back = None →
     AgentSession.LState back = AgentSession.LState l).
Proof.
  intros Hr Hz. split; [|split].
  - by destruct (AgentSession.reachable_valid l Hr).
  - intros He l' (op & Ht). by eapply AgentSession.ended_final.
  - intros gone back H1 H2.
    apply AgentSession.session_transition_inv in H1 as (_ & H1 & _).
    apply AgentSession.session_transition_inv in H2 as (_ & H2 & _).
    simpl in H1, H2. bools. destruct H1 as [[[_ _] H1] _], H2 as [[[_ H2] _] _]. congruence.
Qed.

(** ** Policy *)

Definition policy_step (a b : Policy.Policy) : Prop :=
  Policy.ValidateTransition Policy.OperationChange a b = None.

(** The cluster apply level never decreases: along every sequence of [n]
    policy changes the session stays the same, the version grows by exactly
    [n], the minimum apply level is monotone and the limits stay within their
    bounds. *)
Theorem policy_history n a b :
  nsteps policy_step n a b →
  Policy.SessionID b = Policy.SessionID a ∧
  Policy.EntityVersion b = (Policy.EntityVersion a + N.of_nat n)%N ∧
  (Policy.ClusterMinApplyLevel (Policy.PolicyValues a)
     ≤ Policy.ClusterMinApplyLevel (Policy.PolicyValues b))%Z ∧
  ((0 < n)%nat →
   1 ≤ Policy.AgentClaimLimit (Policy.PolicyValues b)
     ≤ Policy.DeviceClaimLimit (Policy.PolicyValues b) ∧
   1 ≤ Policy.AgentLeaseLimit (Policy.PolicyValues b)
     ≤ Policy.DeviceLeaseLimit (Policy.PolicyValues b) ∧
   30 ≤ Policy.LeaseMinTTLSeconds (Policy.PolicyValues b)
     ≤ Policy.LeaseMaxTTLSeconds (Policy.PolicyValues b))%Z.
Proof.
  intros Hn. induction Hn as [x|n x y z Ht Hn IH]; [split_and!; (done || lia)|].
  destruct IH as (Hs & Hv & Hl & Hlim). unfold policy_step, Policy.ValidateTransition in Ht.
  cbv beta iota zeta in Ht. chain_inv Ht. unfold Policy.ValidateClusterMinApplyLevelChange in Ht.
  chain_inv Ht. destruct (Policy.Validate y) eqn:Hy; [done|].
  apply negb_decide_false in Hc2. apply orb_false_iff in Hc3 as [Hlt Hver].
  apply N.leb_gt in Hlt. apply negb_false_iff, N.eqb_eq in Hver.
  rewrite u64_succ_small in Hver by (unfold Domain.MaxSafeInteger, u64_modulus in *; lia).
  apply Z.ltb_ge in Hc6. split; [congruence|]. split; [lia|]. split; [lia|].
  intros _. destruct n as [|n]; [|apply Hlim; lia]. inversion Hn; subst.
  apply Policy.policy_valid_inv in Hy as [Hy _]. apply Policy.Values_Validate_limits in Hy. lia.
Qed.

(** ** Credential epochs *)

(** The epochs of a device in order of issue. *)
Definition epoch_chain (l : list CredentialAuthorization.Authorization) : Prop :=
  ∀ i a b, l !! i = Some a → l !! S i = Some b →
    CredentialAuthorization.ValidateTransition (Some a) b = None.

Lemma clamp_spacing a b :
  CredentialAuthorization.ValidateTransition (Some a) b = None →
  (CredentialAuthorization.time_of (CredentialAuthorization.NotBefore a) + 1680000000000
     ≤ CredentialAuthorization.time_of (CredentialAuthorization.NotBefore b))%Z.
Proof.
  intros (_ & Hc & _)%CredentialAuthorization.ValidateTransition_clamp. revert Hc.
  generalize (CredentialAuthorization.time_of (CredentialAuthorization.NotBefore a))
    (CredentialAuthorization.time_of (CredentialAuthorization.NotBefore b)).
  unfold CredentialAuthorization.seconds, CredentialAuthorization.ValiditySeconds,
    CredentialAuthorization.OverlapSeconds. intros. lia.
Qed.

Lemma epoch_spacing l i j a b :
  epoch_chain l → l !! i = Some a → l !! (i + S j) = Some b →
  (CredentialAuthorization.time_of (CredentialAuthorization.NotBefore a)
     + Z.of_nat (S j) * 1680000000000
     ≤ CredentialAuthorization.time_of (CredentialAuthorization.NotBefore b))%Z.
Proof.
  intros Hl Ha. revert b. induction j as [|j IH]; intros b Hb.
  - replace (i + 1) with (S i) in Hb by lia. apply clamp_spacing, (Hl _ _ _ Ha Hb).
  - destruct (lookup_lt_is_Some_2 l (i + S j)) as [m Hm].
    { apply lookup_lt_Some in Hb. lia. }
    replace (i + S (S j)) with (S (i + S j)) in Hb by lia.
    specialize (IH m Hm). pose proof (clamp_spacing m b (Hl _ _ _ Hm Hb)). lia.
Qed.

(** At any instant at most two credential epochs of a device are active:
    in a chain of renewals, two epochs active at the same time are neighbours,
    and they overlap only in the last 120 seconds of the earlier one. *)
Theorem credential_overlap l i j a b t :
  epoch_chain l → l !! i = Some a → l !! j = Some b → i < j →
  CredentialAuthorization.ActiveAt a t = true → CredentialAuthorization.ActiveAt b t = true →
  j = S i ∧
  (CredentialAuthorization.time_of (CredentialAuthorization.NotBefore a)
     + CredentialAuthorization.seconds CredentialAuthorization.ValiditySeconds
     - CredentialAuthorization.seconds CredentialAuthorization.OverlapSeconds ≤ t)%Z.
Proof.
  intros Hl Ha Hb Hij Hta Htb.
  apply CredentialAuthorization.ActiveAt_interval in Hta as [_ Hta], Htb as [_ Htb].
  replace j with (i + S (j - S i)) in Hb by lia.
  pose proof (epoch_spacing _ _ _ _ _ Hl Ha Hb) as Hs.
  unfold CredentialAuthorization.seconds, CredentialAuthorization.ValiditySeconds,
    CredentialAuthorization.OverlapSeconds in *. lia.
Qed.

(** ** Voter targets and the credential authority *)

(** Revoking a voter shrinks the voter target: the set after it has the
    next smaller odd size, is a subset of the set before it and one version
    later, and a set of one voter has no such successor; both sets are sorted,
    without duplicates and of size one, three or five. *)
Theorem voter_revocation before after :
  VoterSet.ValidateTransition VoterSet.OperationTargetVoterRevocation before after = None →
  (VoterSet.voterCount before, VoterSet.voterCount after) ∈ [(5, 3); (3, 1)]%N ∧
  (∀ d, d ∈ VoterSet.voterDeviceIDs after → d ∈ VoterSet.voterDeviceIDs before) ∧
  VoterSet.VoterSetVersion after = (VoterSet.VoterSetVersion before + 1)%N ∧
  VoterSet.SessionID after = VoterSet.SessionID before ∧
  NoDup (VoterSet.voterDeviceIDs after).
Proof.
  intros Ht. pose proof (VoterSet.voters_transition_valid _ _ _ Ht) as [Hb Ha].
  unfold VoterSet.ValidateTransition in Ht. cbv beta iota zeta in Ht. chain_inv Ht.
  apply VoterSet.versionAdvances_succ in Hc3 as [_ Hver].
  unfold VoterSet.validateSameSession in Hc2. chain_inv Hc2. apply negb_decide_false in Hc3.
  apply orb_false_iff in Hc4 as [Hcount Hsub].
  apply negb_false_iff, N.eqb_eq in Hcount. apply negb_false_iff in Hsub.
  apply VoterSet.voters_valid_inv in Ha as (_ & _ & Hca & _ & _ & Hnd).
  pose proof Hb as (_ & _ & Hcb & _)%VoterSet.voters_valid_inv.
  split_and!; try done.
  - rewrite Hcount in Hca |- *.
    destruct Hcb as [E|[E|E]]; rewrite E in Hca |- *; simpl in *; [lia|set_solver|set_solver].
  - intros d Hd. unfold VoterSet.targetContains in Hsub. rewrite forallb_forall in Hsub.
    apply VoterSet.Contains_elem; [done|]. apply Hsub. by apply list_elem_of_In.
Qed.

(** The credential authority moves forward by handoff: an activation keeps
    the session, strictly raises the voter-set version, is signed by a member
    of the authority it replaces and carries one activation proof for every
    voter of the new one. *)
Theorem authority_activation before after :
  CredentialAuthority.ValidateTransition CredentialAuthority.OperationActivate before after = None →
  CredentialAuthority.Validate after = None ∧
  CredentialAuthority.SessionID after = CredentialAuthority.SessionID before ∧
  (CredentialAuthority.VoterSetVersion before < CredentialAuthority.VoterSetVersion after)%N ∧
  CredentialAuthority.PriorAuthoritySigner after ∈ CredentialAuthority.VoterDeviceIDs before ∧
  length (CredentialAuthority.ActivationProofs after) =
    length (CredentialAuthority.VoterDeviceIDs after).
Proof.
  unfold CredentialAuthority.ValidateTransition. cbv beta iota zeta. intros Hv. chain_inv Hv.
  unfold CredentialAuthority.is_valid, CredentialAuthority.Contains in *. bools.
  destruct (CredentialAuthority.Validate after) eqn:Ha; [done|].
  split; [done|]. split; [done|]. split; [done|]. split.
  - destruct (_ || _) in Hc5; [done|]. by apply decide_true in Hc5.
  - unfold CredentialAuthority.Validate in Ha. chain_inv Ha. rewrite Hc3 in Ha. chain_inv Ha. bools.
    unfold llen in *. lia.
Qed.

End Histories.

(** ** Encodings *)

Section Encodings.
Import Codec.

(** A signature covers one meaning: two signed inputs are equal only for
    the same label and the same signed bytes, so a signature made under one
    label never verifies under another. *)
Theorem signed_input_unambiguous l1 l2 b1 b2 m :
  BuildSignedInput l1 b1 = inr m → BuildSignedInput l2 b2 = inr m → l1 = l2 ∧ b1 = b2.
Proof.
  unfold BuildSignedInput. intros H1 H2.
  destruct (SignatureLabel_Valid l1) eqn:V1, (SignatureLabel_Valid l2) eqn:V2; try done.
  simpl in H1, H2. repeat case_match; simplify_eq; (
  destruct (separated_inj (bytes_of (label_text l2)) (bytes_of (label_text l1)) b2 b1)
    as [Heq ->]; [by apply label_no_nul..|done|];
  split; [|done]; by apply label_text_inj).
Qed.


(** Unpadded base64url has one spelling per byte string: decoding yields
    [v] exactly for the text that encoding [v] prints. *)
Theorem base64url_roundtrip text v :
  Forall (λ b, b < 256)%N v → DecodeBase64URL text = inr v ↔ text = EncodeBase64URL v.
Proof. apply DecodeBase64URL_iff. Qed.
End Encodings.

(** ** Paths, patterns and dependencies *)

Section Patterns.
Context `{NormLib}.

(** Path containment is a tree order on valid paths: reflexive, transitive,
    antisymmetric, and the ancestors of a path are comparable. *)
Theorem path_containment_order p q r :
  (Domain.RepositoryPath_Contains p p = Domain.RepositoryPath_Valid p) ∧
  (Domain.RepositoryPath_Contains p q = true → Domain.RepositoryPath_Contains q r = true →
   Domain.RepositoryPath_Contains p r = true) ∧
  (Domain.RepositoryPath_Contains p q = true → Domain.RepositoryPath_Contains q p = true → p = q) ∧
  (Domain.RepositoryPath_Contains p r = true → Domain.RepositoryPath_Contains q r = true →
   Domain.RepositoryPath_Contains p q = true ∨ Domain.RepositoryPath_Contains q p = true).
Proof.
  split; [|split; [|split]].
  - destruct (Domain.RepositoryPath_Valid p) eqn:Hp; [by apply Domain.Contains_refl|].
    unfold Domain.RepositoryPath_Contains. by rewrite Hp.
  - apply Domain.Contains_trans.
  - apply Domain.Contains_antisym.
  - apply Domain.Contains_comparable.
Qed.

(** A path pattern is its text: parsing a text yields exactly the valid
    pattern that prints as it. *)
Theorem pattern_roundtrip text pattern :
  Lease.ParsePathPattern text = inr pattern ↔
  Lease.PathPattern_Valid pattern = true ∧ text = Lease.PathPattern_String pattern.
Proof.
  split.
  - intros Hp. by apply Lease.Parse_print in Hp as [<- Hv].
  - intros [Hv ->]. by apply Lease.Print_parse.
Qed.

(** Normalizing path patterns yields the valid patterns of the input texts
    sorted by text and without duplicates, between one and 32 of them, and
    normalizing the printed result changes nothing. *)
Theorem pattern_normalization raw result :
  Lease.NormalizePathPatterns raw = inr result →
  StronglySorted str_lt (Lease.PathPattern_String <$> result) ∧
  (∀ text, text ∈ Lease.PathPattern_String <$> result ↔ text ∈ raw) ∧
  Forall (λ p, Lease.PathPattern_Valid p = true) result ∧
  (1 ≤ llen result ≤ Lease.MaxPathPatterns)%N ∧
  ∀ again, Lease.NormalizePathPatterns (Lease.PathPattern_String <$> result) = inr again →
    again = result.
Proof.
  intros Hn. apply Lease.NormalizePathPatterns_spec in Hn as (Hs & Ht & Hv & Hl & Hm).
  unfold llen in *. split_and!; try done; [lia..|].
  intros again Ha. apply Lease.NormalizePathPatterns_spec in Ha as (Hs' & Ht' & Hv' & _ & _).
  assert (Heq : Lease.PathPattern_String <$> again = Lease.PathPattern_String <$> result).
  { apply (StronglySorted_unique_strong str_lt); [|done|done|].
    - intros x y _ _ Hxy Hyx. exfalso. eapply (irreflexivity str_lt x). by etrans.
    - apply NoDup_Permutation; [by apply sorted_lt_NoDup..|done]. }
  clear -Heq Hv Hv'. revert result Hv Heq.
  induction again as [|a l IH]; intros [|b r] Hv Heq; simplify_eq/=; [done|].
  apply Forall_cons in Hv as [Hb Hr], Hv' as [Ha Hl].
  f_equal; [|by apply IH]. apply Lease.Print_parse in Ha, Hb. congruence.
Qed.

(** C40: The bounded dependency walk terminates on every graph, cyclic or not,
    and decides acyclicity: from any frontier its passes end within the fuel, and
    more fuel gives the same answer; and it accepts a candidate list exactly when
    the subject id and the list are well formed and some set of at most 4096
    existing tasks contains the candidates, is closed under the retained
    dependencies and avoids the subject. *)
Theorem dependency_walk_decides {S} (lookup : S → string → S * option (list string)) graph
    subject candidate st :
  (∀ st x, (lookup st x).2 = graph x) →
  (∀ frontier, ∃ result, ∀ fuel, Task.walk_fuel ≤ fuel →
     Task.walk lookup subject fuel frontier st ∅ = Some result) ∧
  ((Task.ValidateDependencyGraph subject candidate (Some lookup) st).2 = None ↔
   Domain.UUIDv7_Valid subject = true ∧ Task.validateDependencyList subject candidate = None ∧
   ∃ closure, TaskDependency.closed_for graph subject closure ∧ subject ∉ closure ∧
     size closure ≤ 4096 ∧ ∀ x, x ∈ candidate → x ∈ closure).
Proof.
  intros Hview. split.
  - intros frontier. pose proof (TaskDependency.walk_terminates graph subject lookup Hview frontier st).
    destruct (Task.walk _ _ Task.walk_fuel _ _ _) as [result|] eqn:Hw; [|done]. exists result.
    intros fuel. by apply TaskDependency.walk_more.
  - by apply (TaskDependency.graph_spec graph).
Qed.

(** Label normalization is canonical: the result is strictly sorted, has
    exactly the labels of the input, at most 16 of them, each valid. *)
Theorem label_normalization labels result :
  Task.NormalizeLabels labels = inr result →
  StronglySorted str_lt result ∧ (∀ x, x ∈ result ↔ x ∈ labels) ∧
  (llen result ≤ Task.MaxLabels)%N ∧
  Forall (λ x, Task.validUTF8Bytes x 0 Task.MaxLabelBytes = true) result.
Proof. apply Task.NormalizeLabels_spec. Qed.

End Patterns.

(** The kind registry is a closed table: exactly the registered kinds have
    a specification, each one only one, with the kind's own text converting
    back to it. *)
Theorem kind_registry k :
  (k ∈ Event.registered_kinds ↔ is_Some (Event.LookupKind k)) ∧
  (k ∈ Event.registered_kinds → Event.Kind_of (Event.Kind_text k) = k) ∧
  (∀ spec, Event.LookupKind k = Some spec → Event.kind spec = k ∧
     ∀ spec', spec' ∈ Event.specifications → Event.kind spec' = k → spec' = spec).
Proof.
  split; [apply Event.LookupKind_registered|]. split; [apply Event.Kind_of_text|].
  intros spec Hs. apply Event.LookupKind_Some in Hs as [Hk Hin]. split; [done|].
  intros spec' Hin' Hk'.
  apply list_elem_of_lookup in Hin as [i Hi], Hin' as [j Hj].
  assert (i = j) as ->; [|congruence].
  apply (NoDup_lookup _ i j k Event.specifications_unique); rewrite list_lookup_fmap;
    [rewrite Hi|rewrite Hj]; simpl; congruence.
Qed.

(** ** Witnesses *)

Section Witnesses.
Import Fixtures.
#[local] Existing Instances norm crypto jcs.

Definition oid (b : N) : string := "sha1:" +:+ of_bytes (repeat b 40).
Definition voter (b : N) : string := "cc1" +:+ of_bytes (repeat b 64).

Definition metadata : Publication.Metadata :=
  Publication.mkMetadata lease_id event_id EmptyString EmptyString device_id agent_id
    (oid 97) (oid 98) (oid 99) [oid 97] ["src/a"] EmptyString [] root_id.
Definition published (state : Publication.State) (source : Publication.TerminalSource) (lineage : bool)
    (verdict : Publication.ReviewVerdict) (reviewer : string)
    (actor : Publication.ReviewActorType) (version : N) : Publication.Publication :=
  Publication.mkPublication metadata [] state source lineage verdict reviewer EmptyString actor None
    version.
Definition proposed := published Publication.StateProposed Publication.TerminalSourceAbsent false
  Publication.ReviewVerdictAbsent EmptyString Publication.ReviewActorAbsent 1.
Definition approved := published Publication.StateApproved Publication.TerminalSourceAbsent false
  Publication.ReviewVerdictApprove (voter 49) Publication.ReviewActorHuman 2.
Definition applied := published Publication.StateApplied Publication.TerminalSourceApply true
  Publication.ReviewVerdictApprove (voter 49) Publication.ReviewActorHuman 3.

Lemma publication_history_witness :
  Publication.Verdict applied = Publication.ReviewVerdictApprove.
Proof.
  refine (proj1 (proj2 (proj2 (proj2 (publication_history 2 proposed applied _))) _ _)); [|lia|done].
  econstructor; [|apply nsteps_once].
  - exists Publication.OperationReviewApprove. split; [done|]. instantiate (1 := approved). by vm_compute.
  - exists Publication.OperationApply. split; [done|]. by vm_compute.
Defined.

Definition detection : Conflict.Detection :=
  Conflict.mkDetection ("ccf1" +:+ of_bytes (repeat 97%N 64)) lease_id Conflict.MergeKindMerge
    EmptyString [] (oid 97) (oid 98) [].
Definition open_conflict := Conflict.mkConflict detection Conflict.StatusUnresolved
  Conflict.ResolutionKindAbsent EmptyString EmptyString EmptyString 1.
Definition closed_conflict := Conflict.mkConflict detection Conflict.StatusResolved
  Conflict.ResolutionKindForced EmptyString "resolved by hand" device_id 2.

Lemma conflict_history_witness : Conflict.detectionView closed_conflict = detection.
Proof.
  refine (proj1 (conflict_history open_conflict closed_conflict _)).
  apply rtc_once. exists Conflict.OperationForceResolve. by vm_compute.
Defined.

Definition revoked_member :=
  Device.mkDevice device_id Device.RoleOwner key "1.2.3" 1 Device.StatusRevoked 2.

Lemma device_history_witness : Device.IdentityPublicKey revoked_member = key.
Proof.
  refine (proj1 (proj2 (device_history member revoked_member _ _))); [|by vm_compute].
  apply rtc_once. exists Device.OperationRevocation. by vm_compute.
Defined.

Definition starting :=
  AgentSession.mkLifecycle AgentSession.StateStarting AgentSession.StateAbsent
    AgentSession.EndReasonAbsent.

Lemma session_history_witness : AgentSession.Lifecycle_Validate starting = None.
Proof.
  refine (proj1 (session_history starting _ _)); [|done].
  apply rtc_once. exists AgentSession.OperationCreate. by vm_compute.
Defined.

Definition raised_policy := Policy.mkPolicy session_id
  (Policy.mkValues 500 300 30 900 3600 8 32 64 256 20 256 8 32 2) 2.

Lemma policy_history_witness :
  (Policy.ClusterMinApplyLevel (Policy.PolicyValues policy)
     ≤ Policy.ClusterMinApplyLevel (Policy.PolicyValues raised_policy))%Z.
Proof.
  refine (proj1 (proj2 (proj2 (policy_history 1 policy raised_policy _)))).
  apply nsteps_once. by vm_compute.
Defined.

Definition epoch (n : N) (issuedAt notBefore : string) : CredentialAuthorization.Authorization :=
  CredentialAuthorization.mkAuthorization session_id device_id n key (digest key)
    CredentialAuthorization.RoleOwner issuedAt notBefore 1800 1
    [CredentialAuthorization.mkClockEndorsement device_id []] [] 1.
Definition first_epoch := epoch 1 "2026-01-02T03:00:00Z" "2026-01-02T03:00:00Z".
Definition second_epoch := epoch 2 "2026-01-02T03:26:00Z" "2026-01-02T03:28:00Z".

Lemma epoch_chain_pair a b :
  CredentialAuthorization.ValidateTransition (Some a) b = None → epoch_chain [a; b].
Proof. intros Ht [|[|i]] x y Hx Hy; simplify_eq/=; done. Qed.

Lemma credential_overlap_witness : 1 = 1.
Proof.
  refine (proj1 (credential_overlap [first_epoch; second_epoch] 0 1 first_epoch second_epoch
    (CredentialAuthorization.time_of "2026-01-02T03:29:00Z") _ _ _ _ _ _)).
  - apply epoch_chain_pair. by vm_compute.
  - done.
  - done.
  - lia.
  - by vm_compute.
  - by vm_compute.
Defined.

Definition three_voters := VoterSet.mkSet session_id 4 [voter 49; voter 50; voter 51].
Definition one_voter := VoterSet.mkSet session_id 5 [voter 50].

Lemma voter_revocation_witness : NoDup (VoterSet.voterDeviceIDs one_voter).
Proof.
  refine (proj2 (proj2 (proj2 (proj2 (voter_revocation three_voters one_voter _))))). by vm_compute.
Defined.

Definition genesis_authority := CredentialAuthority.mkAuthority session_id [voter 49] 1
  CredentialAuthority.ActivationGenesis EmptyString [] EmptyString None.
Definition next_authority := CredentialAuthority.mkAuthority session_id [voter 50] 2
  CredentialAuthority.ActivationHandoff event_id
  [CredentialAuthority.mkActivationProof (voter 50) [123; 125]%N] (voter 49) (Some [1%N]).

Lemma authority_activation_witness :
  CredentialAuthority.PriorAuthoritySigner next_authority ∈
    CredentialAuthority.VoterDeviceIDs genesis_authority.
Proof.
  refine (proj1 (proj2 (proj2 (proj2 (authority_activation genesis_authority next_authority _))))).
  by vm_compute.
Defined.

Lemma signed_input_unambiguous_witness : Codec.SignatureEventOrigin = Codec.SignatureEventOrigin.
Proof.
  refine (proj1 (signed_input_unambiguous Codec.SignatureEventOrigin Codec.SignatureEventOrigin
    [1; 2]%N [1; 2]%N _ _ _)).
  - by vm_compute.
  - by vm_compute.
Defined.

Lemma base64url_roundtrip_witness : Codec.DecodeBase64URL "AQID" = inr [1; 2; 3]%N.
Proof. refine (proj2 (base64url_roundtrip "AQID" [1; 2; 3]%N _) _); [repeat constructor|by vm_compute]. Defined.

Definition patterns : list Lease.PathPattern :=
  [Lease.mkPathPattern "src" true; Lease.mkPathPattern "src/a" false].

Lemma pattern_normalization_witness :
  StronglySorted str_lt (Lease.PathPattern_String <$> patterns).
Proof.
  refine (proj1 (pattern_normalization ["src/a"; "src/**"; "src/a"] patterns _)). by vm_compute.
Defined.

Lemma dependency_walk_decides_witness :
  (∃ result, ∀ fuel, Task.walk_fuel ≤ fuel →
     Task.walk (λ (st : ()) _, (st, Some [])) task_id fuel [other_task] () ∅ = Some result) ∧
  (Task.ValidateDependencyGraph task_id [] (Some (λ (st : ()) _, (st, Some []))) ()).2 = None.
Proof.
  destruct (dependency_walk_decides (λ (st : ()) _, (st, Some [])) (λ _, Some []) task_id [] ()) as [Hw Hg];
    [done|]. split; [apply Hw|by vm_compute].
Defined.

Lemma label_normalization_witness : StronglySorted str_lt ["bug"; "ui"].
Proof. refine (proj1 (label_normalization ["ui"; "bug"; "ui"] _ _)). by vm_compute. Defined.

End Witnesses.

End EntityProofs.
