(* ===== verification/DispatchProofs.v ===== *)
(** * Package internal/reducer: what every reduction does

    [Module DispatchProofs]: theorems about [Reduce] and the other entry
    points, whatever the kind: the shape of an outcome, the tables a kind may
    write, and when no outcome is returned. *)

From stdpp Require Import base gmap strings list sorting.
From Stdlib Require Import ZArith NArith Lia.
From S2P Require Import Prelude.
From S2P Require Import GoLib.
From S2P Require Import GoJson.
From S2P Require Import CodecLayer.
From S2P Require Import DomainValues.
From S2P Require Import EventModel.
From S2P Require Import EventWire.
From S2P Require Import ReducerState.
From S2P Require Import Preflight.
From S2P Require Import StateRefs.
From S2P Require Import ReducerLogic.
From S2P Require Import TaskReducers.
From S2P Require Import LeaseReducers.
From S2P Require Import PlanReducers.
From S2P Require Import PublicationReducers.
From S2P Require Import MembershipReducers.
From S2P Require Import CredentialReducers.
From S2P Require Import SessionReducers.
From S2P Require Import Dispatch.
From S2P Require Import Fixtures.
From S2P Require Import TaskProofs.
From S2P Require Import LeaseProofs.
From S2P Require Import SessionProofs.

Open Scope reducer_scope.

Module DispatchProofs.

Import Reducer Preflight Logic TaskProofs.TaskProofs LeaseProofs.LeaseProofs
  SessionProofs.SessionProofs AdmissionProofs Dispatch.Dispatch.
Import TaskReducers.TaskReducers LeaseReducers.LeaseReducers SessionReducers.SessionReducers.
Import PlanReducers.PlanReducers PlanReducers.PolicyReducers PlanReducers.AuditReducers.
Import PublicationReducers.PublicationReducers PublicationReducers.ConflictReducers.
Import MembershipReducers.MembershipReducers.
Import CredentialReducers.CredentialReducers CredentialReducers.ControlFileReducers
  CredentialReducers.CheckpointReducers.

(** ** The tables of a change set *)

Inductive Table :=
  | TAuditCounters | TTasks | TPlanRevisions | TPlanCurrent | TMemoryRecords | TLeases | TDevices
  | TVoterSets | TCredentialAuthorities | TAgentSessions | TCanonicalRefs
  | TCredentialAuthorizations | TPublications | TControlFileProposals | TMergeConflicts
  | TSessionPolicy.

#[global] Instance Table_eq_dec : EqDecision Table.
Proof. solve_decision. Defined.

Definition empty {A} (rows : list A) : bool := match rows with [] => true | _ :: _ => false end.

(** Whether a change set leaves a table alone. *)
Definition untouched (changes : Changes) (table : Table) : bool :=
  match table with
  | TAuditCounters => empty (AuditCounters changes)
  | TTasks => empty (Tasks changes)
  | TPlanRevisions => empty (PlanRevisions changes)
  | TPlanCurrent => empty (PlanCurrent changes)
  | TMemoryRecords => empty (MemoryRecords changes)
  | TLeases => empty (Leases changes)
  | TDevices => empty (Devices changes)
  | TVoterSets => empty (VoterSets changes)
  | TCredentialAuthorities => empty (CredentialAuthorities changes)
  | TAgentSessions => empty (AgentSessions changes)
  | TCanonicalRefs => empty (CanonicalRefs changes)
  | TCredentialAuthorizations => empty (CredentialAuthorizations changes)
  | TPublications => empty (Publications changes)
  | TControlFileProposals => empty (ControlFileProposals changes)
  | TMergeConflicts => empty (MergeConflicts changes)
  | TSessionPolicy => empty (SessionPolicy changes)
  end.

(** The tables the handler of a kind may write. *)
Definition footprint (kind : Event.Kind) : list Table :=
  match kind with
  | Event.KindTaskCreated | Event.KindTaskUpdated | Event.KindTaskStateChanged
  | Event.KindTaskClaimed | Event.KindTaskReleased | Event.KindTaskReassigned
  | Event.KindTaskCancelled => [TTasks]
  | Event.KindActivityRecorded | Event.KindConsensusCheckpoint | Event.KindUnknown _ => []
  | Event.KindLeaseAcquired | Event.KindLeaseRenewed | Event.KindLeaseReleased => [TLeases]
  | Event.KindAgentSessionStarted | Event.KindAgentSessionStateChanged => [TAgentSessions]
  | Event.KindAgentSessionEnded => [TAgentSessions; TTasks; TLeases]
  | Event.KindPlanRevisionProposed => [TPlanRevisions]
  | Event.KindPlanCurrentSelected => [TPlanCurrent]
  | Event.KindMemoryAppended => [TMemoryRecords]
  | Event.KindMembershipDeviceAdmitted => [TDevices; TAuditCounters]
  | Event.KindMembershipVersionReported | Event.KindMembershipRoleChanged
  | Event.KindMembershipOwnerRecovered => [TDevices]
  | Event.KindMembershipDeviceRevoked => [TDevices; TVoterSets]
  | Event.KindMembershipVoterSetChanged => [TVoterSets]
  | Event.KindMembershipVoterSetActivated => [TCredentialAuthorities]
  | Event.KindPolicyChanged => [TSessionPolicy]
  | Event.KindCredentialAuthorized => [TCredentialAuthorizations; TAuditCounters]
  | Event.KindControlFileChangeProposed => [TControlFileProposals]
  | Event.KindPublicationProposed | Event.KindPublicationReviewed
  | Event.KindPublicationWithdrawn => [TPublications]
  | Event.KindPublicationApplied => [TPublications; TCanonicalRefs]
  | Event.KindWorkspaceConflictDetected | Event.KindWorkspaceConflictResolved
  | Event.KindWorkspaceConflictForceResolved => [TMergeConflicts]
  | Event.KindAuditRecorded => [TAuditCounters]
  end.

Definition within (allowed : list Table) (changes : Changes) : Prop :=
  ∀ table, table ∉ allowed → untouched changes table = true.

(** ** The end of a handler *)

(** [ends context allowed m]: when [m] reaches its end, the outcome is
    accepted, consumes the origin's sequence and writes allowed tables only. *)
Definition ends (context : reductionContext) (allowed : list Table) (m : Reduction Outcome)
    : Prop :=
  ∀ o, m = Val o →
    OStatus o = StatusAccepted ∧ OCode o = CodeAccepted ∧ Alarm o = None ∧
    OriginScopes (OChanges o) = [scope context] ∧ within allowed (OChanges o).

Create HintDb ends.

Section Ends.
Context (context : reductionContext) (allowed : list Table).
Local Notation ends := (ends context allowed).

Lemma ends_Done o : ends (Done o).
Proof. by intros o'. Qed.
Lemma ends_Fail e : ends (Fail e).
Proof. by intros o'. Qed.
Lemma ends_invalid : ends invalidState.
Proof. by intros o'. Qed.
Lemma ends_bind {A} (m : Reduction A) k : (∀ a, ends (k a)) → ends (bind m k).
Proof. intros Hk o Ho. apply bind_Val in Ho as (a & _ & Ho). by apply (Hk a). Qed.
Lemma ends_if (c : bool) m n : ends m → ends n → ends (if c then m else n).
Proof. by destruct c. Qed.
Lemma ends_Val o :
  OStatus o = StatusAccepted → OCode o = CodeAccepted → Alarm o = None →
  OriginScopes (OChanges o) = [scope context] → within allowed (OChanges o) → ends (Val o).
Proof. intros ? ? ? ? ? o' [= <-]. done. Qed.
End Ends.

#[export] Hint Resolve ends_Done ends_Fail ends_invalid ends_bind ends_if : ends.

Ltac solve_within :=
  intros table Ht; destruct table; first [reflexivity | by exfalso; apply Ht; set_solver].

Ltac solve_ends :=
  repeat first
    [ apply ends_Done | apply ends_Fail | apply ends_invalid
    | apply ends_Val; [reflexivity|reflexivity|reflexivity|reflexivity|solve_within]
    | solve [eauto with ends]
    | apply ends_bind; intros ? | apply ends_if
    | case_match ].

Section Handlers.
Context `{NormLib, JCSLib, CryptoLib}.
Context (context : reductionContext).

(** ** The constructors of accepted outcomes *)

Lemma ends_acceptTask v audit : ends context [TTasks] (acceptTask context v audit).
Proof. unfold acceptTask. solve_ends. Qed.
Lemma ends_acceptLease v audit : ends context [TLeases] (acceptLease context v audit).
Proof. unfold acceptLease. solve_ends. Qed.
Lemma ends_acceptAgentSession v :
  ends context [TAgentSessions] (acceptAgentSession context v [] []).
Proof. unfold acceptAgentSession. solve_ends. Qed.
Lemma ends_acceptAgentSession_rows v tasks leases :
  ends context [TAgentSessions; TTasks; TLeases] (acceptAgentSession context v tasks leases).
Proof. unfold acceptAgentSession. solve_ends. Qed.
Lemma ends_acceptPublication v : ends context [TPublications] (acceptPublication context v None).
Proof. unfold acceptPublication. solve_ends. Qed.
Lemma ends_acceptPublication_ref v ref :
  ends context [TPublications; TCanonicalRefs] (acceptPublication context v (Some ref)).
Proof. unfold acceptPublication. solve_ends. Qed.
Lemma ends_acceptConflict v audit : ends context [TMergeConflicts] (acceptConflict context v audit).
Proof. unfold acceptConflict. solve_ends. Qed.
Lemma ends_firstDetection detection :
  ends context [TMergeConflicts] (firstDetection context detection).
Proof. unfold firstDetection, acceptConflict. solve_ends. Qed.

End Handlers.

#[export] Hint Resolve ends_acceptTask ends_acceptLease ends_acceptAgentSession
  ends_acceptAgentSession_rows ends_acceptPublication ends_acceptPublication_ref
  ends_acceptConflict ends_firstDetection : ends.

Section Kinds.
Context `{NormLib, JCSLib, CryptoLib}.
Context (context : reductionContext).

Lemma ends_reduceImplemented applied :
  ends context (footprint (Event.PKind (proposal context))) (reduceImplemented context applied).
Proof.
  unfold reduceImplemented. destruct (Event.PKind (proposal context)); simpl.
  all: match goal with |- ends _ _ (?f _) => unfold f | _ => idtac end.
  all: unfold reduceCredentialAuthorized; solve_ends.
Qed.
Lemma rejects_planTasks ids : rejects context (planTasks context ids).
Proof. induction ids; simpl; solve_rejects. Qed.
Lemma rejects_checkPredecessor next id : rejects context (checkPredecessor context next id).
Proof. unfold checkPredecessor, alreadySuperseded. solve_rejects. Qed.
Lemma rejects_checkConflicts ids : rejects context (checkConflicts context ids).
Proof. induction ids; simpl; solve_rejects. Qed.
Lemma rejects_scanFields payload fields : rejects context (scanFields context payload fields).
Proof. induction fields; simpl; solve_rejects. Qed.
Lemma rejects_loadMutablePublication : rejects context (loadMutablePublication context).
Proof. unfold loadMutablePublication. solve_rejects. Qed.
Lemma rejects_acceptPublication v ref : rejects context (acceptPublication context v ref).
Proof. unfold acceptPublication. solve_rejects. Qed.
Lemma rejects_acceptConflict v audit : rejects context (acceptConflict context v audit).
Proof. unfold acceptConflict. solve_rejects. Qed.
Lemma rejects_loadMutableConflict : rejects context (loadMutableConflict context).
Proof. unfold loadMutableConflict. solve_rejects. Qed.
Lemma rejects_acceptMembership a b c d e : rejects context (acceptMembership context a b c d e).
Proof. unfold acceptMembership. solve_rejects. Qed.
Lemma rejects_firstDetection detection : rejects context (firstDetection context detection).
Proof. unfold firstDetection. solve_rejects; apply rejects_acceptConflict. Qed.
Lemma rejects_checkAuthor metadata : rejects context (checkAuthor context metadata).
Proof. unfold checkAuthor. solve_rejects. Qed.
Lemma rejects_publicationPathsCovered paths : rejects context (publicationPathsCovered context paths).
Proof. unfold publicationPathsCovered. solve_rejects. Qed.
Lemma rejects_checkReceipts metadata receipts :
  rejects context (checkReceipts context metadata receipts).
Proof. unfold checkReceipts. solve_rejects. Qed.
Lemma rejects_publicationReviewer : rejects context (publicationReviewer context).
Proof. unfold publicationReviewer. solve_rejects. Qed.
Lemma rejects_admission a b c d : rejects context (admission context a b c d).
Proof. unfold admission. solve_rejects. Qed.
Lemma rejects_verifyRecovery authorization signature :
  rejects context (verifyRecovery context authorization signature).
Proof. unfold verifyRecovery. solve_rejects. Qed.
Lemma rejects_verifyHandoff a b c d e f g h :
  rejects context (verifyHandoff context a b c d e f g h).
Proof. unfold verifyHandoff. solve_rejects. Qed.
Lemma rejects_controlFileObject : rejects context (controlFileObject context).
Proof. unfold controlFileObject. solve_rejects; apply rejects_scanFields. Qed.
Lemma rejects_decodeContentDigest payload : rejects context (decodeContentDigest context payload).
Proof. unfold decodeContentDigest. solve_rejects. Qed.
End Kinds.

#[export] Hint Resolve rejects_planTasks rejects_checkPredecessor rejects_checkConflicts
  rejects_scanFields rejects_loadMutablePublication rejects_acceptPublication
  rejects_acceptConflict rejects_loadMutableConflict rejects_acceptMembership
  rejects_firstDetection rejects_checkAuthor rejects_publicationPathsCovered
  rejects_checkReceipts rejects_publicationReviewer rejects_admission rejects_verifyRecovery
  rejects_verifyHandoff rejects_controlFileObject rejects_decodeContentDigest : rejects.

Section Reduce.
Context `{NormLib, JCSLib, CryptoLib}.

Lemma rejects_reduceImplemented context applied :
  rejects context (reduceImplemented context applied).
Proof.
  unfold reduceImplemented. destruct (Event.PKind (proposal context)).
  all: match goal with |- rejects _ (?f _) => unfold f | _ => idtac end.
  all: try unfold reduceCredentialAuthorized; solve_rejects.
Qed.

(** What a handler accepts is the value it reaches at its end. *)
Lemma accepted_handler context applied o :
  run (reduceImplemented context applied) = inr o → Accepted o = true →
  reduceImplemented context applied = Val o.
Proof. intros Hr Ha. apply (accepted_Val context); [apply rejects_reduceImplemented|done..]. Qed.

(** An implemented reduction reaches its end or rejects. *)
Lemma reduceImplemented_outcome context applied o :
  run (reduceImplemented context applied) = inr o →
  (Accepted o = true ∧ OCode o = CodeAccepted ∧ Alarm o = None ∧
   OriginScopes (OChanges o) = [scope context] ∧
   within (footprint (Event.PKind (proposal context))) (OChanges o)) ∨
  (∃ code alarm, o = rejectWithAlarm context code alarm).
Proof.
  intros Hr. destruct (reduceImplemented context applied) as [o'|o'|] eqn:Hm; simplify_eq/=.
  - left. destruct (ends_reduceImplemented context applied o Hm) as (Hs & ?).
    unfold Accepted. by rewrite Hs.
  - right. by apply (rejects_reduceImplemented context applied).
Qed.

Lemma advanced_within allowed o records :
  within allowed (OChanges o) → within allowed (OChanges (advanced o records)).
Proof. destruct o as [? ? [] ? ? ? ? ? ?]. simpl. intros Hw t Ht. specialize (Hw t Ht). by destruct t. Qed.

(** An accepted reduction was admitted, and its handler accepted. *)
Lemma reduce_accepted st signed applied o :
  reduce st signed applied = inr o → Accepted o = true →
  ∃ context o', prepareReduction st signed = Val context ∧
    run (reduceImplemented context applied) = inr o' ∧ Accepted o' = true ∧
    o = advanced o' (recordsActivity (Event.proposal signed)).
Proof.
  unfold reduce. destruct (prepareReduction st signed) as [context|o'|] eqn:Hp; [|intros [= ->]|done].
  - destruct (run _) as [|o'] eqn:Hr; [done|]. destruct (Accepted o') eqn:Ha.
    + intros [= <-] _. eauto 10.
    + intros [= ->]. congruence.
  - intros Ha. apply admission_refusals in Hp as [Hn _]. congruence.
Qed.

(** Every proposal that is reduced ends in one of three ways. Accepted: it
    was admitted, the outcome consumes exactly the origin's next sequence,
    advances the event chain, and records activity exactly when it carries a
    rationale or actions. Refused by its handler: it was admitted, and the
    outcome consumes the sequence and writes nothing else. Not admitted: the
    outcome is the refusal of the admission. A rejection never advances the
    event chain and never records activity. *)
Theorem reduce_outcomes st signed applied o :
  reduce st signed applied = inr o →
  (∃ context, prepareReduction st signed = Val context ∧ Accepted o = true ∧
     OCode o = CodeAccepted ∧ OriginScopes (OChanges o) = [scope context] ∧
     AdvancesEventChain (OChanges o) = true ∧
     RecordActivity o = recordsActivity (Event.proposal signed)) ∨
  (∃ context code alarm, prepareReduction st signed = Val context ∧
     o = rejectWithAlarm context code alarm) ∨
  (prepareReduction st signed = Done o ∧ Accepted o = false).
Proof.
  unfold reduce. destruct (prepareReduction st signed) as [context|o'|] eqn:Hp; [|intros [= ->]|done].
  - destruct (run _) as [|o'] eqn:Hr; [done|].
    destruct (reduceImplemented_outcome _ _ _ Hr) as [(Ha & Hc & _ & Hs & _)|(code & alarm & ->)].
    + rewrite Ha. intros [= <-]. left. exists context.
      destruct o' as [? ? [] ? ? ? ? ? ?]. simpl in *. done.
    + intros [= <-]. right; left. eauto.
  - right; right. split; [done|]. by apply admission_refusals in Hp as [? _].
Qed.

(** An accepted proposal writes only the tables of its kind: tasks change
    by task proposals or by the end of an agent session, devices and voter
    sets by membership proposals, the canonical ref only by
    publication.applied, the policy only by policy.changed, and so on
    ([footprint]). *)
Theorem reduce_footprint st signed applied o context :
  reduce st signed applied = inr o → Accepted o = true →
  prepareReduction st signed = Val context →
  within (footprint (Event.PKind (proposal context))) (OChanges o).
Proof.
  intros Hr Ha Hp. destruct (reduce_accepted _ _ _ _ Hr Ha) as (context' & o' & Hp' & Hi & Ha' & ->).
  rewrite Hp in Hp'. injection Hp' as <-. apply advanced_within.
  destruct (reduceImplemented_outcome _ _ _ Hi) as [(_ & _ & _ & _ & Hw)|(code & alarm & ->)];
    [exact Hw|done].
Qed.

(** Checkpoints have their own entry points: [Reduce] accepts no
    checkpoint, [ReduceCheckpoint] refuses every other kind, and a replayed
    rejection is never accepted and writes at most the origin scope. *)
Theorem checkpoint_entry_points st signed applied :
  (∀ context o, prepareReduction st signed = Val context →
     Event.PKind (proposal context) = Event.KindConsensusCheckpoint →
     Reduce st signed ≠ inr o) ∧
  (Event.PKind (Event.proposal signed) ≠ Event.KindConsensusCheckpoint →
     ReduceCheckpoint st signed applied = inl ErrCheckpointEventRequired ∧
     ReduceAttestedRejectedCheckpoint st signed = inl ErrCheckpointEventRequired) ∧
  (∀ o, ReduceAttestedRejectedCheckpoint st signed = inr o →
     Accepted o = false ∧ within [] (OChanges o)).
Proof.
  refine (conj _ (conj _ _)).
  - intros context o Hp Hk. unfold Reduce, reduce. rewrite Hp. unfold reduceImplemented.
    by rewrite Hk.
  - intros Hk. unfold ReduceCheckpoint, ReduceAttestedRejectedCheckpoint, isCheckpoint.
    by rewrite (bool_decide_eq_false_2 _ Hk).
  - intros o. unfold ReduceAttestedRejectedCheckpoint. destruct (negb _); [done|].
    destruct (prepareReduction st signed) as [context|o'|] eqn:Hp; [| |done].
    + intros [= <-]. split; [done|]. intros t _. by destruct t.
    + intros [= <-]. apply admission_refusals in Hp as [Ha [Hc|(next & Hc & _)]];
        rewrite Hc; (split; [done|]); intros t _; by destruct t.
Qed.

End Reduce.

(** ** Witnesses *)

Section Witnesses.
Import Fixtures.
#[local] Existing Instances norm crypto jcs.

Definition reduced : Outcome :=
  match Reduce st claim_event with inr o => o | inl _ => rejectWithoutSequence CodeAccepted end.

Lemma reduced_ok :
  match Reduce st claim_event with inr o => Accepted o | inl _ => false end = true →
  Reduce st claim_event = inr reduced ∧ Accepted reduced = true.
Proof. unfold reduced. by destruct (Reduce st claim_event). Qed.

Lemma reduce_outcomes_witness :
  AdvancesEventChain (OChanges reduced) = true ∨ Accepted reduced = false.
Proof.
  destruct (reduced_ok ltac:(by vm_compute)) as [Hr Ha].
  destruct (reduce_outcomes st claim_event None reduced Hr)
    as [(_ & _ & _ & _ & _ & Hc & _)|[(context & code & alarm & _ & Ho)|[_ Hn]]].
  - by left.
  - right. by rewrite Ho.
  - by right.
Defined.

Lemma reduce_footprint_witness : within [TTasks] (OChanges reduced).
Proof.
  destruct (reduced_ok ltac:(by vm_compute)) as [Hr Ha].
  exact (reduce_footprint st claim_event None reduced admitted Hr Ha admitted_ok).
Defined.

Definition applied : CheckpointApplyContext :=
  mkCheckpointApplyContext 1 1 4 [] 5 [] [] 1 1.

Lemma checkpoint_entry_points_witness :
  ReduceCheckpoint st claim_event applied = inl ErrCheckpointEventRequired.
Proof.
  destruct (checkpoint_entry_points st claim_event applied) as (_ & Hk & _). by apply Hk.
Defined.

End Witnesses.
End DispatchProofs.
