(* ===== verification/PublicationProofs.v ===== *)
(** * Package internal/reducer: publications and the canonical ref

    [Module PublicationProofs]: staging receipts as a quorum of the voter set,
    what an accepted publication proposal, review, application and withdrawal
    do, and what a conflict resolution requires. *)

From stdpp Require Import base gmap strings list sorting.
From Stdlib Require Import ZArith NArith Lia.
From S2P Require Import Prelude.
From S2P Require Import GoLib.
From S2P Require Import GoJson.
From S2P Require Import CodecLayer.
From S2P Require Import GoMarshal.
From S2P Require Import DomainValues.
From S2P Require Import TaskEntity.
From S2P Require Import LeaseEntity.
From S2P Require Import AgentSessionEntity.
From S2P Require Import VoterSetEntity.
From S2P Require Import DeviceEntity.
From S2P Require Import ConflictEntity.
From S2P Require Import PublicationEntity.
From S2P Require Import EventModel.
From S2P Require Import EventWire.
From S2P Require Import ReducerState.
From S2P Require Import Preflight.
From S2P Require Import StateRefs.
From S2P Require Import PublicationState.
From S2P Require Import ReducerLogic.
From S2P Require Import LeaseReducers.
From S2P Require Import PublicationReducers.
From S2P Require Import Dispatch.
From S2P Require Import Fixtures.
From S2P Require Import TaskProofs.
From S2P Require Import LeaseProofs.
From S2P Require Import DispatchProofs.

Open Scope reducer_scope.

Module PublicationProofs.

Import Reducer Preflight StateRefs Logic PublicationState.
Import PublicationReducers.PublicationReducers PublicationReducers.ConflictReducers.
Import Dispatch.Dispatch DispatchProofs.DispatchProofs.

Section Receipts.
Context `{NormLib, JCSLib, CryptoLib}.

(** A receipt that counts: of this session and of the current voter set, for
    this digest, not from the future and not older than the window, signed by
    an active voter over its own canonical text. *)
Record countersigned (st : State) (digest : string) (r : Publication.StagingReceipt) : Prop := {
  r_session : Publication.rSessionID r = sessionID st;
  r_workspace : Publication.rWorkspaceID r = workspaceID st;
  r_version : Publication.rVoterSetVersion r = VoterSet.VoterSetVersion (voterSet st);
  r_digest : Publication.PublicationMetadataDigest r = digest;
  r_past : (Publication.StagedResultIndex r ≤ currentResultIndex st)%N;
  r_fresh : (currentResultIndex st ≤ Publication.StagedResultIndex r + publicationReceiptWindow)%N;
  r_signer : ∃ member,
    devices st !! Publication.VoterDeviceID r = Some member ∧
    Device.DeviceStatus member = Device.StatusActive ∧
    VoterSet.Contains (voterSet st) (Publication.VoterDeviceID r) = true ∧
    verifyStagingReceiptSignature r (Device.IdentityPublicKey member) = true }.

Lemma receiptCode_None st digest r : receiptCode st digest r = None → countersigned st digest r.
Proof.
  unfold receiptCode. intros Hr. chain_inv Hr. bools.
  destruct (devices st !! Publication.VoterDeviceID r) as [member|] eqn:Hm; [|done].
  chain_inv Hr. bools. destruct Hc as [[[Hs Hw] Hv] Hd]. destruct Hc2 as [Ha Hin].
  constructor; try done; try (by apply N.ltb_ge in Hc0 || apply N.ltb_ge in Hc1; lia).
  - by exists member.
Qed.

Lemma receipts_sorted_from first previous receipts :
  Publication.validateReceiptsFrom first previous receipts = None →
  Sorted str_lt (Publication.VoterDeviceID previous :: (Publication.VoterDeviceID <$> receipts)).
Proof.
  revert previous. induction receipts as [|r receipts IH]; simpl; intros previous Hr.
  - repeat constructor.
  - chain_inv Hr. constructor; [by apply IH|]. constructor. by apply leb_false_lt.
Qed.

(** The voters of valid receipts are distinct. *)
Lemma receipts_distinct receipts :
  Publication.ValidateStagingReceipts receipts = None →
  NoDup (Publication.VoterDeviceID <$> receipts).
Proof.
  unfold Publication.ValidateStagingReceipts. intros Hr. chain_inv Hr.
  destruct receipts as [|first rest]; [constructor|]. chain_inv Hr.
  apply sorted_lt_NoDup, Sorted_StronglySorted; [apply _|].
  exact (receipts_sorted_from _ _ _ Hr).
Qed.

(** [quorum st m receipts]: receipts for the digest of [m] by a majority of
    the voters of the current set, one each. *)
Definition quorum (st : State) (m : Publication.Metadata)
    (receipts : list Publication.StagingReceipt) : Prop :=
  ∃ digest, publicationMetadataDigest m = inr digest ∧
    NoDup (Publication.VoterDeviceID <$> receipts) ∧
    length (VoterSet.voterDeviceIDs (voterSet st)) < 2 * length receipts ∧
    Forall (countersigned st digest) receipts.

Lemma receipts_quorum st m receipts :
  validatePublicationReceipts st m receipts = None → quorum st m receipts.
Proof.
  unfold validatePublicationReceipts. intros Hv. chain_inv Hv. apply fails_None in Hc.
  destruct (publicationMetadataDigest m) as [|digest] eqn:Hd; [done|]. chain_inv Hv.
  exists digest. refine (conj Hd (conj (receipts_distinct _ Hc) (conj _ _))).
  - apply Nat.ltb_ge in Hc1. by apply majority_half.
  - apply scan_entries_None in Hc0. eapply Forall_impl; [exact Hc0|].
    intros r. apply receiptCode_None.
Qed.

Lemma checkReceipts_Val context m receipts u :
  checkReceipts context m receipts = Val u → quorum (state context) m receipts.
Proof.
  unfold checkReceipts. destruct (validatePublicationReceipts _ _ _) eqn:Hv; [done|].
  intros _. by apply receipts_quorum.
Qed.
End Receipts.

Section Theorems.
Context `{NormLib, JCSLib, CryptoLib}.

(** The row a mutation starts from: stored under the proposal's id, valid,
    consistent with the rows it names, at the version the proposal expects. *)
Definition loaded_publication (context : reductionContext) (current : Publication.Publication)
    : Prop :=
  publications (state context) !! proposalID context = Some current ∧
  Publication.PublicationID (Publication.Meta current) = proposalID context ∧
  Publication.Validate current = None ∧
  validatePublicationReferences (state context) current = true ∧
  Event.ExpectedEntityVersion (proposal context) = Some (Publication.EntityVersion current) ∧
  Publication.EntityVersion current ≠ Domain.MaxSafeInteger.

Lemma loadMutablePublication_Val context current :
  loadMutablePublication context = Val current → loaded_publication context current.
Proof.
  unfold loadMutablePublication. intros Hl. val_inv Hl. subst.
  apply expectVersion_Val in Hv as [Hv Hm]. apply fails_None in Hc0. bools. done.
Qed.

(** What every decision keeps: metadata, and the version advances by one. *)
Definition decides (operation : Publication.Operation) (current next : Publication.Publication)
    : Prop :=
  Publication.Validate next = None ∧ Publication.Meta next = Publication.Meta current ∧
  (Publication.PState current, Publication.PState next) ∈ Publication.legalEdges operation ∧
  Publication.EntityVersion next = (Publication.EntityVersion current + 1)%N.

Lemma transition_decides operation current next :
  fails (Publication.ValidateTransition operation current next) = false →
  operation ≠ Publication.OperationRecoveryWithdraw → decides operation current next.
Proof.
  intros Ht Hop. apply fails_None, Publication.publication_transition_inv in Ht
    as (_ & Hv & Hm & He & Hver & _). split; [done|]. rewrite Hm. auto.
Qed.

Lemma acceptPublication_Val context v ref o :
  acceptPublication context v ref = Val o →
  Publication.Validate v = None ∧ Publications (OChanges o) = [v] ∧
  CanonicalRefs (OChanges o) = match ref with Some r => [r] | None => [] end ∧
  match ref with Some r => Publication.CanonicalRef_Validate r = None | None => True end.
Proof.
  unfold acceptPublication. intros Ha. val_inv Ha. subst. simpl. apply fails_None in Hc.
  destruct ref; [apply fails_None in Hc0|]; done.
Qed.

(** An accepted publication.applied, in full. *)
Lemma publication_apply context o :
  Event.PKind (proposal context) = Event.KindPublicationApplied →
  run (reduceImplemented context None) = inr o → Accepted o = true →
  ∃ current next ref,
    loaded_publication context current ∧
    decides Publication.OperationApply current next ∧
    Publications (OChanges o) = [next] ∧ CanonicalRefs (OChanges o) = [ref] ∧
    Publication.Verdict current = Publication.ReviewVerdictApprove ∧
    Publication.BaseCommit (Publication.Meta current) =
      Publication.RefCommitOID (canonicalRef (state context)) ∧
    Publication.RefCommitOID ref = Publication.CommitOID (Publication.Meta current) ∧
    Publication.RefEntityVersion ref =
      (Publication.RefEntityVersion (canonicalRef (state context)) + 1)%N ∧
    quorum (state context) (Publication.Meta current) (Publication.StagingReceipts next).
Proof.
  intros Hk Hr Ha. pose proof (accepted_handler _ _ _ Hr Ha) as Hm.
  unfold reduceImplemented in Hm. rewrite Hk in Hm.
  unfold reducePublicationApplied in Hm. val_inv Hm.
  rename v3 into current. apply acceptPublication_Val in Hm as (_ & Hp & Hrefs & Href).
  apply loadMutablePublication_Val in Hv3. apply checkReceipts_Val in Hv4. bools.
  apply transition_decides in Hc3; [|done].
  pose proof Hc3 as (Hval & _). apply Publication.Validate_applied in Hval as (Hverdict & _); [|done].
  eexists current, _, _.
  refine (conj Hv3 (conj Hc3 (conj Hp (conj Hrefs (conj Hverdict (conj Hc2 (conj eq_refl
    (conj _ Hv4)))))))).
  simpl. apply u64_succ_small. destruct Hc as [_ Hmax%N.leb_le]. subst v0.
  unfold Domain.ValidUnsignedInteger, Domain.MaxSafeInteger, u64_modulus in *. lia.
Qed.

(** C29: An accepted publication.applied moves the canonical ref exactly once
    and only forward: the publication was approved by review, its base commit
    is the commit the canonical ref names, the ref moves to the publication's
    commit at the next version, and the staging receipts are for the digest of
    the publication's metadata, signed by a majority of the active voter set,
    one receipt per voter. *)
Theorem publication_applied_legal context o :
  Event.PKind (proposal context) = Event.KindPublicationApplied →
  run (reduceImplemented context None) = inr o → Accepted o = true →
  ∃ current next ref,
    loaded_publication context current ∧
    decides Publication.OperationApply current next ∧
    Publications (OChanges o) = [next] ∧ CanonicalRefs (OChanges o) = [ref] ∧
    Publication.Verdict current = Publication.ReviewVerdictApprove ∧
    Publication.BaseCommit (Publication.Meta current) =
      Publication.RefCommitOID (canonicalRef (state context)) ∧
    Publication.RefCommitOID ref = Publication.CommitOID (Publication.Meta current) ∧
    Publication.RefEntityVersion ref =
      (Publication.RefEntityVersion (canonicalRef (state context)) + 1)%N ∧
    quorum (state context) (Publication.Meta current) (Publication.StagingReceipts next).
Proof. apply publication_apply. Qed.

(** ** Quorums of the voter set intersect *)

Lemma countersigned_voter st digest r :
  VoterSet.Validate (voterSet st) = None → countersigned st digest r →
  Publication.VoterDeviceID r ∈ VoterSet.voterDeviceIDs (voterSet st).
Proof. intros Hv Hr. destruct (r_signer _ _ _ Hr) as (m & _ & _ & Hc & _). by apply VoterSet.Contains_elem. Qed.

(** Two lists without repetitions inside one that is shorter than their
    concatenation share an element. *)
Lemma overlap (l k u : list string) :
  NoDup l → NoDup k → l ⊆ u → k ⊆ u → length u < length l + length k → ∃ x, x ∈ l ∧ x ∈ k.
Proof.
  intros Hl Hk Hlu Hku Hlen.
  destruct (decide (Exists (λ x, x ∈ k) l)) as [Hex|Hno].
  - apply Exists_exists in Hex as (x & ? & ?). eauto.
  - exfalso. assert (Hnd : NoDup (l ++ k)).
    { apply NoDup_app. refine (conj Hl (conj _ Hk)). intros x Hx Hxk. apply Hno.
      apply Exists_exists. eauto. }
    pose proof (submseteq_length _ _ (NoDup_submseteq _ u Hnd ltac:(set_solver))) as Hle.
    rewrite length_app in Hle. lia.
Qed.

(** Staging receipts are a majority of one voter set, so any two accepted
    sets of receipts against the same voter set share a voter, who signed a
    receipt for each of the two publications. *)
Theorem receipt_quorums_intersect st st' m m' receipts receipts' :
  VoterSet.Validate (voterSet st) = None → voterSet st' = voterSet st →
  validatePublicationReceipts st m receipts = None →
  validatePublicationReceipts st' m' receipts' = None →
  ∃ r r', r ∈ receipts ∧ r' ∈ receipts' ∧
    Publication.VoterDeviceID r = Publication.VoterDeviceID r' ∧
    (∃ member, devices st !! Publication.VoterDeviceID r = Some member ∧
       verifyStagingReceiptSignature r (Device.IdentityPublicKey member) = true) ∧
    (∃ member, devices st' !! Publication.VoterDeviceID r = Some member ∧
       verifyStagingReceiptSignature r' (Device.IdentityPublicKey member) = true).
Proof.
  intros Hv Hsame (d & _ & Hnd & Hlen & Hall)%receipts_quorum (d' & _ & Hnd' & Hlen' & Hall')%receipts_quorum.
  rewrite Hsame in Hlen'. rewrite Forall_forall in Hall, Hall'.
  destruct (overlap (Publication.VoterDeviceID <$> receipts) (Publication.VoterDeviceID <$> receipts')
              (VoterSet.voterDeviceIDs (voterSet st))) as (x & Hx & Hx'); [done|done|..].
  - intros y (r & -> & Hr)%list_elem_of_fmap. by apply (countersigned_voter _ d), Hall.
  - intros y (r & -> & Hr)%list_elem_of_fmap. rewrite <- Hsame.
    apply (countersigned_voter _ d'); [by rewrite Hsame|by apply Hall'].
  - rewrite !length_fmap. lia.
  - apply list_elem_of_fmap in Hx as (r & -> & Hr).
    apply list_elem_of_fmap in Hx' as (r' & Heq & Hr').
    destruct (r_signer _ _ _ (Hall _ Hr)) as (member & Hm & _ & _ & Hs).
    destruct (r_signer _ _ _ (Hall' _ Hr')) as (member' & Hm' & _ & _ & Hs').
    exists r, r'. rewrite <- Heq in Hm'. eauto 10.
Qed.

(** The canonical ref has one history: a publication.applied accepted in
    a state that holds the ref an earlier one wrote is based on the commit of
    the publication that one applied, and takes the ref one version further;
    so two publications with the same base are never both applied in
    succession. *)
Theorem canonical_ref_serial context o ref context' o' :
  Event.PKind (proposal context) = Event.KindPublicationApplied →
  run (reduceImplemented context None) = inr o → Accepted o = true →
  CanonicalRefs (OChanges o) = [ref] → canonicalRef (state context') = ref →
  Event.PKind (proposal context') = Event.KindPublicationApplied →
  run (reduceImplemented context' None) = inr o' → Accepted o' = true →
  ∃ applied applied' ref',
    Publications (OChanges o) = [applied] ∧ Publications (OChanges o') = [applied'] ∧
    CanonicalRefs (OChanges o') = [ref'] ∧
    Publication.BaseCommit (Publication.Meta applied') =
      Publication.CommitOID (Publication.Meta applied) ∧
    Publication.RefCommitOID ref' = Publication.CommitOID (Publication.Meta applied') ∧
    Publication.RefEntityVersion ref' =
      (Publication.RefEntityVersion (canonicalRef (state context)) + 2)%N.
Proof.
  intros Hk Hr Ha Hrefs Hst Hk' Hr' Ha'.
  destruct (publication_apply _ _ Hk Hr Ha)
    as (cur & next & r & _ & (_ & Hm & _) & Hp & Hr1 & _ & _ & Hc & Hv & _).
  destruct (publication_apply _ _ Hk' Hr' Ha')
    as (cur' & next' & r' & _ & (_ & Hm' & _) & Hp' & Hr2 & _ & Hb & Hc' & Hv' & _).
  assert (r = ref) as -> by congruence. rewrite Hst in Hb, Hv'.
  exists next, next', r'. rewrite Hm, Hm'. refine (conj Hp (conj Hp' (conj Hr2 _))).
  refine (conj _ (conj Hc' _)); [congruence|lia].
Qed.

(** ** Path leases of a publication *)

Lemma patternCovers_covers path pattern :
  Domain.RepositoryPath_Valid path = true →
  patternCovers path pattern = true → Lease.covers pattern path.
Proof.
  unfold patternCovers, Lease.covers. intros Hv Hp. split; [done|].
  destruct (Lease.prefix pattern); simpl in *; [done|]. rewrite orb_false_r in Hp. by bools.
Qed.

(** An active path lease of the session that reserves the path. *)
Definition path_leased (context : reductionContext) (session : AgentSession.Session) (path : string)
    : Prop :=
  ∃ key row, leases (state context) !! key = Some row ∧
    key ∈ ids_at (activeLeasesByAgent (state context)) (AgentSession.ID session) ∧
    Lease.Validate row = None ∧ LeaseReducers.isActive row = true ∧
    Lease.HolderDeviceID row = Device.ID (device context) ∧
    Lease.HolderAgentSessionID row = AgentSession.ID session ∧
    LeaseProofs.reserves row (LeaseProofs.PathResource path).

Lemma leaseEntry_Some context deviceID sessionID key row :
  LeaseReducers.leaseEntry context deviceID sessionID key = true →
  leases (state context) !! key = Some row →
  LeaseReducers.isActive row = true ∧ Lease.Validate row = None ∧
  Lease.HolderDeviceID row = deviceID ∧
  (sessionID ≠ EmptyString → Lease.HolderAgentSessionID row = sessionID).
Proof.
  unfold LeaseReducers.leaseEntry. intros He Hr. rewrite Hr in He.
  apply andb_true_iff in He as [He Hs]. apply andb_true_iff in He as [He Hd].
  apply andb_true_iff in He as [He Hv]. apply andb_true_iff in He as [_ Ha].
  apply negb_true_iff, fails_None in Hv. apply bool_decide_eq_true in Hd.
  refine (conj Ha (conj Hv (conj Hd _))). intros Hne.
  apply orb_true_iff in Hs as [Hs|Hs]; [by apply bool_decide_eq_true in Hs|].
  by apply bool_decide_eq_true in Hs.
Qed.

Lemma paths_covered context paths session :
  publicationPathsCovered context paths = Val true → agentSession context = Some session →
  AgentSession.ID session ≠ EmptyString →
  Forall (λ path, Domain.RepositoryPath_Valid path = true) paths →
  Forall (path_leased context session) paths.
Proof.
  unfold publicationPathsCovered. intros Hc Hs Hid Hvalid. rewrite Hs in Hc. val_inv Hc.
  unfold LeaseReducers.validateActiveLeaseIndexes in Hv. rewrite Hs in Hv. val_inv Hv.
  apply fails_None in Hc0. unfold LeaseReducers.validateActiveLeaseList in Hc0. chain_inv Hc0.
  apply LeaseProofs.scan_index_elem in Hc0 as [_ Hentries].
  rewrite forallb_forall in Hc. apply Forall_forall. intros path Hpath.
  rewrite Forall_forall in Hvalid. specialize (Hvalid _ Hpath).
  apply list_elem_of_In, Hc, existsb_exists in Hpath as (key & Hkey & Hcov).
  apply list_elem_of_In in Hkey. unfold leaseCovers in Hcov.
  destruct (leases (state context) !! key) as [row|] eqn:Hrow; [|done].
  specialize (Hentries _ Hkey). apply orb_false_iff in Hentries as [_ He%negb_false_iff].
  destruct (leaseEntry_Some _ _ _ _ _ He Hrow) as (Ha & Hrv & Hd & Hh).
  apply andb_true_iff in Hcov as [Hcov Hex]. apply andb_true_iff in Hcov as [_ Hscope].
  apply bool_decide_eq_true in Hscope. apply existsb_exists in Hex as (pattern & Hin & Hp).
  exists key, row. refine (conj Hrow (conj Hkey (conj Hrv (conj Ha (conj Hd (conj (Hh Hid) _)))))).
  split; [done|]. exists pattern. apply list_elem_of_In in Hin.
  split; [done|by apply patternCovers_covers].
Qed.

Lemma metadata_paths_valid metadata :
  Publication.Metadata_Validate metadata = None →
  Forall (λ path, Domain.RepositoryPath_Valid path = true) (Publication.Paths metadata).
Proof.
  unfold Publication.Metadata_Validate. cbv beta iota zeta. intros Hv. chain_inv Hv.
  unfold Publication.Metadata_validatePaths in Hc10. chain_inv Hc10.
  apply scan_sorted_None in Hc10 as [Hall _]. eapply Forall_impl; [exact Hall|].
  intros path Hp. apply refuse_None in Hp as [Hp _]. by apply negb_false_iff.
Qed.

Lemma metadata_author metadata :
  Publication.Metadata_Validate metadata = None →
  Publication.AuthorAgentSessionID metadata ≠ EmptyString.
Proof.
  unfold Publication.Metadata_Validate. cbv beta iota zeta. intros Hv. chain_inv Hv.
  intros He. rewrite He in Hc4. by vm_compute in Hc4.
Qed.

(** No two active leases reserve a common resource. *)
Definition leases_exclusive (st : State) : Prop :=
  ∀ key key' row row', leases st !! key = Some row → leases st !! key' = Some row' → key ≠ key' →
    LeaseReducers.isActive row = true → LeaseReducers.isActive row' = true →
    ¬ ∃ r, LeaseProofs.reserves row r ∧ LeaseProofs.reserves row' r.

(** The origin a publication is attributed to. *)
Definition authored (context : reductionContext) (session : AgentSession.Session)
    (m : Publication.Metadata) : Prop :=
  agentSession context = Some session ∧
  Publication.ProposalEventID m = Event.EventID (proposal context) ∧
  Publication.AuthorDeviceID m = Device.ID (device context) ∧
  Publication.AuthorAgentSessionID m = AgentSession.ID session ∧
  Publication.WorkingRootID m = AgentSession.WorkingRootID session.

Lemma checkAuthor_Val context m u :
  checkAuthor context m = Val u → ∃ session, authored context session m.
Proof.
  unfold checkAuthor, authored. intros Hv. val_inv Hv. bools.
  match goal with H : _ ∧ _ |- _ => destruct H as [[? ?] ?] end. eauto 10.
Qed.

(** The task a publication names, if any, is held by its author. *)
Definition task_held (context : reductionContext) (m : Publication.Metadata) : Prop :=
  Publication.TaskID m = EmptyString ∨
  ∃ task, tasks (state context) !! Publication.TaskID m = Some task ∧
    Task.OwnerDeviceID task = Publication.AuthorDeviceID m ∧
    Task.OwnerAgentSessionID task = Publication.AuthorAgentSessionID m.

Lemma checkTask_Val context m u : checkTask context m = Val u → task_held context m.
Proof.
  unfold checkTask, task_held. destruct (_ == _) eqn:He; intros Hv; [left; by bools|right].
  val_inv Hv. bools. destruct Hc. eauto.
Qed.

(** C30: An accepted publication.proposed is the author's own: it is attributed
    to the origin's device and agent session and to that session's working
    root, its task is held by that session, it is new and starts unreviewed at version one, a quorum of voters
    holds its content, it names no control path, and every path it names is
    reserved by an active path lease of the author's session. When active
    leases are exclusive, no lease of another session reserves such a path. *)
Theorem publication_proposed_legal context o :
  Event.PKind (proposal context) = Event.KindPublicationProposed →
  run (reduceImplemented context None) = inr o → Accepted o = true →
  ∃ session row, authored context session (Publication.Meta row) ∧
    Publications (OChanges o) = [row] ∧ Publication.Validate row = None ∧
    publications (state context) !! Publication.PublicationID (Publication.Meta row) = None ∧
    task_held context (Publication.Meta row) ∧
    Publication.PState row = Publication.StateProposed ∧ Publication.EntityVersion row = 1%N ∧
    quorum (state context) (Publication.Meta row) (Publication.StagingReceipts row) ∧
    ∀ path, path ∈ Publication.Paths (Publication.Meta row) →
      ControlPath.IsControlledV1 path = false ∧ path_leased context session path ∧
      (leases_exclusive (state context) →
       ∀ key other, leases (state context) !! key = Some other →
         LeaseReducers.isActive other = true →
         LeaseProofs.reserves other (LeaseProofs.PathResource path) →
         Lease.HolderAgentSessionID other = AgentSession.ID session).
Proof.
  intros Hk Hr Ha. pose proof (accepted_handler _ _ _ Hr Ha) as Hm.
  unfold reduceImplemented in Hm. rewrite Hk in Hm.
  unfold reducePublicationProposed in Hm. val_inv Hm. rename v1 into m.
  apply acceptPublication_Val in Hm as (Hval & Hp & _). apply checkAuthor_Val in Hv3 as [session Hs].
  apply checkTask_Val in Hv4. apply checkReceipts_Val in Hv8. apply fails_None in Hc0.
  destruct v7; [clear Hc2|done].
  assert (Hcov : Forall (path_leased context session) (Publication.Paths m)).
  { apply paths_covered; [done|apply Hs| |by apply metadata_paths_valid].
    destruct Hs as (_ & _ & _ & <- & _). by apply metadata_author. }
  match type of Hval with Publication.Validate ?row = None => exists session, row end. simpl.
  refine (conj Hs (conj Hp (conj Hval (conj Hx (conj Hv4 (conj eq_refl (conj eq_refl
    (conj Hv8 _)))))))).
  intros path Hpath. rewrite Forall_forall in Hcov. specialize (Hcov _ Hpath).
  refine (conj _ (conj Hcov _)).
  - apply not_true_is_false. intros Hctl. apply not_true_iff_false in Hc1. apply Hc1.
    apply existsb_exists. exists path. split; [by apply list_elem_of_In|done].
  - destruct Hcov as (key & row & Hrow & _ & _ & Hact & _ & Hh & Hres).
    intros Hex key' other Hother Hact' Hres'.
    destruct (decide (key = key')) as [<-|Hne]; [by simplify_eq|].
    destruct (Hex key key' row other); eauto.
Qed.

End Theorems.

(** ** Witnesses *)

Section Witnesses.
Import Fixtures.
#[local] Existing Instances norm crypto jcs.

Definition oid (digit : string) : string := "sha1:000000000000000000000000000000000000000" +:+ digit.
Definition publication_id : string := "0190a0a0-0000-7000-8000-00000000000b".
Definition next_id : string := "0190a0a0-0000-7000-8000-00000000000c".

Definition metadata_of (id base commit : string) : Publication.Metadata :=
  Publication.mkMetadata id event_id EmptyString EmptyString device_id agent_id base commit
    (oid "c") [base] ["main.go"] (of_bytes (repeat 7%N 32)) [] root_id.

Definition receipt_of (metadata : Publication.Metadata) : Publication.StagingReceipt :=
  Publication.mkStagingReceipt session_id workspace_id 1
    (match publicationMetadataDigest metadata with inr d => d | inl _ => EmptyString end)
    device_id 5 (of_bytes signature).

Definition row_of (metadata : Publication.Metadata) (state : Publication.State)
    : Publication.Publication :=
  Publication.mkPublication metadata [receipt_of metadata] state Publication.TerminalSourceAbsent
    false Publication.ReviewVerdictApprove device_id EmptyString Publication.ReviewActorHuman
    None 2.

Definition receipts_json (metadata : Publication.Metadata) : json :=
  JArray [JObject (receipt_wire (receipt_of metadata) ++
    [("signature", encoded64 (Publication.rSignature (receipt_of metadata)))])].

Definition apply_payload (version : Z) (metadata : Publication.Metadata) : string :=
  of_bytes (print (JObject
    [("expected_canonical_ref_version", JNumber version);
     ("staging_receipts", receipts_json metadata)])).

Definition ref_of (commit : string) (version : N) : Publication.CanonicalRef :=
  Publication.mkCanonicalRef Publication.CanonicalRefName commit version.

(** An approved publication on commit [a], and one on its commit [b]. *)
Definition first_metadata := metadata_of publication_id (oid "a") (oid "b").
Definition next_metadata := metadata_of next_id (oid "b") (oid "d").

Definition apply_context (ref : Publication.CanonicalRef) (metadata : Publication.Metadata) :=
  context (with_repository ref [row_of metadata Publication.StateApproved] []
             (state_with [] [] [] []))
    (Fixtures.proposal (daemon_origin 4) Event.KindPublicationApplied
       (Publication.PublicationID metadata) (Some 2%N)
       (apply_payload (Z.of_N (Publication.RefEntityVersion ref)) metadata)).

Definition first_apply := apply_context (ref_of (oid "a") 1) first_metadata.
Definition next_apply := apply_context (ref_of (oid "b") 2) next_metadata.
Definition applied_outcome c := outcome_of (reduceImplemented c None).

Lemma publication_applied_legal_witness :
  ∃ current next, decides Publication.OperationApply current next ∧
    Publications (OChanges (applied_outcome first_apply)) = [next].
Proof.
  destruct (publication_applied_legal first_apply (applied_outcome first_apply))
    as (current & next & _ & _ & Hd & Hp & _); [by vm_compute..|].
  exists current, next. exact (conj Hd Hp).
Defined.

Lemma canonical_ref_serial_witness :
  ∃ ref, CanonicalRefs (OChanges (applied_outcome next_apply)) = [ref] ∧
    Publication.RefEntityVersion ref = 3%N.
Proof.
  destruct (canonical_ref_serial first_apply (applied_outcome first_apply) (ref_of (oid "b") 2)
              next_apply (applied_outcome next_apply))
    as (_ & _ & ref & _ & _ & Hr & _ & _ & Hv); [by vm_compute..|].
  exists ref. split; [exact Hr|]. rewrite Hv. by vm_compute.
Defined.

Lemma receipt_quorums_intersect_witness :
  ∃ r, r ∈ [receipt_of first_metadata] ∧ Publication.VoterDeviceID r = device_id.
Proof.
  destruct (receipt_quorums_intersect (state first_apply) (state next_apply) first_metadata
              next_metadata [receipt_of first_metadata] [receipt_of next_metadata])
    as (r & r' & Hr & Hr' & Hv & _); [by vm_compute..|].
  exists r. split; [exact Hr|]. apply list_elem_of_singleton in Hr. rewrite Hr. by vm_compute.
Defined.

(** The metadata members a payload carries, without the null ones. *)
Definition propose_payload (metadata : Publication.Metadata) : string :=
  of_bytes (print (JObject
    (filter (λ kv, kv.1 ∉ ["publication_id"; "supersedes_publication_id"; "task_id"])
       (metadata_wire metadata) ++ [("staging_receipts", receipts_json metadata)]))).

Definition main_lease :=
  path_lease lease_id "main.go" false Lease.StatusActive Lease.ReleaseReasonAbsent.
Definition propose_context :=
  context (with_repository (ref_of (oid "a") 1) [] [] (state_with [] [main_lease] [] [lease_id]))
    (Fixtures.proposal (agent_origin 8) Event.KindPublicationProposed publication_id None
       (propose_payload first_metadata)).

Lemma publication_proposed_legal_witness :
  ∃ session, path_leased propose_context session "main.go".
Proof.
  destruct (publication_proposed_legal propose_context (applied_outcome propose_context))
    as (session & row & _ & Hp & _ & _ & _ & _ & _ & _ & Hl); [by vm_compute..|].
  exists session. apply (Hl "main.go").
  assert (Hrow : row = List.hd row (Publications (OChanges (applied_outcome propose_context))))
    by (rewrite Hp; reflexivity).
  clear Hl. rewrite Hrow. clear Hp Hrow. vm_compute. constructor.
Defined.

End Witnesses.
End PublicationProofs.
