(* ===== verification/MembershipTheorems.v ===== *)
(** * Package internal/reducer: devices, voters and credentials

    [Module MembershipTheorems]: the last active owner, revocation and the
    authority's majority, the activation of a voter set, owner recovery and
    credential epochs. *)

From stdpp Require Import base gmap strings list sorting.
From Stdlib Require Import ZArith NArith Lia.
From S2P Require Import Prelude.
From S2P Require Import GoLib.
From S2P Require Import GoJson.
From S2P Require Import CodecLayer.
From S2P Require Import GoMarshal.
From S2P Require Import DomainValues.
From S2P Require Import VoterSetEntity.
From S2P Require Import DeviceEntity.
From S2P Require Import PolicyEntity.
From S2P Require Import CredentialEntity.
From S2P Require Import EventModel.
From S2P Require Import EventWire.
From S2P Require Import CheckpointCodec.
From S2P Require Import ReducerState.
From S2P Require Import Preflight.
From S2P Require Import StateRefs.
From S2P Require Import ReducerLogic.
From S2P Require Import MembershipReducers.
From S2P Require Import MembershipState.
From S2P Require Import CredentialReducers.
From S2P Require Import Dispatch.
From S2P Require Import Fixtures.
From S2P Require Import TaskProofs.
From S2P Require Import DispatchProofs.

Open Scope reducer_scope.

Module MembershipTheorems.

Import Reducer Preflight StateRefs Logic MembershipProofs.
Import MembershipReducers.MembershipReducers Dispatch.Dispatch DispatchProofs.DispatchProofs.

(** ** Owners *)

(** The device table after the rows of an outcome are written. *)
Definition write_devices (rows : list Device.Device) (table : gmap string Device.Device)
    : gmap string Device.Device :=
  foldl (λ table row, <[Device.ID row := row]> table) table rows.

Definition has_owner (table : gmap string Device.Device) : Prop :=
  ∃ id member, table !! id = Some member ∧ activeOwner member = true.

(** Every row is stored under its own id. *)
Definition keyed (table : gmap string Device.Device) : Prop :=
  ∀ id member, table !! id = Some member → Device.ID member = id.

Lemma keyed_rows (rows : list Device.Device) :
  keyed (list_to_map ((λ m, (Device.ID m, m)) <$> rows)).
Proof.
  intros id row Hrow. apply elem_of_list_to_map_2, list_elem_of_fmap in Hrow as (m & [= -> ->] & _).
  done.
Qed.

(** The count with a replacement is the count of the table it is written to. *)
Lemma activeOwnerCount_owner table next :
  activeOwnerCount table next ≠ 0 → has_owner (<[Device.ID next := next]> table).
Proof.
  unfold activeOwnerCount. intros Hn.
  destruct (filter _ (map_to_list table)) as [|[id member] rest] eqn:Hf; [done|].
  assert (Hin : (id, member) ∈ (id, member) :: rest) by apply list_elem_of_here.
  rewrite <- Hf in Hin. apply list_elem_of_filter in Hin as [Ho Hin].
  apply elem_of_map_to_list in Hin. destruct (id == Device.ID next) eqn:Hid.
  - bools. subst. exists (Device.ID next), next. by rewrite lookup_insert_eq.
  - bools. exists id, member. by rewrite lookup_insert_ne.
Qed.

(** A row that replaces one that was no active owner takes none away. *)
Lemma replace_keeps_owner table next :
  has_owner table →
  (∀ member, table !! Device.ID next = Some member → activeOwner member = true →
   activeOwner next = true) →
  has_owner (<[Device.ID next := next]> table).
Proof.
  intros (id & member & Hm & Ho) Hnext. destruct (decide (id = Device.ID next)) as [->|Hne].
  - exists (Device.ID next), next. rewrite lookup_insert_eq. eauto.
  - exists id, member. by rewrite lookup_insert_ne.
Qed.

Section Theorems.
Context `{NormLib, JCSLib, CryptoLib}.

Lemma acceptMembership_Val context rows counters targets authorities audit o :
  acceptMembership context rows counters targets authorities audit = Val o →
  Devices (OChanges o) = rows ∧ AuditCounters (OChanges o) = counters ∧
  VoterSets (OChanges o) = targets ∧ CredentialAuthorities (OChanges o) = authorities ∧
  Forall (λ row, Device.Validate row = None) rows.
Proof.
  unfold acceptMembership. intros Ha. val_inv Ha. subst. simpl. do 4 (split; [done|]).
  apply Forall_forall. intros row Hin. apply fails_None, not_true_is_false. intros Hf.
  apply not_true_iff_false in Hc. apply Hc, existsb_exists. exists row.
  split; [by apply list_elem_of_In|done].
Qed.

(** [owner_step context o]: the outcome writes one device row, and an active
    owner is left after it if there was one. *)
Definition owner_step (context : reductionContext) (o : Outcome) : Prop :=
  ∃ next, Devices (OChanges o) = [next] ∧
    (has_owner (devices (state context)) →
     has_owner (<[Device.ID next := next]> (devices (state context)))).

(** The two operations that may take ownership count the owners left. *)
Lemma counted_owner_step context o next rest :
  (activeOwnerCount (devices (state context)) next =? 0)%nat = false →
  Devices (OChanges o) = next :: rest → rest = [] → owner_step context o.
Proof.
  intros Hn Hd ->. exists next. split; [done|]. intros _. apply activeOwnerCount_owner.
  by apply Nat.eqb_neq.
Qed.

(** The others replace a row that was no active owner, or keep its role. *)
Lemma safe_owner_step context o next :
  Devices (OChanges o) = [next] →
  (∀ member, devices (state context) !! Device.ID next = Some member →
   activeOwner member = true → activeOwner next = true) →
  owner_step context o.
Proof. intros Hd Hn. exists next. split; [done|]. intros Ho. by apply replace_keeps_owner. Qed.

Section Owners.
Context (context : reductionContext) (o : Outcome).
Hypothesis Hkeyed : keyed (devices (state context)).
Hypothesis Hdev : devices (state context) !! Device.ID (device context) = Some (device context).

Lemma admitted_owner : reduceMembershipDeviceAdmitted context = Val o → owner_step context o.
Proof.
  unfold reduceMembershipDeviceAdmitted. intros Hm. val_inv Hm.
  apply acceptMembership_Val in Hm as (Hd & _). apply (safe_owner_step _ _ _ Hd).
  unfold admission in Hv4. destruct (devices (state context) !! proposalID context) as [cur|] eqn:Hcur.
  - val_inv Hv4. simplify_eq/=. intros member Hmem Ho.
    rewrite (Hkeyed _ _ Hcur), Hcur in Hmem. simplify_eq.
    unfold activeOwner in Ho. bools. destruct Ho as [Hact _]. by rewrite Hact in *.
  - val_inv Hv4. simplify_eq/=. intros member Hmem. congruence.
Qed.

Lemma reported_owner : reduceMembershipVersionReported context = Val o → owner_step context o.
Proof.
  unfold reduceMembershipVersionReported. intros Hm. val_inv Hm.
  destruct (fails _) in Hm; [val_inv Hm|].
  apply acceptMembership_Val in Hm as (Hd & _). apply (safe_owner_step _ _ _ Hd). simpl.
  intros member Hmem Ho. rewrite Hdev in Hmem. by simplify_eq.
Qed.

Lemma role_changed_owner : reduceMembershipRoleChanged context = Val o → owner_step context o.
Proof.
  unfold reduceMembershipRoleChanged. intros Hm. val_inv Hm.
  apply acceptMembership_Val in Hm as (Hd & _).
  match goal with H : (activeOwnerCount _ _ =? 0)%nat = false |- _ =>
    exact (counted_owner_step _ _ _ _ H Hd eq_refl) end.
Qed.

Lemma recovered_owner : reduceMembershipOwnerRecovered context = Val o → owner_step context o.
Proof.
  unfold reduceMembershipOwnerRecovered. intros Hm. val_inv Hm.
  apply acceptMembership_Val in Hm as (Hd & _). apply (safe_owner_step _ _ _ Hd).
  intros member Hmem Ho. unfold activeOwner. bools. simpl. naive_solver.
Qed.

Lemma revoked_owner : reduceMembershipDeviceRevoked context = Val o → owner_step context o.
Proof.
  unfold reduceMembershipDeviceRevoked. intros Hm. val_inv Hm.
  apply acceptMembership_Val in Hm as (Hd & _).
  match goal with H : (activeOwnerCount _ _ =? 0)%nat = false |- _ =>
    exact (counted_owner_step _ _ _ _ H Hd eq_refl) end.
Qed.

End Owners.

(** C31: A session never loses its last active owner: when the committed
    devices include an active owner, so do the devices after any accepted
    proposal, of whatever kind, is written. *)
Theorem owner_survives context applied o :
  keyed (devices (state context)) →
  devices (state context) !! Device.ID (device context) = Some (device context) →
  run (reduceImplemented context applied) = inr o → Accepted o = true →
  has_owner (devices (state context)) →
  has_owner (write_devices (Devices (OChanges o)) (devices (state context))).
Proof.
  intros Hkeyed Hdev Hr Ha Ho. pose proof (accepted_handler _ _ _ Hr Ha) as Hm.
  assert (Devices (OChanges o) = [] ∨ owner_step context o) as [->|(next & -> & Hn)]; [|done|by apply Hn].
  pose proof (ends_reduceImplemented context applied o Hm) as (_ & _ & _ & _ & Hw).
  unfold reduceImplemented in Hm. destruct (Event.PKind (proposal context)).
  all: first [ left; specialize (Hw TDevices ltac:(set_solver)); simpl in Hw;
               by destruct (Devices (OChanges o))
             | right ].
  - by apply admitted_owner.
  - by apply reported_owner.
  - by apply role_changed_owner.
  - by apply recovered_owner.
  - by apply revoked_owner.
Qed.

(** ** Revocation *)

(** The voter target after the revocation of [subject]: unchanged when it is
    not a voter, else the legal smaller target of active voters without it. *)
Definition target_after (context : reductionContext) (subject : string)
    (targets : list VoterSet.Set_) : Prop :=
  if VoterSet.Contains (voterSet (state context)) subject
  then ∃ target, targets = [target] ∧
    VoterSet.ValidateTransition VoterSet.OperationTargetVoterRevocation
      (voterSet (state context)) target = None ∧
    VoterSet.Contains target subject = false ∧
    Forall (λ id, activeDevice (state context) id = true) (VoterSet.voterDeviceIDs target)
  else targets = [].

Lemma voters_New session voters version target :
  VoterSet.New session voters version = inr target → VoterSet.voterDeviceIDs target = voters.
Proof. unfold VoterSet.New. intros Hn. repeat case_match; simplify_eq; done. Qed.

Lemma existsb_negb_Forall {A} (f : A → bool) l :
  existsb (λ x, negb (f x)) l = false → Forall (λ x, f x = true) l.
Proof.
  induction l as [|x l IH]; simpl; intros He; constructor; apply orb_false_iff in He as [Hx Hl].
  - by apply negb_false_iff.
  - by apply IH.
Qed.

Lemma revokedTarget_Val context voters targets :
  revokedTarget context voters = Val targets → target_after context (proposalID context) targets.
Proof.
  unfold revokedTarget, target_after. intros Hv.
  destruct (VoterSet.Contains _ _) eqn:Hc; val_inv Hv; [|by subst].
  subst. eexists. split; [done|]. apply orb_false_iff in Hc2 as [Hno Ht].
  apply fails_None in Ht. refine (conj Ht (conj Hno _)).
  rewrite (voters_New _ _ _ _ Hx). by apply existsb_negb_Forall.
Qed.

(** C34: An accepted membership.device_revoked makes its subject, and no other
    device, revoked at the next version with the same identity and key; it
    leaves an active owner among the devices and an active majority of the
    credential authority, and a revoked voter leaves the voter target, whose
    remaining members are active. *)
Theorem revocation_legal context o :
  Event.PKind (proposal context) = Event.KindMembershipDeviceRevoked →
  run (reduceImplemented context None) = inr o → Accepted o = true →
  ∃ current next,
    devices (state context) !! proposalID context = Some current ∧
    Event.ExpectedEntityVersion (proposal context) = Some (Device.EntityVersion current) ∧
    Devices (OChanges o) = [next] ∧
    Device.DeviceStatus current ≠ Device.StatusRevoked ∧
    Device.DeviceStatus next = Device.StatusRevoked ∧
    Device.ID next = Device.ID current ∧
    Device.IdentityPublicKey next = Device.IdentityPublicKey current ∧
    Device.EntityVersion next = (Device.EntityVersion current + 1)%N ∧
    has_owner (<[Device.ID next := next]> (devices (state context))) ∧
    length (CredentialAuthority.VoterDeviceIDs (credentialAuthority (state context))) <
      2 * activeAuthorityCountAfter (state context) next ∧
    target_after context (proposalID context) (VoterSets (OChanges o)).
Proof.
  intros Hk Hr Ha. pose proof (accepted_handler _ _ _ Hr Ha) as Hm.
  unfold reduceImplemented in Hm. rewrite Hk in Hm.
  unfold reduceMembershipDeviceRevoked in Hm. val_inv Hm. rename d into current.
  apply acceptMembership_Val in Hm as (Hd & _ & Ht & _).
  apply revokedTarget_Val in Hv4. rewrite <- Ht in Hv4. clear Ht.
  apply fails_None, Device.device_transition_identity in Hc5 as (_ & _ & _ & Hval & _).
  apply Device.device_valid_inv in Hval as (_ & _ & _ & _ & Hver).
  apply Nat.eqb_neq in Hc6. apply Nat.ltb_ge in Hc7. apply negb_decide_false in Hc2.
  match type of Hd with _ = [?next] => exists current, next end. cbn [changed].
  refine (conj eq_refl (conj Hc2 (conj Hd (conj _ (conj eq_refl (conj eq_refl (conj eq_refl
    (conj _ (conj _ (conj _ Hv4)))))))))).
  - intros Hrev. by rewrite Hrev in Hc1.
  - apply TaskProofs.bump. apply N.eqb_neq in Hc4. lia.
  - by apply activeOwnerCount_owner.
  - by apply majority_half.
Qed.

(** ** Activation of a voter set *)

(** [proves st target version authority event p voter]: [p] is the activation
    proof of an active voter, for this session, target and authority, and the
    voter's own key signed its text. *)
Definition proves (st : State) (target : list string) (version authority : N) (event : string)
    (p : decodedVoterActivationProof) (voter : string) : Prop :=
  voterDeviceID p = voter ∧ voterIDs p = target ∧ targetVersion p = version ∧
  currentAuthorityVersion p = authority ∧ checkpointEventID p = event ∧
  ∃ member, devices st !! voter = Some member ∧ Device.DeviceStatus member = Device.StatusActive ∧
    verifyLabeledSignature (Device.IdentityPublicKey member) Codec.SignatureVoterActivationProof
      (unsigned p) (voterSignature p) = true.

Lemma proof_context_inv st p voter target version authority event :
  validActivationProofContext st p voter target version authority event = true →
  verifyVoterSignature st p = true → proves st target version authority event p voter.
Proof.
  unfold validActivationProofContext, verifyVoterSignature, proves. intros Hc Hs.
  destruct (devices st !! voter) as [member|] eqn:Hm; [|done]. bools.
  destruct_and?. subst. rewrite Hm in Hs. eauto 15.
Qed.

Lemma proofContexts_Forall2 context proofs voters target version authority event :
  length proofs = length voters →
  proofContexts context proofs voters target version authority event = true →
  forallb (verifyVoterSignature (state context)) proofs = true →
  Forall2 (proves (state context) target version authority event) proofs voters.
Proof.
  revert voters. induction proofs as [|p proofs IH]; intros [|voter voters]; simpl; intros Hl Hc Hs;
    try done.
  apply andb_true_iff in Hc as [Hp Hc]. apply andb_true_iff in Hs as [Hv Hs].
  constructor; [by apply proof_context_inv|]. apply IH; [lia|done|done].
Qed.

(** A checkpoint every proof repeats, signed by an active member of the
    current authority. *)
Definition common_checkpoint (st : State) (proofs : list decodedVoterActivationProof) : Prop :=
  ∃ first signer, head proofs = Some first ∧
    Forall (λ p, liveConfigurationIndex p = liveConfigurationIndex first ∧
                 checkpointBytes p = checkpointBytes first ∧
                 checkpointSignature p = checkpointSignature first) proofs ∧
    devices st !! Domain.SignerDeviceID (checkpoint first) = Some signer ∧
    Device.DeviceStatus signer = Device.StatusActive ∧
    CredentialAuthority.Contains (credentialAuthority st) (Device.ID signer) = true ∧
    verifyLabeledSignature (Device.IdentityPublicKey signer) Codec.SignatureCheckpoint
      (checkpointBytes first) (checkpointSignature first) = true.

Lemma proofsValid_inv context proofs voters version authority event :
  length proofs = length voters →
  proofsValid context proofs voters version authority event = true →
  Forall2 (proves (state context) voters version authority event) proofs voters ∧
  common_checkpoint (state context) proofs.
Proof.
  unfold proofsValid. destruct proofs as [|first rest]; [done|]. intros Hl Hp.
  apply andb_true_iff in Hp as [Hp Hsig]. apply andb_true_iff in Hp as [Hp Hcheck].
  apply andb_true_iff in Hp as [Hctx Hsame].
  split; [by apply proofContexts_Forall2|].
  unfold verifyCheckpoint in Hcheck. destruct (devices (state context) !! _) as [signer|] eqn:Hd; [|done].
  apply andb_true_iff in Hcheck as [Hcheck Hv]. apply andb_true_iff in Hcheck as [Ha Hin].
  apply bool_decide_eq_true in Ha.
  exists first, signer. refine (conj eq_refl (conj _ (conj Hd (conj Ha (conj Hin Hv))))).
  constructor; [done|]. apply Forall_forall. intros p Hp%list_elem_of_In.
  rewrite forallb_forall in Hsame. specialize (Hsame _ Hp). unfold sameCheckpoint in Hsame.
  bools. naive_solver.
Qed.

(** C32: An accepted membership.voter_set_activated hands the credential
    authority over to the whole voter target: the new authority is the current
    voter set at its version, each of its voters is active and signed its own
    activation proof for this target and authority, all proofs share one
    checkpoint signed by an active member of the outgoing authority, and an
    active member of the outgoing authority signed the handoff. *)
Theorem activation_legal context o :
  Event.PKind (proposal context) = Event.KindMembershipVoterSetActivated →
  run (reduceImplemented context None) = inr o → Accepted o = true →
  let st := state context in
  let old := credentialAuthority st in
  ∃ next proofs signer values,
    CredentialAuthorities (OChanges o) = [next] ∧
    CredentialAuthority.ValidateTransition CredentialAuthority.OperationActivate old next = None ∧
    CredentialAuthority.VoterDeviceIDs next = VoterSet.voterDeviceIDs (voterSet st) ∧
    CredentialAuthority.VoterSetVersion next = VoterSet.VoterSetVersion (voterSet st) ∧
    Forall2 (proves st (VoterSet.voterDeviceIDs (voterSet st))
               (VoterSet.VoterSetVersion (voterSet st)) (CredentialAuthority.VoterSetVersion old)
               (CredentialAuthority.ActivationCheckpointEventID next))
      proofs (VoterSet.voterDeviceIDs (voterSet st)) ∧
    CredentialAuthority.ActivationProofs next = activationProof <$> proofs ∧
    common_checkpoint st proofs ∧
    devices st !! CredentialAuthority.PriorAuthoritySigner next = Some signer ∧
    Device.DeviceStatus signer = Device.StatusActive ∧
    CredentialAuthority.Contains old (CredentialAuthority.PriorAuthoritySigner next) = true ∧
    ∃ handoff, CredentialAuthority.PriorAuthorityHandoff next = Some handoff ∧
      verifyHandoff context signer (CredentialAuthority.VoterSetVersion next)
        (CredentialAuthority.VoterSetVersion old) (CredentialAuthority.VoterDeviceIDs next)
        (CredentialAuthority.ActivationCheckpointEventID next) values
        (CredentialAuthority.PriorAuthoritySigner next) handoff = Val true.
Proof.
  intros Hk Hr Ha st old. pose proof (accepted_handler _ _ _ Hr Ha) as Hm.
  unfold reduceImplemented in Hm. rewrite Hk in Hm.
  unfold reduceMembershipVoterSetActivated in Hm. val_inv Hm. destruct v0 as [tv av vs ev pv ps ho].
  cbn [apTargetVersion apAuthorityVersion apVoters apEventID apProofValues apPriorSigner
    apHandoff] in *. apply fails_None in Hc8. destruct v2; [|done].
  apply acceptMembership_Val in Hm as (_ & _ & _ & Hau & _).
  apply negb_false_iff in Hc0, Hc1, Hc4, Hc6. apply N.eqb_eq in Hc0, Hc1. apply Nat.eqb_eq in Hc4.
  apply negb_decide_false in Hc3. apply orb_false_iff in Hc5 as [Hact Hin].
  apply negb_decide_false in Hact. apply negb_false_iff in Hin.
  destruct (proofsValid_inv _ _ _ _ _ _ Hc4 Hc6) as [Hall Hcommon]. unfold old, st.
  rewrite <- Hc0, <- Hc1, <- Hc3.
  eexists _, v1, d, pv. refine (conj Hau (conj Hc8 (conj eq_refl (conj eq_refl (conj Hall
    (conj eq_refl (conj Hcommon (conj Hx (conj Hact (conj Hin _)))))))))).
  exists ho. exact (conj eq_refl Hv2).
Qed.

(** ** Credential epochs *)

(** A clock endorsement of the authorization: by an active member of the
    authority, over the authorization's canonical endorsement text. *)
Definition endorsed (st : State) (preimage : list N)
    (e : CredentialAuthorization.ClockEndorsement) : Prop :=
  CredentialAuthority.Contains (credentialAuthority st) (CredentialAuthorization.EDeviceID e) = true ∧
  ∃ member, devices st !! CredentialAuthorization.EDeviceID e = Some member ∧
    Device.DeviceStatus member = Device.StatusActive ∧
    verifyLabeledSignature (Device.IdentityPublicKey member)
      Codec.SignatureCredentialTimeEndorsement preimage (CredentialAuthorization.ESignature e) = true.

Lemma endorsementsOk_inv st preimage previous endorsements :
  CredentialReducers.endorsementsOk st preimage previous endorsements = true →
  Forall (endorsed st preimage) endorsements ∧
  Sorted str_lt (option_list previous ++ (CredentialAuthorization.EDeviceID <$> endorsements)).
Proof.
  revert previous. induction endorsements as [|e rest IH]; simpl; intros previous Hok.
  - split; [constructor|]. destruct previous; simpl; repeat constructor.
  - apply andb_true_iff in Hok as [Hok Hrest]. apply andb_true_iff in Hok as [Hok Hm].
    apply andb_true_iff in Hok as [_ Hle]. apply negb_true_iff in Hle.
    destruct (IH _ Hrest) as [Hall Hsorted]. split.
    + constructor; [|done]. destruct (devices st !! _) as [member|] eqn:Hd; [|done].
      apply andb_true_iff in Hm as [Hm Hs]. apply andb_true_iff in Hm as [Ha Hin].
      apply bool_decide_eq_true in Ha. split; [done|]. eauto.
    + destruct previous as [p|]; [|exact Hsorted].
      simpl in *. constructor; [exact Hsorted|]. constructor. by apply leb_false_lt.
Qed.

(** A majority of the authority endorsed the authorization, each member once. *)
Definition endorsement_quorum (st : State) (a : CredentialAuthorization.Authorization) : Prop :=
  ∃ preimage, CredentialAuthorization.CanonicalEndorsementPreimage a = inr preimage ∧
    NoDup (CredentialAuthorization.EDeviceID <$> CredentialAuthorization.ClockEndorsements a) ∧
    Forall (endorsed st preimage) (CredentialAuthorization.ClockEndorsements a) ∧
    length (CredentialAuthority.VoterDeviceIDs (credentialAuthority st)) <
      2 * length (CredentialAuthorization.ClockEndorsements a).

Lemma credential_endorsements st a :
  CredentialReducers.validateCredentialEndorsements st a = None → endorsement_quorum st a.
Proof.
  unfold CredentialReducers.validateCredentialEndorsements. cbv beta iota zeta. intros Hv. chain_inv Hv.
  destruct (CredentialAuthorization.CanonicalEndorsementPreimage a) as [|preimage] eqn:Hp; [done|].
  chain_inv Hv. apply negb_false_iff in Hc0. apply endorsementsOk_inv in Hc0 as [Hall Hs].
  exists preimage. refine (conj Hp (conj _ (conj Hall _))).
  - apply sorted_lt_NoDup, Sorted_StronglySorted; [apply _|exact Hs].
  - apply Nat.ltb_ge in Hc1. by apply majority_half.
Qed.

Lemma checkCredential_Val context a member counter u :
  CredentialReducers.checkCredential context a member counter = Val u →
  CredentialAuthorization.Epoch a = u64_succ (AuditCounter.CredentialEpoch counter) ∧
  Sum256 (CredentialAuthorization.EpochPublicKey a) = CredentialAuthorization.KeyDigest a ∧
  CredentialReducers.verifyCredentialBinding a (Device.IdentityPublicKey member) = true ∧
  credentialKeys (state context) !! CredentialAuthorization.KeyDigest a = None ∧
  MembershipState.credentialRole (CredentialAuthorization.ARole a) = Device.DeviceRole member ∧
  CredentialAuthorization.AuthorityVoterSetVersion a =
    CredentialAuthority.VoterSetVersion (credentialAuthority (state context)) ∧
  CredentialReducers.validateCredentialEndorsements (state context) a = None.
Proof.
  unfold CredentialReducers.checkCredential. intros Hv. val_inv Hv.
  apply present_None in Hc3. apply negb_decide_false in Hc1. apply negb_false_iff in Hc0, Hc2, Hc5.
  apply N.eqb_eq in Hc0, Hc5. split_and!; try done. unfold MembershipState.credentialRole.
  by destruct (CredentialAuthorization.ARole a); apply negb_decide_false in Hc4.
Qed.

(** C33: An accepted credential.authorized opens the next epoch of an active
    device: the epoch follows the one its counter holds, the key is new to the
    session and bound to the epoch by the device's identity key, the role is
    the device's, a majority of the current authority endorsed the issuing
    time, the transition from the previous epoch is legal, and the device's
    audit counter restarts at zero. *)
Theorem credential_authorized_legal context o :
  Event.PKind (proposal context) = Event.KindCredentialAuthorized →
  run (reduceImplemented context None) = inr o → Accepted o = true →
  let st := state context in
  ∃ a member counter previous,
    CredentialAuthorizations (OChanges o) = [a] ∧ CredentialAuthorization.Validate a = None ∧
    CredentialAuthorization.DeviceID a = proposalID context ∧
    devices st !! proposalID context = Some member ∧
    Device.DeviceStatus member = Device.StatusActive ∧
    MembershipState.credentialRole (CredentialAuthorization.ARole a) = Device.DeviceRole member ∧
    auditCounters st !! proposalID context = Some counter ∧
    CredentialAuthorization.Epoch a = u64_succ (AuditCounter.CredentialEpoch counter) ∧
    AuditCounters (OChanges o) =
      [AuditCounter.mkCounter (proposalID context) (CredentialAuthorization.Epoch a) 0] ∧
    Sum256 (CredentialAuthorization.EpochPublicKey a) = CredentialAuthorization.KeyDigest a ∧
    credentialKeys st !! CredentialAuthorization.KeyDigest a = None ∧
    CredentialReducers.verifyCredentialBinding a (Device.IdentityPublicKey member) = true ∧
    CredentialAuthorization.AuthorityVoterSetVersion a =
      CredentialAuthority.VoterSetVersion (credentialAuthority st) ∧
    endorsement_quorum st a ∧
    CredentialReducers.priorEpoch context (proposalID context) counter = Val previous ∧
    CredentialAuthorization.ValidateTransition previous a = None.
Proof.
  intros Hk Hr Ha st. pose proof (accepted_handler _ _ _ Hr Ha) as Hm.
  unfold reduceImplemented in Hm. rewrite Hk in Hm.
  unfold CredentialReducers.reduceCredentialAuthorized in Hm. val_inv Hm.
  apply negb_decide_false in Hc, Hc0. rewrite Hc in *.
  destruct (checkCredential_Val _ _ _ _ _ Hv) as (He & Hdig & Hbind & Hnew & Hrole & Hver & Hend).
  unfold CredentialReducers.acceptCredential in Hm. val_inv Hm. subst o. apply fails_None in Hc2.
  exists a, d, c, v0. refine (conj eq_refl (conj Hc2 (conj Hc (conj Hx0 (conj Hc0 (conj Hrole (conj Hx1
    (conj He (conj eq_refl (conj Hdig (conj Hnew (conj Hbind (conj Hver (conj _ (conj Hv0 Hx2)
    )))))))))))))).
  by apply credential_endorsements.
Qed.

End Theorems.

(** ** Witnesses *)

Section Witnesses.
Import Fixtures.
#[local] Existing Instances norm crypto jcs.

Definition two_members : State :=
  with_members [member; other_member Device.RoleEditor] sole_target sole_authority
    [AuditCounter.mkCounter device_id 0 0] (state_with [] [] [] []).

Definition revoke_context := context two_members
  (Fixtures.proposal (human_origin 4) Event.KindMembershipDeviceRevoked other_device (Some 1%N)
     (of_bytes (print (JObject
        [("device_id", JString other_device); ("expected_voter_set_version", JNumber 1);
         ("reason", JString "lost"); ("voter_set", JArray [JString device_id])])))).

Definition revoked_outcome := outcome_of (reduceImplemented revoke_context None).

Lemma revocation_legal_witness :
  ∃ next, Devices (OChanges revoked_outcome) = [next] ∧ Device.DeviceStatus next = Device.StatusRevoked.
Proof.
  destruct (revocation_legal revoke_context revoked_outcome)
    as (current & next & _ & _ & Hd & _ & Hs & _); [by vm_compute..|].
  exists next. exact (conj Hd Hs).
Defined.

Lemma owner_survives_witness :
  has_owner (write_devices (Devices (OChanges revoked_outcome)) (devices two_members)).
Proof.
  apply (owner_survives revoke_context None revoked_outcome); [|by vm_compute..|].
  - apply (keyed_rows [member; other_member Device.RoleEditor]).
  - exists device_id, member. split; by vm_compute.
Defined.

(** A second version of the same target, to be activated by its one voter. *)
Definition checkpoint_event : string := "0190a0a0-0000-7000-8000-00000000000d".
Definition activation_checkpoint : Domain.Checkpoint :=
  Domain.mkCheckpoint session_id workspace_id 0 1 device_id 1 7 4 (repeat 1%N 32) 5 (repeat 2%N 32)
    (repeat 3%N 32) 1 1.
Definition signature_text : json := JString (Codec.EncodeBase64URL signature).

Definition activation_proof : json := JObject
  [("session_id", JString session_id); ("workspace_id", JString workspace_id);
   ("recovery_generation", JNumber 0); ("target_voter_set_version", JNumber 2);
   ("current_authority_voter_set_version", JNumber 1); ("voter_set", JArray [JString device_id]);
   ("voter_device_id", JString device_id); ("live_configuration_index", JNumber 6);
   ("checkpoint_event_id", JString checkpoint_event);
   ("checkpoint", JObject (EventCheckpoint.checkpoint_wire activation_checkpoint));
   ("checkpoint_signature", signature_text); ("voter_signature", signature_text)].

Definition activate_context := context
  (with_members [member] (VoterSet.mkSet session_id 2 [device_id]) sole_authority
     [AuditCounter.mkCounter device_id 0 0] (state_with [] [] [] []))
  (Fixtures.proposal (daemon_origin 4) Event.KindMembershipVoterSetActivated session_id (Some 2%N)
     (of_bytes (print (JObject
        [("target_voter_set_version", JNumber 2);
         ("expected_authority_voter_set_version", JNumber 1);
         ("voter_set", JArray [JString device_id]);
         ("activation_checkpoint_event_id", JString checkpoint_event);
         ("activation_proofs", JArray [activation_proof]);
         ("prior_authority_signer", JString device_id);
         ("prior_authority_handoff", signature_text)])))).

Definition activated_outcome := outcome_of (reduceImplemented activate_context None).

Lemma activation_legal_witness :
  ∃ next, CredentialAuthorities (OChanges activated_outcome) = [next] ∧
    CredentialAuthority.VoterSetVersion next = 2%N.
Proof.
  destruct (activation_legal activate_context activated_outcome)
    as (next & _ & _ & _ & Hn & _ & _ & Hv & _); [by vm_compute..|].
  exists next. split; [exact Hn|]. rewrite Hv. by vm_compute.
Defined.

(** The first credential epoch of the owner's device. *)
Definition epoch_key : json := JString (Codec.EncodeBase64URL (repeat 33%N 32)).
Definition authorize_context := context two_members
  (Fixtures.proposal (daemon_origin 4) Event.KindCredentialAuthorized device_id None
     (of_bytes (print (JObject
        [("subject_device_id", JString device_id); ("epoch_public_key", epoch_key);
         ("key_digest", epoch_key); ("epoch", JNumber 1); ("role", JString "owner");
         ("issued_at", JString now); ("not_before", JString now);
         ("validity_seconds", JNumber 1800); ("authority_voter_set_version", JNumber 1);
         ("clock_endorsements", JArray [JObject
            [("device_id", JString device_id); ("signature", signature_text)]]);
         ("binding_signature", signature_text)])))).

Definition authorized_outcome := outcome_of (reduceImplemented authorize_context None).

Lemma credential_authorized_legal_witness :
  ∃ a, CredentialAuthorizations (OChanges authorized_outcome) = [a] ∧
    CredentialAuthorization.Validate a = None.
Proof.
  destruct (credential_authorized_legal authorize_context authorized_outcome)
    as (a & _ & _ & _ & Hn & Hv & _); [by vm_compute..|].
  exists a. exact (conj Hn Hv).
Defined.

End Witnesses.
End MembershipTheorems.
