(* ===== verification/ChainProofs.v ===== *)
(** * What the commitments of internal/chain bind

    [Module ChainProofs]: the projection-state digest is the digest of the
    rows in registry and key order, whatever order they come in; two states
    with the same digest have the same versions and rows, or their encodings
    exhibit two inputs with one SHA-256 digest; likewise for the chains of
    events and results and for the accumulator. *)

From stdpp Require Import base gmap strings list sorting.
From Stdlib Require Import ZArith NArith Lia.
From S2P Require Import Prelude.
From S2P Require Import GoLib.
From S2P Require Import GoJson.
From S2P Require Import CodecLayer.
From S2P Require Import GoMarshal.
From S2P Require Import ChainCommitments.

Module ChainProofs.

Import Chain.

(** ** Orders *)

Lemma bytes_le_refl a : bytes_le a a = true.
Proof. induction a as [|x a IH]; [done|]. simpl. by rewrite N.eqb_refl, IH, orb_true_r. Qed.

Lemma bytes_le_trans a b c : bytes_le a b = true → bytes_le b c = true → bytes_le a c = true.
Proof.
  revert b c. induction a as [|x a IH]; intros [|y b] [|z c]; try done. simpl.
  rewrite !orb_true_iff, !andb_true_iff, !N.ltb_lt, !N.eqb_eq.
  intros [?|[-> Hab]] [?|[-> Hbc]]; [left; lia|by left|by left|]. right. split; [done|by eapply IH].
Qed.

Lemma bytes_le_antisym a b : bytes_le a b = true → bytes_le b a = true → a = b.
Proof.
  revert b. induction a as [|x a IH]; intros [|y b]; try done. simpl.
  rewrite !orb_true_iff, !andb_true_iff, !N.ltb_lt, !N.eqb_eq.
  intros [?|[-> Hab]] [?|[? Hba]]; try lia. f_equal. by apply IH.
Qed.

Lemma bytes_le_total a b : bytes_le a b = true ∨ bytes_le b a = true.
Proof.
  revert b. induction a as [|x a IH]; intros [|y b]; try by auto. simpl.
  rewrite !orb_true_iff, !andb_true_iff, !N.ltb_lt, !N.eqb_eq.
  destruct (N.lt_trichotomy x y) as [?|[->|?]]; [by auto| |by auto].
  destruct (IH b); auto.
Qed.

#[global] Instance position_le_preorder : PreOrder position_le.
Proof.
  split.
  - intros [n k]. right. split; [done|apply bytes_le_refl].
  - intros [n1 k1] [n2 k2] [n3 k3]. unfold position_le. simpl.
    intros [?|[-> H1]] [?|[-> H2]]; [left; lia|by left|by left|].
    right. split; [done|by eapply bytes_le_trans].
Qed.

#[global] Instance position_le_antisym : AntiSymm (=) position_le.
Proof.
  intros [n1 k1] [n2 k2]. unfold position_le. simpl. intros [?|[-> H1]] [?|[? H2]]; try lia.
  f_equal. by apply bytes_le_antisym.
Qed.

#[global] Instance position_le_total : Total position_le.
Proof.
  intros [n1 k1] [n2 k2]. unfold position_le. simpl.
  destruct (Nat.lt_trichotomy n1 n2) as [?|[->|?]]; [by auto| |by auto].
  destruct (bytes_le_total k1 k2); auto.
Qed.

(** Sorting by a position: the result is the only strictly ordered
    permutation. *)
Section Sorting.
Context {A : Type} (position : A → nat * list N).
Let le (a b : A) : Prop := position_le (position a) (position b).
Context `{!∀ a b, Decision (le a b)}.

Definition ordered (l : list A) : Prop :=
  StronglySorted (λ a b, le a b ∧ position a ≠ position b) l.

#[local] Instance le_total : Total le.
Proof. intros a b. apply (total position_le). Qed.
#[local] Instance le_preorder : PreOrder le.
Proof. split; [intros a; apply (reflexivity (R := position_le))|]. intros a b c. apply (transitivity (R := position_le)). Qed.

Lemma adjacentDuplicate_ordered l :
  StronglySorted le l → adjacentDuplicate position l = false → ordered l.
Proof.
  induction 1 as [|a l Hs IH Hall]; [constructor|]. intros Hd.
  assert (Hl : adjacentDuplicate position l = false ∧
               match l with b :: _ => position a ≠ position b | [] => True end).
  { destruct l as [|b l]; [done|]. simpl in Hd. apply orb_false_iff in Hd as [Hne Hd].
    by apply bool_decide_eq_false in Hne. }
  destruct Hl as [Hl Hne]. specialize (IH Hl). constructor; [done|].
  rewrite Forall_forall in Hall |- *. intros c Hc. split; [by apply Hall|]. intros Heq.
  destruct l as [|b l]; [by apply not_elem_of_nil in Hc|].
  apply elem_of_cons in Hc as [->|Hc]; [done|]. apply Hne.
  apply (anti_symm position_le); [apply Hall; by left|]. rewrite Heq.
  apply StronglySorted_inv in IH as [_ IH]. rewrite Forall_forall in IH. by apply IH.
Qed.

Lemma ordered_adjacent l : ordered l → adjacentDuplicate position l = false.
Proof.
  induction 1 as [|a l Hs IH Hall]; [done|]. destruct l as [|b l]; [done|]. simpl.
  apply Forall_inv in Hall as [_ Hne]. by rewrite bool_decide_false.
Qed.

Lemma ordered_NoDup l : ordered l → NoDup (position <$> l).
Proof.
  induction 1 as [|a l Hs IH Hall]; [constructor|]. rewrite fmap_cons, NoDup_cons.
  split; [|done]. rewrite list_elem_of_fmap. intros (b & Heq & Hb). rewrite Forall_forall in Hall.
  by destruct (Hall b Hb).
Qed.

Lemma ordered_unique l l' : ordered l → ordered l' → l ≡ₚ l' → l = l'.
Proof.
  intros Hl. revert l'. induction Hl as [|a l Hs IH Hall]; intros l' Hl' Hp.
  { by apply Permutation_nil_l in Hp. }
  destruct Hl' as [|b l' Hs' Hall']; [by apply Permutation_nil_r in Hp|].
  rewrite Forall_forall in Hall, Hall'.
  assert (a = b) as <-.
  { assert (Ha : a ∈ b :: l') by (rewrite <-Hp; by left).
    assert (Hb : b ∈ a :: l) by (rewrite Hp; by left).
    apply elem_of_cons in Ha as [->|Ha]; [done|]. apply elem_of_cons in Hb as [->|Hb]; [done|].
    destruct (Hall b Hb) as [H1 Hne], (Hall' a Ha) as [H2 _].
    destruct Hne. by apply (anti_symm position_le). }
  f_equal. apply IH; [done|]. by apply Permutation_cons_inv in Hp.
Qed.

Lemma merge_sort_sorted l : StronglySorted le (merge_sort le l).
Proof. apply StronglySorted_merge_sort; apply _. Qed.

(** When the positions are distinct, sorting forgets the order. *)
Lemma merge_sort_ordered l : NoDup (position <$> l) → ordered (merge_sort le l).
Proof.
  intros Hnd. apply adjacentDuplicate_ordered; [apply merge_sort_sorted|].
  assert (Hnd' : NoDup (position <$> merge_sort le l)) by by rewrite merge_sort_Permutation.
  clear Hnd. induction (merge_sort le l) as [|a r IH]; [done|].
  apply NoDup_cons in Hnd' as [Ha Hnd']. destruct r as [|b r]; [done|]. simpl.
  rewrite bool_decide_false; [by apply IH|]. intros Heq. apply Ha. rewrite Heq. by left.
Qed.

Lemma merge_sort_unique l l' :
  ordered (merge_sort le l) → l ≡ₚ l' → merge_sort le l = merge_sort le l'.
Proof.
  intros Ho Hp. apply ordered_unique; [done| |by rewrite !merge_sort_Permutation].
  apply merge_sort_ordered. rewrite <-Hp, <-(merge_sort_Permutation le l). by apply ordered_NoDup.
Qed.

End Sorting.

(** ** The registry *)

Lemma lookupFrom_Some specs n table spec i :
  lookupFrom specs n table = Some (spec, i) →
  ∃ k, i = (n + k)%nat ∧ specs !! k = Some spec ∧ tableName spec = table.
Proof.
  revert n. induction specs as [|s specs IH]; intros n; simpl; [done|].
  case_bool_decide as Heq.
  - intros [= <- <-]. exists 0%nat. split; [lia|done].
  - intros (k & -> & Hk & Ht)%IH. exists (S k). split; [lia|done].
Qed.

Lemma lookupTable_Some table spec i :
  lookupTable table = Some (spec, i) →
  CoveredTables !! i = Some table ∧ (i < length coveredTableRegistry)%nat.
Proof.
  intros (k & -> & Hk & Ht)%lookupFrom_Some. rewrite Nat.add_0_l. split.
  - unfold CoveredTables. by rewrite list_lookup_fmap, Hk, <-Ht.
  - by eapply lookup_lt_Some.
Qed.

Lemma CoveredTables_length : length CoveredTables = length coveredTableRegistry.
Proof. apply length_fmap. Qed.

(** ** The digest of a state, written out *)

Lemma prepareAll_inv {A B} (prepare : A → Error + B) values all :
  prepareAll prepare values = inr all ↔ Forall2 (λ a b, prepare a = inr b) values all.
Proof.
  revert all. induction values as [|v values IH]; intros all; simpl.
  { split; [intros [= <-]; constructor|intros H; by inversion H]. }
  split.
  - destruct (prepare v) as [|b] eqn:Hv; [done|]. destruct (prepareAll prepare values) as [|r]; [done|].
    intros [= <-]. constructor; [done|]. by apply IH.
  - intros Hall. inversion Hall as [|? b ? r Hb Hr]; subst. rewrite Hb. by rewrite (proj2 (IH r) Hr).
Qed.

Lemma domain_app label a b : domain label a ++ b = domain label (a ++ b).
Proof. unfold domain. by rewrite <-app_assoc. Qed.

Section Lib.
Context `{JCSLib, CryptoLib}.

Definition rows_in (rows : list preparedRow) (i : nat) : list preparedRow :=
  filter (λ row, prTableIndex row = i) rows.

Definition row_digest (row : preparedRow) : Digest :=
  rowDigest (Table (logicalRow row)) (prPrimaryKey row) (prRow row).

Definition table_preimage (count : N) (rows : list preparedRow) (table : string) : list N :=
  domain projectionTableLabel
    (uint64Bytes (strlen table) ++ bytes_of table ++ uint64Bytes count ++
     concat (row_digest <$> rows)).

Definition table_digest (rows : list preparedRow) (i : nat) (table : string) : Digest :=
  Sum256 (table_preimage (llen (rows_in rows i)) (rows_in rows i) table).

Definition table_digests (rows : list preparedRow) : list Digest :=
  imap (table_digest rows) CoveredTables.

Definition versions_preimage (versions : Versions) : list N :=
  uint64Bytes (VDigest versions) ++ uint64Bytes (ProjectionSchema versions).

(** The preimage of the state digest of rows in order. *)
Definition state_preimage (versions : Versions) (rows : list preparedRow) : list N :=
  domain projectionStateLabel (versions_preimage versions ++ concat (table_digests rows)).

Lemma logicalRow_prepared row prepared :
  prepareRow row = inr prepared →
  logicalRow prepared = row ∧ (prTableIndex prepared < length coveredTableRegistry)%nat ∧
  ∃ spec components, lookupTable (Table row) = Some (spec, prTableIndex prepared) ∧
    validatePrimaryKey spec (PrimaryKey row) = inr components ∧
    validateLogicalRow spec components (Row row) = true.
Proof.
  unfold prepareRow. destruct (lookupTable (Table row)) as [[spec i]|] eqn:Ht; [|done].
  destruct (validatePrimaryKey spec (PrimaryKey row)) as [|components] eqn:Hk; [done|].
  destruct (validateLogicalRow spec components (Row row)) eqn:Hr; [|done]. intros [= <-]. simpl.
  destruct (lookupTable_Some _ _ _ Ht) as [Hn Hi]. split_and!; [|done|].
  - unfold logicalRow. simpl. rewrite Hn. by destruct row.
  - by exists spec, components.
Qed.

(** ** The streamed digest *)

Section Stream.
Context (versions : Versions) (all : list preparedRow).
Context (Hvalid : Forall (λ row, prepareRow (logicalRow row) = inr row) all).
Context (Hordered : ordered row_position all).

(** A digester after the rows [passed], with [rest] to come. *)
Record at_ (passed rest : list preparedRow) (d : StateDigester) : Prop := {
  at_split : all = passed ++ rest;
  at_counts : dCounts d = countRows all <$> seq 0 (length coveredTableRegistry);
  at_open : dDigest d = None;
  at_index : (dTableIndex d < length coveredTableRegistry)%nat;
  at_passed : Forall (λ row, prTableIndex row ≤ dTableIndex d)%nat passed;
  at_rest : Forall (λ row, dTableIndex d ≤ prTableIndex row)%nat rest;
  at_rows : dRowsInTable d = llen (rows_in passed (dTableIndex d));
  at_table : dTable d =
    table_preimage (countRows all (dTableIndex d)) (rows_in passed (dTableIndex d))
      (default EmptyString (CoveredTables !! dTableIndex d));
  at_state : dState d =
    domain projectionStateLabel
      (versions_preimage versions ++ concat (take (dTableIndex d) (table_digests all)));
  at_previous : rows_in passed (dTableIndex d) = [] ∨
    ∃ row, row ∈ rows_in passed (dTableIndex d) ∧ prPrimaryKey row = dPreviousPrimaryKey d }.

Lemma counts_lookup passed rest d i :
  at_ passed rest d → (i < length coveredTableRegistry)%nat →
  dCounts d !! i = Some (countRows all i).
Proof.
  intros Hat Hi. rewrite (at_counts _ _ _ Hat), list_lookup_fmap, lookup_seq_lt by done. done.
Qed.

Lemma rows_in_app l l' i : rows_in (l ++ l') i = rows_in l i ++ rows_in l' i.
Proof. apply filter_app. Qed.

Lemma rows_in_none l i : Forall (λ row, prTableIndex row ≠ i) l → rows_in l i = [].
Proof.
  induction 1 as [|r l Hr _ IH]; [done|]. unfold rows_in. by rewrite filter_cons_False.
Qed.

(** Closing a table that no row to come belongs to. *)
Lemma finish_current passed rest d :
  at_ passed rest d → Forall (λ row, prTableIndex row ≠ dTableIndex d) rest →
  rows_in all (dTableIndex d) = rows_in passed (dTableIndex d) ∧
  finishTable d = Some (mkStateDigester
    (domain projectionStateLabel (versions_preimage versions ++
       concat (take (S (dTableIndex d)) (table_digests all)))) (dTable d)
    (dCounts d) (dTableIndex d) (dRowsInTable d) (dPreviousPrimaryKey d) (dDigest d)).
Proof.
  intros Hat Hrest. pose proof (at_index _ _ _ Hat) as Hi.
  assert (Hrows : rows_in all (dTableIndex d) = rows_in passed (dTableIndex d)).
  { rewrite (at_split _ _ _ Hat), rows_in_app, (rows_in_none rest) by done. apply app_nil_r. }
  split; [done|]. unfold finishTable. rewrite (counts_lookup _ _ _ _ Hat Hi).
  change (countRows all (dTableIndex d)) with (llen (rows_in all (dTableIndex d))).
  rewrite Hrows, <-(at_rows _ _ _ Hat), N.eqb_refl. do 2 f_equal.
  rewrite (at_state _ _ _ Hat), (at_table _ _ _ Hat).
  assert (Hname : ∃ table, CoveredTables !! dTableIndex d = Some table).
  { apply lookup_lt_is_Some_2. by rewrite CoveredTables_length. }
  destruct Hname as [table Hname]. rewrite Hname. cbn [default from_option].
  assert (Hd : table_digests all !! dTableIndex d = Some (table_digest all (dTableIndex d) table)).
  { unfold table_digests. rewrite list_lookup_imap, Hname. done. }
  rewrite (take_S_r _ _ _ Hd), concat_app, domain_app. cbn [concat].
  rewrite app_nil_r, <-app_assoc. unfold table_digest.
  change (countRows all (dTableIndex d)) with (llen (rows_in all (dTableIndex d))).
  by rewrite Hrows.
Qed.

(** The start of table [i] with [rest] to come. *)
Lemma start_at passed rest d i :
  all = passed ++ rest → dCounts d = countRows all <$> seq 0 (length coveredTableRegistry) →
  dDigest d = None → dTableIndex d = i → (i < length coveredTableRegistry)%nat →
  Forall (λ row, prTableIndex row < i)%nat passed →
  Forall (λ row, i ≤ prTableIndex row)%nat rest →
  dState d = domain projectionStateLabel
    (versions_preimage versions ++ concat (take i (table_digests all))) →
  at_ passed rest (startTable d) ∧ dTableIndex (startTable d) = i.
Proof.
  intros Hall Hcounts Hopen <- Hi Hpassed Hrest Hstate. unfold startTable.
  destruct (lookup_lt_is_Some_2 CoveredTables (dTableIndex d)) as [table Hname].
  { by rewrite CoveredTables_length. }
  rewrite Hname. split; [|done].
  assert (Hnone : rows_in passed (dTableIndex d) = []).
  { apply rows_in_none. eapply Forall_impl; [exact Hpassed|]. simpl. lia. }
  split; simpl; try done.
  - eapply Forall_impl; [exact Hpassed|]. simpl. lia.
  - by rewrite Hnone.
  - rewrite Hname, Hnone, Hcounts, list_lookup_fmap, lookup_seq_lt by done. simpl.
    reflexivity.
  - by left.
Qed.

Lemma at_skip k passed rest d :
  at_ passed rest d → Forall (λ row, dTableIndex d + k ≤ prTableIndex row)%nat rest →
  (dTableIndex d + k < length coveredTableRegistry)%nat →
  ∃ d', skipTables k d = Some d' ∧ at_ passed rest d' ∧ dTableIndex d' = (dTableIndex d + k)%nat.
Proof.
  revert d. induction k as [|k IH]; intros d Hat Hrest Hi.
  { exists d. split; [done|]. split; [done|lia]. }
  destruct (finish_current _ _ _ Hat) as [_ Hf].
  { eapply Forall_impl; [exact Hrest|]. simpl. lia. }
  cbn [skipTables]. rewrite Hf. cbn [mbind option_bind].
  match goal with |- context [skipTables k (startTable ?d)] => set (next := d) end.
  destruct (start_at passed rest next (S (dTableIndex d))) as [Hnext Hindex]; try apply Hat.
  { done. } { lia. }
  { eapply Forall_impl; [apply (at_passed _ _ _ Hat)|]. simpl. lia. }
  { eapply Forall_impl; [exact Hrest|]. simpl. lia. }
  { done. }
  destruct (IH (startTable next)) as (d' & Hd' & Hat' & Hi'); [done|rewrite Hindex..|].
  - eapply Forall_impl; [exact Hrest|]. simpl. lia.
  - lia.
  - exists d'. rewrite Hindex in Hi'. split; [done|]. split; [done|lia].
Qed.

Lemma ordered_app passed row rest :
  ordered row_position (passed ++ row :: rest) →
  Forall (λ r, prTableIndex r ≤ prTableIndex row)%nat passed ∧
  Forall (λ r, prTableIndex row ≤ prTableIndex r)%nat rest ∧
  ∀ r, r ∈ passed → prTableIndex r = prTableIndex row →
    bytes_le (prPrimaryKey row) (prPrimaryKey r) = false.
Proof.
  induction passed as [|p passed IH]; simpl; intros Ho; apply StronglySorted_inv in Ho as [Ho Hall].
  - split_and!; [constructor| |set_solver]. eapply Forall_impl; [exact Hall|].
    intros r [[?|[Heq _]] _]; simpl in *; lia.
  - destruct (IH Ho) as (Hp & Hr & Hk). apply Forall_app in Hall as [_ Hall].
    apply Forall_inv in Hall as [[?|[Heq Hle]] Hne]; simpl in *.
    + split_and!; [constructor; [lia|done]|done|]. intros r [->|Hin]%elem_of_cons; [lia|by apply Hk].
    + split_and!; [constructor; [lia|done]|done|]. intros r [->|Hin]%elem_of_cons; [|by apply Hk].
      intros _. apply not_true_is_false. intros Hge. apply Hne. unfold row_position.
      by rewrite Heq, (bytes_le_antisym _ _ Hle Hge).
Qed.

Lemma countRows_bound passed row rest i :
  all = passed ++ row :: rest → prTableIndex row = i →
  (llen (rows_in passed i) < countRows all i)%N.
Proof.
  intros -> Hi. change (countRows ?l i) with (llen (rows_in l i)).
  rewrite rows_in_app. unfold rows_in at 3. rewrite filter_cons_True by done.
  unfold llen. rewrite length_app. simpl. lia.
Qed.

(** The next row is appended to its table. *)
Lemma at_append passed row rest d :
  at_ passed (row :: rest) d →
  ∃ d', Append d (logicalRow row) = inr d' ∧ at_ (passed ++ [row]) rest d'.
Proof.
  intros Hat. pose proof (at_split _ _ _ Hat) as Hsplit.
  assert (Hprep : prepareRow (logicalRow row) = inr row).
  { rewrite Forall_forall in Hvalid. apply Hvalid. rewrite Hsplit. set_solver. }
  destruct (logicalRow_prepared _ _ Hprep) as (_ & Hlt & spec & components & Ht & Hk & Hr).
  pose proof Hordered as Ho. rewrite Hsplit in Ho. apply ordered_app in Ho as (_ & Hrest & Hkeys).
  pose proof (Forall_inv (at_rest _ _ _ Hat)) as Hge. simpl in Hge.
  destruct (at_skip (prTableIndex row - dTableIndex d) _ _ _ Hat) as (d1 & Hskip & Hat1 & Hi1).
  { eapply Forall_impl; [|simpl; intros r Hr'; exact Hr']. constructor; [lia|].
    eapply Forall_impl; [exact Hrest|]. simpl. lia. }
  { lia. }
  replace (dTableIndex d + (prTableIndex row - dTableIndex d))%nat with (prTableIndex row) in Hi1
    by lia.
  unfold Append. rewrite (at_open _ _ _ Hat), bool_decide_false by (by intros []).
  rewrite (proj2 (Nat.leb_gt _ _) (at_index _ _ _ Hat)). cbn [orb]. rewrite Ht, Hskip.
  rewrite <-Hi1, Nat.eqb_refl, (counts_lookup _ _ _ _ Hat1 (at_index _ _ _ Hat1)).
  cbn [negb orb default from_option]. rewrite (at_rows _ _ _ Hat1).
  rewrite (proj2 (N.leb_gt _ _)) by (by eapply countRows_bound; [|]; rewrite ?Hi1).
  rewrite Hk, Hr. cbn [negb]. rewrite <-(at_rows _ _ _ Hat1).
  destruct (_ && _) eqn:Hdup.
  { apply andb_true_iff in Hdup as [Hne%negb_true_iff%N.eqb_neq Hle].
    destruct (at_previous _ _ _ Hat1) as [Hnil|(r & Hin & Heq)].
    { rewrite (at_rows _ _ _ Hat1), Hnil in Hne. done. }
    apply list_elem_of_filter in Hin as [Hri Hin]. rewrite <-Heq in Hle.
    rewrite Hi1 in Hri. pose proof (Hkeys r Hin Hri) as Hno. simpl in Hle. congruence. }
  eexists. split; [reflexivity|].
  assert (Hhere : rows_in [row] (dTableIndex d1) = [row])
    by (unfold rows_in; by rewrite filter_cons_True, filter_nil by done).
  split; cbn [dCounts dDigest dTableIndex dRowsInTable dTable dState dPreviousPrimaryKey].
  - by rewrite <-app_assoc.
  - apply Hat1.
  - apply Hat1.
  - apply Hat1.
  - apply Forall_app. split; [apply Hat1|]. constructor; [lia|constructor].
  - eapply Forall_impl; [exact Hrest|]. simpl. lia.
  - rewrite rows_in_app, Hhere, (at_rows _ _ _ Hat1). unfold llen. rewrite length_app. simpl. lia.
  - rewrite rows_in_app, Hhere, (at_table _ _ _ Hat1). unfold table_preimage.
    rewrite domain_app, fmap_app, concat_app, <-!app_assoc. cbn [concat fmap list_fmap].
    by rewrite app_nil_r.
  - apply Hat1.
  - right. exists row. rewrite rows_in_app, Hhere. split; [set_solver|done].
Qed.

Lemma at_appends passed rest d :
  at_ passed rest d → ∃ d', appendAll d (logicalRow <$> rest) = inr d' ∧ at_ all [] d'.
Proof.
  revert passed d. induction rest as [|row rest IH]; intros passed d Hat.
  - exists d. split; [done|]. pose proof (at_split _ _ _ Hat) as Hs. rewrite app_nil_r in Hs.
    by rewrite Hs.
  - destruct (at_append _ _ _ _ Hat) as (d1 & Ha & Hat1).
    destruct (IH _ _ Hat1) as (d2 & Hd2 & Hat2). exists d2. split; [|done].
    rewrite fmap_cons. cbn [appendAll]. by rewrite Ha.
Qed.

Lemma finishTables_S k d finished :
  finishTable d = Some finished →
  finishTables (S k) d =
  finishTables k (if (S (dTableIndex finished) <? length coveredTableRegistry)%nat
                  then startTable (advanceTable finished) else advanceTable finished).
Proof. intros Hf. cbn [finishTables]. by rewrite Hf. Qed.

Lemma finish_all k d :
  at_ all [] d → (dTableIndex d + S k = length coveredTableRegistry)%nat →
  ∃ d', finishTables (S k) d = Some d' ∧
    dState d' = state_preimage versions all.
Proof.
  revert d. induction k as [|k IH]; intros d Hat Hk;
    destruct (finish_current _ _ _ Hat (Forall_nil_2 _)) as [_ Hf];
    rewrite (finishTables_S _ _ _ Hf); cbn [dTableIndex].
  - rewrite (proj2 (Nat.ltb_ge _ _)) by lia. eexists. split; [reflexivity|]. cbn [dState advanceTable].
    unfold state_preimage. rewrite take_ge; [done|].
    unfold table_digests. rewrite length_imap, CoveredTables_length. lia.
  - rewrite (proj2 (Nat.ltb_lt _ _)) by lia.
    match goal with |- context [finishTables (S k) (startTable ?d)] => set (next := d) end.
    destruct (start_at all [] next (S (dTableIndex d))) as [Hnext Hindex]; try apply Hat.
    { done. } { lia. }
    { eapply Forall_impl; [apply (at_passed _ _ _ Hat)|]. simpl. lia. }
    { constructor. } { done. }
    apply IH; [done|]. rewrite Hindex. lia.
Qed.

End Stream.


(** ** [StateDigest] *)

Lemma table_counts_ok tables counts :
  Forall (λ n, n ≤ maxSafeInteger)%N counts →
  forallb (λ '(count, table), (CTable count == table) && (Count count <=? maxSafeInteger)%N)
    (zip (zip_with mkTableRowCount tables counts) tables) = true.
Proof.
  intros Hc. revert tables. induction Hc as [|n counts Hn _ IH]; intros [|t tables]; try done.
  simpl. rewrite bool_decide_true by done. rewrite (proj2 (N.leb_le _ _) Hn). apply IH.
Qed.

Lemma counts_of_zip tables counts :
  length tables = length counts → Count <$> zip_with mkTableRowCount tables counts = counts.
Proof.
  revert counts. induction tables as [|t tables IH]; intros [|n counts]; try done.
  intros [= Hl]. simpl. by rewrite IH.
Qed.

Lemma prepared_valid rows prepared :
  Forall2 (λ row p, prepareRow row = inr p) rows prepared →
  Forall (λ p, prepareRow (logicalRow p) = inr p) prepared.
Proof.
  induction 1 as [|row p rows prepared Hp _ IH]; constructor; [|done].
  destruct (logicalRow_prepared _ _ Hp) as (-> & _). done.
Qed.

(** The digest of a strictly ordered list of valid rows. *)
Lemma digest_ordered versions all :
  validateStateDigestVersions versions = None →
  Forall (λ p, prepareRow (logicalRow p) = inr p) all → ordered row_position all →
  (llen all ≤ maxSafeInteger)%N →
  ∃ d0 d1, NewStateDigester versions
      (zip_with mkTableRowCount CoveredTables
         (countRows all <$> seq 0 (length coveredTableRegistry))) = inr d0 ∧
    appendAll d0 (logicalRow <$> all) = inr d1 ∧
    Sum d1 = inr (Sum256 (state_preimage versions all)).
Proof.
  intros Hv Hvalid Ho Hlen.
  assert (Hl : length CoveredTables = length (countRows all <$> seq 0 (length coveredTableRegistry))).
  { by rewrite CoveredTables_length, length_fmap, length_seq. }
  assert (Hnew : ∃ d0, NewStateDigester versions
      (zip_with mkTableRowCount CoveredTables
         (countRows all <$> seq 0 (length coveredTableRegistry))) = inr d0 ∧
      at_ versions all [] all d0).
  { unfold NewStateDigester. rewrite Hv.
    rewrite length_zip_with, <-Hl, Nat.min_id, CoveredTables_length, Nat.eqb_refl.
    rewrite table_counts_ok; [|].
    2: { apply Forall_fmap, Forall_true. intros i. simpl. unfold countRows, llen in *.
         pose proof (length_filter (λ row, prTableIndex row = i) all). lia. }
    rewrite counts_of_zip by done. cbn [negb orb]. eexists. split; [reflexivity|].
    match goal with |- at_ _ _ _ _ (startTable ?d) =>
      destruct (start_at versions all [] all d 0) as [Hat _]; try done end.
    - vm_compute. lia.
    - apply Forall_true. lia. }
  destruct Hnew as (d0 & Hnew & Hat). exists d0.
  destruct (at_appends versions all Hvalid Ho _ _ _ Hat) as (d1 & Happ & Hat1). exists d1.
  split; [done|]. split; [done|]. unfold Sum. rewrite (at_open _ _ _ _ _ Hat1).
  pose proof (at_index _ _ _ _ _ Hat1) as Hi.
  replace (length coveredTableRegistry - dTableIndex d1)%nat
    with (S (length coveredTableRegistry - dTableIndex d1 - 1)) by lia.
  destruct (finish_all versions all (length coveredTableRegistry - dTableIndex d1 - 1) d1)
    as (d2 & Hf & Hs); [done|lia|]. by rewrite Hf, Hs.
Qed.

Lemma StateDigest_iff versions rows d :
  (llen rows ≤ maxSafeInteger)%N →
  StateDigest versions rows = inr d ↔
  validateStateDigestVersions versions = None ∧
  ∃ prepared, Forall2 (λ row p, prepareRow row = inr p) rows prepared ∧
    NoDup (row_position <$> prepared) ∧
    d = Sum256 (state_preimage versions (merge_sort row_le prepared)).
Proof.
  intros Hlen. unfold StateDigest.
  destruct (validateStateDigestVersions versions) as [err|] eqn:Hv; [by split; [|intros []]|].
  assert (Hsorted : ∀ prepared, Forall2 (λ row p, prepareRow row = inr p) rows prepared →
    ordered row_position (merge_sort row_le prepared) → ∃ d0 d1,
    NewStateDigester versions
      (zip_with mkTableRowCount CoveredTables
         (countRows (merge_sort row_le prepared) <$> seq 0 (length coveredTableRegistry))) = inr d0 ∧
    appendAll d0 (logicalRow <$> merge_sort row_le prepared) = inr d1 ∧
    Sum d1 = inr (Sum256 (state_preimage versions (merge_sort row_le prepared)))).
  { intros prepared Hp Ho. apply digest_ordered; [done| |done|].
    - rewrite merge_sort_Permutation. by eapply prepared_valid.
    - unfold llen in *. rewrite (Permutation_length (merge_sort_Permutation _ prepared)).
      by rewrite <-(Forall2_length _ _ _ Hp). }
  destruct (prepareAll prepareRow rows) as [err|prepared] eqn:Hp.
  { split; [done|]. intros (_ & prepared & Hall%prepareAll_inv & _). congruence. }
  apply prepareAll_inv in Hp.
  destruct (adjacentDuplicate _ _) eqn:Hd.
  - split; [done|]. intros (_ & p & Hall & Hnd & _).
    assert (p = prepared) as -> by (apply prepareAll_inv in Hall, Hp; congruence).
    by rewrite (ordered_adjacent _ _ (merge_sort_ordered row_position _ Hnd)) in Hd.
  - assert (Ho : ordered row_position (merge_sort row_le prepared)).
    { apply adjacentDuplicate_ordered; [exact (merge_sort_sorted row_position prepared)|done]. }
    destruct (Hsorted _ Hp Ho) as (d0 & d1 & -> & -> & ->). split.
    + intros [= <-]. split; [done|]. exists prepared. split; [done|]. split; [|done].
      rewrite <-(merge_sort_Permutation row_le prepared). by apply ordered_NoDup.
    + intros (_ & p & Hall & _ & ->).
      assert (p = prepared) as -> by (apply prepareAll_inv in Hall, Hp; congruence). done.
Qed.

(** ** What equal digests say

    Two texts that were hashed, one among [xs] and one among [ys], with one
    digest are equal or a collision. *)
Definition collision (xs ys : list (list N)) : Prop :=
  ∃ a b, a ∈ xs ∧ b ∈ ys ∧ a ≠ b ∧ Sum256 a = Sum256 b.

Lemma Sum256_inj xs ys a b :
  a ∈ xs → b ∈ ys → Sum256 a = Sum256 b → a = b ∨ collision xs ys.
Proof.
  intros Ha Hb Heq. destruct (decide (a = b)) as [|Hne]; [by left|]. right. by exists a, b.
Qed.

Lemma collision_mono xs ys xs' ys' :
  collision xs ys → xs ⊆ xs' → ys ⊆ ys' → collision xs' ys'.
Proof. intros (a & b & Ha & Hb & Hne & Heq) Hx Hy. exists a, b. set_solver. Qed.

Lemma all_or {A} (P : A → Prop) (Q : Prop) (l : list A) :
  (∀ a, a ∈ l → P a ∨ Q) → (∀ a, a ∈ l → P a) ∨ Q.
Proof.
  induction l as [|a l IH]; intros Hall; [left; set_solver|].
  destruct (Hall a) as [Ha|]; [by left| |by right].
  destruct IH as [Hl|]; [intros b Hb; apply Hall; by right| |by right].
  left. intros b [->|Hb]%elem_of_cons; [done|by apply Hl].
Qed.

(** The texts hashed for the digest of the rows [l]. *)
Definition row_preimage (table : string) (primaryKey row : list N) : list N :=
  domain projectionRowLabel
    (concat [uint64Bytes (strlen table); bytes_of table; uint64Bytes (llen primaryKey); primaryKey;
             uint64Bytes (llen row); row]).

Definition table_text (l : list preparedRow) (i : nat) (table : string) : list N :=
  table_preimage (llen (rows_in l i)) (rows_in l i) table.

Definition hashed (versions : Versions) (l : list preparedRow) : list (list N) :=
  state_preimage versions l :: imap (table_text l) CoveredTables ++
  ((λ row, row_preimage (Table (logicalRow row)) (prPrimaryKey row) (prRow row)) <$> l).

Lemma app_inj_len (a a' b b' : list N) :
  length a = length a' → a ++ b = a' ++ b' → a = a' ∧ b = b'.
Proof. intros Hl Heq. by apply app_inj_1. Qed.

Lemma domain_inj label a b : domain label a = domain label b → a = b.
Proof. unfold domain. intros Heq. apply app_inv_head in Heq. by injection Heq. Qed.

Lemma uint64Bytes_length n : length (uint64Bytes n) = 8.
Proof. done. Qed.

Lemma byte_step (n m k : N) :
  (n / 2 ^ (8 * (k + 1)))%N = (m / 2 ^ (8 * (k + 1)))%N →
  N.land (N.shiftr n (8 * k)) 255 = N.land (N.shiftr m (8 * k)) 255 →
  (n / 2 ^ (8 * k))%N = (m / 2 ^ (8 * k))%N.
Proof.
  change 255%N with (N.ones 8). rewrite !N.land_ones, !N.shiftr_div_pow2.
  replace (8 * (k + 1))%N with (8 * k + 8)%N by lia. rewrite N.pow_add_r.
  rewrite <-!N.Div0.div_div. intros Hq Hr.
  rewrite (N.div_mod' (n / 2 ^ (8 * k)) (2 ^ 8)), (N.div_mod' (m / 2 ^ (8 * k)) (2 ^ 8)).
  by rewrite Hq, Hr.
Qed.

Lemma uint64Bytes_inj n m :
  (n < 2 ^ 64)%N → (m < 2 ^ 64)%N → uint64Bytes n = uint64Bytes m → n = m.
Proof.
  intros Hn Hm Heq. unfold uint64Bytes in Heq. cbn [fmap list_fmap] in Heq.
  injection Heq as H7 H6 H5 H4 H3 H2 H1 H0'.
  assert (H8 : (n / 2 ^ (8 * 8))%N = (m / 2 ^ (8 * 8))%N).
  { change (8 * 8)%N with 64%N. by rewrite !N.div_small. }
  apply (byte_step n m 7), (byte_step n m 6), (byte_step n m 5), (byte_step n m 4),
    (byte_step n m 3), (byte_step n m 2), (byte_step n m 1), (byte_step n m 0) in H8; try done.
  change (8 * 0)%N with 0%N in H8. by rewrite !N.pow_0_r, !N.div_1_r in H8.
Qed.

(** A sequence of digests is read back from its concatenation. *)
Lemma concat_digests_inj (xs ys : list Digest) :
  Forall (λ d, length d = 32) xs → Forall (λ d, length d = 32) ys →
  concat xs = concat ys → xs = ys.
Proof.
  intros Hx. revert ys. induction Hx as [|x xs Hl _ IH]; intros ys Hy Heq.
  - destruct Hy as [|y ys Hl _]; [done|]. simpl in Heq. by destruct y.
  - destruct Hy as [|y ys Hl' Hy]; simpl in Heq; [by destruct x|].
    apply app_inj_len in Heq as [-> Heq]; [|congruence]. f_equal. by apply IH.
Qed.

Lemma Sum256_32 {A} (f : A → list N) l : Forall (λ d, length d = 32) ((λ a, Sum256 (f a)) <$> l).
Proof. apply Forall_fmap, Forall_true. intros a. apply Sum256_length. Qed.

(** Sizes the row checks establish. *)
Lemma validateJSON_size input maxBytes v :
  Codec.validateJSON input maxBytes = inr v → (llen input ≤ maxBytes)%N.
Proof.
  unfold Codec.validateJSON. destruct (maxBytes <? llen input)%N eqn:Hs; [done|].
  intros _. by apply N.ltb_ge.
Qed.

Lemma prepared_sizes row p :
  prepareRow row = inr p →
  (llen (prPrimaryKey p) ≤ Codec.maxCanonicalJSONBytes)%N ∧
  (llen (prRow p) ≤ Codec.maxSignedObjectJSONBytes)%N.
Proof.
  intros Hp. pose proof (logicalRow_prepared _ _ Hp) as (<- & _ & spec & components & _ & Hk & Hr).
  simpl in Hk, Hr. split.
  - unfold validatePrimaryKey, Codec.Canonicalize in Hk.
    destruct (Codec.validateJSON _ _) eqn:Hj; [done|]. by eapply validateJSON_size.
  - unfold validateLogicalRow, validateCanonicalObject, Codec.CanonicalizeSignedObject in Hr.
    destruct (Codec.validateJSON _ _) eqn:Hj; [done|]. by eapply validateJSON_size.
Qed.

Lemma small_u64 n : (n ≤ maxSafeInteger)%N → (n < 2 ^ 64)%N.
Proof. unfold maxSafeInteger. lia. Qed.

(** One row: the key and the row text are framed by their lengths. *)
Lemma row_preimage_inj table key row key' row' :
  (llen key < 2 ^ 64)%N → (llen key' < 2 ^ 64)%N →
  row_preimage table key row = row_preimage table key' row' → key = key' ∧ row = row'.
Proof.
  intros Hk Hk' Heq%domain_inj.
  cbn [concat] in Heq. rewrite !app_nil_r in Heq.
  do 2 (apply app_inv_head in Heq).
  apply app_inj_len in Heq as [Hl Heq]; [|done]. apply uint64Bytes_inj in Hl; [|done..].
  apply app_inj_len in Heq as [-> Heq]; [|unfold llen in Hl; lia]. split; [done|].
  by apply app_inj_len in Heq as [_ ->].
Qed.

Section Binding.
Context (versions versions' : Versions) (l l' : list preparedRow).
Let collided : Prop := collision (hashed versions l) (hashed versions' l').
Context (Hl : Forall (λ p, prepareRow (logicalRow p) = inr p) l).
Context (Hl' : Forall (λ p, prepareRow (logicalRow p) = inr p) l').

Lemma rows_in_elem (m : list preparedRow) i row : row ∈ rows_in m i ↔ prTableIndex row = i ∧ row ∈ m.
Proof. unfold rows_in. by rewrite list_elem_of_filter. Qed.

Lemma row_hashed v m row :
  row ∈ m →
  row_preimage (Table (logicalRow row)) (prPrimaryKey row) (prRow row) ∈ hashed v m.
Proof.
  intros Hr. apply elem_of_cons. right. apply elem_of_app. right. by apply list_elem_of_fmap_2'
    with (x := row).
Qed.

Lemma table_hashed v m i table :
  CoveredTables !! i = Some table → table_text m i table ∈ hashed v m.
Proof.
  intros Ht. apply elem_of_cons. right. apply elem_of_app. left. apply list_elem_of_lookup.
  exists i. by rewrite list_lookup_imap, Ht.
Qed.

Lemma row_digests_inj i (rs rs' : list preparedRow) :
  rs ⊆ rows_in l i → rs' ⊆ rows_in l' i → row_digest <$> rs = row_digest <$> rs' →
  rs = rs' ∨ collided.
Proof.
  revert rs'. induction rs as [|r rs IH]; intros [|r' rs'] Hs Hs' Heq; try done; [by left|].
  rewrite !fmap_cons in Heq. injection Heq as Hd Heq.
  destruct (IH rs') as [->|]; [set_solver|set_solver|done| |by right].
  assert (Hr : r ∈ rows_in l i) by (apply Hs; by left).
  assert (Hr' : r' ∈ rows_in l' i) by (apply Hs'; by left).
  apply rows_in_elem in Hr as [Hi Hr], Hr' as [Hi' Hr'].
  rewrite Forall_forall in Hl, Hl'.
  pose proof (prepared_sizes _ _ (Hl _ Hr)) as [Hk _].
  pose proof (prepared_sizes _ _ (Hl' _ Hr')) as [Hk' _].
  apply (Sum256_inj (hashed versions l) (hashed versions' l')) in Hd as [Hd|];
    [|by right|by apply row_hashed..].
  unfold logicalRow in Hd. rewrite Hi, Hi' in Hd.
  apply row_preimage_inj in Hd as [Hkey Hrow]; [|unfold Codec.maxCanonicalJSONBytes in *; lia..].
  left. f_equal. destruct r, r'; simpl in *. by subst.
Qed.

Lemma table_digest_inj i table :
  CoveredTables !! i = Some table →
  table_digest l i table = table_digest l' i table → rows_in l i = rows_in l' i ∨ collided.
Proof.
  intros Ht Heq. apply (Sum256_inj (hashed versions l) (hashed versions' l')) in Heq as [Heq|];
    [|by right|by apply table_hashed..].
  apply domain_inj in Heq.
  do 2 (apply app_inv_head in Heq). apply app_inj_len in Heq as [_ Heq]; [|done].
  apply concat_digests_inj in Heq; [|apply Sum256_32..].
  by apply (row_digests_inj i).
Qed.

Lemma states_inj :
  Forall (λ p, prTableIndex p < length coveredTableRegistry)%nat l →
  Forall (λ p, prTableIndex p < length coveredTableRegistry)%nat l' →
  validateStateDigestVersions versions = None → validateStateDigestVersions versions' = None →
  Sum256 (state_preimage versions l) = Sum256 (state_preimage versions' l') →
  versions = versions' ∧ (∀ p, p ∈ l ↔ p ∈ l') ∨ collided.
Proof.
  intros Hi Hi' Hv Hv' Heq.
  apply (Sum256_inj (hashed versions l) (hashed versions' l')) in Heq as [Heq|];
    [|by right|by left..].
  apply domain_inj in Heq.
  unfold versions_preimage in Heq. rewrite <-!app_assoc in Heq.
  apply app_inj_len in Heq as [Hd Heq]; [|done]. apply app_inj_len in Heq as [Hs Heq]; [|done].
  unfold validateStateDigestVersions in Hv, Hv'.
  apply refuse_None in Hv as [Hv _], Hv' as [Hv' _]. bools.
  apply uint64Bytes_inj in Hd; [|apply small_u64; lia..].
  apply uint64Bytes_inj in Hs; [|apply small_u64; lia..].
  assert (Hdigests : table_digests l = table_digests l').
  { apply concat_digests_inj in Heq; [done|..]; unfold table_digests; apply Forall_lookup_2;
      intros i x; rewrite list_lookup_imap; destruct (_ !! i); [|done| |done];
      intros [= <-]; apply Sum256_length. }
  destruct (all_or (λ i, rows_in l i = rows_in l' i) collided
              (seq 0 (length coveredTableRegistry))) as [Hrows|]; [| |by right].
  - intros i [_ Hlt]%elem_of_seq.
    destruct (lookup_lt_is_Some_2 CoveredTables i) as [table Hname].
    { rewrite CoveredTables_length. done. }
    apply (f_equal (λ ds, ds !! i)) in Hdigests. unfold table_digests in Hdigests.
    rewrite !list_lookup_imap, Hname in Hdigests. injection Hdigests as Hdigests.
    by apply (table_digest_inj i table).
  - left. split; [destruct versions, versions'; simpl in *; by subst|].
    rewrite Forall_forall in Hi, Hi'. intros p. split; intros Hp.
    + assert (Hin : p ∈ rows_in l (prTableIndex p)) by by apply rows_in_elem.
      rewrite Hrows in Hin; [by apply rows_in_elem in Hin as [_ ?]|].
      apply elem_of_seq. pose proof (Hi p Hp). simpl in *. lia.
    + assert (Hin : p ∈ rows_in l' (prTableIndex p)) by by apply rows_in_elem.
      rewrite <-Hrows in Hin; [by apply rows_in_elem in Hin as [_ ?]|].
      apply elem_of_seq. pose proof (Hi' p Hp). simpl in *. lia.
Qed.

End Binding.

End Lib.
End ChainProofs.

(** ** What a chain head binds

    [Module ChainHeads]: a head is a fold of domain-separated digests over a
    seed. Two heads that are equal have the same seed and the same parts, or
    two of the texts hashed for them collide; seeds and appended entries can
    never be taken for one another. The lemmas serve the chain of events, the
    chain of results and the projection accumulator. *)

Module ChainHeads.

Import Chain ChainProofs.

(** ** Folds of digests *)

Section Heads.
Context `{CryptoLib} (label : string).

Definition next_head (previous : Digest) (part : list N) : Digest :=
  Sum256 (domain label (previous ++ part)).

Definition head_of (seed : list N) (parts : list (list N)) : Digest :=
  foldl next_head (Sum256 (domain label seed)) parts.

(** The texts hashed on the way. *)
Fixpoint step_texts (previous : Digest) (parts : list (list N)) : list (list N) :=
  match parts with
  | [] => []
  | part :: rest => domain label (previous ++ part) :: step_texts (next_head previous part) rest
  end.

Definition chain_texts (seed : list N) (parts : list (list N)) : list (list N) :=
  domain label seed :: step_texts (Sum256 (domain label seed)) parts.

(** No part after a digest is the seed. *)
Definition apart (seed : list N) (parts : list (list N)) : Prop :=
  ∀ d part, length d = 32 → part ∈ parts → seed ≠ d ++ part.

Lemma head_snoc seed parts part :
  head_of seed (parts ++ [part]) = next_head (head_of seed parts) part.
Proof. unfold head_of. by rewrite foldl_app. Qed.

Lemma head_length seed parts : length (head_of seed parts) = 32.
Proof.
  destruct parts as [|part parts _] using rev_ind; [apply Sum256_length|].
  rewrite head_snoc. apply Sum256_length.
Qed.

Lemma texts_snoc seed parts part :
  chain_texts seed (parts ++ [part]) =
  chain_texts seed parts ++ [domain label (head_of seed parts ++ part)].
Proof.
  unfold chain_texts, head_of. simpl. f_equal.
  generalize (Sum256 (domain label seed)) as prev. induction parts as [|p parts IH]; [done|].
  intros prev. simpl. f_equal. apply IH.
Qed.

Lemma apart_prefix seed parts part : apart seed (parts ++ [part]) → apart seed parts.
Proof. intros Ha d p Hd Hp. apply Ha; [done|set_solver]. Qed.

Lemma last_apart seed parts part prev :
  apart seed (parts ++ [part]) → length prev = 32 → seed ≠ prev ++ part.
Proof. intros Ha Hl. apply Ha; [done|set_solver]. Qed.

Lemma heads_inj seed seed' parts parts' :
  apart seed parts' → apart seed' parts → head_of seed parts = head_of seed' parts' →
  seed = seed' ∧ parts = parts' ∨ collision (chain_texts seed parts) (chain_texts seed' parts').
Proof.
  revert parts'. induction parts as [|p parts IH] using rev_ind; intros parts' Ha Ha' Heq;
    destruct parts' as [|p' parts' _] using rev_ind.
  - apply (Sum256_inj (chain_texts seed []) (chain_texts seed' [])) in Heq as [Heq|];
      [|by right|by left..]. left. split; [by apply domain_inj in Heq|done].
  - rewrite head_snoc, texts_snoc in *.
    apply (Sum256_inj (chain_texts seed [])
      (chain_texts seed' parts' ++ [domain label (head_of seed' parts' ++ p')])) in Heq as [Heq|];
      [|by right|by left|set_solver].
    apply domain_inj in Heq. by apply (last_apart _ _ _ _ Ha (head_length seed' parts')) in Heq.
  - rewrite head_snoc, texts_snoc in *.
    apply (Sum256_inj (chain_texts seed parts ++ [domain label (head_of seed parts ++ p)])
      (chain_texts seed' [])) in Heq as [Heq|]; [|by right|set_solver|by left].
    apply domain_inj in Heq. symmetry in Heq.
    by apply (last_apart _ _ _ _ Ha' (head_length seed parts)) in Heq.
  - rewrite !head_snoc in Heq. rewrite !texts_snoc.
    apply (Sum256_inj (chain_texts seed parts ++ [domain label (head_of seed parts ++ p)])
      (chain_texts seed' parts' ++ [domain label (head_of seed' parts' ++ p')])) in Heq as [Heq|];
      [|by right|set_solver..].
    apply domain_inj, app_inj_len in Heq as [Heq ->]; [|by rewrite !head_length].
    destruct (IH parts') as [[-> ->]|Hc]; [by eapply apart_prefix..|done|by left|].
    right. eapply collision_mono; [exact Hc|set_solver..].
Qed.

End Heads.

(** ** First bytes *)

(** A text that reads as JSON does not begin with a zero byte. *)
Lemma validated_first input maxBytes v :
  Codec.validateJSON input maxBytes = inr v → ∃ b r, input = b :: r ∧ b ≠ 0%N.
Proof.
  unfold Codec.validateJSON. destruct (_ <? _)%N; [done|].
  destruct (negb _); [done|]. destruct (Codec.validateSurrogateEscapes _); [done|].
  destruct input as [|b r]; [done|]. intros Hr. exists b, r. split; [done|]. intros ->.
  unfold JSON.read_value in Hr. simpl length in Hr. unfold JSON.read_fuel in Hr.
  replace (2 * S (length r) + 2)%nat with (S (2 * S (length r) + 1)) in Hr by lia. done.
Qed.

Section Objects.
Context `{JCSLib}.

Lemma object_first value :
  validateCanonicalObject value = None → ∃ b r, value = b :: r ∧ b ≠ 0%N.
Proof.
  unfold validateCanonicalObject, Codec.CanonicalizeSignedObject.
  destruct (Codec.validateJSON _ _) eqn:Hv; [done|]. intros _. by eapply validated_first.
Qed.

End Objects.

(** ** Boundary seeds *)

(** Digests are arrays of 32 bytes. *)
Definition boundary_sized (b : Boundary) : Prop :=
  length (Genesis b) = 32 ∧ length (ChainHash b) = 32 ∧ length (ResultHash b) = 32.

Definition boundary_text (b : Boundary) : list N :=
  if (Generation b =? 0)%N then Genesis b
  else concat [Genesis b; uint64Bytes (Generation b); uint64Bytes (ChainIndex b);
               ChainHash b; uint64Bytes (ResultIndex b); ResultHash b].

Lemma boundarySeed_text `{CryptoLib} label b :
  boundarySeed label b = Sum256 (domain label (boundary_text b)).
Proof.
  unfold boundarySeed, boundary_text, digestDomain. destruct (_ =? _)%N; [|done].
  simpl. by rewrite app_nil_r.
Qed.

(** An index fills seven bytes at most. *)
Lemma uint64Bytes_safe n :
  (n ≤ maxSafeInteger)%N → ∃ r, uint64Bytes n = 0%N :: r.
Proof.
  intros Hn. eexists. unfold uint64Bytes. cbn [fmap list_fmap]. f_equal.
  change 255%N with (N.ones 8). rewrite N.land_ones, N.shiftr_div_pow2, N.div_small; [done|].
  unfold maxSafeInteger in Hn. simpl. lia.
Qed.

Lemma boundary_apart b parts :
  boundary_sized b → validateBoundary b = None →
  (∀ part, part ∈ parts → ∃ x r, part = x :: r ∧ x ≠ 0%N) → apart (boundary_text b) parts.
Proof.
  intros (Hg & _ & _) Hv Hparts d part Hd Hin Heq. destruct (Hparts part Hin) as (x & r & -> & Hx).
  unfold boundary_text in Heq. destruct (_ =? _)%N.
  - apply (f_equal length) in Heq. rewrite length_app in Heq. simpl in Heq. lia.
  - cbn [concat] in Heq. apply app_inj_len in Heq as [_ Heq]; [|by rewrite Hg].
    apply refuse_None in Hv as [Hv _]. bools.
    destruct (uint64Bytes_safe (Generation b)) as [r' Hr]; [lia|]. rewrite Hr in Heq.
    by injection Heq as <-.
Qed.

Lemma boundary_text_inj b b' :
  boundary_sized b → boundary_sized b' → validateBoundary b = None → validateBoundary b' = None →
  boundary_text b = boundary_text b' → b = b'.
Proof.
  intros (Hg & Hc & Hr) (Hg' & Hc' & Hr') Hv Hv' Heq. unfold validateBoundary in Hv, Hv'.
  apply refuse_None in Hv as [Hs [_ [Hz _]%refuse_None]%refuse_None].
  apply refuse_None in Hv' as [Hs' [_ [Hz' _]%refuse_None]%refuse_None].
  unfold boundary_text in Heq. destruct b as [g n ci ri ch rh], b' as [g' n' ci' ri' ch' rh'].
  cbn [concat Genesis Generation ChainIndex ResultIndex ChainHash ResultHash] in *.
  destruct (n =? 0)%N eqn:Hn, (n' =? 0)%N eqn:Hn'.
  - bools. destruct Hz as [|[[[-> ->] ->] ->]]; [done|].
    destruct Hz' as [|[[[-> ->] ->] ->]]; [done|]. by subst.
  - apply (f_equal length) in Heq. rewrite !length_app in Heq. simpl in Heq. lia.
  - apply (f_equal length) in Heq. rewrite !length_app in Heq. simpl in Heq. lia.
  - bools. apply app_inj_len in Heq as [-> Heq]; [|by rewrite Hg].
    apply app_inj_len in Heq as [Hgen Heq]; [|done].
    apply app_inj_len in Heq as [Hci Heq]; [|done].
    apply app_inj_len in Heq as [-> Heq]; [|by rewrite Hc].
    apply app_inj_len in Heq as [Hri Heq]; [|done].
    apply app_inj_len in Heq as [-> _]; [|by rewrite Hr].
    apply uint64Bytes_inj in Hgen, Hci, Hri; try (apply small_u64; lia). by subst.
Qed.

End ChainHeads.
