(* ===== verification/ChainTheorems.v ===== *)
(** * Mutation sets and the projection accumulator

    [Module MutationProofs]: a mutation set is encoded in table and key order,
    decoding yields it again in that order, and nothing else decodes. The
    accumulator frames its parts, so equal heads have equal histories or two
    of the hashed texts collide. *)

From stdpp Require Import base gmap strings list sorting pretty.
From Stdlib Require Import ZArith NArith Lia.
From S2P Require Import Prelude.
From S2P Require Import GoLib.
From S2P Require Import GoJson.
From S2P Require Import CodecLayer.
From S2P Require Import GoMarshal.
From S2P Require Import RawJson.
From S2P Require Import ChainCommitments.
From S2P Require Import Fixtures.
From S2P Require Import ChainProofs.

(** RFC 8785 emits no white space: canonical text neither begins nor ends with
    any. *)
Class JCSTrimmed `{JCSLib} := {
  jcs_leading : ∀ v, JSON.skip (jcs_Append v) = jcs_Append v;
  jcs_trailing : ∀ v, JSON.skip (rev (jcs_Append v)) = rev (jcs_Append v) }.

Module MutationProofs.

Import Chain ChainProofs ChainHeads RawJson.

Section Lib.
Context `{JCSTrimmed, CryptoLib}.

(** ** Canonical members are whole values *)

Lemma validated_read input maxBytes v :
  Codec.validateJSON input maxBytes = inr v →
  ∃ w rest, JSON.read_value input = Some (w, rest) ∧ JSON.skip rest = [] ∧
    Codec.consumeValue 0 w = inr v.
Proof.
  unfold Codec.validateJSON. destruct (_ <? _)%N; [done|]. destruct (negb _); [done|].
  destruct (Codec.validateSurrogateEscapes _); [done|].
  destruct (JSON.read_value input) as [[w rest]|]; [|done].
  destruct (Codec.consumeValue 0 w) as [|x] eqn:Hc; [done|].
  destruct (JSON.skip rest == []) eqn:Hr; [|done]. intros [= <-]. bools. by exists w, rest.
Qed.

Lemma canonical_exact X : validateCanonicalObject X = None → ∃ members, exact X (JSON.VObject members).
Proof.
  unfold validateCanonicalObject, Codec.CanonicalizeSignedObject.
  destruct (Codec.validateJSON X _) as [|v] eqn:Hv; [done|].
  destruct v as [| | | | |members]; try done. intros [Heq _]%refuse_None. bools.
  apply validated_read in Hv as (w & rest & Hr & Hrest & Hc).
  assert (∃ ms, w = JSON.VObject ms) as [ms ->].
  { destruct w as [|b|token|text|items|ms]; try done; [| |by eexists]; simpl in Hc;
      repeat case_match; done. }
  exists ms. apply (exact_trimmed _ _ rest); [done|done|..]; rewrite <-Heq;
    [apply jcs_leading|apply jcs_trailing].
Qed.

Lemma key_exact spec key components :
  validatePrimaryKey spec key = inr components → ∃ v, exact key v.
Proof.
  unfold validatePrimaryKey, Codec.Canonicalize.
  destruct (Codec.validateJSON key _) as [|v] eqn:Hv; [done|].
  destruct (JSON.raw_array key); [|done]. destruct (_ || _) eqn:Hor; [done|]. intros _. bools.
  destruct Hor as [[Heq _] _].
  apply validated_read in Hv as (w & rest & Hr & Hrest & _). exists w.
  apply (exact_trimmed _ _ rest); [done|done|..]; rewrite <-Heq;
    [apply jcs_leading|apply jcs_trailing].
Qed.

Lemma row_canonical spec components row :
  validateLogicalRow spec components row = true → validateCanonicalObject row = None.
Proof. unfold validateLogicalRow. by destruct (validateCanonicalObject row). Qed.

(** ** One mutation *)

Definition mutation_members (m : Mutation) : list (string * list N) :=
  [("after", nullableJSON (After m)); ("before", nullableJSON (Before m));
   ("primary_key", MPrimaryKey m); ("table", Marshal.quote (MTable m))].

Lemma encodeMutation_text m : encodeMutation m = object_text (mutation_members m).
Proof.
  unfold encodeMutation, object_text, mutation_members. rewrite !fmap_cons. cbn [fmap list_fmap].
  rewrite !separated_two. cbn [Marshal.separated]. unfold member_text. cbn [fst snd].
  change (bytes_of "{") with [123%N]. change (bytes_of "}") with [125%N].
  change (bytes_of ":") with [58%N]. change (bytes_of ",") with [44%N].
  repeat (rewrite <-app_assoc; cbn [app]). done.
Qed.

(** What the checks of one mutation establish. *)
Record sound_mutation (m : Mutation) : Prop := {
  sm_table : utf8_ValidString (MTable m) = true;
  sm_key : ∃ v, exact (MPrimaryKey m) v;
  sm_before : ∀ row, Before m = Some row → validateCanonicalObject row = None;
  sm_after : ∀ row, After m = Some row → validateCanonicalObject row = None }.

Lemma tables_utf8 : Forall (λ t, utf8_ValidString t = true) CoveredTables.
Proof. repeat constructor. Qed.

Lemma optional_row_ok spec components row value :
  optionalRowOk spec components row = true → row = Some value →
  validateCanonicalObject value = None.
Proof. intros Hr ->. by eapply row_canonical. Qed.

Lemma prepared_mutation m p :
  prepareMutation m = inr p → pmMutation p = m ∧ sound_mutation m.
Proof.
  unfold prepareMutation. destruct (lookupTable (MTable m)) as [[spec i]|] eqn:Ht; [|done].
  destruct (validatePrimaryKey spec (MPrimaryKey m)) as [|components] eqn:Hk; [done|].
  destruct (_ && _); [done|]. destruct (_ || _) eqn:Hrows; [done|]. destruct (bool_decide _); [done|].
  intros [= <-]. split; [done|]. apply lookupTable_Some in Ht as [Ht _]. bools.
  destruct Hrows as [Hb Ha]. split.
  - eapply (proj1 (Forall_forall _ _) tables_utf8). by eapply list_elem_of_lookup_2.
  - by eapply key_exact.
  - intros row. by apply optional_row_ok with (1 := Hb).
  - intros row. by apply optional_row_ok with (1 := Ha).
Qed.

Lemma nullable_exact (row : option (list N)) :
  (∀ value, row = Some value → validateCanonicalObject value = None) →
  (∃ v, exact (nullableJSON row) v) ∧ cloneNullableJSON (nullableJSON row) = row.
Proof.
  intros Hrow. destruct row as [X|]; [|split; [eexists; apply exact_null|done]].
  destruct (canonical_exact X (Hrow X eq_refl)) as [ms Hx]. simpl. split; [by eexists|].
  unfold cloneNullableJSON. rewrite bool_decide_false; [done|]. intros ->.
  pose proof (exact_read _ _ Hx) as Hr. pose proof (exact_read _ _ exact_null) as Hn.
  unfold null_text in Hr. congruence.
Qed.

Lemma members_exact m : sound_mutation m →
  Forall (λ x, named x ∧ ∃ v, exact x.2 v) (mutation_members m).
Proof.
  intros Hm. repeat constructor; simpl; try done.
  - apply nullable_exact, Hm. - apply nullable_exact, Hm. - apply Hm.
  - eexists. apply exact_quote, Hm.
Qed.

Lemma mutation_exact m : sound_mutation m → ∃ v, exact (encodeMutation m) v.
Proof.
  intros Hm. rewrite encodeMutation_text. pose proof (members_exact m Hm) as Hall.
  assert (∃ vs, Forall2 (λ x v, exact x.2 v) (mutation_members m) vs) as [vs Hvs].
  { clear Hm. induction Hall as [|x l [_ [v Hv]] _ [vs IH]]; [by exists []|].
    exists (v :: vs). by constructor. }
  eexists. apply exact_object; [|exact Hvs]. eapply Forall_impl; [exact Hall|]. by intros x [? _].
Qed.

Lemma decode_mutation m : sound_mutation m → decodeMutation (encodeMutation m) = Some m.
Proof.
  intros Hm. unfold decodeMutation, wireMembers.
  rewrite encodeMutation_text, raw_object_of by by apply members_exact.
  cbn [mbind option_bind].
  replace (forallb _ (mutation_members m)) with true by reflexivity. cbv iota.
  unfold mutation_members. cbn [list_to_map foldr fst snd uncurry].
  cbn [mbind option_bind]. simplify_map_eq.
  unfold nullable_of. rewrite bool_decide_false by done.
  unfold JSON.text_of. rewrite (exact_whole _ _ (exact_quote _ (sm_table _ Hm))).
  cbn [fmap option_fmap option_map mbind option_bind].
  rewrite (proj2 (nullable_exact _ (sm_before _ Hm))), (proj2 (nullable_exact _ (sm_after _ Hm))).
  by destruct m.
Qed.

(** ** Sets *)

Definition encode_all (prepared : list preparedMutation) : list N :=
  array_text ((λ p, encodeMutation (pmMutation p)) <$> prepared).

(** Mutations as [DecodeMutations] hands them on: checked, in table and key
    order, no position twice. *)
Definition in_order (mutations : list Mutation) : Prop :=
  ∃ prepared, prepareAll prepareMutation mutations = inr prepared ∧
    ordered mutation_position prepared.

Lemma prepared_back ms prepared :
  prepareAll prepareMutation ms = inr prepared →
  pmMutation <$> prepared = ms ∧ Forall sound_mutation ms ∧
  Forall (λ p, prepareMutation (pmMutation p) = inr p) prepared.
Proof.
  intros Hall%prepareAll_inv. induction Hall as [|m p ms prepared Hm _ (Hb & Hs & Hp)]; [done|].
  destruct (prepared_mutation _ _ Hm) as [Heq Hsound]. rewrite fmap_cons, Heq, Hb.
  split; [done|]. split; [by constructor|]. constructor; [by rewrite Heq|done].
Qed.

Lemma prepared_forward prepared :
  Forall (λ p, prepareMutation (pmMutation p) = inr p) prepared →
  prepareAll prepareMutation (pmMutation <$> prepared) = inr prepared.
Proof. intros Hall. apply prepareAll_inv. induction Hall; constructor; auto. Qed.

(** What encoding a set says. *)
Lemma EncodeMutations_inv ms e :
  EncodeMutations ms = inr e ↔
  ∃ prepared, ordered mutation_position prepared ∧
    prepareAll prepareMutation (pmMutation <$> prepared) = inr prepared ∧
    ms ≡ₚ pmMutation <$> prepared ∧ e = encode_all prepared ∧
    (llen e ≤ MaxEncodedMutationBytes)%N.
Proof.
  unfold EncodeMutations. split.
  - destruct (prepareAll prepareMutation ms) as [|all] eqn:Hall; [done|].
    destruct (adjacentDuplicate _ _) eqn:Hd; [done|]. unfold encodePreparedMutations.
    destruct (_ <? _)%N eqn:Hlen; [done|]. intros [= <-].
    apply prepared_back in Hall as (Hb & _ & Hp). exists (merge_sort mutation_le all). split_and!.
    + apply adjacentDuplicate_ordered; [exact (merge_sort_sorted mutation_position all)|done].
    + apply prepared_forward. by rewrite merge_sort_Permutation.
    + by rewrite merge_sort_Permutation, Hb.
    + done.
    + by apply N.ltb_ge.
  - intros (prepared & Ho & Hall & Hp & -> & Hlen).
    pose proof (prepared_back _ _ Hall) as (_ & _ & Hpp).
    assert (∃ all, prepareAll prepareMutation ms = inr all ∧ all ≡ₚ prepared) as (all & -> & Hperm).
    { apply prepareAll_inv in Hall. symmetry in Hp.
      destruct (Permutation_Forall2 Hp Hall) as (all & Hperm & H2).
      exists all. by split; [apply prepareAll_inv|symmetry]. }
    assert (Hsort : merge_sort mutation_le all = prepared).
    { apply (ordered_unique mutation_position); [|done|by rewrite merge_sort_Permutation].
      apply (merge_sort_ordered mutation_position). rewrite Hperm. by apply ordered_NoDup. }
    rewrite Hsort, (ordered_adjacent mutation_position) by done.
    unfold encodePreparedMutations. fold (array_text ((λ p, encodeMutation (pmMutation p)) <$> prepared)).
    change (array_text _) with (encode_all prepared).
    by rewrite (proj2 (N.ltb_ge _ _)).
Qed.

Lemma decode_all prepared :
  Forall (λ p, sound_mutation (pmMutation p)) prepared →
  (JSON.raw_array (encode_all prepared) ≫= mapM decodeMutation) = Some (pmMutation <$> prepared).
Proof.
  intros Hs. unfold encode_all. rewrite raw_array_of.
  - cbn [mbind option_bind]. induction Hs as [|p prepared Hp _ IH]; [done|].
    rewrite !fmap_cons. cbn [mapM]. rewrite decode_mutation by exact Hp. cbn [mbind option_bind].
    by rewrite IH.
  - apply Forall_fmap. eapply Forall_impl; [exact Hs|]. intros p Hp. simpl.
    destruct (mutation_exact _ Hp) as [v Hv]. rewrite encodeMutation_text in *.
    eexists _, _, v. split; [reflexivity|]. by split.
Qed.

Lemma sound_prepared prepared :
  prepareAll prepareMutation (pmMutation <$> prepared) = inr prepared →
  Forall (λ p, sound_mutation (pmMutation p)) prepared.
Proof. intros (_ & Hs & _)%prepared_back. exact (proj1 (Forall_fmap _ _ _) Hs). Qed.

Lemma DecodeMutations_iff e ms :
  DecodeMutations e = inr ms ↔ EncodeMutations ms = inr e ∧ in_order ms.
Proof.
  assert (Hdec : ∀ ms e prepared, EncodeMutations ms = inr e →
    prepareAll prepareMutation (pmMutation <$> prepared) = inr prepared → e = encode_all prepared →
    (JSON.raw_array e ≫= mapM decodeMutation) = Some (pmMutation <$> prepared)).
  { intros ms' e' prepared _ Hp ->. by apply decode_all, sound_prepared. }
  split.
  - unfold DecodeMutations. destruct (_ || _); [done|].
    destruct (JSON.raw_array e ≫= mapM decodeMutation) as [ms'|] eqn:Hd; [|done].
    destruct (EncodeMutations ms') as [|canonical] eqn:He; [done|].
    destruct (canonical != e) eqn:Hne; [done|]. intros [= ->]. bools. subst canonical.
    split; [done|]. pose proof He as (prepared & Ho & Hp & _ & Heq & _)%EncodeMutations_inv.
    rewrite (Hdec _ _ _ He Hp Heq) in Hd. injection Hd as <-. by exists prepared.
  - intros [He (prepared & Hp & Ho)]. pose proof (prepared_back _ _ Hp) as (Hb & _ & Hpp).
    pose proof He as (prepared' & Ho' & Hp' & Hperm & Heq & Hlen)%EncodeMutations_inv.
    assert (prepared' = prepared) as ->.
    { apply (ordered_unique mutation_position); [done..|].
      apply prepareAll_inv in Hp, Hp'. symmetry in Hperm.
      destruct (Permutation_Forall2 Hperm Hp') as (all & Hall & H2).
      assert (all = prepared) as ->; [|done].
      apply prepareAll_inv in H2, Hp. congruence. }
    unfold DecodeMutations. rewrite (Hdec _ _ _ He Hp' Heq), Hb, He, bool_decide_true by done.
    rewrite (proj2 (N.ltb_ge _ _) Hlen), (proj2 (N.eqb_neq _ _)); [done|]. by rewrite Heq.
Qed.

(** What an encoded set is decoded to. *)
Lemma EncodeMutations_decoded ms e :
  EncodeMutations ms = inr e →
  ∃ arranged, ms ≡ₚ arranged ∧ in_order arranged ∧ DecodeMutations e = inr arranged ∧
    EncodeMutations arranged = inr e.
Proof.
  intros He. pose proof He as (prepared & Ho & Hp & Hperm & Heq & Hlen)%EncodeMutations_inv.
  exists (pmMutation <$> prepared).
  assert (Hin : in_order (pmMutation <$> prepared)) by by exists prepared.
  assert (Hsorted : EncodeMutations (pmMutation <$> prepared) = inr e).
  { apply EncodeMutations_inv. by exists prepared. }
  split_and!; [done..|by apply DecodeMutations_iff|done].
Qed.

(** Equal encodings are of the same mutations. *)
Lemma EncodeMutations_inj ms ms' e :
  EncodeMutations ms = inr e → EncodeMutations ms' = inr e → ms ≡ₚ ms'.
Proof.
  intros (prepared & _ & Hp & Hperm & -> & _)%EncodeMutations_inv.
  intros (prepared' & _ & Hp' & Hperm' & Heq & _)%EncodeMutations_inv.
  pose proof (decode_all _ (sound_prepared _ Hp)) as Hd.
  rewrite Heq, (decode_all _ (sound_prepared _ Hp')) in Hd. injection Hd as Hd.
  by rewrite Hperm, Hperm', Hd.
Qed.

(** ** The accumulator *)

(** One applied result: its index, its chain hash and its mutations. *)
Record Step := mkStep { sIndex : N; sHash : Digest; sMutations : list Mutation }.

Inductive Seed := Initial (genesis state : Digest) | Successor (previous genesis state : Digest).

Definition seed_digest (seed : Seed) : Digest :=
  match seed with
  | Initial genesis state => AccumulatorSeedInitial genesis state
  | Successor previous genesis state => AccumulatorSeedSuccessor previous genesis state
  end.

Definition seed_text (seed : Seed) : list N :=
  match seed with
  | Initial genesis state => genesis ++ state
  | Successor previous genesis state => previous ++ genesis ++ state
  end.

Definition seed_sized (seed : Seed) : Prop :=
  match seed with
  | Initial genesis state => length genesis = 32 ∧ length state = 32
  | Successor previous genesis state =>
      length previous = 32 ∧ length genesis = 32 ∧ length state = 32
  end.

(** The accumulator after the results [steps]. *)
Fixpoint accumulate (head : Digest) (steps : list Step) : Error + Digest :=
  match steps with
  | [] => inr head
  | step :: rest =>
      match AppendAccumulator head (sIndex step) (sHash step) (sMutations step) with
      | inl err => inl err
      | inr (next, _) => accumulate next rest
      end
  end.

Definition step_part (step : Step) (part : list N) : Prop :=
  (0 < sIndex step ≤ maxSafeInteger)%N ∧ ∃ e, EncodeMutations (sMutations step) = inr e ∧
  part = uint64Bytes (sIndex step) ++ sHash step ++ uint64Bytes (llen e) ++ e.

(** The texts hashed for a history. *)
Definition step_text (step : Step) : list N :=
  match EncodeMutations (sMutations step) with
  | inl _ => []
  | inr e => uint64Bytes (sIndex step) ++ sHash step ++ uint64Bytes (llen e) ++ e
  end.

Definition accumulator_texts (seed : Seed) (steps : list Step) : list (list N) :=
  chain_texts projectionAccumulatorLabel (seed_text seed) (step_text <$> steps).

Lemma seed_digest_text seed :
  seed_digest seed = Sum256 (domain projectionAccumulatorLabel (seed_text seed)).
Proof.
  destruct seed; simpl; unfold AccumulatorSeedInitial, AccumulatorSeedSuccessor, digestDomain;
    simpl; by rewrite app_nil_r.
Qed.

Lemma step_part_text step part : step_part step part → step_text step = part.
Proof. intros (_ & e & He & ->). unfold step_text. by rewrite He. Qed.

Lemma accumulate_parts head steps d :
  accumulate head steps = inr d →
  d = foldl (next_head projectionAccumulatorLabel) head (step_text <$> steps) ∧
  Forall (λ step, step_part step (step_text step)) steps.
Proof.
  revert head. induction steps as [|step steps IH]; intros head; simpl.
  { by intros [= <-]. }
  unfold AppendAccumulator. destruct (_ || _) eqn:Hi; [done|].
  destruct (EncodeMutations (sMutations step)) as [|e] eqn:He; [done|].
  intros [-> Hall]%IH. assert (Hstep : step_part step (step_text step)).
  { bools. split; [lia|]. exists e. split; [done|]. unfold step_text. by rewrite He. }
  split; [|by constructor]. f_equal. unfold next_head, digestDomain, step_text. rewrite He.
  simpl. by rewrite app_nil_r.
Qed.

(** An encoded set is never sixteen bytes long: it is empty, or names the four
    members of a mutation. *)
Lemma encoded_length ms e : EncodeMutations ms = inr e → length e ≠ 16.
Proof.
  intros (prepared & _ & _ & _ & -> & _)%EncodeMutations_inv. unfold encode_all, array_text.
  destruct prepared as [|p prepared]; [done|]. rewrite fmap_cons.
  assert (Hlong : 30 ≤ length (encodeMutation (pmMutation p))).
  { rewrite encodeMutation_text. unfold object_text, mutation_members. rewrite !fmap_cons.
    cbn [fmap list_fmap]. rewrite !separated_two. cbn [Marshal.separated].
    rewrite length_cons, !length_app, !length_cons, !length_app. unfold member_text.
    rewrite !length_app. change (length (Marshal.quote "after")) with 7.
    change (length (Marshal.quote "before")) with 8.
    change (length (Marshal.quote "primary_key")) with 13. simpl. lia. }
  rewrite length_cons, length_app.
  destruct ((λ q, encodeMutation (pmMutation q)) <$> prepared) as [|x l] eqn:Hl.
  - cbn [Marshal.separated]. lia.
  - rewrite separated_two, length_app. lia.
Qed.

Lemma seed_apart seed steps :
  seed_sized seed → Forall (λ step, step_part step (step_text step)) steps →
  (∀ step, step ∈ steps → length (sHash step) = 32) →
  apart (seed_text seed) (step_text <$> steps).
Proof.
  intros Hseed Hall Hlen d part Hd (step & -> & Hin)%list_elem_of_fmap Heq.
  rewrite Forall_forall in Hall. pose proof (Hall _ Hin) as (_ & e & He & Hpart).
  specialize (Hlen _ Hin). apply encoded_length in He. rewrite Hpart in Heq.
  apply (f_equal length) in Heq. destruct seed; simpl in Hseed, Heq;
    rewrite !length_app in Heq; simpl in Heq; rewrite !length_app in Heq; simpl in Heq; lia.
Qed.

Lemma seed_text_inj seed seed' :
  seed_sized seed → seed_sized seed' → seed_text seed = seed_text seed' → seed = seed'.
Proof.
  destruct seed as [g s|p g s], seed' as [g' s'|p' g' s']; simpl; intros Hs Hs' Heq;
    try (apply (f_equal length) in Heq; rewrite !length_app in Heq; lia).
  - by apply app_inj_len in Heq as [-> ->]; [|lia].
  - apply app_inj_len in Heq as [-> Heq]; [|lia]. by apply app_inj_len in Heq as [-> ->]; [|lia].
Qed.

(** Equal steps up to the order of their mutations. *)
Definition same_step (step step' : Step) : Prop :=
  sIndex step = sIndex step' ∧ sHash step = sHash step' ∧ sMutations step ≡ₚ sMutations step'.

Lemma step_text_inj step step' :
  step_part step (step_text step) → step_part step' (step_text step') →
  length (sHash step) = 32 → length (sHash step') = 32 →
  step_text step = step_text step' → same_step step step'.
Proof.
  intros (Hi & e & He & ->) (Hi' & e' & He' & ->) Hl Hl' Heq.
  apply app_inj_len in Heq as [Hindex Heq]; [|done].
  apply app_inj_len in Heq as [Hhash Heq]; [|lia].
  apply app_inj_len in Heq as [_ ->]; [|done].
  split; [by apply uint64Bytes_inj in Hindex; [|apply small_u64; lia..]|].
  split; [done|]. by eapply EncodeMutations_inj.
Qed.

Lemma steps_text_inj steps steps' :
  Forall (λ step, step_part step (step_text step)) steps →
  Forall (λ step, step_part step (step_text step)) steps' →
  (∀ step, step ∈ steps ++ steps' → length (sHash step) = 32) →
  step_text <$> steps = step_text <$> steps' → Forall2 same_step steps steps'.
Proof.
  intros Hall. revert steps'. induction Hall as [|step steps Hs _ IH]; intros steps' Hall' Hlen Heq;
    destruct Hall' as [|step' steps' Hs' Hall']; try done.
  rewrite !fmap_cons in Heq. injection Heq as Hd Heq. constructor.
  - apply step_text_inj; try done; apply Hlen; set_solver.
  - apply IH; [done| |done]. intros x Hx. apply Hlen. set_solver.
Qed.

End Lib.
End MutationProofs.

(** ** Theorems about the commitments of internal/chain

    [Module ChainTheorems]: what equal heads of the event chain, of the
    projection accumulator and of the state digest say about the histories and
    states behind them, the reference form of the state digest, and the round
    trip of mutation sets; each with an instance on concrete rows. *)

Module ChainTheorems.

Import Chain ChainProofs ChainHeads MutationProofs.

Section Lib.
Context `{JCSLib, CryptoLib}.

(** ** The chain of events *)

Fixpoint append_events (head : Digest) (events : list (list N)) : Error + Digest :=
  match events with
  | [] => inr head
  | event :: rest =>
      match AppendEvent head event with
      | inl err => inl err
      | inr next => append_events next rest
      end
  end.

(** The head after the accepted events of one boundary. *)
Definition event_head (boundary : Boundary) (events : list (list N)) : Error + Digest :=
  match EventSeed boundary with
  | inl err => inl err
  | inr seed => append_events seed events
  end.

Definition event_texts (boundary : Boundary) (events : list (list N)) : list (list N) :=
  chain_texts eventChainLabel (boundary_text boundary) events.

Lemma append_events_inv head events d :
  append_events head events = inr d →
  d = foldl (next_head eventChainLabel) head events ∧
  Forall (λ event, validateCanonicalObject event = None) events.
Proof.
  revert head. induction events as [|event events IH]; intros head; simpl.
  { by intros [= <-]. }
  unfold AppendEvent. destruct (validateCanonicalObject event) eqn:Hv; [done|].
  intros [-> Hall]%IH. split; [|by constructor].
  unfold next_head at 3, digestDomain. simpl. by rewrite app_nil_r.
Qed.

Lemma event_head_inv boundary events d :
  event_head boundary events = inr d →
  validateBoundary boundary = None ∧
  d = head_of eventChainLabel (boundary_text boundary) events ∧
  Forall (λ event, validateCanonicalObject event = None) events.
Proof.
  unfold event_head, EventSeed. destruct (validateBoundary boundary); [done|].
  rewrite boundarySeed_text. intros [-> Hall]%append_events_inv. done.
Qed.

Lemma events_apart b events' :
  boundary_sized b → validateBoundary b = None →
  Forall (λ event, validateCanonicalObject event = None) events' →
  apart (boundary_text b) events'.
Proof.
  intros Hs Hv Hall. apply boundary_apart; [done..|]. intros part Hin.
  rewrite Forall_forall in Hall. destruct (object_first _ (Hall _ Hin)) as (x & r & -> & Hx).
  by exists x, r.
Qed.

(** C19: two event chains with one head start at the same boundary and hold the
    same events in the same order, however long they are, unless two of the
    texts hashed for them collide. *)
Theorem event_chain_binding (boundary boundary' : Boundary) (events events' : list (list N))
    (head : Digest) :
  boundary_sized boundary → boundary_sized boundary' →
  event_head boundary events = inr head → event_head boundary' events' = inr head →
  boundary = boundary' ∧ events = events' ∨
  collision (event_texts boundary events) (event_texts boundary' events').
Proof.
  intros Hs Hs' (Hv & -> & Hall)%event_head_inv (Hv' & Heq & Hall')%event_head_inv.
  apply heads_inj in Heq as [[Heq ->]|Hc]; [|by right|by eapply events_apart..].
  left. split; [by apply boundary_text_inj|done].
Qed.

(** ** The state digest *)

(** The texts hashed for the digest of [rows]. *)
Definition state_texts (versions : Versions) (rows : list LogicalRow) : list (list N) :=
  match prepareAll prepareRow rows with
  | inl _ => []
  | inr prepared => hashed versions (merge_sort row_le prepared)
  end.

Lemma sorted_rows rows prepared :
  Forall2 (λ row p, prepareRow row = inr p) rows prepared →
  NoDup (row_position <$> prepared) →
  ordered row_position (merge_sort row_le prepared) ∧
  Forall (λ p, prepareRow (logicalRow p) = inr p) (merge_sort row_le prepared) ∧
  rows ≡ₚ logicalRow <$> merge_sort row_le prepared ∧
  Forall (λ p, prTableIndex p < length coveredTableRegistry)%nat (merge_sort row_le prepared).
Proof.
  intros Hp Hnd. split; [by apply (merge_sort_ordered row_position)|].
  rewrite !merge_sort_Permutation. split; [by eapply prepared_valid|].
  clear Hnd. induction Hp as [|row p rows prepared Hp _ [IH IHi]]; [split; [done|constructor]|].
  destruct (logicalRow_prepared _ _ Hp) as (Hrow & Hi & _). rewrite fmap_cons, Hrow.
  split; [by rewrite IH|]. by constructor.
Qed.

(** C18: two states with one digest have the same versions and the same rows,
    unless two of the texts hashed for them collide. *)
Theorem state_digest_binding (versions versions' : Versions) (rows rows' : list LogicalRow)
    (digest : Digest) :
  (llen rows ≤ maxSafeInteger)%N → (llen rows' ≤ maxSafeInteger)%N →
  StateDigest versions rows = inr digest → StateDigest versions' rows' = inr digest →
  versions = versions' ∧ rows ≡ₚ rows' ∨
  collision (state_texts versions rows) (state_texts versions' rows').
Proof.
  intros Hl Hl' (Hv & l & Hp & Hnd & ->)%StateDigest_iff; [|done].
  intros (Hv' & l' & Hp' & Hnd' & Heq)%StateDigest_iff; [|done].
  destruct (sorted_rows _ _ Hp Hnd) as (Ho & Hvalid & Hrows & Hi).
  destruct (sorted_rows _ _ Hp' Hnd') as (Ho' & Hvalid' & Hrows' & Hi').
  unfold state_texts. rewrite (proj2 (prepareAll_inv _ _ _) Hp), (proj2 (prepareAll_inv _ _ _) Hp').
  apply states_inj in Heq as [[-> Heq]|]; [|by right|done..]. left. split; [done|].
  assert (Hperm : merge_sort row_le l ≡ₚ merge_sort row_le l').
  { apply NoDup_Permutation; [..|done]; eapply NoDup_fmap_1, ordered_NoDup; done. }
  by rewrite Hrows, Hrows', Hperm.
Qed.

(** C17: the digest of a set of rows is the digest of the reference text of its
    only arrangement in registry and key order, and no other set has one: the
    order in which the rows are handed over does not matter. *)
Theorem state_digest_reference (versions : Versions) (rows : list LogicalRow) (digest : Digest) :
  (llen rows ≤ maxSafeInteger)%N →
  StateDigest versions rows = inr digest ↔
  validateStateDigestVersions versions = None ∧
  ∃ arranged, rows ≡ₚ logicalRow <$> arranged ∧ ordered row_position arranged ∧
    Forall (λ p, prepareRow (logicalRow p) = inr p) arranged ∧
    digest = Sum256 (state_preimage versions arranged).
Proof.
  intros Hl. rewrite StateDigest_iff by done. split; intros [Hv Hrest]; (split; [done|]).
  - destruct Hrest as (prepared & Hp & Hnd & ->). exists (merge_sort row_le prepared).
    by destruct (sorted_rows _ _ Hp Hnd) as (? & ? & ? & _).
  - destruct Hrest as (arranged & Hperm & Ho & Hvalid & ->).
    assert (Hall : Forall2 (λ row p, prepareRow row = inr p) (logicalRow <$> arranged) arranged).
    { clear -Hvalid. induction Hvalid; constructor; auto. }
    symmetry in Hperm. destruct (Permutation_Forall2 Hperm Hall) as (prepared & Hp & Hall').
    exists prepared. split; [done|]. assert (Hnd : NoDup (row_position <$> prepared)).
    { rewrite <-Hp. by apply ordered_NoDup. }
    split; [done|]. do 2 f_equal. apply (ordered_unique row_position); [done| |].
    + by apply (merge_sort_ordered row_position).
    + by rewrite merge_sort_Permutation.
Qed.

End Lib.

(** ** Mutations *)

Section Mutations.
Context `{JCSTrimmed, CryptoLib}.

(** C24: a set of mutations that encodes is decoded again, in table and key
    order, and from no other text. *)
Theorem mutations_roundtrip (mutations : list Mutation) (encoded : list N) :
  EncodeMutations mutations = inr encoded →
  ∃ arranged, mutations ≡ₚ arranged ∧ in_order arranged ∧
    DecodeMutations encoded = inr arranged ∧
    ∀ other, DecodeMutations other = inr arranged → other = encoded.
Proof.
  intros (arranged & Hperm & Ho & Hd & He)%EncodeMutations_decoded. exists arranged.
  split_and!; [done..|]. intros other [Hother _]%DecodeMutations_iff. congruence.
Qed.

(** C20: two projection accumulators with one head start from the same seed and
    hold the same results with the same mutations, however long they are,
    unless two of the texts hashed for them collide. *)
Theorem accumulator_binding (seed seed' : Seed) (steps steps' : list Step) (head : Digest) :
  seed_sized seed → seed_sized seed' →
  (∀ step, step ∈ steps ++ steps' → length (sHash step) = 32) →
  accumulate (seed_digest seed) steps = inr head →
  accumulate (seed_digest seed') steps' = inr head →
  seed = seed' ∧ Forall2 same_step steps steps' ∨
  collision (accumulator_texts seed steps) (accumulator_texts seed' steps').
Proof.
  intros Hs Hs' Hlen. rewrite !seed_digest_text.
  intros [-> Hall]%accumulate_parts [Heq Hall']%accumulate_parts.
  apply (heads_inj projectionAccumulatorLabel) in Heq as [[Heq Hparts]|Hc]; [|by right|..].
  - left. split; [by apply seed_text_inj|by apply steps_text_inj].
  - apply seed_apart; [done..|]. intros step Hin. apply Hlen. set_solver.
  - apply seed_apart; [done..|]. intros step Hin. apply Hlen. set_solver.
Qed.

End Mutations.

(** ** Concrete histories and states

    A printer that leaves members in order, and a checksum of 256 bits. *)

#[local] Instance printer : JCSLib := {| jcs_Append := Marshal.marshal |}.

Lemma digits_trailing l r :
  Forall (λ b, JSON.digit b = true) l → l ≠ [] →
  JSON.skip (rev (r ++ l)) = rev (r ++ l).
Proof.
  intros Hl Hne. destruct l as [|b l _] using rev_ind; [done|].
  apply Forall_app in Hl as [_ Hb]. apply Forall_inv, MarshalProofs.digit_bounds in Hb.
  rewrite app_assoc, rev_app_distr. cbn [rev app]. apply MarshalProofs.skip_head.
  unfold JSON.space. bools. lia.
Qed.

#[local] Instance printer_trimmed : JCSTrimmed.
Proof.
  split; intros v; simpl.
  - destruct (MarshalProofs.marshal_head v) as (b & t & -> & Hb & _). by apply MarshalProofs.skip_head.
  - destruct v as [|[]|n|s|items|members]; try done; cbn [Marshal.marshal].
    + destruct (MarshalProofs.pretty_Z_spec n) as (sign & d & l & -> & _ & Hd & _).
      by apply (digits_trailing (d :: l) sign).
    + unfold Marshal.quote. rewrite app_comm_cons, rev_app_distr. done.
    + rewrite app_comm_cons, rev_app_distr. done.
    + rewrite app_comm_cons, rev_app_distr. done.
Qed.

(** The bytes of a number, least first. *)
Fixpoint number_bytes (n : nat) (value : N) : list N :=
  match n with
  | O => []
  | S n => (value mod 256)%N :: number_bytes n (value / 256)
  end.

Definition checksum (m : list N) : list N :=
  number_bytes 32 (fold_left (λ acc b, (acc * 65599 + b + 1) mod 2 ^ 256)%N m 7%N).

#[local] Instance checksums : CryptoLib.
Proof.
  refine {| Sum256 := checksum; Ed25519_Verify := λ _ _ _, false |}; [done|].
  intros m. unfold checksum. generalize (fold_left (λ acc b, (acc * 65599 + b + 1) mod 2 ^ 256)%N m 7%N).
  generalize 32. induction n as [|n IH]; intros v; constructor; [by apply N.mod_lt|apply IH].
Defined.

Import Fixtures.

Definition genesis : Boundary := mkBoundary (repeat 7%N 32) 0 0 0 zero_digest zero_digest.
Definition events : list (list N) := [text "{'a':1}"; text "{'b':[2,{}]}"].

(** The head of two events. *)
Lemma event_chain_binding_witness :
  let head := match event_head genesis events with inr d => d | inl _ => [] end in
  (boundary_sized genesis ∧ event_head genesis events = inr head) ∧
  (genesis = genesis ∧ events = events ∨
   collision (event_texts genesis events) (event_texts genesis events)).
Proof.
  assert (Hs : boundary_sized genesis) by done.
  intros head.
  assert (He : event_head genesis events = inr head) by (vm_compute; reflexivity).
  clearbody head. split; [exact (conj Hs He)|].
  exact (event_chain_binding _ _ _ _ head Hs Hs He He).
Defined.

Definition ref_row : LogicalRow :=
  mkLogicalRow "canonical_refs" (text "['main']")
    (text "{'commit_oid':'c0','entity_version':2,'ref_name':'main'}").
Definition policy_row : LogicalRow :=
  mkLogicalRow "session_policy" (text "['s']")
    (text "{'entity_version':1,'session_id':'s','values':{'a':1}}").
Definition versions : Versions := mkVersions 1 4.

Definition state_rows : list LogicalRow := [ref_row; policy_row].

(** Two orders of the same two rows. *)
Lemma state_digest_binding_witness :
  let digest := match StateDigest versions state_rows with inr d => d | inl _ => [] end in
  (StateDigest versions state_rows = inr digest ∧ StateDigest versions (rev state_rows) = inr digest) ∧
  (versions = versions ∧ state_rows ≡ₚ rev state_rows ∨
   collision (state_texts versions state_rows) (state_texts versions (rev state_rows))).
Proof.
  intros digest.
  assert (H1 : StateDigest versions state_rows = inr digest) by (vm_compute; reflexivity).
  assert (H2 : StateDigest versions (rev state_rows) = inr digest) by (vm_compute; reflexivity).
  assert (Hl : (llen state_rows ≤ maxSafeInteger)%N) by (vm_compute; done).
  assert (Hl' : (llen (rev state_rows) ≤ maxSafeInteger)%N) by (vm_compute; done).
  clearbody digest. split; [exact (conj H1 H2)|]. exact (state_digest_binding _ _ _ _ digest Hl Hl' H1 H2).
Defined.

(** The digest of the two rows in the other order. *)
Lemma state_digest_reference_witness :
  ∃ digest, StateDigest versions (rev state_rows) = inr digest ∧
  ∃ arranged, rev state_rows ≡ₚ logicalRow <$> arranged ∧
    digest = Sum256 (state_preimage versions arranged).
Proof.
  set (digest := match StateDigest versions state_rows with inr d => d | inl _ => [] end).
  assert (Hd : StateDigest versions (rev state_rows) = inr digest) by (vm_compute; reflexivity).
  assert (Hl : (llen (rev state_rows) ≤ maxSafeInteger)%N) by (vm_compute; done).
  clearbody digest. exists digest. split; [exact Hd|].
  destruct (proj1 (state_digest_reference versions (rev state_rows) digest Hl) Hd)
    as (_ & arranged & Hp & _ & _ & Heq).
  exists arranged. exact (conj Hp Heq).
Defined.

Definition mutations : list Mutation :=
  [mkMutation "session_policy" (text "['s']") None (Some (Row policy_row));
   mkMutation "canonical_refs" (text "['main']")
     (Some (text "{'commit_oid':'b9','entity_version':1,'ref_name':'main'}")) (Some (Row ref_row))].

(** Two mutations, given out of order. *)
Lemma mutations_roundtrip_witness :
  ∃ encoded, EncodeMutations mutations = inr encoded ∧
  ∃ arranged, mutations ≡ₚ arranged ∧ in_order arranged ∧
    DecodeMutations encoded = inr arranged ∧
    ∀ other, DecodeMutations other = inr arranged → other = encoded.
Proof.
  set (encoded := match EncodeMutations mutations with inr e => e | inl _ => [] end).
  assert (He : EncodeMutations mutations = inr encoded) by (vm_compute; reflexivity).
  clearbody encoded. exists encoded. split; [exact He|]. exact (mutations_roundtrip _ _ He).
Defined.

Definition steps : list Step := [mkStep 1 (repeat 1%N 32) mutations; mkStep 2 (repeat 2%N 32) []].
Definition reordered : list Step :=
  [mkStep 1 (repeat 1%N 32) (rev mutations); mkStep 2 (repeat 2%N 32) []].
Definition seed : Seed := Initial (repeat 3%N 32) (repeat 4%N 32).

(** Two results, the mutations of the first in either order. *)
Lemma accumulator_binding_witness :
  ∃ head, (accumulate (seed_digest seed) steps = inr head ∧
           accumulate (seed_digest seed) reordered = inr head) ∧
  (seed = seed ∧ Forall2 same_step steps reordered ∨
   collision (accumulator_texts seed steps) (accumulator_texts seed reordered)).
Proof.
  set (head := match accumulate (seed_digest seed) steps with inr d => d | inl _ => [] end).
  assert (H1 : accumulate (seed_digest seed) steps = inr head) by (vm_compute; reflexivity).
  assert (H2 : accumulate (seed_digest seed) reordered = inr head) by (vm_compute; reflexivity).
  assert (Hs : seed_sized seed) by (split; reflexivity).
  assert (Hlen : ∀ step, step ∈ steps ++ reordered → length (sHash step) = 32).
  { apply Forall_forall. repeat constructor. }
  clearbody head. exists head. split; [exact (conj H1 H2)|].
  exact (accumulator_binding _ _ _ _ head Hs Hs Hlen H1 H2).
Defined.

End ChainTheorems.
