(* ===== verification/StateProofs.v ===== *)
(** * The committed state from one event to the next

    [Module StateProofs]: what a committed state keeps when a change set is
    applied ([State.Apply]), and what holds of every state that reductions
    reach. *)

From stdpp Require Import base gmap strings list sorting relations.
From Stdlib Require Import ZArith NArith Lia.
From S2P Require Import Prelude.
From S2P Require Import GoLib.
From S2P Require Import GoJson.
From S2P Require Import CodecLayer.
From S2P Require Import DomainValues.
From S2P Require Import TaskEntity.
From S2P Require Import LeaseEntity.
From S2P Require Import AgentSessionEntity.
From S2P Require Import VoterSetEntity.
From S2P Require Import DeviceEntity.
From S2P Require Import PlanMemoryEntity.
From S2P Require Import PolicyEntity.
From S2P Require Import ConflictEntity.
From S2P Require Import PublicationEntity.
From S2P Require Import CredentialEntity.
From S2P Require Import EventModel.
From S2P Require Import EventWire.
From S2P Require Import ReducerState.
From S2P Require Import PolicyUse.
From S2P Require Import Preflight.
From S2P Require Import StateRefs.
From S2P Require Import PlanMemoryState.
From S2P Require Import ReducerLogic.
From S2P Require Import SessionReducers.
From S2P Require Import MembershipState.
From S2P Require Import RepositoryState.
From S2P Require Import StateChanges.
From S2P Require Import StateApply.
From S2P Require Import StateIndexes.
From S2P Require Import Dispatch.
From S2P Require Import Fixtures.
From S2P Require Import TaskProofs.
From S2P Require Import DispatchProofs.
From S2P Require Import LeaseProofs.
From S2P Require Import PublicationProofs.

Module StateProofs.

Import Reducer Preflight PolicyUse StateRefs Logic PlanMemoryState MembershipState RepositoryState StateChanges
  StateApply StateIndexes.
Import AdmissionProofs LeaseProofs.LeaseProofs PublicationProofs.PublicationProofs.

Section Lib.
Context `{NormLib, JCSLib, CryptoLib}.

(** ** What the checks establish *)

Record checked (st : State) (changes : Changes) (p : pendingChanges) : Prop := {
  ck_indexes : indexesOk st changes = true;
  ck_membership : validateMembershipChanges st changes = Some (pcMembership p);
  ck_credentials :
    validateCredentialChanges st changes (pcMembership p) = Some (pcCredentials p);
  ck_policy : validatePolicyChanges st (SessionPolicy changes) = Some (pcPolicy p);
  ck_repository : validateRepositoryChanges st changes = Some (pcRepository p);
  ck_files : validateControlFileChanges st (ControlFileProposals changes) = Some (pcControlFiles p);
  ck_rows : ∃ scopes sessions taskRows,
    let values := Policy.PolicyValues (default (sessionPolicy st) (pcPolicy p)) in
    let leaseRows := leasesByID (Leases changes) in
    collectScopes st (OriginScopes changes) ∅ ∅ = Some scopes ∧
    validateAgentSessionChanges st (AgentSessions changes) scopes values = Some sessions ∧
    forallb (orphanScopeOk st sessions) (OriginScopes changes) = true ∧
    validateTaskChanges st (Tasks changes) = Some taskRows ∧
    validatePlanMemoryChanges st changes (dom taskRows) = Some (pcCoordination p) ∧
    validateLeaseChanges st (Leases changes) values = true ∧
    validateProspectiveOwnership st sessions taskRows leaseRows = true ∧
    validateSessionEndCascades st sessions taskRows leaseRows = true ∧
    claimsWithinPolicy st (Tasks changes) values = true ∧
    policyUseViolation st values
      (mkPending (pmDevices (pcMembership p)) (pmAuditCounters (pcMembership p))
         sessions taskRows leaseRows) = policyUseWithinLimits }.

Lemma Apply_inv st changes st' :
  Apply st changes = inr st' → ∃ p, checked st changes p ∧ st' = written st changes p.
Proof.
  unfold Apply. destruct (validateChanges st changes) as [p|] eqn:Hv; [|done]. intros [= <-].
  exists p. split; [|done]. unfold validateChanges in Hv.
  destruct (indexesOk st changes) eqn:Hi; [|done]. simpl in Hv.
  repeat match type of Hv with
  | mbind _ ?m = Some _ =>
      let E := fresh "E" in apply bind_Some in Hv as (? & E & Hv)
  end.
  destruct (forallb (orphanScopeOk _ _) _) eqn:Ho; [|done]. simpl in Hv.
  apply bind_Some in Hv as (? & ? & Hv). apply bind_Some in Hv as (? & ? & Hv).
  match type of Hv with (if ?c then _ else _) = _ => destruct c eqn:Hc; [|done] end.
  apply andb_true_iff in Hc as [Hc Huse%bool_decide_eq_true].
  apply andb_true_iff in Hc as [Hc Hclaims]. apply andb_true_iff in Hc as [Hc Hcas].
  apply andb_true_iff in Hc as [Hle Hown]. simplify_eq. by split; eauto 20.
Qed.

(** ** Origin scopes *)

Definition scopes_valid (st : State) : Prop :=
  map_Forall (λ key scope, validateOriginScope key scope = true) (originScopes st).

(** An agent session id is bound to one device. *)
Definition bound (scopes : gmap OriginScopeKey OriginScope) (agents : gmap string string) : Prop :=
  ∀ key, KKind key = ScopeAgent → is_Some (scopes !! key) →
    agents !! KScopeID key = Some (KDeviceID key).
Definition scopes_bound (st : State) : Prop := bound (originScopes st) (agentScopeDevices st).

Lemma validateOriginScope_inv key scope :
  validateOriginScope key scope = true →
  ScopeKey scope = key ∧ (1 ≤ LastSequence scope ≤ Domain.MaxSafeInteger)%N.
Proof.
  unfold validateOriginScope, Domain.ValidUnsignedInteger. intros Hv. bools.
  destruct Hv as [[[[[Hk _] _] _] Hl] Hm]. split; [done|lia].
Qed.

Lemma nextVersion_inv current next :
  nextVersion current next = true → (current ≤ Domain.MaxSafeInteger)%N →
  next = (current + 1)%N ∧ (next ≤ Domain.MaxSafeInteger)%N.
Proof.
  unfold nextVersion. intros [Hne ->%N.eqb_eq]%andb_true_iff Hle.
  apply negb_true_iff, N.eqb_neq in Hne.
  rewrite u64_succ_small by (unfold Domain.MaxSafeInteger, u64_modulus in *; lia). lia.
Qed.

Lemma collectScopes_inv st values pending agents r :
  collectScopes st values pending agents = Some r →
  r = by_id ScopeKey values pending ∧
  Forall (λ s, validateOriginScope (ScopeKey s) s = true ∧ scopeAdvance st s = true) values.
Proof.
  revert pending agents. induction values as [|s values IH]; intros pending agents; simpl.
  { by intros [= <-]. }
  destruct (_ || _) eqn:Hc; [done|]. apply orb_false_iff in Hc as [Hc Ha%negb_false_iff].
  apply orb_false_iff in Hc as [Hc _]. apply orb_false_iff in Hc as [Hv%negb_false_iff _].
  intros Hr. assert (∃ agents', collectScopes st values (<[ScopeKey s := s]> pending) agents' = Some r)
    as [agents' [-> Hall]%IH] by (repeat case_match; eauto; done).
  split; [done|]. by constructor.
Qed.

Lemma collectScopes_bound st values pending agents r scopes :
  collectScopes st values pending agents = Some r →
  bound scopes (agents ∪ agentScopeDevices st) →
  bound (by_id ScopeKey values scopes)
    (foldl (λ bound scope, if KKind (ScopeKey scope) == ScopeAgent
      then <[KScopeID (ScopeKey scope) := KDeviceID (ScopeKey scope)]> bound else bound)
      (agents ∪ agentScopeDevices st) values).
Proof.
  revert pending agents scopes. induction values as [|s values IH]; intros pending agents scopes; simpl.
  { done. }
  destruct (_ || _); [done|]. unfold by_id. simpl.
  case_bool_decide as Hk.
  - destruct (agentScopeOk st agents s) eqn:Ho; [|done]. intros Hr Hb.
    rewrite insert_union_l. apply (IH _ _ _ Hr). rewrite <-insert_union_l.
    unfold agentScopeOk in Ho. rewrite !andb_true_iff in Ho. destruct Ho as [[_ Hst] Hag].
    assert (Hsame : ∀ d, (agents ∪ agentScopeDevices st) !! KScopeID (ScopeKey s) = Some d →
                         d = KDeviceID (ScopeKey s)).
    { intros d [Hd|[_ Hd]]%lookup_union_Some_raw; rewrite Hd in *; by bools. }
    intros key Hkind Hsome. destruct (decide (KScopeID key = KScopeID (ScopeKey s))) as [Heq|Hne].
    + rewrite Heq, lookup_insert_eq. f_equal.
      destruct (decide (key = ScopeKey s)) as [->|Hkey]; [done|].
      rewrite lookup_insert_ne in Hsome by congruence.
      symmetry. apply Hsame. rewrite <-Heq. by apply Hb.
    + rewrite lookup_insert_ne by congruence. apply Hb; [done|].
      rewrite lookup_insert_ne in Hsome by congruence. done.
  - intros Hr Hb. apply (IH _ _ _ Hr). intros key Hkind Hsome. apply Hb; [done|].
    rewrite lookup_insert_ne in Hsome by congruence. done.
Qed.

(** What a change set does to a scope: it advances by one, or stays. *)
Lemma Apply_scopes st changes st' :
  Apply st changes = inr st' → ∀ key,
  (∃ s, s ∈ OriginScopes changes ∧ ScopeKey s = key ∧ originScopes st' !! key = Some s ∧
     validateOriginScope key s = true ∧ scopeAdvance st s = true) ∨
  (∀ s, s ∈ OriginScopes changes → ScopeKey s ≠ key) ∧
    originScopes st' !! key = originScopes st !! key.
Proof.
  intros (p & Hck & ->)%Apply_inv key. simpl.
  destruct (ck_rows _ _ _ Hck) as (scopes & _ & _ & Hs & _).
  apply collectScopes_inv in Hs as [_ Hall]. rewrite Forall_forall in Hall.
  change (writeScopes st (OriginScopes changes))
    with (by_id ScopeKey (OriginScopes changes) (originScopes st)).
  destruct (by_id_lookup ScopeKey (OriginScopes changes) (originScopes st) key)
    as [(s & Hin & <- & Hl)|Hno]; [left|by right].
  exists s. destruct (Hall s Hin). done.
Qed.

Lemma Apply_scopes_valid st changes st' :
  Apply st changes = inr st' → scopes_valid st → scopes_valid st'.
Proof.
  intros Ha Hv key s Hs. destruct (Apply_scopes _ _ _ Ha key) as [(s' & _ & _ & Hl & Hvs & _)|[_ Hl]].
  - rewrite Hl in Hs. by simplify_eq.
  - rewrite Hl in Hs. by apply Hv.
Qed.

Lemma Apply_scopes_bound st changes st' :
  Apply st changes = inr st' → scopes_bound st → scopes_bound st'.
Proof.
  intros (p & Hck & ->)%Apply_inv Hb. unfold scopes_bound in *. simpl.
  destruct (ck_rows _ _ _ Hck) as (scopes & _ & _ & Hs & _).
  pose proof (collectScopes_bound _ _ _ _ _ (originScopes st) Hs) as Hw.
  rewrite map_empty_union in Hw. by apply Hw.
Qed.

(** A recorded sequence never goes back. *)
Definition consumed_by (st : State) (scope : OriginScope) : Prop :=
  ∃ last, originScopes st !! ScopeKey scope = Some last ∧
    (LastSequence scope ≤ LastSequence last)%N.

Lemma Apply_consumed st changes st' scope :
  Apply st changes = inr st' → scopes_valid st → consumed_by st scope → consumed_by st' scope.
Proof.
  intros Ha Hv (last & Hlast & Hle).
  destruct (Apply_scopes _ _ _ Ha (ScopeKey scope)) as [(s & _ & Hk & Hl & _ & Hadv)|[_ Hl]].
  - exists s. split; [done|]. unfold scopeAdvance in Hadv. rewrite Hk, Hlast in Hadv.
    apply nextVersion_inv in Hadv as [-> _]; [lia|].
    apply (Hv _ _), validateOriginScope_inv in Hlast. lia.
  - exists last. by rewrite Hl.
Qed.

Lemma Apply_consumes st changes st' scope :
  Apply st changes = inr st' → OriginScopes changes = [scope] → consumed_by st' scope.
Proof.
  intros Ha Hs. exists scope. split; [|done].
  destruct (Apply_scopes _ _ _ Ha (ScopeKey scope)) as [(s & Hin & _ & Hl & _)|[Hno _]].
  - rewrite Hs in Hin. apply list_elem_of_singleton in Hin as ->. done.
  - destruct (Hno scope); [|done]. rewrite Hs. by left.
Qed.

(** ** Agent sessions *)

(** The row facts of a table: each row is valid and under its own id. *)
Record table `{Countable K} {V E} (id : V → K) (validate : V → option E) (rows : gmap K V) : Prop := {
  table_keyed : keyed_by id rows;
  table_valid : map_Forall (λ _ v, validate v = None) rows }.

Lemma table_by_id `{Countable K} {V E} (id : V → K) (validate : V → option E) values rows :
  Forall (λ v, validate v = None) values → table id validate rows →
  table id validate (by_id id values rows).
Proof.
  intros Hv [Hk Hr]. split; [by apply keyed_by_id|].
  exact (by_id_Forall id (λ v, validate v = None) values rows Hv Hr).
Qed.

(** The check of one session row against the state. *)
Definition sessionChangeOk (st : State) (scopes : gmap OriginScopeKey OriginScope)
    (value : AgentSession.Session) : bool :=
  match agentSessions st !! AgentSession.ID value with
  | None => newSessionOk st scopes value
  | Some current => sessionMutationOk st current value
  end.

Lemma collectSessions_inv st scopes values pending count r :
  collectSessions st scopes values pending count = Some r →
  r.1 = by_id AgentSession.ID values pending ∧
  Forall (λ v, AgentSession.Validate v = None ∧ sessionChangeOk st scopes v = true) values.
Proof.
  revert pending count. induction values as [|v values IH]; intros pending count; simpl.
  { by intros [= <-]. }
  destruct (_ || _) eqn:Hc; [done|]. apply orb_false_iff in Hc as [Hc _].
  apply orb_false_iff in Hc as [Hv%fails_None _].
  intros Hr. assert (sessionChangeOk st scopes v = true ∧ ∃ count', collectSessions st scopes values
    (<[AgentSession.ID v := v]> pending) count' = Some r) as (Hok & count' & [-> Hall]%IH).
  { unfold sessionChangeOk. repeat case_match; eauto; done. }
  split; [done|]. by constructor.
Qed.

Lemma Apply_sessions st changes st' :
  Apply st changes = inr st' →
  agentSessions st' = by_id AgentSession.ID (AgentSessions changes) (agentSessions st) ∧
  ∃ scopes, Forall (λ v, AgentSession.Validate v = None ∧ sessionChangeOk st scopes v = true)
              (AgentSessions changes).
Proof.
  intros (p & Hck & ->)%Apply_inv. simpl. split.
  - unfold writeSessions. generalize (activeAgentSessionCount st), (agentSessions st).
    unfold by_id. induction (AgentSessions changes) as [|v values IH]; intros n rows; simpl; [done|].
    by rewrite IH.
  - destruct (ck_rows _ _ _ Hck) as (scopes & sessions & _ & _ & Hs & _).
    unfold validateAgentSessionChanges in Hs. apply bind_Some in Hs as (r & Hr & _).
    apply collectSessions_inv in Hr as [_ ?]. eauto.
Qed.

(** A session row keeps its device, and is either unchanged or written. *)
Lemma Apply_session st changes st' id session :
  Apply st changes = inr st' → agentSessions st !! id = Some session →
  ∃ session', agentSessions st' !! id = Some session' ∧
    AgentSession.DeviceID session' = AgentSession.DeviceID session ∧
    (session' = session ∨ session' ∈ AgentSessions changes).
Proof.
  intros [Hs (scopes & Hall)]%Apply_sessions Hrow. rewrite Hs.
  destruct (by_id_lookup AgentSession.ID (AgentSessions changes) (agentSessions st) id)
    as [(v & Hin & <- & ->)|[_ ->]]; [|eauto].
  exists v. rewrite Forall_forall in Hall. destruct (Hall v Hin) as [_ Hok].
  unfold sessionChangeOk in Hok. rewrite Hrow in Hok. split; [done|]. split; [|auto].
  unfold sessionMutationOk, SessionReducers.sameAgentSessionIdentity in Hok. rewrite !andb_true_iff in Hok.
  destruct Hok as [[[_ [[[[_ Hd%bool_decide_eq_true] _] _] _]] _] _]. done.
Qed.

(** The active count is the number of sessions that have not ended. *)
Definition sessions_counted (st : State) : Prop :=
  activeAgentSessionCount st = count openSession (map_to_list (agentSessions st)).*2.

Lemma writeSessions_counted values rows n :
  n = count openSession (map_to_list rows).*2 →
  (foldl writeSession (rows, n) values).2 =
  count openSession (map_to_list (foldl writeSession (rows, n) values).1).*2.
Proof.
  revert rows n. induction values as [|v values IH]; intros rows n Hn; simpl; [done|].
  apply IH. rewrite count_insert, Hn. unfold open_count. destruct (rows !! _); lia.
Qed.

Lemma Apply_sessions_counted st changes st' :
  Apply st changes = inr st' → sessions_counted st → sessions_counted st'.
Proof. intros (p & _ & ->)%Apply_inv Hc. by apply writeSessions_counted. Qed.

(** ** Tasks and claims *)

Definition claims_indexed (st : State) : Prop :=
  indexes claimed Task.OwnerAgentSessionID (tasks st) (claimsByAgent st) ∧
  indexes claimed Task.OwnerDeviceID (tasks st) (claimsByDevice st).

Lemma collectTasks_inv values pending r :
  collectTasks values pending = Some r →
  r = by_id Task.ID values pending ∧ Forall (λ v, Task.Validate v = None) values.
Proof.
  revert pending. induction values as [|v values IH]; intros pending; simpl; [by intros [= <-]|].
  destruct (_ || _) eqn:Hc; [done|]. apply orb_false_iff in Hc as [Hv%fails_None _].
  intros [-> Hall]%IH. split; [done|]. by constructor.
Qed.

Lemma writeTask_eq rows agents devices v :
  writeTask (rows, (agents, devices)) v =
  (<[Task.ID v := v]> rows,
   (reindex claimed Task.OwnerAgentSessionID Task.ID (rows !! Task.ID v) v agents,
    reindex claimed Task.OwnerDeviceID Task.ID (rows !! Task.ID v) v devices)).
Proof.
  unfold writeTask, addClaim, removeClaim, claim_update, reindex, claimed.
  destruct (rows !! Task.ID v) as [row|]; simpl; repeat case_bool_decide; done.
Qed.

Lemma writeTasks_indexed values rows agents devices :
  keyed_by Task.ID rows →
  indexes claimed Task.OwnerAgentSessionID rows agents →
  indexes claimed Task.OwnerDeviceID rows devices →
  let after := foldl writeTask (rows, (agents, devices)) values in
  after.1 = by_id Task.ID values rows ∧
  indexes claimed Task.OwnerAgentSessionID after.1 after.2.1 ∧
  indexes claimed Task.OwnerDeviceID after.1 after.2.2.
Proof.
  revert rows agents devices. induction values as [|v values IH]; intros rows agents devices Hk Ha Hd.
  { done. }
  cbn [foldl]. rewrite writeTask_eq. unfold by_id. cbn [foldl]. apply IH.
  - by apply keyed_insert.
  - by apply indexes_write.
  - by apply indexes_write.
Qed.

Lemma writeTasks_rows values rows indexes :
  (foldl writeTask (rows, indexes) values).1 = by_id Task.ID values rows.
Proof.
  revert rows indexes. unfold by_id. induction values as [|v values IH]; intros rows indexes; simpl; [done|].
  by rewrite IH.
Qed.

Lemma Apply_tasks st changes st' :
  Apply st changes = inr st' →
  tasks st' = by_id Task.ID (Tasks changes) (tasks st) ∧
  Forall (λ v, Task.Validate v = None) (Tasks changes).
Proof.
  intros (p & Hck & ->)%Apply_inv. simpl. split; [apply writeTasks_rows|].
  destruct (ck_rows _ _ _ Hck) as (_ & _ & taskRows & _ & _ & _ & Ht & _).
  unfold validateTaskChanges in Ht. apply bind_Some in Ht as (r & Hr & _).
  by apply collectTasks_inv in Hr as [_ ?].
Qed.

Lemma Apply_claims_indexed st changes st' :
  Apply st changes = inr st' → keyed_by Task.ID (tasks st) → claims_indexed st →
  claims_indexed st'.
Proof.
  intros (p & _ & ->)%Apply_inv Hk [Ha Hd].
  by destruct (writeTasks_indexed (Tasks changes) _ _ _ Hk Ha Hd).
Qed.

(** ** Leases *)

Definition leases_indexed (st : State) : Prop :=
  indexes leased Lease.HolderAgentSessionID (leases st) (activeLeasesByAgent st) ∧
  indexes leased Lease.HolderDeviceID (leases st) (activeLeasesByDevice st) ∧
  lists leased (leases st) (activeLeaseIDs st).

Lemma collectLeases_inv st policyValues values pending r :
  collectLeases st policyValues values pending = Some r →
  r = by_id Lease.ID values pending ∧
  Forall (λ v, Lease.Validate v = None ∧ validateLeaseReferences st v = true ∧
               validateLeaseMutation st v policyValues = true) values.
Proof.
  revert pending. induction values as [|v values IH]; intros pending; simpl; [by intros [= <-]|].
  destruct (_ || _) eqn:Hc; [done|]. apply orb_false_iff in Hc as [Hc Hm%negb_false_iff].
  apply orb_false_iff in Hc as [Hc Hrefs%negb_false_iff].
  apply orb_false_iff in Hc as [Hv%fails_None _].
  intros [-> Hall]%IH. split; [done|]. by constructor.
Qed.

Lemma writeLease_eq rows agents devices ids v :
  writeLease (rows, (agents, devices, ids)) v =
  (<[Lease.ID v := v]> rows,
   (reindex leased Lease.HolderAgentSessionID Lease.ID (rows !! Lease.ID v) v agents,
    reindex leased Lease.HolderDeviceID Lease.ID (rows !! Lease.ID v) v devices,
    relist leased Lease.ID (rows !! Lease.ID v) v ids)).
Proof.
  unfold writeLease, addActiveLease, removeActiveLease, lease_update, reindex, relist, leased.
  destruct (rows !! Lease.ID v) as [row|]; simpl; repeat case_bool_decide; done.
Qed.

Lemma writeLeases_indexed values rows agents devices ids :
  keyed_by Lease.ID rows →
  indexes leased Lease.HolderAgentSessionID rows agents →
  indexes leased Lease.HolderDeviceID rows devices →
  lists leased rows ids →
  let after := foldl writeLease (rows, (agents, devices, ids)) values in
  indexes leased Lease.HolderAgentSessionID after.1 after.2.1.1 ∧
  indexes leased Lease.HolderDeviceID after.1 after.2.1.2 ∧
  lists leased after.1 after.2.2.
Proof.
  revert rows agents devices ids.
  induction values as [|v values IH]; intros rows agents devices ids Hk Ha Hd Hi; [done|].
  cbn [foldl]. rewrite writeLease_eq. apply IH.
  - by apply keyed_insert.
  - by apply indexes_write.
  - by apply indexes_write.
  - by apply lists_write.
Qed.

Lemma writeLeases_rows values rows indexes :
  (foldl writeLease (rows, indexes) values).1 = by_id Lease.ID values rows.
Proof.
  revert rows indexes. unfold by_id. induction values as [|v values IH]; intros rows indexes; simpl; [done|].
  by rewrite IH.
Qed.

(** *** The shared array

    The writes in place are those of the receiver: the rows and its slice are the
    same, the slice lies at the front of the array while they share it, and the
    array keeps its size, so that an older header reads as many identifiers. *)
Definition cells_agree (size : nat) (slice : cells) : Prop :=
  let '(array, values, shared) := slice in
  length array = size ∧ (shared = true → values `prefix_of` array).

Lemma write_cells_agree size update id slice :
  cells_agree size slice →
  cells_agree size (write_cells update id slice) ∧
  (write_cells update id slice).1.2 = update slice.1.2 id.
Proof.
  destruct slice as [[array values] shared]. intros [Hlen Hpre]. unfold write_cells.
  destruct (shared && _) eqn:Hs; (split; [|done]); [|done].
  apply andb_true_iff in Hs as [_ Hle%Nat.leb_le]. split.
  - rewrite length_app, length_drop. lia.
  - intros _. by eexists.
Qed.

Lemma cells_update_agree size update value slice :
  cells_agree size slice →
  cells_agree size (cells_update update value slice) ∧
  ∀ agents devices, (cells_update update value slice).1.2 =
    (lease_update update value (agents, devices, slice.1.2)).2.
Proof.
  intros Hc. unfold cells_update, lease_update. destruct (_ != _); [done|].
  destruct (write_cells_agree size update (Lease.ID value) slice Hc) as [? ->]. done.
Qed.

Lemma writeLeaseCells_agree size rows slice indexes value :
  cells_agree size slice → slice.1.2 = indexes.2 →
  cells_agree size (writeLeaseCells (rows, slice) value).2 ∧
  (writeLeaseCells (rows, slice) value).1 = (writeLease (rows, indexes) value).1 ∧
  (writeLeaseCells (rows, slice) value).2.1.2 = (writeLease (rows, indexes) value).2.2.
Proof.
  intros Hc Heq. unfold writeLeaseCells, writeLease. cbn [fst snd].
  set (slice' := match rows !! Lease.ID value with
                 | Some previous => cells_update removeSortedUUIDv7 previous slice
                 | None => slice end).
  set (indexes' := match rows !! Lease.ID value with
                   | Some previous => removeActiveLease previous indexes
                   | None => indexes end).
  assert (cells_agree size slice' ∧ slice'.1.2 = indexes'.2) as [Hc' Heq'].
  { subst slice' indexes'. destruct (rows !! Lease.ID value) as [previous|]; [|done].
    destruct (cells_update_agree size removeSortedUUIDv7 previous slice Hc) as [? Hids].
    split; [done|]. destruct indexes as [[agents devices] ids]. rewrite (Hids agents devices), Heq. done. }
  destruct (cells_update_agree size insertSortedUUIDv7 value slice' Hc') as [? Hids].
  split; [done|]. split; [done|]. destruct indexes' as [[agents devices] ids].
  rewrite (Hids agents devices), Heq'. done.
Qed.

Lemma writeLeaseCells_fold size values rows slice indexes :
  cells_agree size slice → slice.1.2 = indexes.2 →
  let after := foldl writeLeaseCells (rows, slice) values in
  let plain := foldl writeLease (rows, indexes) values in
  cells_agree size after.2 ∧ after.1 = plain.1 ∧ after.2.1.2 = plain.2.2.
Proof.
  revert rows slice indexes. induction values as [|v values IH]; intros rows slice indexes Hc Heq; [done|].
  cbn [foldl]. destruct (writeLeaseCells_agree size rows slice indexes v Hc Heq) as (Hc' & Hr & Hi).
  destruct (writeLeaseCells (rows, slice) v) as [rows1 slice1], (writeLease (rows, indexes) v) as [rows2 indexes2].
  cbn [fst snd] in *. subst rows2. by apply IH.
Qed.

Lemma writeLeasesInPlace_agree st spare values :
  cells_agree (length (activeLeaseIDs st) + spare) (writeLeasesInPlace st spare values).2 ∧
  (writeLeasesInPlace st spare values).1 = (writeLeases st values).1 ∧
  (writeLeasesInPlace st spare values).2.1.2 = (writeLeases st values).2.2.
Proof.
  apply writeLeaseCells_fold; [|done]. unfold leaseArray.
  split; [by rewrite length_app, repeat_length|by eexists].
Qed.

Lemma sharedLeaseIDs_length st spare values :
  length (sharedLeaseIDs st spare values) = length (activeLeaseIDs st).
Proof.
  destruct (writeLeasesInPlace_agree st spare values) as [Hc _]. unfold sharedLeaseIDs.
  destruct (writeLeasesInPlace st spare values).2 as [[array ids] shared]. destruct Hc as [Hlen _].
  cbn. rewrite length_take. lia.
Qed.

Lemma validateLeaseChanges_inv st values policyValues :
  validateLeaseChanges st values policyValues = true →
  Forall (λ v, Lease.Validate v = None ∧ validateLeaseReferences st v = true ∧
               validateLeaseMutation st v policyValues = true) values ∧
  leasesApart st (leasesByID values) values [] = true.
Proof.
  unfold validateLeaseChanges. destruct values as [|v values]; [done|].
  destruct (collectLeases _ _ _ _) as [pending|] eqn:Hc; [|done].
  apply collectLeases_inv in Hc as [-> Hall]. rewrite !andb_true_iff. intros [_ Hap]. done.
Qed.

Lemma Apply_leases st changes st' :
  Apply st changes = inr st' →
  leases st' = by_id Lease.ID (Leases changes) (leases st) ∧
  Forall (λ v, Lease.Validate v = None) (Leases changes) ∧
  leasesApart st (leasesByID (Leases changes)) (Leases changes) [] = true.
Proof.
  intros (p & Hck & ->)%Apply_inv. simpl. split; [apply writeLeases_rows|].
  destruct (ck_rows _ _ _ Hck) as (_ & _ & _ & _ & _ & _ & _ & _ & Hl & _).
  apply validateLeaseChanges_inv in Hl as [Hall ?]. split; [|done].
  eapply Forall_impl; [exact Hall|]. by intros v [? _].
Qed.

Lemma Apply_leases_indexed st changes st' :
  Apply st changes = inr st' → keyed_by Lease.ID (leases st) → leases_indexed st →
  leases_indexed st'.
Proof.
  intros (p & _ & ->)%Apply_inv Hk (Ha & Hd & Hi).
  exact (writeLeases_indexed (Leases changes) _ _ _ _ Hk Ha Hd Hi).
Qed.

(** Two leases that reserve no common resource. *)
Definition disjoint_leases (left right : Lease.Lease) : Prop :=
  ¬ ∃ r, reserves left r ∧ reserves right r.

Lemma disjoint_leases_sym left right : disjoint_leases left right → disjoint_leases right left.
Proof. intros Hd (r & Hr & Hl). apply Hd. eauto. Qed.

Lemma apart_disjoint left right :
  apart left right = true → leased left = true → leased right = true →
  disjoint_leases left right.
Proof.
  unfold apart. destruct (Lease.ActiveLeasesIntersect left right) as [|b] eqn:Hi; [done|].
  destruct b; [done|]. intros _ Hl Hr Hex. by apply (intersect_reserves _ _ _ Hi Hl Hr) in Hex.
Qed.

Lemma leasesApart_inv st pending values prior :
  leasesApart st pending values prior = true →
  ∀ c, c ∈ values → leased c = true →
    apartFromActive st pending c = true ∧
    ∀ o, o ∈ values ++ prior → o ≠ c → leased o = true → disjoint_leases c o.
Proof.
  revert prior. induction values as [|v values IH]; intros prior Hap c Hc Hlc.
  { by apply not_elem_of_nil in Hc. }
  simpl in Hap. apply andb_true_iff in Hap as [Hv Hrest]. specialize (IH _ Hrest).
  apply elem_of_cons in Hc as [->|Hc].
  - rewrite Hlc in Hv. simpl in Hv. apply andb_true_iff in Hv as [Hact Hprior].
    split; [done|]. intros o Ho Hne Hlo. rewrite forallb_forall in Hprior.
    apply elem_of_cons in Ho as [|Ho]; [done|]. apply elem_of_app in Ho as [Ho|Ho].
    + apply disjoint_leases_sym. apply (IH o Ho Hlo); [set_solver|done..].
    + apply list_elem_of_In in Ho. specialize (Hprior o Ho). rewrite Hlo in Hprior.
      by apply apart_disjoint.
  - destruct (IH c Hc Hlc) as [Hact Hothers]. split; [done|].
    intros o Ho. apply Hothers. set_solver.
Qed.

Lemma apartFromActive_inv st pending c id row :
  apartFromActive st pending c = true → leased c = true →
  lists leased (leases st) (activeLeaseIDs st) →
  leases st !! id = Some row → leased row = true → pending !! id = None →
  disjoint_leases c row.
Proof.
  unfold apartFromActive. rewrite forallb_forall. intros Hall Hc [_ Hi] Hrow Hl Hp.
  assert (Hin : id ∈ activeLeaseIDs st) by (apply Hi; eauto).
  apply list_elem_of_In in Hin. specialize (Hall id Hin). rewrite Hp, Hrow in Hall. simpl in Hall.
  apply andb_true_iff in Hall as [_ Hap]. by apply apart_disjoint.
Qed.

Lemma Apply_exclusive st changes st' :
  Apply st changes = inr st' → leases_indexed st → leases_exclusive st → leases_exclusive st'.
Proof.
  intros (Hrows & _ & Hap)%Apply_leases (_ & _ & Hi) Hex.
  pose proof (leasesApart_inv _ _ _ _ Hap) as Hinv. clear Hap.
  assert (Hnew : ∀ k k' c row, k ≠ k' → c ∈ Leases changes → Lease.ID c = k →
    leases st' !! k' = Some row → leased c = true → leased row = true → disjoint_leases c row).
  { intros k k' c row Hne Hc <- Hrow Hlc Hlr. destruct (Hinv c Hc Hlc) as [Hact Hothers].
    rewrite Hrows in Hrow.
    destruct (by_id_lookup Lease.ID (Leases changes) (leases st) k')
      as [(v & Hv & <- & Hl)|[Hno Hl]]; rewrite Hl in Hrow; simplify_eq.
    - apply Hothers; [set_solver|congruence|done].
    - refine (apartFromActive_inv _ _ _ k' row Hact Hlc Hi Hrow Hlr _).
      unfold leasesByID. fold (by_id Lease.ID (Leases changes) ∅).
      destruct (by_id_lookup Lease.ID (Leases changes) ∅ k')
        as [(v & Hv & Hvk & _)|[_ ->]]; [by destruct (Hno v)|done]. }
  intros k k' row row' Hrow Hrow' Hne Hact Hact'.
  pose proof Hrow as Hr. rewrite Hrows in Hr.
  destruct (by_id_lookup Lease.ID (Leases changes) (leases st) k)
    as [(c & Hc & Hk & Hl)|[Hno Hl]]; rewrite Hl in Hr; simplify_eq.
  { by apply (Hnew (Lease.ID row) k' row row'). }
  pose proof Hrow' as Hr'. rewrite Hrows in Hr'.
  destruct (by_id_lookup Lease.ID (Leases changes) (leases st) k')
    as [(c & Hc & Hk & Hl')|[Hno' Hl']]; rewrite Hl' in Hr'; simplify_eq.
  { apply disjoint_leases_sym. by apply (Hnew (Lease.ID row') k row' row). }
  by apply (Hex k k' row row').
Qed.

(** ** Ownership *)

(** An open agent session on the device. *)
Definition open_holder (st : State) (sessionID deviceID : string) : Prop :=
  ∃ session, agentSessions st !! sessionID = Some session ∧ openSession session = true ∧
    AgentSession.DeviceID session = deviceID.

(** No task is owned, and no active lease held, by a session that has ended. *)
Definition owners_open (st : State) : Prop :=
  map_Forall (λ _ t, claimed t = true →
    open_holder st (Task.OwnerAgentSessionID t) (Task.OwnerDeviceID t)) (tasks st).
Definition holders_open (st : State) : Prop :=
  map_Forall (λ _ l, leased l = true →
    open_holder st (Lease.HolderAgentSessionID l) (Lease.HolderDeviceID l)) (leases st).

(** The pending tables of the checks are the rows the change set writes. *)
Lemma Apply_ownership st changes st' :
  Apply st changes = inr st' → ∃ sessions taskRows leaseRows,
  agentSessions st' = sessions ∪ agentSessions st ∧
  tasks st' = taskRows ∪ tasks st ∧
  leases st' = leaseRows ∪ leases st ∧
  map_Forall (λ _ t, Task.Validate t = None ∧
    validateTaskReferences st t (dom taskRows) = true) taskRows ∧
  map_Forall (λ _ l, validateLeaseReferences st l = true) leaseRows ∧
  validateProspectiveOwnership st sessions taskRows leaseRows = true ∧
  validateSessionEndCascades st sessions taskRows leaseRows = true.
Proof.
  intros Ha. pose proof Ha as (p & Hck & _)%Apply_inv.
  destruct (ck_rows _ _ _ Hck)
    as (scopes & sessions & taskRows & _ & Hs & _ & Ht & _ & Hl & Hown & Hcas & _).
  exists sessions, taskRows, (leasesByID (Leases changes)).
  unfold validateAgentSessionChanges in Hs. apply bind_Some in Hs as (r & Hr & Hs).
  apply collectSessions_inv in Hr as [Hr _]. destruct r as [r n]. simpl in Hr, Hs.
  destruct (_ <? _)%Z; [done|]. injection Hs as <-.
  unfold validateTaskChanges in Ht. apply bind_Some in Ht as (r' & Hr' & Ht).
  apply collectTasks_inv in Hr' as [Hr' Hval]. destruct (forallb _ _) eqn:Hrefs; [|done].
  injection Ht as <-.
  apply validateLeaseChanges_inv in Hl as [Hlall _].
  split; [rewrite Hr, <-by_id_union; by apply (Apply_sessions _ _ _ Ha)|].
  split; [rewrite Hr', <-by_id_union; by apply (Apply_tasks _ _ _ Ha)|].
  split; [unfold leasesByID; fold (by_id Lease.ID (Leases changes) ∅);
    rewrite <-by_id_union; by apply (Apply_leases _ _ _ Ha)|].
  split_and!; try done.
  - pose proof (by_id_Forall Task.ID (λ t, Task.Validate t = None ∧
      validateTaskReferences st t (dom r') = true) (Tasks changes) ∅) as Hby.
    rewrite <-Hr' in Hby. apply Hby; [|by apply map_Forall_empty].
    rewrite Forall_forall in *. intros t Hin. split; [by apply Hval|].
    rewrite forallb_forall in Hrefs. by apply Hrefs, list_elem_of_In.
  - apply (by_id_Forall Lease.ID (λ l, validateLeaseReferences st l = true));
      [|by apply map_Forall_empty].
    eapply Forall_impl; [exact Hlall|]. by intros l (_ & ? & _).
Qed.

(** A holder that was open and is open after the change set. *)
Lemma open_after st changes st' sessions id device :
  Apply st changes = inr st' → agentSessions st' = sessions ∪ agentSessions st →
  open_holder st id device → openAfter st sessions id = true → open_holder st' id device.
Proof.
  intros Ha Hs (session & Hrow & Hopen & Hd) Hafter.
  destruct (Apply_session _ _ _ _ _ Ha Hrow) as (session' & Hrow' & Hd' & _).
  exists session'. split; [done|]. split; [|congruence].
  unfold openAfter in Hafter. rewrite <-Hs, Hrow' in Hafter. done.
Qed.

(** A holder that the change set ends has its rows released with it. *)
Lemma closed_after st changes st' sessions taskRows leaseRows id device :
  Apply st changes = inr st' → agentSessions st' = sessions ∪ agentSessions st →
  validateSessionEndCascades st sessions taskRows leaseRows = true →
  open_holder st id device → ¬ open_holder st' id device →
  ∃ reason reason',
    forallb (cascadeTaskOk st taskRows reason) (ids_at (claimsByAgent st) id) = true ∧
    forallb (cascadeLeaseOk st leaseRows reason') (ids_at (activeLeasesByAgent st) id) = true.
Proof.
  intros Ha Hs Hcas (session & Hrow & Hopen & Hd) Hclosed.
  destruct (Apply_session _ _ _ _ _ Ha Hrow) as (session' & Hrow' & Hd' & _).
  destruct (openSession session') eqn:Hopen'.
  { exfalso. apply Hclosed. exists session'. split_and!; [done|done|congruence]. }
  rewrite Hs in Hrow'. apply lookup_union_Some_raw in Hrow' as [Hin|[_ Hin]]; [|congruence].
  unfold validateSessionEndCascades in Hcas. rewrite forallb_forall in Hcas.
  specialize (Hcas (id, session')). cbn beta iota in Hcas.
  rewrite <-list_elem_of_In, elem_of_map_to_list in Hcas. specialize (Hcas Hin).
  unfold sessionEndOk in Hcas. rewrite Hrow, Hopen, Hopen' in Hcas. simpl in Hcas.
  apply andb_true_iff in Hcas as [? ?]. eauto.
Qed.

Lemma Apply_owners_open st changes st' :
  Apply st changes = inr st' → claims_indexed st → owners_open st → owners_open st'.
Proof.
  intros Ha [Hidx _] Hown i t Ht Hc.
  destruct (Apply_ownership _ _ _ Ha)
    as (sessions & taskRows & leaseRows & Hs & Htasks & _ & Hrefs & _ & Hpros & Hcas).
  rewrite Htasks in Ht. apply lookup_union_Some_raw in Ht as [Ht|[Hnone Ht]].
  - destruct (Hrefs i t Ht) as [Hval Href].
    apply Task.task_valid_inv in Hval as (_ & _ & _ & _ & Hvo & _).
    apply Task.validateOwnership_owned in Hvo as [_ Hboth].
    unfold claimed in Hc. apply negb_true_iff, bool_decide_eq_false in Hc.
    unfold validateTaskReferences in Href. rewrite !andb_true_iff in Href.
    destruct Href as [[_ Howner] _]. rewrite bool_decide_false in Howner by done. simpl in Howner.
    apply andb_true_iff in Howner as [_ Hsess].
    destruct (agentSessions st !! Task.OwnerAgentSessionID t) as [session|] eqn:Hrow; [|done].
    apply andb_true_iff in Hsess as [Hd%bool_decide_eq_true Hne].
    unfold validateProspectiveOwnership in Hpros. apply andb_true_iff in Hpros as [Hpros _].
    rewrite forallb_forall in Hpros. specialize (Hpros (i, t)). cbn beta iota in Hpros.
    rewrite <-list_elem_of_In, elem_of_map_to_list in Hpros. specialize (Hpros Ht).
    rewrite bool_decide_false in Hpros by (by apply Hboth). simpl in Hpros.
    by apply (open_after _ _ _ _ _ _ Ha Hs); [exists session|].
  - pose proof (Hown i t Ht Hc) as Hopen. simpl in Hopen.
    destruct (openAfter st sessions (Task.OwnerAgentSessionID t)) eqn:Hafter.
    { by apply (open_after _ _ _ _ _ _ Ha Hs). }
    destruct (closed_after _ _ _ _ taskRows leaseRows _ _ Ha Hs Hcas Hopen)
      as (reason & reason' & Hct & _).
    { intros (session & Hrow & Ho & _). unfold openAfter in Hafter. rewrite <-Hs, Hrow in Hafter.
      congruence. }
    rewrite forallb_forall in Hct.
    assert (Hin : i ∈ ids_at (claimsByAgent st) (Task.OwnerAgentSessionID t)).
    { apply (proj2 (Hidx _)). exists t. rewrite Hc. by rewrite bool_decide_true. }
    apply list_elem_of_In in Hin. specialize (Hct i Hin). unfold cascadeTaskOk in Hct.
    by rewrite Ht, Hnone in Hct.
Qed.

Lemma Apply_holders_open st changes st' :
  Apply st changes = inr st' → leases_indexed st → holders_open st → holders_open st'.
Proof.
  intros Ha (Hidx & _ & _) Hown i l Hl Hc.
  destruct (Apply_ownership _ _ _ Ha)
    as (sessions & taskRows & leaseRows & Hs & _ & Hleases & _ & Hrefs & Hpros & Hcas).
  rewrite Hleases in Hl. apply lookup_union_Some_raw in Hl as [Hl|[Hnone Hl]].
  - pose proof (Hrefs i l Hl) as Href. simpl in Href.
    unfold validateLeaseReferences in Href. rewrite !andb_true_iff in Href.
    destruct Href as [[_ Hsess] _].
    destruct (agentSessions st !! Lease.HolderAgentSessionID l) as [session|] eqn:Hrow; [|done].
    rewrite !andb_true_iff in Hsess. destruct Hsess as [[[_ Hd%bool_decide_eq_true] _] Hopen].
    unfold leased in Hc. rewrite Hc in Hopen. simpl in Hopen.
    unfold validateProspectiveOwnership in Hpros. apply andb_true_iff in Hpros as [_ Hpros].
    rewrite forallb_forall in Hpros. specialize (Hpros (i, l)). cbn beta iota in Hpros.
    rewrite <-list_elem_of_In, elem_of_map_to_list in Hpros. specialize (Hpros Hl).
    unfold leased in Hpros. rewrite Hc in Hpros. simpl in Hpros.
    by apply (open_after _ _ _ _ _ _ Ha Hs); [exists session|].
  - pose proof (Hown i l Hl Hc) as Hopen. simpl in Hopen.
    destruct (openAfter st sessions (Lease.HolderAgentSessionID l)) eqn:Hafter.
    { by apply (open_after _ _ _ _ _ _ Ha Hs). }
    destruct (closed_after _ _ _ _ taskRows leaseRows _ _ Ha Hs Hcas Hopen)
      as (reason & reason' & _ & Hct).
    { intros (session & Hrow & Ho & _). unfold openAfter in Hafter. rewrite <-Hs, Hrow in Hafter.
      congruence. }
    rewrite forallb_forall in Hct.
    assert (Hin : i ∈ ids_at (activeLeasesByAgent st) (Lease.HolderAgentSessionID l)).
    { apply (proj2 (Hidx _)). exists l. rewrite Hc. by rewrite bool_decide_true. }
    apply list_elem_of_In in Hin. specialize (Hct i Hin). unfold cascadeLeaseOk in Hct.
    by rewrite Hl, Hnone in Hct.
Qed.

(** ** Members *)

Definition topology (st : State) : bool :=
  validateMembershipTopology st (devices st) (auditCounters st) (voterSet st)
    (credentialAuthority st).

Lemma Apply_topology st changes st' : Apply st changes = inr st' → topology st' = true.
Proof.
  intros (p & Hck & ->)%Apply_inv. pose proof (ck_membership _ _ _ Hck) as Hm.
  unfold validateMembershipChanges in Hm. destruct (_ || _); [done|].
  apply bind_Some in Hm as ([pendingDevices operation] & _ & Hm).
  apply bind_Some in Hm as ([counters increments] & _ & Hm).
  repeat match type of Hm with
  | (if ?c then None else _) = _ => destruct c; [done|]
  end.
  apply bind_Some in Hm as (target & _ & Hm). apply bind_Some in Hm as (authority & _ & Hm).
  destruct (validateMembershipTopology _ _ _ _ _) eqn:Ht; [|done].
  injection Hm as Hm. unfold topology. simpl. rewrite <-Hm. exact Ht.
Qed.

(** ** Policy limits *)

Definition within_policy (st : State) : Prop :=
  policyUseViolation st (Policy.PolicyValues (sessionPolicy st)) nothing_pending =
  policyUseWithinLimits.

Lemma Apply_within_policy st changes st' : Apply st changes = inr st' → within_policy st'.
Proof.
  intros Ha. pose proof Ha as (p & Hck & Hw)%Apply_inv.
  destruct (ck_rows _ _ _ Hck)
    as (scopes & sessions & taskRows & _ & Hs & _ & Ht & _ & _ & _ & _ & _ & Huse).
  apply Apply_sessions in Ha as Hsess. destruct Hsess as [Hsess _].
  apply Apply_tasks in Ha as Htask. destruct Htask as [Htask _].
  apply Apply_leases in Ha as Hlease. destruct Hlease as [Hlease _].
  unfold validateAgentSessionChanges in Hs. apply bind_Some in Hs as (r & Hr & Hs).
  apply collectSessions_inv in Hr as [Hr _]. destruct r as [r n]. simpl in Hr, Hs.
  destruct (_ <? _)%Z; [done|]. simplify_eq Hs. intros <-.
  unfold validateTaskChanges in Ht. apply bind_Some in Ht as (r' & Hr' & Ht).
  apply collectTasks_inv in Hr' as [Hr' _]. destruct (forallb _ _); [|done]. simplify_eq Ht. intros <-.
  rewrite by_id_union, <-Hr in Hsess. rewrite by_id_union, <-Hr' in Htask.
  rewrite by_id_union in Hlease.
  unfold within_policy. rewrite <-Huse. unfold policyUseViolation, rows, nothing_pending.
  cbn [pendingDevices pendingAuditCounters pendingSessions pendingTasks pendingLeases].
  rewrite !map_empty_union, Hsess, Htask, Hlease, Hw. done.
Qed.

(** ** Publications and the canonical ref *)

(** The one operation a publication row is rewritten by. *)
Definition publication_rewritten (current next : Publication.Publication)
    (operation : Publication.Operation) : Prop :=
  Publication.ValidateTransition operation current next = None ∧
  operation ≠ Publication.OperationRecoveryWithdraw.

Lemma classifyPublicationTransition_inv current next operation :
  classifyPublicationTransition current next = Some operation →
  publication_rewritten current next operation.
Proof.
  unfold classifyPublicationTransition. intros Hf. apply find_some in Hf as [Hin Hv].
  apply negb_true_iff, fails_None in Hv. split; [done|].
  intros ->. apply list_elem_of_In in Hin. by vm_compute in Hin; set_unfold in Hin; naive_solver.
Qed.

Lemma Apply_repository st changes st' :
  Apply st changes = inr st' → ∃ r,
  validateRepositoryChanges st changes = Some r ∧
  canonicalRef st' = default (canonicalRef st) (prCanonicalRef r) ∧
  publications st' = prPublications r ∪ publications st ∧
  mergeConflicts st' = prMergeConflicts r ∪ mergeConflicts st.
Proof.
  intros (p & Hck & ->)%Apply_inv. exists (pcRepository p).
  split; [apply (ck_repository _ _ _ Hck)|done].
Qed.

(** The publication part of a change set: nothing, a new proposal, or one row
    rewritten by one operation, which is the apply exactly when the canonical
    ref moves. *)
Lemma publications_change st changes r :
  validateRepositoryChanges st changes = Some r →
  (prPublications r = ∅ ∧ prCanonicalRef r = None) ∨
  ∃ next, prPublications r = {[publicationID next := next]} ∧
    Publication.Validate next = None ∧
    ((publications st !! publicationID next = None ∧
      Publication.PState next = Publication.StateProposed ∧ prCanonicalRef r = None) ∨
     ∃ current operation, publications st !! publicationID next = Some current ∧
       publication_rewritten current next operation ∧
       (operation ≠ Publication.OperationApply → prCanonicalRef r = None) ∧
       (operation = Publication.OperationApply → ∃ ref, prCanonicalRef r = Some ref ∧
          validateCanonicalRefTransition (canonicalRef st) ref = true ∧
          Publication.BaseCommit (Publication.Meta next) =
            Publication.RefCommitOID (canonicalRef st) ∧
          Publication.CommitOID (Publication.Meta next) = Publication.RefCommitOID ref)).
Proof.
  unfold validateRepositoryChanges. destruct (_ || _) eqn:Hlen; [done|].
  intros ([pubs operation] & Hp & (ref & Href & Hr)%bind_Some)%bind_Some.
  match type of Hr with (if ?c then _ else _) = _ => destruct c; [done|] end.
  assert (prPublications r = pubs ∧ prCanonicalRef r = ref) as [-> ->].
  { destruct (MergeConflicts changes) as [|value rest]; [by simplify_eq|].
    apply bind_Some in Hr as ([t n] & _ & Hr). by simplify_eq. }
  clear Hr. apply orb_false_iff in Hlen as [Hlen _]. apply orb_false_iff in Hlen as [Hlen _].
  apply orb_false_iff in Hlen as [Hrefs Hpubs].
  unfold canonicalRefChange in Href.
  destruct (Publications changes) as [|next [|]]; simpl in Hp, Hpubs; [| |done].
  { injection Hp as <- <-. left. split; [done|].
    destruct (CanonicalRefs changes) as [|? [|]]; [by injection Href as <-|done|done]. }
  right. exists next. destruct (fails (Publication.Validate next)) eqn:Hv; [done|].
  apply fails_None in Hv.
  destruct (publications st !! publicationID next) as [current|] eqn:Hcur.
  - apply bind_Some in Hp as (op & Hop & Hp). injection Hp as <- <-.
    apply classifyPublicationTransition_inv in Hop.
    split; [done|]. split; [done|]. right. exists current, op. split; [done|]. split; [done|].
    destruct (CanonicalRefs changes) as [|new [|]]; simpl in Hrefs; [| |done].
    + case_bool_decide; [done|]. simplify_eq. split; [done|]. intros ->. done.
    + destruct (_ && _) eqn:Hc; [|done]. injection Href as <-.
      apply andb_true_iff in Hc as [Hc Hcommit%bool_decide_eq_true].
      apply andb_true_iff in Hc as [Hc Hbase%bool_decide_eq_true].
      apply andb_true_iff in Hc as [Hop'%bool_decide_eq_true Hval]. simplify_eq.
      split; [done|]. intros _. eauto 10.
  - destruct (publicationBaseline st next) eqn:Hb; [|done]. injection Hp as <- <-.
    split; [done|]. split; [done|]. left.
    unfold publicationBaseline in Hb. apply andb_true_iff in Hb as [Hb _].
    apply andb_true_iff in Hb as [Hb%bool_decide_eq_true _]. split; [done|]. split; [done|].
    destruct (CanonicalRefs changes) as [|new [|]]; [by injection Href as <-|done|done].
Qed.

(** A publication row stays, or is rewritten from a state that is not
    terminal, and keeps its metadata. *)
Lemma Apply_publication st changes st' id row :
  Apply st changes = inr st' → publications st !! id = Some row →
  ∃ row', publications st' !! id = Some row' ∧
    Publication.Meta row' = Publication.Meta row ∧
    (row' = row ∨ Publication.State_Terminal (Publication.PState row) = false).
Proof.
  intros (r & Hr & _ & Hpubs & _)%Apply_repository Hrow. rewrite Hpubs.
  destruct (publications_change _ _ _ Hr) as [[-> _]|(next & -> & _ & Hcase)].
  { rewrite map_empty_union. eauto. }
  destruct (decide (publicationID next = id)) as [<-|Hne].
  - destruct Hcase as [[Hnone _]|(current & op & Hcur & [Ht _] & _)]; [congruence|].
    simplify_eq. exists next. rewrite lookup_union_l' by (rewrite lookup_singleton_eq; eauto).
    rewrite lookup_singleton_eq.
    apply Publication.publication_transition_inv in Ht as (_ & _ & Hm & He & _).
    apply Publication.legalEdges_nonterminal in He as [Ht _]. auto.
  - exists row. rewrite lookup_union_r by by rewrite lookup_singleton_ne. auto.
Qed.

(** The canonical ref stays, or a publication that was not applied before is
    applied on top of it. *)
Lemma Apply_canonicalRef st changes st' :
  Apply st changes = inr st' →
  canonicalRef st' = canonicalRef st ∨
  ∃ row current, publications st' !! publicationID row = Some row ∧
    publications st !! publicationID row = Some current ∧
    Publication.PState current = Publication.StateApproved ∧
    Publication.PState row = Publication.StateApplied ∧
    Publication.BaseCommit (Publication.Meta row) = Publication.RefCommitOID (canonicalRef st) ∧
    Publication.CommitOID (Publication.Meta row) = Publication.RefCommitOID (canonicalRef st') ∧
    Publication.RefName (canonicalRef st') = Publication.RefName (canonicalRef st) ∧
    Publication.RefEntityVersion (canonicalRef st') =
      (Publication.RefEntityVersion (canonicalRef st) + 1)%N.
Proof.
  intros (r & Hr & -> & -> & _)%Apply_repository.
  destruct (publications_change _ _ _ Hr)
    as [[_ ->]|(row & -> & _ & [(_ & _ & ->)|(current & op & Hcur & [Ht _] & Hno & Hap)])];
    [by left..|].
  destruct (decide (op = Publication.OperationApply)) as [->|Hne]; [|left; by rewrite Hno].
  right. destruct (Hap eq_refl) as (ref & -> & Hv & Hbase & Hcommit). simpl.
  exists row, current.
  apply Publication.publication_transition_inv in Ht as (_ & _ & _ & He & _).
  simpl in He. apply list_elem_of_singleton in He. simplify_eq.
  unfold validateCanonicalRefTransition in Hv. rewrite !andb_true_iff in Hv.
  destruct Hv as [[[[[[Hcurrent _] Hname%bool_decide_eq_true] _] _] Hver%N.eqb_eq] _].
  rewrite lookup_union_l' by (rewrite lookup_singleton_eq; eauto). rewrite lookup_singleton_eq.
  split_and!; try done.
  apply negb_true_iff, fails_None in Hcurrent. unfold Publication.CanonicalRef_Validate in Hcurrent.
  chain_inv Hcurrent. unfold Domain.ValidUnsignedInteger in *. bools.
  rewrite Hver. apply u64_succ_small. unfold Domain.MaxSafeInteger, u64_modulus in *. lia.
Qed.

(** ** Plans and memory *)

(** Every supersession chain of the rows ends. *)
Definition chains_end {A} (supersedes : A → string) (rows : gmap string A) : Prop :=
  closed supersedes rows ∧ ∀ x, Acc (flip (supersession supersedes rows)) x.

Lemma collectImmutable_inv {A} (id : A → string) existing ok pending changes r :
  collectImmutable id existing ok pending changes = Some r →
  r = by_id id changes pending ∧
  Forall (λ v, existing !! id v = None ∧ ok v = true) changes.
Proof.
  revert pending. induction changes as [|v changes IH]; intros pending; simpl.
  { by intros [= <-]. }
  destruct (_ || _) eqn:Hc; [done|]. apply orb_false_iff in Hc as [Hc Hok%negb_false_iff].
  apply orb_false_iff in Hc as [Hex%present_None _].
  intros [-> Hall]%IH. split; [done|]. by constructor.
Qed.

Lemma collectImmutable_fresh {A} (id : A → string) existing ok changes r :
  collectImmutable id existing ok ∅ changes = Some r →
  keyed_by id r ∧ ∀ i, is_Some (r !! i) → existing !! i = None.
Proof.
  intros [-> Hall]%collectImmutable_inv. rewrite Forall_forall in Hall.
  split; [by apply keyed_by_id; intros ? ? Hl; rewrite lookup_empty in Hl|].
  intros i [v Hv]. destruct (by_id_lookup id changes ∅ i) as [(w & Hw & <- & _)|[_ Hl]].
  - by destruct (Hall w Hw).
  - rewrite Hl in Hv. by rewrite lookup_empty in Hv.
Qed.

Lemma fresh_union {A} (pending rows : gmap string A) :
  (∀ i, is_Some (pending !! i) → rows !! i = None) → rows ⊆ pending ∪ rows.
Proof.
  intros Hf. apply map_subseteq_spec. intros i v Hv. apply lookup_union_Some_raw.
  destruct (pending !! i) as [w|] eqn:Hw; [|auto]. rewrite (Hf i) in Hv by eauto. done.
Qed.

Lemma chains_end_union {A} (supersedes : A → string) pending rows :
  (∀ i, is_Some (pending !! i) → rows !! i = None) →
  validateCycles supersedes pending = true →
  (∀ i v, pending !! i = Some v → supersedes v ≠ EmptyString →
     is_Some (rows !! supersedes v) ∨ is_Some (pending !! supersedes v)) →
  chains_end supersedes rows → chains_end supersedes (pending ∪ rows).
Proof.
  intros Hf Hcyc Hpred [Hclosed Hends]. split.
  - intros i v [Hv|[_ Hv]]%lookup_union_Some_raw Hne; rewrite lookup_union_is_Some.
    + destruct (Hpred i v Hv Hne); auto.
    + right. by apply (Hclosed i).
  - intros x. apply union_ends; [done..|]. intros y. by apply validateCycles_ends.
Qed.

Lemma Apply_coordination st changes st' :
  Apply st changes = inr st' → ∃ tasks p,
  validatePlanMemoryChanges st changes tasks = Some p ∧
  planRevisions st' = pendingRevisions p ∪ planRevisions st ∧
  planCurrent st' = default (planCurrent st) (pendingCurrent p) ∧
  memoryRecords st' = pendingRecords p ∪ memoryRecords st ∧
  memorySuccessors st' = writeMemorySuccessors st (pendingRecords p).
Proof.
  intros (p & Hck & ->)%Apply_inv.
  destruct (ck_rows _ _ _ Hck) as (_ & _ & taskRows & _ & _ & _ & _ & Hp & _).
  by exists (dom taskRows), (pcCoordination p).
Qed.

(** What the checks of the plan and memory rows establish. *)
Lemma validatePlanMemoryChanges_inv st changes taskIDs p :
  validatePlanMemoryChanges st changes taskIDs = Some p →
  collectImmutable Plan.id_ (planRevisions st)
    (λ revision, validatePlanRevisionRow st revision taskIDs) ∅ (PlanRevisions changes) =
    Some (pendingRevisions p) ∧
  (∀ i v, pendingRevisions p !! i = Some v →
     revisionPredecessorOk st (pendingRevisions p) v = true) ∧
  validatePlanRevisionCycles (pendingRevisions p) = true ∧
  collectImmutable Memory.id_ (memoryRecords st)
    (λ record, validateMemoryRow st record taskIDs) ∅ (MemoryRecords changes) =
    Some (pendingRecords p) ∧
  successorsOk st (pendingRecords p) ∅ (map_to_list (pendingRecords p)) = true ∧
  validateMemoryCycles (pendingRecords p) = true.
Proof.
  unfold validatePlanMemoryChanges. intros (revisions & Hrev & Hv)%bind_Some.
  destruct (_ || _) eqn:Hc in Hv; [done|].
  apply orb_false_iff in Hc as [Hpred%negb_false_iff Hcyc%negb_false_iff].
  apply bind_Some in Hv as (current & _ & (records & Hrec & Hv)%bind_Some).
  destruct (_ || _) eqn:Hc in Hv; [done|].
  apply orb_false_iff in Hc as [Hsucc%negb_false_iff Hmem%negb_false_iff]. simplify_eq. simpl.
  split_and!; try done. intros i v Hi. rewrite forallb_forall in Hpred.
  by apply (Hpred (i, v)), list_elem_of_In, elem_of_map_to_list.
Qed.

Lemma Apply_plans st changes st' :
  Apply st changes = inr st' →
  planRevisions st ⊆ planRevisions st' ∧
  (chains_end Plan.supersedes (planRevisions st) →
   chains_end Plan.supersedes (planRevisions st')).
Proof.
  intros (taskIDs & p & Hp & -> & _)%Apply_coordination.
  apply validatePlanMemoryChanges_inv in Hp as (Hrev & Hpred & Hcyc & _).
  apply collectImmutable_fresh in Hrev as [_ Hf].
  split; [by apply fresh_union|]. apply chains_end_union; [done|done|].
  intros i v Hi Hne. specialize (Hpred i v Hi). unfold revisionPredecessorOk in Hpred.
  rewrite bool_decide_false in Hpred by done. simpl in Hpred.
  destruct (planRevisions st !! Plan.supersedes v); [left; eauto|right].
  by apply present_Some.
Qed.

(** The successor index names the one record that supersedes each record. *)
Definition successors_exact (records : gmap string Memory.Record_)
    (successors : gmap string string) : Prop :=
  ∀ p id, successors !! p = Some id ↔
    p ≠ EmptyString ∧ ∃ r, records !! id = Some r ∧ Memory.supersedes r = p.

Lemma successorsOk_inv st pending successors records :
  successorsOk st pending successors records = true →
  (∀ id r, (id, r) ∈ records → Memory.supersedes r ≠ EmptyString →
     is_Some (recordPredecessor st pending (Memory.supersedes r)) ∧
     memorySuccessors st !! Memory.supersedes r = None ∧
     successors !! Memory.supersedes r = None) ∧
  (∀ id r id' r', (id, r) ∈ records → (id', r') ∈ records →
     Memory.supersedes r ≠ EmptyString → Memory.supersedes r = Memory.supersedes r' → id = id').
Proof.
  revert successors. induction records as [|[id r] records IH]; intros successors Hs; simpl in Hs.
  { split; intros *; by intros []%not_elem_of_nil. }
  case_bool_decide as He; simpl in Hs.
  { apply IH in Hs as [Hall Hinj]. split.
    - intros i v [[= -> ->]|Hin]%elem_of_cons Hne; [done|by apply (Hall i v)].
    - intros i v i' v' [[= -> ->]|Hin]%elem_of_cons [[= -> ->]|Hin']%elem_of_cons Hne Heq;
        [done|done|congruence|by eapply Hinj]. }
  destruct (recordPredecessor st pending (Memory.supersedes r)) as [pred|] eqn:Hpred; [|done].
  rewrite !andb_true_iff in Hs. destruct Hs as [[[_ Hst] Hsu] Hs].
  apply negb_true_iff, present_None in Hst, Hsu. apply IH in Hs as [Hall Hinj].
  assert (Hother : ∀ i v, (i, v) ∈ records → Memory.supersedes v ≠ Memory.supersedes r).
  { intros i v Hin Heq. destruct (Hall i v Hin) as (_ & _ & Hl); [congruence|].
    by rewrite Heq, lookup_insert_eq in Hl. }
  split.
  - intros i v [[= -> ->]|Hin]%elem_of_cons Hne; [eauto|].
    destruct (Hall i v Hin Hne) as (? & ? & Hl). split_and!; [done|done|].
    rewrite lookup_insert_ne in Hl; [done|]. symmetry. by eapply Hother.
  - intros i v i' v' [[= -> ->]|Hin]%elem_of_cons [[= -> ->]|Hin']%elem_of_cons Hne Heq;
      [done|by destruct (Hother _ _ Hin')|by destruct (Hother _ _ Hin)|by eapply Hinj].
Qed.

Lemma writeMemorySuccessors_lookup st pending p :
  (∀ i j v w, pending !! i = Some v → pending !! j = Some w →
     Memory.supersedes v ≠ EmptyString → Memory.supersedes v = Memory.supersedes w → i = j) →
  (∃ i v, pending !! i = Some v ∧ Memory.supersedes v = p ∧ p ≠ EmptyString ∧
     writeMemorySuccessors st pending !! p = Some i) ∨
  (∀ i v, pending !! i = Some v → Memory.supersedes v = p → p = EmptyString) ∧
     writeMemorySuccessors st pending !! p = memorySuccessors st !! p.
Proof.
  unfold writeMemorySuccessors. intros Hinj.
  set (write := λ (id : string) (value : Memory.Record_) (successors : gmap string string), _).
  revert Hinj. apply (map_fold_weak_ind (λ out m,
    (∀ i j v w, m !! i = Some v → m !! j = Some w →
       Memory.supersedes v ≠ EmptyString → Memory.supersedes v = Memory.supersedes w → i = j) →
    (∃ i v, m !! i = Some v ∧ Memory.supersedes v = p ∧ p ≠ EmptyString ∧ out !! p = Some i) ∨
    (∀ i v, m !! i = Some v → Memory.supersedes v = p → p = EmptyString) ∧
       out !! p = memorySuccessors st !! p)).
  { intros _. right. split; [|done]. intros i v Hl. by rewrite lookup_empty in Hl. }
  intros i v m out Hm IH Hinj. subst write. cbv beta.
  assert (Hinj' : ∀ j k w x, m !! j = Some w → m !! k = Some x →
    Memory.supersedes w ≠ EmptyString → Memory.supersedes w = Memory.supersedes x → j = k).
  { intros j k w x Hj Hk. apply Hinj; rewrite lookup_insert_ne; congruence. }
  specialize (IH Hinj'). case_bool_decide as He.
  - destruct IH as [(j & w & Hj & Hw)|[Hno Hl]].
    + left. exists j, w. rewrite lookup_insert_ne by congruence. done.
    + right. split; [|done]. intros j w [[<- <-]|[_ Hj]]%lookup_insert_Some Hs; [congruence|].
      by apply (Hno j w).
  - destruct (decide (Memory.supersedes v = p)) as [<-|Hne].
    + left. exists i, v. by rewrite !lookup_insert_eq.
    + destruct IH as [(j & w & Hj & Hw & Hp & Hl)|[Hno Hl]].
      * left. exists j, w. rewrite !lookup_insert_ne by congruence. done.
      * right. rewrite lookup_insert_ne by done. split; [|done].
        intros j w [[<- <-]|[_ Hj]]%lookup_insert_Some Hs; [done|]. by apply (Hno j w).
Qed.

Lemma Apply_memory st changes st' :
  Apply st changes = inr st' →
  memoryRecords st ⊆ memoryRecords st' ∧
  (chains_end Memory.supersedes (memoryRecords st) →
   chains_end Memory.supersedes (memoryRecords st')) ∧
  (successors_exact (memoryRecords st) (memorySuccessors st) →
   successors_exact (memoryRecords st') (memorySuccessors st')).
Proof.
  intros (taskIDs & p & Hp & _ & _ & -> & ->)%Apply_coordination.
  apply validatePlanMemoryChanges_inv in Hp as (_ & _ & _ & Hrec & Hsucc & Hcyc).
  apply collectImmutable_fresh in Hrec as [_ Hf].
  apply successorsOk_inv in Hsucc as [Hall Hinj].
  split; [by apply fresh_union|]. split.
  - apply chains_end_union; [done|done|]. intros i v Hi Hne.
    destruct (Hall i v) as ([pred Hpred] & _); [by apply elem_of_map_to_list|done|].
    unfold recordPredecessor in Hpred.
    destruct (memoryRecords st !! Memory.supersedes v); simpl in Hpred; eauto.
  - intros Hexact q id.
    destruct (writeMemorySuccessors_lookup st (pendingRecords p) q)
      as [(i & v & Hi & Hv & Hq & ->)|[Hno ->]].
    { intros i j v w Hi Hj. apply Hinj; by apply elem_of_map_to_list. }
    + assert (Hnone : memorySuccessors st !! q = None).
      { subst q. by apply (Hall i v); [apply elem_of_map_to_list|]. }
      split.
      * intros [= <-]. split; [done|]. exists v. split; [|done]. apply lookup_union_Some_raw. auto.
      * intros (_ & r & [Hr|[_ Hr]]%lookup_union_Some_raw & Hs).
        -- f_equal. apply (Hinj i v id r); try (by apply elem_of_map_to_list); congruence.
        -- assert (memorySuccessors st !! q = Some id) by (apply Hexact; eauto). congruence.
    + rewrite (Hexact q id). split; (intros [Hq (r & Hr & Hs)]; split; [done|]; exists r; split; [|done]).
      * apply lookup_union_Some_raw. right. split; [|done].
        destruct (pendingRecords p !! id) as [w|] eqn:Hw; [|done].
        rewrite (Hf id) in Hr by eauto. done.
      * apply lookup_union_Some_raw in Hr as [Hr|[_ Hr]]; [by destruct Hq; apply (Hno id r)|done].
Qed.

End Lib.
End StateProofs.
