(* ===== verification/StateTheorems.v ===== *)
(** * What holds of every committed state that events reach

    [Module StateTheorems]: the committed state as a transition system, whose
    steps reduce a signed event and apply its outcome; its invariant, and the
    guarantees that span more than one event. *)

From stdpp Require Import base gmap strings list sorting relations.
From Stdlib Require Import ZArith NArith Lia.
From S2P Require Import Prelude.
From S2P Require Import GoLib.
From S2P Require Import GoJson.
From S2P Require Import CodecLayer.
From S2P Require Import DomainValues.
From S2P Require Import TaskEntity.
From S2P Require Import LeaseEntity.
From S2P Require Import AgentSessionEntity.
From S2P Require Import VoterSetEntity.
From S2P Require Import DeviceEntity.
From S2P Require Import PlanMemoryEntity.
From S2P Require Import PolicyEntity.
From S2P Require Import PublicationEntity.
From S2P Require Import CredentialEntity.
From S2P Require Import EventModel.
From S2P Require Import EventWire.
From S2P Require Import ReducerState.
From S2P Require Import PolicyUse.
From S2P Require Import Preflight.
From S2P Require Import StateRefs.
From S2P Require Import PlanMemoryState.
From S2P Require Import ReducerLogic.
From S2P Require Import MembershipState.
From S2P Require Import RepositoryState.
From S2P Require Import StateChanges.
From S2P Require Import StateApply.
From S2P Require Import StateIndexes.
From S2P Require Import Dispatch.
From S2P Require Import Fixtures.
From S2P Require Import TaskProofs.
From S2P Require Import DispatchProofs.
From S2P Require Import LeaseProofs.
From S2P Require Import PublicationProofs.
From S2P Require Import StateProofs.

Module StateTheorems.

Import Reducer Preflight PolicyUse StateRefs Logic PlanMemoryState MembershipState
  RepositoryState StateChanges StateApply StateIndexes StateProofs.StateProofs.
Import AdmissionProofs LeaseProofs.LeaseProofs PublicationProofs.PublicationProofs
  DispatchProofs.DispatchProofs Dispatch.Dispatch.

Section Lib.
Context `{NormLib, JCSLib, CryptoLib}.

(** ** The transition system *)

(** One event: its reduction by an entry point, and its outcome applied. *)
Inductive step (st st' : State) : Prop :=
  | step_reduce signed applied o :
      reduce st signed applied = inr o → Apply st (OChanges o) = inr st' → step st st'
  | step_attested signed o :
      ReduceAttestedRejectedCheckpoint st signed = inr o → Apply st (OChanges o) = inr st' →
      step st st'.

Definition reaches : State → State → Prop := rtc step.

Lemma step_Apply st st' : step st st' → ∃ changes, Apply st changes = inr st'.
Proof. intros [? ? ? _ Ha|? ? _ Ha]; eauto. Qed.

(** What every application keeps, every reachable state has. *)
Lemma reaches_keeps (P : State → Prop) st st' :
  (∀ a b changes, Apply a changes = inr b → P a → P b) → P st → reaches st st' → P st'.
Proof.
  intros Hstep Hp Hr. induction Hr as [|a b c Hab _ IH]; [done|].
  destruct (step_Apply _ _ Hab) as [changes Ha]. eauto.
Qed.

(** ** The invariant *)

Record sound (st : State) : Prop := {
  sound_indexes : (currentChainIndex st ≤ currentResultIndex st ≤ Domain.MaxSafeInteger)%N;
  sound_scopes : scopes_valid st ∧ scopes_bound st;
  sound_tasks : table Task.ID Task.Validate (tasks st);
  sound_claims : claims_indexed st;
  sound_leases : table Lease.ID Lease.Validate (leases st);
  sound_lease_indexes : leases_indexed st;
  sound_exclusive : leases_exclusive st;
  sound_sessions : table AgentSession.ID AgentSession.Validate (agentSessions st);
  sound_count : sessions_counted st;
  sound_owners : owners_open st;
  sound_holders : holders_open st;
  sound_plans : chains_end Plan.supersedes (planRevisions st);
  sound_memory : chains_end Memory.supersedes (memoryRecords st);
  sound_successors : successors_exact (memoryRecords st) (memorySuccessors st);
  sound_policy : Policy.Validate (sessionPolicy st) = None;
  sound_limits : within_policy st;
  sound_topology : topology st = true }.

Lemma Apply_indexes st changes st' :
  Apply st changes = inr st' →
  (currentChainIndex st ≤ currentResultIndex st ≤ Domain.MaxSafeInteger)%N →
  currentResultIndex st' = (currentResultIndex st + 1)%N ∧
  currentChainIndex st' =
    (currentChainIndex st + if AdvancesEventChain changes then 1 else 0)%N ∧
  (currentChainIndex st' ≤ currentResultIndex st' ≤ Domain.MaxSafeInteger)%N.
Proof.
  intros (p & Hck & ->)%Apply_inv Hb. pose proof (ck_indexes _ _ _ Hck) as Hi.
  unfold indexesOk in Hi. apply andb_true_iff in Hi as [Hr%negb_true_iff%N.eqb_neq _]. simpl.
  assert (Hsucc : ∀ n, (n < Domain.MaxSafeInteger)%N → u64_succ n = (n + 1)%N).
  { intros n Hn. apply u64_succ_small. unfold Domain.MaxSafeInteger, u64_modulus in *. lia. }
  rewrite (Hsucc (currentResultIndex st)) by lia.
  destruct (AdvancesEventChain changes); rewrite ?Hsucc by lia; lia.
Qed.

Lemma Apply_policy st changes st' :
  Apply st changes = inr st' → Policy.Validate (sessionPolicy st) = None →
  Policy.Validate (sessionPolicy st') = None.
Proof.
  intros (p & Hck & ->)%Apply_inv Hv. simpl. pose proof (ck_policy _ _ _ Hck) as Hp.
  unfold validatePolicyChanges in Hp.
  destruct (SessionPolicy changes) as [|next [|]]; [by injection Hp as <-| |done].
  destruct (_ || _) eqn:Hc; [done|]. injection Hp as <-. simpl.
  apply orb_false_iff in Hc as [_ Ht%fails_None]. unfold Policy.ValidateTransition in Ht.
  chain_inv Ht. by destruct (Policy.Validate next).
Qed.

Lemma Apply_sound st changes st' : Apply st changes = inr st' → sound st → sound st'.
Proof.
  intros Ha [Hidx [Hsv Hsb] Ht Hc Hl Hli Hex Hse Hco Hown Hhold Hpl Hme Hsu Hpo Hlim Hto].
  split.
  - by apply (Apply_indexes _ _ _ Ha).
  - split; [by eapply Apply_scopes_valid|by eapply Apply_scopes_bound].
  - destruct (Apply_tasks _ _ _ Ha) as [-> Hv]. by apply table_by_id.
  - eapply Apply_claims_indexed; [done| |done]. apply Ht.
  - destruct (Apply_leases _ _ _ Ha) as (-> & Hv & _). by apply table_by_id.
  - eapply Apply_leases_indexed; [done| |done]. apply Hl.
  - by eapply Apply_exclusive.
  - destruct (Apply_sessions _ _ _ Ha) as (-> & scopes & Hv). apply table_by_id; [|done].
    eapply Forall_impl; [exact Hv|]. by intros v [? _].
  - by eapply Apply_sessions_counted.
  - by eapply Apply_owners_open.
  - by eapply Apply_holders_open.
  - by apply (Apply_plans _ _ _ Ha).
  - by apply (Apply_memory _ _ _ Ha).
  - by apply (Apply_memory _ _ _ Ha).
  - by eapply Apply_policy.
  - by eapply Apply_within_policy.
  - by eapply Apply_topology.
Qed.

Lemma reaches_sound st st' : sound st → reaches st st' → sound st'.
Proof. intros Hs. apply (reaches_keeps sound); [|done]. intros a b changes. apply Apply_sound. Qed.

(** Every committed state that events reach from a sound one is sound: rows
    are valid and under their own ids; the claim indexes, the lease indexes,
    the active session count and the memory successors describe the tables
    exactly; origin scopes are well formed and bind an agent session to one
    device; active leases reserve disjoint resources; every claimed task and
    every active lease belongs to a session that is open on the owner's device;
    supersession chains of plans and memory end; the rows are within the
    committed policy; and the membership topology holds. *)
Theorem reachable_sound st st' : sound st → reaches st st' → sound st'.
Proof. apply reaches_sound. Qed.

(** ** Replay *)

Lemma prepared_consumes st signed context : prepareReduction st signed = Val context → consumes st context.
Proof.
  intros [_ Hb]%prepareReduction_begin.
  by apply beginReduction_Val in Hb as (? & ? & ? & _ & _ & _ & _ & _ & _ & _ & _ & _ & Hcon & _).
Qed.

(** Every outcome of an admitted event consumes its scope. *)
Lemma outcome_consumes st signed applied context o :
  prepareReduction st signed = Val context → reduce st signed applied = inr o →
  OriginScopes (OChanges o) = [scope context].
Proof.
  intros Hp Ho. destruct (reduce_outcomes st signed applied o Ho)
    as [(c & Hc & _ & _ & Hs & _)|[(c & code & alarm & Hc & ->)|[Hd _]]]; [| |congruence];
    rewrite Hp in Hc; by injection Hc as <-.
Qed.

Lemma reaches_consumed st st' scope :
  sound st → reaches st st' → consumed_by st scope → consumed_by st' scope.
Proof.
  intros Hs Hr Hc.
  assert (sound st' ∧ consumed_by st' scope) as [_ ?]; [|done].
  revert Hr. apply (reaches_keeps (λ s, sound s ∧ consumed_by s scope)); [|done].
  intros a b changes Ha [Hsa Hca]. split; [by eapply Apply_sound|].
  eapply Apply_consumed; [done| |done]. apply Hsa.
Qed.

(** C9: No event is admitted twice: once the outcome of an admitted event is
    applied, whether it accepts or rejects, the same signed event is never
    handed to a handler again in any state that later events reach. *)
Theorem no_replay st signed applied context o st1 st2 :
  sound st → prepareReduction st signed = Val context → reduce st signed applied = inr o →
  Apply st (OChanges o) = inr st1 → reaches st1 st2 →
  ∀ context', prepareReduction st2 signed ≠ Val context'.
Proof.
  intros Hs Hp Ho Ha Hr.
  assert (Hc : consumed_by st2 (scope context)).
  { eapply reaches_consumed; [by eapply Apply_sound|done|].
    eapply Apply_consumes; [done|]. by eapply outcome_consumes. }
  destruct Hc as (last & Hlast & Hle). by apply (sequence_not_admitted st signed context st2 last).
Qed.

(** ** Refusals can be recorded *)

(** The state with origin scopes recorded and the result index advanced. *)
Definition recorded (st : State) (scopes : list OriginScope) : State :=
  mkState (sessionID st) (workspaceID st) (recoveryGeneration st) (recoveryPublicKey st)
    (currentChainIndex st) (currentResultIndex st + 1) (writeScopes st scopes)
    (writeAgentScopes st scopes) (auditCounters st) (devices st) (voterSet st)
    (credentialAuthority st) (credentialAuthorizations st) (credentialKeys st) (agentSessions st)
    (tasks st) (planRevisions st) (planCurrent st) (memoryRecords st) (memorySuccessors st)
    (leases st) (sessionPolicy st) (canonicalRef st) (publications st) (controlFileProposals st)
    (mergeConflicts st) (claimsByAgent st) (claimsByDevice st) (activeLeasesByAgent st)
    (activeLeasesByDevice st) (activeLeaseIDs st) (activeAgentSessionCount st)
    (unresolvedConflictsByTask st).

Definition scopes_only (scopes : list OriginScope) : Changes :=
  mkChanges false scopes [] [] [] [] [] [] [] [] [] [] [] [] [] [] [] [].

Lemma refused_changes st signed applied o :
  reduce st signed applied = inr o → Accepted o = false →
  OChanges o = scopes_only [] ∨
  ∃ context, OChanges o = scopes_only [scope context] ∧ consumes st context.
Proof.
  intros Ho Ha. destruct (reduce_outcomes st signed applied o Ho)
    as [(c & _ & Hacc & _)|[(c & code & alarm & Hc & ->)|[Hd _]]]; [congruence| |].
  - right. exists c. split; [done|]. by eapply prepared_consumes.
  - unfold prepareReduction, invalidState in Hd.
    destruct (_ || _); [done|]. destruct (_ =? _)%N; [done|].
    destruct (PreflightCompatibility _ _); [done|].
    apply beginReduction_refuses in Hd as (code & [->|(context & -> & Hcon)]); [by left|].
    right. by exists context.
Qed.

(** A sound state is within its limits by its own counters and indexes. *)
Lemma sound_session_room st :
  sound st →
  (activeAgentSessionCount st ≤
   Policy.MaxActiveAgentSessions_ (Policy.PolicyValues (sessionPolicy st)))%Z.
Proof.
  intros Hs. rewrite (sound_count _ Hs). apply Z.ltb_ge. apply not_true_iff_false. intros Hlt.
  pose proof (sound_limits _ Hs) as Hw. unfold within_policy, policyUseViolation, rows in Hw.
  cbn [pendingSessions nothing_pending] in Hw. rewrite map_empty_union in Hw.
  rewrite Hlt, orb_true_r in Hw. done.
Qed.

Lemma sound_claim_room st :
  sound st → claimsWithinPolicy st [] (Policy.PolicyValues (sessionPolicy st)) = true.
Proof.
  intros Hs. pose proof (Policy.policy_valid_inv _ (sound_policy _ Hs)) as [Hval _].
  apply Policy.Values_Validate_limits in Hval as (Hac & _ & _).
  destruct (sound_claims _ Hs) as [Ha Hd].
  pose proof (sound_limits _ Hs) as Hw. unfold within_policy, policyUseViolation, rows in Hw.
  cbn [pendingTasks nothing_pending] in Hw. rewrite !map_empty_union in Hw.
  destruct (_ || _) eqn:Hno in Hw; [done|]. repeat (apply orb_false_iff in Hno as [Hno ?]).
  unfold claimsWithinPolicy, claimCounts. apply andb_true_iff.
  split; apply negb_true_iff; cbn [foldl].
  - apply (indexes_above claimed Task.OwnerAgentSessionID (tasks st)); [lia|done..].
  - apply (indexes_above claimed Task.OwnerDeviceID (tasks st)); [lia|done..].
Qed.

Lemma no_membership_change st scopes :
  topology st = true →
  validateMembershipChanges st (scopes_only scopes) =
  Some (mkPendingMembership ∅ ∅ None None None).
Proof.
  unfold topology. intros Ht.
  change (validateMembershipChanges st (scopes_only scopes)) with
    (if validateMembershipTopology st (∅ ∪ devices st) (∅ ∪ auditCounters st) (voterSet st)
          (credentialAuthority st)
     then Some (mkPendingMembership ∅ ∅ None None None) else None).
  by rewrite !map_empty_union, Ht.
Qed.

(** The checks of a change set without rows, in a sound state. *)
Lemma scopes_only_applies st scopes :
  sound st → (currentResultIndex st < Domain.MaxSafeInteger)%N →
  (∃ pending, collectScopes st scopes ∅ ∅ = Some pending) →
  forallb (orphanScopeOk st ∅) scopes = true →
  Apply st (scopes_only scopes) = inr (recorded st scopes).
Proof.
  intros Hs Hmax [pending Hscopes] Horphan. unfold Apply, validateChanges.
  assert (indexesOk st (scopes_only scopes) = true) as ->.
  { unfold indexesOk, scopes_only. simpl. rewrite andb_true_r. apply negb_true_iff, N.eqb_neq. lia. }
  cbn [negb OriginScopes scopes_only]. rewrite Hscopes. cbn [mbind option_bind].
  rewrite no_membership_change by apply (sound_topology _ Hs). cbn [mbind option_bind].
  assert (validateRepositoryChanges st (scopes_only scopes) =
          Some (mkPendingRepository None ∅ ∅ EmptyString 0)) as -> by reflexivity.
  cbn [validateCredentialChanges validatePolicyChanges validateControlFileChanges
    CredentialAuthorizations SessionPolicy ControlFileProposals AgentSessions Tasks Leases
    scopes_only pmAuditCounters pmDevices].
  rewrite map_to_list_empty. cbn [forallb mbind option_bind].
  change (default (sessionPolicy st) None) with (sessionPolicy st).
  assert (validateAgentSessionChanges st [] pending
            (Policy.PolicyValues (sessionPolicy st)) = Some ∅) as ->.
  { unfold validateAgentSessionChanges. simpl. pose proof (sound_session_room _ Hs).
    by rewrite (proj2 (Z.ltb_ge _ _)). }
  cbn [mbind option_bind]. rewrite Horphan. cbn [negb].
  assert (validateTaskChanges st [] = Some ∅) as -> by reflexivity.
  cbn [mbind option_bind].
  assert (validatePlanMemoryChanges st (scopes_only scopes) (dom (∅ : gmap string Task.Task)) =
          Some (mkPendingPlanMemory ∅ None ∅)) as -> by reflexivity.
  cbn [mbind option_bind]. rewrite sound_claim_room by done.
  pose proof (sound_limits _ Hs) as Hw. unfold within_policy, nothing_pending in Hw.
  change (leasesByID []) with (∅ : gmap string Lease.Lease). rewrite Hw. cbn -[written recorded].
  assert (validateProspectiveOwnership st ∅ ∅ ∅ && validateSessionEndCascades st ∅ ∅ ∅ = true)
    as -> by reflexivity.
  cbn [andb]. rewrite bool_decide_true by done. f_equal.
  unfold recorded, written. cbn -[u64_succ]. rewrite !map_empty_union.
  rewrite u64_succ_small by (unfold Domain.MaxSafeInteger, u64_modulus in *; lia). done.
Qed.

(** ** The scope of a consumed sequence *)

Lemma envelope_origin p :
  Event.ValidateEnvelope p = None → Event.Origin_validate (Event.POrigin p) = None.
Proof. unfold Event.ValidateEnvelope. intros Hv. by chain_inv Hv. Qed.

Lemma origin_scope_valid origin :
  Event.Origin_validate origin = None →
  validateOriginScope (scope_key origin) (mkOriginScope (scope_key origin) (Event.sequence origin)) =
  true.
Proof.
  unfold Event.Origin_validate. intros Hv. chain_inv Hv.
  apply orb_false_iff in Hc as [Hc Hmax%negb_false_iff].
  apply orb_false_iff in Hc as [Hc Hmin]. apply orb_false_iff in Hc as [Hd%negb_false_iff _].
  assert (Domain.UUIDv7_Valid (KScopeID (scope_key origin)) = true ∧
          KDeviceID (scope_key origin) = Event.deviceID origin ∧
          (KKind (scope_key origin) = ScopeAgent ∨ KKind (scope_key origin) = ScopeBoot))
    as (Hid & Hdev & Hkind).
  { unfold Event.validActorBlock, scope_key in *.
    destruct (Event.actorType origin) eqn:Ha; try done; chain_inv Hv;
      simpl; bools; naive_solver. }
  unfold validateOriginScope. rewrite Hdev, Hd, Hid. cbn [ScopeKey LastSequence].
  rewrite bool_decide_true by done. rewrite Hmax, (proj2 (N.leb_le _ _)) by (apply N.ltb_ge in Hmin; lia).
  destruct Hkind as [-> | ->]; by rewrite ?bool_decide_true, ?orb_true_r by done.
Qed.

(** An agent's scope: its session's own, or that of the start of a session
    whose id is new. *)
Lemma consumes_agent st context :
  consumes st context → KKind (ScopeKey (scope context)) = ScopeAgent →
  let id := KScopeID (ScopeKey (scope context)) in
  (agentSessions st !! id = None ∧ agentScopeDevices st !! id = None) ∨
  (is_Some (agentSessions st !! id) ∧ is_Some (originScopes st !! ScopeKey (scope context))).
Proof.
  intros Hcon. destruct (consumes_scope _ _ Hcon) as (_ & -> & _).
  pose proof (con_binding _ _ Hcon) as Hb. pose proof (con_sequence _ _ Hcon) as Hs. simpl.
  intros Hkind. unfold validateOriginBinding in Hb.
  assert (Ha : Event.actorType (Event.POrigin (proposal context)) = Event.ActorAgent).
  { unfold scope_key in Hkind. by case_bool_decide. }
  assert (Hk : KScopeID (scope_key (Event.POrigin (proposal context))) =
               Event.agentSessionID (Event.POrigin (proposal context))).
  { unfold scope_key. by rewrite bool_decide_true. }
  rewrite Hk. rewrite (bool_decide_true (_ = Event.ActorAgent)) in Hb by done. simpl in Hb.
  case_bool_decide as Hstart.
  - left. val_inv Hb. apply bool_decide_eq_false in Hc, Hc0.
    by rewrite <-!eq_None_not_Some in *.
  - right. val_inv Hb. split; [by eauto|].
    unfold consumeSequence in Hs. destruct (originScopes st !! _) eqn:Hscope; [by eauto|].
    rewrite Hkind, bool_decide_true in Hs by done. rewrite bool_decide_false in Hs by done. done.
Qed.

(** The scope of a consumed sequence passes every check of a sound state. *)
Lemma consumes_recordable st context :
  sound st → consumes st context →
  (∃ pending, collectScopes st [scope context] ∅ ∅ = Some pending) ∧
  forallb (orphanScopeOk st ∅) [scope context] = true.
Proof.
  intros Hs Hcon. pose proof (consumes_scope _ _ Hcon) as (_ & Hscope & Hseq).
  pose proof (con_sequence _ _ Hcon) as (_ & _ & Hroom)%consumeSequence_Val.
  pose proof (origin_scope_valid _ (envelope_origin _ (con_envelope _ _ Hcon))) as Hvalid.
  pose proof (consumes_agent _ _ Hcon) as Hagent. cbv zeta in Hagent.
  set (s := scope context) in *.
  assert (Hkey : ScopeKey s = scope_key (Event.POrigin (proposal context))) by by rewrite Hscope.
  assert (Hmember : validMember st (KDeviceID (ScopeKey s)) = true).
  { assert (KDeviceID (ScopeKey s) = Device.ID (device context)) as ->.
    { rewrite Hkey, <-(con_origin _ _ Hcon). unfold scope_key. by case_bool_decide. }
    unfold validMember. rewrite (con_member _ _ Hcon), (con_valid _ _ Hcon).
    by rewrite bool_decide_true. }
  assert (Hadv : scopeAdvance st s = true).
  { unfold scopeAdvance. unfold next_sequence in Hseq. rewrite <-Hkey in Hroom.
    destruct (originScopes st !! ScopeKey s) as [last|]; [|by apply N.eqb_eq].
    specialize (Hroom last eq_refl). unfold nextVersion. apply andb_true_iff. split.
    - apply negb_true_iff, N.eqb_neq. lia.
    - apply N.eqb_eq. rewrite u64_succ_small; [done|].
      unfold Domain.MaxSafeInteger, u64_modulus in *. lia. }
  rewrite <-Hscope, <-Hkey in Hvalid. split.
  - cbn [collectScopes]. rewrite Hvalid, Hmember, Hadv, lookup_empty. cbn [negb orb present].
    case_bool_decide as Hk; [|by eauto].
    assert (agentScopeOk st ∅ s = true) as ->; [|by eauto].
    unfold agentScopeOk. rewrite lookup_empty, andb_true_r.
    destruct (Hagent Hk) as [[Hno Hfree]|[_ Hsome]].
    + by rewrite Hno, Hfree, orb_true_r.
    + rewrite (proj2 (sound_scopes _ Hs) _ Hk Hsome).
      apply present_Some in Hsome. rewrite Hsome. by rewrite bool_decide_true.
  - cbn [forallb]. rewrite andb_true_r. unfold orphanScopeOk.
    destruct (decide (KKind (ScopeKey s) = ScopeAgent)) as [Hk|Hk];
      [|by rewrite (bool_decide_false (KKind _ = _))].
    destruct (Hagent Hk) as [[_ Hfree]|[Hsession _]].
    + assert (originScopes st !! ScopeKey s = None) as Hnone.
      { apply eq_None_not_Some. intros Hsome.
        by rewrite (proj2 (sound_scopes _ Hs) _ Hk Hsome) in Hfree. }
      unfold next_sequence in Hseq. rewrite Hnone in Hseq. by rewrite Hseq, orb_true_r.
    + apply present_Some in Hsession. by rewrite Hsession, orb_true_r.
Qed.

(** C10: A refusal is always recordable: in a sound state whose result index is
    not exhausted, the outcome of every event that is not accepted applies, and
    the state it gives has the origin's sequence recorded, the result index
    advanced by one, and everything else as it was. *)
Theorem refusal_recorded st signed applied o :
  sound st → (currentResultIndex st < Domain.MaxSafeInteger)%N →
  reduce st signed applied = inr o → Accepted o = false →
  Apply st (OChanges o) = inr (recorded st (OriginScopes (OChanges o))).
Proof.
  intros Hs Hmax Ho Ha.
  destruct (refused_changes _ _ _ _ Ho Ha) as [->|(context & -> & Hcon)].
  - apply scopes_only_applies; [done|done| |done]. by exists ∅.
  - destruct (consumes_recordable _ _ Hs Hcon). by apply scopes_only_applies.
Qed.

(** ** The canonical branch *)

(** The abstract branch: a commit and a version, that publications advance. *)
Fixpoint branch (from : string * N) (ps : list Publication.Publication) (to : string * N) : Prop :=
  match ps with
  | [] => from = to
  | p :: rest =>
      Publication.BaseCommit (Publication.Meta p) = from.1 ∧
      branch (Publication.CommitOID (Publication.Meta p), (from.2 + 1)%N) rest to
  end.

Definition head (st : State) : string * N :=
  (Publication.RefCommitOID (canonicalRef st), Publication.RefEntityVersion (canonicalRef st)).

Lemma branch_snoc from ps mid p :
  branch from ps mid → Publication.BaseCommit (Publication.Meta p) = mid.1 →
  branch from (ps ++ [p]) (Publication.CommitOID (Publication.Meta p), (mid.2 + 1)%N).
Proof.
  revert from. induction ps as [|q ps IH]; intros from; simpl; [by intros ->|].
  intros [? Hb] Hp. auto.
Qed.

(** A publication that is in the state as applied. *)
Definition is_applied (st : State) (p : Publication.Publication) : Prop :=
  publications st !! publicationID p = Some p ∧ Publication.PState p = Publication.StateApplied.

Lemma Apply_is_applied st changes st' p :
  Apply st changes = inr st' → is_applied st p → is_applied st' p.
Proof.
  intros Ha [Hp Hs]. split; [|done].
  destruct (Apply_publication _ _ _ _ _ Ha Hp) as (p' & Hp' & _ & [->|Ht]); [done|].
  rewrite Hs in Ht. done.
Qed.

(** C8: The canonical ref has a linear history: whatever events lead from one
    state to another, the canonical commit of the later one is reached from the
    earlier one's by applying a list of publications, each based on the commit
    the one before it published, with one version per publication; each of them
    is recorded as applied for good, none twice, and none was applied before. *)
Theorem linear_history st st' :
  reaches st st' → ∃ ps, branch (head st) ps (head st') ∧
  NoDup (publicationID <$> ps) ∧ Forall (is_applied st') ps ∧
  Forall (λ p, ¬ ∃ q, is_applied st q ∧ publicationID q = publicationID p) ps.
Proof.
  revert st'. unfold reaches. apply rtc_ind_r.
  { exists []. split_and!; [done|constructor..]. }
  intros st' st'' Hr Hstep IH.
  destruct IH as (ps & Hb & Hnd & Happ & Hnew). destruct (step_Apply _ _ Hstep) as [changes Ha].
  assert (Happ' : Forall (is_applied st'') ps).
  { eapply Forall_impl; [exact Happ|]. intros p. by apply (Apply_is_applied _ _ _ _ Ha). }
  destruct (Apply_canonicalRef _ _ _ Ha)
    as [Heq|(p & current & Hp & Hcur & Happroved & Happlied & Hbase & Hcommit & _ & Hver)].
  { exists ps. unfold head in *. by rewrite Heq. }
  assert (Hfresh : ∀ q, is_applied st' q → publicationID q ≠ publicationID p).
  { intros q [Hq Hqs] Hid. rewrite Hid, Hcur in Hq. simplify_eq. congruence. }
  exists (ps ++ [p]). split_and!.
  - unfold head. rewrite Hver, <-Hcommit. by apply (branch_snoc _ _ (head st')).
  - rewrite fmap_app. apply NoDup_app. split_and!; [done| |apply NoDup_singleton].
    intros x (q & -> & Hq)%list_elem_of_fmap [= Hx]%list_elem_of_singleton.
    rewrite Forall_forall in Happ. by apply (Hfresh q); [apply Happ|].
  - apply Forall_app. split; [done|]. by apply Forall_singleton.
  - apply Forall_app. split; [done|]. apply Forall_singleton. intros (q & Hq & Hid).
    apply (Hfresh q); [|done]. revert Hr. apply (reaches_keeps (λ s, is_applied s q)); [|done].
    intros a b ch Hab. by apply (Apply_is_applied _ _ _ _ Hab).
Qed.

(** ** Plans and memory *)

Lemma chains_end_acyclic {A} (supersedes : A → string) rows id :
  chains_end supersedes rows → ¬ tc (supersession supersedes rows) id id.
Proof. intros [_ Hends]. by apply ends_acyclic. Qed.

(** C15: The plan and the memory only grow, and stay histories: no event changes
    or removes a plan revision or a memory record; no chain of supersessions
    closes a cycle; and no two memory records supersede the same one. *)
Theorem coordination_history st st' :
  sound st → reaches st st' →
  planRevisions st ⊆ planRevisions st' ∧ memoryRecords st ⊆ memoryRecords st' ∧
  (∀ id, ¬ tc (supersession Plan.supersedes (planRevisions st')) id id) ∧
  (∀ id, ¬ tc (supersession Memory.supersedes (memoryRecords st')) id id) ∧
  ∀ id id' r r', memoryRecords st' !! id = Some r → memoryRecords st' !! id' = Some r' →
    Memory.supersedes r = Memory.supersedes r' → Memory.supersedes r ≠ EmptyString → id = id'.
Proof.
  intros Hs Hr. pose proof (reaches_sound _ _ Hs Hr) as Hs'. split_and!.
  - apply (reaches_keeps (λ s, planRevisions st ⊆ planRevisions s)) with (st := st); [|done|done].
    intros a b ch Ha Hsub. etrans; [exact Hsub|]. by apply (Apply_plans _ _ _ Ha).
  - apply (reaches_keeps (λ s, memoryRecords st ⊆ memoryRecords s)) with (st := st); [|done|done].
    intros a b ch Ha Hsub. etrans; [exact Hsub|]. by apply (Apply_memory _ _ _ Ha).
  - intros id. by apply chains_end_acyclic, sound_plans.
  - intros id. by apply chains_end_acyclic, sound_memory.
  - intros id id' r r' Hid Hid' Heq Hne.
    pose proof (sound_successors _ Hs' (Memory.supersedes r)) as Hex.
    assert (memorySuccessors st' !! Memory.supersedes r = Some id) by (apply Hex; eauto).
    assert (memorySuccessors st' !! Memory.supersedes r = Some id') by (apply Hex; eauto).
    congruence.
Qed.

(** ** Limits *)

Lemma existsb_Forall {A} (test : A → bool) l :
  existsb test l = false → Forall (λ x, test x = false) l.
Proof.
  intros He. apply Forall_forall. intros x Hx. apply not_true_iff_false. intros Ht.
  apply not_true_iff_false in He. apply He, existsb_exists. exists x.
  split; [by apply list_elem_of_In|done].
Qed.

(** C11: No sequence of events takes the replicated rows above the committed
    policy: active members, open sessions, the claims and active leases of
    every session and device, and the audit entries per credential epoch are
    within the limits of the policy in force, and every active member supports
    the cluster's apply level. *)
Theorem limits_hold st st' :
  sound st → reaches st st' →
  let values := Policy.PolicyValues (sessionPolicy st') in
  let members := (map_to_list (devices st')).*2 in
  let sessions := (map_to_list (agentSessions st')).*2 in
  let taskRows := (map_to_list (tasks st')).*2 in
  let leaseRows := (map_to_list (leases st')).*2 in
  (count activeMember members ≤ Policy.MaxMemberDevices_ values)%Z ∧
  (count openSession sessions ≤ Policy.MaxActiveAgentSessions_ values)%Z ∧
  (∀ id, count (λ t, claimed t && (Task.OwnerAgentSessionID t == id)) taskRows ≤
         Policy.AgentClaimLimit values)%Z ∧
  (∀ id, count (λ t, claimed t && (Task.OwnerDeviceID t == id)) taskRows ≤
         Policy.DeviceClaimLimit values)%Z ∧
  (∀ id, count (λ l, leased l && (Lease.HolderAgentSessionID l == id)) leaseRows ≤
         Policy.AgentLeaseLimit values)%Z ∧
  (∀ id, count (λ l, leased l && (Lease.HolderDeviceID l == id)) leaseRows ≤
         Policy.DeviceLeaseLimit values)%Z ∧
  Forall (λ counter, (AuditCounter.AcceptedCount counter <=
                      u64_of_int64 (Policy.AuditDepthPerDevicePerEpoch values))%N)
    (map_to_list (auditCounters st')).*2 ∧
  Forall (λ member, unsupported values member = false) members.
Proof.
  intros Hs Hr. pose proof (reaches_sound _ _ Hs Hr) as Hs'. cbv zeta.
  pose proof (Policy.policy_valid_inv _ (sound_policy _ Hs')) as [Hval _].
  apply Policy.Values_Validate_limits in Hval as (Hac & _ & Hal & _).
  pose proof (sound_limits _ Hs') as Hw. unfold within_policy, policyUseViolation, rows in Hw.
  cbn [nothing_pending pendingDevices pendingAuditCounters pendingSessions pendingTasks
    pendingLeases] in Hw. rewrite !map_empty_union in Hw.
  destruct (_ || _) eqn:Hno in Hw; [done|]. destruct (existsb (unsupported _) _) eqn:Hun; [done|].
  repeat match type of Hno with (_ || _) = false => apply orb_false_iff in Hno as [Hno ?] end.
  repeat match goal with
  | Hx : anyCountAbove _ _ = false |- _ => rewrite anyCountAbove_false in Hx by lia
  end. rewrite Z.ltb_ge in *. split_and!; try done.
  - match goal with Hx : existsb (λ counter, _) _ = false |- _ =>
      eapply Forall_impl; [exact (existsb_Forall _ _ Hx)|] end.
    intros c Hc. by apply N.ltb_ge.
  - by apply existsb_Forall.
Qed.

(** ** Members *)

(** C12: The session never loses its owner or its credential authority: in every
    state an event leads to, some active member is an owner, every voter of the
    target is an active member, and more than half of the authority's voters
    are active members, whatever the state before. *)
Theorem membership_survives st changes st' :
  Apply st changes = inr st' →
  (∃ id member, devices st' !! id = Some member ∧ Device.ID member = id ∧
     Device.Validate member = None ∧ Device.DeviceStatus member = Device.StatusActive ∧
     Device.DeviceRole member = Device.RoleOwner) ∧
  Forall (λ id, ∃ member, devices st' !! id = Some member ∧
     Device.DeviceStatus member = Device.StatusActive) (VoterSet.voterDeviceIDs (voterSet st')) ∧
  (length (CredentialAuthority.VoterDeviceIDs (credentialAuthority st')) <
   2 * length (filter (λ id, activeIn (devices st') id = true)
         (CredentialAuthority.VoterDeviceIDs (credentialAuthority st'))))%nat ∧
  map_Forall (λ id _, is_Some (auditCounters st' !! id)) (devices st').
Proof.
  intros Ht%Apply_topology. unfold topology, validateMembershipTopology in Ht.
  rewrite !andb_true_iff in Ht. destruct Ht as [[[[[[[Htail Hrows] _] _] Howner] Hvoters] _] Hmaj].
  clear Htail. rewrite forallb_forall in Hrows.
  assert (Hrow : ∀ id m, devices st' !! id = Some m → memberRowOk (auditCounters st') (id, m) = true).
  { intros id m Hm. by apply Hrows, list_elem_of_In, elem_of_map_to_list. }
  split_and!.
  - apply existsb_exists in Howner as ([id m] & Hin%list_elem_of_In%elem_of_map_to_list & Ho).
    unfold MembershipReducers.MembershipReducers.activeOwner in Ho.
    apply andb_true_iff in Ho as [Hact%bool_decide_eq_true Hrole%bool_decide_eq_true].
    specialize (Hrow id m Hin). unfold memberRowOk in Hrow. rewrite !andb_true_iff in Hrow.
    destruct Hrow as [[Hid%bool_decide_eq_true Hval%negb_true_iff%fails_None] _].
    by exists id, m.
  - apply Forall_forall. intros id Hin. rewrite forallb_forall in Hvoters.
    apply list_elem_of_In in Hin. specialize (Hvoters id Hin). unfold activeIn in Hvoters.
    destruct (devices st' !! id) as [m|]; [|done]. apply bool_decide_eq_true in Hvoters. eauto.
  - apply majority_half. by apply Nat.leb_le.
  - intros id m Hm. specialize (Hrow id m Hm). unfold memberRowOk in Hrow.
    apply andb_true_iff in Hrow as [_ Hc]. destruct (auditCounters st' !! id); [eauto|done].
Qed.

(** ** The indexes *)

(** The indexes count events exactly: after [n] events the result index has
    grown by [n] and the chain index by at most [n]; the chain index never
    passes the result index, and neither leaves the safe range. *)
Theorem indexes_count n st st' :
  sound st → nsteps step n st st' →
  currentResultIndex st' = (currentResultIndex st + N.of_nat n)%N ∧
  (currentChainIndex st ≤ currentChainIndex st' ≤ currentChainIndex st + N.of_nat n)%N ∧
  (currentChainIndex st' ≤ currentResultIndex st' ≤ Domain.MaxSafeInteger)%N.
Proof.
  intros Hs Hn. induction Hn as [st|n st1 st2 st3 Hstep _ IH].
  { pose proof (sound_indexes _ Hs). split_and!; lia. }
  destruct (step_Apply _ _ Hstep) as [changes Ha].
  destruct (IH (Apply_sound _ _ _ Ha Hs)) as (Hr & Hc & Hb).
  destruct (Apply_indexes _ _ _ Ha (sound_indexes _ Hs)) as (Hr' & Hc' & _).
  rewrite Hr', Hc' in *. destruct (AdvancesEventChain changes); split_and!; lia.
Qed.

End Lib.

(** ** Witnesses *)

Section Witnesses.
Import Fixtures.
#[local] Existing Instances norm crypto jcs.

Definition counter : AuditCounter.Counter := AuditCounter.mkCounter device_id 0 0.

(** One member, one session, one ready task that nobody holds. *)
Definition ready : State :=
  with_members [member] sole_target sole_authority [counter]
    (state_with [free_task task_id [] Task.StateReady] [] [] []).

Lemma no_ids_lists {V} (counted : V → bool) (rows : gmap string V) :
  map_Forall (λ _ v, counted v = false) rows → lists counted rows [].
Proof.
  intros Hno. split; [constructor|]. intros i. split; [by intros []%not_elem_of_nil|].
  intros (v & Hv & Hc). apply Hno in Hv. congruence.
Qed.

Lemma no_ids_indexes {V} (counted : V → bool) key (rows : gmap string V) k :
  map_Forall (λ _ v, counted v = false) rows → indexes counted key rows {[k := []]}.
Proof.
  intros Hno k'. unfold ids_at.
  assert (default [] (({[k := []]} : gmap string (list string)) !! k') = []) as ->.
  { destruct (decide (k = k')) as [<-|Hne]; [by rewrite lookup_singleton_eq|].
    by rewrite lookup_singleton_ne. }
  apply no_ids_lists. intros i v Hv. by rewrite (Hno i v Hv).
Qed.

Lemma no_chains {A} (supersedes : A → string) : chains_end supersedes (∅ : gmap string A).
Proof.
  split; [by intros ? ? ?%lookup_empty_Some|]. intros x. apply stuck_ends.
  intros b (_ & _ & r & Hr & _). by rewrite lookup_empty in Hr.
Qed.

Lemma no_rows {V} (P : string → V → Prop) : map_Forall P (∅ : gmap string V).
Proof. apply map_Forall_empty. Qed.

Lemma ready_sound : sound ready.
Proof.
  assert (Hfree : map_Forall (λ _ t, claimed t = false) (tasks ready))
    by (apply (bool_decide_unpack _); by vm_compute).
  split.
  - by vm_compute.
  - split; [apply (bool_decide_unpack _); by vm_compute|].
    intros key Hkind [s Hs]. change (originScopes ready) with
      ({[agent_scope := mkOriginScope agent_scope 7; boot_scope := mkOriginScope boot_scope 3]}
        : gmap OriginScopeKey OriginScope) in Hs.
    apply lookup_insert_Some in Hs as [[<- _]|[_ Hs]]; [done|].
    by apply lookup_singleton_Some in Hs as [<- _].
  - split; apply (bool_decide_unpack _); by vm_compute.
  - split; by apply no_ids_indexes.
  - split; by apply (no_rows (V := Lease.Lease)).
  - split_and!; [by apply no_ids_indexes|by apply no_ids_indexes|by apply no_ids_lists].
  - intros k k' row row' Hrow. by destruct (lookup_empty_Some (M := gmap string) k row Hrow).
  - split; apply (bool_decide_unpack _); by vm_compute.
  - by vm_compute.
  - intros i t Ht Hc. by rewrite (Hfree i t Ht) in Hc.
  - by apply (no_rows (V := Lease.Lease)).
  - apply no_chains.
  - apply no_chains.
  - intros p id. split; [intros Hp; by destruct (lookup_empty_Some (M := gmap string) p id Hp)|].
    intros (_ & r & Hr & _). by destruct (lookup_empty_Some (M := gmap string) id r Hr).
  - by vm_compute.
  - by vm_compute.
  - by vm_compute.
Qed.

(** The outcome of an event, and the state after it. *)
Definition result (st : State) (signed : Event.SignedEvent) : Outcome :=
  match reduce st signed None with inr o => o | inl _ => rejectWithoutSequence CodeAccepted end.
Definition after (st : State) (signed : Event.SignedEvent) : State :=
  match Apply st (OChanges (result st signed)) with inr st' => st' | inl _ => st end.

Definition reduces (st : State) (signed : Event.SignedEvent) : bool :=
  match reduce st signed None with inr _ => true | inl _ => false end.
Definition applies (st : State) (signed : Event.SignedEvent) : bool :=
  match Apply st (OChanges (result st signed)) with inr _ => true | inl _ => false end.

Lemma reduces_result st signed :
  reduces st signed = true → reduce st signed None = inr (result st signed).
Proof. unfold reduces, result. by destruct (reduce st signed None). Qed.

Lemma applies_after st signed :
  applies st signed = true → Apply st (OChanges (result st signed)) = inr (after st signed).
Proof. unfold applies, after. by destruct (Apply _ _). Qed.

Lemma step_after st signed :
  reduces st signed = true → applies st signed = true → step st (after st signed).
Proof. intros Hr Ha. eapply step_reduce; [by apply reduces_result|by apply applies_after]. Qed.

Lemma claim_applies : applies ready claim_event = true.
Proof. by vm_compute. Qed.
Lemma claim_reduces : reduces ready claim_event = true.
Proof. by vm_compute. Qed.

Lemma reachable_sound_witness :
  sound (after ready claim_event) ∧ claimsByAgent (after ready claim_event) !! agent_id = Some [task_id].
Proof.
  split; [|by vm_compute]. apply (reachable_sound ready); [apply ready_sound|].
  apply rtc_once, step_after; [apply claim_reduces|apply claim_applies].
Defined.

Definition prepared : reductionContext :=
  value_of (Fixtures.context ready (Event.proposal claim_event)) (prepareReduction ready claim_event).

Lemma no_replay_witness :
  prepareReduction (after ready claim_event) claim_event ≠ Val prepared.
Proof.
  apply (no_replay ready claim_event None prepared (result ready claim_event)
           (after ready claim_event) (after ready claim_event)).
  - apply ready_sound.
  - apply value_of_Val. by vm_compute.
  - apply reduces_result, claim_reduces.
  - apply applies_after, claim_applies.
  - apply rtc_refl.
Defined.

(** The claim of a task that does not exist. *)
Definition lost_claim := signed
  (Fixtures.proposal (agent_origin 8) Event.KindTaskClaimed other_task (Some 3%N) "{}")
  "agent" "agent_reported" (JObject []).

Lemma refusal_recorded_witness :
  Apply ready (OChanges (result ready lost_claim)) =
    inr (recorded ready (OriginScopes (OChanges (result ready lost_claim)))) ∧
  OriginScopes (OChanges (result ready lost_claim)) = [mkOriginScope agent_scope 8].
Proof.
  split; [|by vm_compute].
  apply (refusal_recorded ready lost_claim None); [apply ready_sound|by vm_compute| |by vm_compute].
  apply reduces_result. by vm_compute.
Defined.

(** Approved publication [b] on commit [a], and the event that applies it. *)
Definition repo_ready : State :=
  with_repository (ref_of (oid "a") 1) [row_of first_metadata Publication.StateApproved] [] ready.
Definition apply_json : json :=
  JObject [("expected_canonical_ref_version", JNumber 1);
           ("staging_receipts", receipts_json first_metadata)].
Definition apply_event := signed
  (Fixtures.proposal (human_origin 4) Event.KindPublicationApplied publication_id (Some 2%N)
     (of_bytes (print apply_json))) "human" "human_reported" apply_json.

Lemma linear_history_witness :
  head repo_ready = (oid "a", 1%N) ∧ head (after repo_ready apply_event) = (oid "b", 2%N) ∧
  ∃ ps, branch (head repo_ready) ps (head (after repo_ready apply_event)) ∧
    Forall (is_applied (after repo_ready apply_event)) ps.
Proof.
  split; [by vm_compute|]. split; [by vm_compute|].
  destruct (linear_history repo_ready (after repo_ready apply_event)) as (ps & Hb & _ & Ha & _).
  { apply rtc_once, step_after; by vm_compute. }
  exists ps. exact (conj Hb Ha).
Defined.

(** A memory record, and the record that supersedes it. *)
Definition memory_event (sequence : N) (id : string) (extra : list (string * json)) :=
  let payload := JObject ([("body", JString "body"); ("key", JString "key");
                           ("scope", JString "session")] ++ extra) in
  signed (Fixtures.proposal (agent_origin sequence) Event.KindMemoryAppended id None
            (of_bytes (print payload))) "agent" "agent_reported" payload.
Definition first_memory := memory_event 8 lease_id [].
Definition second_memory := memory_event 9 other_lease [("supersedes", JString lease_id)].
Definition remembered := after (after ready first_memory) second_memory.

Lemma coordination_history_witness :
  size (memoryRecords remembered) = 2 ∧
  ¬ tc (supersession Memory.supersedes (memoryRecords remembered)) other_lease other_lease.
Proof.
  split; [by vm_compute|].
  destruct (coordination_history ready remembered) as (_ & _ & _ & Hm & _).
  - apply ready_sound.
  - apply rtc_l with (after ready first_memory); [apply step_after; by vm_compute|].
    apply rtc_once, step_after; by vm_compute.
  - apply Hm.
Defined.

Lemma limits_hold_witness :
  (count activeMember (map_to_list (devices (after ready claim_event))).*2 ≤ 8)%Z.
Proof.
  destruct (limits_hold ready (after ready claim_event)) as [Hm _].
  - apply ready_sound.
  - apply rtc_once, step_after; [apply claim_reduces|apply claim_applies].
  - etrans; [exact Hm|]. by vm_compute.
Defined.

Lemma membership_survives_witness :
  ∃ id m, devices (after ready claim_event) !! id = Some m ∧ Device.DeviceRole m = Device.RoleOwner.
Proof.
  destruct (membership_survives ready (OChanges (result ready claim_event))
              (after ready claim_event)) as [(id & m & Hm & _ & _ & _ & Hrole) _].
  - apply applies_after, claim_applies.
  - exists id, m. exact (conj Hm Hrole).
Defined.

Lemma indexes_count_witness : currentResultIndex (after ready claim_event) = 6%N.
Proof.
  destruct (indexes_count 1 ready (after ready claim_event)) as [Hr _].
  - apply ready_sound.
  - apply nsteps_once, step_after; [apply claim_reduces|apply claim_applies].
  - rewrite Hr. by vm_compute.
Defined.

End Witnesses.
End StateTheorems.
