(* ===== verification/LoadProofs.v ===== *)
(** * The check of the active leases

    [Module LeaseSetProofs]: [validateActiveLeaseSet] walks the global lease
    index once, recording who owns each task, path and prefix, and then looks
    up the ancestors of every path. It accepts exactly the lease tables whose
    active leases reserve pairwise disjoint resources, the condition that
    [ActiveLeasesIntersect] decides pair by pair. *)

From stdpp Require Import base gmap strings list sorting relations.
From Stdlib Require Import ZArith NArith Lia.
From S2P Require Import Prelude.
From S2P Require Import GoLib.
From S2P Require Import CodecLayer.
From S2P Require Import DomainValues.
From S2P Require Import TaskEntity.
From S2P Require Import LeaseEntity.
From S2P Require Import AgentSessionEntity.
From S2P Require Import VoterSetEntity.
From S2P Require Import DeviceEntity.
From S2P Require Import PlanMemoryEntity.
From S2P Require Import PolicyEntity.
From S2P Require Import ConflictEntity.
From S2P Require Import PublicationEntity.
From S2P Require Import CredentialEntity.
From S2P Require Import ReducerState.
From S2P Require Import PolicyUse.
From S2P Require Import Preflight.
From S2P Require Import StateRefs.
From S2P Require Import PlanMemoryState.
From S2P Require Import ReducerLogic.
From S2P Require Import LeaseReducers.
From S2P Require Import MembershipState.
From S2P Require Import RepositoryState.
From S2P Require Import StateChanges.
From S2P Require Import StateApply.
From S2P Require Import StateLoad.
From S2P Require Import StateIndexes.
From S2P Require Import Fixtures.
From S2P Require Import TaskProofs.
From S2P Require Import DispatchProofs.
From S2P Require Import LeaseProofs.
From S2P Require Import PublicationProofs.
From S2P Require Import StateProofs.
From S2P Require Import StateTheorems.

Module LeaseSetProofs.

Import Reducer PolicyUse StateLoad StateIndexes.
Import LeaseProofs.LeaseProofs PublicationProofs.PublicationProofs StateProofs.StateProofs.

(** ** Indexes built entry by entry *)

Section IndexOnce.
Context `{Countable K} {V : Type} (clash : V → V → bool).

Lemma index_once_Some entries (index r : gmap K V) :
  (∀ a b, clash a b = false → a = b) →
  index_once clash entries index = Some r →
  ∀ k v, r !! k = Some v ↔ index !! k = Some v ∨ (k, v) ∈ entries.
Proof.
  intros Hclash. revert index. induction entries as [|[k0 v0] entries IH]; intros index; simpl.
  { intros [= ->] k v. set_solver. }
  intros Hr k v.
  assert (Hnext : index_once clash entries (<[k0 := v0]> index) = Some r ∧
                  (index !! k0 = None ∨ index !! k0 = Some v0)).
  { destruct (index !! k0) as [prior|]; [|by auto].
    destruct (clash prior v0) eqn:Hc; [done|]. apply Hclash in Hc as ->. auto. }
  destruct Hnext as [Hnext Hk0]. rewrite (IH _ Hnext), elem_of_cons, lookup_insert_Some.
  split; [naive_solver|]. intros [Hi|[[= -> ->]|Hi]]; [|by auto..].
  destruct (decide (k0 = k)) as [->|Hne]; [|by auto]. left. left. split; [done|].
  destruct Hk0; congruence.
Qed.

Lemma index_once_total entries (index : gmap K V) :
  (∀ a, clash a a = false) →
  (∀ k v w, index !! k = Some v ∨ (k, v) ∈ entries → (k, w) ∈ entries → v = w) →
  is_Some (index_once clash entries index).
Proof.
  intros Hrefl. revert index. induction entries as [|[k0 v0] entries IH]; intros index Hu; simpl.
  { eauto. }
  assert (Hnext : is_Some (index_once clash entries (<[k0 := v0]> index))).
  { apply IH. intros k v w [[[-> ->]|[_ Hv]]%lookup_insert_Some|Hv] Hw.
    - apply (Hu k v w); [right; by left|by right].
    - apply (Hu k v w); [by left|by right].
    - apply (Hu k v w); [right; by right|by right]. }
  destruct (index !! k0) as [prior|] eqn:Hp; [|done].
  rewrite (Hu k0 prior v0); [|by left|by left]. by rewrite Hrefl.
Qed.

Lemma index_once_app entries entries' (index : gmap K V) :
  index_once clash (entries ++ entries') index =
  index_once clash entries index ≫= index_once clash entries'.
Proof.
  revert index. induction entries as [|[k v] entries IH]; intros index; simpl; [done|].
  destruct (index !! k); [by destruct (clash _ _)|done].
Qed.

Lemma index_once_cons e entries (index : gmap K V) :
  index_once clash (e :: entries) index =
  index_once clash [e] index ≫= index_once clash entries.
Proof. exact (index_once_app [e] entries index). Qed.
End IndexOnce.

#[local] Arguments index_once : simpl never.

(** ** Ownership *)

Definition differ (a b : string) : bool := a != b.

Lemma differ_eq a b : differ a b = false → a = b.
Proof. unfold differ. by intros Hd%negb_decide_false. Qed.
Lemma differ_refl a : differ a a = false.
Proof. unfold differ. by rewrite bool_decide_true. Qed.

Lemma take_ownership_index owners key id :
  take_ownership owners key id = index_once differ [(key, id)] owners.
Proof. unfold take_ownership, index_once, differ. by destruct (owners !! key). Qed.

Section Entries.
Context (rows : gmap string Lease.Lease).

(** A lease the walk accepts: an active row of a known scope under its id. *)
Definition walkable (id : string) : Prop :=
  ∃ value, rows !! id = Some value ∧ Lease.ID value = id ∧ leased value = true ∧
    (Lease.LeaseScope value = Lease.ScopeTask ∨ Lease.LeaseScope value = Lease.ScopePath).

Definition patterns_of (id : string) : list Lease.PathPattern :=
  match rows !! id with
  | Some value => if Lease.LeaseScope value == Lease.ScopePath then Lease.pathPatterns value else []
  | None => []
  end.

Definition task_entries (id : string) : list (string * string) :=
  match rows !! id with
  | Some value => if Lease.LeaseScope value == Lease.ScopeTask then [(Lease.TaskID value, id)]
                  else []
  | None => []
  end.

Definition path_entries (id : string) : list (string * string) :=
  (λ pattern, (Lease.path pattern, id)) <$> patterns_of id.

Definition prefixes (patterns : list Lease.PathPattern) : list Lease.PathPattern :=
  filter (λ pattern, Lease.prefix pattern = true) patterns.

Definition prefix_entries (id : string) : list (string * string) :=
  (λ pattern, (Lease.path pattern, id)) <$> prefixes (patterns_of id).

Lemma entries_of id value :
  rows !! id = Some value →
  (Lease.LeaseScope value = Lease.ScopeTask →
   task_entries id = [(Lease.TaskID value, id)] ∧ path_entries id = [] ∧ prefix_entries id = []) ∧
  (Lease.LeaseScope value = Lease.ScopePath →
   task_entries id = [] ∧
   path_entries id = (λ pattern, (Lease.path pattern, id)) <$> Lease.pathPatterns value ∧
   prefix_entries id =
     (λ pattern, (Lease.path pattern, id)) <$> prefixes (Lease.pathPatterns value)).
Proof.
  intros Hrow. unfold task_entries, path_entries, prefix_entries, patterns_of. rewrite Hrow.
  split; intros ->; by split_and?.
Qed.

(** The recorded paths are those with an owner. *)
Definition paths_listed (owners : leaseOwners) : Prop :=
  ∀ path, path ∈ ownedPaths owners ↔ is_Some (pathOwners owners !! path).

Lemma ownPatterns_inv id patterns owners r :
  ownPatterns id patterns owners = Some r →
  index_once differ ((λ pattern, (Lease.path pattern, id)) <$> patterns) (pathOwners owners) =
    Some (pathOwners r) ∧
  index_once differ ((λ pattern, (Lease.path pattern, id)) <$> prefixes patterns)
    (prefixOwners owners) = Some (prefixOwners r) ∧
  taskOwners r = taskOwners owners ∧
  (paths_listed owners → paths_listed r).
Proof.
  revert owners. induction patterns as [|pattern patterns IH]; intros owners; simpl.
  { by intros [= <-]. }
  intros (paths & Hpaths & (pres & Hpres & Hr)%bind_Some)%bind_Some.
  apply IH in Hr as (Hp & Hf & Ht & Hl). simpl in *.
  rewrite index_once_cons, <-take_ownership_index, Hpaths. simpl. split; [done|].
  unfold prefixes in *. rewrite filter_cons. split_and!; [| done|].
  - destruct (Lease.prefix pattern); [|by injection Hpres as ->]. rewrite decide_True by done.
    rewrite fmap_cons.
    by rewrite index_once_cons, <-take_ownership_index, Hpres.
  - intros Hold. apply Hl. intros path. simpl.
    assert (Hval : paths = <[Lease.path pattern := id]> (pathOwners owners)).
    { unfold take_ownership in Hpaths.
      destruct (pathOwners owners !! _); [destruct (_ != _)|]; by simplify_eq. }
    rewrite Hval, lookup_insert_is_Some'. unfold present.
    destruct (pathOwners owners !! Lease.path pattern) eqn:Hseen.
    + rewrite (Hold path). naive_solver.
    + rewrite elem_of_app, (Hold path), list_elem_of_singleton. naive_solver.
Qed.

Lemma ownPatterns_total id patterns owners :
  is_Some (index_once differ ((λ pattern, (Lease.path pattern, id)) <$> patterns)
             (pathOwners owners)) →
  is_Some (index_once differ ((λ pattern, (Lease.path pattern, id)) <$> prefixes patterns)
             (prefixOwners owners)) →
  is_Some (ownPatterns id patterns owners).
Proof.
  revert owners. induction patterns as [|pattern patterns IH]; intros owners; simpl; [by eauto|].
  rewrite index_once_cons, <-take_ownership_index.
  destruct (take_ownership _ _ _) as [paths|]; simpl; [|by intros []].
  intros Hp. unfold prefixes. rewrite filter_cons.
  destruct (Lease.prefix pattern).
  - rewrite decide_True by done. rewrite fmap_cons.
      rewrite index_once_cons, <-take_ownership_index.
    destruct (take_ownership _ _ _) as [pres|]; simpl; [|by intros []]. intros Hf. by apply IH.
  - rewrite decide_False by done. intros Hf. simpl. by apply IH.
Qed.

(** The three owner maps after the walk, as indexes of the entries. *)
Definition owns (ids : list string) (owners r : leaseOwners) : Prop :=
  index_once differ (concat (task_entries <$> ids)) (taskOwners owners) = Some (taskOwners r) ∧
  index_once differ (concat (path_entries <$> ids)) (pathOwners owners) = Some (pathOwners r) ∧
  index_once differ (concat (prefix_entries <$> ids)) (prefixOwners owners) =
    Some (prefixOwners r).

Lemma ownLeases_inv ids owners r :
  ownLeases rows ids owners = Some r →
  Forall walkable ids ∧ owns ids owners r ∧ (paths_listed owners → paths_listed r).
Proof.
  revert owners. induction ids as [|id ids IH]; intros owners; simpl.
  { by intros [= <-]. }
  destruct (rows !! id) as [value|] eqn:Hrow; [|done]. destruct (_ || _) eqn:Hc; [done|].
  apply orb_false_iff in Hc as [Hid%negb_decide_false Hst%negb_decide_false].
  assert (Hleased : leased value = true) by by apply bool_decide_eq_true.
  unfold owns. rewrite !fmap_cons. simpl. rewrite !index_once_app.
  destruct (entries_of id value Hrow) as [Htask Hpath].
  destruct (Lease.LeaseScope value) eqn:Hs; [| |done].
  - destruct Htask as (-> & -> & ->); [done|]. intros (owned & Ho & (Hw & (Ht & Hp & Hf) & Hl)%IH)%bind_Some. simpl in *.
    rewrite take_ownership_index in Ho. rewrite Ho. simpl.
    split_and!; [constructor; [|done]|done..]. exists value. by auto.
  - destruct Hpath as (-> & -> & ->); [done|].
    intros (o & (Hp1 & Hf1 & Ht1 & Hl1)%ownPatterns_inv & (Hw & (Ht & Hp & Hf) & Hl)%IH)%bind_Some.
    rewrite Ht1 in Ht. unfold Lease.PathPatterns in *. rewrite Hp1, Hf1. simpl.
    split_and!; [constructor; [|done]|try done..|].
    + exists value. by auto.
    + intros. by apply Hl, Hl1.
Qed.

Lemma ownLeases_total ids owners :
  Forall walkable ids →
  is_Some (index_once differ (concat (task_entries <$> ids)) (taskOwners owners)) →
  is_Some (index_once differ (concat (path_entries <$> ids)) (pathOwners owners)) →
  is_Some (index_once differ (concat (prefix_entries <$> ids)) (prefixOwners owners)) →
  is_Some (ownLeases rows ids owners).
Proof.
  intros Hw. revert owners. induction Hw as [|id ids (value & Hrow & Hid & Hst & Hs) _ IH];
    intros owners; [by eauto|].
  rewrite !fmap_cons. simpl. rewrite !index_once_app, Hrow.
  apply bool_decide_eq_true in Hst. rewrite Hid, Hst, !bool_decide_true by done. simpl.
  destruct (entries_of id value Hrow) as [Htask Hpath], Hs as [Hs|Hs]; rewrite Hs.
  - destruct (Htask Hs) as (-> & -> & ->). rewrite take_ownership_index. destruct (index_once differ [_] _) as [owned|]; simpl;
      [|by intros []].
    intros. by apply IH.
  - destruct (Hpath Hs) as (-> & -> & ->).
    intros Ht Hp Hf. destruct (ownPatterns_total id (Lease.pathPatterns value) owners) as [o Ho].
    { destruct (index_once differ (_ <$> Lease.pathPatterns value) _); [done|by destruct Hp]. }
    { destruct (index_once differ (_ <$> prefixes _) _); [done|by destruct Hf]. }
    unfold Lease.PathPatterns. rewrite Ho. simpl.
    apply ownPatterns_inv in Ho as (Hp1 & Hf1 & Ht1 & _).
    rewrite Hp1 in Hp. rewrite Hf1 in Hf. apply IH; [by rewrite Ht1|done..].
Qed.

Lemma elem_of_entries (f : string → list (string * string)) ids k id :
  (∀ i k' id', (k', id') ∈ f i → id' = i) →
  (k, id) ∈ concat (f <$> ids) ↔ id ∈ ids ∧ (k, id) ∈ f id.
Proof.
  intros Hf. rewrite list_elem_of_In, in_concat. split.
  - intros (l & Hl & Hin). apply list_elem_of_In in Hl, Hin.
    apply list_elem_of_fmap in Hl as (i & -> & Hi). by pose proof (Hf _ _ _ Hin) as ->.
  - intros [Hid Hin]. exists (f id). rewrite <-!list_elem_of_In.
    split; [apply list_elem_of_fmap; eauto|done].
Qed.

Lemma elem_task_entries id k id' :
  (k, id') ∈ task_entries id ↔
  id' = id ∧ ∃ value, rows !! id = Some value ∧ Lease.LeaseScope value = Lease.ScopeTask ∧
    k = Lease.TaskID value.
Proof.
  unfold task_entries. destruct (rows !! id) as [value|]; [|set_solver].
  case_bool_decide as Hs; [rewrite list_elem_of_singleton|]; set_solver.
Qed.

Lemma elem_path_entries id k id' :
  (k, id') ∈ path_entries id ↔
  id' = id ∧ ∃ pattern, pattern ∈ patterns_of id ∧ k = Lease.path pattern.
Proof. unfold path_entries. rewrite list_elem_of_fmap. naive_solver. Qed.

Lemma elem_prefix_entries id k id' :
  (k, id') ∈ prefix_entries id ↔
  id' = id ∧ ∃ pattern, pattern ∈ patterns_of id ∧ Lease.prefix pattern = true ∧
    k = Lease.path pattern.
Proof.
  unfold prefix_entries, prefixes. rewrite list_elem_of_fmap. setoid_rewrite list_elem_of_filter.
  naive_solver.
Qed.

Lemma elem_patterns_of id pattern :
  pattern ∈ patterns_of id ↔
  ∃ value, rows !! id = Some value ∧ Lease.LeaseScope value = Lease.ScopePath ∧
    pattern ∈ Lease.pathPatterns value.
Proof.
  unfold patterns_of. destruct (rows !! id) as [value|]; [|set_solver].
  case_bool_decide as Hs; set_solver.
Qed.

End Entries.

(** ** Ancestors *)

Definition below (path ancestor : string) : Prop := ∃ t, path = ancestor +:+ String slash t.

Lemma parentPath_None p : parentPath p = None → ∀ a, ¬ below p a.
Proof.
  induction p as [|c p IH]; intros Hp a [t Ht]; [by destruct a|]. simpl in Hp.
  destruct (parentPath p); [done|]. destruct (decide (c = slash)) as [|Hc]; [done|].
  destruct a as [|c' a]; simpl in Ht; injection Ht as Hc' Ht; [done|].
  apply (IH eq_refl a). by exists t.
Qed.

Lemma parentPath_Some p a :
  parentPath p = Some a →
  below p a ∧ String.length a < String.length p ∧ ∀ b, below p b → b = a ∨ below a b.
Proof.
  revert a. induction p as [|c p IH]; intros a Hp; simpl in Hp; [done|].
  destruct (parentPath p) as [a'|] eqn:Hpar.
  - injection Hp as <-. destruct (IH a' eq_refl) as ([t ->] & Hlen & Hb). simpl.
    split_and!; [by exists t|simpl in *; lia|]. intros b [u Hu].
    destruct b as [|c' b]; simpl in Hu; injection Hu as -> Hu.
    + right. by exists a'.
    + destruct (Hb b) as [->|[v ->]]; [by exists u|by left|]. right. by exists v.
  - destruct (decide (c = slash)) as [->|]; [|done]. injection Hp as <-. simpl.
    split_and!; [by exists p|lia|]. intros b [u Hu].
    destruct b as [|c' b]; [by left|]. simpl in Hu. injection Hu as _ Hu.
    destruct (parentPath_None p Hpar b). by exists u.
Qed.

Lemma ancestorsFree_spec prefixes owner fuel p :
  String.length p ≤ fuel →
  ancestorsFree prefixes owner fuel p = true ↔
  ∀ a o, below p a → prefixes !! a = Some o → o = owner.
Proof.
  revert p. induction fuel as [|fuel IH]; intros p Hlen.
  { destruct p; [|simpl in Hlen; lia]. split; [|done]. intros _ a o [t Ht]. by destruct a. }
  simpl. destruct (parentPath p) as [a|] eqn:Hp.
  - apply parentPath_Some in Hp as ([t ->] & Hl & Hb). specialize (IH a ltac:(lia)).
    assert (Hrest : (∀ b o, below (a +:+ String slash t) b → prefixes !! b = Some o → o = owner) ↔
      (∀ o, prefixes !! a = Some o → o = owner) ∧
      ∀ b o, below a b → prefixes !! b = Some o → o = owner).
    { split.
      - intros Hall. split; [intros o; apply Hall; by exists t|].
        intros b o [u ->]. apply Hall. exists (u +:+ String slash t). by rewrite str_app_assoc.
      - intros [Ha Hall] b o [->|Hbelow]%Hb Ho; [by apply Ha|by eapply Hall]. }
    rewrite Hrest, <-IH. destruct (prefixes !! a) as [o|].
    + rewrite andb_true_iff, bool_decide_eq_true. naive_solver.
    + naive_solver.
  - split; [|done]. intros _ a o Hbelow. by destruct (parentPath_None p Hp a).
Qed.

(** ** The check decides exclusion *)

Section Decides.
Context `{NormLib}.

Lemma Contains_below p q :
  Domain.RepositoryPath_Valid p = true → Domain.RepositoryPath_Valid q = true →
  Domain.RepositoryPath_Contains p q = true ↔ q = p ∨ below q p.
Proof.
  intros Hp Hq. unfold Domain.RepositoryPath_Contains. rewrite Hp, Hq. simpl.
  rewrite orb_true_iff, bool_decide_eq_true, HasPrefix_app. unfold below.
  by setoid_rewrite str_app_assoc.
Qed.

Context (st : State) (Hrows : table Lease.ID Lease.Validate (leases st)).
Context (Hindex : lists leased (leases st) (activeLeaseIDs st)).

Lemma indexed id : id ∈ activeLeaseIDs st ↔ ∃ value, leases st !! id = Some value ∧ leased value = true.
Proof. apply Hindex. Qed.

Lemma all_walkable : Forall (walkable (leases st)) (activeLeaseIDs st).
Proof.
  apply Forall_forall. intros id (value & Hrow & Hact)%indexed. exists value.
  split_and!; [done|by apply (table_keyed _ _ _ Hrows)|done|].
  pose proof (table_valid _ _ _ Hrows _ _ Hrow) as (_ & _ & Hs & _)%Lease.lease_valid_inv.
  unfold Lease.validateScopedValues in Hs.
  destruct (Lease.LeaseScope value); [by left|by right|]. by vm_compute in Hs.
Qed.

(** A pattern of an active path lease. *)
Definition holds (id : string) (pattern : Lease.PathPattern) : Prop :=
  id ∈ activeLeaseIDs st ∧ pattern ∈ patterns_of (leases st) id.

Lemma holds_valid id pattern : holds id pattern → Lease.PathPattern_Valid pattern = true.
Proof.
  intros [_ (value & Hrow & _ & Hin)%elem_patterns_of].
  exact (valid_patterns _ _ (table_valid _ _ _ Hrows _ _ Hrow) Hin).
Qed.

Lemma in_paths k id :
  (k, id) ∈ concat (path_entries (leases st) <$> activeLeaseIDs st) ↔
  ∃ pattern, holds id pattern ∧ k = Lease.path pattern.
Proof.
  rewrite elem_of_entries by (intros ???; rewrite elem_path_entries; naive_solver).
  rewrite elem_path_entries. unfold holds. naive_solver.
Qed.

Lemma in_prefixes k id :
  (k, id) ∈ concat (prefix_entries (leases st) <$> activeLeaseIDs st) ↔
  ∃ pattern, holds id pattern ∧ Lease.prefix pattern = true ∧ k = Lease.path pattern.
Proof.
  rewrite elem_of_entries by (intros ???; rewrite elem_prefix_entries; naive_solver).
  rewrite elem_prefix_entries. unfold holds. naive_solver.
Qed.

Lemma in_tasks k id :
  (k, id) ∈ concat (task_entries (leases st) <$> activeLeaseIDs st) ↔
  id ∈ activeLeaseIDs st ∧ ∃ value, leases st !! id = Some value ∧
    Lease.LeaseScope value = Lease.ScopeTask ∧ k = Lease.TaskID value.
Proof.
  rewrite elem_of_entries by (intros ???; rewrite elem_task_entries; naive_solver).
  rewrite elem_task_entries. naive_solver.
Qed.

(** Exclusion, told by tasks and by patterns. *)
Definition tasks_exclusive : Prop :=
  ∀ k id id', (k, id) ∈ concat (task_entries (leases st) <$> activeLeaseIDs st) →
    (k, id') ∈ concat (task_entries (leases st) <$> activeLeaseIDs st) → id = id'.
Definition patterns_exclusive : Prop :=
  ∀ id id' l r, holds id l → holds id' r → Lease.Intersects l r = true → id = id'.

Lemma exclusive_iff : leases_exclusive st ↔ tasks_exclusive ∧ patterns_exclusive.
Proof.
  split.
  - intros Hex. split.
    + intros k id id' ((v & Hv & Ha)%indexed & v1 & Hv1 & Hs & ->)%in_tasks
        ((v' & Hv' & Ha')%indexed & v1' & Hv1' & Hs' & Heq)%in_tasks.
      simplify_eq. destruct (decide (id = id')) as [|Hne]; [done|].
      destruct (Hex _ _ _ _ Hv Hv' Hne Ha Ha'). by exists (TaskResource (Lease.TaskID v)).
    + intros id id' l r Hl Hr Hi. destruct (decide (id = id')) as [|Hne]; [done|].
      apply Lease.Intersects_covers in Hi as (x & Hx & Hy); [|by eapply holds_valid..].
      destruct Hl as [(v & Hv & Ha)%indexed (v1 & Hv1 & Hs & Hin)%elem_patterns_of].
      destruct Hr as [(v' & Hv' & Ha')%indexed (v1' & Hv1' & Hs' & Hin')%elem_patterns_of].
      simplify_eq. destruct (Hex _ _ _ _ Hv Hv' Hne Ha Ha'). exists (PathResource x).
      simpl. eauto 10.
  - intros [Htask Hpat] id id' v v' Hv Hv' Hne Ha Ha' (r & Hr & Hr'). apply Hne.
    assert (Hid : id ∈ activeLeaseIDs st) by (apply indexed; eauto).
    assert (Hid' : id' ∈ activeLeaseIDs st) by (apply indexed; eauto).
    destruct r as [t|p]; simpl in *.
    + destruct Hr as [Hs <-], Hr' as [Hs' Heq]. apply (Htask (Lease.TaskID v)); apply in_tasks; eauto.
    + destruct Hr as (Hs & l & Hl & Hx), Hr' as (Hs' & q & Hq & Hy).
      assert (Hhl : holds id l) by (split; [done|apply elem_patterns_of; eauto]).
      assert (Hhq : holds id' q) by (split; [done|apply elem_patterns_of; eauto]).
      apply (Hpat _ _ _ _ Hhl Hhq), Lease.Intersects_covers; [by eapply holds_valid..|eauto].
Qed.

Lemma Intersects_paths l r :
  Lease.PathPattern_Valid l = true → Lease.PathPattern_Valid r = true →
  Lease.Intersects l r = true ↔
  Lease.path l = Lease.path r ∨
  (Lease.prefix l = true ∧ below (Lease.path r) (Lease.path l)) ∨
  (Lease.prefix r = true ∧ below (Lease.path l) (Lease.path r)).
Proof.
  intros Hl Hr. unfold Lease.Intersects. rewrite Hl, Hr. simpl.
  pose proof (Contains_below _ _ (Lease.Valid_path _ Hl) (Lease.Valid_path _ Hr)) as H1.
  pose proof (Contains_below _ _ (Lease.Valid_path _ Hr) (Lease.Valid_path _ Hl)) as H2.
  destruct (Lease.prefix l), (Lease.prefix r); simpl; rewrite ?bool_decide_eq_true.
  - destruct (Domain.RepositoryPath_Contains (Lease.path l) (Lease.path r)); naive_solver.
  - destruct (Domain.RepositoryPath_Contains (Lease.path l) (Lease.path r)); naive_solver.
  - naive_solver.
  - naive_solver.
Qed.

Lemma owner_unique entries (index : gmap string string) r k id id' :
  index_once differ entries index = Some r → (k, id) ∈ entries → (k, id') ∈ entries → id = id'.
Proof.
  intros Hr Hid Hid'. pose proof (index_once_Some _ _ _ _ differ_eq Hr) as Hs.
  apply (inj Some). rewrite <-(proj2 (Hs k id)), <-(proj2 (Hs k id')); by auto.
Qed.

Lemma owners_total entries :
  (∀ k id id', (k, id) ∈ entries → (k, id') ∈ entries → id = id') →
  is_Some (index_once differ entries (∅ : gmap string string)).
Proof.
  intros Hu. apply index_once_total; [apply differ_refl|].
  intros k v w [Hv|Hv] Hw; [by rewrite lookup_empty in Hv|by eapply Hu].
Qed.

(** What the walk leaves, when it accepts the rows. *)
Lemma walked owners :
  ownLeases (leases st) (activeLeaseIDs st) no_owners = Some owners →
  tasks_exclusive ∧
  (∀ k id id', (∃ l, holds id l ∧ k = Lease.path l) → (∃ l, holds id' l ∧ k = Lease.path l) →
     id = id') ∧
  (∀ k id, pathOwners owners !! k = Some id ↔ ∃ l, holds id l ∧ k = Lease.path l) ∧
  (∀ k id, prefixOwners owners !! k = Some id ↔
     ∃ l, holds id l ∧ Lease.prefix l = true ∧ k = Lease.path l) ∧
  (∀ path, path ∈ ownedPaths owners ↔ is_Some (pathOwners owners !! path)).
Proof.
  intros (_ & (Ht & Hp & Hf) & Hl)%ownLeases_inv. simpl in *. split_and!.
  - intros k id id' Hid Hid'. exact (owner_unique _ _ _ _ _ _ Ht Hid Hid').
  - intros k id id' Hid%in_paths Hid'%in_paths. exact (owner_unique _ _ _ _ _ _ Hp Hid Hid').
  - intros k id. rewrite (index_once_Some _ _ _ _ differ_eq Hp), in_paths, lookup_empty. naive_solver.
  - intros k id. rewrite (index_once_Some _ _ _ _ differ_eq Hf), in_prefixes, lookup_empty.
    naive_solver.
  - apply Hl. intros path. simpl. rewrite lookup_empty. split; [set_solver|by intros []].
Qed.

Lemma walk_accepts :
  tasks_exclusive → patterns_exclusive →
  is_Some (ownLeases (leases st) (activeLeaseIDs st) no_owners).
Proof.
  intros Ht Hp. apply ownLeases_total; [apply all_walkable| |..]; apply owners_total; [done| |].
  - intros k id id' (l & Hl & ->)%in_paths (r & Hr & Heq)%in_paths.
    apply (Hp _ _ _ _ Hl Hr), Intersects_paths; [by eapply holds_valid..|by left].
  - intros k id id' (l & Hl & _ & ->)%in_prefixes (r & Hr & _ & Heq)%in_prefixes.
    apply (Hp _ _ _ _ Hl Hr), Intersects_paths; [by eapply holds_valid..|by left].
Qed.

Lemma active_set_exclusive : validateActiveLeaseSet st = true ↔ leases_exclusive st.
Proof.
  rewrite exclusive_iff. unfold validateActiveLeaseSet. split.
  - destruct (ownLeases _ _ _) as [owners|] eqn:Ho; [|done].
    destruct (walked owners Ho) as (Ht & Hu & Hp & Hf & Hl).
    rewrite forallb_forall. intros Hfree. split; [done|].
    assert (Hanc : ∀ id id' l r, holds id l → holds id' r → Lease.prefix l = true →
              below (Lease.path r) (Lease.path l) → id = id').
    { intros id id' l r Hhl Hhr Hpre Hbelow.
      assert (Hown : pathOwners owners !! Lease.path r = Some id') by (apply Hp; eauto).
      specialize (Hfree (Lease.path r)). rewrite Hown in Hfree. simpl in Hfree.
      refine (proj1 (ancestorsFree_spec _ _ _ _ _) (Hfree _) (Lease.path l) id _ _);
        [done| |done|apply Hf; eauto].
      apply list_elem_of_In. rewrite sort_Strings_perm. apply Hl. eauto. }
    intros id id' l r Hhl Hhr Hi.
    apply Intersects_paths in Hi; [|by eapply holds_valid..].
    destruct Hi as [Heq|[[Hpre Hb]|[Hpre Hb]]].
    + apply (Hu (Lease.path l)); eauto.
    + by eapply Hanc.
    + symmetry. by eapply Hanc.
  - intros [Ht Hp]. destruct (walk_accepts Ht Hp) as [owners Ho]. rewrite Ho.
    destruct (walked owners Ho) as (_ & _ & Hpath & Hf & Hl).
    apply forallb_forall. intros path Hin%list_elem_of_In. rewrite sort_Strings_perm in Hin.
    apply Hl in Hin as [id' Hid']. rewrite Hid'. simpl.
    apply ancestorsFree_spec; [done|]. intros a id Hbelow (l & Hhl & Hpre & ->)%Hf.
    apply Hpath in Hid' as (r & Hhr & ->).
    apply (Hp _ _ _ _ Hhl Hhr), Intersects_paths; [by eapply holds_valid..|auto].
Qed.

(** The pairwise check, as [validateLeaseChanges] makes it of two rows. *)
Definition pairwise_disjoint : Prop :=
  ∀ id id' row row', leases st !! id = Some row → leases st !! id' = Some row' → id ≠ id' →
    Lease.ActiveLeasesIntersect row row' = inr false.

Lemma pairwise_exclusive : pairwise_disjoint ↔ leases_exclusive st.
Proof.
  pose proof (table_valid _ _ _ Hrows) as Hvalid. split.
  - intros Hpair id id' row row' Hrow Hrow' Hne Ha Ha' Hex.
    by apply (intersect_reserves _ _ _ (Hpair _ _ _ _ Hrow Hrow' Hne) Ha Ha') in Hex.
  - intros Hex id id' row row' Hrow Hrow' Hne.
    destruct (Lease.ActiveLeasesIntersect row row') as [err|b] eqn:Hi.
    { unfold Lease.ActiveLeasesIntersect in Hi.
      by rewrite (Hvalid _ _ Hrow), (Hvalid _ _ Hrow') in Hi. }
    destruct (LeaseReducers.isActive row) eqn:Ha, (LeaseReducers.isActive row') eqn:Ha'.
    { destruct b; [|done]. destruct (Hex _ _ _ _ Hrow Hrow' Hne Ha Ha').
      by apply (intersect_reserves _ _ _ Hi Ha Ha'). }
    all: unfold Lease.ActiveLeasesIntersect, LeaseReducers.isActive in *.
    all: rewrite (Hvalid _ _ Hrow), (Hvalid _ _ Hrow'), Ha, Ha' in Hi.
    all: simpl in Hi; by injection Hi as <-.
Qed.

End Decides.

(** C35: The one-pass check of the active leases decides exactly what comparing
    every two rows decides: over a table of valid leases under their own ids and
    the sorted list of its active ids, the walk over owners of tasks, paths and
    prefixes accepts if and only if no two rows of the table intersect. *)
Theorem active_leases_decided `{NormLib} st :
  table Lease.ID Lease.Validate (leases st) → lists leased (leases st) (activeLeaseIDs st) →
  validateActiveLeaseSet st = true ↔ pairwise_disjoint st.
Proof. intros Hrows Hindex. by rewrite pairwise_exclusive, active_set_exclusive. Qed.

(** ** Witness *)

Import Fixtures.
#[local] Existing Instances norm.

(** Active leases on a directory tree and on a file. *)
Definition holding (left right : Lease.Lease) : State :=
  state_with [] [left; right] [] [lease_id; other_lease].
Definition tree := path_lease lease_id "src/app" true Lease.StatusActive Lease.ReleaseReasonAbsent.
Definition file (path : string) :=
  path_lease other_lease path false Lease.StatusActive Lease.ReleaseReasonAbsent.

Lemma holding_rows path :
  Lease.Validate (file path) = None →
  table Lease.ID Lease.Validate (leases (holding tree (file path))) ∧
  lists leased (leases (holding tree (file path))) [lease_id; other_lease].
Proof.
  intros Hv. assert (Hrows : leases (holding tree (file path)) =
                             {[lease_id := tree; other_lease := file path]}) by done.
  rewrite Hrows. split; [split|split].
  - intros k v [[<- <-]|[_ [<- <-]%lookup_singleton_Some]]%lookup_insert_Some; done.
  - intros k v [[<- <-]|[_ [<- <-]%lookup_singleton_Some]]%lookup_insert_Some; [by vm_compute|done].
  - repeat constructor.
  - intros i. rewrite elem_of_cons, list_elem_of_singleton. split.
    + intros [->| ->]; [by exists tree|by exists (file path)].
    + intros (v & [[<- _]|[_ [<- _]%lookup_singleton_Some]]%lookup_insert_Some & _); auto.
Qed.

Lemma active_leases_decided_witness :
  pairwise_disjoint (holding tree (file "src/apple")) ∧
  ¬ pairwise_disjoint (holding tree (file "src/app/main.go")).
Proof.
  split.
  - apply (active_leases_decided (holding tree (file "src/apple"))); [..|by vm_compute];
      apply holding_rows; by vm_compute.
  - intros Hp. apply (active_leases_decided (holding tree (file "src/app/main.go"))) in Hp;
      [by vm_compute in Hp|..]; apply holding_rows; by vm_compute.
Defined.

End LeaseSetProofs.

(** ** What a loaded snapshot guarantees

    [Module LoadProofs]: a state that [NewState] returns is [sound], so every
    theorem about the states that events reach from a sound state holds of a
    running node: its first state comes from [NewState]. *)

Module LoadProofs.

Import Reducer Preflight PolicyUse StateRefs Logic PlanMemoryState StateApply StateLoad StateIndexes.
Import PublicationProofs.PublicationProofs StateProofs.StateProofs LeaseSetProofs
  StateTheorems.StateTheorems.

(** ** The derived indexes *)

Lemma elem_omap_rows `{Countable K} {V B} (f : K → V → option B) (rows : gmap K V) b :
  b ∈ omap (λ '(k, v), f k v) (map_to_list rows) ↔ ∃ k v, rows !! k = Some v ∧ f k v = Some b.
Proof.
  rewrite list_elem_of_omap. split.
  - intros ([k v] & Hin%elem_of_map_to_list & Hf). eauto.
  - intros (k & v & Hrow & Hf). exists (k, v). by rewrite elem_of_map_to_list.
Qed.

Lemma rowsOk_inv `{Countable K} {V} (id : V → K) (ok : V → bool) rows :
  rowsOk id ok rows = true → keyed_by id rows ∧ map_Forall (λ _ v, ok v = true) rows.
Proof.
  unfold rowsOk. rewrite forallb_forall. intros Hall.
  assert (Hrow : ∀ k v, rows !! k = Some v → id v = k ∧ ok v = true).
  { intros k v Hv%elem_of_map_to_list. specialize (Hall (k, v) ltac:(by apply list_elem_of_In)).
    simpl in Hall. apply andb_true_iff in Hall as [Hk%bool_decide_eq_true Hok]. done. }
  split; intros k v Hv; by destruct (Hrow k v Hv).
Qed.

Lemma rows_all `{Countable K} {V} (ok : K → V → bool) (rows : gmap K V) :
  forallb (λ '(k, v), ok k v) (map_to_list rows) = true ↔ map_Forall (λ k v, ok k v = true) rows.
Proof.
  rewrite forallb_forall. split.
  - intros Hall k v Hv%elem_of_map_to_list. by apply (Hall (k, v)), list_elem_of_In.
  - intros Hall [k v] Hin%list_elem_of_In%elem_of_map_to_list. by apply Hall.
Qed.

Lemma sorted_strict l : NoDup l → StronglySorted String.le l → StronglySorted str_lt l.
Proof.
  intros Hnd Hs. induction Hs as [|x l Hs IH Hall]; [constructor|].
  apply NoDup_cons in Hnd as [Hx Hnd]. constructor; [by apply IH|].
  rewrite Forall_forall in Hall |- *. intros y Hy. apply str_lt_le_ne. split; [by apply Hall|].
  by intros ->.
Qed.

(** The claim index lists the claimed tasks of each key. *)
Lemma claimIndex_indexes key rows :
  keyed_by Task.ID rows → indexes claimed key rows (claimIndex key rows).
Proof.
  intros Hkeyed k. unfold claimIndex, ids_at. rewrite lookup_fmap.
  set (folded := map_fold _ _ _).
  assert (Hfold : ∀ k, NoDup (ids_at folded k) ∧ ∀ id, id ∈ ids_at folded k ↔
            ∃ v, rows !! id = Some v ∧ (claimed v && (key v == k)) = true).
  { subst folded. clear k. revert rows Hkeyed.
    refine (map_fold_weak_ind (λ r rows, keyed_by Task.ID rows → ∀ k, NoDup (ids_at r k) ∧
      ∀ id, id ∈ ids_at r k ↔ ∃ v, rows !! id = Some v ∧ (claimed v && (key v == k)) = true) _ _ _ _).
    - intros _ k. split; [constructor|]. intros id. split; [set_solver|].
      intros (v & Hv & _). by rewrite lookup_empty in Hv.
    - intros id v rows r Hnone IH Hkeyed k.
      assert (Hk' : keyed_by Task.ID rows).
      { intros i w Hw. apply (Hkeyed i w). rewrite lookup_insert_ne; [done|congruence]. }
      destruct (IH Hk' k) as [Hnd Hin].
      assert (Hnew : id ∉ ids_at r k) by (rewrite Hin; intros (w & Hw & _); congruence).
      assert (Hrow : ∀ i P, (∃ w, <[id := v]> rows !! i = Some w ∧ P w) ↔
                (i = id ∧ P v) ∨ ∃ w, rows !! i = Some w ∧ P w).
      { intros i P. setoid_rewrite lookup_insert_Some. split.
        - intros (w & [[<- <-]|[_ Hw]] & HP); eauto.
        - intros [[-> HP]|(w & Hw & HP)]; [by eauto|]. exists w. split; [|done]. right.
          split; [congruence|done]. }
      split.
      + unfold claimed in *. destruct (_ == EmptyString) eqn:Hc; [done|].
        rewrite ids_at_update. destruct (decide _) as [Heq|]; [|done].
        apply NoDup_app. split_and!; [done|set_solver|apply NoDup_singleton].
      + intros i. rewrite Hrow, <-Hin. unfold claimed.
        destruct (_ == EmptyString) eqn:Hc; simpl; [naive_solver|].
        rewrite ids_at_update, bool_decide_eq_true. destruct (decide (key v = k)) as [Heq|Hne].
        * rewrite elem_of_app, list_elem_of_singleton. naive_solver.
        * naive_solver. }
  destruct (Hfold k) as [Hnd Hin]. unfold ids_at in Hnd, Hin.
  destruct (folded !! k) as [ids|]; simpl in *; [|by split; [constructor|]].
  split.
  - apply sorted_strict; [by rewrite sort_Strings_perm|apply sort_Strings_sorted].
  - intros id. by rewrite sort_Strings_perm.
Qed.

Lemma keyed_insert_inv {V} (id : V → string) rows i v :
  rows !! i = None → keyed_by id (<[i := v]> rows) → keyed_by id rows ∧ id v = i.
Proof.
  intros Hnone Hk. split.
  - intros j w Hw. apply (Hk j w). rewrite lookup_insert_ne; [done|congruence].
  - apply (Hk i v), lookup_insert_eq.
Qed.

Lemma leaseIndex_indexed rows :
  keyed_by Lease.ID rows →
  indexes leased Lease.HolderAgentSessionID rows (leaseIndex rows).1.1 ∧
  indexes leased Lease.HolderDeviceID rows (leaseIndex rows).1.2 ∧
  lists leased rows (leaseIndex rows).2.
Proof.
  unfold leaseIndex. revert rows.
  refine (map_fold_weak_ind (λ r rows, keyed_by Lease.ID rows →
    indexes leased Lease.HolderAgentSessionID rows r.1.1 ∧
    indexes leased Lease.HolderDeviceID rows r.1.2 ∧ lists leased rows r.2) _ _ _ _).
  { intros _. split_and!; [intros k..|]; (split; [constructor|]); intros i; simpl;
      (split; [set_solver|]); intros (v & Hv & _); by rewrite lookup_empty in Hv. }
  intros i v rows [[agents devices] ids] Hnone IH [Hk <-]%keyed_insert_inv; [|done].
  destruct (IH Hk) as (Ha & Hd & Hi). simpl in *.
  pose proof (writeLeases_indexed [v] rows agents devices ids Hk Ha Hd Hi) as Hw.
  cbn [foldl] in Hw. cbv zeta in Hw. unfold writeLease in Hw. by rewrite Hnone in Hw.
Qed.

Lemma activeSessions_count rows :
  activeSessions rows = count openSession (map_to_list rows).*2.
Proof.
  unfold activeSessions. revert rows.
  refine (map_fold_weak_ind (λ n rows, n = count openSession (map_to_list rows).*2) _ _ _ _); [done|].
  intros i v rows n Hnone ->. rewrite count_insert, Hnone. unfold openSession.
  destruct (_ != _); lia.
Qed.

(** ** A loaded state *)

Section Lib.
Context `{NormLib, JCSLib, CryptoLib}.

Record loads (snapshot : Snapshot) (st : State) : Prop := {
  ld_header : headerOk snapshot = true;
  ld_agents : index_once (λ prior deviceID, prior != deviceID)
                (agentScopeEntries (SOriginScopes snapshot)) ∅ = Some (agentScopeDevices st);
  ld_keys : unique_by CredentialAuthorization.KeyDigest (SCredentialAuthorizations snapshot) =
              Some (credentialKeys st);
  ld_successors : index_once (λ _ _, true) (successorEntries (SMemoryRecords snapshot)) ∅ =
                    Some (memorySuccessors st);
  ld_unresolved : countUnresolved (SPublications snapshot)
                    (map_to_list (SMergeConflicts snapshot)) ∅ =
                    Some (unresolvedConflictsByTask st);
  ld_state : st = loaded snapshot (agentScopeDevices st) (credentialKeys st)
                    (memorySuccessors st) (unresolvedConflictsByTask st);
  ld_tables : tablesOk st = true }.

Lemma NewState_loads snapshot st : NewState snapshot = inr st ↔ loads snapshot st.
Proof.
  unfold NewState, load. split.
  - destruct (headerOk snapshot) eqn:Hh; [|done]. simpl.
    destruct (index_once _ (agentScopeEntries _) _) as [agents|] eqn:Ha; [|done]. simpl.
    destruct (unique_by _ _) as [keys|] eqn:Hk; [|done]. simpl.
    destruct (index_once _ (successorEntries _) _) as [successors|] eqn:Hs; [|done]. simpl.
    destruct (countUnresolved _ _ _) as [unresolved|] eqn:Hu; [|done]. simpl.
    destruct (tablesOk _) eqn:Ht; [|done]. intros [= <-]. by split.
  - intros [Hh Ha Hk Hs Hu Hst Ht]. rewrite Hh. simpl. rewrite Ha. simpl. rewrite Hk. simpl.
    rewrite Hs. simpl. rewrite Hu. simpl. rewrite <-Hst, Ht. done.
Qed.

(** The tables of a loaded state, and what each check says of them. *)
Record tables (st : State) : Prop := {
  tb_scopes : map_Forall (λ key scope,
    validateOriginScope key scope && present (devices st !! KDeviceID key) = true)
    (originScopes st);
  tb_sessions : keyed_by AgentSession.ID (agentSessions st) ∧
    map_Forall (λ _ v, sessionOk st v = true) (agentSessions st);
  tb_topology : topology st = true;
  tb_tasks : keyed_by Task.ID (tasks st) ∧
    map_Forall (λ _ v, negb (fails (Task.Validate v)) && validateTaskReferences st v ∅ = true)
      (tasks st);
  tb_plans : planMemoryOk st = true;
  tb_leases : keyed_by Lease.ID (leases st) ∧
    map_Forall (λ _ v, negb (fails (Lease.Validate v)) && validateLeaseReferences st v = true)
      (leases st);
  tb_set : validateActiveLeaseSet st = true;
  tb_authorizations : keyed_by CredentialAuthorization.PrimaryKey (credentialAuthorizations st) ∧
    map_Forall (λ _ v, authorizationOk st v = true) (credentialAuthorizations st);
  tb_files : keyed_by ControlFile.ProposalEventID (controlFileProposals st) ∧
    map_Forall (λ _ v, MembershipState.validateControlFileProposal st v false &&
      (ControlFile.ChainIndex v <=? currentChainIndex st)%N = true) (controlFileProposals st);
  tb_publications : keyed_by RepositoryState.publicationID (publications st) ∧
    map_Forall (λ _ v, publicationOk st v = true) (publications st);
  tb_conflicts : keyed_by RepositoryState.conflictID (mergeConflicts st) ∧
    map_Forall (λ _ v, conflictOk st v = true) (mergeConflicts st);
  tb_bounds : validateDerivedBounds st = None }.

Lemma tablesOk_inv st : tablesOk st = true → tables st.
Proof.
  unfold tablesOk, scopesOk, membershipOk, sessionsOk, tasksOk, leasesOk, credentialsOk,
    controlFilesOk, repositoryOk.
  rewrite !andb_true_iff, !rows_all, negb_true_iff. intros Hall. destruct_and! Hall.
  split; try done; try (by apply rowsOk_inv). by apply fails_None.
Qed.

Lemma valid_rows `{Countable K} {V E} (id : V → K) (validate : V → option E) (ok : V → bool) rows :
  keyed_by id rows → map_Forall (λ _ v, negb (fails (validate v)) && ok v = true) rows →
  table id validate rows.
Proof.
  intros Hk Hv. split; [done|]. intros i v Hrow.
  specialize (Hv i v Hrow). simpl in Hv. by apply andb_true_iff in Hv as [Hv%negb_true_iff%fails_None _].
Qed.

Lemma loads_scopes_bound snapshot st : loads snapshot st → scopes_bound st.
Proof.
  intros Hl key Hkind [scope Hscope].
  assert (Hdiffer : ∀ a b : string, (a != b) = false → a = b)
    by (intros a b Hd; by apply negb_decide_false in Hd).
  apply (index_once_Some _ _ _ _ Hdiffer (ld_agents _ _ Hl)). right.
  unfold agentScopeEntries. apply elem_omap_rows.
  exists key, scope. rewrite Hkind. rewrite (ld_state _ _ Hl) in Hscope. done.
Qed.

Lemma tables_owners st : tables st → owners_open st.
Proof.
  intros Ht i t Hrow Hc. destruct (tb_tasks _ Ht) as [_ Hv].
  specialize (Hv i t Hrow). simpl in Hv. apply andb_true_iff in Hv as [_ Hr].
  unfold validateTaskReferences in Hr. rewrite !andb_true_iff in Hr. destruct Hr as [[_ Ho] _].
  apply orb_true_iff in Ho as [Ho|Ho]; [unfold claimed in Hc; by rewrite Ho in Hc|].
  apply andb_true_iff in Ho as [_ Ho].
  destruct (agentSessions st !! _) as [session|] eqn:Hs; [|done].
  apply andb_true_iff in Ho as [Hd%bool_decide_eq_true Hst]. exists session. by unfold openSession.
Qed.

Lemma tables_holders st : tables st → holders_open st.
Proof.
  intros Ht i l Hrow Hc. destruct (tb_leases _ Ht) as [_ Hv].
  specialize (Hv i l Hrow). simpl in Hv. apply andb_true_iff in Hv as [_ Hr].
  unfold validateLeaseReferences in Hr. rewrite !andb_true_iff in Hr. destruct Hr as [[_ Ho] _].
  destruct (agentSessions st !! _) as [session|] eqn:Hs; [|done].
  rewrite !andb_true_iff in Ho. destruct Ho as [[[_ Hd%bool_decide_eq_true] _] Hst].
  unfold leased in Hc. rewrite Hc in Hst. exists session. unfold openSession. by destruct (_ == _).
Qed.

Lemma tables_plans st :
  tables st →
  chains_end Plan.supersedes (planRevisions st) ∧ chains_end Memory.supersedes (memoryRecords st).
Proof.
  intros Ht. pose proof (tb_plans _ Ht) as Hp. unfold planMemoryOk in Hp.
  rewrite !andb_true_iff, !rows_all in Hp.
  destruct Hp as [[[[[[_ Hprior] Hplans] _] _] Hpred] Hmemory].
  split; (split; [|intros x; by apply validateCycles_ends]); intros i v Hrow Hne.
  - specialize (Hprior i v Hrow). simpl in Hprior.
    apply orb_true_iff in Hprior as [?%bool_decide_eq_true|?%present_Some]; done.
  - specialize (Hpred i v Hrow). unfold recordPredecessorOk in Hpred.
    apply orb_true_iff in Hpred as [?%bool_decide_eq_true|Hm]; [done|].
    by destruct (memoryRecords st !! _).
Qed.

Lemma loads_successors snapshot st :
  loads snapshot st → successors_exact (memoryRecords st) (memorySuccessors st).
Proof.
  intros Hl p id.
  rewrite (index_once_Some _ _ _ _ (λ _ _ Hf, False_ind _ (diff_true_false Hf)) (ld_successors _ _ Hl)).
  rewrite lookup_empty. unfold successorEntries. rewrite elem_omap_rows, (ld_state _ _ Hl). simpl.
  split.
  - intros [|(k & r & Hrow & Hf)]; [done|]. case_bool_decide as Hs; [done|]. simplify_eq. eauto.
  - intros (Hp & r & Hrow & Hs). right. exists id, r. rewrite Hs, bool_decide_false by done. done.
Qed.

Lemma bounds_within st : validateDerivedBounds st = None → within_policy st.
Proof.
  unfold validateDerivedBounds, within_policy. intros Hb. chain_inv Hb.
  by destruct (policyUseViolation _ _ _).
Qed.

Lemma NewState_sound_state snapshot st : NewState snapshot = inr st → sound st.
Proof.
  intros Hl%NewState_loads. pose proof (tablesOk_inv _ (ld_tables _ _ Hl)) as Ht.
  pose proof (ld_header _ _ Hl) as Hh. unfold headerOk in Hh. rewrite !andb_true_iff in Hh.
  assert (Hleases : table Lease.ID Lease.Validate (leases st)).
  { eapply valid_rows; apply (tb_leases _ Ht). }
  assert (Hclaims : claims_indexed st).
  { destruct (tb_tasks _ Ht) as [Hk _]. rewrite (ld_state _ _ Hl) in Hk |- *.
    split; by apply claimIndex_indexes. }
  assert (Hindexed : leases_indexed st).
  { pose proof (table_keyed _ _ _ Hleases) as Hk. rewrite (ld_state _ _ Hl) in Hk |- *.
    by apply leaseIndex_indexed. }
  split.
  - rewrite (ld_state _ _ Hl). simpl. destruct_and! Hh. unfold Domain.ValidUnsignedInteger in *. bools. lia.
  - split; [|by eapply loads_scopes_bound]. intros k v Hrow.
    pose proof (tb_scopes _ Ht k v Hrow) as Hv. simpl in Hv. by apply andb_true_iff in Hv as [? _].
  - eapply valid_rows; apply (tb_tasks _ Ht).
  - exact Hclaims.
  - exact Hleases.
  - exact Hindexed.
  - apply active_set_exclusive; [exact Hleases|apply Hindexed|apply Ht].
  - destruct (tb_sessions _ Ht) as [Hk Hv]. split; [done|]. intros i v Hrow.
    specialize (Hv i v Hrow). simpl in Hv. unfold sessionOk in Hv. rewrite !andb_true_iff in Hv.
    destruct Hv as [[[Hv%negb_true_iff%fails_None _] _] _]. done.
  - unfold sessions_counted. rewrite (ld_state _ _ Hl). apply activeSessions_count.
  - by apply tables_owners.
  - by apply tables_holders.
  - by apply tables_plans.
  - by apply tables_plans.
  - by eapply loads_successors.
  - rewrite (ld_state _ _ Hl). simpl. destruct_and! Hh. apply fails_None. by apply negb_true_iff.
  - apply bounds_within, Ht.
  - apply Ht.
Qed.

(** ** Every row of every table *)

(** Each row is valid under its own key, each single row is valid, and what refers
    to the event chain lies on it. *)
Record rows_sound (st : State) : Prop := {
  rs_devices : table Device.ID Device.Validate (devices st);
  rs_counters : table AuditCounter.DeviceID AuditCounter.Validate (auditCounters st);
  rs_voters : VoterSet.Validate (voterSet st) = None ∧
    VoterSet.SessionID (voterSet st) = sessionID st;
  rs_authority : CredentialAuthority.Validate (credentialAuthority st) = None ∧
    CredentialAuthority.SessionID (credentialAuthority st) = sessionID st;
  rs_authorizations : table CredentialAuthorization.PrimaryKey CredentialAuthorization.Validate
    (credentialAuthorizations st);
  rs_revisions : table Plan.id_ Plan.Revision_Validate (planRevisions st);
  rs_current : Plan.Current_Validate (planCurrent st) = None ∧
    Plan.SessionID (planCurrent st) = sessionID st;
  rs_records : table Memory.id_ Memory.Validate (memoryRecords st);
  rs_ref : Publication.CanonicalRef_Validate (canonicalRef st) = None;
  rs_publications : table RepositoryState.publicationID Publication.Validate (publications st);
  rs_files : table ControlFile.ProposalEventID ControlFile.Validate (controlFileProposals st);
  rs_conflicts : table RepositoryState.conflictID Conflict.Validate (mergeConflicts st);
  rs_positions :
    map_Forall (λ _ v, (CredentialAuthorization.AuthorizationChainIndex v ≤ currentChainIndex st)%N)
      (credentialAuthorizations st) ∧
    map_Forall (λ _ v, ControlPath.IsControlledV1 (ControlFile.Path v) = true ∧
      (ControlFile.ChainIndex v ≤ currentChainIndex st)%N) (controlFileProposals st) }.

Lemma table_union `{Countable K} {V E} (id : V → K) (validate : V → option E) pending rows :
  table id validate pending → table id validate rows → table id validate (pending ∪ rows).
Proof.
  intros [Hk Hv] [Hk' Hv']. split; intros k v [Hrow|[_ Hrow]]%lookup_union_Some_raw; eauto.
Qed.

Lemma table_empty `{Countable K} {V E} (id : V → K) (validate : V → option E) : table id validate ∅.
Proof. by split. Qed.

Lemma table_one `{Countable K} {V E} (id : V → K) (validate : V → option E) v :
  validate v = None → table id validate {[id v := v]}.
Proof. intros Hv. split; by apply map_Forall_singleton. Qed.

(** The membership rows are those of a checked topology. *)
Lemma topology_rows st : topology st = true →
  table Device.ID Device.Validate (devices st) ∧
  table AuditCounter.DeviceID AuditCounter.Validate (auditCounters st) ∧
  (VoterSet.Validate (voterSet st) = None ∧ VoterSet.SessionID (voterSet st) = sessionID st) ∧
  CredentialAuthority.Validate (credentialAuthority st) = None ∧
  CredentialAuthority.SessionID (credentialAuthority st) = sessionID st.
Proof.
  unfold topology, MembershipState.validateMembershipTopology. rewrite !andb_true_iff.
  intros Ht. destruct_and! Ht. bools.
  repeat match goal with Hf : fails _ = false |- _ => apply fails_None in Hf end.
  assert (Hrow : ∀ V (ok : string * V → bool) (rows : gmap string V),
    forallb ok (map_to_list rows) = true → ∀ i v, rows !! i = Some v → ok (i, v) = true).
  { intros V ok rows Hall i v Hv%elem_of_map_to_list. rewrite forallb_forall in Hall.
    by apply Hall, list_elem_of_In. }
  split_and!; try done.
  - split; intros i v Hv;
      match goal with Ha : forallb (MembershipState.memberRowOk _) _ = true |- _ =>
        pose proof (Hrow _ _ _ Ha i v Hv) as Hok end;
      unfold MembershipState.memberRowOk in Hok; rewrite !andb_true_iff in Hok; destruct_and! Hok; bools;
      [done|by apply fails_None].
  - split; intros i v Hv;
      match goal with Ha : forallb (MembershipState.counterRowOk _) _ = true |- _ =>
        pose proof (Hrow _ _ _ Ha i v Hv) as Hok end;
      unfold MembershipState.counterRowOk in Hok; rewrite !andb_true_iff in Hok; destruct_and! Hok; bools;
      [done|by apply fails_None].
Qed.

(** *** The pending rows of a change set *)

Lemma credential_pending st changes membership r :
  MembershipState.validateCredentialChanges st changes membership = Some r →
  table CredentialAuthorization.PrimaryKey CredentialAuthorization.Validate r ∧
  map_Forall (λ _ v, CredentialAuthorization.AuthorizationChainIndex v =
                     u64_succ (currentChainIndex st) ∧ CredentialAuthorizations changes ≠ []) r.
Proof.
  unfold MembershipState.validateCredentialChanges.
  destruct (CredentialAuthorizations changes) as [|value [|]]; [| |done].
  { destruct (forallb _ _); [|done]. intros [= <-]. split; [apply table_empty|done]. }
  destruct (_ || _); [done|]. destruct (MembershipState.credentialChangeOk _ _ _) eqn:Hok; [|done].
  intros [= <-]. unfold MembershipState.credentialChangeOk in Hok. rewrite !andb_true_iff in Hok.
  destruct_and! Hok. bools. split; [|by apply map_Forall_singleton].
  apply table_one. by apply fails_None.
Qed.

Lemma file_pending st values r :
  MembershipState.validateControlFileChanges st values = Some r →
  table ControlFile.ProposalEventID ControlFile.Validate r ∧
  map_Forall (λ _ v, ControlPath.IsControlledV1 (ControlFile.Path v) = true ∧
                     ControlFile.ChainIndex v = u64_succ (currentChainIndex st) ∧ values ≠ []) r.
Proof.
  unfold MembershipState.validateControlFileChanges. destruct values as [|value [|]]; [| |done].
  { intros [= <-]. split; [apply table_empty|done]. }
  destruct (_ && _) eqn:Hok; [|done]. intros [= <-].
  unfold MembershipState.validateControlFileProposal in Hok. rewrite !andb_true_iff in Hok.
  destruct_and! Hok. bools. split; [|by apply map_Forall_singleton].
  apply table_one. by apply fails_None.
Qed.

Lemma immutable_pending {A E} (id : A → string) existing (ok : A → bool) (validate : A → option E)
    pending changes r :
  (∀ v, ok v = true → validate v = None) → table id validate pending →
  collectImmutable id existing ok pending changes = Some r → table id validate r.
Proof.
  intros Hok. revert pending. induction changes as [|v changes IH]; intros pending Hp.
  { by intros [= <-]. }
  cbn [collectImmutable]. destruct (_ || _) eqn:Hc; [done|]. apply orb_false_iff in Hc as [_ Hv].
  apply IH. apply (table_by_id id validate [v]); [|done].
  constructor; [|done]. by apply Hok, negb_false_iff.
Qed.

Lemma coordination_pending st changes ids p :
  validatePlanMemoryChanges st changes ids = Some p →
  table Plan.id_ Plan.Revision_Validate (pendingRevisions p) ∧
  table Memory.id_ Memory.Validate (pendingRecords p) ∧
  ∀ next, pendingCurrent p = Some next →
    Plan.Current_Validate next = None ∧ Plan.SessionID next = sessionID st.
Proof.
  unfold validatePlanMemoryChanges. intros Hp. apply bind_Some in Hp as (revisions & Hrev & Hp).
  destruct (_ || _); [done|]. apply bind_Some in Hp as (current & Hcur & Hp).
  apply bind_Some in Hp as (records & Hrec & Hp). destruct (_ || _); [done|]. injection Hp as <-.
  split_and!.
  - refine (immutable_pending _ _ _ _ _ _ _ _ (table_empty _ _) Hrev). intros v Hv.
    unfold validatePlanRevisionRow in Hv. rewrite !andb_true_iff in Hv. destruct_and! Hv. bools.
    by apply fails_None.
  - refine (immutable_pending _ _ _ _ _ _ _ _ (table_empty _ _) Hrec). intros v Hv.
    unfold validateMemoryRow in Hv. rewrite !andb_true_iff in Hv. destruct_and! Hv. bools.
    by apply fails_None.
  - cbn. intros next ->. destruct (PlanCurrent changes) as [|v [|]]; [done| |done].
    destruct (currentChangeOk _ _ _) eqn:Hok; [|done]. injection Hcur as ->.
    unfold currentChangeOk in Hok. rewrite !andb_true_iff in Hok. destruct_and! Hok. bools.
    split; [by apply fails_None|done].
Qed.

Lemma repository_pending st changes r :
  RepositoryState.validateRepositoryChanges st changes = Some r →
  table RepositoryState.publicationID Publication.Validate (RepositoryState.prPublications r) ∧
  table RepositoryState.conflictID Conflict.Validate (RepositoryState.prMergeConflicts r) ∧
  ∀ next, RepositoryState.prCanonicalRef r = Some next → Publication.CanonicalRef_Validate next = None.
Proof.
  unfold RepositoryState.validateRepositoryChanges. destruct (_ || _) eqn:Hlen; [done|].
  apply orb_false_iff in Hlen as [Hlen _]. apply orb_false_iff in Hlen as [Hlen Hconf].
  apply orb_false_iff in Hlen as [_ Hpub].
  intros ([pubs operation] & Hp & (ref & Href & Hr)%bind_Some)%bind_Some.
  destruct (negb _ || _ || _) eqn:Hc; [done|]. apply orb_false_iff in Hc as [Hc _].
  apply orb_false_iff in Hc as [Hc%negb_false_iff _].
  assert (RepositoryState.prPublications r = pubs ∧ RepositoryState.prCanonicalRef r = ref ∧
    RepositoryState.prMergeConflicts r =
      list_to_map ((λ value, (RepositoryState.conflictID value, value)) <$> MergeConflicts changes))
    as (-> & -> & ->).
  { destruct (MergeConflicts changes) as [|value rest]; [by simplify_eq|].
    apply bind_Some in Hr as ([t n] & _ & Hr). by simplify_eq. }
  split_and!.
  - destruct (Publications changes) as [|next [|]]; cbn in Hp, Hpub; [injection Hp as <- _; apply table_empty| |done].
    destruct (fails _) eqn:Hv; [done|]. apply fails_None in Hv.
    assert (pubs = {[RepositoryState.publicationID next := next]}) as ->; [|by apply table_one].
    destruct (publications st !! _); [apply bind_Some in Hp as (op & _ & Hp); by injection Hp|].
    destruct (RepositoryState.publicationBaseline _ _); [by injection Hp|done].
  - destruct (MergeConflicts changes) as [|next [|]]; [apply table_empty| |done].
    cbn in Hc |- *. rewrite andb_true_r in Hc. unfold RepositoryState.conflictChangeOk in Hc.
    apply andb_true_iff in Hc as [Hc%negb_true_iff%fails_None _]. by apply table_one.
  - intros next ->. unfold RepositoryState.canonicalRefChange in Href.
    destruct (CanonicalRefs changes) as [|ref [|]]; [by destruct (_ == _)| |by destruct (_ == _)].
    destruct (Publications changes) as [|? [|]]; [done| |done].
    destruct (_ && _) eqn:Hok in Href; [|done]. injection Href as ->. rewrite !andb_true_iff in Hok.
    destruct Hok as [[[_ Hok] _] _]. unfold RepositoryState.validateCanonicalRefTransition in Hok.
    rewrite !andb_true_iff in Hok. destruct_and! Hok. bools. by apply fails_None.
Qed.

(** *** Kept *)

(** A row that names the next position of the event chain takes it. *)
Lemma next_position st changes st' :
  Apply st changes = inr st' → sound st →
  CredentialAuthorizations changes ≠ [] ∨ ControlFileProposals changes ≠ [] →
  u64_succ (currentChainIndex st) = currentChainIndex st'.
Proof.
  intros Ha Hs Hrows. pose proof (Apply_indexes _ _ _ Ha (sound_indexes _ Hs)) as (_ & -> & _).
  apply Apply_inv in Ha as (p & Hck & _). pose proof (ck_indexes _ _ _ Hck) as Hi.
  pose proof (sound_indexes _ Hs). unfold indexesOk in Hi. apply andb_true_iff in Hi as [_ Hi].
  destruct (AdvancesEventChain changes).
  - apply andb_true_iff in Hi as [Hi%negb_true_iff%N.eqb_neq _].
    apply u64_succ_small. unfold Domain.MaxSafeInteger, u64_modulus in *. lia.
  - unfold StateChanges.changesHaveDomainMutations, MembershipState.hasNonAuditCounterDomainChanges in Hi.
    rewrite negb_true_iff, !orb_false_iff in Hi.
    destruct_and! Hi. destruct Hrows as [Hne|Hne]; [destruct (CredentialAuthorizations changes)|
      destruct (ControlFileProposals changes)]; done.
Qed.

Lemma Apply_rows_sound st changes st' :
  Apply st changes = inr st' → sound st → rows_sound st → rows_sound st'.
Proof.
  intros Ha Hs Hrows. pose proof (Apply_sound _ _ _ Ha Hs) as Hs'.
  pose proof (topology_rows _ (sound_topology _ Hs')) as (Hd & Hc & Hv & Hau).
  pose proof (Apply_indexes _ _ _ Ha (sound_indexes _ Hs)) as (_ & Hchain & _).
  pose proof Ha as (p & Hck & Heq)%Apply_inv.
  destruct (credential_pending _ _ _ _ (ck_credentials _ _ _ Hck)) as [Hcr Hcx].
  destruct (file_pending _ _ _ (ck_files _ _ _ Hck)) as [Hfi Hfx].
  destruct (repository_pending _ _ _ (ck_repository _ _ _ Hck)) as (Hpu & Hco & Href).
  destruct (ck_rows _ _ _ Hck) as (scopes & sessions & taskRows & _ & _ & _ & _ & Hpm & _).
  destruct (coordination_pending _ _ _ _ Hpm) as (Hre & Hme & Hcu).
  assert (Hsession : sessionID st' = sessionID st) by by rewrite Heq.
  destruct Hrows as [_ _ _ _ Rau Rre Rcu Rme Rref Rpu Rfi Rco [Rax Rfx]].
  split; try done.
  - rewrite Heq. by apply table_union.
  - rewrite Heq. by apply table_union.
  - rewrite Hsession, Heq. cbn. destruct (pendingCurrent _) as [next|]; [by apply Hcu|done].
  - rewrite Heq. by apply table_union.
  - rewrite Heq. cbn. destruct (RepositoryState.prCanonicalRef _) as [next|]; [by apply Href|done].
  - rewrite Heq. by apply table_union.
  - rewrite Heq. by apply table_union.
  - rewrite Heq. by apply table_union.
  - pose proof (next_position _ _ _ Ha Hs) as Hnext.
    assert (credentialAuthorizations st' = pcCredentials p ∪ credentialAuthorizations st) as -> by by rewrite Heq.
    assert (controlFileProposals st' = pcControlFiles p ∪ controlFileProposals st) as -> by by rewrite Heq.
    split.
    + intros k v [Hv'|[_ Hv']]%lookup_union_Some_raw.
      * destruct (Hcx _ _ Hv') as [-> Hne]. rewrite Hnext by auto. done.
      * specialize (Rax _ _ Hv'). cbn in Rax. lia.
    + intros k v [Hv'|[_ Hv']]%lookup_union_Some_raw.
      * destruct (Hfx _ _ Hv') as (Hp & -> & Hne). rewrite Hnext by auto. done.
      * destruct (Rfx _ _ Hv') as [Hp Hle]. split; [done|lia].
Qed.

Lemma reaches_rows_sound st st' : sound st → rows_sound st → reaches st st' → sound st' ∧ rows_sound st'.
Proof.
  intros Hs Hr. apply (reaches_keeps (λ s, sound s ∧ rows_sound s)); [|done].
  intros a b changes Ha [? ?]. split; [by eapply Apply_sound|by eapply Apply_rows_sound].
Qed.

Lemma checked_rows `{Countable K} {V E} (id : V → K) (validate : V → option E) (ok : V → bool) rows :
  (∀ v, ok v = true → validate v = None) →
  keyed_by id rows → map_Forall (λ _ v, ok v = true) rows → table id validate rows.
Proof. intros Hok Hk Hv. split; [done|]. intros k v Hrow. by apply Hok, (Hv k). Qed.

Lemma NewState_rows_sound snapshot st : NewState snapshot = inr st → rows_sound st.
Proof.
  intros Hl%NewState_loads. pose proof (tablesOk_inv _ (ld_tables _ _ Hl)) as Ht.
  pose proof (ld_header _ _ Hl) as Hh. unfold headerOk in Hh. rewrite !andb_true_iff in Hh.
  pose proof (topology_rows _ (tb_topology _ Ht)) as (Hd & Hc & Hv & Hau).
  destruct (tb_authorizations _ Ht) as [Ka Va], (tb_files _ Ht) as [Kf Vf],
    (tb_publications _ Ht) as [Kp Vp], (tb_conflicts _ Ht) as [Kc Vc].
  pose proof (tb_plans _ Ht) as Hp. unfold planMemoryOk in Hp. rewrite !andb_true_iff in Hp.
  destruct Hp as [[[[[[[Kr Vr]%rowsOk_inv _] _] Hcur] [Km Vm]%rowsOk_inv] _] _].
  assert (Hfirst : ∀ E (e : option E) b, negb (fails e) && b = true → e = None).
  { intros E e b [He%negb_true_iff%fails_None _]%andb_true_iff. done. }
  split; try done.
  - eapply checked_rows; [|exact Ka|exact Va]. intros v Hok. exact (Hfirst _ _ _ Hok).
  - eapply checked_rows; [|exact Kr|exact Vr]. intros v [Hok _]%andb_true_iff. exact (Hfirst _ _ _ Hok).
  - unfold validateCurrentPlanRow in Hcur. rewrite !andb_true_iff in Hcur. destruct_and! Hcur. bools.
    split; [by apply fails_None|done].
  - eapply checked_rows; [|exact Km|exact Vm]. intros v Hok. exact (Hfirst _ _ _ Hok).
  - rewrite (ld_state _ _ Hl). cbn. destruct_and! Hh. by apply fails_None, negb_true_iff.
  - eapply checked_rows; [|exact Kp|exact Vp]. intros v Hok. exact (Hfirst _ _ _ Hok).
  - eapply checked_rows; [|exact Kf|exact Vf]. intros v [Hok _]%andb_true_iff.
    unfold MembershipState.validateControlFileProposal in Hok. rewrite !andb_true_iff in Hok.
    destruct Hok as [[[Hok _] _] _]. by apply negb_true_iff, fails_None in Hok.
  - eapply checked_rows; [|exact Kc|exact Vc]. intros v Hok. exact (Hfirst _ _ _ Hok).
  - split; intros k v Hrow.
    + specialize (Va _ _ Hrow). cbn in Va. unfold authorizationOk in Va.
      apply andb_true_iff in Va as [_ Va]. destruct (devices st !! _); [|done].
      rewrite !andb_true_iff in Va. destruct_and! Va. bools. lia.
    + specialize (Vf _ _ Hrow). cbn in Vf. unfold MembershipState.validateControlFileProposal in Vf.
      rewrite !andb_true_iff in Vf. destruct_and! Vf. bools. done.
Qed.

(** C1: Whatever snapshot a node starts from and whatever events it then
    applies, its committed state is sound. Every row of every table is valid and
    under its own key (devices, counters, authorizations, sessions, tasks, plan
    revisions, memory records, leases, publications, control-file proposals,
    conflicts, origin scopes), and so are the single rows (voter set, authority,
    current plan, policy, canonical ref). Authorizations and control-file proposals
    name positions of the event chain so far; only controlled paths are proposed.
    The claim and lease indexes, the active session count and the memory
    successors describe the tables exactly; an agent session is bound to one
    device; active leases reserve disjoint resources; every claimed task and
    active lease belongs to a session open on the owner's device; supersession
    chains of plans and memory end; the rows are within the committed policy; the
    membership topology holds. *)
Theorem loaded_sound snapshot st st' :
  NewState snapshot = inr st → reaches st st' → sound st' ∧ rows_sound st'.
Proof.
  intros Hl. apply reaches_rows_sound; [by eapply NewState_sound_state|by eapply NewState_rows_sound].
Qed.


(** The rows of a committed state: what a later [NewState] is given. *)
Definition snapshot_of (state : State) : Snapshot :=
  mkSnapshot (sessionID state) (workspaceID state) (recoveryGeneration state)
    (recoveryPublicKey state) (currentChainIndex state) (currentResultIndex state)
    (originScopes state) (auditCounters state) (devices state) (voterSet state)
    (credentialAuthority state) (credentialAuthorizations state) (agentSessions state)
    (tasks state) (planRevisions state) (planCurrent state) (memoryRecords state)
    (leases state) (sessionPolicy state) (canonicalRef state) (publications state)
    (controlFileProposals state) (mergeConflicts state).


End Lib.

(** ** Witness *)

Import Fixtures AdmissionProofs.
#[local] Existing Instances norm crypto jcs.

(** The state [ready], with a canonical ref, stopped and loaded again. *)
Definition seed : Snapshot := snapshot_of (with_repository (ref_of (oid "a") 1) [] [] ready).
Definition reloaded : State := match NewState seed with inr st => st | inl _ => ready end.

Lemma seed_loads : NewState seed = inr reloaded.
Proof.
  assert (Hok : match NewState seed with inr _ => true | inl _ => false end = true) by by vm_compute.
  unfold reloaded. by destruct (NewState seed).
Qed.

Lemma loaded_sound_witness :
  sound (after reloaded claim_event) ∧
  claimsByAgent (after reloaded claim_event) !! agent_id = Some [task_id].
Proof.
  split; [|by vm_compute]. refine (proj1 (loaded_sound seed reloaded _ seed_loads _)).
  apply rtc_once, step_after; by vm_compute.
Defined.

End LoadProofs.
