(* ===== verification/PeerAdmission.v ===== *)
(** * Package internal/peerauth: who may connect

    [Module PeerAdmission]: the immutable admission snapshot of the applied
    state (snapshot.go), rebuilt from the tables or advanced by one outcome,
    and the verifiers of the pairing, consensus and content planes
    (verifier.go) over the parsed certificates of internal/transport
    (certificate.go). A snapshot that exists is valid, so the tests for nil
    and invalid receivers have no counterpart; instants are nanoseconds. *)

From stdpp Require Import base gmap strings list sorting.
From Stdlib Require Import ZArith NArith Lia.
From S2P Require Import Prelude.
From S2P Require Import GoLib.
From S2P Require Import CodecLayer.
From S2P Require Import DomainValues.
From S2P Require Import DeviceEntity.
From S2P Require Import PolicyEntity.
From S2P Require Import CredentialEntity.

(** ** Certificates *)

Module Certificate.

Definition ContentClockSkew : Z := 120000000000.

Record IdentityBinding := mkIdentityBinding {
  ISessionID : string;
  IRecoveryGeneration : N;
  IDeviceID : string }.

Record ContentBinding := mkContentBinding {
  CSessionID : string;
  CDeviceID : string;
  CEpoch : N;
  CAuthorizationChainIndex : N }.

#[global] Instance ContentBinding_eq_dec : EqDecision ContentBinding.
Proof. solve_decision. Defined.

(** [Leaf] tells whether the certificate was parsed. *)
Record IdentityCertificate := mkIdentityCertificate {
  IBinding : IdentityBinding;
  IPublicKey : list N;
  ILeaf : bool }.

Record ContentCertificate := mkContentCertificate {
  CBinding : ContentBinding;
  CPublicKey : list N;
  CKeyDigest : list N;
  CNotBefore : Z;
  CNotAfter : Z;
  CLeaf : bool }.

Inductive Error := ErrCertificateBinding | ErrCertificateNotCurrent.

Definition zero_time : Z := Domain.unix_nano (Domain.mkCivil 1 1 1 0 0 0 0).

Definition VerifyLineage (certificate : IdentityCertificate) (sessionID : string)
    (recoveryGeneration : N) : option Error :=
  refuse ErrCertificateBinding
    when (negb (ILeaf certificate) || negb (Domain.UUIDv7_Valid sessionID) ||
          negb (Domain.ValidUnsignedInteger recoveryGeneration) ||
          (ISessionID (IBinding certificate) != sessionID) ||
          negb (IRecoveryGeneration (IBinding certificate) =? recoveryGeneration)%N) ;;
  None.

Definition VerifyIdentity (certificate : IdentityCertificate) (sessionID : string)
    (recoveryGeneration : N) (deviceID : string) (identityPublicKey : list N) : option Error :=
  check VerifyLineage certificate sessionID recoveryGeneration ;;
  refuse ErrCertificateBinding
    when (negb (Domain.DeviceID_Valid deviceID) ||
          negb (llen identityPublicKey =? Device.PublicKeySize)%N ||
          (IDeviceID (IBinding certificate) != deviceID) ||
          (IPublicKey certificate != identityPublicKey)) ;;
  None.

Section Crypto.
Context `{CryptoLib}.
Definition VerifyAuthorization (certificate : ContentCertificate) (authorization : CredentialAuthorization.Authorization)
    (now : Z) : option Error :=
  refuse ErrCertificateBinding when (negb (CLeaf certificate) || (now =? zero_time)%Z) ;;
  refuse ErrCertificateBinding when (CredentialAuthority.is_set (CredentialAuthorization.Validate authorization)) ;;
  let want := mkContentBinding (CredentialAuthorization.SessionID authorization) (CredentialAuthorization.DeviceID authorization)
                (CredentialAuthorization.Epoch authorization) (CredentialAuthorization.AuthorizationChainIndex authorization) in
  let notBefore := CredentialAuthorization.time_of (CredentialAuthorization.NotBefore authorization) in
  let notAfter := (notBefore + CredentialAuthorization.seconds (CredentialAuthorization.AValiditySeconds authorization))%Z in
  refuse ErrCertificateBinding
    when ((CBinding certificate != want) ||
          (CPublicKey certificate != CredentialAuthorization.EpochPublicKey authorization) ||
          (CKeyDigest certificate != CredentialAuthorization.KeyDigest authorization) ||
          negb (CNotBefore certificate =? notBefore)%Z ||
          negb (CNotAfter certificate =? notAfter)%Z) ;;
  refuse ErrCertificateNotCurrent
    when ((now + ContentClockSkew <? notBefore)%Z || negb (now <? notAfter)%Z) ;;
  None.

Definition CloseAfter (certificate : ContentCertificate) (now : Z) : Error + Z :=
  let maximum := CredentialAuthorization.seconds CredentialAuthorization.ValiditySeconds in
  if negb (CLeaf certificate) || (now =? zero_time)%Z ||
     negb (CNotAfter certificate - CNotBefore certificate =? maximum)%Z
  then inl ErrCertificateBinding
  else if (now + ContentClockSkew <? CNotBefore certificate)%Z ||
          negb (now <? CNotAfter certificate)%Z
  then inl ErrCertificateNotCurrent
  else inr (Z.min (CNotAfter certificate - now) maximum)%Z.
End Crypto.

End Certificate.

Module PeerAdmission.

Import Certificate.

(** ** snapshot.go *)

Definition authorization_table : Type :=
  gmap CredentialAuthorization.Key CredentialAuthorization.Authorization.

Record SnapshotInput := mkSnapshotInput {
  InSessionID : string;
  InRecoveryGeneration : N;
  InAppliedChainIndex : N;
  InDevices : gmap string Device.Device;
  InAuditCounters : gmap string AuditCounter.Counter;
  InCredentialAuthority : CredentialAuthority.Authority;
  InCredentialAuthorizations : authorization_table }.

Record Changes := mkChanges {
  ChAdvancesEventChain : bool;
  ChDevices : list Device.Device;
  ChAuditCounters : list AuditCounter.Counter;
  ChCredentialAuthority : list CredentialAuthority.Authority;
  ChCredentialAuthorizations : list CredentialAuthorization.Authorization }.

Record Snapshot := mkSnapshot {
  sessionID : string;
  recoveryGeneration : N;
  appliedChainIndex : N;
  devices : gmap string Device.Device;
  credentialEpochs : gmap string N;
  credentialAuthority : CredentialAuthority.Authority;
  authorizations : authorization_table }.

(** Every row of a map. *)
Definition every {K V} `{Countable K} (test : K → V → bool) (rows : gmap K V) : bool :=
  bool_decide (map_Forall (λ k v, test k v = true) rows).

Section Crypto.
Context `{CryptoLib}.

(** The current epoch of a member, or the one before it. *)
Definition retains (session : string) (epochs : gmap string N)
    (authorization : CredentialAuthorization.Authorization) : bool :=
  (CredentialAuthorization.SessionID authorization == session) &&
  match epochs !! CredentialAuthorization.DeviceID authorization with
  | Some current =>
      (CredentialAuthorization.Epoch authorization =? current)%N ||
      (1 <? current)%N && (CredentialAuthorization.Epoch authorization =? current - 1)%N
  | None => false
  end.

Definition retained (session : string) (epochs : gmap string N) (rows : authorization_table)
    : authorization_table :=
  filter (λ row, retains session epochs row.2 = true) rows.

Definition authorizationOk (session : string) (chainIndex : N) (epochs : gmap string N)
    (key : CredentialAuthorization.Key)
    (authorization : CredentialAuthorization.Authorization) : bool :=
  (key == CredentialAuthorization.PrimaryKey authorization) &&
  negb (CredentialAuthority.is_set (CredentialAuthorization.Validate authorization)) &&
  (CredentialAuthorization.AuthorizationChainIndex authorization <=? chainIndex)%N &&
  ((CredentialAuthorization.SessionID authorization != session) ||
   match epochs !! key.1.2 with
   | Some current => (key.2 <=? current)%N
   | None => false
   end).

Definition memberOk (epochs : gmap string N) (id : string) (member : Device.Device) : bool :=
  (id == Device.ID member) &&
  negb (CredentialAuthority.is_set (Device.Validate member)) &&
  match epochs !! id with
  | Some epoch => Domain.ValidUnsignedInteger epoch
  | None => false
  end.

Definition newSnapshot (session : string) (generation chainIndex : N)
    (members : gmap string Device.Device) (epochs : gmap string N)
    (authority : CredentialAuthority.Authority) (rows : authorization_table) : option Snapshot :=
  if negb (Domain.UUIDv7_Valid session) || negb (Domain.ValidUnsignedInteger generation) ||
             negb (Domain.ValidUnsignedInteger chainIndex) || (size members =? 0)%nat ||
             negb (size members =? size epochs)%nat then None else
  if CredentialAuthority.is_set (CredentialAuthority.Validate authority) ||
             (CredentialAuthority.SessionID authority != session) then None else
  if negb (every (memberOk epochs) members) then None else
  if negb (every (λ id _, bool_decide (is_Some (members !! id))) epochs) then None else
  if negb (every (authorizationOk session chainIndex epochs) rows) then None else
  let kept := retained session epochs rows in
  if negb (every (λ id epoch, (epoch =? 0)%N ||
                            bool_decide (is_Some (kept !! (session, id, epoch)))) epochs) then None else
  Some (mkSnapshot session generation chainIndex members epochs authority kept).

Definition counterOk (id : string) (counter : AuditCounter.Counter) : bool :=
  (id == AuditCounter.DeviceID counter) && bool_decide (AuditCounter.Validate counter = None).

Definition epochs_of (counters : gmap string AuditCounter.Counter) : gmap string N :=
  AuditCounter.CredentialEpoch <$> counters.

Definition NewSnapshot (input : SnapshotInput) : option Snapshot :=
  if negb (every counterOk (InAuditCounters input)) ||
     negb (every (λ key row, key == CredentialAuthorization.PrimaryKey row)
             (InCredentialAuthorizations input))
  then None
  else newSnapshot (InSessionID input) (InRecoveryGeneration input) (InAppliedChainIndex input)
         (InDevices input) (epochs_of (InAuditCounters input)) (InCredentialAuthority input)
         (InCredentialAuthorizations input).

(** Rows by their keys; [None] when a key comes twice or a row is refused. *)
Fixpoint written {K V} `{Countable K} (key : V → K) (ok : V → bool) (seen : list K) (rows : list V)
    (table : gmap K V) : option (gmap K V) :=
  match rows with
  | [] => Some table
  | row :: rest =>
      if negb (ok row) || bool_decide (key row ∈ seen) then None
      else written key ok (key row :: seen) rest (<[key row := row]> table)
  end.

Fixpoint writtenEpochs (seen : list string) (rows : list AuditCounter.Counter)
    (table : gmap string N) : option (gmap string N) :=
  match rows with
  | [] => Some table
  | row :: rest =>
      let id := AuditCounter.DeviceID row in
      if bool_decide (AuditCounter.Validate row ≠ None) || bool_decide (id ∈ seen) then None
      else writtenEpochs (id :: seen) rest (<[id := AuditCounter.CredentialEpoch row]> table)
  end.

Definition nothingChanges (changes : Changes) : bool :=
  (ChDevices changes == []) && bool_decide (ChAuditCounters changes = []) &&
  (ChCredentialAuthority changes == []) && (ChCredentialAuthorizations changes == []).

Definition Advance (snapshot : Snapshot) (changes : Changes) : option Snapshot :=
  let exhausted := (appliedChainIndex snapshot =? Domain.MaxSafeInteger)%N in
  if ChAdvancesEventChain changes && exhausted then None
  else if negb (ChAdvancesEventChain changes) && negb (nothingChanges changes) then None
  else
    let chainIndex := if ChAdvancesEventChain changes then u64_succ (appliedChainIndex snapshot)
                      else appliedChainIndex snapshot in
    if nothingChanges changes
    then Some (mkSnapshot (sessionID snapshot) (recoveryGeneration snapshot) chainIndex
                 (devices snapshot) (credentialEpochs snapshot) (credentialAuthority snapshot)
                 (authorizations snapshot))
    else
      members ← written Device.ID (λ _, true) [] (ChDevices changes) (devices snapshot);
      epochs ← writtenEpochs [] (ChAuditCounters changes) (credentialEpochs snapshot);
      authority ← match ChCredentialAuthority changes with
                  | [] => Some (credentialAuthority snapshot)
                  | [authority] => Some authority
                  | _ => None
                  end;
      rows ← written CredentialAuthorization.PrimaryKey (λ _, true) []
               (ChCredentialAuthorizations changes) (authorizations snapshot);
      newSnapshot (sessionID snapshot) (recoveryGeneration snapshot) chainIndex members epochs
        authority rows.

(** ** Reads *)

Definition Lineage (snapshot : Snapshot) : string * N :=
  (sessionID snapshot, recoveryGeneration snapshot).

Definition Member (snapshot : Snapshot) (deviceID : string) : option Device.Device :=
  devices snapshot !! deviceID.

Record RosterMember := mkRosterMember { RDevice : Device.Device; CurrentEpoch : N }.

Definition roster_le (left right : RosterMember) : Prop :=
  String.le (Device.ID (RDevice left)) (Device.ID (RDevice right)).
#[global] Instance roster_le_dec left right : Decision (roster_le left right).
Proof. unfold roster_le. apply _. Defined.

Definition ActiveRoster (snapshot : Snapshot) : option (list RosterMember) :=
  let active := filter (λ row : string * Device.Device,
                          Device.DeviceStatus row.2 = Device.StatusActive)
                  (map_to_list (devices snapshot)) in
  roster ← mapM (λ '(id, member),
                   epoch ← credentialEpochs snapshot !! id;
                   Some (mkRosterMember member epoch)) active;
  if roster is [] then None else Some (merge_sort roster_le roster).

Definition CurrentCredentialEpoch (snapshot : Snapshot) (deviceID : string) : option N :=
  credentialEpochs snapshot !! deviceID.

Definition Authorization (snapshot : Snapshot) (key : CredentialAuthorization.Key)
    : option CredentialAuthorization.Authorization :=
  authorizations snapshot !! key.

(** The only retained row of an epoch with a key digest, and its member. *)
Definition AuthorizationByEpochDigest (snapshot : Snapshot) (epoch : N) (keyDigest : list N)
    : option (CredentialAuthorization.Authorization * Device.Device) :=
  if (epoch <? 1)%N || negb (Domain.ValidUnsignedInteger epoch) then None
  else
    let found := filter (λ row : CredentialAuthorization.Key * CredentialAuthorization.Authorization,
                           row.1.1.1 = sessionID snapshot ∧ row.1.2 = epoch ∧
                           CredentialAuthorization.KeyDigest row.2 = keyDigest)
                   (map_to_list (authorizations snapshot)) in
    match found with
    | [(key, authorization)] =>
        member ← devices snapshot !! key.1.2;
        Some (authorization, member)
    | _ => None
    end.

Definition appliedAuthorization (snapshot : Snapshot) (key : CredentialAuthorization.Key)
    : option CredentialAuthorization.Authorization :=
  authorization ← authorizations snapshot !! key;
  if (CredentialAuthorization.PrimaryKey authorization != key) ||
     (appliedChainIndex snapshot <? CredentialAuthorization.AuthorizationChainIndex authorization)%N ||
     CredentialAuthority.is_set (CredentialAuthorization.Validate authorization)
  then None else Some authorization.

Definition ActiveCredentialAuthorizationAt (snapshot : Snapshot) (deviceID : string) (at_ : Z)
    : option CredentialAuthorization.Authorization :=
  if negb (Domain.DeviceID_Valid deviceID) || (at_ =? zero_time)%Z ||
     negb (Domain.UUIDv7_Valid (sessionID snapshot)) ||
     negb (Domain.ValidUnsignedInteger (appliedChainIndex snapshot)) then None
  else
    member ← devices snapshot !! deviceID;
    if (Device.ID member != deviceID) || (Device.DeviceStatus member != Device.StatusActive) ||
       CredentialAuthority.is_set (Device.Validate member) then None
    else
      epoch ← credentialEpochs snapshot !! deviceID;
      if (epoch =? 0)%N || negb (Domain.ValidUnsignedInteger epoch) then None
      else
        current ← appliedAuthorization snapshot (sessionID snapshot, deviceID, epoch);
        if CredentialAuthorization.ActiveAt current at_ then Some current
        else if (epoch =? 1)%N then None
        else
          previous ← appliedAuthorization snapshot (sessionID snapshot, deviceID, epoch - 1)%N;
          if CredentialAuthorization.ActiveAt previous at_ then Some previous else None.

(** ** verifier.go

    The provider of the latest snapshot is an argument: [None] when it fails
    or has none. *)

Inductive Error :=
  | ErrAdmissionUnavailable | ErrPeerNotAdmitted | ErrPeerNotAuthorized | ErrAdmissionClock.

#[global] Instance Error_eq_dec : EqDecision Error.
Proof. solve_decision. Defined.

Definition current (provider : option Snapshot) : Error + Snapshot :=
  match provider with None => inl ErrAdmissionUnavailable | Some snapshot => inr snapshot end.

Definition fails {E} (result : option E) : bool := CredentialAuthority.is_set result.

Definition VerifyPairingPeer (provider : option Snapshot) (certificate : IdentityCertificate)
    : option Error :=
  match current provider with
  | inl err => Some err
  | inr snapshot =>
      let '(session, generation) := Lineage snapshot in
      refuse ErrPeerNotAdmitted when (fails (VerifyLineage certificate session generation)) ;;
      match Member snapshot (IDeviceID (IBinding certificate)) with
      | None => None
      | Some member =>
          refuse ErrPeerNotAdmitted when (Device.DeviceStatus member == Device.StatusRevoked) ;;
          refuse ErrPeerNotAdmitted
            when (fails (VerifyIdentity certificate session generation (Device.ID member)
                           (Device.IdentityPublicKey member))) ;;
          None
      end
  end.

Definition VerifyConsensusPeer (provider : option Snapshot) (certificate : IdentityCertificate)
    : option Error :=
  match current provider with
  | inl err => Some err
  | inr snapshot =>
      match Member snapshot (IDeviceID (IBinding certificate)) with
      | None => Some ErrPeerNotAdmitted
      | Some member =>
          refuse ErrPeerNotAdmitted when (Device.DeviceStatus member != Device.StatusActive) ;;
          let '(session, generation) := Lineage snapshot in
          refuse ErrPeerNotAdmitted
            when (fails (VerifyIdentity certificate session generation (Device.ID member)
                           (Device.IdentityPublicKey member))) ;;
          None
      end
  end.

Definition VerifyExpectedConsensusPeer (provider : option Snapshot) (expectedDeviceID : string)
    (certificate : IdentityCertificate) : option Error :=
  refuse ErrPeerNotAdmitted
    when (negb (Domain.DeviceID_Valid expectedDeviceID) ||
          (IDeviceID (IBinding certificate) != expectedDeviceID)) ;;
  VerifyConsensusPeer provider certificate.

(** The admitted peer's connection is closed after the result. *)
Definition verifyAppliedContentPeer (snapshot : Snapshot) (certificate : ContentCertificate)
    (now : Z) : Error + Z :=
  match Member snapshot (CDeviceID (CBinding certificate)) with
  | None => inl ErrPeerNotAdmitted
  | Some member =>
      if Device.DeviceStatus member != Device.StatusActive then inl ErrPeerNotAdmitted
      else if CSessionID (CBinding certificate) != sessionID snapshot then inl ErrPeerNotAdmitted
      else match CurrentCredentialEpoch snapshot (Device.ID member) with
      | None => inl ErrPeerNotAdmitted
      | Some currentEpoch =>
          let epoch := CEpoch (CBinding certificate) in
          if (currentEpoch <? epoch)%N || (1 <? currentEpoch - epoch)%N
          then inl ErrPeerNotAdmitted
          else match Authorization snapshot (sessionID snapshot, Device.ID member, epoch) with
          | None => inl ErrPeerNotAdmitted
          | Some authorization =>
              if (appliedChainIndex snapshot <?
                  CredentialAuthorization.AuthorizationChainIndex authorization)%N
              then inl ErrPeerNotAdmitted
              else if fails (VerifyAuthorization certificate authorization now)
              then inl ErrPeerNotAdmitted
              else match CloseAfter certificate now with
              | inl _ => inl ErrPeerNotAdmitted
              | inr closeAfter => inr closeAfter
              end
          end
      end
  end.

Definition VerifyContentPeer (provider : option Snapshot) (now : Z)
    (certificate : ContentCertificate) : Error + Z :=
  match current provider with
  | inl err => inl err
  | inr snapshot =>
      if (now =? zero_time)%Z then inl ErrAdmissionClock
      else verifyAppliedContentPeer snapshot certificate now
  end.

Definition CurrentRole (provider : option Snapshot) (deviceID : string) : Error + Device.Role :=
  match current provider with
  | inl err => inl err
  | inr snapshot =>
      match Member snapshot deviceID with
      | None => inl ErrPeerNotAdmitted
      | Some member =>
          if Device.DeviceStatus member != Device.StatusActive then inl ErrPeerNotAdmitted
          else inr (Device.DeviceRole member)
      end
  end.

Definition RequireOwner (provider : option Snapshot) (deviceID : string) : option Error :=
  match CurrentRole provider deviceID with
  | inl err => Some err
  | inr role => refuse ErrPeerNotAuthorized when (role != Device.RoleOwner) ;; None
  end.

End Crypto.
End PeerAdmission.
