(* ===== verification/PeerProofs.v ===== *)
(** * Theorems of peer admission

    That advancing an admission snapshot by the rows of an outcome is the
    snapshot rebuilt from the new tables, and what an admitted peer is. *)

From stdpp Require Import base gmap strings list.
From Stdlib Require Import ZArith NArith Lia.
From S2P Require Import Prelude.
From S2P Require Import GoLib.
From S2P Require Import CodecLayer.
From S2P Require Import DomainValues.
From S2P Require Import DeviceEntity.
From S2P Require Import PolicyEntity.
From S2P Require Import CredentialEntity.
From S2P Require Import PeerAdmission.
From S2P Require Import Fixtures.

Module PeerProofs.

Import Certificate PeerAdmission.

(** ** Tables written row by row *)

Section Rows.
Context {K V : Type} `{Countable K} (key : V → K).

Definition put (rows : list V) (table : gmap K V) : gmap K V :=
  foldl (λ t row, <[key row := row]> t) table rows.

Lemma put_lookup rows table k :
  put rows table !! k =
    match put rows ∅ !! k with Some row => Some row | None => table !! k end.
Proof.
  unfold put. revert table. induction rows as [|row rows IH] using rev_ind; intros table.
  { simpl. by rewrite lookup_empty. }
  rewrite !foldl_app. simpl. destruct (decide (key row = k)) as [->|Hne].
  - by rewrite !lookup_insert_eq.
  - rewrite !lookup_insert_ne by done. apply IH.
Qed.

Lemma put_some rows table k row :
  put rows table !! k = Some row → table !! k = Some row ∨ row ∈ rows ∧ key row = k.
Proof.
  unfold put. revert table. induction rows as [|r rows IH]; intros table; simpl; [auto|].
  intros [Hr | [Hr Hk]]%IH; [|right; by rewrite elem_of_cons; auto].
  apply lookup_insert_Some in Hr as [[<- <-] | [_ Hr]]; [|by left].
  right. rewrite elem_of_cons. auto.
Qed.

Lemma put_own rows k row : put rows ∅ !! k = Some row → row ∈ rows ∧ key row = k.
Proof. intros [Hr | Hr]%put_some; [by rewrite lookup_empty in Hr|done]. Qed.

Lemma put_elem rows table row :
  NoDup (key <$> rows) → row ∈ rows → put rows table !! key row = Some row.
Proof.
  unfold put. revert table. induction rows as [|r rows IH]; intros table; simpl.
  { intros _ Hin. by apply not_elem_of_nil in Hin. }
  intros [Hr Hnd]%NoDup_cons [-> | Hin]%elem_of_cons; [|by apply IH].
  change (put rows (<[key r := r]> table) !! key r = Some r).
  rewrite put_lookup. destruct (put rows ∅ !! key r) as [r'|] eqn:Hp; [|by rewrite lookup_insert_eq].
  apply put_own in Hp as [Hin Hk]. exfalso. apply Hr. rewrite <- Hk. by apply list_elem_of_fmap_2.
Qed.

(** With distinct keys the rows are refused only by the row test. *)
Lemma written_put ok seen rows table :
  NoDup (key <$> rows) → (∀ row, row ∈ rows → key row ∉ seen) →
  written key ok seen rows table =
    if forallb ok rows then Some (put rows table) else None.
Proof.
  revert seen table. induction rows as [|row rows IH]; intros seen table Hnd Hseen; [done|].
  simpl in Hnd. apply NoDup_cons in Hnd as [Hnew Hnd]. simpl.
  destruct (ok row) eqn:Hok; simpl; [|done].
  rewrite bool_decide_eq_false_2 by (apply Hseen; by left).
  apply IH; [done|]. intros r Hr. rewrite not_elem_of_cons. split.
  - intros Heq. apply Hnew. rewrite <- Heq. by apply list_elem_of_fmap_2.
  - apply Hseen. by right.
Qed.

End Rows.

Lemma every_true {K V} `{Countable K} (test : K → V → bool) (rows : gmap K V) :
  every test rows = true ↔ ∀ k v, rows !! k = Some v → test k v = true.
Proof. unfold every. by rewrite bool_decide_eq_true. Qed.

Lemma every_iff {K V} `{Countable K} (test test' : K → V → bool) (rows rows' : gmap K V) :
  ((∀ k v, rows !! k = Some v → test k v = true) ↔
   (∀ k v, rows' !! k = Some v → test' k v = true)) →
  every test rows = every test' rows'.
Proof. intros Hiff. apply eq_true_iff_eq. by rewrite !every_true. Qed.

Lemma every_put {K V} `{Countable K} (key : V → K) (test : K → V → bool) rows (table : gmap K V) :
  NoDup (key <$> rows) → every test table = true →
  every test (put key rows table) = forallb (λ row, test (key row) row) rows.
Proof.
  intros Hnd Htable. rewrite every_true in Htable. apply eq_true_iff_eq.
  rewrite every_true, forallb_forall. setoid_rewrite <- list_elem_of_In. split.
  - intros Hall row Hrow. apply Hall. by apply put_elem.
  - intros Hall k row [Hr | [Hr <-]]%put_some; [by apply Htable|by apply Hall].
Qed.

(** ** Epochs *)

Lemma epochs_of_put rows table :
  epochs_of (put AuditCounter.DeviceID rows table) =
    foldl (λ t row, <[AuditCounter.DeviceID row := AuditCounter.CredentialEpoch row]> t)
      (epochs_of table) rows.
Proof.
  unfold put, epochs_of. revert table. induction rows as [|row rows IH]; intros table; [done|].
  simpl. rewrite IH. by rewrite fmap_insert.
Qed.

Definition validCounter (row : AuditCounter.Counter) : bool :=
  bool_decide (AuditCounter.Validate row = None).

Lemma writtenEpochs_put seen rows table :
  NoDup (AuditCounter.DeviceID <$> rows) →
  (∀ row, row ∈ rows → AuditCounter.DeviceID row ∉ seen) →
  writtenEpochs seen rows (epochs_of table) =
    if forallb validCounter rows then Some (epochs_of (put AuditCounter.DeviceID rows table))
    else None.
Proof.
  revert seen table. induction rows as [|row rows IH]; intros seen table Hnd Hseen; [done|].
  simpl in Hnd. apply NoDup_cons in Hnd as [Hnew Hnd]. simpl. unfold validCounter at 1.
  destruct (AuditCounter.Validate row) eqn:Hok; simpl; [done|].
  rewrite bool_decide_eq_false_2 by (apply Hseen; by left).
  rewrite <- (IH (AuditCounter.DeviceID row :: seen) (<[AuditCounter.DeviceID row := row]> table)).
  - by unfold epochs_of; rewrite fmap_insert.
  - done.
  - intros r Hr. rewrite not_elem_of_cons. split.
    + intros Heq. apply Hnew. rewrite <- Heq. by apply list_elem_of_fmap_2.
    + apply Hseen. by right.
Qed.

(** ** Advancing is rebuilding *)

Section Crypto.
Context `{CryptoLib}.

Lemma newSnapshot_inv session generation index members epochs authority rows snapshot :
  newSnapshot session generation index members epochs authority rows = Some snapshot →
  snapshot = mkSnapshot session generation index members epochs authority
               (retained session epochs rows) ∧
  every (memberOk epochs) members = true ∧
  every (authorizationOk session index epochs) rows = true ∧
  (index ≤ Domain.MaxSafeInteger)%N.
Proof.
  unfold newSnapshot. intros Hs.
  destruct (negb (Domain.UUIDv7_Valid session) || _ || _ || _ || _) eqn:Hlead; [done|].
  repeat (case_match; [done|]). simplify_eq. rewrite ?negb_false_iff in *.
  split_and!; try done. repeat rewrite orb_false_iff in Hlead.
  destruct Hlead as [[[[_ _] Hindex] _] _]. apply negb_false_iff in Hindex.
  by apply N.leb_le in Hindex.
Qed.

(** The rows of a table count only through their tests and the retained part. *)
Lemma newSnapshot_rows session generation index members epochs authority rows rows' :
  every (authorizationOk session index epochs) rows =
    every (authorizationOk session index epochs) rows' →
  retained session epochs rows = retained session epochs rows' →
  newSnapshot session generation index members epochs authority rows =
    newSnapshot session generation index members epochs authority rows'.
Proof. unfold newSnapshot. by intros -> ->. Qed.

Lemma retained_Some session epochs rows k row :
  retained session epochs rows !! k = Some row ↔
    rows !! k = Some row ∧ retains session epochs row = true.
Proof. apply (map_lookup_filter_Some (λ r, retains session epochs r.2 = true)). Qed.

(** Epochs only grow. *)
Definition grows (old new : gmap string N) : Prop :=
  ∀ id epoch, old !! id = Some epoch → ∃ epoch', new !! id = Some epoch' ∧ (epoch ≤ epoch')%N.

Lemma authorizationOk_later session index index' epochs epochs' k row :
  grows epochs epochs' → (index ≤ index')%N →
  authorizationOk session index epochs k row = true →
  authorizationOk session index' epochs' k row = true.
Proof.
  intros Hgrows Hle. unfold authorizationOk. rewrite !andb_true_iff, !N.leb_le.
  intros [[[-> ->] Hindex] Hepoch]. split_and!; try done; [lia|].
  apply orb_true_iff in Hepoch as [-> | Hepoch]; [done|]. apply orb_true_iff. right.
  destruct (epochs !! k.1.2) as [epoch|] eqn:He; [|done].
  destruct (Hgrows _ _ He) as (epoch' & -> & Hge).
  rewrite N.leb_le in Hepoch |- *. lia.
Qed.

(** A row kept by the new epochs was kept by the old ones. *)
Lemma retains_earlier session index epochs epochs' k row :
  grows epochs epochs' → authorizationOk session index epochs k row = true →
  retains session epochs' row = true → retains session epochs row = true.
Proof.
  intros Hgrows Hok. unfold retains. rewrite !andb_true_iff. intros [Hsession Hkept].
  split; [done|]. unfold authorizationOk in Hok. rewrite !andb_true_iff in Hok.
  destruct Hok as [[[Hkey _] _] Hepoch]. rewrite bool_decide_eq_true in Hkey, Hsession.
  subst k. rewrite Hsession in Hepoch. rewrite bool_decide_eq_true_2 in Hepoch by done. simpl in Hepoch.
  destruct (epochs !! CredentialAuthorization.DeviceID row) as [epoch|] eqn:He; [|done].
  destruct (Hgrows _ _ He) as (epoch' & He' & Hge). rewrite He' in Hkept.
  rewrite N.leb_le in Hepoch.
  rewrite orb_true_iff, andb_true_iff, N.ltb_lt, !N.eqb_eq in Hkept |- *. lia.
Qed.

Section Step.
Context (session : string) (index index' : N) (epochs epochs' : gmap string N).
Context (Hgrows : grows epochs epochs') (Hle : (index ≤ index')%N).
Context (old : authorization_table).
Context (Hold : every (authorizationOk session index epochs) old = true).
Context (rows : list CredentialAuthorization.Authorization).

Lemma retained_put :
  retained session epochs' (put CredentialAuthorization.PrimaryKey rows (retained session epochs old)) =
    retained session epochs' (put CredentialAuthorization.PrimaryKey rows old).
Proof.
  apply map_eq. intros k. apply option_eq. intros row.
  rewrite !retained_Some, (put_lookup _ _ (retained session epochs old)), (put_lookup _ _ old).
  destruct (put CredentialAuthorization.PrimaryKey rows ∅ !! k) as [new|]; [done|].
  rewrite retained_Some. split; [tauto|]. intros [Hrow Hkept]. split_and!; try done.
  rewrite every_true in Hold. eauto using retains_earlier.
Qed.

Lemma old_still_ok : every (authorizationOk session index' epochs') old = true.
Proof.
  rewrite every_true in Hold |- *. intros k row Hrow. eauto using authorizationOk_later.
Qed.

Lemma checked_put :
  NoDup (CredentialAuthorization.PrimaryKey <$> rows) →
  every (authorizationOk session index' epochs')
      (put CredentialAuthorization.PrimaryKey rows (retained session epochs old)) =
    every (authorizationOk session index' epochs') (put CredentialAuthorization.PrimaryKey rows old).
Proof.
  intros Hnd. pose proof old_still_ok as Hok. rewrite !every_put; try done.
  rewrite every_true in Hok |- *. intros k row [Hrow _]%retained_Some. auto.
Qed.

End Step.

Lemma newSnapshot_exhausted session generation index members epochs authority rows :
  (Domain.MaxSafeInteger < index)%N →
  newSnapshot session generation index members epochs authority rows = None.
Proof.
  intros Hindex. unfold newSnapshot, Domain.ValidUnsignedInteger.
  replace (index <=? Domain.MaxSafeInteger)%N with false by (symmetry; by apply N.leb_gt).
  simpl. by rewrite !orb_true_r.
Qed.

(** A later cut of the same tables is a snapshot too. *)
Lemma newSnapshot_later session generation index index' members epochs authority rows snapshot :
  newSnapshot session generation index members epochs authority rows = Some snapshot →
  (index ≤ index' ≤ Domain.MaxSafeInteger)%N →
  newSnapshot session generation index' members epochs authority rows =
    Some (mkSnapshot session generation index' members epochs authority
            (retained session epochs rows)).
Proof.
  intros Hs [Hle Hmax]. pose proof Hs as (_ & _ & Hok & Hbound)%newSnapshot_inv.
  assert (grows epochs epochs) as Hgrows by (intros id epoch He; eauto using N.le_refl).
  pose proof (old_still_ok _ _ _ _ _ Hgrows Hle _ Hok) as Hok'. revert Hs. unfold newSnapshot.
  rewrite Hok, Hok'. unfold Domain.ValidUnsignedInteger.
  rewrite (proj2 (N.leb_le _ _) Hbound), (proj2 (N.leb_le _ _) Hmax).
  repeat (case_match; [done|]). done.
Qed.

(** The input that an outcome leaves: every changed row written to its table. *)
Definition updated (input : SnapshotInput) (changes : Changes) : SnapshotInput :=
  mkSnapshotInput (InSessionID input) (InRecoveryGeneration input)
    (if ChAdvancesEventChain changes then u64_succ (InAppliedChainIndex input)
     else InAppliedChainIndex input)
    (put Device.ID (ChDevices changes) (InDevices input))
    (put AuditCounter.DeviceID (ChAuditCounters changes) (InAuditCounters input))
    (default (InCredentialAuthority input) (head (ChCredentialAuthority changes)))
    (put CredentialAuthorization.PrimaryKey (ChCredentialAuthorizations changes)
       (InCredentialAuthorizations input)).

(** What an outcome's changes satisfy: a key is written once, at most one
    authority is written, a change comes with an event, epochs only grow. *)
Record outcome_changes (input : SnapshotInput) (changes : Changes) : Prop := {
  devices_once : NoDup (Device.ID <$> ChDevices changes);
  counters_once : NoDup (AuditCounter.DeviceID <$> ChAuditCounters changes);
  authorizations_once :
    NoDup (CredentialAuthorization.PrimaryKey <$> ChCredentialAuthorizations changes);
  one_authority : length (ChCredentialAuthority changes) ≤ 1;
  with_event : ChAdvancesEventChain changes = false → nothingChanges changes = true;
  epochs_grow : ∀ row old, row ∈ ChAuditCounters changes →
    InAuditCounters input !! AuditCounter.DeviceID row = Some old →
    (AuditCounter.CredentialEpoch old ≤ AuditCounter.CredentialEpoch row)%N }.

Lemma updated_grows input changes :
  outcome_changes input changes →
  grows (epochs_of (InAuditCounters input)) (epochs_of (InAuditCounters (updated input changes))).
Proof.
  intros Hc id epoch. unfold epochs_of. rewrite !lookup_fmap. simpl.
  destruct (InAuditCounters input !! id) as [old|] eqn:Hold; [|done]. intros [= <-].
  rewrite put_lookup, Hold.
  destruct (put AuditCounter.DeviceID (ChAuditCounters changes) ∅ !! id) as [row|] eqn:Hp.
  - apply put_own in Hp as [Hin <-]. simpl. eauto using epochs_grow.
  - simpl. eauto using N.le_refl.
Qed.

Lemma nothingChanges_nil changes :
  nothingChanges changes = true ↔
    ChDevices changes = [] ∧ ChAuditCounters changes = [] ∧
    ChCredentialAuthority changes = [] ∧ ChCredentialAuthorizations changes = [].
Proof. unfold nothingChanges. rewrite !andb_true_iff, !bool_decide_eq_true. tauto. Qed.

Lemma updated_nothing input changes :
  nothingChanges changes = true →
  updated input changes =
    mkSnapshotInput (InSessionID input) (InRecoveryGeneration input)
      (InAppliedChainIndex (updated input changes)) (InDevices input) (InAuditCounters input)
      (InCredentialAuthority input) (InCredentialAuthorizations input).
Proof. intros (Hd & Hc & Ha & Hr)%nothingChanges_nil. unfold updated. by rewrite Hd, Hc, Ha, Hr. Qed.

Lemma NewSnapshot_inv input snapshot :
  NewSnapshot input = Some snapshot →
  every counterOk (InAuditCounters input) = true ∧
  every (λ key row, key == CredentialAuthorization.PrimaryKey row)
    (InCredentialAuthorizations input) = true ∧
  newSnapshot (InSessionID input) (InRecoveryGeneration input) (InAppliedChainIndex input)
    (InDevices input) (epochs_of (InAuditCounters input)) (InCredentialAuthority input)
    (InCredentialAuthorizations input) = Some snapshot.
Proof.
  unfold NewSnapshot. case_match eqn:Hc; [done|]. intros Hs.
  apply orb_false_iff in Hc as [Hc Hk]. rewrite negb_false_iff in Hc, Hk. auto.
Qed.

(** The checks of NewSnapshot on the updated tables. *)
Lemma updated_counters input changes :
  NoDup (AuditCounter.DeviceID <$> ChAuditCounters changes) →
  every counterOk (InAuditCounters input) = true →
  every counterOk (InAuditCounters (updated input changes)) =
    forallb validCounter (ChAuditCounters changes).
Proof.
  intros Hnd Hold. simpl. rewrite every_put by done. apply eq_true_iff_eq.
  rewrite !forallb_forall. unfold counterOk, validCounter.
  split; intros Hall row Hrow; specialize (Hall row Hrow).
  - by apply andb_true_iff in Hall as [_ ?].
  - by rewrite bool_decide_eq_true_2.
Qed.

Lemma updated_keys input changes :
  every (λ key row, key == CredentialAuthorization.PrimaryKey row)
    (InCredentialAuthorizations input) = true →
  every (λ key row, key == CredentialAuthorization.PrimaryKey row)
    (InCredentialAuthorizations (updated input changes)) = true.
Proof.
  rewrite !every_true. intros Hold k row [Hrow | [_ <-]]%put_some; [by apply Hold|].
  by rewrite bool_decide_eq_true.
Qed.

Lemma updated_index input changes :
  (InAppliedChainIndex input ≤ Domain.MaxSafeInteger)%N →
  ChAdvancesEventChain changes = true →
  InAppliedChainIndex (updated input changes) = (InAppliedChainIndex input + 1)%N.
Proof.
  intros Hmax Hevent. simpl. rewrite Hevent. apply u64_succ_small.
  unfold Domain.MaxSafeInteger, u64_modulus in *. lia.
Qed.

Lemma advance_nothing input changes snapshot :
  NewSnapshot input = Some snapshot → nothingChanges changes = true →
  Advance snapshot changes = NewSnapshot (updated input changes).
Proof.
  intros (Hc & Hk & Hs)%NewSnapshot_inv Hnone.
  pose proof Hs as (-> & _ & _ & Hmax)%newSnapshot_inv.
  unfold Advance. rewrite Hnone, andb_false_r. simpl.
  rewrite (updated_nothing _ _ Hnone). unfold NewSnapshot. cbn [InAuditCounters
    InCredentialAuthorizations InSessionID InRecoveryGeneration InAppliedChainIndex InDevices
    InCredentialAuthority]. rewrite Hc, Hk.
  destruct (ChAdvancesEventChain changes) eqn:Hevent; simpl; rewrite ?Hevent; [|by rewrite Hs].
  pose proof (updated_index _ _ Hmax Hevent) as Hindex. simpl in Hindex. rewrite Hevent in Hindex.
  rewrite Hindex.
  destruct (InAppliedChainIndex input =? Domain.MaxSafeInteger)%N eqn:He.
  - apply N.eqb_eq in He. rewrite newSnapshot_exhausted by lia. done.
  - apply N.eqb_neq in He. rewrite (newSnapshot_later _ _ _ _ _ _ _ _ _ Hs) by lia. done.
Qed.

Lemma advance_changes input changes snapshot :
  NewSnapshot input = Some snapshot → outcome_changes input changes →
  ChAdvancesEventChain changes = true → nothingChanges changes = false →
  Advance snapshot changes = NewSnapshot (updated input changes).
Proof.
  intros (Hc & Hk & Hs)%NewSnapshot_inv Hd Hevent Hsome.
  pose proof Hs as (-> & _ & Hok & Hmax)%newSnapshot_inv.
  pose proof (updated_index _ _ Hmax Hevent) as Hindex.
  pose proof (updated_grows _ _ Hd) as Hgrows. destruct Hd as [Hnd Hnc Hna Hone _ _].
  unfold Advance, NewSnapshot. rewrite Hsome, (updated_counters _ _ Hnc Hc), (updated_keys _ _ Hk).
  rewrite orb_false_r, Hindex, Hevent. simpl in Hindex. rewrite Hevent in Hindex. cbn.
  rewrite Hindex, written_put, writtenEpochs_put, written_put by (done || set_solver).
  assert (∀ (A : Type) (l : list A), forallb (λ _, true) l = true) as Htrue
    by (intros A l; by induction l).
  rewrite !Htrue. simpl.
  destruct (forallb validCounter _); simpl; [|by case_match].
  destruct (InAppliedChainIndex input =? Domain.MaxSafeInteger)%N eqn:He; simpl.
  { apply N.eqb_eq in He. rewrite newSnapshot_exhausted by lia. done. }
  destruct (ChCredentialAuthority changes) as [|authority [|]] eqn:Ha; simpl in *; try lia;
    (apply newSnapshot_rows;
     [eapply (checked_put _ (InAppliedChainIndex input))
     |eapply (retained_put _ (InAppliedChainIndex input))]); eauto; lia.
Qed.

(** C26: the admission snapshot the replica advances in memory after each outcome
    is the one it would rebuild from its tables, so a restarted replica admits
    the same peers: for a snapshot built from an input and the rows of an
    outcome (each key written once, at most one authority, epochs growing),
    [Advance] and [NewSnapshot] of the input with those rows written give the
    same snapshot, or both refuse. *)
Theorem advance_is_rebuild input changes snapshot :
  NewSnapshot input = Some snapshot → outcome_changes input changes →
  Advance snapshot changes = NewSnapshot (updated input changes).
Proof.
  intros Hs Hd. destruct (nothingChanges changes) eqn:Hnone; [by apply advance_nothing|].
  apply advance_changes; try done. destruct (ChAdvancesEventChain changes) eqn:He; [done|].
  by rewrite (with_event _ _ Hd He) in Hnone.
Qed.

(** ** Who is admitted *)





(** ** Revocation *)

Lemma written_elem {K V} `{Countable K} (key : V → K) ok seen rows (table table' : gmap K V) :
  written key ok seen rows table = Some table' →
  (∀ row, row ∈ rows → (key row ∉ seen) ∧ table' !! key row = Some row) ∧
  (∀ k, k ∈ seen → table' !! k = table !! k).
Proof.
  revert seen table. induction rows as [|r rows IH]; intros seen table; simpl.
  { intros [= ->]. split; [|done]. intros row Hin. by apply not_elem_of_nil in Hin. }
  destruct (ok r); simpl; [|done]. case_bool_decide as Hseen; [done|].
  intros [Hrows Hkeep]%IH. split.
  - intros row [-> | Hin]%elem_of_cons.
    + split; [done|]. rewrite Hkeep by (by left). apply lookup_insert_eq.
    + destruct (Hrows _ Hin) as [Hnot ?]. split; [|done]. intros Hk. apply Hnot. by right.
  - intros k Hk. rewrite Hkeep by (by right). apply lookup_insert_ne. intros Heq. by subst.
Qed.

Lemma advance_member snapshot changes snapshot' member :
  Advance snapshot changes = Some snapshot' → member ∈ ChDevices changes →
  Member snapshot' (Device.ID member) = Some member.
Proof.
  unfold Advance. intros Ha Hin. case_match; [done|]. case_match; [done|].
  destruct (nothingChanges changes) eqn:Hnone.
  { apply nothingChanges_nil in Hnone as [Hd _]. rewrite Hd in Hin. by apply not_elem_of_nil in Hin. }
  apply bind_Some in Ha as (members & Hm & Ha). apply bind_Some in Ha as (epochs & _ & Ha).
  apply bind_Some in Ha as (authority & _ & Ha). apply bind_Some in Ha as (rows & _ & Ha).
  apply newSnapshot_inv in Ha as [-> _]. apply written_elem in Hm as [Hrows _].
  unfold Member. simpl. by apply Hrows.
Qed.

(** C28: once an outcome that revokes a device is applied, no plane admits it: a
    pairing, consensus or content certificate that names the device is refused
    whatever its keys, its validity and the local time, and its role is gone. *)
Theorem revoked_peer_refused snapshot changes snapshot' member :
  Advance snapshot changes = Some snapshot' →
  member ∈ ChDevices changes → Device.DeviceStatus member = Device.StatusRevoked →
  (∀ certificate, IDeviceID (IBinding certificate) = Device.ID member →
     VerifyPairingPeer (Some snapshot') certificate = Some ErrPeerNotAdmitted ∧
     VerifyConsensusPeer (Some snapshot') certificate = Some ErrPeerNotAdmitted) ∧
  (∀ certificate now, CDeviceID (CBinding certificate) = Device.ID member → now ≠ zero_time →
     VerifyContentPeer (Some snapshot') now certificate = inl ErrPeerNotAdmitted) ∧
  CurrentRole (Some snapshot') (Device.ID member) = inl ErrPeerNotAdmitted.
Proof.
  intros Ha Hin Hrevoked. pose proof (advance_member _ _ _ _ Ha Hin) as Hm. split_and!.
  - intros certificate Hid. unfold VerifyPairingPeer, VerifyConsensusPeer. simpl.
    rewrite Hid, Hm, Hrevoked. simpl. split; [by case_match|done].
  - intros certificate now Hid Hnow%Z.eqb_neq.
    unfold VerifyContentPeer, verifyAppliedContentPeer. simpl. by rewrite Hnow, Hid, Hm, Hrevoked.
  - unfold CurrentRole. simpl. by rewrite Hm, Hrevoked.
Qed.

End Crypto.

(** ** Witnesses *)

Import Fixtures.

#[local] Existing Instances norm crypto.

(** The authorizations of the member's epochs; the second starts in the overlap. *)
Definition authorization (epoch index : N) (notBefore : string)
    : CredentialAuthorization.Authorization :=
  CredentialAuthorization.mkAuthorization session_id device_id epoch key (digest key)
    CredentialAuthorization.RoleOwner now notBefore CredentialAuthorization.ValiditySeconds 1
    [CredentialAuthorization.mkClockEndorsement device_id (repeat 0%N 64)] (repeat 0%N 64) index.

Definition first_epoch : CredentialAuthorization.Authorization := authorization 1 5 now.
Definition second_epoch : CredentialAuthorization.Authorization :=
  authorization 2 10 "2026-01-02T03:32:05Z".

Definition input : SnapshotInput :=
  mkSnapshotInput session_id 0 9 {[device_id := member]}
    {[device_id := AuditCounter.mkCounter device_id 1 0]} sole_authority
    {[CredentialAuthorization.PrimaryKey first_epoch := first_epoch]}.

Definition snapshot_or (d : option Snapshot) : Snapshot :=
  default (mkSnapshot EmptyString 0 0 ∅ ∅ sole_authority ∅) d.
Definition snapshot : Snapshot := snapshot_or (NewSnapshot input).

Definition revoked : Device.Device :=
  Device.mkDevice device_id Device.RoleOwner key "1.2.3" 1 Device.StatusRevoked 2.

Definition renewal : Changes :=
  mkChanges true [] [AuditCounter.mkCounter device_id 2 0] [] [second_epoch].
Definition revocation : Changes := mkChanges true [revoked] [] [] [].

Definition certificate : ContentCertificate :=
  mkContentCertificate (mkContentBinding session_id device_id 1 5) key (digest key)
    (CredentialAuthorization.time_of now)
    (CredentialAuthorization.time_of now + CredentialAuthorization.seconds 1800)%Z true.

Lemma built d : CredentialAuthority.is_set d = true → d = Some (snapshot_or d).
Proof. by destruct d. Qed.

Lemma snapshot_built : NewSnapshot input = Some snapshot.
Proof. apply built. vm_compute. reflexivity. Qed.

Lemma renewal_changes : outcome_changes input renewal.
Proof.
  split; try done; try (repeat constructor; by apply not_elem_of_nil).
  intros row old Hrow. apply list_elem_of_singleton in Hrow as ->.
  change (InAuditCounters input !! _) with (Some (AuditCounter.mkCounter device_id 1 0)).
  by intros [= <-].
Qed.

Lemma advance_is_rebuild_witness :
  is_Some (Advance snapshot renewal) ∧
  Advance snapshot renewal = NewSnapshot (updated input renewal).
Proof.
  assert (bool_decide (is_Some (Advance snapshot renewal)) = true) as Hsome
    by (vm_compute; reflexivity).
  apply bool_decide_eq_true in Hsome.
  exact (conj Hsome (advance_is_rebuild input renewal snapshot snapshot_built renewal_changes)).
Defined.





Lemma revoked_peer_refused_witness :
  CurrentRole (Some (snapshot_or (Advance snapshot revocation))) (Device.ID revoked) =
    inl ErrPeerNotAdmitted.
Proof.
  assert (Advance snapshot revocation = Some (snapshot_or (Advance snapshot revocation))) as Ha
    by (apply built; vm_compute; reflexivity).
  assert (revoked ∈ ChDevices revocation) as Hin by (left).
  exact (proj2 (proj2 (revoked_peer_refused snapshot revocation _ revoked Ha Hin eq_refl))).
Defined.

End PeerProofs.
