(* ===== verification/ProjectionRows.v ===== *)
(** * Package internal/store: the projection rows

    [Module Projections]: the rows of the seventeen covered tables
    (projections.go), their registry and their two encodings: from the values
    of a validated write and from the columns that SQLite returns
    (projection_commitments.go). An SQL row is its list of columns; a value
    bound to a statement is a [Cell], and a column that SQLite stores a
    [Column]. Wrapped error messages keep the table and the row's index. *)

From stdpp Require Import base gmap strings list.
From Stdlib Require Import ZArith NArith Lia.
From S2P Require Import Prelude.
From S2P Require Import GoLib.
From S2P Require Import GoJson.
From S2P Require Import CodecLayer.
From S2P Require Import GoMarshal.
From S2P Require Import DomainValues.
From S2P Require Import TaskEntity.
From S2P Require Import LeaseEntity.
From S2P Require Import AgentSessionEntity.
From S2P Require Import VoterSetEntity.
From S2P Require Import DeviceEntity.
From S2P Require Import PlanMemoryEntity.
From S2P Require Import PolicyEntity.
From S2P Require Import ConflictEntity.
From S2P Require Import PublicationEntity.
From S2P Require Import CredentialEntity.
From S2P Require Import ChainCommitments.

Module Projections.

(** ** The texts of the closed value sets: [string(value)] *)

Definition Task_State_text (state : Task.State) : string :=
  match state with
  | Task.StateAbsent => EmptyString
  | Task.StateBacklog => "backlog" | Task.StateReady => "ready" | Task.StateClaimed => "claimed"
  | Task.StateInProgress => "in_progress" | Task.StateBlocked => "blocked"
  | Task.StateDone => "done" | Task.StateCancelled => "cancelled"
  | Task.StateUnknown text => text
  end.

Definition Task_ReleaseReason_text (reason : Task.ReleaseReason) : string :=
  match reason with
  | Task.ReleaseReasonAbsent => EmptyString
  | Task.ReleaseVoluntary => "voluntary" | Task.ReleaseForced => "forced"
  | Task.ReleaseSessionEnd => "session_ended" | Task.ReleaseRecovery => "recovery"
  | Task.ReleaseReasonUnknown text => text
  end.

Definition Memory_Scope_text (scope : Memory.Scope) : string :=
  match scope with
  | Memory.ScopeSession => "session" | Memory.ScopeTask => "task"
  | Memory.ScopeUnknown text => text
  end.

Definition Lease_Scope_text (scope : Lease.Scope) : string :=
  match scope with
  | Lease.ScopeTask => "task" | Lease.ScopePath => "path" | Lease.ScopeUnknown text => text
  end.

Definition Lease_Status_text (status : Lease.Status) : string :=
  match status with
  | Lease.StatusAbsent => EmptyString
  | Lease.StatusActive => "active" | Lease.StatusReleased => "released"
  | Lease.StatusUnknown text => text
  end.

Definition Lease_ReleaseReason_text (reason : Lease.ReleaseReason) : string :=
  match reason with
  | Lease.ReleaseReasonAbsent => EmptyString
  | Lease.ReleaseVoluntary => "voluntary" | Lease.ReleaseForced => "forced"
  | Lease.ReleaseExpired => "expired" | Lease.ReleaseSessionEnded => "session_ended"
  | Lease.ReleaseRecovery => "recovery" | Lease.ReleaseReasonUnknown text => text
  end.

Definition Device_Role_text (role : Device.Role) : string :=
  match role with
  | Device.RoleOwner => "owner" | Device.RoleEditor => "editor" | Device.RoleUnknown text => text
  end.

Definition Device_Status_text (status : Device.Status) : string :=
  match status with
  | Device.StatusAbsent => EmptyString
  | Device.StatusActive => "active"
  | Device.StatusRequiresReadmission => "requires_readmission"
  | Device.StatusRevoked => "revoked"
  | Device.StatusUnknown text => text
  end.

Definition ActivationSource_text (source : CredentialAuthority.ActivationSource) : string :=
  match source with
  | CredentialAuthority.ActivationGenesis => "genesis"
  | CredentialAuthority.ActivationHandoff => "handoff"
  | CredentialAuthority.ActivationUnknown text => text
  end.

Definition ClientKind_text (kind : AgentSession.ClientKind) : string :=
  match kind with
  | AgentSession.ClientKindCodex => "codex" | AgentSession.ClientKindClaude => "claude"
  | AgentSession.ClientKindOther => "other" | AgentSession.ClientKindUnknown text => text
  end.

Definition AgentSession_State_text (state : AgentSession.State) : string :=
  match state with
  | AgentSession.StateAbsent => EmptyString
  | AgentSession.StateStarting => "starting" | AgentSession.StateIdle => "idle"
  | AgentSession.StateClaimed => "claimed" | AgentSession.StateWorking => "working"
  | AgentSession.StateBlocked => "blocked" | AgentSession.StateDisconnected => "disconnected"
  | AgentSession.StateEnded => "ended" | AgentSession.StateUnknown text => text
  end.

Definition EndReason_text (reason : AgentSession.EndReason) : string :=
  match reason with
  | AgentSession.EndReasonAbsent => EmptyString
  | AgentSession.EndReasonClean => "clean"
  | AgentSession.EndReasonDisconnectTimeout => "disconnect_timeout"
  | AgentSession.EndReasonOperator => "operator" | AgentSession.EndReasonCrashReap => "crash_reap"
  | AgentSession.EndReasonRecovery => "recovery" | AgentSession.EndReasonUnknown text => text
  end.

Definition Publication_State_text (state : Publication.State) : string :=
  match state with
  | Publication.StateProposed => "proposed" | Publication.StateApproved => "approved"
  | Publication.StateApplied => "applied" | Publication.StateRejected => "rejected"
  | Publication.StateWithdrawn => "withdrawn" | Publication.StateUnknown text => text
  end.

Definition TerminalSource_text (source : Publication.TerminalSource) : string :=
  match source with
  | Publication.TerminalSourceAbsent => EmptyString
  | Publication.TerminalSourceReview => "review" | Publication.TerminalSourceApply => "apply"
  | Publication.TerminalSourceWithdraw => "withdraw"
  | Publication.TerminalSourceRecovery => "recovery"
  | Publication.TerminalSourceUnknown text => text
  end.

Definition ReviewVerdict_text (verdict : Publication.ReviewVerdict) : string :=
  match verdict with
  | Publication.ReviewVerdictAbsent => EmptyString
  | Publication.ReviewVerdictApprove => "approve" | Publication.ReviewVerdictReject => "reject"
  | Publication.ReviewVerdictUnknown text => text
  end.

Definition ReviewActorType_text (actor : Publication.ReviewActorType) : string :=
  match actor with
  | Publication.ReviewActorAbsent => EmptyString
  | Publication.ReviewActorAgent => "agent" | Publication.ReviewActorHuman => "human"
  | Publication.ReviewActorUnknown text => text
  end.

Definition MergeKind_text (kind : Conflict.MergeKind) : string :=
  match kind with
  | Conflict.MergeKindMerge => "merge" | Conflict.MergeKindRebase => "rebase"
  | Conflict.MergeKindUnknown text => text
  end.

Definition Conflict_Status_text (status : Conflict.Status) : string :=
  match status with
  | Conflict.StatusUnresolved => "unresolved" | Conflict.StatusResolved => "resolved"
  | Conflict.StatusUnknown text => text
  end.

Definition ResolutionKind_text (kind : Conflict.ResolutionKind) : string :=
  match kind with
  | Conflict.ResolutionKindAbsent => EmptyString
  | Conflict.ResolutionKindPublication => "publication" | Conflict.ResolutionKindForced => "forced"
  | Conflict.ResolutionKindUnknown text => text
  end.

(** ** projections.go: rows *)

Definition maxControlFileDiffBytes : N := 65536.

Definition OriginScopeKindAgent : string := "agent".
Definition OriginScopeKindBoot : string := "boot".

Definition validOriginScopeKind (kind : string) : bool :=
  (kind == OriginScopeKindAgent) || (kind == OriginScopeKindBoot).

Record OriginScopeRow := mkOriginScopeRow {
  ODeviceID : string;
  ScopeKind : string;
  ScopeID : string;
  LastSequence : N }.

Inductive RowError :=
  | ErrInvalidRow (* a validator's message *) | ErrEncodeRow (* a cell's JSON *).

Definition OriginScopeRow_Validate (row : OriginScopeRow) : option RowError :=
  refuse ErrInvalidRow when (negb (Domain.DeviceID_Valid (ODeviceID row))) ;;
  refuse ErrInvalidRow when (negb (validOriginScopeKind (ScopeKind row))) ;;
  refuse ErrInvalidRow when (negb (Domain.UUIDv7_Valid (ScopeID row))) ;;
  refuse ErrInvalidRow
    when ((LastSequence row <? 1)%N || negb (Domain.ValidUnsignedInteger (LastSequence row))) ;;
  None.

(** [CredentialAuthorizationRow]: the columns of an authorization, its role one
    of a device. *)
Record CredentialAuthorizationRow := mkCredentialAuthorizationRow {
  ASessionID : string;
  ADeviceID : string;
  Epoch : N;
  EpochPublicKey : list N;
  KeyDigest : list N;
  Role : Device.Role;
  IssuedAt : string;
  NotBefore : string;
  ValiditySeconds : N;
  AuthorityVoterSetVersion : N;
  ClockEndorsements : list CredentialAuthorization.ClockEndorsement;
  BindingSignature : list N;
  AuthorizationChainIndex : N }.

Inductive ControlFileOperation :=
  | ControlFileUpsert | ControlFileDelete | ControlFileUnknown (text : string).

Definition ControlFileOperation_valid (operation : ControlFileOperation) : bool :=
  match operation with ControlFileUnknown _ => false | _ => true end.

Definition ControlFileOperation_text (operation : ControlFileOperation) : string :=
  match operation with
  | ControlFileUpsert => "upsert" | ControlFileDelete => "delete" | ControlFileUnknown text => text
  end.

Record ControlFileProposalRow := mkControlFileProposalRow {
  ProposalEventID : string;
  CSessionID : string;
  Path : string;
  COperation : ControlFileOperation;
  ContentDigest : option (list N);
  ContentSize : N;
  Diff : string;
  ProposedByDeviceID : string;
  ChainIndex : N }.

Definition is_set {A} (o : option A) : bool := match o with Some _ => true | None => false end.

(** Every validator's error becomes the message of the row. *)
Definition row_check {E} (result : option E) : option RowError :=
  if is_set result then Some ErrInvalidRow else None.

Definition ControlFileProposalRow_Validate `{NormLib} (row : ControlFileProposalRow)
    : option RowError :=
  refuse ErrInvalidRow when (negb (Domain.UUIDv7_Valid (ProposalEventID row))) ;;
  refuse ErrInvalidRow when (negb (Domain.UUIDv7_Valid (CSessionID row))) ;;
  refuse ErrInvalidRow when (negb (Domain.RepositoryPath_Valid (Path row))) ;;
  refuse ErrInvalidRow when (negb (ControlFileOperation_valid (COperation row))) ;;
  refuse ErrInvalidRow when (negb (Domain.ValidUnsignedInteger (ContentSize row))) ;;
  check match COperation row with
        | ControlFileUpsert =>
            refuse ErrInvalidRow when (negb (is_set (ContentDigest row))) ;; None
        | ControlFileDelete =>
            refuse ErrInvalidRow
              when (is_set (ContentDigest row) || negb (ContentSize row =? 0)%N) ;; None
        | ControlFileUnknown _ => Some ErrInvalidRow
        end ;;
  refuse ErrInvalidRow
    when (negb (utf8_ValidString (Diff row)) || (maxControlFileDiffBytes <? strlen (Diff row))%N) ;;
  refuse ErrInvalidRow when (negb (Domain.DeviceID_Valid (ProposedByDeviceID row))) ;;
  refuse ErrInvalidRow
    when ((ChainIndex row <? 1)%N || negb (Domain.ValidUnsignedInteger (ChainIndex row))) ;;
  None.

Record ProjectionWrites := mkProjectionWrites {
  OriginScopes : list OriginScopeRow;
  AuditCounters : list AuditCounter.Counter;
  Tasks : list Task.Task;
  PlanRevisions : list Plan.Revision;
  PlanCurrent : list Plan.Current;
  MemoryRecords : list Memory.Record_;
  Leases : list Lease.Lease;
  Devices : list Device.Device;
  VoterSets : list VoterSet.Set_;
  CredentialAuthorities : list CredentialAuthority.Authority;
  AgentSessions : list AgentSession.Session;
  CanonicalRefs : list Publication.CanonicalRef;
  CredentialAuthorizations : list CredentialAuthorizationRow;
  Publications : list Publication.Publication;
  ControlFileProposals : list ControlFileProposalRow;
  MergeConflicts : list Conflict.Conflict;
  SessionPolicy : list Policy.Policy }.

(** ** Cells *)

(** The values the source binds to the parameters of a projection's statement. *)
Inductive Cell :=
  | CNull
  | CText (text : string)
  | CInt64 (value : Z)
  | CUint64 (value : N)
  | CBlob (bytes : list N)
  | CBool (value : bool).

#[global] Instance Cell_eq_dec : EqDecision Cell.
Proof. solve_decision. Defined.

Definition nullableText (text : string) : Cell :=
  if text == EmptyString then CNull else CText text.
Definition nullableStringPointer (text : option string) : Cell :=
  match text with None => CNull | Some text => CText text end.
Definition nullableBlob (bytes : option (list N)) : Cell :=
  match bytes with None => CNull | Some bytes => CBlob bytes end.

Section Lib.
Context `{NormLib, JCSLib, CryptoLib}.

Definition CredentialAuthorityRow_Validate (row : CredentialAuthority.Authority) : option RowError :=
  check row_check (CredentialAuthority.Validate row) ;;
  scan_entries
    (λ proof,
       match Codec.CanonicalizeSignedObject (CredentialAuthority.CanonicalJSON proof) with
       | inl _ => Some ErrInvalidRow
       | inr canonical =>
           refuse ErrInvalidRow when (canonical != CredentialAuthority.CanonicalJSON proof) ;; None
       end)
    (CredentialAuthority.ActivationProofs row).

Definition CredentialAuthorizationRow_Validate (row : CredentialAuthorizationRow)
    : option RowError :=
  refuse ErrInvalidRow when (negb (Domain.UUIDv7_Valid (ASessionID row))) ;;
  refuse ErrInvalidRow when (negb (Domain.DeviceID_Valid (ADeviceID row))) ;;
  refuse ErrInvalidRow
    when ((Epoch row <? 1)%N || negb (Domain.ValidUnsignedInteger (Epoch row))) ;;
  refuse ErrInvalidRow when (Sum256 (EpochPublicKey row) != KeyDigest row) ;;
  refuse ErrInvalidRow when (negb (Device.Role_Valid (Role row))) ;;
  refuse ErrInvalidRow
    when (negb (Domain.WholeSecondTimestamp_Valid (IssuedAt row)) ||
          negb (Domain.WholeSecondTimestamp_Valid (NotBefore row))) ;;
  refuse ErrInvalidRow
    when (CredentialAuthorization.time_of (NotBefore row) <?
          CredentialAuthorization.time_of (IssuedAt row))%Z ;;
  refuse ErrInvalidRow
    when ((ValiditySeconds row <? 1)%N ||
          negb (Domain.ValidUnsignedInteger (ValiditySeconds row))) ;;
  refuse ErrInvalidRow
    when ((AuthorityVoterSetVersion row <? 1)%N ||
          negb (Domain.ValidUnsignedInteger (AuthorityVoterSetVersion row))) ;;
  refuse ErrInvalidRow
    when ((llen (ClockEndorsements row) <? 1) ||
          (VoterSet.MaxVoters <? llen (ClockEndorsements row)))%N ;;
  check scan_sorted CredentialAuthorization.EDeviceID
    (λ endorsement,
       refuse ErrInvalidRow
         when (negb (Domain.DeviceID_Valid (CredentialAuthorization.EDeviceID endorsement))) ;; None)
    ErrInvalidRow None (ClockEndorsements row) ;;
  refuse ErrInvalidRow
    when ((AuthorizationChainIndex row <? 1)%N ||
          negb (Domain.ValidUnsignedInteger (AuthorizationChainIndex row))) ;;
  None.

(** ** Canonical JSON cells *)

Definition canonicalJSONText (value : json) : option string :=
  match Codec.Canonicalize (Marshal.marshal value) with
  | inl _ => None
  | inr canonical => Some (of_bytes canonical)
  end.

Definition canonicalStringArray (values : list string) : option string :=
  canonicalJSONText (Marshal.texts values).

(** A canonical object, and the value that its raw message marshals. *)
Definition canonicalObject (value : list N) : option json :=
  match Codec.CanonicalizeSignedObject value with
  | inl _ => None
  | inr canonical => Codec.unmarshal canonical
  end.

Definition canonicalObjectArray (values : list (list N)) : option string :=
  objects ← mapM canonicalObject values;
  canonicalJSONText (JArray objects).

Definition encoded64 (bytes : list N) : json := JString (Codec.EncodeBase64URL bytes).

Definition canonicalClockEndorsements
    (values : list CredentialAuthorization.ClockEndorsement) : option string :=
  canonicalJSONText (JArray
    ((λ value, JObject
        [("device_id", JString (CredentialAuthorization.EDeviceID value));
         ("signature", encoded64 (CredentialAuthorization.ESignature value))]) <$> values)).

Definition canonicalStagingReceipts (values : list Publication.StagingReceipt) : option string :=
  canonicalJSONText (JArray
    ((λ value, JObject
        [("session_id", JString (Publication.rSessionID value));
         ("workspace_id", JString (Publication.rWorkspaceID value));
         ("voter_set_version", Marshal.uint (Publication.rVoterSetVersion value));
         ("publication_metadata_digest",
            encoded64 (bytes_of (Publication.PublicationMetadataDigest value)));
         ("voter_device_id", JString (Publication.VoterDeviceID value));
         ("staged_result_index", Marshal.uint (Publication.StagedResultIndex value));
         ("signature", encoded64 (bytes_of (Publication.rSignature value)))]) <$> values)).

Definition canonicalPolicyValues (values : Policy.Values) : option string :=
  canonicalJSONText (JObject
    [("checkpoint_events", JNumber (Policy.CheckpointEvents values));
     ("checkpoint_interval_seconds", JNumber (Policy.CheckpointIntervalSeconds values));
     ("lease_min_ttl_seconds", JNumber (Policy.LeaseMinTTLSeconds values));
     ("lease_default_ttl_seconds", JNumber (Policy.LeaseDefaultTTLSeconds values));
     ("lease_max_ttl_seconds", JNumber (Policy.LeaseMaxTTLSeconds values));
     ("agent_claim_limit", JNumber (Policy.AgentClaimLimit values));
     ("agent_lease_limit", JNumber (Policy.AgentLeaseLimit values));
     ("device_claim_limit", JNumber (Policy.DeviceClaimLimit values));
     ("device_lease_limit", JNumber (Policy.DeviceLeaseLimit values));
     ("advertisement_interval_seconds", JNumber (Policy.AdvertisementIntervalSeconds values));
     ("audit_depth_per_device_per_epoch", JNumber (Policy.AuditDepthPerDevicePerEpoch values));
     ("max_member_devices", JNumber (Policy.MaxMemberDevices_ values));
     ("max_active_agent_sessions", JNumber (Policy.MaxActiveAgentSessions_ values));
     ("cluster_min_apply_level", JNumber (Policy.ClusterMinApplyLevel values))]).

(** ** Rows to cells: the loops of prepareProjectionWrites *)

Definition cells_originScope (row : OriginScopeRow) : option (list Cell) :=
  Some [CText (ODeviceID row); CText (ScopeKind row); CText (ScopeID row);
        CUint64 (LastSequence row)].

Definition cells_auditCounter (row : AuditCounter.Counter) : option (list Cell) :=
  Some [CText (AuditCounter.DeviceID row); CUint64 (AuditCounter.CredentialEpoch row);
        CUint64 (AuditCounter.AcceptedCount row)].

Definition cells_task (row : Task.Task) : option (list Cell) :=
  blockedBy ← canonicalStringArray (Task.BlockedBy row);
  labels ← canonicalStringArray (Task.Labels row);
  Some [CText (Task.ID row); CText (Task.Title row); CText (Task.Body row);
        CText (Task_State_text (Task.TaskState row));
        nullableStringPointer (Task.StateReason row); CInt64 (Z.of_N (Task.Priority row));
        CText blockedBy; CText labels;
        nullableText (Task.OwnerDeviceID row); nullableText (Task.OwnerAgentSessionID row);
        nullableText (Task.IntendedDeviceID row);
        nullableText (Task_ReleaseReason_text (Task.LastReleaseReason row));
        CUint64 (Task.EntityVersion row); CText (Task.CreatedAt row); CText (Task.UpdatedAt row)].

Definition cells_planRevision (row : Plan.Revision) : option (list Cell) :=
  taskIDs ← canonicalStringArray (Plan.taskIDs row);
  Some [CText (Plan.id_ row); nullableText (Plan.supersedes row); CText (Plan.title row);
        CText (Plan.body row); CText taskIDs; CText (Plan.proposedByDeviceID row);
        CText (Plan.createdAt row)].

Definition cells_planCurrent (row : Plan.Current) : option (list Cell) :=
  Some [CText (Plan.SessionID row); nullableText (Plan.RevisionID row);
        CUint64 (Plan.EntityVersion row)].

Definition cells_memoryRecord (row : Memory.Record_) : option (list Cell) :=
  Some [CText (Memory.id_ row); CText (Memory_Scope_text (Memory.scope row));
        nullableText (Memory.taskID row); CText (Memory.key row); CText (Memory.body row);
        nullableText (Memory.supersedes row); CText (Memory.createdAt row)].

Definition cells_lease (row : Lease.Lease) : option (list Cell) :=
  pathGlobs ← (if Lease.LeaseScope row == Lease.ScopePath
               then CText <$> canonicalStringArray
                                (Lease.PathPattern_String <$> Lease.pathPatterns row)
               else Some CNull);
  Some [CText (Lease.ID row); CText (Lease.HolderDeviceID row);
        CText (Lease.HolderAgentSessionID row); CText (Lease_Scope_text (Lease.LeaseScope row));
        nullableText (Lease.TaskID row); pathGlobs; CInt64 (Lease.TTLSeconds row);
        CText (Lease_Status_text (Lease.LeaseStatus row));
        nullableText (Lease_ReleaseReason_text (Lease.LeaseReleaseReason row));
        CUint64 (Lease.EntityVersion row)].

Definition cells_device (row : Device.Device) : option (list Cell) :=
  Some [CText (Device.ID row); CText (Device_Role_text (Device.DeviceRole row));
        CBlob (Device.IdentityPublicKey row); CText (Device.DaemonVersion row);
        CUint64 (Device.MaxApplyLevel row);
        CText (Device_Status_text (Device.DeviceStatus row));
        CUint64 (Device.EntityVersion row)].

Definition cells_voterSet (row : VoterSet.Set_) : option (list Cell) :=
  voterIDs ← canonicalStringArray (VoterSet.voterDeviceIDs row);
  Some [CText (VoterSet.SessionID row); CText voterIDs; CUint64 (VoterSet.VoterSetVersion row)].

Definition cells_credentialAuthority (row : CredentialAuthority.Authority) : option (list Cell) :=
  voterIDs ← canonicalStringArray (CredentialAuthority.VoterDeviceIDs row);
  proofs ← canonicalObjectArray
             (CredentialAuthority.CanonicalJSON <$> CredentialAuthority.ActivationProofs row);
  Some [CText (CredentialAuthority.SessionID row); CText voterIDs;
        CUint64 (CredentialAuthority.VoterSetVersion row);
        CText (ActivationSource_text (CredentialAuthority.Source row));
        nullableText (CredentialAuthority.ActivationCheckpointEventID row);
        CText proofs; nullableText (CredentialAuthority.PriorAuthoritySigner row);
        nullableBlob (CredentialAuthority.PriorAuthorityHandoff row)].

Definition cells_agentSession (row : AgentSession.Session) : option (list Cell) :=
  Some [CText (AgentSession.ID row); CText (AgentSession.DeviceID row);
        CText (ClientKind_text (AgentSession.SessionClientKind row));
        nullableStringPointer (AgentSession.AgentProfileID row);
        CText (AgentSession_State_text (AgentSession.SessionState row));
        nullableText (AgentSession_State_text (AgentSession.ResumeState row));
        CText (AgentSession.WorkingRootID row);
        nullableText (EndReason_text (AgentSession.SessionEndReason row));
        CUint64 (AgentSession.EntityVersion row)].

Definition cells_canonicalRef (row : Publication.CanonicalRef) : option (list Cell) :=
  Some [CText (Publication.RefName row); CText (Publication.RefCommitOID row);
        CUint64 (Publication.RefEntityVersion row)].

Definition cells_credentialAuthorization (row : CredentialAuthorizationRow)
    : option (list Cell) :=
  endorsements ← canonicalClockEndorsements (ClockEndorsements row);
  Some [CText (ASessionID row); CText (ADeviceID row); CUint64 (Epoch row);
        CBlob (EpochPublicKey row); CBlob (KeyDigest row); CText (Device_Role_text (Role row));
        CText (IssuedAt row); CText (NotBefore row); CUint64 (ValiditySeconds row);
        CUint64 (AuthorityVoterSetVersion row); CText endorsements;
        CBlob (BindingSignature row); CUint64 (AuthorizationChainIndex row)].

Definition cells_publication (row : Publication.Publication) : option (list Cell) :=
  let metadata := Publication.Meta row in
  parentOIDs ← canonicalStringArray (Publication.ParentOIDs metadata);
  paths ← canonicalStringArray (Publication.Paths metadata);
  conflictIDs ← canonicalStringArray (Publication.ResolvesConflictIDs metadata);
  receipts ← canonicalStagingReceipts (Publication.StagingReceipts row);
  Some [CText (Publication.PublicationID metadata); CText (Publication.ProposalEventID metadata);
        nullableText (Publication.SupersedesPublicationID metadata);
        nullableText (Publication.TaskID metadata);
        CText (Publication.AuthorDeviceID metadata);
        CText (Publication.AuthorAgentSessionID metadata);
        CText (Publication.BaseCommit metadata); CText (Publication.CommitOID metadata);
        CText (Publication.TreeOID metadata); CText parentOIDs; CText paths;
        CBlob (bytes_of (Publication.ArtifactDigest metadata)); CText conflictIDs;
        CText (Publication.WorkingRootID metadata); CText receipts;
        CText (Publication_State_text (Publication.PState row));
        nullableText (TerminalSource_text (Publication.PTerminalSource row));
        CBool (Publication.CanonicalLineageMember row);
        nullableText (ReviewVerdict_text (Publication.Verdict row));
        nullableText (Publication.ReviewerDeviceID row);
        nullableText (Publication.ReviewerAgentSessionID row);
        nullableText (ReviewActorType_text (Publication.ActorType row));
        nullableStringPointer (Publication.DecisionReason row);
        CUint64 (Publication.EntityVersion row)].

Definition cells_controlFileProposal (row : ControlFileProposalRow) : option (list Cell) :=
  Some [CText (ProposalEventID row); CText (CSessionID row); CText (Path row);
        CText (ControlFileOperation_text (COperation row)); nullableBlob (ContentDigest row);
        CUint64 (ContentSize row); CText (Diff row); CText (ProposedByDeviceID row);
        CUint64 (ChainIndex row)].

Definition cells_mergeConflict (row : Conflict.Conflict) : option (list Cell) :=
  let detection := Conflict.detectionView row in
  mergeBaseOIDs ← canonicalStringArray (Conflict.MergeBaseOIDs detection);
  paths ← canonicalStringArray (Conflict.Paths detection);
  Some [CText (Conflict.ID detection); CText (Conflict.PublicationID detection);
        CText (MergeKind_text (Conflict.DMergeKind detection));
        nullableText (Conflict.ReplayCommitOID detection); CText mergeBaseOIDs;
        CText (Conflict.CanonicalCommit detection); CText (Conflict.CandidateCommit detection);
        CText paths; CText (Conflict_Status_text (Conflict.CStatus row));
        nullableText (ResolutionKind_text (Conflict.CResolutionKind row));
        nullableText (Conflict.ResolutionPublicationID row);
        nullableText (Conflict.ForceReason row); nullableText (Conflict.ResolvedByDeviceID row);
        CUint64 (Conflict.EntityVersion row)].

Definition cells_sessionPolicy (row : Policy.Policy) : option (list Cell) :=
  values ← canonicalPolicyValues (Policy.PolicyValues row);
  Some [CText (Policy.SessionID row); CText values; CUint64 (Policy.EntityVersion row)].

End Lib.

End Projections.
