(* ===== verification/ProjectionStore.v ===== *)
(** * Package internal/store: the covered tables

    [Module ProjectionStore]: the registry of the seventeen tables and their
    logical rows (projection_commitments.go), the preparation and the writing of
    a write set (projections.go), the in-memory copy of the tables
    (projection_scratch.go) and the return to an earlier result
    (projection_rewind.go).

    SQLite is outside the repository. What the source uses of it: a table is a
    map from the columns of its primary key to its row, an INSERT with ON
    CONFLICT DO UPDATE replaces the row, a plain INSERT fails on a key that
    exists, and a row that the schema's clauses refuse fails. The clauses
    (CHECK, FOREIGN KEY, UNIQUE) are the class [Schema]. *)

From stdpp Require Import base gmap strings list.
From Stdlib Require Import ZArith NArith Lia.
From S2P Require Import Prelude.
From S2P Require Import GoLib.
From S2P Require Import GoJson.
From S2P Require Import CodecLayer.
From S2P Require Import GoMarshal.
From S2P Require Import AgentSessionEntity.
From S2P Require Import TaskEntity.
From S2P Require Import LeaseEntity.
From S2P Require Import VoterSetEntity.
From S2P Require Import DeviceEntity.
From S2P Require Import PlanMemoryEntity.
From S2P Require Import PolicyEntity.
From S2P Require Import ConflictEntity.
From S2P Require Import PublicationEntity.
From S2P Require Import ChainCommitments.
From S2P Require Import ProjectionRows.

Module ProjectionStore.

Import Projections.

(** ** The registry *)

Inductive projectionValueKind :=
  | projectionText | projectionInteger | projectionJSON | projectionBlob | projectionBoolean.

#[global] Instance projectionValueKind_eq_dec : EqDecision projectionValueKind.
Proof. solve_decision. Defined.

Record projectionColumn := mkProjectionColumn {
  storageName : string;
  logicalName : string;
  kind : projectionValueKind;
  isPrimaryKey : bool }.

Record projectionTable := mkProjectionTable {
  name : string;
  columns : list projectionColumn }.

Definition column (name : string) (kind : projectionValueKind) : projectionColumn :=
  mkProjectionColumn name name kind false.
Definition renamedColumn (storageName logicalName : string) (kind : projectionValueKind)
    : projectionColumn := mkProjectionColumn storageName logicalName kind false.
Definition primaryColumn (name : string) (kind : projectionValueKind) : projectionColumn :=
  mkProjectionColumn name name kind true.

Definition projectionTables : list projectionTable :=
  [mkProjectionTable "origin_scopes"
     [primaryColumn "device_id" projectionText;
      primaryColumn "scope_kind" projectionText;
      primaryColumn "scope_id" projectionText;
      column "last_sequence" projectionInteger];
   mkProjectionTable "audit_counters"
     [primaryColumn "device_id" projectionText;
      column "credential_epoch" projectionInteger;
      column "accepted_count" projectionInteger];
   mkProjectionTable "tasks"
     [primaryColumn "task_id" projectionText;
      column "title" projectionText;
      column "body" projectionText;
      column "state" projectionText;
      column "state_reason" projectionText;
      column "priority" projectionInteger;
      renamedColumn "blocked_by_json" "blocked_by" projectionJSON;
      renamedColumn "labels_json" "labels" projectionJSON;
      column "owner_device_id" projectionText;
      column "owner_agent_session_id" projectionText;
      column "intended_device_id" projectionText;
      column "last_release_reason" projectionText;
      column "entity_version" projectionInteger;
      column "created_at" projectionText;
      column "updated_at" projectionText];
   mkProjectionTable "plan_revisions"
     [primaryColumn "plan_revision_id" projectionText;
      column "supersedes" projectionText;
      column "title" projectionText;
      column "body" projectionText;
      renamedColumn "task_ids_json" "task_ids" projectionJSON;
      column "proposed_by_device_id" projectionText;
      column "created_at" projectionText];
   mkProjectionTable "plan_current"
     [primaryColumn "session_id" projectionText;
      column "plan_revision_id" projectionText;
      column "entity_version" projectionInteger];
   mkProjectionTable "memory_records"
     [primaryColumn "memory_id" projectionText;
      column "scope" projectionText;
      column "task_id" projectionText;
      column "key" projectionText;
      column "body" projectionText;
      column "supersedes" projectionText;
      column "created_at" projectionText];
   mkProjectionTable "leases"
     [primaryColumn "lease_id" projectionText;
      column "holder_device_id" projectionText;
      column "holder_agent_session_id" projectionText;
      column "scope" projectionText;
      column "task_id" projectionText;
      renamedColumn "path_globs_json" "path_globs" projectionJSON;
      column "ttl_seconds" projectionInteger;
      column "status" projectionText;
      column "release_reason" projectionText;
      column "entity_version" projectionInteger];
   mkProjectionTable "devices"
     [primaryColumn "device_id" projectionText;
      column "role" projectionText;
      column "identity_public_key" projectionBlob;
      column "daemon_version" projectionText;
      column "max_apply_level" projectionInteger;
      column "status" projectionText;
      column "entity_version" projectionInteger];
   mkProjectionTable "voter_set"
     [primaryColumn "session_id" projectionText;
      renamedColumn "voter_device_ids_json" "voter_device_ids" projectionJSON;
      column "voter_set_version" projectionInteger];
   mkProjectionTable "credential_authority"
     [primaryColumn "session_id" projectionText;
      renamedColumn "voter_device_ids_json" "voter_device_ids" projectionJSON;
      column "voter_set_version" projectionInteger;
      column "activation_source" projectionText;
      column "activation_checkpoint_event_id" projectionText;
      renamedColumn "activation_proofs_json" "activation_proofs" projectionJSON;
      column "prior_authority_signer" projectionText;
      column "prior_authority_handoff" projectionBlob];
   mkProjectionTable "agent_sessions"
     [primaryColumn "agent_session_id" projectionText;
      column "device_id" projectionText;
      column "client_kind" projectionText;
      column "agent_profile_id" projectionText;
      column "state" projectionText;
      column "resume_state" projectionText;
      column "working_root_id" projectionText;
      column "end_reason" projectionText;
      column "entity_version" projectionInteger];
   mkProjectionTable "canonical_refs"
     [primaryColumn "ref_name" projectionText;
      column "commit_oid" projectionText;
      column "entity_version" projectionInteger];
   mkProjectionTable "credential_authorizations"
     [primaryColumn "session_id" projectionText;
      primaryColumn "device_id" projectionText;
      primaryColumn "epoch" projectionInteger;
      column "epoch_public_key" projectionBlob;
      column "key_digest" projectionBlob;
      column "role" projectionText;
      column "issued_at" projectionText;
      column "not_before" projectionText;
      column "validity_seconds" projectionInteger;
      column "authority_voter_set_version" projectionInteger;
      renamedColumn "clock_endorsements_json" "clock_endorsements" projectionJSON;
      column "binding_signature" projectionBlob;
      column "authorization_chain_index" projectionInteger];
   mkProjectionTable "publications"
     [primaryColumn "publication_id" projectionText;
      column "proposal_event_id" projectionText;
      column "supersedes_publication_id" projectionText;
      column "task_id" projectionText;
      column "author_device_id" projectionText;
      column "author_agent_session_id" projectionText;
      column "base_commit" projectionText;
      column "commit_oid" projectionText;
      column "tree_oid" projectionText;
      renamedColumn "parent_oids_json" "parent_oids" projectionJSON;
      renamedColumn "paths_json" "paths" projectionJSON;
      column "artifact_digest" projectionBlob;
      renamedColumn "resolves_conflict_ids_json" "resolves_conflict_ids" projectionJSON;
      column "working_root_id" projectionText;
      renamedColumn "staging_receipts_json" "staging_receipts" projectionJSON;
      column "state" projectionText;
      column "terminal_source" projectionText;
      column "canonical_lineage_member" projectionBoolean;
      column "review_verdict" projectionText;
      column "reviewer_device_id" projectionText;
      column "reviewer_agent_session_id" projectionText;
      column "review_actor_type" projectionText;
      column "decision_reason" projectionText;
      column "entity_version" projectionInteger];
   mkProjectionTable "control_file_proposals"
     [primaryColumn "proposal_event_id" projectionText;
      column "session_id" projectionText;
      column "path" projectionText;
      column "operation" projectionText;
      column "content_digest" projectionBlob;
      column "content_size" projectionInteger;
      column "diff" projectionText;
      column "proposed_by_device_id" projectionText;
      column "chain_index" projectionInteger];
   mkProjectionTable "merge_conflicts"
     [primaryColumn "conflict_id" projectionText;
      column "publication_id" projectionText;
      column "merge_kind" projectionText;
      column "replay_commit_oid" projectionText;
      renamedColumn "merge_base_oids_json" "merge_base_oids" projectionJSON;
      column "canonical_commit" projectionText;
      column "candidate_commit" projectionText;
      renamedColumn "paths_json" "paths" projectionJSON;
      column "status" projectionText;
      column "resolution_kind" projectionText;
      column "resolution_publication_id" projectionText;
      column "force_reason" projectionText;
      column "resolved_by_device_id" projectionText;
      column "entity_version" projectionInteger];
   mkProjectionTable "session_policy"
     [primaryColumn "session_id" projectionText;
      renamedColumn "values_json" "values" projectionJSON;
      column "entity_version" projectionInteger]].

(** The comparison of [init], which panics when it fails. *)
Definition registry_matches : bool := Chain.CoveredTables == (name <$> projectionTables).

(** ** Columns that SQLite stores *)

Inductive Column :=
  | SNull | SInteger (value : Z) | SText (text : string) | SBlob (bytes : list N).

#[global] Instance Column_eq_dec : EqDecision Column.
Proof. solve_decision. Defined.

#[global] Instance Column_countable : Countable Column.
Proof.
  refine (inj_countable'
    (λ c, match c with
          | SNull => inl (inl ()) | SInteger z => inl (inr z)
          | SText t => inr (inl t) | SBlob b => inr (inr b) end)
    (λ x, match x with
          | inl (inl _) => SNull | inl (inr z) => SInteger z
          | inr (inl t) => SText t | inr (inr b) => SBlob b end) _).
  by intros [].
Defined.

Definition MaxInt64 : N := 9223372036854775807.

(** sqlite.go: [None] is an unsigned integer above SQLite's range. *)
Definition bindValue (cell : Cell) : option Column :=
  match cell with
  | CNull => Some SNull
  | CText text => Some (SText text)
  | CInt64 value => Some (SInteger value)
  | CUint64 value => if (MaxInt64 <? value)%N then None else Some (SInteger (Z.of_N value))
  | CBlob bytes => Some (SBlob bytes)
  | CBool value => Some (SInteger (if value then 1 else 0))
  end.

(** The stored rows of the covered tables, by table and key columns. *)
Definition Database : Type := gmap (string * list Column) (list Column).

(** What the schema's clauses say of a row to be written; [migrations/*.sql]
    holds their text and SQLite evaluates them. *)
Class Schema := { accepts : Database → string → list Column → bool }.

(** ** The prepared write set *)

Record preparedProjectionWrites := mkPrepared {
  originScopes : list (list Cell);
  auditCounters : list (list Cell);
  tasks : list (list Cell);
  planRevisions : list (list Cell);
  planCurrent : list (list Cell);
  memoryRecords : list (list Cell);
  leases : list (list Cell);
  devices : list (list Cell);
  voterSet : list (list Cell);
  credentialAuthority : list (list Cell);
  agentSessions : list (list Cell);
  canonicalRefs : list (list Cell);
  credentialAuthorizations : list (list Cell);
  publications : list (list Cell);
  controlFileProposals : list (list Cell);
  controlFileProposalRows : list ControlFileProposalRow;
  mergeConflicts : list (list Cell);
  sessionPolicy : list (list Cell) }.

Inductive Error :=
  | ErrProjectionRow (table : string) (index : N) (err : RowError)
  | ErrEncodeLogicalRow (table : string) (index : N)
  | ErrDuplicatePrimaryKey (table : string)
  | ErrReadProjection (table : string)
  | ErrStatement (table : string) (* SQLite or its binding refuses *)
  | ErrIntegrityCheck
  | ErrChain (err : Chain.Error).

#[global] Instance RowError_eq_dec : EqDecision RowError.
Proof. solve_decision. Defined.
#[global] Instance Error_eq_dec : EqDecision Error.
Proof. solve_decision. Defined.

(** One loop of prepareProjectionWrites. *)
Fixpoint prepareRows {A} (table : string) (validate : A → option RowError)
    (cells : A → option (list Cell)) (index : N) (rows : list A) : Error + list (list Cell) :=
  match rows with
  | [] => inr []
  | row :: rest =>
      match validate row with
      | Some err => inl (ErrProjectionRow table index err)
      | None =>
          match cells row with
          | None => inl (ErrProjectionRow table index ErrEncodeRow)
          | Some values =>
              let* prepared := prepareRows table validate cells (index + 1) rest in
              inr (values :: prepared)
          end
      end
  end.

Section Lib.
Context `{NormLib, JCSLib, CryptoLib}.

(** A committed publication has a staging receipt. *)
Definition publicationRow_check (row : Publication.Publication) : option RowError :=
  check row_check (Publication.Validate row) ;;
  refuse ErrInvalidRow when (llen (Publication.StagingReceipts row) <? 1)%N ;;
  None.

Definition prepareProjectionWrites (writes : ProjectionWrites)
    : Error + preparedProjectionWrites :=
  let* scopes := prepareRows "origin_scopes" OriginScopeRow_Validate cells_originScope 0
                   (OriginScopes writes) in
  let* counters := prepareRows "audit_counters" (row_check ∘ AuditCounter.Validate)
                     cells_auditCounter 0 (AuditCounters writes) in
  let* taskRows := prepareRows "tasks" (row_check ∘ Task.Validate) cells_task 0 (Tasks writes) in
  let* revisions := prepareRows "plan_revisions" (row_check ∘ Plan.Revision_Validate)
                      cells_planRevision 0 (PlanRevisions writes) in
  let* current := prepareRows "plan_current" (row_check ∘ Plan.Current_Validate)
                    cells_planCurrent 0 (PlanCurrent writes) in
  let* memories := prepareRows "memory_records" (row_check ∘ Memory.Validate)
                     cells_memoryRecord 0 (MemoryRecords writes) in
  let* leaseRows := prepareRows "leases" (row_check ∘ Lease.Validate) cells_lease 0
                      (Leases writes) in
  let* deviceRows := prepareRows "devices" (row_check ∘ Device.Validate) cells_device 0
                       (Devices writes) in
  let* voters := prepareRows "voter_set" (row_check ∘ VoterSet.Validate) cells_voterSet 0
                   (VoterSets writes) in
  let* authorities := prepareRows "credential_authority" CredentialAuthorityRow_Validate
                        cells_credentialAuthority 0 (CredentialAuthorities writes) in
  let* sessions := prepareRows "agent_sessions" (row_check ∘ AgentSession.Validate)
                     cells_agentSession 0 (AgentSessions writes) in
  let* refs := prepareRows "canonical_refs" (row_check ∘ Publication.CanonicalRef_Validate)
                 cells_canonicalRef 0 (CanonicalRefs writes) in
  let* authorizations := prepareRows "credential_authorizations"
                           CredentialAuthorizationRow_Validate cells_credentialAuthorization 0
                           (CredentialAuthorizations writes) in
  let* publicationRows := prepareRows "publications" publicationRow_check cells_publication 0
                            (Publications writes) in
  let* proposals := prepareRows "control_file_proposals" ControlFileProposalRow_Validate
                      cells_controlFileProposal 0 (ControlFileProposals writes) in
  let* conflicts := prepareRows "merge_conflicts" (row_check ∘ Conflict.Validate)
                      cells_mergeConflict 0 (MergeConflicts writes) in
  let* policies := prepareRows "session_policy" (row_check ∘ Policy.Validate)
                     cells_sessionPolicy 0 (SessionPolicy writes) in
  inr (mkPrepared scopes counters taskRows revisions current memories leaseRows deviceRows voters
         authorities sessions refs authorizations publicationRows proposals
         (ControlFileProposals writes) conflicts policies).

(** [preparedProjectionRows], in the order of the registry. *)
Definition preparedProjectionRows (prepared : preparedProjectionWrites)
    : gmap string (list (list Cell)) :=
  list_to_map
    [("origin_scopes", originScopes prepared); ("audit_counters", auditCounters prepared);
     ("tasks", tasks prepared); ("plan_revisions", planRevisions prepared);
     ("plan_current", planCurrent prepared); ("memory_records", memoryRecords prepared);
     ("leases", leases prepared); ("devices", devices prepared);
     ("voter_set", voterSet prepared); ("credential_authority", credentialAuthority prepared);
     ("agent_sessions", agentSessions prepared); ("canonical_refs", canonicalRefs prepared);
     ("credential_authorizations", credentialAuthorizations prepared);
     ("publications", publications prepared);
     ("control_file_proposals", controlFileProposals prepared);
     ("merge_conflicts", mergeConflicts prepared); ("session_policy", sessionPolicy prepared)].

(** ** Logical rows *)

(** A text that is its own canonical form, as the value it spells. *)
Definition canonicalText (text : string) : option json :=
  match Codec.validateJSON (bytes_of text) Codec.maxCanonicalJSONBytes with
  | inl _ => None
  | inr value => if jcs_Append value == bytes_of text then Some value else None
  end.

Definition logicalProjectionValue (kind : projectionValueKind) (value : Cell) : option json :=
  match kind, value with
  | _, CNull => Some JNull
  | projectionText, CText text => if utf8_ValidString text then Some (JString text) else None
  | projectionInteger, CInt64 value => if (value <? 0)%Z then None else Some (JNumber value)
  | projectionInteger, CUint64 value => Some (Marshal.uint value)
  | projectionJSON, CText text => canonicalText text
  | projectionBlob, CBlob bytes => Some (JString (Codec.EncodeBase64URL bytes))
  | projectionBoolean, CBool value => Some (JBool value)
  | _, _ => None
  end.

Definition encodeLogicalProjectionRow (primaryKey : list json) (object : gmap string json)
    : option (list N * list N) :=
  if primaryKey is [] then None
  else match Codec.Canonicalize (Marshal.marshal (JArray primaryKey)) with
  | inl _ => None
  | inr canonicalPK =>
      match Marshal.canonical_object (Marshal.map_members object) with
      | inl _ => None
      | inr canonicalRow => Some (canonicalPK, canonicalRow)
      end
  end.

(** The loop over the columns: the object, the key's values and the values
    themselves of the key; [is_null] tells the nil interface. *)
Fixpoint logicalColumns {A} (is_null : A → bool) (logical : projectionValueKind → A → option json)
    (columns : list projectionColumn) (values : list A) (object : gmap string json)
    : option (gmap string json * list json * list A) :=
  match columns, values with
  | [], _ | _, [] => Some (object, [], [])
  | column :: columns, value :: values =>
      encoded ← logical (kind column) value;
      if isPrimaryKey column && is_null value then None
      else
        '(object, primaryKey, keyArguments) ←
          logicalColumns is_null logical columns values (<[logicalName column := encoded]> object);
        Some (if isPrimaryKey column
              then (object, encoded :: primaryKey, value :: keyArguments)
              else (object, primaryKey, keyArguments))
  end.

Definition cell_null (cell : Cell) : bool := cell == CNull.
Definition column_null (column : Column) : bool := column == SNull.

Definition logicalProjectionRowFromValues (table : projectionTable) (values : list Cell)
    : option (Chain.LogicalRow * list Cell) :=
  if negb (length values =? length (columns table))%nat then None
  else
    '(object, primaryKey, keyArguments) ←
      logicalColumns cell_null logicalProjectionValue (columns table) values ∅;
    '(pkBytes, rowBytes) ← encodeLogicalProjectionRow primaryKey object;
    Some (Chain.mkLogicalRow (name table) pkBytes rowBytes, keyArguments).

Definition logicalProjectionColumn (kind : projectionValueKind) (stored : Column) : option json :=
  match kind, stored with
  | _, SNull => Some JNull
  | projectionText, SText text => if utf8_ValidString text then Some (JString text) else None
  | projectionInteger, SInteger value => if (value <? 0)%Z then None else Some (JNumber value)
  | projectionJSON, SText text => canonicalText text
  | projectionBlob, SBlob bytes => Some (JString (Codec.EncodeBase64URL bytes))
  | projectionBoolean, SInteger value =>
      if negb (value =? 0)%Z && negb (value =? 1)%Z then None else Some (JBool (value =? 1)%Z)
  | _, _ => None
  end.

(** A row that SQLite returned has the columns of the statement. *)
Definition logicalProjectionRowFromStatement (table : projectionTable) (row : list Column)
    : option Chain.LogicalRow :=
  '(object, primaryKey, _) ←
    logicalColumns column_null logicalProjectionColumn (columns table) row ∅;
  '(pkBytes, rowBytes) ← encodeLogicalProjectionRow primaryKey object;
  Some (Chain.mkLogicalRow (name table) pkBytes rowBytes).

(** ** Statements *)

(** The columns at the positions of the primary key. *)
Fixpoint keyColumns {A} (columns : list projectionColumn) (values : list A) : list A :=
  match columns, values with
  | [], _ | _, [] => []
  | column :: columns, value :: values =>
      if isPrimaryKey column then value :: keyColumns columns values
      else keyColumns columns values
  end.

(** The tables whose statement has no ON CONFLICT clause. *)
Definition insertOnly (table : string) : bool :=
  bool_decide (table ∈ ["plan_revisions"; "memory_records"; "credential_authorizations";
                        "control_file_proposals"]).

Definition readProjectionRow (db : Database) (table : projectionTable) (keyArguments : list Cell)
    : Error + option Chain.LogicalRow :=
  match mapM bindValue keyArguments with
  | None => inl (ErrReadProjection (name table))
  | Some key =>
      match db !! (name table, key) with
      | None => inr None
      | Some row =>
          match logicalProjectionRowFromStatement table row with
          | None => inl (ErrReadProjection (name table))
          | Some logical => inr (Some logical)
          end
      end
  end.

Context `{Schema}.

Definition execute (db : Database) (table : projectionTable) (values : list Cell)
    : Error + Database :=
  match mapM bindValue values with
  | None => inl (ErrStatement (name table))
  | Some row =>
      let key := (name table, keyColumns (columns table) row) in
      throw (ErrStatement (name table))
        when (negb (accepts db (name table) row) ||
              insertOnly (name table) && bool_decide (is_Some (db !! key))) ;;
      inr (<[key := row]> db)
  end.

Fixpoint writeProjectionRows (db : Database) (table : projectionTable) (rows : list (list Cell))
    : Error + Database :=
  match rows with
  | [] => inr db
  | row :: rest =>
      let* db' := execute db table row in
      writeProjectionRows db' table rest
  end.

(** The statements run in the order of the registry. *)
Fixpoint writeTables (db : Database) (tables : list projectionTable)
    (rows : gmap string (list (list Cell))) : Error + Database :=
  match tables with
  | [] => inr db
  | table :: rest =>
      let* db' := writeProjectionRows db table (default [] (rows !! name table)) in
      writeTables db' rest rows
  end.

Definition writePreparedProjections (db : Database) (prepared : preparedProjectionWrites)
    : Error + Database :=
  writeTables db projectionTables (preparedProjectionRows prepared).

(** ** Targets *)

Record projectionTarget := mkProjectionTarget {
  table : projectionTable;
  keyArguments : list Cell;
  primaryKey : list N;
  expectedAfter : list N }.

(** [table + "\x00" + primaryKey]. *)
Definition projectionScratchIdentity (table : string) (primaryKey : list N) : string :=
  table +:+ of_bytes (0%N :: primaryKey).

(** The rows of one table; [seen] holds the identities met so far. *)
Fixpoint tableTargets (table : projectionTable) (index : N) (rows : list (list Cell))
    (seen : gset string) : Error + (list projectionTarget * gset string) :=
  match rows with
  | [] => inr ([], seen)
  | values :: rest =>
      match logicalProjectionRowFromValues table values with
      | None => inl (ErrEncodeLogicalRow (name table) index)
      | Some (logical, arguments) =>
          let identity := projectionScratchIdentity (name table) (Chain.PrimaryKey logical) in
          throw (ErrDuplicatePrimaryKey (name table)) when (bool_decide (identity ∈ seen)) ;;
          let* (targets, seen') := tableTargets table (index + 1) rest ({[identity]} ∪ seen) in
          inr (mkProjectionTarget table arguments (Chain.PrimaryKey logical) (Chain.Row logical)
                 :: targets, seen')
      end
  end.

Fixpoint targetsFrom (tables : list projectionTable) (rows : gmap string (list (list Cell)))
    (seen : gset string) : Error + list projectionTarget :=
  match tables with
  | [] => inr []
  | table :: rest =>
      let* (targets, seen') := tableTargets table 0 (default [] (rows !! name table)) seen in
      let* others := targetsFrom rest rows seen' in
      inr (targets ++ others)
  end.

Definition projectionTargets (prepared : preparedProjectionWrites)
    : Error + list projectionTarget :=
  targetsFrom projectionTables (preparedProjectionRows prepared) ∅.

(** ** Mutations of the stored tables *)

Fixpoint readBefores (db : Database) (targets : list projectionTarget)
    : Error + list Chain.Mutation :=
  match targets with
  | [] => inr []
  | target :: rest =>
      let* before := readProjectionRow db (table target) (keyArguments target) in
      let* others := readBefores db rest in
      inr (Chain.mkMutation (name (table target)) (primaryKey target) (Chain.Row <$> before) None
             :: others)
  end.

Fixpoint readAfters (db : Database) (targets : list projectionTarget)
    (mutations : list Chain.Mutation) : Error + list Chain.Mutation :=
  match targets, mutations with
  | target :: rest, mutation :: others =>
      let* after := readProjectionRow db (table target) (keyArguments target) in
      match after with
      | None => inl ErrIntegrityCheck
      | Some after =>
          throw ErrIntegrityCheck
            when ((Chain.PrimaryKey after != primaryKey target) ||
                  (Chain.Row after != expectedAfter target)) ;;
          let* complete := readAfters db rest others in
          inr (Chain.mkMutation (Chain.MTable mutation) (Chain.MPrimaryKey mutation)
                 (Chain.Before mutation) (Some (Chain.Row after)) :: complete)
      end
  | _, _ => inr []
  end.

(** The mutations, and the tables after the write. *)
Definition projectionMutations (db : Database) (prepared : preparedProjectionWrites)
    : Error + (list Chain.Mutation * Database) :=
  let* targets := projectionTargets prepared in
  let* befores := readBefores db targets in
  let* db' := writePreparedProjections db prepared in
  let* mutations := readAfters db' targets befores in
  inr (mutations, db').

(** ** projection_scratch.go *)

Definition ProjectionScratch : Type := gmap string Chain.LogicalRow.

Definition row_identity (row : Chain.LogicalRow) : string :=
  projectionScratchIdentity (Chain.Table row) (Chain.PrimaryKey row).

Definition NewProjectionScratch (rows : list Chain.LogicalRow) (versions : Chain.Versions)
    : Error + ProjectionScratch :=
  match Chain.StateDigest versions rows with
  | inl _ => inl ErrIntegrityCheck
  | inr _ => inr (foldl (λ scratch row, <[row_identity row := row]> scratch) ∅ rows)
  end.

Definition target_row (target : projectionTarget) : Chain.LogicalRow :=
  Chain.mkLogicalRow (name (table target)) (primaryKey target) (expectedAfter target).

Definition target_identity (target : projectionTarget) : string :=
  projectionScratchIdentity (name (table target)) (primaryKey target).

Definition scratchMutation (scratch : ProjectionScratch) (target : projectionTarget)
    : Chain.Mutation :=
  Chain.mkMutation (name (table target)) (primaryKey target)
    (Chain.Row <$> scratch !! target_identity target) (Some (expectedAfter target)).

Definition Scratch_Apply (scratch : ProjectionScratch) (writes : ProjectionWrites)
    : Error + (list Chain.Mutation * ProjectionScratch) :=
  let* prepared := prepareProjectionWrites writes in
  let* targets := projectionTargets prepared in
  let mutations := scratchMutation scratch <$> targets in
  match Chain.EncodeMutations mutations with
  | inl _ => inl ErrIntegrityCheck
  | inr _ =>
      inr (mutations,
           foldl (λ scratch target, <[target_identity target := target_row target]> scratch)
             scratch targets)
  end.

(** Sorted by identity. *)
Definition Scratch_Rows (scratch : ProjectionScratch) : list Chain.LogicalRow :=
  omap (λ identity, scratch !! identity) (sort_Strings (map_to_list scratch).*1).

Definition Scratch_StateDigest (scratch : ProjectionScratch) (versions : Chain.Versions)
    : Error + Chain.Digest :=
  match Chain.StateDigest versions (map_to_list scratch).*2 with
  | inl err => inl (ErrChain err)
  | inr digest => inr digest
  end.

(** ** projection_rewind.go *)

(** The temporary table: rows by table name and key. *)
Definition RewindTable : Type := gmap (string * list N) (list N).

Inductive RewindError :=
  | ErrRewindTable | ErrRewindAfterImage | ErrRewindIndexes | ErrRewindMutations | ErrRewindCut.

Definition rewindProjectionMutation (rows : RewindTable) (mutation : Chain.Mutation)
    : RewindError + RewindTable :=
  throw ErrRewindTable
    when (negb (bool_decide (Chain.MTable mutation ∈ Chain.CoveredTables))) ;;
  let key := (Chain.MTable mutation, Chain.MPrimaryKey mutation) in
  throw ErrRewindAfterImage when (rows !! key != Chain.After mutation) ;;
  match Chain.Before mutation with
  | None => inr (delete key rows)
  | Some before => inr (<[key := before]> rows)
  end.

Fixpoint rewindMutations (rows : RewindTable) (mutations : list Chain.Mutation)
    : RewindError + RewindTable :=
  match mutations with
  | [] => inr rows
  | mutation :: rest =>
      let* rows' := rewindProjectionMutation rows mutation in
      rewindMutations rows' rest
  end.

(** One result of the descending scan, with its encoded mutations. *)
Definition rewindResult (rows : RewindTable) (encoded : list N) : RewindError + RewindTable :=
  match Chain.DecodeMutations encoded with
  | inl _ => inl ErrRewindMutations
  | inr mutations =>
      match Chain.EncodeMutations mutations with
      | inl _ => inl ErrRewindMutations
      | inr canonical =>
          throw ErrRewindMutations when (canonical != encoded) ;;
          rewindMutations rows mutations
      end
  end.

(** The results above the cut in descending order, with their indexes. *)
Fixpoint rewindResults (rows : RewindTable) (expected cut : N) (results : list (N * list N))
    : RewindError + (RewindTable * N) :=
  match results with
  | [] => inr (rows, expected)
  | (index, encoded) :: rest =>
      throw ErrRewindIndexes
        when ((index <? 1)%N || (expected <=? cut)%N || negb (index =? expected)%N) ;;
      let* rows' := rewindResult rows encoded in
      rewindResults rows' (expected - 1) cut rest
  end.

(** The rows at a result cut; [results] are those of the active generation. *)
Definition projectionRowsAtResultCut (rows : RewindTable) (head first cut : N)
    (results : list (N * list N)) : RewindError + RewindTable :=
  throw ErrRewindCut when ((cut <? first)%N || (head <? cut)%N) ;;
  let* (rows', reached) :=
    rewindResults rows head cut (filter (λ result, (cut < result.1)%N) results) in
  throw ErrRewindIndexes when (negb (reached =? cut)%N) ;;
  inr rows'.

End Lib.

End ProjectionStore.
