(* ===== verification/ProjectionStream.v ===== *)
(** * Package internal/store: reading the covered tables back

    [Module ProjectionStream]: the stream of the logical rows in registry and
    key order with the digest of the stored state (projection_commitments.go),
    and the digest of the state at an earlier result (projection_rewind.go). A
    visitor is a state and a function that may refuse a row.

    SQLite's [json_array] is outside the repository and a parameter. *)

From stdpp Require Import base gmap strings list sorting.
From Stdlib Require Import ZArith NArith Lia.
From S2P Require Import Prelude.
From S2P Require Import GoLib.
From S2P Require Import CodecLayer.
From S2P Require Import ChainCommitments.
From S2P Require Import ProjectionRows.
From S2P Require Import ProjectionStore.

(** The text of [json_array] on stored columns. *)
Class SQLiteJSON := { json_array : list ProjectionStore.Column → list N }.

Module ProjectionStream.

Import Projections ProjectionStore.

Section Stream.
Context `{NormLib, JCSLib, CryptoLib, SQLiteJSON}.

(** projectionPrimaryKeyJSONExpression on a row. *)
Definition projectionPrimaryKeyJSONExpression (table : projectionTable) (row : list Column)
    : list N := json_array (keyColumns (columns table) row).

(** The stored rows of a table. *)
Definition rowsOf (db : Database) (table : projectionTable) : list (list Column) :=
  (filter (λ entry, entry.1.1 = name table) (map_to_list db)).*2.

(** ORDER BY CAST(... AS BLOB). *)
Definition row_before (table : projectionTable) (left right : list Column) : Prop :=
  Chain.bytes_le (projectionPrimaryKeyJSONExpression table left)
    (projectionPrimaryKeyJSONExpression table right) = true.

#[global] Instance row_before_dec table left right : Decision (row_before table left right).
Proof. unfold row_before. apply _. Defined.

Definition orderedRows (db : Database) (table : projectionTable) : list (list Column) :=
  merge_sort (row_before table) (rowsOf db table).

(** The callback of one row. *)
Definition streamRow (table : projectionTable) (row : list Column) : Error + Chain.LogicalRow :=
  match logicalProjectionRowFromStatement table row with
  | None => inl (ErrReadProjection (name table))
  | Some logical =>
      throw (ErrReadProjection (name table))
        when (projectionPrimaryKeyJSONExpression table row != Chain.PrimaryKey logical) ;;
      inr logical
  end.

Section Visit.
Context {S : Type} (visit : S → Chain.LogicalRow → Error + S).

Fixpoint streamRows (table : projectionTable) (rows : list (list Column)) (st : S) : Error + S :=
  match rows with
  | [] => inr st
  | row :: rest =>
      let* logical := streamRow table row in
      let* st' := visit st logical in
      streamRows table rest st'
  end.

Fixpoint streamTables (db : Database) (tables : list projectionTable) (st : S) : Error + S :=
  match tables with
  | [] => inr st
  | table :: rest =>
      let* st' := streamRows table (orderedRows db table) st in
      streamTables db rest st'
  end.

Definition streamProjectionLogicalRows (db : Database) (st : S) : Error + S :=
  streamTables db projectionTables st.
End Visit.

Definition projectionLogicalRows (db : Database) : Error + list Chain.LogicalRow :=
  streamProjectionLogicalRows (λ rows row, inr (rows ++ [row])) db [].

Fixpoint tableCounts (db : Database) (tables : list projectionTable)
    : Error + list Chain.TableRowCount :=
  match tables with
  | [] => inr []
  | table :: rest =>
      let count := llen (rowsOf db table) in
      throw ErrIntegrityCheck when (Chain.maxSafeInteger <? count)%N ;;
      let* counts := tableCounts db rest in
      inr (Chain.mkTableRowCount (name table) count :: counts)
  end.

Definition projectionTableRowCounts (db : Database) : Error + list Chain.TableRowCount :=
  tableCounts db projectionTables.

Definition chain_result {A} (result : Chain.Error + A) : Error + A :=
  match result with inl err => inl (ErrChain err) | inr value => inr value end.

Definition projectionStateDigest (db : Database) (versions : Chain.Versions)
    : Error + Chain.Digest :=
  let* counts := projectionTableRowCounts db in
  let* digester := chain_result (Chain.NewStateDigester versions counts) in
  let* digester := streamProjectionLogicalRows
                     (λ digester row, chain_result (Chain.Append digester row)) db digester in
  chain_result (Chain.Sum digester).

(** ** The digest at an earlier result *)

(** The rows of the temporary table with a table name, by key. *)
Definition key_before (left right : list N * list N) : Prop :=
  Chain.bytes_le left.1 right.1 = true.

#[global] Instance key_before_dec left right : Decision (key_before left right).
Proof. unfold key_before. apply _. Defined.

Definition rewoundRows (rows : RewindTable) (table : string) : list Chain.LogicalRow :=
  (λ '(key, row), Chain.mkLogicalRow table key row) <$>
  merge_sort key_before
    ((λ entry : string * list N * list N, (entry.1.2, entry.2)) <$>
     filter (λ entry, entry.1.1 = table) (map_to_list rows)).

(** One INSERT per streamed row; the primary key refuses a second one. *)
Definition copyRow (rows : RewindTable) (row : Chain.LogicalRow) : Error + RewindTable :=
  let key := (Chain.Table row, Chain.PrimaryKey row) in
  throw (ErrReadProjection (Chain.Table row))
    when (negb (bool_decide (Chain.Table row ∈ Chain.CoveredTables)) ||
          bool_decide (is_Some (rows !! key))) ;;
  inr (<[key := Chain.Row row]> rows).

Inductive CutError := ErrCutRows (err : Error) | ErrCutRewind (err : RewindError).

Definition rows_result {A} (result : Error + A) : CutError + A :=
  match result with inl err => inl (ErrCutRows err) | inr value => inr value end.
Definition rewind_result {A} (result : RewindError + A) : CutError + A :=
  match result with inl err => inl (ErrCutRewind err) | inr value => inr value end.

Definition cutCounts (rows : RewindTable) : Error + list Chain.TableRowCount :=
  let counts := (λ table, Chain.mkTableRowCount table (llen (rewoundRows rows table)))
                <$> Chain.CoveredTables in
  throw ErrIntegrityCheck
    when (existsb (λ count, (Chain.maxSafeInteger <? Chain.Count count)%N) counts) ;;
  inr counts.

(** [visit] is nil here; the rows it would be shown are those appended. *)
Definition projectionStateDigestAtResultCut (db : Database) (versions : Chain.Versions)
    (head first cut : N) (results : list (N * list N)) : CutError + Chain.Digest :=
  throw (ErrCutRewind ErrRewindCut) when ((cut <? first)%N || (head <? cut)%N) ;;
  let* current := rows_result (streamProjectionLogicalRows copyRow db ∅) in
  let* rows := rewind_result (projectionRowsAtResultCut current head first cut results) in
  let* counts := rows_result (cutCounts rows) in
  let* digester := rows_result (chain_result (Chain.NewStateDigester versions counts)) in
  let* digester := rows_result (chain_result
                     (Chain.appendAll digester (Chain.CoveredTables ≫= rewoundRows rows))) in
  rows_result (chain_result (Chain.Sum digester)).

End Stream.

End ProjectionStream.
