(* ===== verification/ProjectionProofs.v ===== *)
(** * The stored tables, the scratch copy and the rewind

    [Module ProjectionProofs]: what a row prepared for writing reads back as,
    the simulation of the stored tables by the scratch copy, and the rewind as
    the inverse of a history of write sets. *)

From stdpp Require Import base gmap strings list sorting pretty.
From Stdlib Require Import ZArith NArith Lia.
From S2P Require Import Prelude.
From S2P Require Import GoLib.
From S2P Require Import GoJson.
From S2P Require Import CodecLayer.
From S2P Require Import GoMarshal.
From S2P Require Import RawJson.
From S2P Require Import ChainCommitments.
From S2P Require Import ChainProofs.
From S2P Require Import ChainTheorems.
From S2P Require Import ProjectionRows.
From S2P Require Import ProjectionStore.
From S2P Require Import ProjectionStream.

(** A member of a primary key: a text or an integer in the exact range. *)
Definition key_scalar (v : json) : bool :=
  match v with
  | JString text => utf8_ValidString text
  | JNumber n => (- Codec.maxSafeInteger <=? n)%Z && (n <=? Codec.maxSafeInteger)%Z
  | _ => false
  end.

(** RFC 8785 on the arrays that serve as keys: the text is a byte string, and
    distinct arrays of texts and integers have distinct texts. *)
Class JCSKeys `{JCSLib} := {
  jcs_bytes : ∀ v, Forall (λ b, b < 256)%N (jcs_Append v);
  jcs_keys : ∀ l l', forallb key_scalar l → forallb key_scalar l' →
    jcs_Append (JArray l) = jcs_Append (JArray l') → l = l' }.

Module ProjectionProofs.

Import Projections ProjectionStore ProjectionStream MarshalProofs MutationProofs.

(** ** Facts of the registry *)

Definition key_kind (column : projectionColumn) : bool :=
  negb (isPrimaryKey column) || bool_decide (kind column = projectionText)
  || bool_decide (kind column = projectionInteger).

Lemma table_key_kinds :
  forallb (λ table, forallb key_kind (columns table)) projectionTables = true.
Proof. vm_compute. done. Qed.

Lemma table_names_nodup : NoDup (name <$> projectionTables).
Proof. apply (bool_decide_unpack _). vm_compute. done. Qed.

(** No name holds the separator of the identities. *)
Lemma table_names_plain :
  forallb (λ table, forallb (λ b, negb (b =? 0)%N) (bytes_of (name table))) projectionTables = true.
Proof. vm_compute. done. Qed.

Lemma table_of_name table table' :
  table ∈ projectionTables → table' ∈ projectionTables → name table = name table' → table = table'.
Proof.
  intros [i Hi]%list_elem_of_lookup [j Hj]%list_elem_of_lookup Hn.
  assert (i = j) as ->; [|congruence].
  apply (NoDup_lookup (name <$> projectionTables) i j (name table) table_names_nodup);
    rewrite list_lookup_fmap; [by rewrite Hi|by rewrite Hj, Hn].
Qed.

Lemma cut_at_zero (l l' r r' : list N) :
  forallb (λ b, negb (b =? 0)%N) l = true → forallb (λ b, negb (b =? 0)%N) l' = true →
  l ++ 0%N :: r = l' ++ 0%N :: r' → l = l' ∧ r = r'.
Proof.
  revert l'. induction l as [|b l IH]; intros [|b' l']; simpl; intros Hl Hl' Heq.
  - by injection Heq.
  - injection Heq as <- _. done.
  - injection Heq as -> _. done.
  - injection Heq as -> Heq. apply andb_true_iff in Hl as [_ Hl], Hl' as [_ Hl'].
    by destruct (IH l' Hl Hl' Heq) as [-> ->].
Qed.

Lemma bytes_of_app s t : bytes_of (s +:+ t) = bytes_of s ++ bytes_of t.
Proof. induction s as [|c s IH]; [done|]. simpl. by rewrite IH. Qed.

(** Rows of covered tables with one identity are of one table and one key. *)
Lemma identity_inj table table' pk pk' :
  table ∈ projectionTables → table' ∈ projectionTables →
  Forall (λ b, b < 256)%N pk → Forall (λ b, b < 256)%N pk' →
  projectionScratchIdentity (name table) pk = projectionScratchIdentity (name table') pk' →
  table = table' ∧ pk = pk'.
Proof.
  intros Ht Ht' Hpk Hpk' Heq. apply (f_equal bytes_of) in Heq.
  unfold projectionScratchIdentity in Heq.
  rewrite !bytes_of_app, !bytes_of_of_bytes in Heq by (constructor; done).
  pose proof table_names_plain as Hp. rewrite forallb_forall in Hp.
  apply cut_at_zero in Heq as [Hn ->]; [|by apply Hp, list_elem_of_In..]. split; [|done].
  apply table_of_name; [done..|]. by rewrite <-(of_bytes_bytes_of (name table)), Hn, of_bytes_bytes_of.
Qed.

(** ** Keys *)

Section Keys.
Context `{JCSKeys}.

(** What an array of texts and integers is read as. *)
Lemma consumed_scalars l l' depth :
  Forall (λ v, ∃ x, v = JNumber x ∨ ∃ s, v = JString s ∧ utf8_ValidString s = true) l →
  Codec.consumeValue depth (value_of (JArray l)) = inr l' →
  l' = JArray l ∧ forallb key_scalar l = true.
Proof.
  intros Hl. cbn [value_of Codec.consumeValue]. destruct (_ <? _)%nat; [done|].
  match goal with |- context [?f (map value_of l)] => set (consume := f) end.
  assert (Hc : ∀ r, consume (map value_of l) = inr r → r = l ∧ forallb key_scalar l = true).
  { induction Hl as [|v l (x & [->|(s & -> & Hs)]) _ IH]; intros r Hr.
    - by injection Hr as <-.
    - cbn in Hr. destruct (Codec.validateSignedNumber _) eqn:Hv; [done|].
      destruct (consume (map value_of l)) as [|rest]; [done|]. injection Hr as <-.
      destruct (IH rest eq_refl) as [-> Hall].
      destruct (pretty_Z_spec x) as (_ & _ & _ & _ & _ & _ & _ & Hx). rewrite Hx. split; [done|].
      cbn [forallb]. rewrite Hall, andb_true_r. cbn [key_scalar].
      unfold Codec.validateSignedNumber in Hv. apply refuse_None in Hv as [_ Hv].
      unfold Codec.validateIntegerRange in Hv. apply refuse_None in Hv as [Hv _].
      rewrite Hx in Hv. by bools.
    - cbn in Hr. destruct (consume (map value_of l)) as [|rest]; [done|]. injection Hr as <-.
      destruct (IH rest eq_refl) as [-> Hall]. split; [done|]. cbn. by rewrite Hs. }
  destruct (consume (map value_of l)) as [|r]; [done|]. intros [= <-].
  by destruct (Hc r eq_refl) as [-> ?].
Qed.

Lemma scalar_reads v :
  (∃ x, v = JNumber x ∨ ∃ s, v = JString s ∧ utf8_ValidString s = true) →
  reads (2 * length (Marshal.marshal v)) v.
Proof.
  intros (x & [->|(s & -> & Hs)]); [|by apply (read_marshal _ 0)]. intros f r Hf Hr.
  pose proof (marshal_nonempty (JNumber x)) as Hl. destruct f as [|f]; [lia|].
  destruct (marshal_head (JNumber x)) as (b & t & Hb & Hspace & _).
  destruct (pretty_Z_spec x) as (sign & d & l & Hp & Hsign & Hd & _).
  cbn [Marshal.marshal value_of] in *. rewrite Hb. cbn [app].
  assert (Hrange : (b = 45 ∨ 48 ≤ b ≤ 57)%N).
  { rewrite Hp in Hb. destruct Hsign as [->| ->]; cbn [app] in Hb; injection Hb as <- _; [|by left].
    apply Forall_inv, digit_bounds in Hd. lia. }
  rewrite read_scalar by (done || lia). change (b :: t ++ r) with ((b :: t) ++ r). rewrite <-Hb.
  by apply (scalar_number b t).
Qed.

Lemma read_scalars l :
  Forall (λ v, ∃ x, v = JNumber x ∨ ∃ s, v = JString s ∧ utf8_ValidString s = true) l →
  JSON.read_value (Marshal.marshal (JArray l)) = Some (value_of (JArray l), []).
Proof.
  intros Hl. unfold JSON.read_value, JSON.read_fuel. cbn [Marshal.marshal].
  rewrite length_cons, length_app. cbn [length].
  set (len := length (Marshal.separated (map Marshal.marshal l))).
  replace (2 * S (len + 1) + 2) with (S (2 * len + 5)) by lia.
  rewrite read_skip by done. change (91 =? 91)%N with true. cbv iota.
  destruct l as [|v l]; [done|].
  destruct (Marshal.separated (map Marshal.marshal (v :: l)) ++ [93%N]) as [|c z] eqn:Hz.
  { by destruct (Marshal.separated _). }
  assert (Hskip : JSON.skip (c :: z) = c :: z ∧ c ≠ 93%N).
  { destruct (marshal_head v) as (b & t & Hb & Hspace & H93 & _).
    assert (c = b) as ->; [|by split; [apply skip_head|]].
    cbn [map] in Hz. rewrite Hb in Hz. destruct l as [|w l]; cbn [map Marshal.separated app] in Hz;
      injection Hz; congruence. }
  destruct Hskip as [-> H93]. rewrite (proj2 (N.eqb_neq c 93) H93).
  rewrite <-Hz. fold JSON.read_items. rewrite (read_items_marshal (v :: l) []); [done|done| |unfold len; lia].
  eapply Forall_impl; [exact Hl|]. apply scalar_reads.
Qed.

(** The canonical text of a key, and the key it is of. *)
Lemma canonical_key l canonical :
  Forall (λ v, ∃ x, v = JNumber x ∨ ∃ s, v = JString s ∧ utf8_ValidString s = true) l →
  Codec.Canonicalize (Marshal.marshal (JArray l)) = inr canonical →
  canonical = jcs_Append (JArray l) ∧ forallb key_scalar l = true.
Proof.
  intros Hl. unfold Codec.Canonicalize.
  destruct (Codec.validateJSON _ _) as [|v] eqn:Hv; [done|]. intros [= <-].
  apply validated_read in Hv as (w & rest & Hw & _ & Hc). rewrite read_scalars in Hw by done.
  injection Hw as <- _. by destruct (consumed_scalars _ _ _ Hl Hc) as [-> ?].
Qed.

End Keys.

(** ** Rows *)

Section Rows.
Context `{NormLib, JCSLib, CryptoLib, !JCSKeys}.

Abbreviation stored_columns := (logicalColumns column_null logicalProjectionColumn).

(** A bound value is read as the value it was encoded as. *)
Lemma column_agrees kind value stored logical :
  logicalProjectionValue kind value = Some logical → bindValue value = Some stored →
  logicalProjectionColumn kind stored = Some logical ∧ column_null stored = cell_null value.
Proof.
  destruct value as [|text|n|n|bytes|b], kind; cbn; try done.
  all: try (intros Hl [= <-]; by split).
  - destruct (MaxInt64 <? n)%N; [done|]. intros [= <-] [= <-]. cbn.
    by rewrite (proj2 (Z.ltb_ge _ _)) by lia.
  - intros [= <-] [= <-]. by destruct b.
Qed.

Lemma columns_agree columns values row object out pk args :
  logicalColumns cell_null logicalProjectionValue columns values object = Some (out, pk, args) →
  mapM bindValue values = Some row →
  stored_columns columns row object = Some (out, pk, keyColumns columns row) ∧
  mapM bindValue args = Some (keyColumns columns row).
Proof.
  revert values row object out pk args. induction columns as [|column columns IH];
    intros [|value values] row object out pk args Hl Hb; cbn in Hl; try (injection Hl as <- <- <-).
  - by injection Hb as <-.
  - by destruct row.
  - by injection Hb as <-.
  - apply bind_Some in Hb as (stored & Hs & Hb). apply bind_Some in Hb as (rest & Hrest & [= <-]).
    apply bind_Some in Hl as (encoded & He & Hl).
    destruct (column_agrees _ _ _ _ He Hs) as [Hc Hn]. cbn [logicalColumns keyColumns].
    rewrite Hc. cbn [mbind option_bind]. rewrite Hn. destruct (isPrimaryKey column && _); [done|].
    apply bind_Some in Hl as ([[out' pk'] args'] & Hl & [= Hout]).
    destruct (IH _ _ _ _ _ _ Hl Hrest) as [-> Hargs]. cbn [mbind option_bind].
    destruct (isPrimaryKey column); injection Hout as <- <- <-; [|done].
    split; [done|]. cbn [mapM]. rewrite Hs, Hargs. done.
Qed.

Lemma stored_keys columns row object out pk args :
  stored_columns columns row object = Some (out, pk, args) → args = keyColumns columns row.
Proof.
  revert row object out pk args. induction columns as [|column columns IH];
    intros [|stored row] object out pk args Hl; cbn in Hl; try (by injection Hl as <- <- <-).
  apply bind_Some in Hl as (encoded & He & Hl). destruct (isPrimaryKey column && _); [done|].
  apply bind_Some in Hl as ([[out' pk'] args'] & Hl & [= Hout]). apply IH in Hl as ->.
  cbn [keyColumns]. by destruct (isPrimaryKey column); injection Hout as <- <- <-.
Qed.

(** A column of a key as a member of the key. *)
Lemma key_column column stored encoded :
  key_kind column = true → isPrimaryKey column = true → column_null stored = false →
  logicalProjectionColumn (kind column) stored = Some encoded →
  (∃ x, encoded = JNumber x ∨ ∃ s, encoded = JString s ∧ utf8_ValidString s = true) ∧
  ∀ stored', column_null stored' = false →
    logicalProjectionColumn (kind column) stored' = Some encoded → stored' = stored.
Proof.
  unfold key_kind. intros Hk Hp. rewrite Hp in Hk. cbn [negb orb] in Hk.
  unfold column_null. intros Hn Hl. bools.
  destruct Hk as [Hk|Hk]; rewrite Hk in *; destruct stored as [|n|text|bytes]; try done; cbn in Hl.
  - destruct (utf8_ValidString text) eqn:Hu; [|done]. injection Hl as <-.
    split; [exists 0%Z; right; by exists text|]. intros [|n'|text'|bytes'] Hn' Hl'; try done; cbn in Hl'.
    destruct (utf8_ValidString text'); [|done]. by injection Hl' as ->.
  - destruct (n <? 0)%Z eqn:Hz; [done|]. injection Hl as <-. split; [exists n; by left|].
    intros [|n'|text'|bytes'] Hn' Hl'; try done; cbn in Hl'.
    destruct (n' <? 0)%Z; [done|]. by injection Hl' as ->.
Qed.

Lemma keys_agree columns row row' object object' out out' pk pk' args args' :
  forallb key_kind columns = true →
  length row = length columns → length row' = length columns →
  stored_columns columns row object = Some (out, pk, args) →
  stored_columns columns row' object' = Some (out', pk', args') →
  Forall (λ v, ∃ x, v = JNumber x ∨ ∃ s, v = JString s ∧ utf8_ValidString s = true) pk ∧
  (args = args' ↔ pk = pk').
Proof.
  revert row row' object object' out out' pk pk' args args'.
  induction columns as [|column columns IH];
    intros [|stored row] [|stored' row'] object object' out out' pk pk' args args' Hk;
    cbn in *; try done.
  { by intros _ _ [= <- <- <-] [= <- <- <-]. }
  apply andb_true_iff in Hk as [Hc Hk]. intros [= Hlen] [= Hlen'] Hl Hl'.
  apply bind_Some in Hl as (encoded & He & Hl), Hl' as (encoded' & He' & Hl').
  destruct (isPrimaryKey column && column_null stored) eqn:Hn; [done|].
  destruct (isPrimaryKey column && column_null stored') eqn:Hn'; [done|].
  apply bind_Some in Hl as ([[o p] a] & Hl & [= Hout]), Hl' as ([[o' p'] a'] & Hl' & [= Hout']).
  destruct (IH _ _ _ _ _ _ _ _ _ _ Hk Hlen Hlen' Hl Hl') as [Hs Hiff].
  destruct (isPrimaryKey column) eqn:Hp.
  - injection Hout as <- <- <-. injection Hout' as <- <- <-. cbn [andb] in Hn, Hn'.
    destruct (key_column _ _ _ Hc Hp Hn He) as [Hscalar Hinj]. split; [by constructor|].
    split; intros [= Heq Hrest].
    + apply Hiff in Hrest as ->. subst stored'. f_equal. congruence.
    + apply Hiff in Hrest as ->. subst encoded'. f_equal. symmetry. by apply Hinj.
  - injection Hout as <- <- <-. injection Hout' as <- <- <-. done.
Qed.

(** A row of a covered table and the logical row it reads as. *)
Record stored_row (table : projectionTable) (row : list Column) (logical : Chain.LogicalRow)
    : Prop := {
  sr_table : table ∈ projectionTables;
  sr_length : length row = length (columns table);
  sr_logical : logicalProjectionRowFromStatement table row = Some logical }.

Lemma stored_inv table row logical : stored_row table row logical →
  ∃ object pk args, stored_columns (columns table) row ∅ = Some (object, pk, args) ∧
    args = keyColumns (columns table) row ∧
    encodeLogicalProjectionRow pk object = Some (Chain.PrimaryKey logical, Chain.Row logical) ∧
    Chain.Table logical = name table.
Proof.
  intros [_ _ Hl]. unfold logicalProjectionRowFromStatement in Hl.
  apply bind_Some in Hl as ([[object pk] args] & Hc & Hl).
  apply bind_Some in Hl as ([pkBytes rowBytes] & He & [= <-]).
  exists object, pk, args. split_and!; [done|by eapply stored_keys|done..].
Qed.

Lemma encoded_key pk object pkBytes rowBytes :
  encodeLogicalProjectionRow pk object = Some (pkBytes, rowBytes) →
  Codec.Canonicalize (Marshal.marshal (JArray pk)) = inr pkBytes.
Proof.
  unfold encodeLogicalProjectionRow. destruct pk; [done|].
  destruct (Codec.Canonicalize _) as [|canonical]; [done|].
  destruct (Marshal.canonical_object _); [done|]. by intros [= <- _].
Qed.

Lemma table_kinds table : table ∈ projectionTables → forallb key_kind (columns table) = true.
Proof.
  intros Ht. pose proof table_key_kinds as Hk. rewrite forallb_forall in Hk.
  by apply Hk, list_elem_of_In.
Qed.

(** Two rows of a table have one key when they have one logical key. *)
Lemma stored_key table row row' logical logical' :
  stored_row table row logical → stored_row table row' logical' →
  keyColumns (columns table) row = keyColumns (columns table) row' ↔
  Chain.PrimaryKey logical = Chain.PrimaryKey logical'.
Proof.
  intros Hs Hs'.
  destruct (stored_inv _ _ _ Hs) as (o & pk & args & Hc & -> & He%encoded_key & _).
  destruct (stored_inv _ _ _ Hs') as (o' & pk' & args' & Hc' & -> & He'%encoded_key & _).
  pose proof (table_kinds _ (sr_table _ _ _ Hs)) as Hk.
  destruct (keys_agree _ _ _ _ _ _ _ _ _ _ _ Hk (sr_length _ _ _ Hs) (sr_length _ _ _ Hs') Hc Hc')
    as [Hp ->].
  destruct (keys_agree _ _ _ _ _ _ _ _ _ _ _ Hk (sr_length _ _ _ Hs') (sr_length _ _ _ Hs) Hc' Hc)
    as [Hp' _].
  apply canonical_key in He as [-> Hall]; [|done]. apply canonical_key in He' as [-> Hall']; [|done].
  split; [by intros ->|]. intros Heq. apply jcs_keys; [by rewrite Hall|by rewrite Hall'|done].
Qed.

Lemma stored_bytes table row logical :
  stored_row table row logical → Forall (λ b, b < 256)%N (Chain.PrimaryKey logical).
Proof.
  intros Hs. destruct (stored_inv _ _ _ Hs) as (o & pk & args & _ & _ & He%encoded_key & _).
  revert He. unfold Codec.Canonicalize. destruct (Codec.validateJSON _ _); [done|].
  intros [= <-]. apply jcs_bytes.
Qed.

(** A prepared row, once bound, reads back as what it was encoded as. *)
Lemma written_row table values logical args row :
  table ∈ projectionTables → logicalProjectionRowFromValues table values = Some (logical, args) →
  mapM bindValue values = Some row →
  stored_row table row logical ∧ mapM bindValue args = Some (keyColumns (columns table) row).
Proof.
  intros Ht Hl Hb. unfold logicalProjectionRowFromValues in Hl.
  destruct (negb _) eqn:Hlen; [done|]. bools.
  apply bind_Some in Hl as ([[object pk] keys] & Hc & Hl).
  apply bind_Some in Hl as ([pkBytes rowBytes] & He & [= <- <-]).
  destruct (columns_agree _ _ _ _ _ _ _ Hc Hb) as [Hs Ha]. split; [|done]. split; [done| |].
  - apply length_mapM in Hb. apply Nat.eqb_eq in Hlen. congruence.
  - unfold logicalProjectionRowFromStatement. rewrite Hs. cbn [mbind option_bind]. by rewrite He.
Qed.

(** ** The scratch copy of the stored tables *)

Record mirrors (db : Database) (scratch : ProjectionScratch) : Prop := {
  mirrored : ∀ t key row, db !! (t, key) = Some row →
    ∃ table logical, stored_row table row logical ∧ t = name table ∧
      key = keyColumns (columns table) row ∧ scratch !! row_identity logical = Some logical;
  mirroring : ∀ identity logical, scratch !! identity = Some logical →
    ∃ table row, stored_row table row logical ∧ identity = row_identity logical ∧
      db !! (name table, keyColumns (columns table) row) = Some row }.

Lemma identity_table table row logical : stored_row table row logical →
  row_identity logical = projectionScratchIdentity (name table) (Chain.PrimaryKey logical).
Proof. intros (o & pk & args & _ & _ & _ & Hn)%stored_inv. unfold row_identity. by rewrite Hn. Qed.

Lemma same_identity table table' row row' logical logical' :
  stored_row table row logical → stored_row table' row' logical' →
  row_identity logical = row_identity logical' ↔
  (name table, keyColumns (columns table) row) = (name table', keyColumns (columns table') row').
Proof.
  intros Hs Hs'. rewrite (identity_table _ _ _ Hs), (identity_table _ _ _ Hs'). split.
  - intros Heq. apply identity_inj in Heq as [-> Hk];
      [|by eapply sr_table|by eapply sr_table|by eapply stored_bytes|by eapply stored_bytes].
    f_equal. by apply (stored_key _ _ _ _ _ Hs Hs').
  - intros [= Hn Hk]. assert (table = table') as ->.
    { apply table_of_name; [by eapply sr_table|by eapply sr_table|done]. }
    by apply (stored_key _ _ _ _ _ Hs Hs') in Hk as ->.
Qed.

(** The row at a key is the scratch row at its identity. *)
Lemma mirrors_read db scratch table values logical args row :
  mirrors db scratch → table ∈ projectionTables →
  logicalProjectionRowFromValues table values = Some (logical, args) →
  mapM bindValue values = Some row →
  readProjectionRow db table args = inr (scratch !! row_identity logical).
Proof.
  intros Hm Ht Hl Hb. destruct (written_row _ _ _ _ _ Ht Hl Hb) as [Hs Ha].
  unfold readProjectionRow. rewrite Ha.
  destruct (db !! _) as [stored|] eqn:Hdb.
  - destruct (mirrored _ _ Hm _ _ _ Hdb) as (table' & logical' & Hs' & Hn & Hk & Hscratch).
    assert (table' = table) as ->.
    { apply table_of_name; [by eapply sr_table|done|done]. }
    rewrite (sr_logical _ _ _ Hs').
    assert (row_identity logical = row_identity logical') as ->; [|by rewrite Hscratch].
    apply (same_identity _ _ _ _ _ _ Hs Hs'). by rewrite Hk.
  - destruct (scratch !! row_identity logical) as [logical'|] eqn:Hscratch; [|done].
    destruct (mirroring _ _ Hm _ _ Hscratch) as (table' & row' & Hs' & Hid & Hdb').
    apply (same_identity _ _ _ _ _ _ Hs Hs') in Hid. rewrite Hid in Hdb. congruence.
Qed.

(** Writing a row on both sides. *)
Lemma mirrors_insert db scratch table row logical :
  mirrors db scratch → stored_row table row logical →
  mirrors (<[(name table, keyColumns (columns table) row) := row]> db)
    (<[row_identity logical := logical]> scratch).
Proof.
  intros Hm Hs. split.
  - intros t key row' [[[= <- <-] <-]|[Hne Hdb]]%lookup_insert_Some.
    { exists table, logical. split_and!; [done..|]. apply lookup_insert_eq. }
    destruct (mirrored _ _ Hm _ _ _ Hdb) as (table' & logical' & Hs' & -> & -> & Hscratch).
    exists table', logical'. split_and!; [done..|]. etrans; [apply lookup_insert_ne|done].
    by intros Heq%(same_identity _ _ _ _ _ _ Hs Hs').
  - intros identity logical' [[<- <-]|[Hne Hscratch]]%lookup_insert_Some.
    { exists table, row. split_and!; [done..|]. apply lookup_insert_eq. }
    destruct (mirroring _ _ Hm _ _ Hscratch) as (table' & row' & Hs' & -> & Hdb).
    exists table', row'. split_and!; [done..|]. etrans; [apply lookup_insert_ne|done].
    by intros Heq%(same_identity _ _ _ _ _ _ Hs Hs').
Qed.

(** *** One write set *)

Context `{Schema}.

Definition apply_target (scratch : ProjectionScratch) (target : projectionTarget)
    : ProjectionScratch := <[target_identity target := target_row target]> scratch.

(** A target is a prepared row of a covered table that binds. *)
Definition target_ok (target : projectionTarget) : Prop :=
  table target ∈ projectionTables ∧
  ∃ values logical row,
    logicalProjectionRowFromValues (table target) values = Some (logical, keyArguments target) ∧
    mapM bindValue values = Some row ∧ target_row target = logical.

Lemma execute_mirrors db scratch table values logical args db' :
  mirrors db scratch → table ∈ projectionTables →
  logicalProjectionRowFromValues table values = Some (logical, args) →
  execute db table values = inr db' →
  is_Some (mapM bindValue values) ∧ mirrors db' (<[row_identity logical := logical]> scratch).
Proof.
  intros Hm Ht Hl Hx. unfold execute in Hx.
  destruct (mapM bindValue values) as [row|] eqn:Hb; [|done].
  apply throw_inr in Hx as [_ [= <-]]. split; [done|].
  apply mirrors_insert; [done|]. by eapply written_row.
Qed.

Lemma target_of_values table values logical args row :
  table ∈ projectionTables → logicalProjectionRowFromValues table values = Some (logical, args) →
  mapM bindValue values = Some row →
  let target := mkProjectionTarget table args (Chain.PrimaryKey logical) (Chain.Row logical) in
  target_ok target ∧ target_identity target = row_identity logical ∧
  target_row target = logical.
Proof.
  intros Ht Hl Hb target. destruct (written_row _ _ _ _ _ Ht Hl Hb) as [Hs _].
  destruct (stored_inv _ _ _ Hs) as (_ & _ & _ & _ & _ & _ & Hn).
  assert (Hrow : target_row target = logical).
  { unfold target_row, target. cbn. rewrite <-Hn. by destruct logical. }
  split_and!; [split; [done|]; by exists values, logical, row| |done].
  by rewrite (identity_table _ _ _ Hs).
Qed.

Lemma rows_mirror table index rows seen targets seen' db scratch db' :
  table ∈ projectionTables → tableTargets table index rows seen = inr (targets, seen') →
  writeProjectionRows db table rows = inr db' → mirrors db scratch →
  Forall target_ok targets ∧ mirrors db' (foldl apply_target scratch targets).
Proof.
  intros Ht. revert index seen targets seen' db scratch.
  induction rows as [|values rows IH]; intros index seen targets seen' db scratch Htargets Hw Hm;
    cbn in Htargets, Hw.
  { injection Htargets as <- <-. by injection Hw as <-. }
  destruct (logicalProjectionRowFromValues table values) as [[logical args]|] eqn:Hl; [|done].
  apply throw_inr in Htargets as [_ Htargets].
  apply and_then_inr in Htargets as ([rest seen2] & Hrest & [= <- <-]).
  apply and_then_inr in Hw as (db1 & Hx & Hw).
  destruct (execute_mirrors _ _ _ _ _ _ _ Hm Ht Hl Hx) as [[row Hb] Hm1].
  destruct (target_of_values _ _ _ _ _ Ht Hl Hb) as (Hok & Hid & Hrow).
  destruct (IH _ _ _ _ _ _ Hrest Hw Hm1) as [Hall Hm2]. split; [by constructor|].
  cbn [foldl]. unfold apply_target at 2. by rewrite Hid, Hrow.
Qed.

Lemma tables_mirror tables rows seen targets db scratch db' :
  Forall (λ table, table ∈ projectionTables) tables →
  targetsFrom tables rows seen = inr targets → writeTables db tables rows = inr db' →
  mirrors db scratch →
  Forall target_ok targets ∧ mirrors db' (foldl apply_target scratch targets).
Proof.
  intros Hall. revert seen targets db scratch.
  induction Hall as [|table tables Ht _ IH]; intros seen targets db scratch Htargets Hw Hm;
    cbn in Htargets, Hw.
  { injection Htargets as <-. by injection Hw as <-. }
  apply and_then_inr in Htargets as ([first seen1] & Hfirst & Htargets).
  apply and_then_inr in Htargets as (others & Hothers & [= <-]).
  apply and_then_inr in Hw as (db1 & Hw1 & Hw).
  destruct (rows_mirror _ _ _ _ _ _ _ _ _ Ht Hfirst Hw1 Hm) as [Hok Hm1].
  destruct (IH _ _ _ _ Hothers Hw Hm1) as [Hok' Hm2].
  rewrite foldl_app. split; [by apply Forall_app|done].
Qed.

Lemma target_read db scratch target :
  mirrors db scratch → target_ok target →
  readProjectionRow db (table target) (keyArguments target) =
  inr (scratch !! target_identity target).
Proof.
  intros Hm (Ht & values & logical & row & Hl & Hb & Hrow).
  rewrite (mirrors_read _ _ _ _ _ _ _ Hm Ht Hl Hb), <-Hrow. done.
Qed.

Lemma befores_read db scratch targets befores :
  mirrors db scratch → Forall target_ok targets → readBefores db targets = inr befores →
  befores = (λ target, Chain.mkMutation (name (table target)) (primaryKey target)
               (Chain.Row <$> scratch !! target_identity target) None) <$> targets.
Proof.
  intros Hm Hall. revert befores. induction Hall as [|target targets Ht _ IH]; intros befores Hb;
    cbn in Hb; [by injection Hb as <-|].
  rewrite (target_read _ _ _ Hm Ht) in Hb. cbn [and_then] in Hb.
  apply and_then_inr in Hb as (others & Ho & [= <-]). by rewrite (IH _ Ho).
Qed.

Lemma afters_read db scratch targets mutations :
  readAfters db targets
    ((λ target, Chain.mkMutation (name (table target)) (primaryKey target)
        (Chain.Row <$> scratch !! target_identity target) None) <$> targets) = inr mutations →
  mutations = scratchMutation scratch <$> targets.
Proof.
  revert mutations. induction targets as [|target targets IH]; intros mutations Ha; cbn in Ha;
    [by injection Ha as <-|].
  apply and_then_inr in Ha as ([after|] & _ & Ha); [|done].
  apply throw_inr in Ha as [Hc Ha]. apply and_then_inr in Ha as (complete & Hrest & [= <-]).
  bools. destruct Hc as [_ Hc]. rewrite (IH _ Hrest). cbn. unfold scratchMutation at 2. by rewrite Hc.
Qed.

(** The committed mutations are those of the scratch copy, and the two still
    agree. *)
Lemma mutations_mirror db scratch prepared mutations db' :
  mirrors db scratch → projectionMutations db prepared = inr (mutations, db') →
  ∃ targets, projectionTargets prepared = inr targets ∧
    mutations = scratchMutation scratch <$> targets ∧
    mirrors db' (foldl apply_target scratch targets).
Proof.
  intros Hm Hp. unfold projectionMutations in Hp.
  apply and_then_inr in Hp as (targets & Ht & Hp). apply and_then_inr in Hp as (befores & Hb & Hp).
  apply and_then_inr in Hp as (db1 & Hw & Hp). apply and_then_inr in Hp as (ms & Ha & [= <- <-]).
  exists targets. destruct (tables_mirror _ _ _ _ _ _ _ (proj2 (Forall_forall _ _) (λ t Hin, Hin))
    Ht Hw Hm) as [Hall Hm']. split_and!; [done| |done].
  rewrite (befores_read _ _ _ _ Hm Hall Hb) in Ha. by apply afters_read in Ha.
Qed.

End Rows.

End ProjectionProofs.
