(* ===== verification/StoredDigest.v ===== *)
(** * The stream of the stored rows and its digest

    [Module StreamProofs]: a stream shows its visitor every stored row once, in
    registry and key order, and the digest of rows handed over in that order is
    the digest the chain defines on the set of them. *)

From stdpp Require Import base gmap strings list sorting.
From Stdlib Require Import ZArith NArith Lia.
From S2P Require Import Prelude.
From S2P Require Import GoLib.
From S2P Require Import CodecLayer.
From S2P Require Import ChainCommitments.
From S2P Require Import ChainProofs.
From S2P Require Import ProjectionRows.
From S2P Require Import ProjectionStore.
From S2P Require Import ProjectionStream.
From S2P Require Import ProjectionProofs.

Module StreamProofs.

Import Projections ProjectionStore ProjectionStream ProjectionProofs.

Lemma Forall2_elem_of_r {A B} (P : A → B → Prop) l k y :
  Forall2 P l k → y ∈ k → ∃ x, x ∈ l ∧ P x y.
Proof.
  induction 1 as [|x z l k Hp _ IH]; [by intros ?%not_elem_of_nil|].
  intros [->|Hin]%elem_of_cons; [exists x; by split; [left|]|].
  destruct (IH Hin) as (x' & ? & ?). exists x'. by split; [right|].
Qed.

Lemma Forall2_elem_of_l {A B} (P : A → B → Prop) l k x :
  Forall2 P l k → x ∈ l → ∃ y, y ∈ k ∧ P x y.
Proof. intros Hall%Forall2_flip Hin. exact (Forall2_elem_of_r _ _ _ _ Hall Hin). Qed.

(** ** Streams as lists *)

Section Visits.
Context {S : Type} (visit : S → Chain.LogicalRow → Error + S).

Fixpoint visits (st : S) (rows : list Chain.LogicalRow) : Error + S :=
  match rows with
  | [] => inr st
  | row :: rest => let* st' := visit st row in visits st' rest
  end.

Lemma visits_app st rows rows' :
  visits st (rows ++ rows') = and_then (visits st rows) (λ st', visits st' rows').
Proof.
  revert st. induction rows as [|row rows IH]; intros st; [done|]. cbn.
  destruct (visit st row); [done|]. apply IH.
Qed.
End Visits.

Section Stream.
Context `{NormLib, JCSLib, CryptoLib, SQLiteJSON, !JCSKeys}.

(** The logical rows of a table, in the order of the stream. *)
Definition table_rows (db : Database) (table : projectionTable) (rows : list Chain.LogicalRow)
    : Prop :=
  Forall2 (λ row logical, streamRow table row = inr logical) (orderedRows db table) rows.

Lemma streamRows_iff {S} (visit : S → Chain.LogicalRow → Error + S) table rows st st' :
  streamRows visit table rows st = inr st' ↔
  ∃ logicals, Forall2 (λ row logical, streamRow table row = inr logical) rows logicals ∧
    visits visit st logicals = inr st'.
Proof.
  revert st. induction rows as [|row rows IH]; intros st; cbn.
  { split; [intros [= ->]; exists []; by split|]. by intros (? & ->%Forall2_nil_inv_l & Hv). }
  rewrite and_then_inr. split.
  - intros (logical & Hl & (st1 & Hv & Hs)%and_then_inr). apply IH in Hs as (ls & Hall & Hvs).
    exists (logical :: ls). split; [by constructor|]. cbn. by rewrite Hv.
  - intros (ls & Hall & Hv). apply Forall2_cons_inv_l in Hall as (logical & rest & Hl & Hall & ->).
    exists logical. split; [done|]. cbn in Hv. apply and_then_inr in Hv as (st1 & Hv1 & Hv).
    rewrite Hv1. cbn. apply IH. by exists rest.
Qed.

Lemma streamTables_iff {S} (visit : S → Chain.LogicalRow → Error + S) db tables st st' :
  streamTables visit db tables st = inr st' ↔
  ∃ per, Forall2 (table_rows db) tables per ∧ visits visit st (concat per) = inr st'.
Proof.
  revert st. induction tables as [|table tables IH]; intros st; cbn.
  { split; [intros [= ->]; exists []; by split|]. by intros (? & ->%Forall2_nil_inv_l & Hv). }
  rewrite and_then_inr. split.
  - intros (st1 & (ls & Hall & Hv)%streamRows_iff & (per & Hper & Hvs)%IH).
    exists (ls :: per). split; [by constructor|]. cbn. by rewrite visits_app, Hv.
  - intros (per & Hall & Hv). apply Forall2_cons_inv_l in Hall as (ls & rest & Hl & Hall & ->).
    cbn in Hv. rewrite visits_app in Hv. apply and_then_inr in Hv as (st1 & Hv1 & Hv).
    exists st1. split; [apply streamRows_iff; by exists ls|]. apply IH. by exists rest.
Qed.

(** The rows a stream shows. *)
Definition lists (db : Database) (rows : list Chain.LogicalRow) : Prop :=
  ∃ per, Forall2 (table_rows db) projectionTables per ∧ rows = concat per.

Lemma stream_iff {S} (visit : S → Chain.LogicalRow → Error + S) db st st' :
  streamProjectionLogicalRows visit db st = inr st' ↔
  ∃ rows, lists db rows ∧ visits visit st rows = inr st'.
Proof.
  unfold streamProjectionLogicalRows. rewrite streamTables_iff. split.
  - intros (per & Hall & Hv). exists (concat per). split; [by exists per|done].
  - intros (rows & (per & Hall & ->) & Hv). by exists per.
Qed.

Lemma table_rows_unique db table rows rows' :
  table_rows db table rows → table_rows db table rows' → rows = rows'.
Proof.
  unfold table_rows. generalize (orderedRows db table) as stored. intros stored Hr. revert rows'.
  induction Hr as [|row l stored rows Hl _ IH]; intros rows' Hr'.
  - by apply Forall2_nil_inv_l in Hr' as ->.
  - apply Forall2_cons_inv_l in Hr' as (l' & rest & Hl' & Hr' & ->).
    rewrite (IH _ Hr'). f_equal. congruence.
Qed.

Lemma lists_unique db rows rows' : lists db rows → lists db rows' → rows = rows'.
Proof.
  intros (per & Hp & ->) (per' & Hp' & ->). f_equal. revert per' Hp'.
  induction Hp as [|table ls tables per Hls _ IH]; intros per' Hp'.
  - by apply Forall2_nil_inv_l in Hp' as ->.
  - apply Forall2_cons_inv_l in Hp' as (ls' & rest & Hls' & Hp' & ->).
    rewrite (IH _ Hp'). f_equal. by eapply table_rows_unique.
Qed.

Lemma projectionLogicalRows_iff db rows : projectionLogicalRows db = inr rows ↔ lists db rows.
Proof.
  unfold projectionLogicalRows. rewrite stream_iff.
  assert (Hv : ∀ l start, visits (λ rows row, inr (rows ++ [row]) : Error + _) start l = inr (start ++ l)).
  { induction l as [|x l IH]; intros start; cbn; [by rewrite app_nil_r|].
    by rewrite IH, <-app_assoc. }
  split.
  - intros (l & Hl & Hv'). rewrite Hv in Hv'. by injection Hv' as <-.
  - intros Hl. exists rows. by rewrite Hv.
Qed.

(** ** The rows of a stream are the stored rows *)

(** SQLite's part: a row is stored under its own table and key. *)
Definition keyed (db : Database) : Prop :=
  ∀ t key row, db !! (t, key) = Some row → ∃ table, table ∈ projectionTables ∧
    t = name table ∧ length row = length (columns table) ∧ key = keyColumns (columns table) row.

Lemma mirrors_keyed db scratch : mirrors db scratch → keyed db.
Proof.
  intros Hm t key row Hdb. destruct (mirrored _ _ Hm _ _ _ Hdb) as (table & l & Hs & -> & -> & _).
  exists table. split_and!; [by eapply sr_table|done|by eapply sr_length|done].
Qed.

Lemma rowsOf_iff db table row :
  row ∈ rowsOf db table ↔ ∃ key, db !! (name table, key) = Some row.
Proof.
  unfold rowsOf. rewrite list_elem_of_fmap. split.
  - intros ([[t key] row'] & -> & Hin). apply list_elem_of_filter in Hin as [Hn Hin].
    cbn in Hn. subst t. exists key. by apply elem_of_map_to_list.
  - intros (key & Hdb). exists ((name table, key), row). split; [done|].
    apply list_elem_of_filter. split; [done|]. by apply elem_of_map_to_list.
Qed.

Lemma orderedRows_iff db table row :
  row ∈ orderedRows db table ↔ ∃ key, db !! (name table, key) = Some row.
Proof. unfold orderedRows. rewrite merge_sort_Permutation. apply rowsOf_iff. Qed.

Lemma streamRow_inv table row logical :
  streamRow table row = inr logical ↔
  logicalProjectionRowFromStatement table row = Some logical ∧
  projectionPrimaryKeyJSONExpression table row = Chain.PrimaryKey logical.
Proof.
  unfold streamRow. destruct (logicalProjectionRowFromStatement table row) as [l|]; [|by split; [|intros []]].
  rewrite throw_inr. split.
  - intros [Hc [= ->]]. by bools.
  - intros [[= ->] Hk]. split; [|done]. by bools.
Qed.

Lemma table_rows_elem db table rows logical :
  keyed db → table ∈ projectionTables → table_rows db table rows →
  logical ∈ rows ↔ ∃ row, stored_row table row logical ∧
    db !! (name table, keyColumns (columns table) row) = Some row.
Proof.
  intros Hk Ht Hall. split.
  - intros Hin. destruct (Forall2_elem_of_r _ _ _ _ Hall Hin) as (row & Hrow & [Hl _]%streamRow_inv).
    apply orderedRows_iff in Hrow as [key Hdb].
    destruct (Hk _ _ _ Hdb) as (table' & Ht' & Hn & Hlen & ->).
    assert (table' = table) as -> by (by apply table_of_name). exists row. by split.
  - intros (row & [_ _ Hl] & Hdb).
    assert (Hrow : row ∈ orderedRows db table) by (apply orderedRows_iff; eauto).
    destruct (Forall2_elem_of_l _ _ _ _ Hall Hrow) as (l & Hin & [Hl' _]%streamRow_inv). congruence.
Qed.

Lemma lists_elem db rows logical :
  keyed db → lists db rows →
  logical ∈ rows ↔ ∃ table row, stored_row table row logical ∧
    db !! (name table, keyColumns (columns table) row) = Some row.
Proof.
  intros Hk (per & Hall & ->). rewrite list_elem_of_In, in_concat. setoid_rewrite <-list_elem_of_In.
  split.
  - intros (ls & Hls & Hin). destruct (Forall2_elem_of_r _ _ _ _ Hall Hls) as (table & Ht & Hrows).
    exists table. by apply (table_rows_elem db table ls).
  - intros (table & row & Hs & Hdb).
    destruct (Forall2_elem_of_l _ _ _ _ Hall (sr_table _ _ _ Hs)) as (ls & Hls & Hrows).
    exists ls. split; [done|]. apply (table_rows_elem db table ls); [done|by eapply sr_table|done|].
    by exists row.
Qed.

(** What a mirroring scratch copy holds is what the stream shows. *)
Lemma mirrors_lists db scratch rows logical :
  mirrors db scratch → lists db rows →
  scratch !! row_identity logical = Some logical ↔ logical ∈ rows.
Proof.
  intros Hm Hl. rewrite (lists_elem _ _ _ (mirrors_keyed _ _ Hm) Hl). split.
  - intros (table & row & Hs & _ & Hdb)%(mirroring _ _ Hm). by exists table, row.
  - intros (table & row & Hs & Hdb).
    destruct (mirrored _ _ Hm _ _ _ Hdb) as (table' & l & Hs' & Hn & _ & Hscratch).
    assert (table' = table) as ->.
    { apply table_of_name; [by eapply sr_table|by eapply sr_table|done]. }
    pose proof (sr_logical _ _ _ Hs). pose proof (sr_logical _ _ _ Hs'). congruence.
Qed.

(** The scratch copy of a list of rows. *)
Definition scratch_of (rows : list Chain.LogicalRow) : ProjectionScratch :=
  foldl (λ scratch row, <[row_identity row := row]> scratch) ∅ rows.

Lemma scratch_of_lookup rows identity logical :
  scratch_of rows !! identity = Some logical → logical ∈ rows ∧ identity = row_identity logical.
Proof.
  unfold scratch_of. induction rows as [|row rows IH] using rev_ind; [cbn; by intros Hl%(lookup_empty_Some (M := gmap string))|].
  rewrite foldl_app. cbn. intros [[<- <-]|[_ Hin]]%lookup_insert_Some; [set_solver|].
  apply IH in Hin as [Hin ->]. set_solver.
Qed.

Lemma scratch_of_present rows row :
  row ∈ rows → is_Some (scratch_of rows !! row_identity row).
Proof.
  unfold scratch_of. induction rows as [|row' rows IH] using rev_ind; [set_solver|].
  rewrite foldl_app. cbn. intros Hin.
  destruct (decide (row_identity row' = row_identity row)) as [Heq|Hne].
  - rewrite Heq. eexists. apply lookup_insert_eq.
  - apply elem_of_app in Hin as [Hin|Hin]; [|set_solver]. destruct (IH Hin) as [l Hl].
    exists l. etrans; [by apply lookup_insert_ne|done].
Qed.

Lemma lists_mirrors db rows : keyed db → lists db rows → mirrors db (scratch_of rows).
Proof.
  intros Hk Hl. split.
  - intros t key row Hdb. destruct (Hk _ _ _ Hdb) as (table & Ht & -> & Hlen & ->).
    assert (∃ logical, stored_row table row logical) as [logical Hs].
    { destruct Hl as (per & Hall & _).
      destruct (Forall2_elem_of_l _ _ _ _ Hall Ht) as (ls & _ & Hrows).
      assert (Hrow : row ∈ orderedRows db table) by (apply orderedRows_iff; eauto).
      destruct (Forall2_elem_of_l _ _ _ _ Hrows Hrow) as (l & _ & [Hl _]%streamRow_inv).
      by exists l. }
    exists table, logical. split_and!; [done..|].
    assert (Hin : logical ∈ rows) by (apply (lists_elem db rows logical Hk Hl); eauto).
    destruct (scratch_of_present _ _ Hin) as [other Ho]. rewrite Ho. f_equal.
    apply scratch_of_lookup in Ho as [Hin' Hid].
    apply (lists_elem db rows other Hk Hl) in Hin' as (table' & row' & Hs' & Hdb').
    apply (same_identity _ _ _ _ _ _ Hs Hs') in Hid. rewrite Hid in Hdb.
    injection Hid as Hn _. assert (table = table') as ->.
    { apply table_of_name; [done|by eapply sr_table|done]. }
    pose proof (sr_logical _ _ _ Hs). pose proof (sr_logical _ _ _ Hs'). congruence.
  - intros identity logical [Hin ->]%scratch_of_lookup.
    apply (lists_elem db rows logical Hk Hl) in Hin as (table & row & Hs & Hdb).
    by exists table, row.
Qed.

End Stream.

End StreamProofs.

(** ** Digests of rows handed over in order

    [Module DigestProofs]: rows grouped by table in registry order, each group
    in strict key order, give the streamed digester the digest of their set;
    the stored tables and the rewound rows are handed over that way. *)

Module DigestProofs.

Import Chain ChainProofs.

(** The keys of a group strictly ascend. *)
Definition ascending (rows : list LogicalRow) : Prop :=
  StronglySorted (λ a b, bytes_le (PrimaryKey a) (PrimaryKey b) = true) rows ∧
  NoDup (PrimaryKey <$> rows).

Lemma rows_in_all l i : Forall (λ row, prTableIndex row = i) l → rows_in l i = l.
Proof.
  induction 1 as [|row l Hr _ IH]; [done|]. unfold rows_in in *.
  by rewrite filter_cons_True, IH.
Qed.

Section Lib.
Context `{JCSLib, CryptoLib}.

Lemma Append_prepares d row d' : Append d row = inr d' → ∃ p, prepareRow row = inr p.
Proof.
  unfold Append, prepareRow. destruct (_ || _); [done|].
  destruct (lookupTable (Table row)) as [[spec i]|]; [|done].
  destruct (skipTables _ _) as [d1|]; [|done]. destruct (_ || _); [done|].
  destruct (validatePrimaryKey spec (PrimaryKey row)) as [|components]; [done|].
  destruct (negb (validateLogicalRow spec components (Row row))); [done|]. eauto.
Qed.

Lemma appendAll_prepares rows d d' :
  appendAll d rows = inr d' → ∃ all, Forall2 (λ row p, prepareRow row = inr p) rows all.
Proof.
  revert d. induction rows as [|row rows IH]; intros d; cbn; [eexists; constructor|].
  destruct (Append d row) as [|d1] eqn:Ha; [done|]. intros Hr.
  destruct (Append_prepares _ _ _ Ha) as [p Hp]. destruct (IH _ Hr) as [all Hall].
  exists (p :: all). by constructor.
Qed.

(** The index of a covered table is its place in the registry. *)
Definition indexed (tables : list string) (start : nat) : Prop :=
  ∀ i t, tables !! i = Some t → ∀ spec j, lookupTable t = Some (spec, j) → j = (start + i)%nat.

Lemma CoveredTables_indexed : indexed CoveredTables 0.
Proof.
  intros i t Hi spec j Hj. apply lookupTable_Some in Hj as [Hj _].
  apply (NoDup_lookup CoveredTables) with t; [|done|done].
  apply (bool_decide_unpack _). vm_compute. done.
Qed.

Lemma StronglySorted_app_2 {A} (R : A → A → Prop) l k :
  StronglySorted R l → StronglySorted R k → (∀ x y, x ∈ l → y ∈ k → R x y) →
  StronglySorted R (l ++ k).
Proof.
  induction 1 as [|x l Hs IH Hx]; intros Hk Hlk; [done|]. cbn. constructor.
  - apply IH; [done|]. intros; apply Hlk; [by right|done].
  - apply Forall_app. split; [done|]. apply Forall_forall. intros y Hy. apply Hlk; [by left|done].
Qed.

Lemma prepared_fields row p spec i : prepareRow row = inr p → lookupTable (Table row) = Some (spec, i) →
  prTableIndex p = i ∧ prPrimaryKey p = PrimaryKey row.
Proof.
  unfold prepareRow. intros Hp Ht. rewrite Ht in Hp. destruct (validatePrimaryKey _ _); [done|].
  destruct (negb _); [done|]. by injection Hp as <-.
Qed.

Lemma prepared_table row p : prepareRow row = inr p →
  ∃ spec, lookupTable (Table row) = Some (spec, prTableIndex p).
Proof.
  intros Hp. destruct (lookupTable (Table row)) as [[spec i]|] eqn:Ht.
  - destruct (prepared_fields _ _ _ _ Hp Ht) as [-> _]. by exists spec.
  - unfold prepareRow in Hp. by rewrite Ht in Hp.
Qed.

(** One group. *)
Lemma group_ordered rows all i :
  ascending rows → Forall2 (λ row p, prepareRow row = inr p) rows all →
  Forall (λ p, prTableIndex p = i) all → ordered row_position all.
Proof.
  intros [Hs Hnd] Hall. induction Hall as [|row p rows all Hp Hall IH]; intros Hi; [constructor|].
  apply StronglySorted_inv in Hs as [Hs Hle]. rewrite fmap_cons in Hnd.
  apply NoDup_cons in Hnd as [Hnew Hnd]. apply Forall_cons in Hi as [Hpi Hi].
  constructor; [by apply IH|]. clear IH Hs Hnd. rewrite Forall_forall in Hle.
  apply Forall_forall. intros q Hq.
  assert (∃ row', row' ∈ rows ∧ prepareRow row' = inr q) as (row' & Hrow' & Hq').
  { clear -Hall Hq. induction Hall as [|r x rows all Hx _ IH]; [by apply not_elem_of_nil in Hq|].
    apply elem_of_cons in Hq as [->|Hq]; [exists r; by split; [left|]|].
    destruct (IH Hq) as (r' & ? & ?). exists r'. by split; [right|]. }
  destruct (prepared_table _ _ Hp) as [spec Ht]. destruct (prepared_table _ _ Hq') as [spec' Ht'].
  destruct (prepared_fields _ _ _ _ Hp Ht) as [_ Hkp].
  destruct (prepared_fields _ _ _ _ Hq' Ht') as [_ Hkq].
  rewrite Forall_forall in Hi. specialize (Hi q Hq). unfold position_le, row_position. cbn.
  rewrite Hkp, Hkq, Hpi, Hi. split; [right; split; [done|]; by apply Hle|].
  intros [= Heq]. apply Hnew. rewrite Heq. by apply list_elem_of_fmap_2.
Qed.

Context (per : string → list LogicalRow).
Hypothesis (per_table : ∀ t row, row ∈ per t → Table row = t).
Hypothesis (per_ascending : ∀ t, ascending (per t)).

Lemma grouped tables start all :
  indexed tables start → Forall2 (λ row p, prepareRow row = inr p) (tables ≫= per) all →
  ordered row_position all ∧ Forall (λ p, start ≤ prTableIndex p)%nat all ∧
  ∀ i t, tables !! i = Some t → countRows all (start + i) = llen (per t).
Proof.
  revert start all. induction tables as [|t tables IH]; intros start all Hindexed Hall.
  { cbn in Hall. apply Forall2_nil_inv_l in Hall as ->. split_and!; [constructor..|done]. }
  cbn in Hall. apply Forall2_app_inv_l in Hall as (a1 & a2 & H1 & H2 & ->).
  assert (Hi1 : Forall (λ p, prTableIndex p = start) a1).
  { apply Forall_forall. intros p Hp.
    assert (∃ row, row ∈ per t ∧ prepareRow row = inr p) as (row & Hrow & Hrp).
    { clear -H1 Hp. induction H1 as [|r x rows all Hx _ IH]; [by apply not_elem_of_nil in Hp|].
      apply elem_of_cons in Hp as [->|Hp]; [exists r; by split; [left|]|].
      destruct (IH Hp) as (r' & ? & ?). exists r'. by split; [right|]. }
    destruct (prepared_table _ _ Hrp) as [spec Ht]. rewrite (per_table _ _ Hrow) in Ht.
    rewrite (Hindexed 0 t eq_refl _ _ Ht). lia. }
  destruct (IH (S start) a2) as (Ho2 & Hi2 & Hc2); [|done|].
  { intros i t' Hi spec j Hj. rewrite (Hindexed (S i) t' Hi spec j Hj). lia. }
  pose proof (group_ordered _ _ _ (per_ascending t) H1 Hi1) as Ho1.
  rewrite Forall_forall in Hi1, Hi2. split_and!.
  - apply StronglySorted_app_2; [done..|]. intros x y Hx Hy.
    specialize (Hi1 x Hx). specialize (Hi2 y Hy). cbn in Hi1, Hi2.
    unfold position_le, row_position. cbn. split; [left; lia|]. intros [=]. lia.
  - apply Forall_app. split; apply Forall_forall.
    + intros x Hx. by rewrite (Hi1 x Hx).
    + intros x Hx. specialize (Hi2 x Hx). cbn in Hi2. lia.
  - assert (Hcount : ∀ i, countRows (a1 ++ a2) i = (countRows a1 i + countRows a2 i)%N).
    { intros i. unfold countRows, llen. rewrite filter_app, length_app. lia. }
    assert (Hnone : ∀ l i, (∀ p, p ∈ l → prTableIndex p ≠ i) → countRows l i = 0%N).
    { intros l i Hl. change (countRows l i) with (llen (rows_in l i)).
      rewrite rows_in_none; [done|]. by apply Forall_forall. }
    intros [|i] t' Ht; cbn in Ht.
    + injection Ht as <-. rewrite Hcount, (Hnone a2).
      * rewrite N.add_0_r, Nat.add_0_r. change (countRows a1 start) with (llen (rows_in a1 start)).
        unfold llen. rewrite rows_in_all by (by apply Forall_forall).
        by rewrite (Forall2_length _ _ _ H1).
      * intros p Hp. specialize (Hi2 p Hp). cbn in Hi2. lia.
    + rewrite Hcount, (Hnone a1), Nat.add_succ_r by (intros p Hp; rewrite (Hi1 p Hp); lia).
      rewrite N.add_0_l. by apply Hc2.
Qed.

Definition group_counts : list TableRowCount :=
  (λ table, mkTableRowCount table (llen (per table))) <$> CoveredTables.

Lemma group_counts_eq all :
  Forall2 (λ row p, prepareRow row = inr p) (CoveredTables ≫= per) all →
  group_counts = zip_with mkTableRowCount CoveredTables
                   (countRows all <$> seq 0 (length coveredTableRegistry)).
Proof.
  intros Hall. destruct (grouped _ _ _ CoveredTables_indexed Hall) as (_ & _ & Hc).
  unfold group_counts. apply list_eq. intros i. rewrite list_lookup_fmap, lookup_zip_with.
  destruct (CoveredTables !! i) as [t|] eqn:Hi; [|done].
  pose proof (lookup_lt_Some _ _ _ Hi) as Hlt. rewrite CoveredTables_length in Hlt.
  rewrite list_lookup_fmap, lookup_seq_lt by done. cbn. by rewrite <-(Hc i t Hi).
Qed.

(** Streaming the groups is the digest of the set of rows. *)
Lemma grouped_digest versions d :
  (llen (CoveredTables ≫= per) ≤ maxSafeInteger)%N →
  (∃ d0 d1, NewStateDigester versions group_counts = inr d0 ∧
    appendAll d0 (CoveredTables ≫= per) = inr d1 ∧ Sum d1 = inr d) ↔
  StateDigest versions (CoveredTables ≫= per) = inr d.
Proof.
  intros Hlen. set (rows := CoveredTables ≫= per) in *.
  assert (Hmain : ∀ all, Forall2 (λ row p, prepareRow row = inr p) rows all →
    validateStateDigestVersions versions = None →
    ∃ d0 d1, NewStateDigester versions group_counts = inr d0 ∧ appendAll d0 rows = inr d1 ∧
      Sum d1 = inr (Sum256 (state_preimage versions all)) ∧ ordered row_position all).
  { intros all Hall Hv. destruct (grouped _ _ _ CoveredTables_indexed Hall) as (Ho & _ & _).
    pose proof (prepared_valid _ _ Hall) as Hvalid. rewrite (group_counts_eq all Hall).
    assert (Hrows : rows = logicalRow <$> all).
    { clear -Hall. induction Hall as [|row p rows all Hp _ IH]; [done|].
      rewrite fmap_cons. destruct (logicalRow_prepared _ _ Hp) as (-> & _). by f_equal. }
    destruct (digest_ordered versions all Hv Hvalid Ho) as (d0 & d1 & Hd0 & Hd1 & Hsum).
    { unfold llen. by rewrite <-(Forall2_length _ _ _ Hall). }
    exists d0, d1. rewrite Hrows. by split_and!. }
  split.
  - intros (d0 & d1 & Hd0 & Hd1 & Hsum). destruct (appendAll_prepares _ _ _ Hd1) as [all Hall].
    assert (Hv : validateStateDigestVersions versions = None).
    { unfold NewStateDigester in Hd0. by destruct (validateStateDigestVersions versions). }
    destruct (Hmain all Hall Hv) as (d0' & d1' & Hd0' & Hd1' & Hsum' & Ho).
    apply StateDigest_iff; [done|]. split; [done|]. exists all. split; [done|].
    split; [by apply ordered_NoDup|].
    assert (merge_sort row_le all = all) as ->.
    { apply (ordered_unique row_position); [|done|by rewrite merge_sort_Permutation].
      by apply (merge_sort_ordered row_position), ordered_NoDup. }
    rewrite Hd0' in Hd0. injection Hd0 as ->. rewrite Hd1' in Hd1. injection Hd1 as ->. congruence.
  - intros (Hv & all & Hall & _ & ->)%StateDigest_iff; [|done].
    destruct (Hmain all Hall Hv) as (d0 & d1 & Hd0 & Hd1 & Hsum & Ho). exists d0, d1.
    split_and!; [done..|]. rewrite Hsum. do 3 f_equal. symmetry.
    apply (ordered_unique row_position); [|done|by rewrite merge_sort_Permutation].
    by apply (merge_sort_ordered row_position), ordered_NoDup.
Qed.

End Lib.

(** The digest is of a set of rows. *)
Lemma StateDigest_perm `{JCSLib, CryptoLib} versions rows rows' d :
  (llen rows ≤ maxSafeInteger)%N → rows ≡ₚ rows' →
  StateDigest versions rows = inr d → StateDigest versions rows' = inr d.
Proof.
  intros Hlen Hp. assert (Hlen' : (llen rows' ≤ maxSafeInteger)%N).
  { unfold llen in *. by rewrite <-Hp. }
  rewrite !StateDigest_iff by done. intros (Hv & all & Hall & Hnd & ->). split; [done|].
  destruct (Permutation_Forall2 Hp Hall) as (all' & Hp' & Hall'). exists all'.
  assert (Hnd' : NoDup (row_position <$> all')) by (by rewrite <-Hp').
  split_and!; [done..|]. do 2 f_equal. apply (ordered_unique row_position).
  - by apply (merge_sort_ordered row_position).
  - by apply (merge_sort_ordered row_position).
  - by rewrite !merge_sort_Permutation.
Qed.

End DigestProofs.

(** ** The digest of the stored state

    [Module StoredDigest]: the digest computed over the stored tables, and the
    one computed at an earlier result, are the digest of the set of logical
    rows they show. *)

Module StoredDigest.

Import Projections ProjectionStore ProjectionStream ProjectionProofs StreamProofs DigestProofs.

Lemma registry_names : Chain.CoveredTables = name <$> projectionTables.
Proof. vm_compute. done. Qed.

Lemma NoDup_Forall2 {A B C D} (R : A → B → Prop) (f : A → C) (g : B → D) l k :
  Forall2 R l k → (∀ x x' y y', R x y → R x' y' → g y = g y' → f x = f x') →
  NoDup (f <$> l) → NoDup (g <$> k).
Proof.
  intros Hall Hinj. induction Hall as [|x y l k Hxy Hall IH]; [constructor|].
  rewrite !fmap_cons, !NoDup_cons. intros [Hnew Hnd]. split; [|by apply IH].
  intros (y' & Heq & Hin)%list_elem_of_fmap.
  destruct (Forall2_elem_of_r _ _ _ _ Hall Hin) as (x' & Hx' & Hxy').
  apply Hnew. rewrite (Hinj _ _ _ _ Hxy Hxy' Heq). by apply list_elem_of_fmap_2.
Qed.

Lemma Forall2_strengthen {A B} (P Q : A → B → Prop) l k :
  Forall2 P l k → (∀ x y, x ∈ l → P x y → Q x y) → Forall2 Q l k.
Proof.
  induction 1 as [|x y l k Hp _ IH]; intros Hpq; constructor.
  - apply Hpq; [by left|done].
  - apply IH. intros; apply Hpq; [by right|done].
Qed.

Lemma NoDup_fst_filter {A B} (P : A * B → Prop) `{∀ x, Decision (P x)} (l : list (A * B)) :
  NoDup l.*1 → NoDup (filter P l).*1.
Proof.
  induction l as [|e l IH]; [by intros _; constructor|].
  rewrite fmap_cons, NoDup_cons. intros [Hnew Hnd]. rewrite filter_cons.
  destruct (decide _); [|by apply IH]. rewrite fmap_cons, NoDup_cons. split; [|by apply IH].
  intros (e' & Heq & Hin)%list_elem_of_fmap. apply list_elem_of_filter in Hin as [_ Hin].
  apply Hnew. rewrite Heq. by apply list_elem_of_fmap_2.
Qed.

(** Lists by name, and their concatenation in the order of the names. *)
Definition by_name {A} (names : list string) (per : list (list A)) (t : string) : list A :=
  default [] ((list_to_map (zip names per) : gmap string (list A)) !! t).

Lemma by_name_bind {A} names (per : list (list A)) :
  NoDup names → length names = length per → (names ≫= by_name names per) = concat per.
Proof.
  revert per. induction names as [|n names IH]; intros [|l per]; try done.
  intros [Hnew Hnd]%NoDup_cons [= Hlen]. cbn. f_equal.
  - unfold by_name. cbn. by rewrite lookup_insert_eq.
  - rewrite <-(IH per Hnd Hlen). clear IH.
    assert (Heq : ∀ t, t ∈ names → by_name (n :: names) (l :: per) t = by_name names per t).
    { intros t Ht. unfold by_name. cbn. rewrite lookup_insert_ne; [done|]. by intros ->. }
    revert Heq. generalize (by_name (n :: names) (l :: per)) as f.
    generalize (by_name names per) as g. clear. intros g f. induction names as [|t names IH]; [done|].
    intros Heq. cbn. rewrite Heq by (by left). f_equal. apply IH. intros t' Ht'. apply Heq. by right.
Qed.

Lemma by_name_Forall2 {A B} (R : A → list B → Prop) (f : A → string) l per t :
  NoDup (f <$> l) → Forall2 R l per →
  by_name (f <$> l) per t = [] ∧ (t ∉ f <$> l) ∨
  ∃ a, a ∈ l ∧ f a = t ∧ R a (by_name (f <$> l) per t).
Proof.
  intros Hnd Hall. induction Hall as [|a x l per Hr _ IH].
  { left. split; [done|]. by intros ?%not_elem_of_nil. }
  rewrite fmap_cons in *. apply NoDup_cons in Hnd as [Hnew Hnd].
  destruct (decide (f a = t)) as [<-|Hne].
  - right. exists a. split_and!; [by left|done|]. unfold by_name. cbn. by rewrite lookup_insert_eq.
  - assert (Heq : by_name (f a :: (f <$> l)) (x :: per) t = by_name (f <$> l) per t).
    { unfold by_name. cbn. by rewrite lookup_insert_ne. }
    rewrite Heq. destruct (IH Hnd) as [[Hnil Hout]|(b & Hb & Hfb & Hrb)].
    + left. split; [done|]. by intros [->|Hin]%elem_of_cons.
    + right. exists b. split_and!; [by right|done|done].
Qed.

Lemma bind_length_le {A B} (f : A → list B) l x : x ∈ l → length (f x) ≤ length (l ≫= f).
Proof.
  induction l as [|y l IH]; [by intros ?%not_elem_of_nil|]. cbn. rewrite length_app.
  intros [->|Hin]%elem_of_cons; [lia|]. specialize (IH Hin). cbn in IH. lia.
Qed.

Lemma groups_NoDup (per : string → list Chain.LogicalRow) names :
  (∀ t row, row ∈ per t → Chain.Table row = t) → (∀ t, ascending (per t)) → NoDup names →
  NoDup (names ≫= per).
Proof.
  intros Htable Hasc. induction 1 as [|t names Hnew _ IH]; [constructor|]. cbn.
  apply NoDup_app. split_and!; [|intros row Hrow Hin|done].
  - eapply NoDup_fmap_1. apply Hasc.
  - apply list_elem_of_bind in Hin as (t' & Hrow' & Ht'). apply Htable in Hrow, Hrow'. congruence.
Qed.

Section Stored.
Context `{NormLib, JCSLib, CryptoLib, SQLiteJSON, !JCSKeys}.

(** ** The rows of a table *)

Lemma ordered_sorted db table :
  StronglySorted (row_before table) (orderedRows db table).
Proof.
  unfold orderedRows. apply StronglySorted_merge_sort.
  - intros x y z. unfold row_before. apply ChainProofs.bytes_le_trans.
  - intros x y. unfold row_before. apply ChainProofs.bytes_le_total.
Qed.

Lemma ordered_keys db table : keyed db → table ∈ projectionTables →
  NoDup (keyColumns (columns table) <$> orderedRows db table).
Proof.
  intros Hk Ht. unfold orderedRows. rewrite merge_sort_Permutation. unfold rowsOf.
  rewrite <-list_fmap_compose.
  assert (Hkeys : (keyColumns (columns table) ∘ snd <$>
                   filter (λ entry, entry.1.1 = name table) (map_to_list db)) =
                  ((λ entry : string * list Column, entry.2) <$>
                   (filter (λ entry, entry.1.1 = name table) (map_to_list db)).*1)).
  { rewrite <-list_fmap_compose. apply list_fmap_ext. intros i [[t key] row] Hi. cbn.
    apply list_elem_of_lookup_2, list_elem_of_filter in Hi as [Hn Hi]. cbn in Hn.
    apply elem_of_map_to_list in Hi. destruct (Hk _ _ _ Hi) as (table' & Ht' & Hn' & _ & ->).
    assert (table' = table) as -> by (apply table_of_name; congruence). done. }
  rewrite Hkeys.
  assert (Hnd : NoDup (filter (λ entry, entry.1.1 = name table) (map_to_list db)).*1).
  { apply NoDup_fst_filter, NoDup_fst_map_to_list. }
  assert (Hnames : Forall (λ key : string * list Column, key.1 = name table)
                     (filter (λ entry, entry.1.1 = name table) (map_to_list db)).*1).
  { apply Forall_fmap, Forall_forall. intros e He. by apply list_elem_of_filter in He as [? _]. }
  revert Hnd Hnames. generalize (filter (λ entry, entry.1.1 = name table) (map_to_list db)).*1 as l.
  induction l as [|[t key] l IH]; [constructor|]. rewrite fmap_cons, !NoDup_cons, Forall_cons.
  intros [Hnew Hnd] [Hn Hnames]. split; [|by apply IH].
  intros ([t' key'] & Heq & Hin)%list_elem_of_fmap. apply Hnew. cbn in *.
  rewrite Forall_forall in Hnames. specialize (Hnames _ Hin). cbn in Hnames. congruence.
Qed.

Lemma table_rows_stored db table rows : keyed db → table ∈ projectionTables →
  table_rows db table rows →
  Forall2 (λ row logical, stored_row table row logical ∧
             projectionPrimaryKeyJSONExpression table row = Chain.PrimaryKey logical)
    (orderedRows db table) rows.
Proof.
  intros Hk Ht Hall. eapply Forall2_strengthen; [exact Hall|].
  intros row logical Hrow [Hl Hj]%streamRow_inv. split; [|done].
  apply orderedRows_iff in Hrow as [key Hdb].
  destruct (Hk _ _ _ Hdb) as (table' & Ht' & Hn & Hlen & _).
  assert (table' = table) as -> by (apply table_of_name; congruence). by split.
Qed.

Lemma table_rows_group db table rows : keyed db → table ∈ projectionTables →
  table_rows db table rows →
  (∀ row, row ∈ rows → Chain.Table row = name table) ∧ ascending rows ∧
  length rows = length (rowsOf db table).
Proof.
  intros Hk Ht Hall. pose proof (table_rows_stored _ _ _ Hk Ht Hall) as Hs. split_and!.
  - intros row Hin. destruct (Forall2_elem_of_r _ _ _ _ Hs Hin) as (stored & _ & Hst & _).
    by destruct (stored_inv _ _ _ Hst) as (? & ? & ? & _ & _ & _ & ?).
  - split.
    + pose proof (ordered_sorted db table) as Hsort. clear -Hs Hsort.
      induction Hs as [|row l stored rows [_ Hj] Hs IH]; [constructor|].
      apply StronglySorted_inv in Hsort as [Hsort Hle]. constructor; [by apply IH|].
      apply Forall_forall. intros l' Hin.
      destruct (Forall2_elem_of_r _ _ _ _ Hs Hin) as (row' & Hrow' & _ & Hj').
      rewrite Forall_forall in Hle. specialize (Hle _ Hrow'). unfold row_before in Hle.
      by rewrite Hj, Hj' in Hle.
    + eapply (NoDup_Forall2 _ (keyColumns (columns table)) _ _ _ Hs);
        [|by apply ordered_keys].
      intros r r' l l' [Hr _] [Hr' _]. by apply (stored_key _ _ _ _ _ Hr Hr').
  - rewrite <-(Forall2_length _ _ _ Hall). unfold orderedRows.
    apply Permutation_length, merge_sort_Permutation.
Qed.

(** ** The digest of the stored tables *)

Definition stored_groups (per : list (list Chain.LogicalRow)) : string → list Chain.LogicalRow :=
  by_name (name <$> projectionTables) per.

Lemma stored_groups_ok db per : keyed db → Forall2 (table_rows db) projectionTables per →
  (∀ t row, row ∈ stored_groups per t → Chain.Table row = t) ∧
  (∀ t, ascending (stored_groups per t)) ∧
  Chain.CoveredTables ≫= stored_groups per = concat per ∧
  ∀ table, table ∈ projectionTables →
    length (stored_groups per (name table)) = length (rowsOf db table).
Proof.
  intros Hk Hall.
  assert (Hg : ∀ t, (stored_groups per t = [] ∧ t ∉ name <$> projectionTables) ∨
    ∃ table, table ∈ projectionTables ∧ name table = t ∧ table_rows db table (stored_groups per t)).
  { intros t. apply by_name_Forall2; [apply table_names_nodup|done]. }
  split_and!.
  - intros t row Hin. destruct (Hg t) as [[Hnil _]|(table & Ht & <- & Hrows)].
    + rewrite Hnil in Hin. by apply not_elem_of_nil in Hin.
    + by apply (table_rows_group db table (stored_groups per (name table))).
  - intros t. destruct (Hg t) as [[-> _]|(table & Ht & <- & Hrows)].
    + split; constructor.
    + by apply (table_rows_group db table (stored_groups per (name table))).
  - rewrite registry_names. apply by_name_bind; [apply table_names_nodup|].
    rewrite length_fmap. by eapply Forall2_length.
  - intros table Ht. destruct (Hg (name table)) as [[_ Hout]|(table' & Ht' & Hn & Hrows)].
    + destruct Hout. by apply list_elem_of_fmap_2.
    + assert (table' = table) as -> by (by apply table_of_name).
      by apply (table_rows_group db table (stored_groups per (name table))).
Qed.

Lemma counts_ok db per tables :
  Forall (λ table, length (stored_groups per (name table)) = length (rowsOf db table) ∧
            (llen (stored_groups per (name table)) ≤ Chain.maxSafeInteger)%N) tables →
  tableCounts db tables =
  inr ((λ table, Chain.mkTableRowCount table (llen (stored_groups per table))) <$> (name <$> tables)).
Proof.
  induction 1 as [|table tables [Hlen Hmax] _ IH]; [done|]. cbn.
  assert (llen (rowsOf db table) = llen (stored_groups per (name table))) as ->
    by (unfold llen; by rewrite Hlen).
  rewrite (proj2 (N.ltb_ge _ _) Hmax), IH. done.
Qed.

Lemma visits_append rows digester :
  visits (λ digester row, chain_result (Chain.Append digester row)) digester rows =
  chain_result (Chain.appendAll digester rows).
Proof.
  revert digester. induction rows as [|row rows IH]; intros digester; [done|]. cbn.
  destruct (Chain.Append digester row); [done|]. cbn. apply IH.
Qed.

Lemma chain_result_inr {A} (result : Chain.Error + A) a :
  chain_result result = inr a ↔ result = inr a.
Proof. destruct result; split; [done..|by intros [= ->]|by intros [= ->]]. Qed.

(** The stored digest is the digest of the set of rows the stream shows. *)
Lemma stored_digest db rows versions d :
  keyed db → lists db rows → (llen rows ≤ Chain.maxSafeInteger)%N →
  projectionStateDigest db versions = inr d ↔ Chain.StateDigest versions rows = inr d.
Proof.
  intros Hk (per & Hall & ->) Hmax.
  destruct (stored_groups_ok _ _ Hk Hall) as (Htable & Hasc & Hconcat & Hlen).
  rewrite <-Hconcat in Hmax |- *.
  rewrite <-(grouped_digest _ Htable Hasc versions d Hmax).
  assert (Hcounts : projectionTableRowCounts db = inr (group_counts (stored_groups per))).
  { unfold projectionTableRowCounts, group_counts. rewrite registry_names. apply counts_ok.
    apply Forall_forall. intros table Ht. split; [by apply Hlen|].
    etrans; [|exact Hmax]. rewrite registry_names. unfold llen.
    pose proof (bind_length_le (stored_groups per) (name <$> projectionTables) (name table)
      (list_elem_of_fmap_2 _ _ _ Ht)). lia. }
  unfold projectionStateDigest. rewrite Hcounts. cbn [and_then]. rewrite and_then_inr.
  setoid_rewrite chain_result_inr. setoid_rewrite and_then_inr. setoid_rewrite chain_result_inr.
  split.
  - intros (d0 & Hd0 & d1 & Hs & Hsum). exists d0, d1. split_and!; [done| |done].
    apply stream_iff in Hs as (rows & (per' & Hall' & ->) & Hv).
    rewrite visits_append, chain_result_inr in Hv. rewrite Hconcat.
    by rewrite (lists_unique db (concat per) (concat per')); [|by exists per|by exists per'].
  - intros (d0 & d1 & Hd0 & Ha & Hsum). exists d0. split; [done|]. exists d1. split; [|done].
    apply stream_iff. exists (concat per). split; [by exists per|].
    by rewrite visits_append, chain_result_inr, <-Hconcat.
Qed.

Lemma lists_NoDup db rows : keyed db → lists db rows →
  NoDup rows ∧ ∀ row, row ∈ rows → Chain.Table row ∈ Chain.CoveredTables.
Proof.
  intros Hk Hl. pose proof Hl as (per & Hall & ->).
  destruct (stored_groups_ok _ _ Hk Hall) as (Htable & Hasc & Hconcat & _). split.
  - rewrite <-Hconcat. apply groups_NoDup; [done..|]. rewrite registry_names. apply table_names_nodup.
  - intros row Hin. apply (lists_elem db _ row Hk Hl) in Hin as (table & stored & Hs & _).
    destruct (stored_inv _ _ _ Hs) as (? & ? & ? & _ & _ & _ & ->).
    rewrite registry_names. apply list_elem_of_fmap_2. by eapply sr_table.
Qed.

(** ** The digest of the rewound rows *)

Lemma rewoundRows_elem rows t row :
  row ∈ rewoundRows rows t ↔
  Chain.Table row = t ∧ rows !! (t, Chain.PrimaryKey row) = Some (Chain.Row row).
Proof.
  unfold rewoundRows. rewrite list_elem_of_fmap. setoid_rewrite merge_sort_Permutation.
  setoid_rewrite list_elem_of_fmap. split.
  - intros ([key value] & -> & ([[t' key'] value'] & [= -> ->] & Hin)).
    apply list_elem_of_filter in Hin as [Ht Hin]. cbn in Ht. subst t'.
    split; [done|]. by apply elem_of_map_to_list in Hin.
  - destruct row as [t' key value]. cbn. intros [-> Hrow]. exists (key, value). split; [done|].
    exists ((t, key), value). split; [done|]. apply list_elem_of_filter. split; [done|].
    by apply elem_of_map_to_list.
Qed.

Lemma rewoundRows_ascending rows t : ascending (rewoundRows rows t).
Proof.
  unfold rewoundRows. set (entries := _ <$> filter _ _). split.
  - assert (Hs : StronglySorted key_before (merge_sort key_before entries)).
    { apply StronglySorted_merge_sort.
      - intros x y z. apply ChainProofs.bytes_le_trans.
      - intros x y. apply ChainProofs.bytes_le_total. }
    revert Hs. generalize (merge_sort key_before entries) as l. induction l as [|[k r] l IH];
      [constructor|]. intros [Hs Hle]%StronglySorted_inv. rewrite fmap_cons. constructor; [by apply IH|].
    apply Forall_fmap. eapply Forall_impl; [exact Hle|]. by intros [k' r'].
  - rewrite <-list_fmap_compose.
    assert (Hfst : (Chain.PrimaryKey ∘ (λ '(key, row), Chain.mkLogicalRow t key row))
                   <$> merge_sort key_before entries = (merge_sort key_before entries).*1).
    { apply list_fmap_ext. by intros i [k r] _. }
    rewrite Hfst, merge_sort_Permutation. unfold entries.
    assert (Hkeys : NoDup (filter (λ entry, entry.1.1 = t) (map_to_list rows)).*1)
      by apply NoDup_fst_filter, NoDup_fst_map_to_list.
    assert (Hnames : Forall (λ entry : (string * list N) * list N, entry.1.1 = t)
                       (filter (λ entry, entry.1.1 = t) (map_to_list rows))).
    { apply Forall_forall. intros e He. by apply list_elem_of_filter in He as [? _]. }
    revert Hkeys Hnames. generalize (filter (λ entry, entry.1.1 = t) (map_to_list rows)) as l.
    induction l as [|[[t' k] r] l IH]; [constructor|]. rewrite !fmap_cons, !NoDup_cons, Forall_cons.
    intros [Hnew Hnd] [Ht Hn]. split; [|by apply IH]. cbn in *. subst t'.
    rewrite <-list_fmap_compose. intros ([[t' k'] r'] & Heq & Hin)%list_elem_of_fmap. cbn in Heq.
    subst k'. rewrite Forall_forall in Hn. specialize (Hn _ Hin). cbn in Hn. subst t'.
    apply Hnew. by apply (list_elem_of_fmap_2 fst) in Hin.
Qed.

Lemma cut_digest rows logicals versions d :
  (llen logicals ≤ Chain.maxSafeInteger)%N → NoDup logicals →
  (∀ row, row ∈ logicals → Chain.Table row ∈ Chain.CoveredTables) →
  (∀ t pk r, rows !! (t, pk) = Some r ↔ Chain.mkLogicalRow t pk r ∈ logicals) →
  Chain.StateDigest versions logicals = inr d →
  ∃ counts d0 d1, cutCounts rows = inr counts ∧ Chain.NewStateDigester versions counts = inr d0 ∧
    Chain.appendAll d0 (Chain.CoveredTables ≫= rewoundRows rows) = inr d1 ∧ Chain.Sum d1 = inr d.
Proof.
  intros Hmax Hnd Hcovered Hrows Hdigest.
  assert (Htable : ∀ t row, row ∈ rewoundRows rows t → Chain.Table row = t)
    by (by intros t row [? _]%rewoundRows_elem).
  assert (Hperm : Chain.CoveredTables ≫= rewoundRows rows ≡ₚ logicals).
  { apply NoDup_Permutation; [|done|].
    - apply groups_NoDup; [done|apply rewoundRows_ascending|].
      rewrite registry_names. apply table_names_nodup.
    - intros row. rewrite list_elem_of_bind. setoid_rewrite rewoundRows_elem. split.
      + intros (t & [<- Hrow] & _). apply Hrows in Hrow. by destruct row.
      + intros Hin. exists (Chain.Table row). split; [|by apply Hcovered]. split; [done|].
        apply Hrows. by destruct row. }
  assert (Hmax' : (llen (Chain.CoveredTables ≫= rewoundRows rows) ≤ Chain.maxSafeInteger)%N).
  { unfold llen in *. by rewrite Hperm. }
  apply (StateDigest_perm _ _ (Chain.CoveredTables ≫= rewoundRows rows)) in Hdigest; [|done|by symmetry].
  apply (grouped_digest _ Htable (rewoundRows_ascending rows)) in Hdigest as (d0 & d1 & Hd0 & Hd1 & Hs);
    [|done].
  exists (group_counts (rewoundRows rows)), d0, d1. split_and!; [|done..].
  unfold cutCounts. fold (group_counts (rewoundRows rows)).
  destruct (existsb _ (group_counts (rewoundRows rows))) eqn:He; [|done].
  apply existsb_exists in He as (count & Hin & Hc). apply N.ltb_lt in Hc.
  apply list_elem_of_In in Hin. unfold group_counts in Hin.
  apply list_elem_of_fmap in Hin as (t & -> & Ht). cbn in Hc.
  pose proof (bind_length_le (rewoundRows rows) _ _ Ht). unfold llen in *. lia.
Qed.

End Stored.

End StoredDigest.
