(* ===== verification/ProjectionTheorems.v ===== *)
(** * Going back to an earlier result

    [Module RewindProofs]: undoing the mutations of a write set restores the
    rows before it, so the rewind of the stored tables through the recorded
    results ends with the rows at the cut. *)

From stdpp Require Import base gmap strings list sorting pretty.
From Stdlib Require Import ZArith NArith Lia.
From S2P Require Import Prelude.
From S2P Require Import GoLib.
From S2P Require Import GoJson.
From S2P Require Import CodecLayer.
From S2P Require Import GoMarshal.
From S2P Require Import PublicationEntity.
From S2P Require Import ChainCommitments.
From S2P Require Import Fixtures.
From S2P Require Import ChainProofs.
From S2P Require Import ChainTheorems.
From S2P Require Import ProjectionRows.
From S2P Require Import ProjectionStore.
From S2P Require Import ProjectionStream.
From S2P Require Import ProjectionProofs.
From S2P Require Import StoredDigest.

Module RewindProofs.

Import Projections ProjectionStore ProjectionStream ProjectionProofs StreamProofs.

Section Targets.
Context `{NormLib, JCSLib, CryptoLib}.

(** ** No identity comes twice in a write set *)

Lemma tableTargets_distinct table index rows seen targets seen' :
  tableTargets table index rows seen = inr (targets, seen') →
  NoDup (target_identity <$> targets) ∧
  (∀ identity, identity ∈ target_identity <$> targets → identity ∉ seen) ∧
  seen' = list_to_set (target_identity <$> targets) ∪ seen.
Proof.
  revert index seen targets seen'.
  induction rows as [|values rows IH]; intros index seen targets seen' Ht; cbn in Ht.
  { injection Ht as <- <-. split_and!; [constructor|set_solver|set_solver]. }
  destruct (logicalProjectionRowFromValues table values) as [[logical args]|]; [|done].
  apply throw_inr in Ht as [Hnew Ht]. apply and_then_inr in Ht as ([rest seen2] & Hrest & [= <- <-]).
  apply bool_decide_eq_false in Hnew. destruct (IH _ _ _ _ Hrest) as (Hnd & Hdisj & ->).
  rewrite fmap_cons. split_and!.
  - constructor; [|done]. intros Hin%Hdisj. set_solver.
  - intros identity [->|Hin]%elem_of_cons; [done|]. apply Hdisj in Hin. set_solver.
  - cbn [list_to_set]. set_solver.
Qed.

Lemma targetsFrom_distinct tables rows seen targets :
  targetsFrom tables rows seen = inr targets →
  NoDup (target_identity <$> targets) ∧
  ∀ identity, identity ∈ target_identity <$> targets → identity ∉ seen.
Proof.
  revert seen targets. induction tables as [|table tables IH]; intros seen targets Ht; cbn in Ht.
  { injection Ht as <-. split; [constructor|set_solver]. }
  apply and_then_inr in Ht as ([first seen'] & Hfirst & Ht).
  apply and_then_inr in Ht as (others & Hothers & [= <-]).
  destruct (tableTargets_distinct _ _ _ _ _ _ Hfirst) as (Hnd & Hdisj & ->).
  destruct (IH _ _ Hothers) as [Hnd' Hdisj']. rewrite fmap_app. split.
  - apply NoDup_app. split_and!; [done| |done]. intros x Hx Hx'%Hdisj'. set_solver.
  - intros identity [Hin|Hin]%elem_of_app; [by apply Hdisj|]. apply Hdisj' in Hin. set_solver.
Qed.

(** The rows of the targets after the write, and all others as before. *)
Lemma applied_lookup scratch targets :
  NoDup (target_identity <$> targets) →
  (∀ target, target ∈ targets →
     foldl apply_target scratch targets !! target_identity target = Some (target_row target)) ∧
  ∀ identity, identity ∉ target_identity <$> targets →
    foldl apply_target scratch targets !! identity = scratch !! identity.
Proof.
  revert scratch. induction targets as [|target targets IH]; intros scratch Hnd.
  { split; [set_solver|done]. }
  rewrite fmap_cons in Hnd. apply NoDup_cons in Hnd as [Hnew Hnd].
  destruct (IH (apply_target scratch target) Hnd) as [Hin Hout]. cbn [foldl]. split.
  - intros t [->|Ht]%elem_of_cons; [|by apply Hin]. rewrite Hout by done. apply lookup_insert_eq.
  - intros identity Hid. rewrite Hout by set_solver. apply lookup_insert_ne. set_solver.
Qed.

End Targets.

(** ** Undoing a set of mutations *)

Definition mutation_key (mutation : Chain.Mutation) : string * list N :=
  (Chain.MTable mutation, Chain.MPrimaryKey mutation).

Lemma undo_mutations (rows : RewindTable) mutations :
  NoDup (mutation_key <$> mutations) →
  (∀ mutation, mutation ∈ mutations → Chain.MTable mutation ∈ Chain.CoveredTables ∧
     rows !! mutation_key mutation = Chain.After mutation) →
  ∃ rows', rewindMutations rows mutations = inr rows' ∧
    (∀ mutation, mutation ∈ mutations → rows' !! mutation_key mutation = Chain.Before mutation) ∧
    ∀ key, key ∉ mutation_key <$> mutations → rows' !! key = rows !! key.
Proof.
  revert rows. induction mutations as [|m mutations IH]; intros rows Hnd Hall.
  { exists rows. split_and!; [done|set_solver|done]. }
  rewrite fmap_cons in Hnd. apply NoDup_cons in Hnd as [Hnew Hnd].
  destruct (Hall m) as [Hcovered Hafter]; [by left|].
  set (next := match Chain.Before m with
               | None => delete (mutation_key m) rows
               | Some before => <[mutation_key m := before]> rows end : RewindTable).
  assert (Hnext : rewindProjectionMutation rows m = inr next).
  { unfold rewindProjectionMutation, next. cbv zeta. fold (mutation_key m).
    rewrite Hafter, !bool_decide_true by done. by destruct (Chain.Before m). }
  assert (Hhere : next !! mutation_key m = Chain.Before m).
  { unfold next. destruct (Chain.Before m); [apply lookup_insert_eq|apply lookup_delete_eq]. }
  assert (Hother : ∀ key, key ≠ mutation_key m → next !! key = rows !! key).
  { intros key Hne. unfold next. destruct (Chain.Before m);
      [by apply lookup_insert_ne|by apply lookup_delete_ne]. }
  destruct (IH next Hnd) as (rows' & Hr & Hin & Hout).
  { intros m' Hm'. split; [apply Hall; by right|]. rewrite Hother; [apply Hall; by right|].
    intros Heq. apply Hnew. rewrite <-Heq. by apply list_elem_of_fmap_2. }
  exists rows'. split_and!.
  - cbn [rewindMutations]. by rewrite Hnext.
  - intros m' [->|Hm']%elem_of_cons; [|by apply Hin]. by rewrite Hout.
  - intros key Hkey. rewrite Hout by set_solver. apply Hother. set_solver.
Qed.

(** ** Histories *)

Section History.
Context `{NormLib, JCSLib, CryptoLib, !JCSTrimmed, !JCSKeys, Schema}.

(** One applied write set: its encoded mutations and the tables after it. *)
Definition commit (db : Database) (writes : ProjectionWrites) : option (list N * Database) :=
  match prepareProjectionWrites writes with
  | inl _ => None
  | inr prepared =>
      match projectionMutations db prepared with
      | inl _ => None
      | inr (mutations, db') =>
          match Chain.EncodeMutations mutations with
          | inl _ => None
          | inr encoded => Some (encoded, db')
          end
      end
  end.

Fixpoint commits (db : Database) (history : list ProjectionWrites)
    : option (list (list N) * Database) :=
  match history with
  | [] => Some ([], db)
  | writes :: rest =>
      '(encoded, db1) ← commit db writes;
      '(others, db2) ← commits db1 rest;
      Some (encoded :: others, db2)
  end.

(** The results after index [base], in the order of the descending scan. *)
Fixpoint descending (base : N) (results : list (list N)) : list (N * list N) :=
  match results with
  | [] => []
  | encoded :: rest => descending (base + 1) rest ++ [((base + 1)%N, encoded)]
  end.

(** The temporary table holds the rows of a scratch copy. *)
Definition shows (rows : RewindTable) (scratch : ProjectionScratch) : Prop :=
  ∀ t pk r, rows !! (t, pk) = Some r ↔
    scratch !! row_identity (Chain.mkLogicalRow t pk r) = Some (Chain.mkLogicalRow t pk r).

Lemma shows_unique rows rows' scratch : shows rows scratch → shows rows' scratch → rows = rows'.
Proof.
  intros Hs Hs'. apply map_eq. intros [t pk]. apply option_eq. intros r. by rewrite (Hs t pk r), (Hs' t pk r).
Qed.

Lemma target_stored target : target_ok target →
  ∃ row, stored_row (table target) row (target_row target).
Proof.
  intros (Ht & values & logical & row & Hl & Hb & ->). exists row. by eapply written_row.
Qed.

(** A row of a mirroring copy at the identity of a target has its key. *)
Lemma at_target db scratch target logical : mirrors db scratch → target_ok target →
  scratch !! target_identity target = Some logical →
  Chain.Table logical = name (table target) ∧ Chain.PrimaryKey logical = primaryKey target.
Proof.
  intros Hm Hok Hs. destruct (target_stored _ Hok) as [row Hrow].
  destruct (mirroring _ _ Hm _ _ Hs) as (table' & row' & Hs' & Hid & _).
  rewrite (identity_table _ _ _ Hs') in Hid.
  apply identity_inj in Hid as [-> Hk].
  - destruct (stored_inv _ _ _ Hs') as (? & ? & ? & _ & _ & _ & ->). by rewrite <-Hk.
  - by eapply sr_table.
  - by eapply sr_table.
  - by apply (stored_bytes _ _ _ Hrow).
  - by eapply stored_bytes.
Qed.

Lemma shown_at db rows scratch target : mirrors db scratch → shows rows scratch → target_ok target →
  rows !! (name (table target), primaryKey target) = Chain.Row <$> scratch !! target_identity target.
Proof.
  intros Hm Hs Hok. apply option_eq. intros r. rewrite (Hs _ _ r), fmap_Some. split.
  - intros Hrow. by eexists.
  - intros (logical & Hrow & ->). destruct (at_target _ _ _ _ Hm Hok Hrow) as [Hn Hk].
    rewrite <-Hn, <-Hk. destruct logical as [t k v]. cbn in *. subst. done.
Qed.

Lemma rewind_write db scratch writes encoded db' :
  mirrors db scratch → commit db writes = Some (encoded, db') →
  ∃ scratch', mirrors db' scratch' ∧ ∀ rows, shows rows scratch' →
    ∃ rows', rewindResult rows encoded = inr rows' ∧ shows rows' scratch.
Proof.
  intros Hm Hc. unfold commit in Hc. destruct (prepareProjectionWrites writes) as [|prepared]; [done|].
  destruct (projectionMutations db prepared) as [|[mutations db1]] eqn:Hp; [done|].
  destruct (Chain.EncodeMutations mutations) as [|e] eqn:He; [done|]. injection Hc as -> ->.
  destruct (mutations_mirror _ _ _ _ _ Hm Hp) as (targets & Ht & -> & Hm').
  exists (foldl apply_target scratch targets). split; [done|]. intros rows Hshows.
  assert (Hok : Forall target_ok targets).
  { unfold projectionMutations in Hp. rewrite Ht in Hp. cbn [and_then] in Hp.
    apply and_then_inr in Hp as (befores & _ & Hp). apply and_then_inr in Hp as (db1 & Hw & _).
    by destruct (tables_mirror _ _ _ _ _ _ _ (proj2 (Forall_forall _ _) (λ t Hin, Hin)) Ht Hw Hm). }
  destruct (targetsFrom_distinct _ _ _ _ Ht) as [Hnd _].
  destruct (applied_lookup scratch targets Hnd) as [Hin Hout].
  destruct (MutationProofs.EncodeMutations_decoded _ _ He) as (arranged & Hperm & _ & Hdecode & Hagain).
  unfold rewindResult. rewrite Hdecode, Hagain, bool_decide_true by done. cbn [negb].
  rewrite Forall_forall in Hok.
  assert (Hkeys : mutation_key <$> (scratchMutation scratch <$> targets) =
                  (λ target, (name (table target), primaryKey target)) <$> targets).
  { by rewrite <-list_fmap_compose. }
  destruct (undo_mutations rows arranged) as (rows' & Hr & Hback & Hrest).
  { rewrite <-Hperm, Hkeys.
    apply (NoDup_fmap_1 (λ key, projectionScratchIdentity key.1 key.2)).
    by rewrite <-list_fmap_compose. }
  { intros m Hmem. rewrite <-Hperm in Hmem.
    apply list_elem_of_fmap in Hmem as (target & -> & Htarget). split.
    - rewrite StoredDigest.registry_names.
      apply (list_elem_of_fmap_2 name _ (table target)). by apply Hok.
    - unfold mutation_key, scratchMutation. cbn. rewrite (shown_at _ _ _ _ Hm' Hshows) by (by apply Hok).
      by rewrite Hin. }
  exists rows'. split; [done|]. intros t pk r.
  destruct (decide ((t, pk) ∈ (λ target, (name (table target), primaryKey target)) <$> targets))
    as [Hkey|Hkey].
  - apply list_elem_of_fmap in Hkey as (target & [= -> ->] & Htarget).
    assert (Hmem : scratchMutation scratch target ∈ arranged)
      by (rewrite <-Hperm; by apply list_elem_of_fmap_2).
    specialize (Hback _ Hmem). unfold mutation_key, scratchMutation in Hback. cbn in Hback.
    rewrite Hback, fmap_Some. split.
    + intros (logical & Hrow & ->). destruct (at_target _ _ _ _ Hm (Hok _ Htarget) Hrow) as [Hn Hk].
      rewrite <-Hn, <-Hk. destruct logical as [t k v]. cbn in *. subst. done.
    + intros Hrow. by eexists.
  - rewrite Hrest by (rewrite <-Hperm, Hkeys; done). rewrite (Hshows t pk r).
    destruct (decide (row_identity (Chain.mkLogicalRow t pk r) ∈ target_identity <$> targets)) as [Hid|Hid].
    + apply list_elem_of_fmap in Hid as (target & Hid & Htarget). rewrite Hid. split; intros Hrow; exfalso.
      * destruct (at_target _ _ _ _ Hm' (Hok _ Htarget) Hrow) as [Hn Hk]. cbn in Hn, Hk. subst.
        apply Hkey. apply list_elem_of_fmap. by exists target.
      * destruct (at_target _ _ _ _ Hm (Hok _ Htarget) Hrow) as [Hn Hk]. cbn in Hn, Hk. subst.
        apply Hkey. apply list_elem_of_fmap. by exists target.
    + by rewrite Hout.
Qed.

Lemma rewindResults_app rows expected cut l l' rows' reached :
  rewindResults rows expected cut l = inr (rows', reached) →
  rewindResults rows expected cut (l ++ l') = rewindResults rows' reached cut l'.
Proof.
  revert rows expected. induction l as [|[index encoded] l IH]; intros rows expected; cbn.
  { by intros [= -> ->]. }
  destruct (_ || _); [done|]. destruct (rewindResult rows encoded) as [|rows1]; [done|].
  cbn. apply IH.
Qed.

Lemma rewind_commits db scratch history encoded db' :
  mirrors db scratch → commits db history = Some (encoded, db') →
  ∃ scratch', mirrors db' scratch' ∧ ∀ rows base cut, shows rows scratch' → (cut ≤ base)%N →
    ∃ rows', rewindResults rows (base + llen encoded) cut (descending base encoded) = inr (rows', base) ∧
      shows rows' scratch.
Proof.
  revert db scratch encoded. induction history as [|writes history IH]; intros db scratch encoded Hm Hc.
  { injection Hc as <- <-. exists scratch. split; [done|]. intros rows base cut Hs _. exists rows.
    split; [|done]. cbn. by rewrite N.add_0_r. }
  cbn in Hc. apply bind_Some in Hc as ([e db1] & Hc & Hrest).
  apply bind_Some in Hrest as ([others db2] & Hrest & [= <- <-]).
  destruct (rewind_write _ _ _ _ _ Hm Hc) as (scratch1 & Hm1 & Hback).
  destruct (IH _ _ _ Hm1 Hrest) as (scratch2 & Hm2 & Hlater). exists scratch2. split; [done|].
  intros rows base cut Hs Hle. destruct (Hlater rows (base + 1)%N cut Hs) as (rows1 & Hr1 & Hs1); [lia|].
  destruct (Hback _ Hs1) as (rows' & Hr & Hs'). exists rows'. split; [|done]. cbn [descending].
  assert (llen (e :: others) = 1 + llen others)%N as -> by (unfold llen; cbn; lia).
  rewrite N.add_assoc. rewrite (rewindResults_app _ _ _ _ _ _ _ Hr1). cbn [rewindResults].
  rewrite (proj2 (N.ltb_ge _ _)), (proj2 (N.leb_gt _ _)), N.eqb_refl, Hr by lia. cbn [orb negb and_then].
  by replace (base + 1 - 1)%N with base by lia.
Qed.

Lemma descending_above base encoded :
  Forall (λ result : N * list N, (base < result.1)%N) (descending base encoded).
Proof.
  revert base. induction encoded as [|e encoded IH]; intros base; [constructor|]. cbn.
  apply Forall_app. split.
  - eapply Forall_impl; [apply IH|]. cbn. lia.
  - constructor; [cbn; lia|constructor].
Qed.

End History.

End RewindProofs.

(** ** Theorems on the stored tables

    [Module ProjectionTheorems]: the scratch copy that replays write sets makes
    the mutations and the digest of the stored tables, and the rewind returns
    the digest the store had at the cut. *)

Module ProjectionTheorems.

Import Projections ProjectionStore ProjectionStream ProjectionProofs StreamProofs DigestProofs StoredDigest
  RewindProofs.

Section Rows.
Context `{NormLib, JCSLib, CryptoLib, SQLiteJSON, !JCSKeys}.

(** The scratch copy's rows are those the stream shows. *)
Lemma mirrors_rows db scratch rows :
  mirrors db scratch → lists db rows → (map_to_list scratch).*2 ≡ₚ rows.
Proof.
  intros Hm Hl. apply NoDup_Permutation.
  - apply NoDup_fmap_2_strong; [|apply NoDup_map_to_list].
    intros [i l] [i' l'] Hi Hi' Heq. cbn in Heq. subst l'.
    apply elem_of_map_to_list in Hi, Hi'.
    destruct (mirroring _ _ Hm _ _ Hi) as (_ & _ & _ & -> & _).
    by destruct (mirroring _ _ Hm _ _ Hi') as (_ & _ & _ & -> & _).
  - eapply lists_NoDup; [by eapply mirrors_keyed|done].
  - intros logical. rewrite <-(mirrors_lists _ _ _ _ Hm Hl), list_elem_of_fmap. split.
    + intros ([i l] & -> & Hi%elem_of_map_to_list). cbn.
      by destruct (mirroring _ _ Hm _ _ Hi) as (_ & _ & _ & <- & _).
    + intros Hi. exists (row_identity logical, logical). split; [done|]. by apply elem_of_map_to_list.
Qed.

Lemma digest_listed db versions d :
  projectionStateDigest db versions = inr d → ∃ rows, lists db rows.
Proof.
  unfold projectionStateDigest. intros Hd. apply and_then_inr in Hd as (counts & _ & Hd).
  apply and_then_inr in Hd as (d0 & _ & Hd). apply and_then_inr in Hd as (d1 & Hs & _).
  apply stream_iff in Hs as (rows & Hl & _). by exists rows.
Qed.

Lemma mirrors_digest db scratch versions d :
  mirrors db scratch → (N.of_nat (size scratch) ≤ Chain.maxSafeInteger)%N →
  projectionStateDigest db versions = inr d → Scratch_StateDigest scratch versions = inr d.
Proof.
  intros Hm Hsize Hd. destruct (digest_listed _ _ _ Hd) as [rows Hl].
  pose proof (mirrors_rows _ _ _ Hm Hl) as Hp.
  assert (Hlen : (llen rows ≤ Chain.maxSafeInteger)%N).
  { unfold llen. rewrite <-Hp, length_fmap.
    pose proof (length_map_to_list (M := gmap string) scratch) as Heq. unfold ProjectionScratch in *. lia. }
  apply (stored_digest db rows) in Hd; [|by eapply mirrors_keyed|done|done].
  unfold Scratch_StateDigest. by rewrite (StateDigest_perm _ rows _ d Hlen ltac:(by symmetry) Hd).
Qed.

Lemma list_filter_all {A} (P : A → Prop) `{∀ x, Decision (P x)} l : Forall P l → filter P l = l.
Proof. induction 1 as [|x l Hx _ IH]; [done|]. by rewrite filter_cons_True, IH. Qed.

Lemma list_filter_none {A} (P : A → Prop) `{∀ x, Decision (P x)} l :
  Forall (λ x, ¬ P x) l → filter P l = [].
Proof. induction 1 as [|x l Hx _ IH]; [done|]. by rewrite filter_cons_False. Qed.

(** The copy of a stream, row by row. *)
Definition row_key (row : Chain.LogicalRow) : string * list N :=
  (Chain.Table row, Chain.PrimaryKey row).

Lemma copies rows logicals :
  (∀ row, row ∈ logicals → Chain.Table row ∈ Chain.CoveredTables ∧ rows !! row_key row = None) →
  NoDup (row_key <$> logicals) →
  ∃ rows', visits copyRow rows logicals = inr rows' ∧
    ∀ t pk r, rows' !! (t, pk) = Some r ↔
      rows !! (t, pk) = Some r ∨ Chain.mkLogicalRow t pk r ∈ logicals.
Proof.
  revert rows. induction logicals as [|row logicals IH]; intros rows Hall Hnd.
  { exists rows. split; [done|]. intros t pk r. split; [by left|].
    by intros [?|?%not_elem_of_nil]. }
  rewrite fmap_cons in Hnd. apply NoDup_cons in Hnd as [Hnew Hnd].
  destruct (Hall row) as [Hc Hnone]; [by left|].
  destruct (IH (<[row_key row := Chain.Row row]> rows)) as (rows' & Hv & Hrows').
  { intros row' Hin. destruct (Hall row') as [Hc' Hnone']; [by right|]. split; [done|].
    etrans; [apply lookup_insert_ne|done]. intros Heq. apply Hnew. rewrite Heq.
    by apply list_elem_of_fmap_2. }
  { done. }
  exists rows'. split.
  - cbn [visits]. unfold copyRow at 1. rewrite bool_decide_true by done.
    fold (row_key row). cbv zeta. rewrite Hnone. exact Hv.
  - intros t pk r. rewrite Hrows', elem_of_cons. split.
    + intros [[[Hk <-]|[_ Hr]]%lookup_insert_Some|Hin]; [right; left|by left|by right; right].
      unfold row_key in Hk. injection Hk as <- <-. by destruct row.
    + intros [Hr|[Heq|Hin]]; [left|left|by right].
      * etrans; [apply lookup_insert_ne|done]. intros Heq. rewrite Heq in Hnone. congruence.
      * subst row. apply lookup_insert_eq.
Qed.

Lemma streamed_copy db scratch rows :
  mirrors db scratch → lists db rows →
  ∃ copy, streamProjectionLogicalRows copyRow db ∅ = inr copy ∧ shows copy scratch ∧
    ∀ t pk r, copy !! (t, pk) = Some r ↔ Chain.mkLogicalRow t pk r ∈ rows.
Proof.
  intros Hm Hl. destruct (lists_NoDup _ _ (mirrors_keyed _ _ Hm) Hl) as [Hnd Hcovered].
  destruct (copies ∅ rows) as (copy & Hv & Hcopy).
  { intros row Hin. split; [by apply Hcovered|]. apply lookup_empty. }
  { apply NoDup_fmap_2_strong; [|done]. intros l l' Hin Hin' [= Ht Hk].
    apply (mirrors_lists _ _ _ _ Hm Hl) in Hin, Hin'.
    assert (Hid : row_identity l = row_identity l') by (unfold row_identity; congruence).
    rewrite Hid in Hin. congruence. }
  assert (Hin : ∀ t pk r, copy !! (t, pk) = Some r ↔ Chain.mkLogicalRow t pk r ∈ rows).
  { intros t pk r. rewrite Hcopy. split; [|by right]. intros [He|]; [|done].
    by apply (lookup_empty_Some (M := gmap _)) in He. }
  exists copy. split_and!; [apply stream_iff; by exists rows| |done].
  intros t pk r. by rewrite Hin, (mirrors_lists _ _ _ _ Hm Hl).
Qed.

End Rows.

(** ** The properties *)

Section Theorems.
Context `{NormLib, JCSLib, CryptoLib, SQLiteJSON, Schema, !JCSTrimmed, !JCSKeys}.

(** C21: a scratch copy of the stored tables refines them: applying a write set
    to it yields the very mutations the store commits, the copy afterwards
    holds the rows the store holds, and whatever digest the store computes over
    its tables the copy computes over its rows. *)
Theorem scratch_simulates_store (db db' : Database) (scratch : ProjectionScratch)
    (writes : ProjectionWrites) (prepared : preparedProjectionWrites)
    (mutations : list Chain.Mutation) (encoded : list N) :
  mirrors db scratch → prepareProjectionWrites writes = inr prepared →
  projectionMutations db prepared = inr (mutations, db') →
  Chain.EncodeMutations mutations = inr encoded →
  ∃ scratch', Scratch_Apply scratch writes = inr (mutations, scratch') ∧ mirrors db' scratch' ∧
    ∀ versions digest, (N.of_nat (size scratch') ≤ Chain.maxSafeInteger)%N →
      projectionStateDigest db' versions = inr digest →
      Scratch_StateDigest scratch' versions = inr digest.
Proof.
  intros Hm Hp Hms He. destruct (mutations_mirror _ _ _ _ _ Hm Hms) as (targets & Ht & -> & Hm').
  exists (foldl apply_target scratch targets). split_and!; [|done|].
  - unfold Scratch_Apply. rewrite Hp. cbn [and_then]. rewrite Ht. cbn [and_then]. by rewrite He.
  - intros versions digest. by apply mirrors_digest.
Qed.

(** C22: the store returns the digest it had at an earlier result: take any
    history of committed write sets after that point, rewind the tables through
    the recorded mutations, and the digest of what is left is the digest
    computed back then, whatever results precede the cut. *)
Theorem rewound_digest (db final : Database) (history : list ProjectionWrites)
    (encoded : list (list N)) (older : list (N * list N)) (versions : Chain.Versions)
    (first cut : N) (rows current : list Chain.LogicalRow) (digest : Chain.Digest) :
  keyed db → projectionLogicalRows db = inr rows → (llen rows ≤ Chain.maxSafeInteger)%N →
  projectionStateDigest db versions = inr digest →
  commits db history = Some (encoded, final) → projectionLogicalRows final = inr current →
  (first ≤ cut)%N → Forall (λ result : N * list N, (result.1 ≤ cut)%N) older →
  projectionStateDigestAtResultCut final versions (cut + llen encoded) first cut
    (descending cut encoded ++ older) = inr digest.
Proof.
  intros Hk Hrows Hlen Hd Hc Hcurrent Hfirst Holder.
  apply projectionLogicalRows_iff in Hrows, Hcurrent.
  pose proof (lists_mirrors _ _ Hk Hrows) as Hm.
  destruct (rewind_commits _ _ _ _ _ Hm Hc) as (scratch' & Hm' & Hback).
  destruct (streamed_copy _ _ _ Hm' Hcurrent) as (copy & Hcopy & Hshows & _).
  destruct (streamed_copy _ _ _ Hm Hrows) as (before & _ & Hbefore & Hin).
  destruct (Hback copy cut cut Hshows) as (rewound & Hr & Hrewound); [lia|].
  pose proof (shows_unique _ _ _ Hrewound Hbefore) as ->.
  apply (stored_digest db rows) in Hd; [|done..].
  destruct (lists_NoDup _ _ Hk Hrows) as [Hnd Hcovered].
  destruct (cut_digest _ _ _ _ Hlen Hnd Hcovered Hin Hd) as (counts & d0 & d1 & Hcounts & Hd0 & Hd1 & Hsum).
  assert (Hguard : (cut <? first)%N || (cut + llen encoded <? cut)%N = false).
  { apply orb_false_iff. split; apply N.ltb_ge; lia. }
  assert (Hfilter : filter (λ result : N * list N, (cut < result.1)%N) (descending cut encoded ++ older)
                    = descending cut encoded).
  { rewrite filter_app, (list_filter_all _ (descending cut encoded) (descending_above cut encoded)).
    rewrite (list_filter_none _ older); [by rewrite app_nil_r|]. eapply Forall_impl; [exact Holder|]. cbn. lia. }
  unfold projectionStateDigestAtResultCut. rewrite Hguard, Hcopy. cbn [rows_result and_then].
  unfold projectionRowsAtResultCut. rewrite Hguard, Hfilter, Hr. cbn [and_then].
  rewrite N.eqb_refl. cbn [negb rewind_result and_then]. rewrite Hcounts. cbn [rows_result and_then].
  rewrite Hd0. cbn [chain_result rows_result and_then]. rewrite Hd1.
  cbn [chain_result rows_result and_then]. by rewrite Hsum.
Qed.

End Theorems.

End ProjectionTheorems.

(** ** Concrete histories of the stored tables

    [Module ProjectionWitnesses]: a printer that satisfies the laws of the
    canonical texts, and the theorems on the stored tables at two write sets. *)

Module ProjectionWitnesses.

Import Projections ProjectionStore ProjectionStream ProjectionProofs StreamProofs RewindProofs
  ProjectionTheorems MarshalProofs.

#[local] Existing Instances Fixtures.norm ChainTheorems.printer ChainTheorems.printer_trimmed
  ChainTheorems.checksums.

(** ** The printer's texts *)

Abbreviation octets := (Forall (λ b, b < 256)%N).

Lemma octets_bytes_of s : octets (bytes_of s).
Proof. induction s as [|c s IH]; constructor; [apply byte_of_bound|done]. Qed.

Lemma octets_quote l : octets l → octets (Marshal.quote_bytes l).
Proof.
  induction l as [l IH] using length_ind. intros Hl. destruct l as [|b0 l1]; [constructor|].
  apply Forall_cons in Hl as [H0 H1]. cbn [Marshal.quote_bytes].
  assert (Hhex : ∀ v, (Marshal.hex_byte v < 256)%N) by (intros v; apply byte_of_bound).
  destruct (b0 <? 128)%N eqn:Hb0.
  { apply Forall_app. split; [|by apply IH; [simpl; lia|]]. apply N.ltb_lt in Hb0.
    eapply Forall_impl; [by apply escape_ascii_ascii|]. intros c Hc. cbn in Hc. lia. }
  assert (Hr : octets Marshal.replacement) by (repeat constructor).
  destruct l1 as [|b1 l2]; [done|]. apply Forall_cons in H1 as H1'. destruct H1' as [Hb1 H2].
  destruct (two_bytes b0 b1).
  { repeat constructor; [done..|]. by apply IH; [simpl; lia|]. }
  destruct l2 as [|b2 l3].
  { apply Forall_app. split; [done|]. by apply IH; [simpl; lia|]. }
  apply Forall_cons in H2 as H2'. destruct H2' as [Hb2 H3].
  destruct (three_bytes b0 b1 b2).
  { apply Forall_app. split; [|by apply IH; [simpl; lia|]]. destruct (Marshal.line_separator b0 b1 b2).
    - repeat constructor. apply Hhex.
    - by repeat constructor. }
  destruct l3 as [|b3 l4].
  { apply Forall_app. split; [done|]. by apply IH; [simpl; lia|]. }
  apply Forall_cons in H3 as H3'. destruct H3' as [Hb3 H4].
  destruct (four_bytes b0 b1 b2 b3).
  - repeat constructor; [done..|]. by apply IH; [simpl; lia|].
  - apply Forall_app. split; [done|]. by apply IH; [simpl; lia|].
Qed.

Lemma octets_separated l : Forall octets l → octets (Marshal.separated l).
Proof.
  induction 1 as [|x l Hx Hl IH]; [constructor|]. destruct l as [|y l]; [done|].
  cbn [Marshal.separated] in *. apply Forall_app. split; [done|]. by constructor.
Qed.

Lemma octets_marshal v : octets (Marshal.marshal v).
Proof.
  assert (Hq : ∀ s, octets (Marshal.quote s)).
  { intros s. unfold Marshal.quote. constructor; [lia|]. apply Forall_app.
    split; [apply octets_quote, octets_bytes_of|repeat constructor]. }
  induction v as [|b|n|s|items IH|members IH] using json_induction; cbn [Marshal.marshal].
  - by repeat constructor.
  - destruct b; by repeat constructor.
  - apply octets_bytes_of.
  - apply Hq.
  - constructor; [lia|]. apply Forall_app. split; [|by repeat constructor].
    apply octets_separated. rewrite Forall_map. exact IH.
  - constructor; [lia|]. apply Forall_app. split; [|by repeat constructor].
    apply octets_separated. rewrite Forall_map. eapply Forall_impl; [exact IH|].
    intros [k x] Hx. cbn [snd] in Hx. apply Forall_app. split; [apply Hq|]. by constructor.
Qed.

#[local] Instance printer_keys : JCSKeys.
Proof.
  split; [apply octets_marshal|]. intros l l' Hl Hl' Heq. cbn [jcs_Append ChainTheorems.printer] in Heq.
  assert (Hread : ∀ k, forallb key_scalar k →
    JSON.read_value (Marshal.marshal (JArray k)) = Some (value_of (JArray k), []) ∧
    Codec.consumeValue 0 (value_of (JArray k)) = inr (JArray k)).
  { intros k Hk%Is_true_true. rewrite forallb_forall in Hk. split.
    - apply read_scalars, Forall_forall. intros v Hv%list_elem_of_In%Hk.
      destruct v as [| |n|s| |]; try done; [exists n; by left|exists 0%Z; right; by exists s].
    - apply consume_value. cbn [encodable]. apply andb_true_iff. split; [done|].
      apply forallb_forall. intros v Hv%Hk. by destruct v. }
  destruct (Hread l Hl) as [Hr Hc], (Hread l' Hl') as [Hr' Hc']. congruence.
Qed.

(** ** Two write sets *)

Definition column_json (column : Column) : json :=
  match column with
  | SNull => JNull
  | SInteger value => JNumber value
  | SText text => JString text
  | SBlob bytes => JNull
  end.

(** SQLite without clauses, whose [json_array] writes as the printer does. *)
#[local] Instance sqlite_json : SQLiteJSON :=
  {| json_array columns := Marshal.marshal (JArray (column_json <$> columns)) |}.
#[local] Instance schema : Schema := {| accepts _ _ _ := true |}.

Definition writes (version sequence : N) : ProjectionWrites :=
  mkProjectionWrites
    [mkOriginScopeRow Fixtures.device_id OriginScopeKindAgent Fixtures.agent_id sequence] [] [] [] [] [] [] [] [] [] []
    [Publication.mkCanonicalRef Publication.CanonicalRefName
       "sha1:0123456789abcdef0123456789abcdef01234567" version] [] [] [] [] [].

Definition versions : Chain.Versions := Chain.mkVersions 1 4.

Lemma mirrors_empty : mirrors ∅ ∅.
Proof.
  split; [intros t key row Hdb|intros identity logical Hs].
  - by apply (lookup_empty_Some (M := gmap _)) in Hdb.
  - by apply (lookup_empty_Some (M := gmap _)) in Hs.
Qed.

(** The first write set, applied to empty tables. *)
Definition first_ok : bool :=
  match prepareProjectionWrites (writes 1 1) with
  | inl _ => false
  | inr prepared =>
      match projectionMutations ∅ prepared with
      | inl _ => false
      | inr (mutations, _) =>
          match Chain.EncodeMutations mutations with inl _ => false | inr _ => true end
      end
  end.

Lemma first_accepted : first_ok = true.
Proof. vm_compute. done. Qed.

Lemma first_facts : ∃ prepared mutations db encoded,
  prepareProjectionWrites (writes 1 1) = inr prepared ∧
  projectionMutations ∅ prepared = inr (mutations, db) ∧
  Chain.EncodeMutations mutations = inr encoded.
Proof.
  pose proof first_accepted as Hok. unfold first_ok in Hok.
  destruct (prepareProjectionWrites (writes 1 1)) as [|prepared]; [done|].
  destruct (projectionMutations ∅ prepared) as [|[mutations db]] eqn:Hm; [done|].
  destruct (Chain.EncodeMutations mutations) as [|encoded] eqn:He; [done|].
  by exists prepared, mutations, db, encoded.
Qed.

(** The empty copy of the empty tables. *)
Lemma scratch_simulates_store_witness :
  ∃ prepared mutations db encoded,
    (mirrors ∅ ∅ ∧ prepareProjectionWrites (writes 1 1) = inr prepared ∧
     projectionMutations ∅ prepared = inr (mutations, db) ∧
     Chain.EncodeMutations mutations = inr encoded) ∧
    ∃ scratch, Scratch_Apply ∅ (writes 1 1) = inr (mutations, scratch) ∧ mirrors db scratch.
Proof.
  destruct first_facts as (prepared & mutations & db & encoded & Hp & Hm & He).
  exists prepared, mutations, db, encoded. split; [exact (conj mirrors_empty (conj Hp (conj Hm He)))|].
  destruct (scratch_simulates_store ∅ db ∅ (writes 1 1) prepared mutations encoded
              mirrors_empty Hp Hm He) as (scratch & Ha & Hs & _).
  exists scratch. exact (conj Ha Hs).
Defined.

(** Two more write sets after the first, and the cut after the first. *)
Definition later : list ProjectionWrites := [writes 2 2; writes 3 4].

Definition is_inr {A B} (result : A + B) : bool := match result with inr _ => true | inl _ => false end.

Definition history_ok : bool :=
  match commits ∅ [writes 1 1] with
  | None => false
  | Some (_, db) =>
      match commits db later, projectionLogicalRows db with
      | Some (_, final), inr rows =>
          (llen rows <=? Chain.maxSafeInteger)%N && is_inr (projectionStateDigest db versions) &&
          is_inr (projectionLogicalRows final)
      | _, _ => false
      end
  end.

Lemma history_accepted : history_ok = true.
Proof. vm_compute. done. Qed.

Lemma history_facts : ∃ first db encoded final rows current digest,
  commits ∅ [writes 1 1] = Some (first, db) ∧ commits db later = Some (encoded, final) ∧
  projectionLogicalRows db = inr rows ∧ (llen rows ≤ Chain.maxSafeInteger)%N ∧
  projectionStateDigest db versions = inr digest ∧ projectionLogicalRows final = inr current.
Proof.
  pose proof history_accepted as Hok. unfold history_ok in Hok.
  destruct (commits ∅ [writes 1 1]) as [[first db]|] eqn:Hc; [|done].
  destruct (commits db later) as [[encoded final]|] eqn:Hl; [|done].
  destruct (projectionLogicalRows db) as [|rows] eqn:Hr; [done|].
  apply andb_true_iff in Hok as [Hok Hf]. apply andb_true_iff in Hok as [Hlen Hd].
  destruct (projectionStateDigest db versions) as [|digest] eqn:Hdigest; [done|].
  destruct (projectionLogicalRows final) as [|current] eqn:Hcurrent; [done|].
  apply N.leb_le in Hlen. exists first, db, encoded, final, rows, current, digest. by split_and!.
Qed.

Lemma committed_keyed history encoded db : commits ∅ history = Some (encoded, db) → keyed db.
Proof.
  intros Hc. destruct (rewind_commits _ _ _ _ _ mirrors_empty Hc) as (scratch & Hm & _).
  by eapply mirrors_keyed.
Qed.

(** The digest after the first write set, found again after the third. *)
Lemma rewound_digest_witness :
  ∃ first db encoded final digest,
    (commits ∅ [writes 1 1] = Some (first, db) ∧ commits db later = Some (encoded, final) ∧
     projectionStateDigest db versions = inr digest) ∧
    projectionStateDigestAtResultCut final versions (1 + llen encoded) 0 1
      (descending 1 encoded ++ [(1%N, concat first)]) = inr digest.
Proof.
  destruct history_facts as (first & db & encoded & final & rows & current & digest &
    Hc & Hl & Hr & Hlen & Hd & Hf).
  exists first, db, encoded, final, digest. split; [exact (conj Hc (conj Hl Hd))|].
  refine (rewound_digest db final later encoded [(1%N, concat first)] versions 0 1 rows current digest
           (committed_keyed _ _ _ Hc) Hr Hlen Hd Hl Hf _ _).
  - lia.
  - constructor; [simpl; lia|constructor].
Defined.

End ProjectionWitnesses.
