(* ===== verification/StoreRecords.v ===== *)
(** * Package internal/store: the records of one applied command

    [Module StoreRecords]: the outcome, the heads and the complete write set of
    one command with their validators (records.go). Local requests, peers and
    snapshots have records of their own and are not here. *)

From stdpp Require Import base gmap strings list.
From Stdlib Require Import ZArith NArith Lia.
From S2P Require Import Prelude.
From S2P Require Import GoLib.
From S2P Require Import GoJson.
From S2P Require Import CodecLayer.
From S2P Require Import DomainValues.
From S2P Require Import EventModel.
From S2P Require Import CheckpointCodec.
From S2P Require Import ChainCommitments.
From S2P Require Import ProjectionRows.
From S2P Require Import ProjectionStore.

Module StoreRecords.

(** The error values that callers tell apart; the details are messages. *)
Inductive Error :=
  | ErrInvalidApply | ErrApplyConflict | ErrIdempotencyConflict | ErrCommandResultCorrupt
  | ErrIntegrityCheck | ErrInvalidOptions | ErrReplicaEvidenceMode | ErrRaftCommandBinding
  | ErrStatement (* an error without a value of its own: SQLite, a binding, a message *)
  | ErrProjection (err : ProjectionStore.Error)
  | ErrLocalStateIntegrity (* the tables of this device disagree *)
  | ErrFailpoint.

#[global] Instance Error_eq_dec : EqDecision Error.
Proof. solve_decision. Defined.

Definition Digest : Type := Chain.Digest.

Inductive OutcomeStatus := OutcomeAccepted | OutcomeRejected | OutcomeUnknown (text : string).

#[global] Instance OutcomeStatus_eq_dec : EqDecision OutcomeStatus.
Proof. solve_decision. Defined.

Definition OutcomeStatus_of (text : string) : OutcomeStatus :=
  if text == "accepted" then OutcomeAccepted
  else if text == "rejected" then OutcomeRejected else OutcomeUnknown text.

Definition OutcomeStatus_text (status : OutcomeStatus) : string :=
  match status with
  | OutcomeAccepted => "accepted" | OutcomeRejected => "rejected" | OutcomeUnknown text => text
  end.

Definition OutcomeStatus_valid (status : OutcomeStatus) : bool :=
  (status == OutcomeAccepted) || (status == OutcomeRejected).

Record CommandOutcome := mkCommandOutcome {
  Status : OutcomeStatus;
  Code : string;
  OutcomeJSON : list N }.

#[global] Instance CommandOutcome_eq_dec : EqDecision CommandOutcome.
Proof. solve_decision. Defined.

Definition validCode (value : string) (extended : bool) : bool :=
  (1 <=? strlen value)%N && (strlen value <=? 64)%N &&
  all_bytes (λ character,
    in_range 97 122 character || in_range 48 57 character || (character =? 95)%N ||
    extended && (in_range 65 90 character || (character =? 46)%N || (character =? 58)%N ||
                 (character =? 45)%N)) value.

(** [json.Unmarshal] of an object into [map[string]json.RawMessage]. *)
Definition rawMembers (text : list N) : option (gmap string (list N)) :=
  list_to_map <$> JSON.raw_object text.

(** [json.Unmarshal] into a [uint64], which null leaves zero. *)
Definition uint_of (raw : list N) : option N := default 0%N <$> Chain.nullable_of JSON.ParseUint raw.

Record ApplyHeads := mkApplyHeads {
  ChainIndex : N;
  ChainHash : Digest;
  ResultIndex : N;
  PreviousResultHash : Digest;
  ResultHash : Digest;
  ProjectionAccumulator : Digest;
  DigestVersion : N;
  ProjectionSchemaVersion : N }.

#[global] Instance ApplyHeads_eq_dec : EqDecision ApplyHeads.
Proof. solve_decision. Defined.

Definition ApplyHeads_validate (heads : ApplyHeads) : option Error :=
  scan_entries
    (λ '(minimum, value),
       refuse ErrInvalidApply
         when ((value <? minimum)%N || negb (Domain.ValidUnsignedInteger value)) ;; None)
    [(0%N, ChainIndex heads); (1%N, ResultIndex heads); (1%N, DigestVersion heads);
     (1%N, ProjectionSchemaVersion heads)].

(** ** Audit rows *)

Inductive AuditSourceKind :=
  | AuditAcceptedEvent | AuditCommittedRejection | AuditEvent | AuditLocalAggregate
  | AuditRecoveryBoundary | AuditUnknown (text : string).

#[global] Instance AuditSourceKind_eq_dec : EqDecision AuditSourceKind.
Proof. solve_decision. Defined.

Definition AuditSourceKind_valid (kind : AuditSourceKind) : bool :=
  match kind with AuditUnknown _ => false | _ => true end.

(** An absent text is empty, an absent index zero. *)
Record AuditRecord := mkAuditRecord {
  ASessionID : string;
  SourceKind : AuditSourceKind;
  AEventID : string;
  AResultIndex : N;
  ReporterDeviceID : string;
  SubjectDeviceID : string;
  SubjectCredentialEpoch : option N;
  ActorType : Event.ActorType;
  IPCChannel : string;
  ActionCode : string;
  OutcomeCode : string;
  Subject : string;
  DetailsJSON : list N;
  FirstSeenAt : string;
  LastSeenAt : string;
  ObservationCount : N }.

#[global] Instance ActorType_eq_dec : EqDecision Event.ActorType.
Proof. solve_decision. Defined.
#[global] Instance AuditRecord_eq_dec : EqDecision AuditRecord.
Proof. solve_decision. Defined.

Definition absent (text : string) : bool := text == EmptyString.

Section Lib.
Context `{NormLib, JCSLib, CryptoLib}.

(** [codec.CanonicalizeSignedObject] and the comparison with its input. *)
Definition canonicalObject (value : list N) : bool :=
  match Codec.CanonicalizeSignedObject value with
  | inl _ => false
  | inr canonical => canonical == value
  end.

Definition CommandOutcome_validate (outcome : CommandOutcome) : option Error :=
  refuse ErrInvalidApply when (negb (OutcomeStatus_valid (Status outcome))) ;;
  refuse ErrInvalidApply when (negb (validCode (Code outcome) false)) ;;
  refuse ErrInvalidApply when (negb (canonicalObject (OutcomeJSON outcome))) ;;
  match rawMembers (OutcomeJSON outcome) with
  | None => Some ErrInvalidApply
  | Some members =>
      refuse ErrInvalidApply
        when ((members !! "status" ≫= JSON.text_of) !=
              Some (OutcomeStatus_text (Status outcome))) ;;
      refuse ErrInvalidApply when ((members !! "code" ≫= JSON.text_of) != Some (Code outcome)) ;;
      None
  end.

Definition AuditRecord_Validate (record : AuditRecord) : option Error :=
  refuse ErrInvalidApply
    when (negb (Domain.UUIDv7_Valid (ASessionID record)) ||
          negb (AuditSourceKind_valid (SourceKind record))) ;;
  refuse ErrInvalidApply
    when ((SourceKind record == AuditLocalAggregate) &&
          negb (Bool.eqb (absent (AEventID record)) (AResultIndex record =? 0)%N)) ;;
  refuse ErrInvalidApply
    when (negb (absent (AEventID record)) && negb (Domain.UUIDv7_Valid (AEventID record))) ;;
  refuse ErrInvalidApply
    when (negb (AResultIndex record =? 0)%N &&
          negb (Domain.ValidUnsignedInteger (AResultIndex record))) ;;
  refuse ErrInvalidApply
    when (negb (absent (ReporterDeviceID record)) &&
          negb (Domain.DeviceID_Valid (ReporterDeviceID record)) ||
          negb (absent (SubjectDeviceID record)) &&
          negb (Domain.DeviceID_Valid (SubjectDeviceID record))) ;;
  refuse ErrInvalidApply
    when (match SubjectCredentialEpoch record with
          | Some epoch => negb (Domain.ValidUnsignedInteger epoch)
          | None => false
          end) ;;
  refuse ErrInvalidApply
    when ((ActorType record != Event.ActorUnknown EmptyString) &&
          negb (Event.ActorType_Valid (ActorType record))) ;;
  refuse ErrInvalidApply
    when (negb (bool_decide (IPCChannel record ∈
                 [EmptyString; "agent"; "operator"; "daemon"; "peer"]))) ;;
  refuse ErrInvalidApply
    when (negb (validCode (ActionCode record) true) || negb (validCode (OutcomeCode record) true)) ;;
  refuse ErrInvalidApply
    when ((256 <? strlen (Subject record))%N || negb (utf8_ValidString (Subject record))) ;;
  refuse ErrInvalidApply when (negb (canonicalObject (DetailsJSON record))) ;;
  refuse ErrInvalidApply
    when (negb (Domain.Timestamp_Valid (FirstSeenAt record)) ||
          negb (Domain.Timestamp_Valid (LastSeenAt record)) ||
          (ObservationCount record <? 1)%N ||
          negb (Domain.ValidUnsignedInteger (ObservationCount record))) ;;
  None.

(** ** Checkpoint rows *)

Record CheckpointRecord := mkCheckpointRecord {
  CheckpointEventID : string;
  CSessionID : string;
  CWorkspaceID : string;
  CRecoveryGeneration : N;
  AuthorityVoterSetVersion : N;
  SignerDeviceID : string;
  CTerm : N;
  CoveredAppliedLogIndex : N;
  CoveredChainIndex : N;
  CoveredChainHash : Digest;
  CoveredResultIndex : N;
  CoveredResultHash : Digest;
  CProjectionAccumulator : Digest;
  CDigestVersion : N;
  CProjectionSchemaVersion : N;
  CheckpointJSON : list N;
  AuthoritySignature : list N }.

Definition checkpoint (record : CheckpointRecord) : Domain.Checkpoint :=
  Domain.mkCheckpoint (CSessionID record) (CWorkspaceID record) (CRecoveryGeneration record)
    (AuthorityVoterSetVersion record) (SignerDeviceID record) (CTerm record)
    (CoveredAppliedLogIndex record) (CoveredChainIndex record) (CoveredChainHash record)
    (CoveredResultIndex record) (CoveredResultHash record) (CProjectionAccumulator record)
    (CDigestVersion record) (CProjectionSchemaVersion record).

Definition canonicalJSON (record : CheckpointRecord) (includeSignature : bool)
    : option (list N) :=
  match EventCheckpoint.EncodeCheckpoint (checkpoint record) with
  | inl _ => None
  | inr unsigned =>
      if negb includeSignature then Some unsigned
      else match EventCheckpoint.EncodeCheckpointPayload (checkpoint record)
                   (AuthoritySignature record) with
      | inl _ => None
      | inr payload => Some payload
      end
  end.

Definition matchesPayload (record : CheckpointRecord) (payload : list N) : bool :=
  canonicalJSON record true == Some payload.

Definition CheckpointRecord_Validate (record : CheckpointRecord) : option Error :=
  refuse ErrInvalidApply
    when (negb (Domain.UUIDv7_Valid (CheckpointEventID record)) ||
          negb (Domain.UUIDv7_Valid (CSessionID record)) ||
          negb (Domain.UUIDv4_Valid (CWorkspaceID record)) ||
          negb (Domain.DeviceID_Valid (SignerDeviceID record))) ;;
  refuse ErrInvalidApply
    when (negb (forallb Domain.ValidUnsignedInteger
                  [CRecoveryGeneration record; AuthorityVoterSetVersion record; CTerm record;
                   CoveredAppliedLogIndex record; CoveredChainIndex record;
                   CoveredResultIndex record; CDigestVersion record;
                   CProjectionSchemaVersion record])) ;;
  refuse ErrInvalidApply
    when ((AuthorityVoterSetVersion record <? 1) || (CTerm record <? 1) ||
          (CoveredAppliedLogIndex record <? 1) || (CDigestVersion record <? 1) ||
          (CProjectionSchemaVersion record <? 1))%N ;;
  refuse ErrInvalidApply when (CoveredResultIndex record <? CoveredChainIndex record)%N ;;
  refuse ErrInvalidApply when (negb (canonicalObject (CheckpointJSON record))) ;;
  refuse ErrInvalidApply when (canonicalJSON record false != Some (CheckpointJSON record)) ;;
  None.

(** ** Lease deadlines *)

Record LeaseDeadlineRecord := mkLeaseDeadlineRecord {
  LeaseID : string;
  EntityVersion : N;
  OriginBootID : string;
  MonotonicDeadlineNS : Z;
  DisplayDeadlineAt : string }.

Definition LeaseDeadlineRecord_Validate (record : LeaseDeadlineRecord) : option Error :=
  refuse ErrInvalidApply
    when (negb (Domain.UUIDv7_Valid (LeaseID record)) ||
          negb (Domain.UUIDv7_Valid (OriginBootID record)) ||
          (EntityVersion record <? 1)%N || negb (Domain.ValidUnsignedInteger (EntityVersion record)) ||
          (MonotonicDeadlineNS record <? 0)%Z ||
          negb (Domain.Timestamp_Valid (DisplayDeadlineAt record))) ;;
  None.

Record LeaseDeadlineKey := mkLeaseDeadlineKey { KLeaseID : string; KEntityVersion : N }.

Definition LeaseDeadlineKey_Validate (key : LeaseDeadlineKey) : option Error :=
  refuse ErrInvalidApply
    when (negb (Domain.UUIDv7_Valid (KLeaseID key)) || (KEntityVersion key <? 1)%N ||
          negb (Domain.ValidUnsignedInteger (KEntityVersion key))) ;;
  None.

(** ** The request *)

Record ApplyRequest := mkApplyRequest {
  Term : N;
  LogIndex : N;
  AppliedAt : string;
  RecoveryGeneration : N;
  Proposal : Event.SignedEvent;
  Outcome : CommandOutcome;
  Projections : Projections.ProjectionWrites;
  RecordActivity : bool;
  ActivityTaskID : string;
  Audit : list AuditRecord;
  Checkpoint : option CheckpointRecord;
  LeaseDeadlines : list LeaseDeadlineRecord;
  DeleteLeaseDeadlines : list LeaseDeadlineKey }.

Definition maxInt64 : N := ProjectionStore.MaxInt64.

Definition validateApplyIdentity (request : ApplyRequest) : option Error :=
  refuse ErrInvalidApply
    when ((Term request <? 1) || (LogIndex request <? 1) || (maxInt64 <? Term request) ||
          (maxInt64 <? LogIndex request))%N ;;
  refuse ErrInvalidApply
    when (negb (Domain.Timestamp_Valid (AppliedAt request)) ||
          negb (Domain.ValidUnsignedInteger (RecoveryGeneration request))) ;;
  refuse ErrInvalidApply
    when (bool_decide (Event.ValidateEnvelope (Event.proposal (Proposal request)) ≠ None)) ;;
  refuse ErrInvalidApply when (negb (canonicalObject (Event.canonical (Proposal request)))) ;;
  refuse ErrInvalidApply
    when (negb (llen (Event.signature (Proposal request)) =? Crypto.Ed25519SignatureSize)%N) ;;
  None.

(** The task that an activity payload names, empty when it names none. *)
Definition activityTaskID (proposal : Event.Proposal) : option string :=
  if Event.PKind proposal != Event.KindActivityRecorded then Some EmptyString
  else
    members ← rawMembers (Event.Payload proposal);
    if (size members =? 0)%nat then Some EmptyString
    else
      raw ← members !! "task_id";
      if negb (size members =? 1)%nat then None
      else
        text ← JSON.text_of raw;
        if Domain.UUIDv7_Valid text then Some text else None.

(** [auditRecordedPayload]. *)
Record auditRecordedPayload := mkAuditRecordedPayload {
  PAction : string;
  POutcome : string;
  PSubject : string;
  PSubjectDeviceID : string;
  PSubjectCredentialEpoch : N }.

Definition decodeAuditRecorded (payload : list N) : option auditRecordedPayload :=
  members ← rawMembers payload;
  if negb (size members =? 5)%nat then None
  else
    action ← members !! "action"; outcome ← members !! "outcome"; subject ← members !! "subject";
    device ← members !! "subject_device_id"; epoch ← members !! "subject_credential_epoch";
    action ← JSON.text_of action; outcome ← JSON.text_of outcome; subject ← JSON.text_of subject;
    device ← JSON.text_of device; epoch ← uint_of epoch;
    Some (mkAuditRecordedPayload action outcome subject device epoch).

Definition isLocalAggregate (record : AuditRecord) : bool := SourceKind record == AuditLocalAggregate.

Definition validateAuditBinding (request : ApplyRequest) (proposal : Event.Proposal)
    (expectedResultIndex : N) : option Error :=
  let alarms := filter (λ record, isLocalAggregate record = true) (Audit request) in
  refuse ErrInvalidApply
    when ((1 <? llen alarms)%N ||
          existsb (λ record, AEventID record != Event.EventID proposal) alarms) ;;
  refuse ErrInvalidApply
    when (negb (expectedResultIndex =? 0)%N &&
          existsb (λ record, negb (AResultIndex record =? expectedResultIndex)%N) (Audit request)) ;;
  if negb ((Status (Outcome request) == OutcomeAccepted) &&
           (Event.PKind proposal == Event.KindAuditRecorded))
  then
    refuse ErrInvalidApply
      when (existsb (λ record, SourceKind record == AuditEvent) (Audit request)) ;;
    None
  else
    match Audit request with
    | [record] =>
        match decodeAuditRecorded (Event.Payload proposal) with
        | None => Some ErrInvalidApply
        | Some payload =>
            refuse ErrInvalidApply
              when ((SubjectCredentialEpoch record != Some (PSubjectCredentialEpoch payload)) ||
                    (ASessionID record != Event.SessionID proposal) ||
                    (SourceKind record != AuditEvent) ||
                    (AEventID record != Event.EventID proposal) ||
                    negb (expectedResultIndex =? 0)%N &&
                    negb (AResultIndex record =? expectedResultIndex)%N ||
                    (ReporterDeviceID record != Event.deviceID (Event.POrigin proposal)) ||
                    (SubjectDeviceID record != PSubjectDeviceID payload) ||
                    (ActorType record != Event.actorType (Event.POrigin proposal)) ||
                    (ActionCode record != PAction payload) ||
                    (OutcomeCode record != POutcome payload) ||
                    (Subject record != PSubject payload) ||
                    (FirstSeenAt record != AppliedAt request) ||
                    (LastSeenAt record != AppliedAt request) ||
                    negb (ObservationCount record =? 1)%N) ;;
            None
        end
    | _ => Some ErrInvalidApply
    end.

(** The checks of the checkpoint row against the proposal. *)
Definition validateCheckpointRow (request : ApplyRequest) : option Error :=
  let proposal := Event.proposal (Proposal request) in
  let accepted := Status (Outcome request) == OutcomeAccepted in
  let isCheckpointEvent := Event.PKind proposal == Event.KindConsensusCheckpoint in
  match Checkpoint request with
  | None => refuse ErrInvalidApply when (isCheckpointEvent && accepted) ;; None
  | Some record =>
      check CheckpointRecord_Validate record ;;
      refuse ErrInvalidApply
        when (negb accepted || negb isCheckpointEvent ||
              (CheckpointEventID record != Event.EventID proposal)) ;;
      refuse ErrInvalidApply
        when ((CSessionID record != Event.SessionID proposal) ||
              (CWorkspaceID record != Event.WorkspaceID proposal) ||
              negb (CRecoveryGeneration record =? RecoveryGeneration request)%N) ;;
      refuse ErrInvalidApply when (negb (matchesPayload record (Event.Payload proposal))) ;;
      None
  end.

Definition validateActivity (request : ApplyRequest) : option Error :=
  let proposal := Event.proposal (Proposal request) in
  let expectedActivity :=
    (Status (Outcome request) == OutcomeAccepted) &&
    (negb (absent (Event.RationaleSummary proposal)) ||
     negb (Event.no_actions (Event.Actions proposal))) in
  refuse ErrInvalidApply when (negb (Bool.eqb (RecordActivity request) expectedActivity)) ;;
  if RecordActivity request then
    refuse ErrInvalidApply
      when (negb (absent (ActivityTaskID request)) &&
            negb (Domain.UUIDv7_Valid (ActivityTaskID request))) ;;
    refuse ErrInvalidApply
      when ((Event.PKind proposal == Event.KindActivityRecorded) &&
            (activityTaskID proposal != Some (ActivityTaskID request))) ;;
    None
  else refuse ErrInvalidApply when (negb (absent (ActivityTaskID request))) ;; None.

Definition ApplyRequest_validate (request : ApplyRequest) : option Error :=
  let proposal := Event.proposal (Proposal request) in
  check validateApplyIdentity request ;;
  check CommandOutcome_validate (Outcome request) ;;
  check validateActivity request ;;
  check scan_entries AuditRecord_Validate (Audit request) ;;
  check validateAuditBinding request proposal 0 ;;
  check validateCheckpointRow request ;;
  check scan_entries LeaseDeadlineRecord_Validate (LeaseDeadlines request) ;;
  check scan_entries LeaseDeadlineKey_Validate (DeleteLeaseDeadlines request) ;;
  None.

Definition proposalDigest (signed : Event.SignedEvent) : Digest := Sum256 (Event.canonical signed).

Definition proposalDigestFromBytes (proposal : list N) : Digest := Sum256 proposal.

Definition proposalScope (proposal : Event.Proposal) : string * string :=
  if Event.actorType (Event.POrigin proposal) == Event.ActorAgent
  then (Projections.OriginScopeKindAgent, Event.agentSessionID (Event.POrigin proposal))
  else (Projections.OriginScopeKindBoot, Event.originBootID (Event.POrigin proposal)).

End Lib.

End StoreRecords.
