(* ===== verification/CommandPayload.v ===== *)
(** * Package internal/store: the stored payload of a command result

    [Module CommandPayload]: the frame that holds the proposal, the outcome and
    the mutations of a result, its compressed form with size and checksum, and
    the sentinels in the columns the frame replaced (command_result_payload.go).

    The DEFLATE coder of Go's compress/flate is the class [FlateLib]: what its
    writer makes of a frame, and what its reader makes of stored bytes, with the
    bytes left after the stream. A reader that stops at the stored size plus one
    and a reader of the whole stream fail on the same inputs. *)

From stdpp Require Import base gmap strings list.
From Stdlib Require Import ZArith NArith Lia.
From S2P Require Import Prelude.
From S2P Require Import GoLib.
From S2P Require Import GoJson.
From S2P Require Import CodecLayer.
From S2P Require Import ChainCommitments.
From S2P Require Import ChainProofs.
From S2P Require Import ChainTheorems.
From S2P Require Import StoreRecords.

Class FlateLib := {
  flate_write : list N → list N;
  flate_read : list N → option (list N * list N);
  flate_written : ∀ frame, flate_read (flate_write frame) = Some (frame, [])
}.

Module CommandPayload.

Import StoreRecords.

Definition commandResultPayloadCodecVersion : N := 1.
Definition commandResultPayloadHeaderBytes : N := 20.
Definition maxCommandResultPayloadBytes : N := 37748736.
Definition maxCommandResultCompressedBytes : N := 37748736.
Definition maxCommandResultProposalBytes : N := 1048576.
Definition maxCommandResultOutcomeBytes : N := 1048576.
Definition maxCommandResultMutationsBytes : N := 33554432.
Definition commandResultObjectSentinel : list N := bytes_of "{}".
Definition commandResultMutationsSentinel : list N := bytes_of "[]".
Definition commandResultPayloadMagic : list N := bytes_of "CCRP".

Record commandResultPayload := mkPayload {
  proposal : list N;
  outcome : list N;
  mutations : list N }.

Record storedCommandResultPayload := mkStoredPayload {
  codecVersion : N;
  uncompressedSize : N;
  checksum : Digest;
  compressed : list N }.

(** [binary.BigEndian.PutUint32] of [uint32(value)], and [Uint32] of four bytes. *)
Definition uint32Bytes (value : N) : list N :=
  (λ k, N.land (N.shiftr value (8 * k)) 255) <$> [3; 2; 1; 0]%N.

Definition uint32 (bytes : list N) : N := fold_left (λ acc b, acc * 256 + b)%N bytes 0%N.

(** [frame[from:to]]. *)
Definition slice {A} (from to : N) (frame : list A) : list A :=
  take (N.to_nat (to - from)) (drop (N.to_nat from) frame).

Definition commandResultPayloadSentinels (payload : commandResultPayload) : bool * bool :=
  let proposal := proposal payload == commandResultObjectSentinel in
  let outcome := outcome payload == commandResultObjectSentinel in
  let mutations := mutations payload == commandResultMutationsSentinel in
  if proposal && outcome then (mutations, negb mutations)
  else (false, negb (Bool.eqb proposal outcome)).

Section Lib.
Context `{NormLib, JCSLib, CryptoLib, FlateLib}.

Definition validateCommandResultPayload (payload : commandResultPayload) : option Error :=
  refuse ErrCommandResultCorrupt
    when ((maxCommandResultProposalBytes <? llen (proposal payload)) ||
          (maxCommandResultOutcomeBytes <? llen (outcome payload)) ||
          (maxCommandResultMutationsBytes <? llen (mutations payload)))%N ;;
  refuse ErrCommandResultCorrupt when (negb (canonicalObject (proposal payload))) ;;
  refuse ErrCommandResultCorrupt when (negb (canonicalObject (outcome payload))) ;;
  match Chain.DecodeMutations (mutations payload) with
  | inl _ => Some ErrCommandResultCorrupt
  | inr decoded =>
      match Chain.EncodeMutations decoded with
      | inl _ => Some ErrCommandResultCorrupt
      | inr canonical =>
          refuse ErrCommandResultCorrupt when (canonical != mutations payload) ;; None
      end
  end.

(** The frame of [encodeCommandResultPayload]. *)
Definition payloadFrame (payload : commandResultPayload) : list N :=
  commandResultPayloadMagic ++ uint32Bytes commandResultPayloadCodecVersion ++
  uint32Bytes (llen (proposal payload)) ++ uint32Bytes (llen (outcome payload)) ++
  uint32Bytes (llen (mutations payload)) ++
  proposal payload ++ outcome payload ++ mutations payload.

Definition encodeCommandResultPayload (payload : commandResultPayload)
    : Error + storedCommandResultPayload :=
  ensure validateCommandResultPayload payload ;;
  let size := (commandResultPayloadHeaderBytes + llen (proposal payload) +
               llen (outcome payload) + llen (mutations payload))%N in
  throw ErrCommandResultCorrupt when (maxCommandResultPayloadBytes <? size)%N ;;
  let frame := payloadFrame payload in
  let compressed := flate_write frame in
  throw ErrCommandResultCorrupt
    when ((llen compressed <? 1) || (maxCommandResultCompressedBytes <? llen compressed))%N ;;
  inr (mkStoredPayload commandResultPayloadCodecVersion (llen frame) (Sum256 frame) compressed).

Definition decodeCommandResultPayload (stored : storedCommandResultPayload)
    : Error + commandResultPayload :=
  throw ErrCommandResultCorrupt
    when (negb (codecVersion stored =? commandResultPayloadCodecVersion)%N) ;;
  throw ErrCommandResultCorrupt
    when ((uncompressedSize stored <? commandResultPayloadHeaderBytes + 6) ||
          (maxCommandResultPayloadBytes <? uncompressedSize stored) ||
          (llen (compressed stored) <? 1) ||
          (maxCommandResultCompressedBytes <? llen (compressed stored)))%N ;;
  match flate_read (compressed stored) with
  | None => inl ErrCommandResultCorrupt
  | Some (frame, trailing) =>
      throw ErrCommandResultCorrupt when (negb (llen frame =? uncompressedSize stored)%N) ;;
      throw ErrCommandResultCorrupt when (negb (llen trailing =? 0)%N) ;;
      throw ErrCommandResultCorrupt when (Sum256 frame != checksum stored) ;;
      throw ErrCommandResultCorrupt
        when ((llen frame <? commandResultPayloadHeaderBytes)%N ||
              (slice 0 4 frame != commandResultPayloadMagic) ||
              negb (uint32 (slice 4 8 frame) =? commandResultPayloadCodecVersion)%N) ;;
      let proposalSize := uint32 (slice 8 12 frame) in
      let outcomeSize := uint32 (slice 12 16 frame) in
      let mutationsSize := uint32 (slice 16 20 frame) in
      throw ErrCommandResultCorrupt
        when ((maxCommandResultProposalBytes <? proposalSize) ||
              (maxCommandResultOutcomeBytes <? outcomeSize) ||
              (maxCommandResultMutationsBytes <? mutationsSize) ||
              (proposalSize <? 2) || (outcomeSize <? 2) || (mutationsSize <? 2) ||
              negb (commandResultPayloadHeaderBytes + proposalSize + outcomeSize +
                    mutationsSize =? llen frame))%N ;;
      let offset := commandResultPayloadHeaderBytes in
      let afterProposal := (offset + proposalSize)%N in
      let afterOutcome := (afterProposal + outcomeSize)%N in
      let payload := mkPayload (slice offset afterProposal frame)
                       (slice afterProposal afterOutcome frame)
                       (slice afterOutcome (afterOutcome + mutationsSize) frame) in
      ensure validateCommandResultPayload payload ;;
      inr payload
  end.

End Lib.

End CommandPayload.

(** ** The stored payload is read back

    [Module PayloadProofs]: the four-byte lengths, the least sizes of canonical
    members, and the decoding of an encoded payload. *)

Module PayloadProofs.

Import StoreRecords CommandPayload.

(** ** Frames *)

Lemma uint32_bytes n : (n < 2 ^ 32)%N → uint32 (uint32Bytes n) = n.
Proof.
  intros Hn. unfold uint32, uint32Bytes. cbn [fmap list_fmap fold_left].
  change 255%N with (N.ones 8). rewrite !N.land_ones, !N.shiftr_div_pow2.
  change (8 * 0)%N with 0%N. change (8 * 1)%N with 8%N. change (8 * 2)%N with 16%N.
  change (8 * 3)%N with 24%N. change (2 ^ 8)%N with 256%N. change (2 ^ 16)%N with 65536%N.
  change (2 ^ 24)%N with 16777216%N. change (2 ^ 0)%N with 1%N. change (2 ^ 32)%N with 4294967296%N in Hn.
  Z.to_euclidean_division_equations. lia.
Qed.

Lemma slice_middle {A} (a b c : list A) from to :
  llen a = from → (from + llen b)%N = to → slice from to (a ++ b ++ c) = b.
Proof.
  intros <- <-. unfold slice, llen.
  replace (N.to_nat (N.of_nat (length a))) with (length a) by lia.
  rewrite drop_app_length. replace (N.to_nat _) with (length b) by lia. apply take_app_length.
Qed.

Lemma llen_app {A} (a b : list A) : llen (a ++ b) = (llen a + llen b)%N.
Proof. unfold llen. rewrite length_app. lia. Qed.

(** ** Sizes of members *)

Lemma one_byte_no_object b members rest : JSON.read_value [b] ≠ Some (JSON.VObject members, rest).
Proof.
  unfold JSON.read_value, JSON.read_fuel. simpl length. change (2 * 1 + 2) with 4.
  cbn [JSON.read JSON.skip]. destruct (JSON.space b); [done|].
  destruct (b =? 91)%N; [by cbn|]. destruct (b =? 123)%N; [by cbn|].
  unfold JSON.scalar, JSON.literal. intros Heq. repeat case_match; simplify_eq.
Qed.

Lemma object_size `{JCSLib} X : canonicalObject X = true → (2 ≤ llen X)%N.
Proof.
  unfold canonicalObject, Codec.CanonicalizeSignedObject.
  destruct (Codec.validateJSON X _) as [|[| | | | |members]] eqn:Hv; try done. intros _.
  apply MutationProofs.validated_read in Hv as (w & rest & Hr & _ & Hc).
  assert (∃ ms, w = JSON.VObject ms) as [ms ->].
  { destruct w as [|b|token|text|items|ms]; try done; [| |by eexists]; simpl in Hc;
      repeat case_match; done. }
  destruct X as [|b [|b' X]]; [done|by apply one_byte_no_object in Hr|]. unfold llen. simpl. lia.
Qed.

Lemma mutations_size `{JCSLib} ms e : Chain.EncodeMutations ms = inr e → (2 ≤ llen e)%N.
Proof.
  unfold Chain.EncodeMutations, Chain.encodePreparedMutations. intros He.
  repeat case_match; simplify_eq. rewrite !llen_app. unfold llen at 1 3. simpl. lia.
Qed.

(** ** Round trip *)

Section Lib.
Context `{NormLib, JCSLib, CryptoLib, FlateLib}.

Lemma payload_sizes payload : validateCommandResultPayload payload = None →
  (2 ≤ llen (proposal payload) ≤ maxCommandResultProposalBytes)%N ∧
  (2 ≤ llen (outcome payload) ≤ maxCommandResultOutcomeBytes)%N ∧
  (2 ≤ llen (mutations payload) ≤ maxCommandResultMutationsBytes)%N.
Proof.
  unfold validateCommandResultPayload. intros Hv. chain_inv Hv. bools.
  destruct Hc as [[Hp Ho] Hm]. destruct (Chain.DecodeMutations _) as [|ms]; [done|].
  destruct (Chain.EncodeMutations ms) as [|e] eqn:He; [done|]. chain_inv Hv. bools. subst e.
  pose proof (mutations_size _ _ He). pose proof (object_size _ Hc0). pose proof (object_size _ Hc1). lia.
Qed.

Lemma frame_length payload : llen (payloadFrame payload) =
  (commandResultPayloadHeaderBytes + llen (proposal payload) + llen (outcome payload) +
   llen (mutations payload))%N.
Proof.
  unfold payloadFrame. rewrite !llen_app. change (llen commandResultPayloadMagic) with 4%N.
  assert (Hw : ∀ n, llen (uint32Bytes n) = 4%N) by done. rewrite !Hw.
  unfold commandResultPayloadHeaderBytes. lia.
Qed.

(** Discharges the next guard of the decoder. *)
Ltac pass_guard :=
  match goal with
  | |- context [if ?c then inl _ else _] =>
      replace c with false
        by (symmetry; rewrite ?orb_false_iff, ?negb_false_iff, ?N.ltb_ge, ?N.eqb_eq;
            unfold commandResultPayloadCodecVersion, maxCommandResultPayloadBytes,
              maxCommandResultProposalBytes, maxCommandResultOutcomeBytes, maxCommandResultMutationsBytes, llen in *; simpl negb;
            repeat split; lia)
  end.

Lemma encoded_payload_decodes payload stored :
  encodeCommandResultPayload payload = inr stored →
  decodeCommandResultPayload stored = inr payload.
Proof.
  unfold encodeCommandResultPayload. intros He. sum_inv He. injection He as <-.
  destruct (payload_sizes _ Hc) as (Hp & Ho & Hm). bools. destruct Hc1 as [Hc1 Hc2].
  unfold maxCommandResultProposalBytes, maxCommandResultOutcomeBytes, maxCommandResultMutationsBytes in *.
  unfold decodeCommandResultPayload. cbn [codecVersion uncompressedSize checksum compressed].
  pose proof (frame_length payload) as Hlen. unfold commandResultPayloadHeaderBytes in *.
  pass_guard. pass_guard. rewrite flate_written. pass_guard. change (llen (@nil N)) with 0%N. pass_guard.
  rewrite bool_decide_true by done. cbn [negb].
  assert (Hmagic : slice 0 4 (payloadFrame payload) = commandResultPayloadMagic) by done.
  assert (Hversion : slice 4 8 (payloadFrame payload) = uint32Bytes 1) by done.
  assert (Hps : slice 8 12 (payloadFrame payload) = uint32Bytes (llen (proposal payload))) by done.
  assert (Hos : slice 12 16 (payloadFrame payload) = uint32Bytes (llen (outcome payload))) by done.
  assert (Hms : slice 16 20 (payloadFrame payload) = uint32Bytes (llen (mutations payload))) by done.
  rewrite Hmagic, Hversion, Hps, Hos, Hms, !uint32_bytes by (try done; change (2 ^ 32)%N with 4294967296%N; lia).
  rewrite bool_decide_true by done. pass_guard. pass_guard.
  set (header := commandResultPayloadMagic ++ uint32Bytes 1 ++ uint32Bytes (llen (proposal payload)) ++
                 uint32Bytes (llen (outcome payload)) ++ uint32Bytes (llen (mutations payload))).
  assert (Hh : llen header = 20%N) by done.
  assert (Hf : payloadFrame payload =
               header ++ proposal payload ++ outcome payload ++ mutations payload).
  { unfold payloadFrame, header. by rewrite <-!(assoc_L (++)). }
  assert (Hp' : slice 20 (20 + llen (proposal payload)) (payloadFrame payload) = proposal payload).
  { rewrite Hf. by apply slice_middle. }
  assert (Ho' : slice (20 + llen (proposal payload)) (20 + llen (proposal payload) + llen (outcome payload))
                  (payloadFrame payload) = outcome payload).
  { rewrite Hf, (assoc_L (++) header). apply slice_middle; [|done]. by rewrite llen_app, Hh. }
  assert (Hm' : slice (20 + llen (proposal payload) + llen (outcome payload))
                  (20 + llen (proposal payload) + llen (outcome payload) + llen (mutations payload))
                  (payloadFrame payload) = mutations payload).
  { rewrite Hf, (assoc_L (++) header), (assoc_L (++) (header ++ _)).
    pose proof (slice_middle ((header ++ proposal payload) ++ outcome payload) (mutations payload) []) as Hs.
    rewrite app_nil_r in Hs. apply Hs; [|done]. by rewrite !llen_app, Hh. }
  rewrite Hp', Ho', Hm'. destruct payload as [p o m]. cbn [proposal outcome mutations]. by rewrite Hc.
Qed.

End Lib.

End PayloadProofs.
