(* ===== verification/StoreResults.v ===== *)
(** * Package internal/store: the tables of a replica and its stored results

    [Module StoreResults]: the tables that every replica of a generation holds
    alike, with the typed columns of their rows; the read of the consensus
    state, of a genesis boundary and of a command result (apply.go,
    startup_commitments.go); the verification of a stored result against its
    predecessors; and the lookups built on it (command_lookup.go,
    raft_commands.go).

    SQLite is outside the repository; a table is a map from its primary key.
    The tables are STRICT, so a column has its declared type, and a NULL is
    [None]. Integer columns hold [int64] values. The tables are those of the
    last migration, where results keep sentinels in their payload columns. *)

From stdpp Require Import base gmap strings list.
From Stdlib Require Import ZArith NArith Lia.
From S2P Require Import Prelude.
From S2P Require Import GoLib.
From S2P Require Import CodecLayer.
From S2P Require Import DomainValues.
From S2P Require Import EventModel.
From S2P Require Import ChainCommitments.
From S2P Require Import ProjectionStore.
From S2P Require Import StoreRecords.
From S2P Require Import CommandPayload.

Module StoreResults.

Import StoreRecords.

(** ** Rows *)

Record ConsensusRow := mkConsensusRow {
  sSessionID : string;
  sRecoveryGeneration : Z;
  sCurrentTerm : option Z;
  sLastApplied : option Z;
  sChainIndex : Z;
  sChainHash : list N;
  sResultIndex : Z;
  sResultHash : list N;
  sAccumulator : list N;
  sDigestVersion : Z;
  sSchemaVersion : Z }.

(** The columns of a predecessor are all NULL or all set. *)
Record GenesisRow := mkGenesisRow {
  gSessionID : string;
  gWorkspaceID : string;
  gGenesisJSON : list N;
  gGenesisDigest : list N;
  gStateDigest : list N;
  gChainIndex : option Z;
  gChainHash : option (list N);
  gResultIndex : option Z;
  gResultHash : option (list N);
  gAccumulator : option (list N) }.

Record EventRow := mkEventRow {
  eSessionID : string;
  eWorkspaceID : string;
  eSchemaVersion : Z;
  eMinApplyLevel : Z;
  eKind : string;
  eEntityID : option string;
  eOriginDeviceID : string;
  eScopeKind : string;
  eScopeID : string;
  eSequence : Z;
  eActorType : string;
  eCreatedAt : string;
  eProposalJSON : list N;
  eProposalDigest : list N;
  eSignature : list N }.

Record ResultRow := mkResultRow {
  rSessionID : string;
  rWorkspaceID : string;
  rRecoveryGeneration : Z;
  rSchemaVersion : Z;
  rKind : string;
  rOriginDeviceID : string;
  rScopeKind : string;
  rScopeID : string;
  rSequence : Z;
  rProposalJSON : list N;
  rProposalDigest : list N;
  rOutcomeStatus : string;
  rOutcomeCode : string;
  rOutcomeJSON : list N;
  rMutationsJSON : list N;
  rChainIndex : option Z;
  rChainHash : option (list N);
  rResultIndex : Z;
  rPreviousResultHash : list N;
  rResultHash : list N }.

Record PayloadRow := mkPayloadRow {
  pCodecVersion : Z;
  pUncompressedSize : Z;
  pChecksum : list N;
  pCompressed : list N }.

Record ApplicationRow := mkApplicationRow {
  aTerm : Z;
  aEventID : string;
  aProposalDigest : list N }.

Record ActivityRow := mkActivityRow {
  vSessionID : string;
  vDeviceID : string;
  vActorType : string;
  vAgentSessionID : option string;
  vEventKind : string;
  vTaskID : option string;
  vRationaleSummary : string;
  vCaptureLevel : Event.CaptureLevel;
  vActionsJSON : list N;
  vRedactionJSON : list N;
  vCreatedAt : string }.

#[global] Instance ApplicationRow_eq_dec : EqDecision ApplicationRow.
Proof. solve_decision. Defined.

(** The tables whose rows the replicated history determines: events, results
    and checkpoints by event, payloads by result index, applications by
    generation and log index, genesis records by generation. *)
Record Tables := mkTables {
  consensus : option ConsensusRow;
  genesisRecords : gmap N GenesisRow;
  projections : ProjectionStore.Database;
  events : gmap string EventRow;
  commandResults : gmap string ResultRow;
  payloads : gmap N PayloadRow;
  applications : gmap (N * N) ApplicationRow;
  activity : gmap string ActivityRow;
  checkpoints : gmap string CheckpointRecord }.

(** ** The consensus state *)

(** A term or an index that is NULL is read as zero. *)
Record consensusState := mkConsensusState {
  sessionID : string;
  recoveryGeneration : N;
  currentTerm : N;
  lastAppliedLogIndex : N;
  chainIndex : N;
  chainHash : Digest;
  resultIndex : N;
  resultHash : Digest;
  projectionAccumulator : Digest;
  digestVersion : N;
  projectionSchemaVersion : N }.

(** [copyDigestColumn]. *)
Definition digestColumn (bytes : list N) : bool := (llen bytes =? 32)%N.

(** A nullable column that is at least 1 when it is set. *)
Definition positiveColumn (column : option Z) : bool :=
  match column with None => true | Some value => negb (value <? 1)%Z end.

Definition nullableUint (column : option Z) : N :=
  match column with None => 0%N | Some value => Z.to_N value end.

Definition consensusRowOk (row : ConsensusRow) : bool :=
  Domain.UUIDv7_Valid (sSessionID row) && negb (sRecoveryGeneration row <? 0)%Z &&
  positiveColumn (sCurrentTerm row) && positiveColumn (sLastApplied row) &&
  negb (sChainIndex row <? 0)%Z && digestColumn (sChainHash row) &&
  negb (sResultIndex row <? 0)%Z && digestColumn (sResultHash row) &&
  digestColumn (sAccumulator row) &&
  negb ((sDigestVersion row <? 1)%Z || (sSchemaVersion row <? 1)%Z).

Definition stateOf (row : ConsensusRow) : consensusState :=
  mkConsensusState (sSessionID row) (Z.to_N (sRecoveryGeneration row))
    (nullableUint (sCurrentTerm row)) (nullableUint (sLastApplied row))
    (Z.to_N (sChainIndex row)) (sChainHash row) (Z.to_N (sResultIndex row)) (sResultHash row)
    (sAccumulator row) (Z.to_N (sDigestVersion row)) (Z.to_N (sSchemaVersion row)).

Definition readConsensusState (tables : Tables) : Error + option consensusState :=
  match consensus tables with
  | None => inr None
  | Some row =>
      let state := stateOf row in
      throw ErrCommandResultCorrupt when (negb (consensusRowOk row)) ;;
      throw ErrCommandResultCorrupt
        when (negb (Domain.ValidUnsignedInteger (recoveryGeneration state)) ||
              negb (Domain.ValidUnsignedInteger (chainIndex state)) ||
              negb (Domain.ValidUnsignedInteger (resultIndex state)) ||
              negb (Domain.ValidUnsignedInteger (digestVersion state)) ||
              negb (Domain.ValidUnsignedInteger (projectionSchemaVersion state)) ||
              (resultIndex state <? chainIndex state)%N) ;;
      inr (Some state)
  end.

Definition headsFromConsensus (state : consensusState) : ApplyHeads :=
  mkApplyHeads (chainIndex state) (chainHash state) (resultIndex state) Chain.zero_digest
    (resultHash state) (projectionAccumulator state) (digestVersion state)
    (projectionSchemaVersion state).

(** ** The boundary of a generation *)

Record storedGenesisBoundary := mkGenesisBoundary {
  genesisJSON : list N;
  genesisDigest : Digest;
  stateDigest : Digest;
  predecessorChainIndex : N;
  predecessorChainHash : Digest;
  predecessorResultIndex : N;
  predecessorResultHash : Digest;
  predecessorAccumulator : Digest;
  hasPredecessor : bool }.

(** The scan of the row. *)
Definition genesisBoundaryOf (row : GenesisRow) : Error + storedGenesisBoundary :=
  throw ErrCommandResultCorrupt
    when (negb (digestColumn (gGenesisDigest row)) || negb (digestColumn (gStateDigest row))) ;;
  match gChainIndex row, gChainHash row, gResultIndex row, gResultHash row, gAccumulator row with
  | None, None, None, None, None =>
      inr (mkGenesisBoundary (gGenesisJSON row) (gGenesisDigest row) (gStateDigest row)
             0 Chain.zero_digest 0 Chain.zero_digest Chain.zero_digest false)
  | Some chain, Some chainHash, Some result, Some resultHash, Some accumulator =>
      throw ErrCommandResultCorrupt
        when ((chain <? 0)%Z || (result <? 0)%Z || (result <? chain)%Z) ;;
      throw ErrCommandResultCorrupt
        when (negb (digestColumn chainHash) || negb (digestColumn resultHash) ||
              negb (digestColumn accumulator)) ;;
      inr (mkGenesisBoundary (gGenesisJSON row) (gGenesisDigest row) (gStateDigest row)
             (Z.to_N chain) chainHash (Z.to_N result) resultHash accumulator true)
  | _, _, _, _, _ => inl ErrCommandResultCorrupt
  end.

Definition readGenesisBoundary (tables : Tables) (generation : N) (session : string)
    : Error + storedGenesisBoundary :=
  match genesisRecords tables !! generation with
  | None => inl ErrCommandResultCorrupt
  | Some row =>
      throw ErrCommandResultCorrupt when (gSessionID row != session) ;;
      let* boundary := genesisBoundaryOf row in
      throw ErrCommandResultCorrupt
        when (negb (Bool.eqb (hasPredecessor boundary) (0 <? generation)%N)) ;;
      inr boundary
  end.

(** ** A stored result *)

Record storedCommandResult := mkStoredResult {
  eventID : string;
  storedSessionID : string;
  storedGeneration : N;
  proposalJSON : list N;
  storedDigest : Digest;
  outcome : CommandOutcome;
  mutationJSON : list N;
  storedChainIndex : option N;
  storedChainHash : option Digest;
  storedResultIndex : N;
  previousResultHash : Digest;
  storedResultHash : Digest;
  compactedPayload : bool }.

Section Lib.
Context `{NormLib, JCSLib, CryptoLib, FlateLib}.

Definition readCompactedCommandResultPayload (tables : Tables) (index : N)
    : Error + option CommandPayload.commandResultPayload :=
  match payloads tables !! index with
  | None => inr None
  | Some row =>
      throw ErrCommandResultCorrupt
        when ((pCodecVersion row <? 1)%Z || (4294967295 <? pCodecVersion row)%Z ||
              (pUncompressedSize row <? 0)%Z ||
              (Z.of_N CommandPayload.maxCommandResultPayloadBytes <? pUncompressedSize row)%Z) ;;
      throw ErrCommandResultCorrupt when (negb (digestColumn (pChecksum row))) ;;
      let* payload := CommandPayload.decodeCommandResultPayload
                        (CommandPayload.mkStoredPayload (Z.to_N (pCodecVersion row))
                           (Z.to_N (pUncompressedSize row)) (pChecksum row) (pCompressed row)) in
      inr (Some payload)
  end.

(** The columns of the row: the scan of [readStoredCommandResult]. *)
Definition resultRowOk (row : ResultRow) : bool :=
  Domain.UUIDv7_Valid (rSessionID row) && negb (rRecoveryGeneration row <? 0)%Z &&
  digestColumn (rProposalDigest row) &&
  match rChainIndex row, rChainHash row with
  | None, None => true
  | Some index, Some hash => negb (index <? 1)%Z && digestColumn hash
  | _, _ => false
  end &&
  negb (rResultIndex row <? 1)%Z && digestColumn (rPreviousResultHash row) &&
  digestColumn (rResultHash row).

Definition inlinePayload (row : ResultRow) : CommandPayload.commandResultPayload :=
  CommandPayload.mkPayload (rProposalJSON row) (rOutcomeJSON row) (rMutationsJSON row).

Definition storedOf (event : string) (row : ResultRow) (payload : CommandPayload.commandResultPayload)
    : storedCommandResult :=
  mkStoredResult event (rSessionID row) (Z.to_N (rRecoveryGeneration row))
    (CommandPayload.proposal payload) (rProposalDigest row)
    (mkCommandOutcome (OutcomeStatus_of (rOutcomeStatus row)) (rOutcomeCode row)
       (CommandPayload.outcome payload))
    (CommandPayload.mutations payload) (Z.to_N <$> rChainIndex row) (rChainHash row)
    (Z.to_N (rResultIndex row)) (rPreviousResultHash row) (rResultHash row) true.

(** A payload still in the columns is refused: the compacted table exists. *)
Definition readStoredCommandResult (tables : Tables) (event : string)
    : Error + option storedCommandResult :=
  match commandResults tables !! event with
  | None => inr None
  | Some row =>
      throw ErrCommandResultCorrupt when (negb (resultRowOk row)) ;;
      let '(compacted, partial) := CommandPayload.commandResultPayloadSentinels (inlinePayload row) in
      throw ErrCommandResultCorrupt when partial ;;
      throw ErrCommandResultCorrupt when (negb compacted) ;;
      let* found := readCompactedCommandResultPayload tables (Z.to_N (rResultIndex row)) in
      match found with
      | None => inl ErrCommandResultCorrupt
      | Some payload => inr (Some (storedOf event row payload))
      end
  end.

(** The result whose row passes a test of a UNIQUE column. *)
Definition storedResultWhere (tables : Tables) (test : ResultRow → bool)
    : Error + storedCommandResult :=
  match filter (λ entry : string * ResultRow, test entry.2 = true)
          (map_to_list (commandResults tables)) with
  | [(event, _)] =>
      let* found := readStoredCommandResult tables event in
      match found with
      | None => inl ErrCommandResultCorrupt
      | Some stored => inr stored
      end
  | _ => inl ErrCommandResultCorrupt
  end.

Definition storedResultAtResultIndex (tables : Tables) (index : N) : Error + storedCommandResult :=
  storedResultWhere tables (λ row, (rResultIndex row =? Z.of_N index)%Z).

Definition storedResultAtChainIndex (tables : Tables) (index : N) : Error + storedCommandResult :=
  storedResultWhere tables (λ row, rChainIndex row == Some (Z.of_N index)).

Definition storedBoundarySeeds (tables : Tables) (stored : storedCommandResult)
    : Error + (storedGenesisBoundary * Chain.Digest * Chain.Digest) :=
  let* genesis := readGenesisBoundary tables (storedGeneration stored) (storedSessionID stored) in
  match Chain.GenesisDigest (genesisJSON genesis) with
  | inl _ => inl ErrCommandResultCorrupt
  | inr digest =>
      throw ErrCommandResultCorrupt when (digest != genesisDigest genesis) ;;
      let boundary := Chain.mkBoundary digest (storedGeneration stored)
                        (predecessorChainIndex genesis) (predecessorResultIndex genesis)
                        (predecessorChainHash genesis) (predecessorResultHash genesis) in
      match Chain.EventSeed boundary, Chain.ResultSeed boundary with
      | inr eventSeed, inr resultSeed => inr (genesis, eventSeed, resultSeed)
      | _, _ => inl ErrCommandResultCorrupt
      end
  end.

Definition accepted (stored : storedCommandResult) : bool :=
  Status (outcome stored) == OutcomeAccepted.

(** The result of the chain that a stored result commits to. *)
Definition resultInput (stored : storedCommandResult) : Chain.Result :=
  Chain.mkResult (storedResultIndex stored) (proposalJSON stored) (OutcomeJSON (outcome stored))
    (storedDigest stored)
    (if accepted stored then storedChainIndex stored else None)
    (if accepted stored then storedChainHash stored else None).

(** The hash that the previous result of the generation, or its seed, has. *)
Definition expectedPreviousResult (tables : Tables) (stored : storedCommandResult)
    (genesis : storedGenesisBoundary) (resultSeed : Chain.Digest) : Error + Chain.Digest :=
  let first := (predecessorResultIndex genesis + 1)%N in
  throw ErrCommandResultCorrupt when (storedResultIndex stored <? first)%N ;;
  if (first <? storedResultIndex stored)%N then
    let* previous := storedResultAtResultIndex tables (storedResultIndex stored - 1) in
    throw ErrCommandResultCorrupt
      when ((storedSessionID previous != storedSessionID stored) ||
            negb (storedGeneration previous =? storedGeneration stored)%N) ;;
    inr (storedResultHash previous)
  else inr resultSeed.

Definition expectedPreviousEvent (tables : Tables) (stored : storedCommandResult) (index : N)
    (genesis : storedGenesisBoundary) (eventSeed : Chain.Digest) : Error + Chain.Digest :=
  let first := (predecessorChainIndex genesis + 1)%N in
  throw ErrCommandResultCorrupt when (index <? first)%N ;;
  if (first <? index)%N then
    let* previous := storedResultAtChainIndex tables (index - 1) in
    throw ErrCommandResultCorrupt
      when ((storedSessionID previous != storedSessionID stored) ||
            negb (storedGeneration previous =? storedGeneration stored)%N) ;;
    match storedChainHash previous with
    | None => inl ErrCommandResultCorrupt
    | Some hash => inr hash
    end
  else inr eventSeed.

(** The event row of an accepted result, whose proposal column holds the
    sentinel when the payload is compacted. *)
Definition eventMatches (tables : Tables) (stored : storedCommandResult) : bool :=
  match events tables !! eventID stored with
  | None => false
  | Some row =>
      (eProposalJSON row ==
         if compactedPayload stored then CommandPayload.commandResultObjectSentinel
         else proposalJSON stored) &&
      (eProposalDigest row == storedDigest stored)
  end.

(** The accepted part of [verifyStoredCommandResult]. *)
Definition verifyStoredEvent (tables : Tables) (stored : storedCommandResult)
    (genesis : storedGenesisBoundary) (eventSeed : Chain.Digest) : Error + unit :=
  match storedChainIndex stored, storedChainHash stored with
  | Some index, Some hash =>
      throw ErrCommandResultCorrupt when (negb (eventMatches tables stored)) ;;
      let* previous := expectedPreviousEvent tables stored index genesis eventSeed in
      match Chain.AppendEvent previous (proposalJSON stored) with
      | inl _ => inl ErrCommandResultCorrupt
      | inr computed => throw ErrCommandResultCorrupt when (computed != hash) ;; inr tt
      end
  | _, _ => inl ErrCommandResultCorrupt
  end.

Definition verifyStoredCommandResult (tables : Tables) (stored : storedCommandResult)
    : Error + unit :=
  throw ErrCommandResultCorrupt
    when (proposalDigestFromBytes (proposalJSON stored) != storedDigest stored) ;;
  throw ErrCommandResultCorrupt
    when (bool_decide (CommandOutcome_validate (outcome stored) ≠ None)) ;;
  throw ErrCommandResultCorrupt
    when (negb (Bool.eqb (accepted stored)
                  (bool_decide (is_Some (storedChainIndex stored)) &&
                   bool_decide (is_Some (storedChainHash stored))))) ;;
  let* (genesis, eventSeed, resultSeed) := storedBoundarySeeds tables stored in
  match Chain.AppendResult (previousResultHash stored) (resultInput stored) with
  | inl _ => inl ErrCommandResultCorrupt
  | inr (computed, _) =>
      throw ErrCommandResultCorrupt when (computed != storedResultHash stored) ;;
      let* expected := expectedPreviousResult tables stored genesis resultSeed in
      throw ErrCommandResultCorrupt when (previousResultHash stored != expected) ;;
      if accepted stored then verifyStoredEvent tables stored genesis eventSeed else inr tt
  end.

(** ** command_lookup.go *)

Record CommandResultTuple := mkTuple {
  TResultIndex : N;
  TPreviousResultHash : Digest;
  TResultHash : Digest;
  TChainIndex : option N;
  TChainHash : option Digest }.

Record CommandResultLookup := mkLookup {
  LEventID : string;
  LSessionID : string;
  LRecoveryGeneration : N;
  CanonicalProposal : list N;
  LProposalDigest : Digest;
  LOutcome : CommandOutcome;
  Tuple : CommandResultTuple;
  CurrentHeads : ApplyHeads }.

Definition validateLookupHeads (state : consensusState) (stored : storedCommandResult)
    (heads : ApplyHeads) : option Error :=
  refuse ErrCommandResultCorrupt
    when (negb (Domain.UUIDv7_Valid (sessionID state)) ||
          negb (Domain.ValidUnsignedInteger (recoveryGeneration state)) ||
          (resultIndex state <? chainIndex state)%N ||
          (resultIndex state <? storedResultIndex stored)%N) ;;
  refuse ErrCommandResultCorrupt
    when (match storedChainIndex stored with
          | Some index => (chainIndex state <? index)%N
          | None => false
          end) ;;
  refuse ErrCommandResultCorrupt when (bool_decide (ApplyHeads_validate heads ≠ None)) ;;
  None.

Definition cloneCommandResultLookup (stored : storedCommandResult) (currentHeads : ApplyHeads)
    : CommandResultLookup :=
  mkLookup (eventID stored) (storedSessionID stored) (storedGeneration stored) (proposalJSON stored)
    (storedDigest stored) (outcome stored)
    (mkTuple (storedResultIndex stored) (previousResultHash stored) (storedResultHash stored)
       (storedChainIndex stored) (storedChainHash stored))
    currentHeads.

(** A context that is not done is assumed. *)
Definition LookupCommandResult (tables : Tables) (event : string)
    : Error + option CommandResultLookup :=
  throw ErrInvalidOptions when (negb (Domain.UUIDv7_Valid event)) ;;
  let* found := readStoredCommandResult tables event in
  match found with
  | None => inr None
  | Some stored =>
      let* _ := verifyStoredCommandResult tables stored in
      let* state := readConsensusState tables in
      match state with
      | None => inl ErrCommandResultCorrupt
      | Some state =>
          let heads := headsFromConsensus state in
          ensure validateLookupHeads state stored heads ;;
          inr (Some (cloneCommandResultLookup stored heads))
      end
  end.

(** ** raft_commands.go *)

(** The row of the join, when there is one, and whether it matches. *)
Definition applicationMatches (tables : Tables) (generation term logIndex : N) (event : string)
    (digest : Digest) : bool :=
  match applications tables !! (generation, logIndex) with
  | None => false
  | Some application =>
      match commandResults tables !! aEventID application with
      | None => false
      | Some result =>
          (aTerm application =? Z.of_N term)%Z && (aEventID application == event) &&
          (aProposalDigest application == digest) && (rProposalDigest result == digest)
      end
  end.

Definition VerifyRaftCommand (tables : Tables) (term logIndex : N) (signed : Event.SignedEvent)
    : Error + unit :=
  let event := Event.EventID (Event.proposal signed) in
  throw ErrInvalidOptions
    when ((term <? 1)%N || (logIndex <? 1)%N || negb (Domain.UUIDv7_Valid event) ||
          (llen (Event.canonical signed) =? 0)%N) ;;
  let* state := readConsensusState tables in
  match state with
  | None => inl ErrRaftCommandBinding
  | Some state =>
      throw ErrStatement when ((maxInt64 <? term)%N || (maxInt64 <? logIndex)%N) ;;
      throw ErrRaftCommandBinding
        when (negb (applicationMatches tables (recoveryGeneration state) term logIndex event
                      (proposalDigest signed))) ;;
      let* found := readStoredCommandResult tables event in
      match found with
      | None => inl ErrRaftCommandBinding
      | Some stored =>
          throw ErrRaftCommandBinding
            when ((storedDigest stored != proposalDigest signed) ||
                  (proposalJSON stored != Event.canonical signed)) ;;
          inr tt
      end
  end.

End Lib.

End StoreResults.
