(* ===== verification/StoreApply.v ===== *)
(** * Package internal/store: applying one command

    [Module StoreApply]: [Store.Apply] with every step of its transaction in
    order (apply.go), and the check of a control-file proposal against its
    signed payload (control_manifest.go).

    A transaction is a function on [Store] that returns the store it leaves; a
    failed one returns an error and no store, as the rollback does. The tables
    that are this device's alone, other than provenance, audit and deadlines,
    are behind the class [DeviceTables]. *)

From stdpp Require Import base gmap strings list.
From Stdlib Require Import ZArith NArith Lia.
From S2P Require Import Prelude.
From S2P Require Import GoLib.
From S2P Require Import CodecLayer.
From S2P Require Import DomainValues.
From S2P Require Import EventModel.
From S2P Require Import GoMarshal.
From S2P Require Import ChainCommitments.
From S2P Require Import ProjectionRows.
From S2P Require Import ProjectionStore.
From S2P Require Import StoreRecords.
From S2P Require Import CommandPayload.
From S2P Require Import StoreResults.

(** The outbox, the approvals, the cadence baseline, the agent launches and the
    replication mode of one device, and what a command does to them: each may
    refuse, and none of them writes a replicated table. *)
Class DeviceTables := {
  DeviceState : Type;
  ensureRaftEvidenceMode : StoreResults.Tables → DeviceState → option StoreRecords.Error;
  ensurePendingControlFileApprovals :
    StoreResults.Tables → DeviceState → string → list Projections.ControlFileProposalRow →
    StoreRecords.Error + DeviceState;
  writeCheckpointCadenceBoundary :
    DeviceState → string → string → N → StoreRecords.ApplyHeads → StoreRecords.Error + DeviceState;
  writeCheckpointCadenceCheckpoint :
    DeviceState → StoreRecords.ApplyRequest → StoreRecords.ApplyHeads →
    StoreRecords.Error + DeviceState;
  clearAgentSession : DeviceState → string → StoreRecords.Error + DeviceState;
  compactLocalProposal :
    StoreResults.Tables → DeviceState → N → Event.SignedEvent → list N → StoreRecords.Digest →
    StoreRecords.OutcomeStatus → string → StoreRecords.Error + DeviceState
}.

Module StoreApply.

Import StoreRecords StoreResults.

Record ProvenanceRow := mkProvenanceRow {
  oTerm : Z;
  oLogIndex : Z;
  oAppliedAt : string;
  oChainIndex : Z;
  oChainHash : list N }.

(** The nullable columns of an audit row. *)
Record AuditRow := mkAuditRow {
  uRecord : AuditRecord;
  uEventID : option string;
  uResultIndex : option Z;
  uReporterDeviceID : option string;
  uSubjectDeviceID : option string;
  uSubjectCredentialEpoch : option Z;
  uActorType : option string;
  uIPCChannel : option string;
  uObservationCount : Z }.

(** The generation-zero projections that [Initialize] retains. *)
Record InitialBoundaryRow := mkInitialBoundaryRow {
  iDigestVersion : Z;
  iProjectionSchemaVersion : Z;
  iProjectionStateDigest : list N;
  iRowCount : Z }.

(** The rows by the index of their table and their primary key. *)
Record InitialTables := mkInitialTables {
  initialProjectionBoundary : option InitialBoundaryRow;
  initialProjectionRows : gmap (N * list N) Chain.LogicalRow }.

Section Store.
Context `{DeviceTables}.

Record Store := mkStore {
  tables : Tables;
  provenance : gmap string ProvenanceRow;
  auditEvents : list AuditRow;
  leaseDeadlines : gmap (string * N) LeaseDeadlineRecord;
  deviceState : DeviceState;
  initialTables : InitialTables;
  admissionRevision : N }.

Definition set_tables (f : Tables → Tables) (store : Store) : Store :=
  mkStore (f (tables store)) (provenance store) (auditEvents store) (leaseDeadlines store)
    (deviceState store) (initialTables store) (admissionRevision store).
Definition set_device (device : DeviceState) (store : Store) : Store :=
  mkStore (tables store) (provenance store) (auditEvents store) (leaseDeadlines store)
    device (initialTables store) (admissionRevision store).
End Store.

(** A row that a statement writes. *)
Inductive Statement :=
  | WriteEvent (event : string) (row : EventRow)
  | WriteProvenance (event : string) (row : ProvenanceRow)
  | WriteResult (event : string) (row : ResultRow)
  | WritePayload (index : N) (row : PayloadRow)
  | WriteApplication (generation logIndex : N) (row : ApplicationRow)
  | WriteActivity (event : string) (row : ActivityRow)
  | WriteAudit (row : AuditRow)
  | WriteCheckpoint (record : CheckpointRecord)
  | WriteLeaseDeadline (record : LeaseDeadlineRecord)
  | WriteConsensus (row : ConsensusRow)
  | WriteGenesis (generation : N) (row : GenesisRow)
  | WriteInitialRow (tableIndex : N) (row : Chain.LogicalRow)
  | WriteInitialBoundary (row : InitialBoundaryRow).

(** The CHECK and FOREIGN KEY clauses of [migrations/*.sql] on a row to be
    written; the keys that must be unique are below, with each statement. *)
Class StoreSchema := { admits : Tables → Statement → bool }.

Inductive applyStage :=
  | applyAfterEvent | applyAfterProvenance | applyAfterProjections | applyAfterResult
  | applyAfterActivity | applyAfterAudit | applyAfterCheckpoint | applyAfterLeaseDeadlines
  | applyAfterOutbox | applyAfterConsensus.

Record ApplyResult := mkApplyResult {
  Heads : ApplyHeads;
  ResultOutcome : CommandOutcome;
  AdmissionRevision : N;
  Duplicate : bool }.

(** ** Position checks *)

Definition validateApplyPosition (prior : consensusState) (request : ApplyRequest) : option Error :=
  let proposal := Event.proposal (Proposal request) in
  refuse ErrApplyConflict
    when ((sessionID prior != Event.SessionID proposal) ||
          negb (recoveryGeneration prior =? RecoveryGeneration request)%N) ;;
  refuse ErrApplyConflict
    when ((LogIndex request <=? lastAppliedLogIndex prior)%N ||
          (Term request <? currentTerm prior)%N) ;;
  None.

Definition validateDuplicateApplyPosition (prior : consensusState) (request : ApplyRequest)
    : option Error :=
  refuse ErrApplyConflict
    when ((recoveryGeneration prior <? RecoveryGeneration request)%N ||
          (LogIndex request <? lastAppliedLogIndex prior)%N ||
          (Term request <? currentTerm prior)%N ||
          (LogIndex request =? lastAppliedLogIndex prior)%N &&
          negb (Term request =? currentTerm prior)%N) ;;
  None.

Definition validateCheckpointCut (prior : consensusState) (request : ApplyRequest) : option Error :=
  match Checkpoint request with
  | None => None
  | Some checkpoint =>
      refuse ErrApplyConflict
        when (negb (CTerm checkpoint =? Term request)%N ||
              negb (CoveredAppliedLogIndex checkpoint =? LogIndex request - 1)%N ||
              negb (CoveredChainIndex checkpoint =? chainIndex prior)%N ||
              (CoveredChainHash checkpoint != chainHash prior) ||
              negb (CoveredResultIndex checkpoint =? resultIndex prior)%N ||
              (CoveredResultHash checkpoint != resultHash prior) ||
              (CProjectionAccumulator checkpoint != projectionAccumulator prior) ||
              negb (CDigestVersion checkpoint =? digestVersion prior)%N ||
              negb (CProjectionSchemaVersion checkpoint =? projectionSchemaVersion prior)%N) ;;
      None
  end.

(** ** Binding *)

(** sqlite.go: an unsigned integer above SQLite's range is refused. *)
Definition bindUint (value : N) : Error + Z :=
  throw ErrStatement when (maxInt64 <? value)%N ;; inr (Z.of_N value).

Definition bindNullableUint (value : option N) : Error + option Z :=
  match value with
  | None => inr None
  | Some value => let* bound := bindUint value in inr (Some bound)
  end.

(** [nullableDomainString], [nullablePlainString]. *)
Definition nullableString (value : string) : option string :=
  if value == EmptyString then None else Some value.

Section Lib.
Context `{NormLib, JCSLib, CryptoLib, FlateLib}.

(** ** Commitments *)

Definition acceptedRequest (request : ApplyRequest) : bool :=
  Status (Outcome request) == OutcomeAccepted.

(** The heads after the event chain. *)
Definition appendedEvent (prior : consensusState) (request : ApplyRequest) : Error + ApplyHeads :=
  let heads chainIndex chainHash :=
    mkApplyHeads chainIndex chainHash (u64_succ (resultIndex prior)) (resultHash prior)
      (resultHash prior) (projectionAccumulator prior) (digestVersion prior)
      (projectionSchemaVersion prior) in
  if acceptedRequest request then
    match Chain.AppendEvent (chainHash prior) (Event.canonical (Proposal request)) with
    | inl _ => inl ErrInvalidApply
    | inr eventHash => inr (heads (u64_succ (chainIndex prior)) eventHash)
    end
  else inr (heads (chainIndex prior) (chainHash prior)).

(** The result that heads commit to. *)
Definition requestResult (request : ApplyRequest) (heads : ApplyHeads) : Chain.Result :=
  Chain.mkResult (ResultIndex heads) (Event.canonical (Proposal request))
    (OutcomeJSON (Outcome request)) (proposalDigest (Proposal request))
    (if acceptedRequest request then Some (ChainIndex heads) else None)
    (if acceptedRequest request then Some (ChainHash heads) else None).

Definition computeApplyCommitments (prior : consensusState) (request : ApplyRequest)
    (mutations : list Chain.Mutation) : Error + (ApplyHeads * list N * list N) :=
  let* heads := appendedEvent prior request in
  match Chain.AppendResult (resultHash prior) (requestResult request heads) with
  | inl _ => inl ErrInvalidApply
  | inr (resultHash, resultJSON) =>
      match Chain.AppendAccumulator (projectionAccumulator prior) (ResultIndex heads) resultHash
              mutations with
      | inl _ => inl ErrInvalidApply
      | inr (accumulator, mutationJSON) =>
          inr (mkApplyHeads (ChainIndex heads) (ChainHash heads) (ResultIndex heads)
                 (PreviousResultHash heads) resultHash accumulator (DigestVersion heads)
                 (ProjectionSchemaVersion heads), resultJSON, mutationJSON)
      end
  end.

(** ** control_manifest.go *)

Definition controlFileProposalPayload (row : Projections.ControlFileProposalRow)
    : Codec.Error + list N :=
  Codec.CanonicalizeSignedObject (Marshal.marshal (JObject
    [("path", JString (Projections.Path row));
     ("operation", JString (Projections.ControlFileOperation_text (Projections.COperation row)));
     ("content_digest", Chain.optional_json (λ d, JString (Codec.EncodeBase64URL d))
                          (Projections.ContentDigest row));
     ("content_size", Marshal.uint (Projections.ContentSize row));
     ("diff", JString (Projections.Diff row))])).

Definition validateAppliedControlFileProjections (request : ApplyRequest) (heads : ApplyHeads)
    (rows : list Projections.ControlFileProposalRow) : option Error :=
  let proposal := Event.proposal (Proposal request) in
  if acceptedRequest request && (Event.PKind proposal == Event.KindControlFileChangeProposed) then
    match rows with
    | [row] =>
        refuse ErrInvalidApply
          when (negb (Event.present (Event.PEntityID proposal)) ||
                (Projections.ProposalEventID row != Event.EventID proposal) ||
                (Projections.CSessionID row != Event.SessionID proposal) ||
                (Projections.Path row != Event.value (Event.PEntityID proposal)) ||
                (Projections.ProposedByDeviceID row != Event.deviceID (Event.POrigin proposal)) ||
                negb (Projections.ChainIndex row =? ChainIndex heads)%N) ;;
        refuse ErrInvalidApply
          when (match controlFileProposalPayload row with
                | inl _ => true
                | inr payload => payload != Event.Payload proposal
                end) ;;
        None
    | _ => Some ErrInvalidApply
    end
  else match rows with [] => None | _ => Some ErrInvalidApply end.

(** ** Statements *)

Context `{DeviceTables, StoreSchema}.

Definition writeAcceptedEvent (store : Store) (request : ApplyRequest) : Error + Store :=
  let signed := Proposal request in
  let proposal := Event.proposal signed in
  let origin := Event.POrigin proposal in
  let '(scopeKind, scopeID) := proposalScope proposal in
  let* schemaVersion := bindUint (Event.PSchemaVersion proposal) in
  let* minApplyLevel := bindUint (Event.MinApplyLevel proposal) in
  let* sequence := bindUint (Event.sequence origin) in
  let row := mkEventRow (Event.SessionID proposal) (Event.WorkspaceID proposal) schemaVersion
    minApplyLevel (Event.Kind_text (Event.PKind proposal))
    (if Event.present (Event.PEntityID proposal) then Some (Event.value (Event.PEntityID proposal))
     else None)
    (Event.deviceID origin) scopeKind scopeID sequence
    (Event.ActorType_text (Event.actorType origin)) (Event.CreatedAt proposal)
    CommandPayload.commandResultObjectSentinel (proposalDigest signed) (Event.signature signed) in
  let event := Event.EventID proposal in
  throw ErrStatement
    when (negb (admits (tables store) (WriteEvent event row)) ||
          bool_decide (is_Some (events (tables store) !! event))) ;;
  inr (set_tables (λ t, mkTables (consensus t) (genesisRecords t) (projections t)
         (<[event := row]> (events t)) (commandResults t) (payloads t) (applications t)
         (activity t) (checkpoints t)) store).

(** The log index and the chain index of a provenance row are unique. *)
Definition writeEventProvenance (store : Store) (request : ApplyRequest) (heads : ApplyHeads)
    : Error + Store :=
  let event := Event.EventID (Event.proposal (Proposal request)) in
  let* term := bindUint (Term request) in
  let* logIndex := bindUint (LogIndex request) in
  let* chainIndex := bindUint (ChainIndex heads) in
  let row := mkProvenanceRow term logIndex (AppliedAt request) chainIndex (ChainHash heads) in
  throw ErrStatement
    when (negb (admits (tables store) (WriteProvenance event row)) ||
          bool_decide (is_Some (provenance store !! event)) ||
          existsb (λ entry, (oLogIndex entry.2 =? logIndex)%Z || (oChainIndex entry.2 =? chainIndex)%Z)
            (map_to_list (provenance store))) ;;
  inr (mkStore (tables store) (<[event := row]> (provenance store)) (auditEvents store)
         (leaseDeadlines store) (deviceState store) (initialTables store) (admissionRevision store)).

Definition writeCommandResultPayload (store : Store) (index : N)
    (payload : CommandPayload.commandResultPayload) : Error + Store :=
  let* encoded := CommandPayload.encodeCommandResultPayload payload in
  let* _ := bindUint index in
  let row := mkPayloadRow (Z.of_N (CommandPayload.codecVersion encoded))
    (Z.of_N (CommandPayload.uncompressedSize encoded)) (CommandPayload.checksum encoded)
    (CommandPayload.compressed encoded) in
  throw ErrStatement
    when (negb (admits (tables store) (WritePayload index row)) ||
          bool_decide (is_Some (payloads (tables store) !! index))) ;;
  inr (set_tables (λ t, mkTables (consensus t) (genesisRecords t) (projections t) (events t)
         (commandResults t) (<[index := row]> (payloads t)) (applications t) (activity t)
         (checkpoints t)) store).

(** Event, result index, result hash and chain index of a result are unique. *)
Definition resultTaken (tables : Tables) (event : string) (row : ResultRow) : bool :=
  bool_decide (is_Some (commandResults tables !! event)) ||
  existsb (λ entry : string * ResultRow,
             (rResultIndex entry.2 =? rResultIndex row)%Z ||
             (rResultHash entry.2 == rResultHash row) ||
             bool_decide (is_Some (rChainIndex row)) && (rChainIndex entry.2 == rChainIndex row))
    (map_to_list (commandResults tables)).

Definition resultRow (request : ApplyRequest) (heads : ApplyHeads) : Error + ResultRow :=
  let signed := Proposal request in
  let proposal := Event.proposal signed in
  let '(scopeKind, scopeID) := proposalScope proposal in
  let* generation := bindUint (RecoveryGeneration request) in
  let* schemaVersion := bindUint (Event.PSchemaVersion proposal) in
  let* sequence := bindUint (Event.sequence (Event.POrigin proposal)) in
  let* chainIndex := bindNullableUint
                       (if acceptedRequest request then Some (ChainIndex heads) else None) in
  let* resultIndex := bindUint (ResultIndex heads) in
  inr (mkResultRow (Event.SessionID proposal) (Event.WorkspaceID proposal) generation schemaVersion
         (Event.Kind_text (Event.PKind proposal)) (Event.deviceID (Event.POrigin proposal))
         scopeKind scopeID sequence CommandPayload.commandResultObjectSentinel
         (proposalDigest signed) (OutcomeStatus_text (Status (Outcome request)))
         (Code (Outcome request)) CommandPayload.commandResultObjectSentinel
         CommandPayload.commandResultMutationsSentinel chainIndex
         (if acceptedRequest request then Some (ChainHash heads) else None)
         resultIndex (PreviousResultHash heads) (ResultHash heads)).

Definition writeCommandResult (store : Store) (request : ApplyRequest) (heads : ApplyHeads)
    (resultJSON mutationJSON : list N) : Error + Store :=
  let event := Event.EventID (Event.proposal (Proposal request)) in
  throw ErrIntegrityCheck
    when (match Chain.EncodeResult (requestResult request heads) with
          | inl _ => true
          | inr expectedResult => expectedResult != resultJSON
          end) ;;
  let* row := resultRow request heads in
  throw ErrStatement
    when (negb (admits (tables store) (WriteResult event row)) ||
          resultTaken (tables store) event row) ;;
  writeCommandResultPayload
    (set_tables (λ t, mkTables (consensus t) (genesisRecords t) (projections t) (events t)
       (<[event := row]> (commandResults t)) (payloads t) (applications t) (activity t)
       (checkpoints t)) store)
    (ResultIndex heads)
    (CommandPayload.mkPayload (Event.canonical (Proposal request)) (OutcomeJSON (Outcome request))
       mutationJSON).

(** ON CONFLICT DO NOTHING, then the comparison with the row that is there. *)
Definition writeRaftCommandApplication (store : Store) (request : ApplyRequest) : Error + Store :=
  let key := (RecoveryGeneration request, LogIndex request) in
  let* _ := bindUint (RecoveryGeneration request) in
  let* _ := bindUint (LogIndex request) in
  let* term := bindUint (Term request) in
  let row := mkApplicationRow term (Event.EventID (Event.proposal (Proposal request)))
               (proposalDigest (Proposal request)) in
  match applications (tables store) !! key with
  | Some present => throw ErrApplyConflict when (present != row) ;; inr store
  | None =>
      throw ErrStatement
        when (negb (admits (tables store) (WriteApplication key.1 key.2 row))) ;;
      inr (set_tables (λ t, mkTables (consensus t) (genesisRecords t) (projections t) (events t)
             (commandResults t) (payloads t) (<[key := row]> (applications t)) (activity t)
             (checkpoints t)) store)
  end.

Definition writeActivity (store : Store) (request : ApplyRequest) : Error + Store :=
  let signed := Proposal request in
  let proposal := Event.proposal signed in
  let origin := Event.POrigin proposal in
  let event := Event.EventID proposal in
  match rawMembers (Event.canonical signed) with
  | None => inl ErrStatement
  | Some members =>
      let row := mkActivityRow (Event.SessionID proposal) (Event.deviceID origin)
        (Event.ActorType_text (Event.actorType origin))
        (if Event.actorType origin == Event.ActorAgent then Some (Event.agentSessionID origin)
         else None)
        (Event.Kind_text (Event.PKind proposal)) (nullableString (ActivityTaskID request))
        (Event.RationaleSummary proposal) (Event.PCaptureLevel proposal)
        (default [] (members !! "actions")) (default [] (members !! "redaction"))
        (Event.CreatedAt proposal) in
      throw ErrStatement
        when (negb (admits (tables store) (WriteActivity event row)) ||
              bool_decide (is_Some (activity (tables store) !! event))) ;;
      inr (set_tables (λ t, mkTables (consensus t) (genesisRecords t) (projections t) (events t)
             (commandResults t) (payloads t) (applications t) (<[event := row]> (activity t))
             (checkpoints t)) store)
  end.

Definition auditRow (record : AuditRecord) : Error + AuditRow :=
  let* resultIndex := bindNullableUint
    (if (AResultIndex record =? 0)%N then None else Some (AResultIndex record)) in
  let* epoch := bindNullableUint (SubjectCredentialEpoch record) in
  let* count := bindUint (ObservationCount record) in
  inr (mkAuditRow record (nullableString (AEventID record)) resultIndex
         (nullableString (ReporterDeviceID record)) (nullableString (SubjectDeviceID record)) epoch
         (nullableString (Event.ActorType_text (ActorType record)))
         (nullableString (IPCChannel record)) count).

Fixpoint writeAudit (store : Store) (records : list AuditRecord) : Error + Store :=
  match records with
  | [] => inr store
  | record :: rest =>
      let* row := auditRow record in
      throw ErrStatement when (negb (admits (tables store) (WriteAudit row))) ;;
      writeAudit (mkStore (tables store) (provenance store) (auditEvents store ++ [row])
                    (leaseDeadlines store) (deviceState store) (initialTables store) (admissionRevision store)) rest
  end.

Definition writeCheckpoint (store : Store) (record : CheckpointRecord) : Error + Store :=
  throw ErrStatement
    when (existsb (λ value, maxInt64 <? value)%N
            [CRecoveryGeneration record; AuthorityVoterSetVersion record; CTerm record;
             CoveredAppliedLogIndex record; CoveredChainIndex record; CoveredResultIndex record;
             CDigestVersion record; CProjectionSchemaVersion record] ||
          negb (admits (tables store) (WriteCheckpoint record)) ||
          bool_decide (is_Some (checkpoints (tables store) !! CheckpointEventID record))) ;;
  inr (set_tables (λ t, mkTables (consensus t) (genesisRecords t) (projections t) (events t)
         (commandResults t) (payloads t) (applications t) (activity t)
         (<[CheckpointEventID record := record]> (checkpoints t))) store).

Fixpoint deleteLeaseDeadlines (deadlines : gmap (string * N) LeaseDeadlineRecord)
    (deletes : list LeaseDeadlineKey) : Error + gmap (string * N) LeaseDeadlineRecord :=
  match deletes with
  | [] => inr deadlines
  | key :: rest =>
      let* _ := bindUint (KEntityVersion key) in
      deleteLeaseDeadlines (delete (KLeaseID key, KEntityVersion key) deadlines) rest
  end.

Fixpoint upsertLeaseDeadlines (tables : Tables)
    (deadlines : gmap (string * N) LeaseDeadlineRecord) (upserts : list LeaseDeadlineRecord)
    : Error + gmap (string * N) LeaseDeadlineRecord :=
  match upserts with
  | [] => inr deadlines
  | record :: rest =>
      let* _ := bindUint (EntityVersion record) in
      throw ErrStatement when (negb (admits tables (WriteLeaseDeadline record))) ;;
      upsertLeaseDeadlines tables (<[(LeaseID record, EntityVersion record) := record]> deadlines)
        rest
  end.

Definition writeLeaseDeadlines (store : Store) (upserts : list LeaseDeadlineRecord)
    (deletes : list LeaseDeadlineKey) : Error + Store :=
  let* remaining := deleteLeaseDeadlines (leaseDeadlines store) deletes in
  let* deadlines := upsertLeaseDeadlines (tables store) remaining upserts in
  inr (mkStore (tables store) (provenance store) (auditEvents store) deadlines (deviceState store)
         (initialTables store) (admissionRevision store)).

Definition putConsensus (store : Store) (row : ConsensusRow) : Error + Store :=
  throw ErrStatement when (negb (admits (tables store) (WriteConsensus row))) ;;
  inr (set_tables (λ t, mkTables (Some row) (genesisRecords t) (projections t) (events t)
         (commandResults t) (payloads t) (applications t) (activity t) (checkpoints t)) store).

Definition writeConsensusState (store : Store) (request : ApplyRequest) (heads : ApplyHeads)
    : Error + Store :=
  let* generation := bindUint (RecoveryGeneration request) in
  let* term := bindUint (Term request) in
  let* logIndex := bindUint (LogIndex request) in
  let* chainIndex := bindUint (ChainIndex heads) in
  let* resultIndex := bindUint (ResultIndex heads) in
  let* digestVersion := bindUint (DigestVersion heads) in
  let* schemaVersion := bindUint (ProjectionSchemaVersion heads) in
  putConsensus store
    (mkConsensusRow (Event.SessionID (Event.proposal (Proposal request))) generation (Some term)
       (Some logIndex) chainIndex (ChainHash heads) resultIndex (ResultHash heads)
       (ProjectionAccumulator heads) digestVersion schemaVersion).

(** An UPDATE of two columns; a missing row is left alone. *)
Definition advanceRaftWatermark (store : Store) (request : ApplyRequest) : Error + Store :=
  let* term := bindUint (Term request) in
  let* logIndex := bindUint (LogIndex request) in
  match consensus (tables store) with
  | None => inr store
  | Some row =>
      putConsensus store
        (mkConsensusRow (sSessionID row) (sRecoveryGeneration row) (Some term) (Some logIndex)
           (sChainIndex row) (sChainHash row) (sResultIndex row) (sResultHash row)
           (sAccumulator row) (sDigestVersion row) (sSchemaVersion row))
  end.

Definition writePostCommandLocalCleanup (store : Store) (request : ApplyRequest) : Error + Store :=
  let signed := Proposal request in
  let proposal := Event.proposal signed in
  let* cleared :=
    if acceptedRequest request && (Event.PKind proposal == Event.KindAgentSessionEnded) then
      throw ErrInvalidApply when (negb (Event.present (Event.PEntityID proposal))) ;;
      clearAgentSession (deviceState store) (Event.value (Event.PEntityID proposal))
    else inr (deviceState store) in
  let* device := compactLocalProposal (tables store) cleared (RecoveryGeneration request) signed
                   (Event.canonical signed) (proposalDigest signed) (Status (Outcome request))
                   (Code (Outcome request)) in
  inr (set_device device store).

(** ** Apply *)

Context `{ProjectionStore.Schema}.
Context (failpoint : applyStage → option Error).

Definition set_projections (db : ProjectionStore.Database) (store : Store) : Store :=
  set_tables (λ t, mkTables (consensus t) (genesisRecords t) db (events t) (commandResults t)
    (payloads t) (applications t) (activity t) (checkpoints t)) store.

Definition projection_result {A} (result : ProjectionStore.Error + A) : Error + A :=
  match result with inl err => inl (ErrProjection err) | inr value => inr value end.

(** A command whose event has a result: the watermark moves, nothing else that
    is replicated does. *)
Definition applyDuplicate (store : Store) (prior : consensusState) (stored : storedCommandResult)
    (request : ApplyRequest) : Error + (ApplyResult * Store) :=
  ensure validateDuplicateApplyPosition prior request ;;
  let* _ := verifyStoredCommandResult (tables store) stored in
  throw ErrIdempotencyConflict
    when ((proposalDigest (Proposal request) != storedDigest stored) ||
          (Event.canonical (Proposal request) != proposalJSON stored)) ;;
  let* device := compactLocalProposal (tables store) (deviceState store) (storedGeneration stored)
                   (Proposal request) (proposalJSON stored) (storedDigest stored)
                   (Status (outcome stored)) (Code (outcome stored)) in
  let application := mkApplyRequest (Term request) (LogIndex request) (AppliedAt request)
    (recoveryGeneration prior) (Proposal request) (Outcome request) (Projections request)
    (RecordActivity request) (ActivityTaskID request) (Audit request) (Checkpoint request)
    (LeaseDeadlines request) (DeleteLeaseDeadlines request) in
  let* applied := writeRaftCommandApplication (set_device device store) application in
  let* advanced := advanceRaftWatermark applied request in
  inr (mkApplyResult (headsFromConsensus prior) (outcome stored) (admissionRevision store) true,
       advanced).

Definition applyAccepted (store : Store) (request : ApplyRequest) (heads : ApplyHeads)
    : Error + Store :=
  let* recorded := if acceptedRequest request then writeAcceptedEvent store request
                   else inr store in
  ensure failpoint applyAfterEvent ;;
  let* proven := if acceptedRequest request then writeEventProvenance recorded request heads
                 else inr recorded in
  ensure failpoint applyAfterProvenance ;;
  inr proven.

(** The writes that follow the projections. *)
Definition applyOutcome (store : Store) (request : ApplyRequest)
    (heads : ApplyHeads) (commandResult mutationJSON : list N) : Error + Store :=
  let* resulted := writeCommandResult store request heads commandResult mutationJSON in
  let* applied := writeRaftCommandApplication resulted request in
  ensure failpoint applyAfterResult ;;
  let* active := if RecordActivity request then writeActivity applied request else inr applied in
  ensure failpoint applyAfterActivity ;;
  let* audited := writeAudit active (Audit request) in
  ensure failpoint applyAfterAudit ;;
  let* checkpointed :=
    match Checkpoint request with
    | None => inr audited
    | Some record =>
        let* written := writeCheckpoint audited record in
        let* device := writeCheckpointCadenceCheckpoint (deviceState written) request heads in
        inr (set_device device written)
    end in
  ensure failpoint applyAfterCheckpoint ;;
  let* leased := writeLeaseDeadlines checkpointed (LeaseDeadlines request)
                   (DeleteLeaseDeadlines request) in
  ensure failpoint applyAfterLeaseDeadlines ;;
  let* cleaned := writePostCommandLocalCleanup leased request in
  ensure failpoint applyAfterOutbox ;;
  let* committed := writeConsensusState cleaned request heads in
  ensure failpoint applyAfterConsensus ;;
  inr committed.

Definition applyNew (store : Store) (prior : consensusState) (request : ApplyRequest)
    : Error + (ApplyResult * Store) :=
  ensure validateApplyPosition prior request ;;
  ensure ApplyRequest_validate request ;;
  let* prepared := projection_result
                     (ProjectionStore.prepareProjectionWrites (Projections request)) in
  throw ErrApplyConflict
    when ((Domain.MaxSafeInteger <=? resultIndex prior)%N ||
          acceptedRequest request && (Domain.MaxSafeInteger <=? chainIndex prior)%N) ;;
  let* (early, _, _) := computeApplyCommitments prior request [] in
  let* proven := applyAccepted store request early in
  let* (mutations, db) := projection_result
                            (ProjectionStore.projectionMutations (projections (tables proven))
                               prepared) in
  let projected := set_projections db proven in
  let* (heads, commandResult, mutationJSON) := computeApplyCommitments prior request mutations in
  ensure validateAppliedControlFileProjections request heads
           (ProjectionStore.controlFileProposalRows prepared) ;;
  let* device := ensurePendingControlFileApprovals (tables projected) (deviceState projected)
                   (sessionID prior) (ProjectionStore.controlFileProposalRows prepared) in
  ensure validateAuditBinding request (Event.proposal (Proposal request)) (ResultIndex heads) ;;
  ensure validateCheckpointCut prior request ;;
  ensure failpoint applyAfterProjections ;;
  let* committed := applyOutcome (set_device device projected) request heads commandResult
                      mutationJSON in
  let revision := u64_succ (admissionRevision store) in
  inr (mkApplyResult heads (Outcome request) revision false,
       mkStore (tables committed) (provenance committed) (auditEvents committed)
         (leaseDeadlines committed) (deviceState committed) (initialTables committed) revision).

Definition Apply (store : Store) (request : ApplyRequest) : Error + (ApplyResult * Store) :=
  ensure validateApplyIdentity request ;;
  let* prior := readConsensusState (tables store) in
  match prior with
  | None => inl ErrApplyConflict
  | Some prior =>
      ensure ensureRaftEvidenceMode (tables store) (deviceState store) ;;
      let* stored := readStoredCommandResult (tables store)
                       (Event.EventID (Event.proposal (Proposal request))) in
      match stored with
      | Some stored => applyDuplicate store prior stored request
      | None => applyNew store prior request
      end
  end.

End Lib.

End StoreApply.
