(* ===== verification/StoreBoundary.v ===== *)
(** * Package internal/store: the boundary of generation zero

    [Module StoreBoundary]: [Store.Initialize] with every step of its
    transaction in order (boundary.go), and the retained copy of the initial
    projections (initial_projection_boundary.go). *)

From stdpp Require Import base gmap strings list.
From Stdlib Require Import ZArith NArith Lia.
From S2P Require Import Prelude.
From S2P Require Import GoLib.
From S2P Require Import GoJson.
From S2P Require Import CodecLayer.
From S2P Require Import DomainValues.
From S2P Require Import ChainCommitments.
From S2P Require Import ProjectionRows.
From S2P Require Import ProjectionStore.
From S2P Require Import ProjectionStream.
From S2P Require Import StoreRecords.
From S2P Require Import CommandPayload.
From S2P Require Import StoreResults.
From S2P Require Import StoreApply.

Module StoreBoundary.

Import StoreRecords StoreResults StoreApply.

Record InitialState := mkInitialState {
  ISessionID : string;
  IWorkspaceID : string;
  GenesisJSON : list N;
  IProjections : Projections.ProjectionWrites;
  IDigestVersion : N;
  IProjectionSchemaVersion : N }.

Section Lib.
Context `{NormLib, JCSLib, CryptoLib, FlateLib, SQLiteJSON}.
Context `{DeviceTables, StoreSchema, !ProjectionStore.Schema}.

Definition requireGenesisString (members : gmap string (list N)) (name want : string)
    : option Error :=
  refuse ErrInvalidApply when ((members !! name ≫= JSON.text_of) != Some want) ;; None.

Definition validateGenesisBinding (genesisJSON : list N) (session workspace : string)
    (generation : N) : option Error :=
  refuse ErrInvalidApply
    when (match Codec.CanonicalizeSignedObject genesisJSON with
          | inl _ => true
          | inr canonical => canonical != genesisJSON
          end) ;;
  match rawMembers genesisJSON with
  | None => Some ErrInvalidApply
  | Some members =>
      check requireGenesisString members "session_id" session ;;
      check requireGenesisString members "workspace_id" workspace ;;
      refuse ErrInvalidApply
        when ((members !! "recovery_generation" ≫= uint_of) != Some generation) ;;
      None
  end.

Definition InitialState_validate (initial : InitialState) : option Error :=
  refuse ErrInvalidApply
    when (negb (Domain.UUIDv7_Valid (ISessionID initial)) ||
          negb (Domain.UUIDv4_Valid (IWorkspaceID initial))) ;;
  refuse ErrInvalidApply
    when ((IDigestVersion initial <? 1)%N || (IProjectionSchemaVersion initial <? 1)%N ||
          negb (Domain.ValidUnsignedInteger (IDigestVersion initial)) ||
          negb (Domain.ValidUnsignedInteger (IProjectionSchemaVersion initial))) ;;
  validateGenesisBinding (GenesisJSON initial) (ISessionID initial) (IWorkspaceID initial) 0.

Definition assertCoveredTablesEmpty (db : ProjectionStore.Database) : option Error :=
  scan_entries
    (λ table : ProjectionStore.projectionTable,
       refuse ErrIntegrityCheck
         when (negb (length (ProjectionStream.rowsOf db table) =? 0)%nat) ;; None)
    ProjectionStore.projectionTables.

(** ** The retained projections *)

Definition initialVersions (initial : InitialState) : Chain.Versions :=
  Chain.mkVersions (IDigestVersion initial) (IProjectionSchemaVersion initial).

(** The position of a covered table. *)
Definition tableIndex (table : string) : option N :=
  N.of_nat ∘ fst <$> list_find (λ covered, covered = table) Chain.CoveredTables.

Definition rowCounts (rows : list Chain.LogicalRow) : list Chain.TableRowCount :=
  (λ table, Chain.mkTableRowCount table
     (llen (filter (λ row, Chain.Table row = table) rows))) <$> Chain.CoveredTables.

Definition initialDigest (rows : list Chain.LogicalRow) (versions : Chain.Versions)
    : option Chain.Digest :=
  match Chain.NewStateDigester versions (rowCounts rows) with
  | inl _ => None
  | inr digester =>
      match Chain.appendAll digester rows with
      | inl _ => None
      | inr digester =>
          match Chain.Sum digester with inl _ => None | inr digest => Some digest end
      end
  end.

(** The primary key and the UNIQUE key of [initial_projection_rows] agree. *)
Fixpoint writeInitialRows (store : Store) (rows : list Chain.LogicalRow) : Error + Store :=
  match rows with
  | [] => inr store
  | row :: rest =>
      match tableIndex (Chain.Table row) with
      | None => inl ErrStatement
      | Some index =>
          let key := (index, Chain.PrimaryKey row) in
          let retained := initialProjectionRows (initialTables store) in
          throw ErrStatement
            when (negb (admits (tables store) (WriteInitialRow index row)) ||
                  bool_decide (is_Some (retained !! key))) ;;
          writeInitialRows
            (mkStore (tables store) (provenance store) (auditEvents store) (leaseDeadlines store)
               (deviceState store)
               (mkInitialTables (initialProjectionBoundary (initialTables store))
                  (<[key := row]> retained))
               (admissionRevision store)) rest
      end
  end.

Definition writeInitialProjectionBoundary (store : Store) (rows : list Chain.LogicalRow)
    (versions : Chain.Versions) (expected : Digest) : Error + Store :=
  throw ErrStatement when (Domain.MaxSafeInteger <? llen rows)%N ;;
  throw ErrStatement
    when (bool_decide (is_Some (initialProjectionBoundary (initialTables store))) ||
          negb (size (initialProjectionRows (initialTables store)) =? 0)%nat) ;;
  throw ErrStatement when (bool_decide (Exists (λ row, tableIndex (Chain.Table row) = None) rows)) ;;
  throw ErrStatement when (initialDigest rows versions != Some expected) ;;
  let* stored := writeInitialRows store rows in
  let* digestVersion := bindUint (Chain.VDigest versions) in
  let* schemaVersion := bindUint (Chain.ProjectionSchema versions) in
  let row := mkInitialBoundaryRow digestVersion schemaVersion expected (Z.of_N (llen rows)) in
  throw ErrStatement when (negb (admits (tables stored) (WriteInitialBoundary row))) ;;
  inr (mkStore (tables stored) (provenance stored) (auditEvents stored) (leaseDeadlines stored)
         (deviceState stored)
         (mkInitialTables (Some row) (initialProjectionRows (initialTables stored)))
         (admissionRevision stored)).

(** ** The boundary *)

Definition writeGenesis (store : Store) (generation : N) (row : GenesisRow) : Error + Store :=
  throw ErrStatement when (negb (admits (tables store) (WriteGenesis generation row))) ;;
  inr (set_tables (λ t, mkTables (consensus t) (<[generation := row]> (genesisRecords t))
         (projections t) (events t) (commandResults t) (payloads t) (applications t) (activity t)
         (checkpoints t)) store).

Definition writeBoundaryConsensusState (store : Store) (initial : InitialState) (heads : ApplyHeads)
    : Error + Store :=
  throw ErrStatement when (negb (ChainIndex heads =? 0)%N || negb (ResultIndex heads =? 0)%N) ;;
  let* digestVersion := bindUint (DigestVersion heads) in
  let* schemaVersion := bindUint (ProjectionSchemaVersion heads) in
  putConsensus store
    (mkConsensusRow (ISessionID initial) 0 None None 0 (ChainHash heads) 0 (ResultHash heads)
       (ProjectionAccumulator heads) digestVersion schemaVersion).

Definition zeroBoundary (genesis : Chain.Digest) : Chain.Boundary :=
  Chain.mkBoundary genesis 0 0 0 Chain.zero_digest Chain.zero_digest.

Definition chain_result {A} (err : Error) (result : Chain.Error + A) : Error + A :=
  match result with inl _ => inl err | inr value => inr value end.

Definition Initialize (store : Store) (initial : InitialState) : Error + (ApplyHeads * Store) :=
  ensure InitialState_validate initial ;;
  let* prepared := projection_result
                     (ProjectionStore.prepareProjectionWrites (IProjections initial)) in
  let* genesis := chain_result ErrInvalidApply (Chain.GenesisDigest (GenesisJSON initial)) in
  let* state := readConsensusState (tables store) in
  throw ErrApplyConflict when (bool_decide (is_Some state)) ;;
  throw ErrIntegrityCheck when (negb (size (genesisRecords (tables store)) =? 0)%nat) ;;
  ensure assertCoveredTablesEmpty (projections (tables store)) ;;
  let* db := projection_result
               (ProjectionStore.writePreparedProjections (projections (tables store)) prepared) in
  let written := set_projections db store in
  let* device := ensurePendingControlFileApprovals (tables written) (deviceState written)
                   (ISessionID initial) (ProjectionStore.controlFileProposalRows prepared) in
  let versions := initialVersions initial in
  let* digest := projection_result (ProjectionStream.projectionStateDigest db versions) in
  let* rows := projection_result (ProjectionStream.projectionLogicalRows db) in
  let* retained := writeInitialProjectionBoundary (set_device device written) rows versions digest in
  let* eventSeed := chain_result ErrStatement (Chain.EventSeed (zeroBoundary genesis)) in
  let* resultSeed := chain_result ErrStatement (Chain.ResultSeed (zeroBoundary genesis)) in
  let heads := mkApplyHeads 0 eventSeed 0 Chain.zero_digest resultSeed
                 (Chain.AccumulatorSeedInitial genesis digest) (IDigestVersion initial)
                 (IProjectionSchemaVersion initial) in
  let* recorded := writeGenesis retained 0
                     (mkGenesisRow (ISessionID initial) (IWorkspaceID initial) (GenesisJSON initial)
                        genesis digest None None None None None) in
  let* bounded := writeBoundaryConsensusState recorded initial heads in
  let* cadence := writeCheckpointCadenceBoundary (deviceState bounded) (ISessionID initial)
                    (IWorkspaceID initial) 0 heads in
  let finished := set_device cadence bounded in
  inr (heads,
       mkStore (tables finished) (provenance finished) (auditEvents finished)
         (leaseDeadlines finished) (deviceState finished) (initialTables finished)
         (u64_succ (admissionRevision finished))).

End Lib.

End StoreBoundary.
