(* ===== verification/StoreSound.v ===== *)
(** * Stored results are found and verified

    [Module StoreProofs]: the state of a store in which every stored result is
    read back and verified, what an applied command changes of it, and that
    applying keeps it. *)

From stdpp Require Import base gmap strings list.
From Stdlib Require Import ZArith NArith Lia.
From S2P Require Import Prelude.
From S2P Require Import GoLib.
From S2P Require Import CodecLayer.
From S2P Require Import DomainValues.
From S2P Require Import EventModel.
From S2P Require Import ChainCommitments.
From S2P Require Import ProjectionStore.
From S2P Require Import StoreRecords.
From S2P Require Import CommandPayload.
From S2P Require Import StoreResults.
From S2P Require Import StoreApply.

Module StoreProofs.

Import StoreRecords StoreResults StoreApply.

(** ** Reads of unique rows *)

Lemma filter_singleton {K A} `{Countable K} (m : gmap K A) (test : A → bool) k a :
  filter (λ entry : K * A, test entry.2 = true) (map_to_list m) = [(k, a)] ↔
  m !! k = Some a ∧ test a = true ∧ (∀ k' a', m !! k' = Some a' → test a' = true → k' = k).
Proof.
  split.
  - intros Hf. assert (Hin : ∀ k' a', m !! k' = Some a' ∧ test a' = true ↔ (k', a') = (k, a)).
    { intros k' a'. rewrite <-(list_elem_of_singleton (k', a') (k, a)), <-Hf, list_elem_of_filter,
        elem_of_map_to_list. cbn. tauto. }
    destruct (proj2 (Hin k a) eq_refl) as [Hk Ha]. split_and!; [done..|].
    intros k' a' Hk' Ha'. by injection (proj1 (Hin k' a') (conj Hk' Ha')).
  - intros (Hk & Ha & Hu). apply Permutation_singleton_r, NoDup_Permutation.
    + apply NoDup_filter, NoDup_map_to_list.
    + apply NoDup_singleton.
    + intros [k' a']. rewrite list_elem_of_filter, elem_of_map_to_list, list_elem_of_singleton. cbn. split.
      * intros [Ha' Hk']. pose proof (Hu _ _ Hk' Ha') as ->. congruence.
      * by intros [= -> ->].
Qed.

(** ** Extension of a table *)

(** More results and events, none of the new results at or below the indexes. *)
Record extends (lastResult lastChain : N) (t t' : Tables) : Prop := {
  same_genesis : genesisRecords t' = genesisRecords t;
  more_results : commandResults t ⊆ commandResults t';
  more_payloads : payloads t ⊆ payloads t';
  more_events : events t ⊆ events t';
  new_results : ∀ e row, commandResults t' !! e = Some row → commandResults t !! e = None →
    (Z.of_N lastResult < rResultIndex row)%Z ∧
    ∀ i, rChainIndex row = Some i → (Z.of_N lastChain < i)%Z }.

Section Lib.
Context `{NormLib, JCSLib, CryptoLib, FlateLib}.

Lemma stored_where_iff t test stored :
  storedResultWhere t test = inr stored ↔
  ∃ e row, commandResults t !! e = Some row ∧ test row = true ∧
    (∀ e' row', commandResults t !! e' = Some row' → test row' = true → e' = e) ∧
    readStoredCommandResult t e = inr (Some stored).
Proof.
  unfold storedResultWhere. split.
  - intros Hs. destruct (filter _ _) as [|[e row] [|]] eqn:Hf; [done| |done].
    apply filter_singleton in Hf as (He & Ht & Hu). apply and_then_inr in Hs as (found & Hr & Hs).
    destruct found as [stored'|]; [|done]. injection Hs as ->. by exists e, row.
  - intros (e & row & He & Ht & Hu & Hr).
    rewrite (proj2 (filter_singleton _ test e row) (conj He (conj Ht Hu))), Hr. done.
Qed.

Lemma read_stored_row t e stored :
  readStoredCommandResult t e = inr (Some stored) →
  ∃ row payload, commandResults t !! e = Some row ∧ resultRowOk row = true ∧
    CommandPayload.commandResultPayloadSentinels (inlinePayload row) = (true, false) ∧
    readCompactedCommandResultPayload t (Z.to_N (rResultIndex row)) = inr (Some payload) ∧
    stored = storedOf e row payload.
Proof.
  unfold readStoredCommandResult. destruct (commandResults t !! e) as [row|]; [|done]. intros Hr.
  apply throw_inr in Hr as [Hok Hr]. destruct (CommandPayload.commandResultPayloadSentinels _) as [c p] eqn:Hs.
  apply throw_inr in Hr as [Hp Hr]. apply throw_inr in Hr as [Hc Hr].
  apply and_then_inr in Hr as (found & Hf & Hr). destruct found as [payload|]; [|done].
  injection Hr as <-. apply negb_false_iff in Hok, Hc. subst. exists row, payload. by split_and!.
Qed.

Lemma read_payload_extends t t' i payload :
  payloads t ⊆ payloads t' →
  readCompactedCommandResultPayload t i = inr (Some payload) →
  readCompactedCommandResultPayload t' i = inr (Some payload).
Proof.
  intros Hsub. unfold readCompactedCommandResultPayload.
  destruct (payloads t !! i) as [row|] eqn:Hi; [|done]. by rewrite (lookup_weaken _ _ _ _ Hi Hsub).
Qed.

Lemma read_stored_extends t t' e stored :
  commandResults t ⊆ commandResults t' → payloads t ⊆ payloads t' →
  readStoredCommandResult t e = inr (Some stored) →
  readStoredCommandResult t' e = inr (Some stored).
Proof.
  intros Hsub Hpay Hr. destruct (read_stored_row _ _ _ Hr) as (row & payload & He & Hok & Hs & Hp & ->).
  unfold readStoredCommandResult. rewrite (lookup_weaken _ _ _ _ He Hsub), Hok, Hs. cbn [negb].
  by rewrite (read_payload_extends _ _ _ _ Hpay Hp).
Qed.

Lemma stored_where_extends t t' test stored :
  commandResults t ⊆ commandResults t' → payloads t ⊆ payloads t' →
  (∀ e row, commandResults t' !! e = Some row → commandResults t !! e = None → test row = false) →
  storedResultWhere t test = inr stored → storedResultWhere t' test = inr stored.
Proof.
  intros Hsub Hpay Hnew (e & row & He & Ht & Hu & Hr)%stored_where_iff. apply stored_where_iff.
  exists e, row. split_and!; [by eapply lookup_weaken|done| |by eapply read_stored_extends].
  intros e' row' He' Ht'. destruct (commandResults t !! e') as [row''|] eqn:Hold.
  - pose proof (lookup_weaken _ _ _ _ Hold Hsub). simplify_eq. by eapply Hu.
  - by rewrite (Hnew _ _ He' Hold) in Ht'.
Qed.

Lemma seeds_extends t t' stored :
  genesisRecords t' = genesisRecords t → storedBoundarySeeds t' stored = storedBoundarySeeds t stored.
Proof. intros Hg. unfold storedBoundarySeeds, readGenesisBoundary. by rewrite Hg. Qed.

Lemma event_matches_extends t t' stored :
  events t ⊆ events t' → eventMatches t stored = true → eventMatches t' stored = true.
Proof.
  intros Hsub. unfold eventMatches. destruct (events t !! eventID stored) as [row|] eqn:He; [|done].
  by rewrite (lookup_weaken _ _ _ _ He Hsub).
Qed.

Lemma previous_result_extends lastResult lastChain t t' stored genesis seed d :
  extends lastResult lastChain t t' → (storedResultIndex stored ≤ lastResult + 1)%N →
  expectedPreviousResult t stored genesis seed = inr d →
  expectedPreviousResult t' stored genesis seed = inr d.
Proof.
  intros [_ Hsub Hpay _ Hnew] Hle. unfold expectedPreviousResult. destruct (_ <? _)%N; [done|].
  destruct (_ <? _)%N; [|done]. intros (previous & Hp & Hd)%and_then_inr. apply and_then_inr.
  exists previous. split; [|done]. eapply stored_where_extends; [done..| |done].
  intros e row He Hn. apply Z.eqb_neq. destruct (Hnew _ _ He Hn) as [Hlt _]. lia.
Qed.

Lemma previous_event_extends lastResult lastChain t t' stored i genesis seed d :
  extends lastResult lastChain t t' → (i ≤ lastChain + 1)%N →
  expectedPreviousEvent t stored i genesis seed = inr d →
  expectedPreviousEvent t' stored i genesis seed = inr d.
Proof.
  intros [_ Hsub Hpay _ Hnew] Hle. unfold expectedPreviousEvent. destruct (_ <? _)%N; [done|].
  destruct (_ <? _)%N; [|done]. intros (previous & Hp & Hd)%and_then_inr. apply and_then_inr.
  exists previous. split; [|done]. eapply stored_where_extends; [done..| |done].
  intros e row He Hn. apply bool_decide_eq_false. intros Heq.
  destruct (Hnew _ _ He Hn) as [_ Hlt]. specialize (Hlt _ Heq). lia.
Qed.

Lemma verify_extends lastResult lastChain t t' stored :
  extends lastResult lastChain t t' → (storedResultIndex stored ≤ lastResult)%N →
  (∀ i, storedChainIndex stored = Some i → (i ≤ lastChain)%N) →
  verifyStoredCommandResult t stored = inr tt → verifyStoredCommandResult t' stored = inr tt.
Proof.
  intros Hext Hle Hchain. unfold verifyStoredCommandResult. intros Hv. sum_inv Hv.
  destruct x as [[genesis eventSeed] resultSeed]. rewrite Hc, Hc0, Hc1.
  rewrite (seeds_extends t t') by apply Hext. rewrite Hx. cbn [and_then].
  destruct (Chain.AppendResult _ _) as [|[computed encoded]]; [done|]. sum_inv Hv.
  rewrite Hc2, (previous_result_extends _ _ _ _ _ _ _ _ Hext (N.le_trans _ _ _ Hle (N.le_add_r _ 1)) Hx0). cbn [and_then]. rewrite Hc3.
  destruct (accepted stored); [|done]. revert Hv. unfold verifyStoredEvent.
  destruct (storedChainIndex stored) as [i|] eqn:Hi; [|done].
  destruct (storedChainHash stored) as [hash|]; [|done]. intros Hv. sum_inv Hv.
  apply negb_false_iff in Hc4. rewrite (event_matches_extends t t') by (done || apply Hext). cbn [negb].
  assert (Hle' : (i ≤ lastChain + 1)%N) by (specialize (Hchain _ eq_refl); lia).
  by rewrite (previous_event_extends _ _ _ _ _ _ _ _ _ Hext Hle' Hx1).
Qed.

End Lib.

End StoreProofs.

(** ** What applying a command writes

    [Module StoreEffects]: the tables that each statement of [Apply] changes,
    and the record of a new command that a successful [Apply] leaves. *)

Module StoreEffects.

Import StoreRecords StoreResults StoreApply.

(** The tables that a stored result is read from and verified against. *)
Definition evidence (t : Tables) :=
  (genesisRecords t, events t, commandResults t, payloads t).

Section Lib.
Context `{NormLib, JCSLib, CryptoLib, FlateLib, !DeviceTables, !StoreSchema, !ProjectionStore.Schema}.

(** [keeps_evidence]: a step that writes none of these tables. *)
Ltac keeps_evidence :=
  intros Hw; unfold writeEventProvenance, writeRaftCommandApplication, writeActivity,
    writeCheckpoint, writeLeaseDeadlines, writeConsensusState, advanceRaftWatermark, putConsensus,
    writePostCommandLocalCleanup in Hw; sum_inv Hw; repeat case_match; sum_inv Hw; simplify_eq/=; try done.

Lemma provenance_effect store request heads store' :
  writeEventProvenance store request heads = inr store' → tables store' = tables store.
Proof. keeps_evidence. Qed.

Lemma application_effect store request store' :
  writeRaftCommandApplication store request = inr store' →
  evidence (tables store') = evidence (tables store) ∧ consensus (tables store') = consensus (tables store) ∧
  provenance store' = provenance store.
Proof. keeps_evidence. Qed.

Lemma activity_effect store request store' :
  writeActivity store request = inr store' →
  evidence (tables store') = evidence (tables store) ∧ consensus (tables store') = consensus (tables store).
Proof. keeps_evidence. Qed.

Lemma audit_effect records store store' :
  writeAudit store records = inr store' → tables store' = tables store.
Proof.
  revert store. induction records as [|record records IH]; intros store; cbn [writeAudit].
  - by intros [= ->].
  - intros Hw. sum_inv Hw. by apply IH in Hw.
Qed.

Lemma checkpoint_effect store record store' :
  writeCheckpoint store record = inr store' →
  evidence (tables store') = evidence (tables store) ∧ consensus (tables store') = consensus (tables store).
Proof. keeps_evidence. Qed.

Lemma deadlines_effect store upserts deletes store' :
  writeLeaseDeadlines store upserts deletes = inr store' → tables store' = tables store.
Proof. keeps_evidence. Qed.

Lemma cleanup_effect store request store' :
  writePostCommandLocalCleanup store request = inr store' → tables store' = tables store.
Proof. intros Hw. unfold writePostCommandLocalCleanup in Hw. sum_inv Hw. by injection Hw as <-. Qed.

Lemma watermark_effect store request store' :
  advanceRaftWatermark store request = inr store' →
  evidence (tables store') = evidence (tables store) ∧
  match consensus (tables store) with
  | None => consensus (tables store') = None
  | Some row => consensus (tables store') = Some (mkConsensusRow (sSessionID row)
      (sRecoveryGeneration row) (Some (Z.of_N (Term request))) (Some (Z.of_N (LogIndex request)))
      (sChainIndex row) (sChainHash row) (sResultIndex row) (sResultHash row) (sAccumulator row)
      (sDigestVersion row) (sSchemaVersion row))
  end.
Proof.
  unfold advanceRaftWatermark, bindUint. intros Hw. sum_inv Hw. sum_inv Hx. sum_inv Hx0. simplify_eq.
  destruct (consensus (tables store)) as [row|] eqn:Hrow; [|by injection Hw as <-].
  unfold putConsensus in Hw. sum_inv Hw. by injection Hw as <-.
Qed.

Lemma consensus_effect store request heads store' :
  writeConsensusState store request heads = inr store' →
  evidence (tables store') = evidence (tables store) ∧
  consensus (tables store') = Some (mkConsensusRow (Event.SessionID (Event.proposal (Proposal request)))
    (Z.of_N (RecoveryGeneration request)) (Some (Z.of_N (Term request)))
    (Some (Z.of_N (LogIndex request))) (Z.of_N (ChainIndex heads)) (ChainHash heads)
    (Z.of_N (ResultIndex heads)) (ResultHash heads) (ProjectionAccumulator heads)
    (Z.of_N (DigestVersion heads)) (Z.of_N (ProjectionSchemaVersion heads))).
Proof.
  unfold writeConsensusState, bindUint, putConsensus. intros Hw. sum_inv Hw.
  repeat match goal with Hx : (if _ then inl _ else _) = inr _ |- _ => apply throw_inr in Hx as [_ Hx] end.
  by simplify_eq/=.
Qed.

(** The event row of an accepted command. *)
Lemma event_effect store request store' :
  writeAcceptedEvent store request = inr store' →
  ∃ row, eProposalJSON row = CommandPayload.commandResultObjectSentinel ∧
    eProposalDigest row = proposalDigest (Proposal request) ∧
    events (tables store) !! Event.EventID (Event.proposal (Proposal request)) = None ∧
    evidence (tables store') =
      (genesisRecords (tables store),
       <[Event.EventID (Event.proposal (Proposal request)) := row]> (events (tables store)),
       commandResults (tables store), payloads (tables store)) ∧
    consensus (tables store') = consensus (tables store) ∧
    projections (tables store') = projections (tables store).
Proof.
  unfold writeAcceptedEvent. destruct (proposalScope _) as [scopeKind scopeID]. intros Hw. sum_inv Hw.
  apply orb_false_iff in Hc as [_ Hc]. apply bool_decide_eq_false in Hc. injection Hw as <-.
  eexists. split_and!; [..|done|done|done]; [reflexivity..|]. by apply eq_None_not_Some.
Qed.

Lemma payload_effect store index payload store' :
  writeCommandResultPayload store index payload = inr store' →
  ∃ encoded, CommandPayload.encodeCommandResultPayload payload = inr encoded ∧
    payloads (tables store) !! index = None ∧
    evidence (tables store') =
      (genesisRecords (tables store), events (tables store), commandResults (tables store),
       <[index := mkPayloadRow (Z.of_N (CommandPayload.codecVersion encoded))
                    (Z.of_N (CommandPayload.uncompressedSize encoded))
                    (CommandPayload.checksum encoded) (CommandPayload.compressed encoded)]>
         (payloads (tables store))) ∧
    consensus (tables store') = consensus (tables store).
Proof.
  unfold writeCommandResultPayload. intros Hw. sum_inv Hw.
  apply orb_false_iff in Hc as [_ Hc]. apply bool_decide_eq_false in Hc. injection Hw as <-.
  exists x. split_and!; [done| |done|done]. by apply eq_None_not_Some.
Qed.

(** The row of a new result. *)
Definition new_row (request : ApplyRequest) (heads : ApplyHeads) (row : ResultRow) : Prop :=
  let proposal := Event.proposal (Proposal request) in
  rSessionID row = Event.SessionID proposal ∧
  rRecoveryGeneration row = Z.of_N (RecoveryGeneration request) ∧
  inlinePayload row = CommandPayload.mkPayload CommandPayload.commandResultObjectSentinel
    CommandPayload.commandResultObjectSentinel CommandPayload.commandResultMutationsSentinel ∧
  rProposalDigest row = proposalDigest (Proposal request) ∧
  rOutcomeStatus row = OutcomeStatus_text (Status (Outcome request)) ∧
  rOutcomeCode row = Code (Outcome request) ∧
  rChainIndex row = (if acceptedRequest request then Some (Z.of_N (ChainIndex heads)) else None) ∧
  rChainHash row = (if acceptedRequest request then Some (ChainHash heads) else None) ∧
  rResultIndex row = Z.of_N (ResultIndex heads) ∧
  rPreviousResultHash row = PreviousResultHash heads ∧ rResultHash row = ResultHash heads.

Lemma result_row_fields request heads row : resultRow request heads = inr row → new_row request heads row.
Proof.
  unfold resultRow, bindNullableUint, bindUint. destruct (proposalScope _) as [scopeKind scopeID].
  intros Hr. sum_inv Hr.
  repeat match goal with Hx : (if _ then inl _ else _) = inr _ |- _ => apply throw_inr in Hx as [_ Hx] end.
  assert (Hchain : x2 = if acceptedRequest request then Some (Z.of_N (ChainIndex heads)) else None).
  { destruct (acceptedRequest request); [|by injection Hx2].
    apply and_then_inr in Hx2 as (bound & Hb & Hx2). apply throw_inr in Hb as [_ Hb]. congruence. }
  injection Hr as <-. simplify_eq. by repeat split.
Qed.

Lemma result_effect store request heads resultJSON mutationJSON store' :
  writeCommandResult store request heads resultJSON mutationJSON = inr store' →
  ∃ row encoded, new_row request heads row ∧
    CommandPayload.encodeCommandResultPayload
      (CommandPayload.mkPayload (Event.canonical (Proposal request)) (OutcomeJSON (Outcome request))
         mutationJSON) = inr encoded ∧
    commandResults (tables store) !! Event.EventID (Event.proposal (Proposal request)) = None ∧
    payloads (tables store) !! ResultIndex heads = None ∧
    evidence (tables store') =
      (genesisRecords (tables store), events (tables store),
       <[Event.EventID (Event.proposal (Proposal request)) := row]> (commandResults (tables store)),
       <[ResultIndex heads := mkPayloadRow (Z.of_N (CommandPayload.codecVersion encoded))
                    (Z.of_N (CommandPayload.uncompressedSize encoded))
                    (CommandPayload.checksum encoded) (CommandPayload.compressed encoded)]>
         (payloads (tables store))) ∧
    consensus (tables store') = consensus (tables store).
Proof.
  unfold writeCommandResult. intros Hw. sum_inv Hw. apply result_row_fields in Hx.
  apply orb_false_iff in Hc0 as [_ Hc0]. unfold resultTaken in Hc0.
  apply orb_false_iff in Hc0 as [Hc0 _]. apply bool_decide_eq_false in Hc0.
  destruct (payload_effect _ _ _ _ Hw) as (encoded & He & Hnone & Hev & Hcons).
  exists x, encoded. split_and!; [done..|by apply eq_None_not_Some|exact Hnone|exact Hev|exact Hcons].
Qed.

(** ** A new command *)

Context (failpoint : applyStage → option Error).

(** The row of the boundary that a new command leaves. *)
Definition new_consensus (request : ApplyRequest) (heads : ApplyHeads) : ConsensusRow :=
  mkConsensusRow (Event.SessionID (Event.proposal (Proposal request)))
    (Z.of_N (RecoveryGeneration request)) (Some (Z.of_N (Term request)))
    (Some (Z.of_N (LogIndex request))) (Z.of_N (ChainIndex heads)) (ChainHash heads)
    (Z.of_N (ResultIndex heads)) (ResultHash heads) (ProjectionAccumulator heads)
    (Z.of_N (DigestVersion heads)) (Z.of_N (ProjectionSchemaVersion heads)).

(** The events after it. *)
Definition new_events (request : ApplyRequest) (before after : gmap string EventRow) : Prop :=
  if acceptedRequest request then
    ∃ row, after = <[Event.EventID (Event.proposal (Proposal request)) := row]> before ∧
      before !! Event.EventID (Event.proposal (Proposal request)) = None ∧
      eProposalJSON row = CommandPayload.commandResultObjectSentinel ∧
      eProposalDigest row = proposalDigest (Proposal request)
  else after = before.

(** What the evidence tables hold after a new command. *)
Record recorded (t t' : Tables) (request : ApplyRequest) (heads : ApplyHeads) (mutationJSON : list N)
    : Prop := {
  rec_genesis : genesisRecords t' = genesisRecords t;
  rec_events : new_events request (events t) (events t');
  rec_consensus : consensus t' = Some (new_consensus request heads);
  rec_fresh : commandResults t !! Event.EventID (Event.proposal (Proposal request)) = None;
  rec_index : payloads t !! ResultIndex heads = None;
  rec_result : ∃ row encoded, new_row request heads row ∧
    commandResults t' =
      <[Event.EventID (Event.proposal (Proposal request)) := row]> (commandResults t) ∧
    CommandPayload.encodeCommandResultPayload
      (CommandPayload.mkPayload (Event.canonical (Proposal request)) (OutcomeJSON (Outcome request))
         mutationJSON) = inr encoded ∧
    payloads t' = <[ResultIndex heads := mkPayloadRow (Z.of_N (CommandPayload.codecVersion encoded))
                    (Z.of_N (CommandPayload.uncompressedSize encoded))
                    (CommandPayload.checksum encoded) (CommandPayload.compressed encoded)]>
         (payloads t) }.

Lemma accepted_effect store request heads store' :
  applyAccepted failpoint store request heads = inr store' →
  new_events request (events (tables store)) (events (tables store')) ∧
  genesisRecords (tables store') = genesisRecords (tables store) ∧
  commandResults (tables store') = commandResults (tables store) ∧
  payloads (tables store') = payloads (tables store) ∧
  consensus (tables store') = consensus (tables store) ∧
  projections (tables store') = projections (tables store).
Proof.
  unfold applyAccepted, new_events. intros Hw. sum_inv Hw. injection Hw as <-.
  destruct (acceptedRequest request).
  - apply event_effect in Hx as (row & Hj & Hd & Hnone & Hev & Hcons & Hproj).
    apply provenance_effect in Hx0. rewrite Hx0. injection Hev as -> -> -> ->.
    split_and!; [by exists row|done..].
  - by injection Hx0 as <-; injection Hx as <-.
Qed.

Lemma outcome_effect store request heads resultJSON mutationJSON store' :
  applyOutcome failpoint store request heads resultJSON mutationJSON = inr store' →
  ∃ middle, writeCommandResult store request heads resultJSON mutationJSON = inr middle ∧
    evidence (tables store') = evidence (tables middle) ∧
    consensus (tables store') = Some (new_consensus request heads).
Proof.
  unfold applyOutcome. intros Hw. sum_inv Hw. injection Hw as <-. exists x. split; [done|].
  apply application_effect in Hx0 as (He0 & _). apply audit_effect in Hx2.
  assert (He1 : evidence (tables x1) = evidence (tables x0)).
  { destruct (RecordActivity request); [by apply activity_effect in Hx1 as [? _]|by injection Hx1 as <-]. }
  assert (He3 : evidence (tables x3) = evidence (tables x2)).
  { destruct (Checkpoint request) as [record|]; [|by injection Hx3 as <-]. apply and_then_inr in Hx3 as (written & Hwritten & Hx3).
    apply and_then_inr in Hx3 as (device & _ & Hx3). injection Hx3 as <-. by apply checkpoint_effect in Hwritten as [? _]. }
  apply deadlines_effect in Hx4. apply cleanup_effect in Hx5.
  apply consensus_effect in Hx6 as [He6 Hcons]. split; [|done].
  rewrite He6, Hx5, Hx4, He3, Hx2, He1. exact He0.
Qed.

Lemma new_effect store prior request result store' :
  applyNew failpoint store prior request = inr (result, store') →
  ∃ mutations resultJSON mutationJSON,
    validateApplyPosition prior request = None ∧ ApplyRequest_validate request = None ∧
    (resultIndex prior < Domain.MaxSafeInteger)%N ∧
    (acceptedRequest request = true → (chainIndex prior < Domain.MaxSafeInteger)%N) ∧
    computeApplyCommitments prior request mutations = inr (Heads result, resultJSON, mutationJSON) ∧
    ResultOutcome result = Outcome request ∧ Duplicate result = false ∧
    recorded (tables store) (tables store') request (Heads result) mutationJSON.
Proof.
  unfold applyNew. intros Hw. sum_inv Hw.
  destruct x0 as [[early ?] ?]. sum_inv Hw. destruct x1 as [mutations db]. sum_inv Hw.
  destruct x1 as [[heads resultJSON] mutationJSON]. sum_inv Hw. injection Hw as <- <-.
  exists mutations, resultJSON, mutationJSON. cbn [Heads ResultOutcome Duplicate tables].
  apply orb_false_iff in Hc1 as [Hb1 Hb2].
  split_and!; try done; [by apply N.leb_gt| |].
  { intros Ha. rewrite Ha in Hb2. by apply N.leb_gt. }
  apply accepted_effect in Hx1 as (Hevents & Hg & Hr & Hp & _).
  apply outcome_effect in Hx5 as (middle & Hm & Hev & Hcons).
  destruct (result_effect _ _ _ _ _ _ Hm) as (row & encoded & Hnew & Henc & Hfresh & Hindex & Hev' & _).
  cbn in Hfresh, Hindex. rewrite Hev' in Hev. cbn in Hev. injection Hev as Hg' He' Hr' Hp'.
  constructor; [congruence|by rewrite He'|done|congruence|congruence|].
  exists row, encoded. by rewrite Hr', Hp', Hr, Hp.
Qed.

End Lib.

End StoreEffects.

(** ** Applying keeps the stored results verified

    [Module StoreSound]: the sound states of a store, and that every command
    that [Apply] commits leaves a sound one. *)

Module StoreSound.

Import StoreRecords StoreResults StoreApply StoreProofs StoreEffects PayloadProofs.

Section Lib.
Context `{NormLib, JCSLib, CryptoLib, FlateLib}.

(** The boundary of the generation [g] of a session. *)
Definition seeded (t : Tables) (g : N) (session : string) (genesis : storedGenesisBoundary)
    (eventSeed resultSeed : Chain.Digest) : Prop :=
  ∀ stored, storedGeneration stored = g → storedSessionID stored = session →
    storedBoundarySeeds t stored = inr (genesis, eventSeed, resultSeed).

(** A row of the active generation. *)
Definition current_row (st : consensusState) (row : ResultRow) : Prop :=
  rSessionID row = sessionID st ∧ rRecoveryGeneration row = Z.of_N (recoveryGeneration st).

(** The head of the result chain: the seed, or the hash of the last result. *)
Definition result_tip (t : Tables) (st : consensusState) (first : N) (seed : Chain.Digest) : Prop :=
  (resultIndex st = first ∧ resultHash st = seed) ∨
  ((first < resultIndex st)%N ∧
   ∃ e row, commandResults t !! e = Some row ∧ current_row st row ∧
     rResultIndex row = Z.of_N (resultIndex st) ∧ rResultHash row = resultHash st).

Definition event_tip (t : Tables) (st : consensusState) (first : N) (seed : Chain.Digest) : Prop :=
  (chainIndex st = first ∧ chainHash st = seed) ∨
  ((first < chainIndex st)%N ∧
   ∃ e row, commandResults t !! e = Some row ∧ current_row st row ∧
     rChainIndex row = Some (Z.of_N (chainIndex st)) ∧ rChainHash row = Some (chainHash st)).

Definition verifies (t : Tables) (e : string) : Prop :=
  ∃ stored, readStoredCommandResult t e = inr (Some stored) ∧
    verifyStoredCommandResult t stored = inr tt.

Record sound (t : Tables) (st : consensusState) : Prop := {
  snd_state : readConsensusState t = inr (Some st);
  snd_tips : ∃ genesis eventSeed resultSeed,
    seeded t (recoveryGeneration st) (sessionID st) genesis eventSeed resultSeed ∧
    result_tip t st (predecessorResultIndex genesis) resultSeed ∧
    event_tip t st (predecessorChainIndex genesis) eventSeed;
  snd_below : ∀ e row, commandResults t !! e = Some row →
    (1 ≤ rResultIndex row ≤ Z.of_N (resultIndex st))%Z ∧
    ∀ i, rChainIndex row = Some i → (1 ≤ i ≤ Z.of_N (chainIndex st))%Z;
  snd_result : ∀ e e' row row', commandResults t !! e = Some row →
    commandResults t !! e' = Some row' → rResultIndex row = rResultIndex row' → e = e';
  snd_chain : ∀ e e' row row' i, commandResults t !! e = Some row →
    commandResults t !! e' = Some row' → rChainIndex row = Some i → rChainIndex row' = Some i →
    e = e';
  snd_verified : ∀ e row, commandResults t !! e = Some row → verifies t e;
  snd_keys : ∀ e row, commandResults t !! e = Some row → Domain.UUIDv7_Valid e = true }.

(** ** Reading at the tip *)

Lemma stored_at_result t st e row : sound t st →
  commandResults t !! e = Some row → (0 ≤ rResultIndex row)%Z →
  ∃ payload, storedResultAtResultIndex t (Z.to_N (rResultIndex row)) = inr (storedOf e row payload).
Proof.
  intros Hs He Hpos. destruct (snd_verified _ _ Hs _ _ He) as (stored & Hr & _).
  destruct (read_stored_row _ _ _ Hr) as (row' & payload & He' & _ & _ & _ & ->). simplify_eq.
  exists payload. apply stored_where_iff. exists e, row. split_and!; [done| | |done].
  - apply Z.eqb_eq. lia.
  - intros e' row' He'' Heq%Z.eqb_eq. apply (snd_result _ _ Hs _ _ _ _ He'' He). lia.
Qed.

Lemma stored_at_chain t st e row i : sound t st →
  commandResults t !! e = Some row → rChainIndex row = Some (Z.of_N i) →
  ∃ payload, storedResultAtChainIndex t i = inr (storedOf e row payload).
Proof.
  intros Hs He Hi. destruct (snd_verified _ _ Hs _ _ He) as (stored & Hr & _).
  destruct (read_stored_row _ _ _ Hr) as (row' & payload & He' & _ & _ & _ & ->). simplify_eq.
  exists payload. apply stored_where_iff. exists e, row. split_and!; [done| | |done].
  - by apply bool_decide_eq_true.
  - intros e' row' He'' Heq%bool_decide_eq_true. by apply (snd_chain _ _ Hs _ _ _ _ _ He'' He Heq).
Qed.

Lemma result_at_tip t st genesis eventSeed resultSeed stored :
  sound t st → result_tip t st (predecessorResultIndex genesis) resultSeed →
  seeded t (recoveryGeneration st) (sessionID st) genesis eventSeed resultSeed →
  storedResultIndex stored = (resultIndex st + 1)%N →
  storedSessionID stored = sessionID st → storedGeneration stored = recoveryGeneration st →
  expectedPreviousResult t stored genesis resultSeed = inr (resultHash st).
Proof.
  intros Hs Htip Hseed Hi Hsession Hgen. unfold expectedPreviousResult. rewrite Hi.
  destruct Htip as [[Hf Hh]|(Hf & e & row & He & [Hsr Hgr] & Hri & Hrh)].
  - rewrite Hf, !N.ltb_irrefl. by rewrite Hh.
  - rewrite (proj2 (N.ltb_ge _ _)) by lia. rewrite (proj2 (N.ltb_lt _ _)) by lia.
    destruct (stored_at_result _ _ _ _ Hs He) as [payload Hst]; [lia|].
    replace (resultIndex st + 1 - 1)%N with (Z.to_N (rResultIndex row)) by lia.
    rewrite Hst. cbn [and_then storedOf storedSessionID storedGeneration storedResultHash].
    rewrite Hsession, Hgen, Hsr, Hgr, N2Z.id, bool_decide_true, N.eqb_refl by done. by rewrite Hrh.
Qed.

Lemma event_at_tip t st genesis eventSeed resultSeed stored :
  sound t st → event_tip t st (predecessorChainIndex genesis) eventSeed →
  seeded t (recoveryGeneration st) (sessionID st) genesis eventSeed resultSeed →
  storedSessionID stored = sessionID st → storedGeneration stored = recoveryGeneration st →
  expectedPreviousEvent t stored (chainIndex st + 1) genesis eventSeed = inr (chainHash st).
Proof.
  intros Hs Htip Hseed Hsession Hgen. unfold expectedPreviousEvent.
  destruct Htip as [[Hf Hh]|(Hf & e & row & He & [Hsr Hgr] & Hri & Hrh)].
  - rewrite Hf, !N.ltb_irrefl. by rewrite Hh.
  - rewrite (proj2 (N.ltb_ge _ _)) by lia. rewrite (proj2 (N.ltb_lt _ _)) by lia.
    rewrite N.add_sub. destruct (stored_at_chain _ _ _ _ _ Hs He Hri) as [payload Hst].
    rewrite Hst. cbn [and_then storedOf storedSessionID storedGeneration storedChainHash].
    by rewrite Hsession, Hgen, Hsr, Hgr, N2Z.id, bool_decide_true, N.eqb_refl, Hrh by done.
Qed.

(** ** Commitments *)

Lemma commitments_inv prior request mutations heads resultJSON mutationJSON :
  (resultIndex prior < Domain.MaxSafeInteger)%N →
  (acceptedRequest request = true → (chainIndex prior < Domain.MaxSafeInteger)%N) →
  computeApplyCommitments prior request mutations = inr (heads, resultJSON, mutationJSON) →
  ResultIndex heads = (resultIndex prior + 1)%N ∧ PreviousResultHash heads = resultHash prior ∧
  DigestVersion heads = digestVersion prior ∧
  ProjectionSchemaVersion heads = projectionSchemaVersion prior ∧
  Chain.AppendResult (resultHash prior) (requestResult request heads) =
    inr (ResultHash heads, resultJSON) ∧
  Chain.AppendAccumulator (projectionAccumulator prior) (ResultIndex heads) (ResultHash heads)
    mutations = inr (ProjectionAccumulator heads, mutationJSON) ∧
  if acceptedRequest request
  then ChainIndex heads = (chainIndex prior + 1)%N ∧
       Chain.AppendEvent (chainHash prior) (Event.canonical (Proposal request)) = inr (ChainHash heads)
  else ChainIndex heads = chainIndex prior ∧ ChainHash heads = chainHash prior.
Proof.
  intros Hr Hc. unfold computeApplyCommitments. intros (early & Hearly & Hw)%and_then_inr.
  destruct (Chain.AppendResult _ _) as [|[rh rj]] eqn:Hres; [done|].
  destruct (Chain.AppendAccumulator _ _ _ _) as [|[accumulator mj]] eqn:Hacc; [done|].
  injection Hw as <- <- <-. unfold requestResult in *. cbn [ResultIndex PreviousResultHash DigestVersion
    ProjectionSchemaVersion ChainIndex ChainHash ResultHash ProjectionAccumulator].
  unfold appendedEvent in Hearly. change Domain.MaxSafeInteger with 9007199254740991%N in *.
  destruct (acceptedRequest request) eqn:Ha.
  - destruct (Chain.AppendEvent _ _) as [|hash]; [done|]. injection Hearly as <-.
    cbn in *. rewrite !u64_succ_small in * by (unfold u64_modulus; specialize (Hc eq_refl); lia). done.
  - injection Hearly as <-. cbn in *. rewrite !u64_succ_small in * by (unfold u64_modulus; lia). done.
Qed.

Lemma status_of_text status : OutcomeStatus_valid status = true →
  OutcomeStatus_of (OutcomeStatus_text status) = status.
Proof. by destruct status. Qed.

(** ** The state after a new command *)

Definition advanced (prior : consensusState) (request : ApplyRequest) (heads : ApplyHeads)
    : consensusState :=
  mkConsensusState (sessionID prior) (recoveryGeneration prior) (Term request) (LogIndex request)
    (ChainIndex heads) (ChainHash heads) (ResultIndex heads) (ResultHash heads)
    (ProjectionAccumulator heads) (DigestVersion heads) (ProjectionSchemaVersion heads).

Lemma state_inv t st : readConsensusState t = inr (Some st) →
  ∃ row, consensus t = Some row ∧ st = stateOf row ∧ consensusRowOk row = true ∧
    (recoveryGeneration st ≤ Domain.MaxSafeInteger)%N ∧ (resultIndex st ≤ Domain.MaxSafeInteger)%N ∧
    (digestVersion st ≤ Domain.MaxSafeInteger)%N ∧
    (projectionSchemaVersion st ≤ Domain.MaxSafeInteger)%N ∧ (chainIndex st ≤ resultIndex st)%N.
Proof.
  unfold readConsensusState. destruct (consensus t) as [row|]; [|done]. intros Hr. sum_inv Hr.
  injection Hr as <-. exists row. apply negb_false_iff in Hc.
  unfold Domain.ValidUnsignedInteger in Hc0. bools. split_and!; try done; tauto.
Qed.

Lemma digest_sized label parts : digestColumn (Chain.digestDomain label parts) = true.
Proof. unfold digestColumn, Chain.digestDomain, llen. by rewrite Sum256_length. Qed.

Lemma appended_result_sized previous result d encoded :
  Chain.AppendResult previous result = inr (d, encoded) → digestColumn d = true.
Proof.
  unfold Chain.AppendResult. destruct (Chain.EncodeResult result); [done|]. intros [= <- _].
  apply digest_sized.
Qed.

Lemma accumulator_sized previous i hash mutations d encoded :
  Chain.AppendAccumulator previous i hash mutations = inr (d, encoded) → digestColumn d = true.
Proof.
  unfold Chain.AppendAccumulator. intros Ha. repeat case_match; simplify_eq. apply digest_sized.
Qed.

Lemma appended_event_sized previous canonical d :
  Chain.AppendEvent previous canonical = inr d → digestColumn d = true.
Proof.
  unfold Chain.AppendEvent. destruct (Chain.validateCanonicalObject _); [done|]. intros [= <-].
  apply digest_sized.
Qed.

(** What the validators of a request establish. *)
Lemma request_inv request : ApplyRequest_validate request = None →
  Domain.UUIDv7_Valid (Event.SessionID (Event.proposal (Proposal request))) = true ∧
  (1 ≤ Term request)%N ∧ (1 ≤ LogIndex request)%N ∧
  CommandOutcome_validate (Outcome request) = None ∧
  Domain.UUIDv7_Valid (Event.EventID (Event.proposal (Proposal request))) = true.
Proof.
  unfold ApplyRequest_validate. intros Hv. chain_inv Hv. unfold validateApplyIdentity in Hc.
  chain_inv Hc. bools. destruct (Event.ValidateEnvelope _) eqn:Henv; [naive_solver|].
  unfold Event.ValidateEnvelope in Henv. chain_inv Henv. bools. split_and!; try done; tauto.
Qed.

Lemma advanced_state t t' prior request heads mutations resultJSON mutationJSON :
  readConsensusState t = inr (Some prior) →
  validateApplyPosition prior request = None → ApplyRequest_validate request = None →
  (resultIndex prior < Domain.MaxSafeInteger)%N →
  (acceptedRequest request = true → (chainIndex prior < Domain.MaxSafeInteger)%N) →
  computeApplyCommitments prior request mutations = inr (heads, resultJSON, mutationJSON) →
  consensus t' = Some (new_consensus request heads) →
  readConsensusState t' = inr (Some (advanced prior request heads)).
Proof.
  intros Hprior Hpos Hvalid Hr Hc Hcomm Hcons.
  destruct (state_inv _ _ Hprior) as (row & _ & Hst & Hok & Hg & _ & Hdv & Hpv & Hle).
  destruct (commitments_inv _ _ _ _ _ _ Hr Hc Hcomm) as (Hri & _ & Hd & Hp & Hres & Hacc & Hev).
  destruct (request_inv _ Hvalid) as (Hsession & Hterm & Hlog & _ & _).
  unfold validateApplyPosition in Hpos. chain_inv Hpos. bools. destruct Hc0 as [Hsess Hgen].
  unfold readConsensusState. rewrite Hcons. unfold consensusRowOk, stateOf, new_consensus in *.
  subst prior. bools. destruct Hok as [[[[[[[[[_ _] _] _] _] Hch] _] _] _] Hversions].
  cbn [sSessionID sRecoveryGeneration sCurrentTerm sLastApplied sChainIndex sChainHash sResultIndex
    sResultHash sAccumulator sDigestVersion sSchemaVersion positiveColumn nullableUint sessionID
    recoveryGeneration chainIndex resultIndex digestVersion projectionSchemaVersion chainHash resultHash
    projectionAccumulator] in *.
  rewrite !N2Z.id. rewrite Hsession.
  assert (Hhash : digestColumn (ChainHash heads) = true).
  { destruct (acceptedRequest request); destruct Hev as [_ Hev]; [by eapply appended_event_sized|by rewrite Hev]. }
  assert (Hci : (ChainIndex heads ≤ ResultIndex heads)%N) by (destruct (acceptedRequest request); lia).
  rewrite Hhash, (appended_result_sized _ _ _ _ Hres), (accumulator_sized _ _ _ _ _ _ Hacc).
  rewrite !(proj2 (Z.ltb_ge _ _)) by lia. cbn [andb orb negb].
  unfold Domain.ValidUnsignedInteger. rewrite !(proj2 (N.leb_le _ _)) by lia.
  rewrite (proj2 (N.ltb_ge _ _)) by lia. cbn [negb orb]. unfold advanced.
  cbn [sessionID recoveryGeneration]. by rewrite Hsess, <-Hgen.
Qed.

(** ** A new command *)

Section New.
Context (t t' : Tables) (prior : consensusState) (request : ApplyRequest) (heads : ApplyHeads)
  (mutations : list Chain.Mutation) (resultJSON mutationJSON : list N).
Context (Hsound : sound t prior) (Hpos : validateApplyPosition prior request = None)
  (Hvalid : ApplyRequest_validate request = None)
  (Hroom : (resultIndex prior < Domain.MaxSafeInteger)%N)
  (Hchainroom : acceptedRequest request = true → (chainIndex prior < Domain.MaxSafeInteger)%N)
  (Hcomm : computeApplyCommitments prior request mutations = inr (heads, resultJSON, mutationJSON))
  (Hrec : recorded t t' request heads mutationJSON).

Definition new_event : string := Event.EventID (Event.proposal (Proposal request)).

Lemma position_inv : sessionID prior = Event.SessionID (Event.proposal (Proposal request)) ∧
  recoveryGeneration prior = RecoveryGeneration request.
Proof using Hpos.
  revert Hpos. unfold validateApplyPosition. intros Hp. chain_inv Hp. by bools.
Qed.

Lemma chain_of_new row : new_row request heads row →
  ∀ i, rChainIndex row = Some i → i = Z.of_N (chainIndex prior + 1) ∧ acceptedRequest request = true.
Proof using Hchainroom Hcomm Hroom.
  intros (_ & _ & _ & _ & _ & _ & Hrow & _) i. rewrite Hrow.
  destruct (commitments_inv _ _ _ _ _ _ Hroom Hchainroom Hcomm) as (_ & _ & _ & _ & _ & _ & Hev).
  destruct (acceptedRequest request); [|done]. intros [= <-]. destruct Hev as [-> _]. done.
Qed.

Lemma recorded_extends : extends (resultIndex prior) (chainIndex prior) t t'.
Proof using Hchainroom Hcomm Hrec Hroom.
  destruct Hrec as [Hg Hevents _ Hfresh Hindex (row & encoded & Hrow & Hresults & _ & Hpayloads)].
  destruct (commitments_inv _ _ _ _ _ _ Hroom Hchainroom Hcomm) as (Hri & _).
  constructor; [done| | | |].
  - rewrite Hresults. by apply insert_subseteq.
  - rewrite Hpayloads. by apply insert_subseteq.
  - revert Hevents. unfold new_events. destruct (acceptedRequest request); [|by intros ->].
    intros (erow & -> & Hnone & _). by apply insert_subseteq.
  - intros e row' He Hnone. rewrite Hresults in He.
    apply lookup_insert_Some in He as [[<- <-]|[_ He]]; [|congruence].
    pose proof (chain_of_new row Hrow) as Hchain. destruct Hrow as (_ & _ & _ & _ & _ & _ & _ & _ & -> & _).
    split; [lia|]. intros i Hi. destruct (Hchain i Hi) as [-> _]. lia.
Qed.

(** The stored form of the new result. *)
Lemma new_read : ∃ row payload, commandResults t' !! new_event = Some row ∧ new_row request heads row ∧
  payload = CommandPayload.mkPayload (Event.canonical (Proposal request))
              (OutcomeJSON (Outcome request)) mutationJSON ∧
  readStoredCommandResult t' new_event = inr (Some (storedOf new_event row payload)).
Proof using Hchainroom Hcomm Hpos Hrec Hroom Hsound Hvalid.
  destruct Hrec as [_ _ _ _ _ (row & encoded & Hrow & Hresults & Hencoded & Hpayloads)].
  destruct (commitments_inv _ _ _ _ _ _ Hroom Hchainroom Hcomm) as (Hri & Hprev & _ & _ & Hres & _ & Hev).
  exists row. eexists. split_and!; [by rewrite Hresults, lookup_insert_eq|done|reflexivity|].
  unfold readStoredCommandResult. rewrite Hresults, lookup_insert_eq.
  destruct Hrow as (Hs & Hg & Hin & Hd & _ & _ & Hci & Hch & Hi & Hp & Hh).
  assert (Hok : resultRowOk row = true).
  { destruct (request_inv _ Hvalid) as (Hsession & _).
    destruct (state_inv _ _ (snd_state _ _ Hsound)) as (crow & _ & Hst & Hok & _).
    unfold resultRowOk. rewrite Hs, Hg, Hd, Hi, Hp, Hh, Hsession, Hci, Hch, Hprev.
    rewrite (appended_result_sized _ _ _ _ Hres).
    replace (digestColumn (resultHash prior)) with true by
      (unfold consensusRowOk in Hok; subst prior; bools; symmetry; apply Hok).
    rewrite !(proj2 (Z.ltb_ge _ _)) by lia. unfold digestColumn at 1, proposalDigest, llen.
    rewrite Sum256_length. destruct (acceptedRequest request); [|done]. destruct Hev as [Hci' Hev].
    rewrite (appended_event_sized _ _ _ Hev), (proj2 (Z.ltb_ge _ _)) by lia. done. }
  rewrite Hok, Hin. change (CommandPayload.commandResultPayloadSentinels _) with (true, false).
  cbn [negb]. unfold readCompactedCommandResultPayload. rewrite Hi, N2Z.id, Hpayloads, lookup_insert_eq.
  cbn [pCodecVersion pUncompressedSize pChecksum pCompressed]. rewrite !N2Z.id.
  pose proof (encoded_payload_decodes _ _ Hencoded) as Hdec.
  unfold CommandPayload.encodeCommandResultPayload in Hencoded. sum_inv Hencoded.
  destruct encoded as [v size sum compressed].
  injection Hencoded as <- <- <- <-. cbn [CommandPayload.codecVersion CommandPayload.uncompressedSize
    CommandPayload.checksum CommandPayload.compressed]. rewrite Hdec.
  rewrite <-frame_length in Hc0. bools.
  change (Z.of_N CommandPayload.commandResultPayloadCodecVersion <? 1)%Z with false.
  change (4294967295 <? Z.of_N CommandPayload.commandResultPayloadCodecVersion)%Z with false.
  set (frame := CommandPayload.payloadFrame _) in *.
  rewrite (proj2 (Z.ltb_ge (Z.of_N (llen frame)) 0)) by lia.
  rewrite (proj2 (Z.ltb_ge (Z.of_N CommandPayload.maxCommandResultPayloadBytes) _)) by lia.
  cbn [orb]. unfold digestColumn. replace (llen (Sum256 frame)) with 32%N; [done|].
  unfold llen. by rewrite Sum256_length.
Qed.

Lemma outcome_of row payload : new_row request heads row →
  CommandPayload.outcome payload = OutcomeJSON (Outcome request) →
  outcome (storedOf new_event row payload) = Outcome request.
Proof using Hvalid.
  intros (_ & _ & _ & _ & Hst & Hco & _) Hj. destruct (request_inv _ Hvalid) as (_ & _ & _ & Hout & _).
  unfold CommandOutcome_validate in Hout. chain_inv Hout. bools.
  unfold storedOf. cbn [outcome]. rewrite Hst, Hco, Hj, status_of_text by done. by destruct (Outcome request).
Qed.

Lemma input_of row payload : new_row request heads row →
  CommandPayload.proposal payload = Event.canonical (Proposal request) →
  CommandPayload.outcome payload = OutcomeJSON (Outcome request) →
  resultInput (storedOf new_event row payload) = requestResult request heads.
Proof using Hvalid.
  intros Hrow Hp Hj. unfold resultInput, accepted. rewrite (outcome_of _ _ Hrow Hj).
  destruct Hrow as (_ & _ & _ & Hd & _ & _ & Hci & Hch & Hi & _).
  unfold requestResult, storedOf. cbn [storedResultIndex proposalJSON outcome storedDigest
    storedChainIndex storedChainHash]. rewrite Hp, Hd, Hci, Hch, Hi, N2Z.id. f_equal.
  - unfold acceptedRequest. destruct (Status (Outcome request) == OutcomeAccepted); [|done].
    cbn. by rewrite N2Z.id.
  - unfold acceptedRequest. by destruct (Status (Outcome request) == OutcomeAccepted).
Qed.

Lemma new_verified : verifies t' new_event.
Proof using Hchainroom Hcomm Hpos Hrec Hroom Hsound Hvalid.
  destruct new_read as (row & payload & He & Hrow & -> & Hread).
  exists (storedOf new_event row (CommandPayload.mkPayload (Event.canonical (Proposal request))
            (OutcomeJSON (Outcome request)) mutationJSON)). split; [exact Hread|].
  destruct (commitments_inv _ _ _ _ _ _ Hroom Hchainroom Hcomm) as (Hri & Hprev & _ & _ & Hres & _ & Hev).
  destruct (request_inv _ Hvalid) as (_ & _ & _ & Hout & _). destruct position_inv as [Hsess Hgen].
  destruct (snd_tips _ _ Hsound) as (genesis & eventSeed & resultSeed & Hseeded & Hrtip & Hetip).
  set (stored := storedOf _ _ _).
  assert (Ho : outcome stored = Outcome request) by by apply outcome_of.
  assert (Hinput : resultInput stored = requestResult request heads) by by apply input_of.
  pose proof Hrow as (Hs & Hg & _ & Hd & _ & _ & Hci & Hch & Hi & Hp & Hh).
  assert (Hsd : storedDigest stored = proposalDigest (Proposal request)) by exact Hd.
  assert (Hss : storedSessionID stored = sessionID prior) by (rewrite Hsess; exact Hs).
  assert (Hsg : storedGeneration stored = recoveryGeneration prior).
  { rewrite Hgen. unfold stored. cbn. by rewrite Hg, N2Z.id. }
  assert (Hsi : storedResultIndex stored = (resultIndex prior + 1)%N).
  { unfold stored. cbn. by rewrite Hi, N2Z.id, Hri. }
  pose proof recorded_extends as Hext.
  assert (Hseed' : seeded t' (recoveryGeneration prior) (sessionID prior) genesis eventSeed resultSeed).
  { intros s Hsg' Hss'. rewrite (seeds_extends t t') by apply Hext. by apply Hseeded. }
  unfold verifyStoredCommandResult. rewrite Ho, Hinput, Hsd, Hout.
  rewrite bool_decide_true by done. cbn [negb]. rewrite bool_decide_false by naive_solver.
  assert (Hacc : accepted stored = acceptedRequest request) by (unfold accepted; by rewrite Ho).
  rewrite Hacc. replace (storedChainIndex stored) with
    (if acceptedRequest request then Some (ChainIndex heads) else None) by
    (unfold stored; cbn; rewrite Hci; destruct (acceptedRequest request); cbn; by rewrite ?N2Z.id).
  replace (storedChainHash stored) with
    (if acceptedRequest request then Some (ChainHash heads) else None) by (symmetry; exact Hch).
  replace (Bool.eqb (acceptedRequest request) _) with true by (by destruct (acceptedRequest request)).
  cbn [negb]. rewrite (Hseed' stored Hsg Hss). cbn [and_then].
  replace (previousResultHash stored) with (resultHash prior) by (rewrite <-Hprev; symmetry; exact Hp).
  rewrite Hres. replace (storedResultHash stored) with (ResultHash heads) by (symmetry; exact Hh).
  rewrite bool_decide_true by done. cbn [negb].
  replace (expectedPreviousResult t' stored genesis resultSeed) with
    (inr (resultHash prior) : Error + Chain.Digest) by
    (symmetry; eapply previous_result_extends; [exact Hext|lia|];
     by eapply result_at_tip).
  cbn [and_then]. rewrite bool_decide_true by done. cbn [negb].
  destruct (acceptedRequest request) eqn:Ha; [|done]. cbn [bool_decide Bool.eqb negb].
  destruct Hev as [Hci' Hev]. unfold verifyStoredEvent.
  replace (storedChainIndex stored) with (Some (ChainIndex heads)) by
    (unfold stored; cbn; rewrite Hci; cbn; by rewrite N2Z.id).
  replace (storedChainHash stored) with (Some (ChainHash heads)) by (symmetry; exact Hch).
  destruct Hrec as [_ Hevents _ _ _ _]. unfold new_events in Hevents. rewrite Ha in Hevents.
  destruct Hevents as (erow & Hevents & _ & Hej & Hed).
  unfold eventMatches. rewrite Hevents. change (eventID stored) with new_event. unfold new_event at 1.
  rewrite lookup_insert_eq, Hej, Hed, Hsd. cbn [compactedPayload stored storedOf].
  rewrite !bool_decide_true by done. cbn [andb negb].
  replace (expectedPreviousEvent t' stored (ChainIndex heads) genesis eventSeed) with
    (inr (chainHash prior) : Error + Chain.Digest) by
    (symmetry; rewrite Hci'; eapply previous_event_extends; [exact Hext|lia|];
     by eapply event_at_tip).
  cbn [and_then]. change (proposalJSON stored) with (Event.canonical (Proposal request)).
  rewrite Hev, bool_decide_true by done. done.
Qed.

(** Rows of the result and events before and after. *)
Lemma new_rows e row : commandResults t' !! e = Some row →
  (e = new_event ∧ new_row request heads row) ∨ (e ≠ new_event ∧ commandResults t !! e = Some row).
Proof using Hrec.
  destruct Hrec as [_ _ _ _ _ (nrow & encoded & Hrow & -> & _)].
  intros [[<- <-]|[Hne He]]%lookup_insert_Some; [by left|by right].
Qed.

Lemma sound_new : sound t' (advanced prior request heads).
Proof using Hchainroom Hcomm Hpos Hrec Hroom Hsound Hvalid.
  destruct (commitments_inv _ _ _ _ _ _ Hroom Hchainroom Hcomm) as (Hri & Hprev & _ & _ & _ & _ & Hev).
  destruct (snd_tips _ _ Hsound) as (genesis & eventSeed & resultSeed & Hseeded & Hrtip & Hetip).
  pose proof recorded_extends as Hext. pose proof new_read as (nrow & npayload & Hnrow & Hnew & _).
  destruct position_inv as [Hsess Hgen].
  assert (Hci : (chainIndex prior ≤ ChainIndex heads)%N) by (destruct (acceptedRequest request); lia).
  assert (Hri' : ∀ row, new_row request heads row → rResultIndex row = Z.of_N (resultIndex prior + 1)).
  { intros row (_ & _ & _ & _ & _ & _ & _ & _ & -> & _). by rewrite Hri. }
  constructor.
  - eapply advanced_state; [apply Hsound|done..|]. by destruct Hrec.
  - exists genesis, eventSeed, resultSeed. cbn [advanced recoveryGeneration sessionID]. split_and!.
    + intros s Hs Hss. rewrite (seeds_extends t t') by apply Hext. by apply Hseeded.
    + right. cbn [advanced resultIndex]. split.
      { destruct Hrtip as [[Hf _]|[Hf _]]; lia. }
      exists new_event, nrow.
      pose proof Hnew as (Hs & Hg & _ & _ & _ & _ & _ & _ & Hi & _ & Hh).
      split_and!; [done| | |].
      * split; cbn; [by rewrite Hsess|by rewrite Hgen].
      * done.
      * done.
    + unfold event_tip. cbn [advanced chainIndex chainHash].
      destruct (acceptedRequest request) eqn:Ha.
      * right. destruct Hev as [Hci' _]. split.
        { destruct Hetip as [[Hf _]|[Hf _]]; lia. }
        exists new_event, nrow.
        pose proof Hnew as (Hs & Hg & _ & _ & _ & _ & Hc & Hch & _). rewrite Ha in Hc, Hch.
        split_and!; [done| |done|done]. split; cbn; [by rewrite Hsess|by rewrite Hgen].
      * destruct Hev as [-> ->]. destruct Hetip as [Hetip|(Hf & e & row & He & Hcur & Hrest)]; [by left|].
        right. split; [exact Hf|]. exists e, row. split; [|exact (conj Hcur Hrest)].
        eapply lookup_weaken; [done|apply Hext].
  - intros e row He. cbn [advanced resultIndex chainIndex].
    destruct (new_rows _ _ He) as [[_ Hrow]|[_ Hold]].
    + pose proof (chain_of_new _ Hrow) as Hchain. rewrite (Hri' _ Hrow). split; [lia|].
      intros i Hi. destruct (Hchain _ Hi) as [-> Ha]. rewrite Ha in Hev. lia.
    + destruct (snd_below _ _ Hsound _ _ Hold) as [Hb Hbc]. split; [lia|].
      intros i Hi. specialize (Hbc _ Hi). lia.
  - intros e e' row row' He He' Heq.
    destruct (new_rows _ _ He) as [[-> Hrow]|[_ Hold]], (new_rows _ _ He') as [[-> Hrow']|[_ Hold']].
    + done.
    + destruct (snd_below _ _ Hsound _ _ Hold') as [Hb _]. rewrite (Hri' _ Hrow) in Heq. lia.
    + destruct (snd_below _ _ Hsound _ _ Hold) as [Hb _]. rewrite (Hri' _ Hrow') in Heq. lia.
    + by eapply (snd_result _ _ Hsound).
  - intros e e' row row' i He He' Hi Hi'.
    destruct (new_rows _ _ He) as [[-> Hrow]|[_ Hold]], (new_rows _ _ He') as [[-> Hrow']|[_ Hold']].
    + done.
    + destruct (snd_below _ _ Hsound _ _ Hold') as [_ Hb]. specialize (Hb _ Hi').
      destruct (chain_of_new _ Hrow _ Hi). lia.
    + destruct (snd_below _ _ Hsound _ _ Hold) as [_ Hb]. specialize (Hb _ Hi).
      destruct (chain_of_new _ Hrow' _ Hi'). lia.
    + by eapply (snd_chain _ _ Hsound).
  - intros e row He. destruct (new_rows _ _ He) as [[-> _]|[_ Hold]]; [apply new_verified|].
    destruct (snd_verified _ _ Hsound _ _ Hold) as (stored & Hread & Hver).
    exists stored. split; [eapply read_stored_extends; [apply Hext..|done]|].
    destruct (read_stored_row _ _ _ Hread) as (row' & payload & He' & _ & _ & _ & ->). simplify_eq.
    destruct (snd_below _ _ Hsound _ _ Hold) as [Hb Hbc].
    eapply verify_extends; [exact Hext| | |done]; cbn [storedOf storedResultIndex storedChainIndex].
    + lia.
    + intros i (z & Hz & ->)%fmap_Some. specialize (Hbc _ Hz). lia.
  - intros e row He. destruct (new_rows _ _ He) as [[-> _]|[_ Hold]].
    + by destruct (request_inv _ Hvalid) as (_ & _ & _ & _ & Hkey).
    + by eapply (snd_keys _ _ Hsound).
Qed.

End New.

(** ** A duplicate *)

(** Equal evidence gives equal reads. *)
Lemma same_extends t t' m n : evidence t' = evidence t → extends m n t t'.
Proof.
  intros [= Hg He Hr Hp]. constructor; rewrite ?Hg, ?He, ?Hr, ?Hp; try done.
  intros e row Hrow Hnone. congruence.
Qed.

Definition rewatermarked (st : consensusState) (request : ApplyRequest) : consensusState :=
  mkConsensusState (sessionID st) (recoveryGeneration st) (Term request) (LogIndex request)
    (chainIndex st) (chainHash st) (resultIndex st) (resultHash st) (projectionAccumulator st)
    (digestVersion st) (projectionSchemaVersion st).

(** The row that the watermark leaves. *)
Definition watermarked (row : ConsensusRow) (request : ApplyRequest) : ConsensusRow :=
  mkConsensusRow (sSessionID row) (sRecoveryGeneration row) (Some (Z.of_N (Term request)))
    (Some (Z.of_N (LogIndex request))) (sChainIndex row) (sChainHash row) (sResultIndex row)
    (sResultHash row) (sAccumulator row) (sDigestVersion row) (sSchemaVersion row).

Lemma watermarked_state t t' st request row : readConsensusState t = inr (Some st) →
  (1 ≤ Term request)%N → (1 ≤ LogIndex request)%N → consensus t = Some row →
  consensus t' = Some (watermarked row request) →
  readConsensusState t' = inr (Some (rewatermarked st request)).
Proof.
  unfold readConsensusState. intros Hst Hterm Hlog Hrow Hrow'. rewrite Hrow in Hst. rewrite Hrow'.
  sum_inv Hst. injection Hst as <-.
  assert (Hok : consensusRowOk (watermarked row request) = true).
  { apply negb_false_iff in Hc. revert Hc. unfold consensusRowOk, watermarked. cbn. bools.
    intros. split_and!; try tauto; apply Z.ltb_ge; lia. }
  rewrite Hok. cbn [negb].
  assert (Heq : stateOf (watermarked row request) = rewatermarked (stateOf row) request).
  { unfold stateOf, rewatermarked, watermarked. cbn. by rewrite !N2Z.id. }
  rewrite Heq. unfold rewatermarked at 1 2 3 4 5 6 7.
  cbn [recoveryGeneration chainIndex resultIndex digestVersion projectionSchemaVersion]. by rewrite Hc0.
Qed.

Lemma sound_duplicate t t' st request row : sound t st → evidence t' = evidence t →
  (1 ≤ Term request)%N → (1 ≤ LogIndex request)%N → consensus t = Some row →
  consensus t' = Some (watermarked row request) → sound t' (rewatermarked st request).
Proof.
  intros Hs Hev Hterm Hlog Hrow Hrow'.
  pose proof (same_extends _ _ (resultIndex st) (chainIndex st) Hev) as Hext.
  injection Hev as Hg He Hr Hp. constructor; rewrite ?Hr.
  - eapply watermarked_state; [apply Hs|done..].
  - destruct (snd_tips _ _ Hs) as (genesis & eventSeed & resultSeed & Hseeded & Hrtip & Hetip).
    exists genesis, eventSeed, resultSeed. unfold result_tip, event_tip. rewrite Hr. split_and!; [|done..].
    intros s Hsg Hss. rewrite (seeds_extends t t' s Hg). by apply Hseeded.
  - apply Hs.
  - apply Hs.
  - apply Hs.
  - intros e erow Herow. destruct (snd_verified _ _ Hs _ _ Herow) as (stored & Hread & Hver).
    exists stored. split; [eapply read_stored_extends; [apply Hext..|done]|].
    destruct (read_stored_row _ _ _ Hread) as (row' & payload & He' & _ & _ & _ & ->). simplify_eq.
    destruct (snd_below _ _ Hs _ _ Herow) as [Hb Hbc].
    eapply verify_extends; [exact Hext| | |done]; cbn [storedOf storedResultIndex storedChainIndex].
    + lia.
    + intros i (z & Hz & ->)%fmap_Some. specialize (Hbc _ Hz). lia.
  - apply Hs.
Qed.

End Lib.

End StoreSound.
