(* ===== verification/StoreTheorems.v ===== *)
(** * The life of a store from its boundary

    [Module StoreRuns]: what a successful [Initialize] and a successful [Apply]
    leave, on both of its branches; the runs of a store; and that every store
    on a run is sound and keeps the results recorded before. *)

From stdpp Require Import base gmap strings list.
From Stdlib Require Import ZArith NArith Lia.
From S2P Require Import Prelude.
From S2P Require Import GoLib.
From S2P Require Import GoJson.
From S2P Require Import CodecLayer.
From S2P Require Import DomainValues.
From S2P Require Import EventModel.
From S2P Require Import ChainCommitments.
From S2P Require Import Fixtures.
From S2P Require Import ChainTheorems.
From S2P Require Import ProjectionRows.
From S2P Require Import ProjectionStore.
From S2P Require Import ProjectionStream.
From S2P Require Import StoredDigest.
From S2P Require Import ProjectionTheorems.
From S2P Require Import StoreRecords.
From S2P Require Import CommandPayload.
From S2P Require Import StoreResults.
From S2P Require Import StoreApply.
From S2P Require Import StoreBoundary.
From S2P Require Import StoreSound.

Module StoreRuns.

Import StoreRecords StoreResults StoreApply StoreBoundary StoreProofs StoreEffects StoreSound.

Section Lib.
Context `{NormLib, JCSLib, CryptoLib, FlateLib, SQLiteJSON}.
Context `{!DeviceTables, !StoreSchema, !ProjectionStore.Schema}.

(** ** The two branches of [Apply] *)

Definition request_event (request : ApplyRequest) : string :=
  Event.EventID (Event.proposal (Proposal request)).

Lemma apply_inv failpoint store request result store' :
  Apply failpoint store request = inr (result, store') →
  ∃ prior, readConsensusState (tables store) = inr (Some prior) ∧
    validateApplyIdentity request = None ∧
    ((∃ stored, readStoredCommandResult (tables store) (request_event request) = inr (Some stored) ∧
        applyDuplicate store prior stored request = inr (result, store')) ∨
     (readStoredCommandResult (tables store) (request_event request) = inr None ∧
        applyNew failpoint store prior request = inr (result, store'))).
Proof.
  unfold Apply. intros Ha. sum_inv Ha. destruct x as [prior|]; [|done]. sum_inv Ha.
  exists prior. split_and!; [done..|]. destruct x as [stored|]; [left; by exists stored|by right].
Qed.

(** The replicated tables after a duplicate. *)
Lemma duplicate_effect store prior stored request result store' :
  applyDuplicate store prior stored request = inr (result, store') →
  readConsensusState (tables store) = inr (Some prior) →
  Event.canonical (Proposal request) = proposalJSON stored ∧
  result = mkApplyResult (headsFromConsensus prior) (outcome stored) (admissionRevision store) true ∧
  ∃ row apps, consensus (tables store) = Some row ∧
    tables store' = mkTables (Some (watermarked row request)) (genesisRecords (tables store))
      (projections (tables store)) (events (tables store)) (commandResults (tables store))
      (payloads (tables store)) apps (activity (tables store)) (checkpoints (tables store)).
Proof.
  unfold applyDuplicate. intros Ha Hprior. sum_inv Ha. injection Ha as <- <-.
  apply orb_false_iff in Hc0 as [_ Hsame]. bools.
  split_and!; [done..|]. destruct (state_inv _ _ Hprior) as (row & Hrow & _).
  unfold writeRaftCommandApplication in Hx1. sum_inv Hx1.
  assert (Happ : ∃ apps, tables x1 = mkTables (consensus (tables store)) (genesisRecords (tables store))
      (projections (tables store)) (events (tables store)) (commandResults (tables store))
      (payloads (tables store)) apps (activity (tables store)) (checkpoints (tables store))).
  { cbn [tables set_device] in *. destruct (applications (tables store) !! _); sum_inv Hx1;
      injection Hx1 as <-; [|by eexists].
    exists (applications (tables store)). cbn. by destruct (tables store). }
  destruct Happ as [apps Happ]. exists row, apps. split; [done|].
  unfold advanceRaftWatermark, bindUint, putConsensus in Hx2. sum_inv Hx2. rewrite Happ in Hx2.
  cbn [consensus] in Hx2. rewrite Hrow in Hx2. sum_inv Hx2. injection Hx2 as <-.
  repeat match goal with Hx : (if _ then inl _ else _) = inr _ |- _ => apply throw_inr in Hx as [_ Hx] end.
  cbn [tables set_tables]. rewrite Happ. by simplify_eq/=.
Qed.

(** [Apply] on a sound store. *)
Lemma apply_sound failpoint store st request result store' :
  sound (tables store) st → Apply failpoint store request = inr (result, store') →
  ∃ st', sound (tables store') st' ∧
    commandResults (tables store) ⊆ commandResults (tables store') ∧
    payloads (tables store) ⊆ payloads (tables store').
Proof.
  intros Hs (prior & Hprior & Hid & Hbranch)%apply_inv.
  pose proof (snd_state _ _ Hs) as Hst. rewrite Hst in Hprior. injection Hprior as <-.
  destruct Hbranch as [(stored & _ & Hdup)|(_ & Hnew)].
  - destruct (duplicate_effect _ _ _ _ _ _ Hdup Hst) as (_ & _ & row & apps & Hrow & Heq).
    exists (rewatermarked st request). rewrite Heq. split; [|done].
    unfold validateApplyIdentity in Hid. chain_inv Hid. bools.
    eapply sound_duplicate; [exact Hs|done| | |exact Hrow|done]; lia.
  - destruct (new_effect _ _ _ _ _ _ Hnew) as (mutations & resultJSON & mutationJSON & Hpos & Hvalid &
      Hroom & Hchain & Hcomm & _ & _ & Hrec).
    exists (advanced st request (Heads result)). split; [by eapply sound_new|].
    destruct (recorded_extends _ _ _ _ _ _ _ _ Hroom Hchain Hcomm Hrec) as [_ Hr Hp _ _]. done.
Qed.

(** ** [Initialize] *)

(** A digester that has not closed. *)
Lemma skip_open k d d' :
  Chain.skipTables k d = Some d' → Chain.dDigest d' = Chain.dDigest d.
Proof.
  revert d. induction k as [|k IH]; intros d; cbn [Chain.skipTables]; [by intros [= ->]|].
  intros (closed & Hclosed & ->%IH)%bind_Some.
  unfold Chain.finishTable in Hclosed. unfold Chain.startTable, Chain.advanceTable.
  repeat case_match; by simplify_eq.
Qed.

Lemma append_all_open rows d d' : Chain.dDigest d = None →
  Chain.appendAll d rows = inr d' → Chain.dDigest d' = None.
Proof.
  revert d. induction rows as [|row rows IH]; intros d Hd; cbn [Chain.appendAll]; [by intros [= <-]|].
  destruct (Chain.Append d row) as [|d1] eqn:Ha; [done|]. apply IH. revert Ha.
  unfold Chain.Append. repeat case_match; intros Ha; simplify_eq; cbn.
  rewrite <-Hd. by eapply skip_open.
Qed.

Lemma state_digest_sized db versions d :
  ProjectionStream.projectionStateDigest db versions = inr d → digestColumn d = true.
Proof.
  unfold ProjectionStream.projectionStateDigest. intros Hd. sum_inv Hd.
  apply StreamProofs.stream_iff in Hx1 as (rows & _ & Hv).
  rewrite StoredDigest.visits_append, StoredDigest.chain_result_inr in Hv.
  apply StoredDigest.chain_result_inr in Hx0, Hd.
  assert (Hopen : Chain.dDigest x0 = None).
  { unfold Chain.NewStateDigester, Chain.startTable in Hx0. repeat case_match; by simplify_eq. }
  apply (append_all_open _ _ _ Hopen) in Hv. unfold Chain.Sum in Hd. rewrite Hv in Hd.
  destruct (Chain.finishTables _ _); [|done]. injection Hd as <-.
  unfold digestColumn, llen. by rewrite Sum256_length.
Qed.

Lemma write_genesis_effect store generation row store' :
  writeGenesis store generation row = inr store' →
  tables store' = mkTables (consensus (tables store))
    (<[generation := row]> (genesisRecords (tables store))) (projections (tables store))
    (events (tables store)) (commandResults (tables store)) (payloads (tables store))
    (applications (tables store)) (activity (tables store)) (checkpoints (tables store)).
Proof. unfold writeGenesis. intros Hw. sum_inv Hw. by injection Hw as <-. Qed.

Lemma initial_rows_effect rows store store' :
  writeInitialRows store rows = inr store' → tables store' = tables store.
Proof.
  revert store. induction rows as [|row rows IH]; intros store; cbn [writeInitialRows].
  - by intros [= ->].
  - destruct (tableIndex _); [|done]. intros Hw. sum_inv Hw. by apply IH in Hw.
Qed.

Lemma retained_effect store rows versions expected store' :
  writeInitialProjectionBoundary store rows versions expected = inr store' →
  tables store' = tables store.
Proof.
  unfold writeInitialProjectionBoundary. intros Hw. sum_inv Hw.
  apply initial_rows_effect in Hx. by injection Hw as <-.
Qed.

(** What a successful [Initialize] leaves. *)
Record initialized (store store' : Store) (initial : InitialState) (heads : ApplyHeads) : Prop := {
  ini_valid : InitialState_validate initial = None;
  ini_digests : ∃ genesis digest,
    Chain.GenesisDigest (GenesisJSON initial) = inr genesis ∧
    ProjectionStream.projectionStateDigest (projections (tables store')) (initialVersions initial) =
      inr digest ∧
    Chain.EventSeed (zeroBoundary genesis) = inr (ChainHash heads) ∧
    Chain.ResultSeed (zeroBoundary genesis) = inr (ResultHash heads) ∧
    ProjectionAccumulator heads = Chain.AccumulatorSeedInitial genesis digest ∧
    genesisRecords (tables store') !! 0%N =
      Some (mkGenesisRow (ISessionID initial) (IWorkspaceID initial) (GenesisJSON initial) genesis
              digest None None None None None);
  ini_indexes : ChainIndex heads = 0%N ∧ ResultIndex heads = 0%N ∧
    DigestVersion heads = IDigestVersion initial ∧
    ProjectionSchemaVersion heads = IProjectionSchemaVersion initial;
  ini_consensus : consensus (tables store') =
    Some (mkConsensusRow (ISessionID initial) 0 None None 0 (ChainHash heads) 0 (ResultHash heads)
            (ProjectionAccumulator heads) (Z.of_N (IDigestVersion initial))
            (Z.of_N (IProjectionSchemaVersion initial)));
  ini_results : commandResults (tables store') = commandResults (tables store) }.

Lemma initialize_effect store initial heads store' :
  Initialize store initial = inr (heads, store') → initialized store store' initial heads.
Proof.
  unfold Initialize, projection_result, chain_result, writeBoundaryConsensusState, putConsensus, bindUint.
  intros Hi. sum_inv Hi. injection Hi as <- <-.
  repeat match goal with Hx : match ?r with inl _ => inl _ | inr value => inr value end = inr _ |- _ =>
    let Hr := fresh "Hr" in destruct r eqn:Hr; [done|]; injection Hx as -> end.
  sum_inv Hx10.
  repeat match goal with Hx : (if _ then inl _ else _) = inr _ |- _ => apply throw_inr in Hx as [_ Hx] end.
  simplify_eq.
  match goal with Hx : writeInitialProjectionBoundary _ _ _ _ = inr _ |- _ => apply retained_effect in Hx as Hret end.
  match goal with Hx : writeGenesis _ _ _ = inr _ |- _ => apply write_genesis_effect in Hx as Hgen end.
  rewrite Hret in Hgen. cbn in Hgen.
  constructor; cbn [tables set_device set_tables commandResults consensus genesisRecords projections
    ChainIndex ResultIndex ChainHash ResultHash ProjectionAccumulator DigestVersion
    ProjectionSchemaVersion]; rewrite ?Hgen; cbn [commandResults consensus genesisRecords projections].
  - done.
  - eexists _, _. split_and!; [done..|reflexivity|]. by rewrite lookup_insert_eq.
  - done.
  - done.
  - done.
Qed.

(** The boundary of a store that [Initialize] left is the one it reports. *)
Lemma initialized_state store store' initial heads : initialized store store' initial heads →
  readConsensusState (tables store') = inr (Some (mkConsensusState (ISessionID initial) 0 0 0 0
    (ChainHash heads) 0 (ResultHash heads) (ProjectionAccumulator heads) (IDigestVersion initial)
    (IProjectionSchemaVersion initial))).
Proof.
  intros [Hvalid (genesis & digest & _ & _ & Hes & Hrs & Hacc & _) _ Hcons _].
  unfold readConsensusState. rewrite Hcons. unfold InitialState_validate in Hvalid. chain_inv Hvalid.
  bools. unfold Chain.EventSeed, Chain.ResultSeed, Chain.boundarySeed in Hes, Hrs.
  destruct (Chain.validateBoundary _); [done|]. injection Hes as Hes. injection Hrs as Hrs.
  unfold consensusRowOk. cbn [sSessionID sRecoveryGeneration sCurrentTerm sLastApplied sChainIndex
    sChainHash sResultIndex sResultHash sAccumulator sDigestVersion sSchemaVersion positiveColumn].
  assert (Hsized : digestColumn (ChainHash heads) = true ∧ digestColumn (ResultHash heads) = true ∧
    digestColumn (ProjectionAccumulator heads) = true).
  { rewrite <-Hes, <-Hrs, Hacc. split_and!; apply digest_sized. }
  destruct Hsized as (-> & -> & ->). destruct Hc as [Hc Hw]. rewrite Hc.
  rewrite !(proj2 (Z.ltb_ge _ _)) by lia. cbn [andb orb negb].
  unfold stateOf. cbn [sSessionID sRecoveryGeneration sCurrentTerm sLastApplied sChainIndex
    sChainHash sResultIndex sResultHash sAccumulator sDigestVersion sSchemaVersion nullableUint
    recoveryGeneration chainIndex resultIndex digestVersion projectionSchemaVersion].
  rewrite !N2Z.id. cbn [Z.to_N]. destruct Hc0 as [[[_ _] Hd] Hp]. by rewrite Hd, Hp.
Qed.

Lemma initialize_sound store initial heads store' :
  commandResults (tables store) = ∅ → Initialize store initial = inr (heads, store') →
  ∃ st, sound (tables store') st.
Proof.
  intros Hempty Hi%initialize_effect. pose proof (initialized_state _ _ _ _ Hi) as Hstate.
  destruct Hi as [Hvalid (genesis & digest & Hgd & Hdigest & Hes & Hrs & Hacc & Hgen) _ Hcons Hr].
  rewrite Hempty in Hr. eexists. constructor; rewrite ?Hr; try (by intros *; rewrite lookup_empty).
  - exact Hstate.
  - exists (mkGenesisBoundary (GenesisJSON initial) genesis digest 0 Chain.zero_digest 0
      Chain.zero_digest Chain.zero_digest false), (ChainHash heads), (ResultHash heads).
    cbn [recoveryGeneration sessionID predecessorResultIndex predecessorChainIndex].
    split_and!; [|by left..].
    intros stored Hsg Hss. unfold storedBoundarySeeds, readGenesisBoundary, genesisBoundaryOf. rewrite Hsg, Hss, Hgen.
    cbn [gSessionID gGenesisDigest gStateDigest gChainIndex gChainHash gResultIndex gResultHash
      gAccumulator gGenesisJSON].
    rewrite bool_decide_true by done. cbn [negb].
    assert (Hsized : digestColumn genesis = true).
    { unfold Chain.GenesisDigest in Hgd. destruct (Chain.validateCanonicalObject _); [done|].
      injection Hgd as <-. apply digest_sized. }
    rewrite Hsized, (state_digest_sized _ _ _ Hdigest). cbn [negb orb and_then genesisJSON].
    cbn [hasPredecessor]. change (0 <? 0)%N with false. cbn [Bool.eqb negb and_then genesisJSON].
    rewrite Hgd. cbn [genesisDigest predecessorChainIndex predecessorResultIndex predecessorChainHash
      predecessorResultHash]. rewrite bool_decide_true by done. cbn [negb].
    unfold zeroBoundary in Hes, Hrs. by rewrite Hes, Hrs.
Qed.

(** ** Runs *)

(** Applies, and steps that leave the replicated tables alone. *)
Inductive runs : Store → Store → Prop :=
  | runs_refl store : runs store store
  | runs_apply store middle failpoint request result store' :
      runs store middle → Apply failpoint middle request = inr (result, store') → runs store store'
  | runs_local store middle store' :
      runs store middle → tables store' = tables middle → runs store store'.

Lemma runs_sound store store' st : sound (tables store) st → runs store store' →
  ∃ st', sound (tables store') st' ∧
    commandResults (tables store) ⊆ commandResults (tables store') ∧
    payloads (tables store) ⊆ payloads (tables store').
Proof.
  intros Hs. induction 1 as [|store middle failpoint request result store' _ IH Ha|store middle store' _ IH Heq].
  - by exists st.
  - destruct (IH Hs) as (st1 & Hs1 & Hr1 & Hp1).
    destruct (apply_sound _ _ _ _ _ _ Hs1 Ha) as (st2 & Hs2 & Hr2 & Hp2).
    exists st2. split_and!; [done|by etrans..].
  - rewrite Heq. by apply IH.
Qed.

(** ** Lookups on a sound store *)

Lemma lookup_heads t st e row stored : sound t st → commandResults t !! e = Some row →
  readStoredCommandResult t e = inr (Some stored) →
  validateLookupHeads st stored (headsFromConsensus st) = None.
Proof.
  intros Hs He Hr. destruct (read_stored_row _ _ _ Hr) as (row' & payload & He' & _ & _ & _ & ->).
  simplify_eq. destruct (snd_below _ _ Hs _ _ He) as [Hb Hbc].
  destruct (state_inv _ _ (snd_state _ _ Hs)) as (crow & _ & Hst & Hok & Hg & Hri & Hdv & Hpv & Hle).
  unfold validateLookupHeads. cbn [storedOf storedResultIndex storedChainIndex].
  assert (Hsession : Domain.UUIDv7_Valid (sessionID st) = true).
  { unfold consensusRowOk in Hok. bools. rewrite Hst. apply Hok. }
  assert (Hversions : (1 ≤ digestVersion st)%N ∧ (1 ≤ projectionSchemaVersion st)%N).
  { unfold consensusRowOk in Hok. rewrite Hst. unfold stateOf.
    cbn [digestVersion projectionSchemaVersion]. bools. lia. }
  rewrite Hsession. unfold Domain.ValidUnsignedInteger. rewrite (proj2 (N.leb_le _ _) Hg).
  rewrite (proj2 (N.ltb_ge _ _) Hle), (proj2 (N.ltb_ge _ _)) by lia. cbn [negb orb].
  replace (match Z.to_N <$> rChainIndex row with
    | Some index => (chainIndex st <? index)%N | None => false end) with false.
  2:{ destruct (rChainIndex row) as [i|]; [|done]. specialize (Hbc _ eq_refl). cbn.
      symmetry. apply N.ltb_ge. lia. }
  unfold ApplyHeads_validate, headsFromConsensus. cbn [scan_entries ChainIndex ResultIndex
    DigestVersion ProjectionSchemaVersion]. unfold Domain.ValidUnsignedInteger.
  rewrite !(proj2 (N.leb_le _ _)) by lia. rewrite !(proj2 (N.ltb_ge _ _)) by lia. done.
Qed.

(** The stored result of a row is found and verified. *)
Lemma lookup_sound t st e row : sound t st → commandResults t !! e = Some row →
  ∃ stored, readStoredCommandResult t e = inr (Some stored) ∧
    verifyStoredCommandResult t stored = inr tt ∧
    LookupCommandResult t e =
      inr (Some (cloneCommandResultLookup stored (headsFromConsensus st))).
Proof.
  intros Hs He. destruct (snd_verified _ _ Hs _ _ He) as (stored & Hr & Hv).
  exists stored. split_and!; [done..|]. unfold LookupCommandResult.
  rewrite (snd_keys _ _ Hs _ _ He), Hr. cbn [negb and_then].
  rewrite Hv, (snd_state _ _ Hs). cbn [and_then]. by rewrite (lookup_heads _ _ _ _ _ Hs He Hr).
Qed.

End Lib.

End StoreRuns.

(** ** The store keeps what the log committed

    [Module StoreTheorems]: on every run from an initialized store, each stored
    result is found and verifies; a command takes effect once; and the stored
    form of a result's payload is read back. *)

Module StoreTheorems.

Import StoreRecords StoreResults StoreApply StoreBoundary StoreProofs StoreEffects StoreSound StoreRuns
  PayloadProofs.

Section Lib.
Context `{NormLib, JCSLib, CryptoLib, FlateLib, SQLiteJSON}.
Context `{!DeviceTables, !StoreSchema, !ProjectionStore.Schema}.

(** A new command is read back as it was applied. *)
Lemma new_lookup failpoint store st request result applied :
  sound (tables store) st → Apply failpoint store request = inr (result, applied) →
  Duplicate result = false →
  ∃ row stored, commandResults (tables applied) !! request_event request = Some row ∧
    readStoredCommandResult (tables applied) (request_event request) = inr (Some stored) ∧
    proposalJSON stored = Event.canonical (Proposal request) ∧ outcome stored = Outcome request ∧
    Tuple (cloneCommandResultLookup stored (Heads result)) =
      mkTuple (ResultIndex (Heads result)) (PreviousResultHash (Heads result))
        (ResultHash (Heads result))
        (if acceptedRequest request then Some (ChainIndex (Heads result)) else None)
        (if acceptedRequest request then Some (ChainHash (Heads result)) else None).
Proof.
  intros Hs (prior & Hprior & _ & Hbranch)%apply_inv Hfirst.
  pose proof (snd_state _ _ Hs) as Hst. rewrite Hst in Hprior. injection Hprior as <-.
  destruct Hbranch as [(stored & _ & Hdup)|(_ & Hnew)].
  { by destruct (duplicate_effect _ _ _ _ _ _ Hdup Hst) as (_ & -> & _). }
  destruct (new_effect _ _ _ _ _ _ Hnew) as (mutations & resultJSON & mutationJSON & Hpos & Hvalid &
    Hroom & Hchain & Hcomm & _ & _ & Hrec).
  destruct (new_read _ _ _ _ _ _ _ _ Hs Hpos Hvalid Hroom Hchain Hcomm Hrec)
    as (row & payload & Hrow & Hfields & -> & Hread).
  eexists row, _. split_and!; [done|done|done|by eapply outcome_of|].
  unfold cloneCommandResultLookup, storedOf. cbn [Tuple storedResultIndex previousResultHash
    storedResultHash storedChainIndex storedChainHash].
  destruct Hfields as (_ & _ & _ & _ & _ & _ & -> & -> & -> & -> & ->). rewrite N2Z.id.
  destruct (acceptedRequest request); cbn; by rewrite ?N2Z.id.
Qed.

(** C13: [stored_results_verify]. From [Store.Initialize] on a store without
    results, through any applies and any changes of this device's own tables,
    a lookup of a command's event never reports corruption: an event without a
    result has none, and a result that is there is decompressed, is bound to its
    proposal by digest, links to its predecessors in both hash chains, and lies
    within the current heads. *)
Theorem stored_results_verify fresh initial heads opened store event :
  commandResults (tables fresh) = ∅ → Initialize fresh initial = inr (heads, opened) →
  runs opened store → Domain.UUIDv7_Valid event = true →
  match commandResults (tables store) !! event with
  | None => LookupCommandResult (tables store) event = inr None
  | Some row =>
      ∃ stored state, readConsensusState (tables store) = inr (Some state) ∧
        readStoredCommandResult (tables store) event = inr (Some stored) ∧
        storedDigest stored = Sum256 (proposalJSON stored) ∧
        verifyStoredCommandResult (tables store) stored = inr tt ∧
        LookupCommandResult (tables store) event =
          inr (Some (cloneCommandResultLookup stored (headsFromConsensus state)))
  end.
Proof.
  intros Hempty Hi Hruns Hvalid. destruct (initialize_sound _ _ _ _ Hempty Hi) as [st0 Hs0].
  destruct (runs_sound _ _ _ Hs0 Hruns) as (st & Hs & _).
  destruct (commandResults (tables store) !! event) as [row|] eqn:Hrow.
  - destruct (lookup_sound _ _ _ _ Hs Hrow) as (stored & Hr & Hv & Hl).
    exists stored, st. split_and!; try done; [apply Hs|].
    unfold verifyStoredCommandResult in Hv. apply throw_inr in Hv as [Hd _].
    symmetry. by bools.
  - unfold LookupCommandResult, readStoredCommandResult. by rewrite Hvalid, Hrow.
Qed.

(** C14: [exactly_once]. On a store that began with [Store.Initialize], a command
    whose event had no result takes effect once: from then on, after any
    further applies, its lookup returns the proposal, the outcome and the
    positions it was applied with; and an apply of the same event, whatever
    outcome and writes that request carries, succeeds only for the same proposal
    bytes, is reported as a duplicate with the first outcome, and leaves
    projections, events, results, payloads, activity and checkpoints as they
    were. *)
Theorem exactly_once fresh initial heads opened store failpoint request result applied later :
  commandResults (tables fresh) = ∅ → Initialize fresh initial = inr (heads, opened) →
  runs opened store → Apply failpoint store request = inr (result, applied) →
  Duplicate result = false → runs applied later →
  (∃ lookup, LookupCommandResult (tables later) (request_event request) = inr (Some lookup) ∧
     CanonicalProposal lookup = Event.canonical (Proposal request) ∧
     LOutcome lookup = Outcome request ∧
     Tuple lookup =
       mkTuple (ResultIndex (Heads result)) (PreviousResultHash (Heads result))
         (ResultHash (Heads result))
         (if acceptedRequest request then Some (ChainIndex (Heads result)) else None)
         (if acceptedRequest request then Some (ChainHash (Heads result)) else None)) ∧
  ∀ failpoint' again result' final, request_event again = request_event request →
    Apply failpoint' later again = inr (result', final) →
    Duplicate result' = true ∧ ResultOutcome result' = Outcome request ∧
    Event.canonical (Proposal again) = Event.canonical (Proposal request) ∧
    evidence (tables final) = evidence (tables later) ∧
    projections (tables final) = projections (tables later) ∧
    activity (tables final) = activity (tables later) ∧
    checkpoints (tables final) = checkpoints (tables later).
Proof.
  intros Hempty Hi Hruns Ha Hfirst Hlater. destruct (initialize_sound _ _ _ _ Hempty Hi) as [st0 Hs0].
  destruct (runs_sound _ _ _ Hs0 Hruns) as (st & Hs & _).
  destruct (new_lookup _ _ _ _ _ _ Hs Ha Hfirst) as (row & stored & Hrow & Hread & Hp & Ho & Ht).
  destruct (apply_sound _ _ _ _ _ _ Hs Ha) as (st1 & Hs1 & _).
  destruct (runs_sound _ _ _ Hs1 Hlater) as (st2 & Hs2 & Hsub & Hpay).
  pose proof (read_stored_extends _ _ _ _ Hsub Hpay Hread) as Hread2.
  split.
  - destruct (lookup_sound _ _ _ _ Hs2 (lookup_weaken _ _ _ _ Hrow Hsub)) as (stored' & Hr & _ & Hl).
    rewrite Hr in Hread2. injection Hread2 as ->. eexists. split; [exact Hl|].
    split_and!; [exact Hp|exact Ho|exact Ht].
  - intros failpoint' again result' final Hevent (prior & Hprior & _ & Hbranch)%apply_inv.
    rewrite Hevent, Hread2 in Hbranch. destruct Hbranch as [(stored' & Heq & Hdup)|[Heq _]]; [|done].
    injection Heq as <-. destruct (duplicate_effect _ _ _ _ _ _ Hdup Hprior)
      as (Hcanonical & -> & crow & apps & _ & ->).
    split_and!; try done; by rewrite Hcanonical.
Qed.

(** C23: [payload_roundtrip]. What [encodeCommandResultPayload] stores for a
    proposal, an outcome and its mutations - the framed, compressed and
    checksummed bytes - [decodeCommandResultPayload] reads back as the same
    three texts, within the size limits of the columns. *)
Theorem payload_roundtrip payload stored :
  CommandPayload.encodeCommandResultPayload payload = inr stored →
  CommandPayload.decodeCommandResultPayload stored = inr payload ∧
  (CommandPayload.uncompressedSize stored =
     20 + llen (CommandPayload.proposal payload) + llen (CommandPayload.outcome payload) +
     llen (CommandPayload.mutations payload))%N ∧
  (CommandPayload.uncompressedSize stored ≤ CommandPayload.maxCommandResultPayloadBytes)%N ∧
  (llen (CommandPayload.compressed stored) ≤ CommandPayload.maxCommandResultCompressedBytes)%N.
Proof.
  intros He. split; [by apply encoded_payload_decodes|].
  unfold CommandPayload.encodeCommandResultPayload in He. sum_inv He. injection He as <-.
  cbn [CommandPayload.uncompressedSize CommandPayload.compressed].
  pose proof (frame_length payload) as Hlen. unfold CommandPayload.commandResultPayloadHeaderBytes in *.
  bools. split_and!; lia.
Qed.

End Lib.

End StoreTheorems.

(** ** A concrete store

    [Module StoreWitnesses]: a store that is initialized, applies an accepted
    and a rejected command and sees the first again, and the theorems on the
    store at it. *)

Module StoreWitnesses.

Import StoreRecords StoreResults StoreApply StoreBoundary StoreRuns StoreTheorems.

#[local] Existing Instances Fixtures.norm ChainTheorems.printer ChainTheorems.checksums
  ProjectionWitnesses.sqlite_json ProjectionWitnesses.schema.

(** A coder that copies, and a device without tables of its own. *)
#[local] Instance copies : FlateLib :=
  {| flate_write frame := frame; flate_read bytes := Some (bytes, []); flate_written _ := eq_refl |}.

#[local] Instance no_device : DeviceTables :=
  {| DeviceState := unit;
     ensureRaftEvidenceMode _ _ := None;
     ensurePendingControlFileApprovals _ _ _ _ := inr tt;
     writeCheckpointCadenceBoundary _ _ _ _ _ := inr tt;
     writeCheckpointCadenceCheckpoint _ _ _ := inr tt;
     clearAgentSession _ _ := inr tt;
     compactLocalProposal _ _ _ _ _ _ _ _ := inr tt |}.

#[local] Instance no_clauses : StoreSchema := {| admits _ _ := true |}.

Definition no_failpoint (stage : applyStage) : option Error := None.

Definition empty_store : Store :=
  mkStore (mkTables None ∅ ∅ ∅ ∅ ∅ ∅ ∅ ∅) ∅ [] ∅ tt (mkInitialTables None ∅) 0.

Definition genesis_json : list N :=
  Fixtures.print (JObject [("recovery_generation", JNumber 0);
    ("session_id", JString Fixtures.session_id); ("workspace_id", JString Fixtures.workspace_id)]).

Definition initial : InitialState :=
  mkInitialState Fixtures.session_id Fixtures.workspace_id genesis_json
    (ProjectionWitnesses.writes 1 1) 1 4.

Definition outcome_json (status code : string) : CommandOutcome :=
  mkCommandOutcome (OutcomeStatus_of status) code
    (Fixtures.print (JObject [("code", JString code); ("status", JString status)])).

Definition second_event : string := "0190a0a0-0000-7000-8000-000000000077".

Definition command (event : string) (sequence : N) : Event.SignedEvent :=
  let p := Fixtures.proposal (Fixtures.human_origin sequence) Event.KindTaskCreated
             Fixtures.task_id None "{}" in
  let p' := Event.mkProposal 1 1 event Fixtures.session_id Fixtures.workspace_id (Event.POrigin p)
              Fixtures.now Event.KindTaskCreated (Event.PEntityID p) None EmptyString
              (Event.PCaptureLevel p) (Some []) (Event.Payload p) (Event.PRedaction p) in
  Fixtures.signed p' "human" "command" (JObject []).

Definition request (signed : Event.SignedEvent) (logIndex : N) (outcome : CommandOutcome)
    (writes : Projections.ProjectionWrites) : ApplyRequest :=
  mkApplyRequest 1 logIndex Fixtures.now 0 signed outcome writes false EmptyString [] None [] [].

Definition first_request : ApplyRequest :=
  request (command Fixtures.event_id 4) 2 (outcome_json "accepted" "accepted")
    (ProjectionWitnesses.writes 2 2).
Definition second_request : ApplyRequest :=
  request (command second_event 5) 3 (outcome_json "rejected" "stale_version")
    (ProjectionWitnesses.writes 3 3).
Definition again_request : ApplyRequest :=
  request (command Fixtures.event_id 4) 4 (outcome_json "rejected" "stale_version")
    (ProjectionWitnesses.writes 9 9).

(** The stores, one after the other. *)
Definition run_ok : bool :=
  match Initialize empty_store initial with
  | inl _ => false
  | inr (_, opened) =>
      match Apply no_failpoint opened first_request with
      | inl _ => false
      | inr (result, applied) =>
          match Apply no_failpoint applied second_request with
          | inl _ => false
          | inr (rejected, later) =>
              match Apply no_failpoint later again_request with
              | inl _ => false
              | inr (again, _) =>
                  negb (Duplicate result) && negb (Duplicate rejected) && Duplicate again &&
                  bool_decide (is_Some (commandResults (tables later) !! Fixtures.event_id))
              end
          end
      end
  end.

Lemma run_accepted : run_ok = true.
Proof. vm_compute. done. Qed.

Lemma run_facts : ∃ heads opened result applied rejected later again final row,
  Initialize empty_store initial = inr (heads, opened) ∧
  Apply no_failpoint opened first_request = inr (result, applied) ∧ Duplicate result = false ∧
  Apply no_failpoint applied second_request = inr (rejected, later) ∧
  Apply no_failpoint later again_request = inr (again, final) ∧
  commandResults (tables later) !! Fixtures.event_id = Some row.
Proof.
  pose proof run_accepted as Hok. unfold run_ok in Hok.
  destruct (Initialize empty_store initial) as [|[heads opened]]; [done|].
  destruct (Apply no_failpoint opened first_request) as [|[result applied]] eqn:H1; [done|].
  destruct (Apply no_failpoint applied second_request) as [|[rejected later]] eqn:H2; [done|].
  destruct (Apply no_failpoint later again_request) as [|[again final]] eqn:H3; [done|].
  rewrite !andb_true_iff in Hok. destruct Hok as [[[Hr _] _] [row Hrow]%bool_decide_eq_true].
  apply negb_true_iff in Hr.
  exists heads, opened, result, applied, rejected, later, again, final, row. by split_and!.
Qed.

(** The result of the first command after the second. *)
Lemma stored_results_verify_witness : ∃ heads opened later,
  (commandResults (tables empty_store) = ∅ ∧ Initialize empty_store initial = inr (heads, opened) ∧
   runs opened later ∧ Domain.UUIDv7_Valid Fixtures.event_id = true) ∧
  ∃ stored, verifyStoredCommandResult (tables later) stored = inr tt.
Proof.
  destruct run_facts as (heads & opened & result & applied & rejected & later & again & final & row &
    Hi & H1 & Hfirst & H2 & H3 & Hrow).
  assert (Hruns : runs opened later).
  { eapply runs_apply; [eapply runs_apply; [apply runs_refl|exact H1]|exact H2]. }
  assert (Hvalid : Domain.UUIDv7_Valid Fixtures.event_id = true) by (vm_compute; reflexivity).
  exists heads, opened, later. split; [exact (conj eq_refl (conj Hi (conj Hruns Hvalid)))|].
  pose proof (stored_results_verify empty_store initial heads opened later Fixtures.event_id
                eq_refl Hi Hruns Hvalid) as Hv.
  rewrite Hrow in Hv. destruct Hv as (stored & state & _ & _ & _ & Hv & _). by exists stored.
Defined.

(** The first command again, after the second, with another outcome. *)
Lemma exactly_once_witness : ∃ heads opened result applied later again final,
  (Initialize empty_store initial = inr (heads, opened) ∧
   Apply no_failpoint opened first_request = inr (result, applied) ∧ Duplicate result = false ∧
   runs applied later ∧ Apply no_failpoint later again_request = inr (again, final)) ∧
  Duplicate again = true ∧ ResultOutcome again = outcome_json "accepted" "accepted".
Proof.
  destruct run_facts as (heads & opened & result & applied & rejected & later & again & final & row &
    Hi & H1 & Hfirst & H2 & H3 & Hrow).
  assert (Hruns : runs applied later) by (eapply runs_apply; [apply runs_refl|exact H2]).
  exists heads, opened, result, applied, later, again, final.
  split; [exact (conj Hi (conj H1 (conj Hfirst (conj Hruns H3))))|].
  destruct (exactly_once empty_store initial heads opened opened no_failpoint first_request result
              applied later eq_refl Hi (runs_refl opened) H1 Hfirst Hruns) as [_ Honce].
  destruct (Honce no_failpoint again_request again final eq_refl H3) as (Hd & Ho & _).
  exact (conj Hd Ho).
Defined.

(** A payload with two members and no mutation. *)
Definition some_payload : CommandPayload.commandResultPayload :=
  CommandPayload.mkPayload (Event.canonical (command Fixtures.event_id 4))
    (OutcomeJSON (outcome_json "accepted" "accepted")) (bytes_of "[]").

Lemma payload_encodes :
  match CommandPayload.encodeCommandResultPayload some_payload with inr _ => true | inl _ => false end
  = true.
Proof. vm_compute. done. Qed.

Lemma payload_roundtrip_witness : ∃ stored,
  CommandPayload.encodeCommandResultPayload some_payload = inr stored ∧
  CommandPayload.decodeCommandResultPayload stored = inr some_payload.
Proof.
  pose proof payload_encodes as Hok.
  destruct (CommandPayload.encodeCommandResultPayload some_payload) as [|stored] eqn:He; [done|].
  exists stored. split; [done|]. exact (proj1 (payload_roundtrip some_payload stored He)).
Defined.

End StoreWitnesses.
