(* ===== verification/CanonicalCoverage.v ===== *)
(** * Package internal/canonicalcoverage, and encoding/json into a structure

    [Module GoStruct]: what [json.Unmarshal] and [Decoder.Decode] do with a
    structure of tagged fields: a member goes to the field of its name, without
    regard to case; null leaves a scalar and clears a pointer; a later member of
    the same field overwrites; a mismatch of types is an error. The texts decoded
    here have been through the codec, whose limits on nesting and integers are
    below the decoder's. [Module Signing] and [Module Coverage]: the receipts of
    the voters that hold the canonical commit, and their gate. *)

From stdpp Require Import base gmap strings list.
From Stdlib Require Import ZArith NArith Lia.
From S2P Require Import Prelude.
From S2P Require Import GoLib.
From S2P Require Import GoJson.
From S2P Require Import CodecLayer.
From S2P Require Import GoMarshal.
From S2P Require Import DomainValues.
From S2P Require Import VoterSetEntity.
From S2P Require Import DeviceEntity.
From S2P Require Import PublicationEntity.
From S2P Require Import Fixtures.
From S2P Require Import PublicationProofs.
From S2P Require Import StoreRecords.

Module GoStruct.

(** The fields: [string], [*string], [uint64], [int64], [bool],
    [json.RawMessage], [*json.RawMessage]. *)
Inductive kind := KString | KOptional | KUint | KInt | KBool | KRaw | KOptionalRaw.

Inductive wire :=
  | WText (text : string) | WUint (n : N) | WInt (z : Z) | WBool (b : bool) | WRaw (raw : list N).

(** ** Names *)

(** The fold of a name: ASCII letters, and the two characters outside ASCII that
    fold to one, U+017F to s and U+212A to k. *)
Fixpoint fold (l : list N) : list N :=
  match l with
  | [] => []
  | b0 :: rest =>
      match b0, rest with
      | 197%N, 191%N :: r => 115%N :: fold r
      | 226%N, 132%N :: 170%N :: r => 107%N :: fold r
      | _, _ => (if in_range 65 90 b0 then b0 + 32 else b0)%N :: fold rest
      end
  end.

Definition folds_to (name key : string) : bool :=
  bool_decide (fold (bytes_of key) = fold (bytes_of name)).

Definition field_of (fields : list (string * kind)) (key : string) : option (string * kind) :=
  snd <$> list_find (λ field, Is_true (folds_to field.1 key)) fields.

(** ** Values *)

(** [strconv.ParseInt(token, 10, 64)]. *)
Definition ParseInt (token : list N) : option Z :=
  match token with
  | 45%N :: digits =>
      n ← JSON.ParseUint digits;
      if (n <=? 2 ^ 63)%N then Some (- Z.of_N n)%Z else None
  | _ =>
      n ← JSON.ParseUint token;
      if (n <? 2 ^ 63)%N then Some (Z.of_N n) else None
  end.

(** The field after a member's value; [None] is an error. *)
Definition store_value (k : kind) (raw : list N) (v : JSON.value) (prior : option wire)
    : option (option wire) :=
  match k, v with
  | KRaw, _ => Some (Some (WRaw raw))
  | (KOptional | KOptionalRaw), JSON.VNull => Some None
  | _, JSON.VNull => Some prior
  | KOptionalRaw, _ => Some (Some (WRaw raw))
  | (KString | KOptional), JSON.VString text => Some (Some (WText text))
  | KUint, JSON.VNumber token => Some ∘ WUint <$> JSON.ParseUint token
  | KInt, JSON.VNumber token => Some ∘ WInt <$> ParseInt token
  | KBool, JSON.VBool b => Some (Some (WBool b))
  | _, _ => None
  end.

Definition put (name : string) (value : option wire) (wires : gmap string wire) : gmap string wire :=
  match value with Some w => <[name := w]> wires | None => delete name wires end.

(** One member; [strict] is [DisallowUnknownFields]. *)
Definition decodeMember (strict : bool) (fields : list (string * kind))
    (wires : gmap string wire) (member : string * list N) : option (gmap string wire) :=
  match field_of fields member.1 with
  | None => if strict then None else Some wires
  | Some (name, k) =>
      v ← JSON.whole (JSON.read_value member.2);
      value ← store_value k member.2 v (wires !! name);
      Some (put name value wires)
  end.

Fixpoint decodeMembers (strict : bool) (fields : list (string * kind))
    (members : list (string * list N)) (wires : gmap string wire) : option (gmap string wire) :=
  match members with
  | [] => Some wires
  | member :: rest =>
      wires ← decodeMember strict fields wires member;
      decodeMembers strict fields rest wires
  end.

Definition unmarshal (strict : bool) (fields : list (string * kind)) (raw : list N)
    : option (gmap string wire) :=
  match JSON.whole (JSON.read_value raw) with
  | Some JSON.VNull => Some ∅
  | Some (JSON.VObject _) => members ← JSON.raw_object raw; decodeMembers strict fields members ∅
  | _ => None
  end.

(** ** The fields of a decoded structure *)

Definition text (wires : gmap string wire) (name : string) : string :=
  match wires !! name with Some (WText t) => t | _ => EmptyString end.
Definition optional (wires : gmap string wire) (name : string) : option string :=
  match wires !! name with Some (WText t) => Some t | _ => None end.
Definition uint (wires : gmap string wire) (name : string) : N :=
  match wires !! name with Some (WUint n) => n | _ => 0%N end.
Definition int (wires : gmap string wire) (name : string) : Z :=
  match wires !! name with Some (WInt z) => z | _ => 0%Z end.
Definition bool_ (wires : gmap string wire) (name : string) : bool :=
  match wires !! name with Some (WBool b) => b | _ => false end.
Definition raw (wires : gmap string wire) (name : string) : list N :=
  match wires !! name with Some (WRaw r) => r | _ => [] end.
Definition optional_raw (wires : gmap string wire) (name : string) : option (list N) :=
  match wires !! name with Some (WRaw r) => Some r | _ => None end.

(** ** Enumerations: a text type whose known values have a constructor *)

Definition named {T} (text_of : T → string) (values : list T) (unknown : string → T)
    (text : string) : T :=
  default (unknown text) (snd <$> list_find (λ v, text_of v = text) values).

Lemma named_text {T} (text_of : T → string) values unknown v :
  v ∈ values → NoDup (text_of <$> values) → named text_of values unknown (text_of v) = v.
Proof.
  intros Hin Hnd. unfold named. destruct (list_find _ values) as [[i w]|] eqn:Hf; simpl.
  - apply list_find_Some in Hf as (Hi & Heq & _). apply list_elem_of_lookup in Hin as [j Hj].
    assert (i = j) as <-; [|congruence].
    apply (NoDup_lookup _ _ _ (text_of v) Hnd); rewrite list_lookup_fmap.
    + by rewrite Hi; simpl; rewrite Heq.
    + by rewrite Hj.
  - apply list_find_None in Hf. rewrite Forall_forall in Hf. by destruct (Hf v Hin).
Qed.

End GoStruct.

(** ** Package internal/canonicalcoverage

    [Module Signing]: signing (internal/crypto). [Module Coverage]: the signed receipts of voters that hold the canonical
    commit (receipt.go), the requirement and the signer (provider.go), and the
    gate that wants a majority of the target for the current cut (gate.go).

    A missing capability is the [None] of its argument; the provider's check and
    the collector's answer, which are outside the package, are arguments. *)

(** ** Package internal/crypto: signing *)

Module Signing.

(** crypto/ed25519 on a seed: the public key of [NewKeyFromSeed], and [Sign]. *)
Class SigningLib `{CryptoLib} := {
  public_key : list N → list N;
  ed25519_sign : list N → list N → list N;
  public_key_length : ∀ seed, length (public_key seed) = 32;
  ed25519_sign_length : ∀ key message, length (ed25519_sign key message) = 64;
  ed25519_sign_verify : ∀ seed message,
    Ed25519_Verify (public_key seed) message (ed25519_sign (seed ++ public_key seed) message) = true }.

Definition Ed25519PrivateKeySize : N := 64.
Definition SeedSize : nat := 32.

Inductive Error := ErrInvalidEd25519PrivateKey | ErrSignedInput (err : Codec.Error).

Section Keys.
Context `{SigningLib}.

Definition checkedPrivateKey (privateKey : list N) : Error + list N :=
  throw ErrInvalidEd25519PrivateKey
    when (negb (llen privateKey =? Ed25519PrivateKeySize)%N) ;;
  let seed := take SeedSize privateKey in
  throw ErrInvalidEd25519PrivateKey when (privateKey != seed ++ public_key seed) ;;
  inr privateKey.

Definition SignEd25519 (privateKey : list N) (label : Codec.SignatureLabel) (signedBytes : list N)
    : Error + list N :=
  let* key := checkedPrivateKey privateKey in
  match Codec.BuildSignedInput label signedBytes with
  | inl err => inl (ErrSignedInput err)
  | inr signedInput => inr (ed25519_sign key signedInput)
  end.

Definition Ed25519PublicKeyFromPrivateKey (privateKey : list N) : Error + list N :=
  let* key := checkedPrivateKey privateKey in inr (drop SeedSize key).

End Keys.

End Signing.

Module Coverage.

Definition MaxReceiptBytes : N := 4096.

Inductive Error :=
  | ErrInvalidSubject | ErrInvalidReceipt | ErrReceiptTooLarge | ErrReceiptCanonical
  | ErrReceiptSchema | ErrReceiptIdentity | ErrReceiptSignature
  | ErrInvalidRequirement | ErrProviderUnavailable | ErrObjectVerification | ErrSignerIdentity
  | ErrSignerOutsideTarget
  | ErrInvalidSnapshot | ErrCollectorUnavailable | ErrReceiptCollection | ErrReceiptContext
  | ErrReceiptIntegrity | ErrCoverageQuorum | ErrCoverageChanged
  | ErrContext (* the error of the context *)
  | ErrPrivateKey (* an error of the key or of the signing *)
  | Degraded (missing : list string) (cause : Error)
  | IntegrityBlocked (cause : Error).

(** ** receipt.go *)

Record Subject := mkSubject {
  SessionID : string;
  WorkspaceID : string;
  VoterSetVersion : N;
  CanonicalRefVersion : N;
  CommitOID : string }.

#[global] Instance Subject_eq_dec : EqDecision Subject.
Proof. solve_decision. Defined.

Definition Subject_Validate (subject : Subject) : option Error :=
  refuse ErrInvalidSubject
    when (negb (Domain.UUIDv7_Valid (SessionID subject)) ||
          negb (Domain.UUIDv4_Valid (WorkspaceID subject)) ||
          (VoterSetVersion subject <? 1)%N ||
          negb (Domain.ValidUnsignedInteger (VoterSetVersion subject)) ||
          (CanonicalRefVersion subject <? 1)%N ||
          negb (Domain.ValidUnsignedInteger (CanonicalRefVersion subject)) ||
          negb (Domain.GitOID_Valid (CommitOID subject))) ;;
  None.

Record Receipt := mkReceipt {
  subject : Subject;
  voterDeviceID : string;
  signature : list N;
  signedBytes : list N;
  canonical : list N }.

#[global] Instance Receipt_eq_dec : EqDecision Receipt.
Proof. solve_decision. Defined.

Definition receiptWire : list (string * GoStruct.kind) :=
  [("canonical_ref_version", GoStruct.KUint); ("commit_oid", GoStruct.KString);
   ("session_id", GoStruct.KString); ("signature", GoStruct.KString);
   ("voter_device_id", GoStruct.KString); ("voter_set_version", GoStruct.KUint);
   ("workspace_id", GoStruct.KString)].

Definition receiptFields : list string :=
  ["canonical_ref_version"; "commit_oid"; "session_id"; "signature"; "voter_device_id";
   "voter_set_version"; "workspace_id"].

Definition unsignedMembers (subject : Subject) (voterDeviceID : string) : list (string * json) :=
  [("canonical_ref_version", Marshal.uint (CanonicalRefVersion subject));
   ("commit_oid", JString (CommitOID subject)); ("session_id", JString (SessionID subject));
   ("voter_device_id", JString voterDeviceID);
   ("voter_set_version", Marshal.uint (VoterSetVersion subject));
   ("workspace_id", JString (WorkspaceID subject))].

Definition receiptMembers (subject : Subject) (voterDeviceID : string) (signature : list N)
    : list (string * json) :=
  [("canonical_ref_version", Marshal.uint (CanonicalRefVersion subject));
   ("commit_oid", JString (CommitOID subject)); ("session_id", JString (SessionID subject));
   ("signature", JString (Codec.EncodeBase64URL signature));
   ("voter_device_id", JString voterDeviceID);
   ("voter_set_version", Marshal.uint (VoterSetVersion subject));
   ("workspace_id", JString (WorkspaceID subject))].

Section Lib.
Context `{NormLib, JCSLib, CryptoLib}.

Definition ParseReceipt (input : list N) : Error + Receipt :=
  throw ErrInvalidReceipt when (llen input =? 0)%N ;;
  throw ErrReceiptTooLarge when (MaxReceiptBytes <? llen input)%N ;;
  match Codec.CanonicalizeSignedObject input with
  | inl _ => inl ErrInvalidReceipt
  | inr canonical =>
      throw ErrReceiptCanonical when (canonical != input) ;;
      match Codec.RemoveCanonicalObjectMember canonical "signature" with
      | inl _ => inl ErrInvalidReceipt
      | inr (signedBytes, encodedSignature) =>
          match GoStruct.unmarshal false receiptWire canonical, JSON.text_of encodedSignature with
          | Some wire, Some signatureText =>
              match Codec.DecodeBase64URLExact signatureText Crypto.Ed25519SignatureSize with
              | inl _ => inl ErrInvalidReceipt
              | inr signature =>
                  let subject :=
                    mkSubject (GoStruct.text wire "session_id") (GoStruct.text wire "workspace_id")
                      (GoStruct.uint wire "voter_set_version")
                      (GoStruct.uint wire "canonical_ref_version")
                      (GoStruct.text wire "commit_oid") in
                  let voterDeviceID := GoStruct.text wire "voter_device_id" in
                  throw ErrInvalidReceipt
                    when (bool_decide (is_Some (Subject_Validate subject)) ||
                          negb (Domain.DeviceID_Valid voterDeviceID)) ;;
                  inr (mkReceipt subject voterDeviceID signature signedBytes canonical)
              end
          | _, _ => inl ErrInvalidReceipt
          end
      end
  end.

Definition encodeUnsignedReceipt (subject : Subject) (voterDeviceID : string) : Error + list N :=
  throw ErrInvalidReceipt
    when (bool_decide (is_Some (Subject_Validate subject)) ||
          negb (Domain.DeviceID_Valid voterDeviceID)) ;;
  match Marshal.canonical_object (unsignedMembers subject voterDeviceID) with
  | inl _ => inl ErrInvalidReceipt
  | inr canonical => inr canonical
  end.

(** The seven members and no other. *)
Definition validateReceiptSchema (input : list N) : option Error :=
  match StoreRecords.rawMembers input with
  | None => Some ErrInvalidReceipt
  | Some members =>
      refuse ErrReceiptSchema
        when (existsb (λ field, bool_decide (members !! field = None)) receiptFields) ;;
      refuse ErrReceiptSchema
        when (negb (size (foldr delete members receiptFields) =? 0)%nat) ;;
      None
  end.

Definition Verify (receipt : Receipt) (identityPublicKey : list N) : option Error :=
  refuse ErrInvalidReceipt when (llen (canonical receipt) =? 0)%N ;;
  refuse ErrInvalidReceipt
    when (match ParseReceipt (canonical receipt) with
          | inl _ => true
          | inr parsed =>
              (subject parsed != subject receipt) ||
              (voterDeviceID parsed != voterDeviceID receipt) ||
              (signature parsed != signature receipt) ||
              (signedBytes parsed != signedBytes receipt)
          end) ;;
  refuse ErrReceiptIdentity
    when (match Codec.DeriveDeviceID identityPublicKey with
          | inl _ => true
          | inr derivedID => derivedID != voterDeviceID receipt
          end) ;;
  match Crypto.VerifyEd25519 identityPublicKey Codec.SignatureGitCanonicalCoverage
          (signedBytes receipt) (signature receipt) with
  | Some _ => Some ErrReceiptSignature
  | None =>
      check validateReceiptSchema (canonical receipt) ;;
      refuse ErrReceiptCanonical
        when (match encodeUnsignedReceipt (subject receipt) (voterDeviceID receipt) with
              | inl _ => true
              | inr expected => expected != signedBytes receipt
              end) ;;
      None
  end.

Definition newReceipt (subject : Subject) (voterDeviceID : string) (signature : list N)
    : Error + Receipt :=
  throw ErrInvalidReceipt
    when (bool_decide (is_Some (Subject_Validate subject)) ||
          negb (Domain.DeviceID_Valid voterDeviceID) ||
          negb (llen signature =? Crypto.Ed25519SignatureSize)%N) ;;
  let* signedBytes := encodeUnsignedReceipt subject voterDeviceID in
  match Marshal.canonical_object (receiptMembers subject voterDeviceID signature) with
  | inl _ => inl ErrInvalidReceipt
  | inr canonical =>
      throw ErrReceiptTooLarge when (MaxReceiptBytes <? llen canonical)%N ;;
      inr (mkReceipt subject voterDeviceID signature signedBytes canonical)
  end.

(** ** provider.go: the requirement *)

Record Requirement := mkRequirement {
  RSessionID : string;
  RWorkspaceID : string;
  VoterSet : VoterSet.Set_;
  CanonicalRef : Publication.CanonicalRef }.

Definition Requirement_Validate (requirement : Requirement) : option Error :=
  refuse ErrInvalidRequirement
    when (negb (Domain.UUIDv7_Valid (RSessionID requirement)) ||
          negb (Domain.UUIDv4_Valid (RWorkspaceID requirement)) ||
          negb (VoterSet.is_valid (VoterSet requirement)) ||
          (VoterSet.SessionID (VoterSet requirement) != RSessionID requirement) ||
          bool_decide (is_Some (Publication.CanonicalRef_Validate (CanonicalRef requirement)))) ;;
  None.

Definition Requirement_Subject (requirement : Requirement) : Error + Subject :=
  ensure Requirement_Validate requirement ;;
  inr (mkSubject (RSessionID requirement) (RWorkspaceID requirement)
         (VoterSet.VoterSetVersion (VoterSet requirement))
         (Publication.RefEntityVersion (CanonicalRef requirement))
         (Publication.RefCommitOID (CanonicalRef requirement))).

Definition Requirement_same (requirement other : Requirement) : bool :=
  (RSessionID requirement == RSessionID other) &&
  (RWorkspaceID requirement == RWorkspaceID other) &&
  bool_decide (CanonicalRef requirement = CanonicalRef other) &&
  (VoterSet.SessionID (VoterSet requirement) == VoterSet.SessionID (VoterSet other)) &&
  (VoterSet.VoterSetVersion (VoterSet requirement) =? VoterSet.VoterSetVersion (VoterSet other))%N &&
  VoterSet.SameTarget (VoterSet requirement) (VoterSet other).

Definition target (requirement : Requirement) : list string :=
  VoterSet.voterDeviceIDs (VoterSet requirement).

(** ** gate.go *)

Record Snapshot := mkSnapshot {
  requirement : Requirement;
  identityPublicKeys : gmap string (list N);
  valid : bool }.

(** The loop over the target. *)
Fixpoint targetKeys (identityPublicKeys : gmap string (list N)) (ids : list string)
    (keys : gmap string (list N)) : Error + gmap string (list N) :=
  match ids with
  | [] => inr keys
  | id :: rest =>
      match identityPublicKeys !! id with
      | None => inl ErrInvalidSnapshot
      | Some key =>
          throw ErrInvalidSnapshot
            when (match Codec.DeriveDeviceID key with
                  | inl _ => true
                  | inr derivedID => derivedID != id
                  end) ;;
          targetKeys identityPublicKeys rest (<[id := key]> keys)
      end
  end.

Definition NewSnapshot (requirement : Requirement) (identityPublicKeys : gmap string (list N))
    : Error + Snapshot :=
  match Requirement_Validate requirement with
  | Some _ => inl ErrInvalidSnapshot
  | None =>
      let* keys := targetKeys identityPublicKeys (target requirement) ∅ in
      inr (mkSnapshot requirement keys true)
  end.

Definition same (snapshot other : Snapshot) : bool :=
  valid snapshot && valid other && Requirement_same (requirement snapshot) (requirement other) &&
  (size (identityPublicKeys snapshot) =? size (identityPublicKeys other))%nat &&
  bool_decide (map_Forall (λ id key, default [] (identityPublicKeys other !! id) = key)
                 (identityPublicKeys snapshot)).

Record Candidate := mkCandidate {
  baseline : Snapshot;
  receipts : list Receipt;
  cvalid : bool }.

(** The loop over the receipts; [seen] is the voters before. *)
Fixpoint checkReceipts (snapshot : Snapshot) (subject' : Subject) (receipts : list Receipt)
    (seen : list string) : Error + list string :=
  match receipts with
  | [] => inr seen
  | receipt :: rest =>
      let id := voterDeviceID receipt in
      match identityPublicKeys snapshot !! id with
      | None => inl (Degraded (target (requirement snapshot)) ErrReceiptContext)
      | Some key =>
          throw (Degraded (target (requirement snapshot)) ErrReceiptContext)
            when (negb (VoterSet.Contains (VoterSet (requirement snapshot)) id)) ;;
          match Verify receipt key with
          | Some _ => inl (IntegrityBlocked ErrReceiptIntegrity)
          | None =>
              throw (Degraded (target (requirement snapshot)) ErrReceiptContext)
                when (subject receipt != subject') ;;
              throw (IntegrityBlocked ErrReceiptIntegrity) when (bool_decide (id ∈ seen)) ;;
              checkReceipts snapshot subject' rest (id :: seen)
          end
      end
  end.

Definition verifyReceipts (snapshot : Snapshot) (receipts : list Receipt) : option Error :=
  match Requirement_Subject (requirement snapshot) with
  | inl _ => Some ErrInvalidSnapshot
  | inr subject' =>
      let ids := target (requirement snapshot) in
      refuse (IntegrityBlocked ErrReceiptIntegrity) when (llen ids <? llen receipts)%N ;;
      match checkReceipts snapshot subject' receipts [] with
      | inl err => Some err
      | inr seen =>
          refuse (Degraded (filter (λ id, id ∉ seen) ids) ErrCoverageQuorum)
            when (llen seen <? llen ids / 2 + 1)%N ;;
          None
      end
  end.

Fixpoint parseReceipts (encoded : list (list N)) : Error + list Receipt :=
  match encoded with
  | [] => inr []
  | raw :: rest =>
      match ParseReceipt raw with
      | inl _ => inl (IntegrityBlocked ErrReceiptIntegrity)
      | inr receipt => let* others := parseReceipts rest in inr (receipt :: others)
      end
  end.

Definition parseAndVerifyReceipts (snapshot : Snapshot) (encoded : list (list N))
    : Error + list Receipt :=
  throw (IntegrityBlocked ErrReceiptIntegrity)
    when (llen (target (requirement snapshot)) <? llen encoded)%N ;;
  let* receipts := parseReceipts encoded in
  ensure verifyReceipts snapshot receipts ;;
  inr receipts.

(** The collector's answer to one requirement; [inl] is its error. *)
Definition Collector : Type := Requirement → unit + list (list N).

(** [Collect]: whether the context ends before the collection, and during it. *)
Definition Collect (collector : option Collector) (ended endedDuring : bool) (snapshot : Snapshot)
    : Error + Candidate :=
  throw ErrContext when ended ;;
  match collector with
  | None => inl (Degraded [] ErrCollectorUnavailable)
  | Some collect =>
      throw ErrInvalidSnapshot when (negb (valid snapshot)) ;;
      throw ErrContext when endedDuring ;;
      match collect (requirement snapshot) with
      | inl _ => inl (Degraded (target (requirement snapshot)) ErrReceiptCollection)
      | inr encoded =>
          let* receipts := parseAndVerifyReceipts snapshot encoded in
          inr (mkCandidate snapshot receipts true)
      end
  end.

Definition VerifyCurrent (collector : option Collector) (current : Snapshot) (candidate : Candidate)
    : option Error :=
  match collector with
  | None => Some (Degraded [] ErrCollectorUnavailable)
  | Some _ =>
      refuse ErrInvalidSnapshot
        when (negb (valid current) || negb (cvalid candidate) || negb (valid (baseline candidate))) ;;
      refuse (Degraded (target (requirement current)) ErrCoverageChanged)
        when (negb (same (baseline candidate) current)) ;;
      verifyReceipts current (receipts candidate)
  end.

End Lib.

(** ** provider.go: the signer *)

Record Signer := mkSigner {
  provider : bool;
  srequirement : Requirement;
  svoterDeviceID : string;
  identityPrivateKey : list N }.

Section Signing.
Context `{NormLib, JCSLib, CryptoLib, !Signing.SigningLib}.

Definition NewSigner (provider : bool) (snapshot : Snapshot) (voterDeviceID : string)
    (identityPrivateKey : list N) : Error + Signer :=
  throw (Degraded [] ErrProviderUnavailable) when (negb provider) ;;
  throw ErrInvalidSnapshot when (negb (valid snapshot)) ;;
  throw ErrSignerOutsideTarget
    when (negb (VoterSet.Contains (VoterSet (requirement snapshot)) voterDeviceID)) ;;
  match Signing.Ed25519PublicKeyFromPrivateKey identityPrivateKey with
  | inl _ => inl ErrPrivateKey
  | inr publicKey =>
      throw ErrSignerIdentity
        when (match Codec.DeriveDeviceID publicKey with
              | inl _ => true
              | inr derivedID => derivedID != voterDeviceID
              end || (identityPublicKeys snapshot !! voterDeviceID != Some publicKey)) ;;
      inr (mkSigner true (requirement snapshot) voterDeviceID identityPrivateKey)
  end.

(** The provider's callback, once. *)
Definition issue (signer : Signer) (subject : Subject) (signedBytes : list N) (ended : bool)
    : Error + Receipt :=
  throw ErrContext when ended ;;
  match Signing.SignEd25519 (identityPrivateKey signer) Codec.SignatureGitCanonicalCoverage
          signedBytes with
  | inl _ => inl ErrPrivateKey
  | inr signature => newReceipt subject (svoterDeviceID signer) signature
  end.

(** [Sign]: [holds] is whether the provider verified the object and called back
    once; a second call fails the provider, and the first receipt stands only
    when it returned no error. *)
Definition Sign (signer : Signer) (ended endedDuring holds : bool) : Error + Receipt :=
  throw ErrContext when ended ;;
  throw (Degraded [] ErrProviderUnavailable) when (negb (provider signer)) ;;
  ensure Requirement_Validate (srequirement signer) ;;
  throw ErrSignerOutsideTarget
    when (negb (VoterSet.Contains (VoterSet (srequirement signer)) (svoterDeviceID signer))) ;;
  let* subject := Requirement_Subject (srequirement signer) in
  let* signedBytes := encodeUnsignedReceipt subject (svoterDeviceID signer) in
  if holds then issue signer subject signedBytes endedDuring
  else
    throw ErrContext when endedDuring ;;
    inl (Degraded [svoterDeviceID signer] ErrObjectVerification).

Definition Close (signer : Signer) : Signer :=
  mkSigner false
    (mkRequirement EmptyString EmptyString (VoterSet.mkSet EmptyString 0 [])
       (Publication.mkCanonicalRef EmptyString EmptyString 0))
    (svoterDeviceID signer) [].

End Signing.

End Coverage.

(** ** Theorems on canonical coverage

    [Module CoverageProofs]: what a candidate that the gate accepts for the
    current cut proves. *)

Module CoverageProofs.

Import Coverage PublicationProofs.

Section Lib.
Context `{NormLib, JCSLib, CryptoLib}.

(** What a verified receipt of a requirement is. *)
Record covers (snapshot : Snapshot) (subject' : Subject) (receipt : Receipt) : Prop := {
  cv_target : voterDeviceID receipt ∈ target (requirement snapshot);
  cv_subject : subject receipt = subject';
  cv_signed : ∃ key, identityPublicKeys snapshot !! voterDeviceID receipt = Some key ∧
    Codec.DeriveDeviceID key = inr (voterDeviceID receipt) ∧
    encodeUnsignedReceipt subject' (voterDeviceID receipt) = inr (signedBytes receipt) ∧
    Crypto.VerifyEd25519 key Codec.SignatureGitCanonicalCoverage (signedBytes receipt)
      (signature receipt) = None }.

Lemma Verify_inv receipt key : Verify receipt key = None →
  Codec.DeriveDeviceID key = inr (voterDeviceID receipt) ∧
  encodeUnsignedReceipt (subject receipt) (voterDeviceID receipt) = inr (signedBytes receipt) ∧
  Crypto.VerifyEd25519 key Codec.SignatureGitCanonicalCoverage (signedBytes receipt)
    (signature receipt) = None.
Proof.
  unfold Verify. intros Hv. chain_inv Hv.
  destruct (Codec.DeriveDeviceID key) as [|id] eqn:Hd; [done|].
  destruct (Crypto.VerifyEd25519 _ _ _ _) eqn:Hs; [done|]. chain_inv Hv.
  destruct (encodeUnsignedReceipt _ _) as [|expected] eqn:He; [done|]. bools. by subst.
Qed.

Lemma checkReceipts_inv snapshot subject' receipts seen seen' :
  checkReceipts snapshot subject' receipts seen = inr seen' →
  Forall (covers snapshot subject') receipts ∧ seen' = rev (voterDeviceID <$> receipts) ++ seen ∧
  (NoDup seen → NoDup seen').
Proof.
  revert seen. induction receipts as [|receipt rest IH]; intros seen; cbn [checkReceipts].
  - intros [= <-]. by split_and!.
  - destruct (identityPublicKeys snapshot !! voterDeviceID receipt) as [key|] eqn:Hk; [|done].
    intros Hc. apply throw_inr in Hc as [Ht Hc].
    destruct (Verify receipt key) eqn:Hv; [done|]. apply throw_inr in Hc as [Hs Hc].
    apply throw_inr in Hc as [Hnew Hc]. apply IH in Hc as (Hall & -> & Hnd).
    apply negb_false_iff in Ht. unfold VoterSet.Contains in Ht. bools. destruct (_ || _); [done|].
    apply bool_decide_eq_true in Ht.
    destruct (Verify_inv _ _ Hv) as (Hd & He & Hsig). split_and!.
    + constructor; [|done]. constructor; [done|done|]. exists key. by subst subject'.
    + cbn [fmap list_fmap rev]. by rewrite <-app_assoc.
    + intros Hnodup. apply Hnd. constructor; [|done]. done.
Qed.

Lemma verifyReceipts_inv snapshot receipts : verifyReceipts snapshot receipts = None →
  ∃ subject', Requirement_Subject (requirement snapshot) = inr subject' ∧
    Forall (covers snapshot subject') receipts ∧ NoDup (voterDeviceID <$> receipts) ∧
    (llen (target (requirement snapshot)) < 2 * llen receipts)%N.
Proof.
  unfold verifyReceipts. destruct (Requirement_Subject _) as [|subject'] eqn:Hsub; [done|]. intros Hv.
  chain_inv Hv. destruct (checkReceipts _ _ _ _) as [|seen] eqn:Hc0; [done|]. chain_inv Hv.
  apply checkReceipts_inv in Hc0 as (Hall & -> & Hnd). exists subject'. split_and!; [done..| |].
  - specialize (Hnd (NoDup_nil_2)). rewrite app_nil_r in Hnd.
    by rewrite (Permutation_rev (voterDeviceID <$> receipts)).
  - bools. unfold llen in *. rewrite app_nil_r, rev_length, length_fmap in *.
    pose proof (N.div_mod' (N.of_nat (length (target (requirement snapshot)))) 2). lia.
Qed.

(** C16: [coverage_quorum]. A candidate that [Gate.VerifyCurrent] accepts proves
    that a majority of the current voter target holds the current canonical
    commit: its receipts come from distinct target voters, more than half of
    them, and each carries that voter's signature, under the key enrolled for it,
    of exactly the current subject. So two accepted candidates of one target
    share a voter, who signed both subjects. *)
Theorem coverage_quorum collector current candidate :
  VerifyCurrent collector current candidate = None →
  (∃ subject', Requirement_Subject (requirement current) = inr subject' ∧
     NoDup (voterDeviceID <$> receipts candidate) ∧
     (llen (target (requirement current)) < 2 * llen (receipts candidate))%N ∧
     Forall (covers current subject') (receipts candidate)) ∧
  ∀ collector' current' candidate', VerifyCurrent collector' current' candidate' = None →
    target (requirement current') = target (requirement current) →
    ∃ receipt receipt', receipt ∈ receipts candidate ∧ receipt' ∈ receipts candidate' ∧
      voterDeviceID receipt = voterDeviceID receipt'.
Proof.
  assert (Hinv : ∀ collector current candidate, VerifyCurrent collector current candidate = None →
    verifyReceipts current (receipts candidate) = None).
  { intros c cur cand. unfold VerifyCurrent. destruct c; [|done]. intros Hv. by chain_inv Hv. }
  intros (subject' & Hs & Hall & Hnd & Hlen)%Hinv%verifyReceipts_inv. split; [by exists subject'|].
  intros collector' current' candidate' (subject2 & _ & Hall' & Hnd' & Hlen')%Hinv%verifyReceipts_inv Ht.
  rewrite Ht in Hlen'. rewrite Forall_forall in Hall, Hall'. unfold llen in *.
  destruct (PublicationProofs.overlap (voterDeviceID <$> receipts candidate)
    (voterDeviceID <$> receipts candidate') (target (requirement current))) as (x & Hx & Hx'); [done|done|..].
  - intros y (r & -> & Hr)%list_elem_of_fmap. apply (cv_target _ _ _ (Hall _ Hr)).
  - intros y (r & -> & Hr)%list_elem_of_fmap. rewrite <-Ht. apply (cv_target _ _ _ (Hall' _ Hr)).
  - rewrite !length_fmap. lia.
  - apply list_elem_of_fmap in Hx as (r & -> & Hr). apply list_elem_of_fmap in Hx' as (r' & Heq & Hr').
    by exists r, r'.
Qed.

End Lib.

(** ** Witness *)

Import Fixtures.
#[local] Existing Instances norm crypto jcs.

(** A signer whose signature begins with its key, as the fixtures accept it. *)
Definition sole_requirement : Requirement :=
  mkRequirement session_id workspace_id sole_target
    (Publication.mkCanonicalRef Publication.CanonicalRefName (oid "a") 3).

Definition sole_subject : Subject := mkSubject session_id workspace_id 1 3 (oid "a").

Definition answer (requirement : Requirement) : unit + list (list N) :=
  match newReceipt sole_subject device_id Fixtures.signature with
  | inr receipt => inr [canonical receipt]
  | inl _ => inl tt
  end.

Definition collected : bool :=
  match NewSnapshot sole_requirement {[device_id := key]} with
  | inl _ => false
  | inr snapshot =>
      match Collect (Some answer) false false snapshot with
      | inl _ => false
      | inr candidate =>
          bool_decide (VerifyCurrent (Some answer) snapshot candidate = None) &&
          bool_decide (length (receipts candidate) = 1)
      end
  end.

Lemma collected_holds : collected = true.
Proof. vm_compute. done. Qed.

Lemma coverage_quorum_witness : ∃ current candidate,
  VerifyCurrent (Some answer) current candidate = None ∧
  ∃ receipt, receipt ∈ receipts candidate ∧ ∃ subject', covers current subject' receipt.
Proof.
  pose proof collected_holds as Hok. unfold collected in Hok.
  destruct (NewSnapshot _ _) as [|current]; [done|].
  destruct (Collect _ _ _ _) as [|candidate]; [done|].
  apply andb_true_iff in Hok as [Hv%bool_decide_eq_true Hlen%bool_decide_eq_true].
  exists current, candidate. split; [exact Hv|].
  destruct (coverage_quorum (Some answer) current candidate Hv) as [(subject' & _ & _ & _ & Hall) _].
  destruct (receipts candidate) as [|receipt rest]; [discriminate Hlen|].
  exists receipt. split; [apply list_elem_of_here|]. exists subject'.
  exact (Forall_inv Hall).
Defined.

End CoverageProofs.
