(* ===== verification/StateMapping.v ===== *)
(** * Package internal/consensus: the write set of a command

    [Module ApplyMapping]: a reducer's outcome as the complete request to the
    store (apply_request.go), with the canonical outcome bytes
    ([Outcome.ResultJSON] of reducer/reducer.go). *)

From stdpp Require Import base gmap strings list pretty.
From Stdlib Require Import ZArith NArith Lia.
From S2P Require Import Prelude.
From S2P Require Import GoLib.
From S2P Require Import GoJson.
From S2P Require Import CodecLayer.
From S2P Require Import GoMarshal.
From S2P Require Import DomainValues.
From S2P Require Import TaskEntity.
From S2P Require Import LeaseEntity.
From S2P Require Import AgentSessionEntity.
From S2P Require Import VoterSetEntity.
From S2P Require Import DeviceEntity.
From S2P Require Import PlanMemoryEntity.
From S2P Require Import PolicyEntity.
From S2P Require Import ConflictEntity.
From S2P Require Import PublicationEntity.
From S2P Require Import CredentialEntity.
From S2P Require Import EventModel.
From S2P Require Import ChainCommitments.
From S2P Require Import ReducerState.
From S2P Require Import RepositoryState.
From S2P Require Import StateLoad.
From S2P Require Import PeerAdmission.
From S2P Require Import ProjectionRows.
From S2P Require Import ProjectionStore.
From S2P Require Import ProjectionStream.
From S2P Require Import StoreRecords.
From S2P Require Import StoreResults.
From S2P Require Import StoreApply.
From S2P Require Import StoreBoundary.
From S2P Require Import CanonicalCoverage.

Module ApplyMapping.

Inductive Error := ErrInvalidApplyMapping.

#[global] Instance Error_eq_dec : EqDecision Error.
Proof. solve_decision. Defined.

Record ApplyContext := mkApplyContext {
  Term : N;
  LogIndex : N;
  RecoveryGeneration : N;
  AppliedAt : string;
  OriginBootID : string;
  MonotonicNowNS : Z;
  PriorHeads : StoreRecords.ApplyHeads }.

Record localApplyContext := mkLocalApplyContext {
  LRecoveryGeneration : N;
  LAppliedAt : string;
  LOriginBootID : string;
  LMonotonicNowNS : Z;
  LPriorHeads : StoreRecords.ApplyHeads }.

(** ** Directives *)

Definition present {A} (value : option A) : bool :=
  match value with Some _ => true | None => false end.

Definition validateOutcomeDirectives (proposal : Event.Proposal) (outcome : Reducer.Outcome)
    : option Error :=
  let accepted := Reducer.Accepted outcome in
  let kind := Event.PKind proposal in
  refuse ErrInvalidApplyMapping
    when (negb accepted &&
          (Reducer.RecordActivity outcome || present (Reducer.Audit outcome) ||
           present (Reducer.RecordedAudit outcome) || present (Reducer.OCheckpoint outcome))) ;;
  refuse ErrInvalidApplyMapping
    when (present (Reducer.RecordedAudit outcome) && (kind != Event.KindAuditRecorded) ||
          accepted && (kind == Event.KindAuditRecorded) &&
          negb (present (Reducer.RecordedAudit outcome))) ;;
  refuse ErrInvalidApplyMapping
    when (present (Reducer.OCheckpoint outcome) && (kind != Event.KindConsensusCheckpoint) ||
          accepted && (kind == Event.KindConsensusCheckpoint) &&
          negb (present (Reducer.OCheckpoint outcome))) ;;
  refuse ErrInvalidApplyMapping when (accepted && present (Reducer.Alarm outcome)) ;;
  refuse ErrInvalidApplyMapping
    when (present (Reducer.Alarm outcome) && (kind != Event.KindWorkspaceConflictDetected)) ;;
  None.

(** ** Projections *)

Definition scopeKindText (kind : Reducer.ScopeKind) : string :=
  match kind with
  | Reducer.ScopeAgent => "agent" | Reducer.ScopeBoot => "boot"
  | Reducer.ScopeKindUnknown text => text
  end.

Definition scopeRow (scope : Reducer.OriginScope) : Projections.OriginScopeRow :=
  let key := Reducer.ScopeKey scope in
  Projections.mkOriginScopeRow (Reducer.KDeviceID key) (scopeKindText (Reducer.KKind key))
    (Reducer.KScopeID key) (Reducer.LastSequence scope).

Definition credentialRole (role : CredentialAuthorization.Role) : Device.Role :=
  match role with
  | CredentialAuthorization.RoleOwner => Device.RoleOwner
  | CredentialAuthorization.RoleEditor => Device.RoleEditor
  | CredentialAuthorization.RoleUnknown text => Device.RoleUnknown text
  end.

Definition authorizationRow (authorization : CredentialAuthorization.Authorization)
    : Projections.CredentialAuthorizationRow :=
  Projections.mkCredentialAuthorizationRow
    (CredentialAuthorization.SessionID authorization) (CredentialAuthorization.DeviceID authorization)
    (CredentialAuthorization.Epoch authorization)
    (CredentialAuthorization.EpochPublicKey authorization)
    (CredentialAuthorization.KeyDigest authorization)
    (credentialRole (CredentialAuthorization.ARole authorization))
    (CredentialAuthorization.IssuedAt authorization)
    (CredentialAuthorization.NotBefore authorization)
    (CredentialAuthorization.AValiditySeconds authorization)
    (CredentialAuthorization.AuthorityVoterSetVersion authorization)
    (CredentialAuthorization.ClockEndorsements authorization)
    (CredentialAuthorization.BindingSignature authorization)
    (CredentialAuthorization.AuthorizationChainIndex authorization).

Definition controlFileRow (proposal : ControlFile.Proposal) : Projections.ControlFileProposalRow :=
  Projections.mkControlFileProposalRow (ControlFile.ProposalEventID proposal)
    (ControlFile.SessionID proposal) (ControlFile.Path proposal)
    match ControlFile.POperation proposal with
    | ControlFile.OperationUpsert => Projections.ControlFileUpsert
    | ControlFile.OperationDelete => Projections.ControlFileDelete
    | ControlFile.OperationUnknown text => Projections.ControlFileUnknown text
    end
    (ControlFile.ContentDigest proposal) (ControlFile.ContentSize proposal)
    (ControlFile.Diff proposal) (ControlFile.ProposedByDeviceID proposal)
    (ControlFile.ChainIndex proposal).

Definition projectionWrites (changes : Reducer.Changes) : Projections.ProjectionWrites :=
  Projections.mkProjectionWrites (scopeRow <$> Reducer.OriginScopes changes)
    (Reducer.AuditCounters changes) (Reducer.Tasks changes) (Reducer.PlanRevisions changes)
    (Reducer.PlanCurrent changes) (Reducer.MemoryRecords changes) (Reducer.Leases changes)
    (Reducer.Devices changes) (Reducer.VoterSets changes) (Reducer.CredentialAuthorities changes)
    (Reducer.AgentSessions changes) (Reducer.CanonicalRefs changes)
    (authorizationRow <$> Reducer.CredentialAuthorizations changes) (Reducer.Publications changes)
    (controlFileRow <$> Reducer.ControlFileProposals changes) (Reducer.MergeConflicts changes)
    (Reducer.SessionPolicy changes).

(** ** Audit *)

Definition ipcChannel (actor : Event.ActorType) : string :=
  match actor with
  | Event.ActorAgent => "agent" | Event.ActorHuman => "operator" | Event.ActorDaemon => "daemon"
  | Event.ActorUnknown _ => EmptyString
  end.

Definition auditSubject (proposal : Event.Proposal) (directive : option Reducer.AuditDirective)
    : string :=
  let entity :=
    let entityID := Event.PEntityID proposal in
    if Event.present entityID && (strlen (Event.value entityID) <=? 256)%N
    then Event.value entityID else "session:" +:+ Event.SessionID proposal in
  match directive with
  | Some directive =>
      if (strlen (Reducer.Subject directive) <=? 256)%N then Reducer.Subject directive else entity
  | None => entity
  end.

Definition class_json (class : string) : list N :=
  bytes_of "{" ++ Marshal.quote "class" ++ bytes_of ":" ++ Marshal.quote class ++ bytes_of "}".

Definition AlarmClass_text (class : Reducer.AlarmClass) : string :=
  match class with
  | Reducer.AlarmConflictIntegrity => "conflict_integrity"
  | Reducer.AlarmConflictDetectorCompatibility => "conflict_detector_compatibility"
  end.

Definition alarmRecord (proposal : Event.Proposal) (code : string)
    (directive : Reducer.AlarmDirective) (appliedAt : string) (resultIndex : N)
    : Error + StoreRecords.AuditRecord :=
  let origin := Event.POrigin proposal in
  let class := AlarmClass_text (Reducer.AClass directive) in
  throw ErrInvalidApplyMapping
    when ((256 <? strlen (Reducer.ASubject directive))%N ||
          negb (utf8_ValidString (Reducer.ASubject directive))) ;;
  inr (StoreRecords.mkAuditRecord (Event.SessionID proposal) StoreRecords.AuditLocalAggregate
         (Event.EventID proposal) resultIndex (Event.deviceID origin) EmptyString None
         (Event.actorType origin) (ipcChannel (Event.actorType origin)) ("alarm." +:+ class) code
         (Reducer.ASubject directive) (class_json class) appliedAt appliedAt 1).

Definition recordedAudit (proposal : Event.Proposal) (directive : Reducer.AuditRecordedDirective)
    (appliedAt : string) (resultIndex : N) : StoreRecords.AuditRecord :=
  let actor := Event.actorType (Event.POrigin proposal) in
  StoreRecords.mkAuditRecord (Event.SessionID proposal) StoreRecords.AuditEvent
    (Event.EventID proposal) resultIndex (Reducer.ReporterDeviceID directive)
    (Reducer.SubjectDeviceID directive) (Some (Reducer.SubjectCredentialEpoch directive)) actor
    (ipcChannel actor) (Reducer.ActionCode directive) (Reducer.OutcomeCode directive)
    (Reducer.RSubject directive) (bytes_of "{}") appliedAt appliedAt 1.

Definition commandAudit (proposal : Event.Proposal) (outcome : Reducer.Outcome)
    (appliedAt : string) (resultIndex : N) : StoreRecords.AuditRecord :=
  let origin := Event.POrigin proposal in
  StoreRecords.mkAuditRecord (Event.SessionID proposal)
    (if Reducer.Accepted outcome then StoreRecords.AuditAcceptedEvent
     else StoreRecords.AuditCommittedRejection)
    (Event.EventID proposal) resultIndex (Event.deviceID origin) (Event.deviceID origin) None
    (Event.actorType origin) (ipcChannel (Event.actorType origin))
    (Event.Kind_text (Event.PKind proposal)) (Reducer.Code_text (Reducer.OCode outcome))
    (auditSubject proposal (Reducer.Audit outcome))
    (match Reducer.Audit outcome with
     | None => bytes_of "{}"
     | Some _ => class_json "operator_override"
     end)
    appliedAt appliedAt 1.

Definition auditRecords (proposal : Event.Proposal) (outcome : Reducer.Outcome)
    (appliedAt : string) (resultIndex : N) : Error + list StoreRecords.AuditRecord :=
  match (if Reducer.Accepted outcome then Reducer.RecordedAudit outcome else None) with
  | Some directive => inr [recordedAudit proposal directive appliedAt resultIndex]
  | None =>
      let record := commandAudit proposal outcome appliedAt resultIndex in
      match Reducer.Alarm outcome with
      | None => inr [record]
      | Some directive =>
          let* alarm := alarmRecord proposal (Reducer.Code_text (Reducer.OCode outcome)) directive
                          appliedAt resultIndex in
          inr [record; alarm]
      end
  end.

Definition checkpointRecord (eventID : string) (directive : Reducer.CheckpointDirective)
    : StoreRecords.CheckpointRecord :=
  let checkpoint := Reducer.DCheckpoint directive in
  StoreRecords.mkCheckpointRecord eventID (Domain.SessionID checkpoint)
    (Domain.WorkspaceID checkpoint) (Domain.RecoveryGeneration checkpoint)
    (Domain.AuthorityVoterSetVersion checkpoint) (Domain.SignerDeviceID checkpoint)
    (Domain.Term checkpoint) (Domain.CoveredAppliedLogIndex checkpoint)
    (Domain.CoveredChainIndex checkpoint) (Domain.CoveredChainHash checkpoint)
    (Domain.CoveredResultIndex checkpoint) (Domain.CoveredResultHash checkpoint)
    (Domain.ProjectionAccumulator checkpoint) (Domain.DigestVersion checkpoint)
    (Domain.ProjectionSchemaVersion checkpoint) (Reducer.CanonicalUnsignedJSON directive)
    (Reducer.AuthoritySignature directive).

(** ** Lease deadlines *)

(** [int64] arithmetic. *)
Definition int64_wrap (value : Z) : Z := ((value + 2 ^ 63) mod 2 ^ 64 - 2 ^ 63)%Z.
Definition MaxInt64 : Z := 9223372036854775807.
Definition second : Z := 1000000000.

(** The civil date of a day count from the epoch of [days_from_civil]. *)
Definition civil_from_days (days : Z) : Z * Z * Z :=
  let z := (days + 719468)%Z in
  let era := (z / 146097)%Z in
  let doe := (z - era * 146097)%Z in
  let yoe := ((doe - doe / 1460 + doe / 36524 - doe / 146096) / 365)%Z in
  let doy := (doe - (365 * yoe + yoe / 4 - yoe / 100))%Z in
  let mp := ((5 * doy + 2) / 153)%Z in
  let d := (doy - (153 * mp + 2) / 5 + 1)%Z in
  let m := (if mp <? 10 then mp + 3 else mp - 9)%Z in
  ((if m <=? 2 then yoe + era * 400 + 1 else yoe + era * 400)%Z, m, d).

(** The UTC instant of [time.Time]. *)
Definition civil_of_nano (nano : Z) : Domain.civil :=
  let seconds := (nano / second)%Z in
  let days := (seconds / 86400)%Z in
  let rest := (seconds mod 86400)%Z in
  let '(y, m, d) := civil_from_days days in
  Domain.mkCivil (Z.to_N y) (Z.to_N m) (Z.to_N d) (Z.to_N (rest / 3600))
    (Z.to_N (rest / 60 mod 60)) (Z.to_N (rest mod 60)) (Z.to_N (nano mod second)).

(** RFC3339Nano in UTC; a year beyond 9999 has its digits. *)
Definition formatUTC (t : Domain.civil) : string :=
  if (Domain.year t <=? 9999)%N then Domain.time_Format t
  else pretty (Domain.year t) +:+ str_drop 4 (Domain.time_Format t).

Definition deadlineKey (value : Lease.Lease) : list StoreRecords.LeaseDeadlineKey :=
  if (1 <? Lease.EntityVersion value)%N
  then [StoreRecords.mkLeaseDeadlineKey (Lease.ID value) (Lease.EntityVersion value - 1)] else [].

Definition leaseDeadline (context : localApplyContext) (appliedAt : Z) (value : Lease.Lease)
    : Error + list StoreRecords.LeaseDeadlineRecord :=
  if Lease.LeaseStatus value != Lease.StatusActive then inr []
  else
    let ttlNS := int64_wrap (Lease.TTLSeconds value * second) in
    throw ErrInvalidApplyMapping
      when ((ttlNS <? 0)%Z || (MaxInt64 - ttlNS <? LMonotonicNowNS context)%Z) ;;
    inr [StoreRecords.mkLeaseDeadlineRecord (Lease.ID value) (Lease.EntityVersion value)
           (LOriginBootID context) (LMonotonicNowNS context + ttlNS)
           (formatUTC (civil_of_nano (appliedAt + ttlNS)))].

(** The upserts of the loop; the deletions are [deadlineKey] of each lease. *)
Fixpoint leaseDeadlines (context : localApplyContext) (appliedAt : Z) (values : list Lease.Lease)
    : Error + list StoreRecords.LeaseDeadlineRecord :=
  match values with
  | [] => inr []
  | value :: rest =>
      let* first := leaseDeadline context appliedAt value in
      let* others := leaseDeadlines context appliedAt rest in
      inr (first ++ others)
  end.

Definition leaseDeadlineChanges (changes : Reducer.Changes) (context : localApplyContext)
    : Error + (list StoreRecords.LeaseDeadlineRecord * list StoreRecords.LeaseDeadlineKey) :=
  match Domain.Timestamp_Time (LAppliedAt context) with
  | None => inl ErrInvalidApplyMapping
  | Some appliedAt =>
      let* upserts := leaseDeadlines context (Domain.unix_nano appliedAt)
                        (Reducer.Leases changes) in
      inr (upserts, Reducer.Leases changes ≫= deadlineKey)
  end.

(** ** The request *)

Definition Status_text (status : Reducer.Status) : string :=
  match status with
  | Reducer.StatusAccepted => "accepted" | Reducer.StatusRejected => "rejected"
  end.

Definition storeStatus (status : Reducer.Status) : StoreRecords.OutcomeStatus :=
  match status with
  | Reducer.StatusAccepted => StoreRecords.OutcomeAccepted
  | Reducer.StatusRejected => StoreRecords.OutcomeRejected
  end.

Section Lib.
Context `{NormLib, JCSLib, CryptoLib}.

(** A [Status] is one of two and a [Code] is never empty. *)
Definition ResultJSON (outcome : Reducer.Outcome) : Codec.Error + list N :=
  Marshal.canonical_object
    [("code", JString (Reducer.Code_text (Reducer.OCode outcome)));
     ("status", JString (Status_text (Reducer.OStatus outcome)))].

Definition buildApplyRequest (signed : Event.SignedEvent) (outcome : Reducer.Outcome)
    (context : localApplyContext) : Error + StoreRecords.ApplyRequest :=
  let changes := Reducer.OChanges outcome in
  throw ErrInvalidApplyMapping
    when (negb (Domain.ValidUnsignedInteger (LRecoveryGeneration context)) ||
          negb (Domain.Timestamp_Valid (LAppliedAt context)) ||
          negb (Domain.UUIDv7_Valid (LOriginBootID context)) || (LMonotonicNowNS context <? 0)%Z ||
          (Domain.MaxSafeInteger <=? StoreRecords.ResultIndex (LPriorHeads context))%N) ;;
  throw ErrInvalidApplyMapping
    when (negb (Bool.eqb (Reducer.Accepted outcome) (Reducer.AdvancesEventChain changes))) ;;
  ensure validateOutcomeDirectives (Event.proposal signed) outcome ;;
  match ResultJSON outcome with
  | inl _ => inl ErrInvalidApplyMapping
  | inr outcomeJSON =>
      let* audit := auditRecords (Event.proposal signed) outcome (LAppliedAt context)
                      (StoreRecords.ResultIndex (LPriorHeads context) + 1) in
      let* (upserts, deletes) := leaseDeadlineChanges changes context in
      inr (StoreRecords.mkApplyRequest 0 0 (LAppliedAt context) (LRecoveryGeneration context) signed
             (StoreRecords.mkCommandOutcome (storeStatus (Reducer.OStatus outcome))
                (Reducer.Code_text (Reducer.OCode outcome)) outcomeJSON)
             (projectionWrites changes) (Reducer.RecordActivity outcome)
             (if Reducer.RecordActivity outcome then Reducer.ActivityTaskID outcome
              else EmptyString)
             audit
             (checkpointRecord (Event.EventID (Event.proposal signed)) <$>
                Reducer.OCheckpoint outcome)
             upserts deletes)
  end.

Definition BuildApplyRequest (signed : Event.SignedEvent) (outcome : Reducer.Outcome)
    (context : ApplyContext) : Error + StoreRecords.ApplyRequest :=
  throw ErrInvalidApplyMapping
    when ((Term context <? 1)%N || (LogIndex context <? 1)%N ||
          negb (Domain.ValidUnsignedInteger (Term context)) ||
          negb (Domain.ValidUnsignedInteger (LogIndex context))) ;;
  let* request := buildApplyRequest signed outcome
                    (mkLocalApplyContext (RecoveryGeneration context) (AppliedAt context)
                       (OriginBootID context) (MonotonicNowNS context) (PriorHeads context)) in
  inr (StoreRecords.mkApplyRequest (Term context) (LogIndex context)
         (StoreRecords.AppliedAt request) (StoreRecords.RecoveryGeneration request)
         (StoreRecords.Proposal request) (StoreRecords.Outcome request)
         (StoreRecords.Projections request) (StoreRecords.RecordActivity request)
         (StoreRecords.ActivityTaskID request) (StoreRecords.Audit request)
         (StoreRecords.Checkpoint request) (StoreRecords.LeaseDeadlines request)
         (StoreRecords.DeleteLeaseDeadlines request)).

End Lib.

End ApplyMapping.

(** ** Package internal/store: the view of the active generation

    [Module StoreView]: [Store.View] (state_view.go), the positions, the genesis
    record and every covered row in one transaction. *)

Module StoreView.

Record StateView := mkStateView {
  SessionID : string;
  WorkspaceID : string;
  RecoveryGeneration : N;
  GenesisJSON : list N;
  AdmissionRevision : N;
  CurrentTerm : option N;
  LastRaftAppliedLogIndex : option N;
  Heads : StoreRecords.ApplyHeads;
  ProjectionStateDigest : StoreRecords.Digest;
  ProjectionRows : list Chain.LogicalRow }.

(** A position of the row; zero is NULL. *)
Definition position (value : N) : option N := if (value =? 0)%N then None else Some value.

Section Lib.
Context `{NormLib, JCSLib, CryptoLib, SQLiteJSON}.
Context `{StoreApply.DeviceTables}.

Definition View (store : StoreApply.Store) : StoreRecords.Error + StateView :=
  let tables := StoreApply.tables store in
  let* found := StoreResults.readConsensusState tables in
  match found with
  | None => inl StoreRecords.ErrApplyConflict
  | Some state =>
      match StoreResults.genesisRecords tables !! StoreResults.recoveryGeneration state with
      | None => inl StoreRecords.ErrStatement
      | Some genesis =>
          throw StoreRecords.ErrStatement
            when (StoreResults.gSessionID genesis != StoreResults.sessionID state) ;;
          throw StoreRecords.ErrIntegrityCheck
            when (negb (Domain.UUIDv7_Valid (StoreResults.sessionID state)) ||
                  negb (Domain.UUIDv4_Valid (StoreResults.gWorkspaceID genesis)) ||
                  (llen (StoreResults.gGenesisJSON genesis) =? 0)%N) ;;
          let* rows := StoreApply.projection_result
                 (ProjectionStream.projectionLogicalRows (StoreResults.projections tables)) in
          let* digest := StoreBoundary.chain_result StoreRecords.ErrIntegrityCheck
                 (Chain.StateDigest
                    (Chain.mkVersions (StoreResults.digestVersion state)
                       (StoreResults.projectionSchemaVersion state)) rows) in
          inr (mkStateView (StoreResults.sessionID state) (StoreResults.gWorkspaceID genesis)
                 (StoreResults.recoveryGeneration state) (StoreResults.gGenesisJSON genesis)
                 (StoreApply.admissionRevision store)
                 (position (StoreResults.currentTerm state))
                 (position (StoreResults.lastAppliedLogIndex state))
                 (StoreResults.headsFromConsensus state) digest rows)
      end
  end.

End Lib.

End StoreView.

(** ** Package internal/consensus: the state of a store view

    [Module StateDecode]: state_decode.go, which rebuilds the reducer's state,
    the admission snapshot and the identity keys from a view of the store: the
    metadata, the recovery key of the genesis record, the digest of the rows, and
    each row through its wire structure and its entity's validation.

    Every failure is [ErrInvalidStateView], here [None], so the order of the
    checks does not show; a table is collected from the decoded rows, which is
    refused when two rows share a key. *)

Module StateDecode.

Import GoStruct.

Record decodedState := mkDecodedState {
  Reducer_ : Reducer.State;
  Admission : PeerAdmission.Snapshot;
  VoterSet_ : VoterSet.Set_;
  CredentialAuthority_ : CredentialAuthority.Authority;
  CanonicalRef_ : Publication.CanonicalRef;
  recoveryGeneration : N;
  workspaceID : string;
  identityPublicKeys : gmap string (list N) }.

Definition IdentityPublicKey (state : decodedState) (deviceID : string) : option (list N) :=
  identityPublicKeys state !! deviceID.

Definition VoterDeviceIDs (state : decodedState) : list string :=
  VoterSet.voterDeviceIDs (VoterSet_ state).

Definition copyIdentityPublicKeys (devices : gmap string Device.Device) : gmap string (list N) :=
  Device.IdentityPublicKey <$> devices.

(** ** JSON *)

Definition null : list N := bytes_of "null".

Definition decodeRawArray (raw : list N) : option (list (list N)) :=
  if (llen raw =? 0)%N || (raw == null) then None
  else
    values ← JSON.raw_array raw;
    if existsb (λ value, value == null) values then None else Some values.

(** [decodeArray] of a text type. *)
Definition decodeArray (raw : list N) : option (list string) :=
  elements ← decodeRawArray raw; mapM JSON.text_of elements.

Definition decodeExactObject (raw : list N) (fields : list (string * kind))
    : option (gmap string wire) :=
  if (llen raw =? 0)%N || (raw == null) then None
  else
    members ← StoreRecords.rawMembers raw;
    if negb (size members =? length fields)%nat ||
       existsb (λ field : string * kind,
                  match members !! field.1 with None => true | Some value => value == null end) fields
    then None
    else unmarshal true fields raw.

Definition decodeStrictJSON (raw : list N) (fields : list (string * kind))
    : option (gmap string wire) := unmarshal true fields raw.

Definition optionalString (value : option string) : string := default EmptyString value.

(** The value when its entity's validator passes. *)
Definition valid {E A} (validate : A → option E) (value : A) : option A :=
  match validate value with Some _ => None | None => Some value end.

(** A constructor's result. *)
Definition built {E A} (result : E + A) : option A :=
  match result with inl _ => None | inr value => Some value end.

Definition decode64 (text : string) (size : N) : option (list N) :=
  built (Codec.DecodeBase64URLExact text size).

(** ** Enumerations *)

Definition ScopeKind_of : string → Reducer.ScopeKind :=
  named ApplyMapping.scopeKindText [Reducer.ScopeAgent; Reducer.ScopeBoot]
    Reducer.ScopeKindUnknown.

Definition LeaseStatus_of : string → Lease.Status :=
  named Projections.Lease_Status_text
    [Lease.StatusAbsent; Lease.StatusActive; Lease.StatusReleased] Lease.StatusUnknown.

Definition DeviceStatus_of : string → Device.Status :=
  named Projections.Device_Status_text
    [Device.StatusAbsent; Device.StatusActive; Device.StatusRequiresReadmission;
     Device.StatusRevoked] Device.StatusUnknown.

Definition ActivationSource_of : string → CredentialAuthority.ActivationSource :=
  named Projections.ActivationSource_text
    [CredentialAuthority.ActivationGenesis; CredentialAuthority.ActivationHandoff]
    CredentialAuthority.ActivationUnknown.

Definition PublicationState_of : string → Publication.State :=
  named Projections.Publication_State_text
    [Publication.StateProposed; Publication.StateApproved; Publication.StateApplied;
     Publication.StateRejected; Publication.StateWithdrawn] Publication.StateUnknown.

Definition TerminalSource_of : string → Publication.TerminalSource :=
  named Projections.TerminalSource_text
    [Publication.TerminalSourceAbsent; Publication.TerminalSourceReview;
     Publication.TerminalSourceApply; Publication.TerminalSourceWithdraw;
     Publication.TerminalSourceRecovery] Publication.TerminalSourceUnknown.

Definition ReviewVerdict_of : string → Publication.ReviewVerdict :=
  named Projections.ReviewVerdict_text
    [Publication.ReviewVerdictAbsent; Publication.ReviewVerdictApprove;
     Publication.ReviewVerdictReject] Publication.ReviewVerdictUnknown.

Definition ReviewActorType_of : string → Publication.ReviewActorType :=
  named Projections.ReviewActorType_text
    [Publication.ReviewActorAbsent; Publication.ReviewActorAgent; Publication.ReviewActorHuman]
    Publication.ReviewActorUnknown.

Definition ConflictStatus_of : string → Conflict.Status :=
  named Projections.Conflict_Status_text
    [Conflict.StatusUnresolved; Conflict.StatusResolved] Conflict.StatusUnknown.

Definition ResolutionKind_of : string → Conflict.ResolutionKind :=
  named Projections.ResolutionKind_text
    [Conflict.ResolutionKindAbsent; Conflict.ResolutionKindPublication;
     Conflict.ResolutionKindForced] Conflict.ResolutionKindUnknown.

(** The other text types have their reader with the entity; here over all of
    their values, the absent one included. *)
Definition TaskState_of : string → Task.State :=
  named Projections.Task_State_text
    [Task.StateAbsent; Task.StateBacklog; Task.StateReady; Task.StateClaimed; Task.StateInProgress;
     Task.StateBlocked; Task.StateDone; Task.StateCancelled] Task.StateUnknown.

Definition TaskReleaseReason_of : string → Task.ReleaseReason :=
  named Projections.Task_ReleaseReason_text
    [Task.ReleaseReasonAbsent; Task.ReleaseVoluntary; Task.ReleaseForced; Task.ReleaseSessionEnd;
     Task.ReleaseRecovery] Task.ReleaseReasonUnknown.

Definition LeaseReleaseReason_of : string → Lease.ReleaseReason :=
  named Projections.Lease_ReleaseReason_text
    [Lease.ReleaseReasonAbsent; Lease.ReleaseVoluntary; Lease.ReleaseForced; Lease.ReleaseExpired;
     Lease.ReleaseSessionEnded; Lease.ReleaseRecovery] Lease.ReleaseReasonUnknown.

Definition SessionState_of : string → AgentSession.State :=
  named Projections.AgentSession_State_text
    [AgentSession.StateAbsent; AgentSession.StateStarting; AgentSession.StateIdle;
     AgentSession.StateClaimed; AgentSession.StateWorking; AgentSession.StateBlocked;
     AgentSession.StateDisconnected; AgentSession.StateEnded] AgentSession.StateUnknown.

Definition EndReason_of : string → AgentSession.EndReason :=
  named Projections.EndReason_text
    [AgentSession.EndReasonAbsent; AgentSession.EndReasonClean;
     AgentSession.EndReasonDisconnectTimeout; AgentSession.EndReasonOperator;
     AgentSession.EndReasonCrashReap; AgentSession.EndReasonRecovery] AgentSession.EndReasonUnknown.

(** ** The wire structures *)

Definition originScopeWire : list (string * kind) :=
  [("device_id", KString); ("scope_kind", KString); ("scope_id", KString);
   ("last_sequence", KUint)].
Definition auditCounterWire : list (string * kind) :=
  [("device_id", KString); ("credential_epoch", KUint); ("accepted_count", KUint)].
Definition taskWire : list (string * kind) :=
  [("task_id", KString); ("title", KString); ("body", KString); ("state", KString);
   ("state_reason", KOptional); ("priority", KUint); ("blocked_by", KRaw); ("labels", KRaw);
   ("owner_device_id", KOptional); ("owner_agent_session_id", KOptional);
   ("intended_device_id", KOptional); ("last_release_reason", KOptional);
   ("entity_version", KUint); ("created_at", KString); ("updated_at", KString)].
Definition planRevisionWire : list (string * kind) :=
  [("plan_revision_id", KString); ("supersedes", KOptional); ("title", KString); ("body", KString);
   ("task_ids", KRaw); ("proposed_by_device_id", KString); ("created_at", KString)].
Definition planCurrentWire : list (string * kind) :=
  [("session_id", KString); ("plan_revision_id", KOptional); ("entity_version", KUint)].
Definition memoryRecordWire : list (string * kind) :=
  [("memory_id", KString); ("scope", KString); ("task_id", KOptional); ("key", KString);
   ("body", KString); ("supersedes", KOptional); ("created_at", KString)].
Definition leaseWire : list (string * kind) :=
  [("lease_id", KString); ("holder_device_id", KString); ("holder_agent_session_id", KString);
   ("scope", KString); ("task_id", KOptional); ("path_globs", KOptionalRaw);
   ("ttl_seconds", KUint); ("status", KString); ("release_reason", KOptional);
   ("entity_version", KUint)].
Definition deviceWire : list (string * kind) :=
  [("device_id", KString); ("role", KString); ("identity_public_key", KString);
   ("daemon_version", KString); ("max_apply_level", KUint); ("status", KString);
   ("entity_version", KUint)].
Definition voterSetWire : list (string * kind) :=
  [("session_id", KString); ("voter_device_ids", KRaw); ("voter_set_version", KUint)].
Definition credentialAuthorityWire : list (string * kind) :=
  [("session_id", KString); ("voter_device_ids", KRaw); ("voter_set_version", KUint);
   ("activation_source", KString); ("activation_checkpoint_event_id", KOptional);
   ("activation_proofs", KRaw); ("prior_authority_signer", KOptional);
   ("prior_authority_handoff", KOptional)].
Definition agentSessionWire : list (string * kind) :=
  [("agent_session_id", KString); ("device_id", KString); ("client_kind", KString);
   ("agent_profile_id", KOptional); ("state", KString); ("resume_state", KOptional);
   ("working_root_id", KString); ("end_reason", KOptional); ("entity_version", KUint)].
Definition canonicalRefWire : list (string * kind) :=
  [("ref_name", KString); ("commit_oid", KString); ("entity_version", KUint)].
Definition credentialAuthorizationWire : list (string * kind) :=
  [("session_id", KString); ("device_id", KString); ("epoch", KUint);
   ("epoch_public_key", KString); ("key_digest", KString); ("role", KString);
   ("issued_at", KString); ("not_before", KString); ("validity_seconds", KUint);
   ("authority_voter_set_version", KUint); ("clock_endorsements", KRaw);
   ("binding_signature", KString); ("authorization_chain_index", KUint)].
Definition clockEndorsementWire : list (string * kind) :=
  [("device_id", KString); ("signature", KString)].
Definition publicationWire : list (string * kind) :=
  [("publication_id", KString); ("proposal_event_id", KString);
   ("supersedes_publication_id", KOptional); ("task_id", KOptional); ("author_device_id", KString);
   ("author_agent_session_id", KString); ("base_commit", KString); ("commit_oid", KString);
   ("tree_oid", KString); ("parent_oids", KRaw); ("paths", KRaw); ("artifact_digest", KString);
   ("resolves_conflict_ids", KRaw); ("working_root_id", KString); ("staging_receipts", KRaw);
   ("state", KString); ("terminal_source", KOptional); ("canonical_lineage_member", KBool);
   ("review_verdict", KOptional); ("reviewer_device_id", KOptional);
   ("reviewer_agent_session_id", KOptional); ("review_actor_type", KOptional);
   ("decision_reason", KOptional); ("entity_version", KUint)].
Definition stagingReceiptWire : list (string * kind) :=
  [("session_id", KString); ("workspace_id", KString); ("voter_set_version", KUint);
   ("publication_metadata_digest", KString); ("voter_device_id", KString);
   ("staged_result_index", KUint); ("signature", KString)].
Definition controlFileProposalWire : list (string * kind) :=
  [("proposal_event_id", KString); ("session_id", KString); ("path", KString);
   ("operation", KString); ("content_digest", KOptional); ("content_size", KUint);
   ("diff", KString); ("proposed_by_device_id", KString); ("chain_index", KUint)].
Definition mergeConflictWire : list (string * kind) :=
  [("conflict_id", KString); ("publication_id", KString); ("merge_kind", KString);
   ("replay_commit_oid", KOptional); ("merge_base_oids", KRaw); ("canonical_commit", KString);
   ("candidate_commit", KString); ("paths", KRaw); ("status", KString);
   ("resolution_kind", KOptional); ("resolution_publication_id", KOptional);
   ("force_reason", KOptional); ("resolved_by_device_id", KOptional); ("entity_version", KUint)].
Definition sessionPolicyWire : list (string * kind) :=
  [("session_id", KString); ("values", KRaw); ("entity_version", KUint)].
Definition policyValuesWire : list (string * kind) :=
  [("checkpoint_events", KInt); ("checkpoint_interval_seconds", KInt);
   ("lease_min_ttl_seconds", KInt); ("lease_default_ttl_seconds", KInt);
   ("lease_max_ttl_seconds", KInt); ("agent_claim_limit", KInt); ("agent_lease_limit", KInt);
   ("device_claim_limit", KInt); ("device_lease_limit", KInt);
   ("advertisement_interval_seconds", KInt); ("audit_depth_per_device_per_epoch", KInt);
   ("max_member_devices", KInt); ("max_active_agent_sessions", KInt);
   ("cluster_min_apply_level", KInt)].

Section Lib.
Context `{NormLib, JCSLib, CryptoLib}.

(** ** The rows *)

Definition decodeOriginScope (raw : list N) : option Reducer.OriginScope :=
  wire ← decodeStrictJSON raw originScopeWire;
  Some (Reducer.mkOriginScope
          (Reducer.mkOriginScopeKey (text wire "device_id") (ScopeKind_of (text wire "scope_kind"))
             (text wire "scope_id"))
          (uint wire "last_sequence")).

Definition decodeAuditCounter (raw : list N) : option AuditCounter.Counter :=
  wire ← decodeStrictJSON raw auditCounterWire;
  valid AuditCounter.Validate
    (AuditCounter.mkCounter (text wire "device_id") (uint wire "credential_epoch")
       (uint wire "accepted_count")).

Definition decodeTask (raw : list N) : option Task.Task :=
  wire ← decodeStrictJSON raw taskWire;
  if (Task.MaxPriority <? uint wire "priority")%N then None else
  blockedBy ← decodeArray (GoStruct.raw wire "blocked_by");
  labels ← decodeArray (GoStruct.raw wire "labels");
  valid Task.Validate
    (Task.mkTask (text wire "task_id") (text wire "title") (text wire "body")
       (TaskState_of (text wire "state")) (optional wire "state_reason") (uint wire "priority")
       blockedBy labels (optionalString (optional wire "owner_device_id"))
       (optionalString (optional wire "owner_agent_session_id"))
       (optionalString (optional wire "intended_device_id"))
       (TaskReleaseReason_of (optionalString (optional wire "last_release_reason")))
       (uint wire "entity_version") (text wire "created_at") (text wire "updated_at")).

Definition decodePlanRevision (raw : list N) : option Plan.Revision :=
  wire ← decodeStrictJSON raw planRevisionWire;
  taskIDs ← decodeArray (GoStruct.raw wire "task_ids");
  built (Plan.NewRevision (text wire "plan_revision_id")
           (optionalString (optional wire "supersedes")) (text wire "title") (text wire "body")
           taskIDs (text wire "proposed_by_device_id") (text wire "created_at")).

Definition decodePlanCurrent (raw : list N) : option Plan.Current :=
  wire ← decodeStrictJSON raw planCurrentWire;
  valid Plan.Current_Validate
    (Plan.mkCurrent (text wire "session_id") (optionalString (optional wire "plan_revision_id"))
       (uint wire "entity_version")).

Definition decodeMemoryRecord (raw : list N) : option Memory.Record_ :=
  wire ← decodeStrictJSON raw memoryRecordWire;
  built (Memory.NewRecord (text wire "memory_id") (Memory.Scope_of (text wire "scope"))
           (optionalString (optional wire "task_id")) (text wire "key") (text wire "body")
           (optionalString (optional wire "supersedes")) (text wire "created_at")).

Definition decodeLease (raw : list N) : option Lease.Lease :=
  wire ← decodeStrictJSON raw leaseWire;
  patterns ← match optional_raw wire "path_globs" with
             | None => Some []
             | Some globs => decodeArray globs
             end;
  built (Lease.New
           (Lease.mkFields (text wire "lease_id") (text wire "holder_device_id")
              (text wire "holder_agent_session_id") (Lease.Scope_of (text wire "scope"))
              (optionalString (optional wire "task_id"))
              (ApplyMapping.int64_wrap (Z.of_N (uint wire "ttl_seconds")))
              (LeaseStatus_of (text wire "status"))
              (LeaseReleaseReason_of (optionalString (optional wire "release_reason")))
              (uint wire "entity_version"))
           patterns).

Definition decodeDevice (raw : list N) : option Device.Device :=
  wire ← decodeStrictJSON raw deviceWire;
  key ← decode64 (text wire "identity_public_key") Crypto.Ed25519PublicKeySize;
  valid Device.Validate
    (Device.mkDevice (text wire "device_id") (Device.Role_of (text wire "role")) key
       (text wire "daemon_version") (uint wire "max_apply_level")
       (DeviceStatus_of (text wire "status")) (uint wire "entity_version")).

Definition decodeVoterSet (raw : list N) : option VoterSet.Set_ :=
  wire ← decodeStrictJSON raw voterSetWire;
  ids ← decodeArray (GoStruct.raw wire "voter_device_ids");
  built (VoterSet.New (text wire "session_id") ids (uint wire "voter_set_version")).

(** A proof is the voter's at its position, or nobody's. *)
Fixpoint activationProofs (voterIDs : list string) (objects : list (list N))
    : list CredentialAuthority.ActivationProof :=
  match objects with
  | [] => []
  | object :: rest =>
      CredentialAuthority.mkActivationProof (default EmptyString (head voterIDs)) object
        :: activationProofs (tail voterIDs) rest
  end.

Definition decodeCredentialAuthority (raw : list N) : option CredentialAuthority.Authority :=
  wire ← decodeStrictJSON raw credentialAuthorityWire;
  voterIDs ← decodeArray (GoStruct.raw wire "voter_device_ids");
  proofObjects ← decodeRawArray (GoStruct.raw wire "activation_proofs");
  handoff ← match optional wire "prior_authority_handoff" with
            | None => Some None
            | Some encoded => Some <$> decode64 encoded Crypto.Ed25519SignatureSize
            end;
  valid CredentialAuthority.Validate
    (CredentialAuthority.mkAuthority (text wire "session_id") voterIDs
       (uint wire "voter_set_version") (ActivationSource_of (text wire "activation_source"))
       (optionalString (optional wire "activation_checkpoint_event_id"))
       (activationProofs voterIDs proofObjects)
       (optionalString (optional wire "prior_authority_signer")) handoff).

Definition decodeAgentSession (raw : list N) : option AgentSession.Session :=
  wire ← decodeStrictJSON raw agentSessionWire;
  valid AgentSession.Validate
    (AgentSession.mkSession (text wire "agent_session_id") (text wire "device_id")
       (AgentSession.ClientKind_of (text wire "client_kind")) (optional wire "agent_profile_id")
       (SessionState_of (text wire "state"))
       (SessionState_of (optionalString (optional wire "resume_state")))
       (text wire "working_root_id")
       (EndReason_of (optionalString (optional wire "end_reason"))) (uint wire "entity_version")).

Definition decodeCanonicalRef (raw : list N) : option Publication.CanonicalRef :=
  wire ← decodeStrictJSON raw canonicalRefWire;
  valid Publication.CanonicalRef_Validate
    (Publication.mkCanonicalRef (text wire "ref_name") (text wire "commit_oid")
       (uint wire "entity_version")).

Definition decodeEndorsement (raw : list N) : option CredentialAuthorization.ClockEndorsement :=
  wire ← decodeExactObject raw clockEndorsementWire;
  signature ← decode64 (text wire "signature") Crypto.Ed25519SignatureSize;
  Some (CredentialAuthorization.mkClockEndorsement (text wire "device_id") signature).

Definition decodeCredentialAuthorization (raw : list N)
    : option CredentialAuthorization.Authorization :=
  wire ← decodeStrictJSON raw credentialAuthorizationWire;
  publicKey ← decode64 (text wire "epoch_public_key") Crypto.Ed25519PublicKeySize;
  keyDigest ← decode64 (text wire "key_digest") Crypto.SHA256Size;
  binding ← decode64 (text wire "binding_signature") Crypto.Ed25519SignatureSize;
  endorsementObjects ← decodeRawArray (GoStruct.raw wire "clock_endorsements");
  endorsements ← mapM decodeEndorsement endorsementObjects;
  valid CredentialAuthorization.Validate
    (CredentialAuthorization.mkAuthorization (text wire "session_id") (text wire "device_id")
       (uint wire "epoch") publicKey keyDigest (CredentialAuthorization.Role_of (text wire "role"))
       (text wire "issued_at") (text wire "not_before") (uint wire "validity_seconds")
       (uint wire "authority_voter_set_version") endorsements binding
       (uint wire "authorization_chain_index")).

Definition decodeStagingReceipt (raw : list N) : option Publication.StagingReceipt :=
  wire ← decodeExactObject raw stagingReceiptWire;
  digest ← decode64 (text wire "publication_metadata_digest") Crypto.SHA256Size;
  signature ← decode64 (text wire "signature") Crypto.Ed25519SignatureSize;
  Some (Publication.mkStagingReceipt (text wire "session_id") (text wire "workspace_id")
          (uint wire "voter_set_version") (of_bytes digest) (text wire "voter_device_id")
          (uint wire "staged_result_index") (of_bytes signature)).

Definition decodeStagingReceipts (raw : list N) : option (list Publication.StagingReceipt) :=
  objects ← decodeRawArray raw;
  receipts ← mapM decodeStagingReceipt objects;
  valid Publication.ValidateStagingReceipts receipts.

Definition decodePublication (raw : list N) : option Publication.Publication :=
  wire ← decodeStrictJSON raw publicationWire;
  parentOIDs ← decodeArray (GoStruct.raw wire "parent_oids");
  paths ← decodeArray (GoStruct.raw wire "paths");
  conflictIDs ← decodeArray (GoStruct.raw wire "resolves_conflict_ids");
  artifactDigest ← decode64 (text wire "artifact_digest") Crypto.SHA256Size;
  receipts ← decodeStagingReceipts (GoStruct.raw wire "staging_receipts");
  valid Publication.Validate
    (Publication.mkPublication
       (Publication.mkMetadata (text wire "publication_id") (text wire "proposal_event_id")
          (optionalString (optional wire "supersedes_publication_id"))
          (optionalString (optional wire "task_id")) (text wire "author_device_id")
          (text wire "author_agent_session_id") (text wire "base_commit") (text wire "commit_oid")
          (text wire "tree_oid") parentOIDs paths (of_bytes artifactDigest) conflictIDs
          (text wire "working_root_id"))
       receipts (PublicationState_of (text wire "state"))
       (TerminalSource_of (optionalString (optional wire "terminal_source")))
       (bool_ wire "canonical_lineage_member")
       (ReviewVerdict_of (optionalString (optional wire "review_verdict")))
       (optionalString (optional wire "reviewer_device_id"))
       (optionalString (optional wire "reviewer_agent_session_id"))
       (ReviewActorType_of (optionalString (optional wire "review_actor_type")))
       (optional wire "decision_reason") (uint wire "entity_version")).

Definition decodeControlFileProposal (raw : list N) : option ControlFile.Proposal :=
  wire ← decodeStrictJSON raw controlFileProposalWire;
  contentDigest ← match optional wire "content_digest" with
                  | None => Some None
                  | Some encoded => Some <$> decode64 encoded Crypto.SHA256Size
                  end;
  valid ControlFile.Validate
    (ControlFile.mkProposal (text wire "proposal_event_id") (text wire "session_id")
       (text wire "path") (ControlFile.Operation_of (text wire "operation")) contentDigest
       (uint wire "content_size") (text wire "diff") (text wire "proposed_by_device_id")
       (uint wire "chain_index")).

Definition decodeMergeConflict (raw : list N) : option Conflict.Conflict :=
  wire ← decodeStrictJSON raw mergeConflictWire;
  mergeBases ← decodeArray (GoStruct.raw wire "merge_base_oids");
  paths ← decodeArray (GoStruct.raw wire "paths");
  valid Conflict.Validate
    (Conflict.mkConflict
       (Conflict.mkDetection (text wire "conflict_id") (text wire "publication_id")
          (Conflict.MergeKind_of (text wire "merge_kind"))
          (optionalString (optional wire "replay_commit_oid")) mergeBases
          (text wire "canonical_commit") (text wire "candidate_commit") paths)
       (ConflictStatus_of (text wire "status"))
       (ResolutionKind_of (optionalString (optional wire "resolution_kind")))
       (optionalString (optional wire "resolution_publication_id"))
       (optionalString (optional wire "force_reason"))
       (optionalString (optional wire "resolved_by_device_id")) (uint wire "entity_version")).

Definition decodeSessionPolicy (raw : list N) : option Policy.Policy :=
  wire ← decodeStrictJSON raw sessionPolicyWire;
  values ← decodeExactObject (GoStruct.raw wire "values") policyValuesWire;
  valid Policy.Validate
    (Policy.mkPolicy (text wire "session_id")
       (Policy.mkValues (int values "checkpoint_events") (int values "checkpoint_interval_seconds")
          (int values "lease_min_ttl_seconds") (int values "lease_default_ttl_seconds")
          (int values "lease_max_ttl_seconds") (int values "agent_claim_limit")
          (int values "agent_lease_limit") (int values "device_claim_limit")
          (int values "device_lease_limit") (int values "advertisement_interval_seconds")
          (int values "audit_depth_per_device_per_epoch") (int values "max_member_devices")
          (int values "max_active_agent_sessions") (int values "cluster_min_apply_level"))
       (uint wire "entity_version")).

(** ** The tables *)

(** The decoded rows of a table. *)
Definition tableRows {V} (decode : list N → option V) (table : string)
    (rows : list Chain.LogicalRow) : option (list V) :=
  mapM (decode ∘ Chain.Row) (filter (λ row, Chain.Table row = table) rows).

(** A table by its key; a duplicate is refused. *)
Definition keyedTable `{Countable K} {V} (key : V → K) (values : option (list V))
    : option (gmap K V) :=
  values ← values;
  if bool_decide (NoDup (key <$> values))
  then Some (list_to_map ((λ v, (key v, v)) <$> values)) else None.

(** A table of exactly one row. *)
Definition singleton_ {V} (values : option (list V)) : option V :=
  match values with Some [value] => Some value | _ => None end.

(** [newSnapshot] and [decodeProjectionRows]. *)
Definition decodeProjectionRows (view : StoreView.StateView) (recoveryPublicKey : list N)
    : option StateLoad.Snapshot :=
  let rows := StoreView.ProjectionRows view in
  if existsb (λ row, negb (bool_decide (Chain.Table row ∈ Chain.CoveredTables))) rows then None else
  originScopes ← keyedTable Reducer.ScopeKey (tableRows decodeOriginScope "origin_scopes" rows);
  auditCounters ← keyedTable AuditCounter.DeviceID
                    (tableRows decodeAuditCounter "audit_counters" rows);
  tasks ← keyedTable Task.ID (tableRows decodeTask "tasks" rows);
  planRevisions ← keyedTable Plan.id_ (tableRows decodePlanRevision "plan_revisions" rows);
  planCurrent ← singleton_ (tableRows decodePlanCurrent "plan_current" rows);
  memoryRecords ← keyedTable Memory.id_ (tableRows decodeMemoryRecord "memory_records" rows);
  leases ← keyedTable Lease.ID (tableRows decodeLease "leases" rows);
  devices ← keyedTable Device.ID (tableRows decodeDevice "devices" rows);
  voterSet ← singleton_ (tableRows decodeVoterSet "voter_set" rows);
  credentialAuthority ← singleton_
                          (tableRows decodeCredentialAuthority "credential_authority" rows);
  agentSessions ← keyedTable AgentSession.ID (tableRows decodeAgentSession "agent_sessions" rows);
  canonicalRef ← singleton_ (tableRows decodeCanonicalRef "canonical_refs" rows);
  authorizations ← keyedTable CredentialAuthorization.PrimaryKey
                     (tableRows decodeCredentialAuthorization "credential_authorizations" rows);
  publications ← keyedTable RepositoryState.publicationID (tableRows decodePublication "publications" rows);
  proposals ← keyedTable ControlFile.ProposalEventID
                (tableRows decodeControlFileProposal "control_file_proposals" rows);
  conflicts ← keyedTable RepositoryState.conflictID (tableRows decodeMergeConflict "merge_conflicts" rows);
  policy ← singleton_ (tableRows decodeSessionPolicy "session_policy" rows);
  Some (StateLoad.mkSnapshot (StoreView.SessionID view) (StoreView.WorkspaceID view)
          (StoreView.RecoveryGeneration view) recoveryPublicKey
          (StoreRecords.ChainIndex (StoreView.Heads view))
          (StoreRecords.ResultIndex (StoreView.Heads view)) originScopes auditCounters devices
          voterSet credentialAuthority authorizations agentSessions tasks planRevisions planCurrent
          memoryRecords leases policy canonicalRef publications proposals conflicts).

(** ** The view *)

Definition invalidPosition (position : option N) : bool :=
  match position with
  | None => false
  | Some value => (value <? 1)%N || negb (Domain.ValidUnsignedInteger value)
  end.

Definition validateStateViewMetadata (view : StoreView.StateView) : bool :=
  let heads := StoreView.Heads view in
  Domain.UUIDv7_Valid (StoreView.SessionID view) &&
  Domain.UUIDv4_Valid (StoreView.WorkspaceID view) &&
  Bool.eqb (bool_decide (StoreView.CurrentTerm view = None))
    (bool_decide (StoreView.LastRaftAppliedLogIndex view = None)) &&
  Domain.ValidUnsignedInteger (StoreView.RecoveryGeneration view) &&
  Domain.ValidUnsignedInteger (StoreRecords.ChainIndex heads) &&
  Domain.ValidUnsignedInteger (StoreRecords.ResultIndex heads) &&
  (StoreRecords.ChainIndex heads <=? StoreRecords.ResultIndex heads)%N &&
  (1 <=? StoreRecords.DigestVersion heads)%N &&
  Domain.ValidUnsignedInteger (StoreRecords.DigestVersion heads) &&
  (1 <=? StoreRecords.ProjectionSchemaVersion heads)%N &&
  Domain.ValidUnsignedInteger (StoreRecords.ProjectionSchemaVersion heads) &&
  negb (invalidPosition (StoreView.CurrentTerm view)) &&
  negb (invalidPosition (StoreView.LastRaftAppliedLogIndex view)).

(** A member that is there and not null. *)
Definition genesisMember (members : gmap string (list N)) (name : string) : option (list N) :=
  raw ← members !! name; if raw == null then None else Some raw.

Definition requireGenesisValue (members : gmap string (list N)) (name expected : string) : bool :=
  bool_decide ((genesisMember members name ≫= JSON.text_of) = Some expected).

Definition recoveryPublicKeyFromGenesis (view : StoreView.StateView) : option (list N) :=
  let genesis := StoreView.GenesisJSON view in
  canonical ← built (Codec.CanonicalizeSignedObject genesis);
  if canonical != genesis then None else
  members ← StoreRecords.rawMembers genesis;
  if negb (requireGenesisValue members "session_id" (StoreView.SessionID view)) then None else
  if negb (requireGenesisValue members "workspace_id" (StoreView.WorkspaceID view)) then None else
  rawGeneration ← genesisMember members "recovery_generation";
  generation ← StoreRecords.uint_of rawGeneration;
  if negb (generation =? StoreView.RecoveryGeneration view)%N then None else
  rawKey ← genesisMember members "recovery_public_key";
  encodedKey ← JSON.text_of rawKey;
  decode64 encodedKey Crypto.Ed25519PublicKeySize.

Definition decodeReducerStateView (view : StoreView.StateView)
    : option (StateLoad.Snapshot * Reducer.State) :=
  if negb (validateStateViewMetadata view) then None else
  recoveryPublicKey ← recoveryPublicKeyFromGenesis view;
  digest ← built (Chain.StateDigest
                    (Chain.mkVersions (StoreRecords.DigestVersion (StoreView.Heads view))
                       (StoreRecords.ProjectionSchemaVersion (StoreView.Heads view)))
                    (StoreView.ProjectionRows view));
  if digest != StoreView.ProjectionStateDigest view then None else
  snapshot ← decodeProjectionRows view recoveryPublicKey;
  state ← built (StateLoad.NewState snapshot);
  Some (snapshot, state).

Definition CanonicalCoverageSnapshot (state : decodedState) : option Coverage.Snapshot :=
  built (Coverage.NewSnapshot
           (Coverage.mkRequirement (VoterSet.SessionID (VoterSet_ state)) (workspaceID state)
              (VoterSet_ state) (CanonicalRef_ state))
           (identityPublicKeys state)).

Definition decodeStateView (view : StoreView.StateView) : option decodedState :=
  '(snapshot, state) ← decodeReducerStateView view;
  admission ← PeerAdmission.NewSnapshot
    (PeerAdmission.mkSnapshotInput (StoreView.SessionID view) (StoreView.RecoveryGeneration view)
       (StoreRecords.ChainIndex (StoreView.Heads view)) (StateLoad.SDevices snapshot)
       (StateLoad.SAuditCounters snapshot) (StateLoad.SCredentialAuthority snapshot)
       (StateLoad.SCredentialAuthorizations snapshot));
  let decoded :=
    mkDecodedState state admission (StateLoad.SVoterSet snapshot)
      (StateLoad.SCredentialAuthority snapshot) (StateLoad.SCanonicalRef snapshot)
      (StoreView.RecoveryGeneration view) (StoreView.WorkspaceID view)
      (copyIdentityPublicKeys (StateLoad.SDevices snapshot)) in
  _ ← CanonicalCoverageSnapshot decoded;
  Some decoded.

End Lib.

End StateDecode.
