(* ===== verification/ConsensusFSM.v ===== *)
(** * Package internal/consensus: the replicated state machine

    [Module ChangeFeed]: the bounded, coalescing fan-out of authorization
    changes (change_feed.go). [Module FSM]: one committed log entry against the
    durable store and the state in memory (fsm.go, fsm_apply_state.go).

    A call returns the machine it leaves; the mutexes make calls one at a time,
    so a run is a sequence of calls. The clock's reading, the failpoint of the
    transaction, which stands for any failure of it, and the spare cells that
    [append] left past the slice of active leases are arguments. A call that
    fails returns its cause and the machine it leaves: the prospective state is a
    copy of the struct in memory and shares its maps, so a failure after
    [State.Apply] leaves the refused rows in them. *)

From stdpp Require Import base gmap strings list.
From Stdlib Require Import ZArith NArith Lia.
From S2P Require Import Prelude.
From S2P Require Import GoLib.
From S2P Require Import GoJson.
From S2P Require Import CodecLayer.
From S2P Require Import DomainValues.
From S2P Require Import DeviceEntity.
From S2P Require Import EventModel.
From S2P Require Import EventWire.
From S2P Require Import ReducerState.
From S2P Require Import Preflight.
From S2P Require Import CredentialReducers.
From S2P Require Import StateApply.
From S2P Require Import Dispatch.
From S2P Require Import PeerAdmission.
From S2P Require Import ProjectionRows.
From S2P Require Import ProjectionStore.
From S2P Require Import CommandPayload.
From S2P Require Import StoreRecords.
From S2P Require Import StoreResults.
From S2P Require Import StoreApply.
From S2P Require Import StateMapping.
From S2P Require Import ProjectionStream.

Module ChangeFeed.

Definition authorizationChangeSubscribersMax : nat := 8.

(** A channel of capacity one: whether its slot is taken. *)
Record changeFeed := mkFeed {
  nextID : N;
  closed : bool;
  subscribers : gmap N bool }.

Definition newChangeFeed : changeFeed := mkFeed 0 false ∅.

(** The new subscriber's identifier; [None] is a closed channel. *)
Definition subscribeWithInitial (feed : changeFeed) (initial : bool) : changeFeed * option N :=
  if closed feed || (authorizationChangeSubscribersMax <=? size (subscribers feed))%nat
  then (feed, None)
  else
    let id := u64_succ (nextID feed) in
    (mkFeed id false (<[id := initial]> (subscribers feed)), Some id).

Definition subscribe (feed : changeFeed) : changeFeed * option N := subscribeWithInitial feed true.
Definition subscribeWithoutInitial (feed : changeFeed) : changeFeed * option N :=
  subscribeWithInitial feed false.

Definition signal (feed : changeFeed) : changeFeed :=
  if closed feed then feed
  else mkFeed (nextID feed) false ((λ _, true) <$> subscribers feed).

Definition close (feed : changeFeed) : changeFeed :=
  if closed feed then feed else mkFeed (nextID feed) true ∅.

Definition isClosed (feed : changeFeed) : bool := closed feed.

End ChangeFeed.

Module FSM.

Inductive LogType := LogCommand | LogConfiguration | LogOther.

#[global] Instance LogType_eq_dec : EqDecision LogType.
Proof. solve_decision. Defined.

(** The fields of [raft.Log] that are read. *)
Record Log := mkLog {
  LTerm : N;
  LIndex : N;
  LType : LogType;
  LData : list N }.

(** What [halt] is given. *)
Inductive Cause :=
  | ErrInvalidCommand
  | ErrApplyClock
  | CauseLookup (err : StoreRecords.Error)
  | CauseDuplicateChanged (err : StoreRecords.Error)
  | CauseWatermark (err : StoreRecords.Error)
  | CauseReduce (err : Reducer.StateError)
  | CauseState (err : Reducer.StateError)
  | CauseAdmission
  | CauseMapping (err : ApplyMapping.Error)
  | CauseCommit (err : StoreRecords.Error)
  | CauseFloor (err : Reducer.StateError).

(** [ErrFSMHalted at log index ...: cause]. *)
Record HaltError := mkHaltError { HIndex : N; HCause : Cause }.

Record fsmApplyState := mkFSMApplyState {
  sessionID : string;
  workspaceID : string;
  recoveryGeneration : N;
  heads : StoreRecords.ApplyHeads;
  lastRaftAppliedLogIndex : N;
  admissionRevision : N;
  reducer : Reducer.State;
  admission : PeerAdmission.Snapshot;
  identityPublicKeys : gmap string (list N) }.

Record peerAdmissionPublication := mkPublication {
  revision : N;
  snapshot : PeerAdmission.Snapshot }.

(** [Result] is the zero value when there is an error. *)
Record ApplyResponse := mkApplyResponse {
  RLogIndex : N;
  Result : option StoreApply.ApplyResult;
  Err : option HaltError }.

Definition raftLogIndex (log : option Log) : N :=
  match log with None => 0 | Some log => LIndex log end.

(** ** The state in memory *)

Definition identityPublicKey (state : fsmApplyState) (deviceID : string) : option (list N) :=
  identityPublicKeys state !! deviceID.

Definition writeIdentityKeys (members : list Device.Device) (keys : gmap string (list N))
    : gmap string (list N) :=
  foldl (λ keys member, <[Device.ID member := Device.IdentityPublicKey member]> keys) keys members.

Definition advance (state : fsmApplyState) (log : Log) (result : StoreApply.ApplyResult)
    (prospective : Reducer.State) (next : PeerAdmission.Snapshot) (changes : Reducer.Changes)
    : fsmApplyState :=
  mkFSMApplyState (sessionID state) (workspaceID state) (recoveryGeneration state)
    (StoreApply.Heads result) (LIndex log) (StoreApply.AdmissionRevision result) prospective next
    (writeIdentityKeys (Reducer.Devices changes) (identityPublicKeys state)).

Definition advanceDuplicate (state : fsmApplyState) (log : Log) (result : StoreApply.ApplyResult)
    : fsmApplyState :=
  mkFSMApplyState (sessionID state) (workspaceID state) (recoveryGeneration state)
    (StoreApply.Heads result) (LIndex log) (StoreApply.AdmissionRevision result) (reducer state)
    (admission state) (identityPublicKeys state).

Definition newFSMApplyState (view : StoreView.StateView) (decoded : StateDecode.decodedState) : fsmApplyState :=
  mkFSMApplyState (StoreView.SessionID view) (StoreView.WorkspaceID view)
    (StoreView.RecoveryGeneration view) (StoreView.Heads view)
    (default 0%N (StoreView.LastRaftAppliedLogIndex view)) (StoreView.AdmissionRevision view)
    (StateDecode.Reducer_ decoded) (StateDecode.Admission decoded)
    (StateDecode.identityPublicKeys decoded).

(** ** The routing fields *)

(** encoding/json matches a member's name without regard to ASCII case: no
    letter of these names folds to another character. *)
Definition lower (b : N) : N := if in_range 65 90 b then (b + 32)%N else b.
Definition folds_to (name key : string) : bool :=
  bool_decide (lower <$> bytes_of key = bytes_of name).

(** How deep a value nests; the decoder's limit is [maxNestingDepth]. *)
Fixpoint depth (v : JSON.value) : N :=
  match v with
  | JSON.VArray items => (1 + foldr (λ item d, N.max (depth item) d) 0 items)%N
  | JSON.VObject members => (1 + foldr (λ member d, N.max (depth member.2) d) 0 members)%N
  | _ => 0
  end.

Definition maxNestingDepth : N := 10000.

(** The members in order into [origin.device_id]: null leaves the text, another
    type than a string is an error. *)
Fixpoint decodeDeviceID (members : list (string * JSON.value)) (text : string) : option string :=
  match members with
  | [] => Some text
  | (key, v) :: rest =>
      if folds_to "device_id" key then
        match v with
        | JSON.VNull => decodeDeviceID rest text
        | JSON.VString text => decodeDeviceID rest text
        | _ => None
        end
      else decodeDeviceID rest text
  end.

Fixpoint decodeOrigin (members : list (string * JSON.value)) (text : string) : option string :=
  match members with
  | [] => Some text
  | (key, v) :: rest =>
      if folds_to "origin" key then
        match v with
        | JSON.VNull => decodeOrigin rest text
        | JSON.VObject origin =>
            match decodeDeviceID origin text with
            | Some text => decodeOrigin rest text
            | None => None
            end
        | _ => None
        end
      else decodeOrigin rest text
  end.

(** [Decode] of the routing fields, then [requireJSONEOF]: only white space. *)
Definition commandRoute (input : list N) : option string :=
  match JSON.whole (JSON.read_value input) with
  | None => None
  | Some v =>
      if (maxNestingDepth <? depth v)%N then None
      else match v with
           | JSON.VNull => Some EmptyString
           | JSON.VObject members => decodeOrigin members EmptyString
           | _ => None
           end
  end.

Definition commandOriginDeviceID (input : list N) : Cause + string :=
  throw ErrInvalidCommand
    when ((llen input =? 0)%N || (Event.MaxEventBytes <? llen input)%N) ;;
  match commandRoute input with
  | None => inl ErrInvalidCommand
  | Some deviceID =>
      throw ErrInvalidCommand when (negb (Domain.DeviceID_Valid deviceID)) ;; inr deviceID
  end.

(** ** The entry *)

Definition committedCommand (log : option Log) : Cause + Log :=
  match log with
  | None => inl ErrInvalidCommand
  | Some log =>
      throw ErrInvalidCommand
        when ((LType log != LogCommand) || (LTerm log <? 1)%N || (LIndex log <? 1)%N ||
              (llen (LData log) =? 0)%N || (Event.MaxEventBytes <? llen (LData log))%N) ;;
      inr log
  end.

Definition admissionAccessChanged (changes : Reducer.Changes) : bool :=
  negb (bool_decide (Reducer.Devices changes = [])) ||
  negb (bool_decide (Reducer.CredentialAuthorizations changes = [])).

(** The clock's reading: an error, or a timestamp and a monotonic value. *)
Definition applyTime (clock : option (string * Z)) : Cause + (string * Z) :=
  match clock with
  | None => inl ErrApplyClock
  | Some (appliedAt, monotonicNow) =>
      throw ErrApplyClock when (negb (Domain.Timestamp_Valid appliedAt) || (monotonicNow <? 0)%Z) ;;
      inr (appliedAt, monotonicNow)
  end.

Definition admissionChanges (changes : Reducer.Changes) : PeerAdmission.Changes :=
  PeerAdmission.mkChanges (Reducer.AdvancesEventChain changes) (Reducer.Devices changes)
    (Reducer.AuditCounters changes) (Reducer.CredentialAuthorities changes)
    (Reducer.CredentialAuthorizations changes).

(** The reducer's state in memory after writes in its maps. *)
Definition touch (state : fsmApplyState) (shared : Reducer.State) : fsmApplyState :=
  mkFSMApplyState (sessionID state) (workspaceID state) (recoveryGeneration state) (heads state)
    (lastRaftAppliedLogIndex state) (admissionRevision state) shared (admission state)
    (identityPublicKeys state).

(** The cause an inner error becomes. *)
Definition halts {E A} (cause : E → Cause) (result : E + A) : Cause + A :=
  match result with inl err => inl (cause err) | inr value => inr value end.

Section Machine.
Context `{DeviceTables}.

Record FSM := mkFSM {
  store : StoreApply.Store;
  originBootID : string;
  publication : option peerAdmissionPublication;
  authorizationChanges : ChangeFeed.changeFeed;
  appliedCommandIndex : N;
  applyState : fsmApplyState;
  haltErr : option HaltError }.

Definition halt (fsm : FSM) (log : option Log) (cause : Cause) : FSM * ApplyResponse :=
  let index := raftLogIndex log in
  let halted :=
    match haltErr fsm with
    | Some _ => fsm
    | None =>
        mkFSM (store fsm) (originBootID fsm) (publication fsm)
          (ChangeFeed.close (authorizationChanges fsm)) (appliedCommandIndex fsm) (applyState fsm)
          (Some (mkHaltError index cause))
    end in
  (halted, mkApplyResponse index None (haltErr halted)).

Definition publishAppliedCommand (fsm : FSM) (index : N) : FSM :=
  if (index =? 0)%N || (index <=? appliedCommandIndex fsm)%N then fsm
  else mkFSM (store fsm) (originBootID fsm) (publication fsm) (authorizationChanges fsm) index
         (applyState fsm) (haltErr fsm).

Definition publishPeerAdmissionLocked (fsm : FSM) (next : PeerAdmission.Snapshot) (revision : N)
    (notify : bool) : FSM :=
  if ChangeFeed.isClosed (authorizationChanges fsm) then fsm
  else mkFSM (store fsm) (originBootID fsm) (Some (mkPublication revision next))
         (if notify then ChangeFeed.signal (authorizationChanges fsm) else authorizationChanges fsm)
         (appliedCommandIndex fsm) (applyState fsm) (haltErr fsm).

Definition set_durable (store : StoreApply.Store) (state : fsmApplyState) (fsm : FSM) : FSM :=
  mkFSM store (originBootID fsm) (publication fsm) (authorizationChanges fsm)
    (appliedCommandIndex fsm) state (haltErr fsm).

(** A step that fails leaves the machine as it is. *)
Definition leaving {A} (fsm : FSM) (result : Cause + A) : (Cause * FSM) + A :=
  match result with inl cause => inl (cause, fsm) | inr value => inr value end.

Section Lib.
Context `{NormLib, JCSLib, CryptoLib, FlateLib}.
Context `{!StoreApply.StoreSchema, !ProjectionStore.Schema}.

(** [NewFSM]; every error is [ErrInvalidFSMOptions]. The feed has the direct
    subscription; the committed Raft configuration is not part of the machine. *)
Definition NewFSM `{SQLiteJSON} (store : StoreApply.Store) (originBootID : string) : option FSM :=
  if negb (Domain.UUIDv7_Valid originBootID) then None else
  view ← StateDecode.built (StoreView.View store);
  decoded ← StateDecode.decodeStateView view;
  if bool_decide (is_Some (Preflight.ValidateBinaryApplyLevel (StateDecode.Reducer_ decoded)))
  then None
  else
    Some (mkFSM store originBootID None
            (ChangeFeed.subscribeWithoutInitial ChangeFeed.newChangeFeed).1
            (default 0%N (StoreView.LastRaftAppliedLogIndex view)) (newFSMApplyState view decoded)
            None).

Definition reduceCommitted (state : Reducer.State) (signed : Event.SignedEvent) (log : Log)
    (heads : StoreRecords.ApplyHeads) : Reducer.StateError + Reducer.Outcome :=
  if negb (Event.PKind (Event.proposal signed) == Event.KindConsensusCheckpoint)
  then Dispatch.Reduce state signed
  else
    Dispatch.ReduceCheckpoint state signed
      (CheckpointReducers.mkCheckpointApplyContext (LTerm log) (LIndex log)
         (StoreRecords.ChainIndex heads) (StoreRecords.ChainHash heads)
         (StoreRecords.ResultIndex heads) (StoreRecords.ResultHash heads)
         (StoreRecords.ProjectionAccumulator heads) (StoreRecords.DigestVersion heads)
         (StoreRecords.ProjectionSchemaVersion heads)).

(** The verified event of an entry. *)
Definition authenticate (current : fsmApplyState) (log : Log) : Cause + Event.SignedEvent :=
  let* deviceID := commandOriginDeviceID (LData log) in
  match identityPublicKey current deviceID with
  | None => inl ErrInvalidCommand
  | Some key =>
      halts (λ _, ErrInvalidCommand)
        (EventWire.ParseAndVerify (LData log)
           (Event.mkVerificationContext (sessionID current) (workspaceID current) key))
  end.

(** A duplicate that the durable watermark covers. *)
Definition coveredDuplicate (fsm : FSM) (log : Log) (signed : Event.SignedEvent)
    (lookup : StoreResults.CommandResultLookup) : Cause + (FSM * StoreApply.ApplyResult) :=
  let current := applyState fsm in
  let* _ := halts (λ _, ErrInvalidCommand)
              (StoreResults.VerifyRaftCommand (StoreApply.tables (store fsm)) (LTerm log) (LIndex log)
                 signed) in
  inr (publishAppliedCommand fsm (LIndex log),
       StoreApply.mkApplyResult (heads current) (StoreResults.LOutcome lookup)
         (admissionRevision current) true).

(** The request that only moves the watermark. *)
Definition duplicateRequest (current : fsmApplyState) (log : Log) (signed : Event.SignedEvent)
    (appliedAt : string) : StoreRecords.ApplyRequest :=
  StoreRecords.mkApplyRequest (LTerm log) (LIndex log) appliedAt (recoveryGeneration current) signed
    (StoreRecords.mkCommandOutcome (StoreRecords.OutcomeUnknown EmptyString) EmptyString [])
    (Projections.mkProjectionWrites [] [] [] [] [] [] [] [] [] [] [] [] [] [] [] [] [])
    false EmptyString [] None [] [].

Definition duplicateCause (err : StoreRecords.Error) : Cause :=
  if err == StoreRecords.ErrIdempotencyConflict then CauseDuplicateChanged err
  else CauseWatermark err.

Definition applyDuplicate (failpoint : StoreApply.applyStage → option StoreRecords.Error) (fsm : FSM)
    (log : Log) (signed : Event.SignedEvent) (appliedAt : string)
    : Cause + (FSM * StoreApply.ApplyResult) :=
  let current := applyState fsm in
  let* (result, durable) := halts duplicateCause
         (StoreApply.Apply failpoint (store fsm) (duplicateRequest current log signed appliedAt)) in
  inr (publishAppliedCommand (set_durable durable (advanceDuplicate current log result) fsm)
         (LIndex log), result).

(** A command without a result: the prospective state, its write set, the
    machine once they are durable, and whether the new floor is this binary's.
    [State.Apply] on the copy [prospective] writes the maps of the state in
    memory: [touched] is the machine from then on. *)
Definition applyNew (failpoint : StoreApply.applyStage → option StoreRecords.Error) (spare : nat)
    (fsm : FSM) (log : Log) (signed : Event.SignedEvent) (context : ApplyMapping.ApplyContext)
    : (Cause * FSM) + (FSM * StoreApply.ApplyResult * option Cause) :=
  let current := applyState fsm in
  let* outcome := leaving fsm
         (halts CauseReduce (reduceCommitted (reducer current) signed log (heads current))) in
  let changes := Reducer.OChanges outcome in
  let* (prospective, shared) := leaving fsm
         (halts CauseState (StateApply.ApplyInPlace (reducer current) spare changes)) in
  let touched := set_durable (store fsm) (touch current shared) fsm in
  match PeerAdmission.Advance (admission current) (admissionChanges changes) with
  | None => inl (CauseAdmission, touched)
  | Some nextAdmission =>
      let* request := leaving touched
             (halts CauseMapping (ApplyMapping.BuildApplyRequest signed outcome context)) in
      let* (result, durable) := leaving touched
             (halts CauseCommit (StoreApply.Apply failpoint (store touched) request)) in
      let published := publishPeerAdmissionLocked touched nextAdmission
                         (StoreApply.AdmissionRevision result) (admissionAccessChanged changes) in
      inr (publishAppliedCommand
             (set_durable durable
                (advance (applyState touched) log result prospective nextAdmission changes) published)
             (LIndex log),
           result, CauseFloor <$> Preflight.ValidateBinaryApplyLevel prospective)
  end.

(** The entry, with the cause that halts the machine after a durable step. *)
Definition applyCommand (failpoint : StoreApply.applyStage → option StoreRecords.Error) (spare : nat)
    (fsm : FSM) (log : Log) (clock : option (string * Z))
    : (Cause * FSM) + (FSM * StoreApply.ApplyResult * option Cause) :=
  let current := applyState fsm in
  let* signed := leaving fsm (authenticate current log) in
  let* duplicate := leaving fsm
         (halts CauseLookup
            (StoreResults.LookupCommandResult (StoreApply.tables (store fsm))
               (Event.EventID (Event.proposal signed)))) in
  let context appliedAt monotonicNow :=
    ApplyMapping.mkApplyContext (LTerm log) (LIndex log) (recoveryGeneration current) appliedAt
      (originBootID fsm) monotonicNow (heads current) in
  match duplicate with
  | None =>
      let* (appliedAt, monotonicNow) := leaving fsm (applyTime clock) in
      applyNew failpoint spare fsm log signed (context appliedAt monotonicNow)
  | Some lookup =>
      throw (ErrInvalidCommand, fsm) when (StoreResults.CanonicalProposal lookup != LData log) ;;
      if negb (lastRaftAppliedLogIndex current =? 0)%N &&
         (LIndex log <=? lastRaftAppliedLogIndex current)%N
      then
        let* covered := leaving fsm (coveredDuplicate fsm log signed lookup) in
        inr (covered, None)
      else
        throw (ErrInvalidCommand, fsm) when (lastRaftAppliedLogIndex current =? 0)%N ;;
        let* (appliedAt, _) := leaving fsm (applyTime clock) in
        let* advanced := leaving fsm (applyDuplicate failpoint fsm log signed appliedAt) in
        inr (advanced, None)
  end.

Definition Apply (failpoint : StoreApply.applyStage → option StoreRecords.Error) (spare : nat)
    (fsm : FSM) (log : option Log) (clock : option (string * Z)) : FSM * ApplyResponse :=
  match haltErr fsm with
  | Some err => (fsm, mkApplyResponse (raftLogIndex log) None (Some err))
  | None =>
      match (let* command := leaving fsm (committedCommand log) in
             applyCommand failpoint spare fsm command clock) with
      | inl (cause, failed) => halt failed log cause
      | inr (applied, _, Some cause) => halt applied log cause
      | inr (applied, result, None) =>
          (applied, mkApplyResponse (raftLogIndex log) (Some result) None)
      end
  end.

Definition preflightCompatibility (fsm : FSM) (proposal : Event.Proposal)
    : option (HaltError + Reducer.StateError) :=
  match haltErr fsm with
  | Some err => Some (inl err)
  | None => inr <$> Preflight.PreflightCompatibility (reducer (applyState fsm)) proposal
  end.

End Lib.

End Machine.

End FSM.
