(* ===== verification/DurableRows.v ===== *)
(** * The rows of the committed state after a change set

    [Module StateRows]: every table that [State.Apply] leaves is the one before
    with the rows of the change set written in order, each under its own key. *)

From stdpp Require Import base gmap strings list.
From Stdlib Require Import ZArith NArith Lia.
From S2P Require Import Prelude.
From S2P Require Import GoLib.
From S2P Require Import GoJson.
From S2P Require Import CodecLayer.
From S2P Require Import DomainValues.
From S2P Require Import TaskEntity.
From S2P Require Import LeaseEntity.
From S2P Require Import AgentSessionEntity.
From S2P Require Import VoterSetEntity.
From S2P Require Import DeviceEntity.
From S2P Require Import PlanMemoryEntity.
From S2P Require Import PolicyEntity.
From S2P Require Import ConflictEntity.
From S2P Require Import PublicationEntity.
From S2P Require Import CredentialEntity.
From S2P Require Import ReducerState.
From S2P Require Import PolicyUse.
From S2P Require Import Preflight.
From S2P Require Import StateRefs.
From S2P Require Import PlanMemoryState.
From S2P Require Import ReducerLogic.
From S2P Require Import MembershipState.
From S2P Require Import RepositoryState.
From S2P Require Import StateChanges.
From S2P Require Import StateApply.
From S2P Require Import StateIndexes.
From S2P Require Import StateProofs.
From S2P Require Import ProjectionRows.
From S2P Require Import ProjectionStore.
From S2P Require Import ProjectionProofs.
From S2P Require Import StoreRecords.
From S2P Require Import StateMapping.

Module StateRows.

Import Reducer Preflight PolicyUse StateRefs Logic PlanMemoryState MembershipState RepositoryState
  StateChanges StateApply StateIndexes StateProofs.

(** The last row of a single-row table. *)
Definition replaced {V} (values : list V) (row : V) : V := default row (head values).

Record rows_after (st : State) (changes : Changes) (st' : State) : Prop := {
  ra_scopes : originScopes st' = by_id ScopeKey (OriginScopes changes) (originScopes st);
  ra_counters : auditCounters st' =
    by_id AuditCounter.DeviceID (AuditCounters changes) (auditCounters st);
  ra_tasks : tasks st' = by_id Task.ID (Tasks changes) (tasks st);
  ra_revisions : planRevisions st' = by_id Plan.id_ (PlanRevisions changes) (planRevisions st);
  ra_current : planCurrent st' = replaced (PlanCurrent changes) (planCurrent st);
  ra_memory : memoryRecords st' = by_id Memory.id_ (MemoryRecords changes) (memoryRecords st);
  ra_leases : leases st' = by_id Lease.ID (Leases changes) (leases st);
  ra_devices : devices st' = by_id Device.ID (Devices changes) (devices st);
  ra_voters : voterSet st' = replaced (VoterSets changes) (voterSet st);
  ra_authority : credentialAuthority st' =
    replaced (CredentialAuthorities changes) (credentialAuthority st);
  ra_sessions : agentSessions st' =
    by_id AgentSession.ID (AgentSessions changes) (agentSessions st);
  ra_ref : canonicalRef st' = replaced (CanonicalRefs changes) (canonicalRef st);
  ra_authorizations : credentialAuthorizations st' =
    by_id CredentialAuthorization.PrimaryKey (CredentialAuthorizations changes)
      (credentialAuthorizations st);
  ra_publications : publications st' =
    by_id publicationID (Publications changes) (publications st);
  ra_files : controlFileProposals st' =
    by_id ControlFile.ProposalEventID (ControlFileProposals changes) (controlFileProposals st);
  ra_conflicts : mergeConflicts st' =
    by_id conflictID (MergeConflicts changes) (mergeConflicts st);
  ra_policy : sessionPolicy st' = replaced (SessionPolicy changes) (sessionPolicy st) }.

(** What no change set alters, and how the positions move. *)
Record header_after (st : State) (changes : Changes) (st' : State) : Prop := {
  ha_session : sessionID st' = sessionID st;
  ha_workspace : workspaceID st' = workspaceID st;
  ha_generation : recoveryGeneration st' = recoveryGeneration st;
  ha_recovery : recoveryPublicKey st' = recoveryPublicKey st;
  ha_chain : currentChainIndex st' =
    if AdvancesEventChain changes then u64_succ (currentChainIndex st) else currentChainIndex st;
  ha_result : currentResultIndex st' = u64_succ (currentResultIndex st) }.

(** At most one row of each single-row table, and every key once. *)
Record written_once (changes : Changes) : Prop := {
  wo_devices : length (Devices changes) ≤ 1;
  wo_counters : NoDup (AuditCounter.DeviceID <$> AuditCounters changes);
  wo_authorities : length (CredentialAuthorities changes) ≤ 1;
  wo_authorizations : length (CredentialAuthorizations changes) ≤ 1 }.

Lemma singleton_by_id `{Countable K} {V} (id : V → K) v rows :
  {[id v := v]} ∪ rows = by_id id [v] rows.
Proof. unfold by_id. simpl. by rewrite <-insert_union_singleton_l. Qed.

Section Lib.
Context `{NormLib, JCSLib, CryptoLib}.

Lemma collectDevices_rows st values pending operation r :
  collectDevices st values pending operation = Some r → r.1 = by_id Device.ID values pending.
Proof.
  revert pending operation. induction values as [|v values IH]; intros pending operation; simpl.
  { by intros [= <-]. }
  destruct (_ || _); [done|]. destruct (devices st !! Device.ID v).
  - intros (mutation & _ & Hc)%bind_Some. by apply IH in Hc.
  - destruct (fails _); [done|]. intros Hc. by apply IH in Hc.
Qed.

(** Each counter once, and no epoch goes back. *)
Lemma collectCounters_rows st values devices pending n r :
  collectCounters st values devices pending n = Some r →
  r.1 = by_id AuditCounter.DeviceID values pending ∧
  NoDup (AuditCounter.DeviceID <$> values) ∧
  (∀ v, v ∈ values → pending !! AuditCounter.DeviceID v = None ∧
     ∀ old, auditCounters st !! AuditCounter.DeviceID v = Some old →
       (AuditCounter.CredentialEpoch old ≤ AuditCounter.CredentialEpoch v)%N).
Proof.
  revert pending n. induction values as [|v values IH]; intros pending n.
  { cbn. intros [= <-]. split_and!; [done|constructor|]. intros w Hw. by apply not_elem_of_nil in Hw. }
  cbn [collectCounters]. destruct (_ || _) eqn:Hc; [done|].
  apply orb_false_iff in Hc as [_ Hfresh%present_None].
  intros Hr. assert (∃ n', collectCounters st values devices
      (<[AuditCounter.DeviceID v := v]> pending) n' = Some r ∧
      ∀ old, auditCounters st !! AuditCounter.DeviceID v = Some old →
        (AuditCounter.CredentialEpoch old ≤ AuditCounter.CredentialEpoch v)%N)
    as (n' & (Heq & Hnd & Hall)%IH & Hepoch).
  { destruct (auditCounters st !! AuditCounter.DeviceID v) as [old|] eqn:Hold.
    - destruct (validAuditCounterMutation old v) eqn:Hm; [|done]. simpl in Hr. eexists. split; [exact Hr|].
      intros ? [= <-]. unfold validAuditCounterMutation in Hm.
      apply andb_true_iff in Hm as [_ Hm]. destruct (_ =? _)%N eqn:He in Hm; bools; [lia|].
      destruct Hm as [[Hlt ->] _]. rewrite u64_succ_small; [lia|].
      unfold Domain.MaxSafeInteger, u64_modulus in *. lia.
    - destruct (_ || _ || _); [done|]. eexists. split; [exact Hr|done]. }
  split_and!.
  - rewrite Heq. done.
  - cbn. apply NoDup_cons. split; [|done]. intros (w & Hw & Hin)%list_elem_of_fmap.
    destruct (Hall w Hin) as [Hl _]. by rewrite <-Hw, lookup_insert_eq in Hl.
  - intros w [->|Hin]%elem_of_cons; [done|]. destruct (Hall w Hin) as [Hl He]. split; [|done].
    by apply lookup_insert_None in Hl as [? _].
Qed.

Lemma membership_rows st changes p :
  validateMembershipChanges st changes = Some p →
  pmDevices p = by_id Device.ID (Devices changes) ∅ ∧
  pmAuditCounters p = by_id AuditCounter.DeviceID (AuditCounters changes) ∅ ∧
  pmVoterSet p = head (VoterSets changes) ∧
  pmCredentialAuthority p = head (CredentialAuthorities changes) ∧
  length (Devices changes) ≤ 1 ∧ length (CredentialAuthorities changes) ≤ 1 ∧
  NoDup (AuditCounter.DeviceID <$> AuditCounters changes) ∧
  (∀ v old, v ∈ AuditCounters changes → auditCounters st !! AuditCounter.DeviceID v = Some old →
     (AuditCounter.CredentialEpoch old ≤ AuditCounter.CredentialEpoch v)%N).
Proof.
  unfold validateMembershipChanges. destruct (_ || _) eqn:Hlen; [done|].
  apply orb_false_iff in Hlen as [Hlen _]. apply orb_false_iff in Hlen as [Hlen Hauth].
  apply orb_false_iff in Hlen as [Hdev _]. apply Nat.ltb_ge in Hdev, Hauth.
  intros ([devs op] & Hd%collectDevices_rows & Hv)%bind_Some.
  apply bind_Some in Hv as ([counters n] & (Hc & Hnd & Hall)%collectCounters_rows & Hv).
  simpl in Hd, Hc. subst devs counters.
  destruct (_ && _); [done|]. destruct (negb _); [done|]. destruct (negb _); [done|].
  apply bind_Some in Hv as (target & Ht & Hv). apply bind_Some in Hv as (authority & Ha & Hv).
  destruct (validateMembershipTopology _ _ _ _ _); [|done]. injection Hv as <-. simpl.
  split_and!; try done.
  - unfold voterSetChange in Ht. destruct (VoterSets changes); simpl; [by injection Ht|].
    destruct (_ && _); [done|]. destruct (fails _); [done|]. by injection Ht.
  - unfold authorityChange in Ha. destruct (CredentialAuthorities changes); simpl; [by injection Ha|].
    destruct (_ || _); [done|]. by injection Ha.
  - intros v old Hin Hold. by apply (Hall v Hin).
Qed.

Lemma credential_rows st changes membership r :
  validateCredentialChanges st changes membership = Some r →
  r = by_id CredentialAuthorization.PrimaryKey (CredentialAuthorizations changes) ∅ ∧
  length (CredentialAuthorizations changes) ≤ 1.
Proof.
  unfold validateCredentialChanges. destruct (CredentialAuthorizations changes) as [|v [|]]; [| |done].
  - destruct (forallb _ _); [|done]. intros [= <-]. split; [done|simpl; lia].
  - destruct (_ || _); [done|]. destruct (credentialChangeOk _ _ _); [|done]. intros [= <-].
    split; [done|simpl; lia].
Qed.

Lemma file_rows st values r :
  validateControlFileChanges st values = Some r → r = by_id ControlFile.ProposalEventID values ∅.
Proof.
  unfold validateControlFileChanges. destruct values as [|v [|]]; [by intros [= <-]| |done].
  destruct (_ && _); [|done]. by intros [= <-].
Qed.

Lemma policy_rows st values r : validatePolicyChanges st values = Some r → r = head values.
Proof.
  unfold validatePolicyChanges. destruct values as [|v [|]]; [by intros [= <-]| |done].
  destruct (_ || _); [done|]. by intros [= <-].
Qed.

Lemma repository_rows st changes r :
  validateRepositoryChanges st changes = Some r →
  prCanonicalRef r = head (CanonicalRefs changes) ∧
  prPublications r = by_id publicationID (Publications changes) ∅ ∧
  prMergeConflicts r = by_id conflictID (MergeConflicts changes) ∅.
Proof.
  unfold validateRepositoryChanges. destruct (_ || _) eqn:Hlen; [done|].
  apply orb_false_iff in Hlen as [Hlen _]. apply orb_false_iff in Hlen as [Hlen Hconf].
  apply orb_false_iff in Hlen as [Hrefs Hpubs].
  intros ([pubs operation] & Hp & (ref & Href & Hr)%bind_Some)%bind_Some.
  match type of Hr with (if ?c then _ else _) = _ => destruct c; [done|] end.
  assert (prPublications r = pubs ∧ prCanonicalRef r = ref ∧ prMergeConflicts r =
      list_to_map ((λ value, (conflictID value, value)) <$> MergeConflicts changes)) as (-> & -> & ->).
  { destruct (MergeConflicts changes) as [|value rest]; [by simplify_eq|].
    apply bind_Some in Hr as ([t n] & _ & Hr). by simplify_eq. }
  clear Hr. split_and!.
  - unfold canonicalRefChange in Href. destruct (CanonicalRefs changes) as [|next [|]]; [| |done].
    + destruct (_ == _) in Href; [done|by injection Href].
    + destruct (Publications changes) as [|? [|]]; [done| |done].
      destruct (_ && _); [by injection Href|done].
  - destruct (Publications changes) as [|next [|]]; simpl in Hp, Hpubs; [by injection Hp| |done].
    destruct (fails _); [done|]. destruct (publications st !! publicationID next).
    + apply bind_Some in Hp as (op & _ & Hp). by injection Hp.
    + destruct (publicationBaseline _ _); [by injection Hp|done].
  - destruct (MergeConflicts changes) as [|next [|]]; [done|done|done].
Qed.

Lemma coordination_rows st changes taskIDs p :
  validatePlanMemoryChanges st changes taskIDs = Some p →
  pendingRevisions p = by_id Plan.id_ (PlanRevisions changes) ∅ ∧
  pendingCurrent p = head (PlanCurrent changes) ∧
  pendingRecords p = by_id Memory.id_ (MemoryRecords changes) ∅.
Proof.
  intros Hp. pose proof Hp as (Hrev & _ & _ & Hrec & _)%validatePlanMemoryChanges_inv.
  apply collectImmutable_inv in Hrev as [-> _], Hrec as [-> _]. split_and!; [done| |done].
  unfold validatePlanMemoryChanges in Hp. apply bind_Some in Hp as (revisions & _ & Hp).
  destruct (_ || _); [done|]. apply bind_Some in Hp as (current & Hc & Hp).
  apply bind_Some in Hp as (records & _ & Hp). destruct (_ || _); [done|]. injection Hp as <-. simpl.
  destruct (PlanCurrent changes) as [|v [|]]; [by injection Hc| |done].
  destruct (currentChangeOk _ _ _); [by injection Hc|done].
Qed.

(** The tables after a change set. *)
Lemma Apply_rows st changes st' : Apply st changes = inr st' → rows_after st changes st'.
Proof.
  intros Ha. pose proof Ha as (p & Hck & Heq)%Apply_inv.
  destruct (membership_rows _ _ _ (ck_membership _ _ _ Hck)) as (Hd & Hc & Hv & Hau & _).
  destruct (credential_rows _ _ _ _ (ck_credentials _ _ _ Hck)) as [Hcr _].
  pose proof (policy_rows _ _ _ (ck_policy _ _ _ Hck)) as Hpo.
  destruct (repository_rows _ _ _ (ck_repository _ _ _ Hck)) as (Href & Hpub & Hcon).
  pose proof (file_rows _ _ _ (ck_files _ _ _ Hck)) as Hfi.
  destruct (ck_rows _ _ _ Hck) as (scopes & sessions & taskRows & _ & _ & _ & _ & Hpm & _).
  destruct (coordination_rows _ _ _ _ Hpm) as (Hre & Hcu & Hme).
  pose proof (proj1 (Apply_sessions _ _ _ Ha)) as Hse. pose proof (proj1 (Apply_tasks _ _ _ Ha)) as Hta.
  pose proof (proj1 (Apply_leases _ _ _ Ha)) as Hle.
  subst st'. constructor; try done; unfold written; cbn [auditCounters planRevisions planCurrent
    memoryRecords devices voterSet credentialAuthority canonicalRef credentialAuthorizations
    publications controlFileProposals mergeConflicts sessionPolicy];
    rewrite ?Hd, ?Hc, ?Hv, ?Hau, ?Hcr, ?Hpo, ?Href, ?Hpub, ?Hcon, ?Hfi, ?Hre, ?Hcu, ?Hme; try done;
    by rewrite <-by_id_union.
Qed.

Lemma Apply_header st changes st' : Apply st changes = inr st' → header_after st changes st'.
Proof. by intros (p & _ & ->)%Apply_inv. Qed.

Lemma Apply_once st changes st' : Apply st changes = inr st' → written_once changes.
Proof.
  intros (p & Hck & _)%Apply_inv.
  destruct (membership_rows _ _ _ (ck_membership _ _ _ Hck)) as (_ & _ & _ & _ & Hd & Ha & Hc & _).
  destruct (credential_rows _ _ _ _ (ck_credentials _ _ _ Hck)) as [_ Hcr]. by constructor.
Qed.

Lemma Apply_epochs st changes st' v old :
  Apply st changes = inr st' → v ∈ AuditCounters changes →
  auditCounters st !! AuditCounter.DeviceID v = Some old →
  (AuditCounter.CredentialEpoch old ≤ AuditCounter.CredentialEpoch v)%N.
Proof.
  intros (p & Hck & _)%Apply_inv.
  destruct (membership_rows _ _ _ (ck_membership _ _ _ Hck)) as (_ & _ & _ & _ & _ & _ & _ & He). eauto.
Qed.

(** ** The single-row tables

    A change set writes at most one row of such a table, under the key that the
    row before has. *)

Definition one_keyed {V} (key : V → string) (values : list V) (row : V) : Prop :=
  match values with [] => True | [v] => key v = key row | _ => False end.

Record single_rows (st : State) (changes : Changes) : Prop := {
  sr_current : one_keyed Plan.SessionID (PlanCurrent changes) (planCurrent st);
  sr_voters : one_keyed VoterSet.SessionID (VoterSets changes) (voterSet st);
  sr_authority : one_keyed CredentialAuthority.SessionID (CredentialAuthorities changes)
    (credentialAuthority st);
  sr_ref : one_keyed Publication.RefName (CanonicalRefs changes) (canonicalRef st);
  sr_policy : one_keyed Policy.SessionID (SessionPolicy changes) (sessionPolicy st) }.

Lemma membership_single st changes p :
  validateMembershipChanges st changes = Some p →
  one_keyed VoterSet.SessionID (VoterSets changes) (voterSet st) ∧
  one_keyed CredentialAuthority.SessionID (CredentialAuthorities changes) (credentialAuthority st).
Proof.
  unfold validateMembershipChanges. destruct (_ || _) eqn:Hlen; [done|].
  apply orb_false_iff in Hlen as [Hlen _]. apply orb_false_iff in Hlen as [Hlen Hauth].
  apply orb_false_iff in Hlen as [_ Hvot]. apply Nat.ltb_ge in Hvot, Hauth.
  intros ([devs op] & _ & ([counters n] & _ & Hv)%bind_Some)%bind_Some.
  destruct (_ && _); [done|]. destruct (negb _); [done|]. destruct (negb _); [done|].
  apply bind_Some in Hv as (target & Ht & Hv). apply bind_Some in Hv as (authority & Ha & _).
  split.
  - destruct (VoterSets changes) as [|v [|]]; simpl in *; [done| |lia].
    destruct (_ && _) in Ht; [done|].
    destruct (fails _) eqn:Hf in Ht; [done|]. apply fails_None in Hf.
    unfold VoterSet.ValidateTransition in Hf. chain_inv Hf.
    destruct (size devs =? 0)%nat; chain_inv Hf; unfold VoterSet.validateSameSession in *;
      repeat match goal with Hx : (refuse _ when _ ;; _) = None |- _ => chain_inv Hx end; by bools.
  - destruct (CredentialAuthorities changes) as [|v [|]]; simpl in *; [done| |lia].
    destruct (fails _) eqn:Hf in Ha; [done|]. apply fails_None in Hf.
    unfold CredentialAuthority.ValidateTransition in Hf. chain_inv Hf. by bools.
Qed.

Lemma Apply_single st changes st' : Apply st changes = inr st' → single_rows st changes.
Proof.
  intros (p & Hck & _)%Apply_inv.
  destruct (membership_single _ _ _ (ck_membership _ _ _ Hck)) as [Hv Ha].
  destruct (ck_rows _ _ _ Hck) as (_ & _ & taskRows & _ & _ & _ & _ & Hpm & _).
  pose proof (ck_policy _ _ _ Hck) as Hp. pose proof (ck_repository _ _ _ Hck) as Hr.
  constructor; try done.
  - unfold validatePlanMemoryChanges in Hpm. apply bind_Some in Hpm as (revisions & _ & Hpm).
    destruct (_ || _); [done|]. apply bind_Some in Hpm as (current & Hc & _).
    destruct (PlanCurrent changes) as [|v [|]]; [done| |done]. simpl.
    destruct (currentChangeOk _ _ _) eqn:Hok in Hc; [|done]. unfold currentChangeOk in Hok.
    apply andb_true_iff in Hok as [_ Hf]. apply negb_true_iff, fails_None in Hf.
    unfold Plan.ValidateTransition in Hf. chain_inv Hf. by bools.
  - unfold validateRepositoryChanges in Hr. destruct (_ || _); [done|].
    apply bind_Some in Hr as ([pubs operation] & _ & Hr). apply bind_Some in Hr as (ref & Hc & Hr).
    unfold canonicalRefChange in Hc. destruct (CanonicalRefs changes) as [|v [|]] eqn:Hrefs; [done| |].
    + simpl. destruct (Publications changes) as [|w [|]]; [done| |done].
      destruct (_ && _) eqn:Hok in Hc; [|done]. rewrite !andb_true_iff in Hok.
      destruct Hok as [[[_ Hok] _] _]. unfold validateCanonicalRefTransition in Hok.
      rewrite !andb_true_iff in Hok. by destruct Hok as [[[[[[_ _] Hn%bool_decide_eq_true] _] _] _] _].
    + pose proof (ck_repository _ _ _ Hck) as Hl. unfold validateRepositoryChanges in Hl.
      by rewrite Hrefs in Hl.
  - unfold validatePolicyChanges in Hp. destruct (SessionPolicy changes) as [|v [|]]; [done| |done]. simpl.
    destruct (_ || _) eqn:Hf in Hp; [done|]. apply orb_false_iff in Hf as [_ Hf].
    apply fails_None in Hf. unfold Policy.ValidateTransition in Hf. chain_inv Hf. by bools.
Qed.

End Lib.

End StateRows.

(** ** The committed state in the covered tables

    [Module DurableRows]: what it means for the covered tables of the store to
    hold exactly the rows of a committed state, and that writing an outcome's
    rows to both keeps them so. *)

Module DurableRows.

Import Projections ProjectionStore.
Import Preflight.Preflight StateProofs.StateProofs.

(** ** One table *)

Section Table.
Context `{Countable K} {V : Type} (table : projectionTable).
Context (id : V → K) (key : K → list Column) (cells : V → option (list Cell)).

(** The columns that SQLite stores of a row. *)
Definition columns_of (v : V) : option (list Column) := cells v ≫= mapM bindValue.

(** The table holds the columns of every row under its key, and nothing else. *)
Record stores (db : Database) (rows : gmap K V) : Prop := {
  stores_row : ∀ k v, rows !! k = Some v → ∃ row, columns_of v = Some row ∧
    db !! (name table, key k) = Some row;
  stores_only : ∀ columns row, db !! (name table, columns) = Some row →
    ∃ k, is_Some (rows !! k) ∧ columns = key k }.

Lemma stores_same db db' rows :
  (∀ columns, db' !! (name table, columns) = db !! (name table, columns)) →
  stores db rows → stores db' rows.
Proof. intros Hs [Hr Ho]. constructor; intros *; rewrite Hs; [apply Hr|apply Ho]. Qed.

Lemma stores_nothing db : (∀ columns, db !! (name table, columns) = None) → stores db ∅.
Proof.
  intros Hnone. constructor.
  - intros k v Hv. by rewrite lookup_empty in Hv.
  - intros columns row Hr. by rewrite Hnone in Hr.
Qed.

Context (Hkey : ∀ v row, columns_of v = Some row → keyColumns (columns table) row = key (id v)).

Context `{!Schema}.

Lemma stores_insert db db' rows v values :
  (∀ k, is_Some (rows !! k) → key k = key (id v) → k = id v) →
  cells v = Some values → execute db table values = inr db' → stores db rows →
  stores db' (<[id v := v]> rows).
Proof using Hkey.
  intros Hinj Hv He [Hr Ho]. unfold execute in He.
  destruct (mapM bindValue values) as [row|] eqn:Hb; [|done]. apply throw_inr in He as [_ [= <-]].
  assert (Hrow : columns_of v = Some row) by (unfold columns_of; by rewrite Hv).
  rewrite (Hkey _ _ Hrow). constructor.
  - intros k w [[<- <-]|[Hne Hw]]%lookup_insert_Some.
    + exists row. split; [done|apply lookup_insert_eq].
    + destruct (Hr _ _ Hw) as (row' & Hc & Hl). exists row'. split; [done|].
      etrans; [apply lookup_insert_ne|exact Hl]. intros [= Heq]. apply Hne. symmetry. apply Hinj; [eauto|done].
  - intros cols r [[[= <-] <-]|[Hne Hl]]%lookup_insert_Some.
    + exists (id v). by rewrite lookup_insert_eq.
    + destruct (Ho _ _ Hl) as (k & Hk & ->). exists k. split; [|done].
      destruct (decide (id v = k)) as [<-|Hd]; [by rewrite lookup_insert_eq|by rewrite lookup_insert_ne].
Qed.

(** Keys that tell the rows of a table apart. *)
Definition distinguishes (ids : K → Prop) : Prop :=
  ∀ k k', ids k → ids k' → key k = key k' → k = k'.

Lemma stores_rows ids db db' rows values prepared :
  distinguishes ids → (∀ k, is_Some (rows !! k) → ids k) → Forall (λ v, ids (id v)) values →
  Forall2 (λ v cs, cells v = Some cs) values prepared →
  writeProjectionRows db table prepared = inr db' → stores db rows →
  stores db' (StateIndexes.by_id id values rows).
Proof using Hkey.
  intros Hdist Hrows Hids Hall. revert db rows Hrows Hids. unfold StateIndexes.by_id.
  induction Hall as [|v cs values prepared Hv _ IH]; intros db rows Hrows Hids Hw Hs; simpl in Hw |- *.
  { by injection Hw as <-. }
  apply and_then_inr in Hw as (db1 & Hx & Hw). apply Forall_cons in Hids as [Hid Hids].
  eapply IH; [|done|exact Hw|].
  - intros k Hk. destruct (decide (id v = k)) as [<-|Hne]; [done|].
    rewrite lookup_insert_ne in Hk by done. auto.
  - eapply stores_insert; [|done..]. intros k Hk Heq. apply Hdist; auto.
Qed.

End Table.

(** Writing one table leaves the others. *)
Lemma writeRows_other `{!Schema} db table rows db' n columns :
  writeProjectionRows db table rows = inr db' → n ≠ name table →
  db' !! (n, columns) = db !! (n, columns).
Proof.
  revert db. induction rows as [|row rows IH]; intros db; simpl; [by intros [= <-]|].
  intros (db1 & Hx & Hw)%and_then_inr Hne. rewrite (IH _ Hw Hne).
  unfold execute in Hx. destruct (mapM bindValue row) as [r|]; [|done].
  apply throw_inr in Hx as [_ [= <-]]. apply lookup_insert_ne. congruence.
Qed.

Lemma writeTables_other `{!Schema} db tables rows db' n columns :
  writeTables db tables rows = inr db' → n ∉ (name <$> tables) →
  db' !! (n, columns) = db !! (n, columns).
Proof.
  revert db. induction tables as [|table tables IH]; intros db; simpl; [by intros [= <-]|].
  intros (db1 & Hx & Hw)%and_then_inr [Hne Hn]%not_elem_of_cons.
  rewrite (IH _ Hw Hn). by eapply writeRows_other.
Qed.

(** The step of one table in the writing of all of them. *)
Lemma writeTables_table `{!Schema} db tables rows db' table :
  writeTables db tables rows = inr db' → NoDup (name <$> tables) → table ∈ tables →
  ∃ db1 db2, writeProjectionRows db1 table (default [] (rows !! name table)) = inr db2 ∧
    (∀ columns, db1 !! (name table, columns) = db !! (name table, columns)) ∧
    (∀ columns, db' !! (name table, columns) = db2 !! (name table, columns)).
Proof.
  revert db. induction tables as [|t tables IH]; intros db; simpl; [by intros _ _ []%not_elem_of_nil|].
  intros (db1 & Hx & Hw)%and_then_inr [Hn Hnd]%NoDup_cons [->|Hin]%elem_of_cons.
  - exists db, db1. split_and!; [done..|]. intros columns. by eapply writeTables_other.
  - destruct (IH _ Hw Hnd Hin) as (d1 & d2 & Hw' & H1 & H2). exists d1, d2. split_and!; [done| |done].
    intros columns. rewrite H1. eapply writeRows_other; [done|].
    intros Heq. apply Hn. rewrite <-Heq. by apply list_elem_of_fmap_2.
Qed.

Lemma prepareRows_cells {A} table validate (cells : A → option (list Cell)) i values prepared :
  prepareRows table validate cells i values = inr prepared →
  Forall2 (λ v cs, cells v = Some cs) values prepared.
Proof.
  revert i prepared. induction values as [|v values IH]; intros i prepared; simpl.
  { intros [= <-]. constructor. }
  destruct (validate v); [done|]. destruct (cells v) as [cs|] eqn:Hc; [|done].
  intros (rest & Hrest & [= <-])%and_then_inr. constructor; eauto.
Qed.

(** ** The covered tables of a state *)

(** The table of the registry with a name. *)
Definition covered (n : string) : projectionTable :=
  default (mkProjectionTable n []) (snd <$> list_find (λ table, name table = n) projectionTables).

Definition text_key (id : string) : list Column := [SText id].
Definition scope_key (key : Reducer.OriginScopeKey) : list Column :=
  [SText (Reducer.KDeviceID key); SText (ApplyMapping.scopeKindText (Reducer.KKind key));
   SText (Reducer.KScopeID key)].
Definition authorization_key (key : CredentialAuthorization.Key) : list Column :=
  [SText key.1.1; SText key.1.2; SInteger (Z.of_N key.2)].

Section State.
Context `{NormLib, JCSLib, CryptoLib}.

(** The table of the one row of a session. *)
Definition stores_one {V} (db : Database) (n : string) (id : V → string)
    (cells : V → option (list Cell)) (v : V) : Prop :=
  stores (covered n) text_key cells db {[id v := v]}.

Record durable (db : Database) (st : Reducer.State) : Prop := {
  du_scopes : stores (covered "origin_scopes") scope_key
    (cells_originScope ∘ ApplyMapping.scopeRow) db (Reducer.originScopes st);
  du_counters : stores (covered "audit_counters") text_key cells_auditCounter db
    (Reducer.auditCounters st);
  du_tasks : stores (covered "tasks") text_key cells_task db (Reducer.tasks st);
  du_revisions : stores (covered "plan_revisions") text_key cells_planRevision db
    (Reducer.planRevisions st);
  du_current : stores_one db "plan_current" Plan.SessionID cells_planCurrent (Reducer.planCurrent st);
  du_memory : stores (covered "memory_records") text_key cells_memoryRecord db
    (Reducer.memoryRecords st);
  du_leases : stores (covered "leases") text_key cells_lease db (Reducer.leases st);
  du_devices : stores (covered "devices") text_key cells_device db (Reducer.devices st);
  du_voters : stores_one db "voter_set" VoterSet.SessionID cells_voterSet (Reducer.voterSet st);
  du_authority : stores_one db "credential_authority" CredentialAuthority.SessionID
    cells_credentialAuthority (Reducer.credentialAuthority st);
  du_sessions : stores (covered "agent_sessions") text_key cells_agentSession db
    (Reducer.agentSessions st);
  du_ref : stores_one db "canonical_refs" Publication.RefName cells_canonicalRef
    (Reducer.canonicalRef st);
  du_authorizations : stores (covered "credential_authorizations") authorization_key
    (cells_credentialAuthorization ∘ ApplyMapping.authorizationRow) db
    (Reducer.credentialAuthorizations st);
  du_publications : stores (covered "publications") text_key cells_publication db
    (Reducer.publications st);
  du_files : stores (covered "control_file_proposals") text_key
    (cells_controlFileProposal ∘ ApplyMapping.controlFileRow) db (Reducer.controlFileProposals st);
  du_conflicts : stores (covered "merge_conflicts") text_key cells_mergeConflict db
    (Reducer.mergeConflicts st);
  du_policy : stores_one db "session_policy" Policy.SessionID cells_sessionPolicy
    (Reducer.sessionPolicy st) }.

(** ** The keys of the tables *)

Lemma keyColumns_bound cols values row :
  mapM bindValue values = Some row → mapM bindValue (keyColumns cols values) = Some (keyColumns cols row).
Proof.
  revert cols row. induction values as [|v values IH]; intros [|c cols] row Hm; simpl in Hm.
  - by injection Hm as <-.
  - by injection Hm as <-.
  - done.
  - apply bind_Some in Hm as (x & Hx & (rest & Hrest & [= <-])%bind_Some). simpl.
    destruct (isPrimaryKey c); [|by apply IH]. simpl. by rewrite Hx, (IH _ _ Hrest).
Qed.

(** The key of a table is the key columns of its cells. *)
Lemma keyed {K V} (table : projectionTable) (id : V → K) (key : K → list Column) cells :
  (∀ v values bound, cells v = Some values →
     mapM bindValue (keyColumns (columns table) values) = Some bound → bound = key (id v)) →
  ∀ v row, columns_of cells v = Some row → keyColumns (columns table) row = key (id v).
Proof.
  intros Hcells v row (values & Hv & Hb)%bind_Some. eapply Hcells; [done|]. by apply keyColumns_bound.
Qed.

(** [registry]: the columns of a table by its name. *)
Ltac registry :=
  match goal with |- context [columns ?table] =>
    let found := eval vm_compute in (columns table) in change (columns table) with found end.

(** [by_cells]: the key columns of a row's cells. *)
Ltac by_cells :=
  apply keyed; intros v values bound Hv;
  unfold cells_task, cells_planRevision, cells_lease, cells_voterSet, cells_credentialAuthority,
    cells_publication, cells_mergeConflict, cells_sessionPolicy in Hv;
  repeat match type of Hv with (_ ≫= _) = Some _ => apply bind_Some in Hv as (? & _ & Hv) end;
  injection Hv as <-; registry; cbn; by intros [= <-].

Lemma key_scopes v row : columns_of (cells_originScope ∘ ApplyMapping.scopeRow) v = Some row →
  keyColumns (columns (covered "origin_scopes")) row = scope_key (Reducer.ScopeKey v).
Proof. revert v row. by_cells. Qed.
Lemma key_counters v row : columns_of cells_auditCounter v = Some row →
  keyColumns (columns (covered "audit_counters")) row = text_key (AuditCounter.DeviceID v).
Proof. revert v row. by_cells. Qed.
Lemma key_tasks v row : columns_of cells_task v = Some row →
  keyColumns (columns (covered "tasks")) row = text_key (Task.ID v).
Proof. revert v row. by_cells. Qed.
Lemma key_revisions v row : columns_of cells_planRevision v = Some row →
  keyColumns (columns (covered "plan_revisions")) row = text_key (Plan.id_ v).
Proof. revert v row. by_cells. Qed.
Lemma key_current v row : columns_of cells_planCurrent v = Some row →
  keyColumns (columns (covered "plan_current")) row = text_key (Plan.SessionID v).
Proof. revert v row. by_cells. Qed.
Lemma key_memory v row : columns_of cells_memoryRecord v = Some row →
  keyColumns (columns (covered "memory_records")) row = text_key (Memory.id_ v).
Proof. revert v row. by_cells. Qed.
Lemma key_leases v row : columns_of cells_lease v = Some row →
  keyColumns (columns (covered "leases")) row = text_key (Lease.ID v).
Proof. revert v row. by_cells. Qed.
Lemma key_devices v row : columns_of cells_device v = Some row →
  keyColumns (columns (covered "devices")) row = text_key (Device.ID v).
Proof. revert v row. by_cells. Qed.
Lemma key_voters v row : columns_of cells_voterSet v = Some row →
  keyColumns (columns (covered "voter_set")) row = text_key (VoterSet.SessionID v).
Proof. revert v row. by_cells. Qed.
Lemma key_authority v row : columns_of cells_credentialAuthority v = Some row →
  keyColumns (columns (covered "credential_authority")) row =
    text_key (CredentialAuthority.SessionID v).
Proof. revert v row. by_cells. Qed.
Lemma key_sessions v row : columns_of cells_agentSession v = Some row →
  keyColumns (columns (covered "agent_sessions")) row = text_key (AgentSession.ID v).
Proof. revert v row. by_cells. Qed.
Lemma key_ref v row : columns_of cells_canonicalRef v = Some row →
  keyColumns (columns (covered "canonical_refs")) row = text_key (Publication.RefName v).
Proof. revert v row. by_cells. Qed.
Lemma key_publications v row : columns_of cells_publication v = Some row →
  keyColumns (columns (covered "publications")) row = text_key (RepositoryState.publicationID v).
Proof. revert v row. by_cells. Qed.
Lemma key_files v row : columns_of (cells_controlFileProposal ∘ ApplyMapping.controlFileRow) v = Some row →
  keyColumns (columns (covered "control_file_proposals")) row =
    text_key (ControlFile.ProposalEventID v).
Proof. revert v row. by_cells. Qed.
Lemma key_conflicts v row : columns_of cells_mergeConflict v = Some row →
  keyColumns (columns (covered "merge_conflicts")) row = text_key (RepositoryState.conflictID v).
Proof. revert v row. by_cells. Qed.
Lemma key_policy v row : columns_of cells_sessionPolicy v = Some row →
  keyColumns (columns (covered "session_policy")) row = text_key (Policy.SessionID v).
Proof. revert v row. by_cells. Qed.
Lemma key_authorizations v row :
  columns_of (cells_credentialAuthorization ∘ ApplyMapping.authorizationRow) v = Some row →
  keyColumns (columns (covered "credential_authorizations")) row =
    authorization_key (CredentialAuthorization.PrimaryKey v).
Proof.
  revert v row. apply keyed. intros v values bound Hv. apply bind_Some in Hv as (? & _ & Hv).
  injection Hv as <-. registry. cbn. destruct (_ <? _)%N; cbn; by intros [= <-].
Qed.

(** ** An outcome's rows in the tables and in the state *)

Context `{!Schema}.

Lemma text_distinguishes ids : distinguishes text_key ids.
Proof. by intros k k' _ _ [= ->]. Qed.

Lemma authorization_distinguishes ids : distinguishes authorization_key ids.
Proof. intros [[? ?] ?] [[? ?] ?] _ _ [= -> -> ->%N2Z.inj]. done. Qed.

Definition known_kind (key : Reducer.OriginScopeKey) : Prop :=
  Reducer.KKind key = Reducer.ScopeAgent ∨ Reducer.KKind key = Reducer.ScopeBoot.

Lemma scope_distinguishes : distinguishes scope_key known_kind.
Proof.
  intros [d kind i] [d' kind' i'] Hk Hk' [= -> Heq ->]. unfold known_kind in *. cbn in *.
  by destruct Hk as [-> | ->], Hk' as [-> | ->].
Qed.

Section Written.
Context (db db' : Database) (prepared : preparedProjectionWrites).
Context (Hwritten : writePreparedProjections db prepared = inr db').

(** One table after the write. *)
Lemma table_written `{Countable K} {V} n (id : V → K) key cells (ids : K → Prop) rows values cs :
  covered n ∈ projectionTables → name (covered n) = n →
  preparedProjectionRows prepared !! n = Some cs →
  (∀ v row, columns_of cells v = Some row → keyColumns (columns (covered n)) row = key (id v)) →
  distinguishes key ids → (∀ k, is_Some (rows !! k) → ids k) → Forall (λ v, ids (id v)) values →
  Forall2 (λ v c, cells v = Some c) values cs →
  stores (covered n) key cells db rows →
  stores (covered n) key cells db' (StateIndexes.by_id id values rows).
Proof using Hwritten.
  intros Hin Hname Hcs Hkey Hdist Hrows Hids Hall Hs.
  destruct (writeTables_table _ _ _ _ _ Hwritten ProjectionProofs.table_names_nodup Hin)
    as (db1 & db2 & Hw & Hbefore & Hafter). rewrite Hname, Hcs in Hw. cbn in Hw.
  eapply stores_same; [exact Hafter|].
  eapply stores_rows; [exact Hkey|exact Hdist|exact Hrows|exact Hids|exact Hall|exact Hw|].
  eapply stores_same; [exact Hbefore|exact Hs].
Qed.

(** A table whose key is one text. *)
Lemma text_written {V} n (id : V → string) cells rows values cs :
  covered n ∈ projectionTables → name (covered n) = n →
  preparedProjectionRows prepared !! n = Some cs →
  (∀ v row, columns_of cells v = Some row → keyColumns (columns (covered n)) row = text_key (id v)) →
  Forall2 (λ v c, cells v = Some c) values cs →
  stores (covered n) text_key cells db rows →
  stores (covered n) text_key cells db' (StateIndexes.by_id id values rows).
Proof using Hwritten.
  intros Hin Hname Hcs Hkey Hall Hs.
  eapply (table_written n id text_key cells (λ _, True)); try done; [by intros ? ? _ _ [= ->]|].
  apply Forall_forall. done.
Qed.

Lemma one_written {V} n (id : V → string) cells values cs v :
  covered n ∈ projectionTables → name (covered n) = n →
  preparedProjectionRows prepared !! n = Some cs →
  (∀ v row, columns_of cells v = Some row → keyColumns (columns (covered n)) row = text_key (id v)) →
  Forall2 (λ v c, cells v = Some c) values cs → StateRows.one_keyed id values v →
  stores_one db n id cells v → stores_one db' n id cells (StateRows.replaced values v).
Proof using Hwritten.
  intros Hin Hname Hcs Hkey Hall Hone Hs.
  pose proof (text_written n id cells _ _ _ Hin Hname Hcs Hkey Hall Hs) as Hw. unfold stores_one.
  unfold StateRows.replaced. destruct values as [|w [|]]; [done| |done]. unfold StateIndexes.by_id in Hw. simpl in Hw, Hone |- *.
  rewrite Hone in Hw. rewrite Hone. by rewrite insert_singleton_eq in Hw.
Qed.

End Written.

(** The rows of each table of a prepared write set. *)
Lemma prepared_rows writes prepared : prepareProjectionWrites writes = inr prepared →
  let rows := preparedProjectionRows prepared in
  let holds {V} n (cells : V → option (list Cell)) values :=
    ∃ cs, rows !! n = Some cs ∧ Forall2 (λ v c, cells v = Some c) values cs in
  holds "origin_scopes" cells_originScope (OriginScopes writes) ∧
  holds "audit_counters" cells_auditCounter (AuditCounters writes) ∧
  holds "tasks" cells_task (Tasks writes) ∧
  holds "plan_revisions" cells_planRevision (PlanRevisions writes) ∧
  holds "plan_current" cells_planCurrent (PlanCurrent writes) ∧
  holds "memory_records" cells_memoryRecord (MemoryRecords writes) ∧
  holds "leases" cells_lease (Leases writes) ∧
  holds "devices" cells_device (Devices writes) ∧
  holds "voter_set" cells_voterSet (VoterSets writes) ∧
  holds "credential_authority" cells_credentialAuthority (CredentialAuthorities writes) ∧
  holds "agent_sessions" cells_agentSession (AgentSessions writes) ∧
  holds "canonical_refs" cells_canonicalRef (CanonicalRefs writes) ∧
  holds "credential_authorizations" cells_credentialAuthorization (CredentialAuthorizations writes) ∧
  holds "publications" cells_publication (Publications writes) ∧
  holds "control_file_proposals" cells_controlFileProposal (ControlFileProposals writes) ∧
  holds "merge_conflicts" cells_mergeConflict (MergeConflicts writes) ∧
  holds "session_policy" cells_sessionPolicy (SessionPolicy writes).
Proof.
  unfold prepareProjectionWrites. intros Hp. sum_inv Hp. injection Hp as <-.
  repeat match goal with Hx : prepareRows _ _ _ _ _ = inr _ |- _ => apply prepareRows_cells in Hx end.
  cbn zeta. split_and!; eexists; (split; [|eassumption]); vm_compute; reflexivity.
Qed.

Lemma covered_in n : bool_decide (name (covered n) = n) = true →
  existsb (λ table, bool_decide (name table = n)) projectionTables = true →
  covered n ∈ projectionTables ∧ name (covered n) = n.
Proof.
  intros Hname%bool_decide_eq_true Hex. split; [|done].
  unfold covered. destruct (list_find _ _) as [[i table]|] eqn:Hf.
  - apply list_find_Some in Hf as (Hi & _). simpl. by eapply list_elem_of_lookup_2.
  - apply list_find_None in Hf. apply existsb_exists in Hex as (table & Hin & Ht).
    rewrite Forall_forall in Hf. apply list_elem_of_In in Hin. apply bool_decide_eq_true in Ht.
    by destruct (Hf _ Hin).
Qed.

(** [by_registry]: a name of the registry. *)
Ltac by_registry := apply covered_in; vm_compute; reflexivity.

Lemma scope_kinds key scope : validateOriginScope key scope = true → known_kind key.
Proof.
  unfold validateOriginScope, known_kind. rewrite !andb_true_iff, orb_true_iff, !bool_decide_eq_true.
  tauto.
Qed.

(** The tables after a change set hold the rows of the state after it. *)
Lemma durable_advances db db' st changes st' prepared :
  durable db st → scopes_valid st → StateApply.Apply st changes = inr st' →
  prepareProjectionWrites (ApplyMapping.projectionWrites changes) = inr prepared →
  writePreparedProjections db prepared = inr db' → durable db' st'.
Proof.
  intros Hd Hv Ha Hp Hw. destruct (StateRows.Apply_rows _ _ _ Ha), (StateRows.Apply_single _ _ _ Ha).
  destruct Hd. apply prepared_rows in Hp. cbn zeta in Hp.
  destruct Hp as ((c1 & E1 & F1) & (c2 & E2 & F2) & (c3 & E3 & F3) & (c4 & E4 & F4) & (c5 & E5 & F5) &
    (c6 & E6 & F6) & (c7 & E7 & F7) & (c8 & E8 & F8) & (c9 & E9 & F9) & (c10 & E10 & F10) &
    (c11 & E11 & F11) & (c12 & E12 & F12) & (c13 & E13 & F13) & (c14 & E14 & F14) &
    (c15 & E15 & F15) & (c16 & E16 & F16) & (c17 & E17 & F17)).
  apply Forall2_fmap_l in F1, F13, F15.
  constructor; rewrite ?ra_scopes, ?ra_counters, ?ra_tasks, ?ra_revisions, ?ra_current, ?ra_memory,
    ?ra_leases, ?ra_devices, ?ra_voters, ?ra_authority, ?ra_sessions, ?ra_ref, ?ra_authorizations,
    ?ra_publications, ?ra_files, ?ra_conflicts, ?ra_policy.
  - eapply (table_written _ _ _ Hw "origin_scopes" Reducer.ScopeKey scope_key _ known_kind);
      [by_registry..|exact E1|exact key_scopes|exact scope_distinguishes| | |exact F1|done].
    + intros k [s Hs]. apply Hv in Hs. by apply scope_kinds in Hs.
    + apply Forall_forall. intros s Hs.
      destruct (Apply_scopes _ _ _ Ha (Reducer.ScopeKey s)) as [(t & _ & _ & _ & Ht & _)|[Hno _]].
      * by apply scope_kinds in Ht.
      * by destruct (Hno s Hs).
  - eapply (text_written _ _ _ Hw); [by_registry..|exact E2|exact key_counters|exact F2|done].
  - eapply (text_written _ _ _ Hw); [by_registry..|exact E3|exact key_tasks|exact F3|done].
  - eapply (text_written _ _ _ Hw); [by_registry..|exact E4|exact key_revisions|exact F4|done].
  - eapply (one_written _ _ _ Hw); [by_registry..|exact E5|exact key_current|exact F5|done|done].
  - eapply (text_written _ _ _ Hw); [by_registry..|exact E6|exact key_memory|exact F6|done].
  - eapply (text_written _ _ _ Hw); [by_registry..|exact E7|exact key_leases|exact F7|done].
  - eapply (text_written _ _ _ Hw); [by_registry..|exact E8|exact key_devices|exact F8|done].
  - eapply (one_written _ _ _ Hw); [by_registry..|exact E9|exact key_voters|exact F9|done|done].
  - eapply (one_written _ _ _ Hw); [by_registry..|exact E10|exact key_authority|exact F10|done|done].
  - eapply (text_written _ _ _ Hw); [by_registry..|exact E11|exact key_sessions|exact F11|done].
  - eapply (one_written _ _ _ Hw); [by_registry..|exact E12|exact key_ref|exact F12|done|done].
  - eapply (table_written _ _ _ Hw "credential_authorizations" CredentialAuthorization.PrimaryKey
              authorization_key _ (λ _, True));
      [by_registry..|exact E13|exact key_authorizations|apply authorization_distinguishes|done|
       by apply Forall_forall|exact F13|done].
  - eapply (text_written _ _ _ Hw); [by_registry..|exact E14|exact key_publications|exact F14|done].
  - eapply (text_written _ _ _ Hw); [by_registry..|exact E15|exact key_files|exact F15|done].
  - eapply (text_written _ _ _ Hw); [by_registry..|exact E16|exact key_conflicts|exact F16|done].
  - eapply (one_written _ _ _ Hw); [by_registry..|exact E17|exact key_policy|exact F17|done|done].
Qed.

(** ** The first state *)

(** A change set that lists every row of a state. *)
Record lists_rows (changes : Reducer.Changes) (st : Reducer.State) : Prop := {
  lr_scopes : Reducer.originScopes st =
    StateIndexes.by_id Reducer.ScopeKey (Reducer.OriginScopes changes) ∅;
  lr_counters : Reducer.auditCounters st =
    StateIndexes.by_id AuditCounter.DeviceID (Reducer.AuditCounters changes) ∅;
  lr_tasks : Reducer.tasks st = StateIndexes.by_id Task.ID (Reducer.Tasks changes) ∅;
  lr_revisions : Reducer.planRevisions st =
    StateIndexes.by_id Plan.id_ (Reducer.PlanRevisions changes) ∅;
  lr_current : Reducer.PlanCurrent changes = [Reducer.planCurrent st];
  lr_memory : Reducer.memoryRecords st =
    StateIndexes.by_id Memory.id_ (Reducer.MemoryRecords changes) ∅;
  lr_leases : Reducer.leases st = StateIndexes.by_id Lease.ID (Reducer.Leases changes) ∅;
  lr_devices : Reducer.devices st = StateIndexes.by_id Device.ID (Reducer.Devices changes) ∅;
  lr_voters : Reducer.VoterSets changes = [Reducer.voterSet st];
  lr_authority : Reducer.CredentialAuthorities changes = [Reducer.credentialAuthority st];
  lr_sessions : Reducer.agentSessions st =
    StateIndexes.by_id AgentSession.ID (Reducer.AgentSessions changes) ∅;
  lr_ref : Reducer.CanonicalRefs changes = [Reducer.canonicalRef st];
  lr_authorizations : Reducer.credentialAuthorizations st =
    StateIndexes.by_id CredentialAuthorization.PrimaryKey
      (Reducer.CredentialAuthorizations changes) ∅;
  lr_publications : Reducer.publications st =
    StateIndexes.by_id RepositoryState.publicationID (Reducer.Publications changes) ∅;
  lr_files : Reducer.controlFileProposals st =
    StateIndexes.by_id ControlFile.ProposalEventID (Reducer.ControlFileProposals changes) ∅;
  lr_conflicts : Reducer.mergeConflicts st =
    StateIndexes.by_id RepositoryState.conflictID (Reducer.MergeConflicts changes) ∅;
  lr_policy : Reducer.SessionPolicy changes = [Reducer.sessionPolicy st] }.

(** The tables that a first write of those rows leaves. *)
Lemma durable_starts db' changes st prepared :
  lists_rows changes st → Forall (λ s, known_kind (Reducer.ScopeKey s)) (Reducer.OriginScopes changes) →
  prepareProjectionWrites (ApplyMapping.projectionWrites changes) = inr prepared →
  writePreparedProjections ∅ prepared = inr db' → durable db' st.
Proof.
  intros Hl Hkinds Hp Hw.
  destruct Hl as [Lscopes Lcounters Ltasks Lrevisions Lcurrent Lmemory Lleases Ldevices Lvoters Lauthority Lsessions Lref Lauthorizations Lpublications Lfiles Lconflicts Lpolicy]. apply prepared_rows in Hp. cbn zeta in Hp.
  destruct Hp as ((c1 & E1 & F1) & (c2 & E2 & F2) & (c3 & E3 & F3) & (c4 & E4 & F4) & (c5 & E5 & F5) &
    (c6 & E6 & F6) & (c7 & E7 & F7) & (c8 & E8 & F8) & (c9 & E9 & F9) & (c10 & E10 & F10) &
    (c11 & E11 & F11) & (c12 & E12 & F12) & (c13 & E13 & F13) & (c14 & E14 & F14) &
    (c15 & E15 & F15) & (c16 & E16 & F16) & (c17 & E17 & F17)).
  apply Forall2_fmap_l in F1, F13, F15.
  assert (Hnone : ∀ n columns, (∅ : Database) !! (n, columns) = None) by (intros; apply lookup_empty).
  cbn in F5, F9, F10, F12, F17. rewrite Lcurrent in F5. rewrite Lvoters in F9.
  rewrite Lauthority in F10. rewrite Lref in F12. rewrite Lpolicy in F17.
  constructor; rewrite ?Lscopes, ?Lcounters, ?Ltasks, ?Lrevisions, ?Lmemory, ?Lleases,
    ?Ldevices, ?Lsessions, ?Lauthorizations, ?Lpublications, ?Lfiles, ?Lconflicts.
  - eapply (table_written _ _ _ Hw "origin_scopes" Reducer.ScopeKey scope_key _ known_kind);
      [by_registry..|exact E1|exact key_scopes|exact scope_distinguishes| |exact Hkinds|exact F1|].
    + intros k [s Hs]. by rewrite lookup_empty in Hs.
    + by apply stores_nothing.
  - eapply (text_written _ _ _ Hw); [by_registry..|exact E2|exact key_counters|exact F2|by apply stores_nothing].
  - eapply (text_written _ _ _ Hw); [by_registry..|exact E3|exact key_tasks|exact F3|by apply stores_nothing].
  - eapply (text_written _ _ _ Hw); [by_registry..|exact E4|exact key_revisions|exact F4|by apply stores_nothing].
  - eapply (text_written _ _ _ Hw _ _ _ ∅ [_]); [by_registry..|exact E5|exact key_current|exact F5|by apply stores_nothing].
  - eapply (text_written _ _ _ Hw); [by_registry..|exact E6|exact key_memory|exact F6|by apply stores_nothing].
  - eapply (text_written _ _ _ Hw); [by_registry..|exact E7|exact key_leases|exact F7|by apply stores_nothing].
  - eapply (text_written _ _ _ Hw); [by_registry..|exact E8|exact key_devices|exact F8|by apply stores_nothing].
  - eapply (text_written _ _ _ Hw _ _ _ ∅ [_]); [by_registry..|exact E9|exact key_voters|exact F9|by apply stores_nothing].
  - eapply (text_written _ _ _ Hw _ _ _ ∅ [_]); [by_registry..|exact E10|exact key_authority|exact F10|by apply stores_nothing].
  - eapply (text_written _ _ _ Hw); [by_registry..|exact E11|exact key_sessions|exact F11|by apply stores_nothing].
  - eapply (text_written _ _ _ Hw _ _ _ ∅ [_]); [by_registry..|exact E12|exact key_ref|exact F12|by apply stores_nothing].
  - eapply (table_written _ _ _ Hw "credential_authorizations" CredentialAuthorization.PrimaryKey
              authorization_key _ (λ _, True));
      [by_registry..|exact E13|exact key_authorizations|apply authorization_distinguishes|done|
       by apply Forall_forall|exact F13|by apply stores_nothing].
  - eapply (text_written _ _ _ Hw); [by_registry..|exact E14|exact key_publications|exact F14|by apply stores_nothing].
  - eapply (text_written _ _ _ Hw); [by_registry..|exact E15|exact key_files|exact F15|by apply stores_nothing].
  - eapply (text_written _ _ _ Hw); [by_registry..|exact E16|exact key_conflicts|exact F16|by apply stores_nothing].
  - eapply (text_written _ _ _ Hw _ _ _ ∅ [_]); [by_registry..|exact E17|exact key_policy|exact F17|by apply stores_nothing].
Qed.

End State.

End DurableRows.
