(* ===== verification/StoreReplicas.v ===== *)
(** * Two stores that apply the same command

    [Module StoreReplicas]: the replicated tables that [Store.Apply] leaves are
    determined by the tables before and by the part of the request that is not
    this device's own: its clock, audit records and deadlines do not count. And
    what a new command does to the covered tables. *)

From stdpp Require Import base gmap strings list.
From Stdlib Require Import ZArith NArith Lia.
From S2P Require Import Prelude.
From S2P Require Import GoLib.
From S2P Require Import CodecLayer.
From S2P Require Import DomainValues.
From S2P Require Import EventModel.
From S2P Require Import ChainCommitments.
From S2P Require Import ProjectionStore.
From S2P Require Import StoreRecords.
From S2P Require Import CommandPayload.
From S2P Require Import StoreResults.
From S2P Require Import StoreApply.
From S2P Require Import StoreSound.
From S2P Require Import StoreTheorems.

Module StoreReplicas.

Import StoreRecords StoreResults StoreApply StoreProofs StoreEffects StoreSound StoreRuns.

(** The replicated part of a request. *)
Definition core (request : ApplyRequest) : ApplyRequest :=
  mkApplyRequest (Term request) (LogIndex request) EmptyString (RecoveryGeneration request)
    (Proposal request) (Outcome request) (Projections request) (RecordActivity request)
    (ActivityTaskID request) [] (Checkpoint request) [] [].

Definition agree (r r' : ApplyRequest) : Prop := core r = core r'.

(** [by_core]: two requests of one core give the same value. *)
Ltac by_core :=
  match goal with
  | |- agree ?r ?r' → _ =>
      destruct r, r'; unfold agree, core; cbn; intros [= <- <- <- <- <- <- <- <- <-]; reflexivity
  end.

Section Lib.
Context `{NormLib, JCSLib, CryptoLib, FlateLib}.
Context `{!DeviceTables, !StoreSchema, !ProjectionStore.Schema}.

Lemma core_commitments prior r r' mutations :
  agree r r' →
  computeApplyCommitments prior r mutations = computeApplyCommitments prior r' mutations.
Proof. by_core. Qed.
Lemma core_projections r r' : agree r r' → Projections r = Projections r'.
Proof. by_core. Qed.
Lemma core_accepted r r' : agree r r' → acceptedRequest r = acceptedRequest r'.
Proof. by_core. Qed.
Lemma core_event r r' : agree r r' → request_event r = request_event r'.
Proof. by_core. Qed.
Lemma core_outcome r r' : agree r r' → Outcome r = Outcome r'.
Proof. by_core. Qed.
Lemma core_activity r r' : agree r r' → RecordActivity r = RecordActivity r'.
Proof. by_core. Qed.
Lemma core_checkpoint r r' : agree r r' → Checkpoint r = Checkpoint r'.
Proof. by_core. Qed.

(** [same_results]: one computation has one result. *)
Ltac same_results :=
  repeat match goal with
  | Hx : ?m = inr ?a, Hy : ?m = inr ?b |- _ =>
      let Heq := fresh in assert (Heq : a = b) by congruence; clear Hy; try subst b; try subst a;
      try injection Heq as ?
  end.

(** [same_tables]: a step of two stores with one set of tables. *)
Ltac same_tables :=
  match goal with |- agree ?r ?r' → _ => destruct r, r' end;
  unfold agree, core; cbn [Term LogIndex AppliedAt RecoveryGeneration Proposal Outcome Projections
    RecordActivity ActivityTaskID Audit Checkpoint LeaseDeadlines DeleteLeaseDeadlines];
  intros [= <- <- <- <- <- <- <- <- <-] Ht Hl Hr;
  unfold writeAcceptedEvent, writeEventProvenance, writeCommandResult, writeCommandResultPayload,
    resultRow, writeRaftCommandApplication, writeActivity, writeConsensusState, advanceRaftWatermark,
    putConsensus, bindNullableUint, requestResult, acceptedRequest in Hl, Hr;
  cbn [Term LogIndex AppliedAt RecoveryGeneration Proposal Outcome Projections tables set_tables
    RecordActivity ActivityTaskID Audit Checkpoint LeaseDeadlines DeleteLeaseDeadlines] in Hl, Hr;
  rewrite ?Ht in Hl;
  repeat match goal with
  | Hx : context [let '(_, _) := ?p in _] |- _ => destruct p
  | Hx : (let* _ := _ in _) = inr _ |- _ => sum_inv Hx
  | Hx : match ?m with Some _ => _ | None => _ end = inr _ |- _ => destruct m eqn:?
  | Hx : (if _ then inl _ else _) = inr _ |- _ => apply throw_inr in Hx as [_ Hx]
  end; same_results; simplify_eq; cbn [tables set_tables]; rewrite ?Ht; try done.

Lemma event_tables r r' s s' t t' : agree r r' → tables s = tables s' →
  writeAcceptedEvent s r = inr t → writeAcceptedEvent s' r' = inr t' → tables t = tables t'.
Proof. same_tables. Qed.

Lemma application_tables r r' s s' t t' : agree r r' → tables s = tables s' →
  writeRaftCommandApplication s r = inr t → writeRaftCommandApplication s' r' = inr t' →
  tables t = tables t'.
Proof. same_tables. Qed.

Lemma activity_tables r r' s s' t t' : agree r r' → tables s = tables s' →
  writeActivity s r = inr t → writeActivity s' r' = inr t' → tables t = tables t'.
Proof. same_tables. Qed.

Lemma result_tables r r' s s' t t' heads resultJSON mutationJSON :
  agree r r' → tables s = tables s' →
  writeCommandResult s r heads resultJSON mutationJSON = inr t →
  writeCommandResult s' r' heads resultJSON mutationJSON = inr t' → tables t = tables t'.
Proof. same_tables. Qed.

Lemma consensus_tables r r' s s' t t' heads :
  agree r r' → tables s = tables s' →
  writeConsensusState s r heads = inr t → writeConsensusState s' r' heads = inr t' →
  tables t = tables t'.
Proof. same_tables. Qed.

Lemma watermark_tables r r' s s' t t' :
  agree r r' → tables s = tables s' →
  advanceRaftWatermark s r = inr t → advanceRaftWatermark s' r' = inr t' → tables t = tables t'.
Proof. same_tables. Qed.

Lemma checkpoint_tables s s' t t' record : tables s = tables s' →
  writeCheckpoint s record = inr t → writeCheckpoint s' record = inr t' → tables t = tables t'.
Proof.
  intros Ht Hl Hr. unfold writeCheckpoint in Hl, Hr. rewrite Ht in Hl. sum_inv Hl. sum_inv Hr.
  simplify_eq/=. by rewrite Ht.
Qed.

Lemma accepted_tables failpoint failpoint' s s' r r' heads t t' :
  agree r r' → tables s = tables s' →
  applyAccepted failpoint s r heads = inr t → applyAccepted failpoint' s' r' heads = inr t' →
  tables t = tables t'.
Proof.
  unfold applyAccepted. intros Hc Ht Hl Hr. rewrite (core_accepted _ _ Hc) in Hl.
  sum_inv Hl. sum_inv Hr. injection Hl as <-. injection Hr as <-.
  destruct (acceptedRequest r').
  - rewrite (provenance_effect _ _ _ _ Hx0), (provenance_effect _ _ _ _ Hx2).
    exact (event_tables _ _ _ _ _ _ Hc Ht Hx Hx1).
  - by simplify_eq.
Qed.

Lemma outcome_tables failpoint failpoint' s s' r r' heads resultJSON mutationJSON t t' :
  agree r r' → tables s = tables s' →
  applyOutcome failpoint s r heads resultJSON mutationJSON = inr t →
  applyOutcome failpoint' s' r' heads resultJSON mutationJSON = inr t' → tables t = tables t'.
Proof.
  unfold applyOutcome. intros Hc Ht Hl Hr.
  rewrite (core_activity _ _ Hc), (core_checkpoint _ _ Hc) in Hl. sum_inv Hl. sum_inv Hr.
  injection Hl as <-. injection Hr as <-.
  pose proof (result_tables _ _ _ _ _ _ _ _ _ Hc Ht Hx Hx7) as H1'.
  pose proof (application_tables _ _ _ _ _ _ Hc H1' Hx0 Hx8) as H2'.
  assert (H3' : tables x1 = tables x9).
  { destruct (RecordActivity r'); [exact (activity_tables _ _ _ _ _ _ Hc H2' Hx1 Hx9)|by simplify_eq]. }
  apply audit_effect in Hx2, Hx10. rewrite <-Hx2, <-Hx10 in H3'.
  assert (H4' : tables x3 = tables x11).
  { destruct (Checkpoint r') as [record|]; [|by simplify_eq].
    apply and_then_inr in Hx3 as (w & Hw & Hx3). apply and_then_inr in Hx3 as (d & _ & Hx3).
    apply and_then_inr in Hx11 as (w' & Hw' & Hx11). apply and_then_inr in Hx11 as (d' & _ & Hx11).
    injection Hx3 as <-. injection Hx11 as <-. exact (checkpoint_tables _ _ _ _ _ H3' Hw Hw'). }
  apply deadlines_effect in Hx4, Hx12. rewrite <-Hx4, <-Hx12 in H4'.
  apply cleanup_effect in Hx5, Hx13. rewrite <-Hx5, <-Hx13 in H4'.
  exact (consensus_tables _ _ _ _ _ _ _ Hc H4' Hx6 Hx14).
Qed.

(** The steps of a new command. *)
Lemma new_inv failpoint s prior r result t :
  applyNew failpoint s prior r = inr (result, t) →
  ∃ prepared early proven mutations db heads resultJSON mutationJSON device committed,
    projection_result (ProjectionStore.prepareProjectionWrites (Projections r)) = inr prepared ∧
    computeApplyCommitments prior r [] = inr early ∧
    applyAccepted failpoint s r early.1.1 = inr proven ∧
    projection_result (ProjectionStore.projectionMutations (projections (tables proven)) prepared) =
      inr (mutations, db) ∧
    computeApplyCommitments prior r mutations = inr (heads, resultJSON, mutationJSON) ∧
    applyOutcome failpoint (set_device device (set_projections db proven)) r heads resultJSON
      mutationJSON = inr committed ∧
    tables t = tables committed ∧ admissionRevision t = AdmissionRevision result ∧
    result = mkApplyResult heads (Outcome r) (AdmissionRevision result) false.
Proof.
  unfold applyNew. intros Hl. sum_inv Hl. destruct x0 as [[early l] l0]. sum_inv Hl.
  destruct x1 as [mutations db]. sum_inv Hl. destruct x1 as [[heads resultJSON] mutationJSON].
  sum_inv Hl. injection Hl as <- <-. eexists x, (early, l, l0), x0, mutations, db, heads, _, _, _, x2.
  by split_and!.
Qed.

Lemma new_tables failpoint failpoint' s s' prior r r' result result' t t' :
  agree r r' → tables s = tables s' →
  applyNew failpoint s prior r = inr (result, t) → applyNew failpoint' s' prior r' = inr (result', t') →
  tables t = tables t' ∧ Heads result = Heads result' ∧ ResultOutcome result = ResultOutcome result' ∧
  Duplicate result = Duplicate result'.
Proof.
  intros Hc Ht (prepared & early & proven & mutations & db & heads & resultJSON & mutationJSON &
    device & committed & Hp & He & Ha & Hm & Hh & Ho & -> & _ & ->)%new_inv
   (prepared' & early' & proven' & mutations' & db' & heads' & resultJSON' & mutationJSON' &
    device' & committed' & Hp' & He' & Ha' & Hm' & Hh' & Ho' & -> & _ & ->)%new_inv.
  rewrite (core_projections _ _ Hc) in Hp. assert (prepared = prepared') as <- by congruence.
  rewrite (core_commitments _ _ _ _ Hc) in He. rewrite (core_commitments _ _ _ _ Hc) in Hh. assert (early = early') as <- by congruence.
  pose proof (accepted_tables _ _ _ _ _ _ _ _ _ Hc Ht Ha Ha') as Hproven.
  rewrite Hproven in Hm. assert (mutations = mutations' ∧ db = db') as [<- <-] by (split; congruence).
  assert (heads = heads' ∧ resultJSON = resultJSON' ∧ mutationJSON = mutationJSON') as (<- & <- & <-)
    by (split_and!; congruence).
  split; [|by rewrite (core_outcome _ _ Hc)]. refine (outcome_tables _ _ _ _ _ _ _ _ _ _ _ Hc _ Ho Ho').
  unfold set_device, set_projections, set_tables. cbn [tables]. by rewrite Hproven.
Qed.

Lemma duplicate_tables s s' prior r r' stored result result' t t' :
  agree r r' → tables s = tables s' →
  applyDuplicate s prior stored r = inr (result, t) →
  applyDuplicate s' prior stored r' = inr (result', t') →
  tables t = tables t' ∧ Heads result = Heads result' ∧ ResultOutcome result = ResultOutcome result' ∧
  Duplicate result = Duplicate result'.
Proof.
  unfold applyDuplicate. intros Hc Ht Hl Hr. sum_inv Hl. sum_inv Hr. injection Hl as <- <-.
  injection Hr as <- <-. split; [|done].
  pose proof Hc as Hc'. unfold agree, core in Hc'. injection Hc' as H1' H2' H3' H4' H5' H6' H7' H8' H9'.
  refine (watermark_tables _ _ _ _ _ _ Hc _ Hx2 Hx6).
  refine (application_tables _ _ _ _ _ _ _ _ Hx1 Hx5); [|exact Ht].
  unfold agree, core. cbn. by rewrite H1', H2', H4', H5', H6', H7', H8', H9'.
Qed.

(** The tables after a command. *)
Lemma apply_tables failpoint failpoint' s s' r r' result result' t t' :
  agree r r' → tables s = tables s' →
  Apply failpoint s r = inr (result, t) → Apply failpoint' s' r' = inr (result', t') →
  tables t = tables t' ∧ Heads result = Heads result' ∧ ResultOutcome result = ResultOutcome result' ∧
  Duplicate result = Duplicate result'.
Proof.
  intros Hc Ht (prior & Hprior & _ & Hbranch)%apply_inv (prior' & Hprior' & _ & Hbranch')%apply_inv.
  rewrite Ht in Hprior. assert (prior = prior') as <- by congruence.
  rewrite Ht, (core_event _ _ Hc) in Hbranch.
  destruct Hbranch as [(stored & Hs & Hl)|[Hs Hl]], Hbranch' as [(stored' & Hs' & Hr)|[Hs' Hr]];
    [|congruence..|exact (new_tables _ _ _ _ _ _ _ _ _ _ _ Hc Ht Hl Hr)].
  assert (stored = stored') as <- by congruence.
  exact (duplicate_tables _ _ _ _ _ _ _ _ _ _ Hc Ht Hl Hr).
Qed.

(** ** The covered tables *)

(** [keeps_projections]: a step that writes no covered table. *)
Ltac keeps_projections :=
  intros Hw; unfold writeRaftCommandApplication, writeActivity, writeCheckpoint, writeCommandResult,
    writeCommandResultPayload, writeConsensusState, advanceRaftWatermark, putConsensus in Hw;
  repeat match goal with
  | Hx : (let* _ := _ in _) = inr _ |- _ => sum_inv Hx
  | Hx : match ?m with Some _ => _ | None => _ end = inr _ |- _ => destruct m eqn:?
  | Hx : (if _ then inl _ else _) = inr _ |- _ => apply throw_inr in Hx as [_ Hx]
  end; simplify_eq; done.

Lemma result_projections s r heads resultJSON mutationJSON t :
  writeCommandResult s r heads resultJSON mutationJSON = inr t →
  projections (tables t) = projections (tables s).
Proof. keeps_projections. Qed.
Lemma application_projections s r t :
  writeRaftCommandApplication s r = inr t → projections (tables t) = projections (tables s).
Proof. keeps_projections. Qed.
Lemma activity_projections s r t :
  writeActivity s r = inr t → projections (tables t) = projections (tables s).
Proof. keeps_projections. Qed.
Lemma checkpoint_projections s record t :
  writeCheckpoint s record = inr t → projections (tables t) = projections (tables s).
Proof. keeps_projections. Qed.
Lemma consensus_projections s r heads t :
  writeConsensusState s r heads = inr t → projections (tables t) = projections (tables s).
Proof. keeps_projections. Qed.

Lemma outcome_projections failpoint s r heads resultJSON mutationJSON t :
  applyOutcome failpoint s r heads resultJSON mutationJSON = inr t →
  projections (tables t) = projections (tables s).
Proof.
  unfold applyOutcome. intros Hl. sum_inv Hl. injection Hl as <-.
  rewrite (consensus_projections _ _ _ _ Hx6), (cleanup_effect _ _ _ Hx5),
    (deadlines_effect _ _ _ _ Hx4).
  assert (projections (tables x3) = projections (tables x2)) as ->.
  { destruct (Checkpoint r); [|by simplify_eq]. sum_inv Hx3. injection Hx3 as <-.
    match goal with Hw : writeCheckpoint _ _ = inr _ |- _ =>
      exact (checkpoint_projections _ _ _ Hw) end. }
  rewrite (audit_effect _ _ _ Hx2).
  assert (projections (tables x1) = projections (tables x0)) as ->.
  { destruct (RecordActivity r); [by apply activity_projections in Hx1|by simplify_eq]. }
  rewrite (application_projections _ _ _ Hx0). by apply result_projections in Hx.
Qed.

(** A new command writes its prepared rows. *)
Lemma new_projections failpoint s prior r result t :
  applyNew failpoint s prior r = inr (result, t) →
  ∃ prepared mutations,
    ProjectionStore.prepareProjectionWrites (Projections r) = inr prepared ∧
    ProjectionStore.projectionMutations (projections (tables s)) prepared =
      inr (mutations, projections (tables t)).
Proof.
  intros (prepared & early & proven & mutations & db & heads & resultJSON & mutationJSON &
    device & committed & Hp & _ & Ha & Hm & _ & Ho & -> & _)%new_inv.
  apply accepted_effect in Ha as (_ & _ & _ & _ & _ & Ha).
  apply outcome_projections in Ho. unfold projection_result in Hp, Hm.
  destruct (ProjectionStore.prepareProjectionWrites _) eqn:He; [done|]. injection Hp as ->.
  rewrite Ha in Hm. destruct (ProjectionStore.projectionMutations _ _) eqn:Hw; [done|].
  injection Hm as ->. exists prepared, mutations. by rewrite Ho.
Qed.

(** A duplicate writes none. *)
Lemma duplicate_projections s prior r stored result t :
  applyDuplicate s prior stored r = inr (result, t) →
  readConsensusState (tables s) = inr (Some prior) →
  projections (tables t) = projections (tables s).
Proof. intros Hd Hp. by destruct (duplicate_effect _ _ _ _ _ _ Hd Hp) as (_ & _ & ? & ? & _ & ->). Qed.

End Lib.

End StoreReplicas.
