(* ===== verification/ConsensusProofs.v ===== *)
(** * The state machine in step with its store

    [Module FSMProofs]: what one call of [FSM.Apply] does, on each of its
    branches, what a refused command leaves in memory included; and the invariant
    that ties the state in memory to the store: the heads, the positions and the
    lineage, the admission snapshot and the identity keys are those of the
    committed tables. *)

From stdpp Require Import base gmap strings list.
From Stdlib Require Import ZArith NArith Lia.
From S2P Require Import Prelude.
From S2P Require Import GoLib.
From S2P Require Import GoJson.
From S2P Require Import CodecLayer.
From S2P Require Import DomainValues.
From S2P Require Import DeviceEntity.
From S2P Require Import PolicyEntity.
From S2P Require Import CredentialEntity.
From S2P Require Import EventModel.
From S2P Require Import EventWire.
From S2P Require Import ChainCommitments.
From S2P Require Import ReducerState.
From S2P Require Import Preflight.
From S2P Require Import StateApply.
From S2P Require Import StateIndexes.
From S2P Require Import DurableRows.
From S2P Require Import Dispatch.
From S2P Require Import PeerAdmission.
From S2P Require Import PeerProofs.
From S2P Require Import ProjectionStore.
From S2P Require Import ProjectionStream.
From S2P Require Import StoreRecords.
From S2P Require Import CommandPayload.
From S2P Require Import StoreResults.
From S2P Require Import StoreApply.
From S2P Require Import StoreSound.
From S2P Require Import StoreTheorems.
From S2P Require Import StoreReplicas.
From S2P Require Import StateMapping.
From S2P Require Import ConsensusFSM.

Module FSMProofs.

Import ConsensusFSM.FSM.

(** ** Admission *)

Definition admission_input (state : Reducer.State) : PeerAdmission.SnapshotInput :=
  PeerAdmission.mkSnapshotInput (Reducer.sessionID state) (Reducer.recoveryGeneration state)
    (Reducer.currentChainIndex state) (Reducer.devices state) (Reducer.auditCounters state)
    (Reducer.credentialAuthority state) (Reducer.credentialAuthorizations state).

Section Admission.
Context `{NormLib, JCSLib, CryptoLib}.

(** The input after a change set is the input with its rows written. *)
Lemma admission_updated st changes st' :
  StateApply.Apply st changes = inr st' →
  admission_input st' = PeerProofs.updated (admission_input st) (admissionChanges changes).
Proof.
  intros Ha. destruct (StateRows.Apply_rows _ _ _ Ha), (StateRows.Apply_header _ _ _ Ha).
  unfold admission_input, PeerProofs.updated, PeerProofs.put. cbn.
  by rewrite ha_session, ha_generation, ha_chain, ra_devices, ra_counters, ra_authority,
    ra_authorizations.
Qed.

Lemma admission_outcome st changes st' :
  StateApply.Apply st changes = inr st' → Reducer.AdvancesEventChain changes = true →
  PeerProofs.outcome_changes (admission_input st) (admissionChanges changes).
Proof.
  intros Ha Hev. destruct (StateRows.Apply_once _ _ _ Ha).
  assert (Hone : ∀ (A B : Type) (f : A → B) l, length l ≤ 1 → NoDup (f <$> l)).
  { intros A B f [|a [|]] Hl; simpl in Hl; [constructor|apply NoDup_singleton|lia]. }
  constructor; cbn; try by auto.
  - by rewrite Hev.
  - intros row old Hin Hold. by eapply StateRows.Apply_epochs.
Qed.

(** The admission in memory stays the one of the committed tables. *)
Lemma admission_advances st changes st' snapshot next :
  PeerAdmission.NewSnapshot (admission_input st) = Some snapshot →
  StateApply.Apply st changes = inr st' →
  PeerAdmission.Advance snapshot (admissionChanges changes) = Some next →
  PeerAdmission.NewSnapshot (admission_input st') = Some next.
Proof.
  intros Hs Ha Hn. rewrite (admission_updated _ _ _ Ha).
  destruct (PeerAdmission.nothingChanges (admissionChanges changes)) eqn:Hnone.
  { by rewrite <-(PeerProofs.advance_nothing _ _ _ Hs Hnone). }
  destruct (Reducer.AdvancesEventChain changes) eqn:Hev.
  - rewrite <-(PeerProofs.advance_changes _ _ _ Hs (admission_outcome _ _ _ Ha Hev)); done.
  - unfold PeerAdmission.Advance in Hn. cbn in Hn. by rewrite Hev, Hnone in Hn.
Qed.

End Admission.

(** ** One call *)

Lemma halts_inr {E A} (cause : E → Cause) (result : E + A) value :
  halts cause result = inr value → result = inr value.
Proof. destruct result; simpl; congruence. Qed.

(** The causes that halt after [State.Apply] has written. *)
Definition after_writes (cause : Cause) : bool :=
  match cause with CauseAdmission | CauseMapping _ | CauseCommit _ => true | _ => false end.

Section Machine.
Context `{DeviceTables}.
Context `{NormLib, JCSLib, CryptoLib, FlateLib}.
Context `{!StoreApply.StoreSchema, !ProjectionStore.Schema}.

Lemma authenticate_inv current log signed :
  authenticate current log = inr signed →
  Event.canonical signed = LData log ∧
  Event.SessionID (Event.proposal signed) = sessionID current ∧
  Event.WorkspaceID (Event.proposal signed) = workspaceID current ∧
  ∃ id key, identityPublicKey current id = Some key ∧
    Crypto.VerifyEd25519 key Codec.SignatureEventOrigin (Event.signedBytes signed)
      (Event.signature signed) = None ∧
    Codec.DeriveDeviceID key = inr (Event.deviceID (Event.POrigin (Event.proposal signed))).
Proof.
  unfold authenticate. intros Ha. sum_inv Ha. destruct (identityPublicKey current x) as [key|] eqn:Hk; [|done].
  apply halts_inr, EventWire.ParseAndVerify_inv in Ha as (Hc & _ & _ & _ & Hs & Hw & Hv & Hd).
  split_and!; [done..|]. exists x, key. by split_and!.
Qed.

Lemma leaving_inr {A} fsm (result : Cause + A) value :
  leaving fsm result = inr value → result = inr value.
Proof. destruct result; simpl; congruence. Qed.

(** What the copy shares is written with the receiver. *)
Lemma ApplyInPlace_inv st spare changes receiver shared :
  StateApply.ApplyInPlace st spare changes = inr (receiver, shared) →
  StateApply.Apply st changes = inr receiver ∧
  shared = StateApply.shared_after st spare changes receiver.
Proof. unfold StateApply.ApplyInPlace. intros (r & Ha & [= <- <-])%and_then_inr. done. Qed.

(** The machine once the maps of its state hold the rows of a change set. *)
Definition touched (fsm : FSM) (shared : Reducer.State) : FSM :=
  set_durable (store fsm) (touch (applyState fsm) shared) fsm.

(** What a call that fails leaves: the machine as it was or, for the causes after
    [State.Apply], with the refused rows in memory. *)
Inductive left_over (spare : nat) (fsm : FSM) : Cause → FSM → Prop :=
  | left_alone cause : left_over spare fsm cause fsm
  | left_touched cause changes receiver shared :
      after_writes cause = true →
      StateApply.ApplyInPlace (reducer (applyState fsm)) spare changes = inr (receiver, shared) →
      left_over spare fsm cause (touched fsm shared).

Lemma leaving_inl {A} spare fsm (result : Cause + A) cause failed :
  leaving fsm result = inl (cause, failed) → left_over spare fsm cause failed.
Proof. destruct result; simpl; [intros [= <- <-]; constructor|done]. Qed.

Context (failpoint : StoreApply.applyStage → option StoreRecords.Error).
Context (spare : nat).

(** A command without a result, once it is durable. *)
Record new_command (fsm : FSM) (log : Log) (signed : Event.SignedEvent) (context : ApplyMapping.ApplyContext)
    (applied : FSM) (result : StoreApply.ApplyResult) (floor : option Cause)
    (outcome : Reducer.Outcome) (prospective : Reducer.State) (next : PeerAdmission.Snapshot)
    (request : StoreRecords.ApplyRequest) (durable : StoreApply.Store) : Prop := {
  nc_reduced : reduceCommitted (reducer (applyState fsm)) signed log (heads (applyState fsm)) =
    inr outcome;
  nc_state : StateApply.Apply (reducer (applyState fsm)) (Reducer.OChanges outcome) = inr prospective;
  nc_admission : PeerAdmission.Advance (admission (applyState fsm))
    (admissionChanges (Reducer.OChanges outcome)) = Some next;
  nc_request : ApplyMapping.BuildApplyRequest signed outcome context = inr request;
  nc_store : StoreApply.Apply failpoint (store fsm) request = inr (result, durable);
  nc_applied : applied = publishAppliedCommand
    (set_durable durable
       (advance (applyState fsm) log result prospective next (Reducer.OChanges outcome))
       (publishPeerAdmissionLocked fsm next (StoreApply.AdmissionRevision result)
          (admissionAccessChanged (Reducer.OChanges outcome))))
    (LIndex log);
  nc_floor : floor = CauseFloor <$> Preflight.ValidateBinaryApplyLevel prospective }.

Definition context_of (fsm : FSM) (log : Log) (appliedAt : string) (now : Z)
    : ApplyMapping.ApplyContext :=
  ApplyMapping.mkApplyContext (LTerm log) (LIndex log) (recoveryGeneration (applyState fsm))
    appliedAt (originBootID fsm) now (heads (applyState fsm)).

Lemma applyNew_inv fsm log signed context applied result floor :
  applyNew failpoint spare fsm log signed context = inr (applied, result, floor) →
  ∃ outcome prospective next request durable,
    new_command fsm log signed context applied result floor outcome prospective next request durable.
Proof.
  unfold applyNew. intros Ha. apply and_then_inr in Ha as (outcome & Hr%leaving_inr%halts_inr & Ha).
  apply and_then_inr in Ha as ([prospective shared] & Hs%leaving_inr%halts_inr & Ha).
  apply ApplyInPlace_inv in Hs as [Hs _].
  destruct (PeerAdmission.Advance _ _) as [next|] eqn:Hn; [|done].
  apply and_then_inr in Ha as (request & Hb%leaving_inr%halts_inr & Ha).
  apply and_then_inr in Ha as ([res durable] & Hd%leaving_inr%halts_inr & Ha). injection Ha as <- <- <-.
  exists outcome, prospective, next, request, durable. constructor; try done.
  unfold publishPeerAdmissionLocked. cbn. by destruct (ChangeFeed.isClosed _).
Qed.

(** A command that is refused. *)
Lemma applyNew_left fsm log signed context cause failed :
  applyNew failpoint spare fsm log signed context = inl (cause, failed) →
  left_over spare fsm cause failed.
Proof.
  unfold applyNew. intros Ha. apply and_then_inl in Ha as [Ha|(outcome & _ & Ha)]; [by eapply leaving_inl|].
  apply and_then_inl in Ha as [Ha|([prospective shared] & Hs%leaving_inr%halts_inr & Ha)];
    [by eapply leaving_inl|].
  fold (touched fsm shared) in Ha.
  assert (Hlate : ∀ cause, after_writes cause = true → left_over spare fsm cause (touched fsm shared)).
  { intros c Hc. by eapply left_touched. }
  destruct (PeerAdmission.Advance _ _) as [next|]; [|by injection Ha as <- <-; apply Hlate].
  apply and_then_inl in Ha as [Ha|(request & _ & Ha)].
  { destruct (ApplyMapping.BuildApplyRequest _ _ _); [|done]. injection Ha as <- <-. by apply Hlate. }
  apply and_then_inl in Ha as [Ha|([res durable] & _ & Ha)]; [|done].
  destruct (StoreApply.Apply _ _ _); [|done]. injection Ha as <- <-. by apply Hlate.
Qed.

(** The three ways an entry succeeds. *)
Inductive succeeded (fsm : FSM) (log : Log) (signed : Event.SignedEvent)
    : FSM → StoreApply.ApplyResult → option Cause → Prop :=
  | succeeded_covered lookup :
      StoreResults.LookupCommandResult (StoreApply.tables (store fsm))
        (Event.EventID (Event.proposal signed)) = inr (Some lookup) →
      StoreResults.CanonicalProposal lookup = LData log →
      (LIndex log ≤ lastRaftAppliedLogIndex (applyState fsm))%N →
      StoreResults.VerifyRaftCommand (StoreApply.tables (store fsm)) (LTerm log) (LIndex log) signed =
        inr tt →
      succeeded fsm log signed (publishAppliedCommand fsm (LIndex log))
        (StoreApply.mkApplyResult (heads (applyState fsm)) (StoreResults.LOutcome lookup)
           (admissionRevision (applyState fsm)) true) None
  | succeeded_duplicate lookup appliedAt result durable :
      StoreResults.LookupCommandResult (StoreApply.tables (store fsm))
        (Event.EventID (Event.proposal signed)) = inr (Some lookup) →
      StoreResults.CanonicalProposal lookup = LData log →
      (0 < lastRaftAppliedLogIndex (applyState fsm) < LIndex log)%N →
      StoreApply.Apply failpoint (store fsm)
        (duplicateRequest (applyState fsm) log signed appliedAt) = inr (result, durable) →
      succeeded fsm log signed
        (publishAppliedCommand
           (set_durable durable (advanceDuplicate (applyState fsm) log result) fsm) (LIndex log))
        result None
  | succeeded_new appliedAt now applied result floor outcome prospective next request durable :
      StoreResults.LookupCommandResult (StoreApply.tables (store fsm))
        (Event.EventID (Event.proposal signed)) = inr None →
      new_command fsm log signed (context_of fsm log appliedAt now) applied result floor outcome
        prospective next request durable →
      succeeded fsm log signed applied result floor.

Lemma applyCommand_inv fsm log clock applied result floor :
  applyCommand failpoint spare fsm log clock = inr (applied, result, floor) →
  ∃ signed, authenticate (applyState fsm) log = inr signed ∧
    succeeded fsm log signed applied result floor.
Proof.
  unfold applyCommand. intros Ha. apply and_then_inr in Ha as (signed & Hsigned%leaving_inr & Ha).
  exists signed. split; [done|].
  apply and_then_inr in Ha as ([lookup|] & Hl%leaving_inr%halts_inr & Ha).
  - apply throw_inr in Ha as [Hc Ha]. bools.
    destruct (negb _ && _) eqn:Hcovered.
    + apply and_then_inr in Ha as ([fsm' res] & Hcov%leaving_inr & Ha). injection Ha as <- <- <-.
      unfold coveredDuplicate in Hcov. apply and_then_inr in Hcov as ([] & Hv%halts_inr & Hcov).
      injection Hcov as <- <-. bools. eapply succeeded_covered; try done. lia.
    + apply throw_inr in Ha as [Hz Ha]. apply and_then_inr in Ha as ([appliedAt now] & _ & Ha).
      apply and_then_inr in Ha as ([fsm' res] & Hd%leaving_inr & Ha). injection Ha as <- <- <-.
      unfold applyDuplicate in Hd. apply and_then_inr in Hd as ([res' durable] & Hd%halts_inr & Ha).
      injection Ha as <- <-. rewrite Hz in Hcovered. cbn in Hcovered. bools.
      eapply succeeded_duplicate; try done. lia.
  - apply and_then_inr in Ha as ([appliedAt now] & _ & Ha).
    apply applyNew_inv in Ha as (outcome & prospective & next & request & durable & Hn).
    by eapply succeeded_new.
Qed.

Lemma applyCommand_left fsm log clock cause failed :
  applyCommand failpoint spare fsm log clock = inl (cause, failed) → left_over spare fsm cause failed.
Proof.
  unfold applyCommand. intros Ha. apply and_then_inl in Ha as [Ha|(signed & _ & Ha)]; [by eapply leaving_inl|].
  apply and_then_inl in Ha as [Ha|([lookup|] & _ & Ha)]; [by eapply leaving_inl| |].
  - destruct (_ != _); [injection Ha as <- <-; constructor|].
    destruct (negb _ && _).
    { apply and_then_inl in Ha as [Ha|(? & _ & Ha)]; [by eapply leaving_inl|done]. }
    destruct (_ =? _)%N; [injection Ha as <- <-; constructor|].
    apply and_then_inl in Ha as [Ha|([appliedAt now] & _ & Ha)]; [by eapply leaving_inl|].
    apply and_then_inl in Ha as [Ha|(? & _ & Ha)]; [by eapply leaving_inl|done].
  - apply and_then_inl in Ha as [Ha|([appliedAt now] & _ & Ha)]; [by eapply leaving_inl|].
    by eapply applyNew_left.
Qed.

Lemma committedCommand_inv log command : committedCommand log = inr command →
  log = Some command ∧ (1 ≤ LTerm command)%N ∧ (1 ≤ LIndex command)%N.
Proof.
  unfold committedCommand. destruct log as [log|]; [|done]. intros Hc.
  apply throw_inr in Hc as [Hc [= <-]]. bools. split; [done|lia].
Qed.

(** A call: nothing once halted; a halt of what a failure leaves; or a success,
    which the floor may halt too. *)
Lemma Apply_cases fsm log clock fsm' response :
  Apply failpoint spare fsm log clock = (fsm', response) →
  (∃ err, haltErr fsm = Some err ∧ fsm' = fsm ∧
     response = mkApplyResponse (raftLogIndex log) None (Some err)) ∨
  (haltErr fsm = None ∧ ∃ cause failed, left_over spare fsm cause failed ∧
     (fsm', response) = halt failed log cause) ∨
  (haltErr fsm = None ∧ ∃ command signed applied result floor, log = Some command ∧
     (1 ≤ LTerm command)%N ∧ (1 ≤ LIndex command)%N ∧
     authenticate (applyState fsm) command = inr signed ∧
     succeeded fsm command signed applied result floor ∧
     (fsm', response) =
       match floor with
       | Some cause => halt applied log cause
       | None => (applied, mkApplyResponse (raftLogIndex log) (Some result) None)
       end).
Proof.
  unfold Apply. destruct (haltErr fsm) as [err|]; [intros [= <- <-]; left; by exists err|]. intros Ha. right. revert Ha.
  destruct (and_then _ _) as [[cause failed]|[[applied result] floor]] eqn:Hc; intros Ha.
  - left. split; [done|]. exists cause, failed. split; [|done].
    apply and_then_inl in Hc as [Hc|(command & _ & Hc)]; [by eapply leaving_inl|by eapply applyCommand_left].
  - right. split; [done|]. apply and_then_inr in Hc as (command & Hlog%leaving_inr%committedCommand_inv & Hc).
    apply applyCommand_inv in Hc as (signed & Hs & Hc). destruct Hlog as (-> & Ht & Hi).
    exists command, signed, applied, result, floor. split_and!; try done.
Qed.

(** ** In step *)

(** Heads without the hash of the previous result, which a duplicate drops. *)
Definition positions (heads : StoreRecords.ApplyHeads) : StoreRecords.ApplyHeads :=
  StoreRecords.mkApplyHeads (StoreRecords.ChainIndex heads) (StoreRecords.ChainHash heads)
    (StoreRecords.ResultIndex heads) Chain.zero_digest (StoreRecords.ResultHash heads)
    (StoreRecords.ProjectionAccumulator heads) (StoreRecords.DigestVersion heads)
    (StoreRecords.ProjectionSchemaVersion heads).

(** The key of every device of a state. *)
Definition device_keys (devices : gmap string Device.Device) : gmap string (list N) :=
  Device.IdentityPublicKey <$> devices.

Record in_step (fsm : FSM) (st : StoreResults.consensusState) : Prop := {
  is_sound : StoreSound.sound (StoreApply.tables (store fsm)) st;
  is_heads : positions (heads (applyState fsm)) = StoreResults.headsFromConsensus st;
  is_log : lastRaftAppliedLogIndex (applyState fsm) = StoreResults.lastAppliedLogIndex st;
  is_session : sessionID (applyState fsm) = StoreResults.sessionID st ∧
    Reducer.sessionID (reducer (applyState fsm)) = StoreResults.sessionID st;
  is_workspace : Reducer.workspaceID (reducer (applyState fsm)) = workspaceID (applyState fsm);
  is_generation : recoveryGeneration (applyState fsm) = StoreResults.recoveryGeneration st ∧
    Reducer.recoveryGeneration (reducer (applyState fsm)) = StoreResults.recoveryGeneration st;
  is_positions : Reducer.currentChainIndex (reducer (applyState fsm)) = StoreResults.chainIndex st ∧
    Reducer.currentResultIndex (reducer (applyState fsm)) = StoreResults.resultIndex st;
  is_admission : PeerAdmission.NewSnapshot (admission_input (reducer (applyState fsm))) =
    Some (admission (applyState fsm));
  is_keys : identityPublicKeys (applyState fsm) =
    device_keys (Reducer.devices (reducer (applyState fsm))) }.

(** Only the store and the state in memory count. *)
Lemma in_step_same fsm fsm' st :
  StoreApply.tables (store fsm') = StoreApply.tables (store fsm) →
  applyState fsm' = applyState fsm → in_step fsm st → in_step fsm' st.
Proof. intros Ht Ha []. by constructor; rewrite ?Ht, ?Ha. Qed.

Lemma publishAppliedCommand_same fsm i :
  store (publishAppliedCommand fsm i) = store fsm ∧
  applyState (publishAppliedCommand fsm i) = applyState fsm ∧
  haltErr (publishAppliedCommand fsm i) = haltErr fsm.
Proof. unfold publishAppliedCommand. by destruct (_ || _). Qed.

Lemma halt_same fsm log cause :
  store (halt fsm log cause).1 = store fsm ∧ applyState (halt fsm log cause).1 = applyState fsm.
Proof. unfold halt. simpl. by destruct (haltErr fsm). Qed.

(** *** The request of an outcome *)

Lemma ensure_inr' {E A} (a : option E) (k : E + A) v : (ensure a ;; k) = inr v → a = None ∧ k = inr v.
Proof. destruct a; [done|auto]. Qed.

Lemma BuildApplyRequest_inv signed outcome context request :
  ApplyMapping.BuildApplyRequest signed outcome context = inr request →
  StoreRecords.Term request = ApplyMapping.Term context ∧
  StoreRecords.LogIndex request = ApplyMapping.LogIndex context ∧
  StoreRecords.RecoveryGeneration request = ApplyMapping.RecoveryGeneration context ∧
  StoreRecords.Proposal request = signed ∧
  StoreRecords.Projections request = ApplyMapping.projectionWrites (Reducer.OChanges outcome) ∧
  StoreRecords.Status (StoreRecords.Outcome request) =
    ApplyMapping.storeStatus (Reducer.OStatus outcome) ∧
  StoreRecords.Code (StoreRecords.Outcome request) = Reducer.Code_text (Reducer.OCode outcome) ∧
  StoreApply.acceptedRequest request = Reducer.AdvancesEventChain (Reducer.OChanges outcome).
Proof.
  unfold ApplyMapping.BuildApplyRequest, ApplyMapping.buildApplyRequest. intros Hb. sum_inv Hb.
  apply throw_inr in Hx as [_ Hx]. apply throw_inr in Hx as [Heq Hx]. sum_inv Hx.
  destruct (ApplyMapping.ResultJSON outcome) as [|json]; [done|].
  apply and_then_inr in Hx as (audit & _ & Hx). apply and_then_inr in Hx as ([upserts deletes] & _ & Hx).
  injection Hx as <-. injection Hb as <-. cbn.
  split_and!; try done. apply negb_false_iff, eqb_prop in Heq. rewrite <-Heq.
  unfold StoreApply.acceptedRequest. cbn. unfold Reducer.Accepted.
  by destruct (Reducer.OStatus outcome).
Qed.

(** *** The lookup *)

Lemma lookup_none t e : StoreResults.LookupCommandResult t e = inr None →
  StoreResults.readStoredCommandResult t e = inr None.
Proof.
  unfold StoreResults.LookupCommandResult. intros Hl. apply throw_inr in Hl as [_ Hl].
  apply and_then_inr in Hl as ([stored|] & Hr & Hl); [|done].
  apply and_then_inr in Hl as ([] & _ & Hl). apply and_then_inr in Hl as ([st|] & _ & Hl); [|done].
  destruct (StoreResults.validateLookupHeads _ _ _); done.
Qed.

(** *** A new command *)

Lemma writeIdentityKeys_rows members devices :
  writeIdentityKeys members (device_keys devices) =
    device_keys (StateIndexes.by_id Device.ID members devices).
Proof.
  unfold writeIdentityKeys, StateIndexes.by_id, device_keys. revert devices.
  induction members as [|member members IH]; intros devices; simpl; [done|].
  by rewrite <-IH, fmap_insert.
Qed.

(** The durable part of a new command. *)
Lemma new_durable s st request result durable :
  StoreSound.sound (StoreApply.tables s) st → StoreApply.Apply failpoint s request = inr (result, durable) →
  StoreResults.readStoredCommandResult (StoreApply.tables s) (StoreRuns.request_event request) =
    inr None →
  StoreSound.sound (StoreApply.tables durable) (StoreSound.advanced st request (StoreApply.Heads result)) ∧
  StoreApply.Duplicate result = false ∧
  StoreApply.ResultOutcome result = StoreRecords.Outcome request ∧
  (StoreResults.resultIndex st < Domain.MaxSafeInteger)%N ∧
  StoreRecords.ResultIndex (StoreApply.Heads result) = (StoreResults.resultIndex st + 1)%N ∧
  (if StoreApply.acceptedRequest request
   then (StoreResults.chainIndex st < Domain.MaxSafeInteger)%N ∧
        StoreRecords.ChainIndex (StoreApply.Heads result) = (StoreResults.chainIndex st + 1)%N
   else StoreRecords.ChainIndex (StoreApply.Heads result) = StoreResults.chainIndex st) ∧
  StoreApply.applyNew failpoint s st request = inr (result, durable).
Proof.
  intros Hs (prior & Hprior & _ & Hbranch)%StoreRuns.apply_inv Hnone.
  pose proof (StoreSound.snd_state _ _ Hs) as Hst. rewrite Hst in Hprior. injection Hprior as <-.
  destruct Hbranch as [(stored & Hsome & _)|[_ Hnew]]; [congruence|].
  destruct (StoreEffects.new_effect _ _ _ _ _ _ Hnew) as (mutations & resultJSON & mutationJSON & Hpos &
    Hvalid & Hroom & Hchain & Hcomm & Ho & Hd & Hrec).
  destruct (StoreSound.commitments_inv _ _ _ _ _ _ Hroom Hchain Hcomm) as (Hri & _ & _ & _ & _ & _ & Hev).
  split_and!; try done; [by eapply StoreSound.sound_new|].
  destruct (StoreApply.acceptedRequest request); [|by destruct Hev]. split; [by apply Hchain|by destruct Hev].
Qed.

Lemma new_in_step fsm st log signed appliedAt now applied result floor outcome prospective next request
    durable :
  in_step fsm st →
  StoreResults.LookupCommandResult (StoreApply.tables (store fsm))
    (Event.EventID (Event.proposal signed)) = inr None →
  new_command fsm log signed (context_of fsm log appliedAt now) applied result floor outcome
    prospective next request durable →
  in_step applied (StoreSound.advanced st request (StoreApply.Heads result)).
Proof.
  intros [Hsound Hheads Hlog [Hs Hrs] Hw [Hg Hrg] [Hci Hri] Had Hk] Hnone%lookup_none [Hred Hst Hadv Hreq Hst' -> _].
  destruct (BuildApplyRequest_inv _ _ _ _ Hreq) as (Hterm & Hindex & Hgen & Hprop & Hproj & _ & _ & Hacc).
  unfold StoreRuns.request_event in *. rewrite <-Hprop in Hnone.
  destruct (new_durable _ _ _ _ _ Hsound Hst' Hnone) as (Hsound' & _ & _ & Hroom & Hri' & Hci' & _).
  destruct (StateRows.Apply_header _ _ _ Hst), (StateRows.Apply_rows _ _ _ Hst).
  destruct (publishAppliedCommand_same (set_durable durable
    (advance (applyState fsm) log result prospective next (Reducer.OChanges outcome))
    (publishPeerAdmissionLocked fsm next (StoreApply.AdmissionRevision result)
       (admissionAccessChanged (Reducer.OChanges outcome)))) (LIndex log)) as (Hs1 & Hs2 & _).
  eapply in_step_same; [by rewrite Hs1|by rewrite Hs2|].
  constructor; cbn [store applyState set_durable advance heads lastRaftAppliedLogIndex sessionID
    workspaceID recoveryGeneration reducer admission identityPublicKeys StoreSound.advanced
    StoreResults.sessionID StoreResults.recoveryGeneration StoreResults.chainIndex
    StoreResults.resultIndex StoreResults.lastAppliedLogIndex].
  - done.
  - done.
  - by rewrite Hindex.
  - by rewrite ha_session.
  - by rewrite ha_workspace.
  - by rewrite ha_generation.
  - rewrite ha_chain, ha_result, Hri', Hri. change Domain.MaxSafeInteger with 9007199254740991%N in *.
    rewrite (u64_succ_small (StoreResults.resultIndex st)) by (unfold u64_modulus; lia).
    split; [|done]. rewrite <-Hacc, Hci. destruct (StoreApply.acceptedRequest request); [|done].
    destruct Hci' as [Hlt ->]. by rewrite u64_succ_small by (unfold u64_modulus; lia).
  - by eapply admission_advances.
  - by rewrite Hk, writeIdentityKeys_rows, ra_devices.
Qed.

(** *** A duplicate *)

Lemma duplicate_in_step fsm st log signed lookup appliedAt result durable :
  in_step fsm st → (1 ≤ LTerm log)%N → (1 ≤ LIndex log)%N →
  StoreResults.LookupCommandResult (StoreApply.tables (store fsm))
    (Event.EventID (Event.proposal signed)) = inr (Some lookup) →
  StoreApply.Apply failpoint (store fsm)
    (duplicateRequest (applyState fsm) log signed appliedAt) = inr (result, durable) →
  in_step (set_durable durable (advanceDuplicate (applyState fsm) log result) fsm)
    (StoreSound.rewatermarked st (duplicateRequest (applyState fsm) log signed appliedAt)) ∧
  StoreApply.ResultOutcome result = StoreResults.LOutcome lookup ∧
  StoreApply.Duplicate result = true.
Proof.
  intros [Hsound Hheads Hlog [Hs Hrs] Hw [Hg Hrg] [Hci Hri] Had Hk] Hterm Hindex Hl Hst'.
  pose proof Hst' as (prior & Hprior & _ & Hbranch)%StoreRuns.apply_inv.
  pose proof (StoreSound.snd_state _ _ Hsound) as Hst. rewrite Hst in Hprior. injection Hprior as <-.
  unfold StoreResults.LookupCommandResult in Hl. apply throw_inr in Hl as [_ Hl].
  apply and_then_inr in Hl as ([stored|] & Hr & Hl); [|done].
  change (StoreRuns.request_event _) with (Event.EventID (Event.proposal signed)) in Hbranch.
  rewrite Hr in Hbranch. destruct Hbranch as [(stored' & [= <-] & Hd)|[? _]]; [|done].
  destruct (StoreRuns.duplicate_effect _ _ _ _ _ _ Hd Hst) as (_ & -> & row & apps & Hrow & Heq).
  apply and_then_inr in Hl as ([] & _ & Hl). rewrite Hst in Hl. cbn [and_then] in Hl.
  destruct (StoreResults.validateLookupHeads _ _ _); [done|]. injection Hl as <-.
  split; [|done]. constructor; cbn; try done.
  rewrite Heq. by eapply StoreSound.sound_duplicate.
Qed.

(** A success keeps the machine in step. *)
Lemma succeeded_in_step fsm st log signed applied result floor :
  in_step fsm st → (1 ≤ LTerm log)%N → (1 ≤ LIndex log)%N →
  succeeded fsm log signed applied result floor → ∃ st', in_step applied st'.
Proof.
  intros Hin Ht Hi [lookup Hl Hc Hle Hv|lookup appliedAt res durable Hl Hc Hlt Hd|].
  - exists st. destruct (publishAppliedCommand_same fsm (LIndex log)) as (Hs1 & Hs2 & _).
    eapply in_step_same; [by rewrite Hs1|by rewrite Hs2|done].
  - destruct (duplicate_in_step _ _ _ _ _ _ _ _ Hin Ht Hi Hl Hd) as [Hstep _].
    eexists. destruct (publishAppliedCommand_same (set_durable durable
      (advanceDuplicate (applyState fsm) log res) fsm) (LIndex log)) as (Hs1 & Hs2 & _).
    eapply in_step_same; [by rewrite Hs1|by rewrite Hs2|exact Hstep].
  - eexists. by eapply new_in_step.
Qed.

End Machine.

End FSMProofs.
