(* ===== verification/ConsensusTheorems.v ===== *)
(** * Theorems on the replicated state machine

    [Module FSMTheorems]: runs of the machine from its start on an initialized
    store: while it runs, the state in memory stays the one the store holds; an
    acknowledged command is recorded there; replicas that apply the same entries
    agree; and a halt is final, whatever a refused command left in memory. *)

From stdpp Require Import base gmap strings list.
From Stdlib Require Import ZArith NArith Lia.
From S2P Require Import Prelude.
From S2P Require Import GoLib.
From S2P Require Import GoJson.
From S2P Require Import CodecLayer.
From S2P Require Import DomainValues.
From S2P Require Import TaskEntity.
From S2P Require Import LeaseEntity.
From S2P Require Import AgentSessionEntity.
From S2P Require Import DeviceEntity.
From S2P Require Import PlanMemoryEntity.
From S2P Require Import PolicyEntity.
From S2P Require Import ConflictEntity.
From S2P Require Import PublicationEntity.
From S2P Require Import CredentialEntity.
From S2P Require Import EventModel.
From S2P Require Import EventWire.
From S2P Require Import ReducerState.
From S2P Require Import Preflight.
From S2P Require Import RepositoryState.
From S2P Require Import StateApply.
From S2P Require Import StateLoad.
From S2P Require Import StateIndexes.
From S2P Require Import Fixtures.
From S2P Require Import TaskProofs.
From S2P Require Import PublicationProofs.
From S2P Require Import StateProofs.
From S2P Require Import StateTheorems.
From S2P Require Import LoadProofs.
From S2P Require Import PeerAdmission.
From S2P Require Import ProjectionStore.
From S2P Require Import ProjectionStream.
From S2P Require Import ProjectionTheorems.
From S2P Require Import StoreRecords.
From S2P Require Import CommandPayload.
From S2P Require Import StoreResults.
From S2P Require Import StoreApply.
From S2P Require Import StoreBoundary.
From S2P Require Import StoreSound.
From S2P Require Import StoreTheorems.
From S2P Require Import StateMapping.
From S2P Require Import ConsensusFSM.
From S2P Require Import DurableRows.
From S2P Require Import StoreReplicas.
From S2P Require Import ConsensusProofs.

Module FSMTheorems.

Import ConsensusFSM.FSM ConsensusProofs.FSMProofs DurableRows.DurableRows.

Section Machine.
Context `{DeviceTables}.
Context `{NormLib, JCSLib, CryptoLib, FlateLib, SQLiteJSON}.
Context `{!StoreApply.StoreSchema, !ProjectionStore.Schema}.

(** ** The start *)

Lemma boundary_state_projections store initial heads store' :
  StoreBoundary.writeBoundaryConsensusState store initial heads = inr store' →
  StoreResults.projections (StoreApply.tables store') =
    StoreResults.projections (StoreApply.tables store).
Proof.
  unfold StoreBoundary.writeBoundaryConsensusState, StoreApply.putConsensus. intros Hw.
  apply throw_inr in Hw as [_ Hw]. apply and_then_inr in Hw as (? & _ & Hw).
  apply and_then_inr in Hw as (? & _ & Hw). apply throw_inr in Hw as [_ Hw]. by injection Hw as <-.
Qed.

Lemma initialize_projections store initial heads store' :
  StoreBoundary.Initialize store initial = inr (heads, store') →
  ∃ prepared,
    ProjectionStore.prepareProjectionWrites (StoreBoundary.IProjections initial) = inr prepared ∧
    ProjectionStore.writePreparedProjections
      (StoreResults.projections (StoreApply.tables store)) prepared =
      inr (StoreResults.projections (StoreApply.tables store')).
Proof.
  unfold StoreBoundary.Initialize, StoreApply.projection_result. intros Hi. sum_inv Hi.
  injection Hi as <- <-.
  repeat match goal with Hx : match ?r with inl _ => inl _ | inr value => inr value end = inr _ |- _ =>
    let Hr := fresh "Hr" in destruct r eqn:Hr; [done|]; injection Hx as -> end.
  eexists. split; [done|].
  match goal with Hw : StoreBoundary.writeInitialProjectionBoundary _ _ _ _ = inr _ |- _ =>
    apply StoreRuns.retained_effect in Hw as Hret end.
  match goal with Hg : StoreBoundary.writeGenesis _ _ _ = inr _ |- _ =>
    apply StoreRuns.write_genesis_effect in Hg as Hgen end.
  match goal with Hb : StoreBoundary.writeBoundaryConsensusState _ _ _ = inr _ |- _ =>
    apply boundary_state_projections in Hb as Hbound end.
  cbn. rewrite Hbound, Hgen. cbn. by rewrite Hret.
Qed.

(** *** A machine over a sound store *)

Lemma position_default value : default 0%N (StoreView.position value) = value.
Proof. unfold StoreView.position. destruct (N.eqb_spec value 0) as [->|]; done. Qed.

Lemma built_Some {E A} (result : E + A) value :
  StateDecode.built result = Some value → result = inr value.
Proof. destruct result; simpl; congruence. Qed.

Lemma View_inv store view st :
  StoreResults.readConsensusState (StoreApply.tables store) = inr (Some st) →
  StoreView.View store = inr view →
  StoreView.SessionID view = StoreResults.sessionID st ∧
  StoreView.RecoveryGeneration view = StoreResults.recoveryGeneration st ∧
  StoreView.LastRaftAppliedLogIndex view = StoreView.position (StoreResults.lastAppliedLogIndex st) ∧
  StoreView.Heads view = StoreResults.headsFromConsensus st.
Proof.
  unfold StoreView.View. intros Hst Hv. rewrite Hst in Hv. cbn [and_then] in Hv.
  destruct (StoreResults.genesisRecords _ !! _) as [genesis|]; [|done].
  apply throw_inr in Hv as [_ Hv]. apply throw_inr in Hv as [_ Hv].
  apply and_then_inr in Hv as (rows & _ & Hv). apply and_then_inr in Hv as (digest & _ & Hv).
  by injection Hv as <-.
Qed.

(** What a decoded view is made of. *)
Lemma decode_inv view decoded : StateDecode.decodeStateView view = Some decoded →
  StateTheorems.sound (StateDecode.Reducer_ decoded) ∧
  Reducer.sessionID (StateDecode.Reducer_ decoded) = StoreView.SessionID view ∧
  Reducer.workspaceID (StateDecode.Reducer_ decoded) = StoreView.WorkspaceID view ∧
  Reducer.recoveryGeneration (StateDecode.Reducer_ decoded) = StoreView.RecoveryGeneration view ∧
  Reducer.currentChainIndex (StateDecode.Reducer_ decoded) =
    StoreRecords.ChainIndex (StoreView.Heads view) ∧
  Reducer.currentResultIndex (StateDecode.Reducer_ decoded) =
    StoreRecords.ResultIndex (StoreView.Heads view) ∧
  PeerAdmission.NewSnapshot (admission_input (StateDecode.Reducer_ decoded)) =
    Some (StateDecode.Admission decoded) ∧
  StateDecode.identityPublicKeys decoded = device_keys (Reducer.devices (StateDecode.Reducer_ decoded)).
Proof.
  unfold StateDecode.decodeStateView. intros Hd.
  apply bind_Some in Hd as ([snapshot state] & Hr & Hd).
  apply bind_Some in Hd as (admission & Ha & Hd). apply bind_Some in Hd as (coverage & _ & Hd).
  injection Hd as <-. cbn [StateDecode.Reducer_ StateDecode.Admission StateDecode.identityPublicKeys].
  unfold StateDecode.decodeReducerStateView in Hr.
  destruct (negb _); [done|]. apply bind_Some in Hr as (key & _ & Hr).
  apply bind_Some in Hr as (digest & _ & Hr). destruct (digest != _); [done|].
  apply bind_Some in Hr as (snapshot' & Hrows & Hr).
  apply bind_Some in Hr as (state' & Hn%built_Some & Hr). injection Hr as -> ->.
  unfold StateDecode.decodeProjectionRows in Hrows. cbn zeta in Hrows. destruct (existsb _ _); [done|].
  repeat (apply bind_Some in Hrows as (? & _ & Hrows)). injection Hrows as Hsnap.
  pose proof Hn as Hsound%LoadProofs.NewState_sound_state.
  apply LoadProofs.NewState_loads in Hn. rewrite (LoadProofs.ld_state _ _ Hn) in Hsound |- *.
  split; [exact Hsound|]. rewrite <-Hsnap in Ha |- *. split_and!; try reflexivity. exact Ha.
Qed.

Lemma NewFSM_in_step store st bootID fsm :
  StoreSound.sound (StoreApply.tables store) st → NewFSM store bootID = Some fsm →
  in_step fsm st ∧ FSM.store fsm = store ∧ haltErr fsm = None ∧
  StateTheorems.sound (reducer (applyState fsm)).
Proof.
  intros Hs Hn. unfold NewFSM in Hn. destruct (negb _); [done|].
  apply bind_Some in Hn as (view & Hv%built_Some & Hn). apply bind_Some in Hn as (decoded & Hd & Hn).
  destruct (bool_decide _); [done|]. injection Hn as <-.
  pose proof (View_inv _ _ _ (StoreSound.snd_state _ _ Hs) Hv) as (Vs & Vg & Vl & Vh).
  destruct (decode_inv _ _ Hd) as (Hsound & Es & Ew & Eg & Ec & Er & Ha & Hk).
  split_and!; [|done..|exact Hsound].
  constructor; cbn [ConsensusFSM.FSM.store applyState newFSMApplyState heads lastRaftAppliedLogIndex sessionID
    workspaceID recoveryGeneration reducer admission identityPublicKeys].
  - done.
  - by rewrite Vh.
  - by rewrite Vl, position_default.
  - by rewrite Es.
  - done.
  - by rewrite Eg.
  - by rewrite Ec, Er, Vh.
  - done.
  - done.
Qed.

(** Two machines over one store differ in their boot only. *)
Lemma NewFSM_same store bootID bootID' fsm fsm' :
  NewFSM store bootID = Some fsm → NewFSM store bootID' = Some fsm' →
  ConsensusFSM.FSM.store fsm = store ∧ ConsensusFSM.FSM.store fsm' = store ∧
  applyState fsm = applyState fsm'.
Proof.
  unfold NewFSM. destruct (negb _); [done|]. destruct (negb _); [done|].
  destruct (StateDecode.built _) as [view|]; [simpl|done].
  destruct (StateDecode.decodeStateView view) as [decoded|]; [simpl|done].
  destruct (bool_decide _); [done|]. by intros [= <-] [= <-].
Qed.

(** ** Runs *)

(** Calls, and steps of this device's own that leave the replicated tables and
    the state in memory alone. *)
Inductive runs : FSM → FSM → Prop :=
  | runs_refl fsm : runs fsm fsm
  | runs_apply fsm middle failpoint spare log clock fsm' response :
      runs fsm middle → Apply failpoint spare middle log clock = (fsm', response) → runs fsm fsm'
  | runs_local fsm middle fsm' :
      runs fsm middle → StoreApply.tables (store fsm') = StoreApply.tables (store middle) →
      applyState fsm' = applyState middle → haltErr fsm' = haltErr middle → runs fsm fsm'.

(** The tables a success leaves are those of an apply, or the same. *)
Lemma succeeded_store failpoint fsm log signed applied result floor :
  succeeded failpoint fsm log signed applied result floor →
  StoreRuns.runs (store fsm) (store applied).
Proof.
  intros [lookup|lookup appliedAt res durable _ _ _ Hd|appliedAt now app res fl outcome prospective next
    request durable _ [_ _ _ _ Hs -> _]].
  - destruct (publishAppliedCommand_same fsm (LIndex log)) as (-> & _). constructor.
  - match goal with |- context [publishAppliedCommand ?f ?i] =>
      destruct (publishAppliedCommand_same f i) as (-> & _) end.
    eapply StoreRuns.runs_apply; [constructor|exact Hd].
  - match goal with |- context [publishAppliedCommand ?f ?i] =>
      destruct (publishAppliedCommand_same f i) as (-> & _) end.
    eapply StoreRuns.runs_apply; [constructor|exact Hs].
Qed.

Lemma left_over_store spare fsm cause failed : left_over spare fsm cause failed → store failed = store fsm.
Proof. by intros [|]. Qed.

Lemma Apply_store failpoint spare fsm log clock fsm' response :
  Apply failpoint spare fsm log clock = (fsm', response) → StoreRuns.runs (store fsm) (store fsm').
Proof.
  intros Ha. destruct (Apply_cases _ _ _ _ _ _ _ Ha) as
    [(err & _ & -> & _)|[(_ & cause & failed & Hleft & Heq)|(_ & command & signed & applied & result & floor & _ &
       _ & _ & _ & Hsucc & Heq)]]; [constructor| |].
  - apply (f_equal fst) in Heq. cbn [fst] in Heq. subst fsm'.
    destruct (halt_same failed log cause) as [-> _]. rewrite (left_over_store _ _ _ _ Hleft). constructor.
  - apply succeeded_store in Hsucc. destruct floor as [cause|]; [|by injection Heq as -> _].
    apply (f_equal fst) in Heq. cbn [fst] in Heq. subst fsm'. by destruct (halt_same applied log cause) as [-> _].
Qed.

Lemma store_runs_trans a b c : StoreRuns.runs a b → StoreRuns.runs b c → StoreRuns.runs a c.
Proof.
  intros Hab. induction 1; [done| |].
  - eapply StoreRuns.runs_apply; [|done]. auto.
  - eapply StoreRuns.runs_local; [|done]. auto.
Qed.

Lemma runs_store fsm fsm' : runs fsm fsm' → StoreRuns.runs (store fsm) (store fsm').
Proof.
  induction 1 as [|fsm middle failpoint spare log clock fsm' response _ IH Ha|fsm middle fsm' _ IH Ht];
    [constructor| |].
  - eapply store_runs_trans; [exact IH|by eapply Apply_store].
  - eapply StoreRuns.runs_local; [exact IH|exact Ht].
Qed.

(** ** One state *)

(** The machine, its store and the covered rows are one state. *)
Record synced (fsm : FSM) : Prop := {
  sy_step : ∃ st, in_step fsm st;
  sy_scopes : StateProofs.scopes_valid (reducer (applyState fsm));
  sy_rows : durable (StoreResults.projections (StoreApply.tables (store fsm)))
              (reducer (applyState fsm)) }.

Lemma succeeded_synced failpoint fsm log signed applied result floor :
  synced fsm → succeeded failpoint fsm log signed applied result floor →
  StateProofs.scopes_valid (reducer (applyState applied)) ∧
  durable (StoreResults.projections (StoreApply.tables (store applied))) (reducer (applyState applied)).
Proof.
  intros [(st & Hin) Hv Hd]
    [lookup|lookup appliedAt res durable' Hl _ _ Ha|appliedAt now app res fl outcome prospective next
       request durable' Hl [Hr Hst Hadm Hreq Hs -> _]];
    match goal with |- context [publishAppliedCommand ?f ?i] =>
      destruct (publishAppliedCommand_same f i) as (-> & -> & _) end; [done| |].
  - pose proof (StoreSound.snd_state _ _ (is_sound _ _ Hin)) as Hstate.
    apply StoreRuns.apply_inv in Ha as (prior & Hprior & _ & Hbranch).
    destruct Hbranch as [(stored & _ & Hdup)|[Hno _]].
    + cbn. by rewrite (StoreReplicas.duplicate_projections _ _ _ _ _ _ Hdup Hprior).
    + unfold StoreRuns.request_event in Hno. cbn in Hno.
      unfold StoreResults.LookupCommandResult in Hl. apply throw_inr in Hl as [_ Hl].
      by rewrite Hno in Hl.
  - destruct (BuildApplyRequest_inv _ _ _ _ Hreq) as (_ & _ & _ & Hprop & Hproj & _).
    apply lookup_none in Hl. rewrite <-Hprop in Hl.
    apply StoreRuns.apply_inv in Hs as (prior & _ & _ & [(stored & Hsome & _)|[_ Hnew]]).
    { unfold StoreRuns.request_event in Hsome. congruence. }
    apply StoreReplicas.new_projections in Hnew as (prepared & mutations & Hp & Hw).
    rewrite Hproj in Hp. unfold ProjectionStore.projectionMutations in Hw.
    apply and_then_inr in Hw as (targets & _ & Hw). apply and_then_inr in Hw as (befores & _ & Hw).
    apply and_then_inr in Hw as (db & Hdb & Hw). apply and_then_inr in Hw as (after & _ & Hw).
    injection Hw as _ ->. cbn. split.
    + by eapply StateProofs.Apply_scopes_valid.
    + by eapply durable_advances.
Qed.

Lemma synced_same fsm fsm' :
  StoreApply.tables (store fsm') = StoreApply.tables (store fsm) →
  applyState fsm' = applyState fsm → synced fsm → synced fsm'.
Proof.
  intros Ht Ha [[st Hst] Hv Hd]. constructor; rewrite ?Ht, ?Ha; try done.
  exists st. by eapply in_step_same.
Qed.

(** The machine with [committed] back in memory. *)
Definition restored (fsm : FSM) (committed : Reducer.State) : FSM := touched fsm committed.

(** Memory holds the committed state, or that state with the rows of a change set
    in its maps: the one of the entry that halted the machine after [State.Apply]
    and that the store never recorded. *)
Inductive holds (fsm : FSM) : Reducer.State → Prop :=
  | holds_committed : holds fsm (reducer (applyState fsm))
  | holds_refused committed spare changes receiver err :
      haltErr fsm = Some err → after_writes (HCause err) = true →
      StateApply.ApplyInPlace committed spare changes = inr (receiver, reducer (applyState fsm)) →
      holds fsm committed.

Record tracked (fsm : FSM) (committed : Reducer.State) : Prop := {
  tr_synced : synced (restored fsm committed);
  tr_holds : holds fsm committed }.

Lemma restored_same fsm fsm' committed :
  StoreApply.tables (store fsm') = StoreApply.tables (store fsm) →
  applyState fsm' = applyState fsm → synced (restored fsm committed) → synced (restored fsm' committed).
Proof. intros Ht Ha. apply synced_same; [exact Ht|]. unfold restored, touched. cbn. by rewrite Ha. Qed.

Lemma synced_restored fsm : synced fsm ↔ synced (restored fsm (reducer (applyState fsm))).
Proof. split; apply synced_same; unfold restored, touched; cbn; try done; by destruct (applyState fsm). Qed.

Lemma tracked_same fsm fsm' committed :
  StoreApply.tables (store fsm') = StoreApply.tables (store fsm) →
  applyState fsm' = applyState fsm → haltErr fsm' = haltErr fsm →
  tracked fsm committed → tracked fsm' committed.
Proof.
  intros Ht Ha Hh [Hs Hc]. split; [by eapply restored_same|].
  destruct Hc; [rewrite <-Ha; constructor|]. eapply holds_refused; [by rewrite Hh|done|by rewrite Ha].
Qed.

(** A machine that runs holds the committed state. *)
Lemma tracked_running fsm committed :
  tracked fsm committed → haltErr fsm = None → reducer (applyState fsm) = committed ∧ synced fsm.
Proof.
  intros [Hs Hc] Hh. revert Hs. destruct Hc; [|congruence]. intros Hs. split; [done|by apply (proj2 (synced_restored fsm))].
Qed.

Lemma synced_tracked fsm : synced fsm → tracked fsm (reducer (applyState fsm)).
Proof. intros Hs. split; [by apply (proj1 (synced_restored fsm))|constructor]. Qed.

Lemma succeeded_tracked failpoint fsm log signed applied result floor :
  synced fsm → (1 ≤ LTerm log)%N → (1 ≤ LIndex log)%N →
  succeeded failpoint fsm log signed applied result floor → synced applied.
Proof.
  intros Hs Ht Hi Hsucc. pose proof Hs as [[st Hin] _ _].
  destruct (succeeded_synced _ _ _ _ _ _ _ Hs Hsucc) as [Hv Hd].
  constructor; [by eapply succeeded_in_step|done|done].
Qed.

Lemma halt_err fsm log cause :
  haltErr fsm = None → haltErr (halt fsm log cause).1 = Some (mkHaltError (raftLogIndex log) cause).
Proof. unfold halt. by intros ->. Qed.

(** What a failure left, halted. *)
Lemma left_tracked spare fsm cause failed log :
  synced fsm → haltErr fsm = None → left_over spare fsm cause failed →
  tracked (halt failed log cause).1 (reducer (applyState fsm)).
Proof.
  intros Hs Hh Hl. destruct (halt_same failed log cause) as [Hst Ha].
  destruct Hl as [cause|cause changes receiver shared Hw Hp].
  - rewrite <-Ha. apply synced_tracked. eapply synced_same; [by rewrite Hst|done|done].
  - split.
    + apply (proj1 (synced_restored fsm)) in Hs.
      apply (synced_same (restored fsm (reducer (applyState fsm)))); [exact (f_equal StoreApply.tables Hst)| |exact Hs].
      change (touch (applyState (halt (touched fsm shared) log cause).1) (reducer (applyState fsm)) =
        touch (applyState fsm) (reducer (applyState fsm))).
      by rewrite Ha.
    + eapply holds_refused; [by apply halt_err|exact Hw|]. rewrite Ha. exact Hp.
Qed.

Lemma Apply_tracked failpoint spare fsm committed log clock fsm' response :
  tracked fsm committed → Apply failpoint spare fsm log clock = (fsm', response) →
  ∃ committed', tracked fsm' committed'.
Proof.
  intros Htr Ha. destruct (Apply_cases _ _ _ _ _ _ _ Ha) as
    [(err & _ & -> & _)|[(Hh & cause & failed & Hleft & Heq)|(Hh & command & signed & applied & result & floor &
       _ & Ht & Hi & _ & Hsucc & Heq)]]; [by exists committed| |];
    destruct (tracked_running _ _ Htr Hh) as [_ Hs].
  - apply (f_equal fst) in Heq. cbn [fst] in Heq. subst fsm'. eexists. by eapply left_tracked.
  - pose proof (succeeded_tracked _ _ _ _ _ _ _ Hs Ht Hi Hsucc) as Happ.
    exists (reducer (applyState applied)). destruct floor as [cause|].
    + apply (f_equal fst) in Heq. cbn [fst] in Heq. subst fsm'.
      destruct (halt_same applied log cause) as [Hst Hap].
      rewrite <-Hap. apply synced_tracked. eapply synced_same; [by rewrite Hst|done|done].
    + injection Heq as -> _. by apply synced_tracked.
Qed.

Lemma runs_tracked fsm fsm' : synced fsm → runs fsm fsm' → ∃ committed, tracked fsm' committed.
Proof.
  intros Hs. induction 1 as [|fsm middle failpoint spare log clock fsm' response _ IH Ha|fsm middle fsm' _ IH Ht Hst Hh].
  - eexists. by apply synced_tracked.
  - destruct (IH Hs) as [committed Htr]. by eapply Apply_tracked.
  - destruct (IH Hs) as [committed Htr]. exists committed. by eapply tracked_same.
Qed.

(** *** A machine that starts on an initialized store *)

(** [Store.Initialize] on empty tables with the rows of a change set, then
    [NewFSM]; the change set lists the rows that the machine decodes. *)
Inductive opened (fsm : FSM) : Prop :=
  | opened_on fresh initial heads store bootID changes :
      StoreResults.commandResults (StoreApply.tables fresh) = ∅ →
      StoreResults.projections (StoreApply.tables fresh) = ∅ →
      StoreBoundary.Initialize fresh initial = inr (heads, store) →
      StoreBoundary.IProjections initial = ApplyMapping.projectionWrites changes →
      NewFSM store bootID = Some fsm →
      lists_rows changes (reducer (applyState fsm)) → opened fsm.

Lemma opened_synced fsm : opened fsm → synced fsm ∧ haltErr fsm = None.
Proof.
  intros [fresh initial heads store bootID changes Hr Hp Hi Hrows Hn Hl].
  destruct (StoreRuns.initialize_sound _ _ _ _ Hr Hi) as [st Hs].
  destruct (NewFSM_in_step _ _ _ _ Hs Hn) as (Hin & Hst & Hh & Hsound). split; [|done].
  destruct (StateTheorems.sound_scopes _ Hsound) as [Hscopes _].
  constructor; [by exists st|done|]. rewrite Hst.
  destruct (initialize_projections _ _ _ _ Hi) as (prepared & Hprep & Hw).
  rewrite Hrows in Hprep. rewrite Hp in Hw. eapply durable_starts; [exact Hl| |exact Hprep|exact Hw].
  apply Forall_forall. intros scope Hin'.
  assert (Hk : is_Some (Reducer.originScopes (reducer (applyState fsm)) !! Reducer.ScopeKey scope)).
  { rewrite (lr_scopes _ _ Hl).
    destruct (StateIndexes.StateIndexes.by_id_lookup Reducer.ScopeKey (Reducer.OriginScopes changes) ∅
      (Reducer.ScopeKey scope)) as [(v & _ & _ & ->)|[Hno _]]; [by eexists|by destruct (Hno scope)]. }
  destruct Hk as [s Hk]. apply Hscopes in Hk. by apply scope_kinds in Hk.
Qed.

(** The machine and its store are one state, [committed]. *)
Record durable_in (fsm : FSM) (committed : Reducer.State) : Prop := {
  di_rows : durable (StoreResults.projections (StoreApply.tables (store fsm))) committed;
  di_consensus : ∃ st,
    StoreResults.readConsensusState (StoreApply.tables (store fsm)) = inr (Some st) ∧
    positions (heads (applyState fsm)) = StoreResults.headsFromConsensus st ∧
    lastRaftAppliedLogIndex (applyState fsm) = StoreResults.lastAppliedLogIndex st ∧
    sessionID (applyState fsm) = StoreResults.sessionID st ∧
    recoveryGeneration (applyState fsm) = StoreResults.recoveryGeneration st ∧
    Reducer.currentChainIndex committed = StoreResults.chainIndex st ∧
    Reducer.currentResultIndex committed = StoreResults.resultIndex st;
  di_admission : PeerAdmission.NewSnapshot (admission_input committed) =
    Some (admission (applyState fsm));
  di_keys : identityPublicKeys (applyState fsm) =
    Device.IdentityPublicKey <$> Reducer.devices committed }.

Lemma restored_durable fsm committed : synced (restored fsm committed) → durable_in fsm committed.
Proof.
  intros [[st []] _ Hd]. cbn in *. split; [exact Hd| |done|done].
  exists st. split_and!; try done; try apply is_session0; try apply is_generation0;
    try apply is_positions0. apply is_sound0.
Qed.

(** C2: [memory_is_durable]. Take a machine that [NewFSM] opened on a store that
    [Initialize] filled with the rows of a change set, and assume that the rows it
    decoded at the start are those rows. Through any calls of [FSM.Apply] there is
    one committed state: every covered table holds exactly its rows; the consensus
    row carries its positions, the hashes and the accumulator in memory, the last
    applied entry and the lineage; the admission snapshot and the identity keys in
    memory are those that its rows give. While the machine runs, and when it
    halted for another cause, the reducer's state in memory is that state. A halt
    after [State.Apply] - the peer admission, the mapping of the write set or the
    commit failed - may leave in memory that state with the rows of a change set in
    its shared maps, which the store does not hold. *)
Theorem memory_is_durable fsm fsm' : opened fsm → runs fsm fsm' →
  ∃ committed, durable_in fsm' committed ∧
  (haltErr fsm' = None → reducer (applyState fsm') = committed) ∧
  (reducer (applyState fsm') = committed ∨
   ∃ err spare changes receiver, haltErr fsm' = Some err ∧ after_writes (HCause err) = true ∧
     StateApply.ApplyInPlace committed spare changes = inr (receiver, reducer (applyState fsm'))).
Proof.
  intros [Hs _]%opened_synced Hr. destruct (runs_tracked _ _ Hs Hr) as [committed Htr].
  exists committed. split; [apply restored_durable, Htr|].
  split; [intros Hh; by apply (tracked_running _ _ Htr)|].
  destruct (tr_holds _ _ Htr) as [|committed spare changes receiver err Hh Hw Hp]; [by left|].
  right. by exists err, spare, changes, receiver.
Qed.

(** ** Acknowledgements *)

Lemma lookup_later t st t' st' event lookup :
  StoreSound.sound t st → StoreSound.sound t' st' →
  StoreResults.commandResults t ⊆ StoreResults.commandResults t' →
  StoreResults.payloads t ⊆ StoreResults.payloads t' →
  StoreResults.LookupCommandResult t event = inr (Some lookup) →
  ∃ lookup', StoreResults.LookupCommandResult t' event = inr (Some lookup') ∧
    StoreResults.CanonicalProposal lookup' = StoreResults.CanonicalProposal lookup ∧
    StoreResults.LOutcome lookup' = StoreResults.LOutcome lookup.
Proof.
  intros Hs Hs' Hsub Hpay Hl.
  unfold StoreResults.LookupCommandResult in Hl. apply throw_inr in Hl as [_ Hl].
  apply and_then_inr in Hl as ([stored|] & Hr & Hl); [|done].
  apply and_then_inr in Hl as ([] & _ & Hl). rewrite (StoreSound.snd_state _ _ Hs) in Hl.
  cbn [and_then] in Hl. destruct (StoreResults.validateLookupHeads _ _ _); [done|]. injection Hl as <-.
  destruct (StoreProofs.read_stored_row _ _ _ Hr) as (row & _ & Hrow & _).
  destruct (StoreRuns.lookup_sound _ _ _ _ Hs' (lookup_weaken _ _ _ _ Hrow Hsub))
    as (stored' & Hr' & _ & Hl').
  rewrite (StoreProofs.read_stored_extends _ _ _ _ Hsub Hpay Hr) in Hr'. injection Hr' as <-.
  eexists. by split.
Qed.

(** The result of a success is there, in the tables it leaves. *)
Lemma succeeded_lookup failpoint fsm st log signed applied result floor :
  in_step fsm st → (1 ≤ LTerm log)%N → (1 ≤ LIndex log)%N →
  authenticate (applyState fsm) log = inr signed →
  succeeded failpoint fsm log signed applied result floor →
  ∃ lookup st', StoreSound.sound (StoreApply.tables (store applied)) st' ∧
    StoreResults.LookupCommandResult (StoreApply.tables (store applied))
      (Event.EventID (Event.proposal signed)) = inr (Some lookup) ∧
    StoreResults.CanonicalProposal lookup = LData log ∧
    StoreResults.LOutcome lookup = StoreApply.ResultOutcome result.
Proof.
  intros Hin Ht Hi Hauth Hsucc. pose proof (is_sound _ _ Hin) as Hs.
  destruct (authenticate_inv _ _ _ Hauth) as (Hcanonical & _).
  destruct Hsucc as [lookup Hl Hc _ _|lookup appliedAt res durable' Hl Hc _ Ha|appliedAt now app res fl
    outcome prospective next request durable' Hl [Hr Hst Hadm Hreq Ha -> _]];
    match goal with |- context [publishAppliedCommand ?f ?i] =>
      destruct (publishAppliedCommand_same f i) as (-> & _) end.
  - by exists lookup, st.
  - destruct (duplicate_in_step _ _ _ _ _ _ _ _ _ Hin Ht Hi Hl Ha) as (Hin' & Ho & _).
    pose proof (is_sound _ _ Hin') as Hs'. cbn [ConsensusFSM.FSM.store set_durable] in Hs' |- *.
    destruct (StoreRuns.apply_sound _ _ _ _ _ _ Hs Ha) as (st2 & Hs2 & Hsub & Hpay).
    destruct (lookup_later _ _ _ _ _ _ Hs Hs2 Hsub Hpay Hl) as (lookup' & Hl' & Hc' & Ho').
    exists lookup', st2. split_and!; [done|done|congruence|congruence].
  - cbn [ConsensusFSM.FSM.store set_durable].
    destruct (BuildApplyRequest_inv _ _ _ _ Hreq) as (_ & _ & _ & Hprop & _).
    pose proof Hl as Hnone%lookup_none. rewrite <-Hprop in Hnone |- *.
    destruct (new_durable _ _ _ _ _ _ Hs Ha Hnone) as (Hs' & Hfirst & Ho & _).
    destruct (StoreTheorems.new_lookup _ _ _ _ _ _ Hs Ha Hfirst) as (row & stored & Hrow & Hread & Hp & Hout & _).
    destruct (StoreRuns.lookup_sound _ _ _ _ Hs' Hrow) as (stored' & Hread' & _ & Hl').
    unfold StoreRuns.request_event in Hread, Hl', Hread'. rewrite Hread in Hread'. injection Hread' as <-.
    eexists _, _. split_and!; [exact Hs'|exact Hl'| |].
    + cbn. by rewrite Hp, Hprop.
    + cbn. by rewrite Hout, Ho.
Qed.

(** C3: [acknowledged_is_durable]. An entry that [FSM.Apply] acknowledges is
    authentic under the identity key of its device, and its event's result is in
    the store from then on: through any later calls, [Store.LookupCommandResult]
    returns exactly the bytes of the entry and the outcome that was reported. *)
Theorem acknowledged_is_durable fsm middle failpoint spare log clock applied response result later :
  opened fsm → runs fsm middle → Apply failpoint spare middle (Some log) clock = (applied, response) →
  Err response = None → Result response = Some result → runs applied later →
  ∃ signed, authenticate (applyState middle) log = inr signed ∧ Event.canonical signed = LData log ∧
  ∃ lookup, StoreResults.LookupCommandResult (StoreApply.tables (store later))
      (Event.EventID (Event.proposal signed)) = inr (Some lookup) ∧
    StoreResults.CanonicalProposal lookup = LData log ∧
    StoreResults.LOutcome lookup = StoreApply.ResultOutcome result.
Proof.
  intros [Hs _]%opened_synced Hr Ha Herr Hres Hlater.
  destruct (runs_tracked _ _ Hs Hr) as [committed Htr].
  destruct (Apply_cases _ _ _ _ _ _ _ Ha) as
    [(err & _ & _ & ->)|[(Hh & cause & failed & _ & Heq)|(Hh & command & signed & app & res & floor & Hlog & Ht & Hi &
       Hauth & Hsucc & Heq)]]; [done| |].
  - apply (f_equal snd) in Heq. cbn [snd] in Heq. unfold halt in Heq. cbn [snd] in Heq. by rewrite Heq in Hres.
  - injection Hlog as <-. destruct floor as [cause|].
    { apply (f_equal snd) in Heq. cbn [snd] in Heq. unfold halt in Heq. cbn [snd] in Heq.
      rewrite Heq in Hres. done. }
    injection Heq as -> ->. cbn in Hres. injection Hres as ->.
    destruct (tracked_running _ _ Htr Hh) as [_ [[st Hin] _ _]].
    exists signed. split; [done|]. split; [by apply authenticate_inv in Hauth as (? & _)|].
    destruct (succeeded_lookup _ _ _ _ _ _ _ _ Hin Ht Hi Hauth Hsucc) as (lookup & st1 & Hs1 & Hl & Hc & Ho).
    destruct (StoreRuns.runs_sound _ _ _ Hs1 (runs_store _ _ Hlater)) as (st2 & Hs2 & Hsub & Hpay).
    destruct (lookup_later _ _ _ _ _ _ Hs1 Hs2 Hsub Hpay Hl) as (lookup' & Hl' & Hc' & Ho').
    exists lookup'. split_and!; [done|congruence|congruence].
Qed.

(** ** Replicas *)

(** The state in memory without this device's own counter of admission. *)
Definition replicated (state : fsmApplyState) : fsmApplyState :=
  mkFSMApplyState (sessionID state) (workspaceID state) (recoveryGeneration state) (heads state)
    (lastRaftAppliedLogIndex state) 0 (reducer state) (admission state) (identityPublicKeys state).

(** Two machines, each with its own boot, clock, feed and device tables, that hold
    the same replicated state. *)
Definition same_replica (fsm fsm' : FSM) : Prop :=
  StoreApply.tables (store fsm) = StoreApply.tables (store fsm') ∧
  replicated (applyState fsm) = replicated (applyState fsm').

(** The replicated part of a result. *)
Definition replicated_result (result : StoreApply.ApplyResult)
    : StoreRecords.ApplyHeads * StoreRecords.CommandOutcome * bool :=
  (StoreApply.Heads result, StoreApply.ResultOutcome result, StoreApply.Duplicate result).

Lemma BuildApplyRequest_agree signed outcome context context' request request' :
  ApplyMapping.BuildApplyRequest signed outcome context = inr request →
  ApplyMapping.BuildApplyRequest signed outcome context' = inr request' →
  ApplyMapping.Term context = ApplyMapping.Term context' →
  ApplyMapping.LogIndex context = ApplyMapping.LogIndex context' →
  ApplyMapping.RecoveryGeneration context = ApplyMapping.RecoveryGeneration context' →
  StoreReplicas.agree request request'.
Proof.
  unfold ApplyMapping.BuildApplyRequest, ApplyMapping.buildApplyRequest. intros Hl Hr Et Ei Eg.
  apply throw_inr in Hl as [_ Hl]. apply throw_inr in Hr as [_ Hr].
  apply and_then_inr in Hl as (x & Hx & Hl). apply and_then_inr in Hr as (y & Hy & Hr).
  apply throw_inr in Hx as [_ Hx]. apply throw_inr in Hx as [_ Hx]. apply ensure_inr' in Hx as [_ Hx].
  apply throw_inr in Hy as [_ Hy]. apply throw_inr in Hy as [_ Hy]. apply ensure_inr' in Hy as [_ Hy].
  destruct (ApplyMapping.ResultJSON outcome) as [|json]; [done|].
  apply and_then_inr in Hx as (a & _ & Hx). apply and_then_inr in Hx as ([u d] & _ & Hx).
  apply and_then_inr in Hy as (a' & _ & Hy). apply and_then_inr in Hy as ([u' d'] & _ & Hy).
  injection Hx as <-. injection Hy as <-. injection Hl as <-. injection Hr as <-.
  unfold StoreReplicas.agree, StoreReplicas.core. cbn in *. by rewrite Et, Ei, Eg.
Qed.

Lemma replicated_fields s s' : replicated s = replicated s' →
  sessionID s = sessionID s' ∧ workspaceID s = workspaceID s' ∧
  recoveryGeneration s = recoveryGeneration s' ∧ heads s = heads s' ∧
  lastRaftAppliedLogIndex s = lastRaftAppliedLogIndex s' ∧ reducer s = reducer s' ∧
  admission s = admission s' ∧ identityPublicKeys s = identityPublicKeys s'.
Proof. unfold replicated. intros Heq. by injection Heq. Qed.

Lemma authenticate_same s s' log : replicated s = replicated s' →
  authenticate s log = authenticate s' log.
Proof.
  intros (Es & Ew & _ & _ & _ & _ & _ & Ek)%replicated_fields. unfold authenticate, identityPublicKey.
  by rewrite Es, Ew, Ek.
Qed.

(** One entry, twice. *)
Lemma succeeded_same failpoint failpoint' fsm fsm' log signed applied applied' result result' floor
    floor' :
  same_replica fsm fsm' → succeeded failpoint fsm log signed applied result floor →
  succeeded failpoint' fsm' log signed applied' result' floor' →
  same_replica applied applied' ∧ replicated_result result = replicated_result result'.
Proof.
  intros [Ht Hr] Hl Hl'. pose proof (replicated_fields _ _ Hr) as (Es & Ew & Eg & Eh & El & Ered & Ea & Ek).
  destruct Hl as [lookup Hf Hc Hle Hv|lookup appliedAt res durable1 Hf Hc Hlt Hd|appliedAt now app res fl
      outcome prospective next request durable1 Hf Hn],
    Hl' as [lookup' Hf' Hc' Hle' Hv'|lookup' appliedAt' res' durable2 Hf' Hc' Hlt' Hd'|appliedAt' now'
      app' res' fl' outcome' prospective' next' request' durable2 Hf' Hn'];
    rewrite Ht in Hf; rewrite Hf in Hf'; try discriminate Hf'; try lia.
  - injection Hf' as <-. unfold replicated_result. cbn. rewrite Eh. split; [|done].
    destruct (publishAppliedCommand_same fsm (LIndex log)) as (E1 & E2 & _).
    destruct (publishAppliedCommand_same fsm' (LIndex log)) as (E1' & E2' & _).
    split; [by rewrite E1, E1'|by rewrite E2, E2'].
  - injection Hf' as <-.
    assert (Hagree : StoreReplicas.agree (duplicateRequest (applyState fsm) log signed appliedAt)
                       (duplicateRequest (applyState fsm') log signed appliedAt')).
    { unfold StoreReplicas.agree, StoreReplicas.core, duplicateRequest. cbn. by rewrite Eg. }
    destruct (StoreReplicas.apply_tables _ _ _ _ _ _ _ _ _ _ Hagree Ht Hd Hd') as (Et & Ehe & Eo & Edu).
    unfold replicated_result. rewrite Ehe, Eo, Edu. split; [|done].
    unfold same_replica. do 2 match goal with |- context [publishAppliedCommand ?f ?i] =>
      destruct (publishAppliedCommand_same f i) as (-> & -> & _) end.
    split; [done|]. unfold replicated. cbn. by rewrite Es, Ew, Eg, Ehe, Ered, Ea, Ek.
  - destruct Hn as [Hred Hst Hadm Hreq Hs -> _], Hn' as [Hred' Hst' Hadm' Hreq' Hs' -> _].
    rewrite Ered, Eh in Hred. assert (outcome = outcome') as <- by congruence.
    rewrite Ered in Hst. assert (prospective = prospective') as <- by congruence.
    rewrite Ea in Hadm. assert (next = next') as <- by congruence.
    assert (Hagree : StoreReplicas.agree request request').
    { eapply BuildApplyRequest_agree; [exact Hreq|exact Hreq'|done|done|exact Eg]. }
    destruct (StoreReplicas.apply_tables _ _ _ _ _ _ _ _ _ _ Hagree Ht Hs Hs') as (Et & Ehe & Eo & Edu).
    unfold replicated_result. rewrite Ehe, Eo, Edu. split; [|done].
    unfold same_replica. do 2 match goal with |- context [publishAppliedCommand ?f ?i] =>
      destruct (publishAppliedCommand_same f i) as (-> & -> & _) end.
    split; [done|]. unfold replicated. cbn. by rewrite Es, Ew, Eg, Ehe, Ek.
Qed.

(** A machine that acknowledges a sequence of entries, with this device's own
    steps between them. *)
Inductive acknowledges : FSM → list Log → list (StoreRecords.ApplyHeads * StoreRecords.CommandOutcome * bool)
    → FSM → Prop :=
  | acknowledges_none fsm : acknowledges fsm [] [] fsm
  | acknowledges_entry fsm start failpoint spare log clock middle response result logs results fsm' :
      StoreApply.tables (store start) = StoreApply.tables (store fsm) →
      applyState start = applyState fsm →
      Apply failpoint spare start (Some log) clock = (middle, response) →
      Err response = None → Result response = Some result →
      acknowledges middle logs results fsm' →
      acknowledges fsm (log :: logs) (replicated_result result :: results) fsm'.

Lemma acknowledged_inv failpoint spare fsm log clock fsm' response result :
  Apply failpoint spare fsm (Some log) clock = (fsm', response) → Err response = None →
  Result response = Some result →
  ∃ signed, authenticate (applyState fsm) log = inr signed ∧
    succeeded failpoint fsm log signed fsm' result None.
Proof.
  intros Ha Herr Hres. destruct (Apply_cases _ _ _ _ _ _ _ Ha) as
    [(err & _ & _ & ->)|[(Hh & cause & failed & _ & Heq)|(Hh & command & signed & app & res & floor & Hlog & Ht & Hi &
       Hauth & Hsucc & Heq)]]; [done| |].
  - apply (f_equal snd) in Heq. cbn [snd] in Heq. unfold halt in Heq. cbn [snd] in Heq. by rewrite Heq in Hres.
  - injection Hlog as <-. destruct floor as [cause|].
    { apply (f_equal snd) in Heq. cbn [snd] in Heq. unfold halt in Heq. cbn [snd] in Heq.
      by rewrite Heq in Hres. }
    injection Heq as -> ->. cbn in Hres. injection Hres as ->. by exists signed.
Qed.

(** C4: [replicas_agree]. Two replicas in the same replicated state that
    acknowledge the same sequence of committed entries report the same heads and
    outcomes for each and end in the same state: the same covered rows, events,
    results, payloads, activity, checkpoints and consensus row, and the same
    reducer state, admission snapshot, identity keys and positions in memory -
    whatever their clocks, boot identifiers, failpoints, spare cells and own
    tables were. *)
Theorem replicas_agree fsm fsm' logs results results' final final' :
  same_replica fsm fsm' → acknowledges fsm logs results final →
  acknowledges fsm' logs results' final' →
  same_replica final final' ∧ results = results'.
Proof.
  intros Hsame Hl. revert fsm' results' Hsame.
  induction Hl as [fsm|fsm start failpoint spare log clock middle response result logs results final Ht Hst Ha He
    Hres _ IH]; intros fsm2 results2 [Et Es] Hr; inversion Hr as [|f2 start' failpoint' spare' log' clock' middle'
      response' result' logs' results' final2 Ht' Hst' Ha' He' Hres' Hrest]; subst; [done|].
  destruct (acknowledged_inv _ _ _ _ _ _ _ _ Ha He Hres) as (signed & Hauth & Hs).
  destruct (acknowledged_inv _ _ _ _ _ _ _ _ Ha' He' Hres') as (signed' & Hauth' & Hs').
  assert (Hstart : same_replica start start') by (split; congruence).
  rewrite (authenticate_same _ _ log (proj2 Hstart)) in Hauth.
  assert (signed = signed') as <- by congruence.
  destruct (succeeded_same _ _ _ _ _ _ _ _ _ _ _ _ Hstart Hs Hs') as [Hmiddle Hresult].
  destruct (IH _ _ Hmiddle Hrest) as [Hfinal Hresults]. split; [done|by rewrite Hresult, Hresults].
Qed.

(** ** Halts *)








End Machine.

End FSMTheorems.

(** ** A concrete machine

    [Module FSMWitnesses]: a machine that opens on an initialized store, applies
    a claim, sees it again and halts, and the theorems on the machine at it. *)

Module FSMWitnesses.

Import ConsensusFSM.FSM DurableRows.DurableRows ConsensusTheorems.FSMTheorems.

#[local] Existing Instances Fixtures.norm Fixtures.crypto Fixtures.jcs ProjectionWitnesses.schema.

#[local] Instance sqlite_json : SQLiteJSON :=
  {| json_array columns := Fixtures.print (JArray (ProjectionWitnesses.column_json <$> columns)) |}.

(** A coder that copies, and a device without tables of its own. *)
#[local] Instance copies : FlateLib :=
  {| flate_write frame := frame; flate_read bytes := Some (bytes, []); flate_written _ := eq_refl |}.

#[local] Instance no_device : StoreApply.DeviceTables :=
  {| StoreApply.DeviceState := unit;
     StoreApply.ensureRaftEvidenceMode _ _ := None;
     StoreApply.ensurePendingControlFileApprovals _ _ _ _ := inr tt;
     StoreApply.writeCheckpointCadenceBoundary _ _ _ _ _ := inr tt;
     StoreApply.writeCheckpointCadenceCheckpoint _ _ _ := inr tt;
     StoreApply.clearAgentSession _ _ := inr tt;
     StoreApply.compactLocalProposal _ _ _ _ _ _ _ _ := inr tt |}.

#[local] Instance no_clauses : StoreApply.StoreSchema := {| StoreApply.admits _ _ := true |}.

Definition no_failpoint (stage : StoreApply.applyStage) : option StoreRecords.Error := None.

(** The rows of the loaded state [seed]. *)
Definition rows : Reducer.Changes :=
  let st := LoadProofs.reloaded in
  Reducer.mkChanges false ((map_to_list (Reducer.originScopes st)).*2)
    ((map_to_list (Reducer.auditCounters st)).*2) ((map_to_list (Reducer.tasks st)).*2) []
    [Reducer.planCurrent st] [] [] ((map_to_list (Reducer.devices st)).*2) [Reducer.voterSet st]
    [Reducer.credentialAuthority st] ((map_to_list (Reducer.agentSessions st)).*2)
    [Reducer.canonicalRef st] [] [] [] [] [Reducer.sessionPolicy st].

Definition empty_store : StoreApply.Store :=
  StoreApply.mkStore (StoreResults.mkTables None ∅ ∅ ∅ ∅ ∅ ∅ ∅ ∅) ∅ [] ∅ tt
    (StoreApply.mkInitialTables None ∅) 0.

Definition genesis_json : list N :=
  Fixtures.print (JObject [("recovery_generation", JNumber 0);
    ("recovery_public_key", JString (Codec.EncodeBase64URL (repeat 9%N 32)));
    ("session_id", JString Fixtures.session_id); ("workspace_id", JString Fixtures.workspace_id)]).

Definition initial : StoreBoundary.InitialState :=
  StoreBoundary.mkInitialState Fixtures.session_id Fixtures.workspace_id genesis_json
    (ApplyMapping.projectionWrites rows) 1 4.

Definition opened_store : option StoreApply.Store :=
  match StoreBoundary.Initialize empty_store initial with
  | inr (_, store) => Some store
  | inl _ => None
  end.

Definition entry (index : N) : Log := mkLog 1 index LogCommand (Event.canonical AdmissionProofs.claim_event).
Definition clock : option (string * Z) := Some (Fixtures.now, 5%Z).
Definition late : option (string * Z) := Some ("2026-02-03T00:00:00Z", 9000%Z).

(** Every row of the machine's state is one of the change set, in one table. *)
Definition lists_rows_b (changes : Reducer.Changes) (st : Reducer.State) : bool :=
  bool_decide (Reducer.originScopes st =
    StateIndexes.by_id Reducer.ScopeKey (Reducer.OriginScopes changes) ∅) &&
  bool_decide (Reducer.auditCounters st =
    StateIndexes.by_id AuditCounter.DeviceID (Reducer.AuditCounters changes) ∅) &&
  bool_decide (Reducer.tasks st = StateIndexes.by_id Task.ID (Reducer.Tasks changes) ∅) &&
  bool_decide (Reducer.planRevisions st =
    StateIndexes.by_id Plan.id_ (Reducer.PlanRevisions changes) ∅) &&
  bool_decide (Reducer.PlanCurrent changes = [Reducer.planCurrent st]) &&
  bool_decide (Reducer.memoryRecords st =
    StateIndexes.by_id Memory.id_ (Reducer.MemoryRecords changes) ∅) &&
  bool_decide (Reducer.leases st = StateIndexes.by_id Lease.ID (Reducer.Leases changes) ∅) &&
  bool_decide (Reducer.devices st = StateIndexes.by_id Device.ID (Reducer.Devices changes) ∅) &&
  bool_decide (Reducer.VoterSets changes = [Reducer.voterSet st]) &&
  bool_decide (Reducer.CredentialAuthorities changes = [Reducer.credentialAuthority st]) &&
  bool_decide (Reducer.agentSessions st =
    StateIndexes.by_id AgentSession.ID (Reducer.AgentSessions changes) ∅) &&
  bool_decide (Reducer.CanonicalRefs changes = [Reducer.canonicalRef st]) &&
  bool_decide (Reducer.credentialAuthorizations st =
    StateIndexes.by_id CredentialAuthorization.PrimaryKey
      (Reducer.CredentialAuthorizations changes) ∅) &&
  bool_decide (Reducer.publications st =
    StateIndexes.by_id RepositoryState.publicationID (Reducer.Publications changes) ∅) &&
  bool_decide (Reducer.controlFileProposals st =
    StateIndexes.by_id ControlFile.ProposalEventID (Reducer.ControlFileProposals changes) ∅) &&
  bool_decide (Reducer.mergeConflicts st =
    StateIndexes.by_id RepositoryState.conflictID (Reducer.MergeConflicts changes) ∅) &&
  bool_decide (Reducer.SessionPolicy changes = [Reducer.sessionPolicy st]).

Lemma lists_rows_decided changes st : lists_rows_b changes st = true → lists_rows changes st.
Proof.
  unfold lists_rows_b. rewrite !andb_true_iff, !bool_decide_eq_true.
  intros [[[[[[[[[[[[[[[[? ?] ?] ?] ?] ?] ?] ?] ?] ?] ?] ?] ?] ?] ?] ?] ?]. by constructor.
Qed.

(** ** The run *)

Definition answered (response : ApplyResponse) : bool :=
  match Err response, Result response with None, Some _ => true | _, _ => false end.

Definition running (fsm : FSM) : bool := match haltErr fsm with None => true | Some _ => false end.

Definition run_ok : bool :=
  match opened_store with
  | None => false
  | Some store =>
      match NewFSM store Fixtures.boot_id, NewFSM store Fixtures.root_id with
      | Some first, Some second =>
          lists_rows_b rows (reducer (applyState first)) &&
          let '(claimed, response) := Apply no_failpoint 0 first (Some (entry 2)) clock in
          let '(again, response') := Apply no_failpoint 0 claimed (Some (entry 3)) late in
          let '(other, response'') := Apply no_failpoint 0 second (Some (entry 2)) late in
          let '(_, refused) := Apply no_failpoint 0 again None late in
          answered response && answered response' && answered response'' &&
          bool_decide (is_Some (Err refused)) && running again
      | _, _ => false
      end
  end.

Lemma fsm_run_accepted : run_ok = true.
Proof. vm_compute. done. Qed.

Lemma answered_inv response : answered response = true →
  Err response = None ∧ ∃ result, Result response = Some result.
Proof. unfold answered. destruct (Err response), (Result response); try done. eauto. Qed.

Record run_facts := mkRunFacts {
  rf_heads : StoreRecords.ApplyHeads;
  rf_store : StoreApply.Store;
  rf_first : FSM; rf_second : FSM; rf_claimed : FSM; rf_again : FSM; rf_other : FSM; rf_halted : FSM;
  rf_response : ApplyResponse; rf_response' : ApplyResponse; rf_response'' : ApplyResponse;
  rf_refused : ApplyResponse;
  rf_initialize : StoreBoundary.Initialize empty_store initial = inr (rf_heads, rf_store);
  rf_new : NewFSM rf_store Fixtures.boot_id = Some rf_first;
  rf_new' : NewFSM rf_store Fixtures.root_id = Some rf_second;
  rf_lists : lists_rows rows (reducer (applyState rf_first));
  rf_claim : Apply no_failpoint 0 rf_first (Some (entry 2)) clock = (rf_claimed, rf_response);
  rf_repeat : Apply no_failpoint 0 rf_claimed (Some (entry 3)) late = (rf_again, rf_response');
  rf_elsewhere : Apply no_failpoint 0 rf_second (Some (entry 2)) late = (rf_other, rf_response'');
  rf_halt : Apply no_failpoint 0 rf_again None late = (rf_halted, rf_refused);
  rf_answered : answered rf_response = true;
  rf_answered' : answered rf_response' = true;
  rf_answered'' : answered rf_response'' = true;
  rf_refusal : is_Some (Err rf_refused);
  rf_running : haltErr rf_again = None }.

Lemma run : run_facts.
Proof.
  pose proof fsm_run_accepted as Hok. unfold run_ok, opened_store in Hok.
  destruct (StoreBoundary.Initialize empty_store initial) as [|[heads store]] eqn:Hi; [done|].
  destruct (NewFSM store Fixtures.boot_id) as [first|] eqn:H1; [|done].
  destruct (NewFSM store Fixtures.root_id) as [second|] eqn:H2; [|done].
  apply andb_true_iff in Hok as [Hl Hok].
  destruct (Apply no_failpoint 0 first (Some (entry 2)) clock) as [claimed response] eqn:H3.
  destruct (Apply no_failpoint 0 claimed (Some (entry 3)) late) as [again response'] eqn:H4.
  destruct (Apply no_failpoint 0 second (Some (entry 2)) late) as [other response''] eqn:H5.
  destruct (Apply no_failpoint 0 again None late) as [halted refused] eqn:H6.
  rewrite !andb_true_iff in Hok. destruct Hok as [[[[Ha Ha'] Ha''] Hr%bool_decide_eq_true] Hn].
  assert (Hnone : haltErr again = None) by (unfold running in Hn; by destruct (haltErr again)).
  by apply (mkRunFacts heads store first second claimed again other halted response response' response''
    refused Hi H1 H2 (lists_rows_decided _ _ Hl) H3 H4 H5 H6 Ha Ha' Ha'' Hr Hnone).
Qed.

Lemma first_opened (r : run_facts) : opened (rf_first r).
Proof.
  apply (opened_on _ empty_store initial (rf_heads r) (rf_store r) Fixtures.boot_id rows);
    [done|done|apply rf_initialize|done|apply rf_new|apply rf_lists].
Qed.

Lemma again_runs (r : run_facts) : runs (rf_first r) (rf_again r).
Proof.
  eapply runs_apply; [eapply runs_apply; [apply runs_refl|apply rf_claim]|apply rf_repeat].
Qed.

(** The machine after the claim and its second entry. *)
Lemma memory_is_durable_witness : ∃ fsm fsm',
  (opened fsm ∧ runs fsm fsm') ∧
  durable (StoreResults.projections (StoreApply.tables (store fsm'))) (reducer (applyState fsm')).
Proof.
  pose proof run as r. exists (rf_first r), (rf_again r).
  split; [exact (conj (first_opened r) (again_runs r))|].
  destruct (memory_is_durable (rf_first r) (rf_again r) (first_opened r) (again_runs r))
    as (committed & Hd & Hrun & _).
  rewrite (Hrun (rf_running r)). exact (di_rows _ _ Hd).
Defined.

(** The claim, looked up after its second entry. *)
Lemma acknowledged_is_durable_witness : ∃ fsm applied response result later,
  (opened fsm ∧ Apply no_failpoint 0 fsm (Some (entry 2)) clock = (applied, response) ∧
   Err response = None ∧ Result response = Some result ∧ runs applied later) ∧
  ∃ event lookup, StoreResults.LookupCommandResult (StoreApply.tables (store later)) event =
    inr (Some lookup).
Proof.
  pose proof run as r. destruct (answered_inv _ (rf_answered r)) as [He [result Hr]].
  assert (Hlater : runs (rf_claimed r) (rf_again r)).
  { eapply runs_apply; [apply runs_refl|apply rf_repeat]. }
  exists (rf_first r), (rf_claimed r), (rf_response r), result, (rf_again r).
  split; [exact (conj (first_opened r) (conj (rf_claim r) (conj He (conj Hr Hlater))))|].
  destruct (acknowledged_is_durable (rf_first r) (rf_first r) no_failpoint 0 (entry 2) clock
    (rf_claimed r) (rf_response r) result (rf_again r) (first_opened r) (runs_refl _) (rf_claim r) He Hr
    Hlater) as (signed & _ & _ & lookup & Hl & _).
  exists (Event.EventID (Event.proposal signed)), lookup. exact Hl.
Defined.

(** The claim on two machines, with two boots and two clocks. *)
Lemma replicas_agree_witness : ∃ fsm fsm' final final' results results',
  (same_replica fsm fsm' ∧ acknowledges fsm [entry 2] results final ∧
   acknowledges fsm' [entry 2] results' final') ∧ same_replica final final' ∧ results = results'.
Proof.
  pose proof run as r. destruct (answered_inv _ (rf_answered r)) as [He [result Hr]].
  destruct (answered_inv _ (rf_answered'' r)) as [He' [result' Hr']].
  destruct (NewFSM_same _ _ _ _ _ (rf_new r) (rf_new' r)) as (Hs & Hs' & Ha).
  assert (Hsame : same_replica (rf_first r) (rf_second r)) by (split; congruence).
  assert (Hl : acknowledges (rf_first r) [entry 2] [replicated_result result] (rf_claimed r)).
  { eapply acknowledges_entry; [done|done|exact (rf_claim r)|exact He|exact Hr|constructor]. }
  assert (Hl' : acknowledges (rf_second r) [entry 2] [replicated_result result'] (rf_other r)).
  { eapply acknowledges_entry; [done|done|exact (rf_elsewhere r)|exact He'|exact Hr'|constructor]. }
  exists (rf_first r), (rf_second r), (rf_claimed r), (rf_other r), [replicated_result result],
    [replicated_result result'].
  split; [exact (conj Hsame (conj Hl Hl'))|].
  exact (replicas_agree _ _ _ _ _ _ _ Hsame Hl Hl').
Defined.


(** ** An entry that no replica can record

    The codec admits thirty-two levels of nesting, and [EncodeResult] wraps the
    proposal in one more before it canonicalizes it. *)

Fixpoint nested (n : nat) : json :=
  match n with O => JNull | S n => JArray [nested n] end.

(** A human's event whose payload nests [n] levels below its object. *)
Definition nested_entry (n : nat) : Log :=
  mkLog 1 2 LogCommand
    (Event.canonical
       (Fixtures.signed
          (Fixtures.proposal (Fixtures.agent_origin 8) Event.KindTaskClaimed Fixtures.task_id (Some 3%N) "{}")
          "agent" "agent_reported" (JObject [("nested", nested n)]))).

(** The machine on that entry: whether it is authentic, why it halts, and the last
    sequence of its origin and the result index in memory. *)
Definition on_nested (n : nat) : option (bool * option Cause * option N * N) :=
  fsm ← opened_store ≫= (λ store, NewFSM store Fixtures.boot_id);
  let '(after, response) := Apply no_failpoint 0 fsm (Some (nested_entry n)) clock in
  let state := reducer (applyState after) in
  Some (match authenticate (applyState fsm) (nested_entry n) with inr _ => true | inl _ => false end,
        HCause <$> Err response,
        Reducer.LastSequence <$> Reducer.originScopes state !! AdmissionProofs.scope_key (Fixtures.agent_origin 8),
        Reducer.currentResultIndex state).

(** One level below the limit the entry is recorded; at the limit it is authentic
    and the machine halts, with its sequence in the table in memory and the result
    index not advanced. *)
Example nested_entry_halts :
  on_nested 29 = Some (true, None, Some 8%N, 1%N) ∧
  on_nested 30 = Some (true, Some (CauseCommit StoreRecords.ErrInvalidApply), Some 8%N, 0%N).
Proof. split; vm_compute; reflexivity. Qed.

End FSMWitnesses.
