(* ===== verification/VoterReconciliation.v ===== *)
(** * Package internal/consensus: reconciling the Raft voters with the target

    [Module Topology]: configurations of Raft servers and their record
    (raft_configuration.go and the checks of node.go). [Module Readiness]: the
    requirement on reachable, credentialed voters and its gate
    (configuration_readiness.go). [Module Reconciliation]: the planner
    (voter_reconciliation_plan.go), the evidence of eligibility
    (voter_reconciliation_eligibility.go), its input and one round
    (voter_reconciliation.go), and the checks around a change of the
    configuration (configuration_change.go, leadership_transfer.go).

    The Raft library is outside the sources: its server type is modelled, what
    it and the network answer are arguments. *)

From stdpp Require Import base gmap strings list sorting.
From Stdlib Require Import ZArith NArith Lia.
From S2P Require Import Prelude.
From S2P Require Import GoLib.
From S2P Require Import GoJson.
From S2P Require Import CodecLayer.
From S2P Require Import GoMarshal.
From S2P Require Import DomainValues.
From S2P Require Import VoterSetEntity.
From S2P Require Import DeviceEntity.
From S2P Require Import PolicyEntity.
From S2P Require Import CredentialEntity.
From S2P Require Import PeerAdmission.
From S2P Require Import StoreRecords.
From S2P Require Import CanonicalCoverage.
From S2P Require Import StateMapping.

Module Topology.

(** [raft.ServerSuffrage]; every other value is refused. *)
Inductive Suffrage := Voter | Nonvoter | SuffrageOther.

#[global] Instance Suffrage_eq_dec : EqDecision Suffrage.
Proof. solve_decision. Defined.

Record Server := mkServer {
  Suffrage_ : Suffrage;
  ServerID : string;
  Address : string }.

#[global] Instance Server_eq_dec : EqDecision Server.
Proof. solve_decision. Defined.

Definition Configuration : Type := list Server.

Record committedRaftConfiguration := mkCommitted {
  Index : N;
  Servers : Configuration }.

#[global] Instance committed_eq_dec : EqDecision committedRaftConfiguration.
Proof. solve_decision. Defined.

Inductive Error := ErrInvalidRaftTopology.

(** [store.MaxRaftConfigurationBytes]. *)
Definition MaxRaftConfigurationBytes : N := 4096.

Definition contains (configuration : committedRaftConfiguration) (deviceID : string) : bool :=
  if negb (Domain.DeviceID_Valid deviceID) then false
  else existsb (λ server, (ServerID server == deviceID) && (Address server == deviceID))
         (Servers configuration).

(** The loop: the servers before it, and the count of its voters. *)
Fixpoint scanServers (servers : list Server) (seen : gset string) (voters : nat) : option nat :=
  match servers with
  | [] => Some voters
  | server :: rest =>
      if negb (Domain.DeviceID_Valid (ServerID server)) || (Address server != ServerID server) then None
      else if bool_decide (ServerID server ∈ seen) then None
      else match Suffrage_ server with
           | Voter => scanServers rest ({[ServerID server]} ∪ seen) (S voters)
           | Nonvoter => scanServers rest ({[ServerID server]} ∪ seen) voters
           | SuffrageOther => None
           end
  end.

Definition validateDeviceAddressedSnapshotConfiguration (configuration : Configuration)
    : option Error :=
  refuse ErrInvalidRaftTopology
    when ((llen configuration =? 0)%N || (Z.to_N Policy.MaxMemberDevices <? llen configuration)%N) ;;
  match scanServers configuration ∅ 0 with
  | None | Some 0%nat => Some ErrInvalidRaftTopology
  | Some _ => None
  end.

(** The servers by identifier. *)
Definition by_id (configuration : Configuration) : gmap string Server :=
  list_to_map ((λ server, (ServerID server, server)) <$> configuration).

(** The second loop: each server of the right is there and is taken out. *)
Fixpoint matchServers (servers : gmap string Server) (right : list Server)
    : option (gmap string Server) :=
  match right with
  | [] => Some servers
  | server :: rest =>
      match servers !! ServerID server with
      | Some expected =>
          if expected != server then None
          else matchServers (delete (ServerID server) servers) rest
      | None => None
      end
  end.

Definition sameRaftConfiguration (left right : Configuration) : bool :=
  (llen left =? llen right)%N && bool_decide (NoDup (ServerID <$> left)) &&
  bool_decide (matchServers (by_id left) right = Some ∅).

Definition configurationServer (configuration : Configuration) (deviceID : string) : option Server :=
  snd <$> list_find (λ server, ServerID server = deviceID) configuration.

Definition configurationHasDeviceSuffrage (configuration : Configuration) (deviceID : string)
    (suffrage : Suffrage) : bool :=
  match configurationServer configuration deviceID with
  | None => false
  | Some server => (Address server == deviceID) && (Suffrage_ server == suffrage)
  end.

(** ** The record *)

Definition raftServerWire : list (string * GoStruct.kind) :=
  [("address", GoStruct.KString); ("id", GoStruct.KString); ("suffrage", GoStruct.KString)].
Definition raftConfigurationWire : list (string * GoStruct.kind) := [("servers", GoStruct.KRaw)].

Definition suffrage_text (suffrage : Suffrage) : option string :=
  match suffrage with Voter => Some "voter" | Nonvoter => Some "nonvoter" | SuffrageOther => None end.

Definition suffrage_of (text : string) : option Suffrage :=
  if text == "voter" then Some Voter else if text == "nonvoter" then Some Nonvoter else None.

(** The order of the record. *)
Definition suffrage_rank (suffrage : Suffrage) : nat :=
  match suffrage with Voter => 0 | Nonvoter => 1 | SuffrageOther => 2 end.

Definition server_before (left right : Server) : bool :=
  if ServerID left != ServerID right then String.ltb (ServerID left) (ServerID right)
  else if Address left != Address right then String.ltb (Address left) (Address right)
  else (suffrage_rank (Suffrage_ left) <? suffrage_rank (Suffrage_ right))%nat.

Definition server_le (left right : Server) : Prop := server_before right left = false.
#[global] Instance server_le_dec left right : Decision (server_le left right).
Proof. unfold server_le. apply _. Defined.

Definition serverJSON (server : Server) : option json :=
  suffrage ← suffrage_text (Suffrage_ server);
  Some (JObject [("address", JString (Address server)); ("id", JString (ServerID server));
                 ("suffrage", JString suffrage)]).

Section Lib.
Context `{NormLib, JCSLib}.

Definition encodeRaftConfiguration (configuration : Configuration) : option (list N) :=
  if bool_decide (is_Some (validateDeviceAddressedSnapshotConfiguration configuration)) then None else
  servers ← mapM serverJSON (merge_sort server_le configuration);
  canonical ← StateDecode.built (Marshal.canonical_object [("servers", JArray servers)]);
  if (MaxRaftConfigurationBytes <? llen canonical)%N then None else Some canonical.

Definition decodeServer (raw : list N) : option Server :=
  wire ← GoStruct.unmarshal true raftServerWire raw;
  suffrage ← suffrage_of (GoStruct.text wire "suffrage");
  Some (mkServer suffrage (GoStruct.text wire "id") (GoStruct.text wire "address")).

Definition decodeRaftConfigurationJSON (encoded : list N) : option Configuration :=
  if (llen encoded =? 0)%N || (MaxRaftConfigurationBytes <? llen encoded)%N then None else
  canonical ← StateDecode.built (Codec.CanonicalizeSignedObject encoded);
  if canonical != encoded then None else
  wire ← GoStruct.unmarshal true raftConfigurationWire encoded;
  servers ← JSON.raw_array (GoStruct.raw wire "servers");
  configuration ← mapM decodeServer servers;
  if encodeRaftConfiguration configuration != Some encoded then None else Some configuration.

End Lib.

End Topology.

(** ** configuration_readiness.go *)

Module Readiness.

Import Topology.

Definition MaxConfigurationReadinessTokenBytes : N := 4096.

(** The errors of these files, by name; [ErrNotLeader], [ErrContext],
    [ErrNode] and [ErrProvider] are those of the Raft library, the context, the
    node's own lifecycle and a provider. *)
Inductive Error :=
  | ErrConfigurationReadinessUnavailable | ErrInvalidConfigurationReadiness
  | ErrConfigurationReadinessChanged | ErrConfigurationQuorumUnavailable
  | ErrInvalidConfigurationChange | ErrStaleConfigurationChange | ErrLeadershipEpochChanged
  | ErrInvalidLeadershipTransfer | ErrLeadershipTransferTargetMismatch
  | ErrVoterReconciliationUnavailable | ErrVoterReconciliationInvalid
  | errVoterReconciliationChanged
  | ErrRaftTopology | ErrStateView | ErrCoverage (err : Coverage.Error)
  | ErrNotLeader | ErrContext | ErrNode | ErrProvider.

Inductive ConfigurationOperation :=
  | ConfigurationAddVoter | ConfigurationAddNonvoter | ConfigurationDemoteVoter
  | ConfigurationRemove | ConfigurationTransfer | ConfigurationObserve
  | ConfigurationUnknown.

#[global] Instance ConfigurationOperation_eq_dec : EqDecision ConfigurationOperation.
Proof. solve_decision. Defined.

Definition operation_valid (operation : ConfigurationOperation) : bool :=
  match operation with ConfigurationUnknown => false | _ => true end.

Record Requirement := mkRequirement {
  SessionID : string;
  RecoveryGeneration : N;
  TargetVoterSetVersion : N;
  TargetVoterDeviceIDs : list string;
  ConfigurationIndex : N;
  LiveVoterDeviceIDs : list string;
  LiveNonvoterDeviceIDs : list string;
  ActiveDeviceIDs : list string;
  PostChangeVoterDeviceIDs : list string;
  RequiredPostChangeQuorum : N;
  Operation : ConfigurationOperation;
  SubjectDeviceID : string }.

#[global] Instance Requirement_eq_dec : EqDecision Requirement.
Proof. solve_decision. Defined.

(** ** Sorted identifiers *)

Definition sortedUniqueDeviceIDs (values : list string) : bool :=
  bool_decide (scan_sorted id
                 (λ value, refuse () when (negb (Domain.DeviceID_Valid value)) ;; None) () None values
               = None).

Definition overlapDeviceIDs (left right : list string) : bool :=
  existsb (λ id, bool_decide (id ∈ left)) right.
Definition subsetDeviceIDs (subset superset : list string) : bool :=
  forallb (λ id, bool_decide (id ∈ superset)) subset.
Definition mergeSortedDeviceIDs (left right : list string) : list string :=
  sort_Strings (left ++ right).
Definition deviceIDSet (values : list string) : gset string := list_to_set values.

Definition containsSortedDeviceID (values : list string) (deviceID : string) : bool :=
  (BinarySearch values deviceID).2.

Definition addSortedDeviceID (values : list string) (deviceID : string) : list string :=
  let '(index, found) := BinarySearch values deviceID in
  if found then values else take index values ++ deviceID :: drop index values.

Definition removeSortedDeviceID (values : list string) (deviceID : string) : list string :=
  let '(index, found) := BinarySearch values deviceID in
  if found then take index values ++ drop (S index) values else values.

Definition sameDeviceIDs (left right : list string) : bool := left == right.

(** ** The requirement *)

Definition Requirement_validate (requirement : Requirement) : option Error :=
  let contains := containsSortedDeviceID in
  refuse ErrInvalidConfigurationReadiness
    when (negb (Domain.UUIDv7_Valid (SessionID requirement)) ||
          negb (Domain.ValidUnsignedInteger (RecoveryGeneration requirement)) ||
          (TargetVoterSetVersion requirement <? 1)%N ||
          negb (Domain.ValidUnsignedInteger (TargetVoterSetVersion requirement)) ||
          (ConfigurationIndex requirement <? 1)%N ||
          negb (Domain.ValidUnsignedInteger (ConfigurationIndex requirement)) ||
          negb (operation_valid (Operation requirement)) ||
          negb (Domain.DeviceID_Valid (SubjectDeviceID requirement))) ;;
  match VoterSet.New (SessionID requirement) (TargetVoterDeviceIDs requirement)
          (TargetVoterSetVersion requirement) with
  | inl _ => Some ErrInvalidConfigurationReadiness
  | inr _ =>
      refuse ErrInvalidConfigurationReadiness
        when (negb (sortedUniqueDeviceIDs (LiveVoterDeviceIDs requirement)) ||
              negb (sortedUniqueDeviceIDs (LiveNonvoterDeviceIDs requirement)) ||
              negb (sortedUniqueDeviceIDs (ActiveDeviceIDs requirement)) ||
              negb (sortedUniqueDeviceIDs (PostChangeVoterDeviceIDs requirement)) ||
              (llen (LiveVoterDeviceIDs requirement) <? 1)%N ||
              (llen (PostChangeVoterDeviceIDs requirement) <? 1)%N ||
              (Z.to_N Policy.MaxMemberDevices <?
                 llen (LiveVoterDeviceIDs requirement) + llen (LiveNonvoterDeviceIDs requirement))%N ||
              overlapDeviceIDs (LiveVoterDeviceIDs requirement) (LiveNonvoterDeviceIDs requirement) ||
              negb (subsetDeviceIDs (ActiveDeviceIDs requirement)
                      (mergeSortedDeviceIDs (LiveVoterDeviceIDs requirement)
                         (LiveNonvoterDeviceIDs requirement)))) ;;
      refuse ErrInvalidConfigurationReadiness
        when (negb (RequiredPostChangeQuorum requirement =?
                      llen (PostChangeVoterDeviceIDs requirement) / 2 + 1)%N) ;;
      refuse ErrInvalidConfigurationReadiness
        when ((Operation requirement == ConfigurationObserve) &&
              (negb (contains (LiveVoterDeviceIDs requirement) (SubjectDeviceID requirement)) ||
               negb (contains (ActiveDeviceIDs requirement) (SubjectDeviceID requirement)) &&
               contains (TargetVoterDeviceIDs requirement) (SubjectDeviceID requirement))) ;;
      None
  end.

(** Every field. *)
Definition Requirement_same (requirement other : Requirement) : bool := requirement == other.

Record Candidate := mkCandidate {
  ReachableDeviceIDs : list string;
  CurrentCredentialDeviceIDs : list string;
  Token : list N }.

(** Both slices of a candidate, as a set. *)
Definition readyConfigurationDevices (candidate : Candidate) : gset string :=
  deviceIDSet (ReachableDeviceIDs candidate) ∩ deviceIDSet (CurrentCredentialDeviceIDs candidate).

Definition validateConfigurationReadinessCandidate (requirement : Requirement)
    (candidate : Candidate) : option Error :=
  refuse ErrInvalidConfigurationReadiness
    when (bool_decide (is_Some (Requirement_validate requirement)) ||
          negb (sortedUniqueDeviceIDs (ReachableDeviceIDs candidate)) ||
          negb (sortedUniqueDeviceIDs (CurrentCredentialDeviceIDs candidate)) ||
          (Z.to_N Policy.MaxMemberDevices <? llen (ReachableDeviceIDs candidate))%N ||
          (Z.to_N Policy.MaxMemberDevices <? llen (CurrentCredentialDeviceIDs candidate))%N ||
          (MaxConfigurationReadinessTokenBytes <? llen (Token candidate))%N) ;;
  let live := deviceIDSet (LiveVoterDeviceIDs requirement) ∪
              deviceIDSet (LiveNonvoterDeviceIDs requirement) in
  let active := deviceIDSet (ActiveDeviceIDs requirement) in
  let reachable := deviceIDSet (ReachableDeviceIDs candidate) in
  let credentialed := deviceIDSet (CurrentCredentialDeviceIDs candidate) in
  refuse ErrInvalidConfigurationReadiness
    when (negb (bool_decide (reachable ⊆ live)) || negb (bool_decide (reachable ⊆ active))) ;;
  refuse ErrInvalidConfigurationReadiness
    when (negb (bool_decide (credentialed ⊆ live)) || negb (bool_decide (credentialed ⊆ active))) ;;
  let ready := filter (λ id, id ∈ reachable ∧ id ∈ credentialed)
                 (PostChangeVoterDeviceIDs requirement) in
  refuse ErrConfigurationQuorumUnavailable
    when (llen ready <? RequiredPostChangeQuorum requirement)%N ;;
  let subjectMustBeReady :=
    (Operation requirement == ConfigurationAddVoter) ||
    (Operation requirement == ConfigurationTransfer) ||
    (Operation requirement == ConfigurationObserve) &&
    containsSortedDeviceID (ActiveDeviceIDs requirement) (SubjectDeviceID requirement) in
  refuse ErrConfigurationQuorumUnavailable
    when (subjectMustBeReady &&
          (negb (bool_decide (SubjectDeviceID requirement ∈ reachable)) ||
           negb (bool_decide (SubjectDeviceID requirement ∈ credentialed)))) ;;
  None.

(** ** The gate: the provider's two methods, or no provider *)

Record Provider := mkProvider {
  CollectConfigurationReadiness : Requirement → Error + Candidate;
  VerifyCurrentConfigurationReadiness : Requirement → Candidate → option Error }.

Record verifiedConfigurationReadiness := mkVerified {
  requirement_ : Requirement;
  candidate_ : Candidate }.

Definition collect (gate : option Provider) (ended : bool) (requirement : Requirement)
    : Error + verifiedConfigurationReadiness :=
  throw ErrInvalidConfigurationReadiness
    when (bool_decide (is_Some (Requirement_validate requirement))) ;;
  throw ErrContext when ended ;;
  match gate with
  | None => inl ErrConfigurationReadinessUnavailable
  | Some provider =>
      let* candidate := CollectConfigurationReadiness provider requirement in
      ensure validateConfigurationReadinessCandidate requirement candidate ;;
      inr (mkVerified requirement candidate)
  end.

Definition verifyCurrent (gate : option Provider) (current : Requirement)
    (verified : verifiedConfigurationReadiness) : option Error :=
  match gate with
  | None => Some ErrConfigurationReadinessUnavailable
  | Some provider =>
      refuse ErrConfigurationReadinessChanged
        when (bool_decide (is_Some (Requirement_validate current)) ||
              bool_decide (is_Some (Requirement_validate (requirement_ verified))) ||
              negb (Requirement_same current (requirement_ verified))) ;;
      check validateConfigurationReadinessCandidate current (candidate_ verified) ;;
      check VerifyCurrentConfigurationReadiness provider current (candidate_ verified) ;;
      validateConfigurationReadinessCandidate current (candidate_ verified)
  end.

(** ** Changes of a configuration (configuration_change.go) *)

Inductive raftConfigurationChangeKind :=
  | raftChangeAddVoter | raftChangeAddNonvoter | raftChangeDemoteVoter | raftChangeRemoveServer.

#[global] Instance kind_eq_dec : EqDecision raftConfigurationChangeKind.
Proof. solve_decision. Defined.

Record raftConfigurationChange := mkChange {
  kind : raftConfigurationChangeKind;
  changeDeviceID : string }.

#[global] Instance change_eq_dec : EqDecision raftConfigurationChange.
Proof. solve_decision. Defined.

(** The kind is one of the four. *)
Definition change_validate (change : raftConfigurationChange) : option Error :=
  refuse ErrInvalidConfigurationChange when (negb (Domain.DeviceID_Valid (changeDeviceID change))) ;;
  None.

Definition configurationOperation (kind : raftConfigurationChangeKind) : ConfigurationOperation :=
  match kind with
  | raftChangeAddVoter => ConfigurationAddVoter
  | raftChangeAddNonvoter => ConfigurationAddNonvoter
  | raftChangeDemoteVoter => ConfigurationDemoteVoter
  | raftChangeRemoveServer => ConfigurationRemove
  end.

(** ** The requirements of a cut *)

Definition voters_of (suffrage : Suffrage) (configuration : Configuration) : list string :=
  sort_Strings (ServerID <$> filter (λ server, Suffrage_ server = suffrage) configuration).

(** [None] is a configured server that is no member. *)
Definition activeConfiguredDeviceIDs (state : StateDecode.decodedState)
    (liveVoters liveNonvoters : list string) : option (list string) :=
  let configured := mergeSortedDeviceIDs liveVoters liveNonvoters in
  members ← mapM (λ id, PeerAdmission.Member (StateDecode.Admission state) id) configured;
  Some (filter (λ id, Device.DeviceStatus <$> PeerAdmission.Member (StateDecode.Admission state) id =
                      Some Device.StatusActive) configured).

Definition invalidCut (state : StateDecode.decodedState) (configuration : committedRaftConfiguration)
    : bool :=
  negb (VoterSet.is_valid (StateDecode.VoterSet_ state)) || (Index configuration <? 1)%N ||
  negb (Domain.ValidUnsignedInteger (Index configuration)) ||
  bool_decide (is_Some (validateDeviceAddressedSnapshotConfiguration (Servers configuration))).

Definition requirementOf (state : StateDecode.decodedState)
    (configuration : committedRaftConfiguration) (active postChange : list string)
    (operation : ConfigurationOperation) (subject : string) : Requirement :=
  let target := StateDecode.VoterSet_ state in
  mkRequirement (VoterSet.SessionID target) (StateDecode.recoveryGeneration state)
    (VoterSet.VoterSetVersion target) (VoterSet.voterDeviceIDs target) (Index configuration)
    (voters_of Voter (Servers configuration)) (voters_of Nonvoter (Servers configuration)) active
    postChange (llen postChange / 2 + 1) operation subject.

Definition configurationReadinessRequirement (state : StateDecode.decodedState)
    (configuration : committedRaftConfiguration) (change : raftConfigurationChange)
    : Error + Requirement :=
  throw ErrInvalidConfigurationReadiness
    when (invalidCut state configuration || bool_decide (is_Some (change_validate change))) ;;
  let liveVoters := voters_of Voter (Servers configuration) in
  let liveNonvoters := voters_of Nonvoter (Servers configuration) in
  match activeConfiguredDeviceIDs state liveVoters liveNonvoters with
  | None => inl ErrInvalidConfigurationReadiness
  | Some active =>
      let postChange :=
        match kind change with
        | raftChangeAddVoter => addSortedDeviceID liveVoters (changeDeviceID change)
        | raftChangeDemoteVoter | raftChangeRemoveServer =>
            removeSortedDeviceID liveVoters (changeDeviceID change)
        | raftChangeAddNonvoter => liveVoters
        end in
      throw ErrInvalidConfigurationReadiness when (llen postChange =? 0)%N ;;
      let requirement := requirementOf state configuration active postChange
                           (configurationOperation (kind change)) (changeDeviceID change) in
      throw ErrInvalidConfigurationReadiness
        when (bool_decide (is_Some (Requirement_validate requirement))) ;;
      inr requirement
  end.

Definition leadershipTransferReadinessRequirement (state : StateDecode.decodedState)
    (configuration : committedRaftConfiguration) (target : string) : Error + Requirement :=
  throw ErrInvalidConfigurationReadiness
    when (negb (Domain.DeviceID_Valid target) || invalidCut state configuration) ;;
  let liveVoters := voters_of Voter (Servers configuration) in
  match activeConfiguredDeviceIDs state liveVoters (voters_of Nonvoter (Servers configuration)) with
  | None => inl ErrInvalidConfigurationReadiness
  | Some active =>
      let requirement := requirementOf state configuration active liveVoters ConfigurationTransfer
                           target in
      throw ErrInvalidConfigurationReadiness
        when (bool_decide (is_Some (Requirement_validate requirement)) ||
              negb (containsSortedDeviceID liveVoters target) ||
              negb (VoterSet.Contains (StateDecode.VoterSet_ state) target)) ;;
      inr requirement
  end.

Definition reconciliationReadinessRequirement (state : StateDecode.decodedState)
    (configuration : committedRaftConfiguration) (localLeader : string) : Error + Requirement :=
  throw ErrInvalidConfigurationReadiness
    when (negb (Domain.DeviceID_Valid localLeader) || invalidCut state configuration) ;;
  let liveVoters := voters_of Voter (Servers configuration) in
  match activeConfiguredDeviceIDs state liveVoters (voters_of Nonvoter (Servers configuration)) with
  | None => inl ErrInvalidConfigurationReadiness
  | Some active =>
      let requirement := requirementOf state configuration active liveVoters ConfigurationObserve
                           localLeader in
      let revokedOutgoingLeader :=
        match PeerAdmission.Member (StateDecode.Admission state) localLeader with
        | None => false
        | Some member => (Device.DeviceStatus member == Device.StatusRevoked) &&
                         negb (VoterSet.Contains (StateDecode.VoterSet_ state) localLeader)
        end in
      throw ErrInvalidConfigurationReadiness
        when (negb (bool_decide (localLeader ∈ liveVoters)) ||
              bool_decide (is_Some (Requirement_validate requirement)) ||
              negb (containsSortedDeviceID active localLeader) && negb revokedOutgoingLeader) ;;
      inr requirement
  end.

End Readiness.

Module Reconciliation.

Import Topology Readiness.

(** ** voter_reconciliation_plan.go *)

Inductive ActionKind :=
  | Invalid | Stalled | AddNonvoter | ProveNonvoter | PromoteVoter | ActivateAuthority
  | TransferLeadership | RemoveVoter | RemoveNonvoter | Stable.

#[global] Instance ActionKind_eq_dec : EqDecision ActionKind.
Proof. solve_decision. Defined.

Inductive Reason :=
  | NoReason | InvalidTarget | InvalidAuthority | InvalidConfiguration | InvalidLeader
  | InvalidMembers | InvalidReachability | InvalidEligibility | TargetUnavailable
  | NoTransferTarget | NoRemovableVoter.

#[global] Instance Reason_eq_dec : EqDecision Reason.
Proof. solve_decision. Defined.

Record Input := mkInput {
  target : VoterSet.Set_;
  authority : CredentialAuthority.Authority;
  configuration : committedRaftConfiguration;
  localLeaderID : string;
  memberStatus : gmap string Device.Status;
  reachable : gset string;
  eligible : gset string }.

Record Plan := mkPlan {
  action_ : ActionKind;
  deviceID : string;
  configurationIndex : N;
  reason : Reason }.

#[global] Instance Plan_eq_dec : EqDecision Plan.
Proof. solve_decision. Defined.

Record State := mkState {
  stateIndex : N;
  targetIDs : list string;
  servers : gmap string Server;
  authorityActivated : bool }.

Definition containsDevice (set : gset string) (id : string) : bool := bool_decide (id ∈ set).

Definition action (state : State) (kind : ActionKind) (id : string) : Plan :=
  mkPlan kind id (stateIndex state) NoReason.
Definition stalled (state : State) (reason : Reason) (id : string) : Plan :=
  mkPlan Stalled id (stateIndex state) reason.
Definition invalid (reason : Reason) : Plan := mkPlan Invalid EmptyString 0 reason.

Definition suffrage_is (suffrage : Suffrage) (server : option Server) : bool :=
  match server with Some server => Suffrage_ server == suffrage | None => false end.

Definition revokedOutgoingLeader (input : Input) : bool :=
  bool_decide (memberStatus input !! localLeaderID input = Some Device.StatusRevoked) &&
  negb (VoterSet.Contains (target input) (localLeaderID input)).

Definition validateVoterReconciliationInput (input : Input) : Reason + State :=
  let ids := VoterSet.voterDeviceIDs (target input) in
  let config := Servers (configuration input) in
  let leader := localLeaderID input in
  throw InvalidTarget when (negb (VoterSet.is_valid (target input))) ;;
  throw InvalidAuthority
    when (negb (CredentialAuthority.is_valid (authority input)) ||
          (CredentialAuthority.SessionID (authority input) != VoterSet.SessionID (target input)) ||
          (VoterSet.VoterSetVersion (target input) <?
             CredentialAuthority.VoterSetVersion (authority input))%N) ;;
  let activated := (CredentialAuthority.VoterSetVersion (authority input) =?
                      VoterSet.VoterSetVersion (target input))%N in
  throw InvalidAuthority
    when (activated &&
          negb (sameDeviceIDs (CredentialAuthority.VoterDeviceIDs (authority input)) ids)) ;;
  throw InvalidConfiguration
    when ((Index (configuration input) <? 1)%N ||
          negb (Domain.ValidUnsignedInteger (Index (configuration input))) ||
          bool_decide (is_Some (validateDeviceAddressedSnapshotConfiguration config))) ;;
  let servers := by_id config in
  throw InvalidLeader
    when (negb (Domain.DeviceID_Valid leader) ||
          negb (existsb (λ server, (ServerID server == leader) && (Suffrage_ server == Voter)) config)) ;;
  throw InvalidMembers
    when (negb (bool_decide (map_Forall (λ id status,
                  Domain.DeviceID_Valid id = true ∧ Device.Status_Valid status = true)
                  (memberStatus input)))) ;;
  throw InvalidMembers
    when (negb (bool_decide (map_Forall (λ id _, is_Some (memberStatus input !! id)) servers))) ;;
  throw InvalidMembers
    when (negb (forallb (λ id, bool_decide (memberStatus input !! id = Some Device.StatusActive)) ids)) ;;
  throw InvalidMembers
    when (negb (forallb (λ id, bool_decide (is_Some (memberStatus input !! id)))
                  (CredentialAuthority.VoterDeviceIDs (authority input)))) ;;
  throw InvalidLeader
    when (negb (bool_decide (memberStatus input !! leader = Some Device.StatusActive)) &&
          negb (revokedOutgoingLeader input)) ;;
  throw InvalidLeader
    when (negb (revokedOutgoingLeader input) && negb (containsDevice (reachable input) leader)) ;;
  throw InvalidReachability
    when (negb (bool_decide (set_Forall (λ id,
                  Domain.DeviceID_Valid id = true ∧ is_Some (memberStatus input !! id))
                  (reachable input)))) ;;
  throw InvalidEligibility
    when (negb (bool_decide (set_Forall (λ id,
                  Domain.DeviceID_Valid id = true ∧ VoterSet.Contains (target input) id = true ∧
                  memberStatus input !! id = Some Device.StatusActive ∧
                  (suffrage_is Voter (servers !! id) || suffrage_is Nonvoter (servers !! id)) = true)
                  (eligible input)))) ;;
  throw InvalidAuthority
    when (activated && negb (forallb (λ id, suffrage_is Voter (servers !! id)) ids)) ;;
  inr (mkState (Index (configuration input)) ids servers activated).

Definition extraServers (state : State) (target : VoterSet.Set_) (suffrage : Suffrage) : list string :=
  fst <$> filter (λ entry : string * Server,
                    Suffrage_ entry.2 = suffrage ∧ VoterSet.Contains target entry.1 = false)
            (map_to_list (servers state)).

(** The voters left, and those of them that are active and reachable. *)
Definition votersWithout (state : State) (removed : string) : list string :=
  fst <$> filter (λ entry : string * Server, Suffrage_ entry.2 = Voter ∧ entry.1 ≠ removed)
            (map_to_list (servers state)).

Definition readyVoter (input : Input) (id : string) : bool :=
  bool_decide (memberStatus input !! id = Some Device.StatusActive) && containsDevice (reachable input) id.

Definition postRemovalHasReachableActiveQuorum (state : State) (input : Input) (removed : string)
    : bool :=
  let left := votersWithout state removed in
  let ready := filter (λ id, readyVoter input id = true) left in
  (0 <? llen left)%N && (llen left / 2 + 1 <=? llen ready)%N.

(** The order of removals: revoked first, then unreachable, then by identifier. *)
Definition removed_before (input : Input) (left right : string) : bool :=
  let revoked id := bool_decide (memberStatus input !! id = Some Device.StatusRevoked) in
  let there id := containsDevice (reachable input) id in
  if negb (Bool.eqb (revoked left) (revoked right)) then revoked left
  else if negb (Bool.eqb (there left) (there right)) then negb (there left)
  else String.ltb left right.

Definition removal_le (input : Input) (left right : string) : Prop :=
  removed_before input right left = false.
#[global] Instance removal_le_dec input left right : Decision (removal_le input left right).
Proof. unfold removal_le. apply _. Defined.

(** The second loop: what it returns, or the first target that is unavailable. *)
Fixpoint planNonvoters (input : Input) (state : State) (ids : list string) (unavailable : option string)
    : Plan + option string :=
  match ids with
  | [] => inr unavailable
  | id :: rest =>
      if negb (suffrage_is Nonvoter (servers state !! id)) then planNonvoters input state rest unavailable
      else if negb (containsDevice (reachable input) id)
      then planNonvoters input state rest (if unavailable is Some _ then unavailable else Some id)
      else inl (action state (if containsDevice (eligible input) id then PromoteVoter else ProveNonvoter)
                  id)
  end.

Definition planRemovals (input : Input) (state : State) : Plan :=
  let extraVoters := merge_sort (removal_le input) (extraServers state (target input) Voter) in
  match list_find (λ id, Is_true ((id != localLeaderID input) &&
                                  postRemovalHasReachableActiveQuorum state input id)) extraVoters with
  | Some (_, id) => action state RemoveVoter id
  | None =>
      if negb (bool_decide (extraVoters = [])) then stalled state NoRemovableVoter EmptyString
      else match sort_Strings (extraServers state (target input) Nonvoter) with
           | id :: _ => action state RemoveNonvoter id
           | [] => action state Stable EmptyString
           end
  end.

Definition planValid (input : Input) (state : State) : Plan :=
  match list_find (λ id, servers state !! id = None) (targetIDs state) with
  | Some (_, id) => action state AddNonvoter id
  | None =>
      match planNonvoters input state (targetIDs state) None with
      | inl plan => plan
      | inr (Some id) => stalled state TargetUnavailable id
      | inr None =>
          let leader := localLeaderID input in
          let revoked := bool_decide (memberStatus input !! leader = Some Device.StatusRevoked) in
          if negb (VoterSet.Contains (target input) leader) && (revoked || authorityActivated state)
          then match list_find (λ id, Is_true (containsDevice (reachable input) id &&
                                               containsDevice (eligible input) id))
                       (targetIDs state) with
               | Some (_, id) => action state TransferLeadership id
               | None => stalled state NoTransferTarget EmptyString
               end
          else if negb (authorityActivated state) then action state ActivateAuthority EmptyString
          else planRemovals input state
      end
  end.

Definition planVoterReconciliation (input : Input) : Plan :=
  match validateVoterReconciliationInput input with
  | inl reason => invalid reason
  | inr state => planValid input state
  end.

(** ** voter_reconciliation_eligibility.go *)

Inductive EligibilityKind := EligibilityExisting | EligibilityStagingProof.

Record stagingCheckpointExpectation := mkExpectation {
  targetDeviceID : string;
  record : StoreRecords.CheckpointRecord }.

Record stagingApplyProof := mkProof {
  expectation : stagingCheckpointExpectation;
  appliedLogIndex : N }.

(** The zero proof of an existing voter is [None]. *)
Record Evidence := mkEvidence {
  evidenceKind : EligibilityKind;
  evidenceDeviceID : string;
  targetVoterSetVersion : N;
  stagedConfigurationIndex : N;
  stagingProof : option stagingApplyProof }.

Definition EligibilitySet : Type := gmap string Evidence.

Definition initialVoterEligibility (state : StateDecode.decodedState) (config : Configuration)
    : EligibilitySet :=
  list_to_map
    ((λ server, (ServerID server,
        mkEvidence EligibilityExisting (ServerID server)
          (VoterSet.VoterSetVersion (StateDecode.VoterSet_ state)) 0 None)) <$>
     filter (λ server, Suffrage_ server = Voter ∧
                       VoterSet.Contains (StateDecode.VoterSet_ state) (ServerID server) = true) config).

Section Lib.
Context `{NormLib, JCSLib, CryptoLib}.

Definition expectation_validate (expectation : stagingCheckpointExpectation) : bool :=
  Domain.DeviceID_Valid (targetDeviceID expectation) &&
  negb (bool_decide (is_Some (StoreRecords.CheckpointRecord_Validate (record expectation)))) &&
  (StoreRecords.CoveredAppliedLogIndex (record expectation) <? Domain.MaxSafeInteger)%N.

Definition stagingProofValid (state : StateDecode.decodedState) (committed : committedRaftConfiguration)
    (evidence : Evidence) (server : Server) (proof : stagingApplyProof) : bool :=
  let covered := record (expectation proof) in
  negb ((stagedConfigurationIndex evidence <? 1)%N ||
        negb (Domain.ValidUnsignedInteger (stagedConfigurationIndex evidence)) ||
        negb (expectation_validate (expectation proof)) ||
        (targetDeviceID (expectation proof) != evidenceDeviceID evidence) ||
        negb (appliedLogIndex proof =? StoreRecords.CoveredAppliedLogIndex covered + 1)%N ||
        (StoreRecords.CSessionID covered != VoterSet.SessionID (StateDecode.VoterSet_ state)) ||
        (StoreRecords.CWorkspaceID covered != StateDecode.workspaceID state) ||
        negb (StoreRecords.CRecoveryGeneration covered =? StateDecode.recoveryGeneration state)%N ||
        (targetVoterSetVersion evidence <? StoreRecords.AuthorityVoterSetVersion covered)%N ||
        (StoreRecords.CoveredAppliedLogIndex covered <? stagedConfigurationIndex evidence)%N) &&
  match Suffrage_ server with
  | Voter => true
  | Nonvoter => (Index committed <=? StoreRecords.CoveredAppliedLogIndex covered)%N
  | SuffrageOther => false
  end.

Definition validFor (state : StateDecode.decodedState) (committed : committedRaftConfiguration)
    (evidence : Evidence) : bool :=
  let id := evidenceDeviceID evidence in
  Domain.DeviceID_Valid id &&
  (targetVoterSetVersion evidence =? VoterSet.VoterSetVersion (StateDecode.VoterSet_ state))%N &&
  VoterSet.Contains (StateDecode.VoterSet_ state) id &&
  bool_decide (Device.DeviceStatus <$> PeerAdmission.Member (StateDecode.Admission state) id =
               Some Device.StatusActive) &&
  match configurationServer (Servers committed) id with
  | None => false
  | Some server =>
      match evidenceKind evidence, stagingProof evidence with
      | EligibilityExisting, None =>
          (stagedConfigurationIndex evidence =? 0)%N && (Suffrage_ server == Voter)
      | EligibilityStagingProof, Some proof => stagingProofValid state committed evidence server proof
      | _, _ => false
      end
  end.

Definition newStagingVoterEligibility (state : StateDecode.decodedState)
    (committed : committedRaftConfiguration) (target : string) (proof : stagingApplyProof)
    : Error + Evidence :=
  let evidence := mkEvidence EligibilityStagingProof target
                    (VoterSet.VoterSetVersion (StateDecode.VoterSet_ state)) (Index committed)
                    (Some proof) in
  throw ErrVoterReconciliationInvalid
    when (negb (validFor state committed evidence) ||
          negb (StoreRecords.AuthorityVoterSetVersion (record (expectation proof)) =?
                  CredentialAuthority.VoterSetVersion (StateDecode.CredentialAuthority_ state))%N ||
          negb (configurationHasDeviceSuffrage (Servers committed) target Nonvoter)) ;;
  inr evidence.

Definition plannerSet (set : EligibilitySet) (state : StateDecode.decodedState)
    (committed : committedRaftConfiguration) : gset string :=
  dom (filter (λ entry : string * Evidence,
                 entry.1 = evidenceDeviceID entry.2 ∧ validFor state committed entry.2 = true) set).

(** ** voter_reconciliation.go: the input of the planner *)

(** The status of every member that the planner asks for. *)
Definition memberStatuses (state : StateDecode.decodedState) (committed : committedRaftConfiguration)
    : gmap string Device.Status :=
  let asked := (ServerID <$> Servers committed) ++
               VoterSet.voterDeviceIDs (StateDecode.VoterSet_ state) ++
               CredentialAuthority.VoterDeviceIDs (StateDecode.CredentialAuthority_ state) in
  list_to_map (omap (λ id, (λ member, (id, Device.DeviceStatus member)) <$>
                             PeerAdmission.Member (StateDecode.Admission state) id) asked).

Definition voterReconciliationPlannerInput (state : StateDecode.decodedState)
    (committed : committedRaftConfiguration) (localLeader : string) (ready eligible : gset string)
    : Error + Input :=
  let input := mkInput (StateDecode.VoterSet_ state) (StateDecode.CredentialAuthority_ state) committed
                 localLeader (memberStatuses state committed) ready eligible in
  match validateVoterReconciliationInput input with
  | inl _ => inl ErrVoterReconciliationInvalid
  | inr _ => inr input
  end.

Definition activeConfiguredSet (state : StateDecode.decodedState) (config : Configuration)
    : gset string :=
  list_to_set (filter (λ id, Device.DeviceStatus <$> PeerAdmission.Member (StateDecode.Admission state) id
                             = Some Device.StatusActive) (ServerID <$> config)).

Definition reconciliationConfigurationChange (plan : Plan) : option raftConfigurationChange :=
  match action_ plan with
  | AddNonvoter => Some (mkChange raftChangeAddNonvoter (deviceID plan))
  | PromoteVoter => Some (mkChange raftChangeAddVoter (deviceID plan))
  | RemoveVoter | RemoveNonvoter => Some (mkChange raftChangeRemoveServer (deviceID plan))
  | _ => None
  end.

Definition reconciliationPlanAtCut (state : StateDecode.decodedState)
    (committed : committedRaftConfiguration) (localLeader : string) (readiness : Candidate)
    (eligibility : EligibilitySet) : Error + Plan :=
  let* input := voterReconciliationPlannerInput state committed localLeader
                  (readyConfigurationDevices readiness) (plannerSet eligibility state committed) in
  let plan := planVoterReconciliation input in
  throw ErrVoterReconciliationInvalid when (action_ plan == Invalid) ;; inr plan.

Definition requireExpectedReconciliationPlan (expected actual : Plan) : option Error :=
  refuse errVoterReconciliationChanged when (expected != actual) ;; None.

Definition sameVoterReconciliationState (left right : StateDecode.decodedState) : bool :=
  let target := StateDecode.VoterSet_ in
  let authority := StateDecode.CredentialAuthority_ in
  (VoterSet.VoterSetVersion (target left) =? VoterSet.VoterSetVersion (target right))%N &&
  sameDeviceIDs (VoterSet.voterDeviceIDs (target left)) (VoterSet.voterDeviceIDs (target right)) &&
  (CredentialAuthority.VoterSetVersion (authority left) =?
     CredentialAuthority.VoterSetVersion (authority right))%N &&
  sameDeviceIDs (CredentialAuthority.VoterDeviceIDs (authority left))
    (CredentialAuthority.VoterDeviceIDs (authority right)).

Definition credentialAuthorityMatchesTarget (state : StateDecode.decodedState) : bool :=
  (CredentialAuthority.VoterSetVersion (StateDecode.CredentialAuthority_ state) =?
     VoterSet.VoterSetVersion (StateDecode.VoterSet_ state))%N &&
  sameDeviceIDs (CredentialAuthority.VoterDeviceIDs (StateDecode.CredentialAuthority_ state))
    (VoterSet.voterDeviceIDs (StateDecode.VoterSet_ state)).

Definition credentialAuthorityNeedsActivation (state : StateDecode.decodedState) : bool :=
  VoterSet.is_valid (StateDecode.VoterSet_ state) &&
  CredentialAuthority.is_valid (StateDecode.CredentialAuthority_ state) &&
  (CredentialAuthority.VoterSetVersion (StateDecode.CredentialAuthority_ state) <?
     VoterSet.VoterSetVersion (StateDecode.VoterSet_ state))%N.

(** ** configuration_change.go: the checks at a cut *)

Definition validateRaftConfigurationChange (state : StateDecode.decodedState) (config : Configuration)
    (change : raftConfigurationChange) (localServerID : string) : option Error :=
  refuse ErrInvalidConfigurationChange when (bool_decide (is_Some (change_validate change))) ;;
  let current := configurationServer config (changeDeviceID change) in
  let target := VoterSet.Contains (StateDecode.VoterSet_ state) (changeDeviceID change) in
  match kind change with
  | raftChangeAddNonvoter =>
      refuse ErrStaleConfigurationChange when (negb target || bool_decide (is_Some current)) ;; None
  | raftChangeAddVoter =>
      refuse ErrStaleConfigurationChange
        when (negb target || negb (suffrage_is Nonvoter current)) ;; None
  | raftChangeDemoteVoter =>
      refuse ErrStaleConfigurationChange
        when (target || negb (suffrage_is Voter current) || (changeDeviceID change == localServerID)) ;;
      None
  | raftChangeRemoveServer =>
      refuse ErrStaleConfigurationChange
        when (target || negb (bool_decide (is_Some current)) || (changeDeviceID change == localServerID) ||
              negb (credentialAuthorityMatchesTarget state)) ;; None
  end.

(** One consistent reading: the durable view decoded, and the committed
    configuration, which is the library's latest. *)
Record Cut := mkCut {
  cutState : StateDecode.decodedState;
  cutCoverage : Coverage.Snapshot;
  cutConfiguration : committedRaftConfiguration }.

Definition configurationChangeCut (view : option StoreView.StateView) (live : option Configuration)
    (committed : option committedRaftConfiguration) : Error + Cut :=
  match (view ← view; StateDecode.decodeStateView view) with
  | None => inl ErrStateView
  | Some state =>
      match StateDecode.CanonicalCoverageSnapshot state with
      | None => inl ErrStateView
      | Some coverage =>
          match live with
          | None => inl ErrProvider
          | Some live =>
              throw ErrRaftTopology
                when (bool_decide (is_Some (validateDeviceAddressedSnapshotConfiguration live))) ;;
              match committed with
              | None => inl ErrStaleConfigurationChange
              | Some committed =>
                  throw ErrStaleConfigurationChange
                    when ((Index committed <? 1)%N ||
                          negb (sameRaftConfiguration (Servers committed) live)) ;;
                  inr (mkCut state coverage committed)
              end
          end
      end
  end.

(** ** The attempt to change a configuration

    What the node, the library and the providers answer to one attempt:
    the term of its leadership at each of the four readings, the two cuts, the
    gates, and the failures of its own lifecycle (the context, the barriers, the
    enqueue lock). *)
Inductive Stage := StageStart | StageBarrier | StageReadiness | StageCoverage | StageGuard | StageEnqueue.

Record Attempt := mkAttempt {
  epochs : nat → Error + N;
  baselineCut : Error + Cut;
  currentCut : Error + Cut;
  readinessGate : option Provider;
  coverageGate : option Coverage.Collector;
  failure : Stage → option Error }.

(** The context never ends inside a gate unless its stage fails. *)
Definition collectCoverage (attempt : Attempt) (snapshot : Coverage.Snapshot) : Error + Coverage.Candidate :=
  match Coverage.Collect (coverageGate attempt) false false snapshot with
  | inl err => inl (ErrCoverage err)
  | inr candidate => inr candidate
  end.

Definition verifyCoverage (attempt : Attempt) (snapshot : Coverage.Snapshot)
    (candidate : Coverage.Candidate) : option Error :=
  ErrCoverage <$> Coverage.VerifyCurrent (coverageGate attempt) snapshot candidate.

Definition requireLeadership (attempt : Attempt) (expected : N) (reading : nat) : option Error :=
  match epochs attempt reading with
  | inl err => Some err
  | inr term => refuse ErrLeadershipEpochChanged when (negb (term =? expected)%N) ;; None
  end.

(** What both kinds of attempt do between their own checks: [validate] is the
    check of the cut, [requirement] the requirement of it. *)
Definition prepareAttempt (attempt : Attempt) (serverID : string) (expectedPlan : Plan)
    (eligibility : EligibilitySet) (validate : Cut → option Error)
    (requirement : Cut → Error + Requirement) : Error + Cut :=
  let planAt cut readiness :=
    match reconciliationPlanAtCut (cutState cut) (cutConfiguration cut) serverID (candidate_ readiness)
            eligibility with
    | inl _ => Some errVoterReconciliationChanged
    | inr plan => requireExpectedReconciliationPlan expectedPlan plan
    end in
  ensure failure attempt StageStart ;;
  let* term := epochs attempt 0 in
  ensure failure attempt StageBarrier ;;
  ensure requireLeadership attempt term 1 ;;
  let* baseline := baselineCut attempt in
  throw ErrStaleConfigurationChange
    when (negb (Index (cutConfiguration baseline) =? configurationIndex expectedPlan)%N) ;;
  ensure validate baseline ;;
  let* required := requirement baseline in
  ensure failure attempt StageReadiness ;;
  let* readiness := collect (readinessGate attempt) false required in
  ensure planAt baseline readiness ;;
  ensure failure attempt StageCoverage ;;
  let* coverage := collectCoverage attempt (cutCoverage baseline) in
  ensure failure attempt StageGuard ;;
  let* current := currentCut attempt in
  ensure verifyCoverage attempt (cutCoverage current) coverage ;;
  ensure requireLeadership attempt term 2 ;;
  ensure validate current ;;
  let* currentReadiness := requirement current in
  ensure planAt current readiness ;;
  ensure verifyCurrent (readinessGate attempt) currentReadiness readiness ;;
  ensure failure attempt StageEnqueue ;;
  ensure requireLeadership attempt term 3 ;;
  inr current.

(** The change that is handed to the library, and the index it must follow. *)
Definition prepareConfigurationChange (attempt : Attempt) (serverID : string) (expectedPlan : Plan)
    (eligibility : EligibilitySet) : Error + (raftConfigurationChange * N) :=
  match reconciliationConfigurationChange expectedPlan with
  | None => inl ErrInvalidConfigurationChange
  | Some change =>
      throw ErrInvalidConfigurationChange
        when (bool_decide (is_Some (change_validate change)) ||
              (configurationIndex expectedPlan <? 1)%N ||
              negb (Domain.ValidUnsignedInteger (configurationIndex expectedPlan))) ;;
      let* current :=
        prepareAttempt attempt serverID expectedPlan eligibility
          (λ cut, validateRaftConfigurationChange (cutState cut) (Servers (cutConfiguration cut)) change
                    serverID)
          (λ cut, configurationReadinessRequirement (cutState cut) (cutConfiguration cut) change) in
      inr (change, Index (cutConfiguration current))
  end.

(** [invoke] is the library's future: its error, or the index of its entry. *)
Definition changeRaftConfiguration (attempt : Attempt) (serverID : string) (expectedPlan : Plan)
    (eligibility : EligibilitySet) (invoke : raftConfigurationChange → N → Error + N) : Error + N :=
  let* (change, previous) := prepareConfigurationChange attempt serverID expectedPlan eligibility in
  let* index := invoke change previous in
  throw ErrRaftTopology when (index <=? previous)%N ;; inr index.

(** ** leadership_transfer.go *)

Definition leadershipTransferAuthorityReady (state : StateDecode.decodedState) (localServerID : string)
    : bool :=
  credentialAuthorityMatchesTarget state ||
  bool_decide (Device.DeviceStatus <$> PeerAdmission.Member (StateDecode.Admission state) localServerID =
               Some Device.StatusRevoked) &&
  negb (VoterSet.Contains (StateDecode.VoterSet_ state) localServerID) &&
  credentialAuthorityNeedsActivation state.

Definition validateLeadershipTransferTarget (state : StateDecode.decodedState) (config : Configuration)
    (target localServerID : string) : option Error :=
  refuse ErrInvalidLeadershipTransfer
    when (negb (Domain.DeviceID_Valid target) || (target == localServerID) ||
          negb (VoterSet.Contains (StateDecode.VoterSet_ state) target) ||
          VoterSet.Contains (StateDecode.VoterSet_ state) localServerID ||
          negb (leadershipTransferAuthorityReady state localServerID)) ;;
  refuse ErrInvalidLeadershipTransfer
    when (negb (bool_decide (Device.DeviceStatus <$>
                               PeerAdmission.Member (StateDecode.Admission state) target =
                             Some Device.StatusActive))) ;;
  refuse ErrInvalidLeadershipTransfer
    when (negb (existsb (λ server, (ServerID server == target) && (Address server == target) &&
                                   (Suffrage_ server == Voter)) config)) ;;
  None.

(** The target that leadership is handed to; the wait for it is not modelled. *)
Definition prepareLeadershipTransfer (attempt : Attempt) (serverID : string) (expectedPlan : Plan)
    (eligibility : EligibilitySet) : Error + string :=
  let target := deviceID expectedPlan in
  throw ErrInvalidLeadershipTransfer
    when ((action_ expectedPlan != TransferLeadership) || (configurationIndex expectedPlan <? 1)%N ||
          negb (Domain.ValidUnsignedInteger (configurationIndex expectedPlan)) ||
          negb (Domain.DeviceID_Valid target) || (target == serverID)) ;;
  let* _ :=
    prepareAttempt attempt serverID expectedPlan eligibility
      (λ cut, validateLeadershipTransferTarget (cutState cut) (Servers (cutConfiguration cut)) target
                serverID)
      (λ cut, leadershipTransferReadinessRequirement (cutState cut) (cutConfiguration cut) target) in
  inr target.

(** ** voter_reconciliation.go: one round *)

(** What the loop keeps between rounds. *)
Record Progress := mkProgress {
  eligibleVersion : N;
  eligibility_ : EligibilitySet }.

Definition startProgress : Progress := mkProgress 0 ∅.

(** The evidence, from the configuration's own voters when the target is new. *)
Definition refreshEligibility (progress : Progress) (cut : Cut) : Progress :=
  let version := VoterSet.VoterSetVersion (StateDecode.VoterSet_ (cutState cut)) in
  if (eligibleVersion progress =? version)%N then progress
  else mkProgress version (initialVoterEligibility (cutState cut) (Servers (cutConfiguration cut))).

(** The plan when every active configured member is taken to be reachable. *)
Definition staticPlan (serverID : string) (cut : Cut) : Error + Plan :=
  let state := cutState cut in
  let committed := cutConfiguration cut in
  let* input :=
    voterReconciliationPlannerInput state committed serverID
      (activeConfiguredSet state (Servers committed))
      (plannerSet (initialVoterEligibility state (Servers committed)) state committed) in
  inr (planVoterReconciliation input).

(** The ready devices of a cut, or [None] when the static plan is stable already;
    [capabilities] is what the node lacks. The barrier before the cut and the
    readings of the leadership around it fail the round alone. *)
Definition voterReconciliationCut (serverID : string) (cut : Cut) (capabilities : option Error)
    (gate : option Provider) : Error + option (gset string) :=
  let* plan := staticPlan serverID cut in
  throw ErrVoterReconciliationInvalid when (action_ plan == Invalid) ;;
  if action_ plan == Stable then inr None
  else
    ensure capabilities ;;
    let* required :=
      reconciliationReadinessRequirement (cutState cut) (cutConfiguration cut) serverID in
    let* readiness := collect gate false required in
    inr (Some (readyConfigurationDevices (candidate_ readiness))).

(** The round's plan and the evidence it was made with. *)
Definition reconcileRound (serverID : string) (cut : Cut) (progress : Progress)
    (ready : option (gset string)) : Error + (Plan * Progress) :=
  match ready with
  | None => inr (mkPlan Stable EmptyString 0 NoReason, progress)
  | Some ready =>
      let progress := refreshEligibility progress cut in
      let* input :=
        voterReconciliationPlannerInput (cutState cut) (cutConfiguration cut) serverID ready
          (plannerSet (eligibility_ progress) (cutState cut) (cutConfiguration cut)) in
      inr (planVoterReconciliation input, progress)
  end.

End Lib.

End Reconciliation.
