(* ===== verification/ReconciliationProofs.v ===== *)
(** * Lemmas on the reconciliation of the Raft voters

    [Module ReconciliationProofs]: what a checked configuration is, what each
    plan implies, and what a passed readiness gives. [Module AttemptProofs]: what
    an attempt that reaches the library has established.
    [Module ReconciliationTheorems]: a change that is made is safe. *)

From stdpp Require Import base gmap strings list sorting fin_maps fin_sets.
From Stdlib Require Import ZArith NArith Lia.
From S2P Require Import Prelude.
From S2P Require Import GoLib.
From S2P Require Import CodecLayer.
From S2P Require Import DomainValues.
From S2P Require Import VoterSetEntity.
From S2P Require Import DeviceEntity.
From S2P Require Import PolicyEntity.
From S2P Require Import CredentialEntity.
From S2P Require Import PublicationEntity.
From S2P Require Import ReducerState.
From S2P Require Import Fixtures.
From S2P Require Import PublicationProofs.
From S2P Require Import PeerAdmission.
From S2P Require Import CanonicalCoverage.
From S2P Require Import StateMapping.
From S2P Require Import VoterReconciliation.

Module ReconciliationProofs.

Import Topology Readiness Reconciliation.

(** ** Configurations *)

Definition ids (configuration : Configuration) : list string := ServerID <$> configuration.

Definition server_ok (server : Server) : Prop :=
  Domain.DeviceID_Valid (ServerID server) = true ∧ Address server = ServerID server ∧
  Suffrage_ server ≠ SuffrageOther.

Definition is_voter (server : Server) : Prop := Suffrage_ server = Voter.
#[global] Instance is_voter_dec server : Decision (is_voter server).
Proof. unfold is_voter. apply _. Defined.

Lemma scanServers_Some servers seen voters total :
  scanServers servers seen voters = Some total ↔
  Forall server_ok servers ∧ NoDup (ids servers) ∧ (∀ id, id ∈ ids servers → id ∉ seen) ∧
  total = voters + length (filter is_voter servers).
Proof.
  revert seen voters. induction servers as [|server rest IH]; intros seen voters; cbn [scanServers].
  { split; [intros [= ->]|intros (_ & _ & _ & ->)]; cbn; [|f_equal; lia].
    split_and!; [constructor|constructor|by intros id ?%elem_of_nil|lia]. }
  unfold ids in *. rewrite fmap_cons, NoDup_cons, Forall_cons.
  destruct (Domain.DeviceID_Valid (ServerID server)) eqn:Hid; cbn [negb orb];
    [|split; [done|intros ([[? _] _] & _); congruence]].
  destruct (decide (Address server = ServerID server)) as [Ha|Ha].
  2: { rewrite bool_decide_eq_false_2 by done. split; [done|]. by intros ([(_ & ? & _) _] & _). }
  rewrite bool_decide_eq_true_2 by done. cbn [negb].
  destruct (decide (ServerID server ∈ seen)) as [Hs|Hs].
  { rewrite bool_decide_eq_true_2 by done. split; [done|]. intros (_ & _ & Hno & _).
    exfalso. apply (Hno (ServerID server)); [set_solver|done]. }
  rewrite bool_decide_eq_false_2 by done.
  assert (Hstep : ∀ v, scanServers rest ({[ServerID server]} ∪ seen) v = Some total ↔
    Forall server_ok rest ∧ (ServerID server ∉ ServerID <$> rest) ∧ NoDup (ServerID <$> rest) ∧
    (∀ id, id ∈ ServerID server :: (ServerID <$> rest) → id ∉ seen) ∧
    total = v + length (filter is_voter rest)).
  { intros v. rewrite IH. split.
    - intros (Hok & Hnd & Hno & ->). split_and!; try done.
      + intros Hin. apply (Hno _ Hin). set_solver.
      + intros id [->|Hin]%elem_of_cons; [done|]. specialize (Hno _ Hin). set_solver.
    - intros (Hok & Hn & Hnd & Hno & ->). split_and!; try done. intros id Hin [?%elem_of_singleton|Hse]%elem_of_union.
      + by subst.
      + apply (Hno id); [by apply elem_of_cons; right|done]. }
  destruct (Suffrage_ server) eqn:Hsu.
  - rewrite filter_cons_True by done. rewrite Hstep. cbn [length]. unfold server_ok. rewrite Hsu.
    intuition (try congruence; try lia).
  - rewrite filter_cons_False by (unfold is_voter; congruence). rewrite Hstep. unfold server_ok. rewrite Hsu.
    intuition (try congruence; try lia).
  - split; [done|]. intros ([(_ & _ & ?) _] & _). congruence.
Qed.

Lemma length_pos_elem {A} (l : list A) n : S n = 0 + length l → ∃ x, x ∈ l.
Proof. destruct l as [|x l]; [done|]. intros _. exists x. left. Qed.

Record config_ok (configuration : Configuration) : Prop := {
  co_servers : Forall server_ok configuration;
  co_ids : NoDup (ids configuration);
  co_size : (length configuration ≤ 8)%nat;
  co_voter : ∃ server, server ∈ configuration ∧ Suffrage_ server = Voter }.

Lemma validate_ok configuration :
  validateDeviceAddressedSnapshotConfiguration configuration = None ↔ config_ok configuration.
Proof.
  unfold validateDeviceAddressedSnapshotConfiguration. rewrite refuse_None. split.
  - intros [Hlen Hs]. destruct (scanServers configuration ∅ 0) as [[|n]|] eqn:Hsc; [done| |done].
    apply scanServers_Some in Hsc as (Hok & Hnd & _ & Hn). bools. unfold llen in *. split; [done..| |].
    + change (Z.to_N Policy.MaxMemberDevices) with 8%N in *. lia.
    + apply length_pos_elem in Hn as [server [? ?]%list_elem_of_filter]. by exists server.
  - intros [Hok Hnd Hlen (server & Hin & Hv)].
    assert (Hsc : scanServers configuration ∅ 0 = Some (length (filter is_voter configuration)))
      by (apply scanServers_Some; split_and!; [done|done|set_solver|done]).
    assert (Hpos : server ∈ filter is_voter configuration) by (by apply list_elem_of_filter).
    destruct (filter is_voter configuration) as [|s r]; [by apply elem_of_nil in Hpos|].
    split; [|by rewrite Hsc]. change (Z.to_N Policy.MaxMemberDevices) with 8%N. unfold llen.
    apply list_elem_of_split in Hin as (l1 & l2 & ->). rewrite length_app in *. cbn [length] in *.
    apply orb_false_iff. split; [apply N.eqb_neq; lia|apply N.ltb_ge; lia].
Qed.

Lemma config_ok_perm c c' : c ≡ₚ c' → config_ok c → config_ok c'.
Proof.
  intros Hp [Hok Hnd Hlen (server & Hin & Hv)]. split.
  - by rewrite <-Hp.
  - unfold ids. by rewrite <-Hp.
  - by rewrite <-Hp.
  - exists server. by rewrite <-Hp.
Qed.

Lemma server_by_id c id server : config_ok c →
  by_id c !! id = Some server ↔ server ∈ c ∧ ServerID server = id.
Proof.
  intros [_ Hnd _ _]. unfold by_id. rewrite <-elem_of_list_to_map.
  - rewrite list_elem_of_fmap. split; [intros (s & [= -> ->] & ?); by split|intros [? <-]; by eexists].
  - rewrite <-list_fmap_compose. exact Hnd.
Qed.

Lemma by_id_dom c : config_ok c → dom (by_id c) = list_to_set (ids c).
Proof.
  intros Hok. apply set_eq. intros id. rewrite elem_of_dom, elem_of_list_to_set. unfold ids.
  rewrite list_elem_of_fmap. split.
  - intros (server & Hs). apply server_by_id in Hs as [? <-]; [|done]. by exists server.
  - intros (server & -> & Hin). exists server. by apply server_by_id.
Qed.

Lemma by_id_perm c c' : c ≡ₚ c' → config_ok c → by_id c' = by_id c.
Proof.
  intros Hp Hok. apply map_eq. intros id. apply option_eq. intros server.
  rewrite !server_by_id; [by rewrite Hp|done|by eapply config_ok_perm].
Qed.

Lemma configurationServer_by_id c id : config_ok c → configurationServer c id = by_id c !! id.
Proof.
  intros Hok. unfold configurationServer. destruct (list_find _ c) as [[i server]|] eqn:Hf; cbn.
  - apply list_find_Some in Hf as (Hl & Hid & _). symmetry. apply server_by_id; [done|].
    split; [by eapply list_elem_of_lookup_2|done].
  - apply list_find_None in Hf. symmetry. apply eq_None_not_Some. intros (server & Hs).
    apply server_by_id in Hs as [Hin Hid]; [|done]. rewrite Forall_forall in Hf. by apply (Hf server).
Qed.

Lemma suffrage_is_true suffrage server :
  suffrage_is suffrage server = true ↔ ∃ s, server = Some s ∧ Suffrage_ s = suffrage.
Proof.
  destruct server as [s|]; cbn; [|split; [done|by intros (? & ? & _)]].
  rewrite bool_decide_eq_true. split; [by eexists|by intros (? & [= <-] & ?)].
Qed.

Lemma voters_of_elem suffrage c id : config_ok c →
  id ∈ voters_of suffrage c ↔ suffrage_is suffrage (by_id c !! id) = true.
Proof.
  intros Hok. unfold voters_of. rewrite sort_Strings_perm, list_elem_of_fmap, suffrage_is_true. split.
  - intros (server & -> & [Hs Hin]%list_elem_of_filter). exists server. split; [|done]. by apply server_by_id.
  - intros (server & [Hin <-]%server_by_id & Hs); [|done]. exists server. split; [done|].
    by apply list_elem_of_filter.
Qed.

Lemma voters_of_NoDup suffrage c : config_ok c → NoDup (voters_of suffrage c).
Proof.
  intros [_ Hnd _ _]. unfold voters_of. rewrite sort_Strings_perm. unfold ids in Hnd.
  eapply sublist_NoDup; [exact Hnd|]. apply fmap_sublist, sublist_filter.
Qed.

(** ** The input of the planner *)

Definition target_ids (input : Input) : list string := VoterSet.voterDeviceIDs (target input).
Definition configured (input : Input) : gmap string Server := by_id (Servers (configuration input)).
Definition activated (input : Input) : bool :=
  (CredentialAuthority.VoterSetVersion (authority input) =?
     VoterSet.VoterSetVersion (target input))%N.
Definition active (input : Input) (id : string) : Prop :=
  memberStatus input !! id = Some Device.StatusActive.

(** The state of a checked input. *)
Definition state_of (input : Input) : State :=
  mkState (Index (configuration input)) (target_ids input) (configured input) (activated input).

Record input_ok (input : Input) : Prop := {
  io_target : VoterSet.Validate (target input) = None;
  io_authority : CredentialAuthority.is_valid (authority input) = true ∧
    CredentialAuthority.SessionID (authority input) = VoterSet.SessionID (target input) ∧
    (CredentialAuthority.VoterSetVersion (authority input) ≤
       VoterSet.VoterSetVersion (target input))%N;
  io_same : activated input = true →
    CredentialAuthority.VoterDeviceIDs (authority input) = target_ids input;
  io_index : (1 ≤ Index (configuration input))%N ∧
    Domain.ValidUnsignedInteger (Index (configuration input)) = true;
  io_config : config_ok (Servers (configuration input));
  io_leader : Domain.DeviceID_Valid (localLeaderID input) = true ∧
    suffrage_is Voter (configured input !! localLeaderID input) = true;
  io_statuses : map_Forall (λ id status,
    Domain.DeviceID_Valid id = true ∧ Device.Status_Valid status = true) (memberStatus input);
  io_members : ∀ id, is_Some (configured input !! id) → is_Some (memberStatus input !! id);
  io_active : ∀ id, id ∈ target_ids input → active input id;
  io_authority_members : ∀ id, id ∈ CredentialAuthority.VoterDeviceIDs (authority input) →
    is_Some (memberStatus input !! id);
  io_leader_status : active input (localLeaderID input) ∨ revokedOutgoingLeader input = true;
  io_leader_reachable : revokedOutgoingLeader input = true ∨ localLeaderID input ∈ reachable input;
  io_reachable : ∀ id, id ∈ reachable input →
    Domain.DeviceID_Valid id = true ∧ is_Some (memberStatus input !! id);
  io_eligible : ∀ id, id ∈ eligible input →
    Domain.DeviceID_Valid id = true ∧ VoterSet.Contains (target input) id = true ∧ active input id ∧
    (suffrage_is Voter (configured input !! id) = true ∨
     suffrage_is Nonvoter (configured input !! id) = true);
  io_voters : activated input = true →
    ∀ id, id ∈ target_ids input → suffrage_is Voter (configured input !! id) = true }.

Lemma forallb_elem {A} (f : A → bool) l : forallb f l = true ↔ ∀ x, x ∈ l → f x = true.
Proof. rewrite forallb_forall. setoid_rewrite list_elem_of_In. done. Qed.

Lemma leader_voter (c : Configuration) id : config_ok c →
  existsb (λ server, (ServerID server == id) && (Suffrage_ server == Voter)) c = true ↔
  suffrage_is Voter (by_id c !! id) = true.
Proof.
  intros Hok. rewrite existsb_exists, suffrage_is_true. setoid_rewrite <-list_elem_of_In. split.
  - intros (server & Hin & Hb). bools. destruct Hb as [Hid Hs]. exists server. split; [|done].
    by apply server_by_id.
  - intros (server & [Hin <-]%server_by_id & Hs); [|done]. exists server. bools. by split.
Qed.

Lemma validate_input_iff input state :
  validateVoterReconciliationInput input = inr state ↔ input_ok input ∧ state = state_of input.
Proof.
  unfold validateVoterReconciliationInput. rewrite !throw_inr. fold (activated input) (target_ids input).
  unfold containsDevice. fold (configured input).
  split.
  - intros (Ht & Ha & Hs & Hc & Hl & Hst & Hm & Hta & Ham & Hls & Hlr & Hr & He & Hv & [= <-]).
    split; [|done]. unfold sameDeviceIDs in Hs. bools. rewrite forallb_elem in Hta, Ham, Hv.
    destruct Ha as [[Ha1 Ha2] Ha3], Hc as [[Hc1 Hc2] Hc3], Hl as [Hl1 Hl2].
    apply eq_None_not_Some, validate_ok in Hc3. split; try done; try (by split_and!).
    + by apply VoterSet.is_valid_None.
    + intros Hx. destruct Hs; congruence.
    + split; [done|]. by apply leader_voter.
    + intros id [server Hid]. by apply (Hm id server).
    + intros id Hin. specialize (Hta id Hin). by bools.
    + intros id Hin. specialize (Ham id Hin). by bools.
    + intros id Hin. destruct (He id Hin) as (? & ? & ? & Hsu). by apply orb_true_iff in Hsu.
    + intros Hx. destruct Hv as [?|Hv]; [congruence|exact Hv].
  - intros [[Ht (Ha1 & Ha2 & Ha3) Hs Hc Hok Hl Hst Hm Hta Ham Hls Hlr Hr He Hv] ->].
    apply VoterSet.is_valid_None in Ht. unfold sameDeviceIDs.
    split_and!; bools; try done; try (by split_and!).
    + destruct (activated input); [right; by apply Hs|by left].
    + split_and!; [apply Hc..|]. by apply eq_None_not_Some, validate_ok.
    + split; [apply Hl|]. apply leader_voter; [done|apply Hl].
    + intros id server Hid. apply Hm. by exists server.
    + apply forallb_elem. intros id Hin. bools. by apply Hta.
    + apply forallb_elem. intros id Hin. bools. by apply Ham.
    + intros id Hin. rewrite orb_true_iff. by apply He.
    + destruct (activated input); [right; apply forallb_elem, Hv; done|by left].
Qed.

(** ** What each plan implies *)

Definition target_voters (input : Input) : Prop :=
  ∀ id, id ∈ target_ids input → suffrage_is Voter (configured input !! id) = true.
Definition extra (suffrage : Suffrage) (input : Input) (id : string) : Prop :=
  id ∉ target_ids input ∧ suffrage_is suffrage (configured input !! id) = true.

(** The first target nonvoter that is reachable. *)
Definition first_reachable (input : Input) (id : string) : Prop :=
  ∃ i, list_find (λ x, suffrage_is Nonvoter (configured input !! x) = true ∧ x ∈ reachable input)
         (target_ids input) = Some (i, id).

Inductive planned (input : Input) : Plan → Prop :=
  | planned_add id :
      id ∈ target_ids input → configured input !! id = None →
      planned input (action (state_of input) AddNonvoter id)
  | planned_nonvoter id :
      (∀ other, other ∈ target_ids input → is_Some (configured input !! other)) →
      id ∈ target_ids input → suffrage_is Nonvoter (configured input !! id) = true →
      id ∈ reachable input → first_reachable input id →
      planned input (action (state_of input)
        (if containsDevice (eligible input) id then PromoteVoter else ProveNonvoter) id)
  | planned_unavailable id :
      id ∈ target_ids input → suffrage_is Nonvoter (configured input !! id) = true →
      id ∉ reachable input → planned input (stalled (state_of input) TargetUnavailable id)
  | planned_transfer id :
      target_voters input → localLeaderID input ∉ target_ids input →
      id ∈ target_ids input → id ∈ reachable input → id ∈ eligible input →
      planned input (action (state_of input) TransferLeadership id)
  | planned_no_transfer :
      target_voters input → localLeaderID input ∉ target_ids input →
      (∀ id, id ∈ target_ids input → ¬ (id ∈ reachable input ∧ id ∈ eligible input)) →
      planned input (stalled (state_of input) NoTransferTarget EmptyString)
  | planned_activate :
      target_voters input → activated input = false →
      planned input (action (state_of input) ActivateAuthority EmptyString)
  | planned_remove_voter id :
      target_voters input → localLeaderID input ∈ target_ids input → activated input = true → extra Voter input id → id ≠ localLeaderID input →
      postRemovalHasReachableActiveQuorum (state_of input) input id = true →
      planned input (action (state_of input) RemoveVoter id)
  | planned_no_removable :
      target_voters input → localLeaderID input ∈ target_ids input → activated input = true →
      (∃ id, extra Voter input id) →
      (∀ id, extra Voter input id → id ≠ localLeaderID input →
         postRemovalHasReachableActiveQuorum (state_of input) input id = false) →
      planned input (stalled (state_of input) NoRemovableVoter EmptyString)
  | planned_remove_nonvoter id :
      target_voters input → localLeaderID input ∈ target_ids input → activated input = true → (∀ id, ¬ extra Voter input id) →
      extra Nonvoter input id → planned input (action (state_of input) RemoveNonvoter id)
  | planned_stable :
      target_voters input → localLeaderID input ∈ target_ids input → activated input = true → (∀ id, ¬ extra Voter input id) →
      (∀ id, ¬ extra Nonvoter input id) → planned input (action (state_of input) Stable EmptyString).

Lemma plan_of_ok input : input_ok input →
  planVoterReconciliation input = planValid input (state_of input).
Proof.
  intros Hok. unfold planVoterReconciliation.
  by rewrite (proj2 (validate_input_iff input (state_of input)) (conj Hok eq_refl)).
Qed.

Lemma list_find_None_elem {A} (P : A → Prop) `{∀ x, Decision (P x)} l x :
  list_find P l = None → x ∈ l → ¬ P x.
Proof. intros Hf Hin. apply list_find_None in Hf. rewrite Forall_forall in Hf. by apply Hf. Qed.

Lemma list_find_elem {A} (P : A → Prop) `{∀ x, Decision (P x)} l i x :
  list_find P l = Some (i, x) → x ∈ l ∧ P x.
Proof. intros (Hl & ? & _)%list_find_Some. split; [by eapply list_elem_of_lookup_2|done]. Qed.

Lemma planNonvoters_inl input state ids unavailable plan :
  planNonvoters input state ids unavailable = inl plan →
  ∃ id i, list_find (λ x, suffrage_is Nonvoter (servers state !! x) = true ∧ x ∈ reachable input) ids =
      Some (i, id) ∧
    plan = action state (if containsDevice (eligible input) id then PromoteVoter else ProveNonvoter) id.
Proof.
  revert unavailable. induction ids as [|x r IH]; intros unavailable; cbn [planNonvoters]; [done|].
  unfold containsDevice at 1. intros Hp.
  destruct (decide (suffrage_is Nonvoter (servers state !! x) = true ∧ x ∈ reachable input)) as [[Hs Hr]|Hno].
  - rewrite Hs, bool_decide_eq_true_2 in Hp by done. injection Hp as <-. exists x, 0%nat.
    split; [|done]. cbn. by rewrite decide_True.
  - assert (Hrest : ∃ u, planNonvoters input state r u = inl plan).
    { destruct (suffrage_is Nonvoter (servers state !! x)) eqn:Hs; cbn [negb] in Hp; [|by exists unavailable].
      destruct (decide (x ∈ reachable input)) as [Hr|Hr]; [destruct Hno; split; [reflexivity|exact Hr]|].
      rewrite bool_decide_eq_false_2 in Hp by done. eexists. exact Hp. }
    destruct Hrest as [u (id & i & Hf & ->)%IH]. exists id, (S i). split; [|done].
    cbn. by rewrite decide_False, Hf.
Qed.

Lemma planNonvoters_inr input state ids unavailable found :
  planNonvoters input state ids unavailable = inr found →
  match found with
  | None => unavailable = None ∧ ∀ id, id ∈ ids → suffrage_is Nonvoter (servers state !! id) = false
  | Some id => unavailable = Some id ∨
      id ∈ ids ∧ suffrage_is Nonvoter (servers state !! id) = true ∧ id ∉ reachable input
  end.
Proof.
  revert unavailable. induction ids as [|x r IH]; intros unavailable; cbn [planNonvoters].
  { intros [= <-]. destruct unavailable; [by left|]. split; [done|]. by intros id ?%elem_of_nil. }
  destruct (suffrage_is Nonvoter (servers state !! x)) eqn:Hs; cbn [negb].
  - unfold containsDevice at 1. destruct (bool_decide (x ∈ reachable input)) eqn:Hr; cbn [negb]; [done|].
    intros Hf%IH. bools. destruct found as [id|].
    + destruct Hf as [Hf|(Hin & ?)]; [|right; split; [by right|done]].
      destruct unavailable; [by left|]. injection Hf as <-. right. split_and!; [by left|done..].
    + destruct Hf as [Hf _]. by destruct unavailable.
  - intros Hf%IH. destruct found as [id|].
    + destruct Hf as [?|(? & ?)]; [by left|right; split; [by right|done]].
    + destruct Hf as [-> Hall]. split; [done|]. intros id [->|?]%elem_of_cons; [done|by apply Hall].
Qed.

Lemma extra_elem input suffrage id : input_ok input →
  id ∈ extraServers (state_of input) (target input) suffrage ↔ extra suffrage input id.
Proof.
  intros Hok. unfold extraServers, extra. rewrite list_elem_of_fmap, suffrage_is_true.
  unfold target_ids. rewrite <-(VoterSet.Contains_elem _ _ (io_target _ Hok)), not_true_iff_false.
  split.
  - intros ([k server] & -> & [[Hs Hc] Hin]%list_elem_of_filter). apply elem_of_map_to_list in Hin.
    split; [done|]. by exists server.
  - intros [Hc (server & Hin & Hs)]. exists (id, server). split; [done|].
    apply list_elem_of_filter. split; [done|]. by apply elem_of_map_to_list.
Qed.

(** The first [list_find] of the goal. *)
Ltac find_case x Hf :=
  match goal with |- context [list_find ?P ?l] =>
    let i := fresh "i" in destruct (list_find P l) as [[i x]|] eqn:Hf end.

Lemma plan_inv input : input_ok input → planned input (planVoterReconciliation input).
Proof.
  intros Hok. rewrite plan_of_ok by done. unfold planValid. cbn [servers targetIDs state_of].
  find_case found Hmissing.
  { apply list_find_elem in Hmissing as [? ?]. by constructor. }
  destruct (planNonvoters _ _ _ _) as [plan|[id|]] eqn:Hn.
  - apply planNonvoters_inl in Hn as (id & i & Hf & ->). pose proof (list_find_elem _ _ _ _ Hf) as (? & ? & ?).
    constructor; [|done..|by exists i]. intros other Hin. apply not_eq_None_Some.
    exact (list_find_None_elem _ _ _ Hmissing Hin).
  - apply planNonvoters_inr in Hn as [?|(? & ? & ?)]; [done|]. by constructor.
  - apply planNonvoters_inr in Hn as [_ Hno].
    assert (Hall : target_voters input).
    { intros id Hin. pose proof (list_find_None_elem _ _ _ Hmissing Hin) as Hc. cbn beta in Hc.
      pose proof (Hno id Hin) as Hnv. cbn [servers state_of] in Hnv.
      destruct (configured input !! id) as [server|] eqn:Hid; [|by destruct Hc].
      cbn in Hnv |- *. bools. unfold configured in Hid. apply server_by_id in Hid as [Hs _]; [|apply Hok].
      pose proof (co_servers _ (io_config _ Hok)) as Hsv. rewrite Forall_forall in Hsv.
      destruct (Hsv _ Hs) as (_ & _ & Ho). by destruct (Suffrage_ server). }
    assert (Hcontains : ∀ id, VoterSet.Contains (target input) id = false ↔ id ∉ target_ids input).
    { intros id. unfold target_ids. rewrite <-(VoterSet.Contains_elem _ _ (io_target _ Hok)).
      by rewrite not_true_iff_false. }
    destruct (negb _ && _) eqn:Hout.
    + apply andb_true_iff in Hout as [Hout%negb_true_iff%Hcontains _].
      find_case found Hf.
      * apply list_find_elem in Hf as [? [? ?]%Is_true_true%andb_true_iff].
        unfold containsDevice in *. bools. by constructor.
      * constructor; [done..|]. intros id Hin Hboth. apply (list_find_None_elem _ _ _ Hf Hin).
        apply Is_true_true. unfold containsDevice. by bools.
    + cbn [authorityActivated state_of] in *. destruct (activated input) eqn:Ha; cbn [negb]; [|by constructor].
      rewrite orb_true_r, andb_true_r in Hout. apply negb_false_iff, VoterSet.Contains_elem in Hout; [|apply Hok].
      unfold planRemovals. pose proof (extra_elem input) as Hex.
      assert (Hsort : ∀ id, id ∈ merge_sort (removal_le input)
                (extraServers (state_of input) (target input) Voter) ↔ extra Voter input id).
      { intros id. rewrite merge_sort_Permutation. by apply Hex. }
      find_case found Hf.
      * apply list_find_elem in Hf as [Hin%Hsort [? ?]%Is_true_true%andb_true_iff]. bools. by constructor.
      * destruct (merge_sort (removal_le input) (extraServers (state_of input) (target input) Voter))
          as [|first others] eqn:Hm.
        -- rewrite bool_decide_eq_true_2 by done. cbn [negb].
           assert (Hnone : ∀ id, ¬ extra Voter input id) by (intros id Hid%Hsort; by apply elem_of_nil in Hid).
           destruct (sort_Strings _) as [|id l] eqn:Hnv.
           ++ constructor; try done. intros id Hid%Hex; [|done]. rewrite <-sort_Strings_perm, Hnv in Hid.
              by apply elem_of_nil in Hid.
           ++ constructor; try done. apply Hex; [done|]. rewrite <-sort_Strings_perm, Hnv. left.
        -- rewrite bool_decide_eq_false_2 by done. constructor; try done.
           ++ exists first. apply Hsort. left.
           ++ intros id Hid%Hsort Hl. pose proof (list_find_None_elem _ _ _ Hf Hid) as Hno'.
              cbn beta in Hno'. apply not_true_is_false. intros Hq. apply Hno'. apply Is_true_true. by bools.
Qed.

(** ** Readiness *)

(** More than half of [all], each once. *)
Definition quorum (all some : list string) : Prop :=
  NoDup some ∧ some ⊆ all ∧ length all < 2 * length some.

(** Voters after a change. *)
Definition voters_after (change : raftConfigurationChange) (voters : list string) : list string :=
  match kind change with
  | raftChangeAddVoter => changeDeviceID change :: voters
  | raftChangeAddNonvoter => voters
  | raftChangeDemoteVoter | raftChangeRemoveServer => filter (λ id, id ≠ changeDeviceID change) voters
  end.

Lemma BinarySearch_at l x i : BinarySearch l x = (i, true) → l !! i = Some x.
Proof.
  revert i. induction l as [|y r IH]; intros i; simpl; [done|].
  destruct (String.ltb y x).
  - destruct (BinarySearch r x) as [j found]. intros [= <- ->]. by apply IH.
  - intros [= <- Hd]. apply bool_decide_eq_true in Hd. by subst.
Qed.

Lemma addSorted_perm l x : StronglySorted str_lt l → x ∉ l → addSortedDeviceID l x ≡ₚ x :: l.
Proof.
  intros Hs Hx. unfold addSortedDeviceID. pose proof (BinarySearch_found l x Hs) as Hf.
  destruct (BinarySearch l x) as [i []]; cbn in Hf; [by destruct Hx; apply Hf|].
  rewrite <-Permutation_middle. by rewrite take_drop.
Qed.

Lemma filter_ne (l : list string) x : x ∉ l → filter (λ id, id ≠ x) l = l.
Proof.
  induction l as [|y r IH]; [done|]. intros [Hy Hr]%not_elem_of_cons.
  rewrite filter_cons_True by (intros ->; done). by rewrite IH.
Qed.

Lemma removeSorted_perm l x : StronglySorted str_lt l →
  removeSortedDeviceID l x ≡ₚ filter (λ id, id ≠ x) l.
Proof.
  intros Hs. unfold removeSortedDeviceID. pose proof (BinarySearch_found l x Hs) as Hf.
  pose proof (sorted_lt_NoDup _ Hs) as Hnd.
  destruct (BinarySearch l x) as [i []] eqn:Hb; cbn in Hf.
  - apply BinarySearch_at in Hb. pose proof (take_drop_middle _ _ _ Hb) as Hmid.
    rewrite <-Hmid in Hnd. rewrite <-Hmid at 3. rewrite filter_app, filter_cons_False by (intros Hne; by apply Hne).
    apply NoDup_app in Hnd as (Hnd1 & Hdisj & Hnd2). apply NoDup_cons in Hnd2 as [Hx _].
    rewrite !filter_ne; [done|done|]. intros Hin. by apply (Hdisj x Hin); left.
  - rewrite filter_ne; [done|]. intros Hin. by apply Hf in Hin.
Qed.

Lemma sortedUnique_sorted l : sortedUniqueDeviceIDs l = true → StronglySorted str_lt l.
Proof.
  unfold sortedUniqueDeviceIDs. intros Hs%bool_decide_eq_true%scan_sorted_None.
  destruct Hs as [_ Hs]. by rewrite list_fmap_id in Hs.
Qed.

(** What a passed requirement gives. *)
Lemma requirement_inv requirement : Requirement_validate requirement = None →
  StronglySorted str_lt (LiveVoterDeviceIDs requirement) ∧
  StronglySorted str_lt (PostChangeVoterDeviceIDs requirement) ∧
  RequiredPostChangeQuorum requirement = (llen (PostChangeVoterDeviceIDs requirement) / 2 + 1)%N.
Proof.
  unfold Requirement_validate. intros Hr. chain_inv Hr.
  destruct (VoterSet.New _ _ _); [done|]. chain_inv Hr. clear Hc Hc2. bools.
  split_and!; [apply sortedUnique_sorted; tauto..|done].
Qed.

Lemma candidate_quorum requirement candidate :
  validateConfigurationReadinessCandidate requirement candidate = None →
  ∃ ready, quorum (PostChangeVoterDeviceIDs requirement) ready ∧
    ∀ id, id ∈ ready → id ∈ readyConfigurationDevices candidate ∧ id ∈ ActiveDeviceIDs requirement.
Proof.
  unfold validateConfigurationReadinessCandidate. intros Hv. apply refuse_None in Hv as [Hreq Hv].
  apply refuse_None in Hv as [Hreach Hv]. apply refuse_None in Hv as [_ Hv].
  apply refuse_None in Hv as [Hq _].
  assert (Hr : Requirement_validate requirement = None).
  { apply eq_None_not_Some. intros Hs. rewrite bool_decide_eq_true_2 in Hreq by done. done. }
  destruct (requirement_inv _ Hr) as (_ & Hsorted & Hneed). rewrite Hneed in Hq.
  match type of Hq with (llen ?r <? _)%N = _ => exists r end. split; [split_and!|].
  - apply NoDup_filter, sorted_lt_NoDup. exact Hsorted.
  - intros id Hin. apply list_elem_of_filter in Hin as [_ ?]. done.
  - apply N.ltb_ge in Hq. unfold llen in *.
    pose proof (N.div_mod' (N.of_nat (length (PostChangeVoterDeviceIDs requirement))) 2).
    pose proof (N.mod_lt (N.of_nat (length (PostChangeVoterDeviceIDs requirement))) 2 ltac:(done)). lia.
  - intros id [[H1 H2] _]%list_elem_of_filter. unfold readyConfigurationDevices. split; [set_solver|].
    apply orb_false_iff in Hreach as [_ Ha%negb_decide_false]. unfold deviceIDSet in Ha. set_solver.
Qed.

Lemma activeConfigured_inv state voters nonvoters result id :
  activeConfiguredDeviceIDs state voters nonvoters = Some result → id ∈ result →
  Device.DeviceStatus <$> PeerAdmission.Member (StateDecode.Admission state) id = Some Device.StatusActive.
Proof.
  unfold activeConfiguredDeviceIDs. intros (members & _ & [= <-])%bind_Some Hin.
  by apply list_elem_of_filter in Hin as [? _].
Qed.

(** The requirement of a change at a cut. *)
Lemma change_requirement_inv state committed change requirement :
  configurationReadinessRequirement state committed change = inr requirement →
  LiveVoterDeviceIDs requirement = voters_of Voter (Servers committed) ∧
  Requirement_validate requirement = None ∧
  (kind change = raftChangeAddVoter → changeDeviceID change ∉ LiveVoterDeviceIDs requirement →
   PostChangeVoterDeviceIDs requirement ≡ₚ voters_after change (LiveVoterDeviceIDs requirement)) ∧
  (kind change ≠ raftChangeAddVoter →
   PostChangeVoterDeviceIDs requirement ≡ₚ voters_after change (LiveVoterDeviceIDs requirement)) ∧
  ∀ id, id ∈ ActiveDeviceIDs requirement →
    Device.DeviceStatus <$> PeerAdmission.Member (StateDecode.Admission state) id = Some Device.StatusActive.
Proof.
  unfold configurationReadinessRequirement. intros Hr. apply throw_inr in Hr as [_ Hr].
  destruct (activeConfiguredDeviceIDs _ _ _) as [actives|] eqn:Ha; [|done].
  apply throw_inr in Hr as [_ Hr]. apply throw_inr in Hr as [Hv Hr]. injection Hr as <-.
  apply bool_decide_eq_false, eq_None_not_Some in Hv.
  cbn [LiveVoterDeviceIDs PostChangeVoterDeviceIDs ActiveDeviceIDs requirementOf] in *.
  destruct (requirement_inv _ Hv) as (Hs & _ & _). cbn [LiveVoterDeviceIDs requirementOf] in Hs.
  split_and!; [done|done| | |].
  - intros Hk Hnot. unfold voters_after. rewrite Hk. by apply addSorted_perm.
  - intros Hk. unfold voters_after. destruct (kind change); [done|done|by apply removeSorted_perm..].
  - intros id. by apply (activeConfigured_inv _ _ _ _ _ Ha).
Qed.

Lemma length_without (l : list string) x : NoDup l →
  length (filter (λ id, id ≠ x) l) ≤ length l ≤ S (length (filter (λ id, id ≠ x) l)).
Proof.
  intros Hnd. split; [apply length_filter|].
  change (length l ≤ length (x :: filter (λ id, id ≠ x) l)). apply submseteq_length, NoDup_submseteq; [done|].
  intros y Hy. destruct (decide (y = x)) as [->|Hne]; [left|right]. by apply list_elem_of_filter.
Qed.

(** Two majorities of voter lists that differ by one voter share a voter. *)
Lemma quorums_meet voters change before after :
  NoDup voters → (kind change = raftChangeAddVoter → changeDeviceID change ∉ voters) →
  quorum voters before → quorum (voters_after change voters) after →
  ∃ id, id ∈ before ∧ id ∈ after.
Proof.
  intros Hnd Hnew (Hb & Hbs & Hbl) (Ha & Has & Hal).
  destruct (decide (Exists (λ id, id ∈ after) before)) as [He|Hne].
  { apply Exists_exists in He as (id & ? & ?). by exists id. }
  exfalso. assert (Hdisj : NoDup (before ++ after)).
  { apply NoDup_app. split_and!; [done| |done]. intros id Hin Hin'. apply Hne, Exists_exists. by exists id. }
  assert (Hbound : ∀ whole, NoDup whole → before ++ after ⊆ whole → length before + length after ≤ length whole).
  { intros whole Hw Hsub. rewrite <-length_app. by apply submseteq_length, NoDup_submseteq. }
  unfold voters_after in *. destruct (kind change) eqn:Hk.
  - specialize (Hbound (changeDeviceID change :: voters)). rewrite length_cons in *.
    enough (length before + length after ≤ S (length voters)) by lia. apply Hbound.
    + constructor; [by apply Hnew|done].
    + set_solver.
  - enough (length before + length after ≤ length voters) by lia. apply Hbound; set_solver.
  - pose proof (length_without voters (changeDeviceID change) Hnd).
    enough (length before + length after ≤ length voters) by lia. apply Hbound; [done|].
    intros id [Hin|Hin]%elem_of_app; [by apply Hbs|]. apply Has, list_elem_of_filter in Hin. by destruct Hin.
  - pose proof (length_without voters (changeDeviceID change) Hnd).
    enough (length before + length after ≤ length voters) by lia. apply Hbound; [done|].
    intros id [Hin|Hin]%elem_of_app; [by apply Hbs|]. apply Has, list_elem_of_filter in Hin. by destruct Hin.
Qed.

End ReconciliationProofs.

(** ** Attempts *)

Module AttemptProofs.

Import Topology Readiness Reconciliation ReconciliationProofs.

Section Lib.
Context `{NormLib, JCSLib, CryptoLib}.

Lemma plannerInput_inv state committed leader ready eligible input :
  voterReconciliationPlannerInput state committed leader ready eligible = inr input →
  input_ok input ∧
  input = mkInput (StateDecode.VoterSet_ state) (StateDecode.CredentialAuthority_ state) committed leader
            (memberStatuses state committed) ready eligible.
Proof.
  unfold voterReconciliationPlannerInput. destruct (validateVoterReconciliationInput _) as [|st] eqn:Hv; [done|].
  intros [= <-]. by apply validate_input_iff in Hv as [? _].
Qed.

(** The provider collected the candidate for this requirement and still stands by
    it. *)
Definition answered (attempt : Attempt) (required : Requirement) (candidate : Candidate) : Prop :=
  ∃ provider, readinessGate attempt = Some provider ∧
    CollectConfigurationReadiness provider required = inr candidate ∧
    VerifyCurrentConfigurationReadiness provider required candidate = None.

Lemma verified_answer attempt ended required current readiness :
  collect (readinessGate attempt) ended required = inr readiness →
  verifyCurrent (readinessGate attempt) current readiness = None →
  validateConfigurationReadinessCandidate current (candidate_ readiness) = None ∧
  answered attempt current (candidate_ readiness).
Proof.
  unfold collect, verifyCurrent, answered. intros Hc Hv.
  apply throw_inr in Hc as [_ Hc]. apply throw_inr in Hc as [_ Hc].
  destruct (readinessGate attempt) as [provider|]; [|done].
  apply and_then_inr in Hc as (candidate & Hc & Hok). apply ensure_inr in Hok as [_ [= <-]].
  apply refuse_None in Hv as [Hsame Hv]. apply check_None in Hv as [_ Hv]. apply check_None in Hv as [Hcur Hv].
  apply orb_false_iff in Hsame as [_ Hsame%negb_false_iff]. unfold Requirement_same in Hsame.
  apply bool_decide_eq_true in Hsame as ->. split; [exact Hv|]. by exists provider.
Qed.

(** What the attempt has established when it reaches the library. *)
Record established (attempt : Attempt) (serverID : string) (plan : Plan) (eligibility : EligibilitySet)
    (validate : Cut → option Error) (requirement : Cut → Error + Requirement) (current : Cut) : Prop := {
  es_cut : currentCut attempt = inr current;
  es_valid : validate current = None;
  es_index : ∃ baseline, baselineCut attempt = inr baseline ∧
    Index (cutConfiguration baseline) = configurationIndex plan;
  es_ready : ∃ required readiness, requirement current = inr required ∧
    validateConfigurationReadinessCandidate required readiness = None ∧
    answered attempt required readiness ∧
    ∃ input, voterReconciliationPlannerInput (cutState current) (cutConfiguration current) serverID
      (readyConfigurationDevices readiness)
      (plannerSet eligibility (cutState current) (cutConfiguration current)) = inr input ∧
      planVoterReconciliation input = plan;
  es_coverage : ∃ candidate, Coverage.VerifyCurrent (coverageGate attempt) (cutCoverage current) candidate = None;
  es_term : ∃ term, epochs attempt 0 = inr term ∧ epochs attempt 1 = inr term ∧
    epochs attempt 2 = inr term ∧ epochs attempt 3 = inr term }.

Lemma leadership_inv attempt term reading :
  requireLeadership attempt term reading = None → epochs attempt reading = inr term.
Proof.
  unfold requireLeadership. destruct (epochs attempt reading) as [|current]; [done|].
  intros [Ht _]%refuse_None. f_equal. by bools.
Qed.

Lemma prepareAttempt_inv attempt serverID plan eligibility validate requirement current :
  prepareAttempt attempt serverID plan eligibility validate requirement = inr current →
  established attempt serverID plan eligibility validate requirement current.
Proof.
  unfold prepareAttempt. intros Ha. sum_inv Ha. injection Ha as ->.
  repeat match goal with Hl : requireLeadership _ _ _ = None |- _ => apply leadership_inv in Hl end.
  split; try done.
  - eexists. split; [done|]. by bools.
  - match goal with Hc : collect _ _ ?q = inr ?v, Hv : verifyCurrent _ ?r ?v = None |- _ =>
      destruct (verified_answer _ _ _ _ _ Hc Hv) as [Hok Hanswer];
      exists r, (candidate_ v); split; [done|]; split; [exact Hok|]; split; [exact Hanswer|] end.
    match goal with Hp : match reconciliationPlanAtCut (cutState current) _ _ _ _ with _ => _ end = None |- _ =>
      rename Hp into Hplan end.
    unfold reconciliationPlanAtCut in Hplan.
    destruct (voterReconciliationPlannerInput (cutState current) _ _ _ _) as [|input]; [done|].
    exists input. split; [done|]. cbn [and_then] in Hplan. destruct (action_ _ == Invalid); [done|].
    unfold requireExpectedReconciliationPlan in Hplan. apply refuse_None in Hplan as [Hp _]. by bools.
  - eexists. match goal with Hv : verifyCoverage _ _ _ = None |- _ =>
      unfold verifyCoverage in Hv; by apply fmap_None in Hv end.
  - eexists. by split_and!.
Qed.

Lemma cut_config attempt serverID plan eligibility validate requirement current :
  established attempt serverID plan eligibility validate requirement current →
  ∃ input, input_ok input ∧ planned input plan ∧ target input = StateDecode.VoterSet_ (cutState current) ∧
    authority input = StateDecode.CredentialAuthority_ (cutState current) ∧
    configuration input = cutConfiguration current ∧ localLeaderID input = serverID ∧
    eligible input = plannerSet eligibility (cutState current) (cutConfiguration current).
Proof.
  intros [_ _ _ (required & readiness & _ & _ & _ & input & Hi & <-) _ _].
  destruct (plannerInput_inv _ _ _ _ _ _ Hi) as [Hok ->]. eexists. split; [exact Hok|].
  split; [by apply plan_inv|]. done.
Qed.

Lemma plannerSet_elem eligibility state committed id :
  id ∈ plannerSet eligibility state committed →
  ∃ evidence, eligibility !! id = Some evidence ∧ evidenceDeviceID evidence = id ∧
    validFor state committed evidence = true.
Proof.
  unfold plannerSet. intros (evidence & He)%elem_of_dom. apply map_lookup_filter_Some in He as [Hl [Hid Hv]].
  by exists evidence.
Qed.

End Lib.

End AttemptProofs.

(** ** Theorems *)

Module ReconciliationTheorems.

Import Topology Readiness Reconciliation ReconciliationProofs AttemptProofs.

Section Lib.
Context `{NormLib, JCSLib, CryptoLib}.

(** What one change does to the configuration it was made for. *)
Definition change_legal (serverID : string) (eligibility : EligibilitySet) (cut : Cut)
    (change : raftConfigurationChange) : Prop :=
  let state := cutState cut in
  let target := VoterSet.voterDeviceIDs (StateDecode.VoterSet_ state) in
  let server id := by_id (Servers (cutConfiguration cut)) !! id in
  let id := changeDeviceID change in
  match kind change with
  | raftChangeAddNonvoter => id ∈ target ∧ server id = None
  | raftChangeAddVoter =>
      id ∈ target ∧ suffrage_is Nonvoter (server id) = true ∧
      ∃ evidence, eligibility !! id = Some evidence ∧ evidenceDeviceID evidence = id ∧
        validFor state (cutConfiguration cut) evidence = true
  | raftChangeRemoveServer =>
      id ∉ target ∧ id ≠ serverID ∧ is_Some (server id) ∧
      (∀ voter, voter ∈ target → suffrage_is Voter (server voter) = true) ∧
      CredentialAuthority.VoterSetVersion (StateDecode.CredentialAuthority_ state) =
        VoterSet.VoterSetVersion (StateDecode.VoterSet_ state)
  | raftChangeDemoteVoter => False
  end.

Lemma planned_legal serverID eligibility cut plan change input :
  planned input plan → input_ok input → reconciliationConfigurationChange plan = Some change →
  target input = StateDecode.VoterSet_ (cutState cut) →
  authority input = StateDecode.CredentialAuthority_ (cutState cut) →
  configuration input = cutConfiguration cut → localLeaderID input = serverID →
  eligible input = plannerSet eligibility (cutState cut) (cutConfiguration cut) →
  change_legal serverID eligibility cut change.
Proof.
  intros Hp Hok Hc Ht Ha Hconf Hl He. unfold change_legal.
  assert (Hact : activated input = true →
    CredentialAuthority.VoterSetVersion (StateDecode.CredentialAuthority_ (cutState cut)) =
    VoterSet.VoterSetVersion (StateDecode.VoterSet_ (cutState cut))).
  { unfold activated. rewrite Ha, Ht. by intros ?%N.eqb_eq. }
  destruct Hp as [id Hin Hno|id _ Hin Hn Hr _| | | | |id Hv _ Hx [Hex Hsu] Hne _| |id Hv _ Hx _ [Hex Hsu]|];
    unfold target_voters, target_ids, configured in *; rewrite Ht, Hconf in *; cbn in Hc; try discriminate Hc.
  - injection Hc as <-. by cbn.
  - unfold containsDevice in Hc. destruct (bool_decide (id ∈ eligible input)) eqn:Hel; cbn in Hc; [|discriminate Hc].
    injection Hc as <-. cbn. bools. rewrite He in Hel. split_and!; [done..|]. by apply plannerSet_elem.
  - injection Hc as <-. cbn. apply suffrage_is_true in Hsu as (server & Hs & _). split_and!; [done|congruence| |done|by apply Hact].
    by exists server.
  - injection Hc as <-. cbn. pose proof Hsu as (server & Hs & Hsn)%suffrage_is_true. split_and!; [done| | |done|by apply Hact].
    + intros ->. destruct (io_leader _ Hok) as [_ Hleader]. unfold configured in Hleader.
      rewrite Hconf, Hl in Hleader. apply suffrage_is_true in Hleader as (server' & Hs' & Hsv). congruence.
    + by exists server.
Qed.

(** C7: [configuration_change_safe]. A change that the reconciler hands to the
    Raft library is safe at the cut it is bound to: the leader's term has not
    changed since the attempt began; the change adds a missing target device as
    a nonvoter, promotes a target nonvoter with valid evidence, or removes a
    device that is neither a target nor the leader once every target device
    votes and the authority is the target's; more than half of the voters after
    the change are active members that the readiness provider, asked for exactly
    the requirement of this cut and still standing by its answer, listed both as
    reachable and as holding a current credential; more than half of the target
    have signed for the current canonical commit; and every
    majority of the voters before shares a voter with every majority after. *)
Theorem configuration_change_safe attempt serverID plan eligibility change previous :
  prepareConfigurationChange attempt serverID plan eligibility = inr (change, previous) →
  ∃ current, currentCut attempt = inr current ∧
  previous = Index (cutConfiguration current) ∧
  reconciliationConfigurationChange plan = Some change ∧
  (∃ term, epochs attempt 0 = inr term ∧ epochs attempt 3 = inr term) ∧
  change_legal serverID eligibility current change ∧
  let voters := voters_of Voter (Servers (cutConfiguration current)) in
  (∃ required candidate ready,
     configurationReadinessRequirement (cutState current) (cutConfiguration current) change =
       inr required ∧
     answered attempt required candidate ∧
     quorum (voters_after change voters) ready ∧
     ∀ id, id ∈ ready →
       Device.DeviceStatus <$> PeerAdmission.Member (StateDecode.Admission (cutState current)) id =
         Some Device.StatusActive ∧
       id ∈ ReachableDeviceIDs candidate ∧ id ∈ CurrentCredentialDeviceIDs candidate) ∧
  (∃ receipts subject,
     Coverage.Requirement_Subject (Coverage.requirement (cutCoverage current)) = inr subject ∧
     Forall (CoverageProofs.covers (cutCoverage current) subject) receipts ∧
     NoDup (Coverage.voterDeviceID <$> receipts) ∧
     (llen (Coverage.target (Coverage.requirement (cutCoverage current))) < 2 * llen receipts)%N) ∧
  ∀ before after, quorum voters before → quorum (voters_after change voters) after →
    ∃ id, id ∈ before ∧ id ∈ after.
Proof.
  unfold prepareConfigurationChange. destruct (reconciliationConfigurationChange plan) as [planned_change|] eqn:Hplan;
    [|done].
  intros Hp. apply throw_inr in Hp as [_ Hp]. apply and_then_inr in Hp as (current & Hp & [= <- <-]).
  apply prepareAttempt_inv in Hp as Hes. destruct (cut_config _ _ _ _ _ _ _ Hes) as (input & Hok & Hpl & Ht & Ha & Hc & Hl & He).
  destruct Hes as [Hcut _ _ (required & readiness & Hreq & Hcand & Hanswer & _) (candidate & Hcov) (term & Hfirst & _ & _ & Hlast)].
  pose proof (planned_legal serverID eligibility current plan planned_change input Hpl Hok Hplan Ht Ha Hc Hl He) as Hlegal.
  pose proof (io_config _ Hok) as Hconfig. rewrite Hc in Hconfig.
  pose proof (voters_of_NoDup Voter _ Hconfig) as Hnd.
  assert (Hnew : kind planned_change = raftChangeAddVoter →
    changeDeviceID planned_change ∉ voters_of Voter (Servers (cutConfiguration current))).
  { intros Hk Hin. unfold change_legal in Hlegal. rewrite Hk in Hlegal. destruct Hlegal as (_ & Hn & _).
    apply voters_of_elem in Hin; [|done]. apply suffrage_is_true in Hn as (s & Hs & Hsn).
    rewrite Hs in Hin. cbn in Hin. bools. congruence. }
  exists current. split_and!; [done..|by exists term|exact Hlegal| | |].
  - destruct (change_requirement_inv _ _ _ _ Hreq) as (Hlive & _ & Hadd & Hother & Hact). rewrite Hlive in *.
    destruct (candidate_quorum _ _ Hcand) as (ready & (Hr1 & Hr2 & Hr3) & Hr4).
    assert (Hperm : PostChangeVoterDeviceIDs required ≡ₚ
              voters_after planned_change (voters_of Voter (Servers (cutConfiguration current)))).
    { destruct (decide (kind planned_change = raftChangeAddVoter)) as [Hk|Hk]; [by apply Hadd; auto|by apply Hother]. }
    exists required, readiness, ready. split_and!; [exact Hreq|exact Hanswer|unfold quorum; by rewrite <-Hperm|].
    intros id Hin. destruct (Hr4 id Hin) as [Hready Hlisted]. split; [by apply Hact|].
    unfold readyConfigurationDevices, deviceIDSet in Hready. set_solver.
  - unfold Coverage.VerifyCurrent in Hcov. destruct (coverageGate attempt); [|done]. chain_inv Hcov.
    destruct (CoverageProofs.verifyReceipts_inv _ _ Hcov) as (subject & ? & ? & ? & ?).
    by exists (Coverage.receipts candidate), subject.
  - intros before after. by apply quorums_meet.
Qed.

End Lib.

(** ** Witnesses

    The leader is the only target; a second member still votes. *)

Import Fixtures.
#[local] Existing Instances norm crypto jcs.

Definition two_members : gmap string Device.Device :=
  {[device_id := member; other_device := other_member Device.RoleEditor]}.

Definition decoded (target : VoterSet.Set_) (authority : CredentialAuthority.Authority)
    : StateDecode.decodedState :=
  StateDecode.mkDecodedState
    (with_members [member; other_member Device.RoleEditor] target authority []
       (state_with [] [] [] []))
    (PeerAdmission.mkSnapshot session_id 0 5 two_members ∅ authority ∅)
    target authority (Publication.mkCanonicalRef Publication.CanonicalRefName (PublicationProofs.oid "a") 3)
    0 workspace_id (Device.IdentityPublicKey <$> two_members).

Definition voting (id : string) : Server := mkServer Voter id id.

Definition shrinking : Cut :=
  let state := decoded sole_target sole_authority in
  mkCut state
    (default (Coverage.mkSnapshot CoverageProofs.sole_requirement ∅ false)
       (StateDecode.CanonicalCoverageSnapshot state))
    (mkCommitted 7 [voting other_device; voting device_id]).

Definition both_reachable : Provider :=
  mkProvider (λ _, inr (mkCandidate (sort_Strings [device_id; other_device])
                          (sort_Strings [device_id; other_device]) []))
    (λ _ _, None).

(** The answers of an undisturbed attempt at one cut. *)
Definition undisturbed (cut : Cut) : Attempt :=
  mkAttempt (λ _, inr 4%N) (inr cut) (inr cut) (Some both_reachable) (Some CoverageProofs.answer)
    (λ _, None).

Definition removal : Plan := mkPlan RemoveVoter other_device 7 NoReason.

Definition prepared : option (raftConfigurationChange * N) :=
  match prepareConfigurationChange (undisturbed shrinking) device_id removal ∅ with
  | inl _ => None
  | inr result => Some result
  end.

Lemma prepared_holds :
  bool_decide (prepared = Some (mkChange raftChangeRemoveServer other_device, 7%N)) = true.
Proof. vm_compute. done. Qed.

Lemma configuration_change_safe_witness :
  ∃ candidate ready, quorum [device_id] ready ∧
    ∀ id, id ∈ ready →
      Device.DeviceStatus <$> PeerAdmission.Member (StateDecode.Admission (cutState shrinking)) id =
        Some Device.StatusActive ∧
      id ∈ ReachableDeviceIDs candidate ∧ id ∈ CurrentCredentialDeviceIDs candidate.
Proof.
  pose proof (bool_decide_eq_true_1 _ prepared_holds) as Hp. unfold prepared in Hp.
  destruct (prepareConfigurationChange _ _ _ _) as [|result] eqn:Hr; [done|].
  injection Hp as ->.
  destruct (configuration_change_safe _ _ _ _ _ _ Hr)
    as (current & [= <-] & _ & _ & _ & _ & (required & candidate & ready & _ & _ & Hq & Hactive) & _).
  exists candidate, ready. split; [|exact Hactive]. exact Hq.
Defined.

End ReconciliationTheorems.
