(* ===== verification/ReconciliationLiveness.v ===== *)
(** * The reconciliation of the Raft voters converges

    [Module WorldProofs]: what a leader's round reads and keeps, the invariant of
    such worlds, what an executed plan does to them ([act]), and the measure that
    each executed plan lowers. [Module ReconciliationLiveness]: the theorem, a
    handover of the authority and the leadership as its witness, and the plan for
    a configuration without room. *)

From stdpp Require Import base gmap strings list sorting fin_maps fin_sets.
From Stdlib Require Import ZArith NArith Lia.
From S2P Require Import Prelude.
From S2P Require Import GoLib.
From S2P Require Import CodecLayer.
From S2P Require Import DomainValues.
From S2P Require Import VoterSetEntity.
From S2P Require Import DeviceEntity.
From S2P Require Import PolicyEntity.
From S2P Require Import CredentialEntity.
From S2P Require Import PublicationEntity.
From S2P Require Import ReducerState.
From S2P Require Import Fixtures.
From S2P Require Import PublicationProofs.
From S2P Require Import PeerAdmission.
From S2P Require Import LoadProofs.
From S2P Require Import StoreRecords.
From S2P Require Import CanonicalCoverage.
From S2P Require Import StateMapping.
From S2P Require Import VoterReconciliation.
From S2P Require Import ReconciliationProofs.

Module WorldProofs.

Import Topology Readiness Reconciliation ReconciliationProofs AttemptProofs.

Definition without (id : string) (c : list Server) : list Server :=
  filter (λ server, ServerID server ≠ id) c.

(** hashicorp/raft: the configuration after a change, but for its order. *)
Class RaftLib := {
  nextConfiguration : Configuration → raftConfigurationChange → Configuration;
  next_add_nonvoter : ∀ c id, id ∉ ids c →
    nextConfiguration c (mkChange raftChangeAddNonvoter id) ≡ₚ mkServer Nonvoter id id :: c;
  next_add_voter : ∀ c id,
    nextConfiguration c (mkChange raftChangeAddVoter id) ≡ₚ
      mkServer Voter id id :: without id c;
  next_remove : ∀ c id,
    nextConfiguration c (mkChange raftChangeRemoveServer id) ≡ₚ
      without id c }.

(** ** Configurations as maps *)

Lemma filter_id (c : list Server) id : id ∉ ids c → without id c = c.
Proof.
  unfold ids, without. induction c as [|server c IH]; [done|]. rewrite fmap_cons, not_elem_of_cons. intros [Hne Hc].
  rewrite filter_cons_True by congruence. by rewrite IH.
Qed.

Lemma Forall_without P c id : Forall P c → Forall P (without id c).
Proof. rewrite !Forall_forall. intros Hall s [_ Hs]%list_elem_of_filter. by apply Hall. Qed.

Lemma by_id_without c id : by_id (without id c) = delete id (by_id c).
Proof.
  unfold by_id, without. induction c as [|server c IH]; [symmetry; apply delete_empty|].
  destruct (decide (ServerID server = id)) as [He|Hne].
  - rewrite filter_cons_False by (intros Hn; by apply Hn). cbn. subst id. by rewrite delete_insert_eq.
  - rewrite filter_cons_True by done. cbn. rewrite delete_insert_ne by done. by f_equal.
Qed.

Lemma ids_without c id x : x ∈ ids (without id c) ↔ x ∈ ids c ∧ x ≠ id.
Proof.
  unfold ids, without. rewrite !list_elem_of_fmap. split.
  - intros (s & -> & [? ?]%list_elem_of_filter). split; [by exists s|done].
  - intros [(s & -> & ?) ?]. exists s. split; [done|by apply list_elem_of_filter].
Qed.

Definition server_of (suffrage : Suffrage) (id : string) : Server := mkServer suffrage id id.

Lemma upsert_NoDup c suffrage id : NoDup (ids c) → NoDup (ids (server_of suffrage id :: without id c)).
Proof.
  intros Hnd. unfold ids. cbn. constructor.
  - intros Hold%ids_without. naive_solver.
  - eapply sublist_NoDup; [exact Hnd|]. apply fmap_sublist, sublist_filter.
Qed.

Lemma by_id_size c : NoDup (ids c) → size (by_id c) = length c.
Proof.
  intros Hnd. unfold by_id. rewrite map_size_list_to_map; [by rewrite length_fmap|].
  rewrite <-list_fmap_compose. exact Hnd.
Qed.

Lemma upsert_ok c suffrage id :
  config_ok c → Domain.DeviceID_Valid id = true → suffrage ≠ SuffrageOther →
  (suffrage = Nonvoter → id ∉ ids c) →
  (length (without id c) < 8)%nat →
  config_ok (server_of suffrage id :: without id c).
Proof.
  intros [Hok Hnd Hlen (v & Hin & Hv)] Hid Hs Hnew Hroom. split.
  - constructor; [done|]. by apply Forall_without.
  - by apply upsert_NoDup.
  - cbn. lia.
  - destruct suffrage; [|exists v|done].
    + exists (server_of Voter id). split; [left|done].
    + split; [|done]. right. rewrite filter_id by by apply Hnew. done.
Qed.

Lemma without_ok c id : config_ok c →
  (∃ server, server ∈ c ∧ Suffrage_ server = Voter ∧ ServerID server ≠ id) →
  config_ok (without id c).
Proof.
  intros [Hok Hnd Hlen _] (v & Hin & Hv & Hne). split.
  - by apply Forall_without.
  - eapply sublist_NoDup; [exact Hnd|]. apply fmap_sublist, sublist_filter.
  - etrans; [apply length_filter|done].
  - exists v. split; [by apply list_elem_of_filter|done].
Qed.

Lemma in_by_id c id : config_ok c → id ∈ ids c ↔ is_Some (by_id c !! id).
Proof.
  intros Hok. rewrite <-elem_of_dom, by_id_dom by done. by rewrite elem_of_list_to_set.
Qed.

(** ** A running reconciler *)

(** What the leader reads, who leads, and what its loop keeps. *)
Record World := mkWorld {
  worldCut : Cut;
  leader_ : string;
  progress_ : Progress }.

Section Lib.
Context `{NormLib, JCSLib, CryptoLib}.

(** One round of the loop of [reconcileVoterSet]. *)
Definition round (world : World) (gate : Provider) : Error + (Plan * Progress) :=
  let* ready := voterReconciliationCut (leader_ world) (worldCut world) None (Some gate) in
  reconcileRound (leader_ world) (worldCut world) (progress_ world) ready.

Notation st world := (cutState (worldCut world)).
Notation conf world := (cutConfiguration (worldCut world)).

Definition targets (world : World) : list string := VoterSet.voterDeviceIDs (StateDecode.VoterSet_ (st world)).
Definition server (world : World) (id : string) : option Server := by_id (Servers (conf world)) !! id.
Definition status_of (state : StateDecode.decodedState) (id : string) : option Device.Status :=
  Device.DeviceStatus <$> PeerAdmission.Member (StateDecode.Admission state) id.
Definition asked (state : StateDecode.decodedState) (committed : committedRaftConfiguration) : list string :=
  (ServerID <$> Servers committed) ++ VoterSet.voterDeviceIDs (StateDecode.VoterSet_ state) ++
  CredentialAuthority.VoterDeviceIDs (StateDecode.CredentialAuthority_ state).
Definition proven (world : World) : gset string :=
  plannerSet (eligibility_ (refreshEligibility (progress_ world) (worldCut world))) (st world) (conf world).
Definition authorized (world : World) : Prop :=
  CredentialAuthority.VoterSetVersion (StateDecode.CredentialAuthority_ (st world)) =
  VoterSet.VoterSetVersion (StateDecode.VoterSet_ (st world)).
Definition missing (world : World) : gset string :=
  list_to_set (targets world) ∖ dom (by_id (Servers (conf world))).
Definition all_vote (world : World) : Prop :=
  ∀ id, id ∈ targets world → suffrage_is Voter (server world id) = true.

Record world_ok (world : World) : Prop := {
  wo_target : VoterSet.Validate (StateDecode.VoterSet_ (st world)) = None;
  wo_authority : CredentialAuthority.is_valid (StateDecode.CredentialAuthority_ (st world)) = true ∧
    CredentialAuthority.SessionID (StateDecode.CredentialAuthority_ (st world)) =
      VoterSet.SessionID (StateDecode.VoterSet_ (st world)) ∧
    (CredentialAuthority.VoterSetVersion (StateDecode.CredentialAuthority_ (st world)) ≤
       VoterSet.VoterSetVersion (StateDecode.VoterSet_ (st world)))%N;
  wo_same : authorized world →
    CredentialAuthority.VoterDeviceIDs (StateDecode.CredentialAuthority_ (st world)) = targets world;
  wo_index : (1 ≤ Index (conf world))%N ∧ Domain.ValidUnsignedInteger (Index (conf world)) = true;
  wo_config : config_ok (Servers (conf world));
  wo_leader : Domain.DeviceID_Valid (leader_ world) = true ∧
    suffrage_is Voter (server world (leader_ world)) = true;
  wo_members : ∀ id, id ∈ asked (st world) (conf world) →
    Domain.DeviceID_Valid id = true ∧
    ∃ status, status_of (st world) id = Some status ∧ Device.Status_Valid status = true;
  wo_active : ∀ id, id ∈ targets world → status_of (st world) id = Some Device.StatusActive;
  wo_leader_status : status_of (st world) (leader_ world) = Some Device.StatusActive ∨
    status_of (st world) (leader_ world) = Some Device.StatusRevoked ∧ leader_ world ∉ targets world;
  wo_voters : authorized world → all_vote world;
  wo_generation : Domain.ValidUnsignedInteger (StateDecode.recoveryGeneration (st world)) = true;
  wo_room : (size (by_id (Servers (conf world))) + size (missing world) ≤ 8)%nat;
  wo_proven : ∀ id, id ∈ targets world → suffrage_is Voter (server world id) = true →
    id ∈ proven world }.

Lemma memberStatuses_lookup state committed id :
  memberStatuses state committed !! id =
    if decide (id ∈ asked state committed) then status_of state id else None.
Proof.
  unfold memberStatuses. fold (asked state committed).
  assert (Hin : ∀ status, (id, status) ∈ omap (λ id, (λ member, (id, Device.DeviceStatus member)) <$>
      PeerAdmission.Member (StateDecode.Admission state) id) (asked state committed) ↔
    id ∈ asked state committed ∧ status_of state id = Some status).
  { intros status. rewrite list_elem_of_omap. unfold status_of. split.
    - intros (x & Hx & (m & Hm & [= -> ->])%fmap_Some). by rewrite Hm.
    - intros [Hx (m & Hm & ->)%fmap_Some]. exists id. by rewrite Hm. }
  apply option_eq. intros status. split.
  - intros Hs%elem_of_list_to_map_2. apply Hin in Hs as [Hx Hs]. by rewrite decide_True.
  - destruct (decide _) as [Hx|]; [|done]. intros Hs. apply elem_of_list_to_map_1'; [|by apply Hin].
    intros y [_ Hy]%Hin. congruence.
Qed.

(** ** The input of a round *)

Definition input_of (world : World) (ready eligible : gset string) : Input :=
  mkInput (StateDecode.VoterSet_ (st world)) (StateDecode.CredentialAuthority_ (st world)) (conf world)
    (leader_ world) (memberStatuses (st world) (conf world)) ready eligible.

Lemma valid_server state committed evidence : validFor state committed evidence = true →
  Domain.DeviceID_Valid (evidenceDeviceID evidence) = true ∧
  VoterSet.Contains (StateDecode.VoterSet_ state) (evidenceDeviceID evidence) = true ∧
  status_of state (evidenceDeviceID evidence) = Some Device.StatusActive ∧
  ∃ server, configurationServer (Servers committed) (evidenceDeviceID evidence) = Some server ∧
    (Suffrage_ server = Voter ∨ Suffrage_ server = Nonvoter).
Proof.
  unfold validFor. intros Hv. apply andb_true_iff in Hv as [Hv Hs]. bools. destruct Hv as [[[Hid _] Hc] Ha].
  split_and!; [done..|]. destruct (configurationServer _ _) as [server|]; [|done]. exists server. split; [done|].
  destruct (evidenceKind evidence), (stagingProof evidence); try done.
  - bools. tauto.
  - unfold stagingProofValid in Hs. destruct (Suffrage_ server); [tauto|tauto|]. by rewrite andb_false_r in Hs.
Qed.

Lemma world_input world ready sets : world_ok world →
  (∀ id, id ∈ ready → id ∈ ids (Servers (conf world))) →
  (status_of (st world) (leader_ world) = Some Device.StatusActive → leader_ world ∈ ready) →
  input_ok (input_of world ready (plannerSet sets (st world) (conf world))).
Proof.
  intros Hok Hready Hleader.
  assert (Hstatus : ∀ id, id ∈ asked (st world) (conf world) →
    memberStatuses (st world) (conf world) !! id = status_of (st world) id).
  { intros id Hin. rewrite memberStatuses_lookup. by rewrite decide_True. }
  assert (Hservers : ∀ id, id ∈ ids (Servers (conf world)) → id ∈ asked (st world) (conf world)).
  { intros id Hin. apply elem_of_app. by left. }
  assert (Htargets : ∀ id, id ∈ targets world → id ∈ asked (st world) (conf world)).
  { intros id Hin. apply elem_of_app. right. apply elem_of_app. by left. }
  assert (Hleads : leader_ world ∈ ids (Servers (conf world))).
  { apply in_by_id; [apply Hok|]. pose proof (wo_leader _ Hok) as [_ Hl]. unfold server in Hl.
    destruct (by_id _ !! _); [by eexists|done]. }
  assert (Hsome : ∀ id, id ∈ asked (st world) (conf world) →
    is_Some (memberStatuses (st world) (conf world) !! id)).
  { intros id Hin. rewrite Hstatus by done. destruct (wo_members _ Hok id Hin) as (_ & s & -> & _). by exists s. }
  split; unfold configured, activated, active, revokedOutgoingLeader, target_ids; cbn [target authority
    configuration localLeaderID memberStatus reachable eligible input_of].
  - apply Hok.
  - apply Hok.
  - intros Ha%N.eqb_eq. by apply Hok.
  - apply Hok.
  - apply Hok.
  - apply Hok.
  - intros id status Hs. rewrite memberStatuses_lookup in Hs. destruct (decide _) as [Hin|]; [|done].
    destruct (wo_members _ Hok id Hin) as (? & s & Hs' & ?). split; [done|]. congruence.
  - intros id Hin. apply Hsome, Hservers, in_by_id; [apply Hok|done].
  - intros id Hin. rewrite Hstatus by by apply Htargets. by apply Hok.
  - intros id Hin. apply Hsome. unfold asked. set_solver.
  - rewrite Hstatus by by apply Hservers. destruct (wo_leader_status _ Hok) as [?|[Hr Hout]]; [by left|right].
    rewrite Hr. bools. split; [done|]. apply not_true_iff_false. by rewrite VoterSet.Contains_elem by apply Hok.
  - rewrite Hstatus by by apply Hservers. destruct (wo_leader_status _ Hok) as [?|[Hr Hout]]; [right; by apply Hleader|left].
    rewrite Hr. bools. split; [done|]. apply not_true_iff_false. by rewrite VoterSet.Contains_elem by apply Hok.
  - intros id Hin%Hready%Hservers. split; [by apply (wo_members _ Hok)|by apply Hsome].
  - intros id (evidence & _ & <- & Hv)%plannerSet_elem. apply valid_server in Hv as (Hid & Hc & Ha & s & Hs & Hsu).
    apply VoterSet.Contains_elem in Hc as Hin; [|apply Hok].
    rewrite Hstatus by by apply Htargets. split_and!; [done..|].
    rewrite configurationServer_by_id in Hs by apply Hok. rewrite Hs. cbn. bools. done.
  - intros Ha%N.eqb_eq id Hin. by apply (wo_voters _ Hok Ha).
Qed.

(** ** Evidence *)

Lemma proven_intro sets state committed evidence id :
  sets !! id = Some evidence → evidenceDeviceID evidence = id → validFor state committed evidence = true →
  id ∈ plannerSet sets state committed.
Proof.
  intros Hs Hid Hv. unfold plannerSet. apply elem_of_dom. exists evidence.
  apply map_lookup_filter_Some. by subst id.
Qed.

(** The voters of the configuration are their own evidence. *)
Lemma initial_proven state committed id :
  VoterSet.Validate (StateDecode.VoterSet_ state) = None → config_ok (Servers committed) →
  id ∈ VoterSet.voterDeviceIDs (StateDecode.VoterSet_ state) →
  suffrage_is Voter (by_id (Servers committed) !! id) = true →
  status_of state id = Some Device.StatusActive →
  id ∈ plannerSet (initialVoterEligibility state (Servers committed)) state committed.
Proof.
  intros Ht Hok Hin (server & Hs & Hv)%suffrage_is_true Ha.
  assert (Hc : VoterSet.Contains (StateDecode.VoterSet_ state) id = true) by by apply VoterSet.Contains_elem.
  apply server_by_id in Hs as Hs'; [|done]. destruct Hs' as [Hserver Hid].
  eapply proven_intro with (evidence := mkEvidence EligibilityExisting id
    (VoterSet.VoterSetVersion (StateDecode.VoterSet_ state)) 0 None).
  - unfold initialVoterEligibility. apply elem_of_list_to_map_1'.
    + intros y (s & [= -> ->] & _)%list_elem_of_fmap. done.
    + apply list_elem_of_fmap. exists server. rewrite Hid. split; [done|]. apply list_elem_of_filter.
      by rewrite Hid.
  - done.
  - unfold validFor. cbn [evidenceDeviceID evidenceKind stagingProof targetVoterSetVersion stagedConfigurationIndex].
    rewrite configurationServer_by_id, Hs by done. bools. split_and!; try done.
    destruct (VoterSet.voters_valid_inv _ Ht) as (_ & _ & _ & Hall & _). rewrite Forall_forall in Hall.
    by apply Hall.
Qed.

Lemma refresh_fresh world : world_ok world ∨ VoterSet.Validate (StateDecode.VoterSet_ (st world)) = None →
  progress_ world = startProgress →
  refreshEligibility (progress_ world) (worldCut world) =
    mkProgress (VoterSet.VoterSetVersion (StateDecode.VoterSet_ (st world)))
      (initialVoterEligibility (st world) (Servers (conf world))).
Proof.
  intros Hok Hp. assert (Ht : VoterSet.Validate (StateDecode.VoterSet_ (st world)) = None)
    by (destruct Hok as [Hok|]; [apply Hok|done]).
  unfold refreshEligibility. rewrite Hp. cbn [startProgress eligibleVersion].
  unfold VoterSet.Validate in Ht. chain_inv Ht. bools. rewrite (proj2 (N.eqb_neq _ _)); [done|]. lia.
Qed.

(** A cut that the reconciler accepts, with room for the target, starts a world. *)
Lemma world_starts world plan :
  staticPlan (leader_ world) (worldCut world) = inr plan →
  progress_ world = startProgress →
  Domain.ValidUnsignedInteger (StateDecode.recoveryGeneration (st world)) = true →
  (size (by_id (Servers (conf world))) + size (missing world) ≤ 8)%nat →
  world_ok world.
Proof.
  unfold staticPlan. intros (input & Hi & _)%and_then_inr Hp Hg Hroom.
  apply plannerInput_inv in Hi as [Hok ->].
  pose proof Hok as [Ht Ha Hs Hix Hc Hl Hst Hm Hta _ Hls _ _ _ Hv].
  unfold configured, activated, active, target_ids, revokedOutgoingLeader in *;
    cbn [target authority configuration localLeaderID memberStatus reachable eligible] in *.
  assert (Hknown : ∀ id status, memberStatuses (st world) (conf world) !! id = Some status →
    status_of (st world) id = Some status).
  { intros id status. rewrite memberStatuses_lookup. by destruct (decide _). }
  assert (Hactive : ∀ id, id ∈ targets world → status_of (st world) id = Some Device.StatusActive).
  { intros id Hin. by apply Hknown, Hta. }
  split; try done.
  - intros Heq. by apply Hs, N.eqb_eq.
  - intros id Hin.
    assert (Hsome : is_Some (memberStatuses (st world) (conf world) !! id)).
    { unfold asked in Hin. apply elem_of_app in Hin as [Hin|[Hin|Hin]%elem_of_app].
      - apply Hm, in_by_id; done.
      - rewrite Hta by done. by eexists.
      - by apply (io_authority_members _ Hok). }
    destruct Hsome as [status Hstatus]. destruct (Hst _ _ Hstatus) as [? ?]. split; [done|].
    exists status. split; [by apply Hknown|done].
  - destruct Hls as [Hls|Hls]; [left; by apply Hknown|right]. bools. destruct Hls as [Hr Hout].
    split; [by apply Hknown|]. intros Hin. apply VoterSet.Contains_elem in Hin; [congruence|done].
  - intros Heq id Hin. apply Hv; [by apply N.eqb_eq|done].
  - intros id Hin Hvote. unfold proven. rewrite refresh_fresh by auto. by apply initial_proven, Hactive.
Qed.

(** ** The readiness of a round *)

Lemma sortedUnique_intro l :
  Forall (λ id, Domain.DeviceID_Valid id = true) l → StronglySorted str_lt l → sortedUniqueDeviceIDs l = true.
Proof.
  intros Hv Hs. unfold sortedUniqueDeviceIDs. apply bool_decide_eq_true, scan_sorted_None.
  split; [|by rewrite list_fmap_id]. eapply Forall_impl; [exact Hv|]. intros id Hid. cbn beta. by rewrite Hid.
Qed.

Lemma ids_valid c : config_ok c → Forall (λ id, Domain.DeviceID_Valid id = true) (ids c).
Proof.
  intros [Hok _ _ _]. apply Forall_fmap. eapply Forall_impl; [exact Hok|]. by intros s (? & _).
Qed.

Lemma voters_of_ids suffrage c : config_ok c → voters_of suffrage c ⊆ ids c.
Proof.
  intros Hok id Hid%voters_of_elem; [|done]. apply in_by_id; [done|]. by destruct (by_id c !! id).
Qed.

Lemma voters_disjoint c : config_ok c → voters_of Voter c ## voters_of Nonvoter c.
Proof.
  intros Hok id Hv%voters_of_elem Hn%voters_of_elem; try done.
  destruct (by_id c !! id) as [s|]; [|done]. cbn in *. bools. congruence.
Qed.

Definition live (c : Configuration) : list string :=
  mergeSortedDeviceIDs (voters_of Voter c) (voters_of Nonvoter c).

Lemma live_perm c : live c ≡ₚ voters_of Voter c ++ voters_of Nonvoter c.
Proof. apply sort_Strings_perm. Qed.

Lemma live_NoDup c : config_ok c → NoDup (live c).
Proof.
  intros Hok. rewrite live_perm. apply NoDup_app. split_and!; [by apply voters_of_NoDup| |by apply voters_of_NoDup].
  intros id Hv Hn. by apply (voters_disjoint c Hok id).
Qed.

Lemma live_elem c id : config_ok c → id ∈ live c ↔ id ∈ ids c.
Proof.
  intros Hok. rewrite live_perm. split.
  - intros [Hin|Hin]%elem_of_app; by eapply voters_of_ids.
  - intros [s Hs]%in_by_id; [|done]. rewrite elem_of_app, !voters_of_elem, Hs by done.
    apply server_by_id in Hs as [Hin _]; [|done]. pose proof (co_servers _ Hok) as Hall.
    rewrite Forall_forall in Hall. destruct (Hall _ Hin) as (_ & _ & Hsu). cbn.
    destruct (Suffrage_ s); [by left|by right|done].
Qed.

Lemma live_length c : config_ok c → length (voters_of Voter c) + length (voters_of Nonvoter c) = length c.
Proof.
  intros Hok. rewrite <-length_app, <-live_perm, <-(length_fmap ServerID c). apply Permutation_length, NoDup_Permutation.
  - by apply live_NoDup.
  - apply Hok.
  - intros id. by apply live_elem.
Qed.

Lemma sorted_filter (P : string → Prop) `{∀ x, Decision (P x)} l :
  StronglySorted str_lt l → StronglySorted str_lt (filter P l).
Proof.
  induction 1 as [|x l Hs IH Hall]; [constructor|]. rewrite filter_cons. destruct (decide (P x)); [|done].
  constructor; [done|]. rewrite Forall_forall in *. intros y [_ Hy]%list_elem_of_filter. by apply Hall.
Qed.

Lemma sorted_strings l : NoDup l → StronglySorted str_lt (sort_Strings l).
Proof. intros Hl. apply LoadProofs.sorted_strict; [by rewrite sort_Strings_perm|apply sort_Strings_sorted]. Qed.

Lemma voters_sorted suffrage c : config_ok c → StronglySorted str_lt (voters_of suffrage c).
Proof.
  intros Hok. apply sorted_strings. pose proof (voters_of_NoDup suffrage c Hok) as Hnd. unfold voters_of in Hnd.
  by rewrite sort_Strings_perm in Hnd.
Qed.

Definition active_of (state : StateDecode.decodedState) (l : list string) : list string :=
  filter (λ id, Device.DeviceStatus <$> PeerAdmission.Member (StateDecode.Admission state) id =
                Some Device.StatusActive) l.

Definition observed (world : World) : Requirement :=
  let voters := voters_of Voter (Servers (conf world)) in
  requirementOf (st world) (conf world) (active_of (st world) (live (Servers (conf world)))) voters
    ConfigurationObserve (leader_ world).

Lemma contains_sorted l id : StronglySorted str_lt l → containsSortedDeviceID l id = true ↔ id ∈ l.
Proof. apply BinarySearch_found. Qed.

Lemma observed_valid world : world_ok world → Requirement_validate (observed world) = None.
Proof.
  intros Hok. pose proof (wo_target _ Hok) as Ht. pose proof (wo_config _ Hok) as Hc.
  pose proof (VoterSet.voters_valid_inv _ Ht) as (Huuid & Hversion & Hcount & _).
  set (c := Servers (conf world)) in *.
  assert (Hvalid : ∀ l, l ⊆ ids c → Forall (λ id, Domain.DeviceID_Valid id = true) l).
  { intros l Hl. apply Forall_forall. intros id Hid%Hl. pose proof (ids_valid c Hc) as Hall.
    rewrite Forall_forall in Hall. by apply Hall. }
  assert (Hleader : leader_ world ∈ voters_of Voter c).
  { apply voters_of_elem; [done|]. apply (wo_leader _ Hok). }
  assert (Hsorted : StronglySorted str_lt (active_of (st world) (live c))).
  { apply sorted_filter, sorted_strings. rewrite <-live_perm. by apply live_NoDup. }
  assert (Hpos : 1 ≤ length (voters_of Voter c)).
  { destruct (voters_of Voter c); [by apply elem_of_nil in Hleader|cbn; lia]. }
  assert (Hsub : active_of (st world) (live c) ⊆ live c) by (intros id [_ ?]%list_elem_of_filter; done).
  unfold observed, Requirement_validate. fold c.
  cbn [SessionID RecoveryGeneration TargetVoterSetVersion TargetVoterDeviceIDs ConfigurationIndex
    LiveVoterDeviceIDs LiveNonvoterDeviceIDs ActiveDeviceIDs PostChangeVoterDeviceIDs
    RequiredPostChangeQuorum Operation SubjectDeviceID requirementOf].
  unfold VoterSet.New. destruct (StateDecode.VoterSet_ (st world)) as [session version voters] eqn:Htarget.
  cbn [VoterSet.SessionID VoterSet.VoterSetVersion VoterSet.voterDeviceIDs] in *.
  assert (Hvc : VoterSet.validVoterCount (llen voters) = true).
  { unfold VoterSet.validVoterCount. unfold VoterSet.voterCount in Hcount. cbn in Hcount.
    destruct Hcount as [->|[->| ->]]; done. }
  rewrite Hvc, Ht. cbn [negb]. rewrite !refuse_None.
  change (Servers (conf world)) with c.
  assert (Hlive : sortedUniqueDeviceIDs (voters_of Voter c) = true ∧
      sortedUniqueDeviceIDs (voters_of Nonvoter c) = true ∧
      sortedUniqueDeviceIDs (active_of (st world) (live c)) = true).
  { split_and!; (apply sortedUnique_intro; [apply Hvalid|]); try done; try (by apply voters_of_ids);
      try (by apply voters_sorted). intros id Hid%Hsub. by apply live_elem in Hid. }
  destruct Hlive as (Hlv & Hln & Hla). rewrite Hlv, Hln, Hla. split_and!; [| | | |done].
  - destruct (wo_index _ Hok) as [? Hix], (wo_leader _ Hok) as [Hl _]. rewrite Huuid, Hix, Hl, (wo_generation _ Hok).
    assert (Hv : Domain.ValidUnsignedInteger version = true) by (unfold Domain.ValidUnsignedInteger; bools; lia).
    rewrite Hv. bools. split_and!; try done; lia.
  - pose proof (live_length c Hc). pose proof (co_size _ Hc). change (Z.to_N Policy.MaxMemberDevices) with 8%N.
    unfold llen in *. bools. split_and!; try done; try lia.
    + unfold overlapDeviceIDs. apply not_true_iff_false. rewrite existsb_exists. setoid_rewrite <-list_elem_of_In.
      intros (id & Hn & Hv%bool_decide_eq_true). by apply (voters_disjoint c Hc id).
    + unfold subsetDeviceIDs. apply forallb_elem. intros id Hid%Hsub. by apply bool_decide_eq_true.
  - by rewrite N.eqb_refl.
  - assert (Hcl : containsSortedDeviceID (voters_of Voter c) (leader_ world) = true)
      by (apply contains_sorted; [by apply voters_sorted|done]).
    rewrite Hcl. cbn [negb orb]. apply andb_false_iff. right. apply andb_false_iff.
    destruct (wo_leader_status _ Hok) as [Ha|[_ Hout]].
    + left. apply negb_false_iff, contains_sorted; [done|]. apply list_elem_of_filter. split; [exact Ha|].
      apply live_elem; [done|]. by eapply voters_of_ids.
    + right. unfold targets in Hout. rewrite Htarget in Hout. cbn in Hout. apply not_true_iff_false.
      rewrite contains_sorted; [done|].
      by destruct (VoterSet.voters_valid_inv _ Ht) as (_ & _ & _ & _ & ? & _).
Qed.

Lemma observed_required world : world_ok world →
  reconciliationReadinessRequirement (st world) (conf world) (leader_ world) = inr (observed world).
Proof.
  intros Hok. pose proof (wo_config _ Hok) as Hc. unfold reconciliationReadinessRequirement.
  assert (Hcut : invalidCut (st world) (conf world) = false).
  { unfold invalidCut. rewrite (proj2 (validate_ok _) Hc), (proj2 (VoterSet.is_valid_None _) (wo_target _ Hok)).
    destruct (wo_index _ Hok) as [? ->]. cbn. bools. split_and!; done. }
  assert (Hlv : leader_ world ∈ voters_of Voter (Servers (conf world))).
  { apply voters_of_elem; [done|]. apply (wo_leader _ Hok). }
  rewrite Hcut, (proj1 (wo_leader _ Hok)). cbn [negb orb].
  assert (Hactives : activeConfiguredDeviceIDs (st world) (voters_of Voter (Servers (conf world)))
      (voters_of Nonvoter (Servers (conf world))) = Some (active_of (st world) (live (Servers (conf world))))).
  { unfold activeConfiguredDeviceIDs. fold (live (Servers (conf world))).
    assert (Hm : is_Some (mapM (λ id, PeerAdmission.Member (StateDecode.Admission (st world)) id)
        (live (Servers (conf world))))).
    { apply mapM_is_Some, Forall_forall. intros id Hid%live_elem; [|done]. cbn.
      destruct (wo_members _ Hok id) as (_ & s & Hs & _); [apply elem_of_app; by left|].
      unfold status_of in Hs. apply fmap_Some in Hs as (m & -> & _). by eexists. }
    destruct Hm as [members ->]. done. }
  rewrite Hactives. fold (observed world). rewrite (observed_valid _ Hok).
  rewrite bool_decide_eq_true_2 by done. cbn [negb orb].
  match goal with |- (if ?b then _ else _) = _ => assert (Hb : b = false); [|by rewrite Hb] end.
  destruct (wo_leader_status _ Hok) as [Ha|[Hr Hout]].
  - apply andb_false_iff. left. apply negb_false_iff, contains_sorted.
    + apply sorted_filter, sorted_strings. rewrite <-live_perm. by apply live_NoDup.
    + apply list_elem_of_filter. split; [exact Ha|]. apply live_elem; [done|]. by eapply voters_of_ids.
  - apply andb_false_iff. right. apply negb_false_iff. unfold status_of in Hr.
    apply fmap_Some in Hr as (m & -> & Hm). apply andb_true_iff. split; [by bools|].
    apply negb_true_iff, not_true_iff_false. rewrite VoterSet.Contains_elem by apply Hok. exact Hout.
Qed.

(** ** A round *)

(** The provider answers, and reaches every target device that is configured. *)
Definition gate_ready (world : World) (gate : Provider) : Prop :=
  ∀ required,
    reconciliationReadinessRequirement (st world) (conf world) (leader_ world) = inr required →
    ∃ verified, collect (Some gate) false required = inr verified ∧
      ∀ id, id ∈ targets world → is_Some (server world id) →
        id ∈ readyConfigurationDevices (candidate_ verified).

Definition converged (world : World) : Prop :=
  all_vote world ∧ authorized world ∧ leader_ world ∈ targets world ∧
  ∀ id, is_Some (server world id) → id ∈ targets world.

(** The ready devices of a round. *)
Record ready_ok (world : World) (ready : gset string) : Prop := {
  ro_live : ∀ id, id ∈ ready → id ∈ ids (Servers (conf world));
  ro_leader : status_of (st world) (leader_ world) = Some Device.StatusActive → leader_ world ∈ ready;
  ro_targets : ∀ id, id ∈ targets world → is_Some (server world id) → id ∈ ready;
  ro_quorum : ∃ some, quorum (voters_of Voter (Servers (conf world))) some ∧
    ∀ id, id ∈ some → id ∈ ready ∧ status_of (st world) id = Some Device.StatusActive }.

Lemma collected_ready world gate verified : world_ok world →
  collect (Some gate) false (observed world) = inr verified →
  (∀ id, id ∈ targets world → is_Some (server world id) → id ∈ readyConfigurationDevices (candidate_ verified)) →
  ready_ok world (readyConfigurationDevices (candidate_ verified)).
Proof.
  intros Hok Hc Htargets. unfold collect in Hc. sum_inv Hc. injection Hc as <-. cbn [candidate_] in *.
  pose proof Hc1 as Hv. unfold validateConfigurationReadinessCandidate in Hv.
  apply refuse_None in Hv as [_ Hv]. apply refuse_None in Hv as [Hlive Hv].
  apply refuse_None in Hv as [_ Hv]. apply refuse_None in Hv as [_ Hv]. apply refuse_None in Hv as [Hsubject _].
  apply orb_false_iff in Hlive as [Hlive _]. apply negb_decide_false in Hlive.
  split.
  - intros id [Hid _]%elem_of_intersection. apply Hlive in Hid. unfold deviceIDSet in Hid.
    rewrite elem_of_union, !elem_of_list_to_set in Hid.
    destruct Hid as [Hid|Hid]; exact (voters_of_ids _ _ (wo_config _ Hok) _ Hid).
  - intros Ha. cbn [Operation ActiveDeviceIDs SubjectDeviceID observed requirementOf] in Hsubject.
    assert (Hcs : containsSortedDeviceID (active_of (st world) (live (Servers (conf world)))) (leader_ world) = true).
    { apply contains_sorted; [apply sorted_filter, sorted_strings; rewrite <-live_perm; apply live_NoDup, Hok|].
      apply list_elem_of_filter. split; [exact Ha|]. apply live_elem; [apply Hok|].
      eapply voters_of_ids, voters_of_elem; [apply Hok..|]. apply (wo_leader _ Hok). }
    rewrite Hcs in Hsubject. cbn in Hsubject. unfold readyConfigurationDevices. bools.
    apply elem_of_intersection. destruct Hsubject as [[_ [?|?]]|?]; done.
  - done.
  - destruct (candidate_quorum _ _ Hc1) as (some & Hq & Hsome). exists some. split; [exact Hq|].
    intros id Hid%Hsome. destruct Hid as [Hr Ha%list_elem_of_filter]. split; [exact Hr|apply Ha].
Qed.

Lemma stable_converged world ready sets plan : world_ok world →
  planned (input_of world ready sets) plan → action_ plan = Stable → converged world.
Proof.
  intros Hok Hp Hs. destruct Hp; try discriminate Hs; try (by destruct (containsDevice _ _)).
  match goal with Hx : activated _ = true |- _ => apply N.eqb_eq in Hx end.
  split_and!; try done. intros id [s Hid]. unfold extra in *. destruct (decide (id ∈ targets world)) as [|Hout]; [done|].
  exfalso. pose proof Hid as [Hin _]%server_by_id; [|apply Hok].
  pose proof (co_servers _ (wo_config _ Hok)) as Hall. rewrite Forall_forall in Hall.
  destruct (Hall _ Hin) as (_ & _ & Hsu). unfold server in Hid.
  destruct (Suffrage_ s) eqn:Hsuf; [..|done];
    match goal with Hx : ∀ id, ¬ (_ ∧ suffrage_is ?k _ = true), Hs : Suffrage_ _ = ?k |- _ =>
      apply (Hx id); split; [exact Hout|]; apply suffrage_is_true; exists s; done end.
Qed.

Lemma static_plan world : world_ok world →
  ∃ plan, staticPlan (leader_ world) (worldCut world) = inr plan ∧ action_ plan ≠ Invalid ∧
    (action_ plan = Stable → converged world).
Proof.
  intros Hok. unfold staticPlan, voterReconciliationPlannerInput.
  set (ready := activeConfiguredSet _ _). set (sets := initialVoterEligibility _ _).
  assert (Hinput : input_ok (input_of world ready (plannerSet sets (st world) (conf world)))).
  { apply world_input; [done| |].
    - unfold ready, activeConfiguredSet. intros id [_ Hid]%elem_of_list_to_set%list_elem_of_filter. exact Hid.
    - intros Ha. unfold ready, activeConfiguredSet. apply elem_of_list_to_set, list_elem_of_filter.
      split; [exact Ha|]. apply in_by_id; [apply Hok|].
      destruct (wo_leader _ Hok) as [_ Hl]. unfold server in Hl. by destruct (_ !! leader_ world). }
  pose proof (plan_inv _ Hinput) as Hplan. fold (input_of world ready (plannerSet sets (st world) (conf world))).
  rewrite (proj2 (validate_input_iff _ _) (conj Hinput eq_refl)). cbn [and_then].
  eexists. split; [done|]. split; [|by apply stable_converged with (1 := Hok) (2 := Hplan)].
  destruct Hplan; try done. by destruct (containsDevice _ _).
Qed.

Lemma round_cases world gate : world_ok world → gate_ready world gate →
  (∃ plan progress, round world gate = inr (plan, progress) ∧ action_ plan = Stable ∧ converged world) ∨
  ∃ ready, ready_ok world ready ∧ input_ok (input_of world ready (proven world)) ∧
    round world gate = inr (planVoterReconciliation (input_of world ready (proven world)),
                            refreshEligibility (progress_ world) (worldCut world)).
Proof.
  intros Hok Hg. unfold round, voterReconciliationCut. destruct (static_plan _ Hok) as (plan & -> & Hvalid & Hconv).
  cbn [and_then]. rewrite bool_decide_eq_false_2 by done.
  destruct (decide (action_ plan = Stable)) as [Hs|Hs].
  - rewrite bool_decide_eq_true_2 by done. left. do 2 eexists. split; [done|]. split; [done|]. by apply Hconv.
  - rewrite bool_decide_eq_false_2 by done. right. destruct (Hg _ (observed_required _ Hok)) as (verified & Hc & Ht).
    rewrite (observed_required _ Hok). cbn [and_then]. rewrite Hc. cbn [and_then].
    pose proof (collected_ready _ _ _ Hok Hc Ht) as Hready. exists (readyConfigurationDevices (candidate_ verified)).
    split; [done|]. set (ready := readyConfigurationDevices _) in *.
    assert (Hinput : input_ok (input_of world ready (proven world))) by (apply world_input; [done|apply Hready..]).
    split; [done|]. unfold reconcileRound, voterReconciliationPlannerInput.
    fold (proven world) (input_of world ready (proven world)).
    rewrite (proj2 (validate_input_iff _ _) (conj Hinput eq_refl)). done.
Qed.

(** ** What an executed plan does

    Other commands may have been committed meanwhile: the state is another one
    with the same target and members. *)
Record unchanged (before after : StateDecode.decodedState) : Prop := {
  un_target : StateDecode.VoterSet_ after = StateDecode.VoterSet_ before;
  un_workspace : StateDecode.workspaceID after = StateDecode.workspaceID before;
  un_generation : StateDecode.recoveryGeneration after = StateDecode.recoveryGeneration before;
  un_status : ∀ id, status_of after id = status_of before id }.

Section Raft.
Context `{RaftLib}.

Inductive act (world : World) (plan : Plan) (progress : Progress) : World → Prop :=
  | act_change change index cut :
      reconciliationConfigurationChange plan = Some change →
      unchanged (st world) (cutState cut) →
      StateDecode.CredentialAuthority_ (cutState cut) = StateDecode.CredentialAuthority_ (st world) →
      Domain.ValidUnsignedInteger index = true → (Index (conf world) < index)%N →
      cutConfiguration cut = mkCommitted index (nextConfiguration (Servers (conf world)) change) →
      act world plan progress (mkWorld cut (leader_ world) progress)
  | act_prove proof evidence cut :
      action_ plan = ProveNonvoter →
      unchanged (st world) (cutState cut) →
      StateDecode.CredentialAuthority_ (cutState cut) = StateDecode.CredentialAuthority_ (st world) →
      cutConfiguration cut = conf world →
      newStagingVoterEligibility (cutState cut) (conf world) (deviceID plan) proof = inr evidence →
      act world plan progress
        (mkWorld cut (leader_ world)
           (mkProgress (eligibleVersion progress) (<[deviceID plan := evidence]> (eligibility_ progress))))
  | act_activate cut :
      action_ plan = ActivateAuthority →
      unchanged (st world) (cutState cut) →
      CredentialAuthority.is_valid (StateDecode.CredentialAuthority_ (cutState cut)) = true →
      CredentialAuthority.SessionID (StateDecode.CredentialAuthority_ (cutState cut)) =
        VoterSet.SessionID (StateDecode.VoterSet_ (st world)) →
      CredentialAuthority.VoterSetVersion (StateDecode.CredentialAuthority_ (cutState cut)) =
        VoterSet.VoterSetVersion (StateDecode.VoterSet_ (st world)) →
      CredentialAuthority.VoterDeviceIDs (StateDecode.CredentialAuthority_ (cutState cut)) = targets world →
      cutConfiguration cut = conf world →
      act world plan progress (mkWorld cut (leader_ world) progress)
  | act_transfer cut :
      action_ plan = TransferLeadership →
      unchanged (st world) (cutState cut) →
      StateDecode.CredentialAuthority_ (cutState cut) = StateDecode.CredentialAuthority_ (st world) →
      cutConfiguration cut = conf world →
      act world plan progress (mkWorld cut (deviceID plan) startProgress).

End Raft.

(** ** The measure *)

Definition unvoting (world : World) : gset string :=
  filter (λ id, suffrage_is Voter (server world id) = false) (list_to_set (targets world)).
Definition extras (world : World) : gset string :=
  dom (by_id (Servers (conf world))) ∖ list_to_set (targets world).
Definition first_nonvoter (world : World) : option (nat * string) :=
  list_find (λ id, suffrage_is Nonvoter (server world id) = true) (targets world).
Definition unproved (world : World) : nat :=
  match first_nonvoter world with
  | Some (_, id) => if decide (id ∈ proven world) then 0 else 1
  | None => 0
  end.
#[global] Instance authorized_dec world : Decision (authorized world).
Proof. unfold authorized. apply _. Defined.

Definition todo (world : World) : nat :=
  2 * size (missing world) + 2 * size (unvoting world) + unproved world +
  (if decide (authorized world) then 0 else 1) +
  (if decide (leader_ world ∈ targets world) then 0 else 1) + size (extras world).

Lemma unproved_le world : unproved world ≤ 1.
Proof. unfold unproved. destruct (first_nonvoter world) as [[? ?]|]; [destruct (decide _)|]; lia. Qed.

Lemma unproved_vote world : all_vote world → unproved world = 0.
Proof.
  intros Hall. unfold unproved, first_nonvoter. destruct (list_find _ _) as [[i id]|] eqn:Hf; [|done].
  apply list_find_elem in Hf as [Hin Hn]. specialize (Hall id Hin).
  destruct (server world id) as [s|]; [|done]. cbn in *. bools. congruence.
Qed.

Lemma todo_bound world : world_ok world → todo world ≤ 3 * length (targets world) + 11.
Proof.
  intros Hok. pose proof (wo_room _ Hok) as Hroom. pose proof (unproved_le world). unfold todo.
  pose proof (VoterSet.voters_valid_inv _ (wo_target _ Hok)) as (_ & _ & _ & _ & _ & Hnd).
  fold (targets world) in Hnd.
  set (T := list_to_set (C := gset string) (targets world)).
  assert (HT : size T = length (targets world)) by by apply size_list_to_set.
  assert (Hu : size (unvoting world) ≤ size T) by (apply subseteq_size; unfold unvoting; set_solver).
  assert (Hx : size (extras world) + size T = size (by_id (Servers (conf world))) + size (missing world)).
  { unfold extras, missing. fold T. rewrite <-size_dom, <-!size_union_alt.
    rewrite Nat.add_comm, <-size_union_alt. f_equal. set_solver. }
  assert (Hm : size (missing world) ≤ size T) by (apply subseteq_size; unfold missing; set_solver).
  destruct (decide _), (decide _); lia.
Qed.

(** ** Each action keeps a world and makes progress *)

(** Evidence of a device that votes afterwards stays valid. *)
Lemma validFor_kept before after committed committed' evidence s :
  unchanged before after → validFor before committed evidence = true →
  configurationServer (Servers committed') (evidenceDeviceID evidence) = Some s → Suffrage_ s = Voter →
  validFor after committed' evidence = true.
Proof.
  intros [Ht Hw Hg Hs] Hv Hserver Hvoter. unfold status_of in Hs. unfold validFor in *. rewrite Hserver, Ht, Hs.
  apply andb_true_iff in Hv as [-> Hv]. cbn [andb]. destruct (configurationServer (Servers committed) _) as [old|]; [|done].
  destruct (evidenceKind evidence), (stagingProof evidence) as [proof|]; try done.
  - bools. destruct Hv as [? _]. done.
  - unfold stagingProofValid in *. rewrite Hvoter, Ht, Hw, Hg. apply andb_true_iff in Hv as [-> _]. done.
Qed.

(** The world after: what is left to show. *)
Lemma world_next world world' : world_ok world → unchanged (st world) (st world') →
  (CredentialAuthority.is_valid (StateDecode.CredentialAuthority_ (st world')) = true ∧
   CredentialAuthority.SessionID (StateDecode.CredentialAuthority_ (st world')) =
     VoterSet.SessionID (StateDecode.VoterSet_ (st world)) ∧
   (CredentialAuthority.VoterSetVersion (StateDecode.CredentialAuthority_ (st world')) ≤
      VoterSet.VoterSetVersion (StateDecode.VoterSet_ (st world)))%N) →
  (authorized world' →
     CredentialAuthority.VoterDeviceIDs (StateDecode.CredentialAuthority_ (st world')) = targets world ∧
     all_vote world') →
  (∀ id, id ∈ ids (Servers (conf world')) ++
           CredentialAuthority.VoterDeviceIDs (StateDecode.CredentialAuthority_ (st world')) →
     id ∈ asked (st world) (conf world)) →
  ((1 ≤ Index (conf world'))%N ∧ Domain.ValidUnsignedInteger (Index (conf world')) = true) →
  config_ok (Servers (conf world')) →
  (leader_ world' = leader_ world ∨ leader_ world' ∈ targets world) →
  suffrage_is Voter (server world' (leader_ world')) = true →
  (size (by_id (Servers (conf world'))) + size (missing world') ≤ 8)%nat →
  (∀ id, id ∈ targets world → suffrage_is Voter (server world' id) = true → id ∈ proven world') →
  world_ok world'.
Proof.
  intros Hok [Ht Hw Hg Hs] Ha Hauth Hasked Hix Hc Hl Hlv Hroom Hproven.
  assert (Htargets : targets world' = targets world) by (unfold targets; by rewrite Ht).
  split; rewrite ?Ht, ?Htargets, ?Hg; try done.
  - apply Hok.
  - intros Hz. by apply Hauth.
  - split; [|done]. destruct Hl as [->|Hin]; [apply Hok|].
    destruct (wo_members _ Hok (leader_ world')) as [? _]; [unfold asked; set_solver|done].
  - intros id Hid. rewrite Hs. apply (wo_members _ Hok). unfold asked in Hid. rewrite Ht in Hid.
    apply elem_of_app in Hid as [Hid|[Hid|Hid]%elem_of_app].
    + apply Hasked, elem_of_app. by left.
    + unfold asked. set_solver.
    + apply Hasked, elem_of_app. by right.
  - intros id Hin. rewrite Hs. by apply Hok.
  - rewrite Hs. destruct Hl as [->|Hin]; [apply Hok|]. left. by apply Hok.
  - intros Hz. by apply Hauth.
  - apply Hok.
Qed.

Lemma refresh_again world world' :
  progress_ world' = refreshEligibility (progress_ world) (worldCut world) ∨
    eligibleVersion (progress_ world') = eligibleVersion (refreshEligibility (progress_ world) (worldCut world)) →
  unchanged (st world) (st world') →
  refreshEligibility (progress_ world') (worldCut world') = progress_ world'.
Proof.
  intros Hp [Ht _ _ _]. unfold refreshEligibility at 1. rewrite Ht.
  assert (Hv : eligibleVersion (progress_ world') = VoterSet.VoterSetVersion (StateDecode.VoterSet_ (st world))).
  { assert (Hr : eligibleVersion (refreshEligibility (progress_ world) (worldCut world)) =
      VoterSet.VoterSetVersion (StateDecode.VoterSet_ (st world))).
    { unfold refreshEligibility. destruct (_ =? _)%N eqn:He; [by apply N.eqb_eq|done]. }
    destruct Hp as [-> | ->]; done. }
  by rewrite Hv, N.eqb_refl.
Qed.

(** A device that was proven and votes is still proven. *)
Lemma proven_kept world world' id evidence : world_ok world →
  unchanged (st world) (st world') → config_ok (Servers (conf world')) →
  eligibility_ (refreshEligibility (progress_ world') (worldCut world')) !! id = Some evidence →
  eligibility_ (refreshEligibility (progress_ world) (worldCut world)) !! id = Some evidence →
  id ∈ proven world → suffrage_is Voter (server world' id) = true → id ∈ proven world'.
Proof.
  intros Hok Hun Hc Hnew Hold (e & He & Hid & Hv)%plannerSet_elem (s & Hs & Hsu)%suffrage_is_true.
  rewrite Hold in He. injection He as <-. eapply proven_intro; [exact Hnew|exact Hid|].
  eapply validFor_kept; [done|exact Hv| |exact Hsu]. by rewrite Hid, configurationServer_by_id.
Qed.

Lemma proven_evidence world id : id ∈ proven world →
  ∃ evidence, eligibility_ (refreshEligibility (progress_ world) (worldCut world)) !! id = Some evidence.
Proof. intros (e & He & _)%plannerSet_elem. by exists e. Qed.

(** A changed configuration: the map of its servers decides the rest. *)
Lemma change_ok world cut index c' :
  let world' := mkWorld cut (leader_ world) (refreshEligibility (progress_ world) (worldCut world)) in
  world_ok world → unchanged (st world) (cutState cut) →
  StateDecode.CredentialAuthority_ (cutState cut) = StateDecode.CredentialAuthority_ (st world) →
  Domain.ValidUnsignedInteger index = true → (Index (conf world) < index)%N →
  Index (cutConfiguration cut) = index → Servers (cutConfiguration cut) ≡ₚ c' → config_ok c' →
  (∀ id, id ∈ ids c' → id ∈ ids (Servers (conf world)) ∨ id ∈ targets world) →
  suffrage_is Voter (by_id c' !! leader_ world) = true →
  (∀ id, id ∈ targets world → suffrage_is Voter (server world id) = true →
     suffrage_is Voter (by_id c' !! id) = true) →
  (size (by_id c') + size (list_to_set (targets world) ∖ dom (by_id c') : gset string) ≤ 8)%nat →
  (∀ id, id ∈ targets world → suffrage_is Voter (by_id c' !! id) = true → id ∈ proven world) →
  world_ok world' ∧ by_id (Servers (conf world')) = by_id c' ∧ targets world' = targets world ∧
  (authorized world' ↔ authorized world).
Proof.
  intros world' Hok Hun Ha Hvalid Hix Hindex Hp Hc Hids Hl Hvote Hroom Hproven.
  assert (Hmap : by_id (Servers (conf world')) = by_id c') by by apply by_id_perm.
  assert (Hc' : config_ok (Servers (conf world'))) by by eapply config_ok_perm; [symmetry|].
  assert (Ht : targets world' = targets world) by (unfold targets; cbn; by rewrite (un_target _ _ Hun)).
  assert (Hauth : authorized world' ↔ authorized world).
  { unfold authorized. cbn. by rewrite Ha, (un_target _ _ Hun). }
  assert (Hserver : ∀ id, server world' id = by_id c' !! id) by (intros id; unfold server; by rewrite Hmap).
  split; [|done]. apply world_next with (1 := Hok) (2 := Hun); cbn [worldCut leader_ world'].
  - rewrite Ha. apply Hok.
  - intros Hz%Hauth. rewrite Ha. split; [by apply Hok|]. intros id Hin. rewrite Ht in Hin. rewrite Hserver.
    apply Hvote; [done|]. by apply (wo_voters _ Hok Hz).
  - intros id [Hid|Hid]%elem_of_app; unfold asked.
    + assert (Hid' : id ∈ ids c') by (unfold ids; rewrite <-Hp; exact Hid). apply Hids in Hid' as [?|?].
      * apply elem_of_app. by left.
      * apply elem_of_app. right. apply elem_of_app. by left.
    + rewrite Ha in Hid. apply elem_of_app. right. apply elem_of_app. by right.
  - rewrite Hindex. split; [lia|done].
  - done.
  - by left.
  - by rewrite Hserver.
  - unfold missing. rewrite Ht. change (conf world') with (cutConfiguration cut) in *. by rewrite Hmap.
  - intros id Hin Hv. rewrite Hserver in Hv. pose proof (Hproven id Hin Hv) as Hpr.
    destruct (proven_evidence _ _ Hpr) as [e He]. eapply proven_kept; try done.
    + rewrite (refresh_again world world'); [exact He|by left|done].
    + by rewrite Hserver.
Qed.

Lemma upsert_map c suffrage id :
  by_id (server_of suffrage id :: without id c) = <[id := server_of suffrage id]> (by_id c).
Proof. change (by_id (server_of suffrage id :: without id c)) with (<[id := server_of suffrage id]> (by_id (without id c))).
  by rewrite by_id_without, insert_delete_eq. Qed.

Lemma not_configured world id : world_ok world → server world id = None → id ∉ ids (Servers (conf world)).
Proof. intros Hok Hn Hin. apply in_by_id in Hin as [s Hs]; [|apply Hok]. unfold server in Hn. congruence. Qed.

Lemma todo_less world world' : (authorized world' ↔ authorized world) → targets world' = targets world →
  leader_ world' = leader_ world →
  2 * size (missing world') + 2 * size (unvoting world') + unproved world' + size (extras world') <
    2 * size (missing world) + 2 * size (unvoting world) + unproved world + size (extras world) →
  todo world' < todo world.
Proof.
  intros Ha Ht Hl Hlt. unfold todo. rewrite Ht, Hl.
  destruct (decide (authorized world')), (decide (authorized world)); try tauto; lia.
Qed.

Lemma target_valid world id : world_ok world → id ∈ targets world → Domain.DeviceID_Valid id = true.
Proof. intros Hok Hin. apply (wo_members _ Hok). unfold asked. set_solver. Qed.

(** ** A target device that is written with a new suffrage *)

Definition upserted (world : World) (suffrage : Suffrage) (id : string) : Configuration :=
  server_of suffrage id :: without id (Servers (conf world)).

(** It is added as a nonvoter, or it is proven and promoted. *)
Definition may_upsert (world : World) (suffrage : Suffrage) (id : string) : Prop :=
  (suffrage = Nonvoter ∧ server world id = None) ∨
  (suffrage = Voter ∧ suffrage_is Nonvoter (server world id) = true ∧ id ∈ proven world).

Lemma upserted_lookup world suffrage id x :
  by_id (upserted world suffrage id) !! x =
    if decide (x = id) then Some (server_of suffrage id) else server world x.
Proof.
  unfold upserted. rewrite upsert_map. destruct (decide (x = id)) as [->|Hne].
  - by apply lookup_insert_eq.
  - by apply lookup_insert_ne.
Qed.

Lemma upserted_dom world suffrage id :
  dom (by_id (upserted world suffrage id)) = {[id]} ∪ dom (by_id (Servers (conf world))).
Proof. unfold upserted. rewrite upsert_map. set_solver. Qed.

Lemma upserted_room world suffrage id : world_ok world → id ∈ targets world → may_upsert world suffrage id →
  (size (by_id (upserted world suffrage id)) +
   size (list_to_set (targets world) ∖ dom (by_id (upserted world suffrage id)) : gset string) ≤ 8)%nat.
Proof.
  intros Hok Hin Hcase. etrans; [|exact (wo_room _ Hok)]. rewrite <-!size_dom, upserted_dom. unfold missing.
  destruct Hcase as [[-> Hn]|(-> & (s & Hs & _)%suffrage_is_true & _)].
  - assert (id ∉ dom (by_id (Servers (conf world)))) by (apply not_elem_of_dom; done).
    rewrite size_union, size_singleton by set_solver.
    enough (S (size ((list_to_set (targets world) : gset string) ∖ ({[id]} ∪ dom (by_id (Servers (conf world)))))) ≤
      size ((list_to_set (targets world) : gset string) ∖ dom (by_id (Servers (conf world))))) by lia.
    apply subset_size. set_solver.
  - assert (id ∈ dom (by_id (Servers (conf world)))) by (apply elem_of_dom; by exists s).
    apply Nat.add_le_mono; apply subseteq_size; set_solver.
Qed.

(** The leader is another device, which votes. *)
Lemma upsert_leader world suffrage id : world_ok world → may_upsert world suffrage id → leader_ world ≠ id.
Proof.
  intros Hok Hcase Heq. destruct (wo_leader _ Hok) as [_ Hl]. rewrite Heq in Hl.
  destruct Hcase as [[_ Hn]|(_ & Hn & _)]; destruct (server world id); try done. cbn in *. bools. congruence.
Qed.

Lemma upserted_less world world' suffrage id : id ∈ targets world → may_upsert world suffrage id →
  targets world' = targets world → by_id (Servers (conf world')) = by_id (upserted world suffrage id) →
  2 * size (missing world') + 2 * size (unvoting world') + unproved world' + size (extras world') <
    2 * size (missing world) + 2 * size (unvoting world) + unproved world + size (extras world).
Proof.
  intros Hin Hcase Ht Hmap.
  assert (Hserver : ∀ x, server world' x = if decide (x = id) then Some (server_of suffrage id) else server world x)
    by (intros x; unfold server at 1; rewrite Hmap; apply upserted_lookup).
  assert (Hextras : extras world' = extras world) by (unfold extras; rewrite Hmap, Ht, upserted_dom; set_solver).
  assert (Hmissing : missing world' = missing world ∖ {[id]})
    by (unfold missing; rewrite Hmap, Ht, upserted_dom; set_solver).
  assert (Hu : unvoting world' ⊆ unvoting world).
  { unfold unvoting. rewrite Ht. intros x [Hv Hx]%elem_of_filter. apply elem_of_filter. split; [|done].
    rewrite Hserver in Hv. destruct (decide (x = id)) as [->|Hne]; [|done].
    destruct Hcase as [[_ ->]|(-> & _)]; done. }
  rewrite Hextras, Hmissing. pose proof (unproved_le world').
  destruct Hcase as [[-> Hn]|(-> & Hn & _)].
  - assert (size (missing world ∖ {[id]}) < size (missing world)).
    { apply subset_size. assert (id ∈ missing world); [|set_solver]. unfold missing.
      apply elem_of_difference. split; [by apply elem_of_list_to_set|]. by apply not_elem_of_dom. }
    apply subseteq_size in Hu. lia.
  - assert (size (unvoting world') < size (unvoting world)).
    { apply subset_size. split; [done|]. intros Hsub.
      assert (Hid : id ∈ unvoting world').
      { apply Hsub, elem_of_filter. split; [|by apply elem_of_list_to_set].
        destruct (server world id) as [s|]; [|done]. cbn in Hn |- *. bools. congruence. }
      apply elem_of_filter in Hid as [Hid _]. by rewrite Hserver, decide_True in Hid. }
    assert (size (missing world ∖ {[id]}) ≤ size (missing world)) by (apply subseteq_size; set_solver). lia.
Qed.

Lemma upsert_progress world cut index suffrage id :
  let world' := mkWorld cut (leader_ world) (refreshEligibility (progress_ world) (worldCut world)) in
  world_ok world → unchanged (st world) (cutState cut) →
  StateDecode.CredentialAuthority_ (cutState cut) = StateDecode.CredentialAuthority_ (st world) →
  Domain.ValidUnsignedInteger index = true → (Index (conf world) < index)%N →
  Index (cutConfiguration cut) = index → id ∈ targets world →
  Servers (cutConfiguration cut) ≡ₚ upserted world suffrage id → may_upsert world suffrage id →
  world_ok world' ∧ todo world' < todo world.
Proof.
  intros world' Hok Hun Ha Hvalid Hix Hindex Hin Hp Hcase. pose proof (wo_config _ Hok) as Hc.
  pose proof (upserted_room _ _ _ Hok Hin Hcase) as Hroom. pose proof (upsert_leader _ _ _ Hok Hcase) as Hlead.
  destruct (change_ok world cut index (upserted world suffrage id)) as (Hok' & Hmap & Ht & Hauth); try done.
  - apply upsert_ok; [done|by apply (target_valid world)|by destruct Hcase as [[-> _]|[-> _]]| |].
    + intros ->. destruct Hcase as [[_ Hn]|(? & _)]; [|done]. by apply (not_configured world).
    + rewrite by_id_size in Hroom by apply upsert_NoDup, Hc. cbn [length upserted] in Hroom. lia.
  - intros x [->|Hx%ids_without]%elem_of_cons; [by right|left; apply Hx].
  - rewrite upserted_lookup, decide_False by done. apply (wo_leader _ Hok).
  - intros x Hx Hv. rewrite upserted_lookup. destruct (decide (x = id)) as [->|Hne]; [|done].
    destruct Hcase as [[_ Hn]|(-> & _)]; [by rewrite Hn in Hv|done].
  - intros x Hx Hv. rewrite upserted_lookup in Hv.
    destruct (decide (x = id)) as [->|Hne]; [|by apply (wo_proven _ Hok)].
    destruct Hcase as [[-> _]|(_ & _ & ?)]; done.
  - fold world' in Hok', Hmap, Ht, Hauth. split; [done|]. apply todo_less; [done|done|done|].
    by apply (upserted_less _ _ suffrage id).
Qed.

(** An extra device that is removed. *)
Lemma remove_progress world cut index id :
  let world' := mkWorld cut (leader_ world) (refreshEligibility (progress_ world) (worldCut world)) in
  world_ok world → unchanged (st world) (cutState cut) →
  StateDecode.CredentialAuthority_ (cutState cut) = StateDecode.CredentialAuthority_ (st world) →
  Domain.ValidUnsignedInteger index = true → (Index (conf world) < index)%N →
  Index (cutConfiguration cut) = index → id ∉ targets world → id ≠ leader_ world →
  is_Some (server world id) → all_vote world →
  Servers (cutConfiguration cut) ≡ₚ without id (Servers (conf world)) →
  world_ok world' ∧ todo world' < todo world.
Proof.
  intros world' Hok Hun Ha Hvalid Hix Hindex Hout Hlead Hsome Hall Hp. pose proof (wo_config _ Hok) as Hc.
  assert (Hother : ∀ x, x ≠ id → by_id (without id (Servers (conf world))) !! x = server world x).
  { intros x Hx. rewrite by_id_without. by apply lookup_delete_ne. }
  assert (Hdom : dom (by_id (without id (Servers (conf world)))) = dom (by_id (Servers (conf world))) ∖ {[id]})
    by (rewrite by_id_without; set_solver).
  assert (Hmissing : list_to_set (targets world) ∖ dom (by_id (without id (Servers (conf world)))) = missing world).
  { unfold missing. rewrite Hdom. apply set_eq. intros x. rewrite !elem_of_difference, elem_of_list_to_set.
    destruct (decide (x = id)); set_solver. }
  destruct (wo_leader _ Hok) as [_ Hl].
  destruct (change_ok world cut index (without id (Servers (conf world)))) as (Hok' & Hmap & Ht & Hauth); try done.
  - apply without_ok; [done|]. apply suffrage_is_true in Hl as (s & Hs & Hv).
    apply server_by_id in Hs as [Hs He]; [|done]. exists s. by rewrite He.
  - intros x [Hx _]%ids_without. by left.
  - by rewrite Hother.
  - intros x Hx Hv. rewrite Hother; [done|]. by intros ->.
  - rewrite Hmissing. etrans; [|exact (wo_room _ Hok)]. apply Nat.add_le_mono_r.
    rewrite <-!size_dom, Hdom. apply subseteq_size. set_solver.
  - intros x Hx Hv. apply (wo_proven _ Hok); [done|]. by apply Hall.
  - fold world' in Hok', Hmap, Ht, Hauth. split; [done|]. apply todo_less; [done|done|done|].
    assert (Hserver : ∀ x, x ∈ targets world → server world' x = server world x).
    { intros x Hx. unfold server. rewrite Hmap. apply Hother. by intros ->. }
    assert (Hall' : all_vote world').
    { intros x Hx. rewrite Ht in Hx. rewrite Hserver by done. by apply Hall. }
    rewrite (unproved_vote _ Hall). rewrite (unproved_vote _ Hall').
    assert (Hm : missing world' = missing world) by (rewrite <-Hmissing; unfold missing; by rewrite Hmap, Ht).
    assert (Hu : size (unvoting world') ≤ size (unvoting world)).
    { apply subseteq_size. unfold unvoting. rewrite Ht. intros x [Hv Hx]%elem_of_filter.
      apply elem_of_filter. split; [|done]. rewrite <-Hserver; [done|]. by apply elem_of_list_to_set in Hx. }
    assert (Hx : size (extras world') < size (extras world)).
    { apply subset_size. unfold extras. rewrite Hmap, Ht, Hdom.
      assert (id ∈ dom (by_id (Servers (conf world)))) by by apply elem_of_dom.
      assert (id ∉ (list_to_set (targets world) : gset string)) by by rewrite elem_of_list_to_set. set_solver. }
    rewrite Hm. lia.
Qed.

(** The same configuration: the target, the servers and the statuses stay. *)
Lemma same_servers world world' : unchanged (st world) (st world') → conf world' = conf world →
  targets world' = targets world ∧ missing world' = missing world ∧ unvoting world' = unvoting world ∧
  extras world' = extras world ∧ (all_vote world' ↔ all_vote world) ∧ ∀ id, server world' id = server world id.
Proof.
  intros [Ht _ _ _] Hc. assert (Htt : targets world' = targets world) by (unfold targets; by rewrite Ht).
  unfold missing, unvoting, extras, all_vote, server. rewrite Htt, Hc. done.
Qed.

(** A world with the same configuration: what is left to show. *)
Lemma same_ok world world' : world_ok world → unchanged (st world) (st world') → conf world' = conf world →
  (StateDecode.CredentialAuthority_ (st world') = StateDecode.CredentialAuthority_ (st world) ∨
   all_vote world ∧
   CredentialAuthority.is_valid (StateDecode.CredentialAuthority_ (st world')) = true ∧
   CredentialAuthority.SessionID (StateDecode.CredentialAuthority_ (st world')) =
     VoterSet.SessionID (StateDecode.VoterSet_ (st world)) ∧
   CredentialAuthority.VoterSetVersion (StateDecode.CredentialAuthority_ (st world')) =
     VoterSet.VoterSetVersion (StateDecode.VoterSet_ (st world)) ∧
   CredentialAuthority.VoterDeviceIDs (StateDecode.CredentialAuthority_ (st world')) = targets world) →
  (leader_ world' = leader_ world ∨ all_vote world ∧ leader_ world' ∈ targets world) →
  (∀ id, id ∈ targets world → suffrage_is Voter (server world id) = true → id ∈ proven world') →
  world_ok world'.
Proof.
  intros Hok Hun Hconf Ha Hl Hproven. destruct (same_servers _ _ Hun Hconf) as (Ht & Hm & _ & _ & Hv & Hs).
  apply world_next with (1 := Hok) (2 := Hun); rewrite ?Hconf, ?Hm; try apply Hok.
  - destruct Ha as [->|(_ & ? & ? & Hx & _)]; [apply Hok|]. rewrite Hx. split_and!; [done..|lia].
  - intros Hz. destruct Ha as [Ha|(Hall & _ & _ & _ & ?)]; [|split; [done|by apply Hv]].
    assert (Hauth : authorized world) by (unfold authorized in *; by rewrite <-Ha, <-(un_target _ _ Hun)).
    rewrite Ha. split; [by apply (wo_same _ Hok)|]. by apply Hv, (wo_voters _ Hok).
  - intros id [Hid|Hid]%elem_of_app; unfold asked; rewrite !elem_of_app; [by left|].
    destruct Ha as [Ha|(_ & _ & _ & _ & Ha)]; rewrite Ha in Hid; [by right; right|by right; left].
  - destruct Hl as [->|[_ ?]]; [by left|by right].
  - rewrite Hs. destruct Hl as [->|[Hall ?]]; [apply (wo_leader _ Hok)|by apply Hall].
  - intros id Hin. rewrite Hs. by apply Hproven.
Qed.

(** Evidence that the loop keeps is kept. *)
Lemma same_proven world world' id evidence : world_ok world →
  unchanged (st world) (st world') → conf world' = conf world →
  eligibility_ (refreshEligibility (progress_ world') (worldCut world')) !! id = Some evidence →
  eligibility_ (refreshEligibility (progress_ world) (worldCut world)) !! id = Some evidence →
  id ∈ proven world → suffrage_is Voter (server world id) = true → id ∈ proven world'.
Proof.
  intros Hok Hun Hconf Hnew Hold Hp Hv. eapply proven_kept; try done.
  - rewrite Hconf. apply Hok.
  - unfold server. by rewrite Hconf.
Qed.

Lemma prove_progress world cut id proof evidence :
  let progress := refreshEligibility (progress_ world) (worldCut world) in
  let world' := mkWorld cut (leader_ world)
                  (mkProgress (eligibleVersion progress) (<[id := evidence]> (eligibility_ progress))) in
  world_ok world → unchanged (st world) (cutState cut) →
  StateDecode.CredentialAuthority_ (cutState cut) = StateDecode.CredentialAuthority_ (st world) →
  cutConfiguration cut = conf world →
  newStagingVoterEligibility (cutState cut) (conf world) id proof = inr evidence →
  (∃ i, first_nonvoter world = Some (i, id)) → id ∉ proven world →
  world_ok world' ∧ todo world' < todo world.
Proof.
  intros progress world' Hok Hun Ha Hconf Hnew [i Hfirst] Hnot.
  assert (Hrefresh : refreshEligibility (progress_ world') (worldCut world') = progress_ world')
    by (apply (refresh_again world world'); [by right|done]).
  unfold newStagingVoterEligibility in Hnew. apply throw_inr in Hnew as [Hvalid Hnew]. injection Hnew as Hnew.
  assert (Hid : evidenceDeviceID evidence = id) by by subst evidence.
  rewrite Hnew in Hvalid. bools. destruct Hvalid as [[Hvalid _] _].
  assert (Hin : id ∈ proven world').
  { unfold proven. rewrite Hrefresh. eapply proven_intro; [apply lookup_insert_eq|exact Hid|]. cbn. by rewrite Hconf. }
  destruct (same_servers world world' Hun Hconf) as (Ht & Hm & Hu & Hx & _ & Hs).
  assert (Hok' : world_ok world').
  { apply same_ok with (1 := Hok) (2 := Hun); [done|by left|by left|]. intros x Hx' Hv.
    destruct (decide (x = id)) as [->|Hne]; [done|].
    pose proof (wo_proven _ Hok x Hx' Hv) as Hp. destruct (proven_evidence _ _ Hp) as [e He].
    apply (same_proven world world' x e); try done. rewrite Hrefresh. cbn [progress_ world' eligibility_].
    etrans; [by apply lookup_insert_ne|exact He]. }
  split; [done|]. apply todo_less; [|done|done|].
  - unfold authorized. cbn. by rewrite Ha, (un_target _ _ Hun).
  - rewrite Hm, Hu, Hx. unfold unproved.
    assert (Hf' : first_nonvoter world' = first_nonvoter world).
    { unfold first_nonvoter. rewrite Ht. apply list_find_ext. intros x. by rewrite Hs. }
    rewrite Hf', Hfirst. rewrite decide_True by done. rewrite decide_False by done. lia.
Qed.

Lemma activate_progress world cut :
  let world' := mkWorld cut (leader_ world) (refreshEligibility (progress_ world) (worldCut world)) in
  world_ok world → unchanged (st world) (cutState cut) → cutConfiguration cut = conf world →
  all_vote world → ¬ authorized world →
  CredentialAuthority.is_valid (StateDecode.CredentialAuthority_ (cutState cut)) = true →
  CredentialAuthority.SessionID (StateDecode.CredentialAuthority_ (cutState cut)) =
    VoterSet.SessionID (StateDecode.VoterSet_ (st world)) →
  CredentialAuthority.VoterSetVersion (StateDecode.CredentialAuthority_ (cutState cut)) =
    VoterSet.VoterSetVersion (StateDecode.VoterSet_ (st world)) →
  CredentialAuthority.VoterDeviceIDs (StateDecode.CredentialAuthority_ (cutState cut)) = targets world →
  world_ok world' ∧ todo world' < todo world.
Proof.
  intros world' Hok Hun Hconf Hall Hnot Hvalid Hsession Hversion Hids.
  assert (Hrefresh : refreshEligibility (progress_ world') (worldCut world') = progress_ world')
    by (apply (refresh_again world world'); [by left|done]).
  destruct (same_servers world world' Hun Hconf) as (Ht & Hm & Hu & Hx & Hv & _).
  split.
  - apply same_ok with (1 := Hok) (2 := Hun); [done|by right|by left|]. intros x Hin Hvote.
    pose proof (wo_proven _ Hok x Hin Hvote) as Hp. destruct (proven_evidence _ _ Hp) as [e He].
    apply (same_proven world world' x e); try done. by rewrite Hrefresh.
  - unfold todo. rewrite Hm, Hu, Hx, Ht, (unproved_vote world'), (unproved_vote world) by (done || by apply Hv).
    rewrite (decide_True (P := authorized world')) by (unfold authorized; cbn; by rewrite Hversion, (un_target _ _ Hun)).
    rewrite (decide_False (P := authorized world)) by done. cbn [leader_ world']. lia.
Qed.

Lemma transfer_progress world cut id :
  let world' := mkWorld cut id startProgress in
  world_ok world → unchanged (st world) (cutState cut) → cutConfiguration cut = conf world →
  StateDecode.CredentialAuthority_ (cutState cut) = StateDecode.CredentialAuthority_ (st world) →
  all_vote world → leader_ world ∉ targets world → id ∈ targets world →
  world_ok world' ∧ todo world' < todo world.
Proof.
  intros world' Hok Hun Hconf Ha Hall Hout Hin.
  destruct (same_servers world world' Hun Hconf) as (Ht & Hm & Hu & Hx & Hv & Hs).
  split.
  - apply same_ok with (1 := Hok) (2 := Hun); [done|by left|by right|]. intros x Hx' Hvote.
    unfold proven. rewrite refresh_fresh; [|right; cbn; rewrite (un_target _ _ Hun); apply Hok|done].
    cbn [eligibility_]. apply initial_proven; cbn; rewrite ?Hconf, ?(un_target _ _ Hun), ?(un_status _ _ Hun);
      try done; by apply Hok.
  - unfold todo. rewrite Hm, Hu, Hx, Ht, (unproved_vote world'), (unproved_vote world) by (done || by apply Hv).
    cbn [leader_ world']. rewrite (decide_True (P := id ∈ targets world)) by done.
    rewrite (decide_False (P := leader_ world ∈ targets world)) by done.
    assert (Hauth : authorized world' ↔ authorized world).
    { unfold authorized. cbn. by rewrite Ha, (un_target _ _ Hun). }
    destruct (decide (authorized world')), (decide (authorized world)); try tauto; lia.
Qed.

(** ** The plan of a round is executed *)

Definition executable (plan : Plan) : bool :=
  match action_ plan with Invalid | Stalled | Stable => false | _ => true end.

Lemma filter_all {A} (P : A → Prop) `{∀ x, Decision (P x)} (l : list A) : (∀ x, x ∈ l → P x) → filter P l = l.
Proof.
  induction l as [|x l IH]; [done|]. intros Hall. rewrite filter_cons_True by (apply Hall; left).
  f_equal. apply IH. intros y Hy. apply Hall. by right.
Qed.

Lemma find_ext {A} (P Q : A → Prop) `{∀ x, Decision (P x), ∀ x, Decision (Q x)} (l : list A) :
  (∀ x, x ∈ l → P x ↔ Q x) → list_find P l = list_find Q l.
Proof.
  induction l as [|x l IH]; [done|]. intros Hall. cbn. pose proof (Hall x (list_elem_of_here _ _)) as Hx.
  rewrite IH by (intros y Hy; apply Hall; by right).
  destruct (decide (P x)), (decide (Q x)); tauto.
Qed.

Lemma quorum_without (voters some : list string) id : NoDup voters → quorum voters some →
  id ∈ voters → id ∉ some ∨ (∀ x, x ∈ voters → x ∈ some) ∧ 2 ≤ length voters →
  length (filter (λ x, x ≠ id) voters) / 2 + 1 ≤ length (filter (λ x, x ∈ some) (filter (λ x, x ≠ id) voters)).
Proof.
  intros Hnd (Hsn & Hsub & Hlen) Hin Hcase.
  assert (Hlt : S (length (filter (λ x, x ≠ id) voters)) ≤ length voters).
  { change (S (length (filter (λ x, x ≠ id) voters))) with (length (id :: filter (λ x, x ≠ id) voters)).
    apply submseteq_length, NoDup_submseteq.
    - constructor; [by intros [? _]%list_elem_of_filter|by apply NoDup_filter].
    - intros x [->|[_ Hx]%list_elem_of_filter]%elem_of_cons; done. }
  pose proof (Nat.div_mod_eq (length (filter (λ x, x ≠ id) voters)) 2).
  destruct Hcase as [Hout|[Hall Htwo]].
  - enough (length some ≤ length (filter (λ x, x ∈ some) (filter (λ x, x ≠ id) voters))) by lia.
    apply submseteq_length, NoDup_submseteq; [done|]. intros x Hx. apply list_elem_of_filter. split; [done|].
    apply list_elem_of_filter. split; [by intros ->|by apply Hsub].
  - pose proof (length_without voters id Hnd).
    assert (Hf : filter (λ x, x ∈ some) (filter (λ x, x ≠ id) voters) = filter (λ x, x ≠ id) voters).
    { apply filter_all. intros x [_ Hx]%list_elem_of_filter. by apply Hall. }
    rewrite Hf. lia.
Qed.

Lemma suffrage_some suffrage o : suffrage_is suffrage o = true → is_Some o.
Proof. by destruct o. Qed.

(** The voters that are active and ready. *)
Definition ready_voters (world : World) (ready : gset string) : list string :=
  filter (λ id, readyVoter (input_of world ready (proven world)) id = true)
    (voters_of Voter (Servers (conf world))).

Lemma ready_voters_elem world ready id : world_ok world →
  id ∈ ready_voters world ready ↔
  id ∈ voters_of Voter (Servers (conf world)) ∧ id ∈ ready ∧
  status_of (st world) id = Some Device.StatusActive.
Proof.
  intros Hok. unfold ready_voters, readyVoter, containsDevice. rewrite list_elem_of_filter.
  cbn [memberStatus reachable input_of]. rewrite memberStatuses_lookup, andb_true_iff, !bool_decide_eq_true.
  split; [intros [[Hs Hr] Hv]; split_and!; try done|intros (Hv & Hr & Hs); split; [split|]; try done].
  - by destruct (decide _).
  - rewrite decide_True; [done|]. apply elem_of_app. left. exact (voters_of_ids _ _ (wo_config _ Hok) _ Hv).
Qed.

Lemma ready_voters_quorum world ready : world_ok world → ready_ok world ready →
  quorum (voters_of Voter (Servers (conf world))) (ready_voters world ready).
Proof.
  intros Hok Hready. destruct (ro_quorum _ _ Hready) as (base & (Hb1 & Hb2 & Hb3) & Hbase). split_and!.
  - by apply NoDup_filter, voters_of_NoDup, Hok.
  - intros id [_ ?]%list_elem_of_filter. done.
  - eapply Nat.lt_le_trans; [exact Hb3|]. apply Nat.mul_le_mono_l, submseteq_length, NoDup_submseteq; [done|].
    intros id Hid. apply ready_voters_elem; [done|]. split; [by apply Hb2|by apply Hbase].
Qed.

Lemma votersWithout_perm world ready eligible id : world_ok world →
  votersWithout (state_of (input_of world ready eligible)) id ≡ₚ
    filter (λ x, x ≠ id) (voters_of Voter (Servers (conf world))).
Proof.
  intros Hok. apply NoDup_Permutation; [|by apply NoDup_filter, voters_of_NoDup, Hok|].
  - unfold votersWithout. eapply sublist_NoDup.
    + exact (NoDup_fst_map_to_list (servers (state_of (input_of world ready eligible)))).
    + apply fmap_sublist, sublist_filter.
  - intros x. unfold votersWithout.
    rewrite list_elem_of_fmap, list_elem_of_filter, voters_of_elem, suffrage_is_true by apply Hok. split.
    + intros ([y s] & -> & [[Hs Hne] Hin%elem_of_map_to_list]%list_elem_of_filter). split; [done|]. by exists s.
    + intros [Hne (s & Hs & Hv)]. exists (x, s). split; [done|]. apply list_elem_of_filter. split; [done|].
      by apply elem_of_map_to_list.
Qed.

(** A voter can go when it is not ready, or when all voters are. *)
Lemma removal_quorum world ready id : world_ok world → ready_ok world ready →
  let voters := voters_of Voter (Servers (conf world)) in
  let input := input_of world ready (proven world) in
  id ∈ voters →
  id ∉ ready_voters world ready ∨ (∀ x, x ∈ voters → x ∈ ready_voters world ready) ∧ 2 ≤ length voters →
  postRemovalHasReachableActiveQuorum (state_of input) input id = true.
Proof.
  intros Hok Hready voters input Hid Hcase. set (some := ready_voters world ready) in *.
  assert (Hnd : NoDup voters) by apply voters_of_NoDup, Hok.
  pose proof (quorum_without voters some id Hnd (ready_voters_quorum _ _ Hok Hready) Hid Hcase) as Hle.
  pose proof (votersWithout_perm world ready (proven world) id Hok) as Hleft. fold input voters in Hleft.
  unfold postRemovalHasReachableActiveQuorum, llen. rewrite Hleft.
  assert (Hready' : length (filter (λ x, x ∈ some) (filter (λ x, x ≠ id) voters)) ≤
    length (filter (λ x, readyVoter input x = true) (filter (λ x, x ≠ id) voters))).
  { apply submseteq_length, NoDup_submseteq; [by apply NoDup_filter, NoDup_filter|].
    intros x [[Hr Hx]%list_elem_of_filter Hne]%list_elem_of_filter. by apply list_elem_of_filter. }
  pose proof (length_filter (λ x, readyVoter input x = true) (filter (λ x, x ≠ id) voters)) as Hfilter.
  set (n := length (filter (λ x, x ≠ id) voters)) in *.
  pose proof (Nat.div_mod_eq n 2). pose proof (N.div_mod' (N.of_nat n) 2).
  pose proof (Nat.mod_upper_bound n 2 ltac:(done)). pose proof (N.mod_lt (N.of_nat n) 2 ltac:(done)).
  bools. split; lia.
Qed.

(** Some extra voter can go. *)
Lemma removable world ready : world_ok world → ready_ok world ready → all_vote world →
  leader_ world ∈ targets world →
  (∃ id, extra Voter (input_of world ready (proven world)) id) →
  ∃ id, extra Voter (input_of world ready (proven world)) id ∧ id ≠ leader_ world ∧
    postRemovalHasReachableActiveQuorum (state_of (input_of world ready (proven world)))
      (input_of world ready (proven world)) id = true.
Proof.
  intros Hok Hready Hall Hlead [any [Hout Hany]]. set (voters := voters_of Voter (Servers (conf world))).
  assert (Hvoters : ∀ id, id ∈ voters ↔ suffrage_is Voter (server world id) = true)
    by (intros id; apply voters_of_elem, Hok).
  assert (Htarget : ∀ id, id ∈ targets world → id ∈ ready_voters world ready).
  { intros id Hid. apply ready_voters_elem; [done|]. split_and!; [by apply Hvoters, Hall| |by apply (wo_active _ Hok)].
    apply (ro_targets _ _ Hready _ Hid). exact (suffrage_some _ _ (Hall id Hid)). }
  destruct (decide (Exists (λ id, id ∉ targets world ∧ id ∉ ready_voters world ready) voters)) as [Hex|Hnone].
  - apply Exists_exists in Hex as (id & Hid & Hextra & Hn). exists id. split_and!.
    + split; [done|]. by apply Hvoters.
    + by intros ->.
    + apply removal_quorum; [done..|by left].
  - apply Hvoters in Hany as Hin. exists any. split_and!; [by split|by intros ->|].
    apply removal_quorum; [done..|]. right. split.
    + intros x Hx. destruct (decide (x ∈ ready_voters world ready)) as [|Hns]; [done|]. exfalso.
      apply Hnone, Exists_exists. exists x. split; [done|]. split; [|done]. intros Ht. by apply Hns, Htarget.
    + change 2 with (length [leader_ world; any]). apply submseteq_length, NoDup_submseteq.
      * apply NoDup_cons. split; [|apply NoDup_singleton]. intros Heq%list_elem_of_singleton.
        apply Hout. by rewrite <-Heq.
      * intros x [Hx|Hx%list_elem_of_singleton]%elem_of_cons; subst x; [|done]. by apply Hvoters, Hall.
Qed.

(** No round stalls. *)
Lemma plan_executes world ready : world_ok world → ready_ok world ready →
  let input := input_of world ready (proven world) in
  input_ok input → executable (planVoterReconciliation input) = true ∨
    action_ (planVoterReconciliation input) = Stable ∧ converged world.
Proof.
  intros Hok Hready input Hinput. pose proof (plan_inv _ Hinput) as Hp.
  pose proof (stable_converged world ready (proven world) _ Hok Hp) as Hstable.
  destruct Hp as [| |id Hin Hn Hout| |Hall Hlead Hno| | |Hall Hlead Ha Hex Hno| |]; try (by left); try (by right; auto).
  - left. unfold executable. cbn. by destruct (containsDevice _ _).
  - exfalso. apply Hout. apply (ro_targets _ _ Hready); [done|]. cbn in Hn. unfold server. by destruct (_ !! id).
  - exfalso. destruct (targets world) as [|id l] eqn:Ht.
    { pose proof (VoterSet.voters_valid_inv _ (wo_target _ Hok)) as (_ & _ & Hcount & _).
      unfold VoterSet.voterCount, llen in Hcount. fold (targets world) in Hcount. rewrite Ht in Hcount.
      cbn in Hcount. lia. }
    assert (Hin : id ∈ targets world) by (rewrite Ht; left).
    apply (Hno id Hin). pose proof (Hall id Hin) as Hv. split.
    + apply (ro_targets _ _ Hready _ Hin). cbn in Hv. unfold server. by destruct (_ !! id).
    + by apply (wo_proven _ Hok).
  - exfalso. destruct (removable world ready Hok Hready Hall Hlead Hex) as (id & Hid & Hne & Hq).
    exact (eq_true_false_abs _ Hq (Hno id Hid Hne)).
Qed.

Section Progress.
Context `{RaftLib}.

Lemma act_progress world ready world' : world_ok world → ready_ok world ready →
  let input := input_of world ready (proven world) in
  input_ok input →
  act world (planVoterReconciliation input) (refreshEligibility (progress_ world) (worldCut world)) world' →
  world_ok world' ∧ todo world' < todo world.
Proof.
  intros Hok Hready input Hinput Hact. pose proof (plan_inv _ Hinput) as Hp.
  destruct Hact as [change index cut Hc Hun Ha Hvalid Hix Hconf|proof evidence cut Hk Hun Ha Hconf Hnew
    |cut Hk Hun Hv Hs Hversion Hids Hconf|cut Hk Hun Ha Hconf].
  - assert (Hservers : Servers (cutConfiguration cut) = nextConfiguration (Servers (conf world)) change)
      by by rewrite Hconf.
    assert (Hindex : Index (cutConfiguration cut) = index) by by rewrite Hconf.
    destruct Hp as [id Hin Hno|id _ Hin Hn _ _| | | | |id Hall Hlead Hact [Hout Hsu] Hne _| |id Hall Hlead Hact _ [Hout Hsu]|];
      try discriminate Hc.
    + injection Hc as <-. eapply upsert_progress with (suffrage := Nonvoter) (id := id); try done; [|by left].
      rewrite Hservers. pose proof (not_configured _ _ Hok Hno) as Hout.
      rewrite next_add_nonvoter by done. unfold upserted. by rewrite filter_id.
    + destruct (containsDevice _ _) eqn:Hel; [|discriminate Hc]. injection Hc as <-.
      eapply upsert_progress with (suffrage := Voter) (id := id); try done.
      * rewrite Hservers. apply next_add_voter.
      * right. unfold containsDevice in Hel. bools. done.
    + injection Hc as <-. eapply remove_progress with (id := id); try done.
      * exact (suffrage_some _ _ Hsu).
      * rewrite Hservers. apply next_remove.
    + injection Hc as <-. eapply remove_progress with (id := id); try done.
      * intros ->. destruct (wo_leader _ Hok) as [_ Hl]. cbn in Hsu. unfold server in Hl.
        destruct (_ !! leader_ world); [|done]. cbn in *. bools. congruence.
      * exact (suffrage_some _ _ Hsu).
      * rewrite Hservers. apply next_remove.
  - destruct Hp as [|id Hconfigured Hin Hn Hr [i Hfirst]| | | | | | | |]; try discriminate Hk.
    destruct (containsDevice _ _) eqn:Hel; [discriminate Hk|]. unfold containsDevice in Hel. bools.
    eapply prove_progress; try done.
    exists i. cbn [deviceID action]. unfold first_nonvoter. rewrite <-Hfirst. apply find_ext. intros x Hx. split; [|tauto].
    intros Hnx. split; [done|]. apply (ro_targets _ _ Hready _ Hx). by apply Hconfigured.
  - destruct Hp as [|id ? ? ? ? ?| | | |Hall Hno| | | |]; try discriminate Hk; [by destruct (containsDevice _ _)|].
    apply activate_progress; try done. intros Hz. unfold activated in Hno. cbn in Hno. by apply N.eqb_neq in Hno.
  - destruct Hp as [|id ? ? ? ? ?| |id Hall Hout Hin _ _| | | | | |]; try discriminate Hk; [by destruct (containsDevice _ _)|].
    by apply transfer_progress.
Qed.

Lemma act_unchanged world plan progress world' : act world plan progress world' → targets world' = targets world.
Proof.
  intros []; unfold targets; cbn; match goal with Hu : unchanged _ _ |- _ => by rewrite (un_target _ _ Hu) end.
Qed.

(** The rounds from one that starts well. *)
Lemma rounds_end worlds gates :
  (∀ n, gate_ready (worlds n) (gates n)) →
  (∀ n plan progress, round (worlds n) (gates n) = inr (plan, progress) → executable plan = true →
     act (worlds n) plan progress (worlds (S n))) →
  ∀ fuel start, world_ok (worlds start) → todo (worlds start) ≤ fuel →
  ∃ last plan progress, start ≤ last ≤ start + fuel ∧
    round (worlds last) (gates last) = inr (plan, progress) ∧ action_ plan = Stable ∧
    converged (worlds last) ∧ targets (worlds last) = targets (worlds start) ∧
    ∀ n, start ≤ n < last → ∃ plan progress,
      round (worlds n) (gates n) = inr (plan, progress) ∧ executable plan = true.
Proof.
  intros Hgates Hacts. induction fuel as [fuel IH] using lt_wf_ind. intros start Hok Hfuel.
  destruct (round_cases _ _ Hok (Hgates start)) as [(plan & progress & Hr & Hs & Hc)|(ready & Hready & Hinput & Hr)].
  - exists start, plan, progress. split_and!; try done; [lia|]. intros n Hn. lia.
  - destruct (plan_executes _ _ Hok Hready Hinput) as [He|[Hs Hc]].
    + pose proof (Hacts _ _ _ Hr He) as Hact. destruct (act_progress _ _ _ Hok Hready Hinput Hact) as [Hok' Hless].
      destruct (IH (todo (worlds (S start))) ltac:(lia) (S start) Hok' ltac:(lia))
        as (last & plan & progress & Hrange & Hrl & Hs & Hc & Ht & Hall).
      exists last, plan, progress. split_and!; try done; [lia|lia| |].
      * rewrite Ht. by eapply act_unchanged.
      * intros n Hn. destruct (decide (n = start)) as [->|Hne]; [by do 2 eexists|]. apply Hall. lia.
    + do 3 eexists. split_and!; [done|lia|exact Hr|done|done|done|]. intros n Hn. lia.
Qed.

End Progress.
End Lib.
End WorldProofs.

(** ** Theorem *)

Module ReconciliationLiveness.

Import Topology Readiness Reconciliation ReconciliationProofs AttemptProofs WorldProofs.

Section Lib.
Context `{NormLib, JCSLib, CryptoLib, RaftLib}.

(** C6: In a cooperative environment the reconciler ends at its target. Start it,
    without evidence, at a cut it accepts, of a generation in range, with room for
    the missing targets.
    Assume that in every round the provider's candidate passes the readiness gate
    (so a majority of the voters is ready, and the leader if active) and lists
    every configured target as ready; that the action each round plans takes
    effect before the next (change committed, proof obtained, authority activated,
    leadership passed on); and that other commands leave the target, workspace,
    generation and member statuses, and else the authority, as they were. Then,
    whatever the order of the servers and although each change voids earlier
    evidence, no round is invalid or stalls, across the handover to a new leader,
    and within three rounds for each target device and eleven more a round is
    stable: the configuration has exactly the target devices, all voters, one of
    them leads, and the authority is the target's. *)
Theorem reconciliation_converges worlds gates first :
  staticPlan (leader_ (worlds 0)) (worldCut (worlds 0)) = inr first →
  progress_ (worlds 0) = startProgress →
  Domain.ValidUnsignedInteger (StateDecode.recoveryGeneration (cutState (worldCut (worlds 0)))) = true →
  (size (by_id (Servers (cutConfiguration (worldCut (worlds 0))))) + size (missing (worlds 0)) ≤ 8)%nat →
  (∀ n, gate_ready (worlds n) (gates n)) →
  (∀ n plan progress, round (worlds n) (gates n) = inr (plan, progress) → executable plan = true →
     act (worlds n) plan progress (worlds (S n))) →
  ∃ last plan progress, last ≤ 3 * length (targets (worlds 0)) + 11 ∧
    round (worlds last) (gates last) = inr (plan, progress) ∧ action_ plan = Stable ∧
    converged (worlds last) ∧ targets (worlds last) = targets (worlds 0) ∧
    ∀ n, n < last → ∃ plan progress,
      round (worlds n) (gates n) = inr (plan, progress) ∧ executable plan = true.
Proof.
  intros Hfirst Hfresh Hgeneration Hroom Hgates Hacts.
  pose proof (world_starts _ _ Hfirst Hfresh Hgeneration Hroom) as Hok.
  destruct (rounds_end worlds gates Hgates Hacts _ 0 Hok (todo_bound _ Hok))
    as (last & plan & progress & Hrange & Hr & Hs & Hc & Ht & Hall).
  exists last, plan, progress. split_and!; try done; [lia|]. intros n Hn. apply Hall. lia.
Qed.

End Lib.

(** ** Witness

    The target is the second member; the leader hands the authority and then
    the leadership over, and the new leader removes it. *)

Import Fixtures ReconciliationTheorems.
#[local] Existing Instances norm crypto jcs.

#[local] Instance raft : RaftLib.
Proof.
  refine {| nextConfiguration := λ c change,
    match kind change with
    | raftChangeAddNonvoter =>
        if decide (changeDeviceID change ∈ ids c) then c
        else server_of Nonvoter (changeDeviceID change) :: c
    | raftChangeAddVoter => server_of Voter (changeDeviceID change) :: without (changeDeviceID change) c
    | raftChangeDemoteVoter => c
    | raftChangeRemoveServer => without (changeDeviceID change) c
    end |}; cbn; [|done..].
  intros c id Hout. by rewrite decide_False.
Defined.

Definition next_target : VoterSet.Set_ := VoterSet.mkSet session_id 2 [other_device].
Definition next_authority : CredentialAuthority.Authority :=
  CredentialAuthority.mkAuthority session_id [other_device] 2 CredentialAuthority.ActivationHandoff
    event_id [CredentialAuthority.mkActivationProof other_device (text "{}")] device_id (Some []).

Definition cut_with (authority : CredentialAuthority.Authority) (index : N) (servers : Configuration) : Cut :=
  mkCut (decoded next_target authority) (Coverage.mkSnapshot CoverageProofs.sole_requirement ∅ false)
    (mkCommitted index servers).

(** It reaches every active device. *)
Definition reaching : Provider :=
  mkProvider (λ required, inr (mkCandidate (ActiveDeviceIDs required) (ActiveDeviceIDs required) []))
    (λ _ _, None).

Definition progress_after (world : World) : Progress :=
  match round world reaching with inr (_, progress) => progress | inl _ => startProgress end.

Definition pair : Configuration := [voting device_id; voting other_device].
Definition step0 : World := mkWorld (cut_with sole_authority 7 pair) device_id startProgress.
Definition step1 : World := mkWorld (cut_with next_authority 7 pair) device_id (progress_after step0).
Definition step2 : World := mkWorld (cut_with next_authority 7 pair) other_device startProgress.
Definition step3 : World :=
  mkWorld (cut_with next_authority 9 (without device_id pair)) other_device (progress_after step2).

Definition steps (n : nat) : World :=
  match n with 0 => step0 | 1 => step1 | 2 => step2 | _ => step3 end.

Definition planned_action (world : World) : option (ActionKind * string) :=
  match round world reaching with inr (plan, _) => Some (action_ plan, deviceID plan) | inl _ => None end.

Lemma actions_hold :
  bool_decide (planned_action step0 = Some (ActivateAuthority, EmptyString) ∧
    planned_action step1 = Some (TransferLeadership, other_device) ∧
    planned_action step2 = Some (RemoveVoter, device_id) ∧
    planned_action step3 = Some (Stable, EmptyString)) = true.
Proof. vm_compute. done. Qed.

Definition gate_check (world : World) : bool :=
  match reconciliationReadinessRequirement (cutState (worldCut world)) (cutConfiguration (worldCut world))
          (leader_ world) with
  | inl _ => true
  | inr required =>
      match collect (Some reaching) false required with
      | inl _ => false
      | inr verified =>
          forallb (λ id, bool_decide (id ∈ readyConfigurationDevices (candidate_ verified))) (targets world)
      end
  end.

Lemma gate_check_ok world : gate_check world = true → gate_ready world reaching.
Proof.
  unfold gate_check. intros Hg required Hr. rewrite Hr in Hg.
  destruct (collect _ _ _) as [|verified]; [done|]. exists verified. split; [done|].
  intros id Hid _. rewrite forallb_elem in Hg. by eapply bool_decide_eq_true_1, Hg.
Qed.

Lemma gates_hold : gate_check step0 && gate_check step1 && gate_check step2 && gate_check step3 = true.
Proof. vm_compute. done. Qed.

Definition starts : bool :=
  match staticPlan (leader_ step0) (worldCut step0) with inl _ => false | inr _ => true end &&
  bool_decide (size (by_id (Servers (cutConfiguration (worldCut step0)))) + size (missing step0) ≤ 8)%nat.
Lemma starts_holds : starts = true.
Proof. vm_compute. done. Qed.

Lemma planned_action_inv world plan progress kind id :
  planned_action world = Some (kind, id) → round world reaching = inr (plan, progress) →
  action_ plan = kind ∧ deviceID plan = id ∧ progress_after world = progress.
Proof. unfold planned_action, progress_after. intros Hp Hr. rewrite Hr in *. by injection Hp as <- <-. Qed.

Lemma unchanged_decoded authority authority' :
  unchanged (decoded next_target authority) (decoded next_target authority').
Proof. by split. Qed.

Lemma steps_act n plan progress : round (steps n) reaching = inr (plan, progress) → executable plan = true →
  act (steps n) plan progress (steps (S n)).
Proof.
  intros Hr He. pose proof (bool_decide_eq_true_1 _ actions_hold) as (H0 & H1 & H2 & H3).
  destruct n as [|[|[|n]]].
  - destruct (planned_action_inv _ _ _ _ _ H0 Hr) as (Hk & _ & Hp). cbn [steps]. unfold step1. rewrite Hp.
    by apply act_activate; [|apply unchanged_decoded|vm_compute|..].
  - destruct (planned_action_inv _ _ _ _ _ H1 Hr) as (Hk & Hd & _). cbn [steps]. unfold step2. rewrite <-Hd.
    by apply act_transfer; [|apply unchanged_decoded|..].
  - destruct (planned_action_inv _ _ _ _ _ H2 Hr) as (Hk & Hd & Hp). cbn [steps]. unfold step3. rewrite Hp.
    apply (act_change step2 plan progress (mkChange raftChangeRemoveServer device_id) 9%N).
    + unfold reconciliationConfigurationChange. by rewrite Hk, Hd.
    + apply unchanged_decoded.
    + reflexivity.
    + reflexivity.
    + reflexivity.
    + reflexivity.
  - destruct (planned_action_inv step3 _ _ _ _ H3 Hr) as (Hk & _). unfold executable in He. rewrite Hk in He. discriminate He.
Qed.

Lemma steps_ready n : gate_ready (steps n) reaching.
Proof.
  destruct (andb_prop _ _ gates_hold) as [H012 H3]. destruct (andb_prop _ _ H012) as [H01 H2].
  destruct (andb_prop _ _ H01) as [H0 H1]. destruct n as [|[|[|n]]]; cbn [steps];
    [exact (gate_check_ok _ H0)|exact (gate_check_ok _ H1)|exact (gate_check_ok _ H2)|exact (gate_check_ok _ H3)].
Qed.

Lemma reconciliation_converges_witness : ∃ last, last ≤ 14 ∧ converged (steps last).
Proof.
  pose proof starts_holds as Hs. apply andb_true_iff in Hs as [Hs Hroom%bool_decide_eq_true].
  destruct (staticPlan (leader_ step0) (worldCut step0)) as [|first] eqn:Hfirst; [done|].
  destruct (reconciliation_converges steps (λ _, reaching) first Hfirst eq_refl eq_refl Hroom steps_ready steps_act)
    as (last & _ & _ & Hlast & _ & _ & Hc & _).
  exists last. split; [exact Hlast|exact Hc].
Defined.

(** Without room the planner still adds. Eight servers are configured, one of
    them revoked and not removed yet, and an admitted device is a new target:
    the plan is a ninth server, and no replica stores that configuration
    (node.go:2138, called for each committed configuration by fsm.go:433). *)
Definition eight : Configuration :=
  voting device_id :: ((λ n, voting ("cc1" +:+ of_bytes (repeat n 64))) <$> [97; 98; 99; 100; 101; 102; 48]%N).

Definition statuses : gmap string Device.Status :=
  <["cc1" +:+ of_bytes (repeat 48%N 64) := Device.StatusRevoked]>
    (list_to_map ((λ id, (id, Device.StatusActive)) <$> other_device :: ids eight)).

Definition full_input : Input :=
  mkInput next_target sole_authority (mkCommitted 7 eight) device_id statuses {[device_id]} ∅.

Lemma ninth_server :
  planVoterReconciliation full_input = mkPlan AddNonvoter other_device 7 NoReason ∧
  validateDeviceAddressedSnapshotConfiguration eight = None ∧
  validateDeviceAddressedSnapshotConfiguration
    (nextConfiguration eight (mkChange raftChangeAddNonvoter other_device)) = Some ErrInvalidRaftTopology.
Proof.
  assert (Hb : bool_decide (planVoterReconciliation full_input = mkPlan AddNonvoter other_device 7 NoReason) &&
    bool_decide (¬ is_Some (validateDeviceAddressedSnapshotConfiguration eight)) &&
    bool_decide (is_Some (validateDeviceAddressedSnapshotConfiguration
      (nextConfiguration eight (mkChange raftChangeAddNonvoter other_device)))) = true) by (vm_compute; done).
  apply andb_true_iff in Hb as [[H1%bool_decide_eq_true H2%bool_decide_eq_true]%andb_true_iff H3%bool_decide_eq_true].
  split_and!; [exact H1|by apply eq_None_not_Some|]. by destruct H3 as [[] ->].
Qed.

End ReconciliationLiveness.
